(* ===== verification/_CoqProject ===== *)
-Q . S2P
Prelude.v
GoStd.v
Ledger.v
LoanAccounting.v
SyndicateAccounting.v
Calculation.v
Underwriting.v
CreditEvidence.v
PaymentTypes.v
AllocationMode.v
Allocation.v
AllocationAccounting.v
PaymentAccounting.v
CrossChainTypes.v
Message.v
MessageRegistry.v
MessageStore.v
CrossChainAccounting.v
Reconciliation.v
Provider.v
Recovery.v
ChainTypes.v
Payment.v
Rlp.v
Gateway.v
EvmProof.v
Trie.v
Indexer.v
SettlementDigest.v
SettlementTypes.v
SettlementStore.v
Settlement.v
SettlementMachine.v
SettlementRefinement.v
SettlementRuns.v
SettlementSample.v
PaymentSettlement.v
SettlementAccounting.v
SettlementBooks.v
SettlementBooksSample.v
SettlementRepository.v
Projector.v
ProjectorInvariant.v
ProjectorSafety.v
ProjectorEvidence.v
ProjectorRestore.v
ProjectorSample.v
Worker.v
WorkerActions.v
WorkerFlow.v
WorkerImport.v
WorkerEvidence.v
WorkerRun.v
WorkerSample.v
SqlStore.v
SqlEvidence.v
SqlDatabase.v
SqlHistory.v
SqlStoreRuns.v
SqlEvidenceFacts.v
SqlSample.v
WorkerDatabase.v
