(* ===== verification/Prelude.v ===== *)
(** * UNIFIED: a verification library for the Go services

    UNIFIED is a lending system. Loans live on a home chain; payments arrive over
    bank and card rails; collateral and wrapped tokens live on satellite chains.
    The Go services under src/services/ keep the money side of it:

    - the foundation ledger posts balanced, hashed, append-only double-entry
      journals, and small accounting services turn business events (loans,
      syndicates, allocations, payments, cross-chain effects) into journals;
    - the risk engine computes interest, repayment schedules and underwriting
      decisions;
    - the payment orchestrator accepts signed provider callbacks, allocates
      finalized payments to loan obligations, latches every payment to one
      allocation mode, and settles payments on chain through a gateway contract;
    - the chain indexer authenticates blocks, projects their events and hands
      finalized settlements, failures and reorganisations to the coordinator;
    - the cross-chain coordinator identifies, orders, stores, delivers, recovers
      and reconciles messages between chains.

    ** Files and the code they model

    Paths are relative to src/services/. L stands for foundation-ledger/internal,
    P for payment-orchestrator, X for cross-chain-coordinator, I for
    chain-indexer/projection.

    - [Prelude]: scopes, the [result] type and its [let?] notation, tactics, sums
      over lists and maps, sorting lemmas. No program code.
    - [GoStd]: what the code uses of Go's library: [math/big] (SetString, String,
      truncating division), [time], fixed-width integers, big-endian bytes, hex,
      length framing, and the hash and JSON parameters.
    - [Ledger]: L/ledger/ledger.go. [Ledger] is the record of the three maps of
      the Go struct; [Post], [PostBatch], [Reverse], [Get], [List_] are its methods.
    - [LoanAccounting], [SyndicateAccounting]: L/loanaccounting and
      L/syndicateaccounting accounting.go, one definition per posting method.
    - [Calculation]: risk-engine/internal/calculation (interest.go, schedule.go).
    - [Underwriting]: risk-engine/internal/underwriting/engine.go.
    - [CreditEvidence]: L/creditevidence/store.go.
    - [PaymentTypes]: the types of P/payment/payment.go that other packages use.
    - [AllocationMode]: P/allocationmode (registry.go, and the interface and the
      memory store of store.go). [ClaimStore] is the store interface with its laws.
    - [Allocation]: P/allocation/allocation.go, over the [Accounting] interface and
      the shared registry, which are part of the threaded system state.
    - [AllocationAccounting]: L/allocationaccounting/accounting.go, the
      implementation of that interface on the posting kernel.
    - [PaymentAccounting]: L/paymentaccounting/accounting.go (posting of provider
      transitions; reconciliation runs, exceptions, resolutions).
    - [CrossChainTypes]: the envelope, action and state types of the generated
      protobuf package that the coordinator works on.
    - [Message]: X/message/digest.go (ABI words, typed action payloads, the message
      id, validation, sealing). [MessageRegistry]: X/message/registry.go (ordered
      at-most-once execution, the lifecycle relation [CanTransition]).
    - [MessageStore]: X/store/store.go (routes, compare-and-set message records).
    - [CrossChainAccounting]: L/crosschainaccounting/accounting.go.
    - [Reconciliation]: Module [Controls] is X/reconciliation/reconciliation.go,
      Module [Boundaries] is L/crosschainreconciliation/reconciliation.go.
    - [Provider]: X/provider/provider.go (failover routing of deliveries).
    - [Recovery]: X/recovery/recovery.go (authorization digests, two-signer
      approval, payload decoding, the recovery manager).
    - [Payment]: P/payment (payment.go, local_reversal_coordinator.go): intents,
      signed callbacks, transitions, quarantined reversals. Its [Coordinator] class
      is the reversal coordinator it calls; [CoordinatorLaws] states what it needs: a call
      runs its callback at most once, and a reversal it reports as carried out is one whose
      callback succeeded.
      [PaymentSettlement]: the settlement coordinator keeps these laws over any lawful
      store, and a run in which a reversal is booked by a call that then fails.
    - [ChainTypes]: the records of I/indexer.go and evmproof.go that other packages
      use. [Rlp] and [EvmProof]: I/evmproof.go (RLP, headers, receipts, trie proofs,
      authenticated blocks). [Trie]: a reference Merkle-Patricia trie and the
      exactness of the proof walk. [Gateway]: I/gateway.go (decoding of logs).
      [Indexer]: I/indexer.go (ingestion, reorganisation, projection, evidence).
    - [SettlementDigest], [SettlementTypes], [SettlementStore], [Settlement]:
      P/settlement (digest.go, settlement.go, reversal.go, and the interface, the
      memory store and the recovery checks of store.go). [Store] is the store
      interface, [StoreLaws] what every operation does to its three tables, nothing when it
      answers an error.
      [SettlementMachine] is the abstract machine of one payment,
      [SettlementRefinement] the simulation of every operation, [SettlementRuns]
      runs, restarts and the theorems, [SettlementSample] the concrete runs.
    - [SettlementAccounting]: L/settlementaccounting/accounting.go and the adapter
      L/settlementintegration/adapter.go (authorities, verification, the poster).
      [SettlementBooks]: what the poster does to the books, with
      [SettlementBooksSample] for the concrete run. [SettlementRepository]:
      L/settlementrepository/repository.go (guards, query arguments, row reading).
    - [Projector]: chain-indexer/crosschain/projector.go. [Projector] is the record
      of the Go struct; [ProjectSource], [ProjectExecution], [ProjectReorganization],
      [RestoreSnapshot] and the like are its methods, the verifier is a parameter and
      [ReorganizationCodec] the protobuf encoding. [ProjectorInvariant] has the state
      invariant, [ProjectorSafety] the runs, [ProjectorEvidence] what the hashes bind,
      [ProjectorRestore] the snapshots, [ProjectorSample] the concrete runs.
    - The manifest flow of X/cmd/local-worker, which imports the recorded messages of a
      loan into the coordinator's database. [Worker]: the records of a release manifest
      and of an import, the readers of hashes, numbers and times (trust.go, manifest.go,
      manifest_import.go) and the ABI words of worker.go. [WorkerActions]:
      manifest_actions.go (payload decoding, the economics of a flow, the fields of an
      action, the statements that commit it). [WorkerImport]: manifest_import.go and
      manifest_cancellation.go (ids, proofs, certificates, adapter evidence, the
      statements of an import). [WorkerFlow], [WorkerEvidence] and [WorkerRun] have the
      theorems on these three parts, [WorkerSample] the concrete flow. The database is
      the parameter [Database]: the answers to its two queries and, for each statement,
      a new world or an error. [WorkerDatabase]: the same importer on the message tables
      of [SqlDatabase].
    - The durable message store, X/store/sql.go. [SqlStore]: messages, with the database as
      the record [Queryer] of one function per statement. [SqlEvidence]: routes, outbox,
      inbox, attempts, proofs, certificates, observations, reorganizations.
      [SqlDatabase]: the message tables and the procedures that record and move messages,
      from foundation-ledger/migrations/000010_crosschain_messages.sql; [Follows] is a
      queryer with this database behind it, which other clients of the procedures move too,
      with whatever arguments (the importer among them), and whose requests and responses
      may be lost. [SqlHistory]: what the procedures keep; [SqlStoreRuns]: the
      store against the memory store of [MessageStore]; [SqlEvidenceFacts]: the records of
      evidence, for any database; [SqlSample]: runs with lost responses.

    Within a file the definitions carry the Go names. A name ending in an
    underscore avoids a clash; lower-case helpers such as [validate_entries] or
    [payment_loop] are the bodies of Go loops, and [error] is the package's set of
    error values, one constructor per distinct message.

    ** How Go is modelled

    - A method on a struct takes and returns the struct. Operations that hold the
      mutex for their whole body are atomic, so a concurrent history is a sequence
      of calls: the step relations of the files quantify over all such sequences.
    - A function that returns an error returns [result]. On a call that fails after
      it changed state the definitions return both the new state and the error.
    - A function that can panic (the [must] readers of the worker) returns an
      [outcome]: a value, an error or [Panic]; a deferred recover is not in the code.
    - Deep copies ([slices.Clone], clone helpers) are identities on values. A slice that is
      kept without a copy ([Compensate] keeps the caller's payload) is modelled by its
      contents, so a caller that writes into it afterwards is not covered. Objects
      that two components share (the mode registry, the accounting service, the
      book) are threaded as one state, and the theorems let other owners use them.
    - [Time.t] is an instant and a location, because Go's [==] on times sees both.
      The clock is an argument.
    - [big.Int] is [Z]; decimal strings are parsed and printed as Go does it; uint32,
      uint64 and int64 fields wrap where the code lets them.
    - Callbacks, handlers and transports are functions on an arbitrary external
      world [W]; theorems about how often they run instrument that world.
    - Map iteration order is not observable in the code modelled, except where a
      result is sorted first; sorting is by a proved-unique sorted permutation.
    - Loops are structural recursions, or have fuel that is proved to be enough
      ([rayPower]: 32 steps for a uint32 exponent). Running out of fuel and division
      by zero are explicit error values, and theorems show they are not returned.
    - SHA-256, Keccak-256, the signature schemes, JSON and deterministic protobuf
      encodings are code outside the repository: type classes ([Sha256], [Keccak],
      [Secp256k1], [Ed25519], [Json], [JournalDigest], [EvidenceDigest],
      [PaymentDigests], [AccountingDigests], [ProtoMarshal], [CallbackCodec],
      [SnapshotCodec], [RepositoryCodec], [ReorganizationCodec], [WorkerJson],
      [ProtoUnmarshal], [JsonStrings]) with the documented facts used; so are the
      microseconds of a database time ([TimestampColumn]) and the JSON the database prints
      ([EventPayload]). Nothing assumes a hash to be injective: binding theorems conclude
      "equal fields, or the two named byte strings collide", a theorem about a run assumes at most that the
      values presented in it do not collide, and every class has a concrete instance
      in the [Sample] modules, where the witnesses evaluate the definitions.
    - A database query whose text is sent to an external engine is a function from its
      arguments to a row or an error ([authorityQueryer], [rowQueryer]).

    ** What the theorems show

    - Ledger: the trial balance of every reachable book is zero; validation is
      exactly a map-free specification; batches are transactions; posting is
      idempotent and append-only; a reversal cancels its journal and happens once.
    - Accounting services: each accepted event moves exactly the stated amounts
      between the stated accounts and everything else is refused; allocation and
      obligation move in lockstep; reversals and compensations restore balances;
      the bridge control accounts explain each other in every reachable book.
    - Allocation: debt is conserved under any interleaving; requests are idempotent;
      a payment is never allocated in two modes, also across restarts; release is
      offered only when the debt is covered for good.
    - Risk engine: schedules are total and conserve principal and interest; rounding
      bounds; decisions follow the policy; the evidence root binds the evidence.
    - Cross-chain: a message id binds its message; execution is at most once, in lane
      order, and never after expiry, and an answered call is answered the same for ever;
      stored messages follow the lifecycle and never
      both execute and are compensated; deliveries hand out exactly the persisted
      bytes; both reconciliations report exactly the broken equations; a recovery
      needs two signers and compensates once, the authorized asset and units.
    - Payments: a delivery has an effect only if it was signed by the provider for a
      bound payment; payments follow their life cycle; calls that succeed book each stage
      at most once, in order, however callbacks, reversals and resolutions interleave, and
      what a failing call leaves in the books is a reversal. A delivery that arrives while
      the reported consumptions cannot be applied leaves no record.
    - Chain projection: the RLP decoder is exact and terminates; trie proofs are
      exactly the lookups of a reference trie; block evidence binds; the indexer
      refines a hash-linked chain, a call that succeeds having put the delivered block
      into it and a call that fails having changed nothing; reorganisations are reported,
      though a settlement orphaned twice keeps only the second report; what it hands out
      as final is an event of an authenticated block below the finality depth.
    - Settlement, over stores whose failing operations change nothing: the coordinator, its
      shared registry and its store refine one machine per payment; a payment whose
      reversal was carried out with success is never confirmed on chain (a direct reversal
      that fails after its accounting committed is the exception); a confirmation carries the terms of the prepared request; a restart
      succeeds and loses nothing unless a recorded reorganisation is refused by the
      recovery check, as after the retry of a reorganised submission.
    - Settlement accounting: a confirmation that matches its durable authority and the
      payment's own journals is always posted, moves exactly the payment, the
      receivable and the lender claim, and survives restarts; a payment has one
      settlement, as long as identifiers hold no colon, and none once it was allocated; a deep reorganisation takes the
      settlement out again, and evidence verified for it is never refused.
    - Cross-chain projector: every projection held was authenticated in full; a final
      one is never lost or rewritten; one chain event serves one message; a report of
      a reorganisation disputes exactly the messages it names; a snapshot restores to
      the same messages exactly while its reports are in force, which a late
      acknowledgement breaks.
    - Local worker: payload decoding is exact; an accepted flow is the life of one loan
      and burns what it mints; an accepted cancellation is one cancellation, and one
      that precedes the disbursement is never imported; message ids, proof hashes and
      header commitments are those of the coordinator and the projector; a certificate
      has a quorum of distinct authorized signers; an import that returns normally leaves
      the whole life of its message in the database.
    - Durable store: over a database shared with any callers of its procedures and a lossy
      connection every success is an operation of the memory store at some moment of the
      call (a creation, if the message stands under the payload hash of its bytes); a version of a message is
      taken once; every message has its whole history and one event per transition; a time
      finer than a microsecond is never accepted, even when the database took it; the
      database's moves are those of the registry and two more; recorded evidence is the
      evidence of the request.

    ** Not modelled

    The SQL stores of P/allocationmode and P/settlement send statements and
    stored-procedure calls to a database. The interface laws state what the clients rely on,
    and the memory stores discharge them; the SQL stores do not keep them where a response
    is lost, because a request that answers an error may then have taken effect, so the
    settlement theorems say nothing of such runs. Of the database behind X/store/sql.go the
    procedures for routes, proofs, certificates, observations, reorganizations and
    deliveries are not modelled: their answers are arbitrary. Of the local worker
    (X/cmd/local-worker) the checks of the release manifest itself (manifest.go, manifest_release.go), the run loop and
    its policies (worker.go), the adapters, the durable snapshots, the object files and
    the configuration are left out: they read files, a database and nodes, and compare
    what they read with fixed addresses, roles and limits. Process start-up, flags and
    HTTP wiring (cmd/, core-api) are left out too.
*)
From Stdlib Require Export ZArith Lia.
From stdpp Require Export base gmap strings list sorting.

#[export] Set Default Proof Using "Type".
#[export] Set Warnings "-clear-no-such-hyp".

(** * Scopes and notations *)

Declare Scope go_scope.
Delimit Scope go_scope with go.
#[global] Open Scope Z_scope.
#[global] Open Scope go_scope.

(** Go's [==] and [!=] on strings, and the empty-string test that guards
    almost every operation of the program. *)
Notation "s =s t" := (String.eqb s t) (at level 70) : go_scope.
Notation "s <>s t" := (negb (String.eqb s t)) (at level 70) : go_scope.
Abbreviation empty_s s := (String.eqb s "").

(** The NUL separator used when composite map keys are concatenated. *)
Definition nul : string := String (Ascii.ascii_of_nat 0) "".

(** * Fallible computations

    A Go function that returns [(T, error)] becomes a [result]. *)

Inductive result (E A : Type) : Type :=
| Ok (a : A)
| Err (e : E).
Arguments Ok {E A} _.
Arguments Err {E A} _.

Definition is_ok {E A} (r : result E A) : bool :=
  match r with Ok _ => true | Err _ => false end.

Lemma Ok_inj {E A} (x y : A) : @Ok E A x = Ok y → x = y.
Proof. by intros [= ->]. Qed.

Definition map_err {E F A} (f : E → F) (r : result E A) : result F A :=
  match r with Ok a => Ok a | Err e => Err (f e) end.

(** [let? x := c in k] is the [if err != nil { return err }] idiom. *)
Notation "'let?' x ':=' c 'in' k" :=
  (match c with Ok x => k | Err e => Err e end)
  (at level 10, x pattern, c at level 200, k at level 200) : go_scope.

(** * Tactics *)

(** Turn a boolean guard that is known to be [true] or [false] into its
    atomic facts. *)
Ltac bool_facts :=
  repeat match goal with
  | H : _ || _ = false |- _ => apply orb_false_iff in H; destruct H
  | H : _ && _ = true |- _ => apply andb_true_iff in H; destruct H
  | H : negb _ = true |- _ => apply negb_true_iff in H
  | H : negb _ = false |- _ => apply negb_false_iff in H
  | H : (_ =? _) = true |- _ => apply Z.eqb_eq in H
  | H : (_ =? _) = false |- _ => apply Z.eqb_neq in H
  | H : (_ <? _) = true |- _ => apply Z.ltb_lt in H
  | H : (_ <? _) = false |- _ => apply Z.ltb_ge in H
  | H : (_ <=? _) = true |- _ => apply Z.leb_le in H
  | H : (_ <=? _) = false |- _ => apply Z.leb_gt in H
  | H : String.eqb _ _ = true |- _ => apply String.eqb_eq in H
  | H : String.eqb _ _ = false |- _ => apply String.eqb_neq in H
  | H : bool_decide _ = true |- _ => apply bool_decide_eq_true in H
  | H : bool_decide _ = false |- _ => apply bool_decide_eq_false in H
  end.

(** Case analysis on the scrutinee of the outermost [if] or [match] of a
    hypothesis; branches that contradict the hypothesis are closed. *)
Ltac step_in H :=
  match type of H with
  | context [match ?x with _ => _ end] =>
      lazymatch x with
      | context [match _ with _ => _ end] => fail
      | _ => destruct x eqn:?; simplify_eq/=
      end
  end.

(** Walk through every branch of a hypothesis [H : op ... = Ok ...]. *)
Ltac go_inv H := repeat (step_in H; try done).

(** Names the condition of a guard that must have let the run through. *)
Ltac pass_if H :=
  lazymatch goal with |- (if ?g then _ else _) = _ → _ => destruct g eqn:H; [done|] end.

(** The same on the goal. *)
Ltac step_goal :=
  match goal with
  | |- context [match ?x with _ => _ end] =>
      lazymatch x with
      | context [match _ with _ => _ end] => fail
      | _ => destruct x eqn:?; simplify_eq/=
      end
  end.

(** * Hint databases *)

Create HintDb go discriminated.
#[export] Hint Resolve lookup_insert_eq lookup_insert_ne : go.

(** * Sums of integers over lists and maps *)

Definition Zsum {A} (f : A → Z) (l : list A) : Z :=
  foldr (λ x acc, f x + acc) 0 l.

Lemma Zsum_nil {A} (f : A → Z) : Zsum f [] = 0.
Proof. reflexivity. Qed.

Lemma Zsum_cons {A} (f : A → Z) x l : Zsum f (x :: l) = f x + Zsum f l.
Proof. reflexivity. Qed.

Lemma Zsum_app {A} (f : A → Z) l k : Zsum f (l ++ k) = Zsum f l + Zsum f k.
Proof. induction l as [|x l IH]; simpl; [lia|]. rewrite IH; lia. Qed.

Lemma Zsum_perm {A} (f : A → Z) l k : l ≡ₚ k → Zsum f l = Zsum f k.
Proof. induction 1; simpl in *; lia. Qed.

#[export] Instance Zsum_Permutation_proper {A} (f : A → Z) :
  Proper ((≡ₚ) ==> (=)) (Zsum f).
Proof. intros l k. apply Zsum_perm. Qed.

Lemma Zsum_ext {A} (f g : A → Z) l :
  (∀ x, x ∈ l → f x = g x) → Zsum f l = Zsum g l.
Proof.
  induction l as [|x l IH]; intros Hfg; simpl; [done|].
  rewrite Hfg, IH by set_solver. done.
Qed.

Lemma Zsum_fmap {A B} (f : B → Z) (g : A → B) l :
  Zsum f (g <$> l) = Zsum (λ x, f (g x)) l.
Proof. induction l as [|x l IH]; [done|]. rewrite fmap_cons, !Zsum_cons. by rewrite IH. Qed.

Lemma Zsum_opp {A} (f : A → Z) l : Zsum (λ x, - f x) l = - Zsum f l.
Proof. induction l as [|x l IH]; simpl; lia. Qed.

Lemma Zsum_sub {A} (f g : A → Z) l :
  Zsum (λ x, f x - g x) l = Zsum f l - Zsum g l.
Proof. induction l as [|x l IH]; simpl; lia. Qed.

Lemma Zsum_zero {A} (f : A → Z) l : (∀ x, x ∈ l → f x = 0) → Zsum f l = 0.
Proof.
  induction l as [|x l IH]; intros Hf; simpl; [done|].
  rewrite Hf, IH by set_solver. lia.
Qed.

Lemma Zsum_nonneg {A} (f : A → Z) l : (∀ x, x ∈ l → 0 <= f x) → 0 <= Zsum f l.
Proof.
  induction l as [|x l IH]; intros Hf; simpl; [lia|].
  assert (0 <= f x) by set_solver. assert (0 <= Zsum f l) by (apply IH; set_solver).
  lia.
Qed.

(** Sum of a measure over the values of a finite map. *)
Definition Msum {K A} `{Countable K} (f : A → Z) (m : gmap K A) : Z :=
  Zsum (λ kv, f kv.2) (map_to_list m).

Section Msum.
Context {K A : Type} `{Countable K}.
Implicit Types (m : gmap K A) (f : A → Z).

Lemma Msum_empty f : Msum f (∅ : gmap K A) = 0.
Proof. unfold Msum. by rewrite map_to_list_empty. Qed.

Lemma Msum_insert_fresh f m i x :
  m !! i = None → Msum f (<[i:=x]> m) = f x + Msum f m.
Proof. intros Hi. unfold Msum. by rewrite map_to_list_insert. Qed.

Lemma Msum_delete f m i x : m !! i = Some x → Msum f m = f x + Msum f (delete i m).
Proof.
  intros Hi. rewrite <- (insert_id m i x) at 1 by done.
  rewrite <- insert_delete_eq. apply Msum_insert_fresh, lookup_delete_eq.
Qed.

Lemma Msum_insert_replace f m i x y :
  m !! i = Some x → Msum f (<[i:=y]> m) = f y - f x + Msum f m.
Proof.
  intros Hi. rewrite (Msum_delete f m i x) by done.
  rewrite <- insert_delete_eq, Msum_insert_fresh by apply lookup_delete_eq. lia.
Qed.

Lemma Msum_ext f g m :
  (∀ i x, m !! i = Some x → f x = g x) → Msum f m = Msum g m.
Proof.
  intros Hfg. apply Zsum_ext. intros [i x] Hix%elem_of_map_to_list. by apply (Hfg i).
Qed.

Lemma Msum_zero f m : (∀ i x, m !! i = Some x → f x = 0) → Msum f m = 0.
Proof.
  intros Hf. apply Zsum_zero. intros [i x] Hix%elem_of_map_to_list. by apply (Hf i).
Qed.

Lemma Msum_nonneg f m : (∀ i x, m !! i = Some x → 0 <= f x) → 0 <= Msum f m.
Proof.
  intros Hf. apply Zsum_nonneg. intros [i x] Hix%elem_of_map_to_list. by apply (Hf i).
Qed.
End Msum.

(** * Maps used as dictionaries *)

(** Go's [m[k]] on a missing key yields the zero value. *)
Definition lookup_zero {K A} `{Countable K} (zero : A) (m : gmap K A) (k : K) : A :=
  default zero (m !! k).

Lemma lookup_zero_Some {K A} `{Countable K} (zero : A) (m : gmap K A) k x :
  m !! k = Some x → lookup_zero zero m k = x.
Proof. unfold lookup_zero. by intros ->. Qed.

(** [_, exists := m[k]]. *)
Definition has_key {K A} `{Countable K} (m : gmap K A) (k : K) : bool :=
  bool_decide (is_Some (m !! k)).

Lemma has_key_true {K A} `{Countable K} (m : gmap K A) k :
  has_key m k = true ↔ is_Some (m !! k).
Proof. apply bool_decide_eq_true. Qed.

Lemma has_key_false {K A} `{Countable K} (m : gmap K A) k :
  has_key m k = false ↔ m !! k = None.
Proof.
  unfold has_key. rewrite bool_decide_eq_false, <- eq_None_not_Some. done.
Qed.

(** * Sorting by a string key ([slices.SortFunc] on strings) *)

Section SortBy.
Context {A : Type} (key : A → string).
Definition key_le (x y : A) : Prop := String.le (key x) (key y).
#[export] Instance key_le_dec : RelDecision key_le.
Proof. intros x y. unfold key_le. apply _. Defined.
#[export] Instance key_le_total : Total key_le.
Proof. intros x y. unfold key_le. apply String.le_total. Qed.
#[export] Instance key_le_trans : Transitive key_le.
Proof. intros x y z. unfold key_le. apply String.le_po. Qed.

Definition sort_by (l : list A) : list A := merge_sort key_le l.

Lemma sort_by_perm l : sort_by l ≡ₚ l.
Proof. apply merge_sort_Permutation. Qed.

(** With pairwise distinct keys the sorted list does not depend on the order
    of its input, whatever sorting algorithm computes it. *)
Lemma sort_by_unique l k :
  NoDup (key <$> l) → l ≡ₚ k → sort_by l = sort_by k.
Proof.
  intros Hnd Hlk. apply (StronglySorted_unique_strong key_le).
  - intros x1 x2 H1 H2 H3 H4.
    assert (key x1 = key x2) as Hk.
    { apply (anti_symm String.le); done. }
    rewrite sort_by_perm in H1. rewrite sort_by_perm, <- Hlk in H2.
    clear -Hnd H1 H2 Hk. induction l as [|z l IH]; [set_solver|].
    apply NoDup_cons in Hnd as [Hz Hnd].
    apply elem_of_cons in H1 as [->|H1]; apply elem_of_cons in H2 as [->|H2]; auto.
    + destruct Hz. rewrite Hk. by apply list_elem_of_fmap_2.
    + destruct Hz. rewrite <- Hk. by apply list_elem_of_fmap_2.
  - apply StronglySorted_merge_sort; apply _.
  - apply StronglySorted_merge_sort; apply _.
  - by rewrite !sort_by_perm.
Qed.
End SortBy.
