(* ===== verification/GoStd.v ===== *)
(** The part of Go's standard library the services rely on: decimal
    [math/big] integers, [time.Time], fixed-width unsigned integers and
    big-endian byte strings. *)
From Stdlib Require Import Ascii Decimal DecimalString DecimalZ DecimalFacts DecimalPos.
From S2P Require Import Prelude.

(** * [math/big]

    A [*big.Int] is an unbounded integer. [SetString(s, 10)] accepts an
    optional sign followed by at least one decimal digit and nothing else;
    [String()] prints the canonical form (no leading zeros, no plus sign). *)
Module Big.

Definition digits (s : string) : option Z :=
  match s with
  | EmptyString => None
  | _ => Z.of_uint <$> NilEmpty.uint_of_string s
  end.

Definition set_string (s : string) : option Z :=
  match s with
  | EmptyString => None
  | String c r =>
      if Ascii.eqb c "-"%char then Z.opp <$> digits r
      else if Ascii.eqb c "+"%char then digits r
      else digits s
  end.

Definition to_string (z : Z) : string := NilZero.string_of_int (Z.to_int z).

(** [Sign()]. *)
Definition sign (z : Z) : Z := Z.sgn z.

Lemma digits_uint d : d ≠ Nil → digits (NilEmpty.string_of_uint d) = Some (Z.of_uint d).
Proof.
  intros Hd. unfold digits.
  destruct (NilEmpty.string_of_uint d) as [|c r] eqn:E.
  - by destruct d.
  - rewrite <- E, NilEmpty.usu. done.
Qed.

Lemma uint_head_not_sign d c r :
  NilEmpty.string_of_uint d = String c r →
  Ascii.eqb c "-"%char = false ∧ Ascii.eqb c "+"%char = false.
Proof. destruct d; simpl; intros [= <- <-]; done. Qed.

Lemma set_string_uint d :
  d ≠ Nil → set_string (NilEmpty.string_of_uint d) = Some (Z.of_uint d).
Proof.
  intros Hd. pose proof (digits_uint d Hd) as Hdig. unfold set_string.
  destruct (NilEmpty.string_of_uint d) as [|c r] eqn:E; [by destruct d|].
  by destruct (uint_head_not_sign d c r E) as [-> ->].
Qed.

(** Printing then parsing is the identity. *)
Lemma set_string_to_string z : set_string (to_string z) = Some z.
Proof.
  unfold to_string. destruct z as [|p|p]; [done| |]; simpl.
  - assert (Pos.to_uint p ≠ Nil) as Hn by apply DecimalPos.Unsigned.to_uint_nonnil.
    transitivity (set_string (NilEmpty.string_of_uint (Pos.to_uint p))).
    { unfold NilZero.string_of_uint. by destruct (Pos.to_uint p). }
    rewrite set_string_uint by done. unfold Z.of_uint. by rewrite DecimalPos.Unsigned.of_to.
  - assert (Pos.to_uint p ≠ Nil) as Hn by apply DecimalPos.Unsigned.to_uint_nonnil.
    assert (NilZero.string_of_uint (Pos.to_uint p)
            = NilEmpty.string_of_uint (Pos.to_uint p)) as ->.
    { unfold NilZero.string_of_uint. by destruct (Pos.to_uint p). }
    rewrite digits_uint by done. simpl. unfold Z.of_uint.
    by rewrite DecimalPos.Unsigned.of_to.
Qed.

Lemma to_string_inj a b : to_string a = to_string b → a = b.
Proof.
  intros H. apply (f_equal set_string) in H. rewrite !set_string_to_string in H. congruence.
Qed.

Lemma to_string_nonempty z : to_string z ≠ ""%string.
Proof. intros H. pose proof (set_string_to_string z) as Hz. by rewrite H in Hz. Qed.

(** [parsed.String() == value]: the canonical-form test. *)
Definition canonical (s : string) : option Z :=
  match set_string s with
  | Some z => if to_string z =s s then Some z else None
  | None => None
  end.

Lemma canonical_Some s z : canonical s = Some z ↔ s = to_string z.
Proof.
  unfold canonical. split.
  - intros H. go_inv H. bool_facts. by subst.
  - intros ->. by rewrite set_string_to_string, String.eqb_refl.
Qed.

Lemma canonical_to_string z : canonical (to_string z) = Some z.
Proof. by apply canonical_Some. Qed.

(** [parsed, ok] with [ok && Sign() >= 0], and with [ok && Sign() > 0]. *)
Definition nonneg (s : string) : option Z :=
  match set_string s with
  | Some z => if 0 <=? z then Some z else None
  | None => None
  end.

Definition positive (s : string) : option Z :=
  match set_string s with
  | Some z => if 0 <? z then Some z else None
  | None => None
  end.

Definition canonical_nonneg (s : string) : option Z :=
  match canonical s with
  | Some z => if 0 <=? z then Some z else None
  | None => None
  end.

Definition canonical_positive (s : string) : option Z :=
  match canonical s with
  | Some z => if 0 <? z then Some z else None
  | None => None
  end.

Lemma nonneg_Some s z : nonneg s = Some z ↔ set_string s = Some z ∧ 0 <= z.
Proof.
  unfold nonneg. destruct (set_string s) as [y|]; [|naive_solver].
  destruct (Z.leb_spec 0 y); split; intros; destruct_and?; simplify_eq; auto; lia.
Qed.

Lemma positive_Some s z : positive s = Some z ↔ set_string s = Some z ∧ 0 < z.
Proof.
  unfold positive. destruct (set_string s) as [y|]; [|naive_solver].
  destruct (Z.ltb_spec 0 y); split; intros; destruct_and?; simplify_eq; auto; lia.
Qed.

Lemma canonical_nonneg_Some s z :
  canonical_nonneg s = Some z ↔ s = to_string z ∧ 0 <= z.
Proof.
  unfold canonical_nonneg. rewrite <- canonical_Some.
  destruct (canonical s) as [y|]; [|naive_solver].
  destruct (Z.leb_spec 0 y); split; intros; destruct_and?; simplify_eq; auto; lia.
Qed.

Lemma canonical_positive_Some s z :
  canonical_positive s = Some z ↔ s = to_string z ∧ 0 < z.
Proof.
  unfold canonical_positive. rewrite <- canonical_Some.
  destruct (canonical s) as [y|]; [|naive_solver].
  destruct (Z.ltb_spec 0 y); split; intros; destruct_and?; simplify_eq; auto; lia.
Qed.

Lemma canonical_nonneg_to_string z : 0 <= z → canonical_nonneg (to_string z) = Some z.
Proof. intros. by apply canonical_nonneg_Some. Qed.

Lemma canonical_positive_to_string z : 0 < z → canonical_positive (to_string z) = Some z.
Proof. intros. by apply canonical_positive_Some. Qed.

End Big.

#[export] Hint Resolve Big.set_string_to_string Big.canonical_to_string : go.

(** * [time]

    A [time.Time] is an instant (nanoseconds since the zero time, January 1
    of year 1, UTC) and a location; the nil location is UTC. [UTC()] keeps
    the instant and clears the location, [Equal]/[Before]/[After] compare
    instants, and Go's [==] on a struct that holds a time compares both. *)
Module Time.

Record t := mk { ns : Z; loc : string }.

#[global] Instance t_eq_dec : EqDecision t.
Proof. solve_decision. Defined.

Definition zero : t := mk 0 "".
Definition IsZero (a : t) : bool := ns a =? 0.
Definition UTC (a : t) : t := mk (ns a) "".
Definition Equal (a b : t) : bool := ns a =? ns b.
Definition Before (a b : t) : bool := ns a <? ns b.
Definition After (a b : t) : bool := ns b <? ns a.

(** [time.Duration] is an [int64] count of nanoseconds; [Sub] saturates. *)
Definition max_duration : Z := 2 ^ 63 - 1.
Definition min_duration : Z := - 2 ^ 63.
Definition Sub (a b : t) : Z :=
  Z.max min_duration (Z.min max_duration (ns a - ns b)).

Definition hour : Z := 3600 * 1000000000.

(** [Add] of a duration. *)
Definition Add (a : t) (d : Z) : t := mk (ns a + d) (loc a).

(** [int64] arithmetic wraps. *)
Definition i64 (z : Z) : Z := (z + 2 ^ 63) mod 2 ^ 64 - 2 ^ 63.

(** Seconds from the zero time to January 1, 1970. *)
Definition unix_epoch : Z := 62135596800.
Definition Unix (a : t) : Z := i64 (ns a / 1000000000 - unix_epoch).
(** [UnixNano] multiplies and adds in [int64]. *)
Definition UnixNano (a : t) : Z := i64 (ns a - unix_epoch * 1000000000).

Lemma UTC_idem a : UTC (UTC a) = UTC a.
Proof. reflexivity. Qed.

Lemma IsZero_UTC a : IsZero (UTC a) = IsZero a.
Proof. reflexivity. Qed.

(** [Format(time.RFC3339Nano)] of a UTC time: the civil date of the proleptic
    Gregorian calendar, the time of day, and the fraction of a second without
    its trailing zeros. *)
Definition civil (days : Z) : Z * Z * Z :=
  let z := days + 306 in
  let era := z / 146097 in
  let doe := z mod 146097 in
  let yoe := (doe - doe / 1460 + doe / 36524 - doe / 146096) / 365 in
  let doy := doe - (365 * yoe + yoe / 4 - yoe / 100) in
  let mp := (5 * doy + 2) / 153 in
  let d := doy - (153 * mp + 2) / 5 + 1 in
  let m := if mp <? 10 then mp + 3 else mp - 9 in
  (yoe + era * 400 + (if m <=? 2 then 1 else 0), m, d).

Fixpoint pad (width : nat) (z : Z) : string :=
  match width with
  | O => ""%string
  | S w => pad w (z / 10) +:+ String (ascii_of_N (Z.to_N (48 + z mod 10))) ""
  end.

Definition pad_year (y : Z) : string :=
  let digits := if Z.abs y <? 10000 then pad 4 (Z.abs y) else Big.to_string (Z.abs y) in
  if y <? 0 then String "-"%char digits else digits.

(** Nine digits with the trailing zeros removed; nothing when all are zero. *)
Fixpoint trimmed (width : nat) (z : Z) : string :=
  match width with
  | O => ""%string
  | S w => if z mod 10 =? 0 then trimmed w (z / 10) else pad width z
  end.

Definition fraction (nanos : Z) : string :=
  if nanos =? 0 then ""%string else String "."%char (trimmed 9 nanos).

Definition rfc3339nano (a : t) : string :=
  let day_ns := 24 * hour in
  let '(y, m, d) := civil (ns a / day_ns) in
  let rest := ns a mod day_ns in
  pad_year y +:+ "-" +:+ pad 2 m +:+ "-" +:+ pad 2 d +:+ "T" +:+
  pad 2 (rest / hour) +:+ ":" +:+ pad 2 (rest / 60000000000 mod 60) +:+ ":" +:+
  pad 2 (rest / 1000000000 mod 60) +:+ fraction (rest mod 1000000000) +:+ "Z".

Example rfc3339nano_leap_day :
  rfc3339nano (mk ((738944 * 86400 + 45296) * 1000000000 + 500000000) "")
  = "2024-02-29T12:34:56.5Z"%string.
Proof. reflexivity. Qed.

End Time.


(** * Fixed-width unsigned integers *)

Definition u32 (z : Z) : Z := z mod 2 ^ 32.
Definition u64 (z : Z) : Z := z mod 2 ^ 64.

Lemma u32_small z : 0 <= z < 2 ^ 32 → u32 z = z.
Proof. apply Z.mod_small. Qed.

Lemma u64_small z : 0 <= z < 2 ^ 64 → u64 z = z.
Proof. apply Z.mod_small. Qed.

Lemma u32_range z : 0 <= u32 z < 2 ^ 32.
Proof. apply Z.mod_pos_bound. lia. Qed.

Lemma u64_range z : 0 <= u64 z < 2 ^ 64.
Proof. apply Z.mod_pos_bound. lia. Qed.

(** * Big-endian bytes ([encoding/binary])

    Byte strings are Rocq strings; [be_bytes n z] is the [n]-byte big-endian
    encoding of [z mod 256^n]. *)

Definition byte_of (z : Z) : Ascii.ascii := Ascii.ascii_of_N (Z.to_N (z mod 256)).

Fixpoint be_bytes (n : nat) (z : Z) : string :=
  match n with
  | O => ""%string
  | S n => String (byte_of (z / 256 ^ Z.of_nat n)) (be_bytes n z)
  end.

Lemma be_bytes_length n z : String.length (be_bytes n z) = n.
Proof. induction n; simpl; congruence. Qed.

Lemma byte_of_inj a b : byte_of a = byte_of b → a mod 256 = b mod 256.
Proof.
  unfold byte_of. intros H. apply (f_equal Ascii.N_of_ascii) in H.
  pose proof (Z.mod_pos_bound a 256 ltac:(lia)).
  pose proof (Z.mod_pos_bound b 256 ltac:(lia)).
  rewrite !Ascii.N_ascii_embedding in H by lia. lia.
Qed.

Lemma be_bytes_inj n a b :
  0 <= a < 256 ^ Z.of_nat n → 0 <= b < 256 ^ Z.of_nat n →
  be_bytes n a = be_bytes n b → a = b.
Proof.
  assert (∀ m, be_bytes m a = be_bytes m b →
    a mod 256 ^ Z.of_nat m = b mod 256 ^ Z.of_nat m) as Hmod.
  { induction m as [|m IH]; intros H; [by rewrite !Z.mod_1_r|].
    injection H as Hb Hr. apply byte_of_inj in Hb. apply IH in Hr.
    rewrite Nat2Z.inj_succ, Z.pow_succ_r, Z.mul_comm by lia.
    rewrite !Z.rem_mul_r by lia. congruence. }
  intros Ha Hb H%Hmod. by rewrite !Z.mod_small in H by lia.
Qed.

(** [new(big.Int).SetBytes] and the fixed-width readers of [encoding/binary]. *)
Fixpoint be_value_from (acc : Z) (s : string) : Z :=
  match s with
  | EmptyString => acc
  | String c r => be_value_from (acc * 256 + Z.of_N (Ascii.N_of_ascii c)) r
  end.
Definition be_value (s : string) : Z := be_value_from 0 s.

Lemma be_value_from_acc acc s :
  be_value_from acc s = acc * 256 ^ Z.of_nat (String.length s) + be_value s.
Proof.
  unfold be_value. revert acc. induction s as [|c s IH]; intros acc; [simpl; lia|].
  cbn [be_value_from String.length]. rewrite IH, (IH (0 * 256 + _)), Nat2Z.inj_succ, Z.pow_succ_r by lia.
  ring.
Qed.

Lemma byte_of_value z : Z.of_N (Ascii.N_of_ascii (byte_of z)) = z mod 256.
Proof.
  unfold byte_of. pose proof (Z.mod_pos_bound z 256 ltac:(lia)).
  rewrite Ascii.N_ascii_embedding by lia. lia.
Qed.

Lemma be_value_cons c s :
  be_value (String c s) = Z.of_N (Ascii.N_of_ascii c) * 256 ^ Z.of_nat (String.length s) + be_value s.
Proof. unfold be_value at 1. cbn [be_value_from]. rewrite be_value_from_acc. lia. Qed.

Lemma be_value_mod n z : be_value (be_bytes n z) = z mod 256 ^ Z.of_nat n.
Proof.
  induction n as [|n IH]; [by rewrite Z.mod_1_r|].
  cbn [be_bytes]. rewrite be_value_cons, be_bytes_length, byte_of_value, IH.
  rewrite Nat2Z.inj_succ, Z.pow_succ_r by lia.
  rewrite (Z.mul_comm 256), Z.rem_mul_r by lia. lia.
Qed.

Lemma be_value_bytes n z : 0 <= z < 256 ^ Z.of_nat n → be_value (be_bytes n z) = z.
Proof. intros Hz. rewrite be_value_mod. by apply Z.mod_small. Qed.

Lemma be_value_range s : 0 <= be_value s < 256 ^ Z.of_nat (String.length s).
Proof.
  induction s as [|c s IH]; [done|]. rewrite be_value_cons. cbn [String.length].
  rewrite Nat2Z.inj_succ, Z.pow_succ_r by lia.
  assert (0 <= Z.of_N (Ascii.N_of_ascii c) < 256)
    by (pose proof (Ascii.N_ascii_bounded c); lia). nia.
Qed.

Lemma string_app_inj_l a b c d :
  String.length a = String.length b → (a +:+ c = b +:+ d) → a = b ∧ c = d.
Proof.
  revert b. induction a as [|x a IH]; intros [|y b]; simpl; intros Hl H; try done.
  injection H as -> H. injection Hl as Hl. destruct (IH b Hl H). by subst.
Qed.

(** [hex.EncodeToString] of a byte string. *)
Definition hex_digit (n : N) : Ascii.ascii :=
  Ascii.ascii_of_N (if (n <? 10)%N then 48 + n else 87 + n).

Fixpoint hex (s : string) : string :=
  match s with
  | EmptyString => ""%string
  | String c r =>
      let n := Ascii.N_of_ascii c in
      String (hex_digit (n / 16)) (String (hex_digit (n mod 16)) (hex r))
  end.

Example hex_bytes : hex (be_bytes 3 1027) = "000403"%string.
Proof. reflexivity. Qed.

Lemma hex_digit_inj a b : (a < 16)%N → (b < 16)%N → hex_digit a = hex_digit b → a = b.
Proof.
  unfold hex_digit. intros Ha Hb H. apply (f_equal Ascii.N_of_ascii) in H.
  destruct (N.ltb_spec a 10), (N.ltb_spec b 10);
    rewrite !Ascii.N_ascii_embedding in H by lia; lia.
Qed.

#[export] Instance hex_inj : Inj (=) (=) hex.
Proof.
  intros a. induction a as [|x a IH]; intros [|y b]; cbn [hex]; intros H; try done.
  injection H as H1 H2 H3. apply IH in H3 as ->. f_equal.
  pose proof (Ascii.N_ascii_bounded x). pose proof (Ascii.N_ascii_bounded y).
  apply hex_digit_inj in H1; [|apply N.Div0.div_lt_upper_bound; lia..].
  apply hex_digit_inj in H2; [|apply N.mod_lt; lia..].
  rewrite <- (Ascii.ascii_N_embedding x), <- (Ascii.ascii_N_embedding y). f_equal.
  rewrite (N.div_mod (Ascii.N_of_ascii x) 16), (N.div_mod (Ascii.N_of_ascii y) 16) by lia.
  congruence.
Qed.

(** SHA-256 is a parameter of the model: a function from byte strings to
    digests. No theorem assumes it injective. *)
Class Sha256 := sha256 : string → string.

(** Two given messages collide. Some two messages always do; binding theorems
    name the two messages, which the code builds from the data it was given. *)
Definition collision `{Sha256} (a b : string) : Prop := a ≠ b ∧ sha256 a = sha256 b.

(** [json.Marshal] of a struct: a parameter of the model that maps the
    struct's field names and values, in declaration order, to bytes. *)
#[warnings="-register-all"]
Inductive jval := JString (s : string) | JUint (z : Z) | JTime (t : Time.t) | JBool (b : bool)
  | JObject (fields : list (string * jval)).
Class Json := marshal : list (string * jval) → string.

(** [hex(sha256(tag || 0x00 || json))], the digest most packages build. *)
Definition tagged_digest `{Sha256, Json} (tag : string) (fields : list (string * jval)) : string :=
  hex (sha256 (tag +:+ nul +:+ marshal fields)).

(** A length-prefixed field ([binary.BigEndian.PutUint64] of the length, then
    the bytes), and a sequence of them. *)
Definition frame (value : string) : string :=
  be_bytes 8 (u64 (Z.of_nat (String.length value))) +:+ value.

Definition frames (values : list string) : string :=
  foldr (λ v acc, frame v +:+ acc) ""%string values.

#[global] Arguments frame : simpl never.
#[global] Arguments frames : simpl never.

Definition fits (value : string) : Prop := Z.of_nat (String.length value) < 2 ^ 64.

Lemma string_app_assoc (a b c : string) : (a +:+ b) +:+ c = a +:+ (b +:+ c).
Proof. induction a as [|x a IH]; [done|]. exact (f_equal (String x) IH). Qed.

Lemma string_app_nil_r (a : string) : a +:+ "" = a.
Proof. induction a as [|x a IH]; [done|]. exact (f_equal (String x) IH). Qed.

Lemma string_app_length a b : String.length (a +:+ b) = (String.length a + String.length b)%nat.
Proof. induction a as [|x a IH]; [done|]. exact (f_equal S IH). Qed.

Lemma string_prefix_app a b : String.prefix a (a +:+ b) = true.
Proof.
  induction a as [|x a IH]; simpl; [by destruct b|].
  by destruct (Ascii.ascii_dec x x).
Qed.

Lemma substring_full s : String.substring 0 (String.length s) s = s.
Proof. induction s as [|x s IH]; [done|]. exact (f_equal (String x) IH). Qed.

Lemma substring_prefix n a b :
  String.length a = n → String.substring 0 n (a +:+ b) = a.
Proof.
  intros <-. induction a as [|x a IH]; [by destruct b|]. exact (f_equal (String x) IH).
Qed.

Lemma substring_skip k n a b :
  String.length a = k → String.substring k n (a +:+ b) = String.substring 0 n b.
Proof. intros <-. induction a as [|x a IH]; [done|]. exact IH. Qed.

Lemma substring_skip_add k i n a b :
  String.length a = k → String.substring (k + i) n (a +:+ b) = String.substring i n b.
Proof. intros <-. induction a as [|x a IH]; [done|]. exact IH. Qed.

Lemma string_app_split (a b c d : string) :
  a +:+ b = c +:+ d →
  ∃ x, (a = c +:+ x ∧ d = x +:+ b) ∨ (c = a +:+ x ∧ b = x +:+ d).
Proof.
  revert c. induction a as [|y a IH]; intros [|z c] E.
  - exists ""%string. by left.
  - exists (String z c). by right.
  - exists (String y a). left. by split.
  - injection E as -> E. destruct (IH c E) as (x & [[-> ->]|[-> ->]]); exists x; [left|right]; done.
Qed.

(** A separator-free prefix is determined by the string it starts. *)
Fixpoint has_char (c : Ascii.ascii) (s : string) : bool :=
  match s with
  | EmptyString => false
  | String x r => Ascii.eqb x c || has_char c r
  end.

Lemma has_char_app c a b : has_char c (a +:+ b) = has_char c a || has_char c b.
Proof. induction a as [|x a IH]; simpl; [done|]. by rewrite IH, orb_assoc. Qed.

Lemma separator_inj c a b x y :
  has_char c a = false → has_char c b = false →
  a +:+ String c x = b +:+ String c y → a = b ∧ x = y.
Proof.
  intros Ha Hb E. apply string_app_split in E as (z & [[-> Hz]|[-> Hz]]);
    rewrite has_char_app in *; destruct z as [|w z]; injection Hz; clear Hz; intros; subst.
  - by rewrite string_app_nil_r.
  - simpl in Ha. rewrite Ascii.eqb_refl, orb_true_r in Ha. done.
  - by rewrite string_app_nil_r.
  - simpl in Hb. rewrite Ascii.eqb_refl, orb_true_r in Hb. done.
Qed.

(** So is what follows the last separator, when nothing after it has one. *)
Lemma last_separator_inj c a b x y :
  has_char c x = false → has_char c y = false →
  a +:+ String c x = b +:+ String c y → a = b ∧ x = y.
Proof.
  intros Hx Hy E. apply string_app_split in E as (z & [[-> Hz]|[-> Hz]]);
    destruct z as [|w z]; injection Hz; clear Hz; intros; subst.
  - by rewrite string_app_nil_r.
  - rewrite has_char_app in Hy. simpl in Hy. by rewrite Ascii.eqb_refl, orb_true_r in Hy.
  - by rewrite string_app_nil_r.
  - rewrite has_char_app in Hx. simpl in Hx. by rewrite Ascii.eqb_refl, orb_true_r in Hx.
Qed.

Lemma frame_inj a b r s : fits a → fits b → frame a +:+ r = frame b +:+ s → a = b ∧ r = s.
Proof.
  unfold frame, fits. intros Ha Hb H. rewrite !string_app_assoc in H.
  apply string_app_inj_l in H as [Hl H]; [|by rewrite !be_bytes_length].
  apply be_bytes_inj in Hl; [|apply u64_range..].
  rewrite !u64_small in Hl by lia. apply string_app_inj_l in H; [done|lia].
Qed.

Lemma frames_inj xs ys :
  length xs = length ys → Forall fits xs → Forall fits ys → frames xs = frames ys → xs = ys.
Proof.
  revert ys. induction xs as [|x xs IH]; intros [|y ys] Hl Hx Hy H; try done.
  inversion_clear Hx. inversion_clear Hy. injection Hl as Hl.
  apply frame_inj in H as [-> H]; [|done..]. f_equal. by apply IH.
Qed.

Lemma frames_app xs ys : frames (xs ++ ys) = frames xs +:+ frames ys.
Proof.
  induction xs as [|x xs IH]; [done|]. change (frames ((x :: xs) ++ ys)) with
    (frame x +:+ frames (xs ++ ys)). rewrite IH. symmetry. apply string_app_assoc.
Qed.

(** * Guards

    [pass_guard] discharges the outermost validation guard of a handler from
    the facts in the context: every disjunct is shown false. *)

Ltac solve_guard :=
  unfold Time.IsZero, Time.After, Time.Before, Time.Equal in *;
  repeat (apply orb_false_iff; split);
  first [ done
        | by apply String.eqb_neq
        | by apply negb_false_iff, String.eqb_eq
        | by apply Z.eqb_neq
        | apply Z.eqb_neq; lia
        | apply Z.ltb_ge; lia
        | apply Z.leb_gt; lia
        | apply negb_false_iff, Z.ltb_lt; lia
        | apply negb_false_iff, Z.eqb_eq; lia ].

Ltac pass_guard :=
  lazymatch goal with
  | |- context [if ?g then _ else _] =>
      replace g with false by (symmetry; solve_guard); cbv iota
  end.
