(* ===== verification/Ledger.v ===== *)
(** The double-entry posting kernel
    (services/foundation-ledger/internal/ledger/ledger.go).

    The three Go maps are the three finite maps of [Ledger]; every method runs
    under the ledger's mutex, so each is one atomic transition. The clock
    reading [time.Now().UTC()] is an argument. The copies that [copyJournal],
    [clone] and the two map-cloning helpers make are invisible on immutable
    values: a stored journal cannot be changed through a value that was handed
    out, which is what the copies are for. *)
From S2P Require Import Prelude GoStd.

(** * Data *)

Definition Debit : string := "DEBIT".
Definition Credit : string := "CREDIT".

Record Entry := mkEntry {
  e_AccountCode : string;
  e_Side : string;
  e_AssetID : string;
  e_Units : string;
  e_PartyID : string;
  e_LoanID : string;
  e_TrancheID : string }.

Record Journal := mkJournal {
  j_ID : string;
  j_LegalEntityID : string;
  j_BookID : string;
  j_SourceSystem : string;
  j_EntryType : string;
  j_SourceEventID : string;
  j_LoanID : string;
  j_IdempotencyKey : string;
  j_CorrelationID : string;
  j_EffectiveAt : Time.t;
  j_Entries : list Entry;
  j_EvidenceHash : string;
  j_ReversalOf : string;
  j_Reason : string }.

Record PostedJournal := mkPosted {
  p_Journal : Journal;
  p_ContentHash : string;
  p_PostedAt : Time.t }.

#[export] Instance Entry_eq_dec : EqDecision Entry.
Proof. solve_decision. Defined.
#[export] Instance Journal_eq_dec : EqDecision Journal.
Proof. solve_decision. Defined.
#[export] Instance PostedJournal_eq_dec : EqDecision PostedJournal.
Proof. solve_decision. Defined.

Record Ledger := mkLedger {
  byID : gmap string PostedJournal;
  idempotency : gmap string string;
  reversals : gmap string string }.

Definition New : Ledger := mkLedger ∅ ∅ ∅.

(** The zero [Journal] and [PostedJournal] a missing map key yields. *)
Definition zero_journal : Journal :=
  mkJournal "" "" "" "" "" "" "" "" "" Time.zero [] "" "" "".
Definition zero_posted : PostedJournal := mkPosted zero_journal "" Time.zero.

(** Why a journal is refused with [ErrInvalidJournal]. *)
Inductive invalid_reason :=
| RequiredFieldEmpty
| ReversesItself
| TooFewEntries
| EntryAccountOrAssetEmpty (index : nat)
| EntryUnitsNotPositive (index : nat)
| EntrySideInvalid (index : nat)
| MarshalFailed
| EmptyBatch
| DuplicateJournalID.

(** The package's sentinel errors. The asset named in the text of
    [ErrUnbalancedJournal] depends on Go's map iteration order and is left out. *)
Inductive error :=
| ErrInvalidJournal (reason : invalid_reason)
| ErrUnbalancedJournal
| ErrIdempotencyConflict
| ErrAlreadyReversed (existing : string)
| ErrUnknownJournal (target : string).

(** [hex(sha256(json.Marshal(journal)))]; [None] when marshalling fails (a
    time whose year is outside 0..9999). All results hold for every digest. *)
Class JournalDigest := journal_digest : Journal → option string.

(** * Validation *)

Definition add (totals : gmap string Z) (assetID : string) (units : Z) : gmap string Z :=
  <[assetID := default 0 (totals !! assetID) + units]> totals.

(** The loop over the entries of [validateAndHash]. *)
Fixpoint validate_entries (index : nat) (entries : list Entry)
    (debits credits : gmap string Z) : result error (gmap string Z * gmap string Z) :=
  match entries with
  | [] => Ok (debits, credits)
  | entry :: rest =>
      if empty_s (e_AccountCode entry) || empty_s (e_AssetID entry) then
        Err (ErrInvalidJournal (EntryAccountOrAssetEmpty index))
      else match Big.set_string (e_Units entry) with
      | None => Err (ErrInvalidJournal (EntryUnitsNotPositive index))
      | Some units =>
          if Big.sign units <=? 0 then
            Err (ErrInvalidJournal (EntryUnitsNotPositive index))
          else if e_Side entry =s Debit then
            validate_entries (S index) rest (add debits (e_AssetID entry) units) credits
          else if e_Side entry =s Credit then
            validate_entries (S index) rest debits (add credits (e_AssetID entry) units)
          else Err (ErrInvalidJournal (EntrySideInvalid index))
      end
  end.

(** The two balance loops over the totals. *)
Definition balanced (debits credits : gmap string Z) : bool :=
  forallb (λ '(assetID, debit),
    match credits !! assetID with
    | None => false
    | Some credit => debit =? credit
    end) (map_to_list debits) &&
  forallb (λ '(assetID, _), has_key debits assetID) (map_to_list credits).

Definition validateAndHash `{JournalDigest} (journal : Journal) : result error string :=
  if empty_s (j_ID journal) || empty_s (j_LegalEntityID journal) ||
     empty_s (j_BookID journal) || empty_s (j_SourceSystem journal) ||
     empty_s (j_EntryType journal) || empty_s (j_SourceEventID journal) ||
     empty_s (j_IdempotencyKey journal) || empty_s (j_CorrelationID journal) ||
     empty_s (j_EvidenceHash journal) || Time.IsZero (j_EffectiveAt journal)
  then Err (ErrInvalidJournal RequiredFieldEmpty)
  else if j_ReversalOf journal =s j_ID journal
  then Err (ErrInvalidJournal ReversesItself)
  else if (length (j_Entries journal) <? 2)%nat
  then Err (ErrInvalidJournal TooFewEntries)
  else
    let? (debits, credits) := validate_entries 0 (j_Entries journal) ∅ ∅ in
    if balanced debits credits then
      match journal_digest journal with
      | None => Err (ErrInvalidJournal MarshalFailed)
      | Some contentHash => Ok contentHash
      end
    else Err ErrUnbalancedJournal.

(** * Posting *)

(** The idempotency scope of a journal. *)
Definition scope (journal : Journal) : string :=
  j_LegalEntityID journal +:+ nul +:+ j_SourceSystem journal +:+ nul +:+
  j_IdempotencyKey journal.

Definition postValidated (journal : Journal) (contentHash : string) (postedAt : Time.t)
    (book : Ledger) : Ledger * result error PostedJournal :=
  match idempotency book !! scope journal with
  | Some existingID =>
      let existing := lookup_zero zero_posted (byID book) existingID in
      if p_ContentHash existing <>s contentHash then (book, Err ErrIdempotencyConflict)
      else (book, Ok existing)
  | None =>
      if has_key (byID book) (j_ID journal) then
        (book, Err (ErrInvalidJournal DuplicateJournalID))
      else if (j_ReversalOf journal <>s "") &&
              negb (has_key (byID book) (j_ReversalOf journal)) then
        (book, Err (ErrUnknownJournal (j_ReversalOf journal)))
      else match (if j_ReversalOf journal <>s ""
                  then reversals book !! j_ReversalOf journal else None) with
      | Some existingID => (book, Err (ErrAlreadyReversed existingID))
      | None =>
          let posted := mkPosted journal contentHash postedAt in
          (mkLedger
             (<[j_ID journal := posted]> (byID book))
             (<[scope journal := j_ID journal]> (idempotency book))
             (if j_ReversalOf journal <>s ""
              then <[j_ReversalOf journal := j_ID journal]> (reversals book)
              else reversals book),
           Ok posted)
      end
  end.

Definition Post `{JournalDigest} (now : Time.t) (journal : Journal) (book : Ledger)
    : Ledger * result error PostedJournal :=
  match validateAndHash journal with
  | Err e => (book, Err e)
  | Ok contentHash => postValidated journal contentHash now book
  end.

(** First loop of [PostBatch]: every journal is validated before any is posted. *)
Fixpoint hash_all `{JournalDigest} (journals : list Journal)
    : result error (list (Journal * string)) :=
  match journals with
  | [] => Ok []
  | journal :: rest =>
      let? contentHash := validateAndHash journal in
      let? hashed := hash_all rest in
      Ok ((journal, contentHash) :: hashed)
  end.

(** Second loop of [PostBatch], on the cloned maps. *)
Fixpoint post_all (now : Time.t) (hashed : list (Journal * string)) (book : Ledger)
    : Ledger * result error (list PostedJournal) :=
  match hashed with
  | [] => (book, Ok [])
  | (journal, contentHash) :: rest =>
      match postValidated journal contentHash now book with
      | (book', Err e) => (book', Err e)
      | (book', Ok posted) =>
          match post_all now rest book' with
          | (book'', Err e) => (book'', Err e)
          | (book'', Ok posts) => (book'', Ok (posted :: posts))
          end
      end
  end.

Definition PostBatch `{JournalDigest} (now : Time.t) (journals : list Journal)
    (book : Ledger) : Ledger * result error (list PostedJournal) :=
  match journals with
  | [] => (book, Err (ErrInvalidJournal EmptyBatch))
  | _ =>
      match hash_all journals with
      | Err e => (book, Err e)
      | Ok hashed =>
          match post_all now hashed book with
          | (_, Err e) => (book, Err e)
          | (book', Ok posts) => (book', Ok posts)
          end
      end
  end.

Definition Get (id : string) (book : Ledger) : option PostedJournal := byID book !! id.

(** [List] walks the Go map in an unspecified order; the model fixes one. *)
Definition List_ (book : Ledger) : list PostedJournal := (map_to_list (byID book)).*2.

Definition reverse_entry (entry : Entry) : Entry :=
  mkEntry (e_AccountCode entry)
    (if e_Side entry =s Debit then Credit else Debit)
    (e_AssetID entry) (e_Units entry) (e_PartyID entry) (e_LoanID entry)
    (e_TrancheID entry).

(** The journal that [Reverse] posts for [original]. *)
Definition reversal_of (original : Journal) (reversalID idempotencyKey sourceEventID
    reason : string) (effectiveAt : Time.t) : Journal :=
  mkJournal reversalID (j_LegalEntityID original) (j_BookID original)
    (j_SourceSystem original) "REVERSAL" sourceEventID (j_LoanID original)
    idempotencyKey (j_CorrelationID original) effectiveAt
    (reverse_entry <$> j_Entries original) (j_EvidenceHash original)
    (j_ID original) reason.

Definition Reverse `{JournalDigest} (now : Time.t)
    (originalID reversalID idempotencyKey sourceEventID reason : string)
    (effectiveAt : Time.t) (book : Ledger) : Ledger * result error PostedJournal :=
  match Get originalID book with
  | None => (book, Err (ErrUnknownJournal originalID))
  | Some original =>
      Post now (reversal_of (p_Journal original) reversalID idempotencyKey
                  sourceEventID reason effectiveAt) book
  end.

(** * Specification of a balanced journal *)

(** Units of an entry as an integer (0 when they do not parse). *)
Definition entry_units (entry : Entry) : Z := default 0 (Big.set_string (e_Units entry)).

Definition side_total (side asset : string) (entries : list Entry) : Z :=
  Zsum (λ entry, if (e_Side entry =s side) && (e_AssetID entry =s asset)
                 then entry_units entry else 0) entries.

Definition entry_ok (entry : Entry) : bool :=
  (e_AccountCode entry <>s "") && (e_AssetID entry <>s "") &&
  match Big.positive (e_Units entry) with Some _ => true | None => false end &&
  ((e_Side entry =s Debit) || (e_Side entry =s Credit)).

(** What a journal has to satisfy to be postable, stated without the maps. *)
Record well_formed (journal : Journal) : Prop := {
  wf_required :
    j_ID journal ≠ "" ∧ j_LegalEntityID journal ≠ "" ∧ j_BookID journal ≠ "" ∧
    j_SourceSystem journal ≠ "" ∧ j_EntryType journal ≠ "" ∧
    j_SourceEventID journal ≠ "" ∧ j_IdempotencyKey journal ≠ "" ∧
    j_CorrelationID journal ≠ "" ∧ j_EvidenceHash journal ≠ "" ∧
    Time.ns (j_EffectiveAt journal) ≠ 0;
  wf_not_self : j_ReversalOf journal ≠ j_ID journal;
  wf_entries_length : (2 <= length (j_Entries journal))%nat;
  wf_entries : Forall (λ e, entry_ok e = true) (j_Entries journal);
  wf_balanced : ∀ asset,
    side_total Debit asset (j_Entries journal) = side_total Credit asset (j_Entries journal) }.

(** Debits count positively and credits negatively. *)
Definition signed_units (entry : Entry) : Z :=
  if e_Side entry =s Debit then entry_units entry
  else if e_Side entry =s Credit then - entry_units entry else 0.

(** Net movement of one account in one asset by a list of entries, and the
    net movement of an asset over all accounts. *)
Definition account_delta (account asset : string) (entries : list Entry) : Z :=
  Zsum (λ entry, if (e_AccountCode entry =s account) && (e_AssetID entry =s asset)
                 then signed_units entry else 0) entries.

Definition asset_delta (asset : string) (entries : list Entry) : Z :=
  Zsum (λ entry, if e_AssetID entry =s asset then signed_units entry else 0) entries.

(** Balance of an account, and of an asset over the whole book. *)
Definition account_balance (account asset : string) (book : Ledger) : Z :=
  Msum (λ p, account_delta account asset (j_Entries (p_Journal p))) (byID book).

Definition trial_balance (asset : string) (book : Ledger) : Z :=
  Msum (λ p, asset_delta asset (j_Entries (p_Journal p))) (byID book).

(** * Validation is the specification *)

(** A totals map holds exactly the positive totals. *)
Definition totals_of (m : gmap string Z) (T : string → Z) : Prop :=
  ∀ a, 0 <= T a ∧ m !! a = if 0 <? T a then Some (T a) else None.

Lemma totals_of_empty : totals_of ∅ (λ _, 0).
Proof. intros a. rewrite lookup_empty. done. Qed.

Lemma totals_of_add m T asset units :
  totals_of m T → 0 < units →
  totals_of (add m asset units) (λ a, T a + if asset =s a then units else 0).
Proof.
  intros Hm Hu a. unfold add. destruct (Hm a) as [Ha Hl]. rewrite lookup_insert.
  destruct (String.eqb_spec asset a) as [->|Hne].
  - rewrite decide_True, Hl by done. split; [lia|].
    destruct (Z.ltb_spec 0 (T a)), (Z.ltb_spec 0 (T a + units)); simpl; f_equal; lia.
  - rewrite decide_False, Hl by done. split; [lia|]. by rewrite Z.add_0_r.
Qed.

Lemma totals_of_ext m T T' : (∀ a, T a = T' a) → totals_of m T → totals_of m T'.
Proof. intros HT Hm a. rewrite <- HT. apply Hm. Qed.

Lemma totals_of_eq d c T U :
  totals_of d T → totals_of c U → d = c ↔ ∀ a, T a = U a.
Proof.
  intros Hd Hc. split.
  - intros -> a. destruct (Hd a) as [? Hda], (Hc a) as [? Hca]. rewrite Hda in Hca.
    destruct (Z.ltb_spec 0 (T a)), (Z.ltb_spec 0 (U a)); simplify_eq; lia.
  - intros HTU. apply map_eq. intros a. destruct (Hd a) as [_ ->], (Hc a) as [_ ->].
    by rewrite HTU.
Qed.

Lemma balanced_spec d c : balanced d c = true ↔ d = c.
Proof.
  unfold balanced. rewrite andb_true_iff, !forallb_forall. split.
  - intros [Hd Hc]. apply map_eq. intros a. destruct (d !! a) as [x|] eqn:Ed.
    + specialize (Hd (a, x)). rewrite <- list_elem_of_In, elem_of_map_to_list in Hd.
      specialize (Hd Ed). cbn in Hd. destruct (c !! a); [|done]. bool_facts. by subst.
    + destruct (c !! a) as [y|] eqn:Ec; [|done].
      specialize (Hc (a, y)). rewrite <- list_elem_of_In, elem_of_map_to_list in Hc.
      specialize (Hc Ec). apply has_key_true in Hc. rewrite Ed in Hc. by destruct Hc.
  - intros ->. split; intros [a x] Hin%list_elem_of_In%elem_of_map_to_list.
    + rewrite Hin. apply Z.eqb_refl.
    + apply has_key_true. eauto.
Qed.

Lemma Debit_Credit : (Debit =s Credit) = false.
Proof. reflexivity. Qed.

Lemma Credit_Debit : (Credit =s Debit) = false.
Proof. reflexivity. Qed.

Lemma entry_ok_units e : entry_ok e = true → 0 < entry_units e ∧
  Big.set_string (e_Units e) = Some (entry_units e).
Proof.
  unfold entry_ok, entry_units. intros H. bool_facts.
  destruct (Big.positive (e_Units e)) as [z|] eqn:Ez; [|done].
  apply Big.positive_Some in Ez as [-> Hz]. done.
Qed.

Lemma side_total_cons side asset e es :
  side_total side asset (e :: es) =
  (if (e_Side e =s side) && (e_AssetID e =s asset) then entry_units e else 0) +
  side_total side asset es.
Proof. reflexivity. Qed.

(** The entry loop succeeds exactly on well-formed entries, and then computes
    the per-asset totals of each side. *)
Lemma validate_entries_spec es i d c T U :
  totals_of d T → totals_of c U →
  match validate_entries i es d c with
  | Ok (d', c') =>
      Forall (λ e, entry_ok e = true) es ∧
      totals_of d' (λ a, T a + side_total Debit a es) ∧
      totals_of c' (λ a, U a + side_total Credit a es)
  | Err _ => ¬ Forall (λ e, entry_ok e = true) es
  end.
Proof.
  revert i d c T U. induction es as [|e es IH]; intros i d c T U Hd Hc; simpl.
  { split; [constructor|split]; (eapply totals_of_ext; [|eassumption]);
      intros a; unfold side_total; simpl; lia. }
  pose proof (Forall_cons (λ e, entry_ok e = true) e es) as Hcons; simpl in Hcons.
  assert (entry_ok e = entry_ok e) as Hok by done. revert Hok. unfold entry_ok at 2.
  destruct (String.eqb_spec (e_AccountCode e) "") as [?|Ha]; simpl;
    [by intros Hok [? _]%Hcons; congruence|].
  destruct (String.eqb_spec (e_AssetID e) "") as [?|Hb]; simpl;
    [by intros Hok [? _]%Hcons; congruence|].
  unfold Big.positive. destruct (Big.set_string (e_Units e)) as [u|] eqn:Eu; simpl;
    [|by intros Hok [? _]%Hcons; congruence].
  unfold Big.sign.
  assert ((Z.sgn u <=? 0) = negb (0 <? u)) as -> by
    (destruct (Z.leb_spec (Z.sgn u) 0), (Z.ltb_spec 0 u); simpl; lia).
  destruct (Z.ltb_spec 0 u) as [Hpos|Hpos]; simpl;
    [|by intros Hok [? _]%Hcons; congruence].
  assert (entry_units e = u) as Heu by (unfold entry_units; by rewrite Eu).
  destruct (String.eqb_spec (e_Side e) Debit) as [Hs|Hs]; simpl; intros Hok.
  - specialize (IH (S i) _ _ _ _ (totals_of_add _ _ (e_AssetID e) _ Hd Hpos) Hc).
    destruct (validate_entries _ es _ _) as [[d' c']|]; [|by intros [_ ?]%Hcons].
    destruct IH as (HF & Hd' & Hc'). split; [by apply Hcons|].
    split; (eapply totals_of_ext; [|eassumption]); intros a; cbv beta;
      rewrite ?Hs, ?Debit_Credit, ?Heu; simpl; lia.
  - destruct (String.eqb_spec (e_Side e) Credit) as [Hs'|Hs']; simpl in *;
      [|by intros [? _]%Hcons; congruence].
    specialize (IH (S i) _ _ _ _ Hd (totals_of_add _ _ (e_AssetID e) _ Hc Hpos)).
    destruct (validate_entries _ es _ _) as [[d' c']|]; [|by intros [_ ?]%Hcons].
    destruct IH as (HF & Hd' & Hc'). split; [by apply Hcons|].
    split; (eapply totals_of_ext; [|eassumption]); intros a; cbv beta;
      rewrite ?Hs', ?Credit_Debit, ?Heu; simpl; lia.
Qed.

Lemma validate_entries_not_unbalanced es i d c e :
  validate_entries i es d c = Err e → e ≠ ErrUnbalancedJournal.
Proof.
  revert i d c. induction es as [|x es IH]; intros i d c E; simpl in E; [done|].
  go_inv E; eauto.
Qed.

(** Deciding [well_formed] with the code's own loops. *)
Lemma validate_entries_balanced es :
  match validate_entries 0 es ∅ ∅ with
  | Ok (d, c) =>
      Forall (λ e, entry_ok e = true) es ∧
      (balanced d c = true ↔ ∀ a, side_total Debit a es = side_total Credit a es)
  | Err e => ¬ Forall (λ e, entry_ok e = true) es ∧ e ≠ ErrUnbalancedJournal
  end.
Proof.
  pose proof (validate_entries_spec es 0 ∅ ∅ _ _ totals_of_empty totals_of_empty) as Hs.
  destruct (validate_entries 0 es ∅ ∅) as [[d c]|e] eqn:E.
  - destruct Hs as (HF & Hd & Hc). split; [done|].
    rewrite balanced_spec, (totals_of_eq _ _ _ _ Hd Hc). naive_solver lia.
  - split; [done|]. by eapply validate_entries_not_unbalanced.
Qed.

Section Validation.
Context `{JournalDigest}.

Lemma validateAndHash_Ok j h :
  validateAndHash j = Ok h ↔ well_formed j ∧ journal_digest j = Some h.
Proof.
  unfold validateAndHash. split.
  - intros Hv. step_in Hv. step_in Hv. step_in Hv.
    pose proof (validate_entries_balanced (j_Entries j)) as Hb.
    step_in Hv. destruct a as [d c]. destruct Hb as [HF Hb].
    step_in Hv. go_inv Hv. bool_facts.
    unfold Time.IsZero in *. bool_facts.
    match goal with H : (_ <? _)%nat = false |- _ => apply Nat.ltb_ge in H end.
    split; [|done]. split; naive_solver.
  - intros [[Hr Hself Hlen HF Hb] Hd]. destruct_and! Hr.
    rewrite !(proj2 (String.eqb_neq _ _)) by done. simpl.
    unfold Time.IsZero. rewrite (proj2 (Z.eqb_neq _ _)) by done.
    rewrite (proj2 (Nat.ltb_ge _ _)) by done.
    pose proof (validate_entries_balanced (j_Entries j)) as Hv.
    destruct (validate_entries 0 (j_Entries j) ∅ ∅) as [[d c]|]; [|naive_solver].
    destruct Hv as [_ Hv]. rewrite (proj2 Hv) by done. by rewrite Hd.
Qed.

(** The error [ErrUnbalancedJournal] is reported exactly for journals that are
    well formed in every respect but the balance. *)
Lemma validateAndHash_unbalanced j :
  validateAndHash j = Err ErrUnbalancedJournal →
  Forall (λ e, entry_ok e = true) (j_Entries j) ∧
  ∃ asset, side_total Debit asset (j_Entries j) ≠ side_total Credit asset (j_Entries j).
Proof.
  unfold validateAndHash. intros Hv.
  step_in Hv. step_in Hv. step_in Hv.
  pose proof (validate_entries_spec (j_Entries j) 0 ∅ ∅ _ _
                totals_of_empty totals_of_empty) as Hs.
  pose proof (validate_entries_balanced (j_Entries j)) as Hb.
  step_in Hv; [|by destruct Hb]. destruct a as [d c].
  step_in Hv; [by go_inv Hv|]. destruct Hs as (HF & Hd & Hc). split; [done|].
  assert (d ≠ c) as Hne by (rewrite <- balanced_spec; congruence).
  assert (¬ map_Forall (λ a x, c !! a = Some x) d ∨ ¬ map_Forall (λ a x, d !! a = Some x) c)
    as [Hn|Hn].
  { destruct (decide (map_Forall (λ a x, c !! a = Some x) d)) as [H1|]; [|by left].
    destruct (decide (map_Forall (λ a x, d !! a = Some x) c)) as [H2|]; [|by right].
    destruct Hne. apply (anti_symm (⊆)); by apply map_subseteq_spec. }
  - apply map_not_Forall in Hn as (a & x & Hx & Hy); [|apply _].
    exists a. destruct (Hd a) as [_ Ha], (Hc a) as [_ Hc']. simpl in *.
    rewrite Hx in Ha. rewrite Hc' in Hy. intros Heq. rewrite Heq in Ha. congruence.
  - apply map_not_Forall in Hn as (a & x & Hx & Hy); [|apply _].
    exists a. destruct (Hd a) as [_ Ha], (Hc a) as [_ Hc']. simpl in *.
    rewrite Hx in Hc'. rewrite Ha in Hy. intros Heq. rewrite <- Heq in Hc'. congruence.
Qed.
End Validation.

(** * Balance algebra *)

Lemma asset_delta_sides asset es :
  Forall (λ e, entry_ok e = true) es →
  asset_delta asset es = side_total Debit asset es - side_total Credit asset es.
Proof.
  intros _. unfold asset_delta, side_total. rewrite <- Zsum_sub. apply Zsum_ext.
  intros e _. unfold signed_units.
  destruct (String.eqb_spec (e_Side e) Debit) as [Hs|]; simpl.
  - rewrite Hs, Debit_Credit. simpl. destruct (e_AssetID e =s asset); lia.
  - destruct (e_Side e =s Credit), (e_AssetID e =s asset); simpl; lia.
Qed.

Lemma well_formed_asset_delta j asset :
  well_formed j → asset_delta asset (j_Entries j) = 0.
Proof.
  intros [_ _ _ HF Hb]. rewrite asset_delta_sides by done. rewrite Hb. lia.
Qed.

(** Swapping the sides of valid entries negates every movement. *)
Lemma signed_units_reverse e : entry_ok e = true → signed_units (reverse_entry e) = - signed_units e.
Proof.
  unfold entry_ok, signed_units, reverse_entry, entry_units. simpl. intros Hok. bool_facts.
  destruct (e_Side e =s Debit) eqn:Es; simpl in *; [done|].
  match goal with H : _ = true |- _ => rewrite H end. lia.
Qed.

Lemma account_delta_reverse account asset es :
  Forall (λ e, entry_ok e = true) es →
  account_delta account asset (reverse_entry <$> es) = - account_delta account asset es.
Proof.
  intros HF. unfold account_delta. rewrite Zsum_fmap, <- Zsum_opp. apply Zsum_ext.
  intros e He. simpl. rewrite Forall_forall in HF.
  destruct ((e_AccountCode e =s account) && (e_AssetID e =s asset)); [|done].
  by apply signed_units_reverse, HF.
Qed.

Lemma side_total_reverse asset es :
  Forall (λ e, entry_ok e = true) es →
  side_total Debit asset (reverse_entry <$> es) = side_total Credit asset es ∧
  side_total Credit asset (reverse_entry <$> es) = side_total Debit asset es.
Proof.
  intros HF. unfold side_total. rewrite !Zsum_fmap. rewrite Forall_forall in HF.
  split; apply Zsum_ext; intros e He; specialize (HF e He);
    unfold entry_ok, reverse_entry, entry_units in *; simpl; bool_facts;
    destruct (String.eqb_spec (e_Side e) Debit) as [Hs|Hs]; simpl in *.
  - by rewrite Hs.
  - match goal with H : _ = true |- _ => by rewrite H end.
  - by rewrite ?Hs.
  - match goal with H : _ = true |- _ => apply String.eqb_eq in H; by rewrite ?H end.
Qed.

Lemma entry_ok_reverse e : entry_ok e = true → entry_ok (reverse_entry e) = true.
Proof.
  unfold entry_ok, reverse_entry. simpl. intros H. bool_facts.
  repeat (apply andb_true_iff; split); try done.
  - by apply negb_true_iff, String.eqb_neq.
  - by apply negb_true_iff, String.eqb_neq.
  - by destruct (e_Side e =s Debit).
Qed.

(** * Posting: case analysis *)

(** The ledger after a fresh journal is stored. *)
Definition store (j : Journal) (h : string) (now : Time.t) (book : Ledger) : Ledger :=
  mkLedger (<[j_ID j := mkPosted j h now]> (byID book))
    (<[scope j := j_ID j]> (idempotency book))
    (if j_ReversalOf j <>s "" then <[j_ReversalOf j := j_ID j]> (reversals book)
     else reversals book).

(** When the journal is new to the book and can be stored. *)
Record fresh (j : Journal) (book : Ledger) : Prop := {
  fresh_scope : idempotency book !! scope j = None;
  fresh_id : byID book !! j_ID j = None;
  fresh_reversal : j_ReversalOf j ≠ "" →
    is_Some (byID book !! j_ReversalOf j) ∧ reversals book !! j_ReversalOf j = None }.

Lemma postValidated_fresh j h now book :
  fresh j book → postValidated j h now book = (store j h now book, Ok (mkPosted j h now)).
Proof.
  intros [Hs Hi Hr]. unfold postValidated, store. rewrite Hs.
  rewrite (proj2 (has_key_false _ _)) by done.
  destruct (String.eqb_spec (j_ReversalOf j) "") as [He|He]; simpl; [done|].
  destruct (Hr He) as [Hx ->]. by rewrite (proj2 (has_key_true _ _) Hx).
Qed.

Lemma postValidated_replay j h now book id :
  idempotency book !! scope j = Some id →
  postValidated j h now book =
    (book, if p_ContentHash (lookup_zero zero_posted (byID book) id) =s h
           then Ok (lookup_zero zero_posted (byID book) id)
           else Err ErrIdempotencyConflict).
Proof.
  intros Hs. unfold postValidated. rewrite Hs. by destruct (_ =s h).
Qed.

(** Every outcome of [postValidated]. *)
Lemma postValidated_cases j h now book :
  (∃ id, idempotency book !! scope j = Some id ∧
     postValidated j h now book =
       (book, if p_ContentHash (lookup_zero zero_posted (byID book) id) =s h
              then Ok (lookup_zero zero_posted (byID book) id)
              else Err ErrIdempotencyConflict)) ∨
  (idempotency book !! scope j = None ∧ ¬ fresh j book ∧
     ∃ e, postValidated j h now book = (book, Err e) ∧ e ≠ ErrIdempotencyConflict) ∨
  (fresh j book ∧
     postValidated j h now book = (store j h now book, Ok (mkPosted j h now))).
Proof.
  destruct (idempotency book !! scope j) as [id|] eqn:Hs.
  { left. exists id. split; [done|]. by apply postValidated_replay. }
  right. unfold postValidated. rewrite Hs.
  destruct (has_key (byID book) (j_ID j)) eqn:Hi.
  { left. apply has_key_true in Hi as [x Hi]. split; [done|].
    split; [intros [_ Hn _]; congruence|]. eauto. }
  apply has_key_false in Hi.
  destruct (String.eqb_spec (j_ReversalOf j) "") as [He|He]; simpl.
  { right. unfold store. rewrite He. by repeat split. }
  destruct (has_key (byID book) (j_ReversalOf j)) eqn:Hk; simpl.
  2: { left. apply has_key_false in Hk. split; [done|].
       split; [intros [_ _ Hr]; destruct (Hr He) as [[? ?] _]; congruence|]. eauto. }
  apply has_key_true in Hk. destruct (reversals book !! j_ReversalOf j) eqn:Hr.
  { left. split; [done|]. split; [intros [_ _ Hr']; destruct (Hr' He); congruence|]. eauto. }
  right. unfold store. rewrite (proj2 (String.eqb_neq _ _)) by done. by repeat split.
Qed.

Lemma postValidated_Ok j h now book book' p :
  postValidated j h now book = (book', Ok p) →
  (book' = book ∧ p_ContentHash p = h ∧ ∃ id, idempotency book !! scope j = Some id ∧
     p = lookup_zero zero_posted (byID book) id) ∨
  (fresh j book ∧ book' = store j h now book ∧ p = mkPosted j h now).
Proof.
  intros Hp.
  destruct (postValidated_cases j h now book) as [(id & Hs & E)|[(_ & _ & e & E & _)|[Hf E]]];
    rewrite E in Hp; simplify_eq; [|naive_solver].
  left. destruct (_ =s h) eqn:Eh; simplify_eq. bool_facts. naive_solver.
Qed.

Lemma postValidated_Err j h now book book' e :
  postValidated j h now book = (book', Err e) → book' = book.
Proof.
  intros Hp.
  destruct (postValidated_cases j h now book) as [(id & Hs & E)|[(_ & _ & e' & E & _)|[Hf E]]];
    rewrite E in Hp; by simplify_eq.
Qed.

(** * The ledger invariant *)

Section Invariant.
Context `{JournalDigest}.

Record ledger_inv (book : Ledger) : Prop := {
  inv_valid : ∀ id p, byID book !! id = Some p →
    j_ID (p_Journal p) = id ∧ validateAndHash (p_Journal p) = Ok (p_ContentHash p);
  inv_scope : ∀ id p, byID book !! id = Some p →
    idempotency book !! scope (p_Journal p) = Some id;
  inv_idem : ∀ s id, idempotency book !! s = Some id →
    ∃ p, byID book !! id = Some p ∧ scope (p_Journal p) = s;
  inv_rev : ∀ o r, reversals book !! o = Some r →
    is_Some (byID book !! o) ∧ o ≠ "" ∧
    ∃ p, byID book !! r = Some p ∧ j_ReversalOf (p_Journal p) = o;
  inv_reversed : ∀ id p, byID book !! id = Some p → j_ReversalOf (p_Journal p) ≠ "" →
    reversals book !! j_ReversalOf (p_Journal p) = Some id }.

Lemma New_inv : ledger_inv New.
Proof. split; simpl; intros *; by rewrite lookup_empty. Qed.

Lemma store_lookup_old j h now book id p :
  fresh j book → byID book !! id = Some p → byID (store j h now book) !! id = Some p.
Proof. intros [_ Hi _] Hp. simpl. rewrite lookup_insert_ne; congruence. Qed.

Lemma store_inv j h now book :
  ledger_inv book → validateAndHash j = Ok h → fresh j book →
  ledger_inv (store j h now book).
Proof.
  intros [Hv Hs Hi Hr Hd] Hj Hf. pose proof Hf as [Fs Fi Fr].
  pose proof Hj as [[_ Hself _ _ _] _]%validateAndHash_Ok.
  split; simpl.
  - intros id p. rewrite lookup_insert. case_decide; [|naive_solver].
    intros [= <-]. by subst.
  - intros id p Hp. rewrite lookup_insert in Hp. case_decide as E.
    + simplify_eq; simpl. by rewrite lookup_insert_eq.
    + rewrite lookup_insert_ne; [by apply Hs|].
      intros Es. apply Hs in Hp. congruence.
  - intros s id. rewrite lookup_insert. case_decide as E.
    + intros [= <-]. rewrite lookup_insert_eq. eauto.
    + intros (p & Hp & E')%Hi. exists p. split; [|done]. by apply store_lookup_old.
  - intros o r Ho.
    assert ((o = j_ReversalOf j ∧ r = j_ID j ∧ o ≠ "") ∨ reversals book !! o = Some r)
      as [(-> & -> & Hne)|Ho'].
    { destruct (String.eqb_spec (j_ReversalOf j) ""); simpl in Ho; [by right|].
      rewrite lookup_insert in Ho. case_decide; naive_solver. }
    + destruct (Fr Hne) as [[x Hx] _]. rewrite lookup_insert_eq, lookup_insert_ne by done.
      eauto.
    + destruct (Hr _ _ Ho') as ([x Hx] & ? & p & Hp & ?).
      pose proof (store_lookup_old j h now book _ _ Hf Hx) as Hx'.
      pose proof (store_lookup_old j h now book _ _ Hf Hp) as Hp'. simpl in *. eauto.
  - intros id p. rewrite lookup_insert. case_decide as E.
    + intros [= <-] Hne; simpl in *. rewrite (proj2 (String.eqb_neq _ _)) by done. simpl.
      rewrite lookup_insert_eq. congruence.
    + intros Hp Hne. pose proof (Hd _ _ Hp Hne) as Hd'.
      destruct (String.eqb_spec (j_ReversalOf j) "") as [|Hj']; simpl; [done|].
      rewrite lookup_insert_ne; [done|]. destruct (Fr Hj'). congruence.
Qed.

Lemma postValidated_inv j h now book :
  ledger_inv book → validateAndHash j = Ok h →
  ledger_inv (postValidated j h now book).1.
Proof.
  intros Hinv Hj.
  destruct (postValidated_cases j h now book) as [(id & _ & ->)|[(_ & _ & e & -> & _)|[Hf ->]]];
    simpl; try done. by apply store_inv.
Qed.

Lemma Post_inv now j book : ledger_inv book → ledger_inv (Post now j book).1.
Proof.
  intros Hinv. unfold Post. destruct (validateAndHash j) eqn:E; [|done].
  by apply postValidated_inv.
Qed.

Lemma hash_all_Ok js hs :
  hash_all js = Ok hs → hs.*1 = js ∧ Forall (λ '(j, h), validateAndHash j = Ok h) hs.
Proof.
  revert hs. induction js as [|j js IH]; simpl; intros hs Hh;
    [by simplify_eq|go_inv Hh].
  destruct (IH _ eq_refl) as [<- ?]. split; [done|]. by constructor.
Qed.

Lemma hash_all_complete js :
  Forall (λ j, is_ok (validateAndHash j) = true) js → ∃ hs, hash_all js = Ok hs.
Proof.
  induction 1 as [|j js Hj _ [hs IH]]; simpl; [eauto|].
  destruct (validateAndHash j); [|done]. rewrite IH. eauto.
Qed.

Lemma post_all_inv now hs book :
  Forall (λ '(j, h), validateAndHash j = Ok h) hs → ledger_inv book →
  ledger_inv (post_all now hs book).1.
Proof.
  intros HF. revert book. induction HF as [|[j h] hs Hj _ IH]; intros book Hinv; simpl; [done|].
  pose proof (postValidated_inv j h now book Hinv Hj) as Hinv'.
  destruct (postValidated j h now book) as [b [p|e]]; simpl in *; [|done].
  specialize (IH b Hinv'). by destruct (post_all now hs b) as [b' [ps|e]].
Qed.

Lemma PostBatch_inv now js book : ledger_inv book → ledger_inv (PostBatch now js book).1.
Proof.
  intros Hinv. unfold PostBatch. destruct js as [|j js]; [done|].
  destruct (hash_all (j :: js)) as [hs|] eqn:Eh; [|done].
  apply hash_all_Ok in Eh as [_ HF]. pose proof (post_all_inv now hs book HF Hinv).
  by destruct (post_all now hs book) as [b' [ps|e]].
Qed.

Lemma Reverse_inv now o r k s reason at_ book :
  ledger_inv book → ledger_inv (Reverse now o r k s reason at_ book).1.
Proof. intros. unfold Reverse. destruct (Get o book); [by apply Post_inv|done]. Qed.

(** * Reachable books *)

Inductive ledger_step (book : Ledger) : Ledger → Prop :=
| step_post now j : ledger_step book (Post now j book).1
| step_batch now js : ledger_step book (PostBatch now js book).1
| step_reverse now o r k s reason at_ :
    ledger_step book (Reverse now o r k s reason at_ book).1.

Definition reachable (book : Ledger) : Prop := rtc ledger_step New book.

Lemma ledger_step_inv book book' : ledger_step book book' → ledger_inv book → ledger_inv book'.
Proof. destruct 1; auto using Post_inv, PostBatch_inv, Reverse_inv. Qed.

Lemma reachable_inv book : reachable book → ledger_inv book.
Proof.
  intros Hr. unfold reachable in Hr. remember New as start eqn:E.
  assert (ledger_inv start) as Hs by (subst; apply New_inv). clear E.
  induction Hr; eauto using ledger_step_inv.
Qed.
End Invariant.

(** * Properties of the posting kernel *)

Section Properties.
Context `{JournalDigest}.

Lemma Post_Ok now j book book' p :
  Post now j book = (book', Ok p) →
  ∃ h, validateAndHash j = Ok h ∧ p_ContentHash p = h ∧
    ((book' = book ∧ ∃ id, idempotency book !! scope j = Some id ∧
        p = lookup_zero zero_posted (byID book) id) ∨
     (fresh j book ∧ book' = store j h now book ∧ p = mkPosted j h now)).
Proof.
  unfold Post. destruct (validateAndHash j) as [h|e] eqn:E; [|done].
  intros Hp. exists h. apply postValidated_Ok in Hp. naive_solver.
Qed.

Lemma Post_Err now j book book' e : Post now j book = (book', Err e) → book' = book.
Proof.
  unfold Post. destruct (validateAndHash j); [|naive_solver]. apply postValidated_Err.
Qed.

(** A journal that was just accepted is found under its scope and its id. *)
Lemma Post_Ok_stored now j book book' p :
  ledger_inv book → Post now j book = (book', Ok p) →
  ∃ id, idempotency book' !! scope j = Some id ∧ byID book' !! id = Some p.
Proof.
  intros Hinv (h & Hv & Hh & Hcase)%Post_Ok.
  destruct Hcase as [(-> & id & Hs & Hp)|(Hf & -> & ->)].
  - exists id. split; [done|]. destruct (inv_idem _ Hinv _ _ Hs) as (q & Hq & _).
    unfold lookup_zero in Hp. rewrite Hq in Hp. by subst.
  - exists (j_ID j). simpl. by rewrite !lookup_insert_eq.
Qed.

Lemma ledger_step_trial_balance book asset :
  ledger_inv book → trial_balance asset book = 0.
Proof.
  intros Hinv. apply Msum_zero. intros id p Hp.
  destruct (inv_valid _ Hinv _ _ Hp) as [_ [Hw _]%validateAndHash_Ok].
  by apply well_formed_asset_delta.
Qed.

(** Growth of the three maps. *)
Definition extends (book book' : Ledger) : Prop :=
  byID book ⊆ byID book' ∧ idempotency book ⊆ idempotency book' ∧
  reversals book ⊆ reversals book'.

#[local] Instance extends_preorder : PreOrder extends.
Proof.
  split; unfold extends; [done|].
  intros a b c (?&?&?) (?&?&?). repeat split; by etrans.
Qed.

Lemma store_extends j h now book : fresh j book → extends book (store j h now book).
Proof.
  intros [Hs Hi Hr]. unfold extends, store; simpl.
  split_and!; try by apply insert_subseteq.
  destruct (String.eqb_spec (j_ReversalOf j) ""); simpl; [done|].
  apply insert_subseteq. by apply Hr.
Qed.

Lemma postValidated_extends j h now book : extends book (postValidated j h now book).1.
Proof.
  destruct (postValidated_cases j h now book) as [(id & _ & ->)|[(_ & _ & e & -> & _)|[Hf ->]]];
    simpl; try done. by apply store_extends.
Qed.

Lemma Post_extends now j book : extends book (Post now j book).1.
Proof. unfold Post. destruct (validateAndHash j); [apply postValidated_extends|done]. Qed.

Lemma post_all_extends now hs book : extends book (post_all now hs book).1.
Proof.
  revert book. induction hs as [|[j h] hs IH]; intros book; simpl; [done|].
  pose proof (postValidated_extends j h now book) as He.
  destruct (postValidated j h now book) as [b [p|e]]; simpl in *; [|done].
  specialize (IH b). destruct (post_all now hs b) as [b' [ps|e]]; simpl in *; by etrans.
Qed.

Lemma PostBatch_extends now js book : extends book (PostBatch now js book).1.
Proof.
  unfold PostBatch. destruct js as [|j js]; [done|].
  destruct (hash_all (j :: js)) as [hs|]; [|done].
  pose proof (post_all_extends now hs book).
  by destruct (post_all now hs book) as [b' [ps|e]].
Qed.

Lemma ledger_step_extends book book' : ledger_step book book' → extends book book'.
Proof.
  destruct 1; [apply Post_extends|apply PostBatch_extends|].
  unfold Reverse. destruct (Get o book); [apply Post_extends|done].
Qed.

(** Posting the journals of a list one after the other, all successfully. *)
Inductive posts (now : Time.t) : list Journal → Ledger → Ledger → list PostedJournal → Prop :=
| posts_nil book : posts now [] book book []
| posts_cons j js book book' book'' p ps :
    Post now j book = (book', Ok p) → posts now js book' book'' ps →
    posts now (j :: js) book book'' (p :: ps).

Lemma post_all_posts now hs book book' ps :
  Forall (λ '(j, h), validateAndHash j = Ok h) hs →
  post_all now hs book = (book', Ok ps) ↔ posts now hs.*1 book book' ps.
Proof.
  intros HF. revert book ps. induction HF as [|[j h] hs Hj _ IH]; intros book ps; simpl.
  { split; [intros; simplify_eq; constructor|by inversion 1]. }
  assert (Post now j book = postValidated j h now book) as HP by (unfold Post; by rewrite Hj).
  split.
  - intros Ha. destruct (postValidated j h now book) as [b [p|e]] eqn:E; [|done].
    destruct (post_all now hs b) as [b' [qs|e]] eqn:E'; simplify_eq.
    econstructor; [eassumption|]. by apply IH.
  - inversion 1 as [|? ? ? b ? p qs Hp Hq]; subst. rewrite <- HP, Hp.
    apply IH in Hq. by rewrite Hq.
Qed.

Lemma posts_hash_all now js book book' ps : posts now js book book' ps → ∃ hs, hash_all js = Ok hs.
Proof.
  intros Hp. apply hash_all_complete. induction Hp as [|????????Hp _ IH]; constructor; [|done].
  apply Post_Ok in Hp as (h & Hv & _). by rewrite Hv.
Qed.

(** The accounting kernel accepts a journal exactly when its identity
    fields are present, it does not reverse itself, it has at least two
    entries, each with an account, an asset, a side and positive integer
    units, and in every asset the debits equal the credits; the content hash
    is then the digest of the journal. The unbalanced error is only reported
    for journals whose entries are valid and whose two sides differ in some asset. *)
Theorem validate_complete (j : Journal) :
  (∀ h, validateAndHash j = Ok h ↔ well_formed j ∧ journal_digest j = Some h) ∧
  (validateAndHash j = Err ErrUnbalancedJournal →
     Forall (λ e, entry_ok e = true) (j_Entries j) ∧
     ∃ asset, side_total Debit asset (j_Entries j) ≠ side_total Credit asset (j_Entries j)).
Proof.
  split; [intros h; apply validateAndHash_Ok|apply validateAndHash_unbalanced].
Qed.

(** C1: in every book reachable by posting, batch posting and reversing, each
    stored journal is well formed and the trial balance of every asset is zero. *)
Theorem reachable_trial_balance (book : Ledger) (asset : string) :
  reachable book →
  trial_balance asset book = 0 ∧
  (∀ id p, byID book !! id = Some p →
     j_ID (p_Journal p) = id ∧ well_formed (p_Journal p) ∧
     journal_digest (p_Journal p) = Some (p_ContentHash p)).
Proof.
  intros Hinv%reachable_inv. split; [by apply ledger_step_trial_balance|].
  intros id p Hp. destruct (inv_valid _ Hinv _ _ Hp) as [? ?%validateAndHash_Ok]. done.
Qed.

(** No operation ever removes or changes a posted journal, an
    idempotency binding or a recorded reversal. *)
Theorem ledger_append_only (book book' : Ledger) :
  ledger_step book book' → extends book book'.
Proof. apply ledger_step_extends. Qed.

(** A journal that was accepted can be posted again at any later moment,
    after any further operations on the book: the stored record comes back and
    the book does not change, while a journal with the same scope and another
    digest is refused with the conflict error. *)
Theorem post_idempotent (now now' : Time.t) (j j' : Journal)
    (book book' later : Ledger) (p : PostedJournal) (h' : string) :
  reachable book → Post now j book = (book', Ok p) → rtc ledger_step book' later →
  validateAndHash j' = Ok h' → scope j' = scope j →
  Post now' j' later =
    (later, if p_ContentHash p =s h' then Ok p else Err ErrIdempotencyConflict).
Proof.
  intros Hr Hp Hl Hv Hs.
  destruct (Post_Ok_stored now j book book' p (reachable_inv _ Hr) Hp) as (id & Hid & Hb).
  assert (extends book' later) as (Hb' & Hi' & _).
  { clear -Hl. induction Hl; [done|]. etrans; [by apply ledger_step_extends|done]. }
  unfold Post. rewrite Hv. rewrite (postValidated_replay _ _ _ _ id).
  - unfold lookup_zero. by rewrite (lookup_weaken _ _ _ _ Hb Hb').
  - rewrite Hs. by apply (lookup_weaken _ _ _ _ Hid).
Qed.

(** C27: a batch is a transaction: it succeeds exactly when posting its journals
    one by one succeeds, with the same book and the same records, and when it
    fails the book is unchanged. *)
Theorem batch_atomic (now : Time.t) (js : list Journal) (book : Ledger) :
  (∀ book' ps, PostBatch now js book = (book', Ok ps) ↔
     js ≠ [] ∧ posts now js book book' ps) ∧
  (∀ book' e, PostBatch now js book = (book', Err e) → book' = book).
Proof.
  unfold PostBatch. destruct js as [|j js]; [naive_solver|].
  remember (j :: js) as l eqn:El. assert (l ≠ []) as Hl by (by subst). clear El.
  destruct (hash_all l) as [hs|e] eqn:Eh.
  - pose proof (hash_all_Ok _ _ Eh) as [<- HF].
    destruct (post_all now hs book) as [b [qs|e]] eqn:Ep; split.
    + intros b' ps. pose proof (post_all_posts now hs book b' ps HF) as Hi.
      rewrite Ep in Hi. rewrite Hi. naive_solver.
    + naive_solver.
    + intros b' ps. pose proof (post_all_posts now hs book b' ps HF) as Hi.
      rewrite Ep in Hi. naive_solver.
    + naive_solver.
  - split; [|naive_solver]. intros b' ps. split; [done|].
    intros [_ [hs Hp]%posts_hash_all]. congruence.
Qed.
End Properties.

(** * Reversal *)

Section Reversal.
Context `{JournalDigest}.

Lemma reversal_well_formed original rid k s reason at_ :
  well_formed original → rid ≠ "" → k ≠ "" → s ≠ "" → Time.ns at_ ≠ 0 →
  rid ≠ j_ID original →
  well_formed (reversal_of original rid k s reason at_).
Proof.
  intros [Hr Hself Hlen HF Hb] Hrid Hk Hs Hat Hne. destruct_and! Hr.
  split; simpl.
  - by split_and!.
  - done.
  - by rewrite length_fmap.
  - apply Forall_fmap. eapply Forall_impl; [exact HF|]. apply entry_ok_reverse.
  - intros asset. destruct (side_total_reverse asset _ HF) as [-> ->]. by rewrite Hb.
Qed.

Lemma store_account_balance j h now book account asset :
  fresh j book →
  account_balance account asset (store j h now book) =
  account_delta account asset (j_Entries j) + account_balance account asset book.
Proof. intros [_ Hi _]. unfold account_balance, store; simpl. by rewrite Msum_insert_fresh. Qed.

(** Reversing a posted journal that has no reversal yet, with fresh
    identifiers, succeeds and takes exactly the movements of the original out
    of every account balance. *)
Theorem reverse_effect (now at_ : Time.t) (book : Ledger) (original : PostedJournal)
    (o rid k s reason h : string) :
  let rev := reversal_of (p_Journal original) rid k s reason at_ in
  reachable book → Get o book = Some original →
  rid ≠ "" → k ≠ "" → s ≠ "" → Time.ns at_ ≠ 0 →
  byID book !! rid = None → idempotency book !! scope rev = None →
  reversals book !! o = None → journal_digest rev = Some h →
  ∃ book', Reverse now o rid k s reason at_ book = (book', Ok (mkPosted rev h now)) ∧
    reversals book' !! o = Some rid ∧
    ∀ account asset, account_balance account asset book' =
      account_balance account asset book -
      account_delta account asset (j_Entries (p_Journal original)).
Proof.
  intros rev Hr%reachable_inv Hg Hrid Hk Hs Hat Hid Hi Hrev Hd.
  destruct (inv_valid _ Hr _ _ Hg) as [Ho [Hw _]%validateAndHash_Ok].
  assert (o ≠ "") as Hone by (rewrite <- Ho; apply Hw).
  assert (rid ≠ o) as Hneq by (intros ->; unfold Get in Hg; congruence).
  assert (fresh rev book) as Hf.
  { split; simpl; try done. rewrite Ho. unfold Get in Hg. eauto. }
  assert (validateAndHash rev = Ok h) as Hv.
  { apply validateAndHash_Ok. split; [|done]. apply reversal_well_formed; congruence. }
  exists (store rev h now book). unfold Reverse. rewrite Hg. fold rev.
  unfold Post. rewrite Hv, postValidated_fresh by done. split; [done|]. split.
  - simpl. rewrite Ho, (proj2 (String.eqb_neq o "")) by done. apply lookup_insert_eq.
  - intros account asset. rewrite store_account_balance by done. simpl.
    rewrite account_delta_reverse by apply Hw. lia.
Qed.

(** A journal is reversed at most once: two postings that reverse the same
    journal are the same posting, and once a reversal is recorded every further
    attempt leaves the book as it is; an otherwise acceptable one is told which
    journal reversed the original. *)
Theorem at_most_one_reversal (book : Ledger) :
  reachable book →
  (∀ id id' p q, byID book !! id = Some p → byID book !! id' = Some q →
     j_ReversalOf (p_Journal p) = j_ReversalOf (p_Journal q) →
     j_ReversalOf (p_Journal p) ≠ "" → p = q) ∧
  (∀ now o r rid k s reason at_, reversals book !! o = Some r →
     (Reverse now o rid k s reason at_ book).1 = book ∧
     ∀ original h, Get o book = Some original →
       let rev := reversal_of (p_Journal original) rid k s reason at_ in
       validateAndHash rev = Ok h → byID book !! rid = None →
       idempotency book !! scope rev = None →
       Reverse now o rid k s reason at_ book = (book, Err (ErrAlreadyReversed r))).
Proof.
  intros Hr%reachable_inv. split.
  - intros id id' p q Hp Hq Hpq Hne.
    pose proof (inv_reversed _ Hr _ _ Hp Hne) as Hp'.
    rewrite Hpq in Hne, Hp'. pose proof (inv_reversed _ Hr _ _ Hq Hne) as Hq'. congruence.
  - intros now o r rid k s reason at_ Ho. unfold Reverse.
    destruct (Get o book) as [original|] eqn:Eo; [|by split].
    destruct (inv_valid _ Hr _ _ Eo) as [Hid _]. destruct (inv_rev _ Hr _ _ Ho) as (_ & Hne & _).
    split.
    + unfold Post. destruct (validateAndHash _) as [h|]; [|done].
      destruct (postValidated_cases (reversal_of (p_Journal original) rid k s reason at_) h now book)
        as [(id & _ & ->)|[(_ & _ & e & -> & _)|[[_ _ Hf] _]]]; try done.
      simpl in Hf. rewrite Hid in Hf. destruct (Hf Hne). congruence.
    + intros orig h Horig Hv Hfid Hfs.
      assert (orig = original) as -> by congruence. unfold Post. rewrite Hv.
      unfold postValidated. rewrite Hfs. simpl.
      rewrite (proj2 (has_key_false _ _)) by done. rewrite Hid.
      rewrite (proj2 (String.eqb_neq o "")) by done. simpl.
      rewrite (proj2 (has_key_true (byID book) o)) by (unfold Get in Eo; eauto).
      simpl. by rewrite Ho.
Qed.
End Reversal.

(** * Batches of new journals *)

Section Batches.
Context `{JournalDigest}.

(** Each journal is fresh when its turn comes. *)
Fixpoint fresh_batch (now : Time.t) (hs : list (Journal * string)) (book : Ledger) : Prop :=
  match hs with
  | [] => True
  | (j, h) :: rest => fresh j book ∧ fresh_batch now rest (store j h now book)
  end.

Fixpoint store_all (now : Time.t) (hs : list (Journal * string)) (book : Ledger) : Ledger :=
  match hs with
  | [] => book
  | (j, h) :: rest => store_all now rest (store j h now book)
  end.

Lemma fresh_store j j' h now book :
  fresh j' book → j_ID j' ≠ j_ID j → scope j' ≠ scope j →
  (j_ReversalOf j' ≠ "" → j_ReversalOf j' ≠ j_ReversalOf j) →
  fresh j' (store j h now book).
Proof.
  intros [Hs Hi Hr] Hid Hsc Hrv. split; simpl.
  - by rewrite lookup_insert_ne.
  - by rewrite lookup_insert_ne.
  - intros Hne. destruct (Hr Hne) as [[x Hx] Hn]. split.
    + rewrite lookup_insert. case_decide; eauto.
    + destruct (String.eqb_spec (j_ReversalOf j) ""); simpl; [done|].
      rewrite lookup_insert_ne; [done|]. intros E. by apply (Hrv Hne).
Qed.

Lemma post_all_fresh now hs book :
  fresh_batch now hs book →
  post_all now hs book = (store_all now hs book, Ok ((λ '(j, h), mkPosted j h now) <$> hs)).
Proof.
  revert book. induction hs as [|[j h] hs IH]; intros book; simpl; [done|].
  intros [Hf Hr]. rewrite postValidated_fresh by done. by rewrite IH.
Qed.

Lemma hash_all_hashes js hs :
  hs.*1 = js → Forall (λ '(j, h), validateAndHash j = Ok h) hs → hash_all js = Ok hs.
Proof.
  intros <- HF. induction HF as [|[j h] hs Hj _ IH]; [done|].
  rewrite fmap_cons. cbn [hash_all fst]. by rewrite Hj, IH.
Qed.

Lemma PostBatch_fresh now js hs book :
  js ≠ [] → hs.*1 = js → Forall (λ '(j, h), validateAndHash j = Ok h) hs →
  fresh_batch now hs book →
  PostBatch now js book =
    (store_all now hs book, Ok ((λ '(j, h), mkPosted j h now) <$> hs)).
Proof.
  intros Hne Hjs HF Hf. unfold PostBatch. destruct js as [|j js]; [done|].
  by rewrite (hash_all_hashes _ hs), post_all_fresh.
Qed.

(** A batch whose journals are all new to the book. *)
Definition all_new (now : Time.t) (js : list Journal) (bk : Ledger) : Prop :=
  ∀ hs, hs.*1 = js → fresh_batch now hs bk.

Lemma PostBatch_new now js bk bk' ps :
  PostBatch now js bk = (bk', Ok ps) → all_new now js bk →
  ∃ hs, hs.*1 = js ∧ fresh_batch now hs bk ∧ bk' = store_all now hs bk ∧
    (λ p, j_ID (p_Journal p)) <$> ps = j_ID <$> js.
Proof.
  intros Hp Hn. unfold PostBatch in Hp. destruct js as [|j js]; [done|].
  destruct (hash_all (j :: js)) as [hs|] eqn:Hh; [|done]. apply hash_all_Ok in Hh as [Hfst _].
  pose proof (Hn hs Hfst) as Hf. rewrite post_all_fresh in Hp by done. injection Hp as <- <-.
  exists hs. split_and!; try done. rewrite <- Hfst, <- !list_fmap_compose.
  apply list_fmap_ext. by intros i [].
Qed.

Lemma single_journal (hs : list (Journal * string)) j : hs.*1 = [j] → ∃ h, hs = [(j, h)].
Proof.
  destruct hs as [|[j' h] [|]]; intros E; cbn in E; try discriminate E.
  injection E as ->. by exists h.
Qed.

Lemma store_all_account_balance now hs book account asset :
  fresh_batch now hs book →
  account_balance account asset (store_all now hs book) =
  account_balance account asset book +
  Zsum (λ '(j, _), account_delta account asset (j_Entries j)) hs.
Proof.
  revert book. induction hs as [|[j h] hs IH]; intros book; simpl.
  { unfold Zsum; simpl. lia. }
  intros [Hf Hr]. rewrite IH by done. rewrite store_account_balance by done. lia.
Qed.

(** Storing journals whose entries negate those of [ps] takes the movements
    of [ps] out of every balance. *)
Lemma store_all_negation now hs ps book account asset :
  fresh_batch now hs book →
  (λ jh, j_Entries jh.1) <$> hs = (λ p, reverse_entry <$> j_Entries (p_Journal p)) <$> ps →
  Forall (λ p, Forall (λ e, entry_ok e = true) (j_Entries (p_Journal p))) ps →
  account_balance account asset (store_all now hs book) =
  account_balance account asset book -
  Zsum (λ p, account_delta account asset (j_Entries (p_Journal p))) ps.
Proof.
  intros Hf He HF. rewrite store_all_account_balance by done.
  rewrite (Zsum_ext _ (λ jh, account_delta account asset (j_Entries jh.1)) hs) by (by intros []).
  rewrite <- (Zsum_fmap (account_delta account asset) (λ jh, j_Entries jh.1)), He, Zsum_fmap.
  rewrite (Zsum_ext _ (λ p, - account_delta account asset (j_Entries (p_Journal p)))).
  - rewrite Zsum_opp. lia.
  - intros p Hp. rewrite Forall_forall in HF. by apply account_delta_reverse, HF.
Qed.
End Batches.

(** Any measure of the entries of a book grows by the measure of a new journal. *)
Lemma store_measure (f : list Entry → Z) j h now book :
  fresh j book →
  Msum (λ p, f (j_Entries (p_Journal p))) (byID (store j h now book)) =
  f (j_Entries j) + Msum (λ p, f (j_Entries (p_Journal p))) (byID book).
Proof. intros [_ Hi _]. simpl. by rewrite Msum_insert_fresh. Qed.

(** [z] units of asset [x] on account [a], seen from [account] and [asset]. *)
Definition movement (account asset a x : string) (z : Z) : Z :=
  if (a =s account) && (x =s asset) then z else 0.

Lemma movement_0 account asset a x : movement account asset a x 0 = 0.
Proof. unfold movement. by destruct (_ && _). Qed.

Lemma account_delta_app account asset es es' :
  account_delta account asset (es ++ es') =
  account_delta account asset es + account_delta account asset es'.
Proof. apply Zsum_app. Qed.

Lemma account_delta_credit account x a asset units p l t z :
  Big.set_string units = Some z →
  account_delta account x [mkEntry a Credit asset units p l t] = - movement account x a asset z.
Proof.
  intros Hz. unfold account_delta, movement, signed_units, entry_units. simpl.
  rewrite Hz. simpl. destruct (_ && _); lia.
Qed.

Lemma account_delta_debit account x a asset units p l t z :
  Big.set_string units = Some z →
  account_delta account x [mkEntry a Debit asset units p l t] = movement account x a asset z.
Proof.
  intros Hz. unfold account_delta, movement, signed_units, entry_units. simpl.
  rewrite Hz. simpl. destruct (_ && _); lia.
Qed.

(** A debit and a credit of the same amount of the same asset. *)
Lemma two_entries_balanced a1 a2 asset units p1 p2 l1 l2 t1 t2 x :
  side_total Debit x
    [mkEntry a1 Debit asset units p1 l1 t1; mkEntry a2 Credit asset units p2 l2 t2] =
  side_total Credit x
    [mkEntry a1 Debit asset units p1 l1 t1; mkEntry a2 Credit asset units p2 l2 t2].
Proof.
  unfold side_total, entry_units. simpl. destruct (asset =s x); simpl; lia.
Qed.

Lemma two_entries_ok a1 a2 asset units p1 p2 l1 l2 t1 t2 z :
  a1 ≠ "" → a2 ≠ "" → asset ≠ "" → Big.positive units = Some z →
  Forall (λ e, entry_ok e = true)
    [mkEntry a1 Debit asset units p1 l1 t1; mkEntry a2 Credit asset units p2 l2 t2].
Proof.
  intros H1 H2 H3 Hz. unfold entry_ok.
  repeat constructor; simpl; rewrite Hz, !(proj2 (String.eqb_neq _ _)) by done; done.
Qed.

Lemma two_entries_delta a1 a2 asset units p1 p2 l1 l2 t1 t2 z account x :
  Big.positive units = Some z →
  account_delta account x
    [mkEntry a1 Debit asset units p1 l1 t1; mkEntry a2 Credit asset units p2 l2 t2] =
  movement account x a1 asset z - movement account x a2 asset z.
Proof.
  intros [Hz _]%Big.positive_Some. unfold movement, account_delta, signed_units, entry_units. simpl.
  rewrite Hz. simpl. destruct ((a1 =s account) && _), ((a2 =s account) && _); lia.
Qed.

(** * A concrete book *)

(** A digest that keeps the identity of a journal, for the examples. *)
Definition id_digest : JournalDigest := λ j, Some (j_ID j +:+ j_SourceEventID j).

Module Sample.
#[local] Existing Instance id_digest.
Definition t0 : Time.t := Time.mk 1000 "".
Definition entries : list Entry :=
  [mkEntry "1310" Debit "USD" "100" "borrower" "L1" "";
   mkEntry "2310" Credit "USD" "100" "lender" "L1" ""].
Definition journal : Journal :=
  mkJournal "activation:L1" "entity" "book" "system" "LOAN_ACTIVATION" "e1" "L1" "k1" "c1"
    t0 entries "ev" "" "".
Definition book : Ledger := (Post t0 journal New).1.
Definition posted : PostedJournal := mkPosted journal "activation:L1e1" t0.
Definition reversed_book : Ledger := (Reverse t0 "activation:L1" "r1" "k2" "e2" "why" t0 book).1.

Lemma book_reachable : reachable book.
Proof. apply rtc_once, step_post. Qed.

Lemma reversed_book_reachable : reachable reversed_book.
Proof. eapply rtc_r; [apply book_reachable|apply step_reverse]. Qed.

Lemma reachable_trial_balance_witness :
  reachable reversed_book ∧ trial_balance "USD" reversed_book = 0.
Proof.
  split; [apply reversed_book_reachable|].
  exact (proj1 (reachable_trial_balance reversed_book "USD" reversed_book_reachable)).
Defined.

Lemma ledger_append_only_witness : extends New book.
Proof. apply (ledger_append_only New book). apply step_post. Defined.

Lemma post_idempotent_witness :
  Post t0 journal reversed_book = (reversed_book, Ok posted).
Proof.
  apply (post_idempotent t0 t0 journal journal New book reversed_book posted "activation:L1e1").
  - apply rtc_refl.
  - vm_compute. reflexivity.
  - apply rtc_once, step_reverse.
  - vm_compute. reflexivity.
  - reflexivity.
Defined.

Lemma reverse_effect_witness :
  ∃ book', Reverse t0 "activation:L1" "r1" "k2" "e2" "why" t0 book =
      (book', Ok (mkPosted (reversal_of journal "r1" "k2" "e2" "why" t0) "r1e2" t0)) ∧
    account_balance "1310" "USD" book' = 0.
Proof.
  destruct (reverse_effect t0 t0 book posted "activation:L1" "r1" "k2" "e2" "why" "r1e2"
              book_reachable) as (book' & Hb & _ & Hbal).
  1,6-9: vm_compute; reflexivity.
  1-4: discriminate.
  exists book'. split; [exact Hb|]. rewrite Hbal. vm_compute. reflexivity.
Defined.

Lemma at_most_one_reversal_witness :
  Reverse t0 "activation:L1" "r2" "k3" "e3" "again" t0 reversed_book =
    (reversed_book, Err (ErrAlreadyReversed "r1")).
Proof.
  destruct (at_most_one_reversal reversed_book) as [_ Hr]; [apply reversed_book_reachable|].
  destruct (Hr t0 "activation:L1" "r1" "r2" "k3" "e3" "again" t0) as [_ He].
  { vm_compute. reflexivity. }
  apply (He posted "r2e3"); vm_compute; reflexivity.
Defined.
End Sample.

(** Clients reason about the kernel through its lemmas. *)
#[global] Arguments Post : simpl never.
#[global] Arguments PostBatch : simpl never.
#[global] Arguments Reverse : simpl never.
#[global] Arguments postValidated : simpl never.
#[global] Arguments validateAndHash : simpl never.
#[global] Arguments store : simpl never.
#[global] Arguments account_balance : simpl never.
#[global] Arguments account_delta : simpl never.
