(* ===== verification/LoanAccounting.v ===== *)
(** Loan events as balanced ledger batches
    (services/foundation-ledger/internal/loanaccounting/accounting.go):
    activation with an optional origination fee, principal repayment and
    liquidation settlement. A [Service] holds the pointer to the shared book,
    which may be nil. *)
From S2P Require Import Prelude GoStd Ledger.

Definition AccountPrincipalReceivable : string := "1310".
Definition AccountProtocolSettlementAsset : string := "1220".
Definition AccountLenderPrincipalClaims : string := "2310".
Definition AccountOriginationFeeRevenue : string := "4100".
Definition AccountLiquidationFeeRevenue : string := "4110".

Inductive error :=
| ErrInvalidEvent
| LedgerFailure (e : Ledger.error).

Record Service := mkService { book : option Ledger }.

Record Activation := mkActivation {
  act_EventID : string;
  act_LoanID : string;
  act_BorrowerID : string;
  act_LenderID : string;
  act_AssetID : string;
  act_PrincipalUnits : string;
  act_OriginationFeeUnits : string;
  act_CorrelationID : string;
  act_EvidenceHash : string;
  act_Finality : string;
  act_EffectiveAt : Time.t }.

Record PrincipalRepayment := mkPrincipalRepayment {
  rep_EventID : string;
  rep_PaymentID : string;
  rep_LoanID : string;
  rep_BorrowerID : string;
  rep_LenderID : string;
  rep_AssetID : string;
  rep_Units : string;
  rep_CorrelationID : string;
  rep_EvidenceHash : string;
  rep_Finality : string;
  rep_EffectiveAt : Time.t }.

Record LiquidationSettlement := mkLiquidationSettlement {
  liq_EventID : string;
  liq_LiquidationID : string;
  liq_LoanID : string;
  liq_BorrowerID : string;
  liq_LenderID : string;
  liq_AssetID : string;
  liq_GrossProceedsUnits : string;
  liq_ExecutionCostsUnits : string;
  liq_LiquidationIncentiveUnits : string;
  liq_SecuredClaimPaidUnits : string;
  liq_BorrowerSurplusUnits : string;
  liq_DebtBeforeUnits : string;
  liq_ResidualBadDebtUnits : string;
  liq_CorrelationID : string;
  liq_EvidenceHash : string;
  liq_Finality : string;
  liq_EffectiveAt : Time.t }.

Definition New (book : option Ledger) : Service := mkService book.

(** The book after an operation, with its error tagged. *)
Definition on_book {A} (r : Ledger * result Ledger.error A) : Service * result error A :=
  (mkService (Some r.1), map_err LedgerFailure r.2).

(** * Activation *)

Definition activation_journal (event : Activation) : Journal :=
  mkJournal ("activation:" +:+ act_LoanID event) "unified-protocol" "loan-subledger"
    "chain-indexer" "LOAN_ACTIVATION" (act_EventID event) (act_LoanID event)
    (act_EventID event +:+ ":obligation") (act_CorrelationID event)
    (act_EffectiveAt event)
    [mkEntry AccountPrincipalReceivable Debit (act_AssetID event)
       (act_PrincipalUnits event) (act_BorrowerID event) (act_LoanID event) "";
     mkEntry AccountLenderPrincipalClaims Credit (act_AssetID event)
       (act_PrincipalUnits event) (act_LenderID event) (act_LoanID event) ""]
    (act_EvidenceHash event) "" "".

Definition origination_fee_journal (event : Activation) : Journal :=
  mkJournal ("origination-fee:" +:+ act_LoanID event) "unified-protocol" "general-ledger"
    "chain-indexer" "ORIGINATION_FEE_SETTLED" (act_EventID event) (act_LoanID event)
    (act_EventID event +:+ ":fee") (act_CorrelationID event)
    (act_EffectiveAt event)
    [mkEntry AccountProtocolSettlementAsset Debit (act_AssetID event)
       (act_OriginationFeeUnits event) "" (act_LoanID event) "";
     mkEntry AccountOriginationFeeRevenue Credit (act_AssetID event)
       (act_OriginationFeeUnits event) "" (act_LoanID event) ""]
    (act_EvidenceHash event) "" "".

Definition PostActivation `{JournalDigest} (now : Time.t) (event : Activation)
    (service : Service) : Service * result error (list PostedJournal) :=
  match book service with
  | None => (service, Err ErrInvalidEvent)
  | Some bk =>
      if empty_s (act_EventID event) || empty_s (act_LoanID event) ||
         empty_s (act_BorrowerID event) || empty_s (act_LenderID event) ||
         empty_s (act_AssetID event) || empty_s (act_PrincipalUnits event) ||
         empty_s (act_CorrelationID event) || empty_s (act_EvidenceHash event) ||
         (act_Finality event <>s "FINAL") || Time.IsZero (act_EffectiveAt event)
      then (service, Err ErrInvalidEvent)
      else if empty_s (act_OriginationFeeUnits event) ||
              (act_OriginationFeeUnits event =s "0")
      then on_book (PostBatch now [activation_journal event] bk)
      else on_book (PostBatch now
                      [activation_journal event; origination_fee_journal event] bk)
  end.

(** * Principal repayment *)

Definition repayment_journal (event : PrincipalRepayment) : Journal :=
  mkJournal ("repayment:" +:+ rep_PaymentID event) "unified-protocol" "loan-subledger"
    "chain-indexer" "PRINCIPAL_REPAID" (rep_EventID event) (rep_LoanID event)
    (rep_EventID event) (rep_CorrelationID event) (rep_EffectiveAt event)
    [mkEntry AccountLenderPrincipalClaims Debit (rep_AssetID event)
       (rep_Units event) (rep_LenderID event) (rep_LoanID event) "";
     mkEntry AccountPrincipalReceivable Credit (rep_AssetID event)
       (rep_Units event) (rep_BorrowerID event) (rep_LoanID event) ""]
    (rep_EvidenceHash event) "" "".

Definition PostPrincipalRepayment `{JournalDigest} (now : Time.t)
    (event : PrincipalRepayment) (service : Service)
    : Service * result error PostedJournal :=
  match book service with
  | None => (service, Err ErrInvalidEvent)
  | Some bk =>
      if empty_s (rep_EventID event) || empty_s (rep_PaymentID event) ||
         empty_s (rep_LoanID event) || empty_s (rep_BorrowerID event) ||
         empty_s (rep_LenderID event) || empty_s (rep_AssetID event) ||
         empty_s (rep_Units event) || empty_s (rep_CorrelationID event) ||
         empty_s (rep_EvidenceHash event) || (rep_Finality event <>s "FINAL") ||
         Time.IsZero (rep_EffectiveAt event)
      then (service, Err ErrInvalidEvent)
      else on_book (Post now (repayment_journal event) bk)
  end.

(** * Liquidation settlement *)

Definition nonNegativeInteger (value : string) : option Z := Big.nonneg value.

Definition liquidation_recovery_journal (event : LiquidationSettlement) : Journal :=
  mkJournal ("liquidation-recovery:" +:+ liq_LiquidationID event) "unified-protocol"
    "loan-subledger" "chain-indexer" "LIQUIDATION_PRINCIPAL_RECOVERY"
    (liq_EventID event) (liq_LoanID event) (liq_EventID event +:+ ":principal")
    (liq_CorrelationID event) (liq_EffectiveAt event)
    [mkEntry AccountLenderPrincipalClaims Debit (liq_AssetID event)
       (liq_SecuredClaimPaidUnits event) (liq_LenderID event) (liq_LoanID event) "";
     mkEntry AccountPrincipalReceivable Credit (liq_AssetID event)
       (liq_SecuredClaimPaidUnits event) (liq_BorrowerID event) (liq_LoanID event) ""]
    (liq_EvidenceHash event) "" "".

Definition liquidation_cost_journal (event : LiquidationSettlement) : Journal :=
  mkJournal ("liquidation-cost:" +:+ liq_LiquidationID event) "unified-protocol"
    "general-ledger" "chain-indexer" "LIQUIDATION_COST_RECOVERED"
    (liq_EventID event) (liq_LoanID event) (liq_EventID event +:+ ":cost")
    (liq_CorrelationID event) (liq_EffectiveAt event)
    [mkEntry AccountProtocolSettlementAsset Debit (liq_AssetID event)
       (liq_ExecutionCostsUnits event) "" (liq_LoanID event) "";
     mkEntry AccountLiquidationFeeRevenue Credit (liq_AssetID event)
       (liq_ExecutionCostsUnits event) "" (liq_LoanID event) ""]
    (liq_EvidenceHash event) "" "".

Definition PostLiquidationSettlement `{JournalDigest} (now : Time.t)
    (event : LiquidationSettlement) (service : Service)
    : Service * result error (list PostedJournal) :=
  match book service with
  | None => (service, Err ErrInvalidEvent)
  | Some bk =>
      if empty_s (liq_EventID event) || empty_s (liq_LiquidationID event) ||
         empty_s (liq_LoanID event) || empty_s (liq_BorrowerID event) ||
         empty_s (liq_LenderID event) || empty_s (liq_AssetID event) ||
         empty_s (liq_CorrelationID event) || empty_s (liq_EvidenceHash event) ||
         (liq_Finality event <>s "FINAL") || Time.IsZero (liq_EffectiveAt event)
      then (service, Err ErrInvalidEvent)
      else match nonNegativeInteger (liq_GrossProceedsUnits event) with
      | None => (service, Err ErrInvalidEvent)
      | Some gross =>
          if Big.sign gross =? 0 then (service, Err ErrInvalidEvent)
          else match nonNegativeInteger (liq_ExecutionCostsUnits event),
                     nonNegativeInteger (liq_LiquidationIncentiveUnits event),
                     nonNegativeInteger (liq_SecuredClaimPaidUnits event),
                     nonNegativeInteger (liq_BorrowerSurplusUnits event),
                     nonNegativeInteger (liq_DebtBeforeUnits event),
                     nonNegativeInteger (liq_ResidualBadDebtUnits event) with
          | Some costs, Some incentive, Some secured, Some surplus,
            Some debtBefore, Some badDebt =>
              let allocated := costs + incentive + secured + surplus in
              let reconciledDebt := secured + badDebt in
              if negb (gross =? allocated) || negb (debtBefore =? reconciledDebt)
              then (service, Err ErrInvalidEvent)
              else
                let journals :=
                  (if Big.sign secured =? 0 then []
                   else [liquidation_recovery_journal event]) ++
                  (if Big.sign costs =? 0 then []
                   else [liquidation_cost_journal event]) in
                match journals with
                | [] => (service, Ok [])
                | _ => on_book (PostBatch now journals bk)
                end
          | _, _, _, _, _, _ => (service, Err ErrInvalidEvent)
          end
      end
  end.

(** * Well-formedness of the generated journals *)

Ltac unfold_accounts :=
  unfold AccountPrincipalReceivable, AccountProtocolSettlementAsset,
    AccountLenderPrincipalClaims, AccountOriginationFeeRevenue,
    AccountLiquidationFeeRevenue.

Section Journals.
Context `{JournalDigest}.

(** A two-entry journal with every identity field set validates. *)
Lemma two_entry_journal_valid j a1 a2 asset units p1 p2 l1 l2 t1 t2 z h :
  j_Entries j = [mkEntry a1 Debit asset units p1 l1 t1; mkEntry a2 Credit asset units p2 l2 t2] →
  (j_ID j ≠ "" ∧ j_LegalEntityID j ≠ "" ∧ j_BookID j ≠ "" ∧
   j_SourceSystem j ≠ "" ∧ j_EntryType j ≠ "" ∧ j_SourceEventID j ≠ "" ∧
   j_IdempotencyKey j ≠ "" ∧ j_CorrelationID j ≠ "" ∧ j_EvidenceHash j ≠ "" ∧
   Time.ns (j_EffectiveAt j) ≠ 0) →
  j_ReversalOf j = "" →
  a1 ≠ "" → a2 ≠ "" → asset ≠ "" → Big.positive units = Some z →
  journal_digest j = Some h → validateAndHash j = Ok h.
Proof.
  intros He Hreq Hrev H1 H2 H3 Hz Hd. apply validateAndHash_Ok. split; [|done].
  split; [done| | | |].
  - rewrite Hrev. by destruct Hreq as [? _].
  - by rewrite He.
  - rewrite He. by eapply two_entries_ok.
  - intros x. rewrite He. apply two_entries_balanced.
Qed.

Lemma append_nonempty_l a b : a ≠ "" → a +:+ b ≠ "".
Proof. by destruct a. Qed.

Definition valid_activation (event : Activation) : Prop :=
  act_EventID event ≠ "" ∧ act_LoanID event ≠ "" ∧ act_BorrowerID event ≠ "" ∧
  act_LenderID event ≠ "" ∧ act_AssetID event ≠ "" ∧ act_CorrelationID event ≠ "" ∧
  act_EvidenceHash event ≠ "" ∧ act_Finality event = "FINAL" ∧
  Time.ns (act_EffectiveAt event) ≠ 0.

Lemma activation_journal_valid event z h :
  valid_activation event → Big.positive (act_PrincipalUnits event) = Some z →
  journal_digest (activation_journal event) = Some h →
  validateAndHash (activation_journal event) = Ok h.
Proof.
  intros Hv Hz Hd. destruct_and! Hv. eapply two_entry_journal_valid; try done.
  simpl. split_and!; try done. by apply append_nonempty_l.
Qed.

Lemma fee_journal_valid event z h :
  valid_activation event → Big.positive (act_OriginationFeeUnits event) = Some z →
  journal_digest (origination_fee_journal event) = Some h →
  validateAndHash (origination_fee_journal event) = Ok h.
Proof.
  intros Hv Hz Hd. destruct_and! Hv. eapply two_entry_journal_valid; try done.
  simpl. split_and!; try done. by apply append_nonempty_l.
Qed.

Lemma positive_nonempty s z : Big.positive s = Some z → s ≠ "".
Proof. intros [Hs _]%Big.positive_Some ->. done. Qed.

(** The two journals of one event never collide. *)
Lemma activation_fee_distinct event :
  j_ID (origination_fee_journal event) ≠ j_ID (activation_journal event) ∧
  scope (origination_fee_journal event) ≠ scope (activation_journal event).
Proof.
  split; [discriminate|]. unfold scope; simpl.
  intros E. by simplify_eq.
Qed.

(** A final activation event whose journals are new to the book is posted,
    and it moves exactly the principal (receivable against lender claims) and
    the origination fee (settlement asset against fee revenue); no other account
    or asset moves. An absent or zero fee posts no fee journal. *)
Theorem activation_effect (now : Time.t) (event : Activation) (bk : Ledger)
    (principal fee : Z) (h hf : string) :
  valid_activation event →
  Big.positive (act_PrincipalUnits event) = Some principal →
  (if empty_s (act_OriginationFeeUnits event) || (act_OriginationFeeUnits event =s "0")
   then fee = 0 else Big.positive (act_OriginationFeeUnits event) = Some fee) →
  fresh (activation_journal event) bk → fresh (origination_fee_journal event) bk →
  journal_digest (activation_journal event) = Some h →
  journal_digest (origination_fee_journal event) = Some hf →
  ∃ bk' ps, PostActivation now event (New (Some bk)) = (New (Some bk'), Ok ps) ∧
    ∀ account asset, account_balance account asset bk' =
      account_balance account asset bk
      + movement account asset "1310" (act_AssetID event) principal
      - movement account asset "2310" (act_AssetID event) principal
      + movement account asset "1220" (act_AssetID event) fee
      - movement account asset "4100" (act_AssetID event) fee.
Proof.
  intros Hv Hp Hfee Hfa Hff Hda Hdf.
  pose proof (activation_journal_valid _ _ _ Hv Hp Hda) as Hva.
  pose proof (positive_nonempty _ _ Hp) as Hne.
  unfold PostActivation. simpl. pose proof Hv as Hv'. destruct_and! Hv'. pass_guard.
  destruct (_ || _) eqn:Ef.
  - rewrite (PostBatch_fresh now _ [(activation_journal event, h)]);
      [|done|done|by repeat constructor|by split].
    eexists _, _. split; [done|]. intros account asset. simpl.
    rewrite (store_account_balance _ h now _ account asset Hfa). simpl.
    rewrite (two_entries_delta _ _ _ _ _ _ _ _ _ _ principal) by done.
    subst fee. rewrite !movement_0. unfold_accounts. lia.
  - pose proof (fee_journal_valid _ _ _ Hv Hfee Hdf) as Hvf.
    destruct (activation_fee_distinct event) as [Hid Hsc].
    assert (fresh_batch now [(activation_journal event, h); (origination_fee_journal event, hf)] bk)
      as Hfb by (split; [done|split; [by apply fresh_store|done]]).
    rewrite (PostBatch_fresh now _ [(activation_journal event, h);
                                    (origination_fee_journal event, hf)]);
      [|done|done|by repeat constructor|done].
    eexists (store_all _ _ _), _. split; [reflexivity|]. intros account asset.
    rewrite (store_all_account_balance _ _ _ account asset Hfb). simpl.
    rewrite (two_entries_delta _ _ _ _ _ _ _ _ _ _ principal) by done.
    rewrite (two_entries_delta _ _ _ _ _ _ _ _ _ _ fee) by done.
    unfold_accounts. lia.
Qed.
End Journals.

(** * Liquidation *)

Section Liquidation.
Context `{JournalDigest}.

Definition valid_liquidation (event : LiquidationSettlement) : Prop :=
  liq_EventID event ≠ "" ∧ liq_LiquidationID event ≠ "" ∧ liq_LoanID event ≠ "" ∧
  liq_BorrowerID event ≠ "" ∧ liq_LenderID event ≠ "" ∧ liq_AssetID event ≠ "" ∧
  liq_CorrelationID event ≠ "" ∧ liq_EvidenceHash event ≠ "" ∧
  liq_Finality event = "FINAL" ∧ Time.ns (liq_EffectiveAt event) ≠ 0.

(** The amounts of a settlement, parsed. *)
Record amounts := mkAmounts {
  gross : Z; costs : Z; incentive : Z; secured : Z; surplus : Z; debtBefore : Z; badDebt : Z }.

Definition parsed (event : LiquidationSettlement) (a : amounts) : Prop :=
  Big.nonneg (liq_GrossProceedsUnits event) = Some (gross a) ∧
  Big.nonneg (liq_ExecutionCostsUnits event) = Some (costs a) ∧
  Big.nonneg (liq_LiquidationIncentiveUnits event) = Some (incentive a) ∧
  Big.nonneg (liq_SecuredClaimPaidUnits event) = Some (secured a) ∧
  Big.nonneg (liq_BorrowerSurplusUnits event) = Some (surplus a) ∧
  Big.nonneg (liq_DebtBeforeUnits event) = Some (debtBefore a) ∧
  Big.nonneg (liq_ResidualBadDebtUnits event) = Some (badDebt a).

(** Proceeds are fully distributed and the debt is fully explained. *)
Definition reconciled (a : amounts) : Prop :=
  0 < gross a ∧ gross a = costs a + incentive a + secured a + surplus a ∧
  debtBefore a = secured a + badDebt a.

Definition liquidation_journals (event : LiquidationSettlement) (a : amounts) : list Journal :=
  (if secured a =? 0 then [] else [liquidation_recovery_journal event]) ++
  (if costs a =? 0 then [] else [liquidation_cost_journal event]).

Lemma sign_eqb_0 z : (Big.sign z =? 0) = (z =? 0).
Proof. by destruct z. Qed.

(** The handler as one equation on valid events with parsed amounts. *)
Lemma PostLiquidationSettlement_parsed now event bk a :
  valid_liquidation event → parsed event a → reconciled a →
  PostLiquidationSettlement now event (New (Some bk)) =
    match liquidation_journals event a with
    | [] => (New (Some bk), Ok [])
    | js => on_book (PostBatch now js bk)
    end.
Proof.
  intros Hv Hp (Hg & Hd & Hb). destruct_and! Hv. destruct_and! Hp.
  unfold PostLiquidationSettlement, nonNegativeInteger, liquidation_journals. simpl.
  pass_guard. repeat match goal with E : Big.nonneg _ = Some _ |- _ => rewrite E; clear E end.
  rewrite !sign_eqb_0. pass_guard.
  rewrite (proj2 (Z.eqb_eq (gross a) _)), (proj2 (Z.eqb_eq (debtBefore a) _)) by done.
  by destruct (secured a =? 0), (costs a =? 0).
Qed.

Lemma PostLiquidationSettlement_Ok now event svc svc' ps :
  PostLiquidationSettlement now event svc = (svc', Ok ps) →
  valid_liquidation event ∧ ∃ a, parsed event a ∧ reconciled a.
Proof.
  unfold PostLiquidationSettlement, nonNegativeInteger. intros Hp.
  destruct (book svc) as [bk|]; [|done].
  step_in Hp. unfold Time.IsZero in *. bool_facts.
  step_in Hp. rewrite sign_eqb_0 in Hp. step_in Hp. do 6 step_in Hp.
  step_in Hp. bool_facts. split; [by split_and!|].
  match goal with
  | G : Big.nonneg _ = Some ?g, C : Big.nonneg _ = Some ?c, I : Big.nonneg _ = Some ?i,
    S : Big.nonneg _ = Some ?s, U : Big.nonneg _ = Some ?u, D : Big.nonneg _ = Some ?d,
    B : Big.nonneg _ = Some ?b, E : ?g = ?c + ?i + ?s + ?u, E' : ?d = ?s + ?b |- _ =>
      exists (mkAmounts g c i s u d b); split; [by split_and!|];
      split; simpl; [apply Big.nonneg_Some in G as [_ ?]; lia|done]
  end.
Qed.

Lemma liquidation_journals_valid event a h hc :
  valid_liquidation event → parsed event a →
  journal_digest (liquidation_recovery_journal event) = Some h →
  journal_digest (liquidation_cost_journal event) = Some hc →
  (secured a ≠ 0 → validateAndHash (liquidation_recovery_journal event) = Ok h) ∧
  (costs a ≠ 0 → validateAndHash (liquidation_cost_journal event) = Ok hc).
Proof.
  intros Hv Hp Hh Hhc. destruct_and! Hv. unfold parsed in Hp. rewrite !Big.nonneg_Some in Hp.
  destruct_and! Hp. split; intros Hne; (eapply two_entry_journal_valid; try done).
  1,3: simpl; split_and!; try done; by apply append_nonempty_l.
  all: apply Big.positive_Some; split; [done|lia].
Qed.

Lemma liquidation_journals_distinct event :
  j_ID (liquidation_cost_journal event) ≠ j_ID (liquidation_recovery_journal event) ∧
  scope (liquidation_cost_journal event) ≠ scope (liquidation_recovery_journal event).
Proof. split; [discriminate|]. unfold scope; simpl. intros E. by simplify_eq. Qed.

Lemma nonneg_positive s z : Big.nonneg s = Some z → z ≠ 0 → Big.positive s = Some z.
Proof. rewrite Big.nonneg_Some, Big.positive_Some. naive_solver lia. Qed.

(** A liquidation is accepted only if its proceeds are fully distributed
    (gross = costs + incentive + secured claim + surplus) and the debt is fully
    explained (debt before = secured claim + bad debt). When such a settlement is
    new to the book it is posted and moves exactly the secured claim (lender
    claims against receivable) and the execution costs (settlement asset against
    fee revenue); nothing else moves, and with both zero nothing is posted. *)
Theorem liquidation_effect (now : Time.t) (event : LiquidationSettlement) :
  (∀ svc svc' ps, PostLiquidationSettlement now event svc = (svc', Ok ps) →
     valid_liquidation event ∧ ∃ a, parsed event a ∧ reconciled a) ∧
  (∀ bk a h hc, valid_liquidation event → parsed event a → reconciled a →
     fresh (liquidation_recovery_journal event) bk →
     fresh (liquidation_cost_journal event) bk →
     journal_digest (liquidation_recovery_journal event) = Some h →
     journal_digest (liquidation_cost_journal event) = Some hc →
     ∃ bk' ps, PostLiquidationSettlement now event (New (Some bk)) =
         (New (Some bk'), Ok ps) ∧
       length ps = length (liquidation_journals event a) ∧
       ∀ account asset, account_balance account asset bk' =
         account_balance account asset bk
         + movement account asset "2310" (liq_AssetID event) (secured a)
         - movement account asset "1310" (liq_AssetID event) (secured a)
         + movement account asset "1220" (liq_AssetID event) (costs a)
         - movement account asset "4110" (liq_AssetID event) (costs a)).
Proof.
  split; [apply PostLiquidationSettlement_Ok|].
  intros bk a h hc Hv Hp Hr Hf Hfc Hh Hhc.
  rewrite (PostLiquidationSettlement_parsed now event bk a) by done.
  destruct (liquidation_journals_valid event a h hc Hv Hp Hh Hhc) as [Hvr Hvc].
  destruct (liquidation_journals_distinct event) as [Hid Hsc].
  destruct Hp as (_ & Hc & _ & Hs & _). unfold liquidation_journals.
  set (hs := (if secured a =? 0 then [] else [(liquidation_recovery_journal event, h)]) ++
             (if costs a =? 0 then [] else [(liquidation_cost_journal event, hc)])).
  assert (hs.*1 = liquidation_journals event a) as Hjs.
  { unfold hs, liquidation_journals. by destruct (secured a =? 0), (costs a =? 0). }
  assert (fresh_batch now hs bk) as Hfb.
  { assert (fresh (liquidation_cost_journal event)
              (store (liquidation_recovery_journal event) h now bk)) by by apply fresh_store.
    unfold hs. destruct (secured a =? 0), (costs a =? 0); simpl; auto. }
  assert (Forall (λ '(j, h), validateAndHash j = Ok h) hs) as HF.
  { unfold hs. destruct (Z.eqb_spec (secured a) 0), (Z.eqb_spec (costs a) 0);
      simpl; repeat constructor; auto. }
  exists (store_all now hs bk), ((λ '(j, h), mkPosted j h now) <$> hs). split_and!.
  - fold (liquidation_journals event a). rewrite <- Hjs in *.
    destruct hs as [|x hs'] eqn:E; [done|]. change ((x :: hs').*1) with (x.1 :: hs'.*1).
    cbv iota. change (x.1 :: hs'.*1) with ((x :: hs').*1).
    by rewrite (PostBatch_fresh now _ (x :: hs')).
  - fold (liquidation_journals event a). rewrite <- Hjs. by rewrite !length_fmap.
  - intros account asset. rewrite store_all_account_balance by done. unfold hs.
    destruct (Z.eqb_spec (secured a) 0) as [->|Hsn], (Z.eqb_spec (costs a) 0) as [->|Hcn];
      simpl; unfold Zsum; simpl;
      repeat (erewrite two_entries_delta by (by apply nonneg_positive));
      rewrite ?movement_0; unfold_accounts; lia.
Qed.
End Liquidation.

(** * Concrete events *)

Module Sample.
#[local] Existing Instance id_digest.

Definition activation : Activation :=
  mkActivation "ev1" "L1" "bob" "lea" "USD" "1000" "15" "corr" "hash" "FINAL" (Time.mk 7 "").

Definition liquidation : LiquidationSettlement :=
  mkLiquidationSettlement "ev2" "Q1" "L1" "bob" "lea" "USD" "900" "20" "30" "850" "0"
    "1000" "150" "corr" "hash" "FINAL" (Time.mk 9 "").

Definition sample_amounts : amounts := mkAmounts 900 20 30 850 0 1000 150.

Lemma activation_effect_witness :
  ∃ bk' ps, PostActivation (Time.mk 8 "") activation (New (Some Ledger.New)) =
      (New (Some bk'), Ok ps) ∧
    account_balance "1310" "USD" bk' = 1000 ∧ account_balance "4100" "USD" bk' = -15.
Proof.
  destruct (activation_effect (Time.mk 8 "") activation Ledger.New 1000 15
              "activation:L1ev1" "origination-fee:L1ev1") as (bk' & ps & Hp & Hb).
  - by split_and!.
  - reflexivity.
  - reflexivity.
  - by split.
  - by split.
  - reflexivity.
  - reflexivity.
  - exists bk', ps. split; [exact Hp|]. rewrite !Hb. split; reflexivity.
Defined.

Lemma liquidation_effect_witness :
  ∃ bk' ps, PostLiquidationSettlement (Time.mk 9 "") liquidation (New (Some Ledger.New)) =
      (New (Some bk'), Ok ps) ∧ length ps = 2%nat ∧
    account_balance "1310" "USD" bk' = -850 ∧ account_balance "1220" "USD" bk' = 20.
Proof.
  destruct (liquidation_effect (Time.mk 9 "") liquidation) as [_ Hl].
  destruct (Hl Ledger.New sample_amounts "liquidation-recovery:Q1ev2" "liquidation-cost:Q1ev2")
    as (bk' & ps & Hp & Hn & Hb).
  - by split_and!.
  - by split_and!.
  - by split_and!.
  - by split.
  - by split.
  - reflexivity.
  - reflexivity.
  - exists bk', ps. split; [exact Hp|]. split; [exact Hn|]. rewrite !Hb. split; reflexivity.
Defined.
End Sample.
