(* ===== verification/SyndicateAccounting.v ===== *)
(** Syndicated-loan events as balanced ledger postings
    (services/foundation-ledger/internal/syndicateaccounting/accounting.go):
    commitments, activation with the positions it creates, refunds, waterfall
    distributions and position transfers. *)
From S2P Require Import Prelude GoStd Ledger.

Definition AccountProtocolSettlementAsset : string := "1220".
Definition AccountPrincipalReceivable : string := "1310".
Definition AccountLenderPrincipalClaims : string := "2310".
Definition AccountFundingCommitments : string := "2320".

Inductive error :=
| ErrInvalidEvent
| LedgerFailure (e : Ledger.error).

Record Service := mkService { book : option Ledger }.

Record BaseEvent := mkBaseEvent {
  b_EventID : string;
  b_LoanID : string;
  b_AssetID : string;
  b_CorrelationID : string;
  b_EvidenceHash : string;
  b_Finality : string;
  b_EffectiveAt : Time.t }.

Record Commitment := mkCommitment {
  com_Base : BaseEvent;
  com_CommitmentID : string;
  com_LenderID : string;
  com_Units : string }.

(** [PositionRight] and [Allocation] have the same fields. *)
Record PositionRight := mkPositionRight {
  pos_PositionID : string;
  pos_TrancheID : string;
  pos_OwnerID : string;
  pos_Units : string }.

Record Activation := mkActivation {
  act_Base : BaseEvent;
  act_BorrowerID : string;
  act_Units : string;
  act_Positions : list PositionRight }.

Record Refund := mkRefund {
  ref_Base : BaseEvent;
  ref_CommitmentID : string;
  ref_LenderID : string;
  ref_Units : string }.

Record Allocation := mkAllocation {
  alloc_PositionID : string;
  alloc_TrancheID : string;
  alloc_OwnerID : string;
  alloc_Units : string }.

Record Distribution := mkDistribution {
  dist_Base : BaseEvent;
  dist_PaymentID : string;
  dist_BorrowerID : string;
  dist_Units : string;
  dist_Allocations : list Allocation }.

Record PositionTransfer := mkPositionTransfer {
  tr_Base : BaseEvent;
  tr_TransferID : string;
  tr_PositionID : string;
  tr_SellerID : string;
  tr_BuyerID : string;
  tr_TrancheID : string;
  tr_ShareUnits : string;
  tr_ClaimUnits : string;
  tr_CutoffBlock : Z }.

Definition New (book : option Ledger) : Service := mkService book.

Definition on_book {A} (r : Ledger * result Ledger.error A) : Service * result error A :=
  (mkService (Some r.1), map_err LedgerFailure r.2).

Definition positiveInteger (value : string) : bool :=
  match Big.positive value with Some _ => true | None => false end.

(** [validBase] also checks that the service has a book; the book check is the
    match on [book service] of each handler. *)
Definition validBase (event : BaseEvent) : bool :=
  (b_EventID event <>s "") && (b_LoanID event <>s "") && (b_AssetID event <>s "") &&
  (b_CorrelationID event <>s "") && (b_EvidenceHash event <>s "") &&
  (b_Finality event =s "FINAL") && negb (Time.IsZero (b_EffectiveAt event)).

(** The common journal header of the package. *)
Definition syndicate_journal (base : BaseEvent) (id entryType key : string)
    (entries : list Entry) : Journal :=
  mkJournal id "unified-protocol" "syndicate-subledger" "chain-indexer" entryType
    (b_EventID base) (b_LoanID base) key (b_CorrelationID base) (b_EffectiveAt base)
    entries (b_EvidenceHash base) "" "".

(** * Commitments and refunds *)

Definition commitment_journal (event : Commitment) : Journal :=
  let base := com_Base event in
  syndicate_journal base ("syndicate-commitment:" +:+ com_CommitmentID event)
    "SYNDICATE_COMMITMENT_FUNDED" (b_EventID base)
    [mkEntry AccountProtocolSettlementAsset Debit (b_AssetID base) (com_Units event)
       "" (b_LoanID base) "";
     mkEntry AccountFundingCommitments Credit (b_AssetID base) (com_Units event)
       (com_LenderID event) (b_LoanID base) ""].

Definition PostCommitment `{JournalDigest} (now : Time.t) (event : Commitment)
    (service : Service) : Service * result error PostedJournal :=
  match book service with
  | None => (service, Err ErrInvalidEvent)
  | Some bk =>
      if negb (validBase (com_Base event)) || empty_s (com_CommitmentID event) ||
         empty_s (com_LenderID event) || negb (positiveInteger (com_Units event))
      then (service, Err ErrInvalidEvent)
      else on_book (Post now (commitment_journal event) bk)
  end.

Definition refund_journal (event : Refund) : Journal :=
  let base := ref_Base event in
  syndicate_journal base ("syndicate-refund:" +:+ ref_CommitmentID event)
    "SYNDICATE_COMMITMENT_REFUNDED" (b_EventID base)
    [mkEntry AccountFundingCommitments Debit (b_AssetID base) (ref_Units event)
       (ref_LenderID event) (b_LoanID base) "";
     mkEntry AccountProtocolSettlementAsset Credit (b_AssetID base) (ref_Units event)
       "" (b_LoanID base) ""].

Definition PostRefund `{JournalDigest} (now : Time.t) (event : Refund)
    (service : Service) : Service * result error PostedJournal :=
  match book service with
  | None => (service, Err ErrInvalidEvent)
  | Some bk =>
      if negb (validBase (ref_Base event)) || empty_s (ref_CommitmentID event) ||
         empty_s (ref_LenderID event) || negb (positiveInteger (ref_Units event))
      then (service, Err ErrInvalidEvent)
      else on_book (Post now (refund_journal event) bk)
  end.

(** * Activation *)

Definition position_entry (base : BaseEvent) (position : PositionRight) : Entry :=
  mkEntry AccountLenderPrincipalClaims Credit (b_AssetID base) (pos_Units position)
    (pos_OwnerID position) (b_LoanID base) (pos_TrancheID position).

(** The loop over the positions: accumulated units and entries. *)
Fixpoint position_loop (base : BaseEvent) (positions : list PositionRight)
    (allocated : Z) (entries : list Entry) : result error (Z * list Entry) :=
  match positions with
  | [] => Ok (allocated, entries)
  | position :: rest =>
      if empty_s (pos_PositionID position) || empty_s (pos_TrancheID position) ||
         empty_s (pos_OwnerID position)
      then Err ErrInvalidEvent
      else match Big.positive (pos_Units position) with
      | None => Err ErrInvalidEvent
      | Some units =>
          position_loop base rest (allocated + units)
            (entries ++ [position_entry base position])
      end
  end.

Definition activatedClaimEntries (event : Activation) : result error (list Entry) :=
  let base := act_Base event in
  let expected := default 0 (Big.set_string (act_Units event)) in
  let? (allocated, entries) :=
    position_loop base (act_Positions event) 0
      [mkEntry AccountFundingCommitments Debit (b_AssetID base) (act_Units event)
         "" (b_LoanID base) ""] in
  if negb (allocated =? expected) then Err ErrInvalidEvent else Ok entries.

Definition disbursement_journal (event : Activation) : Journal :=
  let base := act_Base event in
  syndicate_journal base ("syndicate-disbursement:" +:+ b_LoanID base)
    "SYNDICATE_PRINCIPAL_DISBURSED" (b_EventID base +:+ ":disbursement")
    [mkEntry AccountPrincipalReceivable Debit (b_AssetID base) (act_Units event)
       (act_BorrowerID event) (b_LoanID base) "";
     mkEntry AccountProtocolSettlementAsset Credit (b_AssetID base) (act_Units event)
       "" (b_LoanID base) ""].

Definition rights_journal (event : Activation) (claimEntries : list Entry) : Journal :=
  let base := act_Base event in
  syndicate_journal base ("syndicate-rights:" +:+ b_LoanID base)
    "SYNDICATE_RIGHTS_ACTIVATED" (b_EventID base +:+ ":rights") claimEntries.

Definition PostActivation `{JournalDigest} (now : Time.t) (event : Activation)
    (service : Service) : Service * result error (list PostedJournal) :=
  match book service with
  | None => (service, Err ErrInvalidEvent)
  | Some bk =>
      if negb (validBase (act_Base event)) || empty_s (act_BorrowerID event) ||
         negb (positiveInteger (act_Units event)) ||
         (length (act_Positions event) =? 0)%nat
      then (service, Err ErrInvalidEvent)
      else match activatedClaimEntries event with
      | Err e => (service, Err e)
      | Ok claimEntries =>
          on_book (PostBatch now
            [disbursement_journal event; rights_journal event claimEntries] bk)
      end
  end.

(** * Distribution *)

Definition allocation_entry (base : BaseEvent) (allocation : Allocation) : Entry :=
  mkEntry AccountLenderPrincipalClaims Debit (b_AssetID base) (alloc_Units allocation)
    (alloc_OwnerID allocation) (b_LoanID base) (alloc_TrancheID allocation).

Fixpoint allocation_loop (base : BaseEvent) (allocations : list Allocation)
    (allocated : Z) (entries : list Entry) : result error (Z * list Entry) :=
  match allocations with
  | [] => Ok (allocated, entries)
  | allocation :: rest =>
      match Big.set_string (alloc_Units allocation) with
      | None => Err ErrInvalidEvent
      | Some units =>
          if empty_s (alloc_PositionID allocation) || empty_s (alloc_TrancheID allocation) ||
             empty_s (alloc_OwnerID allocation) || (Big.sign units <=? 0)
          then Err ErrInvalidEvent
          else allocation_loop base rest (allocated + units)
                 (entries ++ [allocation_entry base allocation])
      end
  end.

Definition distribution_journal (event : Distribution) (entries : list Entry) : Journal :=
  let base := dist_Base event in
  syndicate_journal base ("syndicate-distribution:" +:+ dist_PaymentID event)
    "SYNDICATE_PRINCIPAL_DISTRIBUTED" (b_EventID base)
    (entries ++
     [mkEntry AccountPrincipalReceivable Credit (b_AssetID base) (dist_Units event)
        (dist_BorrowerID event) (b_LoanID base) ""]).

Definition PostDistribution `{JournalDigest} (now : Time.t) (event : Distribution)
    (service : Service) : Service * result error PostedJournal :=
  match book service with
  | None => (service, Err ErrInvalidEvent)
  | Some bk =>
      if negb (validBase (dist_Base event)) || empty_s (dist_PaymentID event) ||
         empty_s (dist_BorrowerID event) || negb (positiveInteger (dist_Units event)) ||
         (length (dist_Allocations event) =? 0)%nat
      then (service, Err ErrInvalidEvent)
      else
        let expected := default 0 (Big.set_string (dist_Units event)) in
        match allocation_loop (dist_Base event) (dist_Allocations event) 0 [] with
        | Err e => (service, Err e)
        | Ok (allocated, entries) =>
            if negb (allocated =? expected) then (service, Err ErrInvalidEvent)
            else on_book (Post now (distribution_journal event entries) bk)
        end
  end.

(** * Position transfer *)

Definition transfer_journal (event : PositionTransfer) : Journal :=
  let base := tr_Base event in
  syndicate_journal base ("position-transfer:" +:+ tr_TransferID event)
    "LENDER_POSITION_TRANSFERRED" (b_EventID base)
    [mkEntry AccountLenderPrincipalClaims Debit (b_AssetID base) (tr_ClaimUnits event)
       (tr_SellerID event) (b_LoanID base) (tr_TrancheID event);
     mkEntry AccountLenderPrincipalClaims Credit (b_AssetID base) (tr_ClaimUnits event)
       (tr_BuyerID event) (b_LoanID base) (tr_TrancheID event)].

Definition PostPositionTransfer `{JournalDigest} (now : Time.t) (event : PositionTransfer)
    (service : Service) : Service * result error PostedJournal :=
  match book service with
  | None => (service, Err ErrInvalidEvent)
  | Some bk =>
      if negb (validBase (tr_Base event)) || empty_s (tr_TransferID event) ||
         empty_s (tr_PositionID event) || empty_s (tr_SellerID event) ||
         empty_s (tr_BuyerID event) || empty_s (tr_TrancheID event) ||
         (tr_SellerID event =s tr_BuyerID event) || (tr_CutoffBlock event =? 0) ||
         negb (positiveInteger (tr_ShareUnits event)) ||
         negb (positiveInteger (tr_ClaimUnits event))
      then (service, Err ErrInvalidEvent)
      else on_book (Post now (transfer_journal event) bk)
  end.

(** * The loops *)

Definition alloc_units (a : Allocation) : Z := default 0 (Big.set_string (alloc_Units a)).
Definition alloc_ok (a : Allocation) : bool :=
  (alloc_PositionID a <>s "") && (alloc_TrancheID a <>s "") && (alloc_OwnerID a <>s "") &&
  positiveInteger (alloc_Units a).

Definition pos_units (p : PositionRight) : Z := default 0 (Big.set_string (pos_Units p)).
Definition pos_ok (p : PositionRight) : bool :=
  (pos_PositionID p <>s "") && (pos_TrancheID p <>s "") && (pos_OwnerID p <>s "") &&
  positiveInteger (pos_Units p).

Lemma positiveInteger_true s :
  positiveInteger s = true ↔ ∃ z, Big.set_string s = Some z ∧ 0 < z.
Proof.
  unfold positiveInteger. destruct (Big.positive s) as [z|] eqn:E.
  - apply Big.positive_Some in E. naive_solver.
  - split; [done|]. intros (z & Hz). apply Big.positive_Some in Hz. congruence.
Qed.

Lemma allocation_loop_spec base als z es :
  allocation_loop base als z es =
    if forallb alloc_ok als
    then Ok (z + Zsum alloc_units als, es ++ (allocation_entry base <$> als))
    else Err ErrInvalidEvent.
Proof.
  revert z es. induction als as [|a als IH]; intros z es; simpl.
  { by rewrite Z.add_0_r, app_nil_r. }
  unfold alloc_ok at 1, positiveInteger, Big.positive, Big.sign.
  destruct (Big.set_string (alloc_Units a)) as [u|] eqn:E; [|by rewrite andb_false_r].
  assert ((Z.sgn u <=? 0) = negb (0 <? u)) as ->
    by (destruct (Z.leb_spec (Z.sgn u) 0), (Z.ltb_spec 0 u); simpl; lia).
  destruct (_ =s ""), (_ =s ""), (_ =s ""), (0 <? u); simpl; try done.
  rewrite IH. destruct (forallb alloc_ok als); [|done].
  f_equal. f_equal; [|by rewrite <- app_assoc].
  unfold alloc_units at 2. rewrite E. simpl. lia.
Qed.

Lemma position_loop_spec base ps z es :
  position_loop base ps z es =
    if forallb pos_ok ps
    then Ok (z + Zsum pos_units ps, es ++ (position_entry base <$> ps))
    else Err ErrInvalidEvent.
Proof.
  revert z es. induction ps as [|a ps IH]; intros z es; simpl.
  { by rewrite Z.add_0_r, app_nil_r. }
  unfold pos_ok at 1, positiveInteger, Big.positive.
  destruct (_ =s ""), (_ =s ""), (_ =s ""); simpl; try done.
  destruct (Big.set_string (pos_Units a)) as [u|] eqn:E; [|done].
  destruct (0 <? u); [|done]. simpl.
  rewrite IH. destruct (forallb pos_ok ps); [|done].
  f_equal. f_equal; [|by rewrite <- app_assoc].
  unfold pos_units at 2. rewrite E. simpl. lia.
Qed.

(** * Claims per lender *)

(** The part of an entry that changes what [owner] is owed in [asset]. *)
Definition lender_claim (owner asset : string) (entry : Entry) : Z :=
  if (e_AccountCode entry =s AccountLenderPrincipalClaims) &&
     (e_PartyID entry =s owner) && (e_AssetID entry =s asset)
  then - signed_units entry else 0.

Definition claims_of (owner asset : string) (bk : Ledger) : Z :=
  Msum (λ p, Zsum (lender_claim owner asset) (j_Entries (p_Journal p))) (byID bk).

(** Units allocated to one owner. *)
Definition owner_alloc (owner : string) (als : list Allocation) : Z :=
  Zsum (λ a, if alloc_OwnerID a =s owner then alloc_units a else 0) als.
Definition owner_pos (owner : string) (ps : list PositionRight) : Z :=
  Zsum (λ p, if pos_OwnerID p =s owner then pos_units p else 0) ps.

Lemma entry_units_mk a s x u p l t :
  entry_units (mkEntry a s x u p l t) = default 0 (Big.set_string u).
Proof. reflexivity. Qed.

Lemma allocation_entry_ok base a :
  b_AssetID base ≠ "" → alloc_ok a = true → entry_ok (allocation_entry base a) = true.
Proof.
  unfold alloc_ok, entry_ok, positiveInteger. simpl. intros Hb Ha. bool_facts.
  rewrite (proj2 (String.eqb_neq _ _)) by done. by destruct (Big.positive _).
Qed.

Lemma position_entry_ok base a :
  b_AssetID base ≠ "" → pos_ok a = true → entry_ok (position_entry base a) = true.
Proof.
  unfold pos_ok, entry_ok, positiveInteger. simpl. intros Hb Ha. bool_facts.
  rewrite (proj2 (String.eqb_neq _ _)) by done. by destruct (Big.positive _).
Qed.

Lemma validBase_facts base :
  validBase base = true →
  b_EventID base ≠ "" ∧ b_LoanID base ≠ "" ∧ b_AssetID base ≠ "" ∧
  b_CorrelationID base ≠ "" ∧ b_EvidenceHash base ≠ "" ∧ Time.ns (b_EffectiveAt base) ≠ 0.
Proof. unfold validBase, Time.IsZero. intros H. bool_facts. done. Qed.

(** Sums of [n] copies of the same account and asset, one per element. *)
Lemma Zsum_if_const {A} (b : bool) (f : A → Z) l :
  Zsum (λ x, if b then f x else 0) l = if b then Zsum f l else 0.
Proof. destruct b; [done|]. by apply Zsum_zero. Qed.

Section Distribution.
Context `{JournalDigest}.

(** Header fields of a package journal. *)
Lemma syndicate_journal_valid base id entryType key es h :
  validBase base = true → id ≠ "" → entryType ≠ "" → key ≠ "" →
  (2 <= length es)%nat → Forall (λ e, entry_ok e = true) es →
  (∀ x, side_total Debit x es = side_total Credit x es) →
  journal_digest (syndicate_journal base id entryType key es) = Some h →
  validateAndHash (syndicate_journal base id entryType key es) = Ok h.
Proof.
  intros (?&?&?&?&?&?)%validBase_facts Hid Ht Hk Hlen HF Hb Hd.
  apply validateAndHash_Ok. split; [|done]. split; simpl; [by split_and!|done..].
Qed.

Definition distribution_entries (event : Distribution) : list Entry :=
  allocation_entry (dist_Base event) <$> dist_Allocations event.

Lemma allocation_entries_side base als side x :
  side_total side x (allocation_entry base <$> als) =
  if (Debit =s side) && (b_AssetID base =s x) then Zsum alloc_units als else 0.
Proof.
  unfold side_total. rewrite Zsum_fmap.
  apply (Zsum_if_const ((Debit =s side) && (b_AssetID base =s x)) alloc_units).
Qed.

Lemma allocation_entries_delta base als account x :
  account_delta account x (allocation_entry base <$> als) =
  movement account x AccountLenderPrincipalClaims (b_AssetID base) (Zsum alloc_units als).
Proof.
  unfold account_delta. rewrite Zsum_fmap.
  apply (Zsum_if_const ((AccountLenderPrincipalClaims =s account) &&
                        (b_AssetID base =s x)) alloc_units).
Qed.

Lemma allocation_entries_claims base als owner :
  Zsum (lender_claim owner (b_AssetID base)) (allocation_entry base <$> als) =
  - owner_alloc owner als.
Proof.
  unfold owner_alloc. rewrite Zsum_fmap, <- Zsum_opp. apply Zsum_ext. intros a _.
  unfold lender_claim. simpl. rewrite String.eqb_refl, andb_true_r.
  destruct (alloc_OwnerID a =s owner); [|done]. done.
Qed.

Lemma distribution_journal_valid event units h :
  validBase (dist_Base event) = true → dist_PaymentID event ≠ "" →
  Big.positive (dist_Units event) = Some units →
  dist_Allocations event ≠ [] →
  forallb alloc_ok (dist_Allocations event) = true →
  Zsum alloc_units (dist_Allocations event) = units →
  journal_digest (distribution_journal event (distribution_entries event)) = Some h →
  validateAndHash (distribution_journal event (distribution_entries event)) = Ok h.
Proof.
  intros Hb Hp Hu Hne Hok Hsum Hd. pose proof (validBase_facts _ Hb) as (?&?&Ha&_).
  rewrite forallb_forall in Hok.
  apply syndicate_journal_valid; try done.
  - unfold distribution_entries. rewrite length_app, length_fmap. simpl.
    destruct (dist_Allocations event); simpl; [done|lia].
  - apply Forall_app. split.
    + apply Forall_fmap, Forall_forall. intros a Hin. apply allocation_entry_ok; [done|].
      by apply Hok, list_elem_of_In.
    + repeat constructor. unfold entry_ok; simpl. rewrite Hu.
      by rewrite (proj2 (String.eqb_neq _ _)).
  - intros x. unfold side_total. rewrite !Zsum_app.
    change (Zsum _ (distribution_entries event)) with
      (side_total Debit x (distribution_entries event)) at 1.
    change (Zsum _ (distribution_entries event)) with
      (side_total Credit x (distribution_entries event)).
    unfold distribution_entries. rewrite !allocation_entries_side.
    apply Big.positive_Some in Hu as [Hu _].
    unfold Zsum at 2 4. simpl. rewrite entry_units_mk, Hu. simpl.
    destruct (b_AssetID (dist_Base event) =s x); lia.
Qed.
End Distribution.

Section Effects.
Context `{JournalDigest}.

Lemma Post_fresh now j bk h :
  validateAndHash j = Ok h → fresh j bk →
  Post now j bk = (store j h now bk, Ok (mkPosted j h now)).
Proof. intros Hv Hf. unfold Post. rewrite Hv. by apply postValidated_fresh. Qed.

Lemma claims_of_store owner asset j h now bk :
  fresh j bk →
  claims_of owner asset (store j h now bk) =
  claims_of owner asset bk + Zsum (lender_claim owner asset) (j_Entries j).
Proof.
  intros Hf. unfold claims_of.
  rewrite (store_measure (Zsum (lender_claim owner asset))) by done. lia.
Qed.

(** The allocations pay out exactly the distributed units. *)
Definition distributable (event : Distribution) (units : Z) : Prop :=
  dist_Allocations event ≠ [] ∧ forallb alloc_ok (dist_Allocations event) = true ∧
  Zsum alloc_units (dist_Allocations event) = units.

(** A principal distribution is accepted only when its allocations are well
    formed and add up to the distributed units. When it is new to the book, each
    lender's claim falls by exactly the sum of the allocations made to that
    lender, the lender-claims account falls by the distributed units and the
    borrower's receivable falls by the same amount. *)
Theorem distribution_effect (now : Time.t) (event : Distribution) (bk : Ledger)
    (units : Z) (h : string) :
  validBase (dist_Base event) = true → dist_PaymentID event ≠ "" →
  dist_BorrowerID event ≠ "" → Big.positive (dist_Units event) = Some units →
  (¬ distributable event units →
     PostDistribution now event (New (Some bk)) = (New (Some bk), Err ErrInvalidEvent)) ∧
  (distributable event units →
   fresh (distribution_journal event (distribution_entries event)) bk →
   journal_digest (distribution_journal event (distribution_entries event)) = Some h →
   ∃ bk' p, PostDistribution now event (New (Some bk)) = (New (Some bk'), Ok p) ∧
     (∀ owner, claims_of owner (b_AssetID (dist_Base event)) bk' =
        claims_of owner (b_AssetID (dist_Base event)) bk -
        owner_alloc owner (dist_Allocations event)) ∧
     (∀ account asset, account_balance account asset bk' =
        account_balance account asset bk
        + movement account asset "2310" (b_AssetID (dist_Base event)) units
        - movement account asset "1310" (b_AssetID (dist_Base event)) units)).
Proof.
  intros Hb Hp Hbo Hu. pose proof Hu as [Hu' Hpos]%Big.positive_Some.
  assert (PostDistribution now event (New (Some bk)) =
    if negb (length (dist_Allocations event) =? 0)%nat &&
       forallb alloc_ok (dist_Allocations event) &&
       (Zsum alloc_units (dist_Allocations event) =? units)
    then on_book (Post now (distribution_journal event (distribution_entries event)) bk)
    else (New (Some bk), Err ErrInvalidEvent)) as Heq.
  { unfold PostDistribution, positiveInteger. simpl.
    rewrite Hb, Hu, !(proj2 (String.eqb_neq _ "")), allocation_loop_spec by done. simpl.
    destruct (length _ =? 0)%nat; simpl; [done|].
    destruct (forallb _ _); simpl; [|done]. rewrite Hu'. simpl. by destruct (_ =? units). }
  rewrite Heq. clear Heq. unfold distributable.
  assert ((length (dist_Allocations event) =? 0)%nat =
          bool_decide (dist_Allocations event = [])) as ->.
  { by destruct (dist_Allocations event). }
  split.
  - intros Hn. destruct (bool_decide _) eqn:E1; simpl; [done|]. bool_facts.
    destruct (forallb _ _) eqn:E2; simpl; [|done].
    destruct (Z.eqb_spec (Zsum alloc_units (dist_Allocations event)) units); [naive_solver|done].
  - intros (Hne & Hok & Hsum) Hf Hd.
    rewrite (bool_decide_eq_false_2 _ Hne), Hok, (proj2 (Z.eqb_eq _ _) Hsum). simpl.
    pose proof (distribution_journal_valid event units h Hb Hp Hu Hne Hok Hsum Hd) as Hv.
    rewrite (Post_fresh now _ bk h) by done.
    eexists (store _ _ _ _), _. split; [reflexivity|]. split.
    + intros owner. rewrite claims_of_store by done. simpl. rewrite Zsum_app.
      unfold distribution_entries. rewrite allocation_entries_claims. simpl.
      unfold Zsum, lender_claim. simpl. lia.
    + intros account asset. rewrite store_account_balance by done. simpl.
      rewrite account_delta_app. unfold distribution_entries.
      rewrite allocation_entries_delta, Hsum, (account_delta_credit _ _ _ _ _ _ _ _ _ Hu').
      unfold AccountPrincipalReceivable, AccountLenderPrincipalClaims. lia.
Qed.

(** A position transfer that is new to the book moves the claim from the
    seller to the buyer and leaves every other lender's claim and every account
    balance unchanged. *)
Theorem transfer_conserves_claims (now : Time.t) (event : PositionTransfer) (bk : Ledger)
    (share claim : Z) (h : string) :
  let base := tr_Base event in
  validBase base = true → tr_TransferID event ≠ "" → tr_PositionID event ≠ "" →
  tr_SellerID event ≠ "" → tr_BuyerID event ≠ "" → tr_TrancheID event ≠ "" →
  tr_SellerID event ≠ tr_BuyerID event → tr_CutoffBlock event ≠ 0 →
  Big.positive (tr_ShareUnits event) = Some share →
  Big.positive (tr_ClaimUnits event) = Some claim →
  fresh (transfer_journal event) bk → journal_digest (transfer_journal event) = Some h →
  ∃ bk' p, PostPositionTransfer now event (New (Some bk)) = (New (Some bk'), Ok p) ∧
    (∀ owner, claims_of owner (b_AssetID base) bk' =
       claims_of owner (b_AssetID base) bk
       - (if tr_SellerID event =s owner then claim else 0)
       + (if tr_BuyerID event =s owner then claim else 0)) ∧
    (∀ account asset, account_balance account asset bk' = account_balance account asset bk).
Proof.
  intros base Hb H1 H2 H3 H4 H5 H6 H7 Hs Hc Hf Hd.
  pose proof (validBase_facts _ Hb) as (?&?&Ha&?).
  assert (validateAndHash (transfer_journal event) = Ok h) as Hv.
  { apply syndicate_journal_valid; try done.
    by eapply two_entries_ok. }
  unfold PostPositionTransfer, positiveInteger. simpl. rewrite Hs, Hc. fold base. rewrite Hb.
  simpl. pass_guard. rewrite (Post_fresh now _ bk h) by done.
  eexists (store _ _ _ _), _. split; [reflexivity|]. split.
  - intros owner. rewrite claims_of_store by done. fold base.
    apply Big.positive_Some in Hc as [Hc _].
    unfold Zsum, lender_claim, signed_units. simpl. fold base.
    rewrite !entry_units_mk, Hc, String.eqb_refl. simpl.
    destruct (tr_SellerID event =s owner), (tr_BuyerID event =s owner); simpl; lia.
  - intros account asset. rewrite store_account_balance by done. unfold transfer_journal.
    simpl. erewrite two_entries_delta by done. lia.
Qed.
End Effects.

(** * Funding and activation *)

Section Funding.
Context `{JournalDigest}.

Definition claim_entries (event : Activation) : list Entry :=
  mkEntry AccountFundingCommitments Debit (b_AssetID (act_Base event)) (act_Units event)
    "" (b_LoanID (act_Base event)) "" ::
  (position_entry (act_Base event) <$> act_Positions event).

Lemma position_entries_side base ps side x :
  side_total side x (position_entry base <$> ps) =
  if (Credit =s side) && (b_AssetID base =s x) then Zsum pos_units ps else 0.
Proof.
  unfold side_total. rewrite Zsum_fmap.
  apply (Zsum_if_const ((Credit =s side) && (b_AssetID base =s x)) pos_units).
Qed.

Lemma position_entries_delta base ps account x :
  account_delta account x (position_entry base <$> ps) =
  - movement account x AccountLenderPrincipalClaims (b_AssetID base) (Zsum pos_units ps).
Proof.
  unfold account_delta, movement. rewrite Zsum_fmap.
  rewrite (Zsum_ext _ (λ p, - (if (AccountLenderPrincipalClaims =s account) &&
                                  (b_AssetID base =s x) then pos_units p else 0))).
  - rewrite Zsum_opp. f_equal.
    apply (Zsum_if_const ((AccountLenderPrincipalClaims =s account) &&
                          (b_AssetID base =s x)) pos_units).
  - intros p _. simpl. destruct (_ && _); [|done]. reflexivity.
Qed.

Lemma position_entries_claims base ps owner :
  Zsum (lender_claim owner (b_AssetID base)) (position_entry base <$> ps) = owner_pos owner ps.
Proof.
  unfold owner_pos. rewrite Zsum_fmap. apply Zsum_ext. intros p _.
  unfold lender_claim. simpl. rewrite String.eqb_refl, andb_true_r.
  destruct (pos_OwnerID p =s owner); [|done].
  unfold signed_units, position_entry; simpl. unfold entry_units; simpl. unfold pos_units. lia.
Qed.

Lemma rights_journal_valid event units h :
  validBase (act_Base event) = true → Big.positive (act_Units event) = Some units →
  act_Positions event ≠ [] → forallb pos_ok (act_Positions event) = true →
  Zsum pos_units (act_Positions event) = units →
  journal_digest (rights_journal event (claim_entries event)) = Some h →
  validateAndHash (rights_journal event (claim_entries event)) = Ok h.
Proof.
  intros Hb Hu Hne Hok Hsum Hd. pose proof (validBase_facts _ Hb) as (?&?&Ha&_).
  rewrite forallb_forall in Hok. apply syndicate_journal_valid; try done.
  - by destruct (b_EventID (act_Base event)).
  - unfold claim_entries. simpl. rewrite length_fmap.
    destruct (act_Positions event); simpl; [done|lia].
  - constructor.
    + unfold entry_ok; simpl. rewrite Hu. by rewrite (proj2 (String.eqb_neq _ _)).
    + apply Forall_fmap, Forall_forall. intros p Hin. apply position_entry_ok; [done|].
      by apply Hok, list_elem_of_In.
  - intros x. unfold claim_entries. rewrite !side_total_cons, !position_entries_side, Hsum.
    apply Big.positive_Some in Hu as [Hu _]. rewrite entry_units_mk, Hu. simpl.
    destruct (b_AssetID (act_Base event) =s x); simpl; lia.
Qed.

Lemma disbursement_journal_valid event units h :
  validBase (act_Base event) = true → Big.positive (act_Units event) = Some units →
  journal_digest (disbursement_journal event) = Some h →
  validateAndHash (disbursement_journal event) = Ok h.
Proof.
  intros Hb Hu Hd. pose proof (validBase_facts _ Hb) as (?&?&Ha&_).
  apply syndicate_journal_valid; try done.
  - by destruct (b_EventID (act_Base event)).
  - by eapply two_entries_ok.
Qed.

(** The positions carve up exactly the activated units. *)
Definition fully_allocated (event : Activation) (units : Z) : Prop :=
  act_Positions event ≠ [] ∧ forallb pos_ok (act_Positions event) = true ∧
  Zsum pos_units (act_Positions event) = units.

Lemma PostActivation_eq now event bk units :
  validBase (act_Base event) = true → act_BorrowerID event ≠ "" →
  Big.positive (act_Units event) = Some units →
  PostActivation now event (New (Some bk)) =
    if negb (bool_decide (act_Positions event = [])) && forallb pos_ok (act_Positions event) &&
       (Zsum pos_units (act_Positions event) =? units)
    then on_book (PostBatch now
           [disbursement_journal event; rights_journal event (claim_entries event)] bk)
    else (New (Some bk), Err ErrInvalidEvent).
Proof.
  intros Hb Hbo Hu. pose proof Hu as [Hu' _]%Big.positive_Some.
  assert ((length (act_Positions event) =? 0)%nat = bool_decide (act_Positions event = []))
    as Hl by (by destruct (act_Positions event)).
  unfold PostActivation, positiveInteger, activatedClaimEntries. simpl.
  rewrite Hb, Hu, !(proj2 (String.eqb_neq _ "")), Hl, position_loop_spec by done. simpl.
  destruct (bool_decide _); simpl; [done|].
  destruct (forallb _ _); simpl; [|done]. rewrite Hu'. simpl. by destruct (_ =? units).
Qed.

(** A syndicated activation is accepted only when its positions are well
    formed and add up to the activated units. When its two journals are new to
    the book, every lender's claim grows by exactly the positions that lender
    holds, the funding commitments are discharged, and the disbursed principal
    becomes the borrower's receivable. *)
Theorem syndicate_activation_effect (now : Time.t) (event : Activation) (bk : Ledger)
    (units : Z) (hd hr : string) :
  let asset := b_AssetID (act_Base event) in
  validBase (act_Base event) = true → act_BorrowerID event ≠ "" →
  Big.positive (act_Units event) = Some units →
  (¬ fully_allocated event units →
     PostActivation now event (New (Some bk)) = (New (Some bk), Err ErrInvalidEvent)) ∧
  (fully_allocated event units →
   fresh (disbursement_journal event) bk →
   fresh (rights_journal event (claim_entries event)) bk →
   journal_digest (disbursement_journal event) = Some hd →
   journal_digest (rights_journal event (claim_entries event)) = Some hr →
   ∃ bk' ps, PostActivation now event (New (Some bk)) = (New (Some bk'), Ok ps) ∧
     (∀ owner, claims_of owner asset bk' =
        claims_of owner asset bk + owner_pos owner (act_Positions event)) ∧
     (∀ account x, account_balance account x bk' =
        account_balance account x bk
        + movement account x "1310" asset units - movement account x "1220" asset units
        + movement account x "2320" asset units - movement account x "2310" asset units)).
Proof.
  intros asset Hb Hbo Hu. rewrite (PostActivation_eq now event bk units) by done. split.
  - intros Hn. unfold fully_allocated in Hn. destruct (bool_decide _) eqn:E1; simpl; [done|].
    bool_facts. destruct (forallb _ _) eqn:E2; simpl; [|done].
    destruct (Z.eqb_spec (Zsum pos_units (act_Positions event)) units); [naive_solver|done].
  - intros (Hne & Hok & Hsum) Hfd Hfr Hdd Hdr.
    rewrite (bool_decide_eq_false_2 _ Hne), Hok, (proj2 (Z.eqb_eq _ _) Hsum). simpl.
    set (jd := disbursement_journal event) in *.
    set (jr := rights_journal event (claim_entries event)) in *.
    assert (fresh jr (store jd hd now bk)) as Hfr'.
    { apply fresh_store; try done. unfold scope; simpl. intros E. by simplify_eq. }
    rewrite (PostBatch_fresh now _ [(jd, hd); (jr, hr)]); try done.
    2: { repeat constructor; [by eapply disbursement_journal_valid|by eapply rights_journal_valid]. }
    exists (store jr hr now (store jd hd now bk)), [mkPosted jd hd now; mkPosted jr hr now].
    split; [reflexivity|]. pose proof Hu as [Hu' _]%Big.positive_Some. split.
    + intros owner. rewrite !claims_of_store by done. simpl. fold asset.
      unfold asset. rewrite position_entries_claims. unfold lender_claim. simpl. lia.
    + intros account x. rewrite !store_account_balance by done. simpl.
      change (claim_entries event) with
        ([mkEntry AccountFundingCommitments Debit asset (act_Units event) ""
            (b_LoanID (act_Base event)) ""] ++
         (position_entry (act_Base event) <$> act_Positions event)).
      rewrite account_delta_app, position_entries_delta, Hsum.
      rewrite (account_delta_debit _ _ _ _ _ _ _ _ _ Hu').
      erewrite two_entries_delta by done. fold asset.
      unfold AccountPrincipalReceivable, AccountProtocolSettlementAsset,
        AccountLenderPrincipalClaims, AccountFundingCommitments. lia.
Qed.
End Funding.

(** * Concrete events *)

Module Sample.
#[local] Existing Instance id_digest.

Definition base : BaseEvent := mkBaseEvent "ev" "L1" "USD" "corr" "hash" "FINAL" (Time.mk 5 "").
Definition t1 : Time.t := Time.mk 6 "".

Definition distribution : Distribution :=
  mkDistribution base "pay1" "bob" "100"
    [mkAllocation "p1" "senior" "ann" "60"; mkAllocation "p2" "junior" "ben" "30";
     mkAllocation "p3" "junior" "ann" "10"].

Definition transfer : PositionTransfer :=
  mkPositionTransfer base "t1" "p1" "ann" "ben" "senior" "5" "40" 77.

Definition activation : Activation :=
  mkActivation base "bob" "100"
    [mkPositionRight "p1" "senior" "ann" "70"; mkPositionRight "p2" "junior" "ben" "30"].

Lemma distribution_effect_witness :
  ∃ bk' p, PostDistribution t1 distribution (New (Some Ledger.New)) = (New (Some bk'), Ok p) ∧
    claims_of "ann" "USD" bk' = -70 ∧ account_balance "1310" "USD" bk' = -100.
Proof.
  destruct (distribution_effect t1 distribution Ledger.New 100 "syndicate-distribution:pay1ev")
    as [_ He]; [reflexivity|discriminate|discriminate|reflexivity|].
  destruct He as (bk' & p & Hp & Ho & Hb); [by split_and!|by split|reflexivity|].
  exists bk', p. split; [exact Hp|]. change "USD" with (b_AssetID (dist_Base distribution)).
  rewrite Ho, Hb. split; reflexivity.
Defined.

Lemma transfer_conserves_claims_witness :
  ∃ bk' p, PostPositionTransfer t1 transfer (New (Some Ledger.New)) = (New (Some bk'), Ok p) ∧
    claims_of "ben" "USD" bk' = 40 ∧ account_balance "2310" "USD" bk' = 0.
Proof.
  destruct (transfer_conserves_claims t1 transfer Ledger.New 5 40 "position-transfer:t1ev")
    as (bk' & p & Hp & Ho & Hb);
    [reflexivity|discriminate..|reflexivity|reflexivity|by split|reflexivity|].
  exists bk', p. split; [exact Hp|]. change "USD" with (b_AssetID (tr_Base transfer)).
  rewrite Ho, Hb. split; reflexivity.
Defined.

Lemma syndicate_activation_effect_witness :
  ∃ bk' ps, PostActivation t1 activation (New (Some Ledger.New)) = (New (Some bk'), Ok ps) ∧
    claims_of "ann" "USD" bk' = 70 ∧ account_balance "2320" "USD" bk' = 100.
Proof.
  destruct (syndicate_activation_effect t1 activation Ledger.New 100
              "syndicate-disbursement:L1ev" "syndicate-rights:L1ev")
    as [_ He]; [reflexivity|discriminate|reflexivity|].
  destruct He as (bk' & ps & Hp & Ho & Hb);
    [by split_and!|by split|by split|reflexivity|reflexivity|].
  exists bk', ps. split; [exact Hp|]. change "USD" with (b_AssetID (act_Base activation)).
  rewrite Ho, Hb. split; reflexivity.
Defined.
End Sample.
