(* ===== verification/Calculation.v ===== *)
(** Interest accrual and repayment schedules
    ([risk-engine/internal/calculation]): fixed and variable accrual over
    ray-scaled rates, and the five schedule kinds with their remainder rules.

    [uint32]/[uint64] values are integers with the wrap-around written out at
    every addition and multiplication the code performs on them. [big.Int.Quo]
    truncates; its division-by-zero panic is the value [PanicDivisionByZero]. *)
From S2P Require Import Prelude GoStd.

(** * Data *)

Definition YearSeconds : Z := 365 * 24 * 60 * 60.
Definition ray : Z := 1000000000000000000000000000.
Definition maxAnnualRateRay : Z := 10000000000000000000000000000.

(** [ErrInvalidCalculation] is the code's error; the other two are a run-time
    panic and a loop that exceeds its bound, both proved impossible below. *)
Inductive error := ErrInvalidCalculation | PanicDivisionByZero | LoopBoundExceeded.

Record InterestTerms := mkInterestTerms {
  AnnualRateRay : string;
  SpreadRay : string;
  FloorRateRay : string;
  CapRateRay : string;
  MaximumBenchmarkAge : Z }.

Definition Bullet : string := "BULLET".
Definition EqualPrincipal : string := "EQUAL_PRINCIPAL".
Definition Annuity : string := "ANNUITY".
Definition InterestOnly : string := "INTEREST_ONLY".
Definition Balloon : string := "BALLOON".

Record SchedulePlan := mkSchedulePlan {
  Kind : string;
  Principal : string;
  TotalInterest : string;
  PeriodicRateRay : string;
  BalloonPrincipal : string;
  StartTime : Z;
  PeriodSeconds : Z;
  InstallmentCount : Z;
  PaymentHolidayCount : Z }.

Record Installment := mkInstallment {
  Index : Z;
  DueTime : Z;
  PrincipalDue : string;
  InterestDue : string }.

(** * Interest *)

Definition nonNegativeInteger (value : string) : option Z := Big.canonical_nonneg value.
Definition positiveInteger (value : string) : option Z := Big.canonical_positive value.

(** [denominator] is [ray] or [YearSeconds] wherever the code calls [mulDiv]
    directly; [annuityPayment] guards the one variable denominator. *)
Definition mulDiv (left right denominator : Z) : Z := Z.quot (left * right) denominator.

Definition accrue (principal annualRateRay elapsed : Z) : Z :=
  let annualInterest := mulDiv principal annualRateRay ray in
  mulDiv annualInterest elapsed YearSeconds.

Definition AccrueFixed (principal : string) (from to : Z) (terms : InterestTerms)
    : result error string :=
  match positiveInteger principal with
  | None => Err ErrInvalidCalculation
  | Some principalUnits =>
      if to <? from then Err ErrInvalidCalculation else
      match nonNegativeInteger (AnnualRateRay terms), nonNegativeInteger (FloorRateRay terms),
            positiveInteger (CapRateRay terms) with
      | Some rate, Some floor, Some capRate =>
          if (maxAnnualRateRay <? rate) || (SpreadRay terms <>s "0") ||
             negb (MaximumBenchmarkAge terms =? 0) || (rate <? floor) || (capRate <? rate)
          then Err ErrInvalidCalculation
          else Ok (Big.to_string (accrue principalUnits rate (u64 (to - from))))
      | _, _, _ => Err ErrInvalidCalculation
      end
  end.

Definition BoundedRate (benchmarkRateRay : string) (terms : InterestTerms) : result error Z :=
  match nonNegativeInteger benchmarkRateRay, nonNegativeInteger (SpreadRay terms),
        nonNegativeInteger (FloorRateRay terms), positiveInteger (CapRateRay terms) with
  | Some benchmark, Some spread, Some floor, Some capRate =>
      if (capRate <? floor) || (maxAnnualRateRay <? capRate) then Err ErrInvalidCalculation
      else
        let rate := benchmark + spread in
        let rate := if rate <? floor then floor else rate in
        let rate := if capRate <? rate then capRate else rate in
        Ok rate
  | _, _, _, _ => Err ErrInvalidCalculation
  end.

Definition AccrueVariable (principal : string) (from to : Z) (benchmarkRateRay : string)
    (benchmarkObservedAt : Z) (terms : InterestTerms) : result error (string * string) :=
  match positiveInteger principal with
  | None => Err ErrInvalidCalculation
  | Some principalUnits =>
      if (to <? from) || (AnnualRateRay terms <>s "0") || (MaximumBenchmarkAge terms =? 0) ||
         (to <? benchmarkObservedAt) ||
         (MaximumBenchmarkAge terms <? u64 (to - benchmarkObservedAt))
      then Err ErrInvalidCalculation
      else
        let? rate := BoundedRate benchmarkRateRay terms in
        Ok (Big.to_string (accrue principalUnits rate (u64 (to - from))), Big.to_string rate)
  end.

(** * Schedules *)

(** The square-and-multiply loop; [fuel] bounds the number of iterations, and
    [None] is a loop that has not finished. *)
Fixpoint rayPower_loop (fuel : nat) (result base power : Z) : option Z :=
  if power =? 0 then Some result else
  match fuel with
  | O => None
  | S fuel =>
      let result := if Z.land power 1 =? 0 then result else mulDiv result base ray in
      let power := Z.shiftr power 1 in
      let base := if power =? 0 then base else mulDiv base base ray in
      rayPower_loop fuel result base power
  end.

(** A [uint32] exponent is shifted to zero in at most 32 iterations. *)
Definition rayPower (baseRay exponent : Z) : option Z := rayPower_loop 32 ray baseRay exponent.

Definition annuityPayment (principal periodicRateRay periods : Z) : result error Z :=
  match rayPower (ray + periodicRateRay) periods with
  | None => Err LoopBoundExceeded
  | Some factor =>
      let numerator := mulDiv principal periodicRateRay ray in
      if factor - ray =? 0 then Err PanicDivisionByZero
      else Ok (mulDiv numerator factor (factor - ray))
  end.

Definition validateSchedule (plan : SchedulePlan) : result error (Z * Z * Z * Z) :=
  match positiveInteger (Principal plan), nonNegativeInteger (TotalInterest plan),
        nonNegativeInteger (BalloonPrincipal plan), nonNegativeInteger (PeriodicRateRay plan) with
  | Some principal, Some totalInterest, Some balloon, Some periodicRate =>
      if (StartTime plan =? 0) || (PeriodSeconds plan =? 0) || (InstallmentCount plan =? 0) ||
         (600 <? InstallmentCount plan) || (120 <? PaymentHolidayCount plan)
      then Err ErrInvalidCalculation
      else if (if Kind plan =s Balloon
               then (InstallmentCount plan <? 2) || (balloon =? 0) || (principal <=? balloon)
               else negb (balloon =? 0))
      then Err ErrInvalidCalculation
      else if (if Kind plan =s Annuity
               then (periodicRate =? 0) || negb (totalInterest =? 0)
               else negb (periodicRate =? 0))
      then Err ErrInvalidCalculation
      else Ok (principal, totalInterest, balloon, periodicRate)
  | _, _, _, _ => Err ErrInvalidCalculation
  end.

(** The quantities the loop of [Generate] does not change. *)
Record Inputs := mkInputs {
  in_principal : Z;
  in_totalInterest : Z;
  in_balloon : Z;
  in_periodicRate : Z;
  in_annuity : Z }.

(** The variables it does. *)
Record Progress := mkProgress {
  allocatedPrincipal : Z;
  allocatedInterest : Z;
  balance : Z;
  installments : list Installment }.

(** The [switch plan.Kind] of the loop body: [(principalDue, interestDue)]. *)
Definition due_by_kind (plan : SchedulePlan) (i : Inputs) (last : bool) (balance : Z)
    : result error (Z * Z) :=
  let count := InstallmentCount plan in
  if Kind plan =s Bullet then
    Ok (if last then (in_principal i, in_totalInterest i) else (0, 0))
  else if Kind plan =s EqualPrincipal then
    Ok (Z.quot (in_principal i) count, Z.quot (in_totalInterest i) count)
  else if Kind plan =s InterestOnly then
    Ok (if last then in_principal i else 0, Z.quot (in_totalInterest i) count)
  else if Kind plan =s Balloon then
    Ok (if last then in_balloon i else Z.quot (in_principal i - in_balloon i) (count - 1),
        Z.quot (in_totalInterest i) count)
  else if Kind plan =s Annuity then
    let interestDue := mulDiv balance (in_periodicRate i) ray in
    let principalDue := if interestDue <? in_annuity i then in_annuity i - interestDue else 0 in
    let principalDue := if balance <? principalDue then balance else principalDue in
    Ok (principalDue, interestDue)
  else Err ErrInvalidCalculation.

Definition generate_step (plan : SchedulePlan) (i : Inputs) (index : Z) (p : Progress)
    : result error Progress :=
  let last := u32 (index + 1) =? InstallmentCount plan in
  let? (principalDue, interestDue) := due_by_kind plan i last (balance p) in
  let principalDue := if last then in_principal i - allocatedPrincipal p else principalDue in
  let interestDue := if last && (Kind plan <>s Annuity)
                     then in_totalInterest i - allocatedInterest p else interestDue in
  Ok (mkProgress (allocatedPrincipal p + principalDue) (allocatedInterest p + interestDue)
        (balance p - principalDue)
        (installments p ++
          [mkInstallment index
             (u64 (StartTime plan +
                   u64 (u32 (u32 (index + 1) + PaymentHolidayCount plan) * PeriodSeconds plan)))
             (Big.to_string principalDue) (Big.to_string interestDue)])).

(** [for index := 0; index < InstallmentCount; index++]. *)
Fixpoint generate_loop (plan : SchedulePlan) (i : Inputs) (indices : list Z) (p : Progress)
    : result error Progress :=
  match indices with
  | [] => Ok p
  | index :: rest => let? p' := generate_step plan i index p in generate_loop plan i rest p'
  end.

Definition Generate (plan : SchedulePlan) : result error (list Installment) :=
  let? (principal, totalInterest, balloon, periodicRate) := validateSchedule plan in
  let? annuity := (if Kind plan =s Annuity
                   then annuityPayment principal periodicRate (InstallmentCount plan)
                   else Ok 0) in
  let i := mkInputs principal totalInterest balloon periodicRate annuity in
  let? p := generate_loop plan i (seqZ 0 (InstallmentCount plan))
              (mkProgress 0 0 principal []) in
  if negb (allocatedPrincipal p =? principal) then Err ErrInvalidCalculation
  else Ok (installments p).

(** * Fixed-point arithmetic *)

Lemma ray_pos : 0 < ray.
Proof. reflexivity. Qed.
#[local] Hint Resolve ray_pos : go.
#[local] Opaque ray.

Lemma mulDiv_div a b d : 0 <= a → 0 <= b → 0 < d → mulDiv a b d = a * b / d.
Proof. intros. unfold mulDiv. apply Z.quot_div_nonneg; nia. Qed.

Lemma mulDiv_nonneg a b d : 0 <= a → 0 <= b → 0 < d → 0 <= mulDiv a b d.
Proof. intros. rewrite mulDiv_div by done. apply Z.div_pos; nia. Qed.

Lemma mulDiv_le a b d : 0 <= a → 0 <= b → 0 < d → mulDiv a b d * d <= a * b.
Proof. intros. rewrite mulDiv_div by done. rewrite Z.mul_comm. apply Z.mul_div_le. lia. Qed.

(** Multiplying two ray-scaled factors loses nothing of their sum of excesses. *)
Lemma mulDiv_ray_lower x y :
  0 <= x → 0 <= y → ray + x + y <= mulDiv (ray + x) (ray + y) ray.
Proof.
  intros. pose proof ray_pos. rewrite mulDiv_div by lia.
  apply Z.div_le_lower_bound; [lia|]. nia.
Qed.

Lemma shiftr_half p : 0 <= p → Z.shiftr p 1 = p / 2.
Proof. intros. by rewrite Z.shiftr_div_pow2. Qed.

Lemma land_parity p : Z.land p 1 = p mod 2.
Proof. apply (Z.land_ones p 1). lia. Qed.

Lemma pow_split a q b : 0 <= q → (b = 0 ∨ b = 1) → a ^ (2 * q + b) = (a * a) ^ q * (if b =? 0 then 1 else a).
Proof.
  intros Hq Hb. rewrite Z.pow_add_r, Z.pow_mul_r, Z.pow_2_r by lia.
  destruct Hb as [-> | ->]; simpl; lia.
Qed.

(** The loop stops within [fuel] iterations on an exponent below [2^fuel]; its
    result lies between the linear and the exact compound growth. *)
Lemma rayPower_loop_bounds fuel x y p :
  0 <= x → 0 <= y → 0 <= p < 2 ^ Z.of_nat fuel →
  ∃ r, rayPower_loop fuel (ray + x) (ray + y) p = Some r ∧
    ray + x + p * y <= r ∧ r * ray ^ p <= (ray + x) * (ray + y) ^ p.
Proof.
  revert x y p. induction fuel as [|fuel IH]; intros x y p Hx Hy Hp;
    unfold rayPower_loop; fold rayPower_loop.
  { assert (p = 0) as -> by (change (2 ^ Z.of_nat 0) with 1 in Hp; lia).
    eexists. split; [reflexivity|]. lia. }
  destruct (Z.eqb_spec p 0) as [-> |Hp0]; [eexists; split; [reflexivity|]; lia|].
  rewrite Nat2Z.inj_succ, Z.pow_succ_r in Hp by lia.
  rewrite land_parity, shiftr_half by lia.
  pose proof (Z.div_mod p 2 ltac:(lia)) as Hdm. pose proof (Z.mod_pos_bound p 2 ltac:(lia)) as Hm.
  set (q := p / 2) in *. set (b := p mod 2) in *.
  assert (0 <= q < 2 ^ Z.of_nat fuel) as Hq by lia.
  pose proof ray_pos as Hray.
  set (res := if b =? 0 then ray + x else mulDiv (ray + x) (ray + y) ray).
  assert (ray + x + b * y <= res ∧ res * (if b =? 0 then 1 else ray) <=
          (ray + x) * (if b =? 0 then 1 else ray + y)) as [Hres1 Hres2].
  { unfold res. destruct (Z.eqb_spec b 0) as [-> |]; [lia|].
    assert (b = 1) as -> by lia. split.
    - pose proof (mulDiv_ray_lower x y Hx Hy). lia.
    - apply mulDiv_le; lia. }
  set (sq := if q =? 0 then ray + y else mulDiv (ray + y) (ray + y) ray).
  assert (q * (2 * y) <= q * (sq - ray) ∧ ray <= sq ∧ (sq * ray) ^ q <= ((ray + y) * (ray + y)) ^ q)
    as (Hsq1 & Hsq2 & Hsq3).
  { unfold sq. destruct (Z.eqb_spec q 0) as [-> |]; [simpl; lia|].
    pose proof (mulDiv_ray_lower y y Hy Hy) as Hl.
    pose proof (mulDiv_le (ray + y) (ray + y) ray ltac:(lia) ltac:(lia) ltac:(lia)) as Hu.
    split_and!; [nia|lia|]. apply Z.pow_le_mono_l. nia. }
  destruct (IH (res - ray) (sq - ray) q) as (r & Hr & Hlo & Hhi); [nia|lia|lia|].
  replace (ray + (res - ray)) with res in * by lia.
  replace (ray + (sq - ray)) with sq in * by lia.
  exists r. split; [exact Hr|]. split; [nia|].
  replace p with (2 * q + b) by lia. rewrite !pow_split by lia.
  rewrite Z.pow_mul_l. rewrite Z.pow_mul_l in Hsq3.
  assert (0 < ray ^ q) by (apply Z.pow_pos_nonneg; lia).
  assert (0 <= sq ^ q) by (apply Z.pow_nonneg; lia).
  set (B := ((ray + y) * (ray + y)) ^ q) in *.
  set (R := ray ^ q) in *. set (S' := sq ^ q) in *.
  assert (r * (R * R) <= res * B) as Hstep.
  { transitivity (res * S' * R); [nia|]. assert (0 <= res) by nia. nia. }
  assert (0 <= B) by (unfold B; apply Z.pow_nonneg; nia).
  destruct (b =? 0); nia.
Qed.

Lemma rayPower_bounds rate n :
  0 <= rate → 0 <= n < 2 ^ 32 →
  ∃ factor, rayPower (ray + rate) n = Some factor ∧ ray + n * rate <= factor ∧
    factor * ray ^ n <= ray * (ray + rate) ^ n.
Proof.
  intros Hr Hn. destruct (rayPower_loop_bounds 32 0 rate n) as (r & H1 & H2 & H3); [lia|done|done|].
  rewrite Z.add_0_r in *. by exists r.
Qed.

(** * Level annuity payment *)

Lemma annuityPayment_Ok principal rate n :
  0 <= principal → 0 < rate → 0 < n < 2 ^ 32 →
  let num := mulDiv principal rate ray in
  ∃ payment factor, annuityPayment principal rate n = Ok payment ∧
    num <= payment ∧ payment * (factor - ray) <= num * factor ∧ ray + n * rate <= factor.
Proof.
  intros Hp Hr Hn num. destruct (rayPower_bounds rate n) as (f & Hf & Hlo & _); [lia|lia|].
  pose proof ray_pos. assert (n <= n * rate) by nia.
  unfold annuityPayment. rewrite Hf. destruct (Z.eqb_spec (f - ray) 0); [lia|].
  pose proof (mulDiv_nonneg principal rate ray Hp ltac:(lia) ltac:(lia)) as Hnum. fold num in Hnum |- *.
  exists (mulDiv num f (f - ray)), f. split_and!; [reflexivity| |apply mulDiv_le; lia|done].
  rewrite (mulDiv_div _ f) by lia. apply Z.div_le_lower_bound; [lia|]. nia.
Qed.

(** On a positive rate and a nonzero [uint32] number of periods the
    payment is always defined: the power loop finishes and the divisor is not
    zero. The payment covers the first period's interest, so the balance never
    grows, and the payments of all periods together never exceed the principal
    plus one full-principal interest charge per period. *)
Theorem annuity_payment_bounds (principal rate n : Z) :
  0 <= principal → 0 < rate → 0 < n < 2 ^ 32 →
  ∃ payment, annuityPayment principal rate n = Ok payment ∧
    mulDiv principal rate ray <= payment ∧
    n * payment <= principal + n * mulDiv principal rate ray.
Proof.
  intros Hp Hr Hn. pose proof ray_pos.
  destruct (annuityPayment_Ok principal rate n) as (pay & f & Hpay & Hge & Hle & Hf); [done..|].
  exists pay. split_and!; [done|done|].
  pose proof (mulDiv_le principal rate ray Hp ltac:(lia) ltac:(lia)) as Hnum.
  set (num := mulDiv principal rate ray) in *.
  assert ((pay - num) * (n * rate) <= principal * rate) by nia.
  assert ((pay - num) * n <= principal); nia.
Qed.

(** * Accrual *)

(** The interest the code intends: simple interest on the principal, rounded
    down twice. *)
Definition clamp (low high x : Z) : Z := Z.min high (Z.max low x).

Lemma accrue_nonneg p r e : 0 <= p → 0 <= r → 0 <= e → 0 <= accrue p r e.
Proof.
  intros. pose proof ray_pos. unfold accrue. apply mulDiv_nonneg; [|done|reflexivity].
  by apply mulDiv_nonneg.
Qed.

(** The two truncations lose less than one unit per started year plus one. *)
Lemma accrue_error p r e :
  0 <= p → 0 <= r → 0 <= e →
  accrue p r e * (YearSeconds * ray) <= p * r * e <
  (accrue p r e + 1) * (YearSeconds * ray) + e * ray.
Proof.
  intros Hp Hr He. pose proof ray_pos as Hray. unfold accrue.
  assert (0 < YearSeconds) as HY by reflexivity.
  pose proof (mulDiv_nonneg p r ray Hp Hr Hray) as Ha.
  rewrite (mulDiv_div _ e) by done. rewrite (mulDiv_div p r) in * by done.
  set (a := p * r / ray) in *.
  pose proof (Z.mul_div_le (p * r) ray Hray). pose proof (Z.mul_succ_div_gt (p * r) ray Hray).
  pose proof (Z.mul_div_le (a * e) YearSeconds HY).
  pose proof (Z.mul_succ_div_gt (a * e) YearSeconds HY).
  fold a in H, H0. set (v := a * e / YearSeconds) in *.
  set (Y := YearSeconds) in *. clearbody Y a v. generalize dependent ray. intros R HR Ha1 Ha2.
  split; [nia|]. assert (p * r * e <= (a * R + R) * e - e \/ e = 0) as [|] by nia; nia.
Qed.

Lemma accrue_mono p r e e' : 0 <= p → 0 <= r → 0 <= e <= e' → accrue p r e <= accrue p r e'.
Proof.
  intros Hp Hr He. pose proof ray_pos as Hray. assert (0 < YearSeconds) by reflexivity.
  pose proof (mulDiv_nonneg p r ray Hp Hr Hray). unfold accrue.
  rewrite !(mulDiv_div (mulDiv p r ray)) by lia. apply Z.div_le_mono; [lia|]. nia.
Qed.

Lemma BoundedRate_clamp benchmark terms rate :
  BoundedRate benchmark terms = Ok rate →
  ∃ b s low high,
    benchmark = Big.to_string b ∧ SpreadRay terms = Big.to_string s ∧
    FloorRateRay terms = Big.to_string low ∧ CapRateRay terms = Big.to_string high ∧
    0 <= low <= high ∧ high <= maxAnnualRateRay ∧ rate = clamp low high (b + s).
Proof.
  unfold BoundedRate, nonNegativeInteger, positiveInteger. intros H.
  destruct (Big.canonical_nonneg benchmark) as [b|] eqn:Hb; [|done].
  destruct (Big.canonical_nonneg (SpreadRay terms)) as [s|] eqn:Hs; [|done].
  destruct (Big.canonical_nonneg (FloorRateRay terms)) as [low|] eqn:Hl; [|done].
  destruct (Big.canonical_positive (CapRateRay terms)) as [high|] eqn:Hh; [|done].
  apply Big.canonical_nonneg_Some in Hb as [-> ?], Hs as [-> ?], Hl as [-> ?].
  apply Big.canonical_positive_Some in Hh as [-> ?].
  destruct (_ || _) eqn:Hg; [done|]. bool_facts. injection H as <-.
  exists b, s, low, high. split_and!; try done; try lia. unfold clamp.
  destruct (Z.ltb_spec (b + s) low); destruct (Z.ltb_spec high (if b + s <? low then low else b + s));
    destruct (Z.ltb_spec (b + s) low); repeat case_match; bool_facts; lia.
Qed.

(** What an accrual on [p] at [rate] over [elapsed] seconds may return: the
    exact simple interest [p * rate * elapsed / (ray * year)], short by less
    than one unit plus one unit per elapsed year. *)
Definition rounds_down (p rate elapsed : Z) (interest : string) : Prop :=
  ∃ v, interest = Big.to_string v ∧ 0 <= v ∧
    v * (YearSeconds * ray) <= p * rate * elapsed <
    (v + 1) * (YearSeconds * ray) + elapsed * ray.

Lemma accrue_rounds_down p r e :
  0 <= p → 0 <= r → 0 <= e → rounds_down p r e (Big.to_string (accrue p r e)).
Proof.
  intros. eexists. split; [done|]. split; [by apply accrue_nonneg|by apply accrue_error].
Qed.

Lemma AccrueFixed_Ok principal from to terms interest :
  0 <= from → to < 2 ^ 64 → AccrueFixed principal from to terms = Ok interest →
  from <= to ∧ ∃ p rate, principal = Big.to_string p ∧ 0 < p ∧
    AnnualRateRay terms = Big.to_string rate ∧ 0 <= rate <= maxAnnualRateRay ∧
    interest = Big.to_string (accrue p rate (to - from)).
Proof.
  intros Hf Ht. unfold AccrueFixed, positiveInteger, nonNegativeInteger. intros H.
  destruct (Big.canonical_positive principal) as [p|] eqn:Hp; [|done].
  destruct (Z.ltb_spec to from); [done|].
  destruct (Big.canonical_nonneg (AnnualRateRay terms)) as [rate|] eqn:Hr; [|done].
  destruct (Big.canonical_nonneg (FloorRateRay terms)) as [low|]; [|done].
  destruct (Big.canonical_positive (CapRateRay terms)) as [high|]; [|done].
  destruct (_ || _) eqn:Hg; [done|]. bool_facts.
  apply Big.canonical_positive_Some in Hp as [-> Hp].
  apply Big.canonical_nonneg_Some in Hr as [Hr Hr0].
  injection H as <-. split; [done|]. rewrite u64_small by lia. by exists p, rate.
Qed.

(** C28: both accruals are simple interest rounded down, on the [uint64]
    interval from [from] to [to]: fixed accrual at the stated annual rate,
    variable accrual at benchmark plus spread held between floor and cap, with
    the applied rate reported and the benchmark no older than the terms allow.
    Nothing is accrued over an interval that runs backwards. *)
Theorem accrual_sound (principal : string) (from to : Z) (terms : InterestTerms) :
  0 <= from < 2 ^ 64 → 0 <= to < 2 ^ 64 →
  (∀ interest, AccrueFixed principal from to terms = Ok interest →
     from <= to ∧ ∃ p rate, principal = Big.to_string p ∧ 0 < p ∧
       AnnualRateRay terms = Big.to_string rate ∧ 0 <= rate <= maxAnnualRateRay ∧
       rounds_down p rate (to - from) interest) ∧
  (∀ benchmark observed interest applied, 0 <= observed →
     AccrueVariable principal from to benchmark observed terms = Ok (interest, applied) →
     from <= to ∧ 0 <= to - observed <= MaximumBenchmarkAge terms ∧
     ∃ p b s low high, principal = Big.to_string p ∧ 0 < p ∧
       benchmark = Big.to_string b ∧ SpreadRay terms = Big.to_string s ∧
       FloorRateRay terms = Big.to_string low ∧ CapRateRay terms = Big.to_string high ∧
       0 <= low <= high ∧ high <= maxAnnualRateRay ∧
       applied = Big.to_string (clamp low high (b + s)) ∧
       rounds_down p (clamp low high (b + s)) (to - from) interest).
Proof.
  intros Hf Ht. split.
  - intros interest H. destruct (AccrueFixed_Ok _ _ _ _ _ (proj1 Hf) (proj2 Ht) H)
      as (Hle & p & rate & -> & Hp & -> & Hr & ->).
    split; [done|]. exists p, rate. split_and!; try done; try lia. apply accrue_rounds_down; lia.
  - intros benchmark observed interest applied Ho. unfold AccrueVariable, positiveInteger.
    destruct (Big.canonical_positive principal) as [p|] eqn:Hp; [|done].
    destruct (_ || _) eqn:Hg; [done|]. bool_facts.
    apply Big.canonical_positive_Some in Hp as [-> Hp].
    destruct (BoundedRate benchmark terms) as [rate|] eqn:Hb; [|done]. intros [= <- <-].
    apply BoundedRate_clamp in Hb as (b & s & low & high & -> & ? & ? & ? & ? & ? & ->).
    rewrite !u64_small in * by lia. split_and!; [done|lia..|].
    exists p, b, s, low, high. split_and!; try done; try lia.
    apply accrue_rounds_down; unfold clamp; lia.
Qed.

(** * Schedules *)

Definition principal_units (x : Installment) : Z := default 0 (Big.set_string (PrincipalDue x)).
Definition interest_units (x : Installment) : Z := default 0 (Big.set_string (InterestDue x)).
Definition known_kind (k : string) : bool :=
  (k =s Bullet) || (k =s EqualPrincipal) || (k =s InterestOnly) || (k =s Balloon) ||
  (k =s Annuity).

(** The widths of the plan's machine integers. *)
Definition plan_in_range (plan : SchedulePlan) : Prop :=
  0 <= StartTime plan < 2 ^ 64 ∧ 0 <= PeriodSeconds plan < 2 ^ 64 ∧
  0 <= InstallmentCount plan < 2 ^ 32 ∧ 0 <= PaymentHolidayCount plan < 2 ^ 32.

Definition valid_inputs (plan : SchedulePlan) (i : Inputs) : Prop :=
  0 < in_principal i ∧ 0 <= in_totalInterest i ∧ 0 <= in_balloon i ∧ 0 <= in_periodicRate i ∧
  1 <= InstallmentCount plan <= 600 ∧ 0 <= PaymentHolidayCount plan <= 120 ∧
  (Kind plan = Balloon → 2 <= InstallmentCount plan ∧ in_balloon i < in_principal i).

Lemma validateSchedule_inputs plan p t b r a :
  plan_in_range plan → validateSchedule plan = Ok (p, t, b, r) →
  valid_inputs plan (mkInputs p t b r a) ∧ (Kind plan = Annuity → 0 < r).
Proof.
  intros (_ & _ & Hc & Hh). unfold validateSchedule, positiveInteger, nonNegativeInteger. intros H.
  destruct (Big.canonical_positive (Principal plan)) as [p'|] eqn:Hp; [|done].
  destruct (Big.canonical_nonneg (TotalInterest plan)) as [t'|] eqn:Ht; [|done].
  destruct (Big.canonical_nonneg (BalloonPrincipal plan)) as [b'|] eqn:Hb; [|done].
  destruct (Big.canonical_nonneg (PeriodicRateRay plan)) as [r'|] eqn:Hr; [|done].
  apply Big.canonical_positive_Some in Hp as [_ Hp].
  apply Big.canonical_nonneg_Some in Ht as [_ Ht], Hb as [_ Hb], Hr as [_ Hr].
  destruct (_ || _) eqn:Hg; [done|]. bool_facts.
  destruct (if Kind plan =s Balloon then _ else _) eqn:HB; [done|].
  destruct (if Kind plan =s Annuity then _ else _) eqn:HA; [done|].
  injection H as -> -> -> ->. unfold valid_inputs; simpl.
  split; [split_and!; try lia|].
  - intros E. rewrite E in HB. simpl in HB. bool_facts. lia.
  - intros E. rewrite E in HA. simpl in HA. bool_facts. lia.
Qed.

(** Progress after the first [k] installments of a plan. *)
Record sched_inv (plan : SchedulePlan) (i : Inputs) (k : Z) (p : Progress) : Prop := {
  si_principal : 0 <= allocatedPrincipal p <= in_principal i;
  si_balance : balance p = in_principal i - allocatedPrincipal p;
  si_sum_principal : Zsum principal_units (installments p) = allocatedPrincipal p;
  si_sum_interest : Zsum interest_units (installments p) = allocatedInterest p;
  si_nonneg : Forall (λ x, 0 <= principal_units x ∧ 0 <= interest_units x) (installments p);
  si_pace : Kind plan ≠ Annuity →
    allocatedPrincipal p * (InstallmentCount plan - 1) <= k * in_principal i ∧
    allocatedInterest p * (InstallmentCount plan - 1) <= k * in_totalInterest i ∧
    allocatedInterest p <= in_totalInterest i }.

Lemma quot_pace a n : 0 <= a → 1 <= n → 0 <= Z.quot a n ∧ Z.quot a n * (n - 1) <= a.
Proof.
  intros. rewrite Z.quot_div_nonneg by lia. pose proof (Z.mul_div_le a n ltac:(lia)).
  pose proof (Z.div_pos a n ltac:(lia) ltac:(lia)). nia.
Qed.

(** What the [switch] computes for an installment that is not the last. *)
Lemma due_by_kind_bounds plan i bal :
  valid_inputs plan i → known_kind (Kind plan) = true → 0 <= bal →
  2 <= InstallmentCount plan →
  ∃ pd id, due_by_kind plan i false bal = Ok (pd, id) ∧ 0 <= pd ∧ 0 <= id ∧
    (Kind plan = Annuity → pd <= bal) ∧
    (Kind plan ≠ Annuity → pd * (InstallmentCount plan - 1) <= in_principal i ∧
                           id * (InstallmentCount plan - 1) <= in_totalInterest i).
Proof.
  intros (Hp & Ht & Hb & Hr & Hc & _ & HB) Hk Hbal Hn.
  pose proof (quot_pace (in_principal i) (InstallmentCount plan)) as Q1.
  pose proof (quot_pace (in_totalInterest i) (InstallmentCount plan)) as Q2.
  unfold known_kind in Hk. unfold due_by_kind.
  destruct (String.eqb_spec (Kind plan) Bullet) as [E|]; simpl in Hk |- *.
  { eexists _, _. split; [reflexivity|]. rewrite E. split_and!; try done; lia. }
  destruct (String.eqb_spec (Kind plan) EqualPrincipal) as [E|]; simpl in Hk |- *.
  { eexists _, _. split; [reflexivity|]. rewrite E. split_and!; try done; lia. }
  destruct (String.eqb_spec (Kind plan) InterestOnly) as [E|]; simpl in Hk |- *.
  { eexists _, _. split; [reflexivity|]. rewrite E. split_and!; try done; lia. }
  destruct (String.eqb_spec (Kind plan) Balloon) as [E|]; simpl in Hk |- *.
  { eexists _, _. split; [reflexivity|]. rewrite E. specialize (HB E).
    rewrite (Z.quot_div_nonneg (in_principal i - in_balloon i)) by lia.
    pose proof (Z.mul_div_le (in_principal i - in_balloon i) (InstallmentCount plan - 1) ltac:(lia)).
    split_and!; [apply Z.div_pos; lia|lia|done|]. intros _. split; [lia|]. lia. }
  rewrite Hk. apply String.eqb_eq in Hk. eexists _, _. split; [reflexivity|].
  pose proof ray_pos. split_and!.
  - repeat case_match; bool_facts; lia.
  - by apply mulDiv_nonneg.
  - intros _. repeat case_match; bool_facts; lia.
  - congruence.
Qed.

Lemma principal_units_mk k d a b : principal_units (mkInstallment k d (Big.to_string a) b) = a.
Proof. unfold principal_units. simpl. by rewrite Big.set_string_to_string. Qed.
Lemma interest_units_mk k d a b : interest_units (mkInstallment k d a (Big.to_string b)) = b.
Proof. unfold interest_units. simpl. by rewrite Big.set_string_to_string. Qed.

(** One installment that is not the last keeps the invariant. *)
Lemma generate_step_inv plan i k p :
  valid_inputs plan i → known_kind (Kind plan) = true →
  0 <= k → k + 1 < InstallmentCount plan → sched_inv plan i k p →
  ∃ p', generate_step plan i k p = Ok p' ∧ sched_inv plan i (k + 1) p' ∧
    length (installments p') = S (length (installments p)).
Proof.
  intros Hv Hk H0 Hlt [I1 I2 I3 I4 I5 I6]. pose proof Hv as (Hp & Ht & Hb & Hr & Hc & _ & HB).
  destruct (due_by_kind_bounds plan i (balance p) Hv Hk) as (pd & id & Hd & Hpd & Hid & HA & HN);
    [lia|lia|].
  unfold generate_step. rewrite u32_small by lia.
  rewrite (proj2 (Z.eqb_neq _ _)) by lia. rewrite Hd. simpl.
  eexists. split; [reflexivity|]. split; [|simpl; rewrite length_app; simpl; lia].
  assert (Kind plan = Annuity ∨ Kind plan ≠ Annuity) as Hann by
    (destruct (decide (Kind plan = Annuity)); auto).
  constructor; simpl.
  - destruct Hann as [E|E]; [specialize (HA E); lia|]. specialize (HN E). specialize (I6 E). nia.
  - lia.
  - rewrite Zsum_app, Zsum_cons, principal_units_mk, Zsum_nil. lia.
  - rewrite Zsum_app, Zsum_cons, interest_units_mk, Zsum_nil. lia.
  - apply Forall_app. split; [done|]. constructor; [|constructor].
    by rewrite principal_units_mk, interest_units_mk.
  - intros E. specialize (HN E). specialize (I6 E). split_and!; nia.
Qed.

Lemma generate_loop_app plan i ks ks' p :
  generate_loop plan i (ks ++ ks') p =
  let? p' := generate_loop plan i ks p in generate_loop plan i ks' p'.
Proof.
  revert p. induction ks as [|k ks IH]; intros p; simpl; [done|].
  destruct (generate_step plan i k p); [apply IH|done].
Qed.

Lemma seqZ_snoc n : 0 <= n → seqZ 0 (n + 1) = seqZ 0 n ++ [n].
Proof. intros. rewrite seqZ_app by lia. done. Qed.

(** All installments before the last. *)
Lemma generate_loop_inv plan i m :
  valid_inputs plan i → known_kind (Kind plan) = true →
  0 <= m → m + 1 <= InstallmentCount plan →
  ∃ p, generate_loop plan i (seqZ 0 m) (mkProgress 0 0 (in_principal i) []) = Ok p ∧
    sched_inv plan i m p.
Proof.
  intros Hv Hk. pose proof Hv as (Hp & Ht & _). intros H0. pattern m. revert m H0. apply natlike_ind.
  - intros _. eexists. split; [reflexivity|]. constructor; simpl; try done; lia.
  - intros m Hm IH Hle. destruct IH as (p & Hp' & Hi); [lia|].
    change (Z.succ m) with (m + 1). rewrite seqZ_snoc, generate_loop_app by lia. rewrite Hp'. simpl.
    destruct (generate_step_inv plan i m p) as (p' & -> & Hi' & _); try done; [lia|]. by exists p'.
Qed.

(** The last installment settles whatever is left. *)
Lemma generate_step_last plan i k p :
  valid_inputs plan i → known_kind (Kind plan) = true →
  0 <= k → k + 1 = InstallmentCount plan → sched_inv plan i k p →
  ∃ p', generate_step plan i k p = Ok p' ∧
    Zsum principal_units (installments p') = in_principal i ∧
    allocatedPrincipal p' = in_principal i ∧
    (Kind plan ≠ Annuity → Zsum interest_units (installments p') = in_totalInterest i) ∧
    Forall (λ x, 0 <= principal_units x ∧ 0 <= interest_units x) (installments p').
Proof.
  intros Hv Hk H0 Hlast [I1 I2 I3 I4 I5 I6]. pose proof Hv as (Hp & Ht & Hb & Hr & Hc & _ & HB).
  assert (∃ pd id, due_by_kind plan i true (balance p) = Ok (pd, id) ∧
    (Kind plan = Annuity → 0 <= id)) as (pd & id & Hd & HA).
  { unfold known_kind in Hk. unfold due_by_kind. pose proof ray_pos.
    repeat match goal with |- context [if ?k =s ?c then _ else _] =>
      destruct (String.eqb_spec k c) as [-> |]; simpl in Hk end; try done;
      (eexists _, _; split; [reflexivity|]; intros E; try done; apply mulDiv_nonneg; lia). }
  unfold generate_step. rewrite u32_small by lia.
  rewrite (proj2 (Z.eqb_eq _ _)) by lia. rewrite Hd. simpl.
  eexists. split; [reflexivity|]. simpl.
  rewrite !Zsum_app, !Zsum_cons, !Zsum_nil, principal_units_mk, interest_units_mk.
  split_and!; [lia|lia| |].
  - intros E. rewrite (proj2 (String.eqb_neq _ _) E). simpl. lia.
  - apply Forall_app. split; [done|]. constructor; [|constructor].
    rewrite principal_units_mk, interest_units_mk. split; [lia|].
    destruct (String.eqb_spec (Kind plan) Annuity) as [E|E]; simpl; [by apply HA|].
    specialize (I6 E). lia.
Qed.

(** The index and due time the loop stamps on installment [k]. *)
Definition stamp (x : Installment) : Z * Z := (Index x, DueTime x).
Definition due_time (plan : SchedulePlan) (k : Z) : Z :=
  u64 (StartTime plan + u64 (u32 (u32 (k + 1) + PaymentHolidayCount plan) * PeriodSeconds plan)).

Lemma generate_loop_stamps plan i ks p p' :
  generate_loop plan i ks p = Ok p' →
  stamp <$> installments p' = (stamp <$> installments p) ++ ((λ k, (k, due_time plan k)) <$> ks).
Proof.
  revert p. induction ks as [|k ks IH]; intros p H; simpl in H.
  - simplify_eq. by rewrite fmap_nil, app_nil_r.
  - destruct (generate_step plan i k p) as [q|] eqn:Hs; [|done].
    rewrite (IH _ H). unfold generate_step in Hs.
    destruct (due_by_kind _ _ _ _) as [[pd id]|]; [|done]. simplify_eq/=.
    rewrite fmap_app, <- app_assoc. done.
Qed.

Lemma Generate_unknown plan :
  plan_in_range plan → known_kind (Kind plan) = false →
  Generate plan = Err ErrInvalidCalculation.
Proof.
  intros Hr Hk. unfold Generate. destruct (validateSchedule plan) as [[[[p t] b] r]|e] eqn:Hv.
  - destruct (validateSchedule_inputs plan p t b r 0 Hr Hv) as [(_&_&_&_&Hc&_) _].
    unfold known_kind in Hk. bool_facts.
    rewrite (proj2 (String.eqb_neq _ Annuity)) by done.
    rewrite seqZ_cons by lia. simpl. unfold generate_step, due_by_kind.
    by rewrite !(proj2 (String.eqb_neq _ _)) by done.
  - unfold validateSchedule in Hv. by go_inv Hv.
Qed.

Lemma validateSchedule_Err plan e : validateSchedule plan = Err e → e = ErrInvalidCalculation.
Proof. unfold validateSchedule. intros H. by go_inv H. Qed.

(** A plan that validates, of one of the five kinds, always has a schedule. *)
Lemma Generate_Ok plan p t b r :
  plan_in_range plan → known_kind (Kind plan) = true → validateSchedule plan = Ok (p, t, b, r) →
  ∃ xs, Generate plan = Ok xs ∧
    Zsum principal_units xs = p ∧ (Kind plan ≠ Annuity → Zsum interest_units xs = t) ∧
    Forall (λ x, 0 <= principal_units x ∧ 0 <= interest_units x) xs ∧
    stamp <$> xs = (λ k, (k, due_time plan k)) <$> seqZ 0 (InstallmentCount plan).
Proof.
  intros Hr Hk Hv. unfold Generate. rewrite Hv.
  assert (∃ a, (if Kind plan =s Annuity then annuityPayment p r (InstallmentCount plan)
                else Ok 0) = Ok a) as [a ->].
  { destruct (String.eqb_spec (Kind plan) Annuity) as [E|]; [|by eexists].
    destruct (validateSchedule_inputs plan p t b r 0 Hr Hv) as [(Hp&_&_&_&Hc&_) Hpos].
    destruct (annuityPayment_Ok p r (InstallmentCount plan)) as (a & f & Ha & _);
      [simpl in Hp; lia|by apply Hpos|lia|]. by exists a. }
  destruct (validateSchedule_inputs plan p t b r a Hr Hv) as [Hin _].
  set (i := mkInputs p t b r a) in *. change p with (in_principal i) at 1.
  pose proof Hin as (_&_&_&_&Hc&_).
  assert (seqZ 0 (InstallmentCount plan) =
          seqZ 0 (InstallmentCount plan - 1) ++ [InstallmentCount plan - 1]) as Hseq.
  { rewrite <- seqZ_snoc by lia. f_equal. lia. }
  rewrite Hseq, generate_loop_app.
  destruct (generate_loop_inv plan i (InstallmentCount plan - 1)) as (q & Hq & HI); try done; [lia|lia|].
  rewrite Hq. simpl.
  destruct (generate_step_last plan i (InstallmentCount plan - 1) q)
    as (q' & Hq' & Hs & Ha & Ht & Hf); try done; [lia|lia|].
  rewrite Hq'. simpl. rewrite Ha. rewrite Z.eqb_refl. simpl.
  eexists. split; [reflexivity|]. split_and!; try done.
  apply (generate_loop_stamps plan i _ (mkProgress 0 0 (in_principal i) [])).
  rewrite generate_loop_app, Hq. simpl. by rewrite Hq'.
Qed.

(** C26: schedule generation is total and conserving. A plan whose kind is one
    of the five and which validates always yields exactly one installment per
    period; the principal parts are non-negative and add up to the principal,
    and, except for annuities (whose interest follows the balance), the interest
    parts are non-negative and add up to the total interest. Every other plan is
    refused with the calculation error: no panic and no unfinished loop. *)
Theorem schedule_conserves (plan : SchedulePlan) :
  plan_in_range plan →
  match validateSchedule plan with
  | Ok (p, t, _, _) =>
      if known_kind (Kind plan) then
        ∃ xs, Generate plan = Ok xs ∧ Z.of_nat (length xs) = InstallmentCount plan ∧
          Zsum principal_units xs = p ∧
          (Kind plan ≠ Annuity → Zsum interest_units xs = t) ∧
          Forall (λ x, 0 <= principal_units x ∧ 0 <= interest_units x) xs
      else Generate plan = Err ErrInvalidCalculation
  | Err _ => Generate plan = Err ErrInvalidCalculation
  end.
Proof.
  intros Hr. destruct (validateSchedule plan) as [[[[p t] b] r]|e] eqn:Hv.
  - destruct (known_kind (Kind plan)) eqn:Hk; [|by apply Generate_unknown].
    destruct (Generate_Ok plan p t b r Hr Hk Hv) as (xs & Hg & Hp & Ht & Hn & Hst).
    exists xs. split_and!; try done. apply (f_equal length) in Hst.
    rewrite !length_fmap, length_seqZ in Hst. destruct Hr as (_&_&Hc&_). lia.
  - unfold Generate. rewrite Hv. by rewrite (validateSchedule_Err _ _ Hv).
Qed.

(** The installments are numbered from zero and, when the last due time
    fits in 64 bits, installment [k] falls due exactly
    [k + 1 + PaymentHolidayCount] periods after the start, so due times are
    strictly increasing. *)
Theorem schedule_due_times (plan : SchedulePlan) (xs : list Installment) :
  plan_in_range plan → Generate plan = Ok xs →
  StartTime plan + (InstallmentCount plan + PaymentHolidayCount plan) * PeriodSeconds plan < 2 ^ 64 →
  ∀ k x, xs !! k = Some x →
    Index x = Z.of_nat k ∧
    DueTime x = StartTime plan + (Z.of_nat k + 1 + PaymentHolidayCount plan) * PeriodSeconds plan ∧
    (∀ k' x', (k < k')%nat → xs !! k' = Some x' → DueTime x < DueTime x').
Proof.
  intros Hr Hg Hfit.
  destruct (validateSchedule plan) as [[[[p t] b] r]|e] eqn:Hv;
    [|unfold Generate in Hg; by rewrite Hv in Hg].
  destruct (known_kind (Kind plan)) eqn:Hk; [|by rewrite Generate_unknown in Hg].
  destruct (Generate_Ok plan p t b r Hr Hk Hv) as (xs' & Hg' & _ & _ & _ & Hst).
  rewrite Hg in Hg'. injection Hg' as <-.
  destruct (validateSchedule_inputs plan p t b r 0 Hr Hv) as [(_&_&_&_&Hc&Hh&_) _].
  assert (0 < PeriodSeconds plan) as Hper.
  { unfold validateSchedule in Hv. destruct Hr as (_&Hs&_). go_inv Hv; bool_facts; lia. }
  assert (∀ k x, xs !! k = Some x → Index x = Z.of_nat k ∧ DueTime x = StartTime plan +
    (Z.of_nat k + 1 + PaymentHolidayCount plan) * PeriodSeconds plan) as Hall.
  { intros k x Hx. apply (f_equal (lookup k)) in Hst. rewrite !list_lookup_fmap, Hx in Hst.
    destruct (seqZ 0 (InstallmentCount plan) !! k) as [z|] eqn:Hz; [|done].
    apply lookup_seqZ in Hz as [-> Hz]. simpl in Hst. unfold stamp, due_time in Hst.
    injection Hst as Hi Hd. destruct Hr as (Hs & Hps & Hcnt & Hhol). split; [lia|].
    rewrite Hd, Z.add_0_l. rewrite (u32_small (Z.of_nat k + 1)) by lia.
    rewrite u32_small by lia. rewrite (u64_small (_ * _)) by nia. rewrite u64_small by nia. lia. }
  intros k x Hx. destruct (Hall k x Hx) as [-> Hd]. split_and!; [done|done|].
  intros k' x' Hlt Hx'. destruct (Hall k' x' Hx') as [_ ->]. rewrite Hd. nia.
Qed.

(** * Concrete plans *)

Module Sample.
Definition terms : InterestTerms := mkInterestTerms "0" "5" "10" "100" 60.
Definition fixed_terms : InterestTerms :=
  mkInterestTerms "50000000000000000000000000" "0" "0" "100000000000000000000000000" 0.
Definition annuity_plan : SchedulePlan :=
  mkSchedulePlan Annuity "1000" "0" "10000000000000000000000000" "0" 100 30 3 1.
Definition balloon_plan : SchedulePlan :=
  mkSchedulePlan Balloon "1000" "70" "0" "401" 100 30 3 0.

Lemma annuity_payment_bounds_witness :
  ∃ payment, annuityPayment 1000 (10 ^ 25) 3 = Ok payment ∧
    mulDiv 1000 (10 ^ 25) ray <= payment ∧ 3 * payment <= 1000 + 3 * mulDiv 1000 (10 ^ 25) ray.
Proof. apply (annuity_payment_bounds 1000 (10 ^ 25) 3); lia. Defined.

Lemma accrual_sound_witness :
  ∃ p rate, "1000" = Big.to_string p ∧ AnnualRateRay fixed_terms = Big.to_string rate ∧
    rounds_down p rate YearSeconds "50".
Proof.
  destruct (accrual_sound "1000" 0 YearSeconds fixed_terms) as [Hfix _];
    [vm_compute; by split|vm_compute; by split|].
  destruct (Hfix "50") as (_ & p & rate & ? & _ & ? & _ & ?); [vm_compute; reflexivity|].
  rewrite Z.sub_0_r in *. by exists p, rate.
Defined.

Lemma schedule_conserves_witness :
  ∃ xs, Generate balloon_plan = Ok xs ∧ Zsum principal_units xs = 1000 ∧
    Zsum interest_units xs = 70.
Proof.
  pose proof (schedule_conserves balloon_plan) as H.
  destruct H as (xs & ? & _ & ? & Hi & _); [unfold plan_in_range; simpl; lia|].
  exists xs. split_and!; [done|done|]. apply Hi. discriminate.
Defined.

Lemma schedule_due_times_witness :
  ∃ xs, Generate annuity_plan = Ok xs ∧ ∀ x, xs !! 2%nat = Some x → DueTime x = 220.
Proof.
  eexists. split; [vm_compute; reflexivity|]. intros x Hx.
  refine (proj1 (proj2 (schedule_due_times annuity_plan _ _ _ _ 2%nat x Hx)));
    [unfold plan_in_range; simpl; lia|vm_compute; reflexivity|simpl; lia].
Defined.
End Sample.
