(* ===== verification/Underwriting.v ===== *)
(** The underwriting rules engine ([risk-engine/internal/underwriting]): the
    policy check, the authentication of feature evidence with its canonical
    evidence root, and the decision. *)
From S2P Require Import Prelude GoStd.

(** * Data *)

Definition FeatureVerifiedIncome : string := "verified_income_units".
Definition FeatureExistingObligation : string := "existing_obligations_units".
Definition ReasonApproved : string := "APPROVED".
Definition ReasonAssuranceLow : string := "CREDENTIAL_ASSURANCE_LOW".
Definition ReasonCapacityInsufficient : string := "CAPACITY_INSUFFICIENT".
Definition ReasonDurationExceeded : string := "DURATION_EXCEEDED".
Definition ReasonScopeMismatch : string := "CREDENTIAL_SCOPE_MISMATCH".

Inductive error := ErrInvalidApplication | ErrInvalidEvidence | ErrInvalidPolicy.

Record FeatureEvidence := mkFeatureEvidence {
  f_FeatureID : string;
  f_ValueUnits : string;
  f_SourceID : string;
  f_TransformVersion : string;
  f_EvidenceHash : string;
  f_ObservedAt : Time.t }.

Record Policy := mkPolicy {
  PolicyID : string;
  Version : string;
  RuleSetHash : string;
  FeatureSchemaHash : string;
  CredentialScope : string;
  SettlementAssetID : string;
  ProductID : string;
  MaximumExposureUnits : string;
  MaximumDurationDays : Z;
  MinimumAssurance : Z;
  IncomeAdvanceBps : Z;
  MaximumFeatureAge : Z }.

Record Application := mkApplication {
  a_DecisionID : string;
  a_SubjectCommitment : string;
  a_BorrowerAccount : string;
  a_CredentialScope : string;
  a_CredentialAssurance : Z;
  a_SettlementAssetID : string;
  a_ProductID : string;
  a_RequestedUnits : string;
  a_DurationDays : Z;
  a_Features : list FeatureEvidence }.

Record Decision := mkDecision {
  d_Approved : bool;
  d_MaximumExposureUnits : string;
  d_ReasonCodes : list string;
  d_FeatureEvidenceRoot : string;
  d_PolicyID : string;
  d_PolicyVersion : string;
  d_RuleSetHash : string;
  d_FeatureSchemaHash : string;
  d_DecidedAt : Time.t }.

Record Engine := mkEngine { policy : Policy }.

(** * Operations *)

(** Despite its name the code's helper only asks for the canonical decimal
    form; callers test the sign. *)
Definition positiveInteger (value : string) : option Z := Big.canonical value.

Definition New (policy : Policy) : result error Engine :=
  if empty_s (PolicyID policy) || empty_s (Version policy) || empty_s (RuleSetHash policy) ||
     empty_s (FeatureSchemaHash policy) || empty_s (CredentialScope policy) ||
     empty_s (SettlementAssetID policy) || empty_s (ProductID policy) ||
     match positiveInteger (MaximumExposureUnits policy) with
     | None => true
     | Some maximum => maximum <=? 0
     end ||
     (MaximumDurationDays policy =? 0) || (MinimumAssurance policy =? 0) ||
     (IncomeAdvanceBps policy =? 0) || (10000 <? IncomeAdvanceBps policy) ||
     (MaximumFeatureAge policy <=? 0)
  then Err ErrInvalidPolicy
  else Ok (mkEngine policy).

Definition writeCanonical (destination value : string) : string :=
  destination +:+ frame value.

(** The body of the loop over the ordered features; the hash state is the
    byte string written to it so far. *)
Definition feature_step (asOf : Time.t) (policy : Policy) (feature : FeatureEvidence)
    (values : gmap string Z) (hash : string) : result error (gmap string Z * string) :=
  match positiveInteger (f_ValueUnits feature) with
  | None => Err ErrInvalidEvidence
  | Some value =>
      if empty_s (f_FeatureID feature) || empty_s (f_SourceID feature) ||
         empty_s (f_TransformVersion feature) || empty_s (f_EvidenceHash feature) ||
         Time.IsZero (f_ObservedAt feature) || Time.After (f_ObservedAt feature) asOf ||
         (MaximumFeatureAge policy <? Time.Sub asOf (f_ObservedAt feature)) ||
         (value <? 0) || has_key values (f_FeatureID feature)
      then Err ErrInvalidEvidence
      else if (f_FeatureID feature <>s FeatureVerifiedIncome) &&
              (f_FeatureID feature <>s FeatureExistingObligation)
      then Err ErrInvalidEvidence
      else
        let hash := writeCanonical hash (f_FeatureID feature) in
        let hash := writeCanonical hash (f_ValueUnits feature) in
        let hash := writeCanonical hash (f_SourceID feature) in
        let hash := writeCanonical hash (f_TransformVersion feature) in
        let hash := writeCanonical hash (f_EvidenceHash feature) in
        let hash := writeCanonical hash (Time.rfc3339nano (Time.UTC (f_ObservedAt feature))) in
        Ok (<[f_FeatureID feature := value]> values, hash)
  end.

Fixpoint feature_loop (asOf : Time.t) (policy : Policy) (ordered : list FeatureEvidence)
    (values : gmap string Z) (hash : string) : result error (gmap string Z * string) :=
  match ordered with
  | [] => Ok (values, hash)
  | feature :: rest =>
      let? (values, hash) := feature_step asOf policy feature values hash in
      feature_loop asOf policy rest values hash
  end.

Section Decide.
Context `{Sha256}.

Definition authenticatedFeatures (evidence : list FeatureEvidence) (asOf : Time.t)
    (policy : Policy) : result error (gmap string Z * string) :=
  if negb (length evidence =? 2)%nat then Err ErrInvalidEvidence else
  let ordered := sort_by f_FeatureID evidence in
  let? (values, hash) := feature_loop asOf policy ordered ∅ "" in
  if negb (has_key values FeatureVerifiedIncome) || negb (has_key values FeatureExistingObligation)
  then Err ErrInvalidEvidence
  else Ok (values, hex (sha256 hash)).

(** The lending capacity computed between the evidence and the reasons. *)
Definition capacity_of (policy : Policy) (income obligations policyMaximum : Z) : Z :=
  let capacity := Z.quot (income * IncomeAdvanceBps policy) 10000 in
  let capacity := capacity - obligations in
  let capacity := if capacity <? 0 then 0 else capacity in
  if policyMaximum <? capacity then policyMaximum else capacity.

Definition reasons_of (application : Application) (policy : Policy) (requested capacity : Z)
    : list string :=
  (if a_CredentialScope application <>s CredentialScope policy
   then [ReasonScopeMismatch] else []) ++
  (if a_CredentialAssurance application <? MinimumAssurance policy
   then [ReasonAssuranceLow] else []) ++
  (if MaximumDurationDays policy <? a_DurationDays application
   then [ReasonDurationExceeded] else []) ++
  (if capacity <? requested then [ReasonCapacityInsufficient] else []).

Definition Decide (engine : option Engine) (application : Application) (asOf : Time.t)
    : result error Decision :=
  match engine with
  | None => Err ErrInvalidApplication
  | Some engine =>
      let policy := policy engine in
      if Time.IsZero asOf || empty_s (a_DecisionID application) ||
         empty_s (a_SubjectCommitment application) || empty_s (a_BorrowerAccount application) ||
         (a_SettlementAssetID application <>s SettlementAssetID policy) ||
         (a_ProductID application <>s ProductID policy) || (a_DurationDays application =? 0)
      then Err ErrInvalidApplication
      else match positiveInteger (a_RequestedUnits application) with
      | None => Err ErrInvalidApplication
      | Some requested =>
          if requested <=? 0 then Err ErrInvalidApplication else
          let? (features, root) := authenticatedFeatures (a_Features application) asOf policy in
          let income := lookup_zero 0 features FeatureVerifiedIncome in
          let obligations := lookup_zero 0 features FeatureExistingObligation in
          let policyMaximum := default 0 (positiveInteger (MaximumExposureUnits policy)) in
          let capacity := capacity_of policy income obligations policyMaximum in
          let reasons := reasons_of application policy requested capacity in
          let approved := (length reasons =? 0)%nat in
          let reasons := if approved then reasons ++ [ReasonApproved] else reasons in
          Ok (mkDecision approved (Big.to_string capacity) reasons root
                (PolicyID policy) (Version policy) (RuleSetHash policy)
                (FeatureSchemaHash policy) (Time.UTC asOf))
      end
  end.
End Decide.

(** * Evidence *)

(** The fields of a feature in the order they are hashed. *)
Definition fields (x : FeatureEvidence) : list string :=
  [f_FeatureID x; f_ValueUnits x; f_SourceID x; f_TransformVersion x; f_EvidenceHash x;
   Time.rfc3339nano (Time.UTC (f_ObservedAt x))].

(** What a feature must satisfy to be accepted at [asOf]. *)
Definition fresh_evidence (asOf : Time.t) (policy : Policy) (x : FeatureEvidence) (value : Z) : Prop :=
  f_ValueUnits x = Big.to_string value ∧ 0 <= value ∧
  f_SourceID x ≠ "" ∧ f_TransformVersion x ≠ "" ∧ f_EvidenceHash x ≠ "" ∧
  Time.ns (f_ObservedAt x) <= Time.ns asOf ∧
  Time.Sub asOf (f_ObservedAt x) <= MaximumFeatureAge policy.

Lemma feature_step_Ok asOf policy x values hash values' hash' :
  feature_step asOf policy x values hash = Ok (values', hash') →
  ∃ v, fresh_evidence asOf policy x v ∧ values !! f_FeatureID x = None ∧
    (f_FeatureID x = FeatureVerifiedIncome ∨ f_FeatureID x = FeatureExistingObligation) ∧
    values' = <[f_FeatureID x := v]> values ∧ hash' = hash +:+ frames (fields x).
Proof.
  unfold feature_step, positiveInteger. intros H.
  destruct (Big.canonical (f_ValueUnits x)) as [v|] eqn:Hv; [|done].
  apply Big.canonical_Some in Hv.
  destruct (_ || _) eqn:Hg; [done|]. destruct (_ && _) eqn:Hk; [done|]. simplify_eq.
  bool_facts. unfold Time.After, Time.IsZero in *. bool_facts.
  exists v. split_and!; try done; try lia.
  - by apply has_key_false.
  - apply andb_false_iff in Hk as [Hk|Hk]; bool_facts; auto.
  - unfold writeCanonical, frames, fields. simpl foldr.
    by rewrite !string_app_assoc, string_app_nil_r.
Qed.

Lemma feature_loop_Err asOf policy xs values hash e :
  feature_loop asOf policy xs values hash = Err e → e = ErrInvalidEvidence.
Proof.
  revert values hash. induction xs as [|x xs IH]; intros values hash Hl; simpl in Hl; [done|].
  destruct (feature_step asOf policy x values hash) as [[v h]|e'] eqn:Hs; [by eapply IH|].
  simplify_eq. unfold feature_step in Hs. by go_inv Hs.
Qed.

(** Accepted evidence is one obligation and one income feature, both fresh;
    the root commits to their fields in that order. *)
Lemma authenticated_Ok `{Sha256} evidence asOf policy values root :
  authenticatedFeatures evidence asOf policy = Ok (values, root) →
  ∃ o i vo vi, evidence ≡ₚ [o; i] ∧
    f_FeatureID o = FeatureExistingObligation ∧ f_FeatureID i = FeatureVerifiedIncome ∧
    fresh_evidence asOf policy o vo ∧ fresh_evidence asOf policy i vi ∧
    lookup_zero 0 values FeatureExistingObligation = vo ∧
    lookup_zero 0 values FeatureVerifiedIncome = vi ∧
    root = hex (sha256 (frames (fields o ++ fields i))).
Proof.
  unfold authenticatedFeatures. destruct (Nat.eqb_spec (length evidence) 2) as [Hl|]; [|done].
  cbn [negb]. pose proof (sort_by_perm f_FeatureID evidence) as Hp.
  assert (StronglySorted (key_le f_FeatureID) (sort_by f_FeatureID evidence)) as Hs
    by (apply StronglySorted_merge_sort; apply _).
  pose proof (Permutation_length Hp) as Hl'. rewrite Hl in Hl'.
  destruct (sort_by f_FeatureID evidence) as [|a [|b [|]]]; try done. cbn [feature_loop].
  destruct (feature_step asOf policy a ∅ "") as [[v1 h1]|] eqn:H1; [|done].
  apply feature_step_Ok in H1 as (va & Hfa & _ & Ha & -> & ->).
  destruct (feature_step asOf policy b _ _) as [[v2 h2]|] eqn:H2; [|done].
  apply feature_step_Ok in H2 as (vb & Hfb & Hnone & Hb & -> & ->).
  destruct (_ || _); [done|]. intros [= <- <-].
  assert (f_FeatureID a ≠ f_FeatureID b) as Hne.
  { intros E. rewrite E, lookup_insert_eq in Hnone. done. }
  assert (f_FeatureID a = FeatureExistingObligation ∧ f_FeatureID b = FeatureVerifiedIncome)
    as [Ea Eb].
  { destruct Ha as [Ha|Ha], Hb as [Hb|Hb]; try congruence; [|done].
    inversion_clear Hs as [|? ? _ Hall]. inversion_clear Hall as [|? ? Hle _].
    unfold key_le in Hle. rewrite Ha, Hb in Hle. by vm_compute in Hle. }
  exists a, b, va, vb. unfold lookup_zero. rewrite frames_app. split_and!; try done.
  - by rewrite Ea, Eb, lookup_insert_ne, lookup_insert_eq by done.
  - by rewrite Eb, lookup_insert_eq.
Qed.

(** * Decisions *)

Definition policy_maximum (policy : Policy) : Z :=
  default 0 (Big.canonical (MaximumExposureUnits policy)).

Lemma New_policy p engine :
  New p = Ok engine →
  policy engine = p ∧ MaximumExposureUnits p = Big.to_string (policy_maximum p) ∧
  0 < policy_maximum p ∧ IncomeAdvanceBps p <= 10000.
Proof.
  unfold New, policy_maximum. destruct (_ || _) eqn:Hg; [done|]. bool_facts.
  unfold positiveInteger in *.
  destruct (Big.canonical (MaximumExposureUnits p)) as [m|] eqn:Hm; [|done].
  apply Big.canonical_Some in Hm. bool_facts. intros [= <-]. simpl. done.
Qed.

Lemma capacity_of_bounds p income obligations maximum :
  0 <= income → 0 <= obligations → 0 <= maximum → 0 <= IncomeAdvanceBps p →
  capacity_of p income obligations maximum =
    Z.min maximum (Z.max 0 (income * IncomeAdvanceBps p / 10000 - obligations)).
Proof.
  intros. unfold capacity_of. rewrite Z.quot_div_nonneg by nia.
  repeat case_match; bool_facts; lia.
Qed.

Lemma reasons_of_nil application p requested capacity :
  reasons_of application p requested capacity = [] ↔
  a_CredentialScope application = CredentialScope p ∧
  MinimumAssurance p <= a_CredentialAssurance application ∧
  a_DurationDays application <= MaximumDurationDays p ∧ requested <= capacity.
Proof.
  unfold reasons_of. rewrite !app_nil.
  destruct (String.eqb_spec (a_CredentialScope application) (CredentialScope p));
    destruct (Z.ltb_spec (a_CredentialAssurance application) (MinimumAssurance p));
    destruct (Z.ltb_spec (MaximumDurationDays p) (a_DurationDays application));
    destruct (Z.ltb_spec capacity requested); simpl; split; intros; destruct_and?; try done;
    split_and!; try done; try lia.
Qed.

Section Decisions.
Context `{Sha256}.

(** C29: a decision under an accepted policy follows the rules exactly. The
    evidence holds one fresh income and one fresh obligation value; the maximum
    exposure is the advanced share of income less obligations, never negative
    and never above the policy's maximum; the application is approved exactly
    when scope, assurance, duration and capacity all allow it, and then the
    requested amount and the existing obligations together stay within the
    verified income. *)
Theorem decision_follows_policy (p : Policy) (engine : Engine) (application : Application)
    (asOf : Time.t) (d : Decision) :
  New p = Ok engine → 0 <= IncomeAdvanceBps p →
  Decide (Some engine) application asOf = Ok d →
  ∃ o i obligations income requested,
    a_Features application ≡ₚ [o; i] ∧
    f_FeatureID o = FeatureExistingObligation ∧ f_FeatureID i = FeatureVerifiedIncome ∧
    fresh_evidence asOf p o obligations ∧ fresh_evidence asOf p i income ∧
    a_RequestedUnits application = Big.to_string requested ∧ 0 < requested ∧
    let capacity := Z.min (policy_maximum p)
                      (Z.max 0 (income * IncomeAdvanceBps p / 10000 - obligations)) in
    d_MaximumExposureUnits d = Big.to_string capacity ∧
    (d_Approved d = true ↔
       a_CredentialScope application = CredentialScope p ∧
       MinimumAssurance p <= a_CredentialAssurance application ∧
       a_DurationDays application <= MaximumDurationDays p ∧ requested <= capacity) ∧
    (d_Approved d = true ↔ d_ReasonCodes d = [ReasonApproved]) ∧
    (d_Approved d = true → requested + obligations <= income).
Proof.
  intros Hnew Hbps. apply New_policy in Hnew as (Hpol & Hmax & Hpos & Hbps').
  unfold Decide. rewrite Hpol. destruct (_ || _); [done|]. unfold positiveInteger.
  destruct (Big.canonical (a_RequestedUnits application)) as [requested|] eqn:Hreq; [|done].
  apply Big.canonical_Some in Hreq. destruct (Z.leb_spec requested 0); [done|].
  destruct (authenticatedFeatures _ _ _) as [[values root]|] eqn:Hauth; [|done].
  apply authenticated_Ok in Hauth as (o & i & vo & vi & Hp & Ho & Hi & Hfo & Hfi & -> & -> & ->).
  fold (policy_maximum p). pose proof Hfo as (_ & Hvo & _). pose proof Hfi as (_ & Hvi & _).
  rewrite capacity_of_bounds by lia. intros [= <-]. simpl.
  exists o, i, vo, vi, requested. do 7 (split; [done|]).
  set (cap := Z.min _ _). rewrite <- (reasons_of_nil application p requested cap).
  rewrite Nat.eqb_eq, length_zero_iff_nil. split; [done|]. split; [done|]. split.
  - destruct (reasons_of _ _ _ _) as [|r rs] eqn:E; simpl; [done|]. split; [done|].
    intros [= -> ->]. exfalso. unfold reasons_of in E. repeat case_match; by simplify_eq/=.
  - intros (_ & _ & _ & Hle)%reasons_of_nil. unfold cap in Hle.
    assert (vi * IncomeAdvanceBps p / 10000 <= vi) by (apply Z.div_le_upper_bound; nia). lia.
Qed.

(** The decision does not depend on the order in which the applicant's
    features are submitted. *)
Theorem decision_order_independent (engine : option Engine) (x y : FeatureEvidence)
    (application : Application) (asOf : Time.t) :
  let with_features fs :=
    mkApplication (a_DecisionID application) (a_SubjectCommitment application)
      (a_BorrowerAccount application) (a_CredentialScope application)
      (a_CredentialAssurance application) (a_SettlementAssetID application)
      (a_ProductID application) (a_RequestedUnits application) (a_DurationDays application) fs in
  Decide engine (with_features [x; y]) asOf = Decide engine (with_features [y; x]) asOf.
Proof.
  intros w. unfold Decide, w; simpl. destruct engine as [e|]; [|done].
  destruct (_ || _); [done|]. destruct (positiveInteger _) as [r|]; [|done].
  destruct (r <=? 0); [done|].
  assert (authenticatedFeatures [x; y] asOf (policy e) =
          authenticatedFeatures [y; x] asOf (policy e)) as ->; [|done].
  destruct (decide (f_FeatureID x = f_FeatureID y)) as [E|E].
  - assert (∀ u v, f_FeatureID u = f_FeatureID v →
      authenticatedFeatures [u; v] asOf (policy e) = Err ErrInvalidEvidence) as Hdup.
    { clear. intros u v E.
      destruct (authenticatedFeatures [u; v] asOf (policy e)) as [[vs rt]|err] eqn:Ha.
      - apply authenticated_Ok in Ha as (o & i & _ & _ & Hp & Ho & Hi & _).
        assert (o ∈ [u; v] ∧ i ∈ [u; v]) as [Hoin Hiin] by (rewrite Hp; set_solver).
        exfalso. assert (f_FeatureID o = f_FeatureID i) as Hoi by set_solver. rewrite Ho, Hi in Hoi. discriminate Hoi.
      - unfold authenticatedFeatures in Ha. cbn [length Nat.eqb negb] in Ha.
        destruct (feature_loop _ _ _ _ _) as [[vs h]|err'] eqn:Hl; [by destruct (_ || _); simplify_eq|].
        simplify_eq. by rewrite (feature_loop_Err _ _ _ _ _ _ Hl). }
    by rewrite !Hdup.
  - unfold authenticatedFeatures. cbn [length Nat.eqb negb].
    by rewrite (sort_by_unique f_FeatureID [x; y] [y; x]) by
      (try apply Permutation_swap; repeat constructor; set_solver).
Qed.

(** The bytes hashed for a set of two features: the fields of the obligation
    feature, then those of the income feature. *)
Definition evidence_preimage (e : list FeatureEvidence) (m : string) : Prop :=
  ∃ o i, e ≡ₚ [o; i] ∧ f_FeatureID o = FeatureExistingObligation ∧
    f_FeatureID i = FeatureVerifiedIncome ∧ m = frames (fields o ++ fields i).

(** The evidence root commits to the evidence. Two accepted sets of
    evidence with the same root agree on every field of both features (times
    as their printed UTC instants), in whatever order they were submitted, or
    else the byte strings hashed for the two sets are a SHA-256 collision. *)
Theorem evidence_root_binds (e1 e2 : list FeatureEvidence) (t1 t2 : Time.t) (p1 p2 : Policy)
    (v1 v2 : gmap string Z) (root : string) :
  Forall (λ x, Forall fits (fields x)) e1 → Forall (λ x, Forall fits (fields x)) e2 →
  authenticatedFeatures e1 t1 p1 = Ok (v1, root) →
  authenticatedFeatures e2 t2 p2 = Ok (v2, root) →
  (fields <$> e1) ≡ₚ (fields <$> e2) ∨
  ∃ m1 m2, evidence_preimage e1 m1 ∧ evidence_preimage e2 m2 ∧ collision m1 m2.
Proof.
  intros F1 F2 H1 H2.
  apply authenticated_Ok in H1 as (o1 & i1 & _ & _ & P1 & Io1 & Ii1 & _ & _ & _ & _ & R1).
  apply authenticated_Ok in H2 as (o2 & i2 & _ & _ & P2 & Io2 & Ii2 & _ & _ & _ & _ & R2).
  rewrite R1 in R2. apply (inj hex) in R2.
  rewrite P1 in F1. rewrite P2 in F2.
  inversion_clear F1 as [|? ? Fo1 F1']. inversion_clear F1' as [|? ? Fi1 _].
  inversion_clear F2 as [|? ? Fo2 F2']. inversion_clear F2' as [|? ? Fi2 _].
  destruct (decide (frames (fields o1 ++ fields i1) = frames (fields o2 ++ fields i2))) as [E|E].
  - left. apply frames_inj in E; [|done|by apply Forall_app..].
    apply app_inj_1 in E as [E1 E2]; [|done]. rewrite P1, P2. cbn [fmap list_fmap]. by rewrite E1, E2.
  - right. exists (frames (fields o1 ++ fields i1)), (frames (fields o2 ++ fields i2)).
    split; [by exists o1, i1|]. split; [by exists o2, i2|by split].
Qed.
End Decisions.

(** * A concrete decision *)

Module Sample.
#[local] Instance plain_sha : Sha256 := λ m, m.

Definition pol : Policy :=
  mkPolicy "p" "1" "rules" "schema" "scope" "USD" "prod" "5000" 365 2 3000 (24 * Time.hour).
Definition now : Time.t := Time.mk (48 * Time.hour) "".
Definition seen : Time.t := Time.mk (30 * Time.hour) "".
Definition income : FeatureEvidence :=
  mkFeatureEvidence FeatureVerifiedIncome "10000" "src" "v1" "h1" seen.
Definition obligations : FeatureEvidence :=
  mkFeatureEvidence FeatureExistingObligation "1000" "src" "v1" "h2" seen.
Definition app : Application :=
  mkApplication "d1" "subj" "acct" "scope" 3 "USD" "prod" "1500" 90 [income; obligations].

Lemma decision_follows_policy_witness :
  ∃ d, Decide (Some (mkEngine pol)) app now = Ok d ∧
    ∃ o i obligations income requested,
      a_Features app ≡ₚ [o; i] ∧ fresh_evidence now pol o obligations ∧
      fresh_evidence now pol i income ∧ requested + obligations <= income.
Proof.
  eexists. split; [vm_compute; reflexivity|].
  destruct (decision_follows_policy pol (mkEngine pol) app now
    (mkDecision true "2000" [ReasonApproved]
      (hex (frames (fields obligations ++ fields income))) "p" "1" "rules" "schema" now))
    as (o & i & vo & vi & r & H1 & _ & _ & H2 & H3 & _ & _ & _ & _ & _ & H4);
    [reflexivity|discriminate|vm_compute; reflexivity|].
  exists o, i, vo, vi, r. split; [exact H1|]. split; [exact H2|]. split; [exact H3|].
  apply H4. reflexivity.
Defined.

Definition root : string := hex (frames (fields obligations ++ fields income)).
Definition values : gmap string Z :=
  <[FeatureVerifiedIncome := 10000]> (<[FeatureExistingObligation := 1000]> ∅).

Lemma evidence_root_binds_witness :
  (fields <$> [income; obligations]) ≡ₚ (fields <$> [obligations; income]) ∨
  ∃ m1 m2, evidence_preimage [income; obligations] m1 ∧
    evidence_preimage [obligations; income] m2 ∧ collision m1 m2.
Proof.
  apply (evidence_root_binds [income; obligations] [obligations; income] now now pol pol
           values values root).
  - repeat constructor.
  - repeat constructor.
  - vm_cast_no_check (eq_refl (Ok (E := error) (values, root))).
  - vm_cast_no_check (eq_refl (Ok (E := error) (values, root))).
Defined.
End Sample.
