(* ===== verification/CreditEvidence.v ===== *)
(** The immutable credit-evidence store
    ([foundation-ledger/internal/creditevidence]): two indexes and an insertion
    order, refined to a plain append-only log. *)
From S2P Require Import Prelude GoStd.

(** * Data *)

Definition ProviderRegistered : string := "IDENTITY_PROVIDER_REGISTERED".
Definition ProviderStatusChanged : string := "IDENTITY_PROVIDER_STATUS_CHANGED".
Definition CredentialSchemaAdded : string := "IDENTITY_CREDENTIAL_SCHEMA_REGISTERED".
Definition CredentialSchemaChanged : string := "IDENTITY_CREDENTIAL_SCHEMA_STATUS_CHANGED".
Definition CredentialIssued : string := "IDENTITY_CREDENTIAL_ISSUED".
Definition CredentialRevoked : string := "IDENTITY_CREDENTIAL_REVOKED".
Definition DecisionIssued : string := "CREDIT_DECISION_ISSUED".
Definition DecisionRevoked : string := "CREDIT_DECISION_REVOKED".
Definition ExposureReserved : string := "CREDIT_EXPOSURE_RESERVED".
Definition ExposureActivated : string := "CREDIT_EXPOSURE_ACTIVATED".
Definition ExposureReleased : string := "CREDIT_EXPOSURE_RELEASED".
Definition ExposureCancelled : string := "CREDIT_EXPOSURE_CANCELLED".
Definition UnderwrittenActivated : string := "UNDERWRITTEN_LOAN_ACTIVATED".
Definition UnderwrittenReleased : string := "UNDERWRITTEN_EXPOSURE_RELEASED".

Inductive error := ErrInvalidEvidence | ErrEvidenceConflict.

Record Evidence := mkEvidence {
  EventID : string;
  RecordType : string;
  RecordID : string;
  Sequence : Z;
  ProviderID : string;
  SchemaID : string;
  CredentialID : string;
  DecisionID : string;
  LoanID : string;
  TenderID : string;
  OfferID : string;
  SubjectCommitment : string;
  BorrowerAccount : string;
  LenderAccount : string;
  LoanAccount : string;
  AssetID : string;
  ProductHash : string;
  Units : string;
  DurationSeconds : Z;
  AgreementHash : string;
  ConsentEvidence : string;
  JournalReference : string;
  EvidenceHash : string;
  Finality : string;
  OccurredAt : Time.t }.

Record StoredEvidence := mkStored {
  s_Evidence : Evidence;
  s_ContentHash : string;
  s_RecordedAt : Time.t }.

Definition recordKey : Type := string * string * Z.
Definition key_of (e : Evidence) : recordKey := (RecordType e, RecordID e, Sequence e).

Record Store := mkStore {
  byEvent : gmap string StoredEvidence;
  byKey : gmap recordKey string;
  order : list string }.

Definition New : Store := mkStore ∅ ∅ [].

(** The hash of the JSON encoding; [None] is an encoding failure. *)
Class EvidenceDigest := evidence_digest : Evidence → option string.

(** * Operations *)

Definition knownType (recordType : string) : bool :=
  bool_decide (recordType ∈
    [ProviderRegistered; ProviderStatusChanged; CredentialSchemaAdded; CredentialSchemaChanged;
     CredentialIssued; CredentialRevoked; DecisionIssued; DecisionRevoked; ExposureReserved;
     ExposureActivated; ExposureReleased; ExposureCancelled; UnderwrittenActivated;
     UnderwrittenReleased]).

Definition positiveUnits (evidence : Evidence) : bool :=
  match Big.set_string (Units evidence) with Some units => 0 <? units | None => false end.

(** The fields each record type requires: the [switch] of [validateAndHash]. *)
Definition missing_fields (evidence : Evidence) : bool :=
  let t := RecordType evidence in
  if (t =s ProviderRegistered) || (t =s ProviderStatusChanged) then
    empty_s (ProviderID evidence)
  else if (t =s CredentialSchemaAdded) || (t =s CredentialSchemaChanged) then
    empty_s (ProviderID evidence) || empty_s (SchemaID evidence)
  else if (t =s CredentialIssued) || (t =s CredentialRevoked) then
    empty_s (CredentialID evidence) || empty_s (SubjectCommitment evidence)
  else if (t =s DecisionIssued) || (t =s DecisionRevoked) then
    empty_s (DecisionID evidence) || empty_s (CredentialID evidence) ||
    empty_s (SubjectCommitment evidence)
  else if (t =s ExposureReserved) || (t =s ExposureActivated) || (t =s ExposureReleased) ||
          (t =s ExposureCancelled) then
    empty_s (DecisionID evidence) || empty_s (LoanID evidence) ||
    empty_s (SubjectCommitment evidence) || empty_s (AssetID evidence) ||
    negb (positiveUnits evidence)
  else if t =s UnderwrittenActivated then
    empty_s (DecisionID evidence) || empty_s (LoanID evidence) || empty_s (TenderID evidence) ||
    empty_s (OfferID evidence) || empty_s (SubjectCommitment evidence) ||
    empty_s (BorrowerAccount evidence) || empty_s (LenderAccount evidence) ||
    empty_s (LoanAccount evidence) || empty_s (AssetID evidence) ||
    empty_s (ProductHash evidence) || (DurationSeconds evidence =? 0) ||
    empty_s (AgreementHash evidence) || empty_s (ConsentEvidence evidence) ||
    empty_s (JournalReference evidence) || negb (positiveUnits evidence)
  else if t =s UnderwrittenReleased then
    empty_s (DecisionID evidence) || empty_s (LoanID evidence) ||
    empty_s (SubjectCommitment evidence) || empty_s (AssetID evidence) ||
    negb (positiveUnits evidence)
  else false.

Section Operations.
Context `{EvidenceDigest}.

Definition validateAndHash (evidence : Evidence) : result error string :=
  if empty_s (EventID evidence) || empty_s (RecordID evidence) || (Sequence evidence =? 0) ||
     empty_s (EvidenceHash evidence) || (Finality evidence <>s "FINAL") ||
     Time.IsZero (OccurredAt evidence) || negb (knownType (RecordType evidence))
  then Err ErrInvalidEvidence
  else if missing_fields evidence then Err ErrInvalidEvidence
  else match evidence_digest evidence with
       | None => Err ErrInvalidEvidence
       | Some hash => Ok hash
       end.

Definition Record_ (now : Time.t) (evidence : Evidence) (store : Store)
    : Store * result error StoredEvidence :=
  match validateAndHash evidence with
  | Err err => (store, Err err)
  | Ok contentHash =>
      match byEvent store !! EventID evidence with
      | Some existing =>
          if s_ContentHash existing <>s contentHash then (store, Err ErrEvidenceConflict)
          else (store, Ok existing)
      | None =>
          let key := key_of evidence in
          if has_key (byKey store) key then (store, Err ErrEvidenceConflict)
          else
            let stored := mkStored evidence contentHash (Time.UTC now) in
            (mkStore (<[EventID evidence := stored]> (byEvent store))
                     (<[key := EventID evidence]> (byKey store))
                     (order store ++ [EventID evidence]), Ok stored)
      end
  end.

Definition zeroStored : StoredEvidence :=
  mkStored (mkEvidence "" "" "" 0 "" "" "" "" "" "" "" "" "" "" "" "" "" "" 0 "" "" "" "" ""
              Time.zero) "" Time.zero.

Definition List_ (store : Store) : list StoredEvidence :=
  lookup_zero zeroStored (byEvent store) <$> order store.

(** Stores built by a sequence of [Record] calls. *)
Inductive reachable : Store → Prop :=
| reach_new : reachable New
| reach_record now e s : reachable s → reachable (Record_ now e s).1.

(** * The abstract log *)

(** The specification: a list of records in the order they were accepted.
    The first record with the same event id decides a replay, a record with
    the same key is a conflict, anything else is appended. *)
Definition log_record (now : Time.t) (evidence : Evidence) (log : list StoredEvidence)
    : list StoredEvidence * result error StoredEvidence :=
  match validateAndHash evidence with
  | Err err => (log, Err err)
  | Ok contentHash =>
      match list_find (λ s, EventID (s_Evidence s) = EventID evidence) log with
      | Some (_, existing) =>
          if s_ContentHash existing =s contentHash then (log, Ok existing)
          else (log, Err ErrEvidenceConflict)
      | None =>
          if existsb (λ s, bool_decide (key_of (s_Evidence s) = key_of evidence)) log
          then (log, Err ErrEvidenceConflict)
          else let stored := mkStored evidence contentHash (Time.UTC now) in
               (log ++ [stored], Ok stored)
      end
  end.

(** The concrete store represents a log: the order lists its event ids, each
    index holds exactly its records. *)
Record represents (s : Store) (log : list StoredEvidence) : Prop := {
  rep_order : order s = (λ r, EventID (s_Evidence r)) <$> log;
  rep_event : ∀ r, r ∈ log → byEvent s !! EventID (s_Evidence r) = Some r;
  rep_event_inv : ∀ id r, byEvent s !! id = Some r → EventID (s_Evidence r) = id ∧ r ∈ log;
  rep_key : ∀ k, is_Some (byKey s !! k) ↔ ∃ r, r ∈ log ∧ key_of (s_Evidence r) = k;
  rep_valid : ∀ r, r ∈ log → validateAndHash (s_Evidence r) = Ok (s_ContentHash r);
  rep_nodup_event : NoDup ((λ r, EventID (s_Evidence r)) <$> log);
  rep_nodup_key : NoDup ((λ r, key_of (s_Evidence r)) <$> log) }.

Lemma represents_List s log : represents s log → List_ s = log.
Proof.
  intros R. unfold List_. rewrite (rep_order _ _ R), <- list_fmap_compose.
  rewrite <- (list_fmap_id log) at 2. apply list_fmap_ext. intros i r Hr. simpl.
  unfold lookup_zero. rewrite (rep_event _ _ R r); [done|]. by eapply list_elem_of_lookup_2.
Qed.

Lemma represents_New : represents New [].
Proof.
  constructor; simpl; try set_solver; try by constructor.
  intros k. rewrite lookup_empty, is_Some_alt. set_solver.
Qed.

Lemma represents_append s log now e h :
  represents s log → validateAndHash e = Ok h →
  byEvent s !! EventID e = None → byKey s !! key_of e = None →
  let r := mkStored e h now in
  represents (mkStore (<[EventID e := r]> (byEvent s)) (<[key_of e := EventID e]> (byKey s))
                (order s ++ [EventID e])) (log ++ [r]).
Proof.
  intros R Hv He Hk r. constructor; simpl.
  - by rewrite fmap_app, (rep_order _ _ R).
  - intros x [Hx| ->%list_elem_of_singleton]%elem_of_app; [|apply lookup_insert_eq].
    pose proof (rep_event _ _ R x Hx). rewrite lookup_insert_ne; [done|]. congruence.
  - intros id x. rewrite lookup_insert_Some. intros [[<- <-]|[_ Hx]]; [set_solver|].
    destruct (rep_event_inv _ _ R _ _ Hx). set_solver.
  - intros k. rewrite lookup_insert_is_Some', (rep_key _ _ R). set_solver.
  - intros x [Hx| ->%list_elem_of_singleton]%elem_of_app; [by apply (rep_valid _ _ R)|done].
  - rewrite fmap_app. apply NoDup_app. split_and!; [apply (rep_nodup_event _ _ R)| |].
    + intros id (x & -> & Hx)%list_elem_of_fmap. simpl. rewrite list_elem_of_singleton.
      pose proof (rep_event _ _ R x Hx). congruence.
    + simpl. apply NoDup_singleton.
  - rewrite fmap_app. apply NoDup_app. split_and!; [apply (rep_nodup_key _ _ R)| |].
    + intros k (x & -> & Hx)%list_elem_of_fmap. simpl. rewrite list_elem_of_singleton. intros E.
      assert (is_Some (byKey s !! key_of e)) as [? ?] by (apply (rep_key _ _ R); eauto).
      congruence.
    + simpl. apply NoDup_singleton.
Qed.

Lemma represents_find s log evidence :
  represents s log →
  byEvent s !! EventID evidence =
  snd <$> list_find (λ r, EventID (s_Evidence r) = EventID evidence) log.
Proof.
  intros R. destruct (list_find _ log) as [[i r]|] eqn:Hf; simpl.
  - apply list_find_Some in Hf as (Hi & He & _). rewrite <- He. apply (rep_event _ _ R).
    by eapply list_elem_of_lookup_2.
  - destruct (byEvent s !! EventID evidence) as [r|] eqn:Hr; [|done].
    destruct (rep_event_inv _ _ R _ _ Hr) as [He Hin].
    apply list_find_None in Hf. rewrite Forall_forall in Hf. by destruct (Hf r).
Qed.

Lemma represents_has_key s log evidence :
  represents s log →
  has_key (byKey s) (key_of evidence) =
  existsb (λ r, bool_decide (key_of (s_Evidence r) = key_of evidence)) log.
Proof.
  intros R. apply eq_true_iff_eq. rewrite has_key_true, (rep_key _ _ R), existsb_exists.
  setoid_rewrite list_elem_of_In. setoid_rewrite bool_decide_eq_true. done.
Qed.

(** One call simulates one step of the log. *)
Lemma record_simulates now e s log :
  represents s log →
  represents (Record_ now e s).1 (log_record now e log).1 ∧
  (Record_ now e s).2 = (log_record now e log).2.
Proof.
  intros R. unfold Record_, log_record.
  destruct (validateAndHash e) as [h|err] eqn:Hv; [|done].
  pose proof (represents_find _ _ e R) as Hf. pose proof (represents_has_key _ _ e R) as Hk.
  destruct (list_find _ log) as [[i r]|]; simpl in Hf; rewrite Hf.
  - by destruct (s_ContentHash r =s h).
  - rewrite Hk. destruct (existsb _ log); [done|]. simpl. split; [|done].
    apply represents_append; try done. by apply has_key_false.
Qed.

Lemma reachable_represents s : reachable s → represents s (List_ s).
Proof.
  intros Hr. assert (∃ log, represents s log) as [log R].
  { induction Hr as [|now e s _ [log R]]; [exists []; apply represents_New|].
    eexists. by apply record_simulates. }
  by rewrite (represents_List _ _ R).
Qed.

(** The indexed store implements the append-only log. In every store built
    by [Record] calls, [List] is a log of validly hashed records without
    duplicate event ids or record keys, and a further [Record] answers and
    changes the listing exactly as the log does. *)
Theorem evidence_store_refines_log (s : Store) (now : Time.t) (e : Evidence) :
  reachable s →
  (Record_ now e s).2 = (log_record now e (List_ s)).2 ∧
  List_ (Record_ now e s).1 = (log_record now e (List_ s)).1 ∧
  NoDup ((λ r, EventID (s_Evidence r)) <$> List_ s) ∧
  NoDup ((λ r, key_of (s_Evidence r)) <$> List_ s) ∧
  (∀ r, r ∈ List_ s → validateAndHash (s_Evidence r) = Ok (s_ContentHash r)).
Proof.
  intros R%reachable_represents. destruct (record_simulates now e s _ R) as [R' Hr].
  split_and!; [done|by apply represents_List|apply R..].
Qed.

(** The log only grows. *)
Lemma log_record_prefix now e log : log `prefix_of` (log_record now e log).1.
Proof.
  unfold log_record. repeat case_match; simpl; try done. by eexists.
Qed.

Definition records (calls : list (Time.t * Evidence)) (s : Store) : Store :=
  foldl (λ s c, (Record_ c.1 c.2 s).1) s calls.

Lemma records_reachable calls s : reachable s → reachable (records calls s).
Proof.
  revert s. induction calls as [|[now e] calls IH]; intros s Hs; simpl; [done|].
  apply IH. by constructor.
Qed.

Lemma records_prefix calls s : reachable s → List_ s `prefix_of` List_ (records calls s).
Proof.
  revert s. induction calls as [|[now e] calls IH]; intros s Hs; simpl; [done|].
  etrans; [|apply IH; by constructor]. apply reachable_represents in Hs.
  destruct (record_simulates now e s _ Hs) as [R' _]. simpl in R'.
  rewrite (represents_List _ _ R'). apply log_record_prefix.
Qed.

(** Evidence is immutable and recording is idempotent. Once a call has
    accepted a piece of evidence, whatever is recorded afterwards, the listing
    keeps every earlier record in place, and recording the same evidence again
    returns the record stored the first time and changes nothing. *)
Theorem evidence_idempotent (s : Store) (now now' : Time.t) (e : Evidence) (r : StoredEvidence)
    (calls : list (Time.t * Evidence)) :
  reachable s → (Record_ now e s).2 = Ok r →
  let s' := records calls (Record_ now e s).1 in
  List_ (Record_ now e s).1 `prefix_of` List_ s' ∧ Record_ now' e s' = (s', Ok r).
Proof.
  intros Hs Hok s'. assert (reachable (Record_ now e s).1) as Hs1 by (by constructor).
  pose proof (records_prefix calls _ Hs1) as Hpre. split; [done|].
  assert (r ∈ List_ (Record_ now e s).1 ∧ EventID (s_Evidence r) = EventID e ∧
          validateAndHash e = Ok (s_ContentHash r)) as (Hin & He & Hv).
  { pose proof (reachable_represents _ Hs) as R.
    destruct (record_simulates now e s _ R) as [R' Hr]. rewrite (represents_List _ _ R').
    rewrite Hok in Hr. revert Hr. unfold log_record.
    destruct (validateAndHash e) as [h|]; [|done].
    destruct (list_find _ _) as [[i x]|] eqn:Hf.
    - apply list_find_Some in Hf as (Hi & Hx & _).
      destruct (String.eqb_spec (s_ContentHash x) h) as [<-|]; [|done]. intros [= ->].
      split_and!; try done. by eapply list_elem_of_lookup_2.
    - destruct (existsb _ _); [done|]. intros [= ->]. set_solver. }
  assert (represents s' (List_ s')) as R' by (by apply reachable_represents, records_reachable).
  assert (byEvent s' !! EventID e = Some r) as Hl.
  { rewrite <- He. apply (rep_event _ _ R'). destruct Hpre as [k Hk]. fold s' in Hk.
    rewrite Hk. set_solver. }
  unfold Record_. by rewrite Hv, Hl, String.eqb_refl.
Qed.
End Operations.

(** * Concrete evidence *)

Module Sample.
#[local] Instance id_digest : EvidenceDigest := λ e, Some (EventID e +:+ Units e).

Definition e1 : Evidence :=
  mkEvidence "ev1" ExposureReserved "rec" 1 "" "" "" "dec" "loan" "" "" "subj" "" "" "" "USD" ""
    "100" 0 "" "" "" "hash" "FINAL" (Time.mk 5 "").
Definition e2 : Evidence :=
  mkEvidence "ev2" ExposureReleased "rec" 1 "" "" "" "dec" "loan" "" "" "subj" "" "" "" "USD" ""
    "100" 0 "" "" "" "hash" "FINAL" (Time.mk 6 "").
Definition t1 : Time.t := Time.mk 7 "".

Lemma evidence_store_refines_log_witness :
  reachable (Record_ t1 e1 New).1 ∧
  List_ (Record_ t1 e2 (Record_ t1 e1 New).1).1 =
    (log_record t1 e2 (List_ (Record_ t1 e1 New).1)).1.
Proof.
  assert (reachable (Record_ t1 e1 New).1) as Hr by (constructor; constructor).
  split; [exact Hr|]. exact (proj1 (proj2 (evidence_store_refines_log _ t1 e2 Hr))).
Defined.

Lemma evidence_idempotent_witness :
  let s' := records [(t1, e2)] (Record_ t1 e1 New).1 in
  (Record_ t1 e1 s').2 = Ok (mkStored e1 "ev1100" t1).
Proof.
  destruct (evidence_idempotent New t1 t1 e1 (mkStored e1 "ev1100" t1) [(t1, e2)]) as [_ H];
    [constructor|reflexivity|]. exact (f_equal snd H).
Defined.
End Sample.


