(* ===== verification/PaymentTypes.v ===== *)
(** Data of [payment-orchestrator/payment] that other packages use: payment
    intents, provider transitions, and the accounting interface the
    orchestrator calls. *)
From S2P Require Import Prelude GoStd.

Definition RailBank : string := "BANK".
Definition RailCard : string := "CARD".

Definition StatusCreated : string := "CREATED".
Definition StatusProcessing : string := "PROCESSING".
Definition StatusProvisional : string := "PROVISIONAL".
Definition StatusFinal : string := "FINAL".
Definition StatusFailed : string := "FAILED".
Definition StatusReversed : string := "REVERSED".
Definition StatusDisputed : string := "DISPUTED".

Record Intent := mkIntent {
  i_PaymentID : string;
  i_LegalEntityID : string;
  i_IdempotencyKey : string;
  i_CorrelationID : string;
  i_PayerReference : string;
  i_LoanID : string;
  i_ProviderID : string;
  i_ProviderReference : string;
  i_Rail : string;
  i_Purpose : string;
  i_AssetID : string;
  i_Units : string;
  i_ExpiresAt : Time.t;
  i_SchemaVersion : Z;
  i_Status : string;
  i_Version : Z;
  i_CreatedAt : Time.t;
  i_UpdatedAt : Time.t;
  i_ProvisionalAt : Time.t;
  i_FinalizedAt : Time.t;
  i_ReversedAt : Time.t }.

#[export] Instance Intent_eq_dec : EqDecision Intent.
Proof. solve_decision. Defined.

Record Transition := mkTransition {
  t_Payment : Intent;
  t_From : string;
  t_To : string;
  t_ProviderEventID : string;
  t_OccurredAt : Time.t;
  t_ReceivedAt : Time.t;
  t_EvidenceHash : string }.

#[export] Instance Transition_eq_dec : EqDecision Transition.
Proof. solve_decision. Defined.

(** [Apply] of the accounting boundary; [now] is the clock it reads. *)
Class PaymentAccounting (A E : Type) :=
  ApplyTransition : Time.t → Transition → A → A * result E (list string).
