(* ===== verification/AllocationMode.v ===== *)
(** The shared allocation-mode latch ([payment-orchestrator/allocationmode]):
    a payment is claimed either by the synthetic allocator or by the canonical
    gateway, never both.

    The registry calls back into its clients while it holds its lock. A
    callback is a function on an arbitrary external state [W], so the theorems
    hold for whatever the callback does to that state and whether or not it
    fails. The durable store is an interface, the class [ClaimStore], with the
    promises the registry relies on as the class [ClaimStoreLaws];
    [MemoryStore] is one instance. *)
From S2P Require Import Prelude GoStd.

(** * Data *)

Inductive error :=
| ErrInvalidClaim | ErrClaimConflict | ErrInvalidTransition | ErrResolutionFailed
| ErrInvalidStore | ErrStoreConflict
| ErrExternal (message : string)
| Join (outer inner : error).

Definition ModeSyntheticProjection : string := "SYNTHETIC_PROJECTION".
Definition ModeCanonicalGateway : string := "CANONICAL_GATEWAY".

Definition CanonicalPrepared : string := "PREPARED".
Definition CanonicalSubmitted : string := "SUBMITTED".
Definition CanonicalConfirmed : string := "CONFIRMED".
Definition CanonicalFailed : string := "FAILED".
Definition CanonicalQuarantined : string := "QUARANTINED".
Definition CanonicalIncident : string := "INCIDENT".

Record Claim := mkClaim {
  ClaimID : string;
  PaymentID : string;
  AllocationID : string;
  Mode : string;
  Digest : string;
  State : string;
  ExpectedVersion : Z;
  EvidenceHash : string;
  ClaimedAt : Time.t }.

#[export] Instance Claim_eq_dec : EqDecision Claim.
Proof. solve_decision. Defined.

Definition zeroClaim : Claim := mkClaim "" "" "" "" "" "" 0 "" Time.zero.

Definition with_state (state : string) (c : Claim) : Claim :=
  mkClaim (ClaimID c) (PaymentID c) (AllocationID c) (Mode c) (Digest c) state
    (ExpectedVersion c) (EvidenceHash c) (ClaimedAt c).

Inductive ReversalDisposition :=
| ReversalUnclaimed | ReversalSynthetic | ReversalReleased | ReversalQuarantined
| ReversalIncident.

(** * Claims and states *)

Definition validDurableClaim (claim : Claim) : bool :=
  if empty_s (ClaimID claim) || empty_s (PaymentID claim) || empty_s (AllocationID claim) ||
     empty_s (Digest claim) || empty_s (EvidenceHash claim) || Time.IsZero (ClaimedAt claim)
  then false
  else if Mode claim =s ModeSyntheticProjection then
    (ClaimID claim =s ("phase7b:" +:+ AllocationID claim)) && empty_s (State claim)
  else if Mode claim =s ModeCanonicalGateway then
    (ClaimID claim =s ("phase7c:" +:+ AllocationID claim)) && (State claim =s CanonicalPrepared)
  else false.

Definition sameDurableClaim (left right : Claim) : bool :=
  bool_decide (with_state CanonicalPrepared left = with_state CanonicalPrepared right).

Definition sameClaim (record : Claim) (paymentID allocationID mode digest : string) : bool :=
  (PaymentID record =s paymentID) && (AllocationID record =s allocationID) &&
  (Mode record =s mode) && (Digest record =s digest).

Definition validCanonicalState (state : string) : bool :=
  bool_decide (state ∈ [CanonicalPrepared; CanonicalSubmitted; CanonicalConfirmed;
                        CanonicalFailed; CanonicalQuarantined; CanonicalIncident]).

Definition allowedCanonicalTransition (from to : string) : bool :=
  if from =s CanonicalPrepared then
    (to =s CanonicalSubmitted) || (to =s CanonicalFailed) || (to =s CanonicalQuarantined)
  else if from =s CanonicalSubmitted then
    (to =s CanonicalConfirmed) || (to =s CanonicalFailed) || (to =s CanonicalQuarantined)
  else if from =s CanonicalQuarantined then
    (to =s CanonicalIncident) || (to =s CanonicalFailed)
  else if from =s CanonicalConfirmed then to =s CanonicalIncident
  else if from =s CanonicalFailed then
    (to =s CanonicalPrepared) || (to =s CanonicalQuarantined)
  else false.

(** * The store interface *)

(** [commit func() error] over an external state. *)
Definition callback (W : Type) : Type := W → W * result error unit.

Class ClaimStore (W S : Type) := {
  ClaimSynthetic : Claim → S → S * result error bool;
  ClaimCanonical : Claim → option (callback W) → S → W → S * W * result error unit;
  LoadClaims : S → result error (list Claim) }.

(** What a store promises: the claims it holds are keyed by payment, durable
    and valid, own distinct allocations, and change only on success. *)
Class ClaimStoreLaws (W S : Type) `{ClaimStore W S} := {
  durable : S → gmap string Claim;
  store_ok : S → Prop;
  durable_valid s p c : store_ok s → durable s !! p = Some c →
    PaymentID c = p ∧ validDurableClaim c = true;
  durable_alloc_inj s p q c d : store_ok s → durable s !! p = Some c → durable s !! q = Some d →
    AllocationID c = AllocationID d → p = q;
  synthetic_Ok c s s' replayed : store_ok s → ClaimSynthetic c s = (s', Ok replayed) →
    store_ok s' ∧ durable s' = <[PaymentID c := c]> (durable s);
  synthetic_Err c s s' e : store_ok s → ClaimSynthetic c s = (s', Err e) →
    store_ok s' ∧ durable s' = durable s;
  canonical_Ok c f s w s' w' : store_ok s → ClaimCanonical c (Some f) s w = (s', w', Ok tt) →
    f w = (w', Ok tt) ∧ store_ok s' ∧
    ∃ d, sameDurableClaim d c = true ∧ durable s' = <[PaymentID c := d]> (durable s);
  canonical_Err c f s w s' w' e : store_ok s → ClaimCanonical c (Some f) s w = (s', w', Err e) →
    store_ok s' ∧ durable s' = durable s ∧ (w' = w ∨ ∃ e', f w = (w', Err e'));
  load_Ok s : store_ok s → ∃ claims, LoadClaims s = Ok claims ∧
    claims ≡ₚ (map_to_list (durable s)).*2 }.

(** ** [MemoryStore] *)

Record MemoryStore := mkMemoryStore { claims : gmap string Claim }.
Definition NewMemoryStore : MemoryStore := mkMemoryStore ∅.

Definition allocation_owned (allocationID : string) (m : gmap string Claim) : bool :=
  existsb (λ '(_, existing), AllocationID existing =s allocationID) (map_to_list m).

Definition memory_ClaimSynthetic (claim : Claim) (store : MemoryStore)
    : MemoryStore * result error bool :=
  if negb (validDurableClaim claim) || (Mode claim <>s ModeSyntheticProjection)
  then (store, Err ErrInvalidStore)
  else match claims store !! PaymentID claim with
  | Some existing =>
      if bool_decide (existing = claim) then (store, Ok true) else (store, Err ErrStoreConflict)
  | None =>
      if allocation_owned (AllocationID claim) (claims store)
      then (store, Err ErrStoreConflict)
      else (mkMemoryStore (<[PaymentID claim := claim]> (claims store)), Ok false)
  end.

Definition memory_ClaimCanonical {W} (claim : Claim) (commit : option (callback W))
    (store : MemoryStore) (w : W) : MemoryStore * W * result error unit :=
  match commit with
  | None => (store, w, Err ErrInvalidStore)
  | Some commit =>
      if negb (validDurableClaim claim) || (Mode claim <>s ModeCanonicalGateway) ||
         (State claim <>s CanonicalPrepared)
      then (store, w, Err ErrInvalidStore)
      else match claims store !! PaymentID claim with
      | Some existing =>
          if sameDurableClaim existing claim
          then let '(w, r) := commit w in (store, w, r)
          else (store, w, Err ErrStoreConflict)
      | None =>
          if allocation_owned (AllocationID claim) (claims store)
          then (store, w, Err ErrStoreConflict)
          else match commit w with
               | (w, Err err) => (store, w, Err err)
               | (w, Ok _) =>
                   (mkMemoryStore (<[PaymentID claim := claim]> (claims store)), w, Ok tt)
               end
      end
  end.

Definition memory_LoadClaims (store : MemoryStore) : result error (list Claim) :=
  Ok (sort_by PaymentID (map_to_list (claims store)).*2).

#[export] Instance memory_store (W : Type) : ClaimStore W MemoryStore := {
  ClaimSynthetic := memory_ClaimSynthetic;
  ClaimCanonical := memory_ClaimCanonical;
  LoadClaims := memory_LoadClaims }.

(** * The registry *)

Section Registry.
Context {W S : Type} `{ClaimStore W S}.

Record Registry := mkRegistry {
  byPayment : gmap string Claim;
  byAllocation : gmap string string;
  reversed : gset string;
  store : S }.

Fixpoint load_loop (l : list Claim) (registry : Registry) : result error Registry :=
  match l with
  | [] => Ok registry
  | claim :: rest =>
      if negb (validDurableClaim claim) then Err ErrInvalidStore
      else if has_key (byPayment registry) (PaymentID claim) then Err ErrStoreConflict
      else if has_key (byAllocation registry) (AllocationID claim) then Err ErrStoreConflict
      else load_loop rest
             (mkRegistry (<[PaymentID claim := claim]> (byPayment registry))
                (<[AllocationID claim := PaymentID claim]> (byAllocation registry))
                (reversed registry) (store registry))
  end.

Definition New (store : option S) : result error Registry :=
  match store with
  | None => Err ErrInvalidStore
  | Some store =>
      let? claims := LoadClaims store in
      load_loop claims (mkRegistry ∅ ∅ ∅ store)
  end.

Definition ClaimMode (paymentID allocationID mode digest : string) (expectedVersion : Z)
    (evidenceHash : string) (claimedAt : Time.t) (registry : Registry)
    : Registry * result error (Claim * bool) :=
  if empty_s paymentID || empty_s allocationID || empty_s digest || empty_s evidenceHash ||
     Time.IsZero claimedAt || (mode <>s ModeSyntheticProjection)
  then (registry, Err ErrInvalidClaim)
  else if bool_decide (paymentID ∈ reversed registry) then (registry, Err ErrClaimConflict)
  else match byPayment registry !! paymentID with
  | Some existing =>
      if sameClaim existing paymentID allocationID mode digest &&
         (ExpectedVersion existing =? expectedVersion) && (EvidenceHash existing =s evidenceHash) &&
         Time.Equal (ClaimedAt existing) (Time.UTC claimedAt)
      then (registry, Ok (existing, true))
      else (registry, Err ErrClaimConflict)
  | None =>
      if match byAllocation registry !! allocationID with
         | Some owner => owner <>s paymentID
         | None => false
         end
      then (registry, Err ErrClaimConflict)
      else
        let record := mkClaim ("phase7b:" +:+ allocationID) paymentID allocationID mode digest ""
                        expectedVersion evidenceHash (Time.UTC claimedAt) in
        match ClaimSynthetic record (store registry) with
        | (store', Err err) =>
            (mkRegistry (byPayment registry) (byAllocation registry) (reversed registry) store',
             Err (Join ErrClaimConflict err))
        | (store', Ok replayed) =>
            (mkRegistry (<[paymentID := record]> (byPayment registry))
               (<[allocationID := paymentID]> (byAllocation registry)) (reversed registry) store',
             Ok (record, replayed))
        end
  end.

Definition ClaimModeWithCommit (paymentID allocationID mode digest : string)
    (expectedVersion : Z) (evidenceHash : string) (claimedAt : Time.t)
    (commit : option (Claim → callback W)) (registry : Registry) (w : W)
    : Registry * W * result error Claim :=
  match commit with
  | None => (registry, w, Err ErrInvalidClaim)
  | Some commit =>
      if empty_s paymentID || empty_s allocationID || empty_s digest || empty_s evidenceHash ||
         Time.IsZero claimedAt || (mode <>s ModeCanonicalGateway)
      then (registry, w, Err ErrInvalidClaim)
      else if bool_decide (paymentID ∈ reversed registry) then (registry, w, Err ErrClaimConflict)
      else if has_key (byPayment registry) paymentID then (registry, w, Err ErrClaimConflict)
      else if has_key (byAllocation registry) allocationID then (registry, w, Err ErrClaimConflict)
      else
        let record := mkClaim ("phase7c:" +:+ allocationID) paymentID allocationID mode digest
                        CanonicalPrepared expectedVersion evidenceHash (Time.UTC claimedAt) in
        match ClaimCanonical record (Some (commit record)) (store registry) w with
        | (store', w', Err err) =>
            (mkRegistry (byPayment registry) (byAllocation registry) (reversed registry) store',
             w', Err err)
        | (store', w', Ok _) =>
            (mkRegistry (<[paymentID := record]> (byPayment registry))
               (<[allocationID := paymentID]> (byAllocation registry)) (reversed registry) store',
             w', Ok record)
        end
  end.

Definition Release (claim : Claim) (registry : Registry) : result error unit :=
  Err ErrInvalidTransition.

Definition Lookup (paymentID : string) (registry : Registry) : option Claim :=
  byPayment registry !! paymentID.

Definition publish (record : Claim) (registry : Registry) : Registry :=
  mkRegistry (<[PaymentID record := record]> (byPayment registry)) (byAllocation registry)
    (reversed registry) (store registry).

Definition tombstone (paymentID : string) (registry : Registry) : Registry :=
  mkRegistry (byPayment registry) (byAllocation registry) ({[paymentID]} ∪ reversed registry)
    (store registry).

Definition TransitionWithCommit (paymentID allocationID digest expected next : string)
    (commit : option (Claim → callback W)) (registry : Registry) (w : W)
    : Registry * W * result error Claim :=
  match commit with
  | None => (registry, w, Err ErrInvalidTransition)
  | Some commit =>
      if negb (validCanonicalState expected) || negb (validCanonicalState next)
      then (registry, w, Err ErrInvalidTransition)
      else match byPayment registry !! paymentID with
      | None => (registry, w, Err ErrInvalidTransition)
      | Some record =>
          if (Mode record <>s ModeCanonicalGateway) || (AllocationID record <>s allocationID) ||
             (Digest record <>s digest) || (State record <>s expected) ||
             negb (allowedCanonicalTransition expected next)
          then (registry, w, Err ErrInvalidTransition)
          else
            let record := with_state next record in
            match commit record w with
            | (w', Err err) => (registry, w', Err err)
            | (w', Ok _) =>
                (mkRegistry (<[paymentID := record]> (byPayment registry)) (byAllocation registry)
                   (reversed registry) (store registry), w', Ok record)
            end
      end
  end.

(** The three results of [HandleReversalWithCommit]; a nil error is [None]. *)
Definition reversal_result : Type := Claim * ReversalDisposition * option error.

(** The guard-call-publish sequence each branch of the handler repeats: a nil
    callback and a failing callback resolve nothing; after a successful one the
    branch publishes [registry'] and answers [answer]. *)
Definition resolve_with (commit : option (Claim → ReversalDisposition → bool → callback W))
    (argument : Claim) (disposition : ReversalDisposition) (permanent : bool)
    (registry registry' : Registry) (answer : Claim) (w : W)
    : Registry * W * reversal_result :=
  match commit with
  | None => (registry, w, (zeroClaim, disposition, Some ErrResolutionFailed))
  | Some commit =>
      match commit argument disposition permanent w with
      | (w', Err err) =>
          (registry, w', (zeroClaim, disposition, Some (Join ErrResolutionFailed err)))
      | (w', Ok _) => (registry', w', (answer, disposition, None))
      end
  end.

Definition HandleReversalWithCommit (paymentID : string)
    (commit : option (Claim → ReversalDisposition → bool → callback W))
    (registry : Registry) (w : W) : Registry * W * reversal_result :=
  if empty_s paymentID
  then (registry, w, (zeroClaim, ReversalUnclaimed, Some ErrInvalidClaim))
  else match byPayment registry !! paymentID with
  | None =>
      resolve_with commit (mkClaim "" paymentID "" "" "" "" 0 "" Time.zero) ReversalUnclaimed true
        registry (tombstone paymentID registry) zeroClaim w
  | Some record =>
      if Mode record =s ModeSyntheticProjection then
        resolve_with commit record ReversalSynthetic true
          registry (tombstone paymentID registry) record w
      else
        let quarantine := with_state CanonicalQuarantined record in
        let incident := with_state CanonicalIncident record in
        let set record := mkRegistry (<[paymentID := record]> (byPayment registry))
          (byAllocation registry) (reversed registry) (store registry) in
        if (State record =s CanonicalPrepared) || (State record =s CanonicalFailed) then
          resolve_with commit record ReversalQuarantined false
            registry (set quarantine) quarantine w
        else if State record =s CanonicalSubmitted then
          resolve_with commit record ReversalQuarantined false
            registry (set quarantine) quarantine w
        else if State record =s CanonicalQuarantined then
          (registry, w, (record, ReversalQuarantined, None))
        else if State record =s CanonicalConfirmed then
          resolve_with commit record ReversalIncident false
            registry (set incident) incident w
        else if State record =s CanonicalIncident then
          (registry, w, (record, ReversalIncident, None))
        else (registry, w, (record, ReversalQuarantined, None))
  end.

Definition IsReversed (paymentID : string) (registry : Registry) : bool :=
  bool_decide (paymentID ∈ reversed registry).

Definition ResolveQuarantinedReversal (claim : Claim) (commit : option (callback W))
    (registry : Registry) (w : W) : Registry * W * result error unit :=
  match commit with
  | None => (registry, w, Err ErrInvalidClaim)
  | Some commit =>
      match byPayment registry !! PaymentID claim with
      | None => (registry, w, Err ErrInvalidTransition)
      | Some existing =>
          if negb (sameClaim existing (PaymentID claim) (AllocationID claim) (Mode claim)
                     (Digest claim)) ||
             (Mode existing <>s ModeCanonicalGateway) || (State existing <>s CanonicalQuarantined)
          then (registry, w, Err ErrInvalidTransition)
          else match commit w with
          | (w', Err err) => (registry, w', Err (Join ErrResolutionFailed err))
          | (w', Ok _) =>
              (tombstone (PaymentID existing) (publish (with_state CanonicalFailed existing) registry),
               w', Ok tt)
          end
      end
  end.

Definition Restore (claim : Claim) (tombstoned : bool) (registry : Registry)
    : Registry * result error unit :=
  if empty_s (PaymentID claim) || empty_s (AllocationID claim) || empty_s (Digest claim) ||
     ((Mode claim <>s ModeSyntheticProjection) && (Mode claim <>s ModeCanonicalGateway)) ||
     ((Mode claim =s ModeCanonicalGateway) && negb (validCanonicalState (State claim)))
  then (registry, Err ErrInvalidClaim)
  else
    let stamped registry :=
      if tombstoned then tombstone (PaymentID claim) registry else registry in
    match byPayment registry !! PaymentID claim with
    | Some existing =>
        if negb (sameDurableClaim existing claim) ||
           (bool_decide (PaymentID claim ∈ reversed registry) && negb tombstoned)
        then (registry, Err ErrClaimConflict)
        else
          (stamped (mkRegistry (<[PaymentID claim := with_state (State claim) existing]>
                                  (byPayment registry))
                      (byAllocation registry) (reversed registry) (store registry)), Ok tt)
    | None =>
        if match byAllocation registry !! AllocationID claim with
           | Some owner => owner <>s PaymentID claim
           | None => false
           end
        then (registry, Err ErrClaimConflict)
        else
          (stamped (mkRegistry (<[PaymentID claim := claim]> (byPayment registry))
                      (<[AllocationID claim := PaymentID claim]> (byAllocation registry))
                      (reversed registry) (store registry)), Ok tt)
    end.

Definition RestoreTombstone (paymentID : string) (registry : Registry)
    : Registry * result error unit :=
  if empty_s paymentID then (registry, Err ErrInvalidClaim)
  else (tombstone paymentID registry, Ok tt).

(** * Steps *)

(** One call of a live registry; every constructor ranges over all arguments
    and callbacks, failing calls included. *)
Inductive live_step : Registry → Registry → Prop :=
| step_claim p a m d v e t r : live_step r (ClaimMode p a m d v e t r).1
| step_claim_commit p a m d v e t f r w : live_step r (ClaimModeWithCommit p a m d v e t f r w).1.1
| step_transition p a d x y f r w : live_step r (TransitionWithCommit p a d x y f r w).1.1
| step_reversal p f r w : live_step r (HandleReversalWithCommit p f r w).1.1
| step_resolve c f r w : live_step r (ResolveQuarantinedReversal c f r w).1.1
| step_tombstone p r : live_step r (RestoreTombstone p r).1.

(** Calls of a registry that may also be rehydrated. *)
Inductive step : Registry → Registry → Prop :=
| step_live r r' : live_step r r' → step r r'
| step_restore c b r : step r (Restore c b r).1.

(** A registry as [New] and any later calls leave it. *)
Inductive reachable : Registry → Prop :=
| reach_new s r : New (Some s) = Ok r → reachable r
| reach_step r r' : reachable r → step r r' → reachable r'.
End Registry.
Arguments Registry : clear implicits.

(** * What a call can do to the latch *)

Section Effects.
Context {W S : Type} `{ClaimStore W S}.
Implicit Types (r : Registry S).

(** Every call leaves the claims alone, adds one claim for an unclaimed
    payment, or restates one claim; tombstones are only added. *)
Inductive effect (may : Claim → string → Prop) (r r' : Registry S) : Prop :=
| eff_same :
    byPayment r' = byPayment r → byAllocation r' = byAllocation r →
    reversed r ⊆ reversed r' → effect may r r'
| eff_claim (c : Claim) :
    byPayment r !! PaymentID c = None →
    (∀ o, byAllocation r !! AllocationID c = Some o → o = PaymentID c) →
    byPayment r' = <[PaymentID c := c]> (byPayment r) →
    byAllocation r' = <[AllocationID c := PaymentID c]> (byAllocation r) →
    reversed r ⊆ reversed r' → effect may r r'
| eff_state p (c : Claim) st :
    byPayment r !! p = Some c → may c st →
    byPayment r' = <[p := with_state st c]> (byPayment r) → byAllocation r' = byAllocation r →
    reversed r ⊆ reversed r' → effect may r r'.

(** The calls that neither claim nor touch the store. *)
Inductive quiet (may : Claim → string → Prop) (r r' : Registry S) : Prop :=
| quiet_same :
    byPayment r' = byPayment r → byAllocation r' = byAllocation r →
    reversed r ⊆ reversed r' → store r' = store r → quiet may r r'
| quiet_state p (c : Claim) st :
    byPayment r !! p = Some c → may c st →
    byPayment r' = <[p := with_state st c]> (byPayment r) → byAllocation r' = byAllocation r →
    reversed r ⊆ reversed r' → store r' = store r → quiet may r r'.

Lemma quiet_effect may r r' : quiet may r r' → effect may r r'.
Proof. destruct 1; [by apply eff_same|by eapply eff_state]. Qed.

Definition canonical_move (c : Claim) (st : string) : Prop :=
  Mode c ≠ ModeSyntheticProjection ∧ allowedCanonicalTransition (State c) st = true.

Lemma canonical_not_synthetic c :
  Mode c = ModeCanonicalGateway → Mode c ≠ ModeSyntheticProjection.
Proof. by intros ->. Qed.

Ltac same := first [apply eff_same | apply quiet_same]; simpl; [done|done|set_solver|done..].

Lemma resolve_with_cases f c dis b r r' c' (w : W) :
  (resolve_with f c dis b r r' c' w).1.1 = r ∨ (resolve_with f c dis b r r' c' w).1.1 = r'.
Proof.
  unfold resolve_with. destruct f as [f|]; [|by left].
  destruct (f c dis b w) as [w' [[]|e]]; [by right|by left].
Qed.

Lemma owner_guard (o : option string) p :
  match o with Some owner => owner <>s p | None => false end = false →
  ∀ q, o = Some q → q = p.
Proof. intros Hg q ->. by bool_facts. Qed.

Lemma ClaimMode_effect p a m d v e t r may : effect may r (ClaimMode p a m d v e t r).1.
Proof.
  unfold ClaimMode. destruct (_ || _); [same|]. destruct (bool_decide _); [same|].
  destruct (byPayment r !! p) as [c|] eqn:Hp; [destruct (_ && _); same|].
  destruct (match byAllocation r !! a with Some _ => _ | None => _ end) eqn:Ho; [same|].
  destruct (ClaimSynthetic _ _) as [s' [b|err]]; [|same].
  eapply (eff_claim _ _ _ (mkClaim ("phase7b:" +:+ a) p a m d "" v e (Time.UTC t)));
    simpl; try done. by apply owner_guard.
Qed.

Lemma ClaimModeWithCommit_effect p a m d v e t f r (w : W) may :
  effect may r (ClaimModeWithCommit p a m d v e t f r w).1.1.
Proof.
  unfold ClaimModeWithCommit. destruct f as [f|]; [|same]. destruct (_ || _); [same|].
  destruct (bool_decide _); [same|]. destruct (has_key _ p) eqn:Hp; [same|].
  destruct (has_key _ a) eqn:Ha; [same|]. apply has_key_false in Hp, Ha.
  destruct (ClaimCanonical _ _ _ _) as [[s' w'] [[]|err]]; [|same].
  eapply (eff_claim _ _ _
    (mkClaim ("phase7c:" +:+ a) p a m d CanonicalPrepared v e (Time.UTC t))); simpl; try done.
  intros o. congruence.
Qed.

Lemma TransitionWithCommit_quiet p a d x y f r (w : W) :
  quiet canonical_move r (TransitionWithCommit p a d x y f r w).1.1.
Proof.
  unfold TransitionWithCommit. destruct f as [f|]; [|same]. destruct (_ || _); [same|].
  destruct (byPayment r !! p) as [c|] eqn:Hp; [|same].
  destruct ((Mode c <>s _) || _ || _ || _ || _) eqn:Hg; [same|]. bool_facts.
  destruct (f _ w) as [w' [[]|err]]; [|same].
  eapply (quiet_state _ _ _ p c y); simpl; try done. split; [by apply canonical_not_synthetic|congruence].
Qed.

Lemma HandleReversal_quiet p f r (w : W) :
  quiet canonical_move r (HandleReversalWithCommit p f r w).1.1.
Proof.
  unfold HandleReversalWithCommit. destruct (empty_s p); [same|].
  destruct (byPayment r !! p) as [c|] eqn:Hp.
  2: { edestruct resolve_with_cases as [-> | ->]; same. }
  destruct (String.eqb_spec (Mode c) ModeSyntheticProjection).
  { edestruct resolve_with_cases as [-> | ->]; same. }
  destruct (_ || _) eqn:Hs.
  { edestruct resolve_with_cases as [-> | ->]; [same|].
    eapply (quiet_state _ _ _ p c); try done. split; [done|].
    apply orb_true_iff in Hs as [Hs|Hs]; bool_facts; by rewrite Hs. }
  destruct (String.eqb_spec (State c) CanonicalSubmitted) as [Hst|].
  { edestruct resolve_with_cases as [-> | ->]; [same|].
    eapply (quiet_state _ _ _ p c); try done. split; [done|]. by rewrite Hst. }
  destruct (State c =s CanonicalQuarantined); [same|].
  destruct (String.eqb_spec (State c) CanonicalConfirmed) as [Hst|].
  { edestruct resolve_with_cases as [-> | ->]; [same|].
    eapply (quiet_state _ _ _ p c); try done. split; [done|]. by rewrite Hst. }
  destruct (State c =s CanonicalIncident); same.
Qed.

Lemma Resolve_quiet c f r (w : W) :
  quiet canonical_move r (ResolveQuarantinedReversal c f r w).1.1.
Proof.
  unfold ResolveQuarantinedReversal. destruct f as [f|]; [|same].
  destruct (byPayment r !! PaymentID c) as [x|] eqn:Hp; [|same].
  destruct (_ || _) eqn:Hg; [same|]. unfold sameClaim in Hg. bool_facts.
  destruct (f w) as [w' [[]|err]]; [|same].
  eapply (quiet_state _ _ _ (PaymentID c) x CanonicalFailed); simpl; try done.
  - split; [by apply canonical_not_synthetic|]. by rewrite H1.
  - congruence.
  - set_solver.
Qed.

Lemma RestoreTombstone_quiet p r : quiet canonical_move r (RestoreTombstone p r).1.
Proof. unfold RestoreTombstone. destruct (empty_s p); same. Qed.

Lemma Restore_effect c b r : effect (λ _ _, True) r (Restore c b r).1.
Proof.
  unfold Restore. destruct (_ || _); [same|].
  destruct (byPayment r !! PaymentID c) as [x|] eqn:Hp.
  - destruct (_ || _); [same|].
    apply (eff_state _ _ _ (PaymentID c) x (State c)); destruct b; simpl; set_solver.
  - destruct (match byAllocation r !! AllocationID c with Some _ => _ | None => _ end) eqn:Ho;
      [same|].
    apply (eff_claim _ _ _ c); try (by apply owner_guard); destruct b; simpl; set_solver.
Qed.

Lemma live_step_effect r r' : live_step r r' → effect canonical_move r r'.
Proof.
  destruct 1.
  - apply ClaimMode_effect.
  - apply ClaimModeWithCommit_effect.
  - apply quiet_effect, TransitionWithCommit_quiet.
  - apply quiet_effect, HandleReversal_quiet.
  - apply quiet_effect, Resolve_quiet.
  - apply quiet_effect, RestoreTombstone_quiet.
Qed.

Lemma effect_weaken may r r' : effect may r r' → effect (λ _ _, True) r r'.
Proof. destruct 1; [by apply eff_same|by eapply eff_claim|by eapply eff_state]. Qed.

Lemma step_effect r r' : step r r' → effect (λ _ _, True) r r'.
Proof.
  destruct 1; [by eapply effect_weaken, live_step_effect|apply Restore_effect].
Qed.

(** * The latch invariant *)

(** The claim without its state: what may never change. *)
Definition identity (c : Claim) : Claim := with_state "" c.

Record latch_inv r : Prop := {
  li_payment p c : byPayment r !! p = Some c →
    PaymentID c = p ∧ byAllocation r !! AllocationID c = Some p;
  li_allocation a p : byAllocation r !! a = Some p →
    ∃ c, byPayment r !! p = Some c ∧ AllocationID c = a }.

Lemma effect_inv may r r' : effect may r r' → latch_inv r → latch_inv r'.
Proof.
  intros [Hp Ha _|c Hc Ho Hp Ha _|p c st Hc _ Hp Ha _] [I1 I2]; constructor; rewrite Hp, Ha.
  - apply I1.
  - apply I2.
  - intros q x [[<- <-]|[Hne Hq]]%lookup_insert_Some; [by rewrite lookup_insert_eq|].
    destruct (I1 q x Hq) as [Hx Hax]. split; [done|].
    rewrite lookup_insert_ne; [done|]. intros E. rewrite <- E in Hax.
    apply Ho in Hax. congruence.
  - intros a q [[<- <-]|[Hne Hq]]%lookup_insert_Some.
    { exists c. by rewrite lookup_insert_eq. }
    destruct (I2 a q Hq) as (x & Hx & Hax). exists x. split; [|done].
    rewrite lookup_insert_ne; [done|]. congruence.
  - intros q x [[<- <-]|[Hne Hq]]%lookup_insert_Some; [by apply I1 in Hc|by apply I1].
  - intros a q Hq. destruct (I2 a q Hq) as (x & Hx & Hax).
    destruct (decide (p = q)) as [<-|Hne].
    + exists (with_state st c). rewrite lookup_insert_eq. split; [done|]. simpl. congruence.
    + exists x. by rewrite lookup_insert_ne.
Qed.

Lemma load_loop_effect l r r' :
  load_loop l r = Ok r' → latch_inv r → latch_inv r' ∧ store r' = store r.
Proof.
  revert r. induction l as [|c l IH]; intros r Hl I; simpl in Hl; [by simplify_eq|].
  destruct (negb _); [done|]. destruct (has_key _ (PaymentID c)) eqn:Hp; [done|].
  destruct (has_key _ (AllocationID c)) eqn:Ha; [done|]. apply has_key_false in Hp, Ha.
  apply IH in Hl; [done|]. eapply (effect_inv (λ _ _, True) r); [|done].
  apply (eff_claim _ _ _ c); simpl; try done. intros o. congruence.
Qed.

Lemma empty_latch_inv s : latch_inv (mkRegistry ∅ ∅ ∅ s).
Proof. constructor; simpl; intros *; by rewrite lookup_empty. Qed.

Lemma New_latch_inv s r : New (Some s) = Ok r → latch_inv r ∧ store r = s.
Proof.
  unfold New. destruct (LoadClaims s) as [l|]; [|done]. intros Hl.
  apply load_loop_effect in Hl; [done|apply empty_latch_inv].
Qed.

Lemma reachable_latch_inv r : reachable r → latch_inv r.
Proof.
  induction 1 as [s r Hn|r r' _ IH Hs]; [by apply New_latch_inv in Hn as [? _]|].
  by eapply effect_inv; [apply step_effect|].
Qed.

(** Claims keep their identity and tombstones stay. *)
Lemma effect_keeps may r r' p c :
  effect may r r' → byPayment r !! p = Some c →
  ∃ c', byPayment r' !! p = Some c' ∧ identity c' = identity c.
Proof.
  intros [Hp _ _|x Hx _ Hp _ _|q x st Hx _ Hp _ _] Hc; rewrite Hp; [by exists c| |].
  - exists c. split; [|done]. rewrite lookup_insert_ne; [done|]. congruence.
  - destruct (decide (q = p)) as [-> |]; [|exists c; by rewrite lookup_insert_ne].
    exists (with_state st x). rewrite lookup_insert_eq. split; [done|]. by simplify_eq.
Qed.

Lemma effect_tombstones may r r' : effect may r r' → reversed r ⊆ reversed r'.
Proof. by destruct 1. Qed.

Lemma steps_keep r r' :
  rtc step r r' →
  reversed r ⊆ reversed r' ∧
  ∀ p c, byPayment r !! p = Some c → ∃ c', byPayment r' !! p = Some c' ∧ identity c' = identity c.
Proof.
  induction 1 as [r|r r1 r' Hs _ [IH1 IH2]]; [split; [done|eauto]|].
  apply step_effect in Hs. split; [pose proof (effect_tombstones _ _ _ Hs); set_solver|].
  intros p c Hc. destruct (effect_keeps _ _ _ _ _ Hs Hc) as (c1 & Hc1 & E1).
  destruct (IH2 _ _ Hc1) as (c' & Hc' & E2). exists c'. by rewrite E2.
Qed.

(** An allocation's owner never changes. *)
Lemma effect_owner may r r' a p :
  effect may r r' → latch_inv r → byAllocation r !! a = Some p → byAllocation r' !! a = Some p.
Proof.
  intros He I Ha. destruct (li_allocation _ I a p Ha) as (c & Hc & <-).
  destruct (effect_keeps _ _ _ _ _ He Hc) as (c' & Hc' & E).
  destruct (li_payment _ (effect_inv _ _ _ He I) p c' Hc') as [_ Ha'].
  apply (f_equal AllocationID) in E. simpl in E. congruence.
Qed.

Lemma ClaimMode_step p a m d v e t r r' res :
  ClaimMode p a m d v e t r = (r', res) → step r r'.
Proof.
  intros Hc. replace r' with (ClaimMode p a m d v e t r).1 by (by rewrite Hc).
  apply step_live, step_claim.
Qed.

(** A successful synthetic claim is published under both identities. *)
Lemma ClaimMode_Ok p a m d v e t r r' c b :
  latch_inv r → ClaimMode p a m d v e t r = (r', Ok (c, b)) →
  latch_inv r' ∧ Lookup p r' = Some c ∧ AllocationID c = a ∧ Mode c = ModeSyntheticProjection ∧
  Digest c = d ∧ byAllocation r' !! a = Some p.
Proof.
  intros I Hc. assert (latch_inv r') as I'.
  { pose proof (ClaimMode_effect p a m d v e t r (λ _ _, True)) as He. rewrite Hc in He.
    by eapply effect_inv. }
  assert (Lookup p r' = Some c ∧ AllocationID c = a ∧ Mode c = ModeSyntheticProjection ∧
          Digest c = d) as (Hl & Ha & Hm & Hd).
  { unfold ClaimMode in Hc. destruct (_ || _) eqn:Hg; [done|]. bool_facts.
    destruct (bool_decide _); [done|]. unfold Lookup.
    destruct (byPayment r !! p) as [x|] eqn:Hx.
    - destruct (_ && _) eqn:Hs; [|done]. unfold sameClaim in Hs. bool_facts. simplify_eq.
      by split_and!.
    - destruct (match byAllocation r !! a with Some _ => _ | None => _ end); [done|].
      destruct (ClaimSynthetic _ _) as [s' [b'|]]; [|done]. simplify_eq. simpl.
      by rewrite lookup_insert_eq. }
  destruct (li_payment _ I' p c Hl) as [_ Hb]. rewrite Ha in Hb. by split_and!.
Qed.

(** C3: the mode latch. In every registry reached by any sequence of calls,
    with any callbacks, two payments never own the same allocation; and
    whatever calls follow, a claim once made keeps its payment, allocation,
    mode, digest, version, evidence and time, only its state may change. A
    payment therefore never moves from one allocation mode to the other. *)
Theorem claim_latched r r' p c :
  reachable r → rtc step r r' → byPayment r !! p = Some c →
  (∃ c', byPayment r' !! p = Some c' ∧ identity c' = identity c) ∧
  (∀ q d, byPayment r' !! q = Some d → AllocationID d = AllocationID c → q = p).
Proof.
  intros Hr Hs Hc. destruct (steps_keep r r' Hs) as [_ Hk].
  destruct (Hk p c Hc) as (c' & Hc' & E). split; [eauto|]. intros q d Hq Ha.
  assert (latch_inv r') as I.
  { apply reachable_latch_inv. clear -Hr Hs. induction Hs; [done|]. by apply IHHs, (reach_step x). }
  destruct (li_payment _ I q d Hq) as [_ Hq']. destruct (li_payment _ I p c' Hc') as [_ Hp'].
  assert (AllocationID c' = AllocationID c) by (by apply (f_equal AllocationID) in E).
  congruence.
Qed.

(** A reversal tombstone is permanent. Once a payment is reversed, no
    later call removes the mark, and every attempt to claim the payment in
    either mode fails, leaves the registry unchanged and does not run the
    commit callback. *)
Theorem tombstone_blocks_claims r r' p :
  p ∈ reversed r → rtc step r r' →
  IsReversed p r' = true ∧
  (∀ a m d v e t, ∃ err, ClaimMode p a m d v e t r' = (r', Err err)) ∧
  (∀ a m d v e t f w, ∃ err, ClaimModeWithCommit p a m d v e t f r' w = (r', w, Err err)).
Proof.
  intros Hp Hs. destruct (steps_keep r r' Hs) as [Hsub _].
  assert (p ∈ reversed r') as Hp' by set_solver.
  unfold IsReversed, ClaimMode, ClaimModeWithCommit. rewrite (bool_decide_eq_true_2 _ Hp').
  split; [done|]. split.
  - intros. destruct (_ || _); eauto.
  - intros a m d v e t [f|] w; [destruct (_ || _)|]; eauto.
Qed.

(** Canonical claims move only along the code's transition table. Between
    any two states of a live registry one call apart, a claim is unchanged or
    it is not a synthetic claim and takes one allowed transition; in particular
    an incident is final. *)
Theorem transitions_allowed r r' p c c' :
  live_step r r' → byPayment r !! p = Some c → byPayment r' !! p = Some c' →
  c' = c ∨
  (Mode c ≠ ModeSyntheticProjection ∧ State c ≠ CanonicalIncident ∧
   allowedCanonicalTransition (State c) (State c') = true ∧ c' = with_state (State c') c).
Proof.
  intros Hs Hc Hc'. destruct (live_step_effect _ _ Hs) as
    [Hp _ _|x Hx _ Hp _ _|q x st Hx [Hm Ha] Hp _ _]; rewrite Hp in Hc'.
  - left. congruence.
  - left. rewrite lookup_insert_ne in Hc' by congruence. congruence.
  - apply lookup_insert_Some in Hc' as [[-> <-]|[_ Hq]]; [|left; congruence].
    simplify_eq. right. split_and!; try done. intros E. rewrite E in Ha. done.
Qed.

(** Commit before publish. A canonical claim or transition that is
    reported as done ran the callback exactly once, on the record it returns,
    and the callback succeeded; a call that reports an error leaves the
    published claims, allocations and tombstones as they were. *)
Theorem commit_before_publish `{!ClaimStoreLaws W S} r (w : W) p a m d v e t x y f :
  store_ok (store r) →
  let '(r1, w1, res1) := ClaimModeWithCommit p a m d v e t (Some f) r w in
  let '(r2, w2, res2) := TransitionWithCommit p a d x y (Some f) r w in
  (match res1 with
   | Ok c => f c w = (w1, Ok tt) ∧ Lookup p r1 = Some c ∧ State c = CanonicalPrepared
   | Err _ => byPayment r1 = byPayment r ∧ byAllocation r1 = byAllocation r ∧
              reversed r1 = reversed r
   end) ∧
  (match res2 with
   | Ok c => f c w = (w2, Ok tt) ∧ Lookup p r2 = Some c ∧ State c = y
   | Err _ => r2 = r
   end).
Proof.
  intros Hok.
  destruct (ClaimModeWithCommit p a m d v e t (Some f) r w) as [[r1 w1] res1] eqn:E1.
  destruct (TransitionWithCommit p a d x y (Some f) r w) as [[r2 w2] res2] eqn:E2. split.
  - unfold ClaimModeWithCommit in E1. destruct (_ || _); [by simplify_eq|].
    destruct (bool_decide _); [by simplify_eq|]. do 2 (destruct (has_key _ _); [by simplify_eq|]).
    destruct (ClaimCanonical _ _ _ _) as [[s' w'] [[]|err]] eqn:Hc; simplify_eq; [|done].
    apply canonical_Ok in Hc as (Hf & _); [|done]. unfold Lookup. simpl.
    by rewrite lookup_insert_eq.
  - unfold TransitionWithCommit in E2. destruct (_ || _); [by simplify_eq|].
    destruct (byPayment r !! p) as [c|]; [|by simplify_eq].
    destruct ((Mode c <>s _) || _ || _ || _ || _); [by simplify_eq|].
    destruct (f _ w) as [w' [[]|err]] eqn:Hf; simplify_eq; [|done].
    unfold Lookup. simpl. by rewrite lookup_insert_eq.
Qed.
End Effects.

(** * Durable claims and restart *)

Section Restart.
Context {W S : Type} `{ClaimStoreLaws W S}.
Implicit Types (r : Registry S).

(** The published claims are the durable ones, up to their states. *)
Definition linked r : Prop :=
  store_ok (store r) ∧
  ∀ p, identity <$> byPayment r !! p = identity <$> durable (store r) !! p.

Lemma same_identity c d : sameDurableClaim c d = true → identity c = identity d.
Proof.
  unfold sameDurableClaim, identity, with_state. intros E%bool_decide_eq_true. injection E. intros. congruence.
Qed.

Lemma fmap_insert_identity (m1 m2 : gmap string Claim) k c d :
  identity c = identity d → (∀ p, identity <$> m1 !! p = identity <$> m2 !! p) →
  ∀ p, identity <$> <[k := c]> m1 !! p = identity <$> <[k := d]> m2 !! p.
Proof.
  intros E Hm p. destruct (decide (k = p)) as [-> |].
  - rewrite !lookup_insert_eq. simpl. by rewrite E.
  - by rewrite !lookup_insert_ne.
Qed.

Lemma quiet_linked may r r' : quiet may r r' → linked r → linked r'.
Proof.
  intros [Hp _ _ Hst|q c st Hc _ Hp _ _ Hst] [Hok Hl]; split; rewrite Hst; try done; rewrite Hp;
    [done|]. intros p. rewrite <- Hl. destruct (decide (q = p)) as [-> |].
  - by rewrite lookup_insert_eq, Hc.
  - by rewrite lookup_insert_ne.
Qed.

Lemma live_step_linked r r' : live_step r r' → linked r → linked r'.
Proof.
  destruct 1 as [p a m d v e t r|p a m d v e t f r w|p a d x y f r w|p f r w|c f r w|p r];
    [| |apply quiet_linked with canonical_move..].
  - intros [Hok Hl]. unfold ClaimMode. destruct (_ || _); [done|]. destruct (bool_decide _); [done|].
    destruct (byPayment r !! p) as [c|]; [by destruct (_ && _)|].
    destruct (match byAllocation r !! a with Some _ => _ | None => _ end); [done|].
    destruct (ClaimSynthetic _ _) as [s' [b|err]] eqn:Hc.
    + apply synthetic_Ok in Hc as [Hok' Hd]; [|done]. split; [done|]. simpl. rewrite Hd. simpl.
      by apply fmap_insert_identity.
    + apply synthetic_Err in Hc as [Hok' Hd]; [|done]. split; [done|]. simpl. by rewrite Hd.
  - intros [Hok Hl]. unfold ClaimModeWithCommit. destruct f as [f|]; [|done].
    destruct (_ || _); [done|]. destruct (bool_decide _); [done|].
    do 2 (destruct (has_key _ _); [done|]).
    destruct (ClaimCanonical _ _ _ _) as [[s' w'] [[]|err]] eqn:Hc.
    + apply canonical_Ok in Hc as (_ & Hok' & c & Hs & Hd); [|done].
      split; [done|]. simpl. rewrite Hd. simpl. apply fmap_insert_identity; [|done].
      symmetry. by apply same_identity.
    + apply canonical_Err in Hc as (Hok' & Hd & _); [|done]. split; [done|]. simpl. by rewrite Hd.
  - apply TransitionWithCommit_quiet.
  - apply HandleReversal_quiet.
  - apply Resolve_quiet.
  - apply RestoreTombstone_quiet.
Qed.

(** Loading valid claims with distinct payments and allocations succeeds and
    publishes exactly those claims. *)
Lemma load_loop_Ok l r :
  Forall (λ c, validDurableClaim c = true) l →
  NoDup (PaymentID <$> l) → NoDup (AllocationID <$> l) →
  (∀ c, c ∈ l → byPayment r !! PaymentID c = None ∧ byAllocation r !! AllocationID c = None) →
  ∃ r', load_loop l r = Ok r' ∧ store r' = store r ∧
    ∀ p c, byPayment r' !! p = Some c ↔ byPayment r !! p = Some c ∨ (c ∈ l ∧ PaymentID c = p).
Proof.
  revert r. induction l as [|c l IH]; intros r Hv Hp Ha Hf; simpl.
  { exists r. split_and!; [done|done|]. set_solver. }
  apply Forall_cons in Hv as [Hvc Hv]. rewrite fmap_cons in Hp, Ha.
  apply NoDup_cons in Hp as [Hpc Hp], Ha as [Hac Ha].
  destruct (Hf c) as [H1 H2]; [set_solver|]. rewrite Hvc. simpl.
  rewrite (proj2 (has_key_false _ _) H1), (proj2 (has_key_false _ _) H2).
  destruct (IH (mkRegistry (<[PaymentID c := c]> (byPayment r))
                 (<[AllocationID c := PaymentID c]> (byAllocation r)) (reversed r) (store r)))
    as (r' & Hr' & Hst & Hb); try done.
  { intros d Hd. simpl. rewrite !lookup_insert_ne.
    - apply Hf. set_solver.
    - intros E. apply Hac. rewrite E. by apply list_elem_of_fmap_2.
    - intros E. apply Hpc. rewrite E. by apply list_elem_of_fmap_2. }
  exists r'. split_and!; try done. intros p d. rewrite Hb. simpl. rewrite lookup_insert_Some.
  rewrite elem_of_cons. split.
  - intros [[[<- <-]|[_ ?]]|[? ?]]; auto.
  - intros [?|[[-> |?] ?]]; auto. left. right. split; [congruence|done].
Qed.

Lemma New_linked s : store_ok s → ∃ r, New (Some s) = Ok r ∧ linked r ∧ byPayment r = durable s.
Proof.
  intros Hok. unfold New. destruct (load_Ok s Hok) as (l & -> & Hl).
  assert (∀ c, c ∈ l ↔ durable s !! PaymentID c = Some c) as Hin.
  { intros c. rewrite Hl, list_elem_of_fmap. split.
    - intros ([p d] & -> & Hd%elem_of_map_to_list). simpl.
      by destruct (durable_valid s p d Hok Hd) as [-> _].
    - intros Hc. exists (PaymentID c, c). split; [done|]. by apply elem_of_map_to_list. }
  assert (NoDup (PaymentID <$> l)) as Hnd.
  { rewrite Hl, <- list_fmap_compose.
    rewrite (list_fmap_ext _ fst (map_to_list (durable s))) by
      (intros i [p c] Hi%list_elem_of_lookup_2%elem_of_map_to_list;
       by destruct (durable_valid s p c Hok Hi)).
    apply NoDup_fst_map_to_list. }
  destruct (load_loop_Ok l (mkRegistry ∅ ∅ ∅ s)) as (r & Hr & Hst & Hb).
  - apply Forall_forall. intros c Hc%Hin. by destruct (durable_valid s _ c Hok Hc).
  - done.
  - apply NoDup_alt. intros i j a Hi Hj.
    rewrite list_lookup_fmap_Some in Hi, Hj. destruct Hi as (c & -> & Hc), Hj as (d & E & Hd).
    pose proof (proj1 (Hin c) (list_elem_of_lookup_2 _ _ _ Hc)) as Dc.
    pose proof (proj1 (Hin d) (list_elem_of_lookup_2 _ _ _ Hd)) as Dd.
    pose proof (durable_alloc_inj s _ _ c d Hok Dc Dd E) as Ep.
    rewrite NoDup_alt in Hnd. apply (Hnd i j (PaymentID c)); rewrite list_lookup_fmap.
    + by rewrite Hc.
    + by rewrite Hd, Ep.
  - intros c _. simpl. by rewrite !lookup_empty.
  - exists r. split; [done|]. assert (byPayment r = durable s) as Hbp.
    { apply map_eq. intros p. apply option_eq. intros c. rewrite Hb. simpl.
      rewrite lookup_empty, Hin. split; [intros [?|[? <-]]; done|]. intros Hd. right.
      by destruct (durable_valid s p c Hok Hd) as [-> _]. }
    split; [|done]. simpl in Hst. split; rewrite Hst; [done|]. by rewrite Hbp.
Qed.

(** Claims survive a restart. For a store that keeps its promises, start a
    registry from it, run any sequence of live calls, drop the registry and
    start a new one from the store: construction succeeds and every payment has
    exactly the claim it had, up to the state the coordinator owns. *)
Theorem restart_preserves_claims (s : S) :
  store_ok s →
  ∃ r0, New (Some s) = Ok r0 ∧
    ∀ r, rtc live_step r0 r →
      ∃ r', New (Some (store r)) = Ok r' ∧
        ∀ p, identity <$> Lookup p r' = identity <$> Lookup p r.
Proof.
  intros Hok. destruct (New_linked s Hok) as (r0 & Hn & Hl0 & _). exists r0. split; [done|].
  intros r Hs. assert (linked r) as [Hokr Hl].
  { clear Hn. induction Hs; [done|]. by apply IHHs, (live_step_linked x). }
  destruct (New_linked (store r) Hokr) as (r' & Hr' & _ & Hb). exists r'. split; [done|].
  intros p. unfold Lookup. by rewrite Hb, Hl.
Qed.
End Restart.

(** * The memory store keeps its promises *)

Definition memory_ok (s : MemoryStore) : Prop :=
  (∀ p c, claims s !! p = Some c → PaymentID c = p ∧ validDurableClaim c = true) ∧
  (∀ p q c d, claims s !! p = Some c → claims s !! q = Some d →
     AllocationID c = AllocationID d → p = q).

Lemma allocation_owned_false a m :
  allocation_owned a m = false → ∀ p c, m !! p = Some c → AllocationID c ≠ a.
Proof.
  unfold allocation_owned. intros Ho p c Hc E.
  assert (existsb (λ '(_, existing), AllocationID existing =s a) (map_to_list m) = true); [|congruence].
  apply existsb_exists. exists (p, c). split; [|by apply String.eqb_eq].
  by apply list_elem_of_In, elem_of_map_to_list.
Qed.

Lemma memory_ok_insert s c :
  memory_ok s → validDurableClaim c = true → claims s !! PaymentID c = None →
  allocation_owned (AllocationID c) (claims s) = false →
  memory_ok (mkMemoryStore (<[PaymentID c := c]> (claims s))).
Proof.
  intros [I1 I2] Hv Hn Ho. pose proof (allocation_owned_false _ _ Ho) as Hfree. split; simpl.
  - intros p x [[<- <-]|[_ Hx]]%lookup_insert_Some; [done|by apply I1].
  - intros p q x y [[<- <-]|[_ Hx]]%lookup_insert_Some [[<- <-]|[_ Hy]]%lookup_insert_Some E;
      [done| | |by eapply I2].
    + by destruct (Hfree q y Hy).
    + by destruct (Hfree p x Hx).
Qed.

#[export] Instance memory_store_laws (W : Type) : ClaimStoreLaws W MemoryStore.
Proof.
  refine (@Build_ClaimStoreLaws W MemoryStore _ claims memory_ok _ _ _ _ _ _ _).
  - intros s p c [I _]. apply I.
  - intros s p q c d [_ I]. apply I.
  - intros c s s' b Hok. simpl. unfold memory_ClaimSynthetic.
    destruct (_ || _) eqn:Hg; [done|]. bool_facts.
    destruct (claims s !! PaymentID c) as [x|] eqn:Hx.
    + destruct (bool_decide_reflect (x = c)) as [-> |]; [|done]. intros [= <- <-].
      by rewrite insert_id.
    + destruct (allocation_owned _ _) eqn:Ho; [done|]. intros [= <- <-].
      split; [by apply memory_ok_insert|done].
  - intros c s s' e Hok. simpl. unfold memory_ClaimSynthetic. intros Hs. by go_inv Hs.
  - intros c f s w s' w' Hok. simpl. unfold memory_ClaimCanonical.
    destruct (_ || _) eqn:Hg; [done|]. bool_facts.
    destruct (claims s !! PaymentID c) as [x|] eqn:Hx.
    + destruct (sameDurableClaim x c) eqn:Hsame; [|done].
      destruct (f w) as [w1 res]. intros [= <- <- ->]. split_and!; try done.
      exists x. by rewrite insert_id.
    + destruct (allocation_owned _ _) eqn:Ho; [done|].
      destruct (f w) as [w1 [[]|err]]; [|done]. intros [= <- <-].
      split_and!; [done|by apply memory_ok_insert|]. exists c. split; [|done].
      by apply bool_decide_eq_true.
  - intros c f s w s' w' e Hok. simpl. unfold memory_ClaimCanonical.
    destruct (_ || _); [intros [= <- <- <-]; auto|].
    destruct (claims s !! PaymentID c) as [x|].
    + destruct (sameDurableClaim x c); [|intros [= <- <- <-]; auto].
      destruct (f w) as [w1 res]. intros [= <- <- ->]. split_and!; eauto.
    + destruct (allocation_owned _ _); [intros [= <- <- <-]; auto|].
      destruct (f w) as [w1 [[]|err]]; [done|]. intros [= <- <- <-]. split_and!; eauto.
  - intros s _. simpl. unfold memory_LoadClaims. eexists. split; [done|]. apply sort_by_perm.
Defined.

(** * Concrete claims *)

Module Sample.
Definition t1 : Time.t := Time.mk 5 "".
Definition r0 : Registry MemoryStore := mkRegistry ∅ ∅ ∅ NewMemoryStore.
(** The external state counts commits. *)
Definition ok : Claim → callback Z := λ _ w, (w + 1, Ok tt).

Definition r1 : Registry MemoryStore := (ClaimMode (W := Z) "p1" "a1" ModeSyntheticProjection "d" 1 "e" t1 r0).1.
Definition r2 : Registry MemoryStore :=
  (ClaimModeWithCommit "p2" "a2" ModeCanonicalGateway "d" 1 "e" t1 (Some ok) r1 0).1.1.
Definition r3 : Registry MemoryStore :=
  (TransitionWithCommit "p2" "a2" "d" CanonicalPrepared CanonicalSubmitted (Some ok) r2 0).1.1.
Definition r4 : Registry MemoryStore := (RestoreTombstone "p1" r3).1.

Definition c2 : Claim :=
  mkClaim "phase7c:a2" "p2" "a2" ModeCanonicalGateway "d" CanonicalPrepared 1 "e" t1.

Lemma r0_reachable : reachable (W := Z) r0.
Proof. apply (reach_new NewMemoryStore). vm_compute. reflexivity. Qed.
Lemma r1_reachable : reachable (W := Z) r1.
Proof. apply (reach_step r0); [apply r0_reachable|apply step_live, step_claim]. Qed.
Lemma r2_reachable : reachable (W := Z) r2.
Proof. apply (reach_step r1); [apply r1_reachable|apply step_live, step_claim_commit]. Qed.

Lemma claim_latched_witness :
  ∃ c', byPayment r4 !! "p2" = Some c' ∧ identity c' = identity c2.
Proof.
  refine (proj1 (claim_latched (W := Z) r2 r4 "p2" c2 r2_reachable _ _)); [|reflexivity].
  apply (rtc_l _ r2 r3); [apply step_live, step_transition|].
  apply rtc_once. apply step_live, step_tombstone.
Defined.

Lemma tombstone_blocks_claims_witness : IsReversed "p1" r4 = true.
Proof.
  refine (proj1 (tombstone_blocks_claims (W := Z) r4 r4 "p1" _ _)); [vm_compute; reflexivity|].
  apply rtc_refl.
Defined.

Lemma transitions_allowed_witness :
  allowedCanonicalTransition (State c2) CanonicalSubmitted = true.
Proof.
  destruct (transitions_allowed (W := Z) r2 r3 "p2" c2 (with_state CanonicalSubmitted c2))
    as [E|(_ & _ & Ha & _)];
    [apply step_transition|reflexivity|reflexivity|discriminate E|exact Ha].
Defined.

Lemma empty_store_ok : store_ok (W := Z) NewMemoryStore.
Proof.
  split; [intros p c Hc|intros p q c d Hc]; change (claims NewMemoryStore) with
    (∅ : gmap string Claim) in Hc; by rewrite lookup_empty in Hc.
Qed.

Lemma commit_before_publish_witness :
  ok c2 0 = (1, Ok tt) ∧
  Lookup "p2" (ClaimModeWithCommit "p2" "a2" ModeCanonicalGateway "d" 1 "e" t1 (Some ok) r0 0).1.1
    = Some c2.
Proof.
  destruct (commit_before_publish r0 0 "p2" "a2" ModeCanonicalGateway "d" 1 "e" t1
              CanonicalPrepared CanonicalSubmitted ok empty_store_ok) as [(H1 & H2 & _) _].
  split; [exact H1|exact H2].
Defined.

Lemma restart_preserves_claims_witness :
  ∃ r', New (W := Z) (Some (store r2)) = Ok r' ∧
    ∀ p, identity <$> Lookup p r' = identity <$> Lookup p r2.
Proof.
  destruct (restart_preserves_claims (W := Z) NewMemoryStore empty_store_ok) as (r & Hr & Hall).
  assert (r = r0) as -> by (vm_compute in Hr; injection Hr as <-; reflexivity).
  apply Hall. apply (rtc_l _ r0 r1); [apply step_claim|]. apply rtc_once. apply step_claim_commit.
Defined.
End Sample.
