(* ===== verification/Allocation.v ===== *)
(** The synthetic allocation engine ([payment-orchestrator/allocation]): final
    payments reduce obligations, reversals restore them.

    The engine holds pointers to two objects it shares with other services: the
    allocation-mode registry and the accounting service. Both are explicit in
    the state the operations thread ([System]); the accounting service is the
    interface [Accounting], so everything here holds for any implementation. *)
From S2P Require Import Prelude GoStd PaymentTypes AllocationMode.

(** * Data *)

(** [E] is the accounting service's error type; [PanicNil] is the nil
    dereference that an unparsable stored amount would cause. *)
Inductive error (E : Type) :=
| ErrInvalidObligation | ErrInvalidAllocation | ErrAllocationConflict | ErrInvalidReversal
| ErrAccounting (inner : E)
| PanicNil.
Arguments ErrInvalidObligation {E}. Arguments ErrInvalidAllocation {E}.
Arguments ErrAllocationConflict {E}. Arguments ErrInvalidReversal {E}.
Arguments ErrAccounting {E} _. Arguments PanicNil {E}.

Record Obligation := mkObligation {
  o_LoanID : string;
  o_BorrowerID : string;
  o_LenderID : string;
  o_AssetID : string;
  o_OutstandingPrincipalUnits : string;
  o_Version : Z;
  o_SourceAuthority : string;
  o_SourceEvidenceHash : string;
  o_AsOf : Time.t }.

Record FinalPayment := mkFinalPayment {
  fp_PaymentID : string;
  fp_ProviderID : string;
  fp_ProviderReference : string;
  fp_AssetID : string;
  fp_Units : string;
  fp_Status : string;
  fp_PaymentVersion : Z;
  fp_ReconciliationID : string;
  fp_DifferenceUnits : string;
  fp_UnmatchedItems : Z;
  fp_FinalityPolicyHash : string;
  fp_ReversalDeadline : Time.t;
  fp_EvidenceHash : string;
  fp_FinalizedAt : Time.t }.

Record Request := mkRequest {
  rq_AllocationID : string;
  rq_Payment : FinalPayment;
  rq_LoanID : string;
  rq_ExpectedObligationVersion : Z;
  rq_WaterfallPolicyHash : string;
  rq_CorrelationID : string;
  rq_EvidenceHash : string;
  rq_AllocatedAt : Time.t }.

Record Allocation := mkAllocation {
  al_AllocationID : string;
  al_PaymentID : string;
  al_LoanID : string;
  al_ProviderID : string;
  al_ProviderReference : string;
  al_AssetID : string;
  al_PaymentVersion : Z;
  al_PaymentEvidenceHash : string;
  al_PaymentFinalizedAt : Time.t;
  al_GrossUnits : string;
  al_PrincipalUnits : string;
  al_RefundableExcessUnits : string;
  al_DebtBeforeUnits : string;
  al_DebtAfterUnits : string;
  al_ObligationVersionBefore : Z;
  al_ObligationVersionAfter : Z;
  al_WaterfallPolicyHash : string;
  al_FinalityPolicyHash : string;
  al_ReconciliationID : string;
  al_ReversalDeadline : Time.t;
  al_CorrelationID : string;
  al_EvidenceHash : string;
  al_ClaimDigest : string;
  al_JournalIDs : list string;
  al_AllocatedAt : Time.t }.

Record ReversalRequest := mkReversalRequest {
  rr_ReversalID : string;
  rr_AllocationID : string;
  rr_PaymentID : string;
  rr_ExpectedObligationVersion : Z;
  rr_ProviderID : string;
  rr_ProviderReference : string;
  rr_Status : string;
  rr_ProviderEventID : string;
  rr_ReasonCode : string;
  rr_EvidenceHash : string;
  rr_ReversedAt : Time.t }.

Record Reversal := mkReversal {
  rv_ReversalID : string;
  rv_AllocationID : string;
  rv_PaymentID : string;
  rv_LoanID : string;
  rv_RestoredPrincipalUnits : string;
  rv_RemovedExcessUnits : string;
  rv_DebtBeforeUnits : string;
  rv_DebtAfterUnits : string;
  rv_ObligationVersionBefore : Z;
  rv_ObligationVersionAfter : Z;
  rv_ReasonCode : string;
  rv_EvidenceHash : string;
  rv_JournalIDs : list string;
  rv_ReversedAt : Time.t }.

Definition zeroObligation : Obligation := mkObligation "" "" "" "" "" 0 "" "" Time.zero.
Definition zeroAllocation : Allocation :=
  mkAllocation "" "" "" "" "" "" 0 "" Time.zero "" "" "" "" "" 0 0 "" "" "" Time.zero "" "" "" []
    Time.zero.

(** The accounting interface; [now] is the wall clock the implementation
    reads when it posts. *)
Class Accounting (A E : Type) := {
  ApplyAllocation : Time.t → Allocation → A → A * result E (list string);
  ReverseAllocation : Time.t → Allocation → ReversalRequest → A → A * result E (list string) }.

Record Engine := mkEngine {
  obligations : gmap string Obligation;
  allocations : gmap string Allocation;
  byPayment : gmap string string;
  reversals : gmap string Reversal }.

(** * Helpers *)

(** [(parsed, ok)]: the parsed integer is returned, and used by callers, even
    when [ok] is false. *)
Definition canonicalPositive (value : string) : option Z * bool :=
  (Big.set_string value, match Big.canonical_positive value with Some _ => true | None => false end).
Definition canonicalNonNegative (value : string) : option Z * bool :=
  (Big.set_string value, match Big.canonical_nonneg value with Some _ => true | None => false end).

Definition validObligation (obligation : Obligation) : bool :=
  (o_LoanID obligation <>s "") && (o_BorrowerID obligation <>s "") &&
  (o_LenderID obligation <>s "") && (o_AssetID obligation <>s "") &&
  (0 <? o_Version obligation) && (o_SourceAuthority obligation <>s "") &&
  (o_SourceEvidenceHash obligation <>s "") && negb (Time.IsZero (o_AsOf obligation)) &&
  (canonicalPositive (o_OutstandingPrincipalUnits obligation)).2.

Definition validFinalPayment (final : FinalPayment) : bool :=
  (fp_PaymentID final <>s "") && (fp_ProviderID final <>s "") &&
  (fp_ProviderReference final <>s "") && (fp_AssetID final <>s "") &&
  (fp_Status final =s StatusFinal) && (0 <? fp_PaymentVersion final) &&
  (fp_ReconciliationID final <>s "") &&
  (match canonicalNonNegative (fp_DifferenceUnits final) with
   | (Some difference, true) => difference =? 0
   | _ => false
   end) && (fp_UnmatchedItems final =? 0) &&
  (fp_FinalityPolicyHash final <>s "") && (fp_EvidenceHash final <>s "") &&
  negb (Time.IsZero (fp_FinalizedAt final)) &&
  Time.After (fp_ReversalDeadline final) (fp_FinalizedAt final) &&
  (canonicalPositive (fp_Units final)).2.

Definition requestMatchesAllocation (request : Request) (record : Allocation) : bool :=
  let final := rq_Payment request in
  (al_AllocationID record =s rq_AllocationID request) &&
  (al_PaymentID record =s fp_PaymentID final) && (al_LoanID record =s rq_LoanID request) &&
  (al_ProviderID record =s fp_ProviderID final) &&
  (al_ProviderReference record =s fp_ProviderReference final) &&
  (al_AssetID record =s fp_AssetID final) &&
  (al_PaymentVersion record =? fp_PaymentVersion final) &&
  (al_PaymentEvidenceHash record =s fp_EvidenceHash final) &&
  Time.Equal (al_PaymentFinalizedAt record) (Time.UTC (fp_FinalizedAt final)) &&
  (al_GrossUnits record =s fp_Units final) &&
  (al_ObligationVersionBefore record =? rq_ExpectedObligationVersion request) &&
  (al_WaterfallPolicyHash record =s rq_WaterfallPolicyHash request) &&
  (al_FinalityPolicyHash record =s fp_FinalityPolicyHash final) &&
  (al_ReconciliationID record =s fp_ReconciliationID final) &&
  Time.Equal (al_ReversalDeadline record) (Time.UTC (fp_ReversalDeadline final)) &&
  (al_CorrelationID record =s rq_CorrelationID request) &&
  (al_EvidenceHash record =s rq_EvidenceHash request) &&
  Time.Equal (al_AllocatedAt record) (Time.UTC (rq_AllocatedAt request)).

(** * Operations *)

Section Operations.
Context {W S A E : Type} `{ClaimStore W S, Accounting A E, Sha256, Json}.

Record System := mkSystem {
  engine : Engine;
  accounting : A;
  modes : Registry S }.

Fixpoint new_loop (l : list Obligation) (records : gmap string Obligation)
    : result (error E) (gmap string Obligation) :=
  match l with
  | [] => Ok records
  | obligation :: rest =>
      if negb (validObligation obligation) ||
         (o_LoanID (lookup_zero zeroObligation records (o_LoanID obligation)) <>s "")
      then Err ErrInvalidObligation
      else new_loop rest (<[o_LoanID obligation := obligation]> records)
  end.

Definition New (l : list Obligation) (accounting : option A) (modes : option (Registry S))
    : result (error E) System :=
  match accounting, modes with
  | Some accounting, Some modes =>
      if (length l =? 0)%nat then Err ErrInvalidObligation else
      let? records := new_loop l ∅ in
      Ok (mkSystem (mkEngine records ∅ ∅ ∅) accounting modes)
  | _, _ => Err ErrInvalidObligation
  end.

Definition CalculateAllocationID (request : Request) : string :=
  tagged_digest "UNIFIED_PHASE7B_ALLOCATION_V1"
    [("PaymentID", JString (fp_PaymentID (rq_Payment request)));
     ("LoanID", JString (rq_LoanID request));
     ("ObligationVersion", JUint (rq_ExpectedObligationVersion request));
     ("Units", JString (fp_Units (rq_Payment request)));
     ("WaterfallPolicyHash", JString (rq_WaterfallPolicyHash request));
     ("FinalityPolicyHash", JString (fp_FinalityPolicyHash (rq_Payment request)));
     ("EvidenceHash", JString (rq_EvidenceHash request))].

Definition allocationClaimDigest (record : Allocation) (final : FinalPayment)
    (obligation : Obligation) : string :=
  tagged_digest "UNIFIED_PHASE7B_MODE_CLAIM_V1"
    [("AllocationID", JString (al_AllocationID record));
     ("PaymentID", JString (al_PaymentID record));
     ("LoanID", JString (al_LoanID record));
     ("ProviderID", JString (al_ProviderID record));
     ("ProviderReference", JString (al_ProviderReference record));
     ("AssetID", JString (al_AssetID record));
     ("PaymentStatus", JString (fp_Status final));
     ("PaymentVersion", JUint (fp_PaymentVersion final));
     ("PaymentEvidenceHash", JString (fp_EvidenceHash final));
     ("PaymentFinalizedAt", JTime (Time.UTC (fp_FinalizedAt final)));
     ("ReconciliationDifferenceUnits", JString (fp_DifferenceUnits final));
     ("ReconciliationUnmatchedItems", JUint (fp_UnmatchedItems final));
     ("GrossUnits", JString (al_GrossUnits record));
     ("PrincipalUnits", JString (al_PrincipalUnits record));
     ("RefundableExcessUnits", JString (al_RefundableExcessUnits record));
     ("DebtBeforeUnits", JString (al_DebtBeforeUnits record));
     ("DebtAfterUnits", JString (al_DebtAfterUnits record));
     ("ObligationVersionBefore", JUint (al_ObligationVersionBefore record));
     ("ObligationVersionAfter", JUint (al_ObligationVersionAfter record));
     ("WaterfallPolicyHash", JString (al_WaterfallPolicyHash record));
     ("FinalityPolicyHash", JString (al_FinalityPolicyHash record));
     ("ReconciliationID", JString (al_ReconciliationID record));
     ("ReversalDeadline", JTime (Time.UTC (al_ReversalDeadline record)));
     ("CorrelationID", JString (al_CorrelationID record));
     ("EvidenceHash", JString (al_EvidenceHash record));
     ("AllocatedAt", JTime (Time.UTC (al_AllocatedAt record)));
     ("BorrowerID", JString (o_BorrowerID obligation));
     ("LenderID", JString (o_LenderID obligation));
     ("ObligationSourceAuthority", JString (o_SourceAuthority obligation));
     ("ObligationSourceEvidenceHash", JString (o_SourceEvidenceHash obligation));
     ("ObligationAsOf", JTime (Time.UTC (o_AsOf obligation)))].

(** The allocation record built for a payment of [gross] against [debt]. *)
Definition draft_allocation (request : Request) (obligation : Obligation)
    (gross principal excess debt after : Z) (digest : string) (journalIDs : list string)
    : Allocation :=
  let final := rq_Payment request in
  mkAllocation (rq_AllocationID request) (fp_PaymentID final) (rq_LoanID request)
    (fp_ProviderID final) (fp_ProviderReference final) (o_AssetID obligation)
    (fp_PaymentVersion final) (fp_EvidenceHash final) (Time.UTC (fp_FinalizedAt final))
    (Big.to_string gross) (Big.to_string principal) (Big.to_string excess)
    (Big.to_string debt) (Big.to_string after)
    (o_Version obligation) (u64 (o_Version obligation + 1))
    (rq_WaterfallPolicyHash request) (fp_FinalityPolicyHash final) (fp_ReconciliationID final)
    (Time.UTC (fp_ReversalDeadline final)) (rq_CorrelationID request) (rq_EvidenceHash request)
    digest journalIDs (Time.UTC (rq_AllocatedAt request)).

Definition with_journals (ids : list string) (a : Allocation) : Allocation :=
  mkAllocation (al_AllocationID a) (al_PaymentID a) (al_LoanID a) (al_ProviderID a)
    (al_ProviderReference a) (al_AssetID a) (al_PaymentVersion a) (al_PaymentEvidenceHash a)
    (al_PaymentFinalizedAt a) (al_GrossUnits a) (al_PrincipalUnits a) (al_RefundableExcessUnits a)
    (al_DebtBeforeUnits a) (al_DebtAfterUnits a) (al_ObligationVersionBefore a)
    (al_ObligationVersionAfter a) (al_WaterfallPolicyHash a) (al_FinalityPolicyHash a)
    (al_ReconciliationID a) (al_ReversalDeadline a) (al_CorrelationID a) (al_EvidenceHash a)
    (al_ClaimDigest a) ids (al_AllocatedAt a).

Definition move_obligation (obligation : Obligation) (units : Z) (asOf : Time.t)
    (authority evidence : string) : Obligation :=
  mkObligation (o_LoanID obligation) (o_BorrowerID obligation) (o_LenderID obligation)
    (o_AssetID obligation) (Big.to_string units) (u64 (o_Version obligation + 1))
    authority evidence (Time.UTC asOf).

Definition Allocate (now : Time.t) (request : Request) (sys : System)
    : System * result (error E) Allocation :=
  let final := rq_Payment request in
  let eng := engine sys in
  if empty_s (rq_AllocationID request) ||
     (rq_AllocationID request <>s CalculateAllocationID request) ||
     empty_s (rq_LoanID request) || empty_s (rq_WaterfallPolicyHash request) ||
     empty_s (rq_CorrelationID request) || empty_s (rq_EvidenceHash request) ||
     Time.IsZero (rq_AllocatedAt request) ||
     Time.Before (rq_AllocatedAt request) (fp_FinalizedAt final) ||
     negb (validFinalPayment final)
  then (sys, Err ErrInvalidAllocation)
  else match byPayment eng !! fp_PaymentID final with
  | Some allocationID =>
      let existing := lookup_zero zeroAllocation (allocations eng) allocationID in
      if requestMatchesAllocation request existing then (sys, Ok existing)
      else (sys, Err ErrAllocationConflict)
  | None =>
      match obligations eng !! rq_LoanID request with
      | None => (sys, Err ErrInvalidAllocation)
      | Some obligation =>
          if negb (o_Version obligation =? rq_ExpectedObligationVersion request) ||
             (o_AssetID obligation <>s fp_AssetID final) ||
             Time.Before (rq_AllocatedAt request) (o_AsOf obligation)
          then (sys, Err ErrInvalidAllocation)
          else match (canonicalPositive (o_OutstandingPrincipalUnits obligation)).1,
                     (canonicalPositive (fp_Units final)).1 with
          | Some debt, Some gross =>
              let principal := if debt <? gross then debt else gross in
              if principal =? 0 then (sys, Err ErrInvalidAllocation) else
              let excess := gross - principal in
              let after := debt - principal in
              let draft := draft_allocation request obligation gross principal excess debt after "" [] in
              let digest := allocationClaimDigest draft final obligation in
              let draft := draft_allocation request obligation gross principal excess debt after
                             digest [] in
              let '(modes', claimed) :=
                ClaimMode (W := W) (al_PaymentID draft) (al_AllocationID draft)
                  ModeSyntheticProjection (al_ClaimDigest draft) (fp_PaymentVersion final)
                  (al_EvidenceHash draft) (al_AllocatedAt draft) (modes sys) in
              match claimed with
              | Err _ => (mkSystem eng (accounting sys) modes', Err ErrAllocationConflict)
              | Ok _ =>
                  let '(acct', applied) := ApplyAllocation now draft (accounting sys) in
                  match applied with
                  | Err err => (mkSystem eng acct' modes', Err (ErrAccounting err))
                  | Ok journalIDs =>
                      let allocation := with_journals journalIDs draft in
                      let obligation := move_obligation obligation after (rq_AllocatedAt request)
                        "SYNTHETIC_PAYMENT_ALLOCATION" (rq_EvidenceHash request) in
                      (mkSystem
                         (mkEngine (<[o_LoanID obligation := obligation]> (obligations eng))
                            (<[al_AllocationID allocation := allocation]> (allocations eng))
                            (<[al_PaymentID allocation := al_AllocationID allocation]> (byPayment eng))
                            (reversals eng)) acct' modes', Ok allocation)
                  end
              end
          | _, _ => (sys, Err PanicNil)
          end
      end
  end.

Definition Reverse (now : Time.t) (request : ReversalRequest) (sys : System)
    : System * result (error E) Reversal :=
  let eng := engine sys in
  if empty_s (rr_ReversalID request) || empty_s (rr_AllocationID request) ||
     empty_s (rr_PaymentID request) || empty_s (rr_ProviderID request) ||
     empty_s (rr_ProviderReference request) || (rr_Status request <>s StatusReversed) ||
     empty_s (rr_ProviderEventID request) || empty_s (rr_ReasonCode request) ||
     empty_s (rr_EvidenceHash request) || Time.IsZero (rr_ReversedAt request)
  then (sys, Err ErrInvalidReversal)
  else match reversals eng !! rr_AllocationID request with
  | Some existing =>
      if (rv_ReversalID existing =s rr_ReversalID request) &&
         (rv_EvidenceHash existing =s rr_EvidenceHash request)
      then (sys, Ok existing) else (sys, Err ErrInvalidReversal)
  | None =>
      match allocations eng !! rr_AllocationID request with
      | None => (sys, Err ErrInvalidReversal)
      | Some allocation =>
          let obligation := lookup_zero zeroObligation (obligations eng) (al_LoanID allocation) in
          if (al_PaymentID allocation <>s rr_PaymentID request) ||
             (al_ProviderID allocation <>s rr_ProviderID request) ||
             (al_ProviderReference allocation <>s rr_ProviderReference request) ||
             negb (o_Version obligation =? rr_ExpectedObligationVersion request) ||
             Time.Before (rr_ReversedAt request) (al_AllocatedAt allocation)
          then (sys, Err ErrInvalidReversal)
          else match canonicalNonNegative (o_OutstandingPrincipalUnits obligation) with
          | (Some current, true) =>
              match (canonicalPositive (al_PrincipalUnits allocation)).1 with
              | None => (sys, Err PanicNil)
              | Some principal =>
                  let restored := current + principal in
                  let reversal ids := mkReversal (rr_ReversalID request) (al_AllocationID allocation)
                    (al_PaymentID allocation) (al_LoanID allocation) (Big.to_string principal)
                    (al_RefundableExcessUnits allocation) (Big.to_string current)
                    (Big.to_string restored) (o_Version obligation) (u64 (o_Version obligation + 1))
                    (rr_ReasonCode request) (rr_EvidenceHash request) ids
                    (Time.UTC (rr_ReversedAt request)) in
                  let '(acct', applied) := ReverseAllocation now allocation request (accounting sys) in
                  match applied with
                  | Err err => (mkSystem eng acct' (modes sys), Err (ErrAccounting err))
                  | Ok journalIDs =>
                      let obligation := move_obligation obligation restored (rr_ReversedAt request)
                        "SYNTHETIC_PAYMENT_REVERSAL" (rr_EvidenceHash request) in
                      (mkSystem
                         (mkEngine (<[o_LoanID obligation := obligation]> (obligations eng))
                            (allocations eng) (byPayment eng)
                            (<[al_AllocationID allocation := reversal journalIDs]> (reversals eng)))
                         acct' (modes sys), Ok (reversal journalIDs))
                  end
              end
          | _ => (sys, Err ErrInvalidReversal)
          end
      end
  end.

Definition ReleaseEligible (allocationID : string) (asOf : Time.t) (eng : Engine) : bool :=
  match allocations eng !! allocationID with
  | None => false
  | Some allocation =>
      if Time.IsZero asOf || Time.Before asOf (al_ReversalDeadline allocation) then false
      else if has_key (reversals eng) allocationID then false
      else if o_OutstandingPrincipalUnits
                (lookup_zero zeroObligation (obligations eng) (al_LoanID allocation)) <>s "0"
      then false
      else forallb (λ '(otherID, other),
             if al_LoanID other <>s al_LoanID allocation then true
             else negb (negb (has_key (reversals eng) otherID) &&
                        Time.Before asOf (al_ReversalDeadline other)))
             (map_to_list (allocations eng))
  end.

Definition Obligation_ (loanID : string) (eng : Engine) : option Obligation :=
  obligations eng !! loanID.
End Operations.
Arguments System : clear implicits.

(** * Conservation *)

Definition units (value : string) : Z := default 0 (Big.set_string value).

Lemma units_to_string z : units (Big.to_string z) = z.
Proof. unfold units. by rewrite Big.set_string_to_string. Qed.

Definition live (eng : Engine) (id : string) : bool := negb (has_key (reversals eng) id).

(** Principal of the loan's allocations that have not been reversed. *)
Definition live_principal (eng : Engine) (loan : string) : Z :=
  Msum (λ a, if (al_LoanID a =s loan) && live eng (al_AllocationID a)
             then units (al_PrincipalUnits a) else 0) (allocations eng).

Definition outstanding (eng : Engine) (loan : string) : Z :=
  units (o_OutstandingPrincipalUnits (lookup_zero zeroObligation (obligations eng) loan)).

(** The waterfall split: the amounts of an allocation record. *)
Definition split_ok (a : Allocation) : Prop :=
  ∃ gross principal excess,
    al_GrossUnits a = Big.to_string gross ∧ al_PrincipalUnits a = Big.to_string principal ∧
    al_RefundableExcessUnits a = Big.to_string excess ∧
    0 < principal ∧ 0 <= excess ∧ gross = principal + excess.

Section Invariant.
Context {W S A E : Type} `{ClaimStore W S, Accounting A E, Sha256, Json}.
Implicit Types (sys : System S A).

Record engine_inv (init : gmap string Z) sys : Prop := {
  ei_latch : latch_inv (modes sys);
  ei_obligation l o : obligations (engine sys) !! l = Some o →
    o_LoanID o = l ∧ ∃ z, o_OutstandingPrincipalUnits o = Big.to_string z ∧ 0 <= z;
  ei_loans l : is_Some (obligations (engine sys) !! l) ↔ is_Some (init !! l);
  ei_allocation id a : allocations (engine sys) !! id = Some a →
    al_AllocationID a = id ∧ byPayment (engine sys) !! al_PaymentID a = Some id ∧
    AllocationMode.byAllocation (modes sys) !! id = Some (al_PaymentID a) ∧
    is_Some (obligations (engine sys) !! al_LoanID a) ∧ split_ok a;
  ei_payment p id : byPayment (engine sys) !! p = Some id →
    ∃ a, allocations (engine sys) !! id = Some a ∧ al_PaymentID a = p;
  ei_reversal id v : reversals (engine sys) !! id = Some v →
    is_Some (allocations (engine sys) !! id);
  ei_conserve l z : init !! l = Some z →
    outstanding (engine sys) l + live_principal (engine sys) l = z }.

(** Calls of the engine, and whatever the other holders of the shared objects
    do meanwhile: the registry takes its own steps, the accounting service may
    change in any way. *)
Inductive sys_step : System S A → System S A → Prop :=
| sys_allocate now rq sys : sys_step sys (Allocate (W := W) now rq sys).1
| sys_reverse now rq sys : sys_step sys (Reverse now rq sys).1
| sys_environment sys acct modes' :
    AllocationMode.step (W := W) (modes sys) modes' →
    sys_step sys (mkSystem (engine sys) acct modes').

Definition initial_debt (sys : System S A) : gmap string Z :=
  (λ o, units (o_OutstandingPrincipalUnits o)) <$> obligations (engine sys).

Lemma new_loop_Ok l records records' :
  new_loop (E := E) l records = Ok records' →
  (∀ k o, records !! k = Some o → o_LoanID o = k ∧ validObligation o = true) →
  ∀ k o, records' !! k = Some o → o_LoanID o = k ∧ validObligation o = true.
Proof.
  revert records. induction l as [|x l IH]; intros records Hl I; simpl in Hl; [by simplify_eq|].
  destruct (_ || _) eqn:Hg; [done|]. bool_facts. apply (IH _ Hl).
  intros k o [[<- <-]|[_ Hk]]%lookup_insert_Some; [done|by apply I].
Qed.

Lemma valid_obligation_units o :
  validObligation o = true → ∃ z, o_OutstandingPrincipalUnits o = Big.to_string z ∧ 0 <= z.
Proof.
  unfold validObligation, canonicalPositive. intros Hv. bool_facts. simpl in *.
  destruct (Big.canonical_positive _) as [z|] eqn:Hz; [|done].
  apply Big.canonical_positive_Some in Hz as [-> ?]. exists z. split; [done|lia].
Qed.

Lemma New_engine_inv l acct m sys :
  latch_inv m → New (E := E) l (Some acct) (Some m) = Ok sys → engine_inv (initial_debt sys) sys.
Proof.
  intros Hm. unfold New. destruct (_ =? _)%nat; [done|].
  destruct (new_loop l ∅) as [records|] eqn:Hl; [|done]. intros [= <-].
  pose proof (new_loop_Ok l ∅ records Hl ltac:(set_solver)) as Hrec.
  constructor; simpl; try done; try (by intros *; rewrite lookup_empty).
  - intros k o Ho. destruct (Hrec k o Ho) as [? Hv]. split; [done|].
    by apply valid_obligation_units.
  - intros k. unfold initial_debt. simpl. by rewrite lookup_fmap, fmap_is_Some.
  - intros k z. unfold initial_debt. simpl. rewrite lookup_fmap, fmap_Some.
    intros (o & Ho & ->). unfold outstanding, live_principal, lookup_zero. simpl.
    rewrite Ho, Msum_empty. simpl. lia.
Qed.

(** A successful new allocation: everything the call decided and changed. *)
Record allocated (now : Time.t) (rq : Request) sys sys' (a : Allocation) : Prop := {
  ad_valid : validFinalPayment (rq_Payment rq) = true;
  ad_id : rq_AllocationID rq = CalculateAllocationID rq;
  ad_unused : byPayment (engine sys) !! fp_PaymentID (rq_Payment rq) = None;
  ad_detail : ∃ o debt gross digest ids c b,
    obligations (engine sys) !! rq_LoanID rq = Some o ∧
    o_Version o = rq_ExpectedObligationVersion rq ∧ o_AssetID o = fp_AssetID (rq_Payment rq) ∧
    o_OutstandingPrincipalUnits o = Big.to_string debt ∧
    fp_Units (rq_Payment rq) = Big.to_string gross ∧ 0 < debt ∧ 0 < gross ∧
    let principal := Z.min debt gross in
    let draft := draft_allocation rq o gross principal (gross - principal) debt (debt - principal)
                   digest [] in
    a = with_journals ids draft ∧
    ClaimMode (W := W) (fp_PaymentID (rq_Payment rq)) (rq_AllocationID rq) ModeSyntheticProjection
      digest (fp_PaymentVersion (rq_Payment rq)) (rq_EvidenceHash rq)
      (Time.UTC (rq_AllocatedAt rq)) (modes sys) = (modes sys', Ok (c, b)) ∧
    ApplyAllocation now draft (accounting sys) = (accounting sys', Ok ids) ∧
    engine sys' =
      mkEngine (<[o_LoanID o := move_obligation o (debt - principal) (rq_AllocatedAt rq)
                   "SYNTHETIC_PAYMENT_ALLOCATION" (rq_EvidenceHash rq)]> (obligations (engine sys)))
        (<[rq_AllocationID rq := a]> (allocations (engine sys)))
        (<[fp_PaymentID (rq_Payment rq) := rq_AllocationID rq]> (byPayment (engine sys)))
        (reversals (engine sys)) }.

(** A call that leaves the engine's own records alone. *)
Definition untouched sys sys' : Prop :=
  engine sys' = engine sys ∧
  (modes sys' = modes sys ∨ AllocationMode.step (W := W) (modes sys) (modes sys')).

Lemma untouched_refl sys : untouched sys sys.
Proof. split; auto. Qed.

Lemma valid_payment_units final :
  validFinalPayment final = true → ∃ z, fp_Units final = Big.to_string z ∧ 0 < z.
Proof.
  unfold validFinalPayment, canonicalPositive. intros Hv. bool_facts. simpl in *.
  destruct (Big.canonical_positive _) as [z|] eqn:Hz; [|done].
  apply Big.canonical_positive_Some in Hz as [-> ?]. eauto.
Qed.

Lemma Allocate_cases init now rq sys :
  engine_inv init sys →
  (untouched sys (Allocate (W := W) now rq sys).1 ∧
    (Allocate (W := W) now rq sys).2 ≠ Err PanicNil ∧
    (∀ a, (Allocate (W := W) now rq sys).2 = Ok a →
       allocations (engine sys) !! al_AllocationID a = Some a ∧
       (Allocate (W := W) now rq sys).1 = sys)) ∨
  ∃ a, (Allocate (W := W) now rq sys).2 = Ok a ∧
       allocated now rq sys (Allocate (W := W) now rq sys).1 a.
Proof.
  intros I. unfold Allocate.
  destruct (_ || _) eqn:Hg; [left; split_and!; [apply untouched_refl|done|done]|]. bool_facts.
  destruct (byPayment (engine sys) !! _) as [id|] eqn:Hp.
  { left. destruct (ei_payment _ _ I _ _ Hp) as (a & Ha & _). 
    rewrite (lookup_zero_Some _ _ _ _ Ha).
    destruct (requestMatchesAllocation rq a); (split_and!; [apply untouched_refl|done|]); [|done].
    intros x [= <-]. by destruct (ei_allocation _ _ I _ _ Ha) as [-> _]. }
  destruct (obligations (engine sys) !! rq_LoanID rq) as [o|] eqn:Ho;
    [|left; split_and!; [apply untouched_refl|done|done]].
  destruct (_ || _) eqn:Hg2; [left; split_and!; [apply untouched_refl|done|done]|]. bool_facts.
  destruct (ei_obligation _ _ I _ _ Ho) as [Hlid (debt & Hdebt & Hd0)].
  destruct (valid_payment_units _ ltac:(done)) as (gross & Hgross & Hg0).
  unfold canonicalPositive. cbn [fst]. rewrite Hdebt, Hgross, !Big.set_string_to_string.
  replace (if debt <? gross then debt else gross) with (Z.min debt gross)
    by (destruct (Z.ltb_spec debt gross); lia).
  destruct (Z.eqb_spec (Z.min debt gross) 0); [left; split_and!; [apply untouched_refl|done|done]|].
  simpl al_ClaimDigest. simpl al_PaymentID. simpl al_AllocationID. simpl al_EvidenceHash.
  simpl al_AllocatedAt. set (digest := allocationClaimDigest _ _ _).
  destruct (ClaimMode _ _ _ _ _ _ _ _) as [m' [[c b]|e]] eqn:Hc.
  2: { left. split_and!; [|done|done]. split; [done|]. right. simpl.
       by eapply ClaimMode_step. }
  destruct (ApplyAllocation _ _ _) as [acct' [ids|e]] eqn:Happ.
  2: { left. split_and!; [|done|done]. split; [done|]. right. simpl.
       by eapply ClaimMode_step. }
  right. eexists. split; [reflexivity|]. constructor; try done.
  exists o, debt, gross, digest, ids, c, b. simpl. split_and!; try done; lia.
Qed.

Lemma outstanding_move e e' o u t x y l :
  obligations e' = <[o_LoanID o := move_obligation o u t x y]> (obligations e) →
  outstanding e' l = if o_LoanID o =s l then u else outstanding e l.
Proof.
  intros E'. unfold outstanding, lookup_zero. rewrite E'.
  destruct (String.eqb_spec (o_LoanID o) l) as [-> |Hne].
  - rewrite lookup_insert_eq. simpl. apply units_to_string.
  - by rewrite lookup_insert_ne.
Qed.

Lemma live_principal_add e e' id a l :
  reversals e' = reversals e → allocations e' = <[id := a]> (allocations e) →
  allocations e !! id = None → al_AllocationID a = id → reversals e !! id = None →
  live_principal e' l =
    (if al_LoanID a =s l then units (al_PrincipalUnits a) else 0) + live_principal e l.
Proof.
  intros Er Ea Hn Hid Hrev. unfold live_principal, live. rewrite Er, Ea.
  rewrite Msum_insert_fresh by done.
  by rewrite Hid, (proj2 (has_key_false _ _) Hrev), andb_true_r.
Qed.

Lemma live_principal_reverse e e' id a v l :
  allocations e' = allocations e → reversals e' = <[id := v]> (reversals e) →
  allocations e !! id = Some a → reversals e !! id = None →
  (∀ k x, allocations e !! k = Some x → al_AllocationID x = k) →
  live_principal e l =
    (if al_LoanID a =s l then units (al_PrincipalUnits a) else 0) + live_principal e' l.
Proof.
  intros Ea Er Ha Hrev Hid. unfold live_principal, live. rewrite Er, Ea.
  rewrite !(Msum_delete _ (allocations e) id a Ha), (Hid _ _ Ha).
  rewrite (proj2 (has_key_false _ _) Hrev), (proj2 (has_key_true _ _)), andb_true_r, andb_false_r
    by (rewrite lookup_insert_eq; by eexists).
  rewrite Z.add_0_l. f_equal. apply Msum_ext. intros k x [Hne Hx]%lookup_delete_Some.
  rewrite (Hid _ _ Hx). unfold has_key. by rewrite lookup_insert_ne.
Qed.

Lemma step_owner sys sys' a p :
  (modes sys' = modes sys ∨ AllocationMode.step (W := W) (modes sys) (modes sys')) →
  latch_inv (modes sys) →
  latch_inv (modes sys') ∧
  (AllocationMode.byAllocation (modes sys) !! a = Some p →
   AllocationMode.byAllocation (modes sys') !! a = Some p).
Proof.
  intros [-> |Hs%step_effect] I; [done|].
  split; [by eapply effect_inv|by eapply effect_owner].
Qed.

Lemma untouched_inv init sys sys' :
  untouched sys sys' → engine_inv init sys → engine_inv init sys'.
Proof.
  intros [He Hm] I. pose proof (ei_latch _ _ I) as L.
  constructor; rewrite ?He; try apply I.
  - by apply (step_owner sys sys' "" "").
  - intros id a Ha. destruct (ei_allocation _ _ I id a Ha) as (?&?&?&?&?).
    split_and!; try done. by apply (step_owner sys sys' id (al_PaymentID a)).
Qed.

(** The new allocation's id is unused: the registry would have refused the
    claim of an allocation owned by another payment. *)
Lemma allocated_fresh init now rq sys sys' a :
  engine_inv init sys → allocated now rq sys sys' a →
  allocations (engine sys) !! rq_AllocationID rq = None ∧
  reversals (engine sys) !! rq_AllocationID rq = None ∧ latch_inv (modes sys') ∧
  AllocationMode.byAllocation (modes sys') !! rq_AllocationID rq =
    Some (fp_PaymentID (rq_Payment rq)).
Proof.
  intros I [_ _ Hun (o & debt & gross & digest & ids & c & b & _ & _ & _ & _ & _ & _ & _ & _ & Hc & _)].
  pose proof Hc as Hst. apply ClaimMode_step in Hst.
  apply ClaimMode_Ok in Hc as (L' & _ & _ & _ & _ & Hown); [|apply (ei_latch _ _ I)].
  assert (allocations (engine sys) !! rq_AllocationID rq = None) as Hnone.
  { destruct (allocations (engine sys) !! rq_AllocationID rq) as [x|] eqn:Hx; [|done]. exfalso.
    destruct (ei_allocation _ _ I _ _ Hx) as (_ & Hb & Hown' & _).
    assert (AllocationMode.byAllocation (modes sys') !! rq_AllocationID rq = Some (al_PaymentID x)).
    { apply (step_owner sys sys'); [auto|apply (ei_latch _ _ I)|done]. }
    congruence. }
  split_and!; try done.
  destruct (reversals (engine sys) !! rq_AllocationID rq) as [v|] eqn:Hv; [|done].
  destruct (ei_reversal _ _ I _ _ Hv). congruence.
Qed.

Lemma allocated_inv init now rq sys sys' a :
  engine_inv init sys → allocated now rq sys sys' a → engine_inv init sys'.
Proof.
  intros I HA. destruct (allocated_fresh _ _ _ _ _ _ I HA) as (Hnone & Hrev & L' & Hown).
  destruct HA as [_ _ Hun (o & debt & gross & digest & ids & c & b & Ho & _ & _ & Hdebt & Hgr & Hd0 &
    Hg0 & -> & Hc & _ & He)].
  destruct (ei_obligation _ _ I _ _ Ho) as [Hlid _].
  set (principal := Z.min debt gross) in *.
  constructor; rewrite ?He; simpl; rewrite ?Hlid.
  - done.
  - intros l x [[<- <-]|[_ Hx]]%lookup_insert_Some; [|by apply I]. simpl. split; [done|].
    eexists. split; [done|]. lia.
  - intros l. rewrite lookup_insert_is_Some', (ei_loans _ _ I). split; [|auto].
    intros [<-|?]; [|done]. apply (ei_loans _ _ I). by eexists.
  - intros id x [[<- <-]|[Hne Hx]]%lookup_insert_Some; simpl.
    + rewrite lookup_insert_eq. split_and!; try done.
      * by rewrite lookup_insert_eq.
      * exists gross, principal, (gross - principal). split_and!; try done; lia.
    + destruct (ei_allocation _ _ I id x Hx) as (?&Hb&Hx'&?&?). split_and!; try done.
      * rewrite lookup_insert_ne; [done|]. congruence.
      * apply (step_owner sys sys'); [right; by eapply ClaimMode_step|apply (ei_latch _ _ I)|done].
      * apply lookup_insert_is_Some'. auto.
  - intros p id [[<- <-]|[Hne Hx]]%lookup_insert_Some.
    + eexists. rewrite lookup_insert_eq. done.
    + destruct (ei_payment _ _ I p id Hx) as (x & Hx' & <-). exists x. split; [|done].
      rewrite lookup_insert_ne; [done|]. congruence.
  - intros id v Hv. apply lookup_insert_is_Some'. right. by eapply (ei_reversal _ _ I).
  - intros l z Hz. pose proof (ei_conserve _ _ I l z Hz) as Hcons.
    erewrite (outstanding_move (engine sys) _ o) by (simpl; rewrite Hlid; reflexivity).
    rewrite (live_principal_add (engine sys) _ (rq_AllocationID rq) _ l) by done.
    simpl. rewrite Hlid. destruct (String.eqb_spec (rq_LoanID rq) l) as [<-|]; [|lia].
    unfold outstanding in Hcons. rewrite (lookup_zero_Some _ _ _ _ Ho), Hdebt in Hcons.
    rewrite units_to_string in *. lia.
Qed.

(** A successful new reversal. *)
Record reversed_now (now : Time.t) (rq : ReversalRequest) sys sys' (v : Reversal) : Prop := {
  rn_unused : reversals (engine sys) !! rr_AllocationID rq = None;
  rn_detail : ∃ a o current principal ids,
    allocations (engine sys) !! rr_AllocationID rq = Some a ∧
    obligations (engine sys) !! al_LoanID a = Some o ∧
    o_Version o = rr_ExpectedObligationVersion rq ∧
    o_OutstandingPrincipalUnits o = Big.to_string current ∧ 0 <= current ∧
    al_PrincipalUnits a = Big.to_string principal ∧ 0 < principal ∧
    rv_AllocationID v = rr_AllocationID rq ∧ rv_ReversalID v = rr_ReversalID rq ∧
    rv_RestoredPrincipalUnits v = al_PrincipalUnits a ∧
    ReverseAllocation now a rq (accounting sys) = (accounting sys', Ok ids) ∧
    modes sys' = modes sys ∧
    engine sys' =
      mkEngine (<[o_LoanID o := move_obligation o (current + principal) (rr_ReversedAt rq)
                   "SYNTHETIC_PAYMENT_REVERSAL" (rr_EvidenceHash rq)]> (obligations (engine sys)))
        (allocations (engine sys)) (byPayment (engine sys))
        (<[rr_AllocationID rq := v]> (reversals (engine sys))) }.

Lemma Reverse_cases init now rq sys :
  engine_inv init sys →
  (untouched sys (Reverse now rq sys).1 ∧ (Reverse now rq sys).2 ≠ Err PanicNil ∧
    (∀ v, (Reverse now rq sys).2 = Ok v →
       reversals (engine sys) !! rr_AllocationID rq = Some v ∧ (Reverse now rq sys).1 = sys)) ∨
  ∃ v, (Reverse now rq sys).2 = Ok v ∧ reversed_now now rq sys (Reverse now rq sys).1 v.
Proof.
  intros I. unfold Reverse.
  destruct (_ || _); [left; split_and!; [apply untouched_refl|done|done]|].
  destruct (reversals (engine sys) !! _) as [v|] eqn:Hv.
  { left. destruct (_ && _); (split_and!; [apply untouched_refl|done|]); [|done]. by intros x [= <-]. }
  destruct (allocations (engine sys) !! _) as [a|] eqn:Ha;
    [|left; split_and!; [apply untouched_refl|done|done]].
  destruct (ei_allocation _ _ I _ _ Ha) as (Hid & _ & _ & [o Ho] & (g & p & x & Hg & Hp & Hx & Hp0 & _)).
  rewrite (lookup_zero_Some _ _ _ _ Ho).
  destruct (_ || _) eqn:Hg2; [left; split_and!; [apply untouched_refl|done|done]|]. bool_facts.
  destruct (ei_obligation _ _ I _ _ Ho) as [Hlid (z & Hz & Hz0)].
  unfold canonicalNonNegative, canonicalPositive. cbn [fst]. rewrite Hz, Hp.
  rewrite !Big.set_string_to_string, (proj2 (Big.canonical_nonneg_Some _ _) (conj eq_refl Hz0)).
  destruct (ReverseAllocation _ _ _ _) as [acct' [ids|e]] eqn:Hr.
  - right. eexists. split; [reflexivity|]. constructor; [done|].
    exists a, o, z, p, ids. simpl. rewrite Hid, Hp. by split_and!.
  - left. split_and!; [|done|done]. split; [done|]. by left.
Qed.

Lemma reversed_inv init now rq sys sys' v :
  engine_inv init sys → reversed_now now rq sys sys' v → engine_inv init sys'.
Proof.
  intros I [Hun (a & o & z & p & ids & Ha & Ho & _ & Hz & Hz0 & Hp & Hp0 & _ & _ & _ & _ & Hm & He)].
  destruct (ei_obligation _ _ I _ _ Ho) as [Hlid _].
  constructor; rewrite ?He, ?Hm; simpl; rewrite ?Hlid; try apply I.
  - intros l x [[<- <-]|[_ Hx]]%lookup_insert_Some; [|by apply I]. simpl. split; [done|].
    eexists. split; [done|]. lia.
  - intros l. rewrite lookup_insert_is_Some', (ei_loans _ _ I). split; [|auto].
    intros [<-|?]; [|done]. apply (ei_loans _ _ I). by eexists.
  - intros id x Hx. destruct (ei_allocation _ _ I id x Hx) as (?&?&?&?&?). split_and!; try done.
    apply lookup_insert_is_Some'. auto.
  - intros id x [[<- _]|[_ Hx]]%lookup_insert_Some; [by eexists|by eapply (ei_reversal _ _ I)].
  - intros l w Hw. pose proof (ei_conserve _ _ I l w Hw) as Hcons.
    erewrite (outstanding_move (engine sys) _ o) by (simpl; rewrite Hlid; reflexivity).
    rewrite (live_principal_reverse (engine sys)
      (mkEngine (<[al_LoanID a := move_obligation o (z + p) (rr_ReversedAt rq)
                   "SYNTHETIC_PAYMENT_REVERSAL" (rr_EvidenceHash rq)]> (obligations (engine sys)))
        (allocations (engine sys)) (byPayment (engine sys))
        (<[rr_AllocationID rq := v]> (reversals (engine sys)))) (rr_AllocationID rq) a v l) in Hcons;
      try done.
    + rewrite Hlid. destruct (String.eqb_spec (al_LoanID a) l) as [<-|]; [|lia].
      unfold outstanding in Hcons. rewrite (lookup_zero_Some _ _ _ _ Ho), Hz, Hp in Hcons.
      rewrite !units_to_string in Hcons. lia.
    + intros k x Hx. by destruct (ei_allocation _ _ I k x Hx).
Qed.

Lemma sys_step_inv init sys sys' : engine_inv init sys → sys_step sys sys' → engine_inv init sys'.
Proof.
  intros I Hst. revert I. destruct Hst as [now rq sys1|now rq sys1|sys1 acct m' Hs]; intros I.
  - destruct (Allocate_cases init now rq sys1 I) as [[Hu _]|(a & _ & Ha)];
      [by eapply untouched_inv|by eapply allocated_inv].
  - destruct (Reverse_cases init now rq sys1 I) as [[Hu _]|(v & _ & Hv)];
      [by eapply untouched_inv|by eapply reversed_inv].
  - eapply untouched_inv; [|done]. split; [done|]. by right.
Qed.

Lemma sys_steps_inv init sys sys' : engine_inv init sys → rtc sys_step sys sys' → engine_inv init sys'.
Proof. intros I Hs. induction Hs; [done|]. eauto using sys_step_inv. Qed.

(** Allocations are never removed or rewritten. *)
Lemma sys_step_keeps init sys sys' id a :
  engine_inv init sys → sys_step sys sys' → allocations (engine sys) !! id = Some a →
  allocations (engine sys') !! id = Some a.
Proof.
  intros I Hst. revert I. destruct Hst as [now rq sys1|now rq sys1|sys1 acct m' Hs]; intros I Ha.
  - destruct (Allocate_cases init now rq sys1 I) as [[[He _] _]|(x & _ & Hx)]; [by rewrite He|].
    destruct (allocated_fresh _ _ _ _ _ _ I Hx) as (Hn & _).
    destruct Hx as [_ _ _ (?&?&?&?&?&?&?&?&?&?&?&?&?&?&?&?&?&He)]. rewrite He. simpl.
    rewrite lookup_insert_ne; [done|]. congruence.
  - destruct (Reverse_cases init now rq sys1 I) as [[[He _] _]|(x & _ & Hx)]; [by rewrite He|].
    destruct Hx as [_ (?&?&?&?&?&?&?&?&?&?&?&?&?&?&?&?&?&He)]. by rewrite He.
  - done.
Qed.

Lemma sys_steps_keep init sys sys' id a :
  engine_inv init sys → rtc sys_step sys sys' → allocations (engine sys) !! id = Some a →
  allocations (engine sys') !! id = Some a.
Proof.
  intros I Hs. induction Hs as [|x y z Hxy _ IH]; [done|]. intros Ha. apply IH.
  - by eapply sys_step_inv.
  - by eapply sys_step_keeps.
Qed.

Lemma Allocate_Ok_recorded init now rq sys a :
  engine_inv init sys → (Allocate (W := W) now rq sys).2 = Ok a →
  allocations (engine (Allocate (W := W) now rq sys).1) !! al_AllocationID a = Some a.
Proof.
  intros I Hok. destruct (Allocate_cases init now rq sys I) as [(_ & _ & Hall)|(x & Hx & HA)].
  - destruct (Hall a Hok) as [Ha ->]. done.
  - rewrite Hok in Hx. injection Hx as <-.
    destruct HA as [_ _ _ (?&?&?&?&?&?&?&?&?&?&?&?&?&?&Ea&?&?&He)]. rewrite He, Ea. simpl.
    by rewrite lookup_insert_eq.
Qed.

(** C2: principal is conserved. Start an engine from its obligations and run
    any sequence of allocations and reversals, with the registry and the
    accounting service used concurrently by others in any way. For every loan
    the outstanding principal plus the principal of its unreversed allocations
    is exactly the initial debt, and is never negative; every allocation splits
    its gross amount into a positive principal part and a refundable excess;
    and neither operation panics. *)
Theorem obligations_conserved l acct m sys0 sys :
  AllocationMode.reachable (W := W) m →
  New (E := E) l (Some acct) (Some m) = Ok sys0 → rtc sys_step sys0 sys →
  (∀ loan debt, initial_debt sys0 !! loan = Some debt →
     0 <= outstanding (engine sys) loan ∧
     outstanding (engine sys) loan + live_principal (engine sys) loan = debt) ∧
  (∀ id a, allocations (engine sys) !! id = Some a → split_ok a) ∧
  (∀ now rq, (Allocate (W := W) now rq sys).2 ≠ Err PanicNil) ∧
  (∀ now rq, (Reverse now rq sys).2 ≠ Err PanicNil).
Proof.
  intros Hm%reachable_latch_inv Hn Hs.
  pose proof (sys_steps_inv _ _ _ (New_engine_inv l acct m sys0 Hm Hn) Hs) as I. split_and!.
  - intros loan debt Hl. split; [|by apply I].
    assert (is_Some (obligations (engine sys) !! loan)) as [o Ho]
      by (apply (ei_loans _ _ I); by eexists).
    unfold outstanding. rewrite (lookup_zero_Some _ _ _ _ Ho).
    destruct (ei_obligation _ _ I _ _ Ho) as (_ & z & -> & ?). by rewrite units_to_string.
  - intros id a Ha. apply (ei_allocation _ _ I id a Ha).
  - intros now rq. destruct (Allocate_cases _ now rq sys I) as [(_ & ? & _)|(a & -> & _)]; done.
  - intros now rq. destruct (Reverse_cases _ now rq sys I) as [(_ & ? & _)|(a & -> & _)]; done.
Qed.

(** A successful call for a payment without an allocation made one. *)
Lemma Allocate_new init now rq sys a :
  engine_inv init sys → byPayment (engine sys) !! fp_PaymentID (rq_Payment rq) = None →
  (Allocate (W := W) now rq sys).2 = Ok a →
  allocated now rq sys (Allocate (W := W) now rq sys).1 a.
Proof.
  intros I Hun Hok. destruct (Allocate_cases init now rq sys I) as [(_ & _ & Hall)|(x & Hx & HA)].
  - destruct (Hall a Hok) as [Ha0 _]. destruct (ei_allocation _ _ I _ _ Ha0) as (_ & Hb & _).
    exfalso. assert (al_PaymentID a = fp_PaymentID (rq_Payment rq)) as E'; [|congruence].
    clear -Hok Hun. unfold Allocate in Hok. destruct (_ || _); [done|]. rewrite Hun in Hok.
    repeat (step_in Hok; try done).
  - rewrite Hok in Hx. by injection Hx as <-.
Qed.

(** A running system: constructed over a registry in use, then called. *)
Definition sys_reachable sys : Prop :=
  ∃ l acct m sys0, AllocationMode.reachable (W := W) m ∧
    New (E := E) l (Some acct) (Some m) = Ok sys0 ∧ rtc sys_step sys0 sys.

Lemma sys_reachable_inv sys : sys_reachable sys → ∃ init, engine_inv init sys.
Proof.
  intros (l & acct & m & sys0 & Hm%reachable_latch_inv & Hn & Hs).
  eexists. eapply sys_steps_inv; [by eapply New_engine_inv|done].
Qed.

(** Allocation is idempotent. Once a request has been allocated, sending
    the same request again, after any number of further calls, returns the same
    allocation and changes neither the engine, nor the books, nor the latch. *)
Theorem allocate_idempotent sys sys' now now' rq a :
  sys_reachable sys → byPayment (engine sys) !! fp_PaymentID (rq_Payment rq) = None →
  (Allocate (W := W) now rq sys).2 = Ok a →
  rtc sys_step (Allocate (W := W) now rq sys).1 sys' →
  Allocate (W := W) now' rq sys' = (sys', Ok a).
Proof.
  intros [init I]%sys_reachable_inv Hun Hok Hs.
  assert (engine_inv init (Allocate (W := W) now rq sys).1) as I1
    by (eapply sys_step_inv; [done|constructor]).
  pose proof (sys_steps_keep _ _ _ _ _ I1 Hs (Allocate_Ok_recorded _ _ _ _ _ I Hok)) as Ha.
  pose proof (sys_steps_inv _ _ _ I1 Hs) as I'.
  pose proof (Allocate_new init now rq sys a I Hun Hok) as HA.
  destruct (ei_allocation _ _ I' _ _ Ha) as (_ & Hb & _).
  destruct HA as [Hv Hid _ (o & debt & gross & digest & ids & c & b & Ho & Hver & Has & Hd & Hg & _ & _
    & -> & _)]. simpl in Hb, Ha.
  unfold Allocate in Hok |- *. destruct (_ || _); [done|]. rewrite Hb.
  rewrite (lookup_zero_Some _ _ _ _ Ha).
  replace (requestMatchesAllocation rq _) with true; [done|]. symmetry.
  unfold requestMatchesAllocation. simpl. rewrite Has, Hg, Hver.
  unfold Time.Equal, Time.UTC. simpl. by rewrite !String.eqb_refl, !Z.eqb_refl.
Qed.

Lemma sys_step_modes init sys sys' :
  engine_inv init sys → sys_step sys sys' →
  modes sys' = modes sys ∨ AllocationMode.step (W := W) (modes sys) (modes sys').
Proof.
  intros I Hst. revert I. destruct Hst as [now rq sys1|now rq sys1|sys1 acct m' Hs]; intros I.
  - destruct (Allocate_cases init now rq sys1 I) as [[[_ Hm] _]|(x & _ & Hx)]; [done|].
    destruct Hx as [_ _ _ (?&?&?&?&?&?&?&?&?&?&?&?&?&?&?&Hc&_)]. right. by eapply ClaimMode_step.
  - destruct (Reverse_cases init now rq sys1 I) as [[[_ Hm] _]|(x & _ & Hx)]; [done|].
    destruct Hx as [_ (?&?&?&?&?&?&?&?&?&?&?&?&?&?&?&?&Hm&_)]. by left.
  - by right.
Qed.

Lemma sys_steps_modes init sys sys' :
  engine_inv init sys → rtc sys_step sys sys' → rtc (AllocationMode.step (W := W)) (modes sys) (modes sys').
Proof.
  intros I Hs. induction Hs as [|x y z Hxy _ IH]; [done|].
  specialize (IH (sys_step_inv _ _ _ I Hxy)).
  destruct (sys_step_modes _ _ _ I Hxy) as [E'|Hst]; [by rewrite <- E'|by eapply rtc_l].
Qed.

(** A synthetically allocated payment can never be taken by the canonical
    gateway. After a successful new allocation the shared registry holds a
    synthetic claim of that payment for that allocation and, whatever any
    holder of the registry does later, the claim stays and a canonical claim of
    the payment is refused without running its commit. *)
Theorem allocation_excludes_canonical sys sys' now rq a :
  sys_reachable sys → byPayment (engine sys) !! fp_PaymentID (rq_Payment rq) = None →
  (Allocate (W := W) now rq sys).2 = Ok a →
  rtc sys_step (Allocate (W := W) now rq sys).1 sys' →
  let p := fp_PaymentID (rq_Payment rq) in
  (∃ c, Lookup p (modes sys') = Some c ∧ Mode c = ModeSyntheticProjection ∧
        AllocationID c = rq_AllocationID rq ∧ Digest c = al_ClaimDigest a) ∧
  (∀ id m d v e t f (w : W), ∃ err,
     ClaimModeWithCommit p id m d v e t f (modes sys') w = (modes sys', w, Err err)).
Proof.
  intros [init I]%sys_reachable_inv Hun Hok Hs p.
  assert (engine_inv init (Allocate (W := W) now rq sys).1) as I1
    by (eapply sys_step_inv; [done|constructor]).
  assert (∃ c, Lookup p (modes sys') = Some c ∧ Mode c = ModeSyntheticProjection ∧
        AllocationID c = rq_AllocationID rq ∧ Digest c = al_ClaimDigest a) as Hc.
  { destruct (Allocate_new init now rq sys a I Hun Hok) as [_ _ _ (?&?&?&?&?&c&?&?&?&?&?&?&?&?&Ea&Hc&_)].
    apply ClaimMode_Ok in Hc as (_ & Hl & Hal & Hm & Hd & _); [|apply (ei_latch _ _ I)].
    destruct (steps_keep _ _ (sys_steps_modes _ _ _ I1 Hs)) as [_ Hk].
    destruct (Hk p c Hl) as (c' & Hc' & E'). exists c'.
    pose proof (f_equal Mode E') as E1. pose proof (f_equal AllocationID E') as E2.
    pose proof (f_equal Digest E') as E3. simpl in E1, E2, E3.
    rewrite E1, E2, E3, Ea. by split_and!. }
  split; [done|]. destruct Hc as (c & Hl & _). unfold Lookup in Hl.
  intros id m d v e t f w. unfold ClaimModeWithCommit. destruct f as [f|]; [|eauto].
  destruct (_ || _); [eauto|]. destruct (bool_decide _); [eauto|].
  rewrite (proj2 (has_key_true _ _)) by (by rewrite Hl). eauto.
Qed.

(** Release needs full, final repayment. When [ReleaseEligible] answers
    yes, the loan's unreversed allocations add up to its whole initial debt,
    nothing is outstanding, and the reversal deadline of every one of them has
    passed. *)
Theorem release_safe l acct m sys0 sys id a asOf :
  AllocationMode.reachable (W := W) m →
  New (E := E) l (Some acct) (Some m) = Ok sys0 → rtc sys_step sys0 sys →
  allocations (engine sys) !! id = Some a → ReleaseEligible id asOf (engine sys) = true →
  (∀ debt, initial_debt sys0 !! al_LoanID a = Some debt →
     live_principal (engine sys) (al_LoanID a) = debt) ∧
  outstanding (engine sys) (al_LoanID a) = 0 ∧ live (engine sys) id = true ∧
  (∀ other x, allocations (engine sys) !! other = Some x → al_LoanID x = al_LoanID a →
     live (engine sys) other = true → Time.ns (al_ReversalDeadline x) <= Time.ns asOf).
Proof.
  intros Hm%reachable_latch_inv Hn Hs Ha Hrel.
  pose proof (sys_steps_inv _ _ _ (New_engine_inv l acct m sys0 Hm Hn) Hs) as I.
  unfold ReleaseEligible in Hrel. rewrite Ha in Hrel. destruct (_ || _) eqn:Hg; [done|].
  destruct (has_key (reversals (engine sys)) id) eqn:Hr; [done|].
  destruct (o_OutstandingPrincipalUnits _ <>s "0") eqn:Hz; [done|]. bool_facts.
  assert (outstanding (engine sys) (al_LoanID a) = 0) as Hout
    by (unfold outstanding; rewrite Hz; reflexivity).
  split_and!; [|done|unfold live; by rewrite Hr|].
  - intros debt Hd. pose proof (ei_conserve _ _ I _ _ Hd). lia.
  - intros other x Hx Hl Hlive. rewrite forallb_forall in Hrel.
    specialize (Hrel (other, x)). simpl in Hrel. rewrite Hl, String.eqb_refl in Hrel. simpl in Hrel.
    unfold live in Hlive. rewrite Hlive in Hrel. simpl in Hrel. apply negb_true_iff in Hrel.
    + by apply Z.ltb_ge in Hrel.
    + by apply list_elem_of_In, elem_of_map_to_list.
Qed.
End Invariant.

(** * A concrete system *)

Module Sample.
#[local] Instance plain_sha : Sha256 := λ _, "h".
#[local] Instance plain_json : Json := λ _, "".

(** An accounting service that numbers its postings. *)
#[local] Instance counter : Accounting Z unit := {
  ApplyAllocation _ _ n := (n + 1, Ok [Big.to_string n]);
  ReverseAllocation _ _ _ n := (n + 1, Ok [Big.to_string n]) }.

Definition t (n : Z) : Time.t := Time.mk n "".
Definition loan : Obligation := mkObligation "L" "bob" "ann" "USD" "100" 1 "chain" "ev" (t 1).
Definition pay (id u : string) : FinalPayment :=
  mkFinalPayment id "prov" "ref" "USD" u StatusFinal 1 "rec" "0" 0 "policy" (t 50) "pev" (t 5).
Definition id : string := hex "h".
Definition rq : Request := mkRequest id (pay "p1" "130") "L" 1 "water" "corr" "rev" (t 6).
Definition m0 : Registry MemoryStore := AllocationMode.Sample.r0.
Definition s0 : System MemoryStore Z := mkSystem (mkEngine {["L" := loan]} ∅ ∅ ∅) 0 m0.
Definition s1 : System MemoryStore Z := (Allocate (W := Z) (t 7) rq s0).1.
Definition undo : ReversalRequest :=
  mkReversalRequest "rv" id "p1" 2 "prov" "ref" StatusReversed "pe" "chargeback" "ev2" (t 9).
Definition s2 : System MemoryStore Z := (Reverse (E := unit) (t 10) undo s1).1.
Definition a1 : Allocation :=
  default zeroAllocation (allocations (engine s1) !! id).

Lemma s0_New : New (E := unit) [loan] (Some 0) (Some m0) = Ok s0.
Proof. reflexivity. Qed.
Lemma s0_s1 : rtc (sys_step (W := Z) (E := unit)) s0 s1.
Proof. apply rtc_once. apply sys_allocate. Qed.
Lemma s1_s2 : rtc (sys_step (W := Z) (E := unit)) s1 s2.
Proof. apply rtc_once. apply sys_reverse. Qed.
Lemma s0_reachable : sys_reachable (W := Z) (E := unit) s0.
Proof.
  exists [loan], 0, m0, s0. split; [apply AllocationMode.Sample.r0_reachable|].
  split; [apply s0_New|apply rtc_refl].
Qed.

Lemma obligations_conserved_witness :
  outstanding (engine s2) "L" + live_principal (engine s2) "L" = 100.
Proof.
  destruct (obligations_conserved (W := Z) (E := unit) [loan] 0 m0 s0 s2) as [H _];
    [exact AllocationMode.Sample.r0_reachable|exact s0_New|etrans; [exact s0_s1|exact s1_s2]|].
  exact (proj2 (H "L" 100 eq_refl)).
Defined.

Lemma allocate_idempotent_witness :
  Allocate (W := Z) (E := unit) (t 11) rq s2 = (s2, Ok a1).
Proof.
  apply (allocate_idempotent s0 s2 (t 7) (t 11) rq a1 s0_reachable);
    [reflexivity|vm_compute; reflexivity|exact s1_s2].
Defined.

Lemma allocation_excludes_canonical_witness :
  ∃ c, Lookup "p1" (modes s2) = Some c ∧ Mode c = ModeSyntheticProjection.
Proof.
  destruct (allocation_excludes_canonical s0 s2 (t 7) rq a1 s0_reachable)
    as [(c & Hl & Hm & _) _]; [reflexivity|vm_compute; reflexivity|exact s1_s2|].
  exists c. split; [exact Hl|exact Hm].
Defined.

Lemma release_safe_witness : live_principal (engine s1) "L" = 100.
Proof.
  destruct (release_safe (W := Z) (E := unit) [loan] 0 m0 s0 s1 id a1 (t 60)) as [H _];
    [exact AllocationMode.Sample.r0_reachable|exact s0_New|exact s0_s1
    |reflexivity|reflexivity|]. exact (H 100 eq_refl).
Defined.
End Sample.
