(* ===== verification/AllocationAccounting.v ===== *)
(** Allocation journals ([foundation-ledger/internal/allocationaccounting]):
    the implementation of the allocation engine's accounting interface on top
    of the posting kernel, and the agreement of the engine with the books. *)
From S2P Require Import Prelude GoStd PaymentTypes AllocationMode Ledger Allocation.

(** * Data *)

(** [PanicIndex] is the out-of-range index a short batch result would cause. *)
Inductive error := ErrInvalidAllocation | ErrLedger (inner : Ledger.error) | PanicIndex.

Record record := mkRecord { journalIDs : list string; reversed : bool }.

Record Poster := mkPoster { book : Ledger; records : gmap string record }.

Definition New (book : option Ledger) : result error Poster :=
  match book with
  | None => Err ErrInvalidAllocation
  | Some book => Ok (mkPoster book ∅)
  end.

(** * Operations *)

Definition nonNegative (value : string) : option Z := Big.canonical_nonneg value.

Definition entry (item : Allocation) (account side units : string) : Entry :=
  mkEntry account side (al_AssetID item) units "" (al_LoanID item) "".

Definition journal (item : Allocation) (suffix entryType : string) (entries : list Entry)
    (reversalOf : string) : Journal :=
  mkJournal ("allocation:" +:+ al_AllocationID item +:+ ":" +:+ suffix) "unified-protocol"
    "loan-subledger" "payment-allocation" entryType (al_PaymentID item) (al_LoanID item)
    (al_AllocationID item +:+ ":" +:+ suffix) (al_CorrelationID item)
    (Time.UTC (al_AllocatedAt item)) entries (al_EvidenceHash item) reversalOf "".

Definition allocation_entries (item : Allocation) (excess : Z) : list Entry :=
  [entry item "9120" Debit (al_GrossUnits item);
   entry item "1310" Credit (al_PrincipalUnits item)] ++
  (if 0 <? excess then [entry item "2150" Credit (al_RefundableExcessUnits item)] else []).

Definition allocation_journal (item : Allocation) (excess : Z) : Journal :=
  journal item "allocation" "PAYMENT_ALLOCATED" (allocation_entries item excess) "".

Definition lender_journal (item : Allocation) : Journal :=
  journal item "lender-claim" "LENDER_CLAIM_ALLOCATED"
    [entry item "2310" Debit (al_PrincipalUnits item);
     entry item "2130" Credit (al_PrincipalUnits item)] "".

Definition posted_id (p : PostedJournal) : string := j_ID (p_Journal p).

Definition ApplyAllocation_ `{JournalDigest} (now : Time.t) (item : Allocation) (poster : Poster)
    : Poster * result error (list string) :=
  if empty_s (al_AllocationID item) || empty_s (al_PaymentID item) || empty_s (al_LoanID item) ||
     empty_s (al_AssetID item) || empty_s (al_CorrelationID item) ||
     empty_s (al_EvidenceHash item) || Time.IsZero (al_AllocatedAt item)
  then (poster, Err ErrInvalidAllocation)
  else match nonNegative (al_GrossUnits item), nonNegative (al_PrincipalUnits item),
             nonNegative (al_RefundableExcessUnits item) with
  | Some gross, Some principal, Some excess =>
      if (principal <=? 0) || negb (principal + excess =? gross)
      then (poster, Err ErrInvalidAllocation)
      else match records poster !! al_AllocationID item with
      | Some existing => (poster, Ok (journalIDs existing))
      | None =>
          match PostBatch now [allocation_journal item excess; lender_journal item]
                  (book poster) with
          | (book', Err err) => (mkPoster book' (records poster), Err (ErrLedger err))
          | (book', Ok (p0 :: p1 :: _)) =>
              let ids := [posted_id p0; posted_id p1] in
              (mkPoster book' (<[al_AllocationID item := mkRecord ids false]> (records poster)),
               Ok ids)
          | (book', Ok _) => (mkPoster book' (records poster), Err PanicIndex)
          end
      end
  | _, _, _ => (poster, Err ErrInvalidAllocation)
  end.

Definition reversal_journal (item : Allocation) (request : ReversalRequest) (original : Journal)
    : Journal :=
  mkJournal (j_ID original +:+ ":reversal") (j_LegalEntityID original) (j_BookID original)
    "payment-allocation" "PAYMENT_ALLOCATION_REVERSAL" (rr_ProviderEventID request)
    (al_LoanID item) (rr_ReversalID request +:+ ":" +:+ j_ID original) (al_CorrelationID item)
    (Time.UTC (rr_ReversedAt request)) (reverse_entry <$> j_Entries original)
    (rr_EvidenceHash request) (j_ID original) (rr_ReasonCode request).

Fixpoint reversal_loop (item : Allocation) (request : ReversalRequest) (ids : list string)
    (bk : Ledger) : result error (list Journal) :=
  match ids with
  | [] => Ok []
  | journalID :: rest =>
      match Get journalID bk with
      | None => Err ErrInvalidAllocation
      | Some original =>
          let? journals := reversal_loop item request rest bk in
          Ok (reversal_journal item request (p_Journal original) :: journals)
      end
  end.

Definition ReverseAllocation_ `{JournalDigest} (now : Time.t) (item : Allocation)
    (request : ReversalRequest) (poster : Poster) : Poster * result error (list string) :=
  if empty_s (rr_ReversalID request) || empty_s (rr_ProviderEventID request) ||
     empty_s (rr_EvidenceHash request) || Time.IsZero (rr_ReversedAt request)
  then (poster, Err ErrInvalidAllocation)
  else match records poster !! al_AllocationID item with
  | None => (poster, Err ErrInvalidAllocation)
  | Some stored =>
      if reversed stored || negb (bool_decide (journalIDs stored = al_JournalIDs item))
      then (poster, Err ErrInvalidAllocation)
      else match reversal_loop item request (journalIDs stored) (book poster) with
      | Err err => (poster, Err err)
      | Ok journals =>
          match PostBatch now journals (book poster) with
          | (book', Err err) => (mkPoster book' (records poster), Err (ErrLedger err))
          | (book', Ok posted) =>
              (mkPoster book'
                 (<[al_AllocationID item := mkRecord (journalIDs stored) true]> (records poster)),
               Ok (posted_id <$> posted))
          end
      end
  end.

#[export] Instance poster_accounting `{JournalDigest} : Accounting Poster error := {
  ApplyAllocation := ApplyAllocation_;
  ReverseAllocation := ReverseAllocation_ }.

(** * Effect on the books *)

Section Effects.
Context `{JournalDigest}.

(** An allocation record as the engine builds it. *)
Definition valid_item (item : Allocation) (principal excess : Z) : Prop :=
  al_AllocationID item ≠ "" ∧ al_PaymentID item ≠ "" ∧ al_LoanID item ≠ "" ∧
  al_AssetID item ≠ "" ∧ al_CorrelationID item ≠ "" ∧ al_EvidenceHash item ≠ "" ∧
  Time.ns (al_AllocatedAt item) ≠ 0 ∧
  al_GrossUnits item = Big.to_string (principal + excess) ∧
  al_PrincipalUnits item = Big.to_string principal ∧
  al_RefundableExcessUnits item = Big.to_string excess ∧ 0 < principal ∧ 0 <= excess.

Definition allocation_movement (item : Allocation) (principal excess : Z) (account asset : string) : Z :=
  movement account asset "9120" (al_AssetID item) (principal + excess)
  - movement account asset "1310" (al_AssetID item) principal
  - movement account asset "2150" (al_AssetID item) excess
  + movement account asset "2310" (al_AssetID item) principal
  - movement account asset "2130" (al_AssetID item) principal.

Lemma entry_delta item a side u z account asset :
  u = Big.to_string z →
  account_delta account asset [entry item a side u] =
  (if side =s Debit then 1 else if side =s Credit then -1 else 0) *
  movement account asset a (al_AssetID item) z.
Proof.
  intros ->. unfold account_delta, movement, signed_units, entry_units. simpl.
  rewrite Big.set_string_to_string. simpl.
  destruct (_ && _), (side =s Debit), (side =s Credit); lia.
Qed.

Lemma clearing_entries_delta item principal excess account asset :
  valid_item item principal excess →
  account_delta account asset (allocation_entries item excess) =
    movement account asset "9120" (al_AssetID item) (principal + excess)
    - movement account asset "1310" (al_AssetID item) principal
    - movement account asset "2150" (al_AssetID item) excess.
Proof.
  intros (_&_&_&_&_&_&_&Hg&Hp&Hx&_&He). unfold allocation_entries.
  rewrite account_delta_app.
  change [entry item "9120" Debit (al_GrossUnits item); entry item "1310" Credit (al_PrincipalUnits item)]
    with ([entry item "9120" Debit (al_GrossUnits item)] ++
          [entry item "1310" Credit (al_PrincipalUnits item)]).
  rewrite account_delta_app, (entry_delta _ _ _ _ _ _ _ Hg), (entry_delta _ _ _ _ _ _ _ Hp).
  destruct (Z.ltb_spec 0 excess).
  - rewrite (entry_delta _ _ _ _ _ _ _ Hx). change (Credit =s Debit) with false. simpl. lia.
  - assert (excess = 0) as -> by lia. rewrite movement_0. unfold account_delta. simpl. lia.
Qed.

Lemma entry_ok_entry item a side u z :
  a ≠ "" → al_AssetID item ≠ "" → u = Big.to_string z → 0 < z → (side = Debit ∨ side = Credit) →
  entry_ok (entry item a side u) = true.
Proof.
  intros Ha Hs -> Hz Hside. unfold entry_ok. simpl.
  rewrite (proj2 (Big.positive_Some _ _) (conj (Big.set_string_to_string z) Hz)).
  rewrite !(proj2 (String.eqb_neq _ _)) by done. by destruct Hside as [-> | ->].
Qed.

Lemma allocation_journal_valid item principal excess h :
  valid_item item principal excess →
  journal_digest (allocation_journal item excess) = Some h →
  validateAndHash (allocation_journal item excess) = Ok h.
Proof.
  intros (H1&H2&H3&H4&H5&H6&H7&Hg&Hp&Hx&Hp0&Hx0) Hd. apply validateAndHash_Ok. split; [|done].
  split; simpl.
  - split_and!; try done. by destruct (al_AllocationID item).
  - done.
  - lia.
  - unfold allocation_entries. apply Forall_app. split.
    + repeat constructor; eapply entry_ok_entry; eauto; lia.
    + destruct (Z.ltb_spec 0 excess); repeat constructor. eapply entry_ok_entry; eauto.
  - intros x. unfold allocation_entries, side_total.
    destruct (Z.ltb_spec 0 excess); simpl; unfold entry_units; simpl;
      rewrite Hg, Hp, ?Hx, !Big.set_string_to_string; simpl;
      destruct (al_AssetID item =s x); simpl; lia.
Qed.

Lemma lender_journal_valid item principal excess h :
  valid_item item principal excess → journal_digest (lender_journal item) = Some h →
  validateAndHash (lender_journal item) = Ok h.
Proof.
  intros (H1&H2&H3&H4&H5&H6&H7&Hg&Hp&Hx&Hp0&Hx0) Hd. apply validateAndHash_Ok. split; [|done].
  split; simpl; try done.
  - split_and!; try done. by destruct (al_AllocationID item).
  - eapply two_entries_ok; try done. apply Big.positive_Some. rewrite Hp.
    split; [apply Big.set_string_to_string|done].
Qed.

Lemma allocation_lender_distinct item excess :
  j_ID (lender_journal item) ≠ j_ID (allocation_journal item excess) ∧
  scope (lender_journal item) ≠ scope (allocation_journal item excess).
Proof.
  assert (∀ a b c : string, a +:+ b = a +:+ c → b = c) as Hinj.
  { induction a as [|x a IH]; intros b c E; [done|]. injection E. apply IH. }
  split; unfold scope; simpl; intros E; repeat (apply Hinj in E || injection E as E);
    discriminate E || (apply (Hinj (al_AllocationID item)) in E; discriminate E).
Qed.

(** The identifiers [ApplyAllocation] hands out. *)
Definition allocation_ids (item : Allocation) : list string :=
  [j_ID (allocation_journal item 0); j_ID (lender_journal item)].

(** A new allocation posts its two journals. *)
Lemma Apply_fresh now item poster principal excess h1 h2 :
  valid_item item principal excess → records poster !! al_AllocationID item = None →
  fresh (allocation_journal item excess) (book poster) → fresh (lender_journal item) (book poster) →
  journal_digest (allocation_journal item excess) = Some h1 →
  journal_digest (lender_journal item) = Some h2 →
  ApplyAllocation_ now item poster =
    (mkPoster (store_all now [(allocation_journal item excess, h1); (lender_journal item, h2)]
                 (book poster))
       (<[al_AllocationID item := mkRecord (allocation_ids item) false]> (records poster)),
     Ok (allocation_ids item)) ∧
  fresh_batch now [(allocation_journal item excess, h1); (lender_journal item, h2)] (book poster).
Proof.
  intros Hv Hrec Hf1 Hf2 Hd1 Hd2. destruct (allocation_lender_distinct item excess) as [Hid Hsc].
  assert (fresh_batch now [(allocation_journal item excess, h1); (lender_journal item, h2)]
            (book poster)) as Hfb by (split; [done|split; [by apply fresh_store|done]]).
  split; [|done]. unfold ApplyAllocation_.
  pose proof (allocation_journal_valid _ _ _ _ Hv Hd1) as Hv1.
  pose proof (lender_journal_valid _ _ _ _ Hv Hd2) as Hv2.
  destruct Hv as (H1&H2&H3&H4&H5&H6&H7&Hg&Hp&Hx&Hp0&Hx0). pass_guard.
  unfold nonNegative. rewrite Hg, Hp, Hx.
  rewrite !Big.canonical_nonneg_to_string by lia.
  rewrite (proj2 (Z.leb_gt _ _) Hp0), Z.eqb_refl, Hrec. simpl negb. cbv iota.
  rewrite (PostBatch_fresh now _ [(allocation_journal item excess, h1); (lender_journal item, h2)]);
    [reflexivity|done|done|by repeat constructor|done].
Qed.

Lemma Apply_balance now item book principal excess h1 h2 account asset :
  valid_item item principal excess →
  fresh_batch now [(allocation_journal item excess, h1); (lender_journal item, h2)] book →
  account_balance account asset
    (store_all now [(allocation_journal item excess, h1); (lender_journal item, h2)] book) =
  account_balance account asset book + allocation_movement item principal excess account asset.
Proof.
  intros Hv Hfb. rewrite store_all_account_balance by done. unfold Zsum. cbn [foldr].
  change (j_Entries (allocation_journal item excess)) with (allocation_entries item excess).
  rewrite (clearing_entries_delta _ _ _ _ _ Hv). destruct Hv as (_&_&_&_&_&_&_&_&Hp&_&Hp0&_).
  change (j_Entries (lender_journal item)) with
    ([entry item "2310" Debit (al_PrincipalUnits item);
      entry item "2130" Credit (al_PrincipalUnits item)]).
  unfold entry. erewrite two_entries_delta by (apply Big.positive_Some; rewrite Hp;
    split; [apply Big.set_string_to_string|exact Hp0]).
  unfold allocation_movement. lia.
Qed.

(** What a successful posting of an unrecorded allocation tells. *)
Lemma Apply_Ok now item poster poster' ids :
  ApplyAllocation_ now item poster = (poster', Ok ids) →
  records poster !! al_AllocationID item = None →
  ∃ principal excess h1 h2, valid_item item principal excess ∧
    journal_digest (allocation_journal item excess) = Some h1 ∧
    journal_digest (lender_journal item) = Some h2.
Proof.
  intros Ha Hrec. unfold ApplyAllocation_ in Ha. destruct (_ || _) eqn:Hg; [done|].
  unfold nonNegative in Ha.
  destruct (Big.canonical_nonneg (al_GrossUnits item)) as [g|] eqn:Eg; [|done].
  destruct (Big.canonical_nonneg (al_PrincipalUnits item)) as [p|] eqn:Ep; [|done].
  destruct (Big.canonical_nonneg (al_RefundableExcessUnits item)) as [x|] eqn:Ex; [|done].
  destruct ((p <=? 0) || _) eqn:Hs; [done|]. rewrite Hrec in Ha. unfold PostBatch in Ha.
  destruct (hash_all _) as [hs|] eqn:Hh; [|done]. cbn [hash_all] in Hh.
  destruct (validateAndHash (allocation_journal item x)) as [h1|] eqn:V1; [|done].
  destruct (validateAndHash (lender_journal item)) as [h2|] eqn:V2; [|done].
  apply validateAndHash_Ok in V1 as [_ D1], V2 as [_ D2].
  apply Big.canonical_nonneg_Some in Eg as [Eg ?], Ep as [Ep ?], Ex as [Ex ?].
  bool_facts. unfold Time.IsZero in *. bool_facts.
  exists p, x, h1, h2. unfold valid_item. subst g. split_and!; try done.
Qed.

Lemma append_longer (a b : string) : b ≠ "" → a ≠ a +:+ b.
Proof.
  intros Hb E. apply (f_equal String.length) in E.
  assert (∀ x y : string, String.length (x +:+ y) = (String.length x + String.length y)%nat) as Hl.
  { intros x y. induction x as [|c x IH]; [done|]. exact (f_equal Datatypes.S IH). }
  rewrite Hl in E. destruct b; simpl in E; [done|lia].
Qed.

Definition valid_reversal (rq : ReversalRequest) : Prop :=
  rr_ReversalID rq ≠ "" ∧ rr_ProviderEventID rq ≠ "" ∧ rr_EvidenceHash rq ≠ "" ∧
  Time.ns (rr_ReversedAt rq) ≠ 0.

Lemma reversal_journal_valid item rq j h :
  well_formed j → valid_reversal rq → al_CorrelationID item ≠ "" →
  journal_digest (reversal_journal item rq j) = Some h →
  validateAndHash (reversal_journal item rq j) = Ok h.
Proof.
  intros [Hr Hself Hlen HF Hb] (?&?&?&?) Hc Hd. destruct_and! Hr.
  apply validateAndHash_Ok. split; [|done]. split; simpl.
  - split_and!; try done; [by destruct (j_ID j)|by destruct (rr_ReversalID rq)].
  - by apply append_longer.
  - by rewrite length_fmap.
  - apply Forall_fmap. eapply Forall_impl; [exact HF|]. apply entry_ok_reverse.
  - intros asset. destruct (side_total_reverse asset _ HF) as [-> ->]. by rewrite Hb.
Qed.

Lemma reversal_loop_Ok item rq ps bk :
  Forall (λ p, Get (posted_id p) bk = Some p) ps →
  reversal_loop item rq (posted_id <$> ps) bk =
    Ok ((λ p, reversal_journal item rq (p_Journal p)) <$> ps).
Proof.
  induction 1 as [|p ps Hp _ IH]; [done|]. rewrite fmap_cons. cbn [reversal_loop].
  by rewrite Hp, IH.
Qed.

(** Reversing a recorded allocation takes its journals' movements out. *)
Lemma Reverse_effect now item rq poster ps hs :
  records poster !! al_AllocationID item = Some (mkRecord (posted_id <$> ps) false) →
  al_JournalIDs item = posted_id <$> ps → ps ≠ [] →
  Forall (λ p, Get (posted_id p) (book poster) = Some p ∧ well_formed (p_Journal p)) ps →
  valid_reversal rq → al_CorrelationID item ≠ "" →
  hs.*1 = (λ p, reversal_journal item rq (p_Journal p)) <$> ps →
  Forall (λ '(j, h), journal_digest j = Some h) hs → fresh_batch now hs (book poster) →
  let poster' := mkPoster (store_all now hs (book poster))
    (<[al_AllocationID item := mkRecord (posted_id <$> ps) true]> (records poster)) in
  ReverseAllocation_ now item rq poster =
    (poster', Ok ((λ p, posted_id p +:+ ":reversal") <$> ps)) ∧
  ∀ account asset, account_balance account asset (book poster') =
    account_balance account asset (book poster) -
    Zsum (λ p, account_delta account asset (j_Entries (p_Journal p))) ps.
Proof.
  intros Hrec Hids Hne HF Hrq Hc Hhs Hd Hfb poster'.
  apply Forall_and in HF as [HG HW].
  assert (Forall (λ '(j, h), validateAndHash j = Ok h) hs) as HV.
  { apply Forall_forall. intros [j h] Hin. rewrite Forall_forall in Hd. specialize (Hd _ Hin).
    assert (j ∈ hs.*1) as Hj by (apply list_elem_of_fmap; by exists (j, h)).
    rewrite Hhs in Hj. apply list_elem_of_fmap in Hj as (p & -> & Hp).
    rewrite Forall_forall in HW. by apply reversal_journal_valid; [apply HW| | |]. }
  split.
  - unfold ReverseAllocation_. destruct Hrq as (?&?&?&?). pass_guard.
    rewrite Hrec. simpl. rewrite Hids, bool_decide_eq_true_2 by done. simpl.
    rewrite reversal_loop_Ok by done.
    rewrite (PostBatch_fresh now _ hs);
      [|intros E; by destruct ps|done|done|done].
    f_equal. f_equal. rewrite <- list_fmap_compose.
    rewrite (list_fmap_ext _ (j_ID ∘ fst) hs) by (by intros ? []).
    rewrite list_fmap_compose, Hhs, <- list_fmap_compose. done.
  - intros account asset. apply store_all_negation; [done| |].
    + change (λ jh : Journal * string, j_Entries jh.1) with (j_Entries ∘ fst (A := Journal) (B := string)).
      by rewrite list_fmap_compose, Hhs, <- list_fmap_compose.
    + eapply Forall_impl; [exact HW|]. by intros p [].
Qed.

(** A reversal undoes its allocation. Post a new allocation, let the book
    grow in any way, then reverse the allocation with journals that are new to
    the book: the reversal succeeds and takes exactly the allocation's movements
    (clearing, receivable, refundable excess, lender claim and payable) out of
    every account balance, and a second reversal is refused. *)
Theorem reversal_undoes_allocation now now' item rq poster poster2 principal excess h1 h2 hr1 hr2 :
  let poster1 := (ApplyAllocation_ now item poster).1 in
  let item' := with_journals (allocation_ids item) item in
  let r1 := reversal_journal item' rq (allocation_journal item excess) in
  let r2 := reversal_journal item' rq (lender_journal item) in
  valid_item item principal excess → records poster !! al_AllocationID item = None →
  fresh (allocation_journal item excess) (book poster) → fresh (lender_journal item) (book poster) →
  journal_digest (allocation_journal item excess) = Some h1 →
  journal_digest (lender_journal item) = Some h2 →
  extends (book poster1) (book poster2) →
  records poster2 !! al_AllocationID item = records poster1 !! al_AllocationID item →
  valid_reversal rq → journal_digest r1 = Some hr1 → journal_digest r2 = Some hr2 →
  fresh_batch now' [(r1, hr1); (r2, hr2)] (book poster2) →
  (∀ account asset, account_balance account asset (book poster1) =
     account_balance account asset (book poster) + allocation_movement item principal excess account asset) ∧
  ∃ poster3 ids, ReverseAllocation_ now' item' rq poster2 = (poster3, Ok ids) ∧
    (∀ account asset, account_balance account asset (book poster3) =
       account_balance account asset (book poster2) - allocation_movement item principal excess account asset) ∧
    ∀ now'' rq', ReverseAllocation_ now'' item' rq' poster3 = (poster3, Err ErrInvalidAllocation).
Proof.
  intros poster1 item' r1 r2 Hv Hrec Hf1 Hf2 Hd1 Hd2 Hext Hrec2 Hrq Hr1 Hr2 Hfb2.
  destruct (Apply_fresh now item poster principal excess h1 h2) as [Ha Hfb]; try done.
  unfold poster1 in *. rewrite Ha in Hext, Hrec2 |- *. cbn [fst book records] in *.
  rewrite lookup_insert_eq in Hrec2.
  pose proof (λ account asset, Apply_balance now item (book poster) principal excess h1 h2
                account asset Hv Hfb) as Hbal.
  split; [exact Hbal|].
  set (p1 := mkPosted (allocation_journal item excess) h1 now).
  set (p2 := mkPosted (lender_journal item) h2 now).
  assert (Forall (λ p, Get (posted_id p) (book poster2) = Some p ∧ well_formed (p_Journal p))
            [p1; p2]) as HF.
  { destruct Hext as [Hsub _]. destruct (allocation_lender_distinct item excess) as [Hid _].
    constructor; [split|constructor; [split|constructor]].
    - eapply lookup_weaken; [|exact Hsub]. simpl.
      rewrite lookup_insert_ne by done. apply lookup_insert_eq.
    - by apply (proj1 (validateAndHash_Ok _ h1)), (allocation_journal_valid _ principal).
    - eapply lookup_weaken; [|exact Hsub]. simpl. apply lookup_insert_eq.
    - by apply (proj1 (validateAndHash_Ok _ h2)), (lender_journal_valid _ principal excess). }
  destruct (Reverse_effect now' item' rq poster2 [p1; p2] [(r1, hr1); (r2, hr2)]) as [Hrev Heff];
    try done; [apply Hv|by repeat constructor|].
  eexists _, _. split; [exact Hrev|]. split.
  - intros account asset. rewrite Heff. f_equal.
    pose proof (Hbal account asset) as Hb. rewrite store_all_account_balance in Hb by done.
    unfold Zsum in Hb |- *. cbn [foldr] in Hb |- *. simpl p_Journal. lia.
  - intros now'' rq'. unfold ReverseAllocation_. destruct (_ || _); [done|].
    simpl. by rewrite lookup_insert_eq.
Qed.
End Effects.

(** * The engine and the books *)

Section Lockstep.
Context {W S : Type} `{ClaimStore W S, JournalDigest, Sha256, Json}.

Lemma movement_same z account asset : movement account asset account asset z = z.
Proof. unfold movement. by rewrite !String.eqb_refl. Qed.

Lemma movement_other z account asset a x : a ≠ account → movement account asset a x z = 0.
Proof. intros Ha. unfold movement. by rewrite (proj2 (String.eqb_neq _ _) Ha). Qed.

Lemma receivable_movement item principal excess :
  allocation_movement item principal excess "1310" (al_AssetID item) = - principal.
Proof.
  unfold allocation_movement. rewrite movement_same.
  rewrite !(movement_other _ "1310") by done. lia.
Qed.

(** Engine and books move in lockstep. When a payment is newly allocated
    through the posting kernel, with journals that are new to the book, the
    loan's outstanding principal falls by exactly the amount the principal
    receivable account is credited, and only that loan's debt changes. *)
Theorem allocation_lockstep (now : Time.t) (rq : Request) (sys : System S Poster) (a : Allocation) :
  sys_reachable (W := W) (E := error) sys →
  Allocation.byPayment (engine sys) !! fp_PaymentID (rq_Payment rq) = None →
  records (accounting sys) !! rq_AllocationID rq = None →
  (Allocate (W := W) (E := error) now rq sys).2 = Ok a →
  (∀ excess, fresh (allocation_journal a excess) (book (accounting sys))) →
  fresh (lender_journal a) (book (accounting sys)) →
  let sys' := (Allocate (W := W) (E := error) now rq sys).1 in
  let receivable s := account_balance "1310" (al_AssetID a) (book (accounting s)) in
  outstanding (engine sys') (rq_LoanID rq) - outstanding (engine sys) (rq_LoanID rq) =
    receivable sys' - receivable sys ∧
  (∀ loan, loan ≠ rq_LoanID rq → outstanding (engine sys') loan = outstanding (engine sys) loan).
Proof.
  intros [init I]%sys_reachable_inv Hun Hrec.
  intros Hok Hf1 Hf2 sys' receivable.
  destruct (Allocate_new (W := W) (E := error) init now rq sys a I Hun Hok) as [_ _ _ (o & debt & gross & digest & ids & c & b & Ho & _ & _ & Hdebt & Hgross & Hd0 &
    Hg0 & Ea & _ & Happ & He)].
  fold sys' in Happ, He. subst a.
  set (draft := draft_allocation rq o gross (Z.min debt gross) (gross - Z.min debt gross) debt
                  (debt - Z.min debt gross) digest []) in *.
  destruct (ei_obligation _ _ I _ _ Ho) as [Hlid _].
  pose proof (Apply_Ok _ _ _ _ _ Happ Hrec) as (p & x & h1 & h2 & Hv & Hd1 & Hd2).
  destruct (Apply_fresh now draft (accounting sys) p x h1 h2) as [Happ' Hfb]; try done.
  { apply Hf1. }
  simpl in Happ. rewrite Happ' in Happ. injection Happ as Hacct _.
  pose proof Hv as (_&_&_&_&_&_&_&_&Hp&_). simpl in Hp. apply Big.to_string_inj in Hp.
  assert (receivable sys' - receivable sys = - Z.min debt gross) as ->.
  { unfold receivable. rewrite <- Hacct. cbn [book].
    rewrite (Apply_balance _ _ _ _ _ _ _ _ _ Hv Hfb).
    change (al_AssetID (with_journals ids draft)) with (al_AssetID draft).
    rewrite receivable_movement. lia. }
  split.
  - rewrite (outstanding_move (engine sys) _ o _ _ _ _ _ (f_equal obligations He)).
    rewrite Hlid, String.eqb_refl. unfold outstanding.
    rewrite (lookup_zero_Some _ _ _ _ Ho), Hdebt, units_to_string. lia.
  - intros loan Hne. rewrite (outstanding_move (engine sys) _ o _ _ _ _ _ (f_equal obligations He)).
    rewrite Hlid. by rewrite (proj2 (String.eqb_neq _ _)) by done.
Qed.
End Lockstep.

(** * A concrete allocation and its reversal *)

Module Sample.
#[local] Existing Instance id_digest.
#[local] Instance plain_sha : Sha256 := λ _, "h".
#[local] Instance plain_json : Json := λ _, "".
Import Allocation.Sample (t, loan, pay, id, rq, m0, undo).

Definition item : Allocation :=
  draft_allocation rq loan 130 100 30 100 0 "digest" [].
Definition poster : Poster := mkPoster Ledger.New ∅.
Definition poster1 : Poster := (ApplyAllocation_ (t 7) item poster).1.
Definition s0 : System MemoryStore Poster :=
  mkSystem (mkEngine {["L" := loan]} ∅ ∅ ∅) poster m0.

Lemma item_valid : valid_item item 100 30.
Proof. by vm_compute. Qed.

Lemma reversal_undoes_allocation_witness :
  ∃ poster3 ids,
    ReverseAllocation_ (t 10) (with_journals (allocation_ids item) item) undo poster1
      = (poster3, Ok ids) ∧
    account_balance "1310" "USD" (book poster3) = account_balance "1310" "USD" (book poster1) + 100.
Proof.
  destruct (reversal_undoes_allocation (t 7) (t 10) item undo poster poster1 100 30
    (j_ID (allocation_journal item 30) +:+ "p1") (j_ID (lender_journal item) +:+ "p1")
    (j_ID (allocation_journal item 30) +:+ ":reversal" +:+ "pe")
    (j_ID (lender_journal item) +:+ ":reversal" +:+ "pe"))
    as (_ & poster3 & ids & Hr & Hb & _);
    [exact item_valid|reflexivity|by split|by split|reflexivity|reflexivity|done|reflexivity
    |by vm_compute|reflexivity|reflexivity| |].
  { split; [|split; [|done]]; (split; [reflexivity|reflexivity|]); intros _; split;
      [eexists; vm_compute; reflexivity|reflexivity|eexists; vm_compute; reflexivity|reflexivity]. }
  exists poster3, ids. split; [exact Hr|]. rewrite Hb. reflexivity.
Defined.

Lemma posted_s0_reachable : sys_reachable (W := Z) (E := error) s0.
Proof.
  exists [loan], poster, m0, s0. split; [apply AllocationMode.Sample.r0_reachable|].
  split; [reflexivity|apply rtc_refl].
Qed.

Definition a1 : Allocation :=
  match (Allocate (W := Z) (E := error) (t 7) rq s0).2 with Ok a => a | Err _ => zeroAllocation end.

Lemma allocation_lockstep_witness :
  let s1 := (Allocate (W := Z) (E := error) (t 7) rq s0).1 in
  outstanding (engine s1) "L" - outstanding (engine s0) "L" =
    account_balance "1310" "USD" (book (accounting s1)) -
    account_balance "1310" "USD" (book (accounting s0)).
Proof.
  destruct (allocation_lockstep (W := Z) (t 7) rq s0 a1 posted_s0_reachable) as [H _];
    [reflexivity|reflexivity|vm_compute; reflexivity| | |exact H].
  - intros excess. split; [reflexivity|reflexivity|]. intros Hne. by destruct Hne.
  - split; [reflexivity|reflexivity|]. intros Hne. by destruct Hne.
Defined.
End Sample.
