(* ===== verification/PaymentAccounting.v ===== *)
(** Payment journals and provider reconciliation
    ([foundation-ledger/internal/paymentaccounting]): accepted provider
    transitions become balanced journals, and provider statements are compared
    with the finalized payments. *)
From S2P Require Import Prelude GoStd PaymentTypes Ledger.

(** * Data *)

Inductive error :=
| ErrInvalidTransition | ErrTransitionConflict | ErrInvalidReconciliation
| ErrReconciliationConflict | ErrInvalidResolution
| ErrLedger (inner : Ledger.error).

Record Record_ := mkRecord {
  r_PaymentID : string;
  r_ProvisionalJournalID : string;
  r_FinalJournalID : string;
  r_ReversalJournalIDs : list string }.
Definition zeroRecord : Record_ := mkRecord "" "" "" [].

Record appliedTransition := mkApplied { contentHash : string; a_journalIDs : list string }.

Record Poster := mkPoster {
  book : Ledger;
  legalEntityID : string;
  bookID : string;
  records : gmap string Record_;
  events : gmap string appliedTransition }.

Definition StatementSettled : string := "SETTLED".
Definition StatementReversed : string := "REVERSED".

Record StatementEntry := mkStatementEntry {
  s_EntryID : string;
  s_ProviderID : string;
  s_ProviderReference : string;
  s_PaymentID : string;
  s_AssetID : string;
  s_Units : string;
  s_Kind : string;
  s_OccurredAt : Time.t }.

Definition ReconciliationMatched : string := "MATCHED".
Definition ReconciliationException : string := "EXCEPTION".

Record ReconciliationRun := mkRun {
  run_RunID : string;
  run_ProviderID : string;
  run_AssetID : string;
  run_AsOf : Time.t;
  run_ProviderSnapshotHash : string;
  run_LedgerSnapshotHash : string;
  run_ExpectedUnits : string;
  run_ObservedUnits : string;
  run_DifferenceUnits : string;
  run_UnmatchedItems : Z;
  run_Status : string;
  run_Owner : string;
  run_ResolutionDeadline : Time.t;
  run_CreatedAt : Time.t }.

Record Exception_ := mkException {
  x_ExceptionID : string;
  x_RunID : string;
  x_ProviderID : string;
  x_AssetID : string;
  x_DifferenceUnits : string;
  x_UnmatchedItems : Z;
  x_ReasonCode : string;
  x_Owner : string;
  x_DetectedAt : Time.t;
  x_ResolutionDeadline : Time.t }.

Record Resolution_ := mkResolution {
  z_ResolutionID : string;
  z_ExceptionID : string;
  z_EvidenceHash : string;
  z_ResolutionJournalID : string;
  z_ResolvedBy : string;
  z_ResolvedAt : Time.t }.

Record Reconciler := mkReconciler {
  runs : gmap string ReconciliationRun;
  runHashes : gmap string string;
  exceptions : gmap string Exception_;
  resolutions : gmap string Resolution_ }.

(** [hashJSON] on the four types it is applied to: SHA-256 over the JSON
    encoding, a parameter of the model. *)
Class PaymentDigests := {
  hash_transition : Transition → string;
  hash_statement : list StatementEntry → string;
  hash_evidence : list string → string;
  hash_run : ReconciliationRun → string }.

(** * Posting provider transitions *)

Definition New (book : option Ledger) (legalEntityID bookID : string) : result error Poster :=
  match book with
  | None => Err ErrInvalidTransition
  | Some book =>
      if empty_s legalEntityID || empty_s bookID then Err ErrInvalidTransition
      else Ok (mkPoster book legalEntityID bookID ∅ ∅)
  end.

Definition reversalReason (reversalOf : string) : string :=
  if empty_s reversalOf then "" else "authenticated provider reversal".

Definition entry (transition : Transition) (account side : string) : Entry :=
  let p := t_Payment transition in
  mkEntry account side (i_AssetID p) (i_Units p) (i_PayerReference p) (i_LoanID p) "".

Definition journal (poster : Poster) (transition : Transition) (entryType stage : string)
    (entries : list Entry) (reversalOf : string) : Journal :=
  let p := t_Payment transition in
  mkJournal ("payment:" +:+ i_PaymentID p +:+ ":" +:+ stage) (legalEntityID poster)
    (bookID poster) "payment-orchestrator" entryType
    (i_ProviderID p +:+ ":" +:+ t_ProviderEventID transition) (i_LoanID p)
    ("payment:" +:+ i_PaymentID p +:+ ":" +:+ stage) (i_CorrelationID p)
    (Time.UTC (t_OccurredAt transition)) entries (t_EvidenceHash transition) reversalOf
    (reversalReason reversalOf).

Definition pendingAccount (transition : Transition) : string :=
  if i_Rail (t_Payment transition) =s RailCard then "9130" else "9140".
Definition settlementAccount (transition : Transition) : string :=
  if i_Rail (t_Payment transition) =s RailCard then "1120" else "1100".

Definition provisionalJournal (poster : Poster) (transition : Transition) : Journal :=
  journal poster transition "PAYMENT_PROVISIONAL" "provisional"
    [entry transition (pendingAccount transition) Debit; entry transition "9120" Credit] "".

Definition finalJournal (poster : Poster) (transition : Transition) : Journal :=
  journal poster transition "PAYMENT_FINAL" "final"
    [entry transition (settlementAccount transition) Debit;
     entry transition (pendingAccount transition) Credit] "".

Definition reversalJournal (poster : Poster) (transition : Transition) (original : PostedJournal)
    : Journal :=
  let stage := if j_EntryType (p_Journal original) =s "PAYMENT_FINAL" then "final" else "provisional" in
  journal poster transition "PAYMENT_REVERSAL" (stage +:+ "-reversal")
    (reverse_entry <$> j_Entries (p_Journal original)) (j_ID (p_Journal original)).

(** The loop over the journals to reverse. *)
Fixpoint reversal_targets (poster : Poster) (transition : Transition) (targets : list string)
    : result error (list Journal) :=
  match targets with
  | [] => Ok []
  | target :: rest =>
      if empty_s target then Err ErrInvalidTransition
      else match Get target (book poster) with
      | None => Err ErrInvalidTransition
      | Some original =>
          let? journals := reversal_targets poster transition rest in
          Ok (reversalJournal poster transition original :: journals)
      end
  end.

(** The [switch transition.To]: the journals to post and the next record. *)
Definition transition_journals (poster : Poster) (transition : Transition) (record : Record_)
    : result error (list Journal * Record_) :=
  if t_To transition =s StatusProvisional then
    if (t_From transition <>s StatusProcessing) || (r_ProvisionalJournalID record <>s "")
    then Err ErrInvalidTransition
    else
      let journal := provisionalJournal poster transition in
      Ok ([journal], mkRecord (i_PaymentID (t_Payment transition)) (j_ID journal)
                       (r_FinalJournalID record) (r_ReversalJournalIDs record))
  else if t_To transition =s StatusFinal then
    if (t_From transition <>s StatusProvisional) || empty_s (r_ProvisionalJournalID record) ||
       (r_FinalJournalID record <>s "")
    then Err ErrInvalidTransition
    else
      let journal := finalJournal poster transition in
      Ok ([journal], mkRecord (r_PaymentID record) (r_ProvisionalJournalID record) (j_ID journal)
                       (r_ReversalJournalIDs record))
  else if t_To transition =s StatusReversed then
    if negb (length (r_ReversalJournalIDs record) =? 0)%nat ||
       ((t_From transition <>s StatusProvisional) && (t_From transition <>s StatusFinal))
    then Err ErrInvalidTransition
    else
      let targets := if t_From transition =s StatusFinal
                     then [r_FinalJournalID record; r_ProvisionalJournalID record]
                     else [r_ProvisionalJournalID record] in
      let? journals := reversal_targets poster transition targets in
      Ok (journals, record)
  else Err ErrInvalidTransition.

Definition posted_id (p : PostedJournal) : string := j_ID (p_Journal p).

Section Apply.
Context `{JournalDigest, PaymentDigests}.

Definition Apply (now : Time.t) (transition : Transition) (poster : Poster)
    : Poster * result error (list string) :=
  let p := t_Payment transition in
  if empty_s (i_PaymentID p) || empty_s (i_ProviderID p) || empty_s (t_ProviderEventID transition) ||
     empty_s (t_EvidenceHash transition) || Time.IsZero (t_OccurredAt transition) ||
     Time.IsZero (t_ReceivedAt transition) || (i_Status p <>s t_To transition)
  then (poster, Err ErrInvalidTransition)
  else
    let content := hash_transition transition in
    let eventKey := i_ProviderID p +:+ nul +:+ t_ProviderEventID transition in
    match events poster !! eventKey with
    | Some existing =>
        if contentHash existing <>s content then (poster, Err ErrTransitionConflict)
        else (poster, Ok (a_journalIDs existing))
    | None =>
        let record := lookup_zero zeroRecord (records poster) (i_PaymentID p) in
        match transition_journals poster transition record with
        | Err err => (poster, Err err)
        | Ok (journals, record) =>
            match PostBatch now journals (book poster) with
            | (book', Err err) =>
                (mkPoster book' (legalEntityID poster) (bookID poster) (records poster)
                   (events poster), Err (ErrLedger err))
            | (book', Ok posted) =>
                let ids := posted_id <$> posted in
                let record :=
                  if t_To transition =s StatusReversed
                  then mkRecord (r_PaymentID record) (r_ProvisionalJournalID record)
                         (r_FinalJournalID record) ids
                  else record in
                (mkPoster book' (legalEntityID poster) (bookID poster)
                   (<[i_PaymentID p := record]> (records poster))
                   (<[eventKey := mkApplied content ids]> (events poster)), Ok ids)
            end
        end
    end.

Definition Record_lookup (paymentID : string) (poster : Poster) : option Record_ :=
  records poster !! paymentID.
End Apply.

#[export] Instance poster_payment_accounting `{JournalDigest, PaymentDigests} :
  PaymentTypes.PaymentAccounting Poster error := Apply.

(** * Reconciliation *)

Definition canonicalInteger (value : string) : option Z := Big.canonical value.

Definition reconciliationKey (paymentID providerReference : string) : string :=
  paymentID +:+ nul +:+ providerReference.

Definition addUnits (target : gmap string Z) (key : string) (units : Z) : gmap string Z :=
  <[key := lookup_zero 0 target key + units]> target.

(** Loop state over the payments: total, per-key map, seen ids, evidence. *)
Record Expected := mkExpected {
  expected : Z;
  expectedByPayment : gmap string Z;
  seenPayments : gset string;
  ledgerEvidence : list string }.

Fixpoint evidence_loop (ids : list string) (bk : Ledger) (evidence : list string)
    : result error (list string) :=
  match ids with
  | [] => Ok evidence
  | journalID :: rest =>
      if empty_s journalID then evidence_loop rest bk evidence
      else match Get journalID bk with
      | None => Err ErrInvalidReconciliation
      | Some journal =>
          evidence_loop rest bk
            (evidence ++ [j_ID (p_Journal journal) +:+ ":" +:+ p_ContentHash journal])
      end
  end.

Definition payment_step (providerID assetID : string) (asOf : Time.t) (poster : Poster)
    (intent : Intent) (st : Expected) : result error Expected :=
  if (i_ProviderID intent <>s providerID) || (i_AssetID intent <>s assetID) ||
     Time.After (i_CreatedAt intent) asOf
  then Ok st
  else if empty_s (i_PaymentID intent) || bool_decide (i_PaymentID intent ∈ seenPayments st)
  then Err ErrInvalidReconciliation
  else
    let seen := {[i_PaymentID intent]} ∪ seenPayments st in
    match canonicalInteger (i_Units intent) with
    | None => Err ErrInvalidReconciliation
    | Some units =>
        if units <=? 0 then Err ErrInvalidReconciliation else
        let settled := negb (Time.IsZero (i_FinalizedAt intent)) &&
                       negb (Time.After (i_FinalizedAt intent) asOf) &&
                       (Time.IsZero (i_ReversedAt intent) || Time.After (i_ReversedAt intent) asOf) in
        if settled && empty_s (i_ProviderReference intent) then Err ErrInvalidReconciliation else
        let total := if settled then expected st + units else expected st in
        let byPayment :=
          if settled
          then <[reconciliationKey (i_PaymentID intent) (i_ProviderReference intent) := units]>
                 (expectedByPayment st)
          else expectedByPayment st in
        match Record_lookup (i_PaymentID intent) poster with
        | None =>
            if negb (Time.IsZero (i_ProvisionalAt intent)) &&
               negb (Time.After (i_ProvisionalAt intent) asOf)
            then Err ErrInvalidReconciliation
            else Ok (mkExpected total byPayment seen (ledgerEvidence st))
        | Some record =>
            let ids := [r_ProvisionalJournalID record; r_FinalJournalID record] ++
                       r_ReversalJournalIDs record in
            let? evidence := evidence_loop ids (book poster) (ledgerEvidence st) in
            Ok (mkExpected total byPayment seen evidence)
        end
    end.

Fixpoint payment_loop (providerID assetID : string) (asOf : Time.t) (poster : Poster)
    (payments : list Intent) (st : Expected) : result error Expected :=
  match payments with
  | [] => Ok st
  | intent :: rest =>
      let? st := payment_step providerID assetID asOf poster intent st in
      payment_loop providerID assetID asOf poster rest st
  end.

Record Observed := mkObserved {
  observed : Z;
  observedByPayment : gmap string Z;
  statementEvidence : list StatementEntry;
  seenEntries : gset string }.

Definition statement_step (providerID assetID : string) (asOf : Time.t) (e : StatementEntry)
    (st : Observed) : result error Observed :=
  if empty_s (s_EntryID e) || (s_ProviderID e <>s providerID) || (s_AssetID e <>s assetID) ||
     empty_s (s_ProviderReference e) || empty_s (s_PaymentID e) || Time.IsZero (s_OccurredAt e) ||
     Time.After (s_OccurredAt e) asOf || bool_decide (s_EntryID e ∈ seenEntries st)
  then Err ErrInvalidReconciliation
  else
    let seen := {[s_EntryID e]} ∪ seenEntries st in
    match canonicalInteger (s_Units e) with
    | None => Err ErrInvalidReconciliation
    | Some units =>
        if units <=? 0 then Err ErrInvalidReconciliation else
        let key := reconciliationKey (s_PaymentID e) (s_ProviderReference e) in
        if s_Kind e =s StatementSettled then
          Ok (mkObserved (observed st + units) (addUnits (observedByPayment st) key units)
                (statementEvidence st ++ [e]) seen)
        else if s_Kind e =s StatementReversed then
          Ok (mkObserved (observed st - units) (addUnits (observedByPayment st) key (- units))
                (statementEvidence st ++ [e]) seen)
        else Err ErrInvalidReconciliation
    end.

Fixpoint statement_loop (providerID assetID : string) (asOf : Time.t)
    (statement : list StatementEntry) (st : Observed) : result error Observed :=
  match statement with
  | [] => Ok st
  | e :: rest =>
      let? st := statement_step providerID assetID asOf e st in
      statement_loop providerID assetID asOf rest st
  end.

(** Counts in a [uint32]; the iteration order over the key set does not
    matter to the count. *)
Definition mismatchCount (expected observed : gmap string Z) : Z :=
  foldl (λ count key,
    if lookup_zero 0 expected key =? lookup_zero 0 observed key then count else u32 (count + 1))
    0 (elements (dom expected ∪ dom observed)).

Section Run.
Context `{PaymentDigests}.

(** The body of [Run] up to the run record. *)
Definition compute_run (runID providerID assetID : string) (asOf : Time.t) (owner : string)
    (resolutionDeadline : Time.t) (payments : list Intent) (statement : list StatementEntry)
    (poster : Poster) : result error ReconciliationRun :=
  if empty_s runID || empty_s providerID || empty_s assetID || Time.IsZero asOf ||
     empty_s owner || negb (Time.After resolutionDeadline asOf)
  then Err ErrInvalidReconciliation
  else
    let? ex := payment_loop providerID assetID asOf poster payments (mkExpected 0 ∅ ∅ []) in
    let? ob := statement_loop providerID assetID asOf statement (mkObserved 0 ∅ [] ∅) in
    if observed ob <? 0 then Err ErrInvalidReconciliation else
    let statementEvidence := sort_by s_EntryID (statementEvidence ob) in
    let ledgerEvidence := sort_by (λ s, s) (ledgerEvidence ex) in
    let difference := observed ob - expected ex in
    let unmatchedItems := mismatchCount (expectedByPayment ex) (observedByPayment ob) in
    let status := if negb (difference =? 0) || negb (unmatchedItems =? 0)
                  then ReconciliationException else ReconciliationMatched in
    Ok (mkRun runID providerID assetID (Time.UTC asOf) (hash_statement statementEvidence)
          (hash_evidence ledgerEvidence) (Big.to_string (expected ex))
          (Big.to_string (observed ob)) (Big.to_string difference) unmatchedItems status owner
          (Time.UTC resolutionDeadline) (Time.UTC asOf)).

Definition exception_of (run : ReconciliationRun) : Exception_ :=
  mkException (run_RunID run +:+ ":difference") (run_RunID run) (run_ProviderID run)
    (run_AssetID run) (run_DifferenceUnits run) (run_UnmatchedItems run)
    "PROVIDER_LEDGER_MISMATCH" (run_Owner run) (run_AsOf run) (run_ResolutionDeadline run).

Definition Run (runID providerID assetID : string) (asOf : Time.t) (owner : string)
    (resolutionDeadline : Time.t) (payments : list Intent) (statement : list StatementEntry)
    (poster : Poster) (reconciler : Reconciler) : Reconciler * result error ReconciliationRun :=
  match compute_run runID providerID assetID asOf owner resolutionDeadline payments statement
          poster with
  | Err err => (reconciler, Err err)
  | Ok run =>
      let content := hash_run run in
      match runs reconciler !! runID with
      | Some existing =>
          if lookup_zero "" (runHashes reconciler) runID <>s content
          then (reconciler, Err ErrReconciliationConflict)
          else (reconciler, Ok existing)
      | None =>
          (mkReconciler (<[runID := run]> (runs reconciler))
             (<[runID := content]> (runHashes reconciler))
             (if run_Status run =s ReconciliationException
              then <[(runID +:+ ":difference") := exception_of run]> (exceptions reconciler)
              else exceptions reconciler) (resolutions reconciler), Ok run)
      end
  end.

Definition NewReconciler (poster : option Poster) : result error Reconciler :=
  match poster with
  | None => Err ErrInvalidReconciliation
  | Some _ => Ok (mkReconciler ∅ ∅ ∅ ∅)
  end.

Definition Resolve (exceptionID resolutionID evidenceHash resolutionJournalID resolvedBy : string)
    (resolvedAt : Time.t) (poster : Poster) (reconciler : Reconciler)
    : Reconciler * result error Resolution_ :=
  if empty_s exceptionID || empty_s resolutionID || empty_s evidenceHash || empty_s resolvedBy ||
     Time.IsZero resolvedAt
  then (reconciler, Err ErrInvalidResolution)
  else match exceptions reconciler !! exceptionID with
  | None => (reconciler, Err ErrInvalidResolution)
  | Some exception =>
      if Time.Before resolvedAt (x_DetectedAt exception) then (reconciler, Err ErrInvalidResolution)
      else match resolutions reconciler !! exceptionID with
      | Some existing =>
          if (z_ResolutionID existing =s resolutionID) && (z_EvidenceHash existing =s evidenceHash) &&
             (z_ResolutionJournalID existing =s resolutionJournalID) &&
             (z_ResolvedBy existing =s resolvedBy) &&
             Time.Equal (z_ResolvedAt existing) (Time.UTC resolvedAt)
          then (reconciler, Ok existing) else (reconciler, Err ErrInvalidResolution)
      | None =>
          if (resolutionJournalID <>s "") &&
             match Get resolutionJournalID (book poster) with Some _ => false | None => true end
          then (reconciler, Err ErrInvalidResolution)
          else
            let resolution := mkResolution resolutionID exceptionID evidenceHash
              resolutionJournalID resolvedBy (Time.UTC resolvedAt) in
            (mkReconciler (runs reconciler) (runHashes reconciler) (exceptions reconciler)
               (<[exceptionID := resolution]> (resolutions reconciler)), Ok resolution)
      end
  end.

Definition Exception_lookup (exceptionID : string) (reconciler : Reconciler) : option Exception_ :=
  exceptions reconciler !! exceptionID.
Definition Resolution_lookup (exceptionID : string) (reconciler : Reconciler) : option Resolution_ :=
  resolutions reconciler !! exceptionID.
End Run.

Definition AgingClass (detectedAt asOf : Time.t) : result error string :=
  if Time.IsZero detectedAt || Time.Before asOf detectedAt then Err ErrInvalidReconciliation
  else
    let days := Z.quot (Time.Sub asOf detectedAt) (24 * Time.hour) in
    Ok (if days <=? 1 then "0-1_DAY" else if days <=? 3 then "2-3_DAYS"
        else if days <=? 7 then "4-7_DAYS" else if days <=? 30 then "8-30_DAYS"
        else "OVER_30_DAYS").

(** * Statements *)

(** What one statement entry must satisfy on its own. *)
Definition entry_valid (providerID assetID : string) (asOf : Time.t) (e : StatementEntry) : bool :=
  negb (empty_s (s_EntryID e) || (s_ProviderID e <>s providerID) || (s_AssetID e <>s assetID) ||
     empty_s (s_ProviderReference e) || empty_s (s_PaymentID e) || Time.IsZero (s_OccurredAt e) ||
     Time.After (s_OccurredAt e) asOf) &&
  match canonicalInteger (s_Units e) with Some units => 0 <? units | None => false end &&
  ((s_Kind e =s StatementSettled) || (s_Kind e =s StatementReversed)).

(** Settled entries count positively, reversed ones negatively. *)
Definition entry_units_signed (e : StatementEntry) : Z :=
  let units := default 0 (canonicalInteger (s_Units e)) in
  if s_Kind e =s StatementSettled then units else - units.

Definition entry_key (e : StatementEntry) : string :=
  reconciliationKey (s_PaymentID e) (s_ProviderReference e).

(** Net units a list of entries reports for one key. *)
Definition observed_for (key : string) (l : list StatementEntry) : Z :=
  Zsum (λ e, if entry_key e =s key then entry_units_signed e else 0) l.

(** What the loop accumulates over a list of accepted entries. *)
Record observes (l : list StatementEntry) (st : Observed) : Prop := {
  ob_total : observed st = Zsum entry_units_signed l;
  ob_map : ∀ k, observedByPayment st !! k =
    if existsb (λ e, entry_key e =s k) l then Some (observed_for k l) else None;
  ob_evidence : statementEvidence st = l;
  ob_seen : ∀ id, id ∈ seenEntries st ↔ id ∈ s_EntryID <$> l;
  ob_sum : observed st = Msum id (observedByPayment st);
  ob_size : (size (observedByPayment st) <= length l)%nat }.

Lemma observes_nil : observes [] (mkObserved 0 ∅ [] ∅).
Proof. constructor; simpl; try done; try set_solver. Qed.

Lemma addUnits_sum m k u : Msum id (addUnits m k u) = Msum id m + u.
Proof.
  unfold addUnits, lookup_zero. destruct (m !! k) as [x|] eqn:Hk; simpl.
  - rewrite (Msum_insert_replace _ _ _ x) by done. unfold id. lia.
  - rewrite Msum_insert_fresh by done. unfold id. lia.
Qed.

Lemma addUnits_size m k u : (size (addUnits m k u) <= S (size m))%nat.
Proof. unfold addUnits. rewrite map_size_insert. destruct (m !! k); simpl; lia. Qed.

Lemma observed_for_snoc k l e :
  observed_for k (l ++ [e]) =
  observed_for k l + (if entry_key e =s k then entry_units_signed e else 0).
Proof. unfold observed_for. rewrite Zsum_app, Zsum_cons, Zsum_nil. lia. Qed.

Lemma observed_for_absent k l :
  existsb (λ e, entry_key e =s k) l = false → observed_for k l = 0.
Proof.
  intros Hk. apply Zsum_zero. intros e He.
  destruct (entry_key e =s k) eqn:E; [|done].
  assert (existsb (λ e, entry_key e =s k) l = true); [|congruence].
  apply existsb_exists. exists e. by rewrite <- list_elem_of_In.
Qed.

Lemma addUnits_observes l st e :
  observes l st →
  ∀ k, addUnits (observedByPayment st) (entry_key e) (entry_units_signed e) !! k =
    if existsb (λ x, entry_key x =s k) (l ++ [e]) then Some (observed_for k (l ++ [e])) else None.
Proof.
  intros [_ Hm _ _ _ _] k. rewrite existsb_app, observed_for_snoc. simpl. unfold addUnits, lookup_zero.
  destruct (String.eqb_spec (entry_key e) k) as [<-|Hne]; simpl.
  - rewrite lookup_insert_eq, Hm, !orb_true_r. f_equal.
    destruct (existsb _ l) eqn:Ex; [done|]. simpl. rewrite observed_for_absent by done. lia.
  - rewrite lookup_insert_ne, Hm by done. rewrite !orb_false_r. by rewrite Z.add_0_r.
Qed.

Lemma statement_step_spec providerID assetID asOf e st l :
  observes l st →
  if entry_valid providerID assetID asOf e && negb (bool_decide (s_EntryID e ∈ s_EntryID <$> l))
  then ∃ st', statement_step providerID assetID asOf e st = Ok st' ∧ observes (l ++ [e]) st'
  else statement_step providerID assetID asOf e st = Err ErrInvalidReconciliation.
Proof.
  intros Ho. unfold entry_valid, statement_step.
  rewrite (bool_decide_ext _ _ (ob_seen _ _ Ho (s_EntryID e))).
  set (g := _ || Time.After _ _). destruct g; simpl; [done|].
  destruct (bool_decide _) eqn:Hdup; simpl; [by rewrite !andb_false_r|].
  rewrite andb_true_r. destruct (canonicalInteger (s_Units e)) as [u|] eqn:Hu; simpl; [|done].
  destruct (Z.ltb_spec 0 u); [|by rewrite (proj2 (Z.leb_le _ _))].
  rewrite (proj2 (Z.leb_gt _ _)) by done. simpl.
  assert (∀ st', observed st' = observed st + entry_units_signed e →
    observedByPayment st' = addUnits (observedByPayment st) (entry_key e) (entry_units_signed e) →
    statementEvidence st' = statementEvidence st ++ [e] →
    seenEntries st' = {[s_EntryID e]} ∪ seenEntries st → observes (l ++ [e]) st') as Hst.
  { intros st' H1 H2 H3 H4. constructor.
    - rewrite H1, (ob_total _ _ Ho), Zsum_app, Zsum_cons, Zsum_nil. lia.
    - rewrite H2. by apply addUnits_observes.
    - by rewrite H3, (ob_evidence _ _ Ho).
    - intros id. rewrite H4, fmap_app, elem_of_app, elem_of_union, (ob_seen _ _ Ho). simpl.
      set_solver.
    - rewrite H1, H2, addUnits_sum, (ob_sum _ _ Ho). done.
    - rewrite H2, length_app. simpl. pose proof (ob_size _ _ Ho).
      pose proof (addUnits_size (observedByPayment st) (entry_key e) (entry_units_signed e)). lia. }
  unfold entry_units_signed in Hst. rewrite Hu in Hst. simpl in Hst.
  destruct (s_Kind e =s StatementSettled); simpl.
  - eexists. split; [reflexivity|]. by apply Hst.
  - destruct (s_Kind e =s StatementReversed); [|done].
    eexists. split; [reflexivity|]. by apply Hst.
Qed.

(** The loop accepts exactly the lists of valid entries with distinct ids. *)
Lemma statement_loop_spec providerID assetID asOf l :
  ∀ st l0, observes l0 st →
  if forallb (entry_valid providerID assetID asOf) l &&
     bool_decide (NoDup (s_EntryID <$> l)) &&
     forallb (λ e, negb (bool_decide (s_EntryID e ∈ s_EntryID <$> l0))) l
  then ∃ st', statement_loop providerID assetID asOf l st = Ok st' ∧ observes (l0 ++ l) st'
  else statement_loop providerID assetID asOf l st = Err ErrInvalidReconciliation.
Proof.
  induction l as [|e l IH]; intros st l0 Ho.
  { simpl. exists st. by rewrite app_nil_r. }
  pose proof (statement_step_spec providerID assetID asOf e st l0 Ho) as Hstep.
  simpl forallb. cbn [statement_loop].
  destruct (entry_valid providerID assetID asOf e) eqn:Hv; simpl in Hstep |- *;
    [|by rewrite Hstep].
  destruct (bool_decide (s_EntryID e ∈ s_EntryID <$> l0)) eqn:Hd; simpl in Hstep |- *;
    [rewrite Hstep; by rewrite andb_false_r|].
  destruct Hstep as (st' & -> & Ho'). specialize (IH st' (l0 ++ [e]) Ho').
  rewrite <- app_assoc in IH. simpl in IH.
  match goal with |- if ?b then _ else _ =>
    assert (b = forallb (entry_valid providerID assetID asOf) l &&
                bool_decide (NoDup (s_EntryID <$> l)) &&
                forallb (λ x, negb (bool_decide (s_EntryID x ∈ s_EntryID <$> (l0 ++ [e])))) l)
      as ->; [|exact IH] end.
  clear. change (list_fmap StatementEntry string s_EntryID l) with (s_EntryID <$> l).
  apply eq_true_iff_eq. rewrite !andb_true_iff, !bool_decide_eq_true, !forallb_forall.
  setoid_rewrite negb_true_iff. setoid_rewrite bool_decide_eq_false.
  setoid_rewrite <- list_elem_of_In. rewrite NoDup_cons. setoid_rewrite fmap_app.
  setoid_rewrite elem_of_app. split.
  - intros [[Hv' [Hne Hnd]] Hl]. split; [done|]. intros x Hx [Hin|Hin]; [by apply (Hl x Hx)|].
      apply Hne. apply list_elem_of_singleton in Hin. rewrite <- Hin. by apply list_elem_of_fmap_2.
  - intros [[Hv' Hnd] Hl]. split; [split; [done|split; [|done]]|].
      + intros (x & Ex & Hx)%list_elem_of_fmap. apply (Hl x Hx). right.
        by apply list_elem_of_singleton.
      + intros x Hx Hin. apply (Hl x Hx). by left.
Qed.

(** * Finalized payments *)

Definition in_scope (providerID assetID : string) (asOf : Time.t) (intent : Intent) : bool :=
  (i_ProviderID intent =s providerID) && (i_AssetID intent =s assetID) &&
  negb (Time.After (i_CreatedAt intent) asOf).

(** Finalized and not yet reversed at [asOf]. *)
Definition settled_at (asOf : Time.t) (intent : Intent) : bool :=
  negb (Time.IsZero (i_FinalizedAt intent)) && negb (Time.After (i_FinalizedAt intent) asOf) &&
  (Time.IsZero (i_ReversedAt intent) || Time.After (i_ReversedAt intent) asOf).

Definition settled (providerID assetID : string) (asOf : Time.t) (l : list Intent) : list Intent :=
  filter (λ i, in_scope providerID assetID asOf i && settled_at asOf i = true) l.

Definition intent_units (i : Intent) : Z := default 0 (canonicalInteger (i_Units i)).
Definition intent_key (i : Intent) : string :=
  reconciliationKey (i_PaymentID i) (i_ProviderReference i).

Definition expected_for (key : string) (l : list Intent) : Z :=
  Zsum (λ i, if intent_key i =s key then intent_units i else 0) l.

(** What the payment loop accumulates over the settled payments [l]. *)
Record expects (l : list Intent) (st : Expected) : Prop := {
  ex_total : expected st = Zsum intent_units l;
  ex_sum : expected st = Msum id (expectedByPayment st);
  ex_dom : ∀ k, is_Some (expectedByPayment st !! k) ↔ k ∈ intent_key <$> l;
  ex_map : ∀ k, lookup_zero 0 (expectedByPayment st) k = expected_for k l;
  ex_size : (size (expectedByPayment st) <= length l)%nat }.

Lemma expected_for_snoc k l i :
  expected_for k (l ++ [i]) = expected_for k l + (if intent_key i =s k then intent_units i else 0).
Proof. unfold expected_for. rewrite Zsum_app, Zsum_cons, Zsum_nil. lia. Qed.

Lemma expects_snoc l st i seen evidence :
  expects l st → intent_key i ∉ intent_key <$> l → 
  expects (l ++ [i])
    (mkExpected (expected st + intent_units i)
       (<[intent_key i := intent_units i]> (expectedByPayment st)) seen evidence).
Proof.
  intros [E1 E2 E3 E4 E5] Hn.
  assert (expectedByPayment st !! intent_key i = None) as Hnone.
  { apply eq_None_not_Some. by rewrite E3. }
  constructor; simpl.
  - rewrite E1, Zsum_app, Zsum_cons, Zsum_nil. lia.
  - rewrite Msum_insert_fresh by done. unfold id at 1. rewrite <- E2. lia.
  - intros k. rewrite lookup_insert_is_Some', E3, fmap_app. set_solver.
  - intros k. rewrite expected_for_snoc, <- E4. unfold lookup_zero.
    destruct (String.eqb_spec (intent_key i) k) as [<-|Hne].
    + rewrite lookup_insert_eq, Hnone. simpl. lia.
    + rewrite lookup_insert_ne by done. lia.
  - rewrite map_size_insert_None, length_app by done. simpl. lia.
Qed.

Lemma expects_keep l st seen evidence :
  expects l st → expects l (mkExpected (expected st) (expectedByPayment st) seen evidence).
Proof. by intros [E1 E2 E3 E4 E5]. Qed.

Lemma settled_single providerID assetID asOf i :
  settled providerID assetID asOf [i] =
  if in_scope providerID assetID asOf i && settled_at asOf i then [i] else [].
Proof. unfold settled. rewrite filter_cons, filter_nil. by destruct (_ && _). Qed.

Lemma settled_cons providerID assetID asOf i l :
  settled providerID assetID asOf (i :: l) =
  settled providerID assetID asOf [i] ++ settled providerID assetID asOf l.
Proof. unfold settled. change (i :: l) with ([i] ++ l). apply filter_app. Qed.

Lemma payment_step_spec providerID assetID asOf poster i st st' l :
  payment_step providerID assetID asOf poster i st = Ok st' → expects l st →
  (in_scope providerID assetID asOf i && settled_at asOf i = true → intent_key i ∉ intent_key <$> l) →
  expects (l ++ settled providerID assetID asOf [i]) st'.
Proof.
  rewrite settled_single. unfold payment_step, in_scope. intros Hs Ho Hk.
  fold (intent_key i) (settled_at asOf i) in Hs.
  destruct (i_ProviderID i =s providerID); cbn [andb orb negb] in *; [|rewrite app_nil_r; by simplify_eq].
  destruct (i_AssetID i =s assetID); cbn [andb orb negb] in *; [|rewrite app_nil_r; by simplify_eq].
  destruct (Time.After (i_CreatedAt i) asOf); cbn [andb orb negb] in *; [rewrite app_nil_r; by simplify_eq|].
  destruct (_ || _); [done|]. destruct (canonicalInteger (i_Units i)) as [u|] eqn:Hu; [|done].
  destruct (u <=? 0); [done|].
  assert (intent_units i = u) as <- by (unfold intent_units; by rewrite Hu).
  destruct (settled_at asOf i); cbn [andb] in Hs.
  - destruct (empty_s (i_ProviderReference i)); [done|].
    destruct (Record_lookup _ _).
    + destruct (evidence_loop _ _ _) as [ev|]; [|done]. simplify_eq. apply expects_snoc; [done|by apply Hk].
    + destruct (_ && _); [done|]. simplify_eq. apply expects_snoc; [done|by apply Hk].
  - rewrite app_nil_r. destruct (Record_lookup _ _).
    + destruct (evidence_loop _ _ _) as [ev|]; [|done]. simplify_eq. by apply expects_keep.
    + destruct (_ && _); [done|]. simplify_eq. by apply expects_keep.
Qed.

Lemma payment_loop_spec providerID assetID asOf poster l :
  ∀ st st' l0, payment_loop providerID assetID asOf poster l st = Ok st' → expects l0 st →
  NoDup (intent_key <$> (l0 ++ settled providerID assetID asOf l)) →
  expects (l0 ++ settled providerID assetID asOf l) st'.
Proof.
  induction l as [|i l IH]; intros st st' l0 Hl Ho Hnd; cbn [payment_loop] in Hl.
  { simplify_eq. by rewrite app_nil_r. }
  destruct (payment_step _ _ _ _ i st) as [st1|] eqn:Hs; [|done].
  rewrite settled_cons, app_assoc in *. apply (IH st1 st'); try done.
  eapply payment_step_spec; [done..|]. intros Hin. rewrite settled_single, Hin in Hnd.
  rewrite !fmap_app, <- app_assoc in Hnd. apply NoDup_app in Hnd as (_ & Hd & _).
  intros Hk. apply (Hd _ Hk). simpl. by left.
Qed.

(** * Counting mismatches *)

Definition mismatched (e o : gmap string Z) (k : string) : bool :=
  negb (lookup_zero 0 e k =? lookup_zero 0 o k).

Lemma mismatch_fold (e o : gmap string Z) keys c :
  0 <= c → c + Z.of_nat (length keys) < 2 ^ 32 →
  c <= foldl (λ count key,
    if lookup_zero 0 e key =? lookup_zero 0 o key then count else u32 (count + 1)) c keys ∧
  (foldl (λ count key,
    if lookup_zero 0 e key =? lookup_zero 0 o key then count else u32 (count + 1)) c keys = c ↔
   ∀ k, k ∈ keys → lookup_zero 0 e k = lookup_zero 0 o k).
Proof.
  revert c. induction keys as [|k keys IH]; intros c Hc Hlt; simpl; [set_solver by lia|].
  simpl in Hlt. destruct (Z.eqb_spec (lookup_zero 0 e k) (lookup_zero 0 o k)) as [E|E].
  - destruct (IH c) as [Hle Hiff]; [lia|lia|]. split; [done|]. rewrite Hiff. set_solver.
  - rewrite u32_small by lia. destruct (IH (c + 1)) as [Hle _]; [lia|lia|]. split; [lia|].
    split; [lia|]. intros Hall. destruct E. apply Hall. set_solver.
Qed.

Lemma mismatchCount_0 e o :
  Z.of_nat (size e + size o) < 2 ^ 32 →
  mismatchCount e o = 0 ↔ ∀ k, lookup_zero 0 e k = lookup_zero 0 o k.
Proof.
  intros Hsz. unfold mismatchCount.
  assert (Z.of_nat (length (elements (dom e ∪ dom o))) < 2 ^ 32) as Hl.
  { change (length (elements (dom e ∪ dom o))) with (size (dom e ∪ dom o)).
    pose proof (size_union_alt (dom e) (dom o)) as Hu.
    pose proof (subseteq_size (dom o ∖ dom e) (dom o) ltac:(set_solver)) as Hd.
    rewrite !size_dom in *. lia. }
  destruct (mismatch_fold e o (elements (dom e ∪ dom o)) 0) as [_ ->]; [lia|lia|].
  setoid_rewrite elem_of_elements. split; [|auto]. intros Hall k.
  destruct (decide (k ∈ dom e ∪ dom o)) as [Hk|Hk]; [by apply Hall|].
  apply not_elem_of_union in Hk as [He Ho]. apply not_elem_of_dom in He, Ho.
  unfold lookup_zero. by rewrite He, Ho.
Qed.

(** A map's sum is the sum of its values over any set that covers its keys. *)
Lemma Msum_cover (m : gmap string Z) (X : gset string) :
  dom m ⊆ X → Msum id m = Zsum (lookup_zero 0 m) (elements X).
Proof.
  revert X. induction m as [|k x m Hk IH] using map_ind; intros X HX.
  { rewrite Msum_empty, Zsum_zero; [done|]. intros k _. unfold lookup_zero. by rewrite lookup_empty. }
  rewrite dom_insert in HX. assert (k ∈ X) as HkX by set_solver.
  assert (elements X ≡ₚ k :: elements (X ∖ {[k]})) as Hp.
  { rewrite (union_difference_L {[k]} X) at 1 by set_solver.
    rewrite elements_disj_union by set_solver. by rewrite elements_singleton. }
  rewrite Msum_insert_fresh by done. rewrite (Zsum_perm _ _ _ Hp), Zsum_cons.
  rewrite (lookup_zero_Some _ _ _ x) by apply lookup_insert_eq. f_equal.
  rewrite (IH (X ∖ {[k]})).
  - apply Zsum_ext. intros j Hj. unfold lookup_zero. rewrite lookup_insert_ne; [done|].
    apply elem_of_elements in Hj. set_solver.
  - apply not_elem_of_dom in Hk. set_solver.
Qed.

Lemma Msum_agree (m1 m2 : gmap string Z) :
  (∀ k, lookup_zero 0 m1 k = lookup_zero 0 m2 k) → Msum id m1 = Msum id m2.
Proof.
  intros Heq. rewrite (Msum_cover m1 (dom m1 ∪ dom m2)), (Msum_cover m2 (dom m1 ∪ dom m2))
    by set_solver. by apply Zsum_ext.
Qed.

(** * Runs *)

Section Runs.
Context `{PaymentDigests}.

Lemma statement_loop_Ok providerID assetID asOf l st :
  statement_loop providerID assetID asOf l (mkObserved 0 ∅ [] ∅) = Ok st →
  observes l st ∧ NoDup (s_EntryID <$> l).
Proof.
  intros Hl. pose proof (statement_loop_spec providerID assetID asOf l _ [] observes_nil) as Hs.
  destruct (_ && _ && _) eqn:Hg; [|congruence]. destruct Hs as (st' & Hst & Ho).
  simpl in Ho. bool_facts. rewrite Hst in Hl. injection Hl as <-. by split.
Qed.

Lemma observes_lookup l st k : observes l st → lookup_zero 0 (observedByPayment st) k = observed_for k l.
Proof.
  intros Ho. unfold lookup_zero. rewrite (ob_map _ _ Ho).
  destruct (existsb _ l) eqn:E; [done|]. by rewrite observed_for_absent.
Qed.

Lemma expects_nil : expects [] (mkExpected 0 ∅ ∅ []).
Proof.
  constructor; simpl; try done. intros k. rewrite lookup_empty, is_Some_alt. set_solver.
Qed.

(** A run reports the truth. Over the payments of the provider and asset
    that are final and unreversed at the cut-off, and the provider's statement,
    it reports the exact totals and their difference; and it is MATCHED exactly
    when, for every payment and provider reference, the statement's net amount
    equals the expected one. Otherwise it is an EXCEPTION, and a new run files
    it under the run's exception id. (The payments' composite keys are distinct
    and there are fewer than 2^32 items, the width of the counter.) *)
Theorem reconciliation_sound runID providerID assetID asOf owner deadline payments statement poster
    (rc : Reconciler) run :
  let due := settled providerID assetID asOf payments in
  compute_run runID providerID assetID asOf owner deadline payments statement poster = Ok run →
  NoDup (intent_key <$> due) → Z.of_nat (length payments + length statement) < 2 ^ 32 →
  run_ExpectedUnits run = Big.to_string (Zsum intent_units due) ∧
  run_ObservedUnits run = Big.to_string (Zsum entry_units_signed statement) ∧
  run_DifferenceUnits run =
    Big.to_string (Zsum entry_units_signed statement - Zsum intent_units due) ∧
  (run_Status run = ReconciliationMatched ↔
     ∀ key, expected_for key due = observed_for key statement) ∧
  (run_Status run ≠ ReconciliationMatched → runs rc !! runID = None →
     ∃ rc', Run runID providerID assetID asOf owner deadline payments statement poster rc
              = (rc', Ok run) ∧
       Exception_lookup (runID +:+ ":difference") rc' = Some (exception_of run)).
Proof.
  intros due Hrun Hnd Hlen. pose proof Hrun as Hc. unfold compute_run in Hc.
  destruct (_ || _); [done|].
  destruct (payment_loop _ _ _ _ _ _) as [ex|] eqn:Hp; [|done].
  destruct (statement_loop _ _ _ _ _) as [ob|] eqn:Hs; [|done].
  destruct (observed ob <? 0); [done|]. apply statement_loop_Ok in Hs as [Ho _].
  apply (payment_loop_spec _ _ _ _ _ _ _ [] ) in Hp; [|apply expects_nil|done].
  simpl in Hp. fold due in Hp.
  assert (mismatchCount (expectedByPayment ex) (observedByPayment ob) = 0 ↔
          ∀ key, expected_for key due = observed_for key statement) as Hmis.
  { rewrite mismatchCount_0.
    - setoid_rewrite (ex_map _ _ Hp). by setoid_rewrite (λ k, observes_lookup _ _ k Ho).
    - pose proof (ex_size _ _ Hp). pose proof (ob_size _ _ Ho).
      assert (length due <= length payments)%nat by apply length_filter. lia. }
  assert (run_Status run = ReconciliationMatched ↔
     ∀ key, expected_for key due = observed_for key statement) as Hstat.
  { rewrite <- Hmis. injection Hc as <-. simpl.
    destruct (Z.eqb_spec (mismatchCount (expectedByPayment ex) (observedByPayment ob)) 0) as [E|E].
    - assert (observed ob - expected ex = 0) as ->.
      { rewrite (ob_sum _ _ Ho), (ex_sum _ _ Hp).
        rewrite (Msum_agree (observedByPayment ob) (expectedByPayment ex)); [lia|].
        intros k. rewrite (ex_map _ _ Hp), (observes_lookup _ _ k Ho). symmetry. by apply Hmis. }
      done.
    - rewrite orb_true_r. split; [discriminate|done]. }
  split_and!; [by injection Hc as <-; simpl; rewrite (ex_total _ _ Hp)
              |by injection Hc as <-; simpl; rewrite (ob_total _ _ Ho)
              |by injection Hc as <-; simpl; rewrite (ob_total _ _ Ho), (ex_total _ _ Hp)
              |exact Hstat|].
  intros Hne Hfresh. unfold Run. rewrite Hrun, Hfresh.
  assert (run_Status run = ReconciliationException) as ->.
  { injection Hc as <-. simpl in *. by destruct (_ || _). }
  eexists. split; [reflexivity|]. unfold Exception_lookup. simpl. apply lookup_insert_eq.
Qed.

(** A run does not depend on the order of the provider's statement: every
    permutation of the entries gives the same answer and the same state,
    snapshot hash included. *)
Theorem run_order_independent runID providerID assetID asOf owner deadline payments statement
    statement' poster rc :
  statement ≡ₚ statement' →
  Run runID providerID assetID asOf owner deadline payments statement poster rc =
  Run runID providerID assetID asOf owner deadline payments statement' poster rc.
Proof.
  intros Hperm. unfold Run.
  assert (compute_run runID providerID assetID asOf owner deadline payments statement poster =
          compute_run runID providerID assetID asOf owner deadline payments statement' poster) as ->;
    [|done].
  unfold compute_run. destruct (_ || _); [done|].
  destruct (payment_loop _ _ _ _ _ _) as [ex|]; [|done].
  pose proof (statement_loop_spec providerID assetID asOf statement _ [] observes_nil) as H1.
  pose proof (statement_loop_spec providerID assetID asOf statement' _ [] observes_nil) as H2.
  assert (∀ f : StatementEntry → bool, forallb f statement = forallb f statement') as Hfb.
  { intros f. apply eq_true_iff_eq. rewrite !forallb_forall. setoid_rewrite <- list_elem_of_In.
    by setoid_rewrite Hperm. }
  rewrite !Hfb in H1. rewrite (bool_decide_ext (NoDup (s_EntryID <$> statement))
    (NoDup (s_EntryID <$> statement'))) in H1 by (by rewrite Hperm).
  destruct (_ && _ && _) eqn:Hg; [|by rewrite H1, H2].
  destruct H1 as (o1 & -> & O1), H2 as (o2 & -> & O2). simpl in O1, O2. bool_facts.
  assert (observed o1 = observed o2) as ->.
  { rewrite (ob_total _ _ O1), (ob_total _ _ O2). by apply Zsum_perm. }
  assert (observedByPayment o1 = observedByPayment o2) as ->.
  { apply map_eq. intros k. rewrite (ob_map _ _ O1), (ob_map _ _ O2).
    unfold observed_for. rewrite (Zsum_perm _ _ _ Hperm).
    assert (existsb (λ e, entry_key e =s k) statement = existsb (λ e, entry_key e =s k) statement')
      as ->; [|done].
    apply eq_true_iff_eq. rewrite !existsb_exists. setoid_rewrite <- list_elem_of_In.
    by setoid_rewrite Hperm. }
  rewrite (ob_evidence _ _ O1), (ob_evidence _ _ O2).
  rewrite (sort_by_unique s_EntryID statement statement') by (try done; by rewrite Hperm). done.
Qed.
End Runs.

(** * Posting *)

Section Posting.
Context `{JournalDigest, PaymentDigests}.

(** The journals an accepted transition posts, given the payment's record. *)
Definition originals (tr : Transition) (record : Record_) : list string :=
  if t_From tr =s StatusFinal then [r_FinalJournalID record; r_ProvisionalJournalID record]
  else [r_ProvisionalJournalID record].

Lemma reversal_targets_Ok poster tr targets js :
  reversal_targets poster tr targets = Ok js →
  ∃ ps, Forall2 (λ id p, Get id (book poster) = Some p) targets ps ∧
    js = reversalJournal poster tr <$> ps.
Proof.
  revert js. induction targets as [|id targets IH]; intros js Hj; cbn [reversal_targets] in Hj.
  { simplify_eq. by exists []. }
  destruct (empty_s id); [done|]. destruct (Get id (book poster)) as [p|] eqn:Hp; [|done].
  destruct (reversal_targets poster tr targets) as [rest|]; [|done]. simplify_eq.
  destruct (IH rest) as (ps & Hps & ->); [done|]. exists (p :: ps). split; [by constructor|done].
Qed.

(** The movement of one posted transition. *)
Definition transition_movement (poster : Poster) (tr : Transition) (record : Record_)
    (account asset : string) : Z :=
  let x := i_AssetID (t_Payment tr) in
  let u := default 0 (Big.set_string (i_Units (t_Payment tr))) in
  if t_To tr =s StatusProvisional then
    movement account asset (pendingAccount tr) x u - movement account asset "9120" x u
  else if t_To tr =s StatusFinal then
    movement account asset (settlementAccount tr) x u -
    movement account asset (pendingAccount tr) x u
  else
    - Zsum (λ id, match Get id (book poster) with
                  | Some p => account_delta account asset (j_Entries (p_Journal p))
                  | None => 0
                  end) (originals tr record).

Lemma two_entry_movement tr a1 a2 account asset :
  account_delta account asset [entry tr a1 Debit; entry tr a2 Credit] =
  let x := i_AssetID (t_Payment tr) in
  let u := default 0 (Big.set_string (i_Units (t_Payment tr))) in
  movement account asset a1 x u - movement account asset a2 x u.
Proof.
  unfold account_delta, movement, signed_units, entry_units, entry. simpl.
  destruct ((a1 =s account) && _), ((a2 =s account) && _); lia.
Qed.

Lemma originals_sum poster tr record ps account asset :
  Forall2 (λ id p, Get id (book poster) = Some p) (originals tr record) ps →
  Zsum (λ id, match Get id (book poster) with
              | Some p => account_delta account asset (j_Entries (p_Journal p)) | None => 0 end)
    (originals tr record) =
  Zsum (λ p, account_delta account asset (j_Entries (p_Journal p))) ps.
Proof.
  induction 1 as [|id p ids ps Hp _ IH]; [done|]. rewrite !Zsum_cons, IH, Hp. done.
Qed.

(** Every accepted provider transition moves exactly its stage. When a new
    event is accepted and its journals are new to the book, a provisional
    payment moves its units from clearing to the rail's pending account, a final
    one from pending to the rail's settlement account, and a reversal takes out
    exactly what the payment's own journals had put in; the record advances one
    stage (never backwards, reversed at most once), and the same event again
    returns the same journals and changes nothing. *)
Theorem transition_effect (now now' : Time.t) (tr : Transition) (poster poster' : Poster)
    (ids : list string) (js : list Journal) (next : Record_) :
  let key := i_ProviderID (t_Payment tr) +:+ nul +:+ t_ProviderEventID tr in
  let record := lookup_zero zeroRecord (records poster) (i_PaymentID (t_Payment tr)) in
  ledger_inv (book poster) → events poster !! key = None →
  Apply now tr poster = (poster', Ok ids) →
  transition_journals poster tr record = Ok (js, next) → all_new now js (book poster) →
  (∀ account asset, account_balance account asset (book poster') =
     account_balance account asset (book poster) + transition_movement poster tr record account asset) ∧
  (∃ r, Record_lookup (i_PaymentID (t_Payment tr)) poster' = Some r ∧
     if t_To tr =s StatusProvisional then
       r_ProvisionalJournalID record = "" ∧ r_ProvisionalJournalID r ≠ ""
     else if t_To tr =s StatusFinal then
       r_ProvisionalJournalID r = r_ProvisionalJournalID record ∧
       r_ProvisionalJournalID record ≠ "" ∧ r_FinalJournalID record = "" ∧ r_FinalJournalID r ≠ ""
     else t_To tr = StatusReversed ∧ r_ReversalJournalIDs record = [] ∧
          r_ReversalJournalIDs r = ids ∧ length ids = length (originals tr record)) ∧
  Apply now' tr poster' = (poster', Ok ids).
Proof.
  intros key record Hinv Hev Ha Htj Hnew. pose proof Ha as Hrun. unfold Apply in Ha.
  destruct (_ || _) eqn:Hg; [done|]. fold key record in Ha. rewrite Hev, Htj in Ha.
  destruct (PostBatch now js (book poster)) as [bk' [ps|e]] eqn:Hp; [|done].
  destruct (PostBatch_new _ _ _ _ _ Hp Hnew) as (hs & Hfst & Hfb & -> & Hids).
  change (posted_id <$> ps = j_ID <$> js) in Hids.
  injection Ha as <- Hidseq. split_and!.
  - intros account asset. cbn [book]. unfold transition_journals in Htj.
    unfold transition_movement.
    destruct (t_To tr =s StatusProvisional) eqn:Es1; [|destruct (t_To tr =s StatusFinal) eqn:Es2].
    + destruct ((t_From tr <>s _) || _); [done|]. injection Htj as <- _.
      apply single_journal in Hfst as [h ->].
      rewrite store_all_account_balance by done. rewrite Zsum_cons, Zsum_nil.
      simpl j_Entries. rewrite two_entry_movement. cbv zeta. lia.
    + destruct ((t_From tr <>s _) || _ || _); [done|]. injection Htj as <- _.
      apply single_journal in Hfst as [h ->].
      rewrite store_all_account_balance by done. rewrite Zsum_cons, Zsum_nil.
      simpl j_Entries. rewrite two_entry_movement. cbv zeta. lia.
    + destruct (t_To tr =s StatusReversed); [|done]. destruct (negb (_ =? 0)%nat || _); [done|].
      fold (originals tr record) in Htj.
      destruct (reversal_targets _ _ _) as [js'|] eqn:Ht; [|done]. injection Htj as -> _.
      apply reversal_targets_Ok in Ht as (os & HF & Hjs).
      rewrite (originals_sum _ _ _ _ _ _ HF). apply store_all_negation; [done| |].
      * change (λ jh : Journal * string, j_Entries jh.1) with (j_Entries ∘ fst (A := Journal) (B := string)).
        rewrite list_fmap_compose, Hfst, Hjs, <- list_fmap_compose. done.
      * apply Forall_forall. intros p Hin. apply list_elem_of_lookup in Hin as [i Hi].
        destruct (Forall2_lookup_r _ _ _ _ _ HF Hi) as (id & _ & Hget).
        destruct (inv_valid _ Hinv _ _ Hget) as [_ [Hw _]%validateAndHash_Ok]. apply Hw.
  - unfold Record_lookup. cbn [records]. rewrite lookup_insert_eq. eexists. split; [reflexivity|].
    unfold transition_journals in Htj.
    destruct (t_To tr =s StatusProvisional) eqn:Es1; [|destruct (t_To tr =s StatusFinal) eqn:Es2].
    + apply String.eqb_eq in Es1. rewrite Es1. simpl. destruct ((t_From tr <>s _) || _) eqn:Hb; [done|]. bool_facts.
      by injection Htj as <- <-.
    + apply String.eqb_eq in Es2. rewrite Es2. simpl. destruct ((t_From tr <>s _) || _ || _) eqn:Hb; [done|]. bool_facts.
      by injection Htj as <- <-.
    + destruct (t_To tr =s StatusReversed) eqn:Es3; [|done]. destruct (negb (_ =? 0)%nat || _) eqn:Hb; [done|].
      bool_facts. fold (originals tr record) in Htj.
      destruct (reversal_targets _ _ _) as [js'|] eqn:Ht; [|done]. injection Htj as -> <-.
      apply reversal_targets_Ok in Ht as (os & HF & Hjs). simpl. split_and!; try done.
      * match goal with E : (_ =? 0)%nat = true |- _ =>
          by apply Nat.eqb_eq, length_zero_iff_nil in E end.
      * rewrite <- Hidseq, Hids, Hjs, !length_fmap. by rewrite (Forall2_length _ _ _ HF).
  - unfold Apply. rewrite Hg. fold key. cbn [events]. rewrite lookup_insert_eq. simpl.
    rewrite String.eqb_refl. simpl. by rewrite Hidseq.
Qed.
End Posting.

(** * A concrete payment and statement *)

Module Sample.
#[local] Existing Instance id_digest.
#[local] Instance plain_digests : PaymentDigests := {
  hash_transition tr := t_ProviderEventID tr;
  hash_statement l := "s"; hash_evidence l := "e"; hash_run r := run_RunID r }.

Definition t (n : Z) : Time.t := Time.mk n "".
Definition intent (status : string) (reversedAt : Z) : Intent :=
  mkIntent "p1" "ent" "k" "corr" "payer" "L" "prov" "ref" RailCard "repay" "USD" "100" (t 90) 1
    status 3 (t 1) (t 5) (t 4) (t 5) (t reversedAt).
Definition poster : Poster := mkPoster Ledger.New "ent" "bk" ∅ ∅.
Definition tr : Transition :=
  mkTransition (intent StatusProvisional 0) StatusProcessing StatusProvisional "ev1" (t 4) (t 4) "h".
Definition poster1 : Poster := (Apply (t 6) tr poster).1.

Lemma transition_effect_witness :
  account_balance "9130" "USD" (book poster1) = 100 ∧
  Apply (t 9) tr poster1 = (poster1, Ok ["payment:p1:provisional"]).
Proof.
  destruct (transition_effect (t 6) (t 9) tr poster poster1 ["payment:p1:provisional"]
    [provisionalJournal poster tr] (mkRecord "p1" "payment:p1:provisional" "" []))
    as (Hb & _ & Hr); [apply New_inv|reflexivity|reflexivity|reflexivity| |].
  - intros hs Hhs. apply single_journal in Hhs as [h ->]. split; [|done].
    split; [reflexivity|reflexivity|]. intros Hne. by destruct Hne.
  - split; [rewrite Hb; reflexivity|exact Hr].
Defined.

Definition stmt : list StatementEntry :=
  [mkStatementEntry "e1" "prov" "ref" "p1" "USD" "130" StatementSettled (t 6);
   mkStatementEntry "e2" "prov" "ref" "p1" "USD" "30" StatementReversed (t 7)].
Definition run : ReconciliationRun :=
  mkRun "r1" "prov" "USD" (t 8) "s" "e" "100" "100" "0" 0 ReconciliationMatched "ops" (t 20) (t 8).

Lemma reconciliation_sound_witness :
  run_Status run = ReconciliationMatched ∧
  ∀ key, expected_for key (settled "prov" "USD" (t 8) [intent StatusFinal 0]) = observed_for key stmt.
Proof.
  destruct (reconciliation_sound "r1" "prov" "USD" (t 8) "ops" (t 20) [intent StatusFinal 0] stmt
    poster1 (mkReconciler ∅ ∅ ∅ ∅) run) as (_ & _ & _ & [Hm _] & _);
    [vm_compute; reflexivity|apply NoDup_singleton|reflexivity|].
  split; [reflexivity|]. apply Hm. reflexivity.
Defined.

Lemma run_order_independent_witness :
  Run "r1" "prov" "USD" (t 8) "ops" (t 20) [intent StatusFinal 0] stmt poster1
    (mkReconciler ∅ ∅ ∅ ∅) =
  Run "r1" "prov" "USD" (t 8) "ops" (t 20) [intent StatusFinal 0] (rev stmt) poster1
    (mkReconciler ∅ ∅ ∅ ∅).
Proof. apply run_order_independent. apply Permutation_swap. Defined.
End Sample.
