(* ===== verification/CrossChainTypes.v ===== *)
(** The cross-chain vocabulary shared by the coordinator and the ledger: message
    states, action types, the message envelope and its typed actions
    ([schemas/proto/unified/v1/crosschain.proto] and its Go bindings), and the
    Keccak-256 parameter. Enumerations are the [int32] ordinals of the bindings;
    byte slices are strings. *)
From S2P Require Import Prelude GoStd.

(** * Keccak-256

    [golang.org/x/crypto/sha3]: a function into 32-byte digests. No theorem
    assumes it injective. *)
Class Keccak := {
  keccak : string → string;
  keccak_length : ∀ value, String.length (keccak value) = 32%nat }.

(** Two given strings collide. Some two strings always do; binding theorems name
    the two strings, which the code builds from the data it was given. *)
Definition collides `{Keccak} (a b : string) : Prop := a ≠ b ∧ keccak a = keccak b.

Lemma keccak_cases `{Keccak} a b : keccak a = keccak b → a = b ∨ collides a b.
Proof. intros Hk. destruct (decide (a = b)) as [|Hne]; [by left|]. by right. Qed.

(** * [CrossChainMessageState] *)

Definition created : Z := 1.
Definition sourceFinalizing : Z := 2.
Definition sourceFinal : Z := 3.
Definition sent : Z := 4.
Definition relayed : Z := 5.
Definition verified : Z := 6.
Definition executed : Z := 7.
Definition ackPending : Z := 8.
Definition acknowledged : Z := 9.
Definition rejected : Z := 10.
Definition failed : Z := 11.
Definition expired : Z := 12.
Definition recoveryPending : Z := 13.
Definition destinationTombstoned : Z := 14.
Definition sourceCompensated : Z := 15.
Definition recovered : Z := 16.
Definition disputed : Z := 17.

(** * [CrossChainActionType] *)

Definition ACTION_UNSPECIFIED : Z := 0.
Definition CANONICAL_UFT_LOCKED_V1 : Z := 1.
Definition WRAPPED_UFT_MINTED_V1 : Z := 2.
Definition WRAPPED_UFT_BURNED_V1 : Z := 3.
Definition CANONICAL_UFT_RELEASED_V1 : Z := 4.
Definition SATELLITE_COLLATERAL_LOCKED_V1 : Z := 5.
Definition HOME_DISBURSEMENT_AUTHORIZED_V1 : Z := 6.
Definition SATELLITE_DISBURSEMENT_SETTLED_V1 : Z := 7.
Definition SATELLITE_REPAYMENT_BURNED_V1 : Z := 8.
Definition HOME_COLLATERAL_RELEASE_AUTHORIZED_V1 : Z := 9.
Definition SATELLITE_COLLATERAL_RELEASED_V1 : Z := 10.
Definition STATE_ACKNOWLEDGED_V1 : Z := 11.
Definition CANCELLATION_REQUESTED_V1 : Z := 12.
Definition DESTINATION_TOMBSTONED_V1 : Z := 13.
Definition SOURCE_COMPENSATED_V1 : Z := 14.
Definition SATELLITE_UFT_PERMANENT_BURNED_V1 : Z := 15.
Definition ROUTE_GOVERNANCE_V1 : Z := 16.

(** * Typed actions

    One constructor per wrapper of the [typed_action] oneof, with the declared
    fields of its payload. (A wrapper around a nil payload reads as the payload
    of empty fields.) *)
Inductive TypedAction :=
| CanonicalUftLock (lock_id loan_id canonical_token home_bridge_hub wrapped_token
    destination_recipient amount : string)
| WrappedUftMinted (loan_id lock_id home_loan_account borrower lender wrapped_token amount
    policy_hash : string)
| WrappedUftBurned (burn_id backing_route_policy_hash canonical_token home_bridge_hub
    wrapped_token recipient amount : string)
| CanonicalUftReleased (burn_id canonical_token recipient amount wrapped_burn_message_id : string)
| SatelliteCollateralLocked (loan_id collateral_id home_loan_account borrower lender
    collateral_token amount policy_hash : string)
| HomeDisbursementAuthorized (loan_id funding_lock_id home_loan_account borrower lender
    wrapped_token amount policy_hash : string)
| SatelliteDisbursementSettled (loan_id funding_lock_id home_loan_account borrower lender
    wrapped_token amount policy_hash : string)
| SatelliteRepaymentBurned (burn_id loan_id payment_id backing_route_policy_hash canonical_token
    home_bridge_hub wrapped_token lender amount : string)
| HomeCollateralReleaseAuthorized (loan_id collateral_id home_loan_account borrower lender
    collateral_token amount policy_hash : string)
| SatelliteCollateralReleased (loan_id collateral_id home_loan_account borrower lender
    collateral_token amount policy_hash : string)
| LoanCancellationRequested (cancellation_id loan_id funding_lock_id disbursement_message_id
    disbursement_tombstone_hash home_loan_account lender wrapped_token amount policy_hash
    reason_code : string)
| SatelliteFundingCancelled (cancellation_id loan_id funding_lock_id disbursement_message_id
    disbursement_tombstone_hash escrow_burn_result_hash home_loan_account lender wrapped_token
    amount policy_hash : string)
| SatelliteUftPermanentBurned (burn_id backing_route_policy_hash canonical_token home_bridge_hub
    wrapped_token amount : string).

#[export] Instance TypedAction_eq_dec : EqDecision TypedAction.
Proof. solve_decision. Defined.

(** [timestamppb.Timestamp]; [AsTime] is [time.Unix(seconds, nanos).UTC()], whose
    internal seconds are an [int64] counted from year 1. *)
Record Timestamp := mkTimestamp { seconds : Z; nanos : Z }.
#[export] Instance Timestamp_eq_dec : EqDecision Timestamp.
Proof. solve_decision. Defined.

Definition unixToInternal : Z := 62135596800.
Definition i64 (z : Z) : Z := (z + 2 ^ 63) mod 2 ^ 64 - 2 ^ 63.
Definition AsTime (ts : Timestamp) : Time.t :=
  Time.mk (i64 (seconds ts + unixToInternal) * 1000000000 + nanos ts) "".

Record Envelope := mkEnvelope {
  SchemaVersion : Z;
  MessageId : string;
  ProtocolId : string;
  SourceChainId : string;
  SourceCoordinator : string;
  SourceComponent : string;
  DestinationChainId : string;
  DestinationCoordinator : string;
  DestinationComponent : string;
  LaneId : string;
  SourceNonce : Z;
  AggregateId : string;
  ActionType : Z;
  TypedActionPayload : string;
  PayloadHash : string;
  CreatedAt : option Timestamp;
  ExpiresAt : option Timestamp;
  RoutePolicyHash : string;
  AdapterSetPolicyHash : string;
  SourceFinalityPolicyHash : string;
  DestinationFinalityPolicyHash : string;
  CorrelationId : string;
  CausationMessageId : string;
  SupersededMessageId : string;
  Typed : option TypedAction }.

#[export] Instance Envelope_eq_dec : EqDecision Envelope.
Proof. solve_decision. Defined.

(** The generated getters on a nil timestamp. *)
Definition GetSeconds (ts : option Timestamp) : Z := default 0 (seconds <$> ts).
Definition GetNanos (ts : option Timestamp) : Z := default 0 (nanos <$> ts).
Definition GetAsTime (ts : option Timestamp) : Time.t := AsTime (default (mkTimestamp 0 0) ts).

(** The widths of the bindings' integer fields. *)
Record envelope_widths (e : Envelope) : Prop := {
  width_schema : 0 <= SchemaVersion e < 2 ^ 32;
  width_nonce : 0 <= SourceNonce e < 2 ^ 64;
  width_created : - 2 ^ 63 <= GetSeconds (CreatedAt e) < 2 ^ 63;
  width_expires : - 2 ^ 63 <= GetSeconds (ExpiresAt e) < 2 ^ 63 }.

Record LoanCancellationAuthorization := mkLoanCancellationAuthorization {
  a_LoanRouter : string;
  a_LoanId : string;
  a_FundingLockId : string;
  a_DisbursementMessageId : string;
  a_DisbursementTombstoneHash : string;
  a_Amount : string;
  a_PolicyHash : string;
  a_AuthorizationNonce : Z;
  a_ValidUntil : Z;
  a_ReasonCode : string;
  a_AuthorizerSetHash : string;
  a_AuthorizerSetVersion : Z }.
