(* ===== verification/Message.v ===== *)
(** Canonical message identity ([cross-chain-coordinator/message/digest.go]):
    the ABI encoding of typed actions, the envelope digest and its validation. *)
From S2P Require Import Prelude GoStd CrossChainTypes.

(** Every validation error wraps [ErrInvalidEnvelope]; the wrapping text, which
    depends on map iteration order, is not kept. *)
Inductive error := ErrInvalidEnvelope | ErrDigestMismatch.

Definition domainTag : string := "UNIFIED_XCHAIN_MESSAGE_V1".

(** * ABI words *)

Definition zeros (n : nat) : string := be_bytes n 0.

(** [exactLength(value, size) == nil]. *)
Definition exactLength (value : string) (size : nat) : bool := (String.length value =? size)%nat.

Definition uintWord (value : Z) : string := zeros 24 +:+ be_bytes 8 value.

(** [copy(word[12:], address)]: at most twenty bytes, zero-filled. *)
Definition addressWord (address : string) : string :=
  zeros 12 +:+ String.substring 0 20 address +:+ zeros (20 - String.length address).

Definition uint256 (value : string) : result error string :=
  match Big.set_string value with
  | None => Err ErrInvalidEnvelope
  | Some number =>
      if (number <=? 0) || (2 ^ 256 <=? number) || (Big.to_string number <>s value)
      then Err ErrInvalidEnvelope
      else Ok (be_bytes 32 number)
  end.

(** [abiWord]: a word or the error met while building it. *)
Definition abiWord : Type := result error string.

Definition bytes32ABI (value : string) : abiWord :=
  if exactLength value 32 then Ok value else Err ErrInvalidEnvelope.
Definition addressABI (value : string) : abiWord :=
  if exactLength value 20 then Ok (addressWord value) else Err ErrInvalidEnvelope.
Definition uint256ABI (value : string) : abiWord := uint256 value.

Fixpoint encodeStatic (words : list abiWord) : result error string :=
  match words with
  | [] => Ok ""%string
  | word :: rest =>
      let? value := word in
      let? encoded := encodeStatic rest in
      Ok (value +:+ encoded)
  end.

Definition encodeLoanAction (loanID operationID homeLoan borrower lender asset amount
    policyHash : string) : result error string :=
  encodeStatic
    [bytes32ABI loanID; bytes32ABI operationID; addressABI homeLoan; addressABI borrower;
     addressABI lender; addressABI asset; uint256ABI amount; bytes32ABI policyHash].

(** * Typed actions *)

Definition actionMismatch {A} : result error A := Err ErrInvalidEnvelope.

Definition EncodeTypedActionABI (envelope : Envelope) : result error string :=
  let action := ActionType envelope in
  if action =? CANONICAL_UFT_LOCKED_V1 then
    match Typed envelope with
    | Some (CanonicalUftLock lock_id loan_id canonical_token home_bridge_hub wrapped_token
              destination_recipient amount) =>
        encodeStatic
          [bytes32ABI lock_id; bytes32ABI loan_id; addressABI canonical_token;
           addressABI home_bridge_hub; addressABI wrapped_token;
           addressABI destination_recipient; uint256ABI amount]
    | _ => actionMismatch
    end
  else if action =? WRAPPED_UFT_MINTED_V1 then
    match Typed envelope with
    | Some (WrappedUftMinted loan_id lock_id home_loan_account borrower lender wrapped_token
              amount policy_hash) =>
        encodeStatic
          [bytes32ABI loan_id; bytes32ABI lock_id; addressABI home_loan_account;
           addressABI borrower; addressABI lender; addressABI wrapped_token;
           uint256ABI amount; bytes32ABI policy_hash]
    | _ => actionMismatch
    end
  else if action =? WRAPPED_UFT_BURNED_V1 then
    match Typed envelope with
    | Some (WrappedUftBurned burn_id backing_route_policy_hash canonical_token home_bridge_hub
              wrapped_token recipient amount) =>
        encodeStatic
          [bytes32ABI burn_id; bytes32ABI backing_route_policy_hash; addressABI canonical_token;
           addressABI home_bridge_hub; addressABI wrapped_token; addressABI recipient;
           uint256ABI amount]
    | _ => actionMismatch
    end
  else if action =? CANONICAL_UFT_RELEASED_V1 then
    match Typed envelope with
    | Some (CanonicalUftReleased burn_id canonical_token recipient amount
              wrapped_burn_message_id) =>
        encodeStatic
          [bytes32ABI burn_id; addressABI canonical_token; addressABI recipient;
           uint256ABI amount; bytes32ABI wrapped_burn_message_id]
    | _ => actionMismatch
    end
  else if action =? SATELLITE_COLLATERAL_LOCKED_V1 then
    match Typed envelope with
    | Some (SatelliteCollateralLocked loan_id collateral_id home_loan_account borrower lender
              collateral_token amount policy_hash) =>
        encodeLoanAction loan_id collateral_id home_loan_account borrower lender
          collateral_token amount policy_hash
    | _ => actionMismatch
    end
  else if action =? HOME_DISBURSEMENT_AUTHORIZED_V1 then
    match Typed envelope with
    | Some (HomeDisbursementAuthorized loan_id funding_lock_id home_loan_account borrower lender
              wrapped_token amount policy_hash) =>
        encodeLoanAction loan_id funding_lock_id home_loan_account borrower lender
          wrapped_token amount policy_hash
    | _ => actionMismatch
    end
  else if action =? SATELLITE_DISBURSEMENT_SETTLED_V1 then
    match Typed envelope with
    | Some (SatelliteDisbursementSettled loan_id funding_lock_id home_loan_account borrower lender
              wrapped_token amount policy_hash) =>
        encodeLoanAction loan_id funding_lock_id home_loan_account borrower lender
          wrapped_token amount policy_hash
    | _ => actionMismatch
    end
  else if action =? SATELLITE_REPAYMENT_BURNED_V1 then
    match Typed envelope with
    | Some (SatelliteRepaymentBurned burn_id loan_id payment_id backing_route_policy_hash
              canonical_token home_bridge_hub wrapped_token lender amount) =>
        encodeStatic
          [bytes32ABI burn_id; bytes32ABI loan_id; bytes32ABI payment_id;
           bytes32ABI backing_route_policy_hash; addressABI canonical_token;
           addressABI home_bridge_hub; addressABI wrapped_token; addressABI lender;
           uint256ABI amount]
    | _ => actionMismatch
    end
  else if action =? HOME_COLLATERAL_RELEASE_AUTHORIZED_V1 then
    match Typed envelope with
    | Some (HomeCollateralReleaseAuthorized loan_id collateral_id home_loan_account borrower
              lender collateral_token amount policy_hash) =>
        encodeLoanAction loan_id collateral_id home_loan_account borrower lender
          collateral_token amount policy_hash
    | _ => actionMismatch
    end
  else if action =? SATELLITE_COLLATERAL_RELEASED_V1 then
    match Typed envelope with
    | Some (SatelliteCollateralReleased loan_id collateral_id home_loan_account borrower
              lender collateral_token amount policy_hash) =>
        encodeLoanAction loan_id collateral_id home_loan_account borrower lender
          collateral_token amount policy_hash
    | _ => actionMismatch
    end
  else if action =? CANCELLATION_REQUESTED_V1 then
    match Typed envelope with
    | Some (LoanCancellationRequested cancellation_id loan_id funding_lock_id
              disbursement_message_id disbursement_tombstone_hash home_loan_account lender
              wrapped_token amount policy_hash reason_code) =>
        encodeStatic
          [bytes32ABI cancellation_id; bytes32ABI loan_id; bytes32ABI funding_lock_id;
           bytes32ABI disbursement_message_id; bytes32ABI disbursement_tombstone_hash;
           addressABI home_loan_account; addressABI lender; addressABI wrapped_token;
           uint256ABI amount; bytes32ABI policy_hash; bytes32ABI reason_code]
    | _ => actionMismatch
    end
  else if action =? SOURCE_COMPENSATED_V1 then
    match Typed envelope with
    | Some (SatelliteFundingCancelled cancellation_id loan_id funding_lock_id
              disbursement_message_id disbursement_tombstone_hash escrow_burn_result_hash
              home_loan_account lender wrapped_token amount policy_hash) =>
        encodeStatic
          [bytes32ABI cancellation_id; bytes32ABI loan_id; bytes32ABI funding_lock_id;
           bytes32ABI disbursement_message_id; bytes32ABI disbursement_tombstone_hash;
           bytes32ABI escrow_burn_result_hash; addressABI home_loan_account;
           addressABI lender; addressABI wrapped_token; uint256ABI amount;
           bytes32ABI policy_hash]
    | _ => actionMismatch
    end
  else if action =? SATELLITE_UFT_PERMANENT_BURNED_V1 then
    match Typed envelope with
    | Some (SatelliteUftPermanentBurned burn_id backing_route_policy_hash canonical_token
              home_bridge_hub wrapped_token amount) =>
        encodeStatic
          [bytes32ABI burn_id; bytes32ABI backing_route_policy_hash; addressABI canonical_token;
           addressABI home_bridge_hub; addressABI wrapped_token; uint256ABI amount]
    | _ => actionMismatch
    end
  else Err ErrInvalidEnvelope.

Definition EncodeLoanCancellationAuthorizationABI
    (authorization : option LoanCancellationAuthorization) : result error string :=
  match authorization with
  | None => Err ErrInvalidEnvelope
  | Some a =>
      encodeStatic
        [addressABI (a_LoanRouter a); bytes32ABI (a_LoanId a); bytes32ABI (a_FundingLockId a);
         bytes32ABI (a_DisbursementMessageId a); bytes32ABI (a_DisbursementTombstoneHash a);
         uint256ABI (a_Amount a); bytes32ABI (a_PolicyHash a);
         Ok (uintWord (a_AuthorizationNonce a)); Ok (uintWord (a_ValidUntil a));
         bytes32ABI (a_ReasonCode a); bytes32ABI (a_AuthorizerSetHash a);
         Ok (uintWord (a_AuthorizerSetVersion a))]
  end.

(** * Envelopes *)

Section Digest.
Context `{Keccak}.

Definition fields32 (envelope : Envelope) : list string :=
  [ProtocolId envelope; LaneId envelope; AggregateId envelope; PayloadHash envelope;
   RoutePolicyHash envelope; AdapterSetPolicyHash envelope; SourceFinalityPolicyHash envelope;
   DestinationFinalityPolicyHash envelope; CorrelationId envelope; CausationMessageId envelope;
   SupersededMessageId envelope].
Definition fields20 (envelope : Envelope) : list string :=
  [SourceCoordinator envelope; SourceComponent envelope; DestinationCoordinator envelope;
   DestinationComponent envelope].

(** The two map loops fail on some field of the wrong length, if there is one. *)
Definition validateEnvelope (envelope : Envelope) (requireID : bool) : result error () :=
  if (SchemaVersion envelope =? 0) || (SourceNonce envelope =? 0) ||
     (ActionType envelope =? ACTION_UNSPECIFIED)
  then Err ErrInvalidEnvelope
  else if (if requireID then negb (exactLength (MessageId envelope) 32)
           else negb (String.length (MessageId envelope) =? 0)%nat &&
                negb (String.length (MessageId envelope) =? 32)%nat)
  then Err ErrInvalidEnvelope
  else if negb (forallb (λ value, exactLength value 32) (fields32 envelope))
  then Err ErrInvalidEnvelope
  else if negb (forallb (λ value, exactLength value 20) (fields20 envelope))
  then Err ErrInvalidEnvelope
  else
    let? _ := uint256 (SourceChainId envelope) in
    let? _ := uint256 (DestinationChainId envelope) in
    if match CreatedAt envelope with None => true | Some _ => false end ||
       match ExpiresAt envelope with None => true | Some _ => false end ||
       negb (GetNanos (CreatedAt envelope) =? 0) || negb (GetNanos (ExpiresAt envelope) =? 0) ||
       (GetSeconds (CreatedAt envelope) <? 0) ||
       (GetSeconds (ExpiresAt envelope) <=? GetSeconds (CreatedAt envelope))
    then Err ErrInvalidEnvelope
    else
      let? encodedPayload := EncodeTypedActionABI envelope in
      if encodedPayload <>s TypedActionPayload envelope then Err ErrInvalidEnvelope
      else if keccak encodedPayload <>s PayloadHash envelope then Err ErrInvalidEnvelope
      else Ok ().

Definition argumentCount : Z := 23.

(** The head of the ABI tuple, word by word; [uint64(...)] reinterprets the
    enumeration and the signed seconds. *)
Definition head_words (envelope : Envelope) (sourceChain destinationChain : string) : list string :=
  [uintWord (argumentCount * 32); uintWord (SchemaVersion envelope); ProtocolId envelope;
   sourceChain; addressWord (SourceCoordinator envelope); addressWord (SourceComponent envelope);
   destinationChain; addressWord (DestinationCoordinator envelope);
   addressWord (DestinationComponent envelope); LaneId envelope;
   uintWord (SourceNonce envelope); AggregateId envelope; uintWord (u64 (ActionType envelope));
   PayloadHash envelope; uintWord (u64 (GetSeconds (CreatedAt envelope)));
   uintWord (u64 (GetSeconds (ExpiresAt envelope))); RoutePolicyHash envelope;
   AdapterSetPolicyHash envelope; SourceFinalityPolicyHash envelope;
   DestinationFinalityPolicyHash envelope; CorrelationId envelope; CausationMessageId envelope;
   SupersededMessageId envelope].

Definition concat_words (words : list string) : string := foldr String.append ""%string words.

Definition tag_tail : string :=
  let tail := uintWord (Z.of_nat (String.length domainTag)) +:+ domainTag in
  let remainder := (String.length tail mod 32)%nat in
  if (remainder =? 0)%nat then tail else tail +:+ zeros (32 - remainder).

Definition ComputeMessageID (envelope : Envelope) : result error string :=
  let? _ := validateEnvelope envelope false in
  let? sourceChain := uint256 (SourceChainId envelope) in
  let? destinationChain := uint256 (DestinationChainId envelope) in
  Ok (keccak (concat_words (head_words envelope sourceChain destinationChain) +:+ tag_tail)).

Definition ValidateEnvelope (envelope : Envelope) : result error () :=
  let? _ := validateEnvelope envelope true in
  let? expected := ComputeMessageID envelope in
  if MessageId envelope <>s expected then Err ErrDigestMismatch else Ok ().

Definition with_message_id (id : string) (e : Envelope) : Envelope :=
  mkEnvelope (SchemaVersion e) id (ProtocolId e) (SourceChainId e) (SourceCoordinator e)
    (SourceComponent e) (DestinationChainId e) (DestinationCoordinator e)
    (DestinationComponent e) (LaneId e) (SourceNonce e) (AggregateId e) (ActionType e)
    (TypedActionPayload e) (PayloadHash e) (CreatedAt e) (ExpiresAt e) (RoutePolicyHash e)
    (AdapterSetPolicyHash e) (SourceFinalityPolicyHash e) (DestinationFinalityPolicyHash e)
    (CorrelationId e) (CausationMessageId e) (SupersededMessageId e) (Typed e).

Definition with_payload (payload hash : string) (e : Envelope) : Envelope :=
  mkEnvelope (SchemaVersion e) (MessageId e) (ProtocolId e) (SourceChainId e)
    (SourceCoordinator e) (SourceComponent e) (DestinationChainId e) (DestinationCoordinator e)
    (DestinationComponent e) (LaneId e) (SourceNonce e) (AggregateId e) (ActionType e)
    payload hash (CreatedAt e) (ExpiresAt e) (RoutePolicyHash e)
    (AdapterSetPolicyHash e) (SourceFinalityPolicyHash e) (DestinationFinalityPolicyHash e)
    (CorrelationId e) (CausationMessageId e) (SupersededMessageId e) (Typed e).

Definition Seal (envelope : Envelope) : result error Envelope :=
  let sealed := with_message_id "" envelope in
  let? id := ComputeMessageID sealed in
  Ok (with_message_id id sealed).

(** Updates the envelope in place; on an error it is unchanged. *)
Definition BindTypedActionABI (envelope : Envelope) : Envelope * result error () :=
  match EncodeTypedActionABI envelope with
  | Err e => (envelope, Err e)
  | Ok encoded => (with_payload encoded (keccak encoded) envelope, Ok ())
  end.

End Digest.

(** [proto.MarshalOptions{Deterministic: true}.Marshal]: a parameter that may
    fail, and whose output can be decoded, so that it determines the message. *)
Class ProtoMarshal := {
  Marshal : Envelope → option string;
  Marshal_inj : ∀ e1 e2 bytes, Marshal e1 = Some bytes → Marshal e2 = Some bytes → e1 = e2 }.

Inductive marshal_error := ErrEnvelope (e : error) | ErrMarshal.

Definition DeterministicBytes `{Keccak, ProtoMarshal} (envelope : Envelope)
    : result marshal_error string :=
  match ValidateEnvelope envelope with
  | Err e => Err (ErrEnvelope e)
  | Ok _ => match Marshal envelope with Some bytes => Ok bytes | None => Err ErrMarshal end
  end.

(** * Injectivity of the encodings *)

Definition word32 (w : abiWord) : Prop :=
  match w with Ok value => String.length value = 32%nat | Err _ => True end.

Lemma uintWord_length v : String.length (uintWord v) = 32%nat.
Proof. unfold uintWord, zeros. by rewrite string_app_length, !be_bytes_length. Qed.

Lemma uintWord_inj a b : 0 <= a < 2 ^ 64 → 0 <= b < 2 ^ 64 → uintWord a = uintWord b → a = b.
Proof.
  intros Ha Hb E. apply string_app_inj_l in E as [_ E]; [|done].
  by apply be_bytes_inj in E.
Qed.

Lemma addressWord_20 a : String.length a = 20%nat → addressWord a = zeros 12 +:+ a.
Proof.
  intros Ha. unfold addressWord. rewrite Ha. rewrite <- Ha at 1. rewrite substring_full.
  change (zeros (20 - 20)) with ""%string. by rewrite string_app_nil_r.
Qed.

Lemma addressWord_length a : String.length a = 20%nat → String.length (addressWord a) = 32%nat.
Proof.
  intros Ha. rewrite addressWord_20 by done. unfold zeros.
  by rewrite string_app_length, be_bytes_length, Ha.
Qed.

Lemma addressWord_inj a b :
  String.length a = 20%nat → String.length b = 20%nat → addressWord a = addressWord b → a = b.
Proof.
  intros Ha Hb. rewrite !addressWord_20 by done. intros E. by apply string_app_inj_l in E as [_ E].
Qed.

Lemma uint256_Ok value word :
  uint256 value = Ok word →
  ∃ n, 0 < n < 2 ^ 256 ∧ value = Big.to_string n ∧ word = be_bytes 32 n.
Proof.
  unfold uint256. destruct (Big.set_string value) as [n|]; [|done].
  destruct (_ || _) eqn:Hg; [done|]. intros [= <-]. bool_facts. exists n. split; [lia|done].
Qed.

Lemma uint256_inj a b word : uint256 a = Ok word → uint256 b = Ok word → a = b.
Proof.
  intros (n & Hn & -> & ->)%uint256_Ok (m & Hm & -> & E)%uint256_Ok.
  apply be_bytes_inj in E; [by subst|lia..].
Qed.

Lemma bytes32ABI_word32 v : word32 (bytes32ABI v).
Proof. unfold bytes32ABI, exactLength. destruct (Nat.eqb_spec (String.length v) 32); done. Qed.
Lemma addressABI_word32 v : word32 (addressABI v).
Proof.
  unfold addressABI, exactLength. destruct (Nat.eqb_spec (String.length v) 20); [|done].
  by apply addressWord_length.
Qed.
Lemma uint256ABI_word32 v : word32 (uint256ABI v).
Proof.
  unfold uint256ABI. destruct (uint256 v) as [w|] eqn:E; [|done].
  apply uint256_Ok in E as (n & _ & _ & ->). apply be_bytes_length.
Qed.
#[export] Hint Resolve bytes32ABI_word32 addressABI_word32 uint256ABI_word32 : go.

(** Two successful encodings of equally many words agree word by word. *)
Lemma encodeStatic_inj ws ws' s :
  encodeStatic ws = Ok s → encodeStatic ws' = Ok s →
  length ws = length ws' → Forall word32 ws → Forall word32 ws' →
  Forall2 (λ w w', ∃ v, w = Ok v ∧ w' = Ok v) ws ws'.
Proof.
  revert ws' s. induction ws as [|w ws IH]; intros [|w' ws'] s E1 E2 Hl H1 H2; try done.
  injection Hl as Hl. inversion_clear H1. inversion_clear H2. simpl in E1, E2.
  destruct w as [v|], w' as [v'|]; try done.
  destruct (encodeStatic ws) as [r|] eqn:Er; [|done].
  destruct (encodeStatic ws') as [r'|] eqn:Er'; [|done].
  injection E1 as <-. injection E2 as E2. simpl in *.
  apply string_app_inj_l in E2 as [-> ->]; [|congruence]. constructor; [by exists v|].
  by apply (IH _ r).
Qed.

Lemma bytes32ABI_inj a b v : bytes32ABI a = Ok v → bytes32ABI b = Ok v → a = b.
Proof. unfold bytes32ABI. destruct (exactLength a 32), (exactLength b 32); congruence. Qed.
Lemma addressABI_inj a b v : addressABI a = Ok v → addressABI b = Ok v → a = b.
Proof.
  unfold addressABI, exactLength. destruct (Nat.eqb_spec (String.length a) 20); [|done].
  destruct (Nat.eqb_spec (String.length b) 20); [|done]. intros E1 E2.
  apply addressWord_inj; congruence.
Qed.
Lemma uint256ABI_inj a b v : uint256ABI a = Ok v → uint256ABI b = Ok v → a = b.
Proof. apply uint256_inj. Qed.

Ltac all_words := repeat (apply Forall_cons; split); auto with go; apply Forall_nil; exact I.

(** Reads the arguments off two equal encodings. *)
Ltac words_agree H1 H2 :=
  let H := fresh in
  pose proof (encodeStatic_inj _ _ _ H1 H2 eq_refl
    ltac:(all_words) ltac:(all_words)) as H;
  repeat (apply Forall2_cons in H; destruct H as [(? & ? & ?) H]);
  repeat match goal with
  | A : bytes32ABI ?a = Ok ?v, B : bytes32ABI ?b = Ok ?v |- _ =>
      pose proof (bytes32ABI_inj a b v A B); clear A B
  | A : addressABI ?a = Ok ?v, B : addressABI ?b = Ok ?v |- _ =>
      pose proof (addressABI_inj a b v A B); clear A B
  | A : uint256ABI ?a = Ok ?v, B : uint256ABI ?b = Ok ?v |- _ =>
      pose proof (uint256ABI_inj a b v A B); clear A B
  end; subst.

(** The payload determines the typed action, given the action type. *)
Lemma EncodeTypedActionABI_inj e1 e2 payload :
  ActionType e1 = ActionType e2 →
  EncodeTypedActionABI e1 = Ok payload → EncodeTypedActionABI e2 = Ok payload →
  Typed e1 = Typed e2.
Proof.
  unfold EncodeTypedActionABI, encodeLoanAction. intros <- H1 H2.
  repeat match type of H1 with context [if ?g then _ else _] => destruct g end; try done.
  all: destruct (Typed e1) as [[]|]; try discriminate H1;
       destruct (Typed e2) as [[]|]; try discriminate H2; words_agree H1 H2; done.
Qed.

(** An accepted payload has one of the thirteen economic action types. *)
Lemma EncodeTypedActionABI_action e payload :
  EncodeTypedActionABI e = Ok payload → 1 <= ActionType e <= 15.
Proof.
  unfold EncodeTypedActionABI. intros H1.
  repeat match type of H1 with context [if ?x =? ?y then _ else _] =>
    destruct (Z.eqb_spec x y) as [->|_]; [by vm_compute|] end. done.
Qed.

(** The elements of a [Forall] over an explicit list. *)
Ltac split_forall :=
  repeat match goal with
  | H : Forall _ (_ :: _) |- _ => apply Forall_cons in H; destruct H
  end.

Lemma cons_inj {A} (x y : A) l k : x :: l = y :: k → x = y ∧ l = k.
Proof. by intros [= -> ->]. Qed.

Lemma concat_words_inj xs ys r s :
  length xs = length ys →
  Forall (λ w, String.length w = 32%nat) xs → Forall (λ w, String.length w = 32%nat) ys →
  concat_words xs +:+ r = concat_words ys +:+ s → xs = ys.
Proof.
  revert ys. induction xs as [|x xs IH]; intros [|y ys] Hl Hx Hy E; try done.
  injection Hl as Hl. inversion_clear Hx. inversion_clear Hy.
  change (concat_words (x :: xs)) with (x +:+ concat_words xs) in E.
  change (concat_words (y :: ys)) with (y +:+ concat_words ys) in E.
  rewrite !string_app_assoc in E. apply string_app_inj_l in E as [-> E]; [|congruence].
  f_equal. by apply IH.
Qed.

Section Binding.
Context `{Keccak}.

(** What an accepted envelope satisfies. *)
Record accepted (e : Envelope) : Prop := {
  acc_32 : Forall (λ v, String.length v = 32%nat) (fields32 e);
  acc_20 : Forall (λ v, String.length v = 20%nat) (fields20 e);
  acc_source : is_ok (uint256 (SourceChainId e)) = true;
  acc_destination : is_ok (uint256 (DestinationChainId e)) = true;
  acc_times : ∃ c x, CreatedAt e = Some (mkTimestamp c 0) ∧ ExpiresAt e = Some (mkTimestamp x 0) ∧
    0 <= c < x;
  acc_payload : EncodeTypedActionABI e = Ok (TypedActionPayload e);
  acc_hash : PayloadHash e = keccak (TypedActionPayload e);
  acc_required : SchemaVersion e ≠ 0 ∧ SourceNonce e ≠ 0 ∧ ActionType e ≠ ACTION_UNSPECIFIED }.

Lemma forallb_length (n : nat) l :
  forallb (λ v, exactLength v n) l = true ↔ Forall (λ v, String.length v = n) l.
Proof.
  rewrite forallb_forall, Forall_forall. setoid_rewrite <- list_elem_of_In.
  unfold exactLength. by setoid_rewrite Nat.eqb_eq.
Qed.

Lemma validateEnvelope_accepted e requireID :
  validateEnvelope e requireID = Ok () ↔
  accepted e ∧ (if requireID then String.length (MessageId e) = 32%nat
                else String.length (MessageId e) = 0%nat ∨ String.length (MessageId e) = 32%nat).
Proof.
  unfold validateEnvelope, exactLength. split.
  - intros Hv. destruct (_ || _) eqn:Hreq; [done|].
    destruct (if requireID then _ else _) eqn:Hid; [done|].
    destruct (forallb _ (fields32 e)) eqn:H32; [|done].
    destruct (forallb _ (fields20 e)) eqn:H20; [|done]. simpl in Hv.
    destruct (uint256 (SourceChainId e)) as [sc|] eqn:Hsc; [|done].
    destruct (uint256 (DestinationChainId e)) as [dc|] eqn:Hdc; [|done].
    destruct (CreatedAt e) as [[c cn]|] eqn:Hc; [|done].
    destruct (ExpiresAt e) as [[x xn]|] eqn:Hx; [|done].
    unfold GetSeconds, GetNanos in Hv. simpl in Hv.
    destruct (_ || _) eqn:Ht in Hv; [done|].
    destruct (EncodeTypedActionABI e) as [p|] eqn:Hp; [|done].
    destruct (p <>s _) eqn:Hpp in Hv; [done|]. destruct (keccak p <>s _) eqn:Hk in Hv; [done|].
    bool_facts. subst. split.
    + constructor; try done; try by apply forallb_length.
      * by rewrite Hsc.
      * by rewrite Hdc.
      * exists c, x. split_and!; try done; lia.
    + destruct requireID; [bool_facts; by apply Nat.eqb_eq|].
      apply andb_false_iff in Hid as [E|E]; apply negb_false_iff, Nat.eqb_eq in E; auto.
  - intros [[A32 A20 Asc Adc (c & x & Hc & Hx & Hcx) Ap Ah (R1 & R2 & R3)] Hid].
    replace (_ || _) with false by (symmetry; repeat (apply orb_false_iff; split); by apply Z.eqb_neq).
    replace (if requireID then _ else _) with false; cycle 1.
    { symmetry. destruct requireID; [by rewrite Hid|]. destruct Hid as [-> | ->]; done. }
    apply forallb_length in A32, A20. unfold exactLength in A32, A20. rewrite A32, A20. simpl.
    destruct (uint256 (SourceChainId e)); [|done]. destruct (uint256 (DestinationChainId e)); [|done].
    rewrite Hc, Hx, Ap. unfold GetSeconds, GetNanos. simpl.
    replace (_ || _) with false by (symmetry; apply orb_false_iff; split; [apply Z.ltb_ge|apply Z.leb_gt]; lia).
    rewrite Ah, !String.eqb_refl. done.
Qed.

Lemma head_words_length e sc dc :
  accepted e → uint256 (SourceChainId e) = Ok sc → uint256 (DestinationChainId e) = Ok dc →
  Forall (λ w, String.length w = 32%nat) (head_words e sc dc).
Proof.
  intros [A32 A20 _ _ _ _ _ _] (n & _ & _ & ->)%uint256_Ok (m & _ & _ & ->)%uint256_Ok.
  unfold fields32 in A32. unfold fields20 in A20. split_forall. unfold head_words.
  repeat (apply Forall_cons; split); auto using uintWord_length, addressWord_length, be_bytes_length.
Qed.

Lemma ComputeMessageID_Ok e id :
  ComputeMessageID e = Ok id →
  accepted e ∧ ∃ sc dc, uint256 (SourceChainId e) = Ok sc ∧ uint256 (DestinationChainId e) = Ok dc ∧
    id = keccak (concat_words (head_words e sc dc) +:+ tag_tail).
Proof.
  unfold ComputeMessageID. destruct (validateEnvelope e false) as [[]|] eqn:Hv; [|done].
  apply validateEnvelope_accepted in Hv as [Ha _].
  destruct (uint256 (SourceChainId e)) as [sc|]; [|done].
  destruct (uint256 (DestinationChainId e)) as [dc|]; [|done].
  intros [= <-]. split; [done|]. by exists sc, dc.
Qed.

Lemma ValidateEnvelope_Ok e : ValidateEnvelope e = Ok () → ComputeMessageID e = Ok (MessageId e).
Proof.
  unfold ValidateEnvelope. destruct (validateEnvelope e true); [|done].
  destruct (ComputeMessageID e) as [id|]; [|done]. destruct (_ <>s id) eqn:E; [done|].
  bool_facts. by subst.
Qed.

Lemma with_message_id_eta e : e = with_message_id (MessageId e) e.
Proof. by destruct e. Qed.

(** The bytes hashed into the message id. *)
Definition id_preimage (e : Envelope) : string :=
  match uint256 (SourceChainId e), uint256 (DestinationChainId e) with
  | Ok sourceChain, Ok destinationChain =>
      concat_words (head_words e sourceChain destinationChain) +:+ tag_tail
  | _, _ => ""%string
  end.

(** A collision between the two pre-images of the ids or the two payloads. *)
Definition envelopes_collide (e1 e2 : Envelope) : Prop :=
  collides (id_preimage e1) (id_preimage e2) ∨
  collides (TypedActionPayload e1) (TypedActionPayload e2).

(** Two accepted envelopes with the same digest agree on every digested field. *)
Lemma digest_binds e1 e2 id :
  envelope_widths e1 → envelope_widths e2 →
  ComputeMessageID e1 = Ok id → ComputeMessageID e2 = Ok id →
  with_message_id "" e1 = with_message_id "" e2 ∨ envelopes_collide e1 e2.
Proof.
  intros W1 W2 (A1 & sc & dc & Hsc & Hdc & ->)%ComputeMessageID_Ok
    (A2 & sc' & dc' & Hsc' & Hdc' & E)%ComputeMessageID_Ok.
  apply keccak_cases in E as [E|]; [|right; left; unfold id_preimage; by rewrite Hsc, Hdc, Hsc', Hdc'].
  apply concat_words_inj in E; [|done|by apply head_words_length..].
  destruct (acc_times _ A1) as (c1 & x1 & Hc1 & Hx1 & ?).
  destruct (acc_times _ A2) as (c2 & x2 & Hc2 & Hx2 & ?).
  pose proof (EncodeTypedActionABI_action _ _ (acc_payload _ A1)).
  pose proof (EncodeTypedActionABI_action _ _ (acc_payload _ A2)).
  destruct W1 as [Ws1 Wn1 Wc1 Wx1], W2 as [Ws2 Wn2 Wc2 Wx2].
  unfold head_words in E. rewrite Hc1, Hc2, Hx1, Hx2 in E.
  rewrite Hc1 in Wc1. rewrite Hc2 in Wc2. rewrite Hx1 in Wx1. rewrite Hx2 in Wx2.
  unfold GetSeconds in *. simpl fmap in *. simpl default in *.
  rewrite !u64_small in E by lia.
  pose proof (acc_20 _ A1) as B1. pose proof (acc_20 _ A2) as B2.
  unfold fields20 in B1, B2. split_forall.
  repeat (apply cons_inj in E; destruct E as [? E]).
  repeat match goal with
  | A : uintWord _ = uintWord _ |- _ => apply uintWord_inj in A; [|lia..]
  | A : addressWord _ = addressWord _ |- _ => apply addressWord_inj in A; [|done..]
  end.
  subst sc' dc'. pose proof (uint256_inj _ _ _ Hsc Hsc'). pose proof (uint256_inj _ _ _ Hdc Hdc').
  assert (PayloadHash e1 = PayloadHash e2) as Eh by done.
  rewrite (acc_hash _ A1), (acc_hash _ A2) in Eh.
  apply keccak_cases in Eh as [Eh|]; [|by right; right]. left.
  assert (Typed e1 = Typed e2).
  { eapply EncodeTypedActionABI_inj; [done|apply A1|]. rewrite Eh. apply A2. }
  assert (CreatedAt e1 = CreatedAt e2) by (rewrite Hc1, Hc2; by f_equal; f_equal).
  assert (ExpiresAt e1 = ExpiresAt e2) by (rewrite Hx1, Hx2; by f_equal; f_equal).
  unfold with_message_id. f_equal; assumption.
Qed.

(** C30: a message id identifies its message. Two envelopes that validate and
    carry the same id are the same envelope, every field and the typed action
    included, unless the two byte strings hashed into the ids, or the two action
    payloads, are a Keccak-256 collision; so the fields the
    digest leaves out (the payload bytes and the typed action) are bound too. *)
Theorem message_id_binds (e1 e2 : Envelope) :
  envelope_widths e1 → envelope_widths e2 →
  ValidateEnvelope e1 = Ok () → ValidateEnvelope e2 = Ok () →
  MessageId e1 = MessageId e2 → e1 = e2 ∨ envelopes_collide e1 e2.
Proof.
  intros W1 W2 V1 V2 Eid. apply ValidateEnvelope_Ok in V1, V2. rewrite <- Eid in V2.
  destruct (digest_binds _ _ _ W1 W2 V1 V2) as [E|]; [left|by right].
  rewrite (with_message_id_eta e1), (with_message_id_eta e2), Eid.
  change (with_message_id (MessageId e2) (with_message_id "" e1) =
          with_message_id (MessageId e2) (with_message_id "" e2)). by rewrite E.
Qed.

(** Validation and sealing do not look at the old message id. *)
Lemma accepted_message_id id e : accepted (with_message_id id e) ↔ accepted e.
Proof. split; intros [? ? ? ? ? ? ? ?]; by constructor. Qed.

Lemma ComputeMessageID_accepted id e :
  String.length id = 0%nat ∨ String.length id = 32%nat →
  accepted e → ComputeMessageID (with_message_id id e) = ComputeMessageID (with_message_id "" e) ∧
    is_ok (ComputeMessageID (with_message_id id e)) = true.
Proof.
  intros Hid Ha. assert (∀ i, String.length i = 0%nat ∨ String.length i = 32%nat →
    validateEnvelope (with_message_id i e) false = Ok ()) as Hv.
  { intros i Hi. apply validateEnvelope_accepted. split; [by apply accepted_message_id|done]. }
  unfold ComputeMessageID. rewrite !Hv by auto. simpl. split; [done|].
  pose proof (acc_source _ Ha). pose proof (acc_destination _ Ha).
  by destruct (uint256 (SourceChainId e)), (uint256 (DestinationChainId e)).
Qed.

(** Sealing an envelope whose typed action has been bound gives a valid
    message. [Seal] accepts exactly the envelopes that satisfy the validity
    rules, changes nothing but the message id, and its result validates;
    [BindTypedActionABI] supplies payload and hash, so any envelope that is
    otherwise well formed and has an encodable action can be bound and sealed;
    and sealing again changes nothing. *)
Theorem bind_seal_valid (e : Envelope) :
  (∀ sealed, Seal e = Ok sealed →
     ValidateEnvelope sealed = Ok () ∧ with_message_id (MessageId e) sealed = e ∧
     Seal sealed = Ok sealed) ∧
  (is_ok (Seal e) = true ↔ accepted e) ∧
  (∀ bound, BindTypedActionABI e = (bound, Ok ()) →
     EncodeTypedActionABI bound = Ok (TypedActionPayload bound) ∧
     PayloadHash bound = keccak (TypedActionPayload bound)).
Proof.
  split_and!.
  - intros sealed Hs. unfold Seal in Hs.
    destruct (ComputeMessageID _) as [id|] eqn:Hid; [|done]. injection Hs as <-.
    destruct (ComputeMessageID_Ok _ _ Hid) as [Ha (sc & dc & _ & _ & Eid)].
    apply accepted_message_id in Ha.
    assert (String.length id = 32%nat) as Hlen by (rewrite Eid; apply keccak_length).
    destruct (ComputeMessageID_accepted id e (or_intror Hlen) Ha) as [Hc _].
    split_and!; [|by destruct e|].
    + change (with_message_id id (with_message_id "" e)) with (with_message_id id e).
      unfold ValidateEnvelope.
      assert (validateEnvelope (with_message_id id e) true = Ok ()) as ->.
      { apply validateEnvelope_accepted. split; [by apply accepted_message_id|done]. }
      rewrite Hc, Hid. simpl. by rewrite String.eqb_refl.
    + unfold Seal. change (with_message_id "" (with_message_id id (with_message_id "" e)))
        with (with_message_id "" e). by rewrite Hid.
  - unfold Seal. split.
    + destruct (ComputeMessageID _) as [id|] eqn:Hid; [|done]. intros _.
      apply ComputeMessageID_Ok in Hid as [Ha _]. by apply accepted_message_id in Ha.
    + intros Ha. destruct (ComputeMessageID_accepted "" e (or_introl eq_refl) Ha) as [_ Hok].
      by destruct (ComputeMessageID _).
  - intros bound Hb. unfold BindTypedActionABI in Hb.
    destruct (EncodeTypedActionABI e) as [p|] eqn:Hp; [|done]. injection Hb as <-. by split.
Qed.
End Binding.

(** * A concrete message *)

Module Sample.
(** A stand-in digest: a polynomial in the bytes, modulo 2^64. *)
Fixpoint horner (acc : Z) (s : string) : Z :=
  match s with
  | EmptyString => acc
  | String c r => horner (Z.land (acc * 257 + Z.of_N (Ascii.N_of_ascii c) + 1) 18446744073709551615) r
  end.

#[export] Instance toy_keccak : Keccak :=
  {| keccak value := be_bytes 32 (horner 0 value); keccak_length value := be_bytes_length 32 _ |}.

Definition b32 (n : Z) : string := be_bytes 32 n.
Definition b20 (n : Z) : string := be_bytes 20 n.

(** An unsigned lock message with a given nonce and expiry. *)
Definition draft (nonce expires : Z) : Envelope :=
  mkEnvelope 1 "" (b32 1) "1" (b20 2) (b20 3) "10" (b20 4) (b20 5) (b32 6) nonce (b32 7)
    CANONICAL_UFT_LOCKED_V1 "" "" (Some (mkTimestamp 100 0)) (Some (mkTimestamp expires 0))
    (b32 8) (b32 9) (b32 10) (b32 11) (b32 12) (b32 0) (b32 0)
    (Some (CanonicalUftLock (b32 13) (b32 14) (b20 15) (b20 16) (b20 17) (b20 18) "1000")).

Definition sealed (nonce expires : Z) : Envelope :=
  match Seal (BindTypedActionABI (draft nonce expires)).1 with Ok e => e | Err _ => draft nonce expires end.

Lemma sealed_valid : ValidateEnvelope (sealed 1 200) = Ok ().
Proof. vm_compute. reflexivity. Qed.
Lemma sealed_widths : envelope_widths (sealed 1 200).
Proof. split; vm_compute; split; congruence. Qed.

Lemma message_id_binds_witness :
  ValidateEnvelope (sealed 1 200) = Ok () ∧
  (sealed 1 200 = sealed 1 200 ∨ envelopes_collide (sealed 1 200) (sealed 1 200)).
Proof.
  split; [exact sealed_valid|].
  exact (message_id_binds (sealed 1 200) (sealed 1 200) sealed_widths sealed_widths sealed_valid
    sealed_valid eq_refl).
Defined.
End Sample.
