(* ===== verification/MessageRegistry.v ===== *)
(** At-most-once destination execution
    ([cross-chain-coordinator/message/registry.go]): the in-memory registry that
    runs a handler per message, in lane order, and the transition policy shared
    by the stores. *)
From S2P Require Import Prelude GoStd CrossChainTypes Message.

(** * Data *)

Record record := mkRecord {
  r_envelope : string;
  r_state : Z;
  r_result : string;
  r_version : Z }.

Record Execution := mkExecution {
  x_MessageID : string;
  x_State : Z;
  x_Result : string;
  x_Replay : bool;
  x_Version : Z }.
Definition zeroExecution : Execution := mkExecution "" 0 "" false 0.

(** The clock is an argument of [Execute]. *)
Record Registry := mkRegistry {
  byMessage : gmap string record;
  byNonce : gmap string string;
  nextNonce : gmap string Z }.

Definition NewRegistry : Registry := mkRegistry ∅ ∅ ∅.

Inductive error (E : Type) :=
| ErrMessage (e : marshal_error)
| ErrNilHandler
| ErrNonceConflict
| ErrOutOfOrder
| ErrMessageExpired
| ErrHandler (e : E).
Arguments ErrMessage {E} _. Arguments ErrNilHandler {E}.
Arguments ErrNonceConflict {E}. Arguments ErrOutOfOrder {E}.
Arguments ErrMessageExpired {E}. Arguments ErrHandler {E} _.

(** * Operations *)

Definition IsReportAction (action : Z) : bool :=
  (action =? WRAPPED_UFT_MINTED_V1) || (action =? SATELLITE_COLLATERAL_LOCKED_V1) ||
  (action =? SATELLITE_DISBURSEMENT_SETTLED_V1) || (action =? SATELLITE_COLLATERAL_RELEASED_V1).

Definition toExecution (messageID : string) (current : record) (replay : bool) : Execution :=
  mkExecution messageID (r_state current) (r_result current) replay (r_version current).

(** [fmt.Sprintf("%x:%d", lane, nonce)]. *)
Definition nonceKey (lane : string) (nonce : Z) : string := hex lane +:+ ":" +:+ Big.to_string nonce.

(** The registry's expectation for a lane: a missing or zero entry means 1. *)
Definition next_of (registry : Registry) (lane : string) : Z :=
  let next := lookup_zero 0 (nextNonce registry) lane in
  if next =? 0 then 1 else next.

Definition put_message (key : string) (r : record) (registry : Registry) : Registry :=
  mkRegistry (<[key := r]> (byMessage registry)) (byNonce registry) (nextNonce registry).
Definition bind_nonce (key id : string) (registry : Registry) : Registry :=
  mkRegistry (byMessage registry) (<[key := id]> (byNonce registry)) (nextNonce registry).
Definition set_next (lane : string) (next : Z) (registry : Registry) : Registry :=
  mkRegistry (byMessage registry) (byNonce registry) (<[lane := next]> (nextNonce registry)).

Section Execute.
Context `{Keccak, ProtoMarshal} {W E : Type}.

(** The handler acts on a world [W]; it runs under the registry's lock, so it
    cannot call back into it. *)
Definition Handler : Type := Envelope → W → W * result E string.

(** From [current := registry.byMessage[messageKey]] on. *)
Definition run (now : Time.t) (envelope : Envelope) (serialized : string) (next : Z)
    (handler : Handler) (registry : Registry) (w : W)
    : Registry * W * (Execution * option (error E)) :=
  let messageKey := MessageId envelope in
  let key := nonceKey (LaneId envelope) (SourceNonce envelope) in
  let current := byMessage registry !! messageKey in
  if negb (Time.Before now (GetAsTime (ExpiresAt envelope))) &&
     negb (IsReportAction (ActionType envelope))
  then
    match current with
    | None =>
        let r := mkRecord serialized expired "" 1 in
        (bind_nonce key messageKey (put_message messageKey r registry), w,
         (toExecution messageKey r false, Some ErrMessageExpired))
    | Some c =>
        let r := mkRecord (r_envelope c) expired (r_result c) (u64 (r_version c + 1)) in
        (put_message messageKey r registry, w,
         (toExecution messageKey r false, Some ErrMessageExpired))
    end
  else
    let '(registry, c) :=
      match current with
      | Some c => (registry, c)
      | None =>
          let c := mkRecord serialized verified "" 1 in
          (bind_nonce key messageKey (put_message messageKey c registry), c)
      end in
    match handler envelope w with
    | (w, Err executionErr) =>
        let r := mkRecord (r_envelope c) failed (r_result c) (u64 (r_version c + 1)) in
        (put_message messageKey r registry, w,
         (toExecution messageKey r false, Some (ErrHandler executionErr)))
    | (w, Ok res) =>
        let r := mkRecord (r_envelope c) executed res (u64 (r_version c + 1)) in
        (set_next (LaneId envelope) (u64 (next + 1)) (put_message messageKey r registry), w,
         (toExecution messageKey r false, None))
    end.

(** The nonce checks, before [run]. *)
Definition in_order (now : Time.t) (envelope : Envelope) (serialized : string)
    (handler : Handler) (registry : Registry) (w : W)
    : Registry * W * (Execution * option (error E)) :=
  let fail e := (registry, w, (zeroExecution, Some e)) in
  let key := nonceKey (LaneId envelope) (SourceNonce envelope) in
  let next := next_of registry (LaneId envelope) in
  if match byNonce registry !! key with
     | Some existing => existing <>s MessageId envelope | None => false end
  then fail ErrNonceConflict
  else if next <? SourceNonce envelope then fail ErrOutOfOrder
  else if SourceNonce envelope <? next then fail ErrNonceConflict
  else run now envelope serialized next handler registry w.

Definition Execute (now : Time.t) (envelope : Envelope) (handler : option Handler)
    (registry : Registry) (w : W) : Registry * W * (Execution * option (error E)) :=
  let fail e := (registry, w, (zeroExecution, Some e)) in
  match ValidateEnvelope envelope with
  | Err e => fail (ErrMessage (ErrEnvelope e))
  | Ok _ =>
      match handler with
      | None => fail ErrNilHandler
      | Some handler =>
          match DeterministicBytes envelope with
          | Err e => fail (ErrMessage e)
          | Ok serialized =>
              let messageKey := MessageId envelope in
              match byMessage registry !! messageKey with
              | Some existing =>
                  if r_envelope existing <>s serialized
                  then fail (ErrMessage (ErrEnvelope ErrDigestMismatch))
                  else if r_state existing =? executed
                  then (registry, w, (toExecution messageKey existing true, None))
                  else if r_state existing =? expired
                  then (registry, w, (toExecution messageKey existing true, Some ErrMessageExpired))
                  else in_order now envelope serialized handler registry w
              | None => in_order now envelope serialized handler registry w
              end
          end
      end
  end.

Definition Get (messageID : string) (registry : Registry) : option Execution :=
  (λ current, toExecution messageID current true) <$> byMessage registry !! messageID.
End Execute.

(** * The transition policy *)

(** [allowed], the map literal: the successors of a state other than [failed]. *)
Definition allowed (from : Z) : list Z :=
  if from =? created then [sourceFinalizing]
  else if from =? sourceFinalizing then [sourceFinal; expired; disputed]
  else if from =? sourceFinal then [sent; disputed]
  else if from =? sent then [relayed; failed; rejected; expired; disputed]
  else if from =? relayed then [verified; failed; rejected; expired; disputed]
  else if from =? verified then [executed; failed; rejected; disputed]
  else if from =? executed then [ackPending; disputed]
  else if from =? ackPending then [acknowledged; disputed]
  else if from =? rejected then [recoveryPending; disputed]
  else if from =? expired then [recoveryPending; disputed]
  else if from =? recoveryPending then [destinationTombstoned; disputed]
  else if from =? destinationTombstoned then [sourceCompensated; disputed]
  else if from =? sourceCompensated then [recovered; disputed]
  else [].

Definition CanTransition (from to : Z) (retryable : bool) : bool :=
  if from =? failed then
    (retryable && (to =? sent)) || (to =? recoveryPending) || (to =? disputed)
  else existsb (λ candidate, candidate =? to) (allowed from).

(** * Traces

    Handlers are arbitrary; [logged] records every successful run of one, so
    that the log counts what really took effect. *)

Definition effect : Type := string * Z * string.
Definition effect_of (e : Envelope) : effect := (LaneId e, SourceNonce e, MessageId e).
Definition effect_lane (x : effect) : string := x.1.1.
Definition effect_nonce (x : effect) : Z := x.1.2.
Definition effect_id (x : effect) : string := x.2.

(** The nonces that took effect on a lane, in order. *)
Definition lane_nonces (lane : string) (log : list effect) : list Z :=
  effect_nonce <$> filter (λ x, effect_lane x = lane) log.

(** The nonces 1, 2, ..., k. *)
Definition upto (k : nat) : list Z := Z.of_nat <$> seq 1 k.

Section Traces.
Context `{Keccak, ProtoMarshal} {W E : Type}.

Definition logged (h : @Handler W E) : @Handler (W * list effect) E := λ e wl,
  match h e wl.1 with
  | (w', Ok r) => ((w', wl.2 ++ [effect_of e]), Ok r)
  | (w', Err x) => ((w', wl.2), Err x)
  end.

Definition state : Type := Registry * (W * list effect).

(** One call of the registry, with any clock, envelope and handler, or a change
    of the world in between. *)
Inductive step : state → state → Prop :=
| step_execute now e h reg wl reg' wl' out :
    envelope_widths e →
    Execute now e (Some (logged h)) reg wl = (reg', wl', out) → step (reg, wl) (reg', wl')
| step_world reg w w' log : step (reg, (w, log)) (reg, (w', log)).

Definition reachable (st : state) : Prop := ∃ w, rtc step (NewRegistry, (w, [])) st.

(** What [Execute] requires before it reaches [run]. *)
Record admissible (reg : Registry) (e : Envelope) (serialized : string) : Prop := {
  ad_bytes : Marshal e = Some serialized;
  ad_nonce : SourceNonce e = next_of reg (LaneId e);
  ad_bound : ∀ id, byNonce reg !! nonceKey (LaneId e) (SourceNonce e) = Some id → id = MessageId e;
  ad_record : ∀ r, byMessage reg !! MessageId e = Some r →
    r_envelope r = serialized ∧ r_state r ≠ executed ∧ r_state r ≠ expired }.

Ltac no_change := intros [= <- <- <-]; left; split_and!; done.

Lemma in_order_cases {W'} now e bytes (h : @Handler W' E) reg w reg' w' out :
  Marshal e = Some bytes →
  (∀ r, byMessage reg !! MessageId e = Some r →
     r_envelope r = bytes ∧ r_state r ≠ executed ∧ r_state r ≠ expired) →
  in_order now e bytes h reg w = (reg', w', out) →
  (reg' = reg ∧ w' = w ∧ out.2 ≠ Some ErrMessageExpired ∧ out.2 ≠ None) ∨
  admissible reg e bytes ∧ run now e bytes (next_of reg (LaneId e)) h reg w = (reg', w', out).
Proof.
  intros Hm Hrec. unfold in_order.
  destruct (match byNonce reg !! _ with Some _ => _ | None => _ end) eqn:Hb;
    [no_change|].
  destruct (_ <? _) eqn:H1; [no_change|].
  destruct (SourceNonce e <? _) eqn:H2; [no_change|]. intros Hr.
  right. bool_facts. split; [|done]. split; [done|lia| |done].
  intros id Hid. rewrite Hid in Hb. by bool_facts.
Qed.

(** A call changes nothing, or passes every check and runs. *)
Lemma Execute_cases {W'} now e (h : @Handler W' E) reg w reg' w' out :
  Execute now e (Some h) reg w = (reg', w', out) →
  (reg' = reg ∧ w' = w ∧
     (out.2 = Some ErrMessageExpired → ∃ r bytes, byMessage reg !! MessageId e = Some r ∧
        r_state r = expired ∧ Marshal e = Some bytes ∧ r_envelope r = bytes)) ∨
  ∃ serialized, admissible reg e serialized ∧
    run now e serialized (next_of reg (LaneId e)) h reg w = (reg', w', out).
Proof.
  unfold Execute. destruct (ValidateEnvelope e) as [[]|] eqn:Hv; [|no_change].
  unfold DeterministicBytes. rewrite Hv.
  destruct (Marshal e) as [bytes|] eqn:Hm; [|no_change].
  destruct (byMessage reg !! MessageId e) as [r|] eqn:Hr.
  - destruct (_ <>s _) eqn:He; [no_change|].
    destruct (r_state r =? executed) eqn:Hx; [no_change|].
    destruct (r_state r =? expired) eqn:Hy; bool_facts.
    { intros [= <- <- <-]. left. split_and!; try done. intros _. by exists r, bytes. }
    intros Hin. apply in_order_cases in Hin as [(-> & -> & Hne & _)|?]; [by left| |done|].
    + right. by exists bytes.
    + intros r'. rewrite Hr. by intros [= <-].
  - intros Hin. apply in_order_cases in Hin as [(-> & -> & Hne & _)|?]; [by left| |done|].
    + right. by exists bytes.
    + intros r'. by rewrite Hr.
Qed.

(** What [run] does to the registry and the world. *)
Record ran {W'} (h : @Handler W' E) (e : Envelope) (serialized : string) (next : Z)
    (reg reg' : Registry) (w w' : W') (r : record) : Prop := {
  ran_message : byMessage reg' = <[MessageId e := r]> (byMessage reg);
  ran_bytes : r_envelope r = default serialized (r_envelope <$> byMessage reg !! MessageId e);
  ran_nonce : byNonce reg' =
    match byMessage reg !! MessageId e with
    | Some _ => byNonce reg
    | None => <[nonceKey (LaneId e) (SourceNonce e) := MessageId e]> (byNonce reg)
    end;
  ran_effect :
    (r_state r = executed ∧ nextNonce reg' = <[LaneId e := u64 (next + 1)]> (nextNonce reg) ∧
       h e w = (w', Ok (r_result r))) ∨
    (r_state r = failed ∧ nextNonce reg' = nextNonce reg ∧ ∃ x, h e w = (w', Err x)) ∨
    (r_state r = expired ∧ nextNonce reg' = nextNonce reg ∧ w' = w) }.

Lemma run_ran {W'} now e serialized next (h : @Handler W' E) reg w reg' w' out :
  run now e serialized next h reg w = (reg', w', out) →
  ∃ r, ran h e serialized next reg reg' w w' r ∧
    (out.2 = Some ErrMessageExpired ↔ r_state r = expired).
Proof.
  unfold run. destruct (_ && _).
  - destruct (byMessage reg !! MessageId e) as [c|] eqn:Hc; intros [= <- <- <-];
      eexists; (split; [split; simpl; rewrite ?Hc; auto 6|]);
      split; intros Hd; first [done|discriminate Hd].
  - destruct (byMessage reg !! MessageId e) as [c|] eqn:Hc; destruct (h e w) as [w1 [res|x]] eqn:Hh;
      intros [= <- <- <-]; eexists;
      (split; [split; simpl; rewrite ?Hc, ?insert_insert_eq; eauto 8|]);
      split; intros Hd; first [done|discriminate Hd].
Qed.
(** ** The invariant *)

(** The nonce a lane expects after [k] effects; the counter wraps to 1 when the
    64-bit nonces are exhausted. *)
Definition next_after (k : nat) : Z := if Z.of_nat k + 1 =? 2 ^ 64 then 1 else Z.of_nat k + 1.

Record registry_inv (reg : Registry) (log : list effect) : Prop := {
  ri_lanes : ∀ lane, let k := length (lane_nonces lane log) in
    lane_nonces lane log = upto k ∧ Z.of_nat k < 2 ^ 64;
  ri_next : ∀ lane, next_of reg lane = next_after (length (lane_nonces lane log));
  ri_log : ∀ x, x ∈ log → byNonce reg !! nonceKey (effect_lane x) (effect_nonce x) = Some (effect_id x) ∧
    ∃ r, byMessage reg !! effect_id x = Some r ∧ r_state r = executed;
  ri_ids : NoDup (effect_id <$> log);
  ri_executed : ∀ id r, byMessage reg !! id = Some r → r_state r = executed →
    id ∈ effect_id <$> log;
  ri_records : ∀ id r, byMessage reg !! id = Some r →
    ∃ e, Marshal e = Some (r_envelope r) ∧ MessageId e = id ∧
      byNonce reg !! nonceKey (LaneId e) (SourceNonce e) = Some id ∧
      (r_state r = expired → next_of reg (LaneId e) = SourceNonce e) }.

Lemma lane_nonces_snoc lane log x :
  lane_nonces lane (log ++ [x]) =
  lane_nonces lane log ++ (if decide (effect_lane x = lane) then [effect_nonce x] else []).
Proof.
  unfold lane_nonces. rewrite filter_app, fmap_app, filter_cons. f_equal.
  by destruct (decide (effect_lane x = lane)).
Qed.

Lemma upto_S k : upto (S k) = upto k ++ [Z.of_nat k + 1].
Proof.
  unfold upto. rewrite seq_S, fmap_app. f_equal. simpl. f_equal. lia.
Qed.

Lemma next_of_insert reg lane next lane' (m : gmap string Z) :
  nextNonce reg = <[lane := next]> m →
  next_of reg lane' = if decide (lane = lane') then (if next =? 0 then 1 else next)
                      else next_of (mkRegistry ∅ ∅ m) lane'.
Proof.
  intros Hn. unfold next_of, lookup_zero. rewrite Hn. simpl.
  destruct (decide (lane = lane')) as [->|Hne].
  - by rewrite lookup_insert_eq.
  - by rewrite lookup_insert_ne.
Qed.

Lemma next_of_ext reg reg' lane : nextNonce reg = nextNonce reg' → next_of reg lane = next_of reg' lane.
Proof. unfold next_of. by intros ->. Qed.

Section Step.
Context (reg : Registry) (log : list effect) (e : Envelope) (bytes : string).
Hypothesis (Hinv : registry_inv reg log) (Had : admissible reg e bytes).

(** A message that may run is not in the log yet. *)
Lemma not_logged x : x ∈ log → effect_id x ≠ MessageId e.
Proof using Hinv Had.
  intros Hx Heq. destruct (ri_log _ _ Hinv x Hx) as [_ (r & Hr & Hs)].
  rewrite Heq in Hr. by destruct (ad_record _ _ _ Had r Hr) as (_ & Hne & _).
Qed.

(** Nor is its nonce: the lane is not exhausted. *)
Lemma not_exhausted :
  Z.of_nat (length (lane_nonces (LaneId e) log)) + 1 < 2 ^ 64 ∧
  SourceNonce e = Z.of_nat (length (lane_nonces (LaneId e) log)) + 1.
Proof using Hinv Had.
  pose proof (ad_nonce _ _ _ Had) as Hn. rewrite (ri_next _ _ Hinv) in Hn. unfold next_after in Hn.
  destruct (ri_lanes _ _ Hinv (LaneId e)) as [Hseq Hlt].
  destruct (Z.eqb_spec (Z.of_nat (length (lane_nonces (LaneId e) log)) + 1) (2 ^ 64)) as [Hw|Hw]; [|lia].
  exfalso. assert (1 ∈ lane_nonces (LaneId e) log) as Hin.
  { rewrite Hseq. unfold upto. apply list_elem_of_fmap. exists 1%nat. split; [done|].
    apply elem_of_seq. lia. }
  unfold lane_nonces in Hin. apply list_elem_of_fmap in Hin as (x & Hx1 & Hx).
  apply list_elem_of_filter in Hx as [Hlane Hx].
  destruct (ri_log _ _ Hinv x Hx) as [Hb _]. rewrite <- Hx1, Hlane, <- Hn in Hb.
  apply (not_logged x Hx). by apply (ad_bound _ _ _ Had).
Qed.

Context (reg' : Registry) (r : record).
Hypothesis Hmsg : byMessage reg' = <[MessageId e := r]> (byMessage reg).
Hypothesis Hbytes : r_envelope r = default bytes (r_envelope <$> byMessage reg !! MessageId e).
Hypothesis Hnonce : byNonce reg' =
  match byMessage reg !! MessageId e with
  | Some _ => byNonce reg
  | None => <[nonceKey (LaneId e) (SourceNonce e) := MessageId e]> (byNonce reg)
  end.

Lemma byNonce_grows key id : byNonce reg !! key = Some id → byNonce reg' !! key = Some id.
Proof using Had Hnonce.
  clear Hinv Hmsg Hbytes. intros Hk. rewrite Hnonce. destruct (byMessage reg !! MessageId e); [done|].
  destruct (decide (nonceKey (LaneId e) (SourceNonce e) = key)) as [<-|Hne].
  - rewrite lookup_insert_eq. f_equal. symmetry. by apply (ad_bound _ _ _ Had).
  - by rewrite lookup_insert_ne.
Qed.

Lemma stored_bytes : r_envelope r = bytes.
Proof using Had Hbytes.
  clear Hinv Hmsg Hnonce. rewrite Hbytes. destruct (byMessage reg !! MessageId e) as [c|] eqn:Hc; [|done].
  simpl. by apply (ad_record _ _ _ Had).
Qed.

Lemma own_nonce_bound : byNonce reg' !! nonceKey (LaneId e) (SourceNonce e) = Some (MessageId e).
Proof using Hinv Had Hnonce.
  clear Hmsg Hbytes. rewrite Hnonce. destruct (byMessage reg !! MessageId e) as [c|] eqn:Hc; [|apply lookup_insert_eq].
  destruct (ri_records _ _ Hinv _ _ Hc) as (e' & Hm & _ & Hb & _).
  destruct (ad_record _ _ _ Had _ Hc) as (Hbs & _ & _). rewrite Hbs in Hm.
  by rewrite <- (Marshal_inj _ _ _ (ad_bytes _ _ _ Had) Hm) in Hb.
Qed.

(** An expired record keeps waiting at its lane's head, whatever runs. *)
Lemma expired_kept id c e' :
  id ≠ MessageId e → byMessage reg !! id = Some c → r_state c = expired →
  byNonce reg !! nonceKey (LaneId e') (SourceNonce e') = Some id →
  next_of reg (LaneId e') = SourceNonce e' → LaneId e' ≠ LaneId e.
Proof using Had.
  clear Hinv Hmsg Hbytes Hnonce. intros Hne Hc Hx Hb Hn Hl. apply Hne. apply (ad_bound _ _ _ Had).
  by rewrite (ad_nonce _ _ _ Had), <- Hl, Hn.
Qed.
End Step.

(** What a call does to the log: nothing, or one effect. *)
Lemma ran_log (h : @Handler W E) e bytes next reg reg' w log w' log' r :
  ran (logged h) e bytes next reg reg' (w, log) (w', log') r →
  (r_state r = executed ∧ nextNonce reg' = <[LaneId e := u64 (next + 1)]> (nextNonce reg) ∧
     log' = log ++ [effect_of e]) ∨
  (r_state r ≠ executed ∧ nextNonce reg' = nextNonce reg ∧ log' = log).
Proof.
  intros [_ _ _ Hf]. unfold logged in Hf. simpl in Hf.
  destruct Hf as [(Hs & Hn & Hh)|[(Hs & Hn & x & Hh)|(Hs & Hn & [= -> ->])]]; [left|right|right];
    rewrite Hs; [| |by split_and!];
    destruct (h e w) as [w1 [res|y]]; simplify_eq; by split_and!.
Qed.

Lemma ran_next h e bytes reg reg' w log w' log' r lane :
  registry_inv reg log → admissible reg e bytes →
  ran (logged h) e bytes (next_of reg (LaneId e)) reg reg' (w, log) (w', log') r →
  next_of reg' lane = next_after (length (lane_nonces lane log')).
Proof.
  intros Hinv Had Hran. destruct (ran_log _ _ _ _ _ _ _ _ _ _ _ Hran) as [(_ & Hn & ->)|(_ & Hn & ->)].
  - destruct (not_exhausted _ _ _ _ Hinv Had) as [Hlt Hk].
    rewrite (next_of_insert _ _ _ _ _ Hn), lane_nonces_snoc. unfold effect_of, effect_lane. simpl.
    destruct (decide (LaneId e = lane)) as [<-|Hne].
    + rewrite length_app, (ri_next _ _ Hinv). simpl. unfold next_after, effect_nonce. simpl.
      set (k := length (lane_nonces (LaneId e) log)) in *.
      destruct (Z.eqb_spec (Z.of_nat k + 1) (2 ^ 64)); [lia|].
      destruct (Z.eqb_spec (Z.of_nat (k + 1) + 1) (2 ^ 64)) as [E1|E1].
      * replace (Z.of_nat k + 1 + 1) with (2 ^ 64) by lia. done.
      * rewrite u64_small by lia. destruct (Z.eqb_spec (Z.of_nat k + 1 + 1) 0); lia.
    + rewrite app_nil_r, <- (ri_next _ _ Hinv). by apply next_of_ext.
  - rewrite <- (ri_next _ _ Hinv). by apply next_of_ext.
Qed.

Lemma ran_lanes h e bytes reg reg' w log w' log' r lane :
  registry_inv reg log → admissible reg e bytes →
  ran (logged h) e bytes (next_of reg (LaneId e)) reg reg' (w, log) (w', log') r →
  let k := length (lane_nonces lane log') in
  lane_nonces lane log' = upto k ∧ Z.of_nat k < 2 ^ 64.
Proof.
  intros Hinv Had Hran. destruct (ran_log _ _ _ _ _ _ _ _ _ _ _ Hran) as [(_ & _ & ->)|(_ & _ & ->)];
    [|apply (ri_lanes _ _ Hinv)].
  destruct (ri_lanes _ _ Hinv lane) as [Hseq Hlt].
  destruct (not_exhausted _ _ _ _ Hinv Had) as [Hlt' Hk].
  rewrite lane_nonces_snoc. unfold effect_of, effect_lane, effect_nonce. simpl.
  destruct (decide (LaneId e = lane)) as [<-|Hne].
  - rewrite length_app. simpl. rewrite Nat.add_1_r, upto_S, <- Hseq, Hk. split; [done|lia].
  - by rewrite app_nil_r.
Qed.

Lemma ran_inv h e bytes reg reg' w log w' log' r :
  registry_inv reg log → admissible reg e bytes →
  ran (logged h) e bytes (next_of reg (LaneId e)) reg reg' (w, log) (w', log') r →
  registry_inv reg' log'.
Proof.
  intros Hinv Had Hran. pose proof (ran_log _ _ _ _ _ _ _ _ _ _ _ Hran) as Hlog.
  destruct Hran as [Hmsg Hbytes Hnonce Hf] eqn:HR.
  assert (∀ x, x ∈ log' → x ∈ log ∨ (x = effect_of e ∧ r_state r = executed)) as Hin.
  { destruct Hlog as [(? & _ & ->)|(_ & _ & ->)]; [|auto]. intros x [?|?%list_elem_of_singleton]%elem_of_app; auto. }
  split.
  - intros lane. by eapply ran_lanes.
  - intros lane. by eapply ran_next.
  - intros x [Hx|[-> Hs]]%Hin.
    + destruct (ri_log _ _ Hinv x Hx) as [Hb Hr]. split; [by eapply byNonce_grows|].
      rewrite Hmsg, lookup_insert_ne; [done|]. symmetry. by eapply not_logged.
    + split; [by eapply own_nonce_bound|]. exists r. by rewrite Hmsg, lookup_insert_eq.
  - destruct Hlog as [(_ & _ & ->)|(_ & _ & ->)]; [|apply (ri_ids _ _ Hinv)].
    rewrite fmap_app. apply NoDup_app. split_and!; [apply (ri_ids _ _ Hinv)| |apply NoDup_singleton].
    intros id (x & -> & Hx)%list_elem_of_fmap ?%list_elem_of_singleton.
    by apply (not_logged _ _ _ _ Hinv Had x Hx).
  - intros id c. rewrite Hmsg. destruct (decide (MessageId e = id)) as [<-|Hne].
    + rewrite lookup_insert_eq. intros [= <-] Hs.
      destruct Hlog as [(_ & _ & ->)|(? & _ & _)]; [|done]. rewrite fmap_app. apply elem_of_app. right.
      by apply list_elem_of_singleton.
    + rewrite lookup_insert_ne by done. intros Hc Hs. pose proof (ri_executed _ _ Hinv _ _ Hc Hs).
      destruct Hlog as [(_ & _ & ->)|(_ & _ & ->)]; [|done]. rewrite fmap_app. apply elem_of_app. by left.
  - intros id c. rewrite Hmsg. destruct (decide (MessageId e = id)) as [<-|Hne].
    + rewrite lookup_insert_eq. intros [= <-]. exists e. rewrite (stored_bytes _ _ _ Had _ Hbytes).
      split_and!; [apply Had|done|by eapply own_nonce_bound|]. intros Hs.
      rewrite (ad_nonce _ _ _ Had). apply next_of_ext.
      destruct Hlog as [(Hs' & _ & _)|(_ & -> & _)]; [by rewrite Hs in Hs'|done].
    + rewrite lookup_insert_ne by done. intros Hc.
      destruct (ri_records _ _ Hinv _ _ Hc) as (e' & Hm & Hid & Hb & Hx). exists e'.
      split_and!; [done..|by eapply byNonce_grows|]. intros Hs. specialize (Hx Hs).
      assert (LaneId e' ≠ LaneId e) by (eapply expired_kept; eauto).
      rewrite <- Hx. destruct Hlog as [(_ & Hn & _)|(_ & Hn & _)]; [|by apply next_of_ext].
      rewrite (next_of_insert _ _ _ _ _ Hn), decide_False by done. by apply next_of_ext.
Qed.

Lemma NewRegistry_inv : registry_inv NewRegistry [].
Proof. split; try done; try set_solver. constructor. Qed.

Lemma step_inv st st' : step st st' → registry_inv st.1 st.2.2 → registry_inv st'.1 st'.2.2.
Proof.
  intros [now e h reg [w log] reg' [w' log'] out Hw Hx|reg w w' log] Hinv; [|done].
  apply Execute_cases in Hx as [(-> & [= -> ->] & _)|(bytes & Had & Hrun)]; [done|].
  apply run_ran in Hrun as (r & Hran & _). by eapply ran_inv.
Qed.

Lemma registry_reachable_inv st : reachable st → registry_inv st.1 st.2.2.
Proof.
  intros [w Hr]. assert (∀ a b, rtc step a b → registry_inv a.1 a.2.2 → registry_inv b.1 b.2.2) as Hall.
  { induction 1 as [|a b c Hs _ IH]; [done|]. intros Ha. by apply IH, (step_inv a). }
  apply (Hall _ _ Hr), NewRegistry_inv.
Qed.

(** ** Replays *)

(** A record of an executed message is never touched again. *)
Lemma executed_kept st st' id r :
  rtc step st st' → byMessage st.1 !! id = Some r → r_state r = executed →
  byMessage st'.1 !! id = Some r.
Proof.
  induction 1 as [|st st1 st' Hs _ IH]; [done|]. intros Hid Hx. apply IH; [|done].
  destruct Hs as [now e h reg [w log] reg' [w' log'] out Hw Hc|]; [|done].
  apply Execute_cases in Hc as [(-> & _ & _)|(bytes & Had & Hrun)]; [done|].
  apply run_ran in Hrun as (c & [Hmsg _ _ _] & _). cbn in *. rewrite Hmsg, lookup_insert_ne; [done|].
  intros <-. by destruct (ad_record _ _ _ Had r Hid) as (_ & Hne & _).
Qed.

(** The answer to a repetition of a call that was answered with [x]. *)
Definition replay_of (x : Execution) : Execution :=
  mkExecution (x_MessageID x) (x_State x) (x_Result x) true (x_Version x).

(** The record a successful call answers from. *)
Definition answered (e : Envelope) (bytes : string) (reg : Registry) (x : Execution) : Prop :=
  ∃ r, byMessage reg !! MessageId e = Some r ∧ r_envelope r = bytes ∧ r_state r = executed ∧
    replay_of x = toExecution (MessageId e) r true.

Lemma run_answered {W'} now e bytes (h : @Handler W' E) reg w reg' w' x :
  admissible reg e bytes →
  run now e bytes (next_of reg (LaneId e)) h reg w = (reg', w', (x, None)) → answered e bytes reg' x.
Proof.
  intros Had. unfold run. destruct (_ && _); [by destruct (byMessage reg !! _)|].
  destruct (byMessage reg !! MessageId e) as [c|] eqn:Hc; destruct (h e w) as [w1 [res|err]];
    intros Hx; (try discriminate Hx); injection Hx as <- <- <-; eexists; cbn;
    (split; [apply lookup_insert_eq|]); split_and!; try done. by destruct (ad_record _ _ _ Had c Hc).
Qed.

Lemma Execute_answered {W'} now e (h : @Handler W' E) reg w reg' w' x :
  Execute now e (Some h) reg w = (reg', w', (x, None)) →
  ∃ bytes, ValidateEnvelope e = Ok tt ∧ Marshal e = Some bytes ∧ answered e bytes reg' x.
Proof.
  unfold Execute, DeterministicBytes. destruct (ValidateEnvelope e) as [[]|] eqn:Hv; [|done].
  destruct (Marshal e) as [bytes|] eqn:Hm; [|done]. intros Hx. exists bytes. split_and!; [done..|].
  assert ((∀ r, byMessage reg !! MessageId e = Some r →
      r_envelope r = bytes ∧ r_state r ≠ executed ∧ r_state r ≠ expired) →
    in_order now e bytes h reg w = (reg', w', (x, None)) → answered e bytes reg' x) as Hrun.
  { intros Hr Hin. apply in_order_cases in Hin as [(_ & _ & _ & Hne)|[Had Hin]]; [done| |done..].
    by eapply run_answered. }
  destruct (byMessage reg !! MessageId e) as [r|] eqn:Hr; [|by apply Hrun].
  destruct (_ <>s _) eqn:He; [done|]. destruct (r_state r =? executed) eqn:Hs; bool_facts.
  { injection Hx as <- <- <-. by exists r. }
  destruct (r_state r =? expired) eqn:Hy; [done|]. bool_facts. apply Hrun; [|done].
  by intros r' [= <-].
Qed.

Lemma answered_again {W'} now e bytes (h : @Handler W' E) reg w x :
  ValidateEnvelope e = Ok tt → Marshal e = Some bytes → answered e bytes reg x →
  Execute now e (Some h) reg w = (reg, w, (replay_of x, None)).
Proof.
  intros Hv Hm (r & Hr & Hb & Hs & ->). unfold Execute, DeterministicBytes.
  by rewrite Hv, Hm, Hr, Hb, String.eqb_refl, Hs.
Qed.

(** C31: destination execution is at most once and in lane order. However calls,
    clocks and handlers interleave (handlers may fail and be retried), the
    effects that took place on a lane are exactly its nonces 1, 2, ..., k in this
    order, no message takes effect twice, and a message took effect exactly when
    the registry reports it executed. Whatever is sent under the id of an executed
    message runs nothing and changes nothing. And once a call has been answered
    without error, the same envelope is answered without error for ever, whatever
    the clock and the handler then are: with the result, state and version of the
    first answer, marked as a replay. *)
Theorem execute_at_most_once (reg : Registry) (w : W) (log : list effect) :
  reachable (reg, (w, log)) →
  (∀ lane, lane_nonces lane log = upto (length (lane_nonces lane log))) ∧
  NoDup (effect_id <$> log) ∧
  (∀ id, id ∈ effect_id <$> log ↔ ∃ x, Get id reg = Some x ∧ x_State x = executed) ∧
  (∀ now e (h : @Handler W E) w', MessageId e ∈ effect_id <$> log →
     ∃ out, Execute now e (Some h) reg w' = (reg, w', out)) ∧
  (∀ now e (h : @Handler W E) reg0 wl0 reg1 wl1 x,
     reachable (reg0, wl0) → envelope_widths e →
     Execute now e (Some (logged h)) reg0 wl0 = (reg1, wl1, (x, None)) →
     rtc step (reg1, wl1) (reg, (w, log)) →
     x_State x = executed ∧ MessageId e ∈ effect_id <$> log ∧
     ∀ now' (h' : @Handler W E) w',
       Execute now' e (Some h') reg w' = (reg, w', (replay_of x, None))).
Proof.
  intros Hr%registry_reachable_inv. simpl in Hr.
  assert (∀ id, id ∈ effect_id <$> log ↔ ∃ r, byMessage reg !! id = Some r ∧ r_state r = executed) as Hex.
  { intros id. split.
    - intros (x & -> & Hx)%list_elem_of_fmap. by destruct (ri_log _ _ Hr x Hx) as [_ ?].
    - intros (r & Hid & Hs). by apply (ri_executed _ _ Hr id r). }
  split_and!; [intros lane; apply (ri_lanes _ _ Hr)|apply (ri_ids _ _ Hr)| | |].
  - intros id. rewrite Hex. unfold Get. split.
    + intros (r & -> & Hs). by eexists.
    + intros (x & Hx & Hs). apply fmap_Some in Hx as (r & Hm & ->). by exists r.
  - intros now e h w' (r & Hm & Hs)%Hex. unfold Execute, DeterministicBytes.
    destruct (ValidateEnvelope e) as [[]|]; [|by eexists]. destruct (Marshal e); [|by eexists].
    rewrite Hm, Hs. destruct (_ <>s _); by eexists.
  - intros now e h reg0 wl0 reg1 wl1 x _ _ (bytes & Hv & Hm & r & Hid & Hb & Hs & Hx)%Execute_answered Hlater.
    pose proof (executed_kept _ _ _ _ Hlater Hid Hs) as Hk. split_and!.
    + rewrite <- Hs. exact (f_equal x_State Hx).
    + apply Hex. by exists r.
    + intros now' h' w'. apply (answered_again _ _ bytes); [done..|]. by exists r.
Qed.

(** A lane whose head has expired. *)
Definition fenced (e : Envelope) (reg : Registry) : Prop :=
  next_of reg (LaneId e) = SourceNonce e ∧
  byNonce reg !! nonceKey (LaneId e) (SourceNonce e) = Some (MessageId e) ∧
  ∃ r, byMessage reg !! MessageId e = Some r ∧ r_state r = expired.

Lemma fenced_step e st st' :
  step st st' → registry_inv st.1 st.2.2 → fenced e st.1 →
  fenced e st'.1 ∧ lane_nonces (LaneId e) st'.2.2 = lane_nonces (LaneId e) st.2.2.
Proof.
  intros [now e0 h reg [w log] reg' [w' log'] out Hw Hx|reg w w' log] Hinv Hf; [|done].
  apply Execute_cases in Hx as [(-> & [= -> ->] & _)|(bytes & Had & Hrun)]; [done|].
  apply run_ran in Hrun as (r & Hran & _). simpl in *. destruct Hf as (Hn & Hb & c & Hc & Hs).
  assert (MessageId e ≠ MessageId e0) as Hne.
  { intros Heq. rewrite Heq in Hc. by destruct (ad_record _ _ _ Had _ Hc) as (_ & _ & ?). }
  assert (LaneId e ≠ LaneId e0) as Hl by (eapply expired_kept; eauto).
  destruct (ran_log _ _ _ _ _ _ _ _ _ _ _ Hran) as [(_ & Hn' & ->)|(_ & Hn' & ->)];
    destruct Hran as [Hmsg Hbytes Hnonce _]; (split; [split_and!|]);
    try (by eapply byNonce_grows); try (exists c; by rewrite Hmsg, lookup_insert_ne); try done.
  - rewrite (next_of_insert _ _ _ _ _ Hn'), decide_False by done. rewrite <- Hn. by apply next_of_ext.
  - rewrite lane_nonces_snoc, decide_False by done. by rewrite app_nil_r.
  - rewrite <- Hn. by apply next_of_ext.
Qed.

(** Expiry is final and fences the lane. A call that answers with the expiry
    error has not run the handler; from then on, whatever is sent, the message
    stays expired and no message takes effect on its lane again. *)
Theorem expiry_final (now : Time.t) (e : Envelope) (h : @Handler W E) reg w log reg1 wl1 x :
  reachable (reg, (w, log)) → envelope_widths e →
  Execute now e (Some (logged h)) reg (w, log) = (reg1, wl1, (x, Some ErrMessageExpired)) →
  wl1 = (w, log) ∧
  ∀ st2, rtc step (reg1, wl1) st2 →
    lane_nonces (LaneId e) st2.2.2 = lane_nonces (LaneId e) log ∧
    ∃ y, Get (MessageId e) st2.1 = Some y ∧ x_State y = expired.
Proof.
  intros Hr Hw Hx. pose proof (registry_reachable_inv _ Hr) as Hinv. simpl in Hinv.
  assert (wl1 = (w, log) ∧ registry_inv reg1 log ∧ fenced e reg1) as (-> & Hinv1 & Hf).
  { apply Execute_cases in Hx as [(-> & -> & Hrec)|(bytes & Had & Hrun)].
    - split_and!; try done. destruct (Hrec eq_refl) as (r & bytes & Hm & Hs & Hb & He).
      destruct (ri_records _ _ Hinv _ _ Hm) as (e' & Hm' & _ & Hb' & Hn). rewrite He in Hm'.
      rewrite <- (Marshal_inj _ _ _ Hb Hm') in *. split_and!; [by apply Hn|done|by exists r].
    - destruct wl1 as [w1 log1]. apply run_ran in Hrun as (r & Hran & Hs). simpl in Hs.
      apply proj1 in Hs. specialize (Hs eq_refl). pose proof (ran_inv _ _ _ _ _ _ _ _ _ _ Hinv Had Hran) as Hi.
      pose proof Hran as [Hmsg Hbytes Hnonce Hf]. rewrite Hs in Hf.
      destruct Hf as [(? & _)|[(? & _)|(_ & Hn & [= -> ->])]]; [discriminate..|]. split_and!; try done.
      split_and!; [rewrite (ad_nonce _ _ _ Had); by apply next_of_ext|exact (own_nonce_bound _ _ _ _ Hinv Had _ Hnonce)|].
      exists r. by rewrite Hmsg, lookup_insert_eq. }
  split; [done|].
  assert (∀ a b, rtc step a b → registry_inv a.1 a.2.2 → fenced e a.1 →
    fenced e b.1 ∧ lane_nonces (LaneId e) b.2.2 = lane_nonces (LaneId e) a.2.2) as Hall.
  { induction 1 as [|a b c Hs _ IH]; [done|]. intros Ha Hfa.
    destruct (fenced_step e a b Hs Ha Hfa) as [Hfb Hlb].
    destruct (IH (step_inv _ _ Hs Ha) Hfb) as [Hfc Hlc]. by rewrite Hlc, Hlb. }
  intros st2 Hst. destruct (Hall _ _ Hst Hinv1 Hf) as [(_ & _ & r & Hm & Hs) Hl].
  split; [done|]. unfold Get. rewrite Hm. by eexists.
Qed.
End Traces.

(** * Concrete messages *)

Module Sample.
#[local] Existing Instance Message.Sample.toy_keccak.

(** Serializes two messages, and fails on every other. *)
#[export] Instance toy_marshal : ProtoMarshal.
Proof.
  refine {| Marshal e := if decide (MessageId e = MessageId (Message.Sample.sealed 1 200))
                         then if decide (e = Message.Sample.sealed 1 200) then Some "1" else None
                         else if decide (e = Message.Sample.sealed 2 300) then Some "2" else None |}%string.
  intros e1 e2 bytes. repeat case_decide; congruence.
Defined.

Definition m1 : Envelope := Message.Sample.sealed 1 200.
Definition m2 : Envelope := Message.Sample.sealed 2 300.
Definition at_ (sec : Z) : Time.t := Time.mk ((sec + unixToInternal) * 1000000000) "".
Definition failing : @Handler Z () := λ _ w, (w + 1, Err ()).
Definition working : @Handler Z () := λ _ w, (w + 1, Ok "done"%string).

Definition call (now : Z) (e : Envelope) (h : @Handler Z ()) (st : @state Z) : @state Z :=
  (Execute (at_ now) e (Some (logged h)) st.1 st.2).1.

(** A failed attempt, its retry, and the next message of the lane. *)
Definition st0 : @state Z := (NewRegistry, (0, [])).
Definition st3 : @state Z := call 150 m2 working (call 150 m1 working (call 150 m1 failing st0)).

Lemma call_step now e h st : envelope_widths e → step (E := ()) st (call now e h st).
Proof.
  intros Hw. unfold call. destruct st as [reg wl].
  destruct (Execute _ _ _ _ _) as [[reg' wl'] out] eqn:Hx.
  exact (step_execute _ _ _ _ _ _ _ _ Hw Hx).
Qed.

Lemma state_eta (st : @state Z) : (st.1, (st.2.1, st.2.2)) = st.
Proof. by destruct st as [? [? ?]]. Qed.
Lemma pair_eta {A B C D} (p : A * B * (C * D)) d : p.2.2 = d → p = (p.1.1, p.1.2, (p.2.1, d)).
Proof. intros <-. by destruct p as [[? ?] [? ?]]. Qed.

Lemma m1_widths : envelope_widths m1.
Proof. split; vm_compute; split; congruence. Qed.
Lemma m2_widths : envelope_widths m2.
Proof. split; vm_compute; split; congruence. Qed.

Lemma execute_at_most_once_witness :
  lane_nonces (LaneId m1) st3.2.2 = [1; 2] ∧ st3.2.1 = 3 ∧
  ∃ x, Get (MessageId m1) st3.1 = Some x ∧ x_State x = executed.
Proof.
  destruct (execute_at_most_once (W := Z) (E := ()) st3.1 st3.2.1 st3.2.2)
    as (Hl & _ & Hx & _).
  { exists 0. change (rtc (step (E := ())) st0 (st3.1, (st3.2.1, st3.2.2))).
    apply rtc_l with (call 150 m1 failing st0); [apply call_step, m1_widths|].
    apply rtc_l with (call 150 m1 working (call 150 m1 failing st0)); [apply call_step, m1_widths|].
    rewrite (state_eta st3).
    apply rtc_once, call_step, m2_widths. }
  split; [rewrite Hl; vm_compute; reflexivity|]. split; [vm_compute; reflexivity|].
  apply Hx. vm_compute. left.
Defined.

Definition st4 : @state Z := call 250 m1 working st0.

Lemma m1_expires :
  (Execute (at_ 250) m1 (Some (logged working)) NewRegistry (0, [])).2.2 = Some ErrMessageExpired.
Proof. vm_compute. reflexivity. Qed.

Lemma expiry_final_witness :
  st4.2.2 = [] ∧ lane_nonces (LaneId m1) (call 250 m2 working st4).2.2 = [].
Proof.
  destruct (expiry_final (W := Z) (E := ()) (at_ 250) m1 working NewRegistry 0 [] st4.1 st4.2
    (Execute (at_ 250) m1 (Some (logged working)) NewRegistry (0, [])).2.1) as [Hw Hlater].
  - exists 0. apply rtc_refl.
  - apply m1_widths.
  - exact (pair_eta _ _ m1_expires).
  - split; [by rewrite Hw|]. apply (Hlater (call 250 m2 working st4)).
    rewrite <- surjective_pairing. apply rtc_once, call_step, m2_widths.
Defined.
End Sample.
