(* ===== verification/MessageStore.v ===== *)
(** Durable message semantics ([cross-chain-coordinator/store/store.go]): the
    in-memory implementation of the coordinator's repository. The clones the code
    makes are identities on values; the optional deprecation time of a route is a
    value, that is, callers do not write through the pointer they pass. *)
From S2P Require Import Prelude GoStd CrossChainTypes MessageRegistry.

(** * Data *)

Inductive error :=
| ErrConflict | ErrImmutableRoute | ErrNotFound
| ErrInvalidRouteVersion | ErrInvalidMessageRecord.

Record RouteVersion := mkRouteVersion {
  rv_RouteID : string;
  rv_Version : Z;
  rv_PolicyHash : string;
  rv_SourceChain : string;
  rv_DestinationChain : string;
  rv_ActivatedAt : Time.t;
  rv_DeprecatedAt : option Time.t }.

Record MessageRecord := mkMessageRecord {
  mr_MessageID : string;
  mr_Envelope : string;
  mr_State : Z;
  mr_Version : Z;
  mr_Evidence : string;
  mr_UpdatedAt : Time.t }.

Record Memory := mkMemory {
  routes : gmap string RouteVersion;
  messages : gmap string MessageRecord }.

(** [[32]byte{}]. *)
Definition zero32 : string := be_bytes 32 0.

Definition NewMemory : Memory := mkMemory ∅ ∅.

(** * Operations *)

Definition routeKey (routeID : string) (version : Z) : string :=
  routeID +:+ nul +:+ Big.to_string version.

Definition sameRoute (left right : RouteVersion) : bool :=
  if (rv_RouteID left <>s rv_RouteID right) || negb (rv_Version left =? rv_Version right) ||
     (rv_PolicyHash left <>s rv_PolicyHash right) ||
     (rv_SourceChain left <>s rv_SourceChain right) ||
     (rv_DestinationChain left <>s rv_DestinationChain right) ||
     negb (Time.Equal (rv_ActivatedAt left) (rv_ActivatedAt right))
  then false
  else match rv_DeprecatedAt left, rv_DeprecatedAt right with
  | Some l, Some r => Time.Equal l r
  | None, None => true
  | _, _ => false
  end.

Definition PutRoute (route : RouteVersion) (memory : Memory) : Memory * result error () :=
  if empty_s (rv_RouteID route) || (rv_Version route =? 0) || empty_s (rv_SourceChain route) ||
     empty_s (rv_DestinationChain route) || (rv_SourceChain route =s rv_DestinationChain route) ||
     (rv_PolicyHash route =s zero32) || Time.IsZero (rv_ActivatedAt route) ||
     match rv_DeprecatedAt route with
     | Some d => negb (Time.After d (rv_ActivatedAt route)) | None => false end
  then (memory, Err ErrInvalidRouteVersion)
  else
    let key := routeKey (rv_RouteID route) (rv_Version route) in
    match routes memory !! key with
    | Some existing =>
        (memory, if sameRoute existing route then Ok () else Err ErrImmutableRoute)
    | None => (mkMemory (<[key := route]> (routes memory)) (messages memory), Ok ())
    end.

Definition Route (routeID : string) (version : Z) (memory : Memory) : result error RouteVersion :=
  match routes memory !! routeKey routeID version with
  | Some route => Ok route
  | None => Err ErrNotFound
  end.

Definition CreateMessage (record : MessageRecord) (memory : Memory)
    : Memory * result error MessageRecord :=
  if (String.length (mr_Envelope record) =? 0)%nat || negb (mr_Version record =? 1) ||
     Time.IsZero (mr_UpdatedAt record)
  then (memory, Err ErrInvalidMessageRecord)
  else match messages memory !! mr_MessageID record with
  | Some existing =>
      if mr_Envelope existing <>s mr_Envelope record then (memory, Err ErrConflict)
      else (memory, Ok existing)
  | None =>
      (mkMemory (routes memory) (<[mr_MessageID record := record]> (messages memory)), Ok record)
  end.

Definition CompareAndSet (messageID : string) (expectedVersion next : Z) (retryable : bool)
    (evidence : string) (updatedAt : Time.t) (memory : Memory)
    : Memory * result error MessageRecord :=
  match messages memory !! messageID with
  | None => (memory, Err ErrNotFound)
  | Some current =>
      if negb (mr_Version current =? expectedVersion) then (memory, Err ErrConflict)
      else if (evidence =s zero32) || Time.IsZero updatedAt ||
              Time.Before updatedAt (mr_UpdatedAt current) ||
              negb (CanTransition (mr_State current) next retryable)
      then (memory, Err ErrConflict)
      else
        let current := mkMessageRecord (mr_MessageID current) (mr_Envelope current) next
          (u64 (mr_Version current + 1)) evidence updatedAt in
        (mkMemory (routes memory) (<[messageID := current]> (messages memory)), Ok current)
  end.

Definition Message_lookup (messageID : string) (memory : Memory) : result error MessageRecord :=
  match messages memory !! messageID with
  | Some current => Ok current
  | None => Err ErrNotFound
  end.

(** * Sequences of calls *)

Inductive step (m : Memory) : Memory → Prop :=
| step_route route : step m (PutRoute route m).1
| step_create record : step m (CreateMessage record m).1
| step_cas id version next retryable evidence at_ :
    step m (CompareAndSet id version next retryable evidence at_ m).1.

(** One permitted change of a message's state. *)
Definition moves (from to : Z) : Prop := ∃ retryable, CanTransition from to retryable = true.

(** How a stored message may have evolved: [n] permitted moves, each adding one to
    the version, over the same id and envelope, with time going forward. *)
Record evolved (n : nat) (r r' : MessageRecord) : Prop := {
  ev_id : mr_MessageID r' = mr_MessageID r;
  ev_envelope : mr_Envelope r' = mr_Envelope r;
  ev_path : nsteps moves n (mr_State r) (mr_State r');
  ev_version : mr_Version r' = if (n =? 0)%nat then mr_Version r else u64 (mr_Version r + Z.of_nat n);
  ev_time : Time.ns (mr_UpdatedAt r) <= Time.ns (mr_UpdatedAt r');
  ev_same : n = 0%nat → r' = r }.

Lemma evolved_refl r : evolved 0 r r.
Proof. split; try done. constructor. Qed.

Lemma evolved_trans n k a b c : evolved n a b → evolved k b c → evolved (n + k) a c.
Proof.
  intros [I1 E1 P1 V1 T1 S1] [I2 E2 P2 V2 T2 S2]. split; try congruence; try lia.
  - by eapply nsteps_trans.
  - rewrite V2, V1. destruct n as [|n], k as [|k]; try done; simpl.
    + rewrite Nat.add_0_r. done.
    + unfold u64. rewrite Zplus_mod_idemp_l. f_equal. lia.
  - intros Hn. rewrite S2, S1 by lia. done.
Qed.

(** What one call does to a stored message. *)
Lemma step_evolved m m' id r :
  step m m' → messages m !! id = Some r → ∃ n r', messages m' !! id = Some r' ∧ evolved n r r'.
Proof.
  intros Hs Hr. assert (messages m' !! id = Some r → ∃ n r', messages m' !! id = Some r' ∧ evolved n r r')
    as Hkeep by (intros; exists 0%nat, r; split; [done|apply evolved_refl]).
  destruct Hs as [route|record|id' version next retryable evidence at_].
  - apply Hkeep. unfold PutRoute. destruct (_ || _); [done|]. by destruct (routes m !! _).
  - apply Hkeep. unfold CreateMessage. destruct (_ || _); [done|].
    destruct (messages m !! mr_MessageID record) eqn:Hx; [by destruct (_ <>s _)|]. simpl.
    rewrite lookup_insert_ne; [done|]. congruence.
  - unfold CompareAndSet in *. destruct (messages m !! id') as [c|] eqn:Hc; [|by apply Hkeep].
    destruct (negb (_ =? _)); [by apply Hkeep|]. destruct (_ || _ || _ || _) eqn:Hg; [by apply Hkeep|].
    simpl in *. destruct (decide (id' = id)) as [->|Hne]; [|rewrite lookup_insert_ne in * by done; by apply Hkeep].
    rewrite lookup_insert_eq. simplify_eq. bool_facts. unfold Time.Before in *. bool_facts.
    exists 1%nat. eexists. split; [reflexivity|]. split; simpl; try done; try lia.
    apply nsteps_once. by exists retryable.
Qed.

Lemma steps_evolved m m' id r :
  rtc step m m' → messages m !! id = Some r → ∃ n r', messages m' !! id = Some r' ∧ evolved n r r'.
Proof.
  intros Hs. revert r. induction Hs as [m|m1 m2 m3 H1 _ IH]; intros r Hr.
  - exists 0%nat, r. split; [done|apply evolved_refl].
  - destruct (step_evolved _ _ _ _ H1 Hr) as (n & r2 & Hr2 & E1).
    destruct (IH _ Hr2) as (k & r3 & Hr3 & E2). exists (n + k)%nat, r3. split; [done|].
    by eapply evolved_trans.
Qed.

Lemma steps_routes m m' key rt : rtc step m m' → routes m !! key = Some rt → routes m' !! key = Some rt.
Proof.
  induction 1 as [|m1 m2 m3 H1 _ IH]; [done|]. intros Hr. apply IH. destruct H1.
  - unfold PutRoute. destruct (_ || _); [done|]. destruct (routes m1 !! routeKey _ _) eqn:Hx; simpl; [done|].
    rewrite lookup_insert_ne; [done|]. congruence.
  - unfold CreateMessage. destruct (_ || _); [done|]. destruct (messages m1 !! _); [by destruct (_ <>s _)|done].
  - unfold CompareAndSet. destruct (messages m1 !! _); [|done]. destruct (negb _); [done|].
    by destruct (_ || _ || _ || _).
Qed.

(** A stored message only ever evolves by permitted, counted steps. After any
    calls, it is still stored with its id and envelope; its state was reached by
    [n] moves of the transition policy, its version grew by exactly [n] and its
    time went forward; so a writer that read it before the last change (fewer than
    2^64 moves ago) is refused with the conflict error and changes nothing.
    Storing the message again returns the current record, and stored routes never
    change. *)
Theorem message_lifecycle (m m' : Memory) (id : string) (r : MessageRecord) :
  rtc step m m' → messages m !! id = Some r → 0 <= mr_Version r < 2 ^ 64 →
  (∃ n r', Message_lookup id m' = Ok r' ∧ evolved n r r' ∧
     ((0 < n)%nat → Z.of_nat n < 2 ^ 64 →
        ∀ next retryable evidence at_,
          CompareAndSet id (mr_Version r) next retryable evidence at_ m' = (m', Err ErrConflict)) ∧
     (∀ again, mr_MessageID again = id → mr_Envelope again = mr_Envelope r →
        mr_Envelope again ≠ "" → mr_Version again = 1 → Time.IsZero (mr_UpdatedAt again) = false →
        CreateMessage again m' = (m', Ok r'))) ∧
  (∀ routeID version rt, Route routeID version m = Ok rt → Route routeID version m' = Ok rt).
Proof.
  intros Hs Hr Hv. split.
  - destruct (steps_evolved _ _ _ _ Hs Hr) as (n & r' & Hr' & Hev). exists n, r'.
    unfold Message_lookup. rewrite Hr'. split_and!; try done.
    + intros Hn Hlt next retryable evidence at_. unfold CompareAndSet. rewrite Hr'.
      rewrite (ev_version _ _ _ Hev). destruct (Nat.eqb_spec n 0); [lia|].
      destruct (Z.eqb_spec (u64 (mr_Version r + Z.of_nat n)) (mr_Version r)) as [Hz|]; [|done].
      exfalso. unfold u64 in Hz. destruct (Z.lt_ge_cases (mr_Version r + Z.of_nat n) (2 ^ 64)).
      * rewrite Z.mod_small in Hz by lia. lia.
      * rewrite <- (Z_mod_plus_full _ (-1)), Z.mod_small in Hz by lia. lia.
    + intros again <- He Hne Hv1 Ht. unfold CreateMessage. rewrite Hv1, Ht, Hr', (ev_envelope _ _ _ Hev), He.
      rewrite String.eqb_refl. simpl. rewrite <- He. by destruct (mr_Envelope again).
  - intros routeID version rt. unfold Route. destruct (routes m !! _) as [x|] eqn:Hx; [|done].
    intros [= ->]. by rewrite (steps_routes _ _ _ _ Hs Hx).
Qed.

(** * Execution and compensation exclude each other *)

(** A set of states that no move leaves. *)
Definition closed (S : list Z) : Prop := ∀ from to, from ∈ S → moves from to → to ∈ S.

(** [closed] is decidable: it is enough to look at the successors. *)
Definition successors (from : Z) : list Z :=
  if from =? failed then [sent; recoveryPending; disputed] else allowed from.

Lemma moves_successors from to : moves from to → to ∈ successors from.
Proof.
  intros [retryable Hm]. unfold CanTransition in Hm. unfold successors.
  destruct (from =? failed).
  - apply orb_true_iff in Hm as [Hm|Hm]; [apply orb_true_iff in Hm as [Hm|Hm]|]; bool_facts; subst;
      set_solver.
  - apply existsb_exists in Hm as (c & Hin & Heq). bool_facts. subst. by apply list_elem_of_In.
Qed.

Lemma closed_check S : forallb (λ from, forallb (λ to, bool_decide (to ∈ S)) (successors from)) S = true →
  closed S.
Proof.
  intros Hc from to Hin Hm%moves_successors. rewrite forallb_forall in Hc.
  specialize (Hc from (proj1 (list_elem_of_In _ _) Hin)). rewrite forallb_forall in Hc.
  specialize (Hc to (proj1 (list_elem_of_In _ _) Hm)). by bool_facts.
Qed.

Lemma closed_path S n from to : closed S → nsteps moves n from to → from ∈ S → to ∈ S.
Proof. intros Hc. induction 1; [done|]. eauto. Qed.

Definition after_execution : list Z := [executed; ackPending; acknowledged; disputed].
Definition after_tombstone : list Z := [destinationTombstoned; sourceCompensated; recovered; disputed].
Definition final_states : list Z := [acknowledged; recovered; disputed].

(** A message never both executes and is compensated. Once a stored message
    is executed, its later states are executed, acknowledgement pending,
    acknowledged or disputed, and never those of the recovery path; once it is
    tombstoned, its later states are tombstoned, compensated, recovered or
    disputed, and never executed. Acknowledged, recovered and disputed messages
    are final: no call changes their record at all. *)
Theorem execution_excludes_compensation (m m' : Memory) (id : string) (r r' : MessageRecord) :
  rtc step m m' → messages m !! id = Some r → Message_lookup id m' = Ok r' →
  (mr_State r = executed → mr_State r' ∈ after_execution) ∧
  (mr_State r = destinationTombstoned → mr_State r' ∈ after_tombstone) ∧
  (mr_State r ∈ final_states → r' = r).
Proof.
  intros Hs Hr Hr'. destruct (steps_evolved _ _ _ _ Hs Hr) as (n & r2 & Hr2 & Hev).
  unfold Message_lookup in Hr'. rewrite Hr2 in Hr'. injection Hr' as <-.
  pose proof (ev_path _ _ _ Hev) as Hp. split_and!.
  - intros Hx. apply (closed_path _ _ _ _ (closed_check after_execution eq_refl) Hp). rewrite Hx. set_solver.
  - intros Hx. apply (closed_path _ _ _ _ (closed_check after_tombstone eq_refl) Hp). rewrite Hx. set_solver.
  - intros Hx. apply (ev_same _ _ _ Hev). inversion Hp as [|n' ? y ? Hm _]; [done|]. exfalso.
    apply moves_successors in Hm. revert Hm. unfold final_states in Hx.
    rewrite !elem_of_cons in Hx. destruct Hx as [->|[->|[->|Hx]]]; [vm_compute; set_solver..|set_solver].
Qed.

(** * A concrete message *)

Module Sample.
Definition t (n : Z) : Time.t := Time.mk n "".
Definition m0 : Memory := (CreateMessage (mkMessageRecord "id" "env" created 1 zero32 (t 5)) NewMemory).1.
Definition m1 : Memory := (CompareAndSet "id" 1 sourceFinalizing false "ev" (t 6) m0).1.
Definition r0 : MessageRecord := mkMessageRecord "id" "env" created 1 zero32 (t 5).

(** Storing the message again after a transition returns the advanced record. *)
Lemma message_lifecycle_witness :
  CreateMessage r0 m1 = (m1, Ok (mkMessageRecord "id" "env" sourceFinalizing 2 "ev" (t 6))).
Proof.
  destruct (message_lifecycle m0 m1 "id" r0) as [(n & r' & Hl & _ & _ & Hagain) _].
  - apply rtc_once. apply step_cas.
  - reflexivity.
  - split; [discriminate|reflexivity].
  - injection Hl as <-. apply (Hagain r0); [reflexivity|reflexivity|discriminate|reflexivity|reflexivity].
Defined.

Definition m2 : Memory := mkMemory ∅ {["id" := mkMessageRecord "id" "env" executed 7 "ev" (t 9)]}.

Lemma execution_excludes_compensation_witness :
  mr_State (mkMessageRecord "id" "env" ackPending 8 "ack" (t 10)) ∈ after_execution.
Proof.
  apply (execution_excludes_compensation m2 (CompareAndSet "id" 7 ackPending false "ack" (t 10) m2).1 "id"
    (mkMessageRecord "id" "env" executed 7 "ev" (t 9)) (mkMessageRecord "id" "env" ackPending 8 "ack" (t 10))).
  - apply rtc_once. apply step_cas.
  - reflexivity.
  - reflexivity.
  - reflexivity.
Defined.
End Sample.
