(* ===== verification/CrossChainAccounting.v ===== *)
(** Cross-chain subledger
    ([foundation-ledger/internal/crosschainaccounting]): finalized, independently
    authorized bridge effects become balanced, idempotent ledger batches. *)
From Stdlib Require Import Ascii.
From S2P Require Import Prelude GoStd Ledger.

(** * Data *)

Definition AccountCanonicalAssetsLocked : string := "1410".
Definition AccountCrossChainReceivable : string := "1420".
Definition AccountSatelliteAssetReceivable : string := "1430".
Definition AccountBridgeBackingLiability : string := "2230".
Definition AccountPrincipalReceivable : string := "1310".
Definition AccountLenderPrincipalClaims : string := "2310".
Definition AccountCrossChainMessagingExpense : string := "5120".
Definition AccountUFTBridgeEscrowControl : string := "7150".
Definition AccountWrappedUFTOutstandingControl : string := "7160".
Definition AccountPendingCrossChainSettlement : string := "9150".
Definition AccountReconciliationDifference : string := "9180".

Definition CanonicalLock : string := "CANONICAL_LOCK".
Definition WrappedMint : string := "WRAPPED_MINT".
Definition WrappedBurn : string := "WRAPPED_BURN".
Definition CanonicalRelease : string := "CANONICAL_RELEASE".
Definition LoanActivation : string := "LOAN_ACTIVATION".
Definition RemoteRepayment : string := "REMOTE_REPAYMENT".
Definition DirectHomeRepayment : string := "DIRECT_HOME_REPAYMENT".
Definition SatelliteCustody : string := "SATELLITE_CUSTODY".
Definition CollateralRelease : string := "COLLATERAL_RELEASE".
Definition LoanCancellationComplete : string := "LOAN_CANCELLATION_COMPLETE".
Definition CanonicalLockCompensation : string := "CANONICAL_LOCK_COMPENSATION".
Definition WrappedBurnCompensation : string := "WRAPPED_BURN_COMPENSATION".
Definition PermanentCanonicalBurn : string := "PERMANENT_CANONICAL_BURN".
Definition ReconciliationDiff : string := "RECONCILIATION_DIFFERENCE".
Definition MessagingExpense : string := "MESSAGING_EXPENSE".

Definition CrossChainAuthority : string := "CROSS_CHAIN".
Definition DirectHomeAuthority : string := "DIRECT_HOME".
Definition InternalAuthority : string := "INTERNAL_CONTROL".

Definition AuthorityStageSourceFinal : string := "SOURCE_FINAL".
Definition AuthorityStageDestinationExecuted : string := "DESTINATION_EXECUTED".
Definition AuthorityStageSourceCompensated : string := "SOURCE_COMPENSATED".
Definition AuthorityStageDirectHomeFinal : string := "DIRECT_HOME_FINAL".
Definition AuthorityStageInternalFinal : string := "INTERNAL_FINAL".

Record CancellationCompletion := mkCancellation {
  c_CancellationID : string;
  c_LoanID : string;
  c_FundingLockID : string;
  c_DisbursementMessageID : string;
  c_DisbursementTombstoneHash : string;
  c_EscrowBurnResultHash : string;
  c_HomeLoanAccount : string;
  c_Lender : string;
  c_WrappedToken : string;
  c_Amount : string;
  c_PolicyHash : string }.

#[export] Instance CancellationCompletion_eq_dec : EqDecision CancellationCompletion.
Proof. solve_decision. Defined.

Record FinalizedAuthority := mkAuthority {
  a_CanonicalEventID : string;
  a_Kind : string;
  a_Stage : string;
  a_ActionOrdinal : Z;
  a_RouteID : string;
  a_RoutePurpose : string;
  a_ActionFamilyHash : string;
  a_SourceComponent : string;
  a_TypedAction : string;
  a_LenderID : string;
  a_CanonicalAssetID : string;
  a_WrappedAssetID : string;
  a_Cancellation : CancellationCompletion;
  a_EvidenceHash : string;
  a_CompensatedMessageID : string;
  a_CompensatedActionOrdinal : Z;
  a_Finalized : bool }.

Record Intent := mkIntent {
  i_ID : string;
  i_Effect : string;
  i_MessageID : string;
  i_HomeEventID : string;
  i_LoanID : string;
  i_RouteID : string;
  i_AssetID : string;
  i_WrappedAssetID : string;
  i_WrappedTokenAddress : string;
  i_CompensatedMessageID : string;
  i_Units : string;
  i_PartyID : string;
  i_LenderAddress : string;
  i_RoutePurpose : string;
  i_ActionFamilyHash : string;
  i_SourceComponent : string;
  i_TypedAction : string;
  i_Cancellation : CancellationCompletion;
  i_EvidenceHash : string;
  i_CorrelationID : string;
  i_EffectiveAt : Time.t }.

Inductive error :=
| ErrConstruction
| ErrInvalidIntent
| ErrWrappedAssetRequired
| ErrUnitsNotCanonical
| ErrExpenseExceedsCap
| ErrNotAuthorized
| ErrNoMatchingEvidence
| ErrActionDoesNotAuthorize
| ErrCompensationUnbound
| ErrCancellationUnbound
| ErrDirectHomeUnbound
| ErrInternalControl
| ErrUnknownAuthorityKind
| ErrUnsupportedEffect
| ErrLedger (inner : Ledger.error).

(** [Authority]: the interface that binds an effect to finalized evidence, [None]
    for an error. It is authenticated outside this package, so each call may be
    answered by any function. *)
Definition Authority : Type := Intent → option FinalizedAuthority.

Record Poster := mkPoster { book : Ledger; maxMessagingExpense : Z }.

Definition NewPoster (book : option Ledger) (authority : option Authority)
    (maxMessagingExpenseUnits : string) : result error Poster :=
  match book, authority with
  | Some book, Some _ =>
      match Big.set_string maxMessagingExpenseUnits with
      | Some capUnits => if capUnits <=? 0 then Err ErrConstruction else Ok (mkPoster book capUnits)
      | None => Err ErrConstruction
      end
  | _, _ => Err ErrConstruction
  end.

(** * Authority *)

Definition authorityAllowsEffect (stage : string) (action : Z) (effect : string) : bool :=
  if effect =s CanonicalLock then (stage =s AuthorityStageSourceFinal) && (action =? 1)
  else if effect =s WrappedMint then (stage =s AuthorityStageSourceFinal) && (action =? 2)
  else if effect =s WrappedBurn then
    (stage =s AuthorityStageSourceFinal) && ((action =? 3) || (action =? 8) || (action =? 15))
  else if effect =s CanonicalRelease then
    (stage =s AuthorityStageDestinationExecuted) && ((action =? 3) || (action =? 8))
  else if effect =s SatelliteCustody then (stage =s AuthorityStageSourceFinal) && (action =? 5)
  else if effect =s LoanActivation then (stage =s AuthorityStageDestinationExecuted) && (action =? 7)
  else if effect =s RemoteRepayment then (stage =s AuthorityStageDestinationExecuted) && (action =? 8)
  else if effect =s CollateralRelease then (stage =s AuthorityStageSourceFinal) && (action =? 10)
  else if effect =s LoanCancellationComplete then
    (stage =s AuthorityStageDestinationExecuted) && (action =? 14)
  else if (effect =s CanonicalLockCompensation) || (effect =s WrappedBurnCompensation) then
    (stage =s AuthorityStageSourceCompensated) && (action =? 14)
  else if effect =s PermanentCanonicalBurn then
    (stage =s AuthorityStageDestinationExecuted) && (action =? 15)
  else false.

Definition isCompensation (effect : string) : bool :=
  (effect =s CanonicalLockCompensation) || (effect =s WrappedBurnCompensation).

Definition compensatedActionAllowsEffect (action : Z) (effect : string) : bool :=
  if effect =s CanonicalLockCompensation then action =? 1
  else if effect =s WrappedBurnCompensation then (action =? 3) || (action =? 8) || (action =? 15)
  else false.

Definition validCancellationAuthority (intent : Intent) (authority : FinalizedAuthority) : bool :=
  let completion := i_Cancellation intent in
  (a_RouteID authority =s i_RouteID intent) && (a_RoutePurpose authority =s "REPORT") &&
  (i_RoutePurpose intent =s a_RoutePurpose authority) &&
  (a_ActionFamilyHash authority <>s "") &&
  (i_ActionFamilyHash intent =s a_ActionFamilyHash authority) &&
  (a_SourceComponent authority <>s "") &&
  (i_SourceComponent intent =s a_SourceComponent authority) &&
  (a_TypedAction authority =s "SATELLITE_FUNDING_CANCELLED") &&
  (i_TypedAction intent =s a_TypedAction authority) &&
  (a_LenderID authority =s i_PartyID intent) &&
  (a_CanonicalAssetID authority =s i_AssetID intent) &&
  (a_WrappedAssetID authority =s i_WrappedAssetID intent) &&
  bool_decide (a_Cancellation authority = completion) &&
  (c_CancellationID completion <>s "") && (c_LoanID completion =s i_LoanID intent) &&
  (c_FundingLockID completion <>s "") && (c_DisbursementMessageID completion <>s "") &&
  (c_DisbursementTombstoneHash completion <>s "") &&
  (c_EscrowBurnResultHash completion <>s "") && (c_HomeLoanAccount completion <>s "") &&
  (c_Lender completion =s i_LenderAddress intent) &&
  (c_WrappedToken completion =s i_WrappedTokenAddress intent) &&
  (c_Amount completion =s i_Units intent) && (c_PolicyHash completion <>s "").

Definition validateAuthority (intent : Intent) (authority : FinalizedAuthority) : result error () :=
  if negb (a_Finalized authority) || empty_s (a_CanonicalEventID authority) ||
     empty_s (a_EvidenceHash authority) || (a_EvidenceHash authority <>s i_EvidenceHash intent)
  then Err ErrNoMatchingEvidence
  else if a_Kind authority =s CrossChainAuthority then
    if empty_s (i_MessageID intent) || (i_HomeEventID intent <>s "") ||
       (a_CanonicalEventID authority <>s i_MessageID intent) ||
       negb (authorityAllowsEffect (a_Stage authority) (a_ActionOrdinal authority) (i_Effect intent))
    then Err ErrActionDoesNotAuthorize
    else if isCompensation (i_Effect intent) &&
            (empty_s (i_CompensatedMessageID intent) ||
             (a_CompensatedMessageID authority <>s i_CompensatedMessageID intent) ||
             (i_CompensatedMessageID intent =s i_MessageID intent) ||
             negb (compensatedActionAllowsEffect (a_CompensatedActionOrdinal authority)
                     (i_Effect intent)))
    then Err ErrCompensationUnbound
    else if (i_Effect intent =s LoanCancellationComplete) &&
            negb (validCancellationAuthority intent authority)
    then Err ErrCancellationUnbound
    else Ok ()
  else if a_Kind authority =s DirectHomeAuthority then
    if (i_Effect intent <>s DirectHomeRepayment) || (i_MessageID intent <>s "") ||
       empty_s (i_HomeEventID intent) || (a_CanonicalEventID authority <>s i_HomeEventID intent) ||
       negb (a_ActionOrdinal authority =? 0) ||
       (a_Stage authority <>s AuthorityStageDirectHomeFinal)
    then Err ErrDirectHomeUnbound
    else Ok ()
  else if a_Kind authority =s InternalAuthority then
    if (i_MessageID intent <>s "") || empty_s (i_HomeEventID intent) ||
       (a_CanonicalEventID authority <>s i_HomeEventID intent) ||
       (a_Stage authority <>s AuthorityStageInternalFinal) ||
       ((i_Effect intent <>s ReconciliationDiff) && (i_Effect intent <>s MessagingExpense))
    then Err ErrInternalControl
    else Ok ()
  else Err ErrUnknownAuthorityKind.

(** * Journals *)

Definition authorityEvidence (intent : Intent) : string := i_EvidenceHash intent.

Definition journal_id (canonicalEventID effect suffix : string) : string :=
  "crosschain:" +:+ canonicalEventID +:+ ":" +:+ effect +:+ ":" +:+ suffix.

Definition journal (intent : Intent) (canonicalEventID suffix assetID debit credit : string)
    : Journal :=
  let id := journal_id canonicalEventID (i_Effect intent) suffix in
  mkJournal id "unified-protocol" "cross-chain-subledger" "cross-chain-coordinator"
    (i_Effect intent) canonicalEventID (i_LoanID intent) id (i_CorrelationID intent)
    (i_EffectiveAt intent)
    [mkEntry debit Debit assetID (i_Units intent) (i_PartyID intent) (i_LoanID intent) "";
     mkEntry credit Credit assetID (i_Units intent) (i_PartyID intent) (i_LoanID intent) ""]
    (authorityEvidence intent) "" "".

Definition journals (intent : Intent) (canonicalEventID : string) : result error (list Journal) :=
  let effect := i_Effect intent in
  let journal := journal intent canonicalEventID in
  if effect =s CanonicalLock then
    Ok [journal "bridge-lock-financial" (i_AssetID intent)
          AccountCanonicalAssetsLocked AccountBridgeBackingLiability;
        journal "bridge-lock-control" (i_AssetID intent)
          AccountUFTBridgeEscrowControl AccountPendingCrossChainSettlement]
  else if effect =s WrappedMint then
    Ok [journal "wrapped-mint-control" (i_WrappedAssetID intent)
          AccountPendingCrossChainSettlement AccountWrappedUFTOutstandingControl]
  else if effect =s WrappedBurn then
    Ok [journal "wrapped-burn-control" (i_WrappedAssetID intent)
          AccountWrappedUFTOutstandingControl AccountPendingCrossChainSettlement]
  else if (effect =s CanonicalRelease) || (effect =s PermanentCanonicalBurn) ||
          (effect =s CanonicalLockCompensation) then
    Ok [journal "bridge-disposition-financial" (i_AssetID intent)
          AccountBridgeBackingLiability AccountCanonicalAssetsLocked;
        journal "bridge-disposition-control" (i_AssetID intent)
          AccountPendingCrossChainSettlement AccountUFTBridgeEscrowControl]
  else if effect =s WrappedBurnCompensation then
    Ok [journal "wrapped-burn-compensation-control" (i_WrappedAssetID intent)
          AccountPendingCrossChainSettlement AccountWrappedUFTOutstandingControl]
  else if effect =s LoanActivation then
    Ok [journal "loan-activation" (i_AssetID intent)
          AccountPrincipalReceivable AccountLenderPrincipalClaims]
  else if (effect =s RemoteRepayment) || (effect =s DirectHomeRepayment) then
    Ok [journal "repayment-debt" (i_AssetID intent)
          AccountLenderPrincipalClaims AccountPrincipalReceivable]
  else if effect =s SatelliteCustody then
    Ok [journal "satellite-custody" (i_AssetID intent)
          AccountSatelliteAssetReceivable AccountCrossChainReceivable]
  else if effect =s CollateralRelease then
    Ok [journal "satellite-custody-release" (i_AssetID intent)
          AccountCrossChainReceivable AccountSatelliteAssetReceivable]
  else if effect =s LoanCancellationComplete then
    Ok [journal "loan-cancellation-burn-control" (i_WrappedAssetID intent)
          AccountWrappedUFTOutstandingControl AccountPendingCrossChainSettlement;
        journal "loan-cancellation-refund-financial" (i_AssetID intent)
          AccountBridgeBackingLiability AccountCanonicalAssetsLocked;
        journal "loan-cancellation-refund-control" (i_AssetID intent)
          AccountPendingCrossChainSettlement AccountUFTBridgeEscrowControl]
  else if effect =s ReconciliationDiff then
    Ok [journal "reconciliation-difference" (i_AssetID intent)
          AccountReconciliationDifference AccountPendingCrossChainSettlement]
  else if effect =s MessagingExpense then
    Ok [journal "messaging-expense" (i_AssetID intent)
          AccountCrossChainMessagingExpense AccountPendingCrossChainSettlement]
  else Err ErrUnsupportedEffect.

(** * Posting *)

Section Post.
Context `{JournalDigest}.

(** The checks and the journals of [Post], up to the call of [PostBatch]. *)
Definition prepare (authority : Authority) (intent : Intent) (poster : Poster)
    : result error (list Journal) :=
  if empty_s (i_RouteID intent) || empty_s (i_AssetID intent) || empty_s (i_Units intent) ||
     empty_s (i_EvidenceHash intent) || empty_s (i_CorrelationID intent) ||
     Time.IsZero (i_EffectiveAt intent)
  then Err ErrInvalidIntent
  else if ((i_Effect intent =s WrappedMint) || (i_Effect intent =s WrappedBurn) ||
           (i_Effect intent =s WrappedBurnCompensation) ||
           (i_Effect intent =s LoanCancellationComplete)) && empty_s (i_WrappedAssetID intent)
  then Err ErrWrappedAssetRequired
  else match Big.canonical_positive (i_Units intent) with
  | None => Err ErrUnitsNotCanonical
  | Some units =>
      if (i_Effect intent =s MessagingExpense) && (maxMessagingExpense poster <? units)
      then Err ErrExpenseExceedsCap
      else match authority intent with
      | None => Err ErrNotAuthorized
      | Some a =>
          let? _ := validateAuthority intent a in
          journals intent (a_CanonicalEventID a)
      end
  end.

Definition Post (now : Time.t) (authority : Authority) (intent : Intent) (poster : Poster)
    : Poster * result error (list PostedJournal) :=
  match prepare authority intent poster with
  | Err e => (poster, Err e)
  | Ok js =>
      match PostBatch now js (book poster) with
      | (book', r) => (mkPoster book' (maxMessagingExpense poster), map_err ErrLedger r)
      end
  end.
End Post.

(** * Journal identities *)

Definition colon : Ascii.ascii := ":"%char.
Definition colon_free (s : string) : Prop := has_char colon s = false.

(** Event, effect and suffix can be read back from a journal id, whatever the
    event id contains. *)
Lemma journal_id_inj E f s E' f' s' :
  colon_free f → colon_free s → colon_free f' → colon_free s' →
  journal_id E f s = journal_id E' f' s' → E = E' ∧ f = f' ∧ s = s'.
Proof.
  unfold journal_id. intros Hf Hs Hf' Hs' Eq.
  apply string_app_inj_l in Eq as [_ Eq]; [|done].
  rewrite <- !(string_app_assoc _ ":"), <- !string_app_assoc in Eq.
  rewrite !(string_app_assoc _ ":" s), !(string_app_assoc _ ":" s') in Eq.
  change (":" +:+ s) with (String colon s) in Eq. change (":" +:+ s') with (String colon s') in Eq.
  apply last_separator_inj in Eq as [Eq ->]; [|done..].
  rewrite !string_app_assoc in Eq.
  change (":" +:+ f) with (String colon f) in Eq. change (":" +:+ f') with (String colon f') in Eq.
  by apply last_separator_inj in Eq as [-> ->].
Qed.

(** Every journal of this package: its own idempotency key, no reversal. *)
Record keyed (j : Journal) : Prop := {
  keyed_entity : j_LegalEntityID j = "unified-protocol";
  keyed_source : j_SourceSystem j = "cross-chain-coordinator";
  keyed_key : j_IdempotencyKey j = j_ID j;
  keyed_reversal : j_ReversalOf j = "" }.

Lemma keyed_scope j j' : keyed j → keyed j' → scope j = scope j' → j_ID j = j_ID j'.
Proof.
  intros [E1 S1 K1 _] [E2 S2 K2 _]. unfold scope. rewrite E1, E2, S1, S2, K1, K2.
  intros Eq. by repeat (apply string_app_inj_l in Eq as [_ Eq]; [|done]).
Qed.

Lemma journal_keyed i E s a d c : keyed (journal i E s a d c).
Proof. by split. Qed.

(** The suffixes of an effect's journals. *)
Definition suffixes (effect : string) : list string :=
  if effect =s CanonicalLock then ["bridge-lock-financial"; "bridge-lock-control"]
  else if effect =s WrappedMint then ["wrapped-mint-control"]
  else if effect =s WrappedBurn then ["wrapped-burn-control"]
  else if (effect =s CanonicalRelease) || (effect =s PermanentCanonicalBurn) ||
          (effect =s CanonicalLockCompensation)
  then ["bridge-disposition-financial"; "bridge-disposition-control"]
  else if effect =s WrappedBurnCompensation then ["wrapped-burn-compensation-control"]
  else if effect =s LoanActivation then ["loan-activation"]
  else if (effect =s RemoteRepayment) || (effect =s DirectHomeRepayment) then ["repayment-debt"]
  else if effect =s SatelliteCustody then ["satellite-custody"]
  else if effect =s CollateralRelease then ["satellite-custody-release"]
  else if effect =s LoanCancellationComplete
  then ["loan-cancellation-burn-control"; "loan-cancellation-refund-financial";
        "loan-cancellation-refund-control"]
  else if effect =s ReconciliationDiff then ["reconciliation-difference"]
  else if effect =s MessagingExpense then ["messaging-expense"]
  else [].

Definition known_effects : list string :=
  [CanonicalLock; WrappedMint; WrappedBurn; CanonicalRelease; PermanentCanonicalBurn;
   CanonicalLockCompensation; WrappedBurnCompensation; LoanActivation; RemoteRepayment;
   DirectHomeRepayment; SatelliteCustody; CollateralRelease; LoanCancellationComplete;
   ReconciliationDiff; MessagingExpense].

(** Exactly the fifteen effects have journals. *)
Lemma journals_known i E js : journals i E = Ok js → i_Effect i ∈ known_effects.
Proof.
  unfold journals. intros Hj.
  repeat match type of Hj with
  | (if ?g then _ else _) = _ => destruct g eqn:?; [clear Hj|]
  end; [.. | discriminate Hj];
  repeat match goal with G : _ || _ = true |- _ => apply orb_true_iff in G as [G|G] end;
  match goal with G : (i_Effect i =s _) = true |- _ => apply String.eqb_eq in G; rewrite G end;
  unfold known_effects; repeat (first [left | right]).
Qed.

Lemma known_effect_suffixes f :
  f ∈ known_effects → colon_free f ∧ NoDup (suffixes f) ∧ Forall colon_free (suffixes f).
Proof.
  assert (Forall (λ f, colon_free f ∧ NoDup (suffixes f) ∧ Forall colon_free (suffixes f)) known_effects) as Hall.
  { unfold colon_free. apply (bool_decide_unpack _). vm_compute. exact I. }
  rewrite Forall_forall in Hall. apply Hall.
Qed.

Lemma journals_ids i E js :
  journals i E = Ok js → j_ID <$> js = journal_id E (i_Effect i) <$> suffixes (i_Effect i).
Proof.
  unfold journals, suffixes. intros Hj.
  repeat match type of Hj with
  | (if ?g then _ else _) = _ => destruct g; [by injection Hj as <-|]
  end. discriminate Hj.
Qed.

Lemma journals_keyed i E js : journals i E = Ok js → Forall keyed js.
Proof.
  unfold journals. intros Hj.
  repeat match type of Hj with
  | (if ?g then _ else _) = _ => destruct g; [injection Hj as <-; repeat constructor|]
  end. discriminate Hj.
Qed.

(** Two batches share a journal only when they share the event and the effect,
    and then they have the same journal ids. *)
Lemma journals_overlap i E js i' E' js' id :
  journals i E = Ok js → journals i' E' = Ok js' →
  id ∈ j_ID <$> js → id ∈ j_ID <$> js' → j_ID <$> js = j_ID <$> js'.
Proof.
  intros H1 H2. rewrite (journals_ids _ _ _ H1), (journals_ids _ _ _ H2).
  pose proof (known_effect_suffixes _ (journals_known _ _ _ H1)) as (C1 & _ & F1).
  pose proof (known_effect_suffixes _ (journals_known _ _ _ H2)) as (C2 & _ & F2).
  intros (s & -> & Hs)%list_elem_of_fmap (s' & Eq & Hs')%list_elem_of_fmap.
  rewrite Forall_forall in F1, F2.
  destruct (journal_id_inj _ _ _ _ _ _ C1 (F1 _ Hs) C2 (F2 _ Hs') Eq) as (-> & -> & _). done.
Qed.

Lemma journals_NoDup i E js : journals i E = Ok js → NoDup (j_ID <$> js).
Proof.
  intros Hj. rewrite (journals_ids _ _ _ Hj).
  destruct (known_effect_suffixes _ (journals_known _ _ _ Hj)) as (C & Hnd & F).
  revert F. induction Hnd as [|s l Hs Hnd IH]; intros F; [constructor|]. apply Forall_cons in F as [Cs F].
  rewrite fmap_cons. constructor; [|by apply IH]. intros (s' & Eq & Hs')%list_elem_of_fmap.
  rewrite Forall_forall in F. apply journal_id_inj in Eq as (_ & _ & ->); auto.
Qed.

(** * The subledger's book *)

Section Books.
Context `{JournalDigest}.

(** Net movement of a list of journals. *)
Definition batch_delta (account asset : string) (js : list Journal) : Z :=
  Zsum (λ j, account_delta account asset (j_Entries j)) js.

(** A book is a sequence of complete batches. *)
Record own_book (hist : list (list Journal)) (bk : Ledger) : Prop := {
  ob_inv : ledger_inv bk;
  ob_keyed : ∀ id p, byID bk !! id = Some p → keyed (p_Journal p);
  ob_ids : ∀ id, is_Some (byID bk !! id) ↔ ∃ js, js ∈ hist ∧ id ∈ j_ID <$> js;
  ob_from : ∀ js, js ∈ hist → ∃ i E, journals i E = Ok js;
  ob_balance : ∀ account asset, account_balance account asset bk = Zsum (batch_delta account asset) hist }.

Lemma own_book_New : own_book [] New.
Proof.
  split; [apply New_inv|done| |set_solver|].
  - intros id. simpl. rewrite lookup_empty, is_Some_alt. split; [done|]. intros (js & Hin & _). set_solver.
  - intros account asset. exact (Msum_empty _).
Qed.

(** A keyed journal is known to the book exactly when its id is. *)
Lemma own_book_scope hist bk j :
  own_book hist bk → keyed j →
  (is_Some (idempotency bk !! scope j) ↔ is_Some (byID bk !! j_ID j)).
Proof.
  intros Hb Hk. split.
  - intros [x Hx]. destruct (inv_idem _ (ob_inv _ _ Hb) _ _ Hx) as (p & Hp & Hs).
    rewrite <- (keyed_scope (p_Journal p) j); [|by apply (ob_keyed _ _ Hb x)|done|done].
    rewrite (proj1 (inv_valid _ (ob_inv _ _ Hb) _ _ Hp)). by eexists.
  - intros [p Hp]. pose proof (inv_scope _ (ob_inv _ _ Hb) _ _ Hp) as Hs.
    assert (scope (p_Journal p) = scope j) as <-; [|by eexists].
    pose proof (ob_keyed _ _ Hb _ _ Hp) as Hkp. pose proof (proj1 (inv_valid _ (ob_inv _ _ Hb) _ _ Hp)) as Hid.
    unfold scope. by rewrite (keyed_entity _ Hk), (keyed_entity _ Hkp), (keyed_source _ Hk),
      (keyed_source _ Hkp), (keyed_key _ Hk), (keyed_key _ Hkp), Hid.
Qed.

Lemma post_all_existing now hs bk :
  (∀ jh, jh ∈ hs → is_Some (idempotency bk !! scope jh.1)) → (post_all now hs bk).1 = bk.
Proof.
  induction hs as [|[j h] hs IH]; intros Hall; [done|]. simpl.
  destruct (Hall (j, h) ltac:(left)) as [x Hx]. simpl in Hx. rewrite (postValidated_replay _ _ _ _ _ Hx).
  destruct (_ =s h); [|done].
  assert ((post_all now hs bk).1 = bk) as E by (apply IH; intros jh Hjh; apply Hall; by right).
  destruct (post_all now hs bk) as [b [ps|e]]; done.
Qed.

Lemma keyed_fresh_batch now hs bk :
  Forall keyed hs.*1 → NoDup (j_ID <$> hs.*1) → Forall (λ j, fresh j bk) hs.*1 → fresh_batch now hs bk.
Proof.
  revert bk. induction hs as [|[j h] hs IH]; intros bk Hk Hnd Hf; [done|].
  rewrite !fmap_cons in *. simpl in *. apply Forall_cons in Hk as [Hj Hk].
  apply NoDup_cons in Hnd as [Hn Hnd]. apply Forall_cons in Hf as [Hfj Hf]. split; [done|].
  apply IH; [done..|]. rewrite Forall_forall in *. intros j' Hj'.
  assert (j_ID j' ≠ j_ID j) as Hne by (intros Eq; apply Hn; rewrite <- Eq; by apply list_elem_of_fmap_2).
  apply fresh_store; [by apply Hf|done| |].
  - intros Eq. by apply Hne, keyed_scope; [apply Hk|..].
  - by rewrite (keyed_reversal _ (Hk _ Hj')).
Qed.

Lemma store_all_ids now hs bk id :
  fresh_batch now hs bk →
  (is_Some (byID (store_all now hs bk) !! id) ↔ is_Some (byID bk !! id) ∨ id ∈ j_ID <$> hs.*1).
Proof.
  revert bk. induction hs as [|[j h] hs IH]; intros bk; simpl; [set_solver|]. intros [_ Hr].
  rewrite (IH _ Hr). simpl. rewrite lookup_insert, elem_of_cons. case_decide as E; [subst|].
  - split; [naive_solver|]. intros _. left. by eexists.
  - naive_solver.
Qed.

Lemma store_all_keyed now hs bk :
  Forall keyed hs.*1 → (∀ id p, byID bk !! id = Some p → keyed (p_Journal p)) →
  ∀ id p, byID (store_all now hs bk) !! id = Some p → keyed (p_Journal p).
Proof.
  revert bk. induction hs as [|[j h] hs IH]; intros bk Hk Hbk; [done|]. simpl in *.
  apply Forall_cons in Hk as [Hj Hk]. apply IH; [done|]. intros id p. simpl. rewrite lookup_insert.
  case_decide; [intros [= <-]; done|apply Hbk].
Qed.

(** A batch is posted completely or not at all. *)
Lemma batch_step now hist bk i E js :
  own_book hist bk → journals i E = Ok js →
  (PostBatch now js bk).1 = bk ∨ own_book (hist ++ [js]) (PostBatch now js bk).1.
Proof.
  intros Hb Hj. unfold PostBatch. destruct js as [|j0 js0] eqn:Ejs; [by left|].
  rewrite <- Ejs in *. clear Ejs. destruct (hash_all js) as [hs|] eqn:Hh; [|by left].
  apply hash_all_Ok in Hh as [Hfst HF]. pose proof (journals_keyed _ _ _ Hj) as Hk.
  destruct (decide (Exists (λ j, is_Some (byID bk !! j_ID j)) js)) as [Hex|Hnew].
  - left. apply Exists_exists in Hex as (j & Hin & Hid).
    assert (∀ jh, jh ∈ hs → is_Some (idempotency bk !! scope jh.1)) as Hall.
    { intros jh Hjh. assert (jh.1 ∈ js) as Hjs by (rewrite <- Hfst; by apply list_elem_of_fmap_2).
      rewrite Forall_forall in Hk. apply (own_book_scope hist); [done|by apply Hk|].
      apply (ob_ids _ _ Hb) in Hid as (js' & Hjs' & Hid'). apply (ob_ids _ _ Hb). exists js'. split; [done|].
      destruct (ob_from _ _ Hb _ Hjs') as (i' & E' & Hj').
      rewrite <- (journals_overlap _ _ _ _ _ _ (j_ID j) Hj Hj'); [|by apply list_elem_of_fmap_2|done].
      by apply list_elem_of_fmap_2. }
    pose proof (post_all_existing now hs bk Hall) as Eq.
    by destruct (post_all now hs bk) as [b [ps|e]]; simpl in *; subst.
  - right. assert (fresh_batch now hs bk) as Hf.
    { apply keyed_fresh_batch; rewrite Hfst; [done|by eapply journals_NoDup|].
      rewrite Forall_forall in *. intros j Hin.
      assert (byID bk !! j_ID j = None) as Hn.
      { apply eq_None_not_Some. intros Hs. apply Hnew, Exists_exists. eauto. }
      split; [|done|].
      - apply eq_None_not_Some. rewrite (own_book_scope hist) by auto. rewrite Hn. by intros [? ?].
      - by rewrite (keyed_reversal _ (Hk _ Hin)). }
    rewrite post_all_fresh by done. simpl. split.
    + pose proof (post_all_inv now hs bk HF (ob_inv _ _ Hb)) as Hi. by rewrite post_all_fresh in Hi.
    + apply store_all_keyed; [by rewrite Hfst|apply Hb].
    + intros id. rewrite store_all_ids by done. rewrite (ob_ids _ _ Hb), Hfst. setoid_rewrite elem_of_app.
      setoid_rewrite list_elem_of_singleton. naive_solver.
    + intros js' [Hin| ->%list_elem_of_singleton]%elem_of_app; [by apply (ob_from _ _ Hb)|eauto].
    + intros account asset. rewrite store_all_account_balance by done. rewrite (ob_balance _ _ Hb), Zsum_app.
      rewrite Zsum_cons, Zsum_nil. unfold batch_delta. rewrite <- Hfst, Zsum_fmap.
      rewrite (Zsum_ext (λ '(j, _), _) (λ x, account_delta account asset (j_Entries x.1)) hs) by (by intros []).
      lia.
Qed.

(** ** Traces of postings *)

Inductive poster_step (p : Poster) : Poster → Prop :=
| post_step now authority intent : poster_step p (Post now authority intent p).1.

Lemma prepare_journals authority intent p js :
  prepare authority intent p = Ok js →
  ∃ a, authority intent = Some a ∧ validateAuthority intent a = Ok () ∧
    journals intent (a_CanonicalEventID a) = Ok js ∧
    is_Some (Big.canonical_positive (i_Units intent)) ∧
    (i_Effect intent = MessagingExpense →
       ∃ u, Big.canonical_positive (i_Units intent) = Some u ∧ u <= maxMessagingExpense p).
Proof.
  unfold prepare. destruct (_ || _); [done|]. destruct (_ && empty_s _); [done|].
  destruct (Big.canonical_positive _) as [u|]; [|done]. destruct (_ && _) eqn:Hcap; [done|].
  destruct (authority intent) as [a|]; [|done]. destruct (validateAuthority intent a) as [[]|] eqn:Hv; [|done].
  intros Hj. exists a. split_and!; try done. intros Heff. exists u. split; [done|].
  apply andb_false_iff in Hcap as [Hc|Hc]; bool_facts; [done|lia].
Qed.

Lemma Post_step now authority intent p hist :
  own_book hist (book p) →
  let p' := (Post now authority intent p).1 in
  book p' = book p ∨ ∃ E js, journals intent E = Ok js ∧ own_book (hist ++ [js]) (book p').
Proof.
  intros Hb. unfold Post. destruct (prepare authority intent p) as [js|] eqn:Hp; [|by left].
  destruct (prepare_journals _ _ _ _ Hp) as (a & _ & _ & Hj & _).
  pose proof (batch_step now _ _ _ _ _ Hb Hj) as Hs.
  destruct (PostBatch now js (book p)) as [bk' r]. simpl in *.
  destruct Hs as [->|Hs]; [by left|]. right. by exists (a_CanonicalEventID a), js.
Qed.

Lemma reachable_own_book cap p :
  rtc poster_step (mkPoster New cap) p → ∃ hist, own_book hist (book p).
Proof.
  intros Hr. assert (∀ a b, rtc poster_step a b → (∃ h, own_book h (book a)) → ∃ h, own_book h (book b)) as Hall.
  { induction 1 as [|a b c [now auth i] _ IH]; [done|]. intros [h Hh]. apply IH.
    destruct (Post_step now auth i a h Hh) as [->|(E & js & _ & ?)]; eauto. }
  apply (Hall _ _ Hr). exists []. apply own_book_New.
Qed.

(** Two entries of the same units. *)
Lemma journal_delta i E s x d c account asset :
  account_delta account asset (j_Entries (journal i E s x d c)) =
  let n := default 0 (Big.set_string (i_Units i)) in
  movement account asset d x n - movement account asset c x n.
Proof.
  unfold account_delta, movement, signed_units, entry_units, journal. simpl.
  destruct ((d =s account) && _), ((c =s account) && _); lia.
Qed.

(** The control equations hold batch by batch. *)
Record balanced_controls (f : string → Z) : Prop := {
  ctl_backing : f AccountCanonicalAssetsLocked + f AccountBridgeBackingLiability = 0;
  ctl_escrow : f AccountCanonicalAssetsLocked = f AccountUFTBridgeEscrowControl;
  ctl_debt : f AccountPrincipalReceivable + f AccountLenderPrincipalClaims = 0;
  ctl_custody : f AccountSatelliteAssetReceivable + f AccountCrossChainReceivable = 0;
  ctl_pending : f AccountPendingCrossChainSettlement + f AccountUFTBridgeEscrowControl +
    f AccountWrappedUFTOutstandingControl + f AccountCrossChainMessagingExpense +
    f AccountReconciliationDifference = 0 }.

Lemma batch_controls i E js asset :
  journals i E = Ok js → balanced_controls (λ account, batch_delta account asset js).
Proof.
  unfold journals. intros Hj.
  repeat match type of Hj with
  | (if ?g then _ else _) = _ => destruct g; [injection Hj as <-|]
  end; [.. | discriminate Hj];
  split; unfold batch_delta; rewrite ?Zsum_cons, ?Zsum_nil, ?journal_delta; unfold movement;
  simpl; repeat (destruct (_ =s asset); simpl); lia.
Qed.

(** C33: the bridge accounts always explain each other. However effects are
    posted, retried, refused or repeated by any authorities, from an empty book:
    in every asset the canonical assets locked equal the bridge backing liability
    and the escrow control account, the loan principal receivable equals the
    lenders' claims, satellite custody equals the cross-chain receivable, and
    what is pending settlement is exactly the escrow, wrapped-supply, expense and
    difference positions that caused it. *)
Theorem bridge_controls_hold (cap : Z) (p : Poster) (asset : string) :
  rtc poster_step (mkPoster New cap) p →
  balanced_controls (λ account, account_balance account asset (book p)).
Proof.
  intros [hist Hb]%reachable_own_book. pose proof (ob_from _ _ Hb) as Hfrom.
  assert (balanced_controls (λ account, Zsum (batch_delta account asset) hist)) as [C1 C2 C3 C4 C5].
  { clear Hb. induction hist as [|js hist IH]; [by split|].
    destruct IH as [I1 I2 I3 I4 I5]; [intros js' Hin; apply Hfrom; by right|].
    destruct (Hfrom js ltac:(left)) as (i & E & Hj).
    destruct (batch_controls i E js asset Hj) as [J1 J2 J3 J4 J5].
    split; rewrite !Zsum_cons; lia. }
  split; by rewrite !(ob_balance _ _ Hb).
Qed.

(** Nothing is posted without authority. A posting that succeeds was answered
    by a finalized authority with the same evidence, under exactly the identity
    its kind requires: cross-chain effects name the message and are allowed by its
    stage and action, a compensation is bound to another message of the
    compensated kind, a loan cancellation to every field of its completion report;
    direct-home repayments and internal entries name the home event; a messaging
    expense stays within the configured cap. *)
Theorem posting_authorized (now : Time.t) (authority : Authority) (intent : Intent) (p p' : Poster) ps :
  Post now authority intent p = (p', Ok ps) →
  ∃ a, authority intent = Some a ∧ a_Finalized a = true ∧
    a_EvidenceHash a = i_EvidenceHash intent ∧
    ((a_Kind a = CrossChainAuthority ∧ a_CanonicalEventID a = i_MessageID intent ∧
      authorityAllowsEffect (a_Stage a) (a_ActionOrdinal a) (i_Effect intent) = true ∧
      (i_Effect intent = CanonicalLockCompensation ∨ i_Effect intent = WrappedBurnCompensation →
         a_CompensatedMessageID a = i_CompensatedMessageID intent ∧
         i_CompensatedMessageID intent ≠ "" ∧ i_CompensatedMessageID intent ≠ i_MessageID intent ∧
         compensatedActionAllowsEffect (a_CompensatedActionOrdinal a) (i_Effect intent) = true) ∧
      (i_Effect intent = LoanCancellationComplete → a_Cancellation a = i_Cancellation intent ∧
         c_Amount (i_Cancellation intent) = i_Units intent ∧ a_RouteID a = i_RouteID intent ∧
         a_CanonicalAssetID a = i_AssetID intent ∧ a_LenderID a = i_PartyID intent)) ∨
     (a_Kind a = DirectHomeAuthority ∧ i_Effect intent = DirectHomeRepayment ∧
      a_CanonicalEventID a = i_HomeEventID intent ∧ a_Stage a = AuthorityStageDirectHomeFinal) ∨
     (a_Kind a = InternalAuthority ∧ a_CanonicalEventID a = i_HomeEventID intent ∧
      a_Stage a = AuthorityStageInternalFinal ∧
      (i_Effect intent = ReconciliationDiff ∨
       (i_Effect intent = MessagingExpense ∧
        ∃ u, Big.canonical_positive (i_Units intent) = Some u ∧ u <= maxMessagingExpense p)))).
Proof.
  unfold Post. destruct (prepare authority intent p) as [js|] eqn:Hp; [|done]. intros _.
  destruct (prepare_journals _ _ _ _ Hp) as (a & Ha & Hv & _ & _ & Hcap). exists a. split; [done|].
  unfold validateAuthority in Hv. destruct (_ || _) eqn:He; [done|]. bool_facts.
  split; [done|]. split; [done|].
  destruct (a_Kind a =s CrossChainAuthority) eqn:K1.
  { left. destruct (_ || _) eqn:Hg1 in Hv; [done|]. destruct (isCompensation _ && _) eqn:Hg2 in Hv; [done|].
    destruct ((i_Effect intent =s LoanCancellationComplete) && _) eqn:Hg3 in Hv; [done|]. bool_facts.
    split_and!; try done.
    - intros Hc. replace (isCompensation (i_Effect intent)) with true in Hg2 by (unfold isCompensation; by destruct Hc as [-> | ->]).
      simpl in Hg2. bool_facts. by split_and!.
    - intros Heff. rewrite Heff, String.eqb_refl, andb_true_l in Hg3. bool_facts. unfold validCancellationAuthority in *. bool_facts. by split_and!. }
  right. destruct (a_Kind a =s DirectHomeAuthority) eqn:K2.
  { left. destruct (_ || _) eqn:Hg1 in Hv; [done|]. bool_facts. by split_and!. }
  destruct (a_Kind a =s InternalAuthority) eqn:K3; [|done]. right.
  destruct (_ || _) eqn:Hg1 in Hv; [done|]. bool_facts. split_and!; try done.
  match goal with G : _ && _ = false |- _ => apply andb_false_iff in G as [G|G] end; bool_facts; auto.
Qed.

(** [comp] takes back [orig]: a lock or a burn of the same amount and asset. *)
Definition compensates (orig comp : Intent) : Prop :=
  i_Units orig = i_Units comp ∧
  ((i_Effect orig = CanonicalLock ∧ i_Effect comp = CanonicalLockCompensation ∧
    i_AssetID orig = i_AssetID comp) ∨
   (i_Effect orig = WrappedBurn ∧ i_Effect comp = WrappedBurnCompensation ∧
    i_WrappedAssetID orig = i_WrappedAssetID comp)).

Lemma compensates_delta orig comp E E' js js' account asset :
  compensates orig comp → journals orig E = Ok js → journals comp E' = Ok js' →
  batch_delta account asset js + batch_delta account asset js' = 0.
Proof.
  intros [Hu [(H1 & H2 & Ha)|(H1 & H2 & Ha)]]; unfold journals; rewrite H1, H2; simpl;
    intros [= <-] [= <-]; unfold batch_delta; rewrite ?Zsum_cons, ?Zsum_nil, ?journal_delta, Hu, Ha; cbv zeta; lia.
Qed.

(** A compensation restores the book. If a lock (or a burn) was posted and
    later, after anything else, its compensation is posted as new, then between
    the two the balance of every account moved only by what the other postings
    moved: posting and compensation cancel exactly. *)
Theorem compensation_restores (cap : Z) (now now' : Time.t) (auth auth' : Authority)
    (orig comp : Intent) (p0 : Poster) :
  let p1 := (Post now auth orig p0).1 in
  rtc poster_step (mkPoster New cap) p0 → compensates orig comp →
  book p1 ≠ book p0 →
  ∀ p2, rtc poster_step p1 p2 →
  let p3 := (Post now' auth' comp p2).1 in
  book p3 ≠ book p2 →
  ∀ account asset,
    account_balance account asset (book p3) - account_balance account asset (book p0) =
    account_balance account asset (book p2) - account_balance account asset (book p1).
Proof.
  intros p1 H0 Hc H1 p2 H12 p3 H3 account asset.
  destruct (reachable_own_book _ _ H0) as [h0 B0].
  destruct (reachable_own_book cap p2) as [h2 B2].
  { transitivity p0; [done|]. eapply rtc_l; [|done]. constructor. }
  destruct (Post_step now auth orig p0 h0 B0) as [?|(E1 & js1 & J1 & B1)]; [done|].
  destruct (Post_step now' auth' comp p2 h2 B2) as [?|(E3 & js3 & J3 & B3)]; [done|].
  fold p1 in B1. fold p3 in B3.
  pose proof (compensates_delta _ _ _ _ _ _ account asset Hc J1 J3).
  rewrite (ob_balance _ _ B0), (ob_balance _ _ B1), (ob_balance _ _ B2), (ob_balance _ _ B3).
  rewrite !Zsum_app, !Zsum_cons, !Zsum_nil. lia.
Qed.
End Books.

(** * Concrete postings *)

Module Sample.
#[local] Existing Instance id_digest.

Definition no_cancellation : CancellationCompletion := mkCancellation "" "" "" "" "" "" "" "" "" "" "".
Definition intent (effect message compensated units : string) : Intent :=
  mkIntent "i" effect message "" "L" "route" "UFT" "wUFT" "" compensated units "party" "" "" "" "" ""
    no_cancellation "ev" "corr" (Time.mk 7 "").
Definition authority (kind stage : string) (action : Z) (compensated : string) (c_action : Z) : Authority :=
  λ i, Some (mkAuthority (i_MessageID i) kind stage action "" "" "" "" "" "" "" "" no_cancellation "ev"
               compensated c_action true).

Definition lock : Intent := intent CanonicalLock "m1" "" "50".
Definition lock_authority : Authority := authority CrossChainAuthority AuthorityStageSourceFinal 1 "" 0.
Definition unlock : Intent := intent CanonicalLockCompensation "m2" "m1" "50".
Definition unlock_authority : Authority :=
  authority CrossChainAuthority AuthorityStageSourceCompensated 14 "m1" 1.

Definition p0 : Poster := mkPoster New 100.
Definition p1 : Poster := (Post (Time.mk 9 "") lock_authority lock p0).1.
Definition p2 : Poster := (Post (Time.mk 10 "") unlock_authority unlock p1).1.

Lemma bridge_controls_hold_witness :
  account_balance "1410" "UFT" (book p1) = 50 ∧
  account_balance "1410" "UFT" (book p1) = account_balance "7150" "UFT" (book p1).
Proof.
  split; [reflexivity|]. apply (ctl_escrow _ (bridge_controls_hold 100 p1 "UFT"
    (rtc_once _ _ (post_step p0 (Time.mk 9 "") lock_authority lock)))).
Defined.

Lemma unlock_posts : is_ok (Post (Time.mk 10 "") unlock_authority unlock p1).2 = true.
Proof. vm_compute. reflexivity. Qed.

Lemma posting_authorized_witness :
  ∃ a, unlock_authority unlock = Some a ∧ a_Finalized a = true.
Proof.
  pose proof unlock_posts as Hok.
  destruct (Post (Time.mk 10 "") unlock_authority unlock p1) as [q [ps|e]] eqn:Hp; [|discriminate Hok].
  destruct (posting_authorized _ _ _ _ q ps Hp) as (a & Ha & Hf & _).
  exists a. split; [exact Ha|exact Hf].
Defined.

Lemma compensation_restores_witness :
  account_balance "2230" "UFT" (book p2) = account_balance "2230" "UFT" (book p0).
Proof.
  assert (account_balance "2230" "UFT" (book p2) - account_balance "2230" "UFT" (book p0) =
          account_balance "2230" "UFT" (book p1) - account_balance "2230" "UFT" (book p1)) as H.
  { apply (compensation_restores 100 (Time.mk 9 "") (Time.mk 10 "") lock_authority unlock_authority lock
      unlock p0) with (p2 := p1).
    - apply rtc_refl.
    - split; [reflexivity|]. left. split; [reflexivity|]. split; reflexivity.
    - intros E. apply (f_equal (λ b, size (byID b))) in E. vm_compute in E. discriminate E.
    - apply rtc_refl.
    - intros E. apply (f_equal (λ b, size (byID b))) in E. vm_compute in E. discriminate E. }
  lia.
Defined.
End Sample.
