(* ===== verification/Reconciliation.v ===== *)
(** Control-total reconciliation: the coordinator's comparison of chain, custody,
    loan, message and ledger totals
    ([cross-chain-coordinator/reconciliation/reconciliation.go], Module [Controls])
    and the ledger's comparison of account boundaries with posted journals
    ([foundation-ledger/internal/crosschainreconciliation], Module [Boundaries]). *)
From S2P Require Import Prelude GoStd Ledger.

Module Controls.

(** * Data *)

Record Snapshot := mkSnapshot {
  RouteID : string;
  CanonicalEscrowUnits : string;
  WrappedSupplyUnits : string;
  FinalizedPendingMintUnits : string;
  FinalizedPendingBurnUnits : string;
  HubTokenBalanceUnits : string;
  RouteObligationsUnits : string;
  HubSurplusUnits : string;
  RouteExposureUnits : string;
  RouteExposureCapUnits : string;
  AggregateExposureUnits : string;
  AggregateExposureCapUnits : string;
  CollateralCustodyUnits : string;
  CollateralPositionUnits : string;
  SettlementVaultUnits : string;
  SettlementAuthorizedUnits : string;
  CanonicalDebtUnits : string;
  LedgerDebtUnits : string;
  CanonicalLenderReleaseUnits : string;
  LedgerLenderReleaseUnits : string;
  JournalBridgeControlUnits : string;
  ChainBridgeControlUnits : string;
  ChainMessageCount : Z;
  SQLMessageCount : Z;
  ChainNonce : Z;
  SQLNonce : Z;
  ExecutionResultCount : Z;
  AcknowledgementCount : Z;
  RecoveryRequestCount : Z;
  TombstoneCount : Z;
  CompensationCount : Z;
  RecoveredCount : Z;
  ConflictingTerminalCount : Z;
  EvidenceHash : string;
  AsOf : Time.t }.

Record Difference := mkDifference {
  d_Dimension : string;
  d_ExpectedUnits : string;
  d_ObservedUnits : string;
  d_ReasonCode : string;
  d_Severity : string;
  d_Owner : string;
  d_DetectedAt : Time.t;
  d_Deadline : Time.t }.

Record Result := mkResult {
  Differences : list Difference;
  PauseRoute : bool;
  OpenIncident : bool }.

Inductive error := ErrInvalidInput | ErrUnits.

(** * Operations *)

Definition units (value : string) : result error Z :=
  match Big.set_string value with
  | None => Err ErrUnits
  | Some number =>
      if (number <? 0) || (Big.to_string number <>s value) then Err ErrUnits else Ok number
  end.

Definition difference (dimension expected observed reason severity owner : string)
    (detectedAt deadline : Time.t) : Difference :=
  mkDifference dimension expected observed reason severity owner detectedAt deadline.

Section Compare.
Context (owner : string) (asOf deadline : Time.t).

(** The closure [add]. *)
Definition add (dimension : string) (expected observed : Z) (reason severity : string)
    (r : Result) : Result :=
  if expected =? observed then r
  else
    let critical := (severity =s "CRITICAL") || (severity =s "EXISTENTIAL") in
    mkResult
      (Differences r ++ [difference dimension (Big.to_string expected) (Big.to_string observed)
                           reason severity owner asOf deadline])
      (critical || PauseRoute r) (critical || OpenIncident r).

(** The closure [addRecoveryStageDifference]. *)
Definition addRecoveryStageDifference (dimension : string) (parent child : Z)
    (gapReason orderReason : string) (r : Result) : Result :=
  let severity := if parent <? child then "CRITICAL"%string else "HIGH"%string in
  let reason := if parent <? child then orderReason else gapReason in
  add dimension parent child reason severity r.
End Compare.

(** The parsed control totals, [values]. *)
Record Values := mkValues {
  escrow : Z; wrapped : Z; pendingMint : Z; pendingBurn : Z; hubBalance : Z; obligations : Z;
  surplus : Z; routeExposure : Z; routeCap : Z; aggregateExposure : Z; aggregateCap : Z;
  custody : Z; positions : Z; vault : Z; authorized : Z; canonicalDebt : Z; ledgerDebt : Z;
  canonicalRelease : Z; ledgerRelease : Z; journalControl : Z; chainControl : Z }.

(** The loop over the map literal; the field that makes it fail is unspecified. *)
Definition parse_values (s : Snapshot) : result error Values :=
  let? v1 := units (CanonicalEscrowUnits s) in
  let? v2 := units (WrappedSupplyUnits s) in
  let? v3 := units (FinalizedPendingMintUnits s) in
  let? v4 := units (FinalizedPendingBurnUnits s) in
  let? v5 := units (HubTokenBalanceUnits s) in
  let? v6 := units (RouteObligationsUnits s) in
  let? v7 := units (HubSurplusUnits s) in
  let? v8 := units (RouteExposureUnits s) in
  let? v9 := units (RouteExposureCapUnits s) in
  let? v10 := units (AggregateExposureUnits s) in
  let? v11 := units (AggregateExposureCapUnits s) in
  let? v12 := units (CollateralCustodyUnits s) in
  let? v13 := units (CollateralPositionUnits s) in
  let? v14 := units (SettlementVaultUnits s) in
  let? v15 := units (SettlementAuthorizedUnits s) in
  let? v16 := units (CanonicalDebtUnits s) in
  let? v17 := units (LedgerDebtUnits s) in
  let? v18 := units (CanonicalLenderReleaseUnits s) in
  let? v19 := units (LedgerLenderReleaseUnits s) in
  let? v20 := units (JournalBridgeControlUnits s) in
  let? v21 := units (ChainBridgeControlUnits s) in
  Ok (mkValues v1 v2 v3 v4 v5 v6 v7 v8 v9 v10 v11 v12 v13 v14 v15 v16 v17 v18 v19 v20 v21).

(** The comparisons, in order. *)
Definition compare_values (s : Snapshot) (v : Values) (owner : string) (deadline : Time.t) : Result :=
  let add := add owner (AsOf s) deadline in
  let stage := addRecoveryStageDifference owner (AsOf s) deadline in
  let r := mkResult [] false false in
  let r := add "BACKING" (wrapped v + pendingMint v + pendingBurn v) (escrow v)
             "BACKING_EQUATION_MISMATCH" "CRITICAL" r in
  let r := add "HUB_ESCROW" (obligations v + surplus v) (hubBalance v)
             "HUB_BALANCE_OR_QUARANTINED_SURPLUS_MISMATCH" "CRITICAL" r in
  let r := add "COLLATERAL" (positions v) (custody v) "COLLATERAL_CUSTODY_MISMATCH" "CRITICAL" r in
  let r := add "SETTLEMENT_VAULT" (authorized v) (vault v) "SETTLEMENT_VAULT_MISMATCH" "CRITICAL" r in
  let r := add "LOAN_DEBT" (canonicalDebt v) (ledgerDebt v) "LEDGER_DEBT_MISMATCH" "HIGH" r in
  let r := add "LENDER_RELEASE" (canonicalRelease v) (ledgerRelease v)
             "LENDER_RELEASE_MISMATCH" "HIGH" r in
  let r := add "BRIDGE_CONTROL" (chainControl v) (journalControl v) "JOURNAL_CONTROL_MISMATCH" "HIGH" r in
  let r := if routeCap v <? routeExposure v
           then add "ROUTE_EXPOSURE_CAP" (routeCap v) (routeExposure v) "ROUTE_CAP_EXCEEDED" "CRITICAL" r
           else r in
  let r := if aggregateCap v <? aggregateExposure v
           then add "AGGREGATE_EXPOSURE_CAP" (aggregateCap v) (aggregateExposure v)
                  "AGGREGATE_CAP_EXCEEDED" "CRITICAL" r
           else r in
  let r := add "MESSAGE_COUNT" (ChainMessageCount s) (SQLMessageCount s)
             "MESSAGE_PROJECTION_MISMATCH" "HIGH" r in
  let r := add "LANE_NONCE" (ChainNonce s) (SQLNonce s) "NONCE_PROJECTION_MISMATCH" "HIGH" r in
  let r := add "ACKNOWLEDGEMENT" (ExecutionResultCount s) (AcknowledgementCount s)
             "EXECUTION_ACK_MISMATCH" "HIGH" r in
  let r := if 0 <? ConflictingTerminalCount s
           then add "TERMINAL_EXCLUSION" 0 (ConflictingTerminalCount s)
                  "EXECUTION_TOMBSTONE_CONFLICT" "CRITICAL" r
           else r in
  let r := if ChainMessageCount s <? RecoveryRequestCount s
           then add "RECOVERY_REQUEST_COUNT" (ChainMessageCount s) (RecoveryRequestCount s)
                  "RECOVERY_REQUEST_COUNT_EXCEEDS_MESSAGES" "CRITICAL" r
           else r in
  let r := stage "RECOVERY_REQUEST_TOMBSTONE" (RecoveryRequestCount s) (TombstoneCount s)
             "RECOVERY_TOMBSTONE_GAP" "TOMBSTONE_WITHOUT_RECOVERY_REQUEST" r in
  let r := stage "RECOVERY_TOMBSTONE_COMPENSATION" (TombstoneCount s) (CompensationCount s)
             "RECOVERY_COMPENSATION_GAP" "COMPENSATION_WITHOUT_TOMBSTONE" r in
  stage "RECOVERY_COMPENSATION_COMPLETION" (CompensationCount s) (RecoveredCount s)
    "RECOVERY_COMPLETION_GAP" "RECOVERED_WITHOUT_COMPENSATION" r.

Definition Compare (snapshot : Snapshot) (owner : string) (deadline : Time.t) : result error Result :=
  if empty_s (RouteID snapshot) || empty_s (EvidenceHash snapshot) || Time.IsZero (AsOf snapshot) ||
     empty_s owner || negb (Time.After deadline (AsOf snapshot))
  then Err ErrInvalidInput
  else
    let? v := parse_values snapshot in
    Ok (compare_values snapshot v owner deadline).

(** * The control equations *)

(** A control: its dimension, whether it holds, and whether its violation is
    critical, stated on the totals. *)
Record control := mkControl { dimension : string; holds : bool; critical : bool }.

Definition controls (s : Snapshot) (v : Values) : list control :=
  [mkControl "BACKING" (escrow v =? wrapped v + pendingMint v + pendingBurn v) true;
   mkControl "HUB_ESCROW" (hubBalance v =? obligations v + surplus v) true;
   mkControl "COLLATERAL" (custody v =? positions v) true;
   mkControl "SETTLEMENT_VAULT" (vault v =? authorized v) true;
   mkControl "LOAN_DEBT" (canonicalDebt v =? ledgerDebt v) false;
   mkControl "LENDER_RELEASE" (canonicalRelease v =? ledgerRelease v) false;
   mkControl "BRIDGE_CONTROL" (journalControl v =? chainControl v) false;
   mkControl "ROUTE_EXPOSURE_CAP" (routeExposure v <=? routeCap v) true;
   mkControl "AGGREGATE_EXPOSURE_CAP" (aggregateExposure v <=? aggregateCap v) true;
   mkControl "MESSAGE_COUNT" (ChainMessageCount s =? SQLMessageCount s) false;
   mkControl "LANE_NONCE" (ChainNonce s =? SQLNonce s) false;
   mkControl "ACKNOWLEDGEMENT" (ExecutionResultCount s =? AcknowledgementCount s) false;
   mkControl "TERMINAL_EXCLUSION" (ConflictingTerminalCount s <=? 0) true;
   mkControl "RECOVERY_REQUEST_COUNT" (RecoveryRequestCount s <=? ChainMessageCount s) true;
   mkControl "RECOVERY_REQUEST_TOMBSTONE" (TombstoneCount s =? RecoveryRequestCount s)
     (RecoveryRequestCount s <? TombstoneCount s);
   mkControl "RECOVERY_TOMBSTONE_COMPENSATION" (CompensationCount s =? TombstoneCount s)
     (TombstoneCount s <? CompensationCount s);
   mkControl "RECOVERY_COMPENSATION_COMPLETION" (RecoveredCount s =? CompensationCount s)
     (CompensationCount s <? RecoveredCount s)].

(** The result that a list of controls calls for. *)
Record reports (cs : list control) (owner : string) (asOf deadline : Time.t) (r : Result) : Prop := {
  rep_dimensions : d_Dimension <$> Differences r = dimension <$> filter (λ c, holds c = false) cs;
  rep_pause : PauseRoute r = existsb (λ c, negb (holds c) && critical c) cs;
  rep_incident : OpenIncident r = PauseRoute r;
  rep_each : Forall (λ d, d_Owner d = owner ∧ d_DetectedAt d = asOf ∧ d_Deadline d = deadline ∧
    d_ExpectedUnits d ≠ d_ObservedUnits d) (Differences r) }.

Lemma reports_snoc cs owner asOf deadline r c r' :
  reports cs owner asOf deadline r →
  (if holds c then r' = r else
     ∃ d, r' = mkResult (Differences r ++ [d]) (critical c || PauseRoute r) (critical c || OpenIncident r) ∧
       d_Dimension d = dimension c ∧ d_Owner d = owner ∧ d_DetectedAt d = asOf ∧
       d_Deadline d = deadline ∧ d_ExpectedUnits d ≠ d_ObservedUnits d) →
  reports (cs ++ [c]) owner asOf deadline r'.
Proof.
  intros [D P O F]. destruct (holds c) eqn:Hh.
  - intros ->. split; try done.
    + rewrite filter_app, fmap_app, filter_cons_False by congruence. by rewrite app_nil_r.
    + rewrite existsb_app. simpl. by rewrite Hh, !orb_false_r.
  - intros (d & -> & Hd & Ho & Ha & Hl & Hne). split; simpl.
    + rewrite filter_app, !fmap_app, filter_cons_True by done. simpl. by rewrite D, Hd.
    + rewrite existsb_app, P. simpl. rewrite Hh. simpl. by rewrite orb_false_r, orb_comm.
    + by rewrite O.
    + apply Forall_app. split; [done|]. by apply Forall_singleton.
Qed.

Lemma reports_add cs owner asOf deadline r name expected observed reason severity (h crit : bool) :
  reports cs owner asOf deadline r → h = (expected =? observed) →
  crit = (severity =s "CRITICAL") || (severity =s "EXISTENTIAL") →
  reports (cs ++ [mkControl name h crit]) owner asOf deadline
    (add owner asOf deadline name expected observed reason severity r).
Proof.
  intros Hr -> ->. eapply reports_snoc; [done|]. unfold add. simpl.
  destruct (Z.eqb_spec expected observed) as [|Hne]; [done|]. eexists. split; [reflexivity|].
  split_and!; try done. simpl. intros E%Big.to_string_inj. done.
Qed.

(** A cap, which is compared only when it is exceeded. *)
Lemma reports_cap cs owner asOf deadline r name bound observed reason (h : bool) :
  reports cs owner asOf deadline r → h = (observed <=? bound) →
  reports (cs ++ [mkControl name h true]) owner asOf deadline
    (if bound <? observed then add owner asOf deadline name bound observed reason "CRITICAL" r else r).
Proof.
  intros Hr ->. destruct (Z.ltb_spec bound observed), (Z.leb_spec observed bound); try lia.
  - apply reports_add; [done| |done]. symmetry. apply Z.eqb_neq. lia.
  - by eapply reports_snoc.
Qed.

Lemma reports_stage cs owner asOf deadline r name parent child gap order :
  reports cs owner asOf deadline r →
  reports (cs ++ [mkControl name (child =? parent) (parent <? child)]) owner asOf deadline
    (addRecoveryStageDifference owner asOf deadline name parent child gap order r).
Proof.
  intros Hr. unfold addRecoveryStageDifference. apply reports_add; [done|apply Z.eqb_sym|].
  by destruct (parent <? child).
Qed.

(** Splits the last control off the goal's list. *)
Ltac peel :=
  lazymatch goal with
  | |- reports ?L ?o ?a ?d ?r =>
      let L' := eval cbn [removelast] in (removelast L) in
      let x := eval cbn [List.last] in (List.last L (mkControl "" true true)) in
      change (reports (L' ++ [x]) o a d r)
  end.

Lemma compare_values_reports s v owner deadline :
  reports (controls s v) owner (AsOf s) deadline (compare_values s v owner deadline).
Proof.
  unfold compare_values, controls. cbv zeta.
  do 3 (peel; apply reports_stage).
  do 2 (peel; apply reports_cap; [|reflexivity]).
  do 3 (peel; apply reports_add; [|reflexivity..]).
  do 2 (peel; apply reports_cap; [|reflexivity]).
  peel; apply reports_add; [|apply Z.eqb_sym|reflexivity].
  do 2 (peel; apply reports_add; [|reflexivity..]).
  do 4 (peel; apply reports_add; [|apply Z.eqb_sym|reflexivity]). by split.
Qed.

(** Reconciliation reports exactly the broken controls. When a comparison is
    accepted, its differences are, in order, exactly the control equations that do
    not hold on the parsed totals (backing, hub escrow, custody, vault, debt,
    release, bridge control, exposure caps, projections, acknowledgements, terminal
    exclusion and the recovery stages); the route is paused and an incident opened
    exactly when a critical one is broken, so a run without differences certifies
    all of them; each difference names the owner, the cut-off and the deadline and
    shows two different amounts. *)
Theorem compare_reports_controls (snapshot : Snapshot) (owner : string) (deadline : Time.t) (r : Result) :
  Compare snapshot owner deadline = Ok r →
  ∃ v, parse_values snapshot = Ok v ∧
    d_Dimension <$> Differences r = dimension <$> filter (λ c, holds c = false) (controls snapshot v) ∧
    (PauseRoute r = true ↔ ∃ c, c ∈ controls snapshot v ∧ holds c = false ∧ critical c = true) ∧
    OpenIncident r = PauseRoute r ∧
    (Differences r = [] ↔ Forall (λ c, holds c = true) (controls snapshot v)) ∧
    Forall (λ d, d_Owner d = owner ∧ d_DetectedAt d = AsOf snapshot ∧ d_Deadline d = deadline ∧
      d_ExpectedUnits d ≠ d_ObservedUnits d) (Differences r).
Proof.
  unfold Compare. destruct (_ || _); [done|]. destruct (parse_values snapshot) as [v|]; [|done].
  intros [= <-]. exists v. destruct (compare_values_reports snapshot v owner deadline) as [D P O F].
  split_and!; try done.
  - rewrite P, existsb_exists. setoid_rewrite <- list_elem_of_In. setoid_rewrite andb_true_iff.
    by setoid_rewrite negb_true_iff.
  - rewrite Forall_forall. split.
    + intros E c Hc. rewrite E in D. destruct (holds c) eqn:Hh; [done|]. exfalso.
      assert (c ∈ filter (λ c, holds c = false) (controls snapshot v)) as Hin by (by apply list_elem_of_filter).
      destruct (filter _ _); [by apply elem_of_nil in Hin|done].
    + intros Hall. apply (fmap_nil_inv d_Dimension). rewrite D.
      destruct (filter _ (controls snapshot v)) as [|c l] eqn:E; [done|]. exfalso.
      assert (c ∈ filter (λ c, holds c = false) (controls snapshot v)) as [Hf Hin]%list_elem_of_filter
        by (rewrite E; left). rewrite Hall in Hf by done. done.
Qed.

Module Sample.
Definition balanced (escrow : string) : Snapshot :=
  mkSnapshot "r" escrow "60" "30" "10" "120" "100" "20" "1" "5" "1" "5" "7" "7" "8" "8" "9" "9" "3" "3"
    "4" "4" 2 2 5 5 1 1 1 1 1 1 0 "ev" (Time.mk 10 "").
Definition r : Result := mkResult
  [mkDifference "BACKING" "100" "99" "BACKING_EQUATION_MISMATCH" "CRITICAL" "ops" (Time.mk 10 "")
     (Time.mk 20 "")] true true.

Lemma compare_reports_controls_witness :
  ∃ v c, parse_values (balanced "99") = Ok v ∧ c ∈ controls (balanced "99") v ∧ holds c = false.
Proof.
  destruct (compare_reports_controls (balanced "99") "ops" (Time.mk 20 "") r eq_refl)
    as (v & Hv & _ & Hp & _). destruct (proj1 Hp eq_refl) as (c & Hin & Hf & _).
  exists v, c. split; [exact Hv|split; [exact Hin|exact Hf]].
Defined.
End Sample.
End Controls.

Module Boundaries.

(** * Data *)

Record Expected := mkExpected {
  x_AssetID : string;
  x_AccountCode : string;
  x_DebitUnits : string;
  x_CreditUnits : string;
  x_MessageCount : Z;
  x_AsOf : Time.t }.

Record Difference := mkDifference {
  d_AssetID : string;
  d_AccountCode : string;
  d_Side : string;
  d_Metric : string;
  d_Expected : string;
  d_Observed : string;
  d_Owner : string;
  d_DetectedAt : Time.t;
  d_Deadline : Time.t }.

Inductive error :=
| ErrInvalidBoundary | ErrDuplicateBoundary | ErrUnits | ErrUnknownSide | ErrNoSourceEvent.

(** * Operations *)

Definition units (value : string) : result error Z :=
  match Big.set_string value with
  | None => Err ErrUnits
  | Some number =>
      if (number <? 0) || (Big.to_string number <>s value) then Err ErrUnits else Ok number
  end.

(** The running totals of [compareBoundary]. *)
Record Totals := mkTotals { observedDebit : Z; observedCredit : Z; messageIDs : gset string }.

(** The loop over the entries of a posting; the boolean is [matched]. *)
Fixpoint entry_loop (expected : Expected) (entries : list Entry) (debit credit : Z) (matched : bool)
    : result error (Z * Z * bool) :=
  match entries with
  | [] => Ok (debit, credit, matched)
  | entry :: rest =>
      if (e_AssetID entry <>s x_AssetID expected) || (e_AccountCode entry <>s x_AccountCode expected)
      then entry_loop expected rest debit credit matched
      else
        let? value := units (e_Units entry) in
        if e_Side entry =s Debit then entry_loop expected rest (debit + value) credit true
        else if e_Side entry =s Credit then entry_loop expected rest debit (credit + value) true
        else Err ErrUnknownSide
  end.

(** The loop over the postings. *)
Fixpoint posting_loop (expected : Expected) (postings : list PostedJournal) (t : Totals)
    : result error Totals :=
  match postings with
  | [] => Ok t
  | posting :: rest =>
      if Time.After (j_EffectiveAt (p_Journal posting)) (x_AsOf expected)
      then posting_loop expected rest t
      else
        let? (debit, credit, matched) :=
          entry_loop expected (j_Entries (p_Journal posting)) (observedDebit t) (observedCredit t) false in
        if matched then
          if empty_s (j_SourceEventID (p_Journal posting)) then Err ErrNoSourceEvent
          else posting_loop expected rest
                 (mkTotals debit credit ({[j_SourceEventID (p_Journal posting)]} ∪ messageIDs t))
        else posting_loop expected rest (mkTotals debit credit (messageIDs t))
  end.

(** The closure [add]. *)
Definition add (expected : Expected) (owner : string) (deadline : Time.t)
    (metric side wanted observed : string) (ds : list Difference) : list Difference :=
  if wanted =s observed then ds
  else ds ++ [mkDifference (x_AssetID expected) (x_AccountCode expected) side metric wanted observed
                owner (x_AsOf expected) deadline].

Definition compareBoundary (postings : list PostedJournal) (expected : Expected) (owner : string)
    (deadline : Time.t) : result error (list Difference) :=
  let? expectedDebit := units (x_DebitUnits expected) in
  let? expectedCredit := units (x_CreditUnits expected) in
  let? t := posting_loop expected postings (mkTotals 0 0 ∅) in
  let add := add expected owner deadline in
  let ds := add "DEBIT_UNITS" Debit (Big.to_string expectedDebit) (Big.to_string (observedDebit t)) [] in
  let ds := add "CREDIT_UNITS" Credit (Big.to_string expectedCredit) (Big.to_string (observedCredit t)) ds in
  Ok (add "MESSAGE_COUNT" "" (Big.to_string (x_MessageCount expected))
        (Big.to_string (Z.of_nat (size (messageIDs t)))) ds).

Fixpoint boundary_loop (postings : list PostedJournal) (expected : list Expected) (owner : string)
    (deadline : Time.t) (seenBoundaries : gset string) (differences : list Difference)
    : result error (list Difference) :=
  match expected with
  | [] => Ok differences
  | boundary :: rest =>
      if empty_s (x_AssetID boundary) || empty_s (x_AccountCode boundary) ||
         Time.IsZero (x_AsOf boundary) || negb (Time.After deadline (x_AsOf boundary))
      then Err ErrInvalidBoundary
      else
        let key := x_AssetID boundary +:+ nul +:+ x_AccountCode boundary in
        if bool_decide (key ∈ seenBoundaries) then Err ErrDuplicateBoundary
        else
          let? boundaryDifferences := compareBoundary postings boundary owner deadline in
          boundary_loop postings rest owner deadline ({[key]} ∪ seenBoundaries)
            (differences ++ boundaryDifferences)
  end.

Definition CompareMany (postings : list PostedJournal) (expected : list Expected) (owner : string)
    (deadline : Time.t) : result error (list Difference) :=
  if (length expected =? 0)%nat || empty_s owner then Err ErrInvalidBoundary
  else boundary_loop postings expected owner deadline ∅ [].

Definition Compare (postings : list PostedJournal) (expected : Expected) (owner : string)
    (deadline : Time.t) : result error (list Difference) :=
  CompareMany postings [expected] owner deadline.

(** * What the postings say about a boundary *)

Definition hits (x : Expected) (e : Entry) : bool :=
  (e_AssetID e =s x_AssetID x) && (e_AccountCode e =s x_AccountCode x).
Definition matches (x : Expected) (p : PostedJournal) : bool := existsb (hits x) (j_Entries (p_Journal p)).
Definition in_time (x : Expected) (p : PostedJournal) : Prop :=
  Time.After (j_EffectiveAt (p_Journal p)) (x_AsOf x) = false.
#[export] Instance in_time_dec x p : Decision (in_time x p).
Proof. unfold in_time. apply _. Defined.

(** Units booked on one side of the boundary up to the cut-off. *)
Definition booked (x : Expected) (side : string) (ps : list PostedJournal) : Z :=
  Zsum (λ p, Zsum (λ e, if hits x e && (e_Side e =s side) then entry_units e else 0)
               (j_Entries (p_Journal p))) (filter (in_time x) ps).

(** The distinct source events that touched the boundary up to the cut-off. *)
Definition source_events (x : Expected) (ps : list PostedJournal) : gset string :=
  list_to_set ((λ p, j_SourceEventID (p_Journal p)) <$> filter (λ p, in_time x p ∧ matches x p = true) ps).

(** A boundary agrees with the postings. *)
Record agrees (ps : list PostedJournal) (x : Expected) : Prop := {
  agree_debit : x_DebitUnits x = Big.to_string (booked x Debit ps);
  agree_credit : x_CreditUnits x = Big.to_string (booked x Credit ps);
  agree_count : x_MessageCount x = Z.of_nat (size (source_events x ps)) }.

Lemma units_Ok value n : units value = Ok n → Big.set_string value = Some n ∧ value = Big.to_string n.
Proof.
  unfold units. destruct (Big.set_string value) as [m|]; [|done]. destruct (_ || _) eqn:Hg; [done|].
  intros [= <-]. by bool_facts.
Qed.

Lemma entry_loop_Ok x es : ∀ d c m d' c' m',
  entry_loop x es d c m = Ok (d', c', m') →
  d' = d + Zsum (λ e, if hits x e && (e_Side e =s Debit) then entry_units e else 0) es ∧
  c' = c + Zsum (λ e, if hits x e && (e_Side e =s Credit) then entry_units e else 0) es ∧
  m' = m || existsb (hits x) es.
Proof.
  induction es as [|e es IH]; intros d c m d' c' m'; simpl.
  { intros [= <- <- <-]. rewrite orb_false_r. split_and!; [unfold Zsum; simpl; lia..|done]. }
  unfold hits at 1 3 5. destruct (e_AssetID e =s x_AssetID x) eqn:Ha, (e_AccountCode e =s x_AccountCode x) eqn:Hc;
    simpl; try (intros Hl; apply IH in Hl as (-> & -> & ->); by rewrite ?Z.add_0_l).
  destruct (units (e_Units e)) as [n|] eqn:Hu; [|done]. apply units_Ok in Hu as [Hn _].
  assert (entry_units e = n) as -> by (unfold entry_units; by rewrite Hn).
  destruct (e_Side e =s Debit) eqn:Hd.
  - intros Hl. apply IH in Hl as (-> & -> & ->). apply String.eqb_eq in Hd. rewrite Hd. simpl.
    split_and!; [unfold Zsum; lia|unfold Zsum; lia|by rewrite orb_true_r].
  - destruct (e_Side e =s Credit); [|done]. intros Hl. apply IH in Hl as (-> & -> & ->).
    split_and!; [unfold Zsum; lia|unfold Zsum; lia|by rewrite orb_true_r].
Qed.

Lemma posting_loop_Ok x ps : ∀ t t',
  posting_loop x ps t = Ok t' →
  observedDebit t' = observedDebit t + booked x Debit ps ∧
  observedCredit t' = observedCredit t + booked x Credit ps ∧
  messageIDs t' = source_events x ps ∪ messageIDs t.
Proof.
  unfold booked, source_events.
  induction ps as [|p ps IH]; intros t t'; simpl.
  { intros [= <-]. split_and!; [lia..|]. set_solver. }
  destruct (Time.After _ _) eqn:Ha.
  { intros Hl. rewrite !filter_cons_False by (unfold in_time; rewrite Ha; intuition congruence). by apply IH. }
  rewrite !(filter_cons_True (in_time x)) by done. rewrite !Zsum_cons.
  destruct (entry_loop _ _ _ _ _) as [[[d c] m]|] eqn:He; [|done].
  apply entry_loop_Ok in He as (-> & -> & ->). simpl.
  fold (matches x p). destruct (matches x p) eqn:Hm.
  - destruct (empty_s _); [done|]. intros Hl. apply IH in Hl as (-> & -> & ->). simpl.
    rewrite filter_cons_True by done. split_and!; [lia..|]. rewrite fmap_cons. simpl. set_solver.
  - intros Hl. apply IH in Hl as (-> & -> & ->). simpl.
    rewrite filter_cons_False by intuition congruence. split_and!; [lia..|done].
Qed.

Lemma add_nil x owner deadline metric side wanted observed ds :
  add x owner deadline metric side wanted observed ds = [] ↔ ds = [] ∧ wanted = observed.
Proof.
  unfold add. destruct (String.eqb_spec wanted observed) as [|Hne]; [naive_solver|].
  split; [intros E; by apply app_eq_nil in E as [_ ?]|naive_solver].
Qed.

Lemma compareBoundary_Ok ps x owner deadline ds :
  compareBoundary ps x owner deadline = Ok ds → (ds = [] ↔ agrees ps x).
Proof.
  unfold compareBoundary. destruct (units (x_DebitUnits x)) as [d|] eqn:Hd; [|done].
  destruct (units (x_CreditUnits x)) as [c|] eqn:Hc; [|done].
  destruct (posting_loop _ _ _) as [t|] eqn:Ht; [|done]. intros [= <-].
  apply units_Ok in Hd as [_ Hd]. apply units_Ok in Hc as [_ Hc].
  apply posting_loop_Ok in Ht as (Td & Tc & Tm). simpl in Td, Tc, Tm.
  assert (messageIDs t = source_events x ps) as Tm' by set_solver.
  rewrite !add_nil, Td, Tc, Tm', !Z.add_0_l. split.
  - intros [[[_ E1] E2] E3%Big.to_string_inj]. split; congruence.
  - intros [E1 E2 E3]. rewrite <- E3. split_and!; congruence.
Qed.

Lemma boundary_loop_Ok ps owner deadline xs : ∀ seen acc ds,
  boundary_loop ps xs owner deadline seen acc = Ok ds →
  ds = [] ↔ acc = [] ∧ Forall (agrees ps) xs.
Proof.
  induction xs as [|x xs IH]; intros seen acc ds; simpl.
  { intros [= <-]. rewrite Forall_nil. naive_solver. }
  destruct (_ || _); [done|]. destruct (bool_decide _); [done|].
  destruct (compareBoundary ps x owner deadline) as [ds1|] eqn:Hb; [|done]. intros Hl.
  apply compareBoundary_Ok in Hb. rewrite (IH _ _ _ Hl), Forall_cons.
  assert (acc ++ ds1 = [] ↔ acc = [] ∧ ds1 = []) as -> by (split; [apply app_eq_nil|by intros [-> ->]]).
  naive_solver.
Qed.

(** The order in which the ledger lists its journals does not matter. *)
Lemma agrees_perm ps ps' x : ps ≡ₚ ps' → agrees ps x ↔ agrees ps' x.
Proof.
  intros Hp. assert (∀ side, booked x side ps = booked x side ps') as Hb.
  { intros side. unfold booked. apply Zsum_perm. by rewrite Hp. }
  assert (source_events x ps = source_events x ps') as Hs.
  { unfold source_events. apply leibniz_equiv. by rewrite Hp. }
  split; intros [E1 E2 E3]; split; rewrite ?Hb, ?Hs in *; congruence.
Qed.

Lemma filter_all {A} (P : A → Prop) `{!∀ x, Decision (P x)} l : Forall P l → filter P l = l.
Proof. induction 1; [done|]. rewrite filter_cons_True by done. by f_equal. Qed.

(** Debits less credits of a boundary are the account's balance. *)
Lemma booked_balance x bk :
  (∀ id p, byID bk !! id = Some p → in_time x p) →
  booked x Debit (List_ bk) - booked x Credit (List_ bk) =
  account_balance (x_AccountCode x) (x_AssetID x) bk.
Proof.
  intros Hall. unfold booked, account_balance, Msum, List_.
  rewrite (filter_all (in_time x)); cycle 1.
  { apply Forall_forall. intros p (kv & -> & Hkv)%list_elem_of_fmap. destruct kv as [id p].
    apply elem_of_map_to_list in Hkv. by apply (Hall id). }
  rewrite !Zsum_fmap, <- Zsum_sub. apply Zsum_ext. intros [id p] _. simpl. unfold account_delta.
  rewrite <- Zsum_sub. apply Zsum_ext. intros e _. unfold hits, signed_units.
  destruct (e_AccountCode e =s x_AccountCode x), (e_AssetID e =s x_AssetID x); simpl; try lia.
  destruct (e_Side e =s Debit) eqn:Hd; [apply String.eqb_eq in Hd; rewrite Hd; simpl; lia|].
  destruct (e_Side e =s Credit); lia.
Qed.

(** The boundary comparison is exact. Over the journals of a book, in whatever
    order the ledger lists them, an accepted comparison finds no difference exactly
    when every boundary states the debits, the credits and the number of distinct
    source events that the journals effective by its cut-off have; and when the
    cut-off is past every journal, debits less credits are the account's ledger
    balance. *)
Theorem boundaries_exact (bk : Ledger) (ps : list PostedJournal) (expected : list Expected)
    (owner : string) (deadline : Time.t) (ds : list Difference) :
  ps ≡ₚ List_ bk → CompareMany ps expected owner deadline = Ok ds →
  (ds = [] ↔ Forall (agrees (List_ bk)) expected) ∧
  (∀ x, x ∈ expected → (∀ id p, byID bk !! id = Some p → in_time x p) →
     booked x Debit ps - booked x Credit ps = account_balance (x_AccountCode x) (x_AssetID x) bk).
Proof.
  intros Hp Hc. unfold CompareMany in Hc. destruct (_ || _); [done|]. apply boundary_loop_Ok in Hc. split.
  - rewrite Hc. rewrite !Forall_forall. setoid_rewrite (agrees_perm _ _ _ Hp). naive_solver.
  - intros x _ Hall. rewrite <- (booked_balance x bk Hall). unfold booked.
    assert (filter (in_time x) ps ≡ₚ filter (in_time x) (List_ bk)) as Hf by (by rewrite Hp).
    by rewrite !(Zsum_perm _ _ _ Hf).
Qed.

Module Sample.
Definition posted (id event : string) : PostedJournal :=
  mkPosted (mkJournal id "e" "b" "s" "t" event "" id "c" (Time.mk 5 "")
    [mkEntry "1410" Debit "UFT" "50" "" "" ""; mkEntry "2230" Credit "UFT" "50" "" "" ""] "h" "" "")
    "h" (Time.mk 6 "").
Definition bk : Ledger := mkLedger {["j1" := posted "j1" "m1"; "j2" := posted "j2" "m1"]} ∅ ∅.
Definition expected : Expected := mkExpected "UFT" "1410" "100" "0" 1 (Time.mk 9 "").

Lemma boundaries_exact_witness :
  Forall (agrees (List_ bk)) [expected].
Proof.
  apply (boundaries_exact bk (List_ bk) [expected] "ops" (Time.mk 20 "") []); vm_compute; reflexivity.
Defined.
End Sample.
End Boundaries.
