(* ===== verification/Provider.v ===== *)
(** Multi-provider delivery ([cross-chain-coordinator/provider/provider.go]): a
    router that hands the same bytes to the approved providers of a route in a
    frozen order, fails over on transport outages only, and keeps an attempt log.

    [Deliver] holds the router's lock while it checks and stores the payload and
    while it appends an attempt, and releases it around each submission: those are
    the atomic steps [persist] and [appendAttempt], of which [Deliver] is the
    composition. *)
From S2P Require Import Prelude GoStd CrossChainTypes.

(** * Data *)

(** What the router observes of a transport error: [IsRetryable], whether it is an
    identity conflict, and its text. *)
Record transport_error := mkTransportError {
  IsRetryable : bool;
  is_identity_conflict : bool;
  error_text : string }.

Record Delivery := mkDelivery {
  d_MessageID : string;
  d_RoutePolicy : string;
  d_Envelope : string;
  d_EnvelopeHash : string;
  d_SourceProof : string;
  d_ProofHash : string;
  d_AttemptedAt : Time.t }.

Record Receipt := mkReceipt { ProviderID : string; receipt : string }.

(** [Transport]: an identity and a submission that acts on a world. *)
Record Transport (W : Type) := mkTransport {
  ID : string;
  Submit : Delivery → W → W * result transport_error Receipt }.
Arguments mkTransport {W} _ _. Arguments ID {W} _. Arguments Submit {W} _ _ _.

Record Attempt := mkAttempt {
  a_MessageID : string;
  a_ProviderID : string;
  a_Number : Z;
  a_Success : bool;
  a_Receipt : string;
  a_AttemptedAt : Time.t;
  a_Error : string }.

Record Router (W : Type) := mkRouter {
  approved : gmap string (list (Transport W));
  payloads : gmap string Delivery;
  attempts : gmap string (list Attempt) }.
Arguments mkRouter {W} _ _ _. Arguments approved {W} _. Arguments payloads {W} _.
Arguments attempts {W} _.

Inductive error :=
| ErrRouteRequiresProvider | ErrProviderIdentity | ErrDuplicateProvider
| ErrDeliveryIncomplete | ErrNoProvider | ErrIdentityConflict
| ErrTransport (provider : string) (cause : transport_error).

Definition ErrIdentityConflict_text : string := "immutable delivery identity conflict".
Definition zero32 : string := be_bytes 32 0.

Section Router.
Context `{Keccak} {W : Type}.

Definition NewRouter : Router W := mkRouter ∅ ∅ ∅.

Definition sameProviders (left right : list (Transport W)) : bool :=
  bool_decide (length left = length right) &&
  forallb (λ lr, ID lr.1 =s ID lr.2) (zip left right).

(** The loop that checks the identities. *)
Fixpoint check_providers (seen : gset string) (providers : list (Transport W)) : result error () :=
  match providers with
  | [] => Ok ()
  | candidate :: rest =>
      if empty_s (ID candidate) then Err ErrProviderIdentity
      else if bool_decide (ID candidate ∈ seen) then Err ErrDuplicateProvider
      else check_providers ({[ID candidate]} ∪ seen) rest
  end.

Definition RegisterRoute (routePolicy : string) (providers : list (Transport W)) (router : Router W)
    : Router W * result error () :=
  if (routePolicy =s zero32) || (length providers =? 0)%nat
  then (router, Err ErrRouteRequiresProvider)
  else match check_providers ∅ providers with
  | Err e => (router, Err e)
  | Ok _ =>
      match approved router !! routePolicy with
      | Some existing =>
          (router, if sameProviders existing providers then Ok () else Err ErrIdentityConflict)
      | None =>
          (mkRouter (<[routePolicy := providers]> (approved router)) (payloads router)
             (attempts router), Ok ())
      end
  end.

Definition contentHash (value : string) : string := keccak value.

Definition sameDelivery (left right : Delivery) : bool :=
  (d_MessageID left =s d_MessageID right) && (d_RoutePolicy left =s d_RoutePolicy right) &&
  (d_EnvelopeHash left =s d_EnvelopeHash right) && (d_ProofHash left =s d_ProofHash right) &&
  (d_Envelope left =s d_Envelope right) && (d_SourceProof left =s d_SourceProof right).

(** The checks of [Deliver] and its first critical section: the providers to try. *)
Definition persist (delivery : Delivery) (router : Router W)
    : Router W * result error (list (Transport W)) :=
  if (d_MessageID delivery =s zero32) || (d_RoutePolicy delivery =s zero32) ||
     (d_EnvelopeHash delivery =s zero32) || (d_ProofHash delivery =s zero32) ||
     empty_s (d_Envelope delivery) || empty_s (d_SourceProof delivery) ||
     Time.IsZero (d_AttemptedAt delivery)
  then (router, Err ErrDeliveryIncomplete)
  else if (contentHash (d_Envelope delivery) <>s d_EnvelopeHash delivery) ||
          (contentHash (d_SourceProof delivery) <>s d_ProofHash delivery)
  then (router, Err ErrIdentityConflict)
  else
    let providers := lookup_zero [] (approved router) (d_RoutePolicy delivery) in
    if (length providers =? 0)%nat then (router, Err ErrNoProvider)
    else match payloads router !! d_MessageID delivery with
    | Some persisted =>
        if sameDelivery persisted delivery then (router, Ok providers)
        else (router, Err ErrIdentityConflict)
    | None =>
        (mkRouter (approved router) (<[d_MessageID delivery := delivery]> (payloads router))
           (attempts router), Ok providers)
    end.

Definition appendAttempt (messageID : string) (attempt : Attempt) (router : Router W) : Router W :=
  let old := lookup_zero [] (attempts router) messageID in
  let attempt := mkAttempt (a_MessageID attempt) (a_ProviderID attempt)
    (u32 (Z.of_nat (length old) + 1)) (a_Success attempt) (a_Receipt attempt)
    (a_AttemptedAt attempt) (a_Error attempt) in
  mkRouter (approved router) (payloads router)
    (<[messageID := old ++ [attempt]]> (attempts router)).

(** The attempt record and the verdict for one submission: [Ok] to return the
    receipt, [Err] with the error and whether the next provider is tried. *)
Definition judge (delivery : Delivery) (transport : Transport W)
    (outcome : result transport_error Receipt) : Attempt * result (error * bool) Receipt :=
  let attempt := mkAttempt (d_MessageID delivery) (ID transport) 0 in
  match outcome with
  | Err err =>
      (attempt false "" (d_AttemptedAt delivery) (error_text err),
       Err (ErrTransport (ID transport) err, negb (is_identity_conflict err) && IsRetryable err))
  | Ok r =>
      if (ProviderID r <>s ID transport) || empty_s (receipt r)
      then (attempt false "" (d_AttemptedAt delivery) ErrIdentityConflict_text,
            Err (ErrIdentityConflict, false))
      else (attempt true (receipt r) (d_AttemptedAt delivery) "", Ok r)
  end.

(** The loop over the providers. *)
Fixpoint deliver_loop (delivery : Delivery) (providers : list (Transport W)) (router : Router W)
    (w : W) : Router W * W * result error Receipt :=
  match providers with
  | [] => (router, w, Err ErrNoProvider)
  | transport :: rest =>
      let '(w, outcome) := Submit transport delivery w in
      let '(attempt, verdict) := judge delivery transport outcome in
      let router := appendAttempt (d_MessageID delivery) attempt router in
      match verdict with
      | Ok r => (router, w, Ok r)
      | Err (err, retry) => if retry then deliver_loop delivery rest router w else (router, w, Err err)
      end
  end.

Definition Deliver (delivery : Delivery) (router : Router W) (w : W)
    : Router W * W * result error Receipt :=
  match persist delivery router with
  | (router, Err e) => (router, w, Err e)
  | (router, Ok providers) => deliver_loop delivery providers router w
  end.

Definition Attempts (messageID : string) (router : Router W) : list Attempt :=
  lookup_zero [] (attempts router) messageID.

(** * Steps

    The atomic sections of any number of concurrent calls. *)
Inductive step (r : Router W) : Router W → Prop :=
| step_register policy providers : step r (RegisterRoute policy providers r).1
| step_persist d : step r (persist d r).1
| step_attempt id a : step r (appendAttempt id a r).

(** [r'] only adds to [r]. *)
Record grows (r r' : Router W) : Prop := {
  grow_approved : approved r ⊆ approved r';
  grow_payloads : payloads r ⊆ payloads r';
  grow_attempts : ∀ id, Attempts id r `prefix_of` Attempts id r' }.

#[export] Instance grows_preorder : PreOrder grows.
Proof.
  split; [intros r; split; [reflexivity|reflexivity|intros id; reflexivity]|].
  intros a b c [A1 P1 T1] [A2 P2 T2]. split.
  - by transitivity (approved b).
  - by transitivity (payloads b).
  - intros id. by transitivity (Attempts id b).
Qed.

Lemma step_grows r r' : step r r' → grows r r'.
Proof.
  intros [policy providers|d|id a].
  - unfold RegisterRoute. destruct (_ || _); [reflexivity|]. destruct (check_providers _ _); [|reflexivity].
    destruct (approved r !! policy) eqn:Hp; [reflexivity|].
    split; simpl; [by apply insert_subseteq|reflexivity|intros; reflexivity].
  - unfold persist. destruct (_ || _); [reflexivity|]. destruct (_ || _); [reflexivity|].
    destruct (_ =? _)%nat; [reflexivity|].
    destruct (payloads r !! _) eqn:Hp; [destruct (sameDelivery _ _); reflexivity|].
    split; simpl; [reflexivity|by apply insert_subseteq|intros; reflexivity].
  - split; [reflexivity..|]. intros id'. unfold Attempts, appendAttempt, lookup_zero. simpl.
    rewrite lookup_insert. case_decide as E; [|reflexivity]. subst id'. simpl. by apply prefix_app_r.
Qed.

Lemma steps_grow r r' : rtc step r r' → grows r r'.
Proof. induction 1; [reflexivity|]. etransitivity; [by apply step_grows|done]. Qed.

(** The attempts of every message are numbered from one. *)
Definition numbered (r : Router W) : Prop :=
  ∀ id, a_Number <$> Attempts id r = (λ n, u32 (Z.of_nat n)) <$> seq 1 (length (Attempts id r)).

Lemma step_numbered r r' : step r r' → numbered r → numbered r'.
Proof.
  intros Hs Hn id. destruct Hs as [policy providers|d|id' a].
  - unfold RegisterRoute. destruct (_ || _); [apply Hn|]. destruct (check_providers _ _); [|apply Hn].
    destruct (approved r !! policy); apply Hn.
  - unfold persist. destruct (_ || _); [apply Hn|]. destruct (_ || _); [apply Hn|].
    destruct (_ =? _)%nat; [apply Hn|]. destruct (payloads r !! _); [destruct (sameDelivery _ _)|]; apply Hn.
  - unfold Attempts, appendAttempt, lookup_zero. simpl. rewrite lookup_insert. case_decide as E; [|apply Hn].
    subst id'. specialize (Hn id). unfold Attempts, lookup_zero in Hn. simpl.
    rewrite fmap_app, length_app, Nat.add_1_r, seq_S, fmap_app, Hn. simpl. do 3 f_equal. lia.
Qed.

Lemma steps_numbered r : rtc step NewRouter r → numbered r.
Proof.
  intros Hr. assert (∀ a b, rtc step a b → numbered a → numbered b) as Hall.
  { induction 1; [done|]. eauto using step_numbered. }
  apply (Hall _ _ Hr). intros id. unfold Attempts, lookup_zero. simpl. by rewrite lookup_empty.
Qed.
End Router.

(** * Deliveries

    [watched] records every submission with its exact argument. *)

Section Deliveries.
Context `{Keccak} {W : Type}.

Definition submission : Type := string * Delivery.

Definition watched (t : Transport W) : Transport (W * list submission) :=
  mkTransport (ID t) (λ d wl,
    let '(w', r) := Submit t d wl.1 in ((w', wl.2 ++ [(ID t, d)]), r)).

(** What a run of the loop over [ts] did: it tried the first [n] providers. *)
Record tried (d : Delivery) (ts : list (Transport W)) (log log' : list submission)
    (old new : list Attempt) (r : result error Receipt) (n : nat) : Prop := {
  tried_bound : (n <= length ts)%nat;
  tried_log : log' = log ++ ((λ t, (ID t, d)) <$> take n ts);
  tried_attempts : ∃ atts, new = old ++ atts ∧ a_ProviderID <$> atts = ID <$> take n ts ∧
    a_Success <$> atts = match r with
                         | Ok _ => replicate (n - 1) false ++ [true]
                         | Err _ => replicate n false
                         end;
  tried_result : match r with
    | Ok rc => ∃ t, last (take n ts) = Some t ∧ ProviderID rc = ID t ∧ receipt rc ≠ ""
    | Err ErrNoProvider => n = length ts
    | Err (ErrTransport p cause) => is_identity_conflict cause = true ∨ IsRetryable cause = false
    | Err e => e = ErrIdentityConflict
    end }.

Lemma Attempts_append id a (rt : Router (W * list submission)) :
  ∃ a', Attempts id (appendAttempt id a rt) = Attempts id rt ++ [a'] ∧
    a_ProviderID a' = a_ProviderID a ∧ a_Success a' = a_Success a.
Proof.
  unfold Attempts, appendAttempt. simpl. unfold lookup_zero at 1. rewrite lookup_insert_eq. by eexists.
Qed.

Lemma deliver_loop_tried d ts : ∀ rt w log rt' w' log' r,
  deliver_loop d (watched <$> ts) rt (w, log) = (rt', (w', log'), r) →
  ∃ n, tried d ts log log' (Attempts (d_MessageID d) rt) (Attempts (d_MessageID d) rt') r n ∧
    payloads rt' = payloads rt ∧ approved rt' = approved rt.
Proof.
  induction ts as [|t ts IH]; intros rt w log rt' w' log' r.
  { simpl. intros [= <- <- <- <-]. exists 0%nat. split; [|done]. split; simpl; try done.
    - by rewrite app_nil_r.
    - exists []. by rewrite app_nil_r. }
  rewrite fmap_cons. cbn [deliver_loop watched Submit]. simpl fst.
  destruct (Submit t d w) as [w1 outcome]. destruct (judge d _ outcome) as [a v] eqn:Hj.
  destruct (Attempts_append (d_MessageID d) a rt) as (a' & Ha' & Hp & Hs).
  assert (a_ProviderID a = ID t ∧ match v with
    | Ok rc => a_Success a = true ∧ ProviderID rc = ID t ∧ receipt rc ≠ ""
    | Err (e, retry) => a_Success a = false ∧
        (retry = false → e = ErrIdentityConflict ∨ ∃ p c, e = ErrTransport p c ∧
           (is_identity_conflict c = true ∨ IsRetryable c = false))
    end) as [Hap Hv].
  { unfold judge in Hj. destruct outcome as [rc|err].
    - destruct (_ || _) eqn:Hg; injection Hj as <- <-; simpl; (split; [done|]).
      + split; [done|]. intros _. by left.
      + by bool_facts.
    - injection Hj as <- <-. simpl. split_and!; try done. intros Hr. right. eexists _, _. split; [done|].
      apply andb_false_iff in Hr as [Hr|Hr]; bool_facts; auto. }
  destruct v as [rc|[e [|]]].
  - intros [= <- <- <- <-]. exists 1%nat. split; [|done]. destruct Hv as (Hsucc & Hid & Hne). split; simpl.
    + lia.
    + done.
    + exists [a']. rewrite Ha'. split_and!; [done|by rewrite fmap_cons, Hp, Hap|by rewrite fmap_cons, Hs, Hsucc].
    + by exists t.
  - intros Hl. destruct (IH _ _ _ _ _ _ _ Hl) as (n & [B L (atts & Ea & Ep & Es) R] & Hpl & Hap').
    exists (S n). split; [|done]. destruct Hv as [Hsucc _]. split.
    + simpl. lia.
    + rewrite L. simpl. by rewrite <- app_assoc.
    + exists (a' :: atts). rewrite Ea, Ha', <- app_assoc. split_and!; [done|by rewrite fmap_cons, Hp, Hap, Ep|].
      rewrite fmap_cons, Hs, Hsucc, Es. destruct r; [|done].
      destruct n as [|n]; [|simpl; by rewrite Nat.sub_0_r]. destruct R as (t' & Hlast & _). done.
    + destruct r as [rc|[]]; try done; simpl; [|by rewrite R]. destruct R as (t' & Hlast & ? & ?).
      exists t'. split; [|done]. destruct (take n ts); [done|]. done.
  - intros [= <- <- <- <-]. exists 1%nat. split; [|done]. destruct Hv as [Hsucc Hv]. split; simpl.
    + lia.
    + done.
    + exists [a']. rewrite Ha'. split_and!; [done|by rewrite fmap_cons, Hp, Hap|by rewrite fmap_cons, Hs, Hsucc].
    + by destruct (Hv eq_refl) as [->|(p & c & -> & ?)].
Qed.

(** A delivery hands out exactly its bytes, in order, and fails over safely.
    Under any interleaving of registrations and deliveries, approved provider
    lists, stored payloads and attempt logs only grow, and attempts are numbered
    from one. A delivery that is refused submits nothing. Otherwise a payload with
    the same identity and bytes is stored for the message first; then the first
    [n] approved providers, in their registered order, are each given exactly this
    delivery and nothing else, one attempt per submission is appended to the log,
    only the last may be successful, and a receipt that is returned comes from the
    last provider and carries its identity. It stops before the end only for
    success or an error that is not a retryable transport error, and reports that
    no provider accepted only after all were tried. *)
Theorem delivery_exact (rt : Router (W * list submission)) (d : Delivery) (ts : list (Transport W))
    w log rt' w' log' r :
  rtc step NewRouter rt →
  lookup_zero [] (approved rt) (d_RoutePolicy d) = watched <$> ts →
  Deliver d rt (w, log) = (rt', (w', log'), r) →
  numbered rt ∧ (∀ rt2, rtc step rt rt2 → grows rt rt2) ∧
  ((rt' = rt ∧ log' = log ∧ is_ok r = false) ∨
   (∃ stored, payloads rt' !! d_MessageID d = Some stored ∧ sameDelivery stored d = true ∧
      keccak (d_Envelope d) = d_EnvelopeHash d ∧ keccak (d_SourceProof d) = d_ProofHash d) ∧
   ∃ n, tried d ts log log' (Attempts (d_MessageID d) rt) (Attempts (d_MessageID d) rt') r n).
Proof.
  intros Hr Hts Hd. split; [by apply steps_numbered|]. split.
  { intros rt2. apply steps_grow. }
  unfold Deliver, persist in Hd. rewrite Hts in Hd.
  destruct (_ || _) eqn:Hg in Hd; [left; by simplify_eq|].
  destruct (_ || _) eqn:Hh in Hd; [left; by simplify_eq|].
  destruct (_ =? _)%nat in Hd; [left; by simplify_eq|]. bool_facts. unfold contentHash in *.
  destruct (payloads rt !! d_MessageID d) as [p|] eqn:Hp.
  - destruct (sameDelivery p d) eqn:Hs; [|left; by simplify_eq]. right.
    destruct (deliver_loop_tried _ _ _ _ _ _ _ _ _ Hd) as (n & Ht & -> & _).
    split; [by exists p|by exists n].
  - right. destruct (deliver_loop_tried _ _ _ _ _ _ _ _ _ Hd) as (n & Ht & -> & _).
    split; [|by exists n]. simpl. exists d. rewrite lookup_insert_eq. split_and!; try done.
    unfold sameDelivery. by rewrite !String.eqb_refl.
Qed.
End Deliveries.

(** * A concrete failover *)

Module Sample.
#[local] Instance toy : Keccak :=
  {| keccak value := be_bytes 32 (Z.of_nat (String.length value)); keccak_length value := be_bytes_length 32 _ |}.

Definition outage : Transport Z :=
  mkTransport "a" (λ _ w, (w + 1, Err (mkTransportError true false "down"))).
Definition relay : Transport Z := mkTransport "b" (λ _ w, (w + 1, Ok (mkReceipt "b" "ack"))).
Definition policy : string := be_bytes 32 7.
Definition d : Delivery :=
  mkDelivery (be_bytes 32 5) policy "env" (keccak "env") "proof" (keccak "proof") (Time.mk 3 "").
Definition rt : Router (Z * list submission) := (RegisterRoute policy (watched <$> [outage; relay]) NewRouter).1.

Lemma delivery_exact_witness :
  ∃ n, tried d [outage; relay] [] (Deliver d rt (0, [])).1.2.2 []
    (Attempts (d_MessageID d) (Deliver d rt (0, [])).1.1) (Ok (mkReceipt "b" "ack")) n.
Proof.
  destruct (delivery_exact rt d [outage; relay] 0 [] (Deliver d rt (0, [])).1.1 (Deliver d rt (0, [])).1.2.1
    (Deliver d rt (0, [])).1.2.2 (Ok (mkReceipt "b" "ack"))) as (_ & _ & [(_ & _ & Hf)|[_ Ht]]).
  - apply rtc_once. apply step_register.
  - reflexivity.
  - reflexivity.
  - discriminate Hf.
  - exact Ht.
Defined.
End Sample.
