(* ===== verification/Recovery.v ===== *)
(** Message recovery ([cross-chain-coordinator/recovery/recovery.go]): the signed
    recovery authorization and its ABI digests, the decoding of the economics of
    the original action and of its compensation, the 2-of-3 signature policy, and
    the manager that tombstones a message before its source is compensated. *)
From S2P Require Import Prelude GoStd CrossChainTypes Message.

(** The configuration errors of the constructors carry their texts in Go; the
    destination's own errors are of type [E]. *)
Inductive error :=
| ErrExecuted | ErrNotTombstoned | ErrAlreadyCompensated | ErrRecoveryConflict
| ErrInsufficientApproval | ErrPolicyShape | ErrInvalidSigner | ErrDuplicateAddress
| ErrDuplicatePolicy | ErrNoAuthorizer | ErrNoDestination.

Definition Requested : string := "REQUESTED".
Definition DestinationTombstoned : string := "DESTINATION_TOMBSTONED".
Definition SourceCompensated : string := "SOURCE_COMPENSATED".
Definition Recovered : string := "RECOVERED".
Definition Disputed : string := "DISPUTED".

Record Approval := mkApproval { SignerID : string; Signature : string }.
#[export] Instance Approval_eq_dec : EqDecision Approval.
Proof. solve_decision. Defined.

Record AuthorizationRequest := mkAuthorizationRequest {
  ar_MessageID : string;
  ar_EnvelopeHash : string;
  ar_RoutePolicyHash : string;
  ar_AssetAmountCommitment : string;
  ar_SourceStateCommitment : string;
  ar_DestinationStateCommitment : string;
  ar_CompensationPayloadHash : string;
  ar_MessageExpiresAt : Z;
  ar_RecoveryNonce : Z;
  ar_ReasonCode : string;
  ar_Action : Z;
  ar_AuthorizerSetHash : string;
  ar_AuthorizerSetVersion : Z }.
#[export] Instance AuthorizationRequest_eq_dec : EqDecision AuthorizationRequest.
Proof. solve_decision. Defined.

Record Authorization := mkAuthorization {
  z_ProtocolID : string;
  z_SourceChainID : string;
  z_SourceCoordinator : string;
  z_DestinationChainID : string;
  z_DestinationCoordinator : string;
  z_Request : AuthorizationRequest }.
#[export] Instance Authorization_eq_dec : EqDecision Authorization.
Proof. solve_decision. Defined.

Record Request := mkRequest {
  r_RecoveryID : string;
  r_OriginalMessageID : string;
  r_ImmutableEnvelopeHash : string;
  r_RecoveryNonce : Z;
  r_RouteVersion : Z;
  r_OriginalActionType : Z;
  r_OriginalActionPayload : string;
  r_AssetID : string;
  r_Units : string;
  r_CompensationRecipient : string;
  r_CompensationPayload : string;
  r_ReasonCode : string;
  r_SourceStateCommitment : string;
  r_DestinationStateCommitment : string;
  r_AuthorizerPolicyHash : string;
  r_RoutePolicyHash : string;
  r_AssetAmountCommitment : string;
  r_CompensationPayloadHash : string;
  r_MessageExpiresAt : Z;
  r_Action : Z;
  r_AuthorizerSetVersion : Z;
  r_Authorization : option Authorization;
  r_Approvals : list Approval;
  r_RequestedAt : Time.t }.

(** The Go arrays have fixed sizes and the integers fixed widths. *)
Record request_widths (a : AuthorizationRequest) : Prop := {
  aw_bytes : Forall (λ v, String.length v = 32%nat)
    [ar_MessageID a; ar_EnvelopeHash a; ar_RoutePolicyHash a; ar_AssetAmountCommitment a;
     ar_SourceStateCommitment a; ar_DestinationStateCommitment a; ar_CompensationPayloadHash a;
     ar_ReasonCode a; ar_AuthorizerSetHash a];
  aw_expires : 0 <= ar_MessageExpiresAt a < 2 ^ 64;
  aw_nonce : 0 <= ar_RecoveryNonce a < 2 ^ 64;
  aw_action : 0 <= ar_Action a < 2 ^ 8;
  aw_version : 0 <= ar_AuthorizerSetVersion a < 2 ^ 32 }.
Record authorization_widths (z : Authorization) : Prop := {
  zw_protocol : String.length (z_ProtocolID z) = 32%nat;
  zw_source : String.length (z_SourceCoordinator z) = 20%nat;
  zw_destination : String.length (z_DestinationCoordinator z) = 20%nat;
  zw_request : request_widths (z_Request z) }.

Definition zero32 : string := zeros 32.
Definition zero20 : string := zeros 20.

(** * ABI encoding *)

Definition abiUint64 (value : Z) : string := uintWord value.
(** [abiAddress] of a [20]byte array. *)
Definition abiAddress (value : string) : string := zeros 12 +:+ value.

Definition abiUint256 (value : string) : result error string :=
  match Big.set_string value with
  | None => Err ErrInsufficientApproval
  | Some number =>
      if (number <=? 0) || (2 ^ 256 <=? number) || (Big.to_string number <>s value)
      then Err ErrInsufficientApproval
      else Ok (be_bytes 32 number)
  end.

Definition canonicalPositiveUint256 (value : string) : bool :=
  match Big.set_string value with
  | None => false
  | Some number => (0 <? number) && (number <? 2 ^ 256) && (Big.to_string number =s value)
  end.

(** [encoded] followed by zeroes up to a multiple of 32 bytes. *)
Definition padded (encoded : string) : string :=
  let remainder := (String.length encoded mod 32)%nat in
  if (remainder =? 0)%nat then encoded else encoded +:+ zeros (32 - remainder).

(** [abi.encode(domain, words...)]: the head with the offset of the string, then
    the string with its length. *)
Definition abi_tagged (domain : string) (words : list string) : string :=
  padded (concat_words (abiUint64 (Z.of_nat (S (length words)) * 32) :: words) +:+
          abiUint64 (Z.of_nat (String.length domain)) +:+ domain).

Definition validAuthorizationRequest (request : AuthorizationRequest) : bool :=
  (ar_MessageID request <>s zero32) && (ar_EnvelopeHash request <>s zero32) &&
  (ar_RoutePolicyHash request <>s zero32) && (ar_AssetAmountCommitment request <>s zero32) &&
  (ar_SourceStateCommitment request <>s zero32) &&
  (ar_DestinationStateCommitment request <>s zero32) &&
  (ar_CompensationPayloadHash request <>s zero32) &&
  negb (ar_MessageExpiresAt request =? 0) && negb (ar_RecoveryNonce request =? 0) &&
  (ar_ReasonCode request <>s zero32) && (ar_Action request =? 1) &&
  (ar_AuthorizerSetHash request <>s zero32) && negb (ar_AuthorizerSetVersion request =? 0).

Definition authorizationWords (request : AuthorizationRequest) : list string :=
  [ar_MessageID request; ar_EnvelopeHash request; ar_RoutePolicyHash request;
   ar_AssetAmountCommitment request; ar_SourceStateCommitment request;
   ar_DestinationStateCommitment request; ar_CompensationPayloadHash request;
   abiUint64 (ar_MessageExpiresAt request); abiUint64 (ar_RecoveryNonce request);
   ar_ReasonCode request; abiUint64 (ar_Action request); ar_AuthorizerSetHash request;
   abiUint64 (ar_AuthorizerSetVersion request)].

(** [0x] and the lower-case hexadecimal digits. *)
Definition canonicalAddress (address : string) : string := "0x" +:+ hex address.

Definition EncodeCompensationPayload (asset units recipient : string) : result error string :=
  if (asset =s zero20) || (recipient =s zero20) || negb (canonicalPositiveUint256 units)
  then Err ErrInsufficientApproval
  else
    let number := default 0 (Big.set_string units) in
    Ok (concat_words [abiAddress asset; be_bytes 32 number; abiAddress recipient]).

(** * ABI decoding *)

Record recoveryEconomics := mkEconomics { AssetID : string; Units : string; Recipient : string }.

(** [payload[offset:offset+n]], within the bounds the callers check. *)
Definition slice (payload : string) (offset n : nat) : string := String.substring offset n payload.

Definition decodeABIAddress (payload : string) (word : nat) : result error string :=
  let offset := (word * 32)%nat in
  if (String.length payload <? offset + 32)%nat || (slice payload offset 12 <>s zeros 12)
  then Err ErrInsufficientApproval
  else
    let result := slice payload (offset + 12) 20 in
    if result =s zero20 then Err ErrInsufficientApproval else Ok result.

Definition decodeABIUint256 (payload : string) (word : nat) : result error string :=
  let offset := (word * 32)%nat in
  if (String.length payload <? offset + 32)%nat then Err ErrInsufficientApproval
  else
    let number := be_value (slice payload offset 32) in
    if number <=? 0 then Err ErrInsufficientApproval else Ok (Big.to_string number).

(** The [switch] on the action type: asset word, amount word, number of words. *)
Definition action_layout (actionType : Z) : option (nat * nat * nat) :=
  match actionType with
  | 1 => Some (2, 6, 7)%nat
  | 2 => Some (5, 6, 8)%nat
  | 3 => Some (4, 6, 7)%nat
  | 4 => Some (1, 3, 5)%nat
  | 5 | 6 | 7 | 9 | 10 => Some (5, 6, 8)%nat
  | 8 => Some (6, 8, 9)%nat
  | 15 => Some (4, 5, 6)%nat
  | _ => None
  end.

Definition decodeActionEconomics (actionType : Z) (payload : string)
    : result error recoveryEconomics :=
  match action_layout actionType with
  | None => Err ErrInsufficientApproval
  | Some (assetWord, amountWord, expectedWords) =>
      if negb (String.length payload =? expectedWords * 32)%nat
      then Err ErrInsufficientApproval
      else
        let? asset := decodeABIAddress payload assetWord in
        let? units := decodeABIUint256 payload amountWord in
        Ok (mkEconomics (canonicalAddress asset) units "")
  end.

Definition decodeCompensationPayload (payload : string) : result error recoveryEconomics :=
  if negb (String.length payload =? 3 * 32)%nat then Err ErrInsufficientApproval
  else
    let? asset := decodeABIAddress payload 0 in
    let? units := decodeABIUint256 payload 1 in
    let? recipient := decodeABIAddress payload 2 in
    Ok (mkEconomics (canonicalAddress asset) units (canonicalAddress recipient)).

(** * Digests and the economics of a request *)

Section Digests.
Context `{Keccak}.

Definition keccakBytes (value : string) : string := keccak value.

Definition DigestAuthorization (authorization : Authorization) : result error string :=
  let? sourceChain := abiUint256 (z_SourceChainID authorization) in
  let? destinationChain := abiUint256 (z_DestinationChainID authorization) in
  if (z_ProtocolID authorization =s zero32) || (z_SourceCoordinator authorization =s zero20) ||
     (z_DestinationCoordinator authorization =s zero20) ||
     negb (validAuthorizationRequest (z_Request authorization))
  then Err ErrInsufficientApproval
  else Ok (keccak (abi_tagged "UNIFIED_XCHAIN_RECOVERY_AUTHORIZATION_V2"
    ([z_ProtocolID authorization; sourceChain; abiAddress (z_SourceCoordinator authorization);
      destinationChain; abiAddress (z_DestinationCoordinator authorization)] ++
     authorizationWords (z_Request authorization)))).

(** The method [RecoveryID] of the source; the record field keeps the name. *)
Definition RecoveryID_of (request : AuthorizationRequest) : result error string :=
  if negb (validAuthorizationRequest request) then Err ErrInsufficientApproval
  else Ok (keccakBytes (abi_tagged "UNIFIED_XCHAIN_RECOVERY_ID_V1" (authorizationWords request))).

Definition AssetAmountCommitment (actionType : Z) (payloadHash : string) : result error string :=
  if (actionType =? 0) || (payloadHash =s zero32) then Err ErrInsufficientApproval
  else Ok (keccakBytes (abi_tagged "UNIFIED_RECOVERY_ASSET_AMOUNT_COMMITMENT_V1"
    [abiUint64 actionType; payloadHash])).

Definition ReasonCodeCommitment (reason : string) : string := keccak reason.

Definition validateRecoveryEconomics (request : Request) : result error () :=
  match r_Authorization request with
  | None => Err ErrInsufficientApproval
  | Some authorization =>
      if (r_OriginalActionType request =? 0) || empty_s (r_OriginalActionPayload request) ||
         empty_s (r_CompensationPayload request)
      then Err ErrInsufficientApproval
      else
        let payloadHash := keccakBytes (r_OriginalActionPayload request) in
        let? commitment := AssetAmountCommitment (r_OriginalActionType request) payloadHash in
        if (commitment <>s r_AssetAmountCommitment request) ||
           (commitment <>s ar_AssetAmountCommitment (z_Request authorization))
        then Err ErrInsufficientApproval
        else
          let? original :=
            decodeActionEconomics (r_OriginalActionType request) (r_OriginalActionPayload request) in
          let? compensation := decodeCompensationPayload (r_CompensationPayload request) in
          let compensationHash := keccakBytes (r_CompensationPayload request) in
          if (compensationHash <>s r_CompensationPayloadHash request) ||
             (compensationHash <>s ar_CompensationPayloadHash (z_Request authorization)) ||
             (AssetID original <>s AssetID compensation) || (Units original <>s Units compensation) ||
             (r_AssetID request <>s AssetID original) || (r_Units request <>s Units original) ||
             (r_CompensationRecipient request <>s Recipient compensation)
          then Err ErrInsufficientApproval
          else Ok ()
  end.

(** [bytes.Compare(left, right) > 0]. *)
Definition bytes_gt (left right : string) : bool := bool_decide (¬ String.le left right).

(** The two nested loops over [signers] on an array of three. *)
Definition sort3 (signers : string * string * string) : string * string * string :=
  let '(a, b, c) := signers in
  let '(a, b) := if bytes_gt a b then (b, a) else (a, b) in
  let '(a, c) := if bytes_gt a c then (c, a) else (a, c) in
  let '(b, c) := if bytes_gt b c then (c, b) else (b, c) in
  (a, b, c).

Definition AuthorizerSetHash (version : Z) (signers : string * string * string)
    : result error string :=
  let '(s0, s1, s2) := signers in
  if (version =? 0) || (s0 =s zero20) || (s1 =s zero20) || (s2 =s zero20)
  then Err ErrInsufficientApproval
  else
    let '(a, b, c) := sort3 signers in
    if (a =s b) || (b =s c) then Err ErrInsufficientApproval
    else Ok (keccakBytes (abi_tagged "UNIFIED_XCHAIN_RECOVERY_AUTHORIZER_SET_V1"
      [abiUint64 version; abiUint64 2; abiAddress a; abiAddress b; abiAddress c])).

(** [time.Unix()] as the [uint64] that is written. *)
Definition unix_seconds (at_ : Time.t) : Z := u64 (Time.ns at_ / 1000000000 - unixToInternal).

Definition DigestRequest (request : Request) : string :=
  keccak (frames
    ["UNIFIED_XCHAIN_RECOVERY_V1"%string; r_RecoveryID request; r_OriginalMessageID request;
     r_ImmutableEnvelopeHash request; be_bytes 8 (r_RecoveryNonce request);
     be_bytes 8 (r_RouteVersion request); be_bytes 1 (r_OriginalActionType request);
     r_OriginalActionPayload request; r_AssetID request; r_Units request;
     r_CompensationRecipient request; r_CompensationPayload request; r_ReasonCode request;
     r_SourceStateCommitment request; r_DestinationStateCommitment request;
     r_RoutePolicyHash request; r_AssetAmountCommitment request;
     r_CompensationPayloadHash request; r_AuthorizerPolicyHash request;
     be_bytes 8 (r_MessageExpiresAt request); be_bytes 1 (r_Action request);
     be_bytes 4 (r_AuthorizerSetVersion request); be_bytes 8 (unix_seconds (r_RequestedAt request))]).

End Digests.

(** * Signatures

    The curve library is a parameter: its group order (a [ModNScalar] is a number
    below it, [SetByteSlice] reports an overflow for anything else and
    [IsOverHalfOrder] compares with its half), public key recovery, and the
    65-byte uncompressed serialization of keys. *)
Class Secp256k1 := {
  order : Z;
  PublicKey : Type;
  RecoverCompact : string → string → option PublicKey;
  SerializeUncompressed : PublicKey → string }.

Section Authorizer.
Context `{Keccak, Secp256k1}.

Definition VerifyEthereumSignature (digest signature : string) : result error string :=
  if negb (String.length signature =? 65)%nat then Err ErrInsufficientApproval
  else
    let r := be_value (slice signature 0 32) in
    let s := be_value (slice signature 32 32) in
    if (order <=? r) || (r =? 0) || (order <=? s) || (s =? 0) || (order / 2 <? s)
    then Err ErrInsufficientApproval
    else
      let v := be_value (slice signature 64 1) in
      let recoveryID := if (v =? 27) || (v =? 28) then v - 27 else v in
      if 1 <? recoveryID then Err ErrInsufficientApproval
      else
        let compact := be_bytes 1 (27 + recoveryID) +:+ slice signature 0 32 +:+ slice signature 32 32 in
        match RecoverCompact compact digest with
        | None => Err ErrInsufficientApproval
        | Some publicKey =>
            let serialized := SerializeUncompressed publicKey in
            Ok (slice (keccak (slice serialized 1 (String.length serialized - 1))) 12 20)
        end.

Record Secp256k1Policy := mkPolicy { PolicyHash : string; Signers : gmap string string }.

Definition Secp256k1Authorizer : Type := gmap string (gmap string string).

(** The loop over the signers of a policy; Go visits the map in some order, which
    only decides which of the two errors is returned. *)
Fixpoint check_signers (signers : list (string * string)) (seenAddresses : gset string)
    : result error () :=
  match signers with
  | [] => Ok ()
  | (signerID, address) :: rest =>
      if empty_s signerID || (address =s zero20) then Err ErrInvalidSigner
      else if decide (address ∈ seenAddresses) then Err ErrDuplicateAddress
      else check_signers rest ({[address]} ∪ seenAddresses)
  end.

Fixpoint policy_loop (policies : list Secp256k1Policy) (result : Secp256k1Authorizer)
    : Prelude.result error Secp256k1Authorizer :=
  match policies with
  | [] => Ok result
  | policy :: rest =>
      if (PolicyHash policy =s zero32) || negb (size (Signers policy) =? 3)%nat
      then Err ErrPolicyShape
      else
        let? _ := check_signers (map_to_list (Signers policy)) ∅ in
        if has_key result (PolicyHash policy) then Err ErrDuplicatePolicy
        else policy_loop rest (<[PolicyHash policy := Signers policy]> result)
  end.

Definition NewSecp256k1Authorizer (policies : list Secp256k1Policy)
    : result error Secp256k1Authorizer := policy_loop policies ∅.

(** The approvals loop of [Verify]; the result is [valid]. *)
Fixpoint approval_loop (signers : gmap string string) (digest : string) (approvals : list Approval)
    (seen : gset string) (valid : Z) : result error Z :=
  match approvals with
  | [] => Ok valid
  | approval :: rest =>
      match signers !! SignerID approval with
      | None => Err ErrInsufficientApproval
      | Some expected =>
          if decide (SignerID approval ∈ seen) then Err ErrInsufficientApproval
          else
            match VerifyEthereumSignature digest (Signature approval) with
            | Err _ => Err ErrInsufficientApproval
            | Ok recovered =>
                if recovered <>s expected then Err ErrInsufficientApproval
                else approval_loop signers digest rest ({[SignerID approval]} ∪ seen) (valid + 1)
            end
      end
  end.

(** The long guard of [Verify]: the signed request repeats the fields of the
    request it authorizes. *)
Definition authorization_matches (request : Request) (signed : AuthorizationRequest) : bool :=
  (ar_MessageID signed =s r_OriginalMessageID request) &&
  (ar_EnvelopeHash signed =s r_ImmutableEnvelopeHash request) &&
  (ar_RecoveryNonce signed =? r_RecoveryNonce request) &&
  (ar_RoutePolicyHash signed =s r_RoutePolicyHash request) &&
  (ar_AssetAmountCommitment signed =s r_AssetAmountCommitment request) &&
  (ar_SourceStateCommitment signed =s r_SourceStateCommitment request) &&
  (ar_DestinationStateCommitment signed =s r_DestinationStateCommitment request) &&
  (ar_CompensationPayloadHash signed =s r_CompensationPayloadHash request) &&
  (ar_MessageExpiresAt signed =? r_MessageExpiresAt request) &&
  (ar_ReasonCode signed =s ReasonCodeCommitment (r_ReasonCode request)) &&
  (ar_Action signed =? r_Action request) &&
  (ar_AuthorizerSetHash signed =s r_AuthorizerPolicyHash request) &&
  (ar_AuthorizerSetVersion signed =? r_AuthorizerSetVersion request).

Definition Verify (authorizer : Secp256k1Authorizer) (request : Request) : result error () :=
  match authorizer !! r_AuthorizerPolicyHash request, r_Authorization request with
  | Some signers, Some authorization =>
      if (length (r_Approvals request) <? 2)%nat ||
         negb (authorization_matches request (z_Request authorization))
      then Err ErrInsufficientApproval
      else
        match validateRecoveryEconomics request with
        | Err _ => Err ErrInsufficientApproval
        | Ok _ =>
            match RecoveryID_of (z_Request authorization) with
            | Err _ => Err ErrInsufficientApproval
            | Ok recoveryID =>
                if r_RecoveryID request <>s hex recoveryID then Err ErrInsufficientApproval
                else
                  match DigestAuthorization authorization with
                  | Err _ => Err ErrInsufficientApproval
                  | Ok digest =>
                      let? valid := approval_loop signers digest (r_Approvals request) ∅ 0 in
                      if valid <? 2 then Err ErrInsufficientApproval else Ok ()
                  end
            end
        end
  | _, _ => Err ErrInsufficientApproval
  end.

End Authorizer.

(** * The recovery manager *)

Record Tombstone := mkTombstone {
  t_OriginalMessageID : string;
  t_Hash : string;
  t_FinalityProofHash : string;
  t_FinalizedAt : Time.t }.

Record Compensation := mkCompensation {
  c_OriginalMessageID : string;
  c_TombstoneHash : string;
  c_Payload : string;
  c_ResultHash : string;
  c_AssetID : string;
  c_Recipient : string;
  c_Units : string;
  c_CompensatedAt : Time.t }.

Record Record_ := mkRecord {
  rec_Request : Request;
  rec_State : string;
  rec_Tombstone : option Tombstone;
  rec_Compensation : option Compensation;
  rec_RecoveryAck : string;
  rec_SupersededBy : string }.

(** [Destination]: evidence about, and control over, the destination chain, which
    is a world [W] that each call may change. *)
Record Destination (W E : Type) := mkDestination {
  ExecutionResult : string → W → W * bool;
  CreateTombstone : Request → W → W * result E Tombstone }.
Arguments ExecutionResult {W E}.
Arguments CreateTombstone {W E}.

(** [Authorizer], the interface. *)
Definition Authorizer : Type := Request → result error ().

Record Manager := mkManager { authorizer : Authorizer; records : gmap string Record_ }.

Definition NewManager (authorizer : option Authorizer) : result error Manager :=
  match authorizer with
  | None => Err ErrNoAuthorizer
  | Some a => Ok (mkManager a ∅)
  end.

Definition put_record (id : string) (record : Record_) (manager : Manager) : Manager :=
  mkManager (authorizer manager) (<[id := record]> (records manager)).

Definition canonicalApprovals (source : list Approval) : list Approval := sort_by SignerID source.

Definition with_approvals (approvals : list Approval) (r : Request) : Request :=
  mkRequest (r_RecoveryID r) (r_OriginalMessageID r) (r_ImmutableEnvelopeHash r)
    (r_RecoveryNonce r) (r_RouteVersion r) (r_OriginalActionType r) (r_OriginalActionPayload r)
    (r_AssetID r) (r_Units r) (r_CompensationRecipient r) (r_CompensationPayload r)
    (r_ReasonCode r) (r_SourceStateCommitment r) (r_DestinationStateCommitment r)
    (r_AuthorizerPolicyHash r) (r_RoutePolicyHash r) (r_AssetAmountCommitment r)
    (r_CompensationPayloadHash r) (r_MessageExpiresAt r) (r_Action r)
    (r_AuthorizerSetVersion r) (r_Authorization r) approvals (r_RequestedAt r).

Definition sameAuthorization (left right : option Authorization) : bool :=
  match left, right with
  | Some l, Some r => bool_decide (l = r)
  | None, None => true
  | _, _ => false
  end.

Fixpoint sameApprovals (left right : list Approval) : bool :=
  match left, right with
  | [], [] => true
  | l :: ls, r :: rs =>
      (SignerID l =s SignerID r) && (Signature l =s Signature r) && sameApprovals ls rs
  | _, _ => false
  end.

Definition sameRequest (left right : Request) : bool :=
  (r_RecoveryID left =s r_RecoveryID right) &&
  (r_OriginalMessageID left =s r_OriginalMessageID right) &&
  (r_ImmutableEnvelopeHash left =s r_ImmutableEnvelopeHash right) &&
  (r_RecoveryNonce left =? r_RecoveryNonce right) &&
  (r_RouteVersion left =? r_RouteVersion right) &&
  (r_OriginalActionType left =? r_OriginalActionType right) &&
  (r_OriginalActionPayload left =s r_OriginalActionPayload right) &&
  (r_AssetID left =s r_AssetID right) &&
  (r_Units left =s r_Units right) &&
  (r_CompensationRecipient left =s r_CompensationRecipient right) &&
  (r_CompensationPayload left =s r_CompensationPayload right) &&
  (r_ReasonCode left =s r_ReasonCode right) &&
  (r_SourceStateCommitment left =s r_SourceStateCommitment right) &&
  (r_DestinationStateCommitment left =s r_DestinationStateCommitment right) &&
  (r_RoutePolicyHash left =s r_RoutePolicyHash right) &&
  (r_AssetAmountCommitment left =s r_AssetAmountCommitment right) &&
  (r_CompensationPayloadHash left =s r_CompensationPayloadHash right) &&
  (r_MessageExpiresAt left =? r_MessageExpiresAt right) &&
  (r_Action left =? r_Action right) &&
  (r_AuthorizerSetVersion left =? r_AuthorizerSetVersion right) &&
  (r_AuthorizerPolicyHash left =s r_AuthorizerPolicyHash right) &&
  sameAuthorization (r_Authorization left) (r_Authorization right) &&
  Time.Equal (r_RequestedAt left) (r_RequestedAt right) &&
  sameApprovals (r_Approvals left) (r_Approvals right).

Definition sameCompensation (left right : Compensation) : bool :=
  (c_OriginalMessageID left =s c_OriginalMessageID right) &&
  (c_TombstoneHash left =s c_TombstoneHash right) &&
  (c_Payload left =s c_Payload right) &&
  (c_ResultHash left =s c_ResultHash right) &&
  (c_AssetID left =s c_AssetID right) &&
  (c_Recipient left =s c_Recipient right) &&
  (c_Units left =s c_Units right) &&
  Time.Equal (c_CompensatedAt left) (c_CompensatedAt right).

Section Manager.
Context `{Keccak}.

(** The method [Request] of the manager. *)
Definition Request_ (request : Request) (manager : Manager) : Manager * result error Record_ :=
  if empty_s (r_RecoveryID request) || (r_RecoveryNonce request =? 0) ||
     (r_RouteVersion request =? 0) || empty_s (r_AssetID request) ||
     negb (canonicalPositiveUint256 (r_Units request)) ||
     empty_s (r_CompensationRecipient request) || empty_s (r_ReasonCode request) ||
     Time.IsZero (r_RequestedAt request) || (r_AuthorizerPolicyHash request =s zero32)
  then (manager, Err ErrInsufficientApproval)
  else
    match validateRecoveryEconomics request, authorizer manager request with
    | Ok _, Ok _ =>
        let request := with_approvals (canonicalApprovals (r_Approvals request)) request in
        match records manager !! r_OriginalMessageID request with
        | Some existing =>
            if negb (sameRequest (rec_Request existing) request)
            then (manager, Err ErrRecoveryConflict)
            else (manager, Ok existing)
        | None =>
            let record := mkRecord request Requested None None zero32 zero32 in
            (put_record (r_OriginalMessageID request) record manager, Ok record)
        end
    | _, _ => (manager, Err ErrInsufficientApproval)
    end.

Inductive tombstone_error (E : Type) := ErrManager (e : error) | ErrDestination (e : E).
Arguments ErrManager {E} _.
Arguments ErrDestination {E} _.

(** The method [Tombstone] of the manager. *)
Definition Tombstone_ {W E} (messageID : string) (destination : option (Destination W E))
    (manager : Manager) (w : W) : Manager * W * result (tombstone_error E) Record_ :=
  match destination with
  | None => (manager, w, Err (ErrManager ErrNoDestination))
  | Some destination =>
      match records manager !! messageID with
      | None => (manager, w, Err (ErrManager ErrRecoveryConflict))
      | Some record =>
          let '(w, executed) := ExecutionResult destination messageID w in
          if executed : bool then (manager, w, Err (ErrManager ErrExecuted))
          else if match rec_Tombstone record with Some _ => true | None => false end
          then (manager, w, Ok record)
          else
            match CreateTombstone destination (rec_Request record) w with
            | (w, Err e) => (manager, w, Err (ErrDestination e))
            | (w, Ok tombstone) =>
                if (t_OriginalMessageID tombstone <>s messageID) ||
                   Time.IsZero (t_FinalizedAt tombstone) || (t_Hash tombstone =s zero32) ||
                   (t_FinalityProofHash tombstone =s zero32)
                then (manager, w, Err (ErrManager ErrRecoveryConflict))
                else
                  let record := mkRecord (rec_Request record) DestinationTombstoned (Some tombstone)
                    (rec_Compensation record) (rec_RecoveryAck record) (rec_SupersededBy record) in
                  (put_record messageID record manager, w, Ok record)
            end
      end
  end.

(** The code keeps the caller's [Payload] slice in the record without a copy; the model keeps
    its contents, so a caller that writes into the slice afterwards is not covered. *)
Definition Compensate (compensation : Compensation) (manager : Manager)
    : Manager * result error Record_ :=
  match records manager !! c_OriginalMessageID compensation with
  | None => (manager, Err ErrNotTombstoned)
  | Some record =>
      match rec_Tombstone record with
      | None => (manager, Err ErrNotTombstoned)
      | Some tombstone =>
          match rec_Compensation record with
          | Some existing =>
              if negb (sameCompensation existing compensation)
              then (manager, Err ErrAlreadyCompensated) else (manager, Ok record)
          | None =>
              if (c_TombstoneHash compensation <>s t_Hash tombstone) ||
                 (c_Payload compensation <>s r_CompensationPayload (rec_Request record)) ||
                 (keccakBytes (c_Payload compensation) <>s
                    r_CompensationPayloadHash (rec_Request record)) ||
                 (c_ResultHash compensation =s zero32) || empty_s (c_Recipient compensation) ||
                 (c_AssetID compensation <>s r_AssetID (rec_Request record)) ||
                 (c_Recipient compensation <>s r_CompensationRecipient (rec_Request record)) ||
                 (c_Units compensation <>s r_Units (rec_Request record)) ||
                 Time.IsZero (c_CompensatedAt compensation)
              then (manager, Err ErrRecoveryConflict)
              else
                let record := mkRecord (rec_Request record) SourceCompensated (rec_Tombstone record)
                  (Some compensation) (rec_RecoveryAck record) (rec_SupersededBy record) in
                (put_record (c_OriginalMessageID compensation) record manager, Ok record)
          end
      end
  end.

Definition Finalize (messageID acknowledgementHash : string) (manager : Manager)
    : Manager * result error Record_ :=
  if acknowledgementHash =s zero32 then (manager, Err ErrRecoveryConflict)
  else
    match records manager !! messageID with
    | None => (manager, Err ErrRecoveryConflict)
    | Some record =>
        if (rec_State record =s Recovered) && (rec_RecoveryAck record =s acknowledgementHash)
        then (manager, Ok record)
        else if (rec_State record <>s SourceCompensated) ||
                match rec_Compensation record with Some _ => false | None => true end
        then (manager, Err ErrRecoveryConflict)
        else
          let record := mkRecord (rec_Request record) Recovered (rec_Tombstone record)
            (rec_Compensation record) acknowledgementHash (rec_SupersededBy record) in
          (put_record messageID record manager, Ok record)
    end.

Definition AuthorizeReplacement (original replacement : string) (manager : Manager)
    : Manager * result error () :=
  match records manager !! original with
  | None => (manager, Err ErrNotTombstoned)
  | Some record =>
      if (rec_State record <>s Recovered) ||
         match rec_Tombstone record with Some _ => false | None => true end ||
         match rec_Compensation record with Some _ => false | None => true end
      then (manager, Err ErrNotTombstoned)
      else if (replacement =s zero32) || (replacement =s original)
      then (manager, Err ErrRecoveryConflict)
      else if (rec_SupersededBy record <>s zero32) && (rec_SupersededBy record <>s replacement)
      then (manager, Err ErrRecoveryConflict)
      else
        (put_record original
           (mkRecord (rec_Request record) (rec_State record) (rec_Tombstone record)
              (rec_Compensation record) (rec_RecoveryAck record) replacement) manager, Ok ())
  end.

(** The method [Record] of the manager. *)
Definition Record_lookup (messageID : string) (manager : Manager) : option Record_ :=
  records manager !! messageID.

End Manager.
Arguments ErrManager {E} _.
Arguments ErrDestination {E} _.

(** * Decoding what was encoded *)

Lemma concat_words_app xs ys : concat_words (xs ++ ys) = concat_words xs +:+ concat_words ys.
Proof.
  induction xs as [|x xs IH]; [done|].
  change (x +:+ concat_words (xs ++ ys) = (x +:+ concat_words xs) +:+ concat_words ys).
  by rewrite IH, string_app_assoc.
Qed.

Lemma concat_words_length xs :
  Forall (λ w, String.length w = 32%nat) xs → String.length (concat_words xs) = (length xs * 32)%nat.
Proof.
  induction 1 as [|x xs Hx _ IH]; [done|].
  change (concat_words (x :: xs)) with (x +:+ concat_words xs).
  rewrite string_app_length, Hx, IH. simpl. lia.
Qed.

(** A slice that starts inside word [k]. *)
Lemma slice_word vs k w i n :
  Forall (λ w, String.length w = 32%nat) vs → vs !! k = Some w →
  slice (concat_words vs) (k * 32 + i) n =
  String.substring i n (w +:+ concat_words (drop (S k) vs)).
Proof.
  intros Hvs Hk. rewrite <- (take_drop_middle _ _ _ Hk) at 1. rewrite concat_words_app.
  unfold slice. apply substring_skip_add.
  assert (k < length vs)%nat by by eapply lookup_lt_Some.
  rewrite concat_words_length by (by apply Forall_take). rewrite length_take. lia.
Qed.

Lemma concat_words_bound vs k w :
  Forall (λ w, String.length w = 32%nat) vs → vs !! k = Some w →
  (String.length (concat_words vs) <? k * 32 + 32)%nat = false.
Proof.
  intros Hvs Hk%lookup_lt_Some. rewrite concat_words_length by done. apply Nat.ltb_ge. lia.
Qed.

Lemma decodeABIAddress_word vs k a :
  Forall (λ w, String.length w = 32%nat) vs → vs !! k = Some (abiAddress a) →
  String.length a = 20%nat →
  decodeABIAddress (concat_words vs) k = if a =s zero20 then Err ErrInsufficientApproval else Ok a.
Proof.
  intros Hvs Hk Ha. unfold decodeABIAddress.
  rewrite (concat_words_bound _ _ _ Hvs Hk).
  assert (slice (concat_words vs) (k * 32) 12 = zeros 12) as ->.
  { pose proof (slice_word vs k _ 0 12 Hvs Hk) as E. rewrite Nat.add_0_r in E. rewrite E.
    unfold abiAddress. rewrite string_app_assoc. by apply substring_prefix. }
  assert (slice (concat_words vs) (k * 32 + 12) 20 = a) as ->; [|by rewrite String.eqb_refl].
  rewrite (slice_word vs k _ 12 20 Hvs Hk). unfold abiAddress.
  rewrite string_app_assoc, substring_skip by done. by apply substring_prefix.
Qed.

Lemma decodeABIUint256_word vs k n :
  Forall (λ w, String.length w = 32%nat) vs → vs !! k = Some (be_bytes 32 n) →
  0 < n < 2 ^ 256 →
  decodeABIUint256 (concat_words vs) k = Ok (Big.to_string n).
Proof.
  intros Hvs Hk Hn. unfold decodeABIUint256. rewrite (concat_words_bound _ _ _ Hvs Hk).
  pose proof (slice_word vs k _ 0 32 Hvs Hk) as E. rewrite Nat.add_0_r in E. rewrite E.
  rewrite substring_prefix, be_value_bytes by (apply be_bytes_length || (simpl; lia)).
  by rewrite (proj2 (Z.leb_gt n 0)) by lia.
Qed.

Lemma encodeStatic_Ok ws s :
  encodeStatic ws = Ok s → ∃ vs, ws = Ok <$> vs ∧ s = concat_words vs.
Proof.
  revert s. induction ws as [|w ws IH]; intros s E; [exists []; split; [done|]; by injection E as <-|].
  simpl in E. destruct w as [v|]; [|done]. destruct (encodeStatic ws) as [r|]; [|done].
  injection E as <-. destruct (IH r eq_refl) as (vs & -> & ->). by exists (v :: vs).
Qed.

(** Reading the asset and the amount back from a static encoding. *)
Lemma encodeStatic_decode ws s ka km asset amount :
  encodeStatic ws = Ok s → Forall word32 ws →
  ws !! ka = Some (addressABI asset) → ws !! km = Some (uint256ABI amount) →
  String.length s = (length ws * 32)%nat ∧
  decodeABIAddress s ka = (if asset =s zero20 then Err ErrInsufficientApproval else Ok asset) ∧
  decodeABIUint256 s km = Ok amount.
Proof.
  intros (vs & -> & ->)%encodeStatic_Ok Hws Ha Hm.
  assert (Forall (λ w, String.length w = 32%nat) vs) as Hvs.
  { rewrite Forall_fmap in Hws. exact Hws. }
  rewrite list_lookup_fmap in Ha, Hm.
  destruct (vs !! ka) as [va|] eqn:Eva; [|done]. destruct (vs !! km) as [vm|] eqn:Evm; [|done].
  simpl in Ha, Hm. injection Ha as Ha. injection Hm as Hm. split_and!.
  - by rewrite length_fmap, concat_words_length.
  - unfold addressABI, exactLength in Ha.
    destruct (Nat.eqb_spec (String.length asset) 20) as [Hl|]; [|done]. injection Ha as ->.
    apply decodeABIAddress_word; [done| |done]. by rewrite Eva, addressWord_20.
  - symmetry in Hm. apply uint256_Ok in Hm as (n & Hn & -> & ->).
    by apply decodeABIUint256_word.
Qed.

(** What an action moves: the token and the amount, where it moves one. *)
Definition economics (action : TypedAction) : option (string * string) :=
  match action with
  | CanonicalUftLock _ _ canonical_token _ _ _ amount => Some (canonical_token, amount)
  | WrappedUftMinted _ _ _ _ _ wrapped_token amount _ => Some (wrapped_token, amount)
  | WrappedUftBurned _ _ _ _ wrapped_token _ amount => Some (wrapped_token, amount)
  | CanonicalUftReleased _ canonical_token _ amount _ => Some (canonical_token, amount)
  | SatelliteCollateralLocked _ _ _ _ _ collateral_token amount _ => Some (collateral_token, amount)
  | HomeDisbursementAuthorized _ _ _ _ _ wrapped_token amount _ => Some (wrapped_token, amount)
  | SatelliteDisbursementSettled _ _ _ _ _ wrapped_token amount _ => Some (wrapped_token, amount)
  | SatelliteRepaymentBurned _ _ _ _ _ _ wrapped_token _ amount => Some (wrapped_token, amount)
  | HomeCollateralReleaseAuthorized _ _ _ _ _ collateral_token amount _ =>
      Some (collateral_token, amount)
  | SatelliteCollateralReleased _ _ _ _ _ collateral_token amount _ => Some (collateral_token, amount)
  | SatelliteUftPermanentBurned _ _ _ _ wrapped_token amount => Some (wrapped_token, amount)
  | LoanCancellationRequested _ _ _ _ _ _ _ _ _ _ _
  | SatelliteFundingCancelled _ _ _ _ _ _ _ _ _ _ _ => None
  end.

Lemma layout_decode action ws s ka km asset amount :
  encodeStatic ws = Ok s → action_layout action = Some (ka, km, length ws) → Forall word32 ws →
  ws !! ka = Some (addressABI asset) → ws !! km = Some (uint256ABI amount) →
  decodeActionEconomics action s =
    if asset =s zero20 then Err ErrInsufficientApproval
    else Ok (mkEconomics (canonicalAddress asset) amount "").
Proof.
  intros He Hl Hw Ha Hm.
  destruct (encodeStatic_decode _ _ _ _ _ _ He Hw Ha Hm) as (Hs & Ea & Em).
  unfold decodeActionEconomics. rewrite Hl, Hs, Nat.eqb_refl, Ea. simpl.
  destruct (asset =s zero20); [done|]. by rewrite Em.
Qed.

Lemma canonicalPositiveUint256_true units :
  canonicalPositiveUint256 units = true →
  ∃ n, 0 < n < 2 ^ 256 ∧ units = Big.to_string n ∧ Big.set_string units = Some n.
Proof.
  unfold canonicalPositiveUint256. destruct (Big.set_string units) as [n|] eqn:E; [|done].
  intros Hc. bool_facts. by exists n.
Qed.

(** Recovery reads back exactly what the message encoder wrote. For every
    envelope whose typed action encodes, the recovery decoder applied to the
    payload returns the token and the amount of that action (the token of the side
    the action moves), refuses the zero token, and refuses the two cancellation
    actions, which move nothing; and the compensation instruction decodes to
    exactly the asset, units and recipient it was encoded from. *)
Theorem economics_roundtrip (e : Envelope) (payload asset units recipient compensation : string) :
  EncodeTypedActionABI e = Ok payload →
  String.length asset = 20%nat → String.length recipient = 20%nat →
  EncodeCompensationPayload asset units recipient = Ok compensation →
  decodeActionEconomics (ActionType e) payload =
    match Typed e ≫= economics with
    | Some (token, amount) =>
        if token =s zero20 then Err ErrInsufficientApproval
        else Ok (mkEconomics (canonicalAddress token) amount "")
    | None => Err ErrInsufficientApproval
    end ∧
  decodeCompensationPayload compensation =
    Ok (mkEconomics (canonicalAddress asset) units (canonicalAddress recipient)).
Proof.
  intros Hp Hla Hlr Hc. split.
  - unfold EncodeTypedActionABI, encodeLoanAction in Hp. cbv zeta in Hp.
    repeat match type of Hp with (if ?x =? ?y then _ else _) = _ =>
      destruct (Z.eqb_spec x y) as [->|_];
      [destruct (Typed e) as [[]|]; try discriminate Hp;
       first [reflexivity | simpl; eapply layout_decode; [exact Hp|reflexivity|all_words|reflexivity..]]|] end.
    done.
  - unfold EncodeCompensationPayload in Hc. destruct (_ || _) eqn:Hg in Hc; [done|].
    bool_facts. destruct (canonicalPositiveUint256_true units) as (n & Hn & -> & Es); [done|].
    rewrite Es in Hc. apply Ok_inj in Hc as <-. simpl default.
    assert (Forall (λ w, String.length w = 32%nat) [abiAddress asset; be_bytes 32 n; abiAddress recipient]) as Hf.
    { unfold abiAddress. repeat constructor; rewrite ?string_app_length, ?be_bytes_length; unfold zeros;
        rewrite ?be_bytes_length; lia. }
    unfold decodeCompensationPayload.
    rewrite concat_words_length by done. simpl negb. cbv iota.
    rewrite (decodeABIAddress_word _ 0 asset), (decodeABIUint256_word _ 1 n),
      (decodeABIAddress_word _ 2 recipient) by done.
    repeat match goal with N : _ ≠ zero20 |- _ => apply String.eqb_neq in N; rewrite N end.
    reflexivity.
Qed.

(** * What the approvals bind *)

Lemma abiAddress_length a : String.length a = 20%nat → String.length (abiAddress a) = 32%nat.
Proof. intros Ha. unfold abiAddress, zeros. by rewrite string_app_length, be_bytes_length, Ha. Qed.

Lemma abiAddress_inj a b : abiAddress a = abiAddress b → a = b.
Proof. intros E. by apply string_app_inj_l in E as [_ E]. Qed.

Lemma abiUint256_Ok value word :
  abiUint256 value = Ok word → uint256 value = Ok word.
Proof.
  unfold abiUint256, uint256. destruct (Big.set_string value); [|done].
  destruct (_ || _); [done|]. by intros <-%Ok_inj.
Qed.

Lemma padded_app s : ∃ tail, padded s = s +:+ tail.
Proof.
  unfold padded. destruct (_ =? 0)%nat; [exists ""%string; by rewrite string_app_nil_r|eauto].
Qed.

Lemma abi_tagged_inj domain xs ys :
  length xs = length ys →
  Forall (λ w, String.length w = 32%nat) xs → Forall (λ w, String.length w = 32%nat) ys →
  abi_tagged domain xs = abi_tagged domain ys → xs = ys.
Proof.
  unfold abi_tagged. intros Hl Hx Hy E.
  destruct (padded_app (concat_words (abiUint64 (Z.of_nat (S (length xs)) * 32) :: xs) +:+
    abiUint64 (Z.of_nat (String.length domain)) +:+ domain)) as [t1 E1].
  destruct (padded_app (concat_words (abiUint64 (Z.of_nat (S (length ys)) * 32) :: ys) +:+
    abiUint64 (Z.of_nat (String.length domain)) +:+ domain)) as [t2 E2].
  rewrite E1, E2 in E. rewrite !(string_app_assoc (concat_words _)) in E.
  apply concat_words_inj in E; [by injection E|simpl; lia|..];
    (constructor; [apply uintWord_length|done]).
Qed.

Lemma authorizationWords_length a :
  request_widths a → Forall (λ w, String.length w = 32%nat) (authorizationWords a).
Proof.
  intros [Hb _ _ _ _]. split_forall. unfold authorizationWords, abiUint64.
  repeat (apply Forall_cons; split); auto using uintWord_length.
Qed.

Lemma authorizationWords_inj a b :
  request_widths a → request_widths b → authorizationWords a = authorizationWords b → a = b.
Proof.
  intros [_ A1 A2 A3 A4] [_ B1 B2 B3 B4] E. unfold authorizationWords, abiUint64 in E.
  repeat (apply cons_inj in E; destruct E as [? E]).
  repeat match goal with A : uintWord _ = uintWord _ |- _ => apply uintWord_inj in A; [|lia..] end.
  destruct a, b. simpl in *. by f_equal.
Qed.

Section Binding.
Context `{Keccak}.

(** The bytes hashed into the signed digest. *)
Definition authorization_preimage (z : Authorization) : string :=
  match abiUint256 (z_SourceChainID z), abiUint256 (z_DestinationChainID z) with
  | Ok sourceChain, Ok destinationChain =>
      abi_tagged "UNIFIED_XCHAIN_RECOVERY_AUTHORIZATION_V2"
        ([z_ProtocolID z; sourceChain; abiAddress (z_SourceCoordinator z);
          destinationChain; abiAddress (z_DestinationCoordinator z)] ++
         authorizationWords (z_Request z))
  | _, _ => ""%string
  end.

(** The bytes hashed into the commitment to the original action. *)
Definition commitment_preimage (t : Z) (payloadHash : string) : string :=
  abi_tagged "UNIFIED_RECOVERY_ASSET_AMOUNT_COMMITMENT_V1" [abiUint64 t; payloadHash].

(** A collision between the byte strings that two requests commit to. *)
Definition requests_collide (q1 q2 : Request) : Prop :=
  collides (commitment_preimage (r_OriginalActionType q1) (keccak (r_OriginalActionPayload q1)))
           (commitment_preimage (r_OriginalActionType q2) (keccak (r_OriginalActionPayload q2))) ∨
  collides (r_OriginalActionPayload q1) (r_OriginalActionPayload q2) ∨
  collides (r_CompensationPayload q1) (r_CompensationPayload q2) ∨
  collides (r_ReasonCode q1) (r_ReasonCode q2).

(** The signed digest determines the whole authorization. *)
Lemma DigestAuthorization_binds a b digest :
  authorization_widths a → authorization_widths b →
  DigestAuthorization a = Ok digest → DigestAuthorization b = Ok digest →
  a = b ∨ collides (authorization_preimage a) (authorization_preimage b).
Proof.
  intros Wa Wb. unfold DigestAuthorization.
  destruct (abiUint256 (z_SourceChainID a)) as [sa|] eqn:Esa; [|done].
  destruct (abiUint256 (z_DestinationChainID a)) as [da|] eqn:Eda; [|done].
  destruct (abiUint256 (z_SourceChainID b)) as [sb|] eqn:Esb; [|done].
  destruct (abiUint256 (z_DestinationChainID b)) as [db|] eqn:Edb; [|done].
  destruct (_ || _); [done|]. intros <-%Ok_inj. destruct (_ || _); [done|]. intros E%Ok_inj.
  symmetry in E. apply keccak_cases in E as [E|];
    [left|right; unfold authorization_preimage; by rewrite Esa, Eda, Esb, Edb].
  apply abiUint256_Ok in Esa, Eda, Esb, Edb.
  destruct Wa as [Ap As Ad Ar], Wb as [Bp Bs Bd Br].
  assert (∀ v w, uint256 v = Ok w → String.length w = 32%nat) as Hw.
  { intros v w (n & _ & _ & ->)%uint256_Ok. apply be_bytes_length. }
  apply abi_tagged_inj in E; [|done|apply Forall_app; split; [|by apply authorizationWords_length];
    repeat (apply Forall_cons; split); eauto using abiAddress_length..].
  apply app_inj_1 in E as [E Er]; [|done].
  repeat (apply cons_inj in E; destruct E as [? E]). subst.
  apply authorizationWords_inj in Er; [|done..].
  repeat match goal with A : abiAddress _ = abiAddress _ |- _ => apply abiAddress_inj in A end.
  pose proof (uint256_inj _ _ _ Esa Esb). pose proof (uint256_inj _ _ _ Eda Edb).
  destruct a, b; simpl in *. by subst.
Qed.

Lemma decodeActionEconomics_recipient t p x :
  decodeActionEconomics t p = Ok x → Recipient x = ""%string.
Proof.
  unfold decodeActionEconomics. destruct (action_layout t) as [[[ka km] n]|]; [|done].
  destruct (negb _); [done|]. destruct (decodeABIAddress _ _); [|done].
  destruct (decodeABIUint256 _ _); [|done]. by intros <-%Ok_inj.
Qed.

(** What [validateRecoveryEconomics] guarantees. *)
Record economics_valid (q : Request) (z : Authorization) : Prop := {
  ev_commitment : AssetAmountCommitment (r_OriginalActionType q) (keccak (r_OriginalActionPayload q))
    = Ok (ar_AssetAmountCommitment (z_Request z));
  ev_original : decodeActionEconomics (r_OriginalActionType q) (r_OriginalActionPayload q)
    = Ok (mkEconomics (r_AssetID q) (r_Units q) "");
  ev_compensation : decodeCompensationPayload (r_CompensationPayload q)
    = Ok (mkEconomics (r_AssetID q) (r_Units q) (r_CompensationRecipient q));
  ev_hash : keccak (r_CompensationPayload q) = ar_CompensationPayloadHash (z_Request z);
  ev_hash_request : keccak (r_CompensationPayload q) = r_CompensationPayloadHash q }.

Lemma validateRecoveryEconomics_Ok q :
  validateRecoveryEconomics q = Ok () → ∃ z, r_Authorization q = Some z ∧ economics_valid q z.
Proof.
  unfold validateRecoveryEconomics. destruct (r_Authorization q) as [z|]; [|done].
  destruct (_ || _); [done|].
  destruct (AssetAmountCommitment _ _) as [com|] eqn:Ec; [|done].
  destruct (_ || _) eqn:Hg1; [done|]. bool_facts.
  destruct (decodeActionEconomics _ _) as [[oa ou orc]|] eqn:Eo; [|done].
  destruct (decodeCompensationPayload _) as [[ca cu crc]|] eqn:Ep; [|done].
  destruct (_ || _) eqn:Hg2; [done|]. intros _. exists z. split; [done|].
  assert (orc = ""%string) as ->.
  { by apply decodeActionEconomics_recipient in Eo. }
  bool_facts. unfold keccakBytes in *. simpl in *. subst. constructor; congruence.
Qed.

Lemma AssetAmountCommitment_binds t1 p1 t2 p2 c :
  0 <= t1 < 256 → 0 <= t2 < 256 → String.length p1 = 32%nat → String.length p2 = 32%nat →
  AssetAmountCommitment t1 p1 = Ok c → AssetAmountCommitment t2 p2 = Ok c →
  (t1 = t2 ∧ p1 = p2) ∨ collides (commitment_preimage t1 p1) (commitment_preimage t2 p2).
Proof.
  unfold AssetAmountCommitment. intros Ht1 Ht2 Hp1 Hp2.
  destruct (_ || _); [done|]. intros <-%Ok_inj. destruct (_ || _); [done|]. intros E%Ok_inj.
  symmetry in E. apply keccak_cases in E as [E|]; [left|by right].
  apply abi_tagged_inj in E; [|done|repeat (apply Forall_cons; split); auto using uintWord_length..].
  repeat (apply cons_inj in E; destruct E as [? E]). split; [|congruence].
  eapply uintWord_inj; [| |eassumption]; lia.
Qed.

End Binding.

(** * The 2-of-3 policy *)

Section Approvals.
Context `{Keccak, Secp256k1}.

Lemma check_signers_Ok l seen :
  check_signers l seen = Ok () →
  NoDup l.*2 ∧ (∀ x, x ∈ l.*2 → (x ∉ seen) ∧ x ≠ zero20).
Proof.
  revert seen. induction l as [|[i x] l IH]; intros seen Hc.
  - split; [constructor|]. by intros x ?%elem_of_nil.
  - simpl in Hc. destruct (_ || _) eqn:Hg; [done|]. bool_facts.
    destruct (decide (x ∈ seen)); [done|]. destruct (IH _ Hc) as [Hd Hx]. split.
    + apply NoDup_cons. split; [|done]. intros Hin. destruct (Hx x Hin) as [Hn _]. set_solver.
    + intros y [->|Hy]%elem_of_cons; [done|]. destruct (Hx y Hy). split; [set_solver|done].
Qed.

(** A stored policy: three signers with three different addresses. *)
Record policy_ok (signers : gmap string string) : Prop := {
  po_size : size signers = 3%nat;
  po_inj : ∀ i j x, signers !! i = Some x → signers !! j = Some x → i = j;
  po_nonzero : ∀ i x, signers !! i = Some x → x ≠ zero20 }.

Lemma NoDup_snd_inj {A B} (l : list (A * B)) (i j : A) (x : B) :
  NoDup l.*2 → (i, x) ∈ l → (j, x) ∈ l → i = j.
Proof.
  induction l as [|[k y] l IH]; [by intros _ ?%elem_of_nil|].
  intros [Hy Hd]%NoDup_cons Hi Hj.
  apply elem_of_cons in Hi as [Hi|Hi], Hj as [Hj|Hj]; simplify_eq; [done| | |by apply IH];
    destruct Hy; by eapply (list_elem_of_fmap_2' snd).
Qed.

Lemma check_signers_policy signers :
  size signers = 3%nat → check_signers (map_to_list signers) ∅ = Ok () → policy_ok signers.
Proof.
  intros Hs [Hd Hx]%check_signers_Ok. split; [done| |].
  - intros i j x Hi%elem_of_map_to_list Hj%elem_of_map_to_list. by eapply NoDup_snd_inj.
  - intros i x Hi%elem_of_map_to_list. apply Hx, list_elem_of_fmap. by exists (i, x).
Qed.

Lemma NewSecp256k1Authorizer_policies ps a hash signers :
  NewSecp256k1Authorizer ps = Ok a → a !! hash = Some signers → policy_ok signers.
Proof.
  unfold NewSecp256k1Authorizer.
  assert (∀ acc, (∀ h s, acc !! h = Some s → policy_ok s) →
    policy_loop ps acc = Ok a → a !! hash = Some signers → policy_ok signers) as Hloop.
  { induction ps as [|p ps IH]; intros acc Hacc Hl Ha; [by simplify_eq/=; eauto|]. simpl in Hl.
    destruct (_ || _) eqn:Hg; [done|]. bool_facts.
    destruct (check_signers _ _) as [[]|] eqn:Hc; [|done]. destruct (has_key _ _); [done|].
    eapply IH; [|done..]. intros h s [[<- <-]|[_ Hs]]%lookup_insert_Some; [|eauto].
    apply check_signers_policy; [|done]. by apply Nat.eqb_eq. }
  apply Hloop. by intros h s ?%lookup_empty_Some.
Qed.

Lemma approval_loop_Ok signers digest approvals seen valid n :
  approval_loop signers digest approvals seen valid = Ok n →
  n = valid + Z.of_nat (length approvals) ∧ NoDup (SignerID <$> approvals) ∧
  (∀ ap, ap ∈ approvals → (SignerID ap ∉ seen) ∧ ∃ address, signers !! SignerID ap = Some address ∧
     VerifyEthereumSignature digest (Signature ap) = Ok address).
Proof.
  revert seen valid. induction approvals as [|ap aps IH]; intros seen valid Hl.
  - apply Ok_inj in Hl as <-. split_and!; [simpl; lia|constructor|]. by intros ap ?%elem_of_nil.
  - simpl in Hl. destruct (signers !! SignerID ap) as [x|] eqn:Ex; [|done].
    destruct (decide (SignerID ap ∈ seen)); [done|].
    destruct (VerifyEthereumSignature _ _) as [rx|] eqn:Ev; [|done].
    destruct (rx <>s x) eqn:Hg; [done|]. bool_facts. subst rx.
    destruct (IH _ _ Hl) as (-> & Hd & Hall). split_and!.
    + simpl. lia.
    + apply NoDup_cons. split; [|done]. intros (ap' & Hid & Hin)%list_elem_of_fmap.
      destruct (Hall ap' Hin) as [Hn _]. rewrite <- Hid in Hn. set_solver.
    + intros ap' [->|Hin]%elem_of_cons; [by eauto|].
      destruct (Hall ap' Hin) as [Hn Hs]. split; [set_solver|done].
Qed.

(** What [Verify] establishes. *)
Record verified_request (a : Secp256k1Authorizer) (q : Request) (z : Authorization)
    (digest : string) (signers : gmap string string) : Prop := {
  vr_authorization : r_Authorization q = Some z;
  vr_policy : a !! r_AuthorizerPolicyHash q = Some signers;
  vr_digest : DigestAuthorization z = Ok digest;
  vr_matches : authorization_matches q (z_Request z) = true;
  vr_economics : economics_valid q z;
  vr_id : ∃ id, RecoveryID_of (z_Request z) = Ok id ∧ r_RecoveryID q = hex id;
  vr_count : (2 <= length (r_Approvals q))%nat;
  vr_approvals : NoDup (SignerID <$> r_Approvals q) ∧
    ∀ ap, ap ∈ r_Approvals q → ∃ address, signers !! SignerID ap = Some address ∧
      VerifyEthereumSignature digest (Signature ap) = Ok address }.

Lemma Verify_Ok a q :
  Verify a q = Ok () → ∃ z digest signers, verified_request a q z digest signers.
Proof.
  unfold Verify. destruct (a !! _) as [signers|] eqn:Ea; [|done].
  destruct (r_Authorization q) as [z|] eqn:Ez; [|done].
  destruct (_ || _) eqn:Hg; [done|]. apply orb_false_iff in Hg as [Hlen Hm].
  apply Nat.ltb_ge in Hlen. apply negb_false_iff in Hm.
  destruct (validateRecoveryEconomics q) as [[]|] eqn:Hv; [|done].
  apply validateRecoveryEconomics_Ok in Hv as (z' & Ez' & Hev). rewrite Ez in Ez'.
  injection Ez' as <-.
  destruct (RecoveryID_of _) as [id|] eqn:Hid; [|done].
  destruct (r_RecoveryID q <>s hex id) eqn:Hh; [done|]. bool_facts.
  destruct (DigestAuthorization z) as [digest|] eqn:Hd; [|done].
  destruct (approval_loop _ _ _ _ _) as [n|] eqn:Hl; [|done]. intros _.
  destruct (approval_loop_Ok _ _ _ _ _ _ Hl) as (_ & Hnd & Hall).
  exists z, digest, signers. constructor; try done; [by exists id|].
  split; [done|]. intros ap Hin. by destruct (Hall ap Hin).
Qed.

(** No recovery without two of three signers. A request that the authorizer
    accepts carries two approvals of different registered signers whose signatures
    over the authorization digest recover two different non-zero addresses of the
    policy the request names, a policy of exactly three signers; every approval it
    carries is of this kind and no signer is counted twice; the authorization
    repeats the request's own message, hashes, nonce and expiry; and the recovery
    id is the one derived from it. *)
Theorem two_signers_required (ps : list Secp256k1Policy) (a : Secp256k1Authorizer) (q : Request) :
  NewSecp256k1Authorizer ps = Ok a → Verify a q = Ok () →
  ∃ z digest signers, r_Authorization q = Some z ∧ DigestAuthorization z = Ok digest ∧
    a !! r_AuthorizerPolicyHash q = Some signers ∧ size signers = 3%nat ∧
    authorization_matches q (z_Request z) = true ∧
    (∃ id, RecoveryID_of (z_Request z) = Ok id ∧ r_RecoveryID q = hex id) ∧
    NoDup (SignerID <$> r_Approvals q) ∧
    Forall (λ ap, ∃ x, signers !! SignerID ap = Some x ∧
      VerifyEthereumSignature digest (Signature ap) = Ok x) (r_Approvals q) ∧
    ∃ ap1 ap2 x1 x2, ap1 ∈ r_Approvals q ∧ ap2 ∈ r_Approvals q ∧
      SignerID ap1 ≠ SignerID ap2 ∧ x1 ≠ x2 ∧ x1 ≠ zero20 ∧ x2 ≠ zero20 ∧
      VerifyEthereumSignature digest (Signature ap1) = Ok x1 ∧
      VerifyEthereumSignature digest (Signature ap2) = Ok x2.
Proof.
  intros Ha (z & digest & signers & [Hz Hp Hd Hm He Hid Hc [Hnd Hall]])%Verify_Ok.
  destruct (NewSecp256k1Authorizer_policies _ _ _ _ Ha Hp) as [Hs Hinj Hnz].
  exists z, digest, signers. split_and!; try done; [by apply Forall_forall|].
  destruct (r_Approvals q) as [|ap1 [|ap2 aps]]; [simpl in Hc; lia..|].
  destruct (Hall ap1) as (x1 & Hr1 & Hv1); [by left|].
  destruct (Hall ap2) as (x2 & Hr2 & Hv2); [by right; left|].
  assert (SignerID ap1 ≠ SignerID ap2) as Hne.
  { apply NoDup_cons in Hnd as [Hn _]. intros E. apply Hn. simpl. rewrite E. by left. }
  exists ap1, ap2, x1, x2. split_and!; try done; eauto; [by left|by right; left|].
  intros ->. apply Hne. by eapply Hinj.
Qed.

(** A request with other unsigned fields: its route version, approvals and time. *)
Definition with_unsigned (version : Z) (approvals : list Approval) (at_ : Time.t) (r : Request)
    : Request :=
  mkRequest (r_RecoveryID r) (r_OriginalMessageID r) (r_ImmutableEnvelopeHash r)
    (r_RecoveryNonce r) version (r_OriginalActionType r) (r_OriginalActionPayload r)
    (r_AssetID r) (r_Units r) (r_CompensationRecipient r) (r_CompensationPayload r)
    (r_ReasonCode r) (r_SourceStateCommitment r) (r_DestinationStateCommitment r)
    (r_AuthorizerPolicyHash r) (r_RoutePolicyHash r) (r_AssetAmountCommitment r)
    (r_CompensationPayloadHash r) (r_MessageExpiresAt r) (r_Action r)
    (r_AuthorizerSetVersion r) (r_Authorization r) approvals at_.

Lemma verified_request_binds a1 a2 q1 q2 z digest s1 s2 :
  verified_request a1 q1 z digest s1 → verified_request a2 q2 z digest s2 →
  0 <= r_OriginalActionType q1 < 256 → 0 <= r_OriginalActionType q2 < 256 →
  q1 = with_unsigned (r_RouteVersion q1) (r_Approvals q1) (r_RequestedAt q1) q2 ∨
  requests_collide q1 q2.
Proof.
  intros [Hz1 _ _ Hm1 He1 (id & Hi1 & Hid1) _ _] [Hz2 _ _ Hm2 He2 (id' & Hi2 & Hid2) _ _] Ht1 Ht2.
  rewrite Hi1 in Hi2. injection Hi2 as <-.
  destruct He1 as [C1 O1 P1 H1 _], He2 as [C2 O2 P2 H2 _].
  destruct (AssetAmountCommitment_binds _ _ _ _ _ Ht1 Ht2 (keccak_length _) (keccak_length _) C1 C2)
    as [[Et Ep]|]; [|by right; left].
  apply keccak_cases in Ep as [Ep|]; [|by right; right; left].
  rewrite <- H2 in H1. apply keccak_cases in H1 as [Ec|]; [|by right; right; right; left].
  unfold authorization_matches, ReasonCodeCommitment in *. bool_facts.
  assert (keccak (r_ReasonCode q1) = keccak (r_ReasonCode q2)) as Er by congruence.
  apply keccak_cases in Er as [Er|]; [left|by right; right; right; right].
  rewrite <- Et, <- Ep in O2. rewrite O1 in O2. rewrite <- Ec in P2. rewrite P1 in P2.
  destruct q1, q2. unfold with_unsigned. simpl in *. f_equal; congruence.
Qed.

(** The signatures bind the whole recovery. Two accepted requests whose
    authorizations have the same digest (so that one set of signatures approves
    both) are the same request: message, envelope hash, nonce, original action and
    payload, asset, units, recipient, compensation payload, reason, commitments,
    policy and authorization all agree, unless the authorizations'
    pre-images, or byte strings the requests commit to, are a Keccak-256 collision.
    Only the route version, the time and the approvals themselves are
    outside the signature. *)
Theorem approvals_bind_request (a1 a2 : Secp256k1Authorizer) (q1 q2 : Request) (z1 z2 : Authorization)
    (digest : string) :
  Verify a1 q1 = Ok () → Verify a2 q2 = Ok () →
  r_Authorization q1 = Some z1 → r_Authorization q2 = Some z2 →
  authorization_widths z1 → authorization_widths z2 →
  0 <= r_OriginalActionType q1 < 256 → 0 <= r_OriginalActionType q2 < 256 →
  DigestAuthorization z1 = Ok digest → DigestAuthorization z2 = Ok digest →
  q1 = with_unsigned (r_RouteVersion q1) (r_Approvals q1) (r_RequestedAt q1) q2 ∨
  requests_collide q1 q2 ∨ collides (authorization_preimage z1) (authorization_preimage z2).
Proof.
  intros V1 V2 Z1 Z2 W1 W2 T1 T2 D1 D2.
  destruct (DigestAuthorization_binds _ _ _ W1 W2 D1 D2) as [->|]; [|by right; right].
  apply Verify_Ok in V1 as (z & d & s1 & V1), V2 as (z' & d' & s2 & V2).
  pose proof (vr_authorization _ _ _ _ _ V1). pose proof (vr_authorization _ _ _ _ _ V2).
  pose proof (vr_digest _ _ _ _ _ V1). pose proof (vr_digest _ _ _ _ _ V2).
  simplify_eq. assert (d = d') as <- by congruence.
  destruct (verified_request_binds _ _ _ _ _ _ _ _ V1 V2 T1 T2); [by left|by right; left].
Qed.

End Approvals.

(** * The life of a recovery *)

Section Lifecycle.
Context `{Keccak} {W E : Type}.

(** One call of any method, with any arguments and any destination. *)
Inductive manager_step (m : Manager) : Manager → Prop :=
| call_request q : manager_step m (Request_ q m).1
| call_tombstone id (d : option (Destination W E)) w : manager_step m (Tombstone_ id d m w).1.1
| call_compensate c : manager_step m (Compensate c m).1
| call_finalize id ack : manager_step m (Finalize id ack m).1
| call_replace id new : manager_step m (AuthorizeReplacement id new m).1.

(** The stages of a record, with what has been established at each. *)
Definition stage_ok (rec : Record_) : Prop :=
  match rec_Tombstone rec, rec_Compensation rec with
  | None, None => rec_State rec = Requested
  | Some _, None => rec_State rec = DestinationTombstoned
  | Some t, Some c =>
      (rec_State rec = SourceCompensated ∨
       rec_State rec = Recovered ∧ rec_RecoveryAck rec ≠ zero32) ∧
      c_TombstoneHash c = t_Hash t
  | None, Some _ => False
  end.

Record record_ok (auth : Authorizer) (id : string) (rec : Record_) : Prop := {
  ok_id : r_OriginalMessageID (rec_Request rec) = id;
  ok_approved : ∃ q, auth q = Ok () ∧ validateRecoveryEconomics q = Ok () ∧
    rec_Request rec = with_approvals (canonicalApprovals (r_Approvals q)) q;
  ok_stage : stage_ok rec;
  ok_tombstone : ∀ t, rec_Tombstone rec = Some t →
    t_OriginalMessageID t = id ∧ t_Hash t ≠ zero32 ∧ t_FinalityProofHash t ≠ zero32;
  ok_compensation : ∀ c, rec_Compensation rec = Some c →
    c_OriginalMessageID c = id ∧ c_Payload c = r_CompensationPayload (rec_Request rec) ∧
    c_AssetID c = r_AssetID (rec_Request rec) ∧ c_Units c = r_Units (rec_Request rec) ∧
    c_Recipient c = r_CompensationRecipient (rec_Request rec);
  ok_replacement : rec_SupersededBy rec ≠ zero32 →
    rec_State rec = Recovered ∧ rec_SupersededBy rec ≠ id }.

(** Later versions of a record keep everything that was established. *)
Record later (rec rec' : Record_) : Prop := {
  later_request : rec_Request rec' = rec_Request rec;
  later_tombstone : ∀ t, rec_Tombstone rec = Some t → rec_Tombstone rec' = Some t;
  later_compensation : ∀ c, rec_Compensation rec = Some c → rec_Compensation rec' = Some c;
  later_recovered : rec_State rec = Recovered →
    rec_State rec' = Recovered ∧ rec_RecoveryAck rec' = rec_RecoveryAck rec;
  later_replacement : rec_SupersededBy rec ≠ zero32 → rec_SupersededBy rec' = rec_SupersededBy rec }.

#[local] Instance later_refl : Reflexive later.
Proof. intros rec. by split. Qed.
#[local] Instance later_trans : Transitive later.
Proof.
  intros a b c [Q1 T1 C1 R1 S1] [Q2 T2 C2 R2 S2]. split; [congruence|eauto|eauto| |].
  - intros Hs. destruct (R1 Hs) as [Hs' Ha]. destruct (R2 Hs'). split; [done|congruence].
  - intros Hs. rewrite S2; [by apply S1|]. by rewrite S1.
Qed.

(** Every call leaves the records as they are, adds one, or replaces one by a
    later version. *)
Record changes (m m' : Manager) : Prop := {
  ch_authorizer : authorizer m' = authorizer m;
  ch_records : records m' = records m ∨
    ∃ id rec', record_ok (authorizer m) id rec' ∧ records m' = <[id := rec']> (records m) ∧
      (∀ rec, records m !! id = Some rec → later rec rec') }.

Lemma changes_refl m : changes m m.
Proof. split; auto. Qed.

Lemma changes_put m id rec' :
  record_ok (authorizer m) id rec' → (∀ rec, records m !! id = Some rec → later rec rec') →
  changes m (put_record id rec' m).
Proof. intros Hok Hl. split; [done|]. right. by exists id, rec'. Qed.

Definition manager_ok (m : Manager) : Prop :=
  ∀ id rec, records m !! id = Some rec → record_ok (authorizer m) id rec.

Lemma with_approvals_economics aps q :
  validateRecoveryEconomics (with_approvals aps q) = validateRecoveryEconomics q.
Proof. done. Qed.

Lemma request_changes q m : changes m (Request_ q m).1.
Proof.
  unfold Request_. destruct (_ || _); [apply changes_refl|].
  destruct (validateRecoveryEconomics q) as [[]|] eqn:Hv; [|apply changes_refl].
  destruct (authorizer m q) as [[]|] eqn:Ha; [|apply changes_refl].
  destruct (records m !! _) as [existing|] eqn:El.
  - destruct (negb _); apply changes_refl.
  - apply changes_put; [|intros rec Hrec; by rewrite El in Hrec].
    constructor; try done. by exists q.
Qed.

Lemma tombstone_changes id (d : option (Destination W E)) m w :
  manager_ok m → changes m (Tombstone_ id d m w).1.1.
Proof.
  intros Hm. unfold Tombstone_. destruct d as [d|]; [|apply changes_refl].
  destruct (records m !! id) as [rec|] eqn:El; [|apply changes_refl].
  destruct (ExecutionResult d id w) as [w1 []]; [apply changes_refl|].
  destruct (rec_Tombstone rec) as [t|] eqn:Et; [apply changes_refl|].
  destruct (CreateTombstone _ _ _) as [w2 [t|]]; [|apply changes_refl].
  destruct (_ || _) eqn:Hg; [apply changes_refl|]. bool_facts.
  destruct (Hm id rec El) as [Hid Ha Hs _ Hc Hr]. unfold stage_ok in Hs. rewrite Et in Hs.
  destruct (rec_Compensation rec) as [c|] eqn:Ec; [done|].
  assert (rec_State rec ≠ Recovered) as Hne by (rewrite Hs; done).
  apply changes_put.
  - constructor; simpl; try done; [|by intros S; destruct Hne; apply Hr].
    intros t' [= <-]. split_and!; by subst.
  - intros r Hr'. simplify_eq. constructor; simpl; try done; congruence.
Qed.

Lemma compensate_changes c m : manager_ok m → changes m (Compensate c m).1.
Proof.
  intros Hm. unfold Compensate.
  destruct (records m !! _) as [rec|] eqn:El; [|apply changes_refl].
  destruct (rec_Tombstone rec) as [t|] eqn:Et; [|apply changes_refl].
  destruct (rec_Compensation rec) as [c'|] eqn:Ec; [destruct (negb _); apply changes_refl|].
  destruct (_ || _) eqn:Hg; [apply changes_refl|]. bool_facts.
  destruct (Hm _ rec El) as [Hid Ha Hs Ht _ Hr]. unfold stage_ok in Hs. rewrite Et, Ec in Hs.
  assert (rec_State rec ≠ Recovered) as Hne by (rewrite Hs; done).
  apply changes_put.
  - rewrite Et in Ht. constructor; simpl; try done.
    + unfold stage_ok. simpl. split; [by left|done].
    + by intros c' [= <-].
    + intros S. by destruct Hne; apply Hr.
  - intros r Hr'. simplify_eq. constructor; simpl; try done; congruence.
Qed.

Lemma finalize_changes id ack m : manager_ok m → changes m (Finalize id ack m).1.
Proof.
  intros Hm. unfold Finalize. destruct (ack =s zero32) eqn:Hz; [apply changes_refl|].
  destruct (records m !! id) as [rec|] eqn:El; [|apply changes_refl].
  destruct (_ && _); [apply changes_refl|].
  destruct (_ || _) eqn:Hg; [apply changes_refl|]. bool_facts.
  destruct (rec_Compensation rec) as [c|] eqn:Ec; [|done].
  destruct (Hm _ rec El) as [Hid Ha Hs Ht Hc Hr]. unfold stage_ok in Hs. rewrite Ec in Hs.
  destruct (rec_Tombstone rec) as [t|] eqn:Et; [|done]. destruct Hs as [_ Hh].
  assert (rec_State rec ≠ Recovered) as Hne by (match goal with S : rec_State rec = _ |- _ => rewrite S end; done).
  apply changes_put.
  - rewrite Ec in Hc. constructor; simpl; try done.
    + unfold stage_ok. simpl. split; [by right|done].
    + intros S. split; [done|]. by apply Hr.
  - intros r Hr'. simplify_eq. constructor; simpl; try done; congruence.
Qed.

Lemma replacement_changes id new m : manager_ok m → changes m (AuthorizeReplacement id new m).1.
Proof.
  intros Hm. unfold AuthorizeReplacement.
  destruct (records m !! id) as [rec|] eqn:El; [|apply changes_refl].
  destruct (_ || _) eqn:Hg; [apply changes_refl|]. bool_facts.
  destruct (_ || _) eqn:Hg2; [apply changes_refl|]. bool_facts.
  destruct (_ && _) eqn:Hg3; [apply changes_refl|].
  destruct (Hm _ rec El) as [Hid Ha Hs Ht Hc Hr].
  apply changes_put.
  - by constructor.
  - intros r Hr'. simplify_eq. constructor; simpl; try done. intros S.
    apply andb_false_iff in Hg3 as [E1|E1]; apply negb_false_iff, String.eqb_eq in E1; congruence.
Qed.

Lemma manager_step_changes m m' : manager_ok m → manager_step m m' → changes m m'.
Proof.
  intros Hm [q|id d w|c|id ack|id new]; [apply request_changes|by apply tombstone_changes|
    by apply compensate_changes|by apply finalize_changes|by apply replacement_changes].
Qed.

Lemma changes_ok m m' : manager_ok m → changes m m' → manager_ok m'.
Proof.
  intros Hm [Ha [Hr|(id & rec & Hok & Hr & _)]] i r Hi; rewrite Ha; rewrite Hr in Hi; [by apply Hm|].
  by apply lookup_insert_Some in Hi as [[<- <-]|[_ Hi]]; [|apply Hm].
Qed.

Lemma changes_later m m' id rec :
  changes m m' → records m !! id = Some rec →
  ∃ rec', records m' !! id = Some rec' ∧ later rec rec'.
Proof.
  intros [_ [->|(i & rec' & _ & -> & Hl)]] Hid; [by exists rec; split|].
  destruct (decide (i = id)) as [->|Hne].
  - exists rec'. rewrite lookup_insert_eq. auto.
  - exists rec. rewrite lookup_insert_ne by done. by split.
Qed.

Lemma steps_ok m m' :
  manager_ok m → rtc manager_step m m' → manager_ok m' ∧ authorizer m' = authorizer m ∧
  ∀ id rec, records m !! id = Some rec → ∃ rec', records m' !! id = Some rec' ∧ later rec rec'.
Proof.
  intros Hm Hs. revert Hm. induction Hs as [m|m m1 m' Hstep _ IH]; intros Hm.
  - split_and!; [done..|]. intros id rec Hid. by exists rec.
  - pose proof (manager_step_changes _ _ Hm Hstep) as Hc.
    destruct (IH (changes_ok _ _ Hm Hc)) as (Hm' & Ha & Hl). split_and!; [done| |].
    + rewrite Ha. apply Hc.
    + intros id rec Hid. destruct (changes_later _ _ _ _ Hc Hid) as (r1 & H1 & L1).
      destruct (Hl _ _ H1) as (r2 & H2 & L2). exists r2. split; [done|]. by transitivity r1.
Qed.

(** C34: a recovery compensates once, after a tombstone, and exactly what was
    signed. In every manager reached by any calls with any destinations, a
    compensation is recorded only for a request the authorizer accepted, against
    the tombstone of the same message; its asset and units are the ones the
    original action payload encodes and its recipient the one of the signed
    compensation payload. A message is replaced only after its recovery is
    finalized. Nothing that was recorded (request, tombstone, compensation,
    acknowledgement, replacement) is ever changed by later calls, and a tombstone
    is answered only when the destination reports that it has not executed. *)
Theorem recovery_sound (auth : Authorizer) (m0 m m' : Manager) (id : string) (rec : Record_) :
  NewManager (Some auth) = Ok m0 → rtc manager_step m0 m → records m !! id = Some rec →
  rtc manager_step m m' →
  (∀ c, rec_Compensation rec = Some c →
     ∃ q t, auth q = Ok () ∧ rec_Request rec = with_approvals (canonicalApprovals (r_Approvals q)) q ∧
       rec_Tombstone rec = Some t ∧ t_OriginalMessageID t = id ∧ r_OriginalMessageID q = id ∧
       c_OriginalMessageID c = id ∧ c_TombstoneHash c = t_Hash t ∧
       decodeActionEconomics (r_OriginalActionType q) (r_OriginalActionPayload q)
         = Ok (mkEconomics (c_AssetID c) (c_Units c) "") ∧
       decodeCompensationPayload (c_Payload c)
         = Ok (mkEconomics (c_AssetID c) (c_Units c) (c_Recipient c))) ∧
  (rec_SupersededBy rec ≠ zero32 → rec_State rec = Recovered ∧ rec_Compensation rec ≠ None) ∧
  (∃ rec', records m' !! id = Some rec' ∧ later rec rec') ∧
  (∀ (d : Destination W E) w m1 w1 rec1, Tombstone_ id (Some d) m w = (m1, w1, Ok rec1) →
     (ExecutionResult d id w).2 = false ∧ is_Some (rec_Tombstone rec1) ∧ later rec rec1).
Proof.
  intros Hn Hr Hid Hs. injection Hn as <-.
  assert (manager_ok (mkManager auth ∅)) as H0 by (intros i r Hx; simpl in Hx; by apply lookup_empty_Some in Hx).
  destruct (steps_ok _ _ H0 Hr) as (Hm & Ha & _).
  simpl in Ha. destruct (steps_ok _ _ Hm Hs) as (_ & _ & Hl).
  pose proof (Hm _ _ Hid) as [Oid (q & Oq & Ov & Oe) Os Ot Oc Or]. rewrite Ha in Oq.
  unfold stage_ok in Os. split_and!.
  - intros c Hc. rewrite Hc in Os. destruct (rec_Tombstone rec) as [t|] eqn:Et; [|done].
    destruct Os as [_ Oh]. destruct (Ot t eq_refl) as (T1 & _).
    destruct (Oc c Hc) as (C1 & C2 & C3 & C4 & C5).
    apply validateRecoveryEconomics_Ok in Ov as (z & _ & [_ V1 V2 _ _]).
    rewrite Oe in *. simpl in *. exists q, t. rewrite C2, C3, C4, C5. by split_and!.
  - intros S. destruct (Or S) as [Hst _]. split; [done|]. intros Hc. rewrite Hc in Os.
    destruct (rec_Tombstone rec); rewrite Os in Hst; done.
  - by apply Hl.
  - intros d w m1 w1 rec1 Ht. pose proof (tombstone_changes id (Some d) m w Hm) as Hch.
    rewrite Ht in Hch. simpl in Hch. destruct (changes_later _ _ _ _ Hch Hid) as (r & Hr1 & Lr).
    unfold Tombstone_ in Ht. rewrite Hid in Ht.
    destruct (ExecutionResult d id w) as [w2 []]; [done|]. split; [done|].
    destruct (rec_Tombstone rec) as [t|] eqn:Et; [by simplify_eq; rewrite Et; split|].
    destruct (CreateTombstone _ _ _) as [w3 [t|]]; [|done].
    destruct (_ || _); [done|]. simplify_eq/=.
    split; [by eexists|]. rewrite lookup_insert_eq in Hr1. by injection Hr1 as ->.
Qed.

End Lifecycle.

(** * A concrete recovery *)

Module Sample.
Import Message.Sample.

(** A stand-in curve: the recovered key is the scalar [r], written twice. *)
#[export] Instance toy_curve : Secp256k1 :=
  {| order := 1000; PublicKey := string;
     RecoverCompact compact _ := Some (slice compact 1 32);
     SerializeUncompressed key := be_bytes 1 4 +:+ key +:+ key |}.

Definition address (r : Z) : string := slice (keccak (b32 r +:+ b32 r)) 12 20.
Definition sign (r : Z) : string := b32 r +:+ b32 5 +:+ be_bytes 1 27.

Definition message : Envelope := draft 1 200.
Definition payload : string := match EncodeTypedActionABI message with Ok p => p | Err _ => "" end.
Definition compensation_payload : string :=
  match EncodeCompensationPayload (b20 15) "1000" (b20 77) with Ok p => p | Err _ => "" end.
Definition commitment : string :=
  match AssetAmountCommitment 1 (keccak payload) with Ok c => c | Err _ => "" end.
Definition policy : Secp256k1Policy :=
  mkPolicy (b32 40) {["s1" := address 1; "s2" := address 2; "s3" := address 3]}.
Definition signed : AuthorizationRequest :=
  mkAuthorizationRequest (b32 30) (b32 31) (b32 32) commitment (b32 33) (b32 34)
    (keccak compensation_payload) 200 1 (ReasonCodeCommitment "STUCK") 1 (b32 40) 1.
Definition authorization : Authorization :=
  mkAuthorization (b32 50) "1" (b20 51) "10" (b20 52) signed.
Definition request : Request :=
  mkRequest (match RecoveryID_of signed with Ok id => hex id | Err _ => "" end)
    (b32 30) (b32 31) 1 1 1 payload (canonicalAddress (b20 15)) "1000" (canonicalAddress (b20 77))
    compensation_payload "STUCK" (b32 33) (b32 34) (b32 40) (b32 32) commitment
    (keccak compensation_payload) 200 1 1 (Some authorization)
    [mkApproval "s3" (sign 3); mkApproval "s1" (sign 1)] (Time.mk 9 "").
Definition accepting : Secp256k1Authorizer :=
  match NewSecp256k1Authorizer [policy] with Ok a => a | Err _ => ∅ end.

Lemma policy_accepted : is_ok (NewSecp256k1Authorizer [policy]) = true.
Proof. vm_compute. reflexivity. Qed.
Lemma accepting_new : NewSecp256k1Authorizer [policy] = Ok accepting.
Proof. pose proof policy_accepted. unfold accepting. by destruct (NewSecp256k1Authorizer _). Qed.
Lemma request_verified : Verify accepting request = Ok ().
Proof. vm_compute. reflexivity. Qed.
Lemma payload_encoded : EncodeTypedActionABI message = Ok payload.
Proof. vm_compute. reflexivity. Qed.
Lemma compensation_encoded :
  EncodeCompensationPayload (b20 15) "1000" (b20 77) = Ok compensation_payload.
Proof. vm_compute. reflexivity. Qed.
Lemma digest_ok : is_ok (DigestAuthorization authorization) = true.
Proof. vm_compute. reflexivity. Qed.
Lemma authorization_ok : authorization_widths authorization.
Proof.
  repeat constructor; vm_compute; congruence.
Qed.

Lemma economics_roundtrip_witness :
  decodeActionEconomics 1 payload = Ok (mkEconomics (canonicalAddress (b20 15)) "1000" "").
Proof.
  exact (proj1 (economics_roundtrip message payload (b20 15) "1000" (b20 77) compensation_payload
    payload_encoded eq_refl eq_refl compensation_encoded)).
Defined.

Lemma two_signers_required_witness :
  Verify accepting request = Ok () ∧ ∃ signers : gmap string string, size signers = 3%nat.
Proof.
  split; [exact request_verified|].
  destruct (two_signers_required [policy] accepting request accepting_new request_verified)
    as (_ & _ & signers & _ & _ & _ & Hs & _). by exists signers.
Defined.

Lemma approvals_bind_request_witness :
  request = with_unsigned 1 (r_Approvals request) (Time.mk 9 "") request ∨
  requests_collide request request ∨
  collides (authorization_preimage authorization) (authorization_preimage authorization).
Proof.
  pose proof digest_ok as Hd.
  destruct (DigestAuthorization authorization) as [d|] eqn:E; [|discriminate Hd].
  exact (approvals_bind_request accepting accepting request request authorization authorization d
    request_verified request_verified eq_refl eq_refl authorization_ok authorization_ok
    ltac:(simpl; lia) ltac:(simpl; lia) E E).
Defined.

(** Request, tombstone and compensation in order. *)
Definition tombstone : Tombstone := mkTombstone (b32 30) (b32 60) (b32 61) (Time.mk 10 "").
Definition destination : Destination () () :=
  mkDestination _ _ (λ _ w, (w, false)) (λ _ w, (w, Ok tombstone)).
Definition compensation : Compensation :=
  mkCompensation (b32 30) (b32 60) compensation_payload (b32 62) (canonicalAddress (b20 15))
    (canonicalAddress (b20 77)) "1000" (Time.mk 11 "").
Definition m0 : Manager := mkManager (Verify accepting) ∅.
Definition m1 : Manager := (Request_ request m0).1.
Definition m2 : Manager := (Tombstone_ (b32 30) (Some destination) m1 ()).1.1.
Definition m3 : Manager := (Compensate compensation m2).1.
Definition recorded : Record_ :=
  mkRecord (with_approvals (canonicalApprovals (r_Approvals request)) request) SourceCompensated
    (Some tombstone) (Some compensation) zero32 zero32.

Lemma m3_steps : rtc (@manager_step _ () ()) m0 m3.
Proof.
  apply (rtc_l _ m0 m1 m3 (call_request m0 request)).
  apply (rtc_l _ m1 m2 m3 (call_tombstone m1 (b32 30) (Some destination) ())).
  exact (rtc_once m2 m3 (call_compensate m2 compensation)).
Qed.
Lemma m3_record : records m3 !! b32 30 = Some recorded.
Proof. vm_compute. reflexivity. Qed.

Lemma recovery_sound_witness :
  records m3 !! b32 30 = Some recorded ∧
  decodeCompensationPayload compensation_payload
    = Ok (mkEconomics (canonicalAddress (b20 15)) "1000" (canonicalAddress (b20 77))).
Proof.
  split; [exact m3_record|].
  destruct (recovery_sound (Verify accepting) m0 m3 m3 (b32 30) recorded eq_refl m3_steps m3_record
    (rtc_refl _ _)) as (Hc & _).
  destruct (Hc compensation eq_refl) as (q & t & _ & _ & _ & _ & _ & _ & _ & _ & Hd). exact Hd.
Defined.
End Sample.
