(* ===== verification/ChainTypes.v ===== *)
(** The vocabulary of the chain indexer ([chain-indexer/projection]): the error
    values of the package, decoded events, blocks, the projected snapshot and the
    evidence that the indexer hands to other packages. Plain data, without the
    operations that produce it. *)
From S2P Require Import Prelude GoStd.

(** * Errors of the package *)

Inductive error :=
| ErrInvalidBlock | ErrUnknownParent | ErrDuplicateEvent (id : string) (height : Z)
| ErrInvalidEvent | ErrInvalidIndexerConfig | ErrInvalidTransactionFailure
| ErrUnauthenticatedBlock | ErrInvalidHeaderEvidence | ErrInvalidInclusionProof.

(** * Constants *)

Definition Provisional : string := "PROVISIONAL".
Definition Final : string := "FINAL".
Definition TenderPublished : string := "TenderPublished".
Definition OfferSelected : string := "OfferSelected".
Definition LoanActivated : string := "LoanActivated".
Definition PrincipalRepaid : string := "PrincipalRepaid".
Definition LoanClosed : string := "LoanClosed".
Definition CanonicalSettlementExecuted : string := "CanonicalSettlementExecuted".
Definition ReorgPreFinality : string := "PRE_FINALITY".
Definition ReorgDeepFinality : string := "DEEP_FINALITY".
Definition TransactionReverted : string := "REVERTED".
Definition TransactionSucceeded : string := "SUCCEEDED".

(** * Events and blocks *)

Record Event := mkEvent {
  ev_ID : string; ev_Type : string; ev_TxHash : string; ev_LogIndex : Z; ev_BlockNumber : Z;
  ev_BlockHash : string; ev_ChainID : Z; ev_TenderID : string; ev_OfferID : string;
  ev_LoanID : string; ev_BorrowerID : string; ev_LenderID : string; ev_AssetID : string;
  ev_AmountUnits : string; ev_PaymentID : string; ev_AllocationID : string;
  ev_InstructionDigest : string; ev_PolicySetHash : string; ev_LoanAccount : string;
  ev_Finalizer : string; ev_Attester : string; ev_SourceAssetID : string;
  ev_TargetToken : string; ev_SourceUnits : string; ev_GrossUnits : string;
  ev_ProviderIDHash : string; ev_ProviderReferenceHash : string; ev_ReconciliationID : string;
  ev_ReconciliationCommitment : string; ev_OriginalJournalSetHash : string;
  ev_ConversionPolicyHash : string; ev_FinalityPolicyHash : string; ev_EvidenceHash : string;
  ev_JournalRef : string; ev_ProviderFinalizedAt : Z; ev_ReversalDeadline : Z;
  ev_PrincipalUnits : string; ev_RefundableExcessUnits : string; ev_DebtBeforeUnits : string;
  ev_DebtAfterUnits : string; ev_StateNonceBefore : Z; ev_StateNonceAfter : Z;
  ev_Gateway : string; ev_RawEvidenceHash : string; ev_TransactionIndex : Z;
  ev_ReceiptsRoot : string; ev_InclusionProofHash : string;
  ev_ReceiptHeaderSignatureHash : string; ev_decodedCanonical : bool }.

#[export] Instance Event_eq_dec : EqDecision Event.
Proof. solve_decision. Defined.

Record Block := mkBlock {
  bk_Number : Z; bk_Hash : string; bk_ParentHash : string; bk_ObservedAt : Time.t;
  bk_Events : list Event; bk_HeaderSignatureHash : string }.

(** * The projected snapshot *)

Record Tender := mkTender {
  tn_ID : string; tn_BorrowerID : string; tn_State : string; tn_SelectedOfferID : string;
  tn_UpdatedInBlock : Z; tn_Finality : string }.

Record Loan := mkLoan {
  ln_ID : string; ln_BorrowerID : string; ln_LenderID : string; ln_AssetID : string;
  ln_PrincipalUnits : string; ln_OutstandingUnits : string; ln_Status : string;
  ln_LastPaymentID : string; ln_UpdatedInBlock : Z; ln_Finality : string }.

Record CanonicalSettlement := mkSettlement {
  cs_PaymentID : string; cs_AllocationID : string; cs_InstructionDigest : string;
  cs_PolicySetHash : string; cs_LoanID : string; cs_LoanAccount : string; cs_Finalizer : string;
  cs_Attester : string; cs_SourceAssetID : string; cs_TargetAssetID : string;
  cs_TargetToken : string; cs_SourceUnits : string; cs_GrossUnits : string;
  cs_ProviderIDHash : string; cs_ProviderReferenceHash : string; cs_ReconciliationID : string;
  cs_ReconciliationCommitment : string; cs_OriginalJournalSetHash : string;
  cs_ConversionPolicyHash : string; cs_FinalityPolicyHash : string; cs_EvidenceHash : string;
  cs_JournalRef : string; cs_ProviderFinalizedAt : Z; cs_ReversalDeadline : Z;
  cs_PrincipalUnits : string; cs_RefundableExcessUnits : string; cs_DebtBeforeUnits : string;
  cs_DebtAfterUnits : string; cs_StateNonceBefore : Z; cs_StateNonceAfter : Z;
  cs_LenderID : string; cs_BorrowerID : string; cs_ChainID : Z; cs_Gateway : string;
  cs_TransactionHash : string; cs_EventID : string; cs_LogIndex : Z; cs_BlockHash : string;
  cs_RawEvidenceHash : string; cs_TransactionIndex : Z; cs_ReceiptsRoot : string;
  cs_InclusionProofHash : string; cs_ReceiptHeaderSignatureHash : string; cs_UpdatedInBlock : Z;
  cs_Finality : string }.

Record SettlementReorg := mkReorg {
  sr_PaymentID : string; sr_AllocationID : string; sr_InstructionDigest : string;
  sr_ChainID : Z; sr_Gateway : string; sr_EventID : string; sr_TransactionHash : string;
  sr_OrphanedEventEvidenceHash : string; sr_RawEvidenceHash : string; sr_TransactionIndex : Z;
  sr_ReceiptsRoot : string; sr_InclusionProofHash : string;
  sr_OrphanedReceiptHeaderSignatureHash : string; sr_OrphanedBlockHash : string;
  sr_OrphanedBlock : Z; sr_ReplacementBlockHash : string; sr_ReplacementBlock : Z;
  sr_DepthClass : string; sr_ConfirmationDepth : Z; sr_DetectedHead : Z;
  sr_DetectedHeadHash : string; sr_FinalityPolicyHash : string; sr_HeaderAuthorityHash : string;
  sr_ReplacementHeaderSignatureHash : string; sr_DetectedHeadHeaderSignatureHash : string;
  sr_CompensationRequired : bool; sr_EvidenceHash : string; sr_DetectedAt : Time.t }.

Record Snapshot := mkSnapshot {
  sn_HeadHash : string; sn_Head : Z; sn_HeadObservedAt : Time.t;
  sn_HeadHeaderSignatureHash : string; sn_Tenders : gmap string Tender;
  sn_Loans : gmap string Loan; sn_Payments : gmap string string;
  sn_CanonicalSettlements : gmap string CanonicalSettlement;
  sn_SettlementReorgs : gmap string SettlementReorg }.

(** * Evidence for other packages *)

Record FinalityProof := mkFinalityProof {
  fp_Finality : string; fp_ConfirmationDepth : Z; fp_HeadBlockNumber : Z;
  fp_HeadBlockHash : string; fp_EvidenceHash : string; fp_ObservedAt : Time.t;
  fp_FinalityPolicyHash : string; fp_HeaderAuthorityHash : string;
  fp_HeadHeaderSignatureHash : string }.

(** A verified canonical transaction failure; [VerifiedTransactionFailure] wraps
    exactly this record and [Evidence] returns it. *)
Record TransactionFailureEvidence := mkTransactionFailureEvidence {
  f_ChainID : Z;
  f_Gateway : string;
  f_TransactionHash : string;
  f_ReceiptPayloadHash : string;
  f_Status : string;
  f_TransactionIndex : Z;
  f_BlockNumber : Z;
  f_BlockHash : string;
  f_ReceiptsRoot : string;
  f_InclusionProofHash : string;
  f_FinalityPolicyHash : string;
  f_HeaderAuthorityHash : string;
  f_ReceiptHeaderSignatureHash : string;
  f_HeadHeaderSignatureHash : string;
  f_ConfirmationDepth : Z;
  f_HeadBlockNumber : Z;
  f_HeadBlockHash : string;
  f_EvidenceHash : string;
  f_ObservedAt : Time.t }.

#[export] Instance TransactionFailureEvidence_eq_dec : EqDecision TransactionFailureEvidence.
Proof. solve_decision. Defined.

(** The zero value of the struct. *)
Definition zeroFailure : TransactionFailureEvidence :=
  mkTransactionFailureEvidence 0 "" "" "" "" 0 0 "" "" "" "" "" "" "" 0 0 "" "" Time.zero.
