(* ===== verification/Payment.v ===== *)
(** The payment-ingress orchestrator ([payment-orchestrator/payment/payment.go] and
    [local_reversal_coordinator.go]): it authenticates provider callbacks, moves
    payments along their lifecycle, and hands every money-moving transition to the
    accounting boundary.

    The accounting service and the coordinator of canonical reversals are objects
    of their own, shared with other packages; their states are threaded next to
    the orchestrator's. The coordinator calls back into the orchestrator while it
    holds its lock: it is parametric in the state [W] its callback works on, here
    the accounting service and the two local variables the Go closure writes. *)
From S2P Require Import Prelude GoStd PaymentTypes ChainTypes.
From S2P Require AllocationMode.

(** * Data *)

Inductive error :=
| ErrInvalidIntent | ErrInvalidProvider | ErrIdempotencyConflict | ErrUnknownPayment
| ErrUnauthorizedCallback | ErrInvalidCallback | ErrCallbackConflict | ErrInvalidTransition
| ErrAccounting | ErrInvalidResolution | ErrCanonicalPending | ErrCanonicalConfirmed
| ErrCanonicalPersistence
| ErrCoordinator (inner : AllocationMode.error)
| Join (outer inner : error).

Definition MaxCallbackBytes : nat := 64 * 1024.
Definition callbackDomain : string := "UNIFIED_PHASE7A_CALLBACK_V1".

Record Provider := mkProvider {
  pr_ID : string;
  pr_Rail : string;
  pr_PublicKey : string;
  pr_Active : bool;
  pr_AssetID : string;
  pr_SupportsReversal : bool;
  pr_Version : Z }.

Record Callback := mkCallback {
  cb_ProviderID : string;
  cb_ProviderEventID : string;
  cb_PaymentID : string;
  cb_ProviderReference : string;
  cb_Status : string;
  cb_AssetID : string;
  cb_Units : string;
  cb_OccurredAt : Time.t;
  cb_ExpiresAt : Time.t;
  cb_EvidenceHash : string }.

Definition zeroCallback : Callback := mkCallback "" "" "" "" "" "" "" Time.zero Time.zero "".

Definition zeroIntent : Intent :=
  mkIntent "" "" "" "" "" "" "" "" "" "" "" "" Time.zero 0 "" 0 Time.zero Time.zero Time.zero
    Time.zero Time.zero.

Record CallbackResult := mkCallbackResult {
  cr_ProviderID : string;
  cr_ProviderEventID : string;
  cr_RawHash : string;
  cr_Payment : Intent;
  cr_JournalIDs : list string;
  cr_Replayed : bool;
  cr_Disposition : string }.

Definition zeroResult : CallbackResult := mkCallbackResult "" "" "" zeroIntent [] false "".

Record RawCallback := mkRawCallback {
  rc_IngressID : Z;
  rc_ProviderID : string;
  rc_ProviderEventID : string;
  rc_RawPayload : string;
  rc_RawHash : string;
  rc_SignatureHash : string;
  rc_ReceivedAt : Time.t }.

Record Quarantine := mkQuarantine {
  qu_QuarantineID : string;
  qu_ProviderID : string;
  qu_ProviderEventID : string;
  qu_PaymentID : string;
  qu_RawHash : string;
  qu_EvidenceHash : string;
  qu_ReasonCode : string;
  qu_ReceivedAt : Time.t;
  qu_Owner : string;
  qu_ResolutionDeadline : Time.t }.

Record QuarantineResolution := mkQuarantineResolution {
  qr_ResolutionID : string;
  qr_QuarantineID : string;
  qr_CanonicalFailureEvidenceHash : string;
  qr_EvidenceHash : string;
  qr_ResolvedBy : string;
  qr_ResolvedAt : Time.t }.

Definition zeroResolution : QuarantineResolution := mkQuarantineResolution "" "" "" "" "" Time.zero.

Record CanonicalReversalResolutionRequest := mkResolutionRequest {
  rq_QuarantineID : string;
  rq_ResolutionID : string;
  rq_PaymentID : string;
  rq_AllocationID : string;
  rq_InstructionDigest : string;
  rq_FailureProof : TransactionFailureEvidence;
  rq_ResolutionEvidenceHash : string;
  rq_ResolvedBy : string;
  rq_ResolvedAt : Time.t }.

Record CanonicalIncident := mkCanonicalIncident {
  ci_IncidentID : string;
  ci_PaymentID : string;
  ci_AllocationID : string;
  ci_ClaimDigest : string;
  ci_ProviderID : string;
  ci_ProviderEventID : string;
  ci_ProviderReference : string;
  ci_RawHash : string;
  ci_EvidenceHash : string;
  ci_ReasonCode : string;
  ci_OccurredAt : Time.t;
  ci_ReceivedAt : Time.t }.

Record storedEvent := mkStoredEvent {
  se_rawHash : string;
  se_result : CallbackResult;
  se_err : option error }.

Record pendingCanonicalReversal := mkPending {
  pe_eventKey : string;
  pe_ingressID : Z;
  pe_callback : Callback;
  pe_rawHash : string;
  pe_signatureHash : string;
  pe_receivedAt : Time.t;
  pe_claim : AllocationMode.Claim }.

Record CanonicalReversalRecord := mkReversalRecord {
  rr_QuarantineID : string;
  rr_ResolutionID : string;
  rr_IngressID : Z;
  rr_PaymentID : string;
  rr_AllocationID : string;
  rr_InstructionDigest : string;
  rr_ProviderID : string;
  rr_ProviderEventID : string;
  rr_ReversalEventID : string;
  rr_ProviderReference : string;
  rr_AssetID : string;
  rr_Units : string;
  rr_RawHash : string;
  rr_SignatureHash : string;
  rr_CallbackEvidenceHash : string;
  rr_CallbackExpiresAt : Time.t;
  rr_FailureProof : TransactionFailureEvidence;
  rr_ResolutionEvidence : string;
  rr_ResolvedBy : string;
  rr_OccurredAt : Time.t;
  rr_ReceivedAt : Time.t }.

Record CanonicalReversalResolution := mkReversalResolution {
  crr_JournalIDs : list string;
  crr_FailureEvidenceHash : string }.

Record CanonicalReversalResolutionRecord := mkResolutionRecord {
  rs_QuarantineID : string;
  rs_ResolutionID : string;
  rs_PaymentID : string;
  rs_AllocationID : string;
  rs_InstructionDigest : string;
  rs_ProviderID : string;
  rs_ProviderEventID : string;
  rs_ProviderReference : string;
  rs_AssetID : string;
  rs_Units : string;
  rs_RawHash : string;
  rs_RequestDigest : string;
  rs_CanonicalFailureEvidenceHash : string;
  rs_ResolutionEvidenceHash : string;
  rs_ResolvedBy : string;
  rs_ResolvedAt : Time.t;
  rs_JournalIDs : list string }.

Record CanonicalReversalConsumption := mkConsumption {
  co_QuarantineID : string;
  co_IngressID : Z;
  co_PaymentID : string;
  co_AllocationID : string;
  co_InstructionDigest : string;
  co_ProviderID : string;
  co_ProviderEventID : string;
  co_ProviderReference : string;
  co_AssetID : string;
  co_Units : string;
  co_RawHash : string;
  co_SignatureHash : string;
  co_CallbackEvidenceHash : string;
  co_CallbackExpiresAt : Time.t;
  co_CallbackOccurredAt : Time.t;
  co_CallbackReceivedAt : Time.t;
  co_ResolutionID : string;
  co_ResolutionEvidenceHash : string;
  co_ResolvedBy : string;
  co_ResolvedAt : Time.t;
  co_GatewayEventID : string;
  co_GatewayTransactionHash : string;
  co_GatewayRawPayloadHash : string;
  co_FinalityEvidenceHash : string }.

#[export] Instance CanonicalReversalConsumption_eq_dec : EqDecision CanonicalReversalConsumption.
Proof. solve_decision. Defined.

(** * Interfaces *)

(** [CanonicalReversalCoordinator]. A commit callback works on an arbitrary state
    [W]; the lookups are reads. *)
Class Coordinator (K : Type) := {
  HandleProviderReversal {W : Type} :
    CanonicalReversalRecord → (W → W * result AllocationMode.error ()) → K → W →
    K * W * result AllocationMode.error (AllocationMode.Claim * AllocationMode.ReversalDisposition);
  ResolveProviderReversal {W : Type} :
    CanonicalReversalRecord → (W → W * result AllocationMode.error (list string)) → K → W →
    K * W * result AllocationMode.error CanonicalReversalResolution;
  ResolvedProviderReversal :
    CanonicalReversalResolutionRequest → K →
    result AllocationMode.error (option CanonicalReversalResolutionRecord);
  PendingProviderReversals : K → list CanonicalReversalRecord;
  ConsumedProviderReversals : K → list CanonicalReversalConsumption }.

(** What is outside the repository: Ed25519 verification, [json.Marshal] of a
    callback (which fails on times it cannot print) and the strict decoder (one
    value, no unknown field, nothing after it). *)
Class CallbackCodec := {
  ed25519_Verify : string → string → string → bool;
  marshal_callback : Callback → option string;
  unmarshal_callback : string → option Callback }.

(** * The orchestrator *)

Record Orchestrator := mkOrchestrator {
  providers : gmap string Provider;
  payments : gmap string Intent;
  intentKeys : gmap string string;
  intentHashes : gmap string string;
  events : gmap string storedEvent;
  rawCallbacks : list RawCallback;
  quarantines : list Quarantine;
  canonicalIncidents : list CanonicalIncident;
  quarantineResolutions : gmap string QuarantineResolution;
  pendingReversals : gmap string pendingCanonicalReversal;
  consumedReversals : gmap string CanonicalReversalConsumption }.

(** Field assignments. *)
Definition set_payments f (o : Orchestrator) : Orchestrator :=
  mkOrchestrator (providers o) (f (payments o)) (intentKeys o) (intentHashes o) (events o)
    (rawCallbacks o) (quarantines o) (canonicalIncidents o) (quarantineResolutions o)
    (pendingReversals o) (consumedReversals o).
Definition set_intent_index keys hashes (o : Orchestrator) : Orchestrator :=
  mkOrchestrator (providers o) (payments o) keys hashes (events o)
    (rawCallbacks o) (quarantines o) (canonicalIncidents o) (quarantineResolutions o)
    (pendingReversals o) (consumedReversals o).
Definition set_events f (o : Orchestrator) : Orchestrator :=
  mkOrchestrator (providers o) (payments o) (intentKeys o) (intentHashes o) (f (events o))
    (rawCallbacks o) (quarantines o) (canonicalIncidents o) (quarantineResolutions o)
    (pendingReversals o) (consumedReversals o).
Definition add_raw raw (o : Orchestrator) : Orchestrator :=
  mkOrchestrator (providers o) (payments o) (intentKeys o) (intentHashes o) (events o)
    (rawCallbacks o ++ [raw]) (quarantines o) (canonicalIncidents o) (quarantineResolutions o)
    (pendingReversals o) (consumedReversals o).
Definition add_quarantine q (o : Orchestrator) : Orchestrator :=
  mkOrchestrator (providers o) (payments o) (intentKeys o) (intentHashes o) (events o)
    (rawCallbacks o) (quarantines o ++ [q]) (canonicalIncidents o) (quarantineResolutions o)
    (pendingReversals o) (consumedReversals o).
Definition add_incident i (o : Orchestrator) : Orchestrator :=
  mkOrchestrator (providers o) (payments o) (intentKeys o) (intentHashes o) (events o)
    (rawCallbacks o) (quarantines o) (canonicalIncidents o ++ [i]) (quarantineResolutions o)
    (pendingReversals o) (consumedReversals o).
Definition set_resolution id r (o : Orchestrator) : Orchestrator :=
  mkOrchestrator (providers o) (payments o) (intentKeys o) (intentHashes o) (events o)
    (rawCallbacks o) (quarantines o) (canonicalIncidents o) (<[id := r]> (quarantineResolutions o))
    (pendingReversals o) (consumedReversals o).
Definition set_pending f (o : Orchestrator) : Orchestrator :=
  mkOrchestrator (providers o) (payments o) (intentKeys o) (intentHashes o) (events o)
    (rawCallbacks o) (quarantines o) (canonicalIncidents o) (quarantineResolutions o)
    (f (pendingReversals o)) (consumedReversals o).
Definition set_consumed id c (o : Orchestrator) : Orchestrator :=
  mkOrchestrator (providers o) (payments o) (intentKeys o) (intentHashes o) (events o)
    (rawCallbacks o) (quarantines o) (canonicalIncidents o) (quarantineResolutions o)
    (pendingReversals o) (<[id := c]> (consumedReversals o)).

(** ** Small predicates *)

Definition validRail (rail : string) : bool := (rail =s RailBank) || (rail =s RailCard).

Definition positiveInteger (value : string) : option Z := Big.canonical value.

Definition callbackStatus (status : string) : bool :=
  (status =s StatusProcessing) || (status =s StatusProvisional) || (status =s StatusFinal) ||
  (status =s StatusFailed) || (status =s StatusReversed).

Definition allowedTransition (from to : string) : bool :=
  if from =s StatusCreated then (to =s StatusProcessing) || (to =s StatusFailed)
  else if from =s StatusProcessing then (to =s StatusProvisional) || (to =s StatusFailed)
  else if from =s StatusProvisional then (to =s StatusFinal) || (to =s StatusReversed)
  else if from =s StatusFinal then to =s StatusReversed
  else false.

Definition accountingTransition (status : string) : bool :=
  (status =s StatusProvisional) || (status =s StatusFinal) || (status =s StatusReversed).

Definition canonicalPaymentEventID (providerID providerEventID : string) : string :=
  providerID +:+ ":" +:+ providerEventID.

(** The key of an event, and the scope of an intent. *)
Definition event_key (providerID providerEventID : string) : string :=
  providerID +:+ nul +:+ providerEventID.

(** [%06d]. *)
Definition six_digits (n : nat) : string :=
  if Z.of_nat n <? 1000000 then Time.pad 6 (Z.of_nat n) else Big.to_string (Z.of_nat n).

Definition validCanonicalConsumption (c : CanonicalReversalConsumption) : bool :=
  negb (empty_s (co_QuarantineID c)) && (0 <? co_IngressID c) &&
  negb (empty_s (co_PaymentID c)) && negb (empty_s (co_AllocationID c)) &&
  negb (empty_s (co_InstructionDigest c)) && negb (empty_s (co_ProviderID c)) &&
  negb (empty_s (co_ProviderEventID c)) && negb (empty_s (co_ProviderReference c)) &&
  negb (empty_s (co_AssetID c)) && negb (empty_s (co_Units c)) &&
  negb (empty_s (co_RawHash c)) && negb (empty_s (co_SignatureHash c)) &&
  negb (empty_s (co_CallbackEvidenceHash c)) &&
  negb (Time.IsZero (co_CallbackExpiresAt c)) && negb (Time.IsZero (co_CallbackOccurredAt c)) &&
  negb (Time.IsZero (co_CallbackReceivedAt c)) &&
  negb (Time.Before (co_CallbackReceivedAt c) (co_CallbackOccurredAt c)) &&
  negb (Time.After (co_CallbackReceivedAt c) (co_CallbackExpiresAt c)) &&
  (co_ResolutionID c =s ("canonical-success:" +:+ co_GatewayEventID c)) &&
  negb (empty_s (co_ResolutionEvidenceHash c)) &&
  (co_ResolvedBy c =s "canonical-chain-indexer") && negb (Time.IsZero (co_ResolvedAt c)) &&
  negb (Time.Before (co_ResolvedAt c) (co_CallbackReceivedAt c)) &&
  negb (empty_s (co_GatewayEventID c)) && negb (empty_s (co_GatewayTransactionHash c)) &&
  negb (empty_s (co_GatewayRawPayloadHash c)) &&
  (co_FinalityEvidenceHash c =s co_ResolutionEvidenceHash c).

(** A quarantine record with the fixed owner and a deadline a day later. *)
Definition quarantine_record (id providerID eventID paymentID rawHash evidenceHash reason : string)
    (receivedAt : Time.t) : Quarantine :=
  mkQuarantine id providerID eventID paymentID rawHash evidenceHash reason (Time.UTC receivedAt)
    "payment-operations" (Time.Add (Time.UTC receivedAt) (24 * Time.hour)).

Definition quarantine_id (o : Orchestrator) : string :=
  "quarantine-" +:+ six_digits (length (quarantines o) + 1).

Definition quarantine (providerID eventID paymentID rawHash evidenceHash reason : string)
    (receivedAt : Time.t) (o : Orchestrator) : Orchestrator :=
  add_quarantine (quarantine_record (quarantine_id o) providerID eventID paymentID rawHash
    evidenceHash reason receivedAt) o.

(** ** Canonical consumptions *)

(** The loop of [applyCanonicalConsumptionsLocked], in some order of the map. *)
Fixpoint apply_consumptions (paymentID : string) (current : Intent)
    (consumptions : list CanonicalReversalConsumption) (o : Orchestrator)
    : Orchestrator * result error () :=
  match consumptions with
  | [] => (o, Ok ())
  | c :: rest =>
      if co_PaymentID c <>s paymentID then apply_consumptions paymentID current rest o
      else if (i_Status current <>s StatusFinal) || (i_ProviderID current <>s co_ProviderID c) ||
              (i_ProviderReference current <>s co_ProviderReference c) ||
              (i_AssetID current <>s co_AssetID c) || (i_Units current <>s co_Units c)
      then (o, Err ErrCanonicalPersistence)
      else
        let event := mkStoredEvent (co_RawHash c)
          (mkCallbackResult (co_ProviderID c) (co_ProviderEventID c) (co_RawHash c) current [] false
             "INCIDENT") (Some ErrCanonicalConfirmed) in
        apply_consumptions paymentID current rest
          (set_events <[event_key (co_ProviderID c) (co_ProviderEventID c) := event]> o)
  end.

Definition applyCanonicalConsumptionsLocked (paymentID : string) (o : Orchestrator)
    : Orchestrator * result error () :=
  match payments o !! paymentID with
  | None => (o, Ok ())
  | Some current => apply_consumptions paymentID current (map_to_list (consumedReversals o)).*2 o
  end.

(** The bookkeeping of a consumption that is seen for the first time. *)
Definition record_consumption (c : CanonicalReversalConsumption) (o : Orchestrator) : Orchestrator :=
  let o := set_pending (delete (co_QuarantineID c)) (set_consumed (co_QuarantineID c) c o) in
  let o :=
    if existsb (λ q, qu_QuarantineID q =s co_QuarantineID c) (quarantines o) then o
    else add_quarantine (quarantine_record (co_QuarantineID c) (co_ProviderID c)
           (co_ProviderEventID c) (co_PaymentID c) (co_RawHash c) (co_CallbackEvidenceHash c)
           "CANONICAL_SETTLEMENT_SUBMITTED" (co_CallbackReceivedAt c)) o in
  let o := set_resolution (co_QuarantineID c)
    (mkQuarantineResolution (co_ResolutionID c) (co_QuarantineID c) ""
       (co_ResolutionEvidenceHash c) (co_ResolvedBy c) (Time.UTC (co_ResolvedAt c))) o in
  let incidentID := "canonical-success:" +:+ co_QuarantineID c in
  if existsb (λ i, ci_IncidentID i =s incidentID) (canonicalIncidents o) then o
  else add_incident (mkCanonicalIncident incidentID (co_PaymentID c) (co_AllocationID c)
         (co_InstructionDigest c) (co_ProviderID c) (co_ProviderEventID c) (co_ProviderReference c)
         (co_RawHash c) (co_ResolutionEvidenceHash c)
         "PROVIDER_REVERSAL_CONTRADICTED_BY_CANONICAL_SETTLEMENT"
         (Time.UTC (co_CallbackOccurredAt c)) (Time.UTC (co_ResolvedAt c))) o.

Fixpoint refresh_loop (consumptions : list CanonicalReversalConsumption) (o : Orchestrator)
    : Orchestrator * result error () :=
  match consumptions with
  | [] => (o, Ok ())
  | c :: rest =>
      if negb (validCanonicalConsumption c) then (o, Err ErrCanonicalPersistence)
      else if negb (has_key (providers o) (co_ProviderID c)) then (o, Err ErrCanonicalPersistence)
      else
        let known := consumedReversals o !! co_QuarantineID c in
        if match known with Some existing => negb (bool_decide (existing = c)) | None => false end
        then (o, Err ErrCanonicalPersistence)
        else
          let o := match known with Some _ => o | None => record_consumption c o end in
          match applyCanonicalConsumptionsLocked (co_PaymentID c) o with
          | (o, Err err) => (o, Err err)
          | (o, Ok _) => refresh_loop rest o
          end
  end.

Definition refreshCanonicalConsumptionsLocked `{Coordinator K} (k : K) (o : Orchestrator)
    : Orchestrator * result error () :=
  refresh_loop (ConsumedProviderReversals k) o.

(** ** Construction and restoration *)

Fixpoint configure (configured : gmap string Provider) (providers : list Provider)
    : result error (gmap string Provider) :=
  match providers with
  | [] => Ok configured
  | provider :: rest =>
      if empty_s (pr_ID provider) || negb (validRail (pr_Rail provider)) ||
         negb (String.length (pr_PublicKey provider) =? 32)%nat ||
         empty_s (pr_AssetID provider) || (pr_Version provider =? 0)
      then Err ErrInvalidProvider
      else if has_key configured (pr_ID provider) then Err ErrInvalidProvider
      else configure (<[pr_ID provider := provider]> configured) rest
  end.

Definition restored_callback (record : CanonicalReversalRecord) : Callback :=
  mkCallback (rr_ProviderID record) (rr_ProviderEventID record) (rr_PaymentID record)
    (rr_ProviderReference record) StatusReversed (rr_AssetID record) (rr_Units record)
    (Time.UTC (rr_OccurredAt record)) (Time.UTC (rr_CallbackExpiresAt record))
    (rr_CallbackEvidenceHash record).

Fixpoint restore_pending (records : list CanonicalReversalRecord) (o : Orchestrator)
    : result error Orchestrator :=
  match records with
  | [] => Ok o
  | record :: rest =>
      if empty_s (rr_QuarantineID record) || (rr_IngressID record =? 0) ||
         empty_s (rr_PaymentID record) || empty_s (rr_AllocationID record) ||
         empty_s (rr_InstructionDigest record) || empty_s (rr_ProviderID record) ||
         empty_s (rr_ProviderEventID record) || empty_s (rr_AssetID record) ||
         empty_s (rr_Units record) || empty_s (rr_RawHash record) ||
         empty_s (rr_SignatureHash record) || empty_s (rr_CallbackEvidenceHash record) ||
         Time.IsZero (rr_CallbackExpiresAt record) || Time.IsZero (rr_OccurredAt record) ||
         Time.IsZero (rr_ReceivedAt record)
      then Err ErrCanonicalPersistence
      else if negb (has_key (providers o) (rr_ProviderID record)) then Err ErrCanonicalPersistence
      else if has_key (pendingReversals o) (rr_QuarantineID record) then Err ErrCanonicalPersistence
      else
        let o := add_quarantine (quarantine_record (rr_QuarantineID record) (rr_ProviderID record)
          (rr_ProviderEventID record) (rr_PaymentID record) (rr_RawHash record)
          (rr_CallbackEvidenceHash record) "CANONICAL_SETTLEMENT_SUBMITTED"
          (rr_ReceivedAt record)) o in
        let pending := mkPending (event_key (rr_ProviderID record) (rr_ProviderEventID record))
          (rr_IngressID record) (restored_callback record) (rr_RawHash record)
          (rr_SignatureHash record) (Time.UTC (rr_ReceivedAt record))
          (AllocationMode.mkClaim "" (rr_PaymentID record) (rr_AllocationID record)
             AllocationMode.ModeCanonicalGateway (rr_InstructionDigest record)
             AllocationMode.CanonicalQuarantined 0 "" Time.zero) in
        restore_pending rest (set_pending <[rr_QuarantineID record := pending]> o)
  end.

(** [New] with its four dependencies present. *)
Definition New `{Coordinator K} (providers : list Provider) (k : K) : result error Orchestrator :=
  match providers with
  | [] => Err ErrInvalidProvider
  | _ :: _ =>
      let? configured := configure ∅ providers in
      let? o := restore_pending (PendingProviderReversals k)
        (mkOrchestrator configured ∅ ∅ ∅ ∅ [] [] [] ∅ ∅ ∅) in
      match refreshCanonicalConsumptionsLocked k o with
      | (_, Err err) => Err err
      | (o, Ok _) => Ok o
      end
  end.

Definition RestorePayment (intent : Intent) (o : Orchestrator) : Orchestrator * result error () :=
  if empty_s (i_PaymentID intent) || empty_s (i_ProviderID intent) ||
     empty_s (i_AssetID intent) || empty_s (i_Units intent) || (i_Version intent =? 0) ||
     Time.IsZero (i_CreatedAt intent) || Time.IsZero (i_UpdatedAt intent)
  then (o, Err ErrInvalidIntent)
  else
    match providers o !! i_ProviderID intent with
    | None => (o, Err ErrInvalidIntent)
    | Some provider =>
        if (pr_Rail provider <>s i_Rail intent) || (pr_AssetID provider <>s i_AssetID intent)
        then (o, Err ErrInvalidIntent)
        else
          match payments o !! i_PaymentID intent with
          | Some existing =>
              if bool_decide (existing = intent) then (o, Ok ()) else (o, Err ErrIdempotencyConflict)
          | None =>
              match applyCanonicalConsumptionsLocked (i_PaymentID intent)
                      (set_payments <[i_PaymentID intent := intent]> o) with
              | (o, Err err) => (set_payments (delete (i_PaymentID intent)) o, Err err)
              | (o, Ok _) => (o, Ok ())
              end
          end
    end.

(** ** Intents *)

Definition hashBytes `{Sha256} (value : string) : string := hex (sha256 value).

Definition intentHash `{Sha256, Json} (intent : Intent) : string :=
  hashBytes (marshal
    [("PaymentID", JString (i_PaymentID intent)); ("LegalEntityID", JString (i_LegalEntityID intent));
     ("IdempotencyKey", JString (i_IdempotencyKey intent));
     ("CorrelationID", JString (i_CorrelationID intent));
     ("PayerReference", JString (i_PayerReference intent)); ("LoanID", JString (i_LoanID intent));
     ("ProviderID", JString (i_ProviderID intent)); ("Rail", JString (i_Rail intent));
     ("Purpose", JString (i_Purpose intent)); ("AssetID", JString (i_AssetID intent));
     ("Units", JString (i_Units intent)); ("ExpiresAt", JTime (Time.UTC (i_ExpiresAt intent)));
     ("SchemaVersion", JUint (i_SchemaVersion intent))]%string).

(** The stored form of a new intent. *)
Definition created_intent (now : Time.t) (i : Intent) : Intent :=
  mkIntent (i_PaymentID i) (i_LegalEntityID i) (i_IdempotencyKey i) (i_CorrelationID i)
    (i_PayerReference i) (i_LoanID i) (i_ProviderID i) (i_ProviderReference i) (i_Rail i)
    (i_Purpose i) (i_AssetID i) (i_Units i) (i_ExpiresAt i) (i_SchemaVersion i) StatusCreated 1
    (Time.UTC now) (Time.UTC now) (i_ProvisionalAt i) (i_FinalizedAt i) (i_ReversedAt i).

Definition CreateIntent `{Sha256, Json} (intent : Intent) (now : Time.t) (o : Orchestrator)
    : Orchestrator * result error Intent :=
  if Time.IsZero now || empty_s (i_PaymentID intent) || empty_s (i_LegalEntityID intent) ||
     empty_s (i_IdempotencyKey intent) || empty_s (i_CorrelationID intent) ||
     empty_s (i_PayerReference intent) || empty_s (i_ProviderID intent) ||
     negb (empty_s (i_ProviderReference intent)) || empty_s (i_Purpose intent) ||
     empty_s (i_AssetID intent) || (i_SchemaVersion intent =? 0) ||
     negb (Time.After (i_ExpiresAt intent) now) || negb (empty_s (i_Status intent)) ||
     negb (i_Version intent =? 0) || negb (Time.IsZero (i_CreatedAt intent)) ||
     negb (Time.IsZero (i_UpdatedAt intent)) || negb (Time.IsZero (i_ProvisionalAt intent)) ||
     negb (Time.IsZero (i_FinalizedAt intent)) || negb (Time.IsZero (i_ReversedAt intent))
  then (o, Err ErrInvalidIntent)
  else if match positiveInteger (i_Units intent) with Some u => u <=? 0 | None => true end
  then (o, Err ErrInvalidIntent)
  else
    match providers o !! i_ProviderID intent with
    | None => (o, Err ErrInvalidIntent)
    | Some provider =>
        if negb (pr_Active provider) || (pr_Rail provider <>s i_Rail intent) ||
           (pr_AssetID provider <>s i_AssetID intent)
        then (o, Err ErrInvalidIntent)
        else
          let contentHash := intentHash intent in
          let scope := event_key (i_LegalEntityID intent) (i_IdempotencyKey intent) in
          match intentKeys o !! scope with
          | Some paymentID =>
              if lookup_zero ""%string (intentHashes o) paymentID <>s contentHash
              then (o, Err ErrIdempotencyConflict)
              else (o, Ok (lookup_zero zeroIntent (payments o) paymentID))
          | None =>
              if has_key (payments o) (i_PaymentID intent) then (o, Err ErrIdempotencyConflict)
              else
                let intent := created_intent now intent in
                (set_intent_index (<[scope := i_PaymentID intent]> (intentKeys o))
                   (<[i_PaymentID intent := contentHash]> (intentHashes o))
                   (set_payments <[i_PaymentID intent := intent]> o), Ok intent)
          end
    end.

(** ** Callbacks *)

Section Callbacks.
Context `{Sha256, Json, CallbackCodec} {K A E : Type} `{Coordinator K, PaymentAccounting A E}.

Definition EncodeCallback (callback : Callback) : result error string :=
  if empty_s (cb_ProviderID callback) || empty_s (cb_ProviderEventID callback) ||
     empty_s (cb_PaymentID callback) || empty_s (cb_ProviderReference callback) ||
     negb (callbackStatus (cb_Status callback)) || empty_s (cb_AssetID callback) ||
     Time.IsZero (cb_OccurredAt callback) || Time.IsZero (cb_ExpiresAt callback) ||
     Time.After (cb_OccurredAt callback) (cb_ExpiresAt callback) ||
     empty_s (cb_EvidenceHash callback)
  then Err ErrInvalidCallback
  else if match positiveInteger (cb_Units callback) with Some u => u <=? 0 | None => true end
  then Err ErrInvalidCallback
  else match marshal_callback callback with
       | None => Err ErrInvalidCallback
       | Some encoded => Ok encoded
       end.

Definition SigningMessage (raw : string) : string := sha256 (callbackDomain +:+ nul +:+ raw).

Definition decodeCallback (raw : string) : result error Callback :=
  match unmarshal_callback raw with
  | None => Err ErrInvalidCallback
  | Some callback =>
      match EncodeCallback callback with
      | Err _ => Err ErrInvalidCallback
      | Ok canonical => if canonical <>s raw then Err ErrInvalidCallback else Ok callback
      end
  end.

(** Both results of a call: a result and an error, nil being [None]. *)
Definition outcome : Type := CallbackResult * option error.
Definition failure (err : error) : outcome := (zeroResult, Some err).

(** [next] of a callback that moves [current] to [status]. *)
Definition advance (status reference : string) (at_ provisionalAt finalizedAt reversedAt : Time.t)
    (i : Intent) : Intent :=
  mkIntent (i_PaymentID i) (i_LegalEntityID i) (i_IdempotencyKey i) (i_CorrelationID i)
    (i_PayerReference i) (i_LoanID i) (i_ProviderID i) reference (i_Rail i)
    (i_Purpose i) (i_AssetID i) (i_Units i) (i_ExpiresAt i) (i_SchemaVersion i) status
    (u64 (i_Version i + 1)) (i_CreatedAt i) at_ provisionalAt finalizedAt reversedAt.

Definition first_reference (i : Intent) (reference : string) : string :=
  if empty_s (i_ProviderReference i) then reference else i_ProviderReference i.

Definition reversed_intent (current : Intent) (reference : string) (at_ : Time.t) : Intent :=
  advance StatusReversed reference at_ (i_ProvisionalAt current) (i_FinalizedAt current) at_ current.

Definition moved_intent (current : Intent) (callback : Callback) (receivedAt : Time.t) : Intent :=
  let at_ := Time.UTC receivedAt in
  advance (cb_Status callback) (first_reference current (cb_ProviderReference callback)) at_
    (if cb_Status callback =s StatusProvisional then at_ else i_ProvisionalAt current)
    (if cb_Status callback =s StatusFinal then at_ else i_FinalizedAt current)
    (if cb_Status callback =s StatusReversed then at_ else i_ReversedAt current) current.

Definition transition_of (next current : Intent) (callback : Callback) (receivedAt : Time.t)
    : Transition :=
  mkTransition next (i_Status current) (cb_Status callback) (cb_ProviderEventID callback)
    (Time.UTC (cb_OccurredAt callback)) (Time.UTC receivedAt) (cb_EvidenceHash callback).

(** The closure handed to the coordinator: it posts the transition and writes the
    local variables [journalIDs] and [reversalCommitted]. *)
Definition commit_reversal (now : Time.t) (transition : Transition)
    (w : A * (list string * bool)) : A * (list string * bool) * result AllocationMode.error () :=
  let '(a, (journalIDs, committed)) := w in
  match ApplyTransition now transition a with
  | (a, Err _) => ((a, ([], committed)), Err (AllocationMode.ErrExternal "payment accounting failed"))
  | (a, Ok ids) => ((a, (ids, true)), Ok ())
  end.

Definition reversal_record (o : Orchestrator) (ingressID : Z) (callback : Callback)
    (rawHash signatureHash : string) (receivedAt : Time.t) : CanonicalReversalRecord :=
  mkReversalRecord (quarantine_id o) "" ingressID (cb_PaymentID callback) "" ""
    (cb_ProviderID callback) (cb_ProviderEventID callback)
    (canonicalPaymentEventID (cb_ProviderID callback) (cb_ProviderEventID callback))
    (cb_ProviderReference callback) (cb_AssetID callback) (cb_Units callback) rawHash signatureHash
    (cb_EvidenceHash callback) (Time.UTC (cb_ExpiresAt callback)) zeroFailure "" ""
    (Time.UTC (cb_OccurredAt callback)) (Time.UTC receivedAt).

Definition disposition_string (d : AllocationMode.ReversalDisposition) : string :=
  match d with
  | AllocationMode.ReversalUnclaimed => "UNCLAIMED"
  | AllocationMode.ReversalSynthetic => "SYNTHETIC"
  | AllocationMode.ReversalReleased => "RELEASED"
  | AllocationMode.ReversalQuarantined => "QUARANTINED"
  | AllocationMode.ReversalIncident => "INCIDENT"
  end.

(** The reversal branch of [IngestCallback]. *)
Definition ingest_reversal (now : Time.t) (callback : Callback) (current : Intent)
    (ingressID : Z) (rawHash signatureHash eventKey : string) (receivedAt : Time.t)
    (o : Orchestrator) (k : K) (a : A) : Orchestrator * K * A * outcome :=
  let providerID := cb_ProviderID callback in
  let providerEventID := cb_ProviderEventID callback in
  let next := reversed_intent current (first_reference current (cb_ProviderReference callback))
    (Time.UTC receivedAt) in
  let answer payment journalIDs disposition :=
    mkCallbackResult providerID providerEventID rawHash payment journalIDs false disposition in
  match HandleProviderReversal (reversal_record o ingressID callback rawHash signatureHash receivedAt)
          (commit_reversal now (transition_of next current callback receivedAt)) k (a, ([], false)) with
  | (k, (a, _), Err err) => (o, k, a, failure (Join ErrCanonicalPersistence (ErrCoordinator err)))
  | (k, (a, (journalIDs, reversalCommitted)), Ok (claim, disposition)) =>
      match disposition with
      | AllocationMode.ReversalQuarantined =>
          let quarantineID := quarantine_id o in
          let o := quarantine providerID providerEventID (cb_PaymentID callback) rawHash
            (cb_EvidenceHash callback) "CANONICAL_SETTLEMENT_SUBMITTED" receivedAt o in
          let result := answer current [] "QUARANTINED"%string in
          let o := set_events
            <[eventKey := mkStoredEvent rawHash result (Some ErrCanonicalPending)]> o in
          let pending := mkPending eventKey ingressID callback rawHash signatureHash
            (Time.UTC receivedAt) claim in
          (set_pending <[quarantineID := pending]> o, k, a, (result, Some ErrCanonicalPending))
      | AllocationMode.ReversalIncident =>
          let incident := mkCanonicalIncident
            ("canonical-incident-" +:+ six_digits (length (canonicalIncidents o) + 1))
            (cb_PaymentID callback) (AllocationMode.AllocationID claim) (AllocationMode.Digest claim)
            providerID providerEventID (cb_ProviderReference callback) rawHash
            (cb_EvidenceHash callback) "PROVIDER_CONTRADICTION_AFTER_CANONICAL_SETTLEMENT"
            (Time.UTC (cb_OccurredAt callback)) (Time.UTC receivedAt) in
          let result := answer current [] "INCIDENT"%string in
          (set_events <[eventKey := mkStoredEvent rawHash result (Some ErrCanonicalConfirmed)]>
             (add_incident incident o), k, a, (result, Some ErrCanonicalConfirmed))
      | _ =>
          if negb reversalCommitted then (o, k, a, failure ErrCanonicalPersistence)
          else
            let result := answer next journalIDs (disposition_string disposition) in
            (set_events <[eventKey := mkStoredEvent rawHash result None]>
               (set_payments <[i_PaymentID next := next]> o), k, a, (result, None))
      end
  end.

(** The other branch: a status report or an ordinary move. *)
Definition ingest_ordinary (now : Time.t) (callback : Callback) (current : Intent)
    (rawHash eventKey : string) (receivedAt : Time.t) (o : Orchestrator) (k : K) (a : A)
    : Orchestrator * K * A * outcome :=
  let finish o a payment journalIDs :=
    let result := mkCallbackResult (cb_ProviderID callback) (cb_ProviderEventID callback) rawHash
      payment journalIDs false "" in
    (set_events <[eventKey := mkStoredEvent rawHash result None]> o, k, a, (result, None)) in
  if cb_Status callback =s i_Status current then finish o a current []
  else
    let next := moved_intent current callback receivedAt in
    let published := set_payments <[i_PaymentID next := next]> o in
    if accountingTransition (cb_Status callback) then
      match ApplyTransition now (transition_of next current callback receivedAt) a with
      | (a, Err _) => (o, k, a, failure ErrAccounting)
      | (a, Ok journalIDs) => finish published a next journalIDs
      end
    else finish published a next [].

(** The checks on the payment a callback names. *)
Definition payment_bound (provider : Provider) (providerID : string) (callback : Callback)
    (current : Intent) (receivedAt : Time.t) : bool :=
  (i_ProviderID current =s providerID) && (i_Rail current =s pr_Rail provider) &&
  (i_AssetID current =s cb_AssetID callback) && (i_Units current =s cb_Units callback) &&
  (empty_s (i_ProviderReference current) ||
   (i_ProviderReference current =s cb_ProviderReference callback)) &&
  negb ((i_Status current =s StatusCreated) && Time.After receivedAt (i_ExpiresAt current)).

(** An authenticated, decoded callback whose event is new or not. *)
Definition ingest_bound (now : Time.t) (provider : Provider) (callback : Callback) (ingressID : Z)
    (rawHash signatureHash : string) (receivedAt : Time.t) (o : Orchestrator) (k : K) (a : A)
    : Orchestrator * K * A * outcome :=
  let providerID := cb_ProviderID callback in
  let providerEventID := cb_ProviderEventID callback in
  let reject reason err :=
    (quarantine providerID providerEventID (cb_PaymentID callback) rawHash
       (cb_EvidenceHash callback) reason receivedAt o, k, a, failure err) in
  let eventKey := event_key providerID providerEventID in
  match events o !! eventKey with
  | Some existing =>
      if se_rawHash existing <>s rawHash
      then reject "CALLBACK_EVENT_CONFLICT"%string ErrCallbackConflict
      else
        let r := se_result existing in
        (o, k, a, (mkCallbackResult (cr_ProviderID r) (cr_ProviderEventID r) (cr_RawHash r)
           (cr_Payment r) (cr_JournalIDs r) true (cr_Disposition r), se_err existing))
  | None =>
      match payments o !! cb_PaymentID callback with
      | None => reject "UNKNOWN_PAYMENT"%string ErrUnknownPayment
      | Some current =>
          if negb (payment_bound provider providerID callback current receivedAt)
          then reject "PAYMENT_BINDING_INVALID"%string ErrInvalidCallback
          else if (cb_Status callback =s StatusReversed) && negb (pr_SupportsReversal provider)
          then reject "REVERSAL_UNSUPPORTED"%string ErrInvalidTransition
          else if (cb_Status callback =s StatusReversed) && (i_Status current =s StatusReversed)
          then reject "CALLBACK_ORDER_INVALID"%string ErrInvalidTransition
          else if (cb_Status callback <>s i_Status current) &&
                  negb (allowedTransition (i_Status current) (cb_Status callback))
          then reject "CALLBACK_ORDER_INVALID"%string ErrInvalidTransition
          else if cb_Status callback =s StatusReversed
          then ingest_reversal now callback current ingressID rawHash signatureHash eventKey
                 receivedAt o k a
          else ingest_ordinary now callback current rawHash eventKey receivedAt o k a
      end
  end.

Definition IngestCallback (now : Time.t) (providerID providerEventID raw signature : string)
    (receivedAt : Time.t) (o : Orchestrator) (k : K) (a : A) : Orchestrator * K * A * outcome :=
  if Time.IsZero receivedAt then (o, k, a, failure ErrInvalidCallback)
  else
    let rawHash := hashBytes raw in
    let signatureHash := hashBytes signature in
    let retainedRaw := if (MaxCallbackBytes <? String.length raw)%nat then ""%string else raw in
    match refreshCanonicalConsumptionsLocked k o with
    | (o, Err err) => (o, k, a, failure err)
    | (o, Ok _) =>
        let ingressID := Z.of_nat (length (rawCallbacks o) + 1) in
        let o := add_raw (mkRawCallback ingressID providerID providerEventID retainedRaw rawHash
          signatureHash (Time.UTC receivedAt)) o in
        let reject paymentID evidenceHash reason err :=
          (quarantine providerID providerEventID paymentID rawHash evidenceHash reason receivedAt o,
           k, a, failure err) in
        if empty_s providerID || empty_s providerEventID || empty_s raw ||
           (MaxCallbackBytes <? String.length raw)%nat
        then reject ""%string ""%string "CALLBACK_ENVELOPE_INVALID"%string ErrInvalidCallback
        else
          match providers o !! providerID with
          | None => reject ""%string ""%string "CALLBACK_AUTHENTICATION_FAILED"%string
                      ErrUnauthorizedCallback
          | Some provider =>
              if negb (pr_Active provider) ||
                 negb (ed25519_Verify (pr_PublicKey provider) (SigningMessage raw) signature)
              then reject ""%string ""%string "CALLBACK_AUTHENTICATION_FAILED"%string
                     ErrUnauthorizedCallback
              else
                match decodeCallback raw with
                | Err _ => reject ""%string ""%string "CALLBACK_BINDING_INVALID"%string
                             ErrInvalidCallback
                | Ok callback =>
                    if (cb_ProviderID callback <>s providerID) ||
                       (cb_ProviderEventID callback <>s providerEventID) ||
                       (cb_AssetID callback <>s pr_AssetID provider) ||
                       Time.After receivedAt (cb_ExpiresAt callback)
                    then reject (cb_PaymentID callback) (cb_EvidenceHash callback)
                           "CALLBACK_BINDING_INVALID"%string ErrInvalidCallback
                    else ingest_bound now provider callback ingressID rawHash signatureHash
                           receivedAt o k a
                end
          end
    end.

(** The closure handed to [ResolveProviderReversal]. *)
Definition fallback_reversal (now : Time.t) (transition : Transition) (a : A)
    : A * result AllocationMode.error (list string) :=
  match ApplyTransition now transition a with
  | (a, Err _) => (a, Err (AllocationMode.ErrExternal "payment accounting failed"))
  | (a, Ok ids) => (a, Ok ids)
  end.

(** A resolution that the coordinator already holds durably is replayed. *)
Definition resolve_replay (request : CanonicalReversalResolutionRequest)
    (replay : CanonicalReversalResolutionRecord) (o : Orchestrator)
    : Orchestrator * result error (CallbackResult * QuarantineResolution) :=
  match payments o !! rq_PaymentID request with
  | None => (o, Err ErrInvalidTransition)
  | Some current =>
      if (i_ProviderID current <>s rs_ProviderID replay) ||
         (i_AssetID current <>s rs_AssetID replay) || (i_Units current <>s rs_Units replay) ||
         (negb (empty_s (i_ProviderReference current)) &&
          (i_ProviderReference current <>s rs_ProviderReference replay))
      then (o, Err ErrInvalidTransition)
      else
        let at_ := Time.UTC (rs_ResolvedAt replay) in
        let next :=
          if i_Status current =s StatusFinal
          then Some (reversed_intent current
                       (first_reference current (rs_ProviderReference replay)) at_)
          else if i_Status current =s StatusReversed then
            if negb (Time.Equal (i_ReversedAt current) at_) ||
               negb (Time.Equal (i_UpdatedAt current) at_)
            then None else Some current
          else None in
        match next with
        | None => (o, Err ErrInvalidTransition)
        | Some next =>
            let resolution := mkQuarantineResolution (rs_ResolutionID replay)
              (rs_QuarantineID replay) (rs_CanonicalFailureEvidenceHash replay)
              (rs_ResolutionEvidenceHash replay) (rs_ResolvedBy replay) at_ in
            let result := mkCallbackResult (rs_ProviderID replay) (rs_ProviderEventID replay)
              (rs_RawHash replay) next (rs_JournalIDs replay) true "REVERSED" in
            let o := set_payments <[i_PaymentID next := next]> o in
            let o := set_events <[event_key (rs_ProviderID replay) (rs_ProviderEventID replay) :=
                                    mkStoredEvent (rs_RawHash replay) result None]> o in
            (set_pending (delete (rq_QuarantineID request))
               (set_resolution (rq_QuarantineID request) resolution o), Ok (result, resolution))
        end
  end.

Definition resolution_record (request : CanonicalReversalResolutionRequest)
    (pending : pendingCanonicalReversal) : CanonicalReversalRecord :=
  let callback := pe_callback pending in
  mkReversalRecord (rq_QuarantineID request) (rq_ResolutionID request) (pe_ingressID pending)
    (rq_PaymentID request) (rq_AllocationID request) (rq_InstructionDigest request)
    (cb_ProviderID callback) (cb_ProviderEventID callback)
    (canonicalPaymentEventID (cb_ProviderID callback) (cb_ProviderEventID callback))
    (cb_ProviderReference callback) (cb_AssetID callback) (cb_Units callback)
    (pe_rawHash pending) (pe_signatureHash pending) (cb_EvidenceHash callback)
    (Time.UTC (cb_ExpiresAt callback)) (rq_FailureProof request)
    (rq_ResolutionEvidenceHash request) (rq_ResolvedBy request)
    (Time.UTC (cb_OccurredAt callback)) (Time.UTC (rq_ResolvedAt request)).

Definition ResolveCanonicalReversal (now : Time.t) (request : CanonicalReversalResolutionRequest)
    (o : Orchestrator) (k : K) (a : A)
    : Orchestrator * K * A * result error (CallbackResult * QuarantineResolution) :=
  if empty_s (rq_QuarantineID request) || empty_s (rq_ResolutionID request) ||
     empty_s (rq_PaymentID request) || empty_s (rq_AllocationID request) ||
     empty_s (rq_InstructionDigest request) || empty_s (rq_ResolutionEvidenceHash request) ||
     empty_s (rq_ResolvedBy request) || Time.IsZero (rq_ResolvedAt request)
  then (o, k, a, Err ErrInvalidResolution)
  else
    match refreshCanonicalConsumptionsLocked k o with
    | (o, Err err) => (o, k, a, Err err)
    | (o, Ok _) =>
        match ResolvedProviderReversal request k with
        | Err err => (o, k, a, Err (Join ErrInvalidResolution (ErrCoordinator err)))
        | Ok (Some replay) =>
            let '(o, r) := resolve_replay request replay o in (o, k, a, r)
        | Ok None =>
            if has_key (quarantineResolutions o) (rq_QuarantineID request)
            then (o, k, a, Err ErrInvalidResolution)
            else
              match pendingReversals o !! rq_QuarantineID request with
              | None => (o, k, a, Err ErrInvalidResolution)
              | Some pending =>
                  if (AllocationMode.PaymentID (pe_claim pending) <>s rq_PaymentID request) ||
                     (AllocationMode.AllocationID (pe_claim pending) <>s rq_AllocationID request) ||
                     (AllocationMode.Digest (pe_claim pending) <>s rq_InstructionDigest request) ||
                     Time.Before (rq_ResolvedAt request) (pe_receivedAt pending)
                  then (o, k, a, Err ErrInvalidResolution)
                  else
                    match payments o !! rq_PaymentID request with
                    | None => (o, k, a, Err ErrInvalidTransition)
                    | Some current =>
                        if i_Status current <>s StatusFinal then (o, k, a, Err ErrInvalidTransition)
                        else
                          let callback := pe_callback pending in
                          let at_ := Time.UTC (rq_ResolvedAt request) in
                          let next := reversed_intent current (i_ProviderReference current) at_ in
                          let transition := mkTransition next (i_Status current) StatusReversed
                            (cb_ProviderEventID callback) (Time.UTC (cb_OccurredAt callback))
                            (pe_receivedAt pending) (cb_EvidenceHash callback) in
                          match ResolveProviderReversal (resolution_record request pending)
                                  (fallback_reversal now transition) k a with
                          | (k, a, Err err) => (o, k, a, Err (ErrCoordinator err))
                          | (k, a, Ok canonical) =>
                              let resolution := mkQuarantineResolution (rq_ResolutionID request)
                                (rq_QuarantineID request) (crr_FailureEvidenceHash canonical)
                                (rq_ResolutionEvidenceHash request) (rq_ResolvedBy request) at_ in
                              let result := mkCallbackResult (cb_ProviderID callback)
                                (cb_ProviderEventID callback) (pe_rawHash pending) next
                                (crr_JournalIDs canonical) false "REVERSED" in
                              let o := set_payments <[i_PaymentID next := next]> o in
                              let o := set_events <[pe_eventKey pending :=
                                mkStoredEvent (pe_rawHash pending) result None]> o in
                              (set_pending (delete (rq_QuarantineID request))
                                 (set_resolution (rq_QuarantineID request) resolution o),
                               k, a, Ok (result, resolution))
                          end
                    end
              end
        end
    end.

End Callbacks.

Definition ResolveQuarantine (quarantineID resolutionID evidenceHash resolvedBy : string)
    (resolvedAt : Time.t) (o : Orchestrator) : Orchestrator * result error QuarantineResolution :=
  if empty_s quarantineID || empty_s resolutionID || empty_s evidenceHash || empty_s resolvedBy ||
     Time.IsZero resolvedAt
  then (o, Err ErrInvalidResolution)
  else if has_key (pendingReversals o) quarantineID then (o, Err ErrInvalidResolution)
  else if has_key (quarantineResolutions o) quarantineID then (o, Err ErrInvalidResolution)
  else if negb (existsb (λ record, (qu_QuarantineID record =s quarantineID) &&
                  negb (Time.Before resolvedAt (qu_ReceivedAt record))) (quarantines o))
  then (o, Err ErrInvalidResolution)
  else
    let resolution := mkQuarantineResolution resolutionID quarantineID "" evidenceHash resolvedBy
      (Time.UTC resolvedAt) in
    (set_resolution quarantineID resolution o, Ok resolution).

(** The read accessors. *)
Definition Payment_lookup (paymentID : string) (o : Orchestrator) : option Intent :=
  payments o !! paymentID.
Definition Payments (o : Orchestrator) : list Intent :=
  sort_by i_PaymentID (map_to_list (payments o)).*2.

(** ** The local coordinator

    [LocalCanonicalReversalCoordinator] keeps nothing of its own: its state is the
    shared allocation-mode registry. *)
Section Local.
Context {S : Type}.

Definition local_Handle {W : Type} (record : CanonicalReversalRecord)
    (commit : W → W * result AllocationMode.error ()) (modes : AllocationMode.Registry S) (w : W)
    : AllocationMode.Registry S * W *
      result AllocationMode.error (AllocationMode.Claim * AllocationMode.ReversalDisposition) :=
  let '(modes, w, (claim, disposition, err)) :=
    AllocationMode.HandleReversalWithCommit (rr_PaymentID record)
      (Some (λ _ disposition _,
         match disposition with
         | AllocationMode.ReversalUnclaimed | AllocationMode.ReversalSynthetic
         | AllocationMode.ReversalReleased => commit
         | _ => λ w, (w, Ok ())
         end)) modes w in
  (modes, w, match err with None => Ok (claim, disposition) | Some err => Err err end).

Definition local_Resolve {W : Type} (record : CanonicalReversalRecord)
    (localFallback : W → W * result AllocationMode.error (list string))
    (modes : AllocationMode.Registry S) (w : W)
    : AllocationMode.Registry S * W * result AllocationMode.error CanonicalReversalResolution :=
  let hash := f_EvidenceHash (rr_FailureProof record) in
  let hash := if empty_s hash then rr_CallbackEvidenceHash record else hash in
  let '(modes, (w, found), r) :=
    AllocationMode.ResolveQuarantinedReversal
      (AllocationMode.mkClaim "" (rr_PaymentID record) (rr_AllocationID record)
         AllocationMode.ModeCanonicalGateway (rr_InstructionDigest record)
         AllocationMode.CanonicalQuarantined 0 "" Time.zero)
      (Some (λ '(w, found),
         match localFallback w with
         | (w, Err err) => ((w, found), Err err)
         | (w, Ok journalIDs) => ((w, mkReversalResolution journalIDs hash), Ok ())
         end)) modes (w, mkReversalResolution [] "") in
  (modes, w, match r with Ok _ => Ok found | Err err => Err err end).

#[export] Instance LocalCanonicalReversalCoordinator : Coordinator (AllocationMode.Registry S) := {
  HandleProviderReversal W := local_Handle;
  ResolveProviderReversal W := local_Resolve;
  ResolvedProviderReversal _ _ := Ok None;
  PendingProviderReversals _ := [];
  ConsumedProviderReversals _ := [] }.
End Local.

(** * What a call does to the payments *)

(** The terms of a payment that no callback may change. *)
Definition terms (i : Intent) :=
  (i_PaymentID i, i_LegalEntityID i, i_IdempotencyKey i, i_CorrelationID i, i_PayerReference i,
   i_LoanID i, i_ProviderID i, (i_Rail i, i_Purpose i, i_AssetID i, i_Units i, i_ExpiresAt i,
   i_SchemaVersion i, i_CreatedAt i)).

(** One permitted move of a payment. *)
Record moves (p p' : Intent) : Prop := {
  mv_allowed : allowedTransition (i_Status p) (i_Status p') = true;
  mv_version : i_Version p' = u64 (i_Version p + 1);
  mv_terms : terms p' = terms p;
  mv_reference : i_ProviderReference p ≠ ""%string → i_ProviderReference p' = i_ProviderReference p }.

Lemma moves_id p p' : moves p p' → i_PaymentID p' = i_PaymentID p.
Proof. intros [_ _ Ht _]. unfold terms in Ht. congruence. Qed.

(** A call that creates leaves the payments alone or adds one. *)
Definition creates (m m' : gmap string Intent) : Prop :=
  m' = m ∨ ∃ p, m !! i_PaymentID p = None ∧ m' = <[i_PaymentID p := p]> m.

Definition keyed (m : gmap string Intent) : Prop := ∀ id p, m !! id = Some p → i_PaymentID p = id.

(** The fields that the canonical bookkeeping leaves alone. *)
Record same_core (o o' : Orchestrator) : Prop := {
  sc_payments : payments o' = payments o;
  sc_providers : providers o' = providers o;
  sc_raw : rawCallbacks o' = rawCallbacks o;
  sc_keys : intentKeys o' = intentKeys o }.

#[local] Instance same_core_refl : Reflexive same_core.
Proof. by split. Qed.
#[local] Instance same_core_trans : Transitive same_core.
Proof. intros a b c [] []. split; congruence. Qed.

Lemma apply_consumptions_core id cur cs o : same_core o (apply_consumptions id cur cs o).1.
Proof.
  revert o. induction cs as [|c cs IH]; intros o; [done|]. simpl.
  destruct (_ <>s _); [apply IH|]. destruct (_ || _); [done|].
  etransitivity; [|apply IH]. by split.
Qed.

Lemma applyCanonicalConsumptionsLocked_core id o :
  same_core o (applyCanonicalConsumptionsLocked id o).1.
Proof.
  unfold applyCanonicalConsumptionsLocked. destruct (_ !! _); [apply apply_consumptions_core|done].
Qed.

Lemma record_consumption_core c o : same_core o (record_consumption c o).
Proof.
  unfold record_consumption. repeat match goal with |- context [if ?b then _ else _] => destruct b end;
    by split.
Qed.

Lemma refresh_loop_core cs o : same_core o (refresh_loop cs o).1.
Proof.
  revert o. induction cs as [|c cs IH]; intros o; [done|]. cbn [refresh_loop].
  destruct (negb _); [done|]. destruct (negb _); [done|]. cbv zeta.
  destruct (match consumedReversals o !! _ with Some _ => _ | None => false end); [done|].
  set (o1 := match _ with Some _ => o | None => _ end).
  assert (same_core o o1) as H1
    by (unfold o1; destruct (consumedReversals o !! _); [done|apply record_consumption_core]).
  pose proof (applyCanonicalConsumptionsLocked_core (co_PaymentID c) o1) as H2.
  destruct (applyCanonicalConsumptionsLocked _ o1) as [o2 [[]|e]]; simpl in *.
  - etransitivity; [exact H1|]. etransitivity; [exact H2|apply IH].
  - by etransitivity.
Qed.

Lemma refresh_core `{Coordinator K} (k : K) o o' r :
  refreshCanonicalConsumptionsLocked k o = (o', r) → same_core o o'.
Proof. intros E. pose proof (refresh_loop_core (ConsumedProviderReversals k) o) as Hc.
  unfold refreshCanonicalConsumptionsLocked in E. by rewrite E in Hc. Qed.

Lemma CreateIntent_creates `{Sha256, Json} i now o :
  creates (payments o) (payments (CreateIntent i now o).1).
Proof.
  unfold CreateIntent. destruct (_ || _); [by left|].
  destruct (match positiveInteger _ with Some _ => _ | None => _ end); [by left|].
  destruct (providers o !! _) as [pr|]; [|by left]. destruct (_ || _); [by left|].
  cbv zeta. destruct (intentKeys o !! _) as [id|].
  - destruct (_ <>s _); by left.
  - destruct (has_key _ _) eqn:Hk; [by left|]. apply has_key_false in Hk.
    right. by exists (created_intent now i).
Qed.

Lemma RestorePayment_creates i o : creates (payments o) (payments (RestorePayment i o).1).
Proof.
  unfold RestorePayment. destruct (_ || _); [by left|].
  destruct (providers o !! _) as [pr|]; [|by left]. destruct (_ || _); [by left|].
  destruct (payments o !! _) as [p|] eqn:Hp; [destruct (bool_decide _); by left|].
  pose proof (applyCanonicalConsumptionsLocked_core (i_PaymentID i)
    (set_payments <[i_PaymentID i := i]> o)) as [Hpay _ _ _].
  destruct (applyCanonicalConsumptionsLocked _ _) as [o' [[]|e]]; simpl in *; rewrite Hpay.
  - right. by exists i.
  - left. by apply delete_insert_id.
Qed.

Lemma advance_moves s ref at_ pa fa ra p :
  allowedTransition (i_Status p) s = true →
  (i_ProviderReference p ≠ ""%string → ref = i_ProviderReference p) →
  moves p (advance s ref at_ pa fa ra p).
Proof. by split. Qed.

Lemma first_reference_keeps p ref :
  i_ProviderReference p ≠ ""%string → first_reference p ref = i_ProviderReference p.
Proof. unfold first_reference. by intros ->%String.eqb_neq. Qed.

(** * The books follow the payments *)

(** What the orchestrator relies on: a coordinator runs its callback at most once; it
    answers a local disposition only after the callback succeeded, and the others
    without running it. A call that fails may have run it, with any result: the
    coordinator can fail after the callback committed. *)
Class CoordinatorLaws (K : Type) `{Coordinator K} := {
  handle_runs_once {W} record (commit : W → W * result AllocationMode.error ()) (k : K) w k' w' r :
    HandleProviderReversal record commit k w = (k', w', r) →
    match r with
    | Ok (_, AllocationMode.ReversalQuarantined) | Ok (_, AllocationMode.ReversalIncident) => w' = w
    | Ok _ => commit w = (w', Ok ())
    | Err _ => w' = w ∨ ∃ x, commit w = (w', x)
    end;
  resolve_runs_once {W} record (f : W → W * result AllocationMode.error (list string)) (k : K) w k' w' r :
    ResolveProviderReversal record f k w = (k', w', r) →
    w' = w ∨ match r with Ok _ => ∃ ids, f w = (w', Ok ids) | Err _ => ∃ x, f w = (w', x) end }.

(** The local coordinator keeps them, by the way the registry runs its callbacks. *)
#[export] Instance local_laws {S : Type} : CoordinatorLaws (AllocationMode.Registry S).
Proof.
  split.
  - intros W record commit k w k' w' r E. simpl in E. unfold local_Handle in E.
    unfold AllocationMode.HandleReversalWithCommit, AllocationMode.resolve_with in E.
    destruct (empty_s _); [simplify_eq; by left|].
    destruct (AllocationMode.byPayment k !! _) as [c|].
    + destruct (_ =s AllocationMode.ModeSyntheticProjection).
      { destruct (commit w) as [w1 [[]|e]] eqn:Ec; simplify_eq; [done|right; by exists (Err e)]. }
      repeat match type of E with context [if ?b then _ else _] => destruct b end; by simplify_eq.
    + destruct (commit w) as [w1 [[]|e]] eqn:Ec; simplify_eq; [done|right; by exists (Err e)].
  - intros W record f k w k' w' r E. simpl in E. unfold local_Resolve in E.
    unfold AllocationMode.ResolveQuarantinedReversal in E.
    destruct (AllocationMode.byPayment k !! _) as [c|]; [|simplify_eq; by left].
    destruct (_ || _); [simplify_eq; by left|].
    destruct (f w) as [w1 [ids|e]] eqn:Ef; simplify_eq; right; [by exists ids|by exists (Err e)].
Qed.

Section Books.
Context `{Sha256, Json, CallbackCodec} {K A Er : Type} `{CoordinatorLaws K}.
Variable apply : PaymentAccounting A Er.

(** The accounting service, instrumented with the transitions it accepted. *)
#[local] Instance logged : PaymentAccounting (A * list Transition) Er := λ now t '(a, log),
  match apply now t a with
  | (a, Ok ids) => ((a, log ++ [t]), Ok ids)
  | (a, Err e) => ((a, log), Err e)
  end.

(** The transition that reports a move. *)
Record reports (p p' : Intent) (t : Transition) : Prop := {
  rp_payment : t_Payment t = p';
  rp_from : t_From t = i_Status p;
  rp_to : t_To t = i_Status p';
  rp_accounting : accountingTransition (i_Status p') = true }.

(** What a call does to the payments, and the transitions it books; [ok] says that
    it answers without an error. A call that books a reversal and then fails leaves
    the payment where it was. *)
Inductive call_effect (m : gmap string Intent) (ok : bool)
    (m' : gmap string Intent) : list Transition → Prop :=
| ce_same : m' = m → call_effect m ok m' []
| ce_new p : m !! i_PaymentID p = None → m' = <[i_PaymentID p := p]> m → call_effect m ok m' []
| ce_move p p' ts : m !! i_PaymentID p' = Some p → moves p p' → Forall (reports p p') ts →
    (length ts <= 1)%nat → m' = <[i_PaymentID p' := p']> m → ok = true → call_effect m ok m' ts
| ce_lost p p' t : m !! i_PaymentID p' = Some p → moves p p' → reports p p' t →
    i_Status p' = StatusReversed → m' = m → ok = false → call_effect m ok m' [t].

(** A callback ended without an error. *)
Definition answered (out : outcome) : bool := match out.2 with None => true | Some _ => false end.

Lemma commit_reversal_cases now t a ids c w' r :
  commit_reversal now t ((a, []), (ids, c)) = (w', r) →
  match r with Ok _ => w'.2.2 = true ∧ w'.1.2 = [t] | Err _ => w'.1.2 = [] end.
Proof.
  unfold commit_reversal, ApplyTransition, logged.
  destruct (apply now t a) as [a' [js|e]]; intros E; by simplify_eq.
Qed.

Lemma ingest_reversal_effect now cb cur ing rh sh key at_ o (k : K) a o' k' a' ts out :
  payments o !! cb_PaymentID cb = Some cur → i_PaymentID cur = cb_PaymentID cb →
  cb_Status cb = StatusReversed → allowedTransition (i_Status cur) StatusReversed = true →
  ingest_reversal now cb cur ing rh sh key at_ o k (a, []) = (o', k', (a', ts), out) →
  call_effect (payments o) (answered out) (payments o') ts.
Proof using All.
  intros Hcur Hid Hst Hal E. unfold ingest_reversal in E.
  set (next := reversed_intent cur (first_reference cur (cb_ProviderReference cb)) (Time.UTC at_)) in E.
  assert (moves cur next) as Hmv by (by apply advance_moves; [|apply first_reference_keeps]).
  assert (payments o !! i_PaymentID next = Some cur) as Hcur' by (by rewrite <- Hcur; f_equal).
  assert (reports cur next (transition_of next cur cb at_)) as Hrep by (by split).
  destruct (HandleProviderReversal _ _ k _) as [[k1 w1] r] eqn:Eh.
  pose proof (handle_runs_once _ _ _ _ _ _ _ Eh) as Hl.
  destruct w1 as [[a1 log1] [ids c]]. destruct r as [[claim d]|e]; cycle 1.
  { simplify_eq. destruct Hl as [Hl|[[[]|x] Hl]]; [by simplify_eq; apply ce_same|..];
      apply commit_reversal_cases in Hl; cbn in Hl; [|subst ts; by apply ce_same].
    destruct Hl as [_ ->]. by eapply ce_lost. }
  destruct d; try (simplify_eq; by apply ce_same).
  all: apply commit_reversal_cases in Hl as [Hc Hlog]; cbn in Hc, Hlog; subst c log1; cbn in E;
    simplify_eq; eapply ce_move; [exact Hcur'|done| | |reflexivity|reflexivity];
    [by repeat constructor|done].
Qed.

Lemma ingest_ordinary_effect now cb cur rh key at_ o (k : K) a o' k' a' ts out :
  payments o !! cb_PaymentID cb = Some cur → i_PaymentID cur = cb_PaymentID cb →
  (cb_Status cb = i_Status cur ∨ allowedTransition (i_Status cur) (cb_Status cb) = true) →
  ingest_ordinary now cb cur rh key at_ o k (a, []) = (o', k', (a', ts), out) →
  call_effect (payments o) (answered out) (payments o') ts.
Proof.
  intros Hcur Hid Hal E. unfold ingest_ordinary in E.
  destruct (cb_Status cb =s i_Status cur) eqn:Hs; [simplify_eq; by apply ce_same|].
  destruct Hal as [Hal|Hal]; [by rewrite Hal, String.eqb_refl in Hs|].
  assert (moves cur (moved_intent cur cb at_)) as Hmv
    by (by apply advance_moves; [|apply first_reference_keeps]).
  assert (payments o !! i_PaymentID (moved_intent cur cb at_) = Some cur) as Hcur'
    by (by rewrite <- Hcur; f_equal).
  destruct (accountingTransition (cb_Status cb)) eqn:Hat.
  - destruct (ApplyTransition now _ (a, [])) as [[a1 log1] [ids|e]] eqn:Ea;
      unfold ApplyTransition, logged in Ea; destruct (apply now _ a) as [a2 [ids2|e2]]; simplify_eq.
    + eapply ce_move; [exact Hcur'|done| | |reflexivity|done]; [by repeat constructor|done].
    + by apply ce_same.
  - simplify_eq. eapply ce_move; [exact Hcur'|done|constructor|simpl; lia|reflexivity|done].
Qed.

Lemma ingest_bound_effect now pr cb ing rh sh at_ o (k : K) a o' k' a' ts out :
  keyed (payments o) →
  ingest_bound now pr cb ing rh sh at_ o k (a, []) = (o', k', (a', ts), out) →
  call_effect (payments o) (answered out) (payments o') ts.
Proof using All.
  intros Hk E. unfold ingest_bound in E.
  destruct (events o !! _) as [ev|].
  { destruct (_ <>s _); simplify_eq; by apply ce_same. }
  destruct (payments o !! _) as [cur|] eqn:Hcur; [|simplify_eq; by apply ce_same].
  destruct (negb (payment_bound _ _ _ _ _)); [simplify_eq; by apply ce_same|].
  destruct (_ && _); [simplify_eq; by apply ce_same|].
  destruct (_ && _) eqn:Hrr; [simplify_eq; by apply ce_same|].
  destruct (_ && negb (allowedTransition _ _)) eqn:Hal; [simplify_eq; by apply ce_same|].
  pose proof (Hk _ _ Hcur) as Hid.
  destruct (cb_Status cb =s StatusReversed) eqn:Hst.
  - apply String.eqb_eq in Hst. eapply ingest_reversal_effect; [done..| |done].
    rewrite Hst in Hal. simpl in Hrr. rewrite String.eqb_sym, Hrr in Hal. simpl in Hal.
    by apply negb_false_iff.
  - eapply ingest_ordinary_effect; [done..| |done].
    apply andb_false_iff in Hal as [Hal|Hal]; apply negb_false_iff in Hal; [left|by right].
    by apply String.eqb_eq.
Qed.

Lemma IngestCallback_effect now pid eid raw sig at_ o (k : K) a o' k' a' ts out :
  keyed (payments o) →
  IngestCallback now pid eid raw sig at_ o k (a, []) = (o', k', (a', ts), out) →
  call_effect (payments o) (answered out) (payments o') ts.
Proof using All.
  intros Hk E. unfold IngestCallback in E.
  destruct (Time.IsZero at_); [simplify_eq; by apply ce_same|].
  destruct (refreshCanonicalConsumptionsLocked k o) as [o1 r] eqn:Er1.
  apply refresh_core in Er1 as [Hp _ _ _]. rewrite <- Hp in Hk |- *.
  destruct r as [[]|e]; [|simplify_eq; by apply ce_same]. cbv zeta in E.
  destruct (_ || _); [simplify_eq; by apply ce_same|].
  destruct (providers _ !! pid) as [pr|]; [|simplify_eq; by apply ce_same].
  destruct (_ || _); [simplify_eq; by apply ce_same|].
  destruct (decodeCallback raw) as [cb|]; [|simplify_eq; by apply ce_same].
  destruct (_ || _); [simplify_eq; by apply ce_same|].
  by apply ingest_bound_effect in E.
Qed.

Lemma resolve_replay_effect rq rs o o' r :
  keyed (payments o) → resolve_replay rq rs o = (o', r) →
  call_effect (payments o) (is_ok r) (payments o') [].
Proof.
  intros Hk E. unfold resolve_replay in E.
  destruct (payments o !! _) as [cur|] eqn:Hcur; [|simplify_eq; by apply ce_same].
  pose proof (Hk _ _ Hcur) as Hid.
  destruct (_ || _); [simplify_eq; by apply ce_same|].
  destruct (i_Status cur =s StatusFinal) eqn:Hf.
  - simplify_eq. eapply (ce_move _ _ _ cur
      (reversed_intent cur (first_reference cur (rs_ProviderReference rs)) (Time.UTC (rs_ResolvedAt rs))) []);
      [by rewrite <- Hcur, <- Hid| |constructor|simpl; lia|reflexivity|done].
    apply String.eqb_eq in Hf. apply advance_moves; [by rewrite Hf|apply first_reference_keeps].
  - destruct (i_Status cur =s StatusReversed); [|simplify_eq; by apply ce_same].
    destruct (_ || _); simplify_eq; [by apply ce_same|].
    apply ce_same. simpl. by apply insert_id; rewrite Hid.
Qed.

Lemma fallback_reversal_cases now t a w' r :
  fallback_reversal now t (a, []) = (w', r) → w'.2 = match r with Ok _ => [t] | Err _ => [] end.
Proof.
  unfold fallback_reversal, ApplyTransition, logged.
  destruct (apply now t a) as [a' [js|e]]; intros E; by simplify_eq.
Qed.

Lemma ResolveCanonicalReversal_effect now rq o (k : K) a o' k' a' ts r :
  keyed (payments o) →
  ResolveCanonicalReversal now rq o k (a, []) = (o', k', (a', ts), r) →
  call_effect (payments o) (is_ok r) (payments o') ts.
Proof using All.
  intros Hk E. unfold ResolveCanonicalReversal in E.
  destruct (_ || _); [simplify_eq; by apply ce_same|].
  destruct (refreshCanonicalConsumptionsLocked k o) as [o1 r1] eqn:Er1.
  apply refresh_core in Er1 as [Hp _ _ _]. rewrite <- Hp in Hk |- *.
  destruct r1 as [[]|e]; [|simplify_eq; by apply ce_same].
  destruct (ResolvedProviderReversal rq k) as [[rs|]|e]; [| |simplify_eq; by apply ce_same].
  { destruct (resolve_replay rq rs o1) as [o2 r2] eqn:Er2. simplify_eq.
    by eapply resolve_replay_effect. }
  destruct (has_key _ _); [simplify_eq; by apply ce_same|].
  destruct (pendingReversals o1 !! _) as [pe|]; [|simplify_eq; by apply ce_same].
  destruct (_ || _); [simplify_eq; by apply ce_same|].
  destruct (payments o1 !! _) as [cur|] eqn:Hcur; [|simplify_eq; by apply ce_same].
  destruct (i_Status cur <>s StatusFinal) eqn:Hf; [simplify_eq; by apply ce_same|].
  apply negb_false_iff, String.eqb_eq in Hf. pose proof (Hk _ _ Hcur) as Hid. cbv zeta in E.
  set (next := reversed_intent cur (i_ProviderReference cur) (Time.UTC (rq_ResolvedAt rq))) in *.
  assert (moves cur next) as Hmv by (by apply advance_moves; [rewrite Hf|]).
  assert (payments o1 !! i_PaymentID next = Some cur) as Hcur' by (by rewrite <- Hcur, <- Hid).
  destruct (ResolveProviderReversal _ _ k _) as [[k1 [a1 log1]] rr] eqn:Eh.
  pose proof (resolve_runs_once _ _ _ _ _ _ _ Eh) as Hl.
  destruct rr as [canonical|e]; simplify_eq; simpl.
  - destruct Hl as [Hl|[ids Hl]].
    + simplify_eq. eapply ce_move; [exact Hcur'|done|constructor|simpl; lia|reflexivity|done].
    + apply fallback_reversal_cases in Hl. simpl in Hl. subst ts.
      eapply ce_move; [exact Hcur'|done| | |reflexivity|done]; [|done]. constructor; [|constructor]. by split.
  - destruct Hl as [Hl|[[ids|x] Hl]]; [by simplify_eq; apply ce_same|..];
      apply fallback_reversal_cases in Hl; simpl in Hl; subst ts; [|by apply ce_same].
    eapply ce_lost; [exact Hcur'|done| |done|done|done]. by split.
Qed.

(** ** Any sequence of calls *)

(** The orchestrator, the coordinator, the accounting service, and the transitions it
    accepted, each with the success of the call that booked it. *)
Definition system : Type := Orchestrator * K * A * list (bool * Transition).

(** One call, with any arguments; or any use of the coordinator and of the
    accounting service by their other owners. *)
Inductive sys_step : system → system → Prop :=
| call_create i now o k a log : sys_step (o, k, a, log) ((CreateIntent i now o).1, k, a, log)
| call_restore i o k a log : sys_step (o, k, a, log) ((RestorePayment i o).1, k, a, log)
| call_ingest now p e raw sig at_ o k a log o' k' a' ts out :
    IngestCallback now p e raw sig at_ o k (a, []) = (o', k', (a', ts), out) →
    sys_step (o, k, a, log) (o', k', a', log ++ (pair (answered out) <$> ts))
| call_resolve now rq o k a log o' k' a' ts r :
    ResolveCanonicalReversal now rq o k (a, []) = (o', k', (a', ts), r) →
    sys_step (o, k, a, log) (o', k', a', log ++ (pair (is_ok r) <$> ts))
| call_resolve_quarantine q r e b at_ o k a log :
    sys_step (o, k, a, log) ((ResolveQuarantine q r e b at_ o).1, k, a, log)
| others o k k' a a' log : sys_step (o, k, a, log) (o, k', a', log).

Definition sys_payments (s : system) : gmap string Intent := payments s.1.1.1.
(** What calls that succeeded booked, and what calls that then failed booked. *)
Definition sys_log (s : system) : list (bool * Transition) := s.2.
Definition flagged (b : bool) (l : list (bool * Transition)) : list Transition :=
  (filter (λ x : bool * Transition, x.1 = b) l).*2.
Definition sys_kept (s : system) : list Transition := flagged true (sys_log s).
Definition sys_lost (s : system) : list Transition := flagged false (sys_log s).

Lemma sys_step_effect s s' :
  keyed (sys_payments s) → sys_step s s' →
  ∃ ok ts, call_effect (sys_payments s) ok (sys_payments s') ts ∧ sys_log s' = sys_log s ++ (pair ok <$> ts).
Proof using All.
  unfold sys_payments, sys_log. intros Hk Hs.
  assert (∀ m m' (log : list (bool * Transition)), call_effect m true m' [] →
    ∃ ok ts, call_effect m ok m' ts ∧ log = log ++ (pair ok <$> ts)) as Hnone.
  { intros m m' log He. exists true, []. by rewrite app_nil_r. }
  destruct Hs as [i now o k a log|i o k a log|now p e raw sig at_ o k a log o' k' a' ts out E
    |now rq o k a log o' k' a' ts r E|q r e b at_ o k a log|o k k' a a' log]; cbn [fst snd] in *.
  - apply Hnone. destruct (CreateIntent_creates i now o) as [Hm|(p & Hp & Hm)]; [by apply ce_same|by eapply ce_new].
  - apply Hnone. destruct (RestorePayment_creates i o) as [Hm|(p & Hp & Hm)]; [by apply ce_same|by eapply ce_new].
  - eexists _, ts. split; [|done]. by eapply IngestCallback_effect.
  - eexists _, ts. split; [|done]. by eapply ResolveCanonicalReversal_effect.
  - apply Hnone. unfold ResolveQuarantine.
    repeat match goal with |- context [if ?b then _ else _] => destruct b end; by apply ce_same.
  - apply Hnone. by apply ce_same.
Qed.

Lemma call_effect_keyed m ok m' ts : keyed m → call_effect m ok m' ts → keyed m'.
Proof.
  intros Hk [-> |p _ ->|p p' us _ _ _ _ -> _|p p' t _ _ _ _ -> _] id q Hq; [by apply Hk|..|by apply Hk];
    apply lookup_insert_Some in Hq as [[<- <-]|[_ Hq]]; auto.
Qed.

(** How far a status is on its way. *)
Definition depth (status : string) : nat :=
  if status =s StatusCreated then 0 else if status =s StatusProcessing then 1
  else if status =s StatusProvisional then 2 else if status =s StatusFinal then 3 else 4.

(** The accounting stages in their order; 0 is no stage. *)
Definition rank (status : string) : nat :=
  if status =s StatusProvisional then 1 else if status =s StatusFinal then 2
  else if status =s StatusReversed then 3 else 0.

Lemma allowedTransition_progress a b :
  allowedTransition a b = true →
  (depth a < depth b <= 4)%nat ∧ (rank a <= rank b)%nat ∧
  (accountingTransition b = true → (rank a < rank b)%nat).
Proof.
  unfold allowedTransition. intros Ha.
  repeat match type of Ha with
  | (if ?x =s ?y then _ else _) = true => destruct (String.eqb_spec x y) as [->|_]
  | (_ || _) = true => apply orb_true_iff in Ha as [Ha|Ha]
  | (_ =s _) = true => apply String.eqb_eq in Ha as ->
  end; try done; split_and!; vm_compute; try congruence; lia.
Qed.

Lemma call_effect_payment m ok m' ts id p :
  keyed m → call_effect m ok m' ts → m !! id = Some p →
  m' !! id = Some p ∨ ∃ p', m' !! id = Some p' ∧ moves p p'.
Proof.
  intros Hk [-> |q Hq ->|q q' us Hq Hmv _ _ -> _|q q' t _ _ _ _ -> _] Hp; [by left|..|by left].
  - left. rewrite lookup_insert_ne; [done|]. intros E. rewrite E in Hq. congruence.
  - destruct (decide (i_PaymentID q' = id)) as [E|Hne].
    + right. exists q'. rewrite E in *. rewrite lookup_insert_eq. split; [done|]. congruence.
    + left. by rewrite lookup_insert_ne.
Qed.

Lemma sys_steps_keyed s s' :
  keyed (sys_payments s) → rtc sys_step s s' → keyed (sys_payments s').
Proof using All.
  intros Hk Hs. revert Hk. induction Hs as [|s s1 s' Hst _ IH]; intros Hk; [done|].
  destruct (sys_step_effect _ _ Hk Hst) as (ok & ts & He & _). apply IH. by eapply call_effect_keyed.
Qed.

Lemma sys_steps_moves s s' id p :
  keyed (sys_payments s) → rtc sys_step s s' → sys_payments s !! id = Some p →
  ∃ p' n, sys_payments s' !! id = Some p' ∧ nsteps moves n p p'.
Proof using All.
  intros Hk Hs. revert p Hk. induction Hs as [|s s1 s' Hst _ IH]; intros p Hk Hp.
  - exists p, 0%nat. split; [done|constructor].
  - destruct (sys_step_effect _ _ Hk Hst) as (ok & ts & He & _).
    pose proof (call_effect_keyed _ _ _ _ Hk He) as Hk1.
    destruct (call_effect_payment _ _ _ _ _ _ Hk He Hp) as [Hp1|(p1 & Hp1 & Hmv)].
    + by apply IH.
    + destruct (IH p1 Hk1 Hp1) as (p' & n & Hp' & Hn). exists p', (S n). split; [done|].
      by econstructor.
Qed.

(** What [n] moves amount to. *)
Record progressed (n : nat) (p p' : Intent) : Prop := {
  pg_path : nsteps (λ a b, allowedTransition a b = true) n (i_Status p) (i_Status p');
  pg_bound : (n <= 4)%nat;
  pg_version : i_Version p' = if decide (n = 0%nat) then i_Version p
                              else u64 (i_Version p + Z.of_nat n);
  pg_terms : terms p' = terms p;
  pg_reference : i_ProviderReference p ≠ ""%string → i_ProviderReference p' = i_ProviderReference p;
  pg_same : n = 0%nat → p' = p }.

Lemma moves_progressed n p p' :
  nsteps moves n p p' → progressed n p p' ∧ (n <> 0%nat → n + depth (i_Status p) <= depth (i_Status p') <= 4)%nat.
Proof.
  induction 1 as [p|n p p1 p' [Ha Hv Ht Hr] _ [[Q1 Q2 Q3 Q4 Q5 Q6] IHd]].
  - split; [|done]. split; try done; [constructor|simpl; lia].
  - destruct (allowedTransition_progress _ _ Ha) as (Hd & _ & _).
    assert (S n + depth (i_Status p) <= depth (i_Status p') <= 4)%nat as Hdep.
    { destruct (decide (n = 0%nat)) as [->|Hn]; [rewrite (Q6 eq_refl); lia|]. specialize (IHd Hn). lia. }
    split; [|done]. split; try done.
    + by econstructor.
    + lia.
    + rewrite Q3, (decide_False (P := S n = 0%nat)) by done. destruct (decide (n = 0%nat)) as [->|Hn]; [by rewrite Hv|].
      rewrite Hv. unfold u64. rewrite Zplus_mod_idemp_l. f_equal. lia.
    + congruence.
    + intros Hne. rewrite Q5; [by apply Hr|]. by rewrite Hr.
Qed.

(** A system as [New] and any calls leave it. *)
Definition sys_reachable (s : system) : Prop :=
  ∃ providers o (k : K) a, New providers k = Ok o ∧ rtc sys_step (o, k, a, []) s.

Lemma restore_pending_payments rs o o' : restore_pending rs o = Ok o' → payments o' = payments o.
Proof.
  revert o. induction rs as [|r rs IH]; intros o E; [by simplify_eq/=|]. cbn [restore_pending] in E.
  destruct (_ || _); [done|]. destruct (negb _); [done|]. destruct (has_key _ _); [done|].
  cbv zeta in E. apply IH in E. done.
Qed.

Lemma New_payments providers (k : K) o : New providers k = Ok o → payments o = ∅.
Proof.
  unfold New. destruct providers; [done|]. destruct (configure _ _) as [cf|]; [|done].
  destruct (restore_pending _ _) as [o1|] eqn:Eq1; [|done].
  apply restore_pending_payments in Eq1.
  destruct (refreshCanonicalConsumptionsLocked k o1) as [o2 [[]|e]] eqn:Ef; [|done].
  apply refresh_core in Ef as [Hp _ _ _]. intros [= <-]. by rewrite Hp, Eq1.
Qed.

Lemma sys_reachable_keyed s : sys_reachable s → keyed (sys_payments s).
Proof using All.
  intros (ps & o & k & a & Hn & Hs). eapply sys_steps_keyed; [|exact Hs].
  unfold sys_payments. simpl. rewrite (New_payments _ _ _ Hn). by intros id p ?%lookup_empty_Some.
Qed.

(** C36: a payment only ever moves forward along its lifecycle. For every coordinator
    that runs its callback at most once per call ([CoordinatorLaws]), after any further
    calls, with any providers' callbacks, restorations and resolutions, a payment
    the orchestrator holds is still held, its terms (identity, provider, rail,
    asset, units, expiry) are what they were, its provider reference is fixed once
    it is set, and its status has moved along the permitted transitions, at most
    four of them, each counted in its version; if its status did not move nothing
    about it changed, so a failed or reversed payment is final. *)
Theorem payment_lifecycle (s s' : system) (id : string) (p : Intent) :
  sys_reachable s → rtc sys_step s s' → sys_payments s !! id = Some p →
  ∃ p' n, sys_payments s' !! id = Some p' ∧ progressed n p p' ∧
    (i_Status p = StatusFailed ∨ i_Status p = StatusReversed → p' = p).
Proof using All.
  intros Hr Hs Hp. destruct (sys_steps_moves s s' id p) as (p' & n & Hp' & Hn);
    [by apply sys_reachable_keyed|done..|].
  destruct (moves_progressed _ _ _ Hn) as [Hpg Hd]. exists p', n. split_and!; [done..|].
  intros Hfin. destruct (decide (n = 0%nat)) as [E|E]; [by apply (pg_same _ _ _ Hpg)|].
  specialize (Hd E). exfalso.
  assert (depth (i_Status p) = 4%nat) by (destruct Hfin as [-> | ->]; reflexivity). lia.
Qed.

(** The transitions booked for a payment. *)
Definition booked (id : string) (log : list Transition) : list Transition :=
  filter (λ t, i_PaymentID (t_Payment t) = id) log.

(** A booked transition of a payment that is now [p]. *)
Record booked_ok (m : gmap string Intent) (id : string) (t : Transition) : Prop := {
  bk_payment : ∃ p, m !! id = Some p ∧ terms (t_Payment t) = terms p ∧
    (rank (t_To t) <= rank (i_Status p))%nat;
  bk_allowed : allowedTransition (t_From t) (t_To t) = true;
  bk_stage : accountingTransition (t_To t) = true }.

Definition earlier (t u : Transition) : Prop := (rank (t_To t) < rank (t_To u))%nat.

Definition books_ok (m : gmap string Intent) (log : list Transition) : Prop :=
  ∀ id, StronglySorted earlier (booked id log) ∧ Forall (booked_ok m id) (booked id log).

(** A reversal that was booked by a call that then failed. *)
Record lost_ok (m : gmap string Intent) (t : Transition) : Prop := {
  lo_payment : ∃ p, m !! i_PaymentID (t_Payment t) = Some p ∧ terms (t_Payment t) = terms p;
  lo_stage : t_To t = StatusReversed;
  lo_allowed : allowedTransition (t_From t) StatusReversed = true }.

Lemma booked_ok_move m id t p p' :
  m !! id = Some p → moves p p' → i_PaymentID p' = id → booked_ok m id t →
  booked_ok (<[id := p']> m) id t ∧ (rank (t_To t) <= rank (i_Status p))%nat.
Proof.
  intros Hp [Ha _ Ht _] Hid [(q & Hq & Tq & Rq) B2 B3]. rewrite Hp in Hq. injection Hq as <-.
  split; [|done]. split; [|done..]. exists p'. rewrite lookup_insert_eq.
  destruct (allowedTransition_progress _ _ Ha) as (_ & Hle & _).
  split_and!; [done|congruence|lia].
Qed.

Lemma books_ok_move m log p p' ts :
  m !! i_PaymentID p' = Some p → moves p p' → Forall (reports p p') ts → (length ts <= 1)%nat →
  books_ok m log → books_ok (<[i_PaymentID p' := p']> m) (log ++ ts).
Proof.
  intros Hp Hmv Hts Hlen Hb id. destruct (Hb id) as [Hs Hf]. unfold booked in *.
  rewrite filter_app. destruct (decide (id = i_PaymentID p')) as [->|Hne].
  - assert (Forall (λ t, booked_ok (<[i_PaymentID p' := p']> m) (i_PaymentID p') t ∧
      (rank (t_To t) <= rank (i_Status p))%nat) (booked (i_PaymentID p') log)) as Hold.
    { eapply Forall_impl; [exact Hf|]. intros t Ht. by apply (booked_ok_move m _ t p p'). }
    destruct ts as [|t [|]]; [| |simpl in Hlen; lia].
    + rewrite filter_nil, app_nil_r. split; [done|]. eapply Forall_impl; [exact Hold|]. by intros t [].
    + apply Forall_singleton in Hts as [R1 R2 R3 R4].
      rewrite filter_cons_True, filter_nil by (by rewrite R1).
      destruct (allowedTransition_progress _ _ (mv_allowed _ _ Hmv)) as (_ & _ & Hlt).
      specialize (Hlt R4). rewrite <- R3 in Hlt. split.
      * apply StronglySorted_app; split_and!; [|done|repeat constructor].
        intros x y Hx Hy. apply list_elem_of_singleton in Hy as ->.
        rewrite Forall_forall in Hold. destruct (Hold x Hx). unfold earlier. lia.
      * apply Forall_app. split; [eapply Forall_impl; [exact Hold|]; by intros x []|].
        apply Forall_singleton. split.
        -- exists p'. rewrite lookup_insert_eq, R1, R3. done.
        -- rewrite R2, R3. apply Hmv.
        -- by rewrite R3.
  - assert (filter (λ t, i_PaymentID (t_Payment t) = id) ts = []) as ->.
    { destruct ts as [|t [|]]; [done| |simpl in Hlen; lia]. apply Forall_singleton in Hts as [R1 _ _ _].
      rewrite filter_cons_False; [done|]. rewrite R1. congruence. }
    rewrite app_nil_r. split; [done|]. eapply Forall_impl; [exact Hf|].
    intros t [(q & Hq & B) B2 B3]. split; [|done..]. exists q. by rewrite lookup_insert_ne.
Qed.

Lemma call_effect_books m ok m' ts log :
  call_effect m ok m' ts → books_ok m log → books_ok m' (if ok then log ++ ts else log).
Proof.
  assert (∀ l : list Transition, (if ok then l ++ [] else l) = l) as Hnil
    by (intros l; destruct ok; [apply app_nil_r|done]).
  intros [-> |q Hq ->|q q' us Hq Hmv Hts Hl -> ->|q q' t _ _ _ _ -> ->] Hb; rewrite ?Hnil; [done| |
    by apply (books_ok_move _ _ q)|done].
  intros id. destruct (Hb id) as [Hs Hf]. split; [done|]. eapply Forall_impl; [exact Hf|].
  intros t [(p & Hp & B) B2 B3]. split; [|done..]. exists p. split; [|done].
  rewrite lookup_insert_ne; [done|]. intros E. rewrite E in Hq. congruence.
Qed.

Lemma call_effect_lost m ok m' ts log :
  keyed m → call_effect m ok m' ts → Forall (lost_ok m) log →
  Forall (lost_ok m') (if ok then log else log ++ ts).
Proof.
  intros Hk He Hl. assert (Forall (lost_ok m') log) as Hold.
  { eapply Forall_impl; [exact Hl|]. intros t [(p & Hp & Ht) L2 L3]. split; [|done..].
    destruct (call_effect_payment _ _ _ _ _ _ Hk He Hp) as [Hp'|(p' & Hp' & [_ _ Hte _])].
    - by exists p.
    - exists p'. split; [done|congruence]. }
  destruct ok; [done|]. apply Forall_app. split; [done|].
  destruct He as [-> |q Hq ->|q q' us Hq Hmv Hts Hlen -> [=]|q q' t Hq Hmv Hrep Hst -> _]; try constructor; [|done].
  destruct Hrep as [R1 R2 R3 R4], Hmv as [M1 M2 M3 M4]. split.
  - exists q. rewrite R1. split; [done|congruence].
  - congruence.
  - by rewrite R2, <- Hst.
Qed.

Lemma flagged_app b l ok ts :
  flagged b (l ++ (pair ok <$> ts)) = if decide (ok = b) then flagged b l ++ ts else flagged b l.
Proof.
  assert (flagged b (pair ok <$> ts) = if decide (ok = b) then ts else []) as Hf.
  { unfold flagged. induction ts as [|t ts IH]; [by case_decide|]. rewrite fmap_cons, filter_cons. cbn [fst].
    case_decide; [|done]. cbn. by f_equal. }
  unfold flagged in *. rewrite filter_app, fmap_app, Hf. case_decide; [done|apply app_nil_r].
Qed.

Lemma sys_books s : sys_reachable s → books_ok (sys_payments s) (sys_kept s) ∧
  Forall (lost_ok (sys_payments s)) (sys_lost s).
Proof using All.
  intros (ps & o & k & a & Hn & Hs).
  assert (keyed (sys_payments (o, k, a, []))) as Hk.
  { unfold sys_payments. simpl. rewrite (New_payments _ _ _ Hn). by intros i p ?%lookup_empty_Some. }
  assert (books_ok (sys_payments (o, k, a, [])) (sys_kept (o, k, a, [])) ∧
    Forall (lost_ok (sys_payments (o, k, a, []))) (sys_lost (o, k, a, []))) as Hb
    by (split; [intros i; split; constructor|constructor]).
  revert Hk Hb. induction Hs as [|s1 s2 s3 Hst _ IH]; intros Hk [Hb Hl]; [done|].
  destruct (sys_step_effect _ _ Hk Hst) as (ok & ts & He & Hlog).
  apply IH; [by eapply call_effect_keyed|]. unfold sys_kept, sys_lost in *. rewrite Hlog.
  rewrite !flagged_app. pose proof (call_effect_books _ _ _ _ _ He Hb).
  pose proof (call_effect_lost _ _ _ _ _ Hk He Hl). by destruct ok.
Qed.

Lemma stages_bounded l :
  StronglySorted earlier l → Forall (λ t, accountingTransition (t_To t) = true) l → (length l <= 3)%nat.
Proof.
  intros Hso Hf.
  assert (∀ l lo, StronglySorted earlier l → Forall (λ t, (lo < rank (t_To t))%nat) l →
    (length l + lo <= 3 ∨ l = [])%nat) as Hlen.
  { clear. induction l as [|t l IH]; intros lo Hso Hlo; [by right|left].
    apply StronglySorted_inv in Hso as [Hso Hall]. apply Forall_cons in Hlo as [Ht _].
    assert (rank (t_To t) <= 3)%nat.
    { unfold rank. repeat match goal with |- context [if ?b then _ else _] => destruct b end; lia. }
    destruct (IH (rank (t_To t)) Hso Hall) as [Hl|Hl]; [|subst l]; simpl; lia. }
  destruct (Hlen _ 0%nat Hso) as [Hl|Hl]; [|lia|rewrite Hl; simpl; lia].
  eapply Forall_impl; [exact Hf|]. intros t Hst. unfold accountingTransition in Hst. unfold rank.
  destruct (_ =s _); [lia|]. destruct (_ =s _); [lia|]. simpl in Hst. rewrite Hst. lia.
Qed.

(** C35: the books follow the payments. For every coordinator that runs its callback
    at most once per call (the interface [CoordinatorLaws]; both coordinators of the
    repository do), however callbacks, replays, conflicts, reversals and resolutions
    interleave, and whatever the coordinator and the accounting service do for their
    other owners: the transitions booked for a payment by calls that succeeded are in
    strictly increasing stage order (provisional, final, reversed), so each stage at
    most once; every one of them is a permitted transition, carries the terms of the
    payment as it is held, and is no further than the payment's status. A transition
    booked by a call that then failed is always a reversal, permitted from the status
    the payment had and carrying its terms: it happens when the coordinator fails
    after the accounting committed, and such a reversal may be booked again. *)
Theorem accounting_at_most_once (s : system) (id : string) :
  sys_reachable s →
  StronglySorted earlier (booked id (sys_kept s)) ∧
  Forall (booked_ok (sys_payments s) id) (booked id (sys_kept s)) ∧
  (length (booked id (sys_kept s)) <= 3)%nat ∧
  Forall (lost_ok (sys_payments s)) (sys_lost s).
Proof using All.
  intros [Hb Hl]%sys_books. destruct (Hb id) as [Hso Hf]. split_and!; [done..| |done].
  apply stages_bounded; [done|]. eapply Forall_impl; [exact Hf|]. by intros t [_ _ Hst].
Qed.
End Books.

(** * Authentication *)

Section Authentic.
Context `{Sha256, Json, CallbackCodec} {K A E : Type} `{Coordinator K, PaymentAccounting A E}.

(** A callback that a registered provider signed, for a payment that is bound to
    that provider on exactly these terms. *)
Record authentic (o : Orchestrator) (pid eid raw sig : string) (at_ : Time.t)
    (pr : Provider) (cb : Callback) (cur : Intent) : Prop := {
  au_provider : providers o !! pid = Some pr;
  au_active : pr_Active pr = true;
  au_signature : ed25519_Verify (pr_PublicKey pr) (SigningMessage raw) sig = true;
  au_bytes : EncodeCallback cb = Ok raw;
  au_event : cb_ProviderID cb = pid ∧ cb_ProviderEventID cb = eid;
  au_asset : cb_AssetID cb = pr_AssetID pr;
  au_fresh : Time.After at_ (cb_ExpiresAt cb) = false;
  au_payment : payments o !! cb_PaymentID cb = Some cur;
  au_bound : i_ProviderID cur = pid ∧ i_Rail cur = pr_Rail pr ∧ i_AssetID cur = cb_AssetID cb ∧
    i_Units cur = cb_Units cb ∧
    (i_ProviderReference cur ≠ ""%string → i_ProviderReference cur = cb_ProviderReference cb);
  au_order : cb_Status cb = i_Status cur ∨ allowedTransition (i_Status cur) (cb_Status cb) = true;
  au_reversal : cb_Status cb = StatusReversed →
    pr_SupportsReversal pr = true ∧ i_Status cur ≠ StatusReversed }.

(** A call that touched nothing but the orchestrator's own records of it. *)
Record refused (o : Orchestrator) (k : K) (a : A) (o' : Orchestrator) (k' : K) (a' : A)
    (out : outcome) : Prop := {
  rf_payments : payments o' = payments o;
  rf_coordinator : k' = k;
  rf_accounting : a' = a;
  rf_answer : out.2 ≠ None ∨ cr_Replayed out.1 = true }.

Ltac refuse := left; split; [assumption || reflexivity|reflexivity|reflexivity|first [by left|by right]].

Lemma decodeCallback_Ok raw cb : decodeCallback raw = Ok cb → EncodeCallback cb = Ok raw.
Proof.
  unfold decodeCallback. destruct (unmarshal_callback raw) as [c|]; [|done].
  destruct (EncodeCallback c) as [enc|] eqn:Ee; [|done]. destruct (_ <>s _) eqn:Hn; [done|].
  bool_facts. intros <-%Ok_inj. congruence.
Qed.

Lemma payment_bound_true pr pid cb cur at_ :
  payment_bound pr pid cb cur at_ = true →
  i_ProviderID cur = pid ∧ i_Rail cur = pr_Rail pr ∧ i_AssetID cur = cb_AssetID cb ∧
  i_Units cur = cb_Units cb ∧
  (i_ProviderReference cur ≠ ""%string → i_ProviderReference cur = cb_ProviderReference cb).
Proof.
  unfold payment_bound. intros Hb. repeat (apply andb_true_iff in Hb as [Hb ?]). bool_facts.
  split_and!; try done. intros Hne. apply String.eqb_neq in Hne.
  match goal with F : (_ || _) = true |- _ => rewrite Hne in F; by apply String.eqb_eq in F end.
Qed.

Lemma ingest_bound_authentic now pr cb ing rh sh at_ o (k : K) (a : A) o' k' a' out :
  ingest_bound now pr cb ing rh sh at_ o k a = (o', k', a', out) →
  refused o k a o' k' a' out ∨
  ∃ cur, payments o !! cb_PaymentID cb = Some cur ∧
    payment_bound pr (cb_ProviderID cb) cb cur at_ = true ∧
    (cb_Status cb = i_Status cur ∨ allowedTransition (i_Status cur) (cb_Status cb) = true) ∧
    (cb_Status cb = StatusReversed → pr_SupportsReversal pr = true ∧ i_Status cur ≠ StatusReversed).
Proof.
  intros Hi. unfold ingest_bound in Hi.
  destruct (events o !! _) as [ev|].
  { destruct (_ <>s _); simplify_eq; refuse. }
  destruct (payments o !! _) as [cur|] eqn:Hcur; [|simplify_eq; refuse].
  destruct (payment_bound _ _ _ _ _) eqn:Hb; cbn [negb] in Hi; [|simplify_eq; refuse].
  destruct (_ && _) eqn:Hsup; [simplify_eq; refuse|].
  destruct (_ && _) eqn:Hrr in Hi; [simplify_eq; refuse|].
  destruct (_ && negb (allowedTransition _ _)) eqn:Hal; [simplify_eq; refuse|].
  right. exists cur. split_and!; [done..| |].
  - apply andb_false_iff in Hal as [Hal|Hal]; apply negb_false_iff in Hal; [left|by right].
    by apply String.eqb_eq.
  - intros Hst. rewrite Hst, String.eqb_refl in Hsup, Hrr. simpl in Hsup, Hrr.
    apply negb_false_iff in Hsup. by apply String.eqb_neq in Hrr.
Qed.

Lemma ingest_bound_raw now pr cb ing rh sh at_ o (k : K) (a : A) o' k' a' out :
  ingest_bound now pr cb ing rh sh at_ o k a = (o', k', a', out) → rawCallbacks o' = rawCallbacks o.
Proof.
  unfold ingest_bound, ingest_reversal, ingest_ordinary. intros Hi.
  repeat (case_match; simplify_eq/=; try done).
Qed.

(** A delivery that is refused before it is put on file. *)
Definition unrecorded (at_ : Time.t) (k : K) (o : Orchestrator) : bool :=
  Time.IsZero at_ || negb (is_ok (refreshCanonicalConsumptionsLocked k o).2).

(** C37: only an authenticated callback has an effect. Whatever bytes arrive, in
    whatever state, a call either changes no payment and reaches neither the
    coordinator nor the accounting service (and then answers an error or replays a
    stored answer), or the bytes are the canonical encoding of a callback of a
    registered active provider, signed by it, unexpired, in its asset, for a
    payment held for that provider, rail, asset and units, whose status it repeats
    or moves in order, reversals only where the provider supports them. One record
    with the digests of its bytes and signature is appended for every delivery,
    however it is answered, except in two cases: a delivery without a time of
    receipt, and one that arrives while the consumptions the coordinator reports
    cannot be applied, which is looked at first. These two are answered with an
    error and leave no record. *)
Theorem callback_authenticated (now : Time.t) (pid eid raw sig : string) (at_ : Time.t)
    (o : Orchestrator) (k : K) (a : A) (o' : Orchestrator) (k' : K) (a' : A) (out : outcome) :
  IngestCallback now pid eid raw sig at_ o k a = (o', k', a', out) →
  (refused o k a o' k' a' out ∨ ∃ pr cb cur, authentic o pid eid raw sig at_ pr cb cur) ∧
  if unrecorded at_ k o then rawCallbacks o' = rawCallbacks o ∧ out.2 ≠ None
  else ∃ rc, rawCallbacks o' = rawCallbacks o ++ [rc] ∧ rc_RawHash rc = hashBytes raw ∧
     rc_SignatureHash rc = hashBytes sig ∧ rc_ProviderID rc = pid ∧ rc_ProviderEventID rc = eid.
Proof.
  intros Hi. unfold IngestCallback in Hi. unfold unrecorded.
  destruct (Time.IsZero at_); [simplify_eq; split; [refuse|done]|].
  destruct (refreshCanonicalConsumptionsLocked k o) as [o1 r] eqn:Hrf.
  pose proof (refresh_core _ _ _ _ Hrf) as [Hp Hpr Hraw _].
  destruct r as [[]|e]; [|simplify_eq; split; [refuse|by split]]. cbn [orb negb is_ok snd].
  cbv zeta in Hi. set (rc := mkRawCallback _ _ _ _ _ _ _) in Hi.
  assert (rawCallbacks o' = rawCallbacks (add_raw rc o1) →
    ∃ rc, rawCallbacks o' = rawCallbacks o ++ [rc] ∧ rc_RawHash rc = hashBytes raw ∧
     rc_SignatureHash rc = hashBytes sig ∧ rc_ProviderID rc = pid ∧ rc_ProviderEventID rc = eid) as Hret.
  { intros Hx. exists rc. rewrite Hx. simpl. by rewrite Hraw. }
  assert (∀ out', refused (add_raw rc o1) k a o' k' a' out' → refused o k a o' k' a' out') as Href.
  { intros out' [F1 F2 F3 F4]. split; try done. rewrite F1. simpl. done. }
  destruct (_ || _); [simplify_eq; split; [refuse|by apply Hret]|].
  destruct (providers _ !! pid) as [pr|] eqn:Epr; [|simplify_eq; split; [refuse|by apply Hret]].
  destruct (_ || _) eqn:Hsig; [simplify_eq; split; [refuse|by apply Hret]|].
  destruct (decodeCallback raw) as [cb|] eqn:Hdec; [|simplify_eq; split; [refuse|by apply Hret]].
  destruct (_ || _) eqn:Hbind in Hi; [simplify_eq; split; [refuse|by apply Hret]|].
  split.
  - destruct (ingest_bound_authentic _ _ _ _ _ _ _ _ _ _ _ _ _ _ Hi) as [Hr|(cur & B1 & B2 & B3 & B4)];
      [left; by apply Href|right]. bool_facts. apply decodeCallback_Ok in Hdec.
    apply payment_bound_true in B2. simpl in Epr, B1. rewrite Hpr in Epr. rewrite Hp in B1.
    exists pr, cb, cur. subst pid eid. by split.
  - apply Hret. by eapply ingest_bound_raw.
Qed.

End Authentic.

(** * A concrete orchestrator *)

Module Sample.
#[local] Instance toy_sha : Sha256 := λ s, s.
#[local] Instance toy_json : Json := λ _, "{}"%string.

Definition t (n : Z) : Time.t := Time.mk n "".
Definition callback (event status : string) : Callback :=
  mkCallback "bank" event "p1" "ref" status "USD" "100" (t 5) (t 100) "ev".
Definition known : list Callback :=
  [callback "e1" StatusProcessing; callback "e2" StatusProvisional].
Definition bytes (cb : Callback) : string := cb_ProviderEventID cb +:+ cb_Status cb.
(** Signatures are the word [signed]; only the two known callbacks decode. *)
#[local] Instance toy_codec : CallbackCodec :=
  {| ed25519_Verify _ _ signature := signature =s "signed";
     marshal_callback cb := Some (bytes cb);
     unmarshal_callback raw := List.find (λ cb, bytes cb =s raw) known |}.
Definition counting : PaymentAccounting Z () := λ _ _ a, (a + 1, Ok ["j"%string]).
#[local] Existing Instance counting.

Definition bank : Provider := mkProvider "bank" RailBank (be_bytes 32 7) true "USD" true 1.
Definition modes : AllocationMode.Registry AllocationMode.MemoryStore :=
  AllocationMode.mkRegistry ∅ ∅ ∅ AllocationMode.NewMemoryStore.
Definition intent : Intent :=
  mkIntent "p1" "entity" "key" "corr" "payer" "loan" "bank" "" RailBank "REPAYMENT" "USD" "100"
    (t 50) 1 "" 0 Time.zero Time.zero Time.zero Time.zero Time.zero.

Abbreviation sys := (@system (AllocationMode.Registry AllocationMode.MemoryStore) Z).
Definition o0 : Orchestrator := mkOrchestrator {["bank" := bank]} ∅ ∅ ∅ ∅ [] [] [] ∅ ∅ ∅.
Definition s0 : sys := (o0, modes, 0, []).
Definition s1 : sys := ((CreateIntent intent (t 3) o0).1, modes, 0, []).
Definition deliver (s : sys) (cb : Callback) : sys :=
  let '(o, k, a, log) := s in
  let '(o', k', (a', ts), out) :=
    @IngestCallback _ _ _ _ _ _ (logged counting) (t 9) "bank" (cb_ProviderEventID cb) (bytes cb)
      "signed" (t 6) o k (a, []) in
  (o', k', a', log ++ (pair (answered out) <$> ts)).
Definition s2 : sys := deliver s1 (callback "e1" StatusProcessing).
Definition s3 : sys := deliver s2 (callback "e2" StatusProvisional).

Lemma bank_new : New [bank] modes = Ok o0.
Proof. vm_compute. reflexivity. Qed.
Lemma s1_step : sys_step counting s0 s1.
Proof. exact (call_create counting intent (t 3) o0 modes 0 []). Qed.
Lemma deliver_step s cb : sys_step counting s (deliver s cb).
Proof.
  destruct s as [[[o k] a] log]. unfold deliver.
  destruct (IngestCallback _ _ _ _ _ _ _ _ _) as [[[o' k'] [a' ts]] out] eqn:Hi.
  exact (call_ingest counting _ _ _ _ _ _ _ _ _ _ _ _ _ _ _ Hi).
Qed.
Lemma s1_reachable : sys_reachable counting s1.
Proof. exists [bank], o0, modes, 0. split; [exact bank_new|]. apply rtc_once, s1_step. Qed.
Lemma s3_steps : rtc (sys_step counting) s1 s3.
Proof. eapply rtc_l; [apply deliver_step|]. apply rtc_once, deliver_step. Qed.
Lemma s3_reachable : sys_reachable counting s3.
Proof.
  exists [bank], o0, modes, 0. split; [exact bank_new|].
  eapply rtc_l; [apply s1_step|apply s3_steps].
Qed.
Lemma s1_payment : sys_payments s1 !! "p1"%string = Some (created_intent (t 3) intent).
Proof. vm_compute. reflexivity. Qed.
Lemma s3_booked : t_To <$> booked "p1" (sys_kept s3) = [StatusProvisional].
Proof. vm_compute. reflexivity. Qed.

Lemma payment_lifecycle_witness :
  ∃ p' n, sys_payments s3 !! "p1"%string = Some p' ∧
    progressed n (created_intent (t 3) intent) p'.
Proof.
  destruct (payment_lifecycle counting s1 s3 "p1" (created_intent (t 3) intent) s1_reachable s3_steps
    s1_payment) as (p' & n & Hp & Hn & _).
  exact (ex_intro _ p' (ex_intro _ n (conj Hp Hn))).
Defined.

(** An unsigned delivery. *)
Definition forged := IngestCallback (t 9) "bank" "e1" (bytes (callback "e1" StatusProcessing))
  "forged" (t 6) o0 modes 0.
Lemma callback_authenticated_witness :
  forged.1.2 = 0 ∧
  (refused o0 modes 0 forged.1.1.1 forged.1.1.2 forged.1.2 forged.2 ∨
   ∃ pr cb cur, authentic o0 "bank" "e1" (bytes (callback "e1" StatusProcessing)) "forged" (t 6) pr cb cur).
Proof.
  split; [vm_compute; reflexivity|].
  refine (proj1 (callback_authenticated (t 9) "bank" "e1" (bytes (callback "e1" StatusProcessing))
    "forged" (t 6) o0 modes 0 forged.1.1.1 forged.1.1.2 forged.1.2 forged.2 _)).
  fold forged. by destruct forged as [[[? ?] ?] ?].
Defined.

(** ** Restarting

    A coordinator that survived a restart with one pending reversal, recorded
    under the second quarantine id of the process before. *)
Definition survivor : CanonicalReversalRecord :=
  mkReversalRecord "quarantine-000002" "" 2 "p1" "a1" "d1" "bank" "e9" "bank:e9" "ref" "USD" "100"
    "rh" "sh" "ev" (t 100) zeroFailure "" "" (t 5) (t 6).
#[local] Instance restarted : Coordinator (list CanonicalReversalRecord) := {
  HandleProviderReversal W r f k w := (k, w, Err (AllocationMode.ErrExternal "unavailable"));
  ResolveProviderReversal W r f k w := (k, w, Err (AllocationMode.ErrExternal "unavailable"));
  ResolvedProviderReversal _ _ := Ok None;
  PendingProviderReversals k := k;
  ConsumedProviderReversals _ := [] }.

(** After the restart the next rejected delivery is filed under the id of the
    pending reversal: quarantine ids are numbered by the length of the restored
    list, which holds only the pending ones, so two quarantines share an id and
    the new one cannot be resolved. *)
Lemma restart_reuses_quarantine_id :
  ∃ o o' k' a' out,
    New [bank] [survivor] = Ok o ∧
    IngestCallback (t 9) "bank" "e1" (bytes (callback "e1" StatusProcessing)) "forged" (t 6) o
      [survivor] 0 = (o', k', a', out) ∧
    qu_QuarantineID <$> quarantines o' = ["quarantine-000002"; "quarantine-000002"]%string ∧
    (ResolveQuarantine "quarantine-000002" "r" "ev" "ops" (t 8) o').2 = Err ErrInvalidResolution.
Proof.
  do 5 eexists. split; [vm_compute; reflexivity|]. split; [vm_compute; reflexivity|].
  split; vm_compute; reflexivity.
Qed.
End Sample.
