(* ===== verification/Rlp.v ===== *)
(** The RLP codec of the chain indexer ([chain-indexer/projection/evmproof.go]):
    the strict decoder, the integer codec, and a reference encoder against which
    the decoder is proved exact. *)
From S2P Require Import Prelude GoStd ChainTypes.
#[local] Set Warnings "-register-all".

Definition maxRLPDepth : Z := 64.
Definition maxRLPListItems : Z := 2 ^ 16.
Definition MaxInt : Z := 2 ^ 63 - 1.

(** * Byte strings *)

Definition byte_value (c : Ascii.ascii) : Z := Z.of_N (Ascii.N_of_ascii c).
(** [s[i]], within the bounds its callers check. *)
Definition byte_at (s : string) (i : nat) : Z :=
  match String.get i s with Some c => byte_value c | None => 0 end.
Definition blen (s : string) : Z := Z.of_nat (String.length s).
(** [s[:n]] and [s[n:]]. *)
Fixpoint s_take (n : nat) (s : string) : string :=
  match n, s with
  | S n, String c r => String c (s_take n r)
  | _, _ => ""%string
  end.
Fixpoint s_drop (n : nat) (s : string) : string :=
  match n, s with
  | O, _ => s
  | S n, EmptyString => ""%string
  | S n, String _ r => s_drop n r
  end.
(** [s[i:i+n]]. *)
Definition sub (s : string) (i n : Z) : string := s_take (Z.to_nat n) (s_drop (Z.to_nat i) s).

(** * The decoder *)

Inductive rlpValue :=
  RlpValue (raw payload : string) (list : list rlpValue) (isList : bool).
Definition raw (v : rlpValue) : string := let 'RlpValue r _ _ _ := v in r.
Definition payload (v : rlpValue) : string := let 'RlpValue _ p _ _ := v in p.
Definition items (v : rlpValue) : list rlpValue := let 'RlpValue _ _ l _ := v in l.
Definition isList (v : rlpValue) : bool := let 'RlpValue _ _ _ b := v in b.

Definition decodeRLPLength (input : string) (lengthOfLength : Z) : option Z :=
  if (lengthOfLength =? 0) || (8 <? lengthOfLength) || (blen input <? 1 + lengthOfLength) ||
     (byte_at input 1 =? 0)
  then None
  else
    let length := be_value (sub input 1 lengthOfLength) in
    if MaxInt <? length then None else Some length.

(** The loop of [decodeRLPList] over [input[position:end]]; every item consumes at
    least a byte, so the number of bytes left bounds the iterations. *)
Fixpoint items_loop (decode : string → result error (rlpValue * Z)) (fuel : nat) (count : Z)
    (rest : string) : result error (list rlpValue) :=
  match rest, fuel with
  | EmptyString, _ => Ok []
  | _, O => Err ErrInvalidInclusionProof
  | _, S fuel =>
      if maxRLPListItems <=? count then Err ErrInvalidInclusionProof
      else
        let? (item, consumed) := decode rest in
        if (consumed =? 0) || (blen rest <? consumed) then Err ErrInvalidInclusionProof
        else
          let? more := items_loop decode fuel (count + 1) (s_drop (Z.to_nat consumed) rest) in
          Ok (item :: more)
  end.

Definition decodeRLPList (decode : string → result error (rlpValue * Z)) (input : string)
    (offset length : Z) : result error (rlpValue * Z) :=
  if (offset <? 0) || (length <? 0) || (blen input <? offset) || (blen input - offset <? length)
  then Err ErrInvalidInclusionProof
  else
    let body := sub input offset length in
    let? items := items_loop decode (String.length body) 0 body in
    Ok (RlpValue (s_take (Z.to_nat (offset + length)) input) "" items true, offset + length).

(** [decodeRLPDepth(input, depth)], where [budget] is the number of levels left,
    [maxRLPDepth + 1 - depth]. *)
Fixpoint decodeRLPDepth (budget : nat) (input : string) : result error (rlpValue * Z) :=
  match budget with
  | O => Err ErrInvalidInclusionProof
  | S budget =>
      if empty_s input then Err ErrInvalidInclusionProof
      else
        let prefix := byte_at input 0 in
        if prefix <=? 0x7f then
          Ok (RlpValue (s_take 1 input) (s_take 1 input) [] false, 1)
        else if prefix <=? 0xb7 then
          let length := prefix - 0x80 in
          if (blen input <? 1 + length) || ((length =? 1) && (byte_at input 1 <? 0x80))
          then Err ErrInvalidInclusionProof
          else Ok (RlpValue (s_take (Z.to_nat (1 + length)) input) (sub input 1 length) [] false,
                   1 + length)
        else if prefix <=? 0xbf then
          let lengthOfLength := prefix - 0xb7 in
          let offset := 1 + lengthOfLength in
          match decodeRLPLength input lengthOfLength with
          | None => Err ErrInvalidInclusionProof
          | Some length =>
              if (length <? 56) || (blen input <? offset) || (blen input - offset <? length)
              then Err ErrInvalidInclusionProof
              else Ok (RlpValue (s_take (Z.to_nat (offset + length)) input) (sub input offset length)
                         [] false, offset + length)
          end
        else if prefix <=? 0xf7 then
          decodeRLPList (decodeRLPDepth budget) input 1 (prefix - 0xc0)
        else
          let lengthOfLength := prefix - 0xf7 in
          let offset := 1 + lengthOfLength in
          match decodeRLPLength input lengthOfLength with
          | None => Err ErrInvalidInclusionProof
          | Some length =>
              if (length <? 56) || (blen input <? offset) || (blen input - offset <? length)
              then Err ErrInvalidInclusionProof
              else decodeRLPList (decodeRLPDepth budget) input offset length
          end
  end.

Definition decodeRLP (input : string) : result error (rlpValue * Z) :=
  decodeRLPDepth (Z.to_nat (maxRLPDepth + 1)) input.

(** * Integers *)

(** The big-endian bytes of a positive number without leading zeroes. *)
Definition min_bytes (n : Z) : string := be_bytes (Z.to_nat (Z.log2 n / 8 + 1)) n.

(** The loop that skips the leading zero bytes of [encoded]. *)
Fixpoint skip_zeros (s : string) : string :=
  match s with
  | String c r => if byte_value c =? 0 then skip_zeros r else s
  | EmptyString => ""%string
  end.

Definition rlpEncodeUint (value : Z) : string :=
  if value =? 0 then be_bytes 1 0x80
  else
    let payload := skip_zeros (be_bytes 8 value) in
    if (blen payload =? 1) && (byte_at payload 0 <? 0x80) then payload
    else be_bytes 1 (0x80 + blen payload) +:+ payload.

Definition rlpUint64 (payload : string) : option Z :=
  if (8 <? blen payload) || ((0 <? blen payload) && (byte_at payload 0 =? 0)) then None
  else Some (be_value payload).

(** * The reference encoding

    The RLP of the Ethereum specification: byte strings and lists of them. *)
Inductive item := Str (s : string) | Lst (l : list item).

Definition header (base n : Z) : string :=
  if n <? 56 then be_bytes 1 (base + n)
  else be_bytes 1 (base + 55 + blen (min_bytes n)) +:+ min_bytes n.

Definition concat_all (l : list string) : string := foldr String.append ""%string l.

Fixpoint rlp_encode (x : item) : string :=
  match x with
  | Str s =>
      if (blen s =? 1) && (byte_at s 0 <? 0x80) then s else header 0x80 (blen s) +:+ s
  | Lst l => let body := concat_all (map rlp_encode l) in header 0xc0 (blen body) +:+ body
  end.

(** The item a decoded value denotes. *)
Fixpoint item_of (v : rlpValue) : item :=
  match v with
  | RlpValue _ p l b => if b then Lst (map item_of l) else Str p
  end.

(** * Slices *)

Lemma s_take_drop n s : s_take n s +:+ s_drop n s = s.
Proof. revert s. induction n as [|n IH]; intros [|c s]; [reflexivity..|]. exact (f_equal (String c) (IH s)). Qed.

Lemma s_take_length n s : (n <= String.length s)%nat → String.length (s_take n s) = n.
Proof.
  revert s. induction n as [|n IH]; intros [|c s] Hn; simpl in *; try lia. rewrite IH; lia.
Qed.

Lemma s_drop_length n s : String.length (s_drop n s) = (String.length s - n)%nat.
Proof. revert s. induction n as [|n IH]; intros [|c s]; simpl; auto. Qed.

Lemma s_take_add i n s : s_take (i + n) s = s_take i s +:+ s_take n (s_drop i s).
Proof.
  revert s. induction i as [|i IH]; intros [|c s]; [done..|by destruct n|].
  exact (f_equal (String c) (IH s)).
Qed.

Lemma s_take_app n a b : String.length a = n → s_take n (a +:+ b) = a.
Proof. intros <-. induction a as [|c a IH]; [done|]. exact (f_equal (String c) IH). Qed.

Lemma s_drop_app n a b : String.length a = n → s_drop n (a +:+ b) = b.
Proof. intros <-. induction a as [|c a IH]; [done|]. exact IH. Qed.

Lemma s_drop_app_add n m a b : String.length a = n → s_drop (n + m) (a +:+ b) = s_drop m b.
Proof. intros <-. induction a as [|c a IH]; [done|]. exact IH. Qed.

Lemma blen_nat z n : blen z = n → String.length z = Z.to_nat n.
Proof. unfold blen. lia. Qed.

Lemma byte_value_range c : 0 <= byte_value c < 256.
Proof. unfold byte_value. pose proof (Ascii.N_ascii_bounded c). lia. Qed.

Lemma byte_of_byte_value c : byte_of (byte_value c) = c.
Proof.
  unfold byte_of, byte_value. pose proof (Ascii.N_ascii_bounded c).
  rewrite Z.mod_small by lia. by rewrite N2Z.id, Ascii.ascii_N_embedding.
Qed.

Lemma byte_value_of z : byte_value (byte_of z) = z mod 256.
Proof. apply byte_of_value. Qed.

Lemma be_bytes_ext n a b :
  a mod 256 ^ Z.of_nat n = b mod 256 ^ Z.of_nat n → be_bytes n a = be_bytes n b.
Proof.
  induction n as [|n IH]; [done|]. intros E. rewrite Nat2Z.inj_succ, Z.pow_succ_r, Z.mul_comm in E by lia.
  assert (0 < 256 ^ Z.of_nat n) as Hp by lia.
  rewrite !Z.rem_mul_r in E by lia. cbn [be_bytes].
  pose proof (Z.mod_pos_bound a _ Hp). pose proof (Z.mod_pos_bound b _ Hp).
  destruct (Z.div_mod_unique (256 ^ Z.of_nat n) ((a / 256 ^ Z.of_nat n) mod 256)
    ((b / 256 ^ Z.of_nat n) mod 256) (a mod 256 ^ Z.of_nat n) (b mod 256 ^ Z.of_nat n)) as [Eq Er];
    [lia..|]. f_equal; [|by apply IH]. unfold byte_of. by rewrite Eq.
Qed.

(** [be_bytes] is the inverse of [be_value] on strings of its length. *)
Lemma be_bytes_value s : be_bytes (String.length s) (be_value s) = s.
Proof.
  induction s as [|c s IH]; [done|].
  cbn [String.length be_bytes]. rewrite be_value_cons. pose proof (be_value_range s) as Hr. f_equal.
  - rewrite Z.add_comm, Z.div_add, Z.div_small by lia. apply byte_of_byte_value.
  - transitivity (be_bytes (String.length s) (be_value s)); [|exact IH]. apply be_bytes_ext. by rewrite Z.add_comm, Z.mod_add by lia.
Qed.

Lemma min_bytes_value s :
  s ≠ ""%string → byte_at s 0 ≠ 0 → min_bytes (be_value s) = s.
Proof.
  destruct s as [|c s]; [done|]. intros _ Hc. change (byte_value c ≠ 0) in Hc.
  unfold min_bytes. 
  transitivity (be_bytes (String.length (String c s)) (be_value (String c s))); [|apply be_bytes_value].
  f_equal.
  pose proof (be_value_range (String c s)) as Hr. rewrite be_value_cons in *.
  pose proof (be_value_range s) as Hs. pose proof (byte_value_range c) as Hb. unfold byte_value in *.
  cbn [String.length] in *. set (n := String.length s) in *. set (v := _ + _) in *.
  assert (2 ^ (8 * Z.of_nat n) <= v < 2 ^ (8 * (Z.of_nat n + 1))) as Hv.
  { rewrite !Z.pow_mul_r by lia. change (2 ^ 8) with 256. rewrite Z.pow_add_r by lia.
    rewrite Nat2Z.inj_succ, Z.pow_succ_r in Hr by lia. split; [|lia].
    unfold v. assert (1 * 256 ^ Z.of_nat n <= Z.of_N (Ascii.N_of_ascii c) * 256 ^ Z.of_nat n)
      by (apply Z.mul_le_mono_nonneg_r; lia). lia. }
  assert (8 * Z.of_nat n <= Z.log2 v < 8 * (Z.of_nat n + 1)) as Hl.
  { assert (0 < 2 ^ (8 * Z.of_nat n)) as Hp by (apply Z.pow_pos_nonneg; lia).
    assert (0 < v) as Hv0 by (eapply Z.lt_le_trans; [exact Hp|apply Hv]).
    split; [apply Z.log2_le_pow2; [exact Hv0|apply Hv]|apply Z.log2_lt_pow2; [exact Hv0|apply Hv]]. }
  assert (Z.log2 v / 8 = Z.of_nat n) as ->; [|by rewrite Z.add_1_r, <- Nat2Z.inj_succ, Nat2Z.id].
  symmetry. apply (Z.div_unique _ _ _ (Z.log2 v - 8 * Z.of_nat n)); clear -Hl; lia.
Qed.

Lemma first_byte input :
  input ≠ ""%string → s_take 1 input = be_bytes 1 (byte_at input 0) ∧ 0 <= byte_at input 0 < 256.
Proof.
  destruct input as [|c r]; [done|]. intros _. change (byte_at (String c r) 0) with (byte_value c).
  split; [|apply byte_value_range]. change (s_take 1 (String c r)) with (String c ""%string).
  change (be_bytes 1 (byte_value c)) with (String (byte_of (byte_value c / 1)) "").
  by rewrite Z.div_1_r, byte_of_byte_value.
Qed.

Lemma byte_at_drop s i : byte_at (s_drop i s) 0 = byte_at s i.
Proof. revert s. induction i as [|i IH]; intros [|c s]; try done. exact (IH s). Qed.

Lemma byte_at_take n s i : (i < n)%nat → byte_at (s_take n s) i = byte_at s i.
Proof.
  revert n s. induction i as [|i IH]; intros [|n] [|c s] Hi; try lia; try done.
  apply (IH n s). lia.
Qed.

(** * The decoder accepts canonical encodings only *)

Definition decoded (input : string) (v : rlpValue) (n : Z) : Prop :=
  0 < n <= blen input ∧ raw v = s_take (Z.to_nat n) input ∧
  rlp_encode (item_of v) = s_take (Z.to_nat n) input.

Lemma sub_length input i n :
  0 <= i → 0 <= n → i + n <= blen input → blen (sub input i n) = n.
Proof.
  unfold sub, blen. intros Hi Hn Hb. rewrite s_take_length; [lia|]. rewrite s_drop_length. lia.
Qed.

Lemma take_split input i n :
  0 <= i → 0 <= n → s_take (Z.to_nat (i + n)) input = s_take (Z.to_nat i) input +:+ sub input i n.
Proof. intros Hi Hn. rewrite Z2Nat.inj_add by lia. apply s_take_add. Qed.

Lemma header_short base n input :
  0 <= n < 56 → input ≠ ""%string → byte_at input 0 = base + n →
  header base n = s_take (Z.to_nat 1) input.
Proof.
  intros Hn Hne Hb. unfold header. rewrite (proj2 (Z.ltb_lt n 56)) by lia.
  destruct (first_byte input Hne) as [Hf _]. change (Z.to_nat 1) with 1%nat. by rewrite Hf, Hb.
Qed.

Lemma decodeRLPLength_Some input k n :
  decodeRLPLength input k = Some n →
  0 < k <= 8 ∧ 1 + k <= blen input ∨ k < 0.
Proof.
  unfold decodeRLPLength. destruct (_ || _) eqn:Hg; [done|]. intros _. bool_facts. lia.
Qed.

Lemma header_long base n k input :
  0 < k → decodeRLPLength input k = Some n → 56 <= n → byte_at input 0 = base + 55 + k →
  header base n = s_take (Z.to_nat (1 + k)) input ∧ 1 + k <= blen input.
Proof.
  unfold decodeRLPLength. intros Hk Hd Hn Hb. destruct (_ || _) eqn:Hg; [done|].
  apply orb_false_iff in Hg as [Hg Hz]. apply orb_false_iff in Hg as [_ Hl].
  apply Z.eqb_neq in Hz. apply Z.ltb_ge in Hl.
  destruct (MaxInt <? _); [done|]. injection Hd as Hd.
  assert (blen (sub input 1 k) = k) as Hlen by (apply sub_length; lia).
  assert (min_bytes n = sub input 1 k) as Hm.
  { rewrite <- Hd. apply min_bytes_value.
    - intros E. rewrite E in Hlen. unfold blen in Hlen. simpl in Hlen. lia.
    - unfold sub. rewrite byte_at_take by lia. by rewrite byte_at_drop. }
  split; [|done]. unfold header. rewrite (proj2 (Z.ltb_ge n 56)) by lia.
  rewrite Hm, Hlen, take_split by lia. f_equal.
  destruct (first_byte input) as [Hf _]; [intros ->; unfold blen in Hl; simpl in Hl; lia|].
  change (Z.to_nat 1) with 1%nat. by rewrite Hf, Hb.
Qed.

Lemma decoded_string input offset n :
  0 < offset → 0 <= n → offset + n <= blen input →
  header 0x80 n = s_take (Z.to_nat offset) input →
  (n = 1 → 0x80 <= byte_at input (Z.to_nat offset)) →
  decoded input (RlpValue (s_take (Z.to_nat (offset + n)) input) (sub input offset n) [] false)
    (offset + n).
Proof.
  intros Ho Hn Hb Hh H1. split_and!; [lia..|done|]. cbn [item_of rlp_encode].
  assert (blen (sub input offset n) = n) as Hlen by (apply sub_length; lia). rewrite Hlen.
  rewrite take_split, <- Hh by lia.
  destruct (Z.eqb_spec n 1) as [->|]; [|done]. rewrite (proj2 (Z.ltb_ge _ _)); [done|].
  unfold sub. rewrite byte_at_take by lia. rewrite byte_at_drop. auto.
Qed.

Lemma items_loop_sound decode fuel count rest its :
  (∀ input v n, decode input = Ok (v, n) → decoded input v n) →
  items_loop decode fuel count rest = Ok its →
  concat_all (map rlp_encode (map item_of its)) = rest.
Proof.
  intros Hd. revert count rest its. induction fuel as [|fuel IH]; intros count rest its.
  - destruct rest; simpl; [|done]. by intros <-%Ok_inj.
  - destruct rest as [|c r]; [simpl; by intros <-%Ok_inj|].
    cbn [items_loop]. destruct (_ <=? count); [done|].
    destruct (decode (String c r)) as [[v n]|] eqn:Ev; [|done].
    destruct (_ || _); [done|].
    destruct (items_loop decode fuel _ _) as [more|] eqn:Em; [|done].
    intros <-%Ok_inj. apply IH in Em. apply Hd in Ev as (_ & _ & Ee).
    cbn [map]. change (concat_all (?x :: ?l)) with (x +:+ concat_all l).
    rewrite Ee, Em. apply s_take_drop.
Qed.

Lemma decodeRLPList_sound decode input offset length v n :
  (∀ input v n, decode input = Ok (v, n) → decoded input v n) →
  0 < offset → header 0xc0 length = s_take (Z.to_nat offset) input →
  decodeRLPList decode input offset length = Ok (v, n) → decoded input v n.
Proof.
  intros Hd Ho Hh. unfold decodeRLPList. destruct (_ || _) eqn:Hg; [done|]. bool_facts.
  destruct (items_loop _ _ _ _) as [its|] eqn:Ei; [|done]. intros E%Ok_inj. injection E as <- <-.
  apply items_loop_sound in Ei; [|done].
  split_and!; [lia..|done|]. cbn [item_of rlp_encode]. rewrite Ei.
  rewrite sub_length by lia. by rewrite take_split, Hh by lia.
Qed.

Lemma decodeRLPDepth_sound budget input v n :
  decodeRLPDepth budget input = Ok (v, n) → decoded input v n.
Proof.
  revert input v n. induction budget as [|budget IH]; intros input v n; [done|].
  cbn [decodeRLPDepth]. destruct (String.eqb_spec input "") as [|Hne]; [done|].
  destruct (first_byte input Hne) as [Hf Hrange].
  assert (1 <= blen input) as Hl by (unfold blen; destruct input; [done|simpl; lia]).
  destruct (Z.leb_spec (byte_at input 0) 0x7f) as [H7|H7].
  { intros E%Ok_inj. apply pair_eq in E as [<- <-]. change (Z.to_nat 1) with 1%nat in *.
    rewrite Hf. split_and!; [lia..|by rewrite <- Hf|].
    change (Z.to_nat 1) with 1%nat. rewrite Hf. cbn [item_of rlp_encode]. change (blen (be_bytes 1 _)) with 1. simpl (1 =? 1).
    assert ((byte_at (be_bytes 1 (byte_at input 0)) 0 <? 0x80) = true) as ->; [|done].
    apply Z.ltb_lt. change (byte_value (byte_of (byte_at input 0 / 1)) < 128).
    rewrite Z.div_1_r, byte_value_of, Z.mod_small; lia. }
  destruct (Z.leb_spec (byte_at input 0) 0xb7) as [Hb7|Hb7].
  { destruct (_ || _) eqn:Hg; [done|]. apply orb_false_iff in Hg as [Hg1 Hg2].
    apply Z.ltb_ge in Hg1. intros E%Ok_inj. injection E as <- <-.
    apply decoded_string; [lia..| |].
    - apply header_short; [lia|done|lia].
    - intros E1. apply andb_false_iff in Hg2 as [E2|E2]; [apply Z.eqb_neq in E2; lia|].
      apply Z.ltb_ge in E2. exact E2. }
  destruct (Z.leb_spec (byte_at input 0) 0xbf) as [Hbf|Hbf].
  { destruct (decodeRLPLength _ _) as [len|] eqn:Ed; [|done].
    destruct (_ || _) eqn:Hg; [done|]. bool_facts. intros E%Ok_inj. injection E as <- <-.
    destruct (header_long 0x80 len (byte_at input 0 - 0xb7) input) as [Hh _]; [lia|done|lia|lia|].
    apply decoded_string; [lia..|done|lia]. }
  destruct (Z.leb_spec (byte_at input 0) 0xf7) as [Hf7|Hf7].
  { apply decodeRLPList_sound; [done|lia|]. apply header_short; [lia|done|lia]. }
  destruct (decodeRLPLength _ _) as [len|] eqn:Ed; [|done].
  destruct (_ || _) eqn:Hg; [done|]. bool_facts.
  apply decodeRLPList_sound; [done|lia|].
  destruct (header_long 0xc0 len (byte_at input 0 - 0xf7) input) as [Hh _]; [lia|done|lia|lia|done].
Qed.

(** The items of a decoded list carry their own encodings. *)
Definition exact (w : rlpValue) : Prop := raw w = rlp_encode (item_of w).

Lemma items_loop_exact decode fuel count rest its :
  (∀ input v n, decode input = Ok (v, n) → decoded input v n) →
  items_loop decode fuel count rest = Ok its → Forall exact its.
Proof.
  intros Hd. revert count rest its. induction fuel as [|fuel IH]; intros count rest its.
  - destruct rest; simpl; [|done]. intros <-%Ok_inj. constructor.
  - destruct rest as [|c r]; [simpl; intros <-%Ok_inj; constructor|].
    cbn [items_loop]. destruct (_ <=? count); [done|].
    destruct (decode (String c r)) as [[v n]|] eqn:Ev; [|done].
    destruct (_ || _); [done|].
    destruct (items_loop decode fuel _ _) as [more|] eqn:Em; [|done].
    intros <-%Ok_inj. apply Hd in Ev as (_ & Er & Ee). constructor; [|by eapply IH].
    unfold exact. congruence.
Qed.

Lemma decodeRLP_exact input v n : decodeRLP input = Ok (v, n) → exact v ∧ Forall exact (items v).
Proof.
  intros Hd. split; [apply decodeRLPDepth_sound in Hd as (_ & ? & ?); unfold exact; congruence|].
  revert Hd. unfold decodeRLP. destruct (Z.to_nat (maxRLPDepth + 1)) as [|b]; [done|].
  assert (∀ off len, decodeRLPList (decodeRLPDepth b) input off len = Ok (v, n) →
    Forall exact (items v)) as Hl.
  { intros off len. unfold decodeRLPList. destruct (_ || _); [done|].
    destruct (items_loop _ _ _ _) as [its|] eqn:Ei; [|done]. intros E%Ok_inj. injection E as <- <-.
    eapply items_loop_exact; [apply decodeRLPDepth_sound|exact Ei]. }
  cbn [decodeRLPDepth]. repeat (case_match; try done); try (intros E%Ok_inj; injection E as <- <-; constructor);
    apply Hl.
Qed.

(** * The decoder accepts every canonical encoding within its limits *)

(** At most [budget] levels, at most [maxRLPListItems] items in a list, and
    lengths that are machine integers. *)
Fixpoint within (budget : nat) (x : item) : Prop :=
  match budget with
  | O => False
  | S budget =>
      match x with
      | Str s => blen s <= MaxInt
      | Lst l => (∀ y, y ∈ l → within budget y) ∧ Z.of_nat (length l) <= maxRLPListItems ∧
                 blen (concat_all (map rlp_encode l)) <= MaxInt
      end
  end.

Lemma blen_app a b : blen (a +:+ b) = blen a + blen b.
Proof. unfold blen. rewrite string_app_length. lia. Qed.

Lemma min_bytes_ok n :
  0 < n <= MaxInt →
  1 <= blen (min_bytes n) <= 8 ∧ be_value (min_bytes n) = n ∧ byte_at (min_bytes n) 0 ≠ 0.
Proof.
  unfold MaxInt. intros Hn. unfold min_bytes, blen. rewrite be_bytes_length.
  pose proof (Z.log2_nonneg n) as Hl0.
  assert (Z.log2 n < 63) as Hl by (apply Z.log2_lt_pow2; lia).
  assert (0 <= Z.log2 n / 8 <= 7) as Hq.
  { split; [apply Z.div_pos; lia|]. apply Z.lt_succ_r. apply Z.div_lt_upper_bound; lia. }
  set (q := Z.log2 n / 8) in *.
  assert (256 ^ q <= n < 256 ^ (q + 1)) as Hp.
  { change 256 with (2 ^ 8). rewrite <- !Z.pow_mul_r by lia.
    pose proof (Z.div_mod (Z.log2 n) 8 ltac:(lia)) as Hdm. fold q in Hdm.
    pose proof (Z.mod_pos_bound (Z.log2 n) 8 ltac:(lia)). split.
    - apply Z.log2_le_pow2; [lia|]. lia.
    - apply Z.log2_lt_pow2; [lia|]. lia. }
  split_and!; [lia..| |].
  - apply be_value_bytes. rewrite Z2Nat.id by lia. lia.
  - replace (Z.to_nat (q + 1)) with (S (Z.to_nat q)) by lia.
    change (byte_value (byte_of (n / 256 ^ Z.of_nat (Z.to_nat q))) ≠ 0).
    rewrite byte_value_of, Z2Nat.id by lia.
    assert (1 <= n / 256 ^ q < 256) as Hd; [|rewrite Z.mod_small; lia].
    assert (0 < 256 ^ q) by lia. rewrite Z.pow_add_r in Hp by lia.
    split; [apply Z.div_le_lower_bound; lia|apply Z.div_lt_upper_bound; lia].
Qed.

Lemma header_length base n :
  0 <= n <= MaxInt → blen (header base n) = if n <? 56 then 1 else 1 + blen (min_bytes n).
Proof.
  intros Hn. unfold header. destruct (n <? 56); [done|]. by rewrite blen_app.
Qed.

Lemma header_first base n rest :
  0 <= n <= MaxInt → 0 <= base <= 192 →
  byte_at (header base n +:+ rest) 0 = base + (if n <? 56 then n else 55 + blen (min_bytes n)) ∧
  header base n +:+ rest ≠ ""%string.
Proof.
  intros Hn Hb. unfold header. destruct (Z.ltb_spec n 56) as [H5|H5].
  - split; [|done]. change (byte_value (byte_of ((base + n) / 1)) = base + n).
    rewrite Z.div_1_r, byte_value_of, Z.mod_small; lia.
  - destruct (min_bytes_ok n) as (Hl & _); [lia|]. split; [|done].
    rewrite string_app_assoc.
    change (byte_value (byte_of ((base + 55 + blen (min_bytes n)) / 1)) = base + (55 + blen (min_bytes n))).
    rewrite Z.div_1_r, byte_value_of, Z.mod_small; lia.
Qed.

Lemma header_long_decodes base n rest :
  56 <= n <= MaxInt →
  decodeRLPLength (header base n +:+ rest) (blen (min_bytes n)) = Some n.
Proof.
  intros Hn. destruct (min_bytes_ok n) as (Hl & Hv & Hz); [lia|].
  unfold header. rewrite (proj2 (Z.ltb_ge n 56)), string_app_assoc by lia.
  unfold decodeRLPLength. set (m := min_bytes n) in *. set (h := be_bytes 1 _).
  assert (blen (h +:+ m +:+ rest) = 1 + blen m + blen rest) as Hb.
  { rewrite !blen_app. change (blen h) with 1. lia. }
  assert (byte_at (h +:+ m +:+ rest) 1 = byte_at m 0) as H1.
  { unfold h. cbn [be_bytes]. change (byte_at (m +:+ rest) 0 = byte_at m 0).
    destruct m; [unfold blen in Hl; simpl in Hl; lia|done]. }
  assert (0 <= blen rest) by (unfold blen; lia).
  rewrite H1, Hb, (proj2 (Z.eqb_neq (blen m) 0)), (proj2 (Z.ltb_ge 8 (blen m))),
    (proj2 (Z.ltb_ge (1 + blen m + blen rest) (1 + blen m))), (proj2 (Z.eqb_neq (byte_at m 0) 0))
    by lia. cbn [orb].
  assert (sub (h +:+ m +:+ rest) 1 (blen m) = m) as ->.
  { unfold sub. rewrite (s_drop_app _ h) by done. apply s_take_app. unfold blen. lia. }
  by rewrite Hv, (proj2 (Z.ltb_ge _ _)) by lia.
Qed.

Lemma rlp_encode_nonempty x budget : within budget x → 1 <= blen (rlp_encode x).
Proof.
  destruct budget as [|b]; [done|]. destruct x as [s|l]; cbn [rlp_encode within].
  - intros Hs. destruct (_ && _) eqn:Hc; [apply andb_true_iff in Hc as [Hc _]; apply Z.eqb_eq in Hc; lia|].
    rewrite blen_app, header_length by (unfold blen in *; lia).
    destruct (Z.ltb_spec (blen s) 56); [unfold blen in *; lia|].
    destruct (min_bytes_ok (blen s)); unfold blen in *; lia.
  - intros (_ & _ & Hs). set (b' := concat_all _) in *. rewrite blen_app, header_length by (unfold blen in *; lia).
    destruct (Z.ltb_spec (blen b') 56); [unfold blen in *; lia|].
    destruct (min_bytes_ok (blen b')); unfold blen in *; lia.
Qed.

Lemma items_loop_complete decode b fuel count l :
  (∀ y rest, within b y → ∃ v, decode (rlp_encode y +:+ rest) = Ok (v, blen (rlp_encode y)) ∧
     item_of v = y) →
  (∀ y, y ∈ l → within b y) → 0 <= count → count + Z.of_nat (length l) <= maxRLPListItems →
  (String.length (concat_all (map rlp_encode l)) <= fuel)%nat →
  ∃ its, items_loop decode fuel count (concat_all (map rlp_encode l)) = Ok its ∧ map item_of its = l.
Proof.
  intros Hd. revert fuel count. induction l as [|y l IH]; intros fuel count Hl Hc0 Hc Hf.
  - exists []. by destruct fuel.
  - cbn [map] in *. change (concat_all (rlp_encode y :: ?r)) with (rlp_encode y +:+ concat_all r) in *.
    assert (within b y) as Hy by (apply Hl; by left).
    pose proof (rlp_encode_nonempty y b Hy) as Hne.
    destruct (Hd y (concat_all (map rlp_encode l)) Hy) as (v & Hv & Ev).
    assert (0 <= blen (concat_all (map rlp_encode l))) as H0 by (unfold blen; lia).
    pose proof (blen_app (rlp_encode y) (concat_all (map rlp_encode l))) as Hb.
    destruct fuel as [|fuel].
    { exfalso. unfold blen in Hb, Hne. lia. }
    destruct (IH fuel (count + 1)) as (its & Hi & Ei).
    { intros z Hz. apply Hl. by right. } { lia. } { simpl length in Hc. lia. }
    { rewrite string_app_length in Hf. unfold blen in Hne. lia. }
    exists (v :: its). cbn [map]. rewrite Ev, Ei. split; [|done].
    destruct (rlp_encode y +:+ concat_all (map rlp_encode l)) as [|c r] eqn:Es.
    { exfalso. unfold blen at 1 in Hb. simpl in Hb. lia. }
    cbn [items_loop]. simpl length in Hc. rewrite (proj2 (Z.leb_gt _ _)) by lia. rewrite Hv.
    rewrite (proj2 (Z.eqb_neq _ _)), (proj2 (Z.ltb_ge _ _)) by lia. cbn [orb].
    rewrite <- Es, s_drop_app by (unfold blen; lia). by rewrite Hi.
Qed.

Lemma decodeRLPList_complete decode b h l rest :
  (∀ y rest, within b y → ∃ v, decode (rlp_encode y +:+ rest) = Ok (v, blen (rlp_encode y)) ∧
     item_of v = y) →
  (∀ y, y ∈ l → within b y) → Z.of_nat (length l) <= maxRLPListItems →
  let body := concat_all (map rlp_encode l) in
  ∃ v, decodeRLPList decode (h +:+ body +:+ rest) (blen h) (blen body) = Ok (v, blen h + blen body) ∧
    item_of v = Lst l.
Proof.
  intros Hd Hl Hc body. unfold decodeRLPList.
  assert (0 <= blen h ∧ 0 <= blen body ∧ 0 <= blen rest) as (? & ? & ?) by (unfold blen; lia).
  rewrite !blen_app.
  rewrite (proj2 (Z.ltb_ge (blen h) 0)), (proj2 (Z.ltb_ge (blen body) 0)),
    (proj2 (Z.ltb_ge (blen h + (blen body + blen rest)) (blen h))),
    (proj2 (Z.ltb_ge (blen h + (blen body + blen rest) - blen h) (blen body))) by lia. cbn [orb].
  assert (sub (h +:+ body +:+ rest) (blen h) (blen body) = body) as ->.
  { unfold sub. rewrite s_drop_app by (unfold blen; lia). apply s_take_app. unfold blen. lia. }
  destruct (items_loop_complete decode b (String.length body) 0 l Hd Hl) as (its & Hi & Ei); [lia|lia|subst body; lia|].
  fold body in Hi. rewrite Hi. eexists. split; [done|]. cbn [item_of]. by rewrite Ei.
Qed.

Lemma decodeRLPDepth_complete budget x rest :
  within budget x →
  ∃ v, decodeRLPDepth budget (rlp_encode x +:+ rest) = Ok (v, blen (rlp_encode x)) ∧ item_of v = x.
Proof.
  revert x rest. induction budget as [|budget IH]; intros x rest Hw; [done|].
  assert (∀ z, 0 <= blen z) as Hpos by (intros; unfold blen; lia).
  pose proof (Hpos rest) as Hr.
  destruct x as [s|l]; cbn [rlp_encode within] in *.
  - destruct (_ && _) eqn:Hc.
    + apply andb_true_iff in Hc as [Hc1 Hc2]. apply Z.eqb_eq in Hc1. apply Z.ltb_lt in Hc2.
      destruct s as [|c [|d r]]; [done| |exfalso; unfold blen in Hc1; simpl in Hc1; lia].
      cbn [decodeRLPDepth]. change (byte_at (String c "" +:+ rest) 0) with (byte_value c).
      change (byte_at (String c "") 0) with (byte_value c) in Hc2.
      rewrite (proj2 (Z.leb_le (byte_value c) 0x7f)) by lia.
      eexists. split; [reflexivity|]. done.
    + pose proof (Hpos s) as Hs. destruct (header_first 0x80 (blen s) (s +:+ rest)) as [Hfb Hne]; [lia..|].
      pose proof (header_length 0x80 (blen s) ltac:(lia)) as Hhl.
      rewrite string_app_assoc. apply String.eqb_neq in Hne. cbn [decodeRLPDepth]. rewrite Hne, Hfb.
      rewrite !blen_app, Hhl.
      revert Hhl. destruct (Z.ltb_spec (blen s) 56) as [H5|H5]; intros Hhl.
      * rewrite (proj2 (Z.leb_gt _ 0x7f)), (proj2 (Z.leb_le _ 0xb7)) by lia.
        replace (0x80 + blen s - 0x80) with (blen s) by lia.
        rewrite (proj2 (Z.ltb_ge _ (1 + blen s))) by lia.
        assert ((blen s =? 1) && (byte_at (header 0x80 (blen s) +:+ s +:+ rest) 1 <? 0x80) = false) as ->.
        { unfold header. rewrite (proj2 (Z.ltb_lt (blen s) 56)) by lia.
          change (byte_at (be_bytes 1 ?z +:+ ?t) 1) with (byte_at t 0).
          destruct (Z.eqb_spec (blen s) 1) as [E1|]; [|done].
          destruct s as [|c r]; [done|]. exact Hc. }
        eexists. split; [reflexivity|]. cbn [item_of]. f_equal. unfold sub.
        rewrite s_drop_app by (by apply blen_nat). apply s_take_app. unfold blen. lia.
      * destruct (min_bytes_ok (blen s)) as (Hl & _); [lia|].
        rewrite (proj2 (Z.leb_gt _ 0x7f)), (proj2 (Z.leb_gt _ 0xb7)), (proj2 (Z.leb_le _ 0xbf)) by lia.
        replace (0x80 + (55 + blen (min_bytes (blen s))) - 0xb7) with (blen (min_bytes (blen s))) by lia.
        rewrite header_long_decodes by lia.
        rewrite (proj2 (Z.ltb_ge (blen s) 56)), (proj2 (Z.ltb_ge _ (1 + blen (min_bytes (blen s))))),
          (proj2 (Z.ltb_ge _ (blen s))) by lia. cbn [orb].
        eexists. split; [reflexivity|]. cbn [item_of]. f_equal. unfold sub.
        rewrite s_drop_app by (by apply blen_nat). apply s_take_app. unfold blen. lia.
  - destruct Hw as (Hall & Hc & Hm). set (body := concat_all (map rlp_encode l)) in *.
    pose proof (Hpos body) as Hb0.
    destruct (header_first 0xc0 (blen body) (body +:+ rest)) as [Hfb Hne]; [lia..|].
    pose proof (header_length 0xc0 (blen body) ltac:(lia)) as Hhl.
    destruct (decodeRLPList_complete (decodeRLPDepth budget) budget (header 0xc0 (blen body)) l rest IH Hall Hc)
      as (v & Hv & Ev). fold body in Hv.
    rewrite string_app_assoc. apply String.eqb_neq in Hne. cbn [decodeRLPDepth]. rewrite Hne, Hfb.
    rewrite blen_app. exists v. split; [|done]. rewrite Hhl in Hv.
    revert Hhl Hv. destruct (Z.ltb_spec (blen body) 56) as [H5|H5]; intros Hhl Hv.
    + rewrite (proj2 (Z.leb_gt _ 0x7f)), (proj2 (Z.leb_gt _ 0xb7)), (proj2 (Z.leb_gt _ 0xbf)),
        (proj2 (Z.leb_le _ 0xf7)) by lia.
      replace (0xc0 + blen body - 0xc0) with (blen body) by lia. by rewrite Hv, blen_app, Hhl.
    + destruct (min_bytes_ok (blen body)) as (Hl & _); [lia|].
      rewrite (proj2 (Z.leb_gt _ 0x7f)), (proj2 (Z.leb_gt _ 0xb7)), (proj2 (Z.leb_gt _ 0xbf)),
        (proj2 (Z.leb_gt _ 0xf7)) by lia.
      replace (0xc0 + (55 + blen (min_bytes (blen body))) - 0xf7)
        with (blen (min_bytes (blen body))) by lia.
      rewrite header_long_decodes by lia.
      rewrite !blen_app, Hhl.
      rewrite (proj2 (Z.ltb_ge (blen body) 56)), (proj2 (Z.ltb_ge _ (1 + blen (min_bytes (blen body))))),
        (proj2 (Z.ltb_ge _ (blen body))) by lia. cbn [orb]. exact Hv.
Qed.

(** C32: the RLP decoder is exact. Whatever it accepts is, byte for byte, the
    canonical encoding of the value it returns (one prefix of the input, never
    empty), so no value has two accepted encodings; and it accepts the canonical
    encoding of every value of at most 65 levels, 65536 items a list and
    machine-size lengths, whatever follows it, consuming exactly the encoding: the
    bound on its loop is never what stops it. *)
Theorem rlp_exact (input rest : string) (x : item) :
  (∀ v n, decodeRLP input = Ok (v, n) →
     0 < n <= blen input ∧ raw v = s_take (Z.to_nat n) input ∧
     rlp_encode (item_of v) = s_take (Z.to_nat n) input) ∧
  (within 65 x →
     ∃ v, decodeRLP (rlp_encode x +:+ rest) = Ok (v, blen (rlp_encode x)) ∧ item_of v = x).
Proof.
  split.
  - intros v n Hd. by apply decodeRLPDepth_sound in Hd.
  - apply decodeRLPDepth_complete.
Qed.

(** Decoding the canonical encoding of a value within the limits. *)
Lemma decodeRLP_encode x :
  within 65 x → ∃ v, decodeRLP (rlp_encode x) = Ok (v, blen (rlp_encode x)) ∧ item_of v = x.
Proof.
  intros Hw. destruct (decodeRLPDepth_complete 65 x "" Hw) as (v & Hv & Ev).
  exists v. split; [|done]. by rewrite string_app_nil_r in Hv.
Qed.
