(* ===== verification/Gateway.v ===== *)
(** Decoding of the settlement gateway's log
    ([chain-indexer/projection/gateway.go]): canonical hexadecimal strings and the
    29-word event. *)
From S2P Require Import Prelude GoStd CrossChainTypes ChainTypes Rlp.
From S2P Require Message.

(** * Hexadecimal ([encoding/hex], [strings]) *)

(** The value of a digit, in either case. *)
Definition hex_value (c : Ascii.ascii) : option N :=
  let n := Ascii.N_of_ascii c in
  if (48 <=? n)%N && (n <=? 57)%N then Some (n - 48)%N
  else if (97 <=? n)%N && (n <=? 102)%N then Some (n - 87)%N
  else if (65 <=? n)%N && (n <=? 70)%N then Some (n - 55)%N
  else None.

(** [hex.DecodeString]. *)
Fixpoint DecodeString (s : string) : option string :=
  match s with
  | EmptyString => Some ""%string
  | String a (String b r) =>
      match hex_value a, hex_value b, DecodeString r with
      | Some x, Some y, Some decoded => Some (String (Ascii.ascii_of_N (x * 16 + y)) decoded)
      | _, _, _ => None
      end
  | String _ EmptyString => None
  end.

(** [strings.ToLower] on ASCII. A string with other characters is no hexadecimal
    string, so its callers refuse it whatever its lower case is. *)
Definition lower (c : Ascii.ascii) : Ascii.ascii :=
  let n := Ascii.N_of_ascii c in
  if (65 <=? n)%N && (n <=? 90)%N then Ascii.ascii_of_N (n + 32) else c.
Fixpoint ToLower (s : string) : string :=
  match s with
  | EmptyString => ""%string
  | String c r => String (lower c) (ToLower r)
  end.

Definition hex32 (value : string) : string := "0x" +:+ hex value.

Definition canonicalHex (value : string) (size : Z) : bool :=
  if (value <>s ToLower value) || negb (String.prefix "0x" value) || negb (blen value =? 2 + size * 2)
  then false
  else match DecodeString (s_drop 2 value) with
       | Some decoded => blen decoded =? size
       | None => false
       end.

Definition canonicalHash (value : string) : bool := canonicalHex value 32.
Definition canonicalAddress (value : string) : bool := canonicalHex value 20.

Definition decodeCanonicalHex (value : string) (size : Z) : option string :=
  if negb (canonicalHex value size) then None else DecodeString (s_drop 2 value).

Fixpoint nonzero_bytes (s : string) : bool :=
  match s with
  | EmptyString => false
  | String c r => if negb (byte_value c =? 0) then true else nonzero_bytes r
  end.
Definition nonzeroCanonicalHash (value : string) : bool :=
  match decodeCanonicalHex value 32 with
  | Some decoded => nonzero_bytes decoded
  | None => false
  end.

(** * The event *)

Record RawLog := mkRawLog {
  rl_ChainID : Z; rl_ContractAddress : string; rl_Topics : list string; rl_Data : string;
  rl_TransactionHash : string; rl_LogIndex : Z; rl_BlockNumber : Z; rl_BlockHash : string }.

Definition canonicalSettlementEventSignature : string :=
  "CanonicalSettlementExecuted(bytes32,bytes32,bytes32,(bytes32,bytes32,address,address,address,bytes32,bytes32,address,uint256,uint256,bytes32,bytes32,bytes32,bytes32,bytes32,bytes32,bytes32,bytes32,bytes32,uint64,uint64,uint256,uint256,uint256,uint256,uint64,uint64,address,address))".

(** The closures [word], [address], [uint256] and [uint64Value]. *)
Definition word (data : string) (index : Z) : string := sub data (index * 32) 32.

Definition address (data : string) (index : Z) : option string :=
  let value := word data index in
  if nonzero_bytes (s_take 12 value) then None else Some (hex32 (s_drop 12 value)).

Definition uint256 (data : string) (index : Z) : string :=
  Big.to_string (be_value (word data index)).

Definition uint64Value (data : string) (index : Z) : option Z :=
  let value := be_value (word data index) in
  if value <? 2 ^ 64 then Some value else None.

(** The bytes of the topics and the data, hashed into the raw evidence hash. *)
Definition evidence_input (raw : RawLog) : string :=
  foldr (λ topic rest, default "" (DecodeString (s_drop 2 topic)) +:+ rest)
    (rl_Data raw) (rl_Topics raw).

(** The argument of [keccak] for the event id: [fmt.Sprintf] with NUL separators. *)
Definition event_id_input (chain : Z) (blockHash transactionHash : string) (logIndex : Z) : string :=
  Big.to_string chain +:+ nul +:+ blockHash +:+ nul +:+ transactionHash +:+ nul +:+
  Big.to_string logIndex.

Section Decode.
Context `{Keccak}.

Definition CanonicalSettlementTopic : string := hex32 (keccak canonicalSettlementEventSignature).

Definition raw_log_ok (raw : RawLog) (receiptsRoot inclusionProofHash : string) (verified : bool) : bool :=
  negb (rl_ChainID raw =? 0) && canonicalAddress (rl_ContractAddress raw) &&
  (length (rl_Topics raw) =? 4)%nat && (default "" (head (rl_Topics raw)) =s CanonicalSettlementTopic) &&
  canonicalHash (rl_TransactionHash raw) && negb (rl_BlockNumber raw =? 0) &&
  canonicalHash (rl_BlockHash raw) && (blen (rl_Data raw) =? 29 * 32) &&
  negb (verified && (negb (canonicalHash receiptsRoot) || negb (canonicalHash inclusionProofHash))) &&
  forallb canonicalHash (tail (rl_Topics raw)).

Definition decodeCanonicalSettlementLog (raw : RawLog) (transactionIndex : Z)
    (receiptsRoot inclusionProofHash : string) (verified : bool) : result error Event :=
  if negb (raw_log_ok raw receiptsRoot inclusionProofHash verified) then Err ErrInvalidEvent
  else
    let data := rl_Data raw in
    let topic i := default ""%string (rl_Topics raw !! i) in
    match address data 2, address data 3, address data 4, address data 7,
          uint64Value data 19, uint64Value data 20, uint64Value data 25, uint64Value data 26,
          address data 27, address data 28 with
    | Some loanAccount, Some finalizer, Some attester, Some targetToken,
      Some finalizedAt, Some reversalDeadline, Some stateNonceBefore, Some stateNonceAfter,
      Some lender, Some borrower =>
        Ok {| ev_ID := hex32 (keccak (event_id_input (rl_ChainID raw) (rl_BlockHash raw)
                        (rl_TransactionHash raw) (rl_LogIndex raw)));
              ev_Type := CanonicalSettlementExecuted;
              ev_TxHash := rl_TransactionHash raw;
              ev_LogIndex := rl_LogIndex raw;
              ev_BlockNumber := rl_BlockNumber raw;
              ev_BlockHash := rl_BlockHash raw;
              ev_ChainID := rl_ChainID raw;
              ev_TenderID := ""; ev_OfferID := "";
              ev_LoanID := topic 3%nat;
              ev_BorrowerID := borrower;
              ev_LenderID := lender;
              ev_AssetID := hex32 (word data 6);
              ev_AmountUnits := "";
              ev_PaymentID := topic 1%nat;
              ev_AllocationID := topic 2%nat;
              ev_InstructionDigest := hex32 (word data 0);
              ev_PolicySetHash := hex32 (word data 1);
              ev_LoanAccount := loanAccount;
              ev_Finalizer := finalizer;
              ev_Attester := attester;
              ev_SourceAssetID := hex32 (word data 5);
              ev_TargetToken := targetToken;
              ev_SourceUnits := uint256 data 8;
              ev_GrossUnits := uint256 data 9;
              ev_ProviderIDHash := hex32 (word data 10);
              ev_ProviderReferenceHash := hex32 (word data 11);
              ev_ReconciliationID := hex32 (word data 12);
              ev_ReconciliationCommitment := hex32 (word data 13);
              ev_OriginalJournalSetHash := hex32 (word data 14);
              ev_ConversionPolicyHash := hex32 (word data 15);
              ev_FinalityPolicyHash := hex32 (word data 16);
              ev_EvidenceHash := hex32 (word data 17);
              ev_JournalRef := hex32 (word data 18);
              ev_ProviderFinalizedAt := finalizedAt;
              ev_ReversalDeadline := reversalDeadline;
              ev_PrincipalUnits := uint256 data 22;
              ev_RefundableExcessUnits := uint256 data 23;
              ev_DebtBeforeUnits := uint256 data 21;
              ev_DebtAfterUnits := uint256 data 24;
              ev_StateNonceBefore := stateNonceBefore;
              ev_StateNonceAfter := stateNonceAfter;
              ev_Gateway := rl_ContractAddress raw;
              ev_RawEvidenceHash := hex32 (keccak (evidence_input raw));
              ev_TransactionIndex := transactionIndex;
              ev_ReceiptsRoot := receiptsRoot;
              ev_InclusionProofHash := inclusionProofHash;
              ev_ReceiptHeaderSignatureHash := "";
              ev_decodedCanonical := verified |}
    | _, _, _, _, _, _, _, _, _, _ => Err ErrInvalidEvent
    end.

Definition DecodeCanonicalSettlementLog (raw : RawLog) : result error Event :=
  decodeCanonicalSettlementLog raw 0 "" "" false.
End Decode.

(** * Canonical hexadecimal *)

Lemma hex_value_digit n : (n < 16)%N → hex_value (hex_digit n) = Some n.
Proof.
  intros Hn. assert (n = N.of_nat (N.to_nat n)) as -> by lia.
  assert (N.to_nat n < 16)%nat as Hm by lia. revert Hm. generalize (N.to_nat n) as m. intros m Hm.
  do 16 (destruct m as [|m]; [reflexivity|]). lia.
Qed.

Lemma hex_digit_check c :
  match hex_value c with
  | Some n => implb (Ascii.eqb (lower c) c) ((n <? 16)%N && Ascii.eqb c (hex_digit n))
  | None => true
  end = true.
Proof. destruct c as [[] [] [] [] [] [] [] []]; vm_compute; reflexivity. Qed.

Lemma hex_digit_value c n :
  hex_value c = Some n → lower c = c → (n < 16)%N ∧ c = hex_digit n.
Proof.
  intros Hv Hl. pose proof (hex_digit_check c) as Hc. rewrite Hv, Hl, Ascii.eqb_refl in Hc.
  apply andb_true_iff in Hc as [Hn%N.ltb_lt Hc%Ascii.eqb_eq]. done.
Qed.

Lemma DecodeString_hex b : DecodeString (hex b) = Some b.
Proof.
  induction b as [|c b IH]; [done|]. cbn [hex DecodeString].
  pose proof (Ascii.N_ascii_bounded c).
  rewrite !hex_value_digit by (try apply N.Div0.div_lt_upper_bound; try apply N.mod_lt; lia).
  rewrite IH, (N.mul_comm _ 16), <- N.div_mod by lia. by rewrite Ascii.ascii_N_embedding.
Qed.

Lemma DecodeString_lower s b : DecodeString s = Some b → ToLower s = s → s = hex b.
Proof.
  revert b. induction s as [s IH] using (induction_ltof1 _ String.length). unfold ltof in IH.
  intros b. destruct s as [|x [|y r]]; cbn [DecodeString]; [by intros [= <-]|done|].
  destruct (hex_value x) as [n|] eqn:Hx; [|done]. destruct (hex_value y) as [m|] eqn:Hy; [|done].
  destruct (DecodeString r) as [d|] eqn:Hr; [|done]. intros [= <-].
  cbn [ToLower]. intros [= Lx Ly Lr].
  apply hex_digit_value in Hx as [Hn Ex]; [|done]. apply hex_digit_value in Hy as [Hm Ey]; [|done].
  cbn [hex]. rewrite Ascii.N_ascii_embedding by lia.
  rewrite (N.div_add_l n 16 m), (N.div_small m), N.add_0_r by lia.
  rewrite N.add_comm, N.Div0.mod_add, (N.mod_small m) by lia.
  rewrite <- Ex, <- Ey. by rewrite <- (IH r) by (simpl; try lia; done).
Qed.

Lemma lower_digit n : (n < 16)%N → lower (hex_digit n) = hex_digit n.
Proof.
  intros Hn. assert (n = N.of_nat (N.to_nat n)) as -> by lia.
  assert (N.to_nat n < 16)%nat as Hm by lia. revert Hm. generalize (N.to_nat n) as m. intros m Hm.
  do 16 (destruct m as [|m]; [reflexivity|]). lia.
Qed.

Lemma ToLower_hex b : ToLower (hex b) = hex b.
Proof.
  induction b as [|c b IH]; [done|]. cbn [hex ToLower]. pose proof (Ascii.N_ascii_bounded c).
  rewrite !lower_digit, IH by (try apply N.Div0.div_lt_upper_bound; try apply N.mod_lt; lia). done.
Qed.

Lemma hex_length b : String.length (hex b) = (2 * String.length b)%nat.
Proof. induction b as [|c b IH]; [done|]. cbn [hex String.length]. lia. Qed.

(** A string is canonical exactly when it prints some bytes of the right number. *)
Lemma canonicalHex_spec v n :
  canonicalHex v n = true ↔ ∃ b, blen b = n ∧ v = hex32 b.
Proof.
  unfold canonicalHex. split.
  - destruct (_ || _) eqn:Hg; [done|]. bool_facts.
    destruct (DecodeString _) as [b|] eqn:Hd; [|done]. intros Hl%Z.eqb_eq. exists b. split; [done|].
    destruct v as [|a [|x r]]; [exfalso; unfold blen in *; simpl in *; lia..|]. unfold hex32.
    match goal with A : String.prefix _ _ = true |- _ =>
      cbn [String.prefix] in A; destruct (Ascii.ascii_dec _ a) as [<-|]; [|done];
      destruct (Ascii.ascii_dec _ x) as [<-|]; [|done] end.
    cbn [s_drop] in Hd.
    match goal with A : _ = ToLower _ |- _ => rename A into HL end.
    cbn [ToLower] in HL. injection HL as HL. apply DecodeString_lower in Hd; [|done]. by rewrite Hd.
  - intros (b & <- & ->). unfold hex32, blen.
    change (ToLower ("0x" +:+ hex b)) with ("0x" +:+ ToLower (hex b)).
    change (s_drop 2 ("0x" +:+ hex b)) with (hex b).
    change (String.length ("0x" +:+ hex b)) with (S (S (String.length (hex b)))).
    rewrite ToLower_hex, hex_length, DecodeString_hex, String.eqb_refl, Z.eqb_refl.
    rewrite (proj2 (Z.eqb_eq _ _)) by lia. by destruct (hex b).
Qed.

Lemma decodeCanonicalHex_hex32 b n : blen b = n → decodeCanonicalHex (hex32 b) n = Some b.
Proof.
  intros Hn. unfold decodeCanonicalHex.
  rewrite (proj2 (canonicalHex_spec (hex32 b) n)) by eauto. apply DecodeString_hex.
Qed.

#[export] Instance hex32_inj : Inj (=) (=) hex32.
Proof. intros a b. unfold hex32. intros [= E]. by apply (inj hex) in E. Qed.

(** * The event as a log

    The encoder that the decoder inverts: the ABI words of the event in order. *)

Definition bytes_of_hex (h : string) : string := default ""%string (DecodeString (s_drop 2 h)).
Definition address_bytes (h : string) : string := be_bytes 12 0 +:+ bytes_of_hex h.
Definition units_bytes (units : string) : string := be_bytes 32 (default 0 (Big.set_string units)).

Definition event_words (e : Event) : list string :=
  [bytes_of_hex (ev_InstructionDigest e); bytes_of_hex (ev_PolicySetHash e);
   address_bytes (ev_LoanAccount e); address_bytes (ev_Finalizer e); address_bytes (ev_Attester e);
   bytes_of_hex (ev_SourceAssetID e); bytes_of_hex (ev_AssetID e); address_bytes (ev_TargetToken e);
   units_bytes (ev_SourceUnits e); units_bytes (ev_GrossUnits e);
   bytes_of_hex (ev_ProviderIDHash e); bytes_of_hex (ev_ProviderReferenceHash e);
   bytes_of_hex (ev_ReconciliationID e); bytes_of_hex (ev_ReconciliationCommitment e);
   bytes_of_hex (ev_OriginalJournalSetHash e); bytes_of_hex (ev_ConversionPolicyHash e);
   bytes_of_hex (ev_FinalityPolicyHash e); bytes_of_hex (ev_EvidenceHash e);
   bytes_of_hex (ev_JournalRef e);
   be_bytes 32 (ev_ProviderFinalizedAt e); be_bytes 32 (ev_ReversalDeadline e);
   units_bytes (ev_DebtBeforeUnits e); units_bytes (ev_PrincipalUnits e);
   units_bytes (ev_RefundableExcessUnits e); units_bytes (ev_DebtAfterUnits e);
   be_bytes 32 (ev_StateNonceBefore e); be_bytes 32 (ev_StateNonceAfter e);
   address_bytes (ev_LenderID e); address_bytes (ev_BorrowerID e)].

Lemma nonzero_bytes_false s : nonzero_bytes s = false → s = be_bytes (String.length s) 0.
Proof.
  induction s as [|c s IH]; [done|]. cbn [nonzero_bytes String.length be_bytes].
  destruct (Z.eqb_spec (byte_value c) 0) as [Hc|]; cbn [negb]; [|done]. intros Hs.
  rewrite <- IH by done. f_equal. rewrite Z.div_0_l by lia.
  rewrite <- (Ascii.ascii_N_embedding c). unfold byte_of, byte_value in *.
  replace (Ascii.N_of_ascii c) with 0%N by lia. reflexivity.
Qed.

Lemma concat_all_app xs ys : concat_all (xs ++ ys) = concat_all xs +:+ concat_all ys.
Proof.
  induction xs as [|x xs IH]; [done|]. cbn [app]. change (concat_all (x :: ?r)) with (x +:+ concat_all r).
  by rewrite IH, string_app_assoc.
Qed.

Lemma words_concat (n : nat) data :
  String.length data = (n * 32)%nat → concat_all (word data ∘ Z.of_nat <$> seq 0 n) = data.
Proof.
  intros Hl. assert (∀ k, (k <= n)%nat →
    concat_all (word data ∘ Z.of_nat <$> seq 0 k) = s_take (k * 32) data) as Hk.
  { induction k as [|k IH]; intros Hk; [by destruct data|].
    rewrite seq_S, fmap_app, concat_all_app, IH by lia.
    replace (S k * 32)%nat with (k * 32 + 32)%nat by lia. rewrite s_take_add. f_equal.
    cbn [fmap list_fmap]. change (concat_all [?x]) with (x +:+ ""). rewrite string_app_nil_r.
    unfold compose, word, sub. by replace (Z.to_nat (Z.of_nat (0 + k) * 32)) with (k * 32)%nat by lia. }
  rewrite Hk, <- Hl by lia. rewrite <- (string_app_nil_r data) at 2. by apply s_take_app.
Qed.

Lemma word_length data (i : Z) :
  blen data = 29 * 32 → 0 <= i < 29 → String.length (word data i) = 32%nat.
Proof. intros Hd Hi. apply (blen_nat _ 32), sub_length; lia. Qed.

Lemma bytes_of_hex32 b : bytes_of_hex (hex32 b) = b.
Proof. unfold bytes_of_hex. change (s_drop 2 (hex32 b)) with (hex b). by rewrite DecodeString_hex. Qed.

Lemma address_bytes_word data i a :
  blen data = 29 * 32 → 0 <= i < 29 → address data i = Some a → address_bytes a = word data i.
Proof.
  intros Hd Hi. unfold address. destruct (nonzero_bytes _) eqn:Hz; [done|]. intros [= <-].
  unfold address_bytes. rewrite bytes_of_hex32. apply nonzero_bytes_false in Hz.
  rewrite s_take_length in Hz by (rewrite word_length by done; lia). rewrite <- Hz. apply s_take_drop.
Qed.

Lemma units_bytes_word data i :
  blen data = 29 * 32 → 0 <= i < 29 → units_bytes (uint256 data i) = word data i.
Proof.
  intros Hd Hi. unfold units_bytes, uint256. rewrite Big.set_string_to_string. cbn [default].
  rewrite <- (word_length data i Hd Hi) at 1. apply be_bytes_value.
Qed.

Lemma uint64_bytes_word data i v :
  blen data = 29 * 32 → 0 <= i < 29 → uint64Value data i = Some v → be_bytes 32 v = word data i.
Proof.
  intros Hd Hi. unfold uint64Value. destruct (_ <? _); [|done]. intros [= <-].
  rewrite <- (word_length data i Hd Hi) at 1. apply be_bytes_value.
Qed.

Section Lossless.
Context `{Keccak}.

Definition raw_of_event (e : Event) : RawLog :=
  mkRawLog (ev_ChainID e) (ev_Gateway e)
    [CanonicalSettlementTopic; ev_PaymentID e; ev_AllocationID e; ev_LoanID e]
    (concat_all (event_words e)) (ev_TxHash e) (ev_LogIndex e) (ev_BlockNumber e) (ev_BlockHash e).

(** Decoding loses nothing. An accepted settlement log is, field by field, the
    log that the decoded event encodes to: every one of its 29 words, its topics and
    its position can be read back from the event. So two logs that decode to the
    same event are the same log, and the event's identifier and raw evidence hash
    are the hashes of that log. *)
Theorem decode_lossless (raw : RawLog) (transactionIndex : Z) (receiptsRoot proofHash : string)
    (verified : bool) (e : Event) :
  decodeCanonicalSettlementLog raw transactionIndex receiptsRoot proofHash verified = Ok e →
  raw_of_event e = raw ∧
  ev_ID e = hex32 (keccak (event_id_input (ev_ChainID e) (ev_BlockHash e) (ev_TxHash e) (ev_LogIndex e))) ∧
  ev_RawEvidenceHash e = hex32 (keccak (evidence_input raw)) ∧
  ev_TransactionIndex e = transactionIndex ∧ ev_ReceiptsRoot e = receiptsRoot ∧
  ev_InclusionProofHash e = proofHash ∧ ev_decodedCanonical e = verified.
Proof using All.
  unfold decodeCanonicalSettlementLog. destruct (raw_log_ok _ _ _ _) eqn:Hr; cbn [negb]; [|done].
  repeat (case_match; [|intros HX; discriminate HX]).
  intros <-%Ok_inj. split; [|split_and!; reflexivity].
  unfold raw_log_ok in Hr. bool_facts.
  match goal with A : blen (rl_Data raw) = _ |- _ => rename A into Hd end.
  assert (concat_all (word (rl_Data raw) ∘ Z.of_nat <$> seq 0 29) = rl_Data raw) as Hw.
  { apply words_concat. unfold blen in Hd. lia. }
  destruct raw as [c g topics data tx li bn bh]. cbn [rl_Data rl_Topics rl_ChainID rl_ContractAddress
    rl_TransactionHash rl_LogIndex rl_BlockNumber rl_BlockHash] in *.
  destruct topics as [|t0 [|t1 [|t2 [|t3 [|]]]]]; try done. assert (t0 = CanonicalSettlementTopic) as -> by assumption.
  unfold raw_of_event. f_equal. etransitivity; [|exact Hw]. apply (f_equal concat_all).
  unfold event_words. cbn [seq fmap list_fmap].
  repeat (apply f_equal2;
    [first [apply bytes_of_hex32 | apply units_bytes_word; [exact Hd|lia]
           |eapply address_bytes_word; [exact Hd|lia|eassumption]
           |eapply uint64_bytes_word; [exact Hd|lia|eassumption]]|]). done.
Qed.
End Lossless.

(** * A concrete log *)

Module Sample.
#[local] Existing Instance Message.Sample.toy_keccak.

Definition word_value (i : Z) : Z :=
  match i with
  | 8 | 9 => 100 | 19 => 10 | 20 => 20 | 21 => 90 | 22 => 90 | 23 => 10 | 24 => 0 | 25 => 1
  | 26 => 2 | _ => 100 + i
  end.

(** A settlement of 90 units of principal out of 100, under a finality policy. *)
Definition data (policy : string) : string :=
  concat_all ((λ i, be_bytes 32 (word_value i)) <$> seqZ 0 16) +:+ policy +:+
  concat_all ((λ i, be_bytes 32 (word_value i)) <$> seqZ 17 12).
Definition gateway : string := hex32 (be_bytes 20 7).
Definition topics : list string :=
  [CanonicalSettlementTopic; hex32 (be_bytes 32 11); hex32 (be_bytes 32 12); hex32 (be_bytes 32 13)].
Definition sample_log : RawLog :=
  mkRawLog 1 gateway topics (data (be_bytes 32 116)) (hex32 (be_bytes 32 5)) 3 9 (hex32 (be_bytes 32 6)).

Lemma decode_lossless_witness :
  ∃ e, DecodeCanonicalSettlementLog sample_log = Ok e ∧ raw_of_event e = sample_log.
Proof.
  destruct (DecodeCanonicalSettlementLog sample_log) as [e|] eqn:E;
    [|vm_compute in E; discriminate E].
  exists e. split; [reflexivity|]. exact (proj1 (decode_lossless sample_log 0 "" "" false e E)).
Defined.
End Sample.
