(* ===== verification/EvmProof.v ===== *)
(** Authenticated block evidence ([chain-indexer/projection/evmproof.go]):
    Merkle-Patricia inclusion proofs, block headers, receipts, signed blocks and
    the confirmation path. *)
From S2P Require Import Prelude GoStd CrossChainTypes ChainTypes Rlp Gateway.

Definition maxHeaderRLPBytes : Z := 64 * 2 ^ 10.
Definition maxTransactionBytes : Z := 2 ^ 20.
Definition maxReceiptBytes : Z := 4 * 2 ^ 20.
Definition maxProofNodeBytes : Z := 2 ^ 20.
Definition maxProofNodes : Z := 64.
Definition maxProofBytes : Z := 8 * 2 ^ 20.
Definition maxReceiptsPerBlock : Z := 4096.
Definition maxBlockProofBytes : Z := 32 * 2 ^ 20.
Definition maxBlockInputBytes : Z := 64 * 2 ^ 20.
Definition maxReceiptLogs : Z := 4096.
Definition maxLogTopics : Z := 16.
Definition PublicKeySize : Z := 32.
Definition SignatureSize : Z := 64.

(** [len] of a slice. *)
Definition llen {A} (l : list A) : Z := Z.of_nat (length l).

(** * Data *)

Record ReceiptInclusionProof := mkReceiptProof {
  ip_TransactionIndex : Z;
  ip_TransactionRLP : string;
  ip_TransactionProofNodes : list string;
  ip_ReceiptRLP : string;
  ip_ReceiptProofNodes : list string }.

Record AuthenticatedBlock := mkAuthenticatedBlock {
  ab_HeaderRLP : string; ab_ObservedAt : Time.t; ab_Signature : string;
  ab_Receipts : list ReceiptInclusionProof }.

Record AuthenticatedHeader := mkAuthenticatedHeader {
  ah_HeaderRLP : string; ah_ObservedAt : Time.t; ah_Signature : string }.

Record ExpectedReceiptLog := mkExpectedLog {
  el_Address : string; el_Topics : list string; el_Data : string; el_LogIndex : Z }.

Record VerifiedReceiptLog := mkVerifiedLog {
  vl_Address : string; vl_Topics : list string; vl_Data : string; vl_LogIndex : Z }.

Record VerifiedReceiptEvidence := mkVerifiedEvidence {
  ve_TransactionHash : string; ve_TransactionIndex : Z; ve_BlockHash : string;
  ve_BlockNumber : Z; ve_BlockTimestamp : Z; ve_ReceiptsRoot : string;
  ve_InclusionProofHash : string; ve_FinalityHeadHash : string; ve_FinalityHeadNumber : Z;
  ve_Log : VerifiedReceiptLog }.

Record evmHeader := mkEvmHeader {
  number : Z; hash : string; parentHash : string; transactionsRoot : string;
  receiptsRoot : string; timestamp : Z }.

Record verifiedReceipt := mkVerifiedReceipt {
  vr_TransactionHash : string; vr_ReceiptPayloadHash : string; vr_Status : string;
  vr_TransactionIndex : Z; vr_BlockNumber : Z; vr_BlockHash : string;
  vr_ReceiptsRoot : string; vr_InclusionProofHash : string; vr_HeaderSignatureHash : string }.

#[export] Instance verifiedReceipt_eq_dec : EqDecision verifiedReceipt.
Proof. solve_decision. Defined.

Record receiptLog := mkReceiptLog { log_address : string; log_topics : list string; log_data : string }.

(** The zero value of [rlpValue], for indexes past the checked length. *)
Definition zeroRLP : rlpValue := RlpValue "" "" [] false.
(** [value.list[i]]. *)
Definition item_at (v : rlpValue) (i : nat) : rlpValue := nth i (items v) zeroRLP.

(** * Sizes *)

(** The loop of [validProofSize]. *)
Fixpoint proof_size_loop (total : Z) (proof : list string) : bool :=
  match proof with
  | [] => true
  | node :: rest =>
      if (blen node =? 0) || (maxProofNodeBytes <? blen node) then false
      else
        let total := total + blen node in
        if maxProofBytes <? total then false else proof_size_loop total rest
  end.
Definition validProofSize (proof : list string) : bool :=
  if (llen proof =? 0) || (maxProofNodes <? llen proof) then false else proof_size_loop 0 proof.

(** [addWithinLimit] returns the new total, or nothing when it would pass the limit. *)
Definition addWithinLimit (total value limit : Z) : option Z :=
  if (value <? 0) || (limit <? total) || (limit - total <? value) then None else Some (total + value).

Fixpoint node_size_loop (inputBytes proofBytes : Z) (nodes : list string) : option (Z * Z) :=
  match nodes with
  | [] => Some (inputBytes, proofBytes)
  | node :: rest =>
      match addWithinLimit proofBytes (blen node) maxBlockProofBytes with
      | None => None
      | Some proofBytes =>
          match addWithinLimit inputBytes (blen node) maxBlockInputBytes with
          | None => None
          | Some inputBytes => node_size_loop inputBytes proofBytes rest
          end
      end
  end.

Fixpoint receipt_size_loop (inputBytes proofBytes : Z) (receipts : list ReceiptInclusionProof) : bool :=
  match receipts with
  | [] => true
  | receipt :: rest =>
      match addWithinLimit inputBytes (blen (ip_TransactionRLP receipt)) maxBlockInputBytes with
      | None => false
      | Some inputBytes =>
          match addWithinLimit inputBytes (blen (ip_ReceiptRLP receipt)) maxBlockInputBytes with
          | None => false
          | Some inputBytes =>
              match node_size_loop inputBytes proofBytes
                      (ip_TransactionProofNodes receipt ++ ip_ReceiptProofNodes receipt) with
              | None => false
              | Some (inputBytes, proofBytes) => receipt_size_loop inputBytes proofBytes rest
              end
          end
      end
  end.

Definition validAuthenticatedBlockSize (block : AuthenticatedBlock) : bool :=
  if maxReceiptsPerBlock <? llen (ab_Receipts block) then false
  else
    match addWithinLimit 0 (blen (ab_HeaderRLP block)) maxBlockInputBytes with
    | None => false
    | Some inputBytes =>
        match addWithinLimit inputBytes (blen (ab_Signature block)) maxBlockInputBytes with
        | None => false
        | Some inputBytes => receipt_size_loop inputBytes 0 (ab_Receipts block)
        end
    end.

(** * Tries *)

Fixpoint bytesToNibbles (value : string) : list Z :=
  match value with
  | EmptyString => []
  | String c r => Z.shiftr (byte_value c) 4 :: Z.land (byte_value c) 0x0f :: bytesToNibbles r
  end.

(** The path, whether the node is a leaf; [None] for an invalid encoding. *)
Definition decodeCompactPath (encoded : string) : option (list Z * bool) :=
  match bytesToNibbles encoded with
  | [] => None
  | first :: nibbles =>
      if 3 <? first then None
      else
        let leaf := 2 <=? first in
        if first mod 2 =? 1 then Some (nibbles, leaf)
        else
          match nibbles with
          | [] => None
          | second :: nibbles => if negb (second =? 0) then None else Some (nibbles, leaf)
          end
  end.

Definition trieReference (value : rlpValue) : option string :=
  if isList value then
    if 32 <=? blen (raw value) then None else Some (raw value)
  else if negb (blen (payload value) =? 32) then None
  else Some (payload value).

Section Proofs.
Context `{Keccak}.

Definition matchesTrieReference (reference encodedNode : string) : bool :=
  if blen reference =? 32 then reference =s keccak encodedNode
  else (0 <? blen reference) && (blen reference <? 32) && (reference =s encodedNode).

(** The loop of [verifyTrieInclusion]; [keyNibbles[position:]] is the suffix of the
    key still to be matched, and a node is the last when no node follows. *)
Fixpoint trie_loop (reference : string) (keyNibbles : list Z) (expected : string)
    (proof : list string) : bool :=
  match proof with
  | [] => false
  | encodedNode :: rest =>
      let last := match rest with [] => true | _ => false end in
      if negb (matchesTrieReference reference encodedNode) then false
      else
        match decodeRLP encodedNode with
        | Err _ => false
        | Ok (node, consumed) =>
            if negb (consumed =? blen encodedNode) || negb (isList node) then false
            else if llen (items node) =? 17 then
              match keyNibbles with
              | [] =>
                  let value := item_at node 16 in
                  last && negb (isList value) && (payload value =s expected)
              | nibble :: keyNibbles =>
                  match trieReference (item_at node (Z.to_nat nibble)) with
                  | None => false
                  | Some child => trie_loop child keyNibbles expected rest
                  end
              end
            else if llen (items node) =? 2 then
              let pathField := item_at node 0 in
              if isList pathField then false
              else
                match decodeCompactPath (payload pathField) with
                | None => false
                | Some (path, leaf) =>
                    if (llen keyNibbles <? llen path) ||
                       negb (bool_decide (take (length path) keyNibbles = path))
                    then false
                    else
                      let keyNibbles := drop (length path) keyNibbles in
                      let value := item_at node 1 in
                      if leaf then
                        match keyNibbles with [] => true | _ => false end && last &&
                        negb (isList value) && (payload value =s expected)
                      else
                        match trieReference value with
                        | None => false
                        | Some child => trie_loop child keyNibbles expected rest
                        end
                end
            else false
        end
  end.

Definition verifyTrieInclusion (root key expected : string) (proof : list string) : bool :=
  if negb (blen root =? 32) || negb (validProofSize proof) then false
  else trie_loop root (bytesToNibbles key) expected proof.

(** * Headers and receipts *)

Definition parseEVMHeader (encoded : string) : result error evmHeader :=
  if (blen encoded =? 0) || (maxHeaderRLPBytes <? blen encoded) then Err ErrInvalidHeaderEvidence
  else
    match decodeRLP encoded with
    | Err _ => Err ErrInvalidHeaderEvidence
    | Ok (value, consumed) =>
        if negb (consumed =? blen encoded) || negb (isList value) || (llen (items value) <? 12)
        then Err ErrInvalidHeaderEvidence
        else
          let parent := item_at value 0 in
          let transactionsRoot := item_at value 4 in
          let receiptsRoot := item_at value 5 in
          let number := item_at value 8 in
          let timestamp := item_at value 11 in
          if isList parent || isList transactionsRoot || isList receiptsRoot || isList number ||
             isList timestamp || negb (blen (payload parent) =? 32) ||
             negb (blen (payload transactionsRoot) =? 32) || negb (blen (payload receiptsRoot) =? 32)
          then Err ErrInvalidHeaderEvidence
          else
            match rlpUint64 (payload number), rlpUint64 (payload timestamp) with
            | Some blockNumber, Some blockTimestamp =>
                if (blockNumber =? 0) || (blockTimestamp =? 0) then Err ErrInvalidHeaderEvidence
                else Ok (mkEvmHeader blockNumber (hex32 (keccak encoded)) (hex32 (payload parent))
                           (hex32 (payload transactionsRoot)) (hex32 (payload receiptsRoot))
                           blockTimestamp)
            | _, _ => Err ErrInvalidHeaderEvidence
            end
    end.

(** The loops of [decodeReceipt] over the topics of a log and over the logs. *)
Fixpoint topic_loop (topics : list rlpValue) : result error (list string) :=
  match topics with
  | [] => Ok []
  | topic :: rest =>
      if isList topic || negb (blen (payload topic) =? 32) then Err ErrInvalidInclusionProof
      else let? decoded := topic_loop rest in Ok (hex32 (payload topic) :: decoded)
  end.

Fixpoint log_loop (logs : list rlpValue) : result error (list receiptLog) :=
  match logs with
  | [] => Ok []
  | encodedLog :: rest =>
      if negb (isList encodedLog) || negb (llen (items encodedLog) =? 3)
      then Err ErrInvalidInclusionProof
      else
        let address := item_at encodedLog 0 in
        let topics := item_at encodedLog 1 in
        let data := item_at encodedLog 2 in
        if isList address || negb (blen (payload address) =? 20) || negb (isList topics) ||
           (maxLogTopics <? llen (items topics)) || isList data ||
           (maxReceiptBytes <? blen (payload data))
        then Err ErrInvalidInclusionProof
        else
          let? decodedTopics := topic_loop (items topics) in
          let? decoded := log_loop rest in
          Ok (mkReceiptLog (hex32 (payload address)) decodedTopics (payload data) :: decoded)
  end.

Definition decodeReceipt (encoded : string) : result error (string * list receiptLog) :=
  if blen encoded =? 0 then Err ErrInvalidInclusionProof
  else
    let payload_ := if (0 <? byte_at encoded 0) && (byte_at encoded 0 <? 0x80)
                    then s_drop 1 encoded else encoded in
    match decodeRLP payload_ with
    | Err _ => Err ErrInvalidInclusionProof
    | Ok (value, consumed) =>
        if negb (consumed =? blen payload_) || negb (isList value) || negb (llen (items value) =? 4)
        then Err ErrInvalidInclusionProof
        else
          let statusField := item_at value 0 in
          let cumulativeGasUsed := item_at value 1 in
          let bloom := item_at value 2 in
          let logsField := item_at value 3 in
          if isList statusField then Err ErrInvalidInclusionProof
          else if isList cumulativeGasUsed then Err ErrInvalidInclusionProof
          else
            match rlpUint64 (payload cumulativeGasUsed) with
            | None => Err ErrInvalidInclusionProof
            | Some _ =>
                if isList bloom || negb (blen (payload bloom) =? 256)
                then Err ErrInvalidInclusionProof
                else
                  let? status :=
                    (if blen (payload statusField) =? 0 then Ok TransactionReverted
                     else if (blen (payload statusField) =? 1) &&
                             (byte_at (payload statusField) 0 =? 1) then Ok TransactionSucceeded
                     else Err ErrInvalidInclusionProof) in
                  if negb (isList logsField) || (maxReceiptLogs <? llen (items logsField))
                  then Err ErrInvalidInclusionProof
                  else if (status =s TransactionReverted) && negb (llen (items logsField) =? 0)
                  then Err ErrInvalidInclusionProof
                  else
                    let? logs := log_loop (items logsField) in
                    Ok (status, logs)
            end
    end.

(** * Digests *)

Definition appendLengthPrefixed (target value : string) : string :=
  target +:+ be_bytes 8 (blen value) +:+ value.

Definition inclusion_input (headerHash : string) (proof : ReceiptInclusionProof) : string :=
  let input := ("UNIFIED_EVM_TRANSACTION_RECEIPT_INCLUSION_V1" +:+ nul)%string in
  let input := appendLengthPrefixed input headerHash in
  let input := input +:+ be_bytes 8 (ip_TransactionIndex proof) in
  let input := appendLengthPrefixed input (ip_TransactionRLP proof) in
  let input := foldl appendLengthPrefixed input (ip_TransactionProofNodes proof) in
  let input := appendLengthPrefixed input (ip_ReceiptRLP proof) in
  foldl appendLengthPrefixed input (ip_ReceiptProofNodes proof).

Definition receiptInclusionProofHash (header : evmHeader) (proof : ReceiptInclusionProof) : string :=
  hex32 (keccak (inclusion_input (hash header) proof)).

Definition ComputeFinalityPolicyHash (chainID : Z) (gateway : string) (finalityDepth : Z)
    (headerAuthority : string) : result error string :=
  match decodeCanonicalHex gateway 20 with
  | None => Err ErrInvalidIndexerConfig
  | Some gatewayBytes =>
      if (chainID =? 0) || (finalityDepth =? 0) || negb (blen headerAuthority =? PublicKeySize)
      then Err ErrInvalidIndexerConfig
      else Ok (hex32 (keccak ("UNIFIED_EVM_FINALITY_POLICY_V1" +:+ nul +:+ be_bytes 8 chainID +:+
                 gatewayBytes +:+ be_bytes 8 finalityDepth +:+ headerAuthority)))
  end.

(** The bytes hashed into the signed digest of a header. *)
Definition signing_input (chainID : Z) (headerRLP : string) (observedAt : Time.t) : string :=
  "UNIFIED_EVM_HEADER_AUTHORITY_V1" +:+ nul +:+ be_bytes 8 chainID +:+
  be_bytes 8 (Time.UnixNano (Time.UTC observedAt)) +:+ keccak headerRLP.

Definition AuthenticatedHeaderSigningDigest (chainID : Z) (headerRLP : string) (observedAt : Time.t)
    : result error string :=
  if (chainID =? 0) || Time.IsZero observedAt || (Time.UnixNano observedAt <=? 0) ||
     (blen headerRLP =? 0) || (maxHeaderRLPBytes <? blen headerRLP)
  then Err ErrInvalidHeaderEvidence
  else
    let? _ := parseEVMHeader headerRLP in
    Ok (keccak (signing_input chainID headerRLP observedAt)).
End Proofs.

(** * Signed blocks *)

(** Ed25519 is outside the repository: public key, message and signature. *)
Class Ed25519 := ed25519_Verify : string → string → string → bool.

(** [event.ReceiptHeaderSignatureHash = signatureHash]. *)
Definition with_signature_hash (signatureHash : string) (event : Event) : Event :=
  mkEvent (ev_ID event) (ev_Type event) (ev_TxHash event) (ev_LogIndex event)
    (ev_BlockNumber event) (ev_BlockHash event) (ev_ChainID event) (ev_TenderID event)
    (ev_OfferID event) (ev_LoanID event) (ev_BorrowerID event) (ev_LenderID event)
    (ev_AssetID event) (ev_AmountUnits event) (ev_PaymentID event) (ev_AllocationID event)
    (ev_InstructionDigest event) (ev_PolicySetHash event) (ev_LoanAccount event)
    (ev_Finalizer event) (ev_Attester event) (ev_SourceAssetID event) (ev_TargetToken event)
    (ev_SourceUnits event) (ev_GrossUnits event) (ev_ProviderIDHash event)
    (ev_ProviderReferenceHash event) (ev_ReconciliationID event)
    (ev_ReconciliationCommitment event) (ev_OriginalJournalSetHash event)
    (ev_ConversionPolicyHash event) (ev_FinalityPolicyHash event) (ev_EvidenceHash event)
    (ev_JournalRef event) (ev_ProviderFinalizedAt event) (ev_ReversalDeadline event)
    (ev_PrincipalUnits event) (ev_RefundableExcessUnits event) (ev_DebtBeforeUnits event)
    (ev_DebtAfterUnits event) (ev_StateNonceBefore event) (ev_StateNonceAfter event)
    (ev_Gateway event) (ev_RawEvidenceHash event) (ev_TransactionIndex event)
    (ev_ReceiptsRoot event) (ev_InclusionProofHash event) signatureHash
    (ev_decodedCanonical event).

Definition MaxUint32 : Z := 2 ^ 32 - 1.

Section Blocks.
Context `{Keccak, Ed25519}.

(** What the loop over a receipt's logs reads of the receipt. *)
Record LogContext := mkLogContext {
  lc_chainID : Z; lc_gateway : string; lc_header : evmHeader; lc_record : verifiedReceipt }.

Definition raw_log_of (c : LogContext) (log : receiptLog) (globalLogIndex : Z) : RawLog :=
  mkRawLog (lc_chainID c) (log_address log) (log_topics log) (log_data log)
    (vr_TransactionHash (lc_record c)) (u32 globalLogIndex) (number (lc_header c))
    (hash (lc_header c)).

(** The event of one log, if it is the gateway's settlement log. *)
Definition log_event (c : LogContext) (log : receiptLog) (globalLogIndex : Z)
    : result error (list Event) :=
  if (vr_Status (lc_record c) =s TransactionSucceeded) && (log_address log =s lc_gateway c) &&
     match log_topics log with
     | [] => false
     | topic :: _ => topic =s CanonicalSettlementTopic
     end
  then
    match decodeCanonicalSettlementLog (raw_log_of c log globalLogIndex)
            (vr_TransactionIndex (lc_record c)) (receiptsRoot (lc_header c))
            (vr_InclusionProofHash (lc_record c)) true with
    | Err _ => Err ErrInvalidInclusionProof
    | Ok event => Ok [with_signature_hash (vr_HeaderSignatureHash (lc_record c)) event]
    end
  else Ok [].

Fixpoint log_event_loop (c : LogContext) (logs : list receiptLog) (globalLogIndex : Z)
    : result error (list Event * Z) :=
  match logs with
  | [] => Ok ([], globalLogIndex)
  | log :: rest =>
      if MaxUint32 <? globalLogIndex then Err ErrInvalidInclusionProof
      else if (vr_Status (lc_record c) =s TransactionSucceeded) && empty_s (log_address log)
      then Err ErrInvalidInclusionProof
      else
        let? here := log_event c log globalLogIndex in
        let? (more, next) := log_event_loop c rest (u64 (globalLogIndex + 1)) in
        Ok (here ++ more, next)
  end.

Definition receipt_record (header : evmHeader) (signature status : string)
    (proof : ReceiptInclusionProof) : verifiedReceipt :=
  mkVerifiedReceipt (hex32 (keccak (ip_TransactionRLP proof))) (hex32 (keccak (ip_ReceiptRLP proof)))
    status (ip_TransactionIndex proof) (number header) (hash header) (receiptsRoot header)
    (receiptInclusionProofHash header proof) (hex32 (keccak signature)).

(** The guards at the head of the loop over the receipts. *)
Definition proof_accepted (header : evmHeader) (position : Z) (proof : ReceiptInclusionProof) : bool :=
  let key := rlpEncodeUint (ip_TransactionIndex proof) in
  (ip_TransactionIndex proof =? position) &&
  negb (blen (ip_TransactionRLP proof) =? 0) &&
  (blen (ip_TransactionRLP proof) <=? maxTransactionBytes) &&
  negb (blen (ip_ReceiptRLP proof) =? 0) && (blen (ip_ReceiptRLP proof) <=? maxReceiptBytes) &&
  validProofSize (ip_TransactionProofNodes proof) && validProofSize (ip_ReceiptProofNodes proof) &&
  verifyTrieInclusion (default "" (decodeCanonicalHex (transactionsRoot header) 32)) key
    (ip_TransactionRLP proof) (ip_TransactionProofNodes proof) &&
  verifyTrieInclusion (default "" (decodeCanonicalHex (receiptsRoot header) 32)) key
    (ip_ReceiptRLP proof) (ip_ReceiptProofNodes proof).

Fixpoint receipt_loop (chainID : Z) (gateway : string) (header : evmHeader) (signature : string)
    (position : Z) (proofs : list ReceiptInclusionProof) (globalLogIndex : Z)
    : result error (list verifiedReceipt * list Event) :=
  match proofs with
  | [] => Ok ([], [])
  | proof :: rest =>
      if negb (proof_accepted header position proof) then Err ErrInvalidInclusionProof
      else
        match decodeReceipt (ip_ReceiptRLP proof) with
        | Err _ => Err ErrInvalidInclusionProof
        | Ok (status, logs) =>
            let record := receipt_record header signature status proof in
            let? (events, next) :=
              log_event_loop (mkLogContext chainID gateway header record) logs globalLogIndex in
            let? (records, more) :=
              receipt_loop chainID gateway header signature (position + 1) rest next in
            Ok (record :: records, events ++ more)
        end
  end.

(** The loop that checks that the receipts come in transaction order. *)
Fixpoint in_position (position : Z) (receipts : list ReceiptInclusionProof) : bool :=
  match receipts with
  | [] => true
  | receipt :: rest =>
      if negb (ip_TransactionIndex receipt =? position) then false else in_position (position + 1) rest
  end.

(** [sort.Slice] by transaction index. *)
Definition index_le (a b : ReceiptInclusionProof) : Prop :=
  ip_TransactionIndex a <= ip_TransactionIndex b.
#[export] Instance index_le_dec : RelDecision index_le.
Proof. intros a b. unfold index_le. apply _. Defined.

Definition verifyAuthenticatedBlock (chainID : Z) (gateway authority : string)
    (block : AuthenticatedBlock) : result error (evmHeader * list verifiedReceipt * list Event) :=
  if negb (blen authority =? PublicKeySize) || negb (blen (ab_Signature block) =? SignatureSize) ||
     Time.IsZero (ab_ObservedAt block) || (Time.UnixNano (ab_ObservedAt block) <=? 0) ||
     (blen (ab_HeaderRLP block) =? 0) || (maxHeaderRLPBytes <? blen (ab_HeaderRLP block)) ||
     negb (validAuthenticatedBlockSize block)
  then Err ErrInvalidHeaderEvidence
  else
    let? header := parseEVMHeader (ab_HeaderRLP block) in
    if Time.Unix (ab_ObservedAt block) <? Time.i64 (timestamp header)
    then Err ErrInvalidHeaderEvidence
    else
      match AuthenticatedHeaderSigningDigest chainID (ab_HeaderRLP block) (ab_ObservedAt block) with
      | Err _ => Err ErrInvalidHeaderEvidence
      | Ok digest =>
          if negb (ed25519_Verify authority digest (ab_Signature block))
          then Err ErrInvalidHeaderEvidence
          else if negb (in_position 0 (ab_Receipts block)) then Err ErrInvalidInclusionProof
          else
            let? (receipts, events) :=
              receipt_loop chainID gateway header (ab_Signature block) 0
                (merge_sort index_le (ab_Receipts block)) 0 in
            Ok (header, receipts, events)
      end.

(** * Receipt evidence with a confirmation path *)

Fixpoint equalStrings (xs ys : list string) : bool :=
  match xs, ys with
  | [], [] => true
  | a :: xs, b :: ys => if a <>s b then false else equalStrings xs ys
  | _, _ => false
  end.

Definition log_matches (expected : ExpectedReceiptLog) (status : string) (globalLogIndex : Z)
    (log : receiptLog) : bool :=
  (globalLogIndex =? el_LogIndex expected) && (status =s TransactionSucceeded) &&
  (log_address log =s el_Address expected) && equalStrings (log_topics log) (el_Topics expected) &&
  (log_data log =s el_Data expected).

(** The loops that look for the expected log: the log found so far and the running
    block-global index. A second match is an error. *)
Fixpoint match_log_loop (expected : ExpectedReceiptLog) (target : bool) (status : string)
    (logs : list receiptLog) (globalLogIndex : Z) (matched : option VerifiedReceiptLog)
    : result error (option VerifiedReceiptLog * Z) :=
  match logs with
  | [] => Ok (matched, globalLogIndex)
  | log :: rest =>
      if target && log_matches expected status globalLogIndex log then
        match matched with
        | Some _ => Err ErrInvalidInclusionProof
        | None =>
            match_log_loop expected target status rest (u64 (globalLogIndex + 1))
              (Some (mkVerifiedLog (log_address log) (log_topics log) (log_data log) globalLogIndex))
        end
      else match_log_loop expected target status rest (u64 (globalLogIndex + 1)) matched
  end.

Fixpoint match_receipt_loop (expected : ExpectedReceiptLog) (targetIndex index : Z)
    (receipts : list ReceiptInclusionProof) (globalLogIndex : Z)
    (matched : option VerifiedReceiptLog) : result error (option VerifiedReceiptLog) :=
  match receipts with
  | [] => Ok matched
  | receiptProof :: rest =>
      match decodeReceipt (ip_ReceiptRLP receiptProof) with
      | Err _ => Err ErrInvalidInclusionProof
      | Ok (status, logs) =>
          let? (matched, next) :=
            match_log_loop expected (index =? targetIndex) status logs globalLogIndex matched in
          if index =? targetIndex then Ok matched
          else match_receipt_loop expected targetIndex (index + 1) rest next matched
      end
  end.

(** The loop over the confirmation headers, after [previous]; it returns the last. *)
Fixpoint confirmation_loop (chainID : Z) (coordinator authority : string) (previous : evmHeader)
    (previousObservedAt : Time.t) (headers : list AuthenticatedHeader) : result error evmHeader :=
  match headers with
  | [] => Ok previous
  | signed :: rest =>
      if Time.Before (Time.UTC (ah_ObservedAt signed)) previousObservedAt
      then Err ErrInvalidHeaderEvidence
      else
        match verifyAuthenticatedBlock chainID coordinator authority
                (mkAuthenticatedBlock (ah_HeaderRLP signed) (ah_ObservedAt signed)
                   (ah_Signature signed) []) with
        | Err _ => Err ErrInvalidHeaderEvidence
        | Ok (next, _, _) =>
            if negb (number next =? u64 (number previous + 1)) ||
               (parentHash next <>s hash previous)
            then Err ErrInvalidHeaderEvidence
            else confirmation_loop chainID coordinator authority next
                   (Time.UTC (ah_ObservedAt signed)) rest
        end
  end.

Definition zeroReceipt : verifiedReceipt := mkVerifiedReceipt "" "" "" 0 0 "" "" "" "".
Definition zeroEvidence : VerifiedReceiptEvidence :=
  mkVerifiedEvidence "" 0 "" 0 0 "" "" "" 0 (mkVerifiedLog "" [] "" 0).

Definition VerifyAuthenticatedReceiptEvidence (chainID : Z) (coordinator authority : string)
    (block : AuthenticatedBlock) (confirmationHeaders : list AuthenticatedHeader)
    (targetIndex requiredDepth : Z) (expectedLog : ExpectedReceiptLog)
    : result error VerifiedReceiptEvidence :=
  if (requiredDepth =? 0) || negb (llen confirmationHeaders =? requiredDepth) ||
     (llen (ab_Receipts block) <=? targetIndex) ||
     negb (targetIndex =? llen (ab_Receipts block) - 1) ||
     negb (canonicalAddress (el_Address expectedLog)) ||
     (el_Address expectedLog <>s coordinator) || (llen (el_Topics expectedLog) =? 0) ||
     negb (forallb canonicalHash (el_Topics expectedLog))
  then Err ErrInvalidHeaderEvidence
  else
    let? (header, receipts, _) := verifyAuthenticatedBlock chainID coordinator authority block in
    if llen receipts <=? targetIndex then Ok zeroEvidence
    else
      let? matched := match_receipt_loop expectedLog targetIndex 0 (ab_Receipts block) 0 None in
      match matched with
      | None => Err ErrInvalidInclusionProof
      | Some matchedLog =>
          let? finalityHead :=
            confirmation_loop chainID coordinator authority header
              (Time.UTC (ab_ObservedAt block)) confirmationHeaders in
          let target := nth (Z.to_nat targetIndex) receipts zeroReceipt in
          Ok (mkVerifiedEvidence (vr_TransactionHash target) (vr_TransactionIndex target)
                (vr_BlockHash target) (vr_BlockNumber target) (timestamp header)
                (vr_ReceiptsRoot target) (vr_InclusionProofHash target) (hash finalityHead)
                (number finalityHead) matchedLog)
      end.
End Blocks.

(** * Two proofs under one root *)

Section Binding.
Context `{Keccak}.

(** A node of one proof collides with a node of the other. *)
Definition nodes_collide (p1 p2 : list string) : Prop := ∃ a b, a ∈ p1 ∧ b ∈ p2 ∧ collides a b.

Lemma matches_same r a b :
  matchesTrieReference r a = true → matchesTrieReference r b = true → a = b ∨ collides a b.
Proof.
  unfold matchesTrieReference. destruct (_ =? 32).
  - intros Ha%String.eqb_eq Hb%String.eqb_eq. apply keccak_cases. congruence.
  - intros Ha Hb. bool_facts. left. congruence.
Qed.

Lemma nodes_collide_cons a p1 p2 : nodes_collide p1 p2 → nodes_collide (a :: p1) (a :: p2).
Proof. intros (x & y & Hx & Hy & Hc). exists x, y. split; [by right|]. split; [by right|done]. Qed.

Lemma trie_loop_binds p1 p2 r key v1 v2 :
  trie_loop r key v1 p1 = true → trie_loop r key v2 p2 = true →
  (v1 = v2 ∧ p1 = p2) ∨ nodes_collide p1 p2.
Proof.
  revert p2 r key. induction p1 as [|a p1 IH]; intros p2 r key; [done|]. destruct p2 as [|b p2]; [done|].
  cbn [trie_loop]. destruct (matchesTrieReference r a) eqn:Ma; [|done].
  destruct (matchesTrieReference r b) eqn:Mb; [|done]. cbn [negb].
  destruct (matches_same _ _ _ Ma Mb) as [<-|Hc];
    [|intros _ _; right; exists a, b; split; [by left|split; [by left|done]]].
  assert (∀ r key, trie_loop r key v1 p1 = true → trie_loop r key v2 p2 = true →
    (v1 = v2 ∧ a :: p1 = a :: p2) ∨ nodes_collide (a :: p1) (a :: p2)) as Hrec.
  { intros r' key' H1 H2. destruct (IH _ _ _ H1 H2) as [[-> ->]|]; [by left|].
    right. by apply nodes_collide_cons. }
  assert (∀ w (x y : bool), x && match p1 with [] => true | _ => false end && negb (isList w) && (payload w =s v1) = true →
    y && match p2 with [] => true | _ => false end && negb (isList w) && (payload w =s v2) = true →
    (v1 = v2 ∧ a :: p1 = a :: p2) ∨ nodes_collide (a :: p1) (a :: p2)) as Hend.
  { intros w x y H1 H2. left. bool_facts. destruct p1, p2; try done. split; congruence. }
  destruct (decodeRLP a) as [[node n]|]; [|done]. destruct (_ || _); [done|].
  destruct (_ =? 17).
  - destruct key as [|nib key]; [apply (Hend _ true true)|].
    destruct (trieReference _); [apply Hrec|done].
  - destruct (_ =? 2); [|done]. destruct (isList _); [done|].
    destruct (decodeCompactPath _) as [[path leaf]|]; [|done]. destruct (_ || _); [done|].
    destruct leaf; [apply Hend|]. destruct (trieReference _); [apply Hrec|done].
Qed.

Lemma verifyTrieInclusion_binds root key v1 v2 p1 p2 :
  verifyTrieInclusion root key v1 p1 = true → verifyTrieInclusion root key v2 p2 = true →
  (v1 = v2 ∧ p1 = p2) ∨ nodes_collide p1 p2.
Proof.
  unfold verifyTrieInclusion. destruct (_ || _); [done|]. intros H1. destruct (_ || _); [done|].
  by apply trie_loop_binds.
Qed.
End Binding.

(** * What a verified block guarantees *)

Lemma in_position_lookup k l i x :
  in_position k l = true → l !! i = Some x → ip_TransactionIndex x = k + Z.of_nat i.
Proof.
  revert k i. induction l as [|y l IH]; intros k i; [done|]. cbn [in_position].
  destruct (Z.eqb_spec (ip_TransactionIndex y) k) as [Hy|]; [|done]. cbn [negb]. intros Hp.
  destruct i as [|i]; simpl; [intros [= <-]; lia|]. intros Hi. rewrite (IH _ _ Hp Hi). lia.
Qed.

Lemma in_position_perm l l' :
  l ≡ₚ l' → in_position 0 l = true → in_position 0 l' = true → l = l'.
Proof.
  intros Hp H1 H2. apply list_eq. intros i.
  destruct (l !! i) as [x|] eqn:Hx.
  - assert (x ∈ l') as [j Hj]%list_elem_of_lookup by (rewrite <- Hp; by eapply list_elem_of_lookup_2).
    pose proof (in_position_lookup _ _ _ _ H1 Hx). pose proof (in_position_lookup _ _ _ _ H2 Hj).
    assert (j = i) as <- by lia. done.
  - apply lookup_ge_None in Hx. symmetry. apply lookup_ge_None. by rewrite <- Hp.
Qed.

Section Verified.
Context `{Keccak, Ed25519}.

Lemma receipt_loop_position c g h s k l gi r e :
  receipt_loop c g h s k l gi = Ok (r, e) → in_position k l = true.
Proof.
  revert k gi r e. induction l as [|p l IH]; intros k gi r e; [done|]. cbn [receipt_loop in_position].
  destruct (proof_accepted h k p) eqn:Hp; cbn [negb]; [|done].
  destruct (decodeReceipt _) as [[st logs]|]; [|done].
  destruct (log_event_loop _ _ _) as [[ev nx]|]; [|done].
  destruct (receipt_loop c g h s (k + 1) l nx) as [[rs es]|] eqn:Hl; [|done].
  intros _. unfold proof_accepted in Hp. bool_facts. rewrite (proj2 (Z.eqb_eq _ _)) by done.
  by eapply IH.
Qed.

Record block_verified (chainID : Z) (gateway authority : string) (block : AuthenticatedBlock)
    (header : evmHeader) (receipts : list verifiedReceipt) (events : list Event) : Prop := {
  bv_header : parseEVMHeader (ab_HeaderRLP block) = Ok header;
  bv_signed : ed25519_Verify authority
    (keccak (signing_input chainID (ab_HeaderRLP block) (ab_ObservedAt block))) (ab_Signature block) = true;
  bv_after : Time.i64 (timestamp header) <= Time.Unix (ab_ObservedAt block);
  bv_observed : 0 < Time.UnixNano (ab_ObservedAt block);
  bv_chain : chainID ≠ 0;
  bv_loop : receipt_loop chainID gateway header (ab_Signature block) 0 (ab_Receipts block) 0
    = Ok (receipts, events) }.

Lemma verifyAuthenticatedBlock_Ok c g a block header receipts events :
  verifyAuthenticatedBlock c g a block = Ok (header, receipts, events) →
  block_verified c g a block header receipts events.
Proof.
  unfold verifyAuthenticatedBlock. destruct (_ || _); [done|].
  destruct (parseEVMHeader _) as [h|] eqn:Hh; [|done].
  destruct (Z.ltb_spec (Time.Unix (ab_ObservedAt block)) (Time.i64 (timestamp h))) as [|Ht]; [done|].
  unfold AuthenticatedHeaderSigningDigest. destruct (_ || _) eqn:Hg; [done|]. rewrite Hh.
  destruct (ed25519_Verify _ _ _) eqn:Hs; [|done]. cbn [negb].
  destruct (in_position 0 (ab_Receipts block)) eqn:Hp; [|done]. cbn [negb].
  destruct (receipt_loop _ _ _ _ _ _ _) as [[rs es]|] eqn:Hl; [|done].
  intros E%Ok_inj. injection E as <- <- <-. bool_facts.
  assert (merge_sort index_le (ab_Receipts block) = ab_Receipts block) as Hm.
  { apply in_position_perm; [apply merge_sort_Permutation|by eapply receipt_loop_position|done]. }
  rewrite Hm in Hl. constructor; try done; lia.
Qed.

(** What is accepted at the head of a list of proofs. *)
Lemma receipt_loop_cons c g h s k p l gi r e :
  receipt_loop c g h s k (p :: l) gi = Ok (r, e) →
  ∃ status logs events next records more,
    proof_accepted h k p = true ∧ decodeReceipt (ip_ReceiptRLP p) = Ok (status, logs) ∧
    log_event_loop (mkLogContext c g h (receipt_record h s status p)) logs gi = Ok (events, next) ∧
    receipt_loop c g h s (k + 1) l next = Ok (records, more) ∧
    r = receipt_record h s status p :: records ∧ e = events ++ more.
Proof.
  cbn [receipt_loop]. destruct (proof_accepted h k p); cbn [negb]; [|done].
  destruct (decodeReceipt _) as [[st logs]|]; [|done].
  destruct (log_event_loop _ _ _) as [[ev nx]|] eqn:El; [|done].
  destruct (receipt_loop c g h s (k + 1) l nx) as [[rs es]|] eqn:Hl; [|done].
  intros E%Ok_inj. injection E as <- <-. by exists st, logs, ev, nx, rs, es.
Qed.
(** * Two blocks under one header *)

(** A node of a proof of one block collides with a node of the proof at the same
    position in the other, or the two headers collide. *)
Definition proofs_collide (l1 l2 : list ReceiptInclusionProof) : Prop :=
  ∃ p1 p2, p1 ∈ l1 ∧ p2 ∈ l2 ∧
    (nodes_collide (ip_TransactionProofNodes p1) (ip_TransactionProofNodes p2) ∨
     nodes_collide (ip_ReceiptProofNodes p1) (ip_ReceiptProofNodes p2)).
Definition blocks_collide (b1 b2 : AuthenticatedBlock) : Prop :=
  collides (ab_HeaderRLP b1) (ab_HeaderRLP b2) ∨ proofs_collide (ab_Receipts b1) (ab_Receipts b2).

Lemma proof_accepted_binds h k p1 p2 :
  proof_accepted h k p1 = true → proof_accepted h k p2 = true →
  p1 = p2 ∨ nodes_collide (ip_TransactionProofNodes p1) (ip_TransactionProofNodes p2) ∨
  nodes_collide (ip_ReceiptProofNodes p1) (ip_ReceiptProofNodes p2).
Proof.
  unfold proof_accepted. intros A1 A2.
  apply andb_true_iff in A1 as [A1 R1]. apply andb_true_iff in A1 as [A1 T1].
  apply andb_true_iff in A2 as [A2 R2]. apply andb_true_iff in A2 as [A2 T2]. bool_facts.
  assert (ip_TransactionIndex p1 = ip_TransactionIndex p2) as Ei by congruence. rewrite Ei in T1, R1.
  destruct (verifyTrieInclusion_binds _ _ _ _ _ _ T1 T2) as [[Et En]|]; [|by right; left].
  destruct (verifyTrieInclusion_binds _ _ _ _ _ _ R1 R2) as [[Er Em]|]; [|by right; right].
  left. destruct p1, p2; simpl in *; congruence.
Qed.

(** Events without the hash of the header's signature, the only field that depends
    on who observed the block and when. *)
Definition unsigned (e : Event) : Event := with_signature_hash "" e.

Lemma log_event_unsigned c g h s1 s2 status p log gi e1 e2 :
  log_event (mkLogContext c g h (receipt_record h s1 status p)) log gi = Ok e1 →
  log_event (mkLogContext c g h (receipt_record h s2 status p)) log gi = Ok e2 →
  unsigned <$> e1 = unsigned <$> e2.
Proof.
  unfold log_event. cbn [lc_record lc_gateway vr_Status receipt_record].
  destruct (_ && _); [|intros <-%Ok_inj <-%Ok_inj; done].
  change (raw_log_of (mkLogContext c g h (receipt_record h s2 status p)) log gi)
    with (raw_log_of (mkLogContext c g h (receipt_record h s1 status p)) log gi).
  cbn [lc_header lc_record vr_TransactionIndex vr_InclusionProofHash vr_HeaderSignatureHash].
  destruct (decodeCanonicalSettlementLog _ _ _ _ _) as [ev|]; [|done].
  intros <-%Ok_inj <-%Ok_inj. reflexivity.
Qed.

Lemma log_event_loop_unsigned c g h s1 s2 status p logs gi e1 n1 e2 n2 :
  log_event_loop (mkLogContext c g h (receipt_record h s1 status p)) logs gi = Ok (e1, n1) →
  log_event_loop (mkLogContext c g h (receipt_record h s2 status p)) logs gi = Ok (e2, n2) →
  n1 = n2 ∧ unsigned <$> e1 = unsigned <$> e2.
Proof.
  revert gi e1 e2. induction logs as [|log logs IH]; intros gi e1 e2; cbn [log_event_loop].
  { intros E1%Ok_inj E2%Ok_inj. by simplify_eq. }
  destruct (MaxUint32 <? gi); [done|]. cbn [lc_record vr_Status receipt_record].
  destruct (_ && _); [done|].
  destruct (log_event _ _ _) as [h1|] eqn:L1; [|done].
  destruct (log_event_loop _ _ _) as [[m1 k1]|] eqn:M1; [|done]. intros E1%Ok_inj.
  destruct (log_event (mkLogContext c g h (receipt_record h s2 status p)) log gi) as [h2|] eqn:L2; [|done].
  destruct (log_event_loop (mkLogContext c g h (receipt_record h s2 status p)) logs _)
    as [[m2 k2]|] eqn:M2; [|done]. intros E2%Ok_inj. simplify_eq.
  destruct (IH _ _ _ M1 M2) as [-> Em]. split; [done|].
  by rewrite !fmap_app, Em, (log_event_unsigned _ _ _ _ _ _ _ _ _ _ _ L1 L2).
Qed.

Lemma receipt_loop_binds c g h s1 s2 k l1 l2 gi r1 e1 r2 e2 :
  (length l1 <= length l2)%nat →
  receipt_loop c g h s1 k l1 gi = Ok (r1, e1) → receipt_loop c g h s2 k l2 gi = Ok (r2, e2) →
  (l1 `prefix_of` l2 ∧ (unsigned <$> e1) `prefix_of` (unsigned <$> e2)) ∨ proofs_collide l1 l2.
Proof.
  revert k l2 gi r1 e1 r2 e2. induction l1 as [|p1 l1 IH]; intros k l2 gi r1 e1 r2 e2 Hlen.
  { intros E%Ok_inj _. simplify_eq. left. split; apply prefix_nil. }
  destruct l2 as [|p2 l2]; [simpl in Hlen; lia|].
  intros (st1 & lg1 & ev1 & nx1 & rc1 & mo1 & A1 & D1 & L1 & R1 & -> & ->)%receipt_loop_cons
    (st2 & lg2 & ev2 & nx2 & rc2 & mo2 & A2 & D2 & L2 & R2 & -> & ->)%receipt_loop_cons.
  destruct (proof_accepted_binds _ _ _ _ A1 A2) as [<-|Hc];
    [|right; exists p1, p2; split; [by left|split; [by left|done]]].
  rewrite D1 in D2. injection D2 as <- <-.
  destruct (log_event_loop_unsigned _ _ _ _ _ _ _ _ _ _ _ _ _ L1 L2) as [<- Ee].
  destruct (IH (k + 1) l2 nx1 _ _ _ _ ltac:(simpl in Hlen; lia) R1 R2) as [[Hl He]|Hc].
  - left. split; [by apply prefix_cons|]. rewrite !fmap_app, Ee. by apply prefix_app.
  - right. destruct Hc as (x & y & Hx & Hy & Hc). exists x, y. split; [by right|]. split; [by right|done].
Qed.

Lemma parseEVMHeader_hash rlp h : parseEVMHeader rlp = Ok h → hash h = hex32 (keccak rlp).
Proof.
  unfold parseEVMHeader. destruct (_ || _); [done|]. destruct (decodeRLP _) as [[v n]|]; [|done].
  destruct (_ || _); [done|]. destruct (_ || _); [done|].
  destruct (rlpUint64 _); [|done]. destruct (rlpUint64 _); [|done]. destruct (_ || _); [done|].
  by intros <-%Ok_inj.
Qed.

(** A block hash determines the evidence. If two authenticated blocks with the
    same header hash are accepted, by whatever authority and with whatever
    signatures, they have the same parsed header, the shorter list of receipts
    (transactions, receipts and proofs) is a prefix of the longer, and so are the
    settlement events decoded from them, up to the signature's hash; otherwise two
    of the supplied byte strings, the headers or two proof nodes, are a Keccak-256
    collision. No one can present two versions of a settlement in one block. *)
Theorem block_evidence_binds (c : Z) (g a1 a2 : string) (b1 b2 : AuthenticatedBlock)
    (h1 h2 : evmHeader) (r1 r2 : list verifiedReceipt) (e1 e2 : list Event) :
  verifyAuthenticatedBlock c g a1 b1 = Ok (h1, r1, e1) →
  verifyAuthenticatedBlock c g a2 b2 = Ok (h2, r2, e2) →
  hash h1 = hash h2 → (length (ab_Receipts b1) <= length (ab_Receipts b2))%nat →
  (h1 = h2 ∧ ab_Receipts b1 `prefix_of` ab_Receipts b2 ∧
   (unsigned <$> e1) `prefix_of` (unsigned <$> e2)) ∨ blocks_collide b1 b2.
Proof using All.
  intros [H1 _ _ _ _ L1]%verifyAuthenticatedBlock_Ok [H2 _ _ _ _ L2]%verifyAuthenticatedBlock_Ok Eh Hlen.
  rewrite (parseEVMHeader_hash _ _ H1), (parseEVMHeader_hash _ _ H2) in Eh.
  apply (inj hex32) in Eh. apply keccak_cases in Eh as [Er|]; [|by right; left].
  rewrite Er, H2 in H1. injection H1 as <-.
  destruct (receipt_loop_binds _ _ _ _ _ _ _ _ _ _ _ _ _ Hlen L1 L2) as [[]|]; [by left|by right; right].
Qed.
(** * Receipt evidence *)

(** The number of logs of a receipt. *)
Definition log_count (p : ReceiptInclusionProof) : Z :=
  match decodeReceipt (ip_ReceiptRLP p) with Ok (_, logs) => llen logs | Err _ => 0 end.

Lemma log_event_loop_next c logs gi e next :
  0 <= gi <= 2 ^ 32 → log_event_loop c logs gi = Ok (e, next) →
  next = gi + llen logs ∧ next <= 2 ^ 32.
Proof.
  revert gi e next. induction logs as [|log logs IH]; intros gi e next Hg; cbn [log_event_loop].
  { intros E%Ok_inj. simplify_eq. unfold llen. simpl. lia. }
  destruct (Z.ltb_spec MaxUint32 gi) as [|Hm]; [done|]. destruct (_ && _); [done|].
  destruct (log_event _ _ _); [|done]. destruct (log_event_loop _ _ _) as [[m k]|] eqn:M; [|done].
  intros E%Ok_inj. simplify_eq. unfold MaxUint32 in Hm. apply IH in M; [|rewrite u64_small; lia].
  rewrite u64_small in M by lia. unfold llen in *. simpl length. lia.
Qed.

Lemma receipt_loop_count c g h s k l gi r e :
  0 <= gi <= 2 ^ 32 → receipt_loop c g h s k l gi = Ok (r, e) →
  gi + Zsum log_count l <= 2 ^ 32 ∧ length r = length l.
Proof.
  revert k gi r e. induction l as [|p l IH]; intros k gi r e Hg.
  { intros E%Ok_inj. simplify_eq. rewrite Zsum_nil. split; [lia|done]. }
  intros (st & lg & ev & nx & rc & mo & A & D & L & R & -> & ->)%receipt_loop_cons.
  apply log_event_loop_next in L as [-> Hn]; [|done].
  apply IH in R as [Hs Hl]; [|unfold llen in *; lia]. rewrite Zsum_cons. unfold log_count at 1. rewrite D.
  simpl length. lia.
Qed.

Lemma equalStrings_eq xs ys : equalStrings xs ys = true → xs = ys.
Proof.
  revert ys. induction xs as [|x xs IH]; intros [|y ys]; try done. cbn [equalStrings].
  destruct (String.eqb_spec x y) as [->|]; cbn [negb]; [|done]. intros Hr. by rewrite (IH ys Hr).
Qed.

Lemma receipt_loop_lookup c g h s k l gi r e (i : nat) q :
  receipt_loop c g h s k l gi = Ok (r, e) → l !! i = Some q →
  proof_accepted h (k + Z.of_nat i) q = true ∧
  ∃ status logs, decodeReceipt (ip_ReceiptRLP q) = Ok (status, logs) ∧
    r !! i = Some (receipt_record h s status q).
Proof.
  revert k gi r e i. induction l as [|p l IH]; intros k gi r e i; [done|].
  intros (st & lg & ev & nx & rc & mo & A & D & L & R & -> & ->)%receipt_loop_cons.
  destruct i as [|i]; cbn [lookup list_lookup].
  - intros [= <-]. rewrite Z.add_0_r. split; [done|]. by exists st, lg.
  - intros Hq. destruct (IH _ _ _ _ _ R Hq) as [Hp Hr].
    replace (k + Z.of_nat (S i)) with (k + 1 + Z.of_nat i) by lia. done.
Qed.

(** Every verified receipt is the record of an accepted proof. *)
Lemma verified_receipt_origin c g a block h rs es r :
  block_verified c g a block h rs es → r ∈ rs →
  ∃ (i : nat) p status logs, ab_Receipts block !! i = Some p ∧ proof_accepted h (Z.of_nat i) p = true ∧
    decodeReceipt (ip_ReceiptRLP p) = Ok (status, logs) ∧ r = receipt_record h (ab_Signature block) status p.
Proof.
  intros Hv [i Hi]%list_elem_of_lookup. pose proof (bv_loop _ _ _ _ _ _ _ Hv) as Hl.
  destruct (receipt_loop_count _ _ _ _ _ _ 0 _ _ ltac:(lia) Hl) as [_ Hlen].
  destruct (lookup_lt_is_Some_2 (ab_Receipts block) i) as [p Hp]; [apply lookup_lt_Some in Hi; lia|].
  destruct (receipt_loop_lookup _ _ _ _ _ _ _ _ _ _ _ Hl Hp) as (Ha & st & lg & Hd & Hr).
  rewrite Hr in Hi. injection Hi as <-. by exists i, p, st, lg.
Qed.

(** A reverted transaction has no logs. *)
Lemma decodeReceipt_reverted encoded logs :
  decodeReceipt encoded = Ok (TransactionReverted, logs) → logs = [].
Proof.
  unfold decodeReceipt. destruct (_ =? 0); [done|]. destruct (decodeRLP _) as [[v n]|]; [|done].
  destruct (_ || _); [done|]. destruct (isList (item_at v 0)); [done|]. destruct (isList (item_at v 1)); [done|].
  destruct (rlpUint64 _); [|done]. destruct (_ || _); [done|].
  destruct (if blen (payload (item_at v 0)) =? 0 then _ else _) as [st|]; [|done].
  destruct (_ || _); [done|]. destruct (_ && _) eqn:Hr; [done|].
  destruct (log_loop _) as [lg|] eqn:Hl; [|done]. intros E%Ok_inj. injection E as -> ->.
  rewrite String.eqb_refl in Hr. cbn [andb] in Hr. apply negb_false_iff, Z.eqb_eq in Hr.
  destruct (items (item_at v 3)) as [|x l]; [|unfold llen in Hr; simpl in Hr; lia].
  cbn [log_loop] in Hl. by apply Ok_inj in Hl.
Qed.

(** The expected log as the evidence reports it. *)
Definition expected_log (x : ExpectedReceiptLog) : VerifiedReceiptLog :=
  mkVerifiedLog (el_Address x) (el_Topics x) (el_Data x) (el_LogIndex x).

Lemma match_log_loop_spec x target status logs gi matched m next :
  0 <= gi → gi + llen logs <= 2 ^ 32 →
  match_log_loop x target status logs gi matched = Ok (m, next) →
  next = gi + llen logs ∧
  (m = matched ∨
   target = true ∧ matched = None ∧ status = TransactionSucceeded ∧ m = Some (expected_log x) ∧
   ∃ k, logs !! k = Some (mkReceiptLog (el_Address x) (el_Topics x) (el_Data x)) ∧
     el_LogIndex x = gi + Z.of_nat k).
Proof.
  revert gi matched. induction logs as [|log logs IH]; intros gi matched Hg Hb; cbn [match_log_loop].
  { intros E%Ok_inj. simplify_eq. unfold llen. simpl. split; [lia|by left]. }
  assert (llen (log :: logs) = 1 + llen logs) as Hc by (unfold llen; simpl length; lia).
  assert (0 <= llen logs) by (unfold llen; lia).
  assert (u64 (gi + 1) = gi + 1) as Hu by (apply u64_small; lia). rewrite Hu.
  destruct (target && _) eqn:Hm.
  - destruct matched as [|]; [done|]. intros [Hn Hc']%IH; [|lia..]. split; [lia|]. right.
    apply andb_true_iff in Hm as [-> Hm]. unfold log_matches in Hm. bool_facts.
    match goal with A : equalStrings _ _ = true |- _ => apply equalStrings_eq in A end.
    destruct Hc' as [->|(_ & [=] & _)]. destruct log as [la lt ld]. simpl in *. subst.
    split_and!; try done. exists 0%nat. split; [done|lia].
  - intros [Hn Hc']%IH; [|lia..]. split; [lia|].
    destruct Hc' as [->|(-> & -> & -> & -> & k & Hk & Hi)]; [by left|]. right. split_and!; try done.
    exists (S k). split; [done|lia].
Qed.

Lemma match_receipt_loop_spec x target index receipts gi m :
  0 <= gi → gi + Zsum log_count receipts <= 2 ^ 32 → index <= target →
  match_receipt_loop x target index receipts gi None = Ok (Some m) →
  m = expected_log x ∧
  ∃ (i k : nat) p logs,
    receipts !! i = Some p ∧ target = index + Z.of_nat i ∧
    decodeReceipt (ip_ReceiptRLP p) = Ok (TransactionSucceeded, logs) ∧
    logs !! k = Some (mkReceiptLog (el_Address x) (el_Topics x) (el_Data x)) ∧
    el_LogIndex x = gi + Zsum log_count (take i receipts) + Z.of_nat k.
Proof.
  revert index gi. induction receipts as [|p receipts IH]; intros index gi Hg Hb Hi; [done|].
  rewrite Zsum_cons in Hb. assert (0 <= Zsum log_count receipts) as Hz0.
  { apply Zsum_nonneg. intros q _. unfold log_count. destruct (decodeReceipt _) as [[? ?]|]; [|done].
    unfold llen. lia. }
  cbn [match_receipt_loop]. unfold log_count at 1 in Hb.
  destruct (decodeReceipt _) as [[st logs]|] eqn:Hd; [|done].
  destruct (match_log_loop _ _ _ _ _ _) as [[m' next]|] eqn:Hl; [|done].
  apply match_log_loop_spec in Hl as [-> Hc]; [|lia..].
  destruct (Z.eqb_spec index target) as [->|Hne].
  - intros ->%Ok_inj. destruct Hc as [[=]|(_ & _ & -> & [= ->] & k & Hk & Hx)]. split; [done|].
    exists 0%nat, k, p, logs. rewrite take_0, Zsum_nil. split_and!; try done; lia.
  - destruct Hc as [->|([=] & _)]. intros Hr. apply IH in Hr; [|unfold llen in *; lia..].
    destruct Hr as (-> & i & k & q & lg & Hq & Ht & Hd' & Hk & Hx). split; [done|].
    exists (S i), k, q, lg. cbn [take]. rewrite Zsum_cons. unfold log_count at 1. rewrite Hd.
    split_and!; try done; lia.
Qed.

(** * The confirmation path *)

(** Every header follows its predecessor by number and by hash. *)
Fixpoint linked (previous : evmHeader) (headers : list evmHeader) : Prop :=
  match headers with
  | [] => True
  | next :: rest =>
      number next = number previous + 1 ∧ parentHash next = hash previous ∧ linked next rest
  end.

(** The last header of a path. *)
Definition path_head (previous : evmHeader) (headers : list evmHeader) : evmHeader :=
  foldl (λ _ next, next) previous headers.

(** The block that the confirmation loop builds around a signed header. *)
Definition header_block (signed : AuthenticatedHeader) : AuthenticatedBlock :=
  mkAuthenticatedBlock (ah_HeaderRLP signed) (ah_ObservedAt signed) (ah_Signature signed) [].

Lemma rlpUint64_range p n : rlpUint64 p = Some n → 0 <= n < 2 ^ 64.
Proof.
  unfold rlpUint64. destruct (_ || _) eqn:Hg; [done|]. apply orb_false_iff in Hg as [Hg%Z.ltb_ge _].
  intros [= <-]. pose proof (be_value_range p) as Hr. unfold blen in Hg.
  assert (256 ^ Z.of_nat (String.length p) <= 256 ^ 8) by (apply Z.pow_le_mono_r; lia). lia.
Qed.

Lemma parseEVMHeader_number rlp h : parseEVMHeader rlp = Ok h → 0 < number h < 2 ^ 64.
Proof.
  unfold parseEVMHeader. destruct (_ || _); [done|]. destruct (decodeRLP _) as [[v n]|]; [|done].
  destruct (_ || _); [done|]. destruct (_ || _); [done|].
  destruct (rlpUint64 (payload (item_at v 8))) as [x|] eqn:Hx; [|done]. destruct (rlpUint64 (payload (item_at v 11))); [|done].
  destruct (_ || _) eqn:Hz; [done|]. apply rlpUint64_range in Hx. apply orb_false_iff in Hz as [Hz%Z.eqb_neq _].
  intros <-%Ok_inj. cbn [number]. lia.
Qed.

Lemma confirmation_loop_spec c g a headers : ∀ previous observed final,
  0 < number previous < 2 ^ 64 →
  confirmation_loop c g a previous observed headers = Ok final →
  ∃ path, Forall2 (λ signed h, block_verified c g a (header_block signed) h [] []) headers path ∧
    linked previous path ∧ path_head previous path = final ∧
    number final = number previous + llen headers.
Proof.
  induction headers as [|signed headers IH]; intros previous observed final Hp; cbn [confirmation_loop].
  { intros <-%Ok_inj. exists []. split_and!; [constructor|done..|unfold llen; simpl; lia]. }
  destruct (Time.Before _ _); [done|].
  destruct (verifyAuthenticatedBlock _ _ _ _) as [[[h r] e]|] eqn:Hv; [|done].
  destruct (_ || _) eqn:Hg; [done|]. bool_facts. intros Hr.
  apply verifyAuthenticatedBlock_Ok in Hv. fold (header_block signed) in Hv.
  pose proof (bv_loop _ _ _ _ _ _ _ Hv) as Hl. cbn [ab_Receipts header_block receipt_loop] in Hl.
  apply Ok_inj in Hl. simplify_eq.
  pose proof (parseEVMHeader_number _ _ (bv_header _ _ _ _ _ _ _ Hv)) as Hn.
  assert (number h = number previous + 1) as Hs.
  { match goal with A : number h = u64 _ |- _ => rewrite A in Hn |- * end.
    destruct (Z.eq_dec (number previous + 1) (2 ^ 64)) as [E|]; [exfalso; rewrite E in Hn; change (u64 (2 ^ 64)) with 0 in Hn; lia|].
    apply u64_small. lia. }
  destruct (IH _ _ _ Hn Hr) as (path & Hf & Hlk & Hlast & Hnum). exists (h :: path).
  split_and!; [by constructor|by split_and!|done|].
  unfold llen in *. simpl length. lia.
Qed.
(** Accepted receipt evidence is what it says. The block's header was signed by
    the authority for this chain; the target is the last of the supplied receipts
    and all receipts before it are supplied and proven, at consecutive transaction
    indexes, under the header's roots; the target's receipt reports success and
    holds exactly the expected log (address, topics, data), at the block-global log
    index that follows from counting the logs before it; and exactly the required
    number of further headers, each signed by the authority, extend the block one
    by one, by number and parent hash, up to the reported finality head. *)
Theorem receipt_evidence_sound (c : Z) (coordinator authority : string) (block : AuthenticatedBlock)
    (headers : list AuthenticatedHeader) (target depth : Z) (x : ExpectedReceiptLog)
    (ev : VerifiedReceiptEvidence) :
  0 <= target →
  VerifyAuthenticatedReceiptEvidence c coordinator authority block headers target depth x = Ok ev →
  ∃ header receipts events path,
    block_verified c coordinator authority block header receipts events ∧
    (∃ prefix p logs k,
       ab_Receipts block = prefix ++ [p] ∧ target = llen prefix ∧
       (∀ i q, ab_Receipts block !! i = Some q → proof_accepted header (Z.of_nat i) q = true) ∧
       decodeReceipt (ip_ReceiptRLP p) = Ok (TransactionSucceeded, logs) ∧
       logs !! k = Some (mkReceiptLog coordinator (el_Topics x) (el_Data x)) ∧
       el_LogIndex x = Zsum log_count prefix + Z.of_nat k ∧
       ve_TransactionHash ev = hex32 (keccak (ip_TransactionRLP p))) ∧
    ve_Log ev = expected_log x ∧ ve_TransactionIndex ev = target ∧
    ve_BlockHash ev = hash header ∧ ve_BlockNumber ev = number header ∧
    ve_ReceiptsRoot ev = receiptsRoot header ∧
    length headers = Z.to_nat depth ∧ 0 < depth ∧
    Forall2 (λ signed h, block_verified c coordinator authority (header_block signed) h [] [])
      headers path ∧
    linked header path ∧ ve_FinalityHeadHash ev = hash (path_head header path) ∧
    ve_FinalityHeadNumber ev = number header + depth.
Proof using All.
  intros Ht0. unfold VerifyAuthenticatedReceiptEvidence. destruct (_ || _) eqn:Hg; [done|]. bool_facts.
  destruct (verifyAuthenticatedBlock _ _ _ _) as [[[h rs] es]|] eqn:Hv; [|done].
  apply verifyAuthenticatedBlock_Ok in Hv. pose proof (bv_loop _ _ _ _ _ _ _ Hv) as Hl.
  destruct (receipt_loop_count _ _ _ _ _ _ 0 _ _ ltac:(lia) Hl) as [Hcount Hlen].
  destruct (_ <=? target) eqn:Ht; [apply Z.leb_le in Ht; unfold llen in *; lia|].
  destruct (match_receipt_loop _ _ _ _ _ _) as [[m|]|] eqn:Hm; [|done..].
  apply match_receipt_loop_spec in Hm as (-> & i & k & p & logs & Hp & -> & Hd & Hk & Hx); [|lia..].
  destruct (confirmation_loop _ _ _ _ _ _) as [final|] eqn:Hf; [|done].
  apply confirmation_loop_spec in Hf as (path & Hpath & Hlink & Hhead & Hnum);
    [|by eapply parseEVMHeader_number, bv_header].
  destruct (receipt_loop_lookup _ _ _ _ _ _ _ _ _ _ _ Hl Hp) as (Ha & st & lg & Hd' & Hr).
  rewrite Z.add_0_l, Nat2Z.id, (nth_lookup_Some _ _ _ _ Hr).
  intros <-%Ok_inj. exists h, rs, es, path. split; [done|]. split.
  - exists (take i (ab_Receipts block)), p, logs, k.
    assert (length (ab_Receipts block) = S i) as Hsi by (unfold llen in *; lia). split_and!; try done.
    + rewrite <- (take_drop i (ab_Receipts block)) at 1. f_equal.
      rewrite (drop_S _ _ _ Hp), drop_ge by lia. done.
    + unfold llen. rewrite length_take. lia.
    + intros j q Hq. by apply (receipt_loop_lookup _ _ _ _ _ _ _ _ _ _ _ Hl Hq).
    + congruence.
  - pose proof Ha as Ha'. unfold proof_accepted in Ha'. bool_facts. cbn.
    unfold llen in *. split_and!; try done; try lia; congruence.
Qed.
End Verified.
