(* ===== verification/Trie.v ===== *)
(** Merkle-Patricia tries: a reference definition of the data structure and of the
    paths through it, and the theorem that [verifyTrieInclusion] of [EvmProof]
    accepts exactly the paths of the trie with the given root. *)
From S2P Require Import Prelude GoStd CrossChainTypes ChainTypes Rlp Gateway EvmProof.
From S2P Require Message.
#[local] Set Warnings "-register-all".

(** * The data structure *)

Inductive mpt :=
| Leaf (path : list Z) (value : string)
| Ext (path : list Z) (child : mpt)
| Branch (children : list (option mpt)) (value : string).

Definition nibbles (l : list Z) : Prop := Forall (λ n, 0 <= n < 16) l.

(** Two nibbles a byte. *)
Fixpoint pack (l : list Z) : string :=
  match l with
  | a :: b :: r => String (byte_of (a * 16 + b)) (pack r)
  | _ => ""%string
  end.

(** The hex-prefix encoding of a path. *)
Definition compact (path : list Z) (leaf : bool) : string :=
  let flag := if leaf then 2 else 0 in
  pack ((if Nat.odd (length path) then [flag + 1] else [flag; 0]) ++ path).

Section Encoding.
Context `{Keccak}.

(** How a parent refers to a child: the child itself when it is short. *)
Definition ref_of (x : item) : item :=
  if blen (rlp_encode x) <? 32 then x else Str (keccak (rlp_encode x)).

Fixpoint node_item (t : mpt) : item :=
  match t with
  | Leaf path value => Lst [Str (compact path true); Str value]
  | Ext path child => Lst [Str (compact path false); ref_of (node_item child)]
  | Branch children value =>
      Lst (map (λ c, match c with Some c => ref_of (node_item c) | None => Str "" end) children
           ++ [Str value])
  end.

Definition enc (t : mpt) : string := rlp_encode (node_item t).
Definition ref_opt (c : option mpt) : item :=
  match c with Some c => ref_of (node_item c) | None => Str "" end.

(** Sixteen children a branch, nibbles for paths, nodes within the codec's limits. *)
Inductive wf : mpt → Prop :=
| wf_leaf path value :
    nibbles path → within 65 (node_item (Leaf path value)) → wf (Leaf path value)
| wf_ext path child :
    nibbles path → within 65 (node_item (Ext path child)) → wf child → wf (Ext path child)
| wf_branch children value :
    length children = 16%nat → within 65 (node_item (Branch children value)) →
    (∀ c, Some c ∈ children → wf c) → wf (Branch children value).

(** [leads t key nodes value]: in [t] the key leads to the value through the nodes. A branch
    whose value slot is empty counts as holding the empty string, as [verifyTrieInclusion]
    treats it; in a Merkle-Patricia trie such a branch holds no value for the key. The caller
    refuses empty transactions and receipts first, so it never meets the difference. *)
Inductive leads : mpt → list Z → list string → string → Prop :=
| leads_leaf path value : leads (Leaf path value) path [enc (Leaf path value)] value
| leads_ext path child key nodes value :
    leads child key nodes value →
    leads (Ext path child) (path ++ key) (enc (Ext path child) :: nodes) value
| leads_here children value : leads (Branch children value) [] [enc (Branch children value)] value
| leads_child children w (n : nat) child key nodes value :
    children !! n = Some (Some child) → leads child key nodes value →
    leads (Branch children w) (Z.of_nat n :: key) (enc (Branch children w) :: nodes) value.

Inductive subtree : mpt → mpt → Prop :=
| st_refl t : subtree t t
| st_ext s path child : subtree s child → subtree s (Ext path child)
| st_branch s children value c :
    Some c ∈ children → subtree s c → subtree s (Branch children value).

(** * Paths *)

Lemma nibble_byte a b : 0 <= a < 16 → 0 <= b < 16 →
  Z.shiftr (byte_value (byte_of (a * 16 + b))) 4 = a ∧
  Z.land (byte_value (byte_of (a * 16 + b))) 15 = b.
Proof.
  intros Ha Hb. rewrite byte_value_of, Z.mod_small by lia.
  rewrite Z.shiftr_div_pow2 by lia. change 15 with (Z.ones 4). rewrite Z.land_ones by lia.
  change (2 ^ 4) with 16. split; [rewrite Z.div_add_l by lia; rewrite Z.div_small; lia|].
  rewrite Z.add_comm, Z.mod_add, Z.mod_small; lia.
Qed.

Lemma bytesToNibbles_pack l :
  nibbles l → Nat.even (length l) = true → bytesToNibbles (pack l) = l.
Proof.
  induction l as [l IH] using (induction_ltof1 _ (@length Z)). unfold ltof in IH.
  intros Hn He. destruct l as [|a [|b r]]; [done|done|].
  apply Forall_cons in Hn as [Ha Hn]. apply Forall_cons in Hn as [Hb Hn].
  cbn [pack bytesToNibbles]. destruct (nibble_byte a b Ha Hb) as [-> ->].
  by rewrite IH by (simpl in *; try lia; done).
Qed.

Lemma decodeCompactPath_compact path leaf :
  nibbles path → decodeCompactPath (compact path leaf) = Some (path, leaf).
Proof.
  intros Hp. unfold decodeCompactPath, compact.
  destruct (Nat.odd (length path)) eqn:Ho.
  - rewrite bytesToNibbles_pack.
    + cbn [app]. by destruct leaf.
    + constructor; [destruct leaf; lia|done].
    + cbn [app length]. by rewrite Nat.even_succ.
  - rewrite bytesToNibbles_pack.
    + cbn [app]. by destruct leaf.
    + repeat (constructor; [destruct leaf; lia|]). done.
    + cbn [app length]. rewrite Nat.even_succ, Nat.odd_succ, <- Nat.negb_odd, Ho. done.
Qed.

Lemma bytesToNibbles_range s : nibbles (bytesToNibbles s).
Proof.
  induction s as [|c s IH]; [constructor|]. cbn [bytesToNibbles].
  pose proof (byte_value_range c). constructor; [|constructor; [|done]].
  - rewrite Z.shiftr_div_pow2 by lia. change (2 ^ 4) with 16.
    split; [apply Z.div_pos; lia|apply Z.div_lt_upper_bound; lia].
  - change 15 with (Z.ones 4). rewrite Z.land_ones by lia. apply Z.mod_pos_bound. lia.
Qed.

Lemma wf_within t : wf t → within 65 (node_item t).
Proof. by destruct 1. Qed.

Lemma leads_functional t key n1 v1 n2 v2 :
  leads t key n1 v1 → leads t key n2 v2 → n1 = n2 ∧ v1 = v2.
Proof.
  intros H1. revert n2 v2. induction H1 as [|p c key nodes v H1 IH| |cs w n c key nodes v Hn H1 IH];
    intros n2 v2 H2; inversion H2; subst; try done.
  - match goal with A : _ ++ _ = _ ++ _ |- _ => apply app_inv_head in A; subst end.
    edestruct IH; [eassumption|]. by subst.
  - match goal with A : Z.of_nat _ = Z.of_nat _ |- _ => apply Nat2Z.inj in A; subst end.
    rewrite Hn in *. simplify_eq. edestruct IH; [eassumption|]. by subst.
Qed.

(** * References *)

Definition refers (r : string) (t : mpt) : Prop :=
  r = keccak (enc t) ∨ (blen (enc t) < 32 ∧ r = enc t).

Lemma keccak_blen s : blen (keccak s) = 32.
Proof. unfold blen. by rewrite keccak_length. Qed.

Lemma refers_matches r t e :
  refers r t → matchesTrieReference r e = true → e = enc t ∨ collides e (enc t).
Proof.
  unfold matchesTrieReference. intros [->|[Hl ->]].
  - rewrite keccak_blen. intros E%String.eqb_eq. apply keccak_cases. congruence.
  - rewrite (proj2 (Z.eqb_neq _ _)) by lia. intros Hm. bool_facts. by left.
Qed.

Lemma matches_refers r t : refers r t → 0 < blen (enc t) → matchesTrieReference r (enc t) = true.
Proof.
  unfold matchesTrieReference. intros [->|[Hl ->]] Hp.
  - by rewrite keccak_blen, String.eqb_refl.
  - rewrite (proj2 (Z.eqb_neq _ _)), (proj2 (Z.ltb_lt 0 _)), (proj2 (Z.ltb_lt _ 32)), String.eqb_refl by lia.
    done.
Qed.

Lemma node_item_list t : ∃ l, node_item t = Lst l.
Proof. destruct t; eexists; reflexivity. Qed.

Lemma isList_item w : isList w = match item_of w with Lst _ => true | Str _ => false end.
Proof. by destruct w as [r p l []]. Qed.

Lemma payload_item w s : item_of w = Str s → payload w = s.
Proof. destruct w as [r p l []]; [done|]. by intros [= ->]. Qed.

Lemma items_item w l : item_of w = Lst l → map item_of (items w) = l.
Proof. destruct w as [r p k []]; [|done]. by intros [= <-]. Qed.

(** Following a reference out of a decoded node. *)
Lemma trieReference_child w t :
  exact w → item_of w = ref_of (node_item t) → ∃ r, trieReference w = Some r ∧ refers r t.
Proof.
  intros Hx Hi. unfold trieReference, exact in *. rewrite isList_item, Hx, Hi. unfold ref_of.
  destruct (Z.ltb_spec (blen (rlp_encode (node_item t))) 32) as [Hs|Hs].
  - destruct (node_item_list t) as [l Hl]. rewrite Hl. rewrite <- Hl.
    rewrite (proj2 (Z.leb_gt _ _)) by lia. eexists. split; [done|]. right. done.
  - unfold ref_of in Hi. rewrite (proj2 (Z.ltb_ge _ _)) in Hi by lia. apply payload_item in Hi.
    rewrite Hi, keccak_blen. eexists. split; [done|]. by left.
Qed.

Lemma trieReference_none w : item_of w = Str "" → trieReference w = None.
Proof.
  intros Hi. unfold trieReference. rewrite isList_item, Hi. by rewrite (payload_item _ _ Hi).
Qed.

(** The decoded form of a node. *)
Record node_of (t : mpt) (node : rlpValue) : Prop := {
  no_list : isList node = true;
  no_exact : Forall exact (items node);
  no_items : Lst (map item_of (items node)) = node_item t }.

Lemma decode_node t :
  wf t → ∃ node, decodeRLP (enc t) = Ok (node, blen (enc t)) ∧ node_of t node.
Proof.
  intros Hw%wf_within. destruct (decodeRLP_encode _ Hw) as (v & Hv & Ev). exists v. split; [done|].
  destruct (node_item_list t) as [l Hl]. rewrite Hl in Ev. split.
  - by rewrite isList_item, Ev.
  - by eapply decodeRLP_exact.
  - by rewrite (items_item _ _ Ev).
Qed.

Lemma item_at_of node l i x :
  map item_of (items node) = l → l !! i = Some x → Forall exact (items node) →
  item_of (item_at node i) = x ∧ exact (item_at node i).
Proof.
  intros <- Hi Hx. change (item_of <$> items node) with (map item_of (items node)) in *.
  rewrite list_lookup_fmap in Hi. destruct (items node !! i) as [w|] eqn:Ew; [|done].
  injection Hi as <-. unfold item_at. rewrite (nth_lookup_Some _ _ _ _ Ew).
  split; [done|]. by eapply Forall_lookup_1.
Qed.
(** * One step of the verifier *)

Lemma path_matches (key path : list Z) :
  (llen key <? llen path) || negb (bool_decide (take (length path) key = path)) = false ↔
  ∃ key', key = path ++ key'.
Proof.
  rewrite orb_false_iff, negb_false_iff, bool_decide_eq_true, Z.ltb_ge. unfold llen. split.
  - intros [_ Ht]. exists (drop (length path) key). rewrite <- Ht at 1. by rewrite take_drop.
  - intros [key' ->]. rewrite length_app, take_app_length. split; [lia|done].
Qed.

Lemma ends_here (rest : list string) (w : rlpValue) value expected :
  item_of w = Str value →
  (match rest with [] => true | _ => false end && negb (isList w) && (payload w =s expected)) = true ↔
  rest = [] ∧ value = expected.
Proof.
  intros Hi. rewrite isList_item, Hi, (payload_item _ _ Hi). rewrite !andb_true_iff, String.eqb_eq.
  destruct rest; naive_solver.
Qed.

Lemma step_short t node key expected rest path (child : option mpt) value :
  node_of t node → nibbles path →
  node_item t = Lst [Str (compact path (negb (bool_decide (is_Some child))));
                     match child with Some c => ref_of (node_item c) | None => Str value end] →
  ∀ r, matchesTrieReference r (enc t) = true → decodeRLP (enc t) = Ok (node, blen (enc t)) →
  trie_loop r key expected (enc t :: rest) = true ↔
  ∃ key', key = path ++ key' ∧
    match child with
    | None => key' = [] ∧ rest = [] ∧ value = expected
    | Some c => ∃ r, trieReference (item_at node 1) = Some r ∧ refers r c ∧
                     trie_loop r key' expected rest = true
    end.
Proof.
  intros [Hl Hx Hi] Hp Ht r Hm Hd. rewrite Ht in Hi. injection Hi as Hi.
  destruct (item_at_of node _ 0 _ Hi eq_refl Hx) as [I0 _].
  destruct (item_at_of node _ 1 _ Hi eq_refl Hx) as [I1 X1].
  cbn [trie_loop]. rewrite Hm, Hd, Hl, Z.eqb_refl. cbn [negb orb].
  assert (llen (items node) = 2) as -> by (apply (f_equal length) in Hi; rewrite length_map in Hi;
    unfold llen; rewrite Hi; done).
  change (2 =? 17) with false. change (2 =? 2) with true. cbv iota.
  rewrite isList_item, I0, (payload_item _ _ I0), decodeCompactPath_compact by done.
  destruct (_ || _) eqn:Hk.
  { split; [done|]. intros (key' & -> & _). exfalso.
    assert (∃ k, path ++ key' = path ++ k) as Hk'%path_matches by eauto. congruence. }
  apply path_matches in Hk as [key' ->]. rewrite drop_app_length. destruct child as [c|]; cbn [is_Some] in *.
  - destruct (trieReference_child _ c X1 I1) as (rc & Hr & Href). rewrite Hr.
    rewrite bool_decide_eq_true_2 by done. cbn [negb]. split.
    + intros Hn. exists key'. split; [done|]. by exists rc.
    + intros (k & Hk%app_inv_head & r' & [= <-] & _ & Hn). by subst.
  - rewrite bool_decide_eq_false_2 by (by intros [? [=]]). cbn [negb].
    rewrite <- !andb_assoc, (andb_assoc _ (negb _)), andb_true_iff, (ends_here rest _ value) by done. split.
    + intros [Hk' [-> ->]]. exists key'. split; [done|]. by destruct key'.
    + intros (k & Hk%app_inv_head & -> & -> & ->). by subst.
Qed.
Lemma step_branch children w node key expected rest :
  node_of (Branch children w) node → length children = 16%nat → nibbles key →
  let t := Branch children w in
  ∀ r, matchesTrieReference r (enc t) = true → decodeRLP (enc t) = Ok (node, blen (enc t)) →
  trie_loop r key expected (enc t :: rest) = true ↔
  (key = [] ∧ rest = [] ∧ w = expected) ∨
  ∃ (n : nat) child key' r, key = Z.of_nat n :: key' ∧ children !! n = Some (Some child) ∧
    trieReference (item_at node n) = Some r ∧ refers r child ∧
    trie_loop r key' expected rest = true.
Proof.
  intros [Hl Hx Hi] Hc Hn t r Hm Hd. cbn [node_item] in Hi. injection Hi as Hi.
  change (map (λ c, match c with Some c => ref_of (node_item c) | None => Str "" end) children)
    with (ref_opt <$> children) in Hi.
  assert (∀ i x, (ref_opt <$> children) !! i = Some x →
    item_of (item_at node i) = x ∧ exact (item_at node i)) as Hat.
  { intros i x Hx'. eapply item_at_of; [exact Hi|by apply lookup_app_l_Some|done]. }
  assert (item_of (item_at node 16) = Str w) as I16.
  { eapply item_at_of; [exact Hi| |done]. rewrite lookup_app_r by (rewrite length_fmap; lia).
    by rewrite length_fmap, Hc. }
  cbn [trie_loop]. rewrite Hm, Hd, Hl, Z.eqb_refl. cbn [negb orb].
  assert (llen (items node) = 17) as ->.
  { apply (f_equal length) in Hi. rewrite length_map, length_app, length_fmap, Hc in Hi.
    unfold llen. by rewrite Hi. }
  rewrite Z.eqb_refl. destruct key as [|nib key].
  { rewrite (ends_here rest _ w) by done. split; [by left|]. intros [(_ & ? & ?)|(? & ? & ? & ? & [=] & _)].
    done. }
  apply Forall_cons in Hn as [Hnib _]. split.
  - destruct (trieReference _) as [rc|] eqn:Hr; [|done]. intros Hnext. right.
    destruct (lookup_lt_is_Some_2 children (Z.to_nat nib)) as [[c|] Hch]; [lia| |].
    + destruct (Hat (Z.to_nat nib) (ref_opt (Some c))) as [Ic Xc]; [by rewrite list_lookup_fmap, Hch|].
      destruct (trieReference_child _ c Xc Ic) as (rc' & Hr' & Href). rewrite Hr in Hr'. injection Hr' as <-.
      exists (Z.to_nat nib), c, key, rc. rewrite Z2Nat.id by lia. done.
    + exfalso. destruct (Hat (Z.to_nat nib) (ref_opt None)) as [Ic _]; [by rewrite list_lookup_fmap, Hch|].
      by rewrite (trieReference_none _ Ic) in Hr.
  - intros [[[=] _]|(n & c & key' & rc & [= -> ->] & Hch & Hr & _ & Hnext)].
    by rewrite Nat2Z.id, Hr.
Qed.

(** * Soundness and completeness of the loop *)

Definition proof_collides (t : mpt) (proof : list string) : Prop :=
  ∃ node s, node ∈ proof ∧ subtree s t ∧ collides node (enc s).

Lemma proof_collides_child t c node proof :
  (∀ s, subtree s c → subtree s t) → proof_collides c proof → proof_collides t (node :: proof).
Proof. intros Hs (a & s & Ha & Hst & Hc). exists a, s. split; [by right|]. auto. Qed.

Lemma trie_loop_sound proof r t key expected :
  wf t → refers r t → nibbles key → trie_loop r key expected proof = true →
  leads t key proof expected ∨ proof_collides t proof.
Proof.
  revert r t key. induction proof as [|node rest IH]; intros r t key Hw Hr Hk Hv; [done|].
  destruct (matchesTrieReference r node) eqn:Hm; [|by cbn [trie_loop] in Hv; rewrite Hm in Hv].
  destruct (refers_matches _ _ _ Hr Hm) as [->|Hc];
    [|right; exists node, t; split; [by left|split; [constructor|done]]].
  destruct (decode_node t Hw) as (v & Hd & Hn).
  assert (∀ c r' key', wf c → refers r' c → nibbles key' → trie_loop r' key' expected rest = true →
    (∀ s, subtree s c → subtree s t) →
    leads c key' rest expected ∨ proof_collides t (enc t :: rest)) as Hchild.
  { intros c r' key' Hwc Hrc Hkc Hnext Hs. destruct (IH _ _ _ Hwc Hrc Hkc Hnext) as [|Hcol]; [by left|].
    right. by eapply proof_collides_child. }
  destruct Hw as [path value Hp _|path c Hp _ Hwc|children w Hlen _ Hwc].
  - eapply (step_short _ _ _ _ _ path None value) in Hv as (key' & -> & -> & -> & ->); try done.
    rewrite app_nil_r. left. constructor.
  - eapply (step_short _ _ _ _ _ path (Some c) "") in Hv as (key' & -> & rc & _ & Hrc & Hnext); try done.
    apply Forall_app in Hk as [_ Hk].
    destruct (Hchild c rc key' Hwc Hrc Hk Hnext) as [|]; [by constructor|left; by constructor|by right].
  - eapply step_branch in Hv as [(-> & -> & ->)|(n & c & key' & rc & -> & Hch & _ & Hrc & Hnext)]; try done.
    + left. constructor.
    + apply Forall_cons in Hk as [_ Hk]. assert (Some c ∈ children) by (by eapply list_elem_of_lookup_2).
      destruct (Hchild c rc key' (Hwc _ ltac:(done)) Hrc Hk Hnext) as [|];
        [intros; by eapply st_branch|left; by econstructor|by right].
Qed.

Lemma enc_nonempty t : wf t → 0 < blen (enc t).
Proof. intros Hw%wf_within. apply rlp_encode_nonempty in Hw. unfold enc. lia. Qed.

Lemma trie_loop_complete t key proof expected :
  leads t key proof expected → ∀ r, wf t → refers r t → nibbles key →
  trie_loop r key expected proof = true.
Proof.
  induction 1 as [path value|path c key nodes value Hl IH|children value
                 |children w n c key nodes value Hch Hl IH]; intros r Hw Hr Hk.
  all: destruct (decode_node _ Hw) as (v & Hd & Hn);
    pose proof (matches_refers _ _ Hr (enc_nonempty _ Hw)) as Hm; inversion Hw; subst.
  - eapply (step_short _ _ _ _ _ path None value); try done. exists []. by rewrite app_nil_r.
  - eapply (step_short _ _ _ _ _ path (Some c) ""); try done. exists key. split; [done|].
    apply Forall_app in Hk as [_ Hk]. destruct Hn as [_ Hx Hi]. injection Hi as Hi.
    destruct (item_at_of v _ 1 _ Hi eq_refl Hx) as [I1 X1].
    destruct (trieReference_child _ c X1 I1) as (rc & Hrc & Href). exists rc. auto.
  - eapply step_branch; try done. by left.
  - eapply step_branch; try done. right. apply Forall_cons in Hk as [_ Hk].
    destruct Hn as [_ Hx Hi]. injection Hi as Hi.
    destruct (item_at_of v _ n (ref_opt (Some c)) Hi) as [In Xn]; [|done|].
    { apply lookup_app_l_Some. change (map ?f children) with (f <$> children).
      by rewrite list_lookup_fmap, Hch. }
    destruct (trieReference_child _ c Xn In) as (rc & Hrc & Href).
    exists n, c, key, rc. split_and!; try done. apply IH; try done.
    match goal with A : ∀ c, Some c ∈ children → wf c |- _ => apply A end. by eapply list_elem_of_lookup_2.
Qed.

(** C38: the inclusion verifier is exact. For every well-formed Merkle-Patricia trie
    and the hash of its root node, the verifier accepts a value and a proof of
    admissible size exactly when the proof is the path of nodes along which the key
    leads to that value; the only other proofs it can accept contain a node that
    collides, under Keccak-256, with a node of the trie. A key leads to at most one
    value by at most one path. *)
Theorem trie_proofs_exact (t : mpt) (key expected : string) (proof : list string) :
  wf t →
  (verifyTrieInclusion (keccak (enc t)) key expected proof = true →
     leads t (bytesToNibbles key) proof expected ∨ proof_collides t proof) ∧
  (leads t (bytesToNibbles key) proof expected → validProofSize proof = true →
     verifyTrieInclusion (keccak (enc t)) key expected proof = true) ∧
  (∀ proof' value, leads t (bytesToNibbles key) proof expected →
     leads t (bytesToNibbles key) proof' value → proof' = proof ∧ value = expected).
Proof using All.
  intros Hw. unfold verifyTrieInclusion. rewrite keccak_blen, Z.eqb_refl. cbn [negb orb]. split_and!.
  - destruct (negb _); [done|]. apply trie_loop_sound; [done|by left|apply bytesToNibbles_range].
  - intros Hl ->. cbn [negb]. eapply trie_loop_complete; [done..|by left|apply bytesToNibbles_range].
  - intros proof' value H1 H2. destruct (leads_functional _ _ _ _ _ _ H1 H2). by subst.
Qed.
End Encoding.

(** A boolean form of [within]. *)
Fixpoint withinb (budget : nat) (x : item) : bool :=
  match budget with
  | O => false
  | S budget =>
      match x with
      | Str s => blen s <=? MaxInt
      | Lst l => forallb (withinb budget) l && (Z.of_nat (length l) <=? maxRLPListItems) &&
                 (blen (concat_all (map rlp_encode l)) <=? MaxInt)
      end
  end.

Lemma withinb_within budget x : withinb budget x = true → within budget x.
Proof.
  revert x. induction budget as [|b IH]; [done|]. intros [s|l]; cbn [withinb within].
  - by intros ?%Z.leb_le.
  - rewrite !andb_true_iff, !Z.leb_le, forallb_forall. intros [[Hl Hn] Hm]. split_and!; [|done..].
    intros y Hy. apply IH, Hl. by apply list_elem_of_In.
Qed.

(** * A concrete trie *)

Module Sample.
#[local] Existing Instance Message.Sample.toy_keccak.

Definition value : string := be_bytes 40 77.
Definition leaf : mpt := Leaf [0] value.
Definition trie : mpt := Branch (replicate 8 None ++ [Some leaf] ++ replicate 7 None) "".

Lemma trie_wf : wf trie.
Proof.
  constructor; [done|by apply withinb_within; vm_compute|].
  intros c Hc. repeat (apply elem_of_cons in Hc as [Hc|Hc]; [simplify_eq|]); [|by inversion Hc].
  constructor; [apply Forall_singleton; lia|by apply withinb_within; vm_compute].
Qed.

Lemma trie_proofs_exact_witness :
  verifyTrieInclusion (keccak (enc trie)) (rlpEncodeUint 0) value [enc trie; enc leaf] = true ∧
  (leads trie (bytesToNibbles (rlpEncodeUint 0)) [enc trie; enc leaf] value ∨
   proof_collides trie [enc trie; enc leaf]).
Proof.
  assert (leads trie (bytesToNibbles (rlpEncodeUint 0)) [enc trie; enc leaf] value) as Hl.
  { apply (leads_child _ _ 8 leaf [0] [enc leaf]); [reflexivity|constructor]. }
  destruct (trie_proofs_exact trie (rlpEncodeUint 0) value [enc trie; enc leaf] trie_wf) as (H1 & H2 & _).
  assert (verifyTrieInclusion (keccak (enc trie)) (rlpEncodeUint 0) value [enc trie; enc leaf] = true)
    as Hv by (apply H2; [exact Hl|vm_compute; reflexivity]).
  split; [exact Hv|exact (H1 Hv)].
Defined.

(** ** A block with one settlement, and two headers on top of it *)

#[export] Instance toy_ed25519 : Ed25519 := λ _ _ signature, signature =s be_bytes 64 5.

Definition authority : string := be_bytes 32 9.
Definition policy_hash : string :=
  match ComputeFinalityPolicyHash 1 Gateway.Sample.gateway 2 authority with
  | Ok h => bytes_of_hex h | Err _ => ""%string end.

Definition receipt_rlp : string :=
  rlp_encode (Lst [Str (be_bytes 1 1); Str (be_bytes 1 9); Str (be_bytes 256 0);
    Lst [Lst [Str (be_bytes 20 7); Lst (map (λ t, Str (bytes_of_hex t)) Gateway.Sample.topics);
              Str (Gateway.Sample.data policy_hash)]]]).
Definition tx_rlp : string := be_bytes 50 3.
Definition tx_trie : mpt := Leaf [8; 0] tx_rlp.
Definition receipt_trie : mpt := Leaf [8; 0] receipt_rlp.

Definition header_rlp (parent txRoot receiptRoot : string) (n : Z) : string :=
  rlp_encode (Lst [Str parent; Str ""; Str ""; Str ""; Str txRoot; Str receiptRoot; Str ""; Str "";
    Str (min_bytes n); Str ""; Str ""; Str (be_bytes 2 1000)]).
Definition at_second (n : Z) : Time.t := Time.mk ((Time.unix_epoch + n) * 1000000000) "".

Definition header1 : string := header_rlp (be_bytes 32 0) (keccak (enc tx_trie)) (keccak (enc receipt_trie)) 1.
Definition header2 : string := header_rlp (keccak header1) (be_bytes 32 0) (be_bytes 32 0) 2.
Definition header3 : string := header_rlp (keccak header2) (be_bytes 32 0) (be_bytes 32 0) 3.

Definition block1 (proofs : list ReceiptInclusionProof) : AuthenticatedBlock :=
  mkAuthenticatedBlock header1 (at_second 2000) (be_bytes 64 5) proofs.
Definition proof1 : ReceiptInclusionProof :=
  mkReceiptProof 0 tx_rlp [enc tx_trie] receipt_rlp [enc receipt_trie].
Definition confirmations : list AuthenticatedHeader :=
  [mkAuthenticatedHeader header2 (at_second 2001) (be_bytes 64 5);
   mkAuthenticatedHeader header3 (at_second 2002) (be_bytes 64 5)].
Definition expected : ExpectedReceiptLog :=
  mkExpectedLog Gateway.Sample.gateway Gateway.Sample.topics (Gateway.Sample.data policy_hash) 0.

Lemma block1_accepted :
  match verifyAuthenticatedBlock 1 Gateway.Sample.gateway authority (block1 [proof1]) with
  | Ok (h, _, [e]) => (ev_GrossUnits e =s "100") && (number h =? 1)
  | _ => false
  end = true.
Proof. vm_compute. reflexivity. Qed.

Lemma evidence_accepted :
  is_ok (VerifyAuthenticatedReceiptEvidence 1 Gateway.Sample.gateway authority (block1 [proof1])
           confirmations 0 2 expected) = true.
Proof. vm_compute. reflexivity. Qed.

Lemma bare_block_accepted :
  is_ok (verifyAuthenticatedBlock 1 Gateway.Sample.gateway authority (block1 [])) = true.
Proof. vm_compute. reflexivity. Qed.

Lemma block_evidence_binds_witness :
  ∃ h1 h2 r1 r2 e1 e2,
    verifyAuthenticatedBlock 1 Gateway.Sample.gateway authority (block1 []) = Ok (h1, r1, e1) ∧
    verifyAuthenticatedBlock 1 Gateway.Sample.gateway authority (block1 [proof1]) = Ok (h2, r2, e2) ∧
    ((h1 = h2 ∧ [] `prefix_of` [proof1] ∧ (unsigned <$> e1) `prefix_of` (unsigned <$> e2)) ∨
     blocks_collide (block1 []) (block1 [proof1])).
Proof.
  pose proof bare_block_accepted as B1. pose proof block1_accepted as B2.
  destruct (verifyAuthenticatedBlock _ _ _ (block1 [])) as [[[h1 r1] e1]|] eqn:V1; [|discriminate B1].
  destruct (verifyAuthenticatedBlock _ _ _ (block1 [proof1])) as [[[h2 r2] e2]|] eqn:V2; [|discriminate B2].
  exists h1, h2, r1, r2, e1, e2. split; [reflexivity|]. split; [reflexivity|].
  assert (hash h1 = hash h2) as Eh.
  { pose proof (bv_header _ _ _ _ _ _ _ (verifyAuthenticatedBlock_Ok _ _ _ _ _ _ _ V1)) as P1.
    pose proof (bv_header _ _ _ _ _ _ _ (verifyAuthenticatedBlock_Ok _ _ _ _ _ _ _ V2)) as P2.
    rewrite (parseEVMHeader_hash _ _ P1), (parseEVMHeader_hash _ _ P2). reflexivity. }
  exact (block_evidence_binds 1 Gateway.Sample.gateway authority authority (block1 []) (block1 [proof1])
    h1 h2 r1 r2 e1 e2 V1 V2 Eh ltac:(simpl; lia)).
Defined.

Lemma receipt_evidence_sound_witness :
  ∃ ev header path,
    VerifyAuthenticatedReceiptEvidence 1 Gateway.Sample.gateway authority (block1 [proof1])
      confirmations 0 2 expected = Ok ev ∧
    ve_BlockNumber ev = number header ∧ linked header path ∧
    ve_FinalityHeadNumber ev = number header + 2.
Proof.
  pose proof evidence_accepted as B.
  destruct (VerifyAuthenticatedReceiptEvidence _ _ _ _ _ _ _ _) as [ev|] eqn:V; [|discriminate B].
  destruct (receipt_evidence_sound 1 Gateway.Sample.gateway authority (block1 [proof1]) confirmations 0 2
    expected ev ltac:(lia) V) as (h & _ & _ & path & _ & _ & _ & _ & _ & Hn & _ & _ & _ & _ & Hl & _ & Hf).
  exists ev, h, path. split; [reflexivity|]. split; [exact Hn|]. split; [exact Hl|exact Hf].
Defined.
End Sample.
