(* ===== verification/Indexer.v ===== *)
(** The chain indexer ([chain-indexer/projection/indexer.go]): ingestion of blocks,
    reorganisations, the projected snapshot and the evidence it hands out. *)
From S2P Require Import Prelude GoStd CrossChainTypes ChainTypes Rlp Gateway EvmProof.
From S2P Require Message Trie.

Definition maxUint256 : Z := 2 ^ 256 - 1.

(** [parseUnits] and [parseNonNegativeUnits]: the number, when it is accepted. *)
Definition parseUnits (value : string) : option Z :=
  match Big.set_string value with
  | Some units =>
      if (0 <? units) && (units <=? maxUint256) && (Big.to_string units =s value)
      then Some units else None
  | None => None
  end.
Definition parseNonNegativeUnits (value : string) : option Z :=
  match Big.set_string value with
  | Some units =>
      if (0 <=? units) && (units <=? maxUint256) && (Big.to_string units =s value)
      then Some units else None
  | None => None
  end.

Record Indexer := mkIndexer {
  chainID : Z; gateway : string; finalityDepth : Z; headerAuthority : string;
  headerAuthorityHash : string; finalityPolicyHash : string;
  blocks : gmap Z Block; eventBlocks : gmap string Z;
  receipts : gmap string verifiedReceipt; settlementReorgs : gmap string SettlementReorg;
  snapshot : Snapshot }.

Definition emptySnapshot : Snapshot := mkSnapshot "" 0 Time.zero "" ∅ ∅ ∅ ∅ ∅.

Definition New (finalityDepth : Z) : Indexer :=
  mkIndexer 0 "" finalityDepth "" "" "" ∅ ∅ ∅ ∅ emptySnapshot.

(** * Applying an event to the snapshot *)

Definition with_tenders (m : gmap string Tender) (s : Snapshot) : Snapshot :=
  mkSnapshot (sn_HeadHash s) (sn_Head s) (sn_HeadObservedAt s) (sn_HeadHeaderSignatureHash s) m
    (sn_Loans s) (sn_Payments s) (sn_CanonicalSettlements s) (sn_SettlementReorgs s).
Definition with_loans (m : gmap string Loan) (s : Snapshot) : Snapshot :=
  mkSnapshot (sn_HeadHash s) (sn_Head s) (sn_HeadObservedAt s) (sn_HeadHeaderSignatureHash s)
    (sn_Tenders s) m (sn_Payments s) (sn_CanonicalSettlements s) (sn_SettlementReorgs s).
Definition with_payments (m : gmap string string) (s : Snapshot) : Snapshot :=
  mkSnapshot (sn_HeadHash s) (sn_Head s) (sn_HeadObservedAt s) (sn_HeadHeaderSignatureHash s)
    (sn_Tenders s) (sn_Loans s) m (sn_CanonicalSettlements s) (sn_SettlementReorgs s).
Definition with_settlements (m : gmap string CanonicalSettlement) (s : Snapshot) : Snapshot :=
  mkSnapshot (sn_HeadHash s) (sn_Head s) (sn_HeadObservedAt s) (sn_HeadHeaderSignatureHash s)
    (sn_Tenders s) (sn_Loans s) (sn_Payments s) m (sn_SettlementReorgs s).
Definition with_head (height : Z) (block : Block) (s : Snapshot) : Snapshot :=
  mkSnapshot (bk_Hash block) height (Time.UTC (bk_ObservedAt block)) (bk_HeaderSignatureHash block)
    (sn_Tenders s) (sn_Loans s) (sn_Payments s) (sn_CanonicalSettlements s) (sn_SettlementReorgs s).

Definition apply_tender_published (s : Snapshot) (event : Event) (blockNumber : Z)
    : result error Snapshot :=
  if empty_s (ev_TenderID event) || empty_s (ev_BorrowerID event) then Err ErrInvalidEvent
  else Ok (with_tenders (<[ev_TenderID event :=
         mkTender (ev_TenderID event) (ev_BorrowerID event) "OPEN" "" blockNumber ""]>
         (sn_Tenders s)) s).

Definition apply_offer_selected (s : Snapshot) (event : Event) (blockNumber : Z)
    : result error Snapshot :=
  match sn_Tenders s !! ev_TenderID event with
  | None => Err ErrInvalidEvent
  | Some tender =>
      if empty_s (ev_OfferID event) then Err ErrInvalidEvent
      else Ok (with_tenders (<[ev_TenderID event :=
             mkTender (tn_ID tender) (tn_BorrowerID tender) "OFFER_SELECTED" (ev_OfferID event)
               blockNumber (tn_Finality tender)]> (sn_Tenders s)) s)
  end.

Definition apply_loan_activated (s : Snapshot) (event : Event) (blockNumber : Z)
    : result error Snapshot :=
  if empty_s (ev_LoanID event) || empty_s (ev_BorrowerID event) || empty_s (ev_LenderID event) ||
     empty_s (ev_AssetID event)
  then Err ErrInvalidEvent
  else
    match parseUnits (ev_AmountUnits event) with
    | None => Err ErrInvalidEvent
    | Some _ =>
        if has_key (sn_Loans s) (ev_LoanID event) then Err ErrInvalidEvent
        else Ok (with_loans (<[ev_LoanID event :=
               mkLoan (ev_LoanID event) (ev_BorrowerID event) (ev_LenderID event) (ev_AssetID event)
                 (ev_AmountUnits event) (ev_AmountUnits event) "ACTIVE" "" blockNumber ""]>
               (sn_Loans s)) s)
    end.

Definition apply_principal_repaid (s : Snapshot) (event : Event) (blockNumber : Z)
    : result error Snapshot :=
  match sn_Loans s !! ev_LoanID event with
  | None => Err ErrInvalidEvent
  | Some loan =>
      if (ln_Status loan <>s "ACTIVE") || empty_s (ev_PaymentID event) then Err ErrInvalidEvent
      else
        match parseUnits (ev_AmountUnits event), parseUnits (ln_OutstandingUnits loan) with
        | Some amount, Some outstanding =>
            if outstanding <? amount then Err ErrInvalidEvent
            else if has_key (sn_Payments s) (ev_PaymentID event) then Err ErrInvalidEvent
            else
              let loan :=
                mkLoan (ln_ID loan) (ln_BorrowerID loan) (ln_LenderID loan) (ln_AssetID loan)
                  (ln_PrincipalUnits loan) (Big.to_string (outstanding - amount)) (ln_Status loan)
                  (ev_PaymentID event) blockNumber (ln_Finality loan) in
              Ok (with_payments (<[ev_PaymentID event := ev_LoanID event]> (sn_Payments s))
                    (with_loans (<[ev_LoanID event := loan]> (sn_Loans s)) s))
        | _, _ => Err ErrInvalidEvent
        end
  end.

Definition apply_loan_closed (s : Snapshot) (event : Event) (blockNumber : Z)
    : result error Snapshot :=
  match sn_Loans s !! ev_LoanID event with
  | None => Err ErrInvalidEvent
  | Some loan =>
      if ln_OutstandingUnits loan <>s "0" then Err ErrInvalidEvent
      else Ok (with_loans (<[ev_LoanID event :=
             mkLoan (ln_ID loan) (ln_BorrowerID loan) (ln_LenderID loan) (ln_AssetID loan)
               (ln_PrincipalUnits loan) (ln_OutstandingUnits loan) "CLOSED" (ln_LastPaymentID loan)
               blockNumber (ln_Finality loan)]> (sn_Loans s)) s)
  end.

(** The long guard on a settlement event. *)
Definition settlement_fields_ok (event : Event) : bool :=
  ev_decodedCanonical event &&
  forallb (λ field, negb (empty_s field))
    [ev_PaymentID event; ev_AllocationID event; ev_InstructionDigest event; ev_PolicySetHash event;
     ev_LoanAccount event; ev_Finalizer event; ev_Attester event; ev_SourceAssetID event;
     ev_AssetID event; ev_TargetToken event; ev_Gateway event; ev_ProviderIDHash event;
     ev_ProviderReferenceHash event; ev_ReconciliationID event; ev_ReconciliationCommitment event;
     ev_OriginalJournalSetHash event; ev_ConversionPolicyHash event; ev_FinalityPolicyHash event;
     ev_EvidenceHash event; ev_JournalRef event; ev_RawEvidenceHash event] &&
  (ev_SourceAssetID event <>s ev_AssetID event) &&
  negb (ev_ProviderFinalizedAt event =? 0) &&
  (ev_ProviderFinalizedAt event <? ev_ReversalDeadline event) &&
  negb (ev_StateNonceBefore event =? 0) &&
  (ev_StateNonceBefore event <? ev_StateNonceAfter event).

Definition settlement_units_ok (event : Event) : bool :=
  match parseUnits (ev_SourceUnits event), parseUnits (ev_GrossUnits event),
        parseUnits (ev_PrincipalUnits event), parseNonNegativeUnits (ev_RefundableExcessUnits event),
        parseUnits (ev_DebtBeforeUnits event), parseNonNegativeUnits (ev_DebtAfterUnits event) with
  | Some source, Some gross, Some principal, Some excess, Some debtBefore, Some debtAfter =>
      (source =? gross) && (principal + excess =? gross) && (principal + debtAfter =? debtBefore)
  | _, _, _, _, _, _ => false
  end.

Definition settlement_of (event : Event) (blockNumber : Z) : CanonicalSettlement :=
  {| cs_PaymentID := ev_PaymentID event;
     cs_AllocationID := ev_AllocationID event;
     cs_InstructionDigest := ev_InstructionDigest event;
     cs_PolicySetHash := ev_PolicySetHash event;
     cs_LoanID := ev_LoanID event;
     cs_LoanAccount := ev_LoanAccount event;
     cs_Finalizer := ev_Finalizer event;
     cs_Attester := ev_Attester event;
     cs_SourceAssetID := ev_SourceAssetID event;
     cs_TargetAssetID := ev_AssetID event;
     cs_TargetToken := ev_TargetToken event;
     cs_SourceUnits := ev_SourceUnits event;
     cs_GrossUnits := ev_GrossUnits event;
     cs_ProviderIDHash := ev_ProviderIDHash event;
     cs_ProviderReferenceHash := ev_ProviderReferenceHash event;
     cs_ReconciliationID := ev_ReconciliationID event;
     cs_ReconciliationCommitment := ev_ReconciliationCommitment event;
     cs_OriginalJournalSetHash := ev_OriginalJournalSetHash event;
     cs_ConversionPolicyHash := ev_ConversionPolicyHash event;
     cs_FinalityPolicyHash := ev_FinalityPolicyHash event;
     cs_EvidenceHash := ev_EvidenceHash event;
     cs_JournalRef := ev_JournalRef event;
     cs_ProviderFinalizedAt := ev_ProviderFinalizedAt event;
     cs_ReversalDeadline := ev_ReversalDeadline event;
     cs_PrincipalUnits := ev_PrincipalUnits event;
     cs_RefundableExcessUnits := ev_RefundableExcessUnits event;
     cs_DebtBeforeUnits := ev_DebtBeforeUnits event;
     cs_DebtAfterUnits := ev_DebtAfterUnits event;
     cs_StateNonceBefore := ev_StateNonceBefore event;
     cs_StateNonceAfter := ev_StateNonceAfter event;
     cs_LenderID := ev_LenderID event;
     cs_BorrowerID := ev_BorrowerID event;
     cs_ChainID := ev_ChainID event;
     cs_Gateway := ev_Gateway event;
     cs_TransactionHash := ev_TxHash event;
     cs_EventID := ev_ID event;
     cs_LogIndex := ev_LogIndex event;
     cs_BlockHash := ev_BlockHash event;
     cs_RawEvidenceHash := ev_RawEvidenceHash event;
     cs_TransactionIndex := ev_TransactionIndex event;
     cs_ReceiptsRoot := ev_ReceiptsRoot event;
     cs_InclusionProofHash := ev_InclusionProofHash event;
     cs_ReceiptHeaderSignatureHash := ev_ReceiptHeaderSignatureHash event;
     cs_UpdatedInBlock := blockNumber;
     cs_Finality := "" |}.

Definition apply_settlement (s : Snapshot) (event : Event) (blockNumber : Z)
    : result error Snapshot :=
  if negb (settlement_fields_ok event) || negb (settlement_units_ok event) then Err ErrInvalidEvent
  else if match sn_Loans s !! ev_LoanID event with
          | Some loan =>
              (ev_LenderID event <>s ln_LenderID loan) || (ev_BorrowerID event <>s ln_BorrowerID loan) ||
              (ln_AssetID loan <>s ev_AssetID event) ||
              (ln_OutstandingUnits loan <>s ev_DebtAfterUnits event)
          | None => false
          end
  then Err ErrInvalidEvent
  else if match sn_Payments s !! ev_PaymentID event with
          | Some paymentLoan => paymentLoan <>s ev_LoanID event
          | None => false
          end
  then Err ErrInvalidEvent
  else if has_key (sn_CanonicalSettlements s) (ev_PaymentID event) then Err ErrInvalidEvent
  else if existsb (λ '(_, existing), cs_AllocationID existing =s ev_AllocationID event)
            (map_to_list (sn_CanonicalSettlements s))
  then Err ErrInvalidEvent
  else Ok (with_settlements
         (<[ev_PaymentID event := settlement_of event blockNumber]> (sn_CanonicalSettlements s))
         (with_payments (<[ev_PaymentID event := ev_LoanID event]> (sn_Payments s)) s)).

Definition apply (s : Snapshot) (event : Event) (blockNumber : Z) : result error Snapshot :=
  if ev_Type event =s TenderPublished then apply_tender_published s event blockNumber
  else if ev_Type event =s OfferSelected then apply_offer_selected s event blockNumber
  else if ev_Type event =s LoanActivated then apply_loan_activated s event blockNumber
  else if ev_Type event =s PrincipalRepaid then apply_principal_repaid s event blockNumber
  else if ev_Type event =s LoanClosed then apply_loan_closed s event blockNumber
  else if ev_Type event =s CanonicalSettlementExecuted then apply_settlement s event blockNumber
  else Err ErrInvalidEvent.

(** * Rebuilding the snapshot *)

Fixpoint apply_events (s : Snapshot) (events : list Event) (height : Z) : result error Snapshot :=
  match events with
  | [] => Ok s
  | event :: rest => let? s := apply s event height in apply_events s rest height
  end.

(** The loop over the heights in order; [prior] is [priorObservedAt]. *)
Fixpoint rebuild_loop (chain : list (Z * Block)) (prior : Time.t) (s : Snapshot)
    : result error Snapshot :=
  match chain with
  | [] => Ok s
  | (height, block) :: rest =>
      if negb (bk_Number block =? height) || Time.IsZero (bk_ObservedAt block) ||
         (negb (Time.IsZero prior) && Time.Before (bk_ObservedAt block) prior)
      then Err ErrInvalidBlock
      else
        let? s := apply_events s (bk_Events block) height in
        rebuild_loop rest (bk_ObservedAt block) (with_head height block s)
  end.

Definition finalHeight_of (head depth : Z) : Z := if depth <? head then head - depth else 0.

Definition mark (finalHeight updatedInBlock : Z) : string :=
  if updatedInBlock <=? finalHeight then Final else Provisional.
Definition mark_tender (f : Z) (t : Tender) : Tender :=
  mkTender (tn_ID t) (tn_BorrowerID t) (tn_State t) (tn_SelectedOfferID t) (tn_UpdatedInBlock t)
    (mark f (tn_UpdatedInBlock t)).
Definition mark_loan (f : Z) (l : Loan) : Loan :=
  mkLoan (ln_ID l) (ln_BorrowerID l) (ln_LenderID l) (ln_AssetID l) (ln_PrincipalUnits l)
    (ln_OutstandingUnits l) (ln_Status l) (ln_LastPaymentID l) (ln_UpdatedInBlock l)
    (mark f (ln_UpdatedInBlock l)).

(** * The blocks in order of height *)

Definition height_le (a b : Z * Block) : Prop := a.1 <= b.1.
#[export] Instance height_le_dec : RelDecision height_le.
Proof. intros a b. unfold height_le. apply _. Defined.
Definition heights (m : gmap Z Block) : list (Z * Block) := merge_sort height_le (map_to_list m).

Definition mark_settlement (f : Z) (s : CanonicalSettlement) : CanonicalSettlement :=
  mkSettlement (cs_PaymentID s) (cs_AllocationID s) (cs_InstructionDigest s) (cs_PolicySetHash s)
    (cs_LoanID s) (cs_LoanAccount s) (cs_Finalizer s) (cs_Attester s) (cs_SourceAssetID s)
    (cs_TargetAssetID s) (cs_TargetToken s) (cs_SourceUnits s) (cs_GrossUnits s)
    (cs_ProviderIDHash s) (cs_ProviderReferenceHash s) (cs_ReconciliationID s)
    (cs_ReconciliationCommitment s) (cs_OriginalJournalSetHash s) (cs_ConversionPolicyHash s)
    (cs_FinalityPolicyHash s) (cs_EvidenceHash s) (cs_JournalRef s) (cs_ProviderFinalizedAt s)
    (cs_ReversalDeadline s) (cs_PrincipalUnits s) (cs_RefundableExcessUnits s)
    (cs_DebtBeforeUnits s) (cs_DebtAfterUnits s) (cs_StateNonceBefore s) (cs_StateNonceAfter s)
    (cs_LenderID s) (cs_BorrowerID s) (cs_ChainID s) (cs_Gateway s) (cs_TransactionHash s)
    (cs_EventID s) (cs_LogIndex s) (cs_BlockHash s) (cs_RawEvidenceHash s) (cs_TransactionIndex s)
    (cs_ReceiptsRoot s) (cs_InclusionProofHash s) (cs_ReceiptHeaderSignatureHash s)
    (cs_UpdatedInBlock s) (mark f (cs_UpdatedInBlock s)).

(** The candidate's snapshot: the events of the blocks in order of height, with
    finality marks relative to the new head. *)
Definition rebuild (m : gmap Z Block) (reorgs : gmap string SettlementReorg) (depth : Z)
    : result error Snapshot :=
  let? s := rebuild_loop (heights m) Time.zero
              (mkSnapshot "" 0 Time.zero "" ∅ ∅ ∅ ∅ reorgs) in
  let f := finalHeight_of (sn_Head s) depth in
  Ok (with_settlements (mark_settlement f <$> sn_CanonicalSettlements s)
        (with_loans (mark_loan f <$> sn_Loans s)
           (with_tenders (mark_tender f <$> sn_Tenders s) s))).

Definition with_snapshot (s : Snapshot) (ix : Indexer) : Indexer :=
  mkIndexer (chainID ix) (gateway ix) (finalityDepth ix) (headerAuthority ix)
    (headerAuthorityHash ix) (finalityPolicyHash ix) (blocks ix) (eventBlocks ix) (receipts ix)
    (settlementReorgs ix) s.

Definition Rebuild (ix : Indexer) : Indexer * result error () :=
  match rebuild (blocks ix) (settlementReorgs ix) (finalityDepth ix) with
  | Err e => (ix, Err e)
  | Ok s => (with_snapshot s ix, Ok ())
  end.

(** [Snapshot] returns copies of the maps. *)
Definition Snapshot_ (ix : Indexer) : Snapshot := snapshot ix.

(** * Evidence hashes *)

(** [fmt.Sprintf] of the values separated by NUL. *)
Fixpoint joined (values : list string) : string :=
  match values with
  | [] => ""%string
  | [value] => value
  | value :: rest => value +:+ nul +:+ joined rest
  end.
Abbreviation dec := Big.to_string.
Definition boolean (b : bool) : string := if b then "true" else "false".

Section Evidence.
Context `{Keccak}.

Definition finalityEvidenceHash (s : CanonicalSettlement) (p : FinalityProof) : string :=
  hex32 (keccak (joined
    ["UNIFIED_PHASE7C_FINALITY_V3"%string; dec (cs_ChainID s); cs_Gateway s; cs_PaymentID s;
     cs_AllocationID s; cs_InstructionDigest s; cs_EventID s; cs_TransactionHash s; cs_BlockHash s;
     dec (cs_UpdatedInBlock s); dec (cs_LogIndex s); cs_RawEvidenceHash s;
     dec (cs_TransactionIndex s); cs_ReceiptsRoot s; cs_InclusionProofHash s;
     cs_ReceiptHeaderSignatureHash s; fp_Finality p; dec (fp_ConfirmationDepth p);
     dec (fp_HeadBlockNumber p); fp_HeadBlockHash p; fp_FinalityPolicyHash p;
     fp_HeaderAuthorityHash p; fp_HeadHeaderSignatureHash p; dec (Time.UnixNano (fp_ObservedAt p))])).

Definition settlementReorgEvidenceHash (e : SettlementReorg) : string :=
  hex32 (keccak (joined
    ["UNIFIED_PHASE7C_REORG_V5"%string; sr_PaymentID e; sr_AllocationID e; sr_InstructionDigest e;
     dec (sr_ChainID e); sr_Gateway e; sr_EventID e; sr_TransactionHash e;
     sr_OrphanedEventEvidenceHash e; sr_RawEvidenceHash e; dec (sr_TransactionIndex e);
     sr_ReceiptsRoot e; sr_InclusionProofHash e; sr_OrphanedReceiptHeaderSignatureHash e;
     dec (sr_OrphanedBlock e); sr_OrphanedBlockHash e; dec (sr_ReplacementBlock e);
     sr_ReplacementBlockHash e; dec (sr_DetectedHead e); sr_DetectedHeadHash e; sr_DepthClass e;
     dec (sr_ConfirmationDepth e); sr_FinalityPolicyHash e; sr_HeaderAuthorityHash e;
     sr_ReplacementHeaderSignatureHash e; sr_DetectedHeadHeaderSignatureHash e;
     boolean (sr_CompensationRequired e); dec (Time.UnixNano (sr_DetectedAt e))])).

Definition transactionFailureEvidenceHash (e : TransactionFailureEvidence) : string :=
  hex32 (keccak (joined
    ["UNIFIED_PHASE7C_TRANSACTION_FAILURE_V3"%string; dec (f_ChainID e); f_Gateway e;
     f_TransactionHash e; f_ReceiptPayloadHash e; f_Status e; dec (f_TransactionIndex e);
     dec (f_BlockNumber e); f_BlockHash e; f_ReceiptsRoot e; f_InclusionProofHash e;
     f_ReceiptHeaderSignatureHash e; f_FinalityPolicyHash e; f_HeaderAuthorityHash e;
     dec (f_ConfirmationDepth e); dec (f_HeadBlockNumber e); f_HeadBlockHash e;
     f_HeadHeaderSignatureHash e; dec (Time.UnixNano (f_ObservedAt e))])).

(** * Ingestion *)

Definition reorg_fields (ix : Indexer) (block removed : Block) (event : Event) (height : Z)
    (evidenceHash : string) : SettlementReorg :=
  let deep := height <=? finalHeight_of (sn_Head (snapshot ix)) (finalityDepth ix) in
  {| sr_PaymentID := ev_PaymentID event;
     sr_AllocationID := ev_AllocationID event;
     sr_InstructionDigest := ev_InstructionDigest event;
     sr_ChainID := ev_ChainID event;
     sr_Gateway := ev_Gateway event;
     sr_EventID := ev_ID event;
     sr_TransactionHash := ev_TxHash event;
     sr_OrphanedEventEvidenceHash := ev_EvidenceHash event;
     sr_RawEvidenceHash := ev_RawEvidenceHash event;
     sr_TransactionIndex := ev_TransactionIndex event;
     sr_ReceiptsRoot := ev_ReceiptsRoot event;
     sr_InclusionProofHash := ev_InclusionProofHash event;
     sr_OrphanedReceiptHeaderSignatureHash := ev_ReceiptHeaderSignatureHash event;
     sr_OrphanedBlockHash := bk_Hash removed;
     sr_OrphanedBlock := height;
     sr_ReplacementBlockHash := bk_Hash block;
     sr_ReplacementBlock := bk_Number block;
     sr_DepthClass := if deep then ReorgDeepFinality else ReorgPreFinality;
     sr_ConfirmationDepth := finalityDepth ix;
     sr_DetectedHead := sn_Head (snapshot ix);
     sr_DetectedHeadHash := sn_HeadHash (snapshot ix);
     sr_FinalityPolicyHash := finalityPolicyHash ix;
     sr_HeaderAuthorityHash := headerAuthorityHash ix;
     sr_ReplacementHeaderSignatureHash := bk_HeaderSignatureHash block;
     sr_DetectedHeadHeaderSignatureHash := sn_HeadHeaderSignatureHash (snapshot ix);
     sr_CompensationRequired := deep;
     sr_EvidenceHash := evidenceHash;
     sr_DetectedAt := Time.UTC (bk_ObservedAt block) |}.

(** The record of one orphaned settlement; the hash covers the other fields. *)
Definition reorg_of (ix : Indexer) (block removed : Block) (event : Event) (height : Z)
    : SettlementReorg :=
  reorg_fields ix block removed event height
    (settlementReorgEvidenceHash (reorg_fields ix block removed event height "")).

(** The copies that [ingestBlock] works on. *)
Record Candidate := mkCandidate {
  c_blocks : gmap Z Block; c_eventBlocks : gmap string Z;
  c_receipts : gmap string verifiedReceipt; c_reorgs : gmap string SettlementReorg }.

Fixpoint orphan_events (ix : Indexer) (block removed : Block) (height : Z) (events : list Event)
    (eventBlocks : gmap string Z) (reorgs : gmap string SettlementReorg)
    : gmap string Z * gmap string SettlementReorg :=
  match events with
  | [] => (eventBlocks, reorgs)
  | event :: rest =>
      orphan_events ix block removed height rest (delete (ev_ID event) eventBlocks)
        (if ev_Type event =s CanonicalSettlementExecuted
         then <[ev_ID event := reorg_of ix block removed event height]> reorgs else reorgs)
  end.

Definition orphan_block (ix : Indexer) (block : Block) (height : Z) (c : Candidate) : Candidate :=
  match c_blocks c !! height with
  | None => c
  | Some removed =>
      let '(eventBlocks, reorgs) :=
        orphan_events ix block removed height (bk_Events removed) (c_eventBlocks c) (c_reorgs c) in
      mkCandidate (delete height (c_blocks c)) eventBlocks
        (filter (λ '(_, receipt), vr_BlockNumber receipt ≠ height) (c_receipts c)) reorgs
  end.

(** [for height := block.Number; height <= Head; height++]. *)
Fixpoint orphan_loop (ix : Indexer) (block : Block) (hs : list Z) (c : Candidate) : Candidate :=
  match hs with
  | [] => c
  | height :: rest => orphan_loop ix block rest (orphan_block ix block height c)
  end.

Fixpoint receipts_loop (block : Block) (verifiedReceipts : list verifiedReceipt)
    (receipts : gmap string verifiedReceipt) : result error (gmap string verifiedReceipt) :=
  match verifiedReceipts with
  | [] => Ok receipts
  | receipt :: rest =>
      if negb (vr_BlockNumber receipt =? bk_Number block) || (vr_BlockHash receipt <>s bk_Hash block) ||
         negb (canonicalHash (vr_TransactionHash receipt)) ||
         negb (canonicalHash (vr_ReceiptPayloadHash receipt)) ||
         negb (canonicalHash (vr_ReceiptsRoot receipt)) ||
         negb (canonicalHash (vr_InclusionProofHash receipt))
      then Err ErrInvalidInclusionProof
      else if match receipts !! vr_TransactionHash receipt with
              | Some prior => negb (vr_BlockNumber prior =? vr_BlockNumber receipt) ||
                              negb (vr_TransactionIndex prior =? vr_TransactionIndex receipt)
              | None => false
              end
      then Err ErrInvalidInclusionProof
      else receipts_loop block rest (<[vr_TransactionHash receipt := receipt]> receipts)
  end.

Fixpoint events_loop (ix : Indexer) (block : Block) (events : list Event)
    (eventBlocks : gmap string Z) : result error (gmap string Z) :=
  match events with
  | [] => Ok eventBlocks
  | event :: rest =>
      if empty_s (ev_ID event) || empty_s (ev_TxHash event) then Err ErrInvalidEvent
      else if (ev_Type event =s CanonicalSettlementExecuted) &&
              (negb (ev_decodedCanonical event) || negb (ev_BlockNumber event =? bk_Number block) ||
               (ev_BlockHash event <>s bk_Hash block) ||
               ((finalityPolicyHash ix <>s "") &&
                (ev_FinalityPolicyHash event <>s finalityPolicyHash ix)) ||
               (negb (chainID ix =? 0) &&
                (negb (ev_ChainID event =? chainID ix) || (ev_Gateway event <>s gateway ix))))
      then Err ErrInvalidEvent
      else
        match eventBlocks !! ev_ID event with
        | Some existingHeight => Err (ErrDuplicateEvent (ev_ID event) existingHeight)
        | None => events_loop ix block rest (<[ev_ID event := bk_Number block]> eventBlocks)
        end
  end.

(** The candidate indexer replaces the indexer when it can be rebuilt. *)
Definition commit (c : Candidate) (ix : Indexer) : Indexer * result error () :=
  match rebuild (c_blocks c) (c_reorgs c) (finalityDepth ix) with
  | Err e => (ix, Err e)
  | Ok s =>
      (mkIndexer (chainID ix) (gateway ix) (finalityDepth ix) (headerAuthority ix)
         (headerAuthorityHash ix) (finalityPolicyHash ix) (c_blocks c) (c_eventBlocks c)
         (c_receipts c) (c_reorgs c) s, Ok ())
  end.

(** ** A second delivery of a known block *)

Fixpoint receipt_indexes (existing : Block) (rs : list (string * verifiedReceipt))
    (indexes : gmap Z verifiedReceipt) : result error (gmap Z verifiedReceipt) :=
  match rs with
  | [] => Ok indexes
  | (_, receipt) :: rest =>
      if (vr_BlockNumber receipt =? bk_Number existing) && (vr_BlockHash receipt =s bk_Hash existing) then
        match indexes !! vr_TransactionIndex receipt with
        | Some prior =>
            if negb (bool_decide (prior = receipt)) then Err ErrInvalidInclusionProof
            else receipt_indexes existing rest (<[vr_TransactionIndex receipt := receipt]> indexes)
        | None => receipt_indexes existing rest (<[vr_TransactionIndex receipt := receipt]> indexes)
        end
      else receipt_indexes existing rest indexes
  end.

Fixpoint enrich_receipts (existing : Block) (verifiedReceipts : list verifiedReceipt)
    (indexes : gmap Z verifiedReceipt) (receipts : gmap string verifiedReceipt) (changed : bool)
    : result error (gmap string verifiedReceipt * bool) :=
  match verifiedReceipts with
  | [] => Ok (receipts, changed)
  | receipt :: rest =>
      if negb (vr_BlockNumber receipt =? bk_Number existing) ||
         (vr_BlockHash receipt <>s bk_Hash existing)
      then Err ErrInvalidInclusionProof
      else
        match indexes !! vr_TransactionIndex receipt, receipts !! vr_TransactionHash receipt with
        | Some prior, _ =>
            if negb (bool_decide (prior = receipt)) then Err ErrInvalidInclusionProof
            else enrich_receipts existing rest indexes receipts changed
        | None, Some prior =>
            if negb (bool_decide (prior = receipt)) then Err ErrInvalidInclusionProof
            else enrich_receipts existing rest indexes receipts changed
        | None, None =>
            enrich_receipts existing rest (<[vr_TransactionIndex receipt := receipt]> indexes)
              (<[vr_TransactionHash receipt := receipt]> receipts) true
        end
  end.

(** The maps [existingEvents] and [existingLogIndexes], filled from the block. *)
Definition events_by_id (events : list Event) : gmap string Event :=
  foldl (λ m event, <[ev_ID event := event]> m) ∅ events.
Definition events_by_log (events : list Event) : gmap Z Event :=
  foldl (λ m event, <[ev_LogIndex event := event]> m) ∅ events.

Fixpoint enrich_events (ix : Indexer) (existing : Block) (incoming : list Event)
    (existingEvents : gmap string Event) (existingLogIndexes : gmap Z Event)
    (eventBlocks : gmap string Z) (merged : list Event) (changed : bool)
    : result error (gmap string Z * list Event * bool) :=
  match incoming with
  | [] => Ok (eventBlocks, merged, changed)
  | event :: rest =>
      if empty_s (ev_ID event) || empty_s (ev_TxHash event) ||
         ((ev_Type event =s CanonicalSettlementExecuted) &&
          (negb (ev_decodedCanonical event) || negb (ev_BlockNumber event =? bk_Number existing) ||
           (ev_BlockHash event <>s bk_Hash existing) ||
           (ev_FinalityPolicyHash event <>s finalityPolicyHash ix) ||
           negb (ev_ChainID event =? chainID ix) || (ev_Gateway event <>s gateway ix)))
      then Err ErrInvalidEvent
      else
        match existingEvents !! ev_ID event with
        | Some prior =>
            if negb (bool_decide (prior = event)) then Err ErrInvalidEvent
            else enrich_events ix existing rest existingEvents existingLogIndexes eventBlocks merged changed
        | None =>
            if match existingLogIndexes !! ev_LogIndex event with
               | Some prior => negb (bool_decide (prior = event))
               | None => false
               end
            then Err ErrInvalidEvent
            else
              match eventBlocks !! ev_ID event with
              | Some height => Err (ErrDuplicateEvent (ev_ID event) height)
              | None =>
                  enrich_events ix existing rest (<[ev_ID event := event]> existingEvents)
                    (<[ev_LogIndex event := event]> existingLogIndexes)
                    (<[ev_ID event := bk_Number existing]> eventBlocks) (merged ++ [event]) true
              end
        end
  end.

(** [sort.SliceStable] by log index; the indexes of a block's events differ. *)
Definition log_le (a b : Event) : Prop := ev_LogIndex a <= ev_LogIndex b.
#[export] Instance log_le_dec : RelDecision log_le.
Proof. intros a b. unfold log_le. apply _. Defined.

Definition with_events (events : list Event) (b : Block) : Block :=
  mkBlock (bk_Number b) (bk_Hash b) (bk_ParentHash b) (bk_ObservedAt b) events
    (bk_HeaderSignatureHash b).

Definition enrichAuthenticatedBlock (existing incoming : Block)
    (verifiedReceipts : list verifiedReceipt) (ix : Indexer) : Indexer * result error () :=
  if (bk_ParentHash existing <>s bk_ParentHash incoming) ||
     negb (Time.Equal (bk_ObservedAt existing) (bk_ObservedAt incoming)) ||
     (bk_HeaderSignatureHash existing <>s bk_HeaderSignatureHash incoming)
  then (ix, Err ErrInvalidBlock)
  else
    match receipt_indexes existing (map_to_list (receipts ix)) ∅ with
    | Err e => (ix, Err e)
    | Ok indexes =>
        match enrich_receipts existing verifiedReceipts indexes (receipts ix) false with
        | Err e => (ix, Err e)
        | Ok (receipts', changed) =>
            match enrich_events ix existing (bk_Events incoming) (events_by_id (bk_Events existing))
                    (events_by_log (bk_Events existing)) (eventBlocks ix) (bk_Events existing) changed with
            | Err e => (ix, Err e)
            | Ok (eventBlocks', merged, changed) =>
                if negb changed then (ix, Ok ())
                else
                  commit (mkCandidate
                    (<[bk_Number existing := with_events (merge_sort log_le merged) existing]> (blocks ix))
                    eventBlocks' receipts' (settlementReorgs ix)) ix
            end
        end
    end.

(** ** Appending and replacing *)

Definition with_observed (at_ : Time.t) (b : Block) : Block :=
  mkBlock (bk_Number b) (bk_Hash b) (bk_ParentHash b) at_ (bk_Events b) (bk_HeaderSignatureHash b).

Definition replace_from (block : Block) (verifiedReceipts : list verifiedReceipt) (ix : Indexer)
    : Indexer * result error () :=
  if (1 <? bk_Number block) &&
     match blocks ix !! (bk_Number block - 1) with
     | Some parent => bk_Hash parent <>s bk_ParentHash block
     | None => true
     end
  then (ix, Err ErrUnknownParent)
  else if negb (Time.IsZero (sn_HeadObservedAt (snapshot ix))) &&
          Time.Before (bk_ObservedAt block) (sn_HeadObservedAt (snapshot ix))
  then (ix, Err ErrInvalidBlock)
  else
    let c := orphan_loop ix block
               (seqZ (bk_Number block) (sn_Head (snapshot ix) - bk_Number block + 1))
               (mkCandidate (blocks ix) (eventBlocks ix) (receipts ix) (settlementReorgs ix)) in
    match receipts_loop block verifiedReceipts (c_receipts c) with
    | Err e => (ix, Err e)
    | Ok receipts' =>
        match events_loop ix block (bk_Events block) (c_eventBlocks c) with
        | Err e => (ix, Err e)
        | Ok eventBlocks' =>
            commit (mkCandidate (<[bk_Number block := block]> (c_blocks c)) eventBlocks' receipts'
                      (c_reorgs c)) ix
        end
    end.

Definition ingestBlock (block : Block) (verifiedReceipts : list verifiedReceipt) (ix : Indexer)
    : Indexer * result error () :=
  if (bk_Number block =? 0) || empty_s (bk_Hash block) || Time.IsZero (bk_ObservedAt block)
  then (ix, Err ErrInvalidBlock)
  else
    let block := with_observed (Time.UTC (bk_ObservedAt block)) block in
    match blocks ix !! bk_Number block with
    | Some existing =>
        if bk_Hash existing =s bk_Hash block then
          if blen (headerAuthority ix) =? 0 then (ix, Ok ())
          else enrichAuthenticatedBlock existing block verifiedReceipts ix
        else replace_from block verifiedReceipts ix
    | None => replace_from block verifiedReceipts ix
    end.

Definition Ingest (block : Block) (ix : Indexer) : Indexer * result error () :=
  if negb (blen (headerAuthority ix) =? 0) then (ix, Err ErrUnauthenticatedBlock)
  else ingestBlock block [] ix.
End Evidence.

(** * The gateway indexer *)

Record ExpectedTransaction := mkExpectedTransaction {
  et_ChainID : Z; et_Gateway : string; et_TransactionHash : string }.

Section Gateway.
Context `{Keccak, Ed25519}.

Definition NewGateway (chain : Z) (gw : string) (depth : Z) (authority : string)
    : result error Indexer :=
  if (chain =? 0) || negb (canonicalAddress gw) || (depth =? 0) ||
     negb (blen authority =? PublicKeySize)
  then Err ErrInvalidIndexerConfig
  else
    let? policyHash := ComputeFinalityPolicyHash chain gw depth authority in
    Ok (mkIndexer chain gw depth authority (hex32 (keccak authority)) policyHash ∅ ∅ ∅ ∅ emptySnapshot).

Definition IngestAuthenticated (block : AuthenticatedBlock) (ix : Indexer)
    : Indexer * result error () :=
  if (chainID ix =? 0) || empty_s (gateway ix) || negb (blen (headerAuthority ix) =? PublicKeySize)
  then (ix, Err ErrInvalidIndexerConfig)
  else
    match verifyAuthenticatedBlock (chainID ix) (gateway ix) (headerAuthority ix) block with
    | Err e => (ix, Err e)
    | Ok (header, receipts, events) =>
        ingestBlock
          (mkBlock (number header) (hash header) (parentHash header) (Time.UTC (ab_ObservedAt block))
             events (hex32 (keccak (ab_Signature block)))) receipts ix
    end.

Definition projection_allowed (ix : Indexer) (settlement : CanonicalSettlement) : bool :=
  (cs_Finality settlement =s Final) && negb (cs_UpdatedInBlock settlement =? 0) &&
  (cs_UpdatedInBlock settlement <=? sn_Head (snapshot ix)) &&
  (finalityDepth ix <=? sn_Head (snapshot ix) - cs_UpdatedInBlock settlement) &&
  (sn_HeadHash (snapshot ix) <>s "") && canonicalHash (sn_HeadHeaderSignatureHash (snapshot ix)) &&
  (cs_FinalityPolicyHash settlement =s finalityPolicyHash ix) &&
  canonicalHash (cs_ReceiptsRoot settlement) && canonicalHash (cs_InclusionProofHash settlement) &&
  canonicalHash (cs_ReceiptHeaderSignatureHash settlement) &&
  negb (Time.IsZero (sn_HeadObservedAt (snapshot ix))).

Definition proof_fields (ix : Indexer) (evidenceHash : string) : FinalityProof :=
  mkFinalityProof Final (finalityDepth ix) (sn_Head (snapshot ix)) (sn_HeadHash (snapshot ix))
    evidenceHash (sn_HeadObservedAt (snapshot ix)) (finalityPolicyHash ix) (headerAuthorityHash ix)
    (sn_HeadHeaderSignatureHash (snapshot ix)).

(** [VerifiedGatewayProjection] is the pair of a settlement and its proof. *)
Definition FinalizedGatewayProjection (paymentID : string) (ix : Indexer)
    : option (CanonicalSettlement * FinalityProof) :=
  if (finalityDepth ix =? 0) || negb (blen (headerAuthority ix) =? PublicKeySize) then None
  else
    match sn_CanonicalSettlements (snapshot ix) !! paymentID with
    | None => None
    | Some settlement =>
        if negb (projection_allowed ix settlement) then None
        else Some (settlement, proof_fields ix (finalityEvidenceHash settlement (proof_fields ix "")))
    end.

Definition ReorgEnvelope (eventID : string) (ix : Indexer) : option SettlementReorg :=
  if negb (blen (headerAuthority ix) =? PublicKeySize) then None
  else
    match settlementReorgs ix !! eventID with
    | None => None
    | Some evidence =>
        if empty_s (sr_EventID evidence) || negb (canonicalHash (sr_EvidenceHash evidence)) ||
           (sr_FinalityPolicyHash evidence <>s finalityPolicyHash ix) ||
           (sr_HeaderAuthorityHash evidence <>s headerAuthorityHash ix) ||
           negb (nonzeroCanonicalHash (sr_OrphanedEventEvidenceHash evidence)) ||
           negb (canonicalHash (sr_ReceiptsRoot evidence)) ||
           negb (canonicalHash (sr_InclusionProofHash evidence)) ||
           negb (canonicalHash (sr_OrphanedReceiptHeaderSignatureHash evidence)) ||
           negb (canonicalHash (sr_ReplacementHeaderSignatureHash evidence)) ||
           negb (canonicalHash (sr_DetectedHeadHeaderSignatureHash evidence))
        then None else Some evidence
    end.

Definition failure_allowed (ix : Indexer) (receipt : verifiedReceipt) : bool :=
  (vr_Status receipt =s TransactionReverted) &&
  match blocks ix !! vr_BlockNumber receipt with
  | Some receiptBlock => bk_Hash receiptBlock =s vr_BlockHash receipt
  | None => false
  end &&
  (vr_BlockNumber receipt <=? sn_Head (snapshot ix)) &&
  (finalityDepth ix <=? sn_Head (snapshot ix) - vr_BlockNumber receipt) &&
  canonicalHash (sn_HeadHash (snapshot ix)) &&
  canonicalHash (sn_HeadHeaderSignatureHash (snapshot ix)) &&
  canonicalHash (vr_ReceiptsRoot receipt) && canonicalHash (vr_InclusionProofHash receipt) &&
  canonicalHash (vr_HeaderSignatureHash receipt) &&
  negb (Time.IsZero (sn_HeadObservedAt (snapshot ix))).

Definition failure_fields (ix : Indexer) (expected : ExpectedTransaction) (receipt : verifiedReceipt)
    (evidenceHash : string) : TransactionFailureEvidence :=
  {| f_ChainID := et_ChainID expected;
     f_Gateway := et_Gateway expected;
     f_TransactionHash := vr_TransactionHash receipt;
     f_ReceiptPayloadHash := vr_ReceiptPayloadHash receipt;
     f_Status := vr_Status receipt;
     f_TransactionIndex := vr_TransactionIndex receipt;
     f_BlockNumber := vr_BlockNumber receipt;
     f_BlockHash := vr_BlockHash receipt;
     f_ReceiptsRoot := vr_ReceiptsRoot receipt;
     f_InclusionProofHash := vr_InclusionProofHash receipt;
     f_FinalityPolicyHash := finalityPolicyHash ix;
     f_HeaderAuthorityHash := headerAuthorityHash ix;
     f_ReceiptHeaderSignatureHash := vr_HeaderSignatureHash receipt;
     f_HeadHeaderSignatureHash := sn_HeadHeaderSignatureHash (snapshot ix);
     f_ConfirmationDepth := finalityDepth ix;
     f_HeadBlockNumber := sn_Head (snapshot ix);
     f_HeadBlockHash := sn_HeadHash (snapshot ix);
     f_EvidenceHash := evidenceHash;
     f_ObservedAt := sn_HeadObservedAt (snapshot ix) |}.

Definition VerifyTransactionFailure (expected : ExpectedTransaction) (ix : Indexer)
    : result error TransactionFailureEvidence :=
  if (chainID ix =? 0) || empty_s (gateway ix) || (finalityDepth ix =? 0) ||
     negb (blen (headerAuthority ix) =? PublicKeySize) ||
     negb (et_ChainID expected =? chainID ix) || (et_Gateway expected <>s gateway ix) ||
     negb (canonicalAddress (et_Gateway expected)) ||
     negb (canonicalHash (et_TransactionHash expected))
  then Err ErrInvalidTransactionFailure
  else
    match receipts ix !! et_TransactionHash expected with
    | None => Err ErrInvalidTransactionFailure
    | Some receipt =>
        if negb (failure_allowed ix receipt) then Err ErrInvalidTransactionFailure
        else Ok (failure_fields ix expected receipt
                   (transactionFailureEvidenceHash (failure_fields ix expected receipt "")))
    end.

(** * Histories *)

(** The calls that may change an indexer, each with its answer. *)
Inductive Call :=
| CallIngest (block : Block)
| CallIngestAuthenticated (block : AuthenticatedBlock)
| CallRebuild.

Definition perform (c : Call) (ix : Indexer) : Indexer * result error () :=
  match c with
  | CallIngest block => Ingest block ix
  | CallIngestAuthenticated block => IngestAuthenticated block ix
  | CallRebuild => Rebuild ix
  end.

(** Block numbers are unsigned. *)
Definition call_ok (c : Call) : Prop :=
  match c with CallIngest block => 0 <= bk_Number block | _ => True end.

Definition step (ix ix' : Indexer) : Prop := ∃ c r, call_ok c ∧ perform c ix = (ix', r).

(** The block and the receipts that a call delivers. *)
Definition delivered (c : Call) (ix : Indexer) : option (Block * list verifiedReceipt) :=
  match c with
  | CallIngest block => Some (with_observed (Time.UTC (bk_ObservedAt block)) block, [])
  | CallIngestAuthenticated block =>
      match verifyAuthenticatedBlock (chainID ix) (gateway ix) (headerAuthority ix) block with
      | Ok (header, receipts, events) =>
          Some (mkBlock (number header) (hash header) (parentHash header)
                  (Time.UTC (Time.UTC (ab_ObservedAt block))) events (hex32 (keccak (ab_Signature block))),
                receipts)
      | Err _ => None
      end
  | CallRebuild => None
  end.

Definition initial (ix : Indexer) : Prop :=
  (∃ depth, 0 <= depth ∧ ix = New depth) ∨
  (∃ chain gw depth authority, 0 <= depth ∧ NewGateway chain gw depth authority = Ok ix).

Definition reachable (ix : Indexer) : Prop := ∃ ix0, initial ix0 ∧ rtc step ix0 ix.
End Gateway.

(** * The projection of a chain

    A chain is the list of its blocks from height 1; its history is the list of its
    events with their heights. *)

Fixpoint number_from (k : Z) (chain : list Block) : list (Z * Block) :=
  match chain with
  | [] => []
  | block :: rest => (k, block) :: number_from (k + 1) rest
  end.

Fixpoint history (k : Z) (chain : list Block) : list (Z * Event) :=
  match chain with
  | [] => []
  | block :: rest => map (λ e, (k, e)) (bk_Events block) ++ history (k + 1) rest
  end.

Lemma number_from_lookup k chain h b :
  (h, b) ∈ number_from k chain ↔ k <= h ∧ chain !! Z.to_nat (h - k) = Some b.
Proof.
  revert k. induction chain as [|a chain IH]; intros k; cbn [number_from].
  { split; [by intros ?%elem_of_nil|]. intros [_ [=]]. }
  rewrite elem_of_cons, IH. split.
  - intros [[= -> ->]|[Hk Hl]]; [by rewrite Z.sub_diag|].
    split; [lia|]. replace (Z.to_nat (h - k)) with (S (Z.to_nat (h - (k + 1)))) by lia. done.
  - intros [Hk Hl]. destruct (Z.eq_dec h k) as [->|]; [left; rewrite Z.sub_diag in Hl; simpl in Hl; congruence|].
    right. split; [lia|]. replace (Z.to_nat (h - k)) with (S (Z.to_nat (h - (k + 1)))) in Hl by lia. done.
Qed.

Lemma number_from_sorted k chain : StronglySorted height_le (number_from k chain).
Proof.
  revert k. induction chain as [|a chain IH]; intros k; cbn [number_from]; [constructor|].
  constructor; [done|]. apply Forall_forall. intros [h b] [Hk _]%number_from_lookup.
  unfold height_le. simpl. lia.
Qed.

Lemma number_from_NoDup k chain : NoDup (number_from k chain).
Proof.
  revert k. induction chain as [|a chain IH]; intros k; cbn [number_from]; [constructor|].
  constructor; [|done]. intros [Hk _]%number_from_lookup. lia.
Qed.

(** The map of blocks holds exactly a chain. *)
Definition holds_chain (m : gmap Z Block) (chain : list Block) : Prop :=
  ∀ h, m !! h = if 1 <=? h then chain !! Z.to_nat (h - 1) else None.

Lemma heights_chain m chain : holds_chain m chain → heights m = number_from 1 chain.
Proof.
  intros Hm. unfold heights.
  assert (merge_sort height_le (map_to_list m) ≡ₚ number_from 1 chain) as Hp.
  { rewrite merge_sort_Permutation. apply NoDup_Permutation; [apply NoDup_map_to_list|apply number_from_NoDup|].
    intros [h b]. rewrite elem_of_map_to_list, number_from_lookup, Hm.
    destruct (Z.leb_spec 1 h) as [Hh|Hh]; split; [by split|by intros [_ ?]|done|lia]. }
  eapply (StronglySorted_unique_strong height_le); [|apply StronglySorted_merge_sort|apply number_from_sorted|done].
  - intros [h1 b1] [h2 b2] H1 H2 L1 L2. unfold height_le in L1, L2. simpl in *.
    rewrite Hp in H1. apply number_from_lookup in H1 as [_ H1], H2 as [_ H2].
    assert (h1 = h2) as <- by lia. congruence.
  - intros [??] [??] [??]. unfold height_le. simpl. lia.
  - intros [??] [??]. unfold height_le. simpl. lia.
Qed.

Definition init_snapshot (reorgs : gmap string SettlementReorg) : Snapshot :=
  mkSnapshot "" 0 Time.zero "" ∅ ∅ ∅ ∅ reorgs.

Definition finish (depth : Z) (s : Snapshot) : Snapshot :=
  let f := finalHeight_of (sn_Head s) depth in
  with_settlements (mark_settlement f <$> sn_CanonicalSettlements s)
    (with_loans (mark_loan f <$> sn_Loans s)
       (with_tenders (mark_tender f <$> sn_Tenders s) s)).

(** The snapshot as a function of the chain. *)
Definition project (chain : list Block) (reorgs : gmap string SettlementReorg) (depth : Z)
    : result error Snapshot :=
  let? s := rebuild_loop (number_from 1 chain) Time.zero (init_snapshot reorgs) in Ok (finish depth s).

Lemma rebuild_project m chain reorgs depth :
  holds_chain m chain → rebuild m reorgs depth = project chain reorgs depth.
Proof. intros Hm. unfold rebuild, project. by rewrite (heights_chain _ _ Hm). Qed.

(** ** What the projection contains *)

Definition is_settlement (e : Event) : Prop := ev_Type e = CanonicalSettlementExecuted.

Lemma parseUnits_Some v z : parseUnits v = Some z → v = Big.to_string z ∧ 0 < z <= maxUint256.
Proof.
  unfold parseUnits. destruct (Big.set_string v) as [u|]; [|done]. destruct (_ && _) eqn:Hg; [|done].
  intros [= <-]. bool_facts. done.
Qed.

Lemma parseNonNegativeUnits_Some v z :
  parseNonNegativeUnits v = Some z → v = Big.to_string z ∧ 0 <= z <= maxUint256.
Proof.
  unfold parseNonNegativeUnits. destruct (Big.set_string v) as [u|]; [|done]. destruct (_ && _) eqn:Hg; [|done].
  intros [= <-]. bool_facts. done.
Qed.

Lemma settlement_units_spec e :
  settlement_units_ok e = true →
  ∃ gross principal excess before after,
    ev_SourceUnits e = Big.to_string gross ∧ ev_GrossUnits e = Big.to_string gross ∧
    ev_PrincipalUnits e = Big.to_string principal ∧
    ev_RefundableExcessUnits e = Big.to_string excess ∧
    ev_DebtBeforeUnits e = Big.to_string before ∧ ev_DebtAfterUnits e = Big.to_string after ∧
    gross = principal + excess ∧ before = principal + after ∧
    0 < principal ∧ 0 <= excess ∧ 0 <= after.
Proof.
  unfold settlement_units_ok.
  destruct (parseUnits (ev_SourceUnits e)) as [so|] eqn:E1; [|done].
  destruct (parseUnits (ev_GrossUnits e)) as [g|] eqn:E2; [|done].
  destruct (parseUnits (ev_PrincipalUnits e)) as [p|] eqn:E3; [|done].
  destruct (parseNonNegativeUnits (ev_RefundableExcessUnits e)) as [x|] eqn:E4; [|done].
  destruct (parseUnits (ev_DebtBeforeUnits e)) as [b|] eqn:E5; [|done].
  destruct (parseNonNegativeUnits (ev_DebtAfterUnits e)) as [a|] eqn:E6; [|done].
  apply parseUnits_Some in E1 as [-> _], E2 as [-> _], E3 as [-> ?], E5 as [-> _].
  apply parseNonNegativeUnits_Some in E4 as [-> ?], E6 as [-> ?].
  intros Hg. bool_facts. subst. exists (p + x), p, x, (p + a), a. split_and!; done || lia.
Qed.

(** Principal repaid on a loan in a history. *)
Definition repaid (loan : string) (hist : list (Z * Event)) : Z :=
  Zsum (λ '(_, e), if (ev_Type e =s PrincipalRepaid) && (ev_LoanID e =s loan)
                   then default 0 (parseUnits (ev_AmountUnits e)) else 0) hist.

Record loan_ok (hist : list (Z * Event)) (id : string) (l : Loan) (principal outstanding : Z) : Prop := {
  lo_principal : ln_PrincipalUnits l = Big.to_string principal;
  lo_outstanding : ln_OutstandingUnits l = Big.to_string outstanding;
  lo_balance : principal = outstanding + repaid id hist;
  lo_range : 0 <= outstanding <= principal }.

Record projected (hist : list (Z * Event)) (s : Snapshot) : Prop := {
  pj_settlement : ∀ h e, (h, e) ∈ hist → is_settlement e →
    sn_CanonicalSettlements s !! ev_PaymentID e = Some (settlement_of e h) ∧
    settlement_fields_ok e = true ∧ settlement_units_ok e = true;
  pj_origin : ∀ p x, sn_CanonicalSettlements s !! p = Some x →
    ∃ h e, (h, e) ∈ hist ∧ is_settlement e ∧ p = ev_PaymentID e ∧ x = settlement_of e h;
  pj_allocation : ∀ p q x y, sn_CanonicalSettlements s !! p = Some x →
    sn_CanonicalSettlements s !! q = Some y → cs_AllocationID x = cs_AllocationID y → p = q;
  pj_loan : ∀ id l, sn_Loans s !! id = Some l → ∃ principal outstanding, loan_ok hist id l principal outstanding;
  pj_repaid : ∀ id, sn_Loans s !! id = None → repaid id hist = 0 }.

Lemma repaid_snoc id hist h e :
  repaid id (hist ++ [(h, e)]) = repaid id hist +
    if (ev_Type e =s PrincipalRepaid) && (ev_LoanID e =s id) then default 0 (parseUnits (ev_AmountUnits e)) else 0.
Proof. unfold repaid. rewrite Zsum_app, Zsum_cons, Zsum_nil. lia. Qed.

Lemma projected_quiet hist s h e s' :
  projected hist s → ¬ is_settlement e →
  sn_CanonicalSettlements s' = sn_CanonicalSettlements s →
  (∀ id l, sn_Loans s' !! id = Some l → ∃ p o, loan_ok (hist ++ [(h, e)]) id l p o) →
  (∀ id, sn_Loans s' !! id = None → repaid id (hist ++ [(h, e)]) = 0) →
  projected (hist ++ [(h, e)]) s'.
Proof.
  intros [P1 P2 P3 P4 P5] He Es Hl Hr. constructor; rewrite ?Es; try done.
  - intros h' e' [Hin|[= -> ->]%list_elem_of_singleton]%elem_of_app Ht; [by apply P1|done].
  - intros p x (h' & e' & Hin & ?)%P2. exists h', e'. split; [apply elem_of_app; by left|done].
Qed.

Lemma loan_ok_later hist id l p o h e :
  loan_ok hist id l p o → ev_Type e ≠ PrincipalRepaid ∨ ev_LoanID e ≠ id →
  loan_ok (hist ++ [(h, e)]) id l p o.
Proof.
  intros [L1 L2 L3 L4] Hne. constructor; try done. rewrite repaid_snoc.
  destruct (_ && _) eqn:Hb; [|lia]. bool_facts. naive_solver.
Qed.

Lemma repaid_later hist id h e :
  ev_Type e ≠ PrincipalRepaid ∨ ev_LoanID e ≠ id → repaid id (hist ++ [(h, e)]) = repaid id hist.
Proof. intros Hne. rewrite repaid_snoc. destruct (_ && _) eqn:Hb; [bool_facts; naive_solver|lia]. Qed.

(** Events that touch one loan, or none, without repaying. *)
Lemma projected_loan_update hist s h e s' id l :
  projected hist s → ¬ is_settlement e → ev_Type e ≠ PrincipalRepaid →
  sn_CanonicalSettlements s' = sn_CanonicalSettlements s →
  sn_Loans s' = <[id := l]> (sn_Loans s) → (∃ p o, loan_ok hist id l p o) →
  projected (hist ++ [(h, e)]) s'.
Proof.
  intros P He Hr Es El (p & o & Hok). eapply projected_quiet; try done; rewrite El.
  - intros i k. destruct (decide (i = id)) as [->|Hne].
    + rewrite lookup_insert_eq. intros [= <-]. exists p, o. apply loan_ok_later; auto.
    + rewrite lookup_insert_ne by done. intros (p' & o' & Hk)%(pj_loan _ _ P).
      exists p', o'. apply loan_ok_later; auto.
  - intros i Hi. rewrite repaid_later by auto. apply (pj_repaid _ _ P).
    destruct (decide (i = id)) as [->|Hne]; [by rewrite lookup_insert_eq in Hi|].
    by rewrite lookup_insert_ne in Hi.
Qed.

Lemma projected_tender hist s h e s' :
  projected hist s → ¬ is_settlement e → ev_Type e ≠ PrincipalRepaid →
  sn_CanonicalSettlements s' = sn_CanonicalSettlements s → sn_Loans s' = sn_Loans s →
  projected (hist ++ [(h, e)]) s'.
Proof.
  intros P He Hr Es El. eapply projected_quiet; try done; rewrite El.
  - intros i k (p & o & Hk)%(pj_loan _ _ P). exists p, o. apply loan_ok_later; auto.
  - intros i Hi. rewrite repaid_later by auto. by apply (pj_repaid _ _ P).
Qed.

Lemma projected_repaid hist s h e s' :
  projected hist s → ev_Type e = PrincipalRepaid → apply_principal_repaid s e h = Ok s' →
  projected (hist ++ [(h, e)]) s'.
Proof.
  intros P Ht. unfold apply_principal_repaid.
  destruct (sn_Loans s !! ev_LoanID e) as [l|] eqn:El; [|done]. destruct (_ || _); [done|].
  destruct (parseUnits (ev_AmountUnits e)) as [a|] eqn:Ea; [|done].
  destruct (parseUnits (ln_OutstandingUnits l)) as [o|] eqn:Eo; [|done].
  destruct (Z.ltb_spec o a) as [|Hle]; [done|]. destruct (has_key _ _); [done|]. intros <-%Ok_inj.
  apply parseUnits_Some in Eo as [Eo Ho]. pose proof (parseUnits_Some _ _ Ea) as [_ Ha].
  destruct (pj_loan _ _ P _ _ El) as (p & o' & [L1 L2 L3 L4]).
  rewrite Eo in L2. apply Big.to_string_inj in L2 as <-.
  eapply projected_quiet; [done| |done|..].
  - unfold is_settlement. rewrite Ht. done.
  - cbn [sn_Loans with_payments with_loans]. intros i k. destruct (decide (i = ev_LoanID e)) as [->|Hne].
    + rewrite lookup_insert_eq. intros [= <-]. exists p, (o - a). constructor; try done; simpl; [|lia].
      rewrite repaid_snoc, Ht, !String.eqb_refl, Ea. simpl. lia.
    + rewrite lookup_insert_ne by done. intros (p' & o' & Hk)%(pj_loan _ _ P).
      exists p', o'. apply loan_ok_later; auto.
  - cbn [sn_Loans with_payments with_loans]. intros i Hi.
    destruct (decide (i = ev_LoanID e)) as [->|Hne]; [by rewrite lookup_insert_eq in Hi|].
    rewrite lookup_insert_ne in Hi by done. rewrite repaid_later by auto. by apply (pj_repaid _ _ P).
Qed.

Lemma projected_settlement hist s h e s' :
  projected hist s → is_settlement e → apply_settlement s e h = Ok s' →
  projected (hist ++ [(h, e)]) s'.
Proof.
  intros P Ht. unfold apply_settlement. destruct (_ || _) eqn:Hok; [done|].
  destruct (match sn_Loans s !! _ with Some _ => _ | None => _ end); [done|].
  destruct (match sn_Payments s !! _ with Some _ => _ | None => _ end); [done|].
  destruct (has_key _ _) eqn:Hk; [done|]. apply has_key_false in Hk.
  destruct (existsb _ _) eqn:Hx; [done|]. intros <-%Ok_inj. bool_facts.
  assert (∀ p x, sn_CanonicalSettlements s !! p = Some x → cs_AllocationID x ≠ ev_AllocationID e) as Halloc.
  { intros p x Hp Ea. rewrite <- not_true_iff_false, existsb_exists in Hx. apply Hx.
    exists (p, x). rewrite <- list_elem_of_In, elem_of_map_to_list. split; [done|]. by apply String.eqb_eq. }
  assert (ev_Type e ≠ PrincipalRepaid) as Hnr by (unfold is_settlement in Ht; by rewrite Ht).
  destruct P as [P1 P2 P3 P4 P5].
  constructor; cbn [sn_CanonicalSettlements sn_Loans with_settlements with_payments].
  - intros h' e' [Hin|[= -> ->]%list_elem_of_singleton]%elem_of_app Ht'.
    + destruct (P1 _ _ Hin Ht') as (Hl & ? & ?). rewrite lookup_insert_ne; [done|]. congruence.
    + rewrite lookup_insert_eq. done.
  - intros p x. destruct (decide (p = ev_PaymentID e)) as [->|Hne].
    + rewrite lookup_insert_eq. intros [= <-]. exists h, e. split; [apply elem_of_app; right; by left|done].
    + rewrite lookup_insert_ne by done. intros (h' & e' & Hin & ?)%P2. exists h', e'.
      split; [apply elem_of_app; by left|done].
  - intros p q x y. destruct (decide (p = ev_PaymentID e)) as [->|Hp], (decide (q = ev_PaymentID e)) as [->|Hq];
      rewrite ?lookup_insert_eq, ?lookup_insert_ne by done; [done|..]; [| |apply P3].
    + intros [= <-] Hy Ea. exfalso. by eapply Halloc.
    + intros Hy [= <-] Ea. exfalso. by eapply Halloc.
  - intros i k (p & o & Hi)%P4. exists p, o. apply loan_ok_later; auto.
  - intros i Hi. rewrite repaid_later by auto. auto.
Qed.

Lemma apply_projected hist s h e s' :
  projected hist s → apply s e h = Ok s' → projected (hist ++ [(h, e)]) s'.
Proof.
  intros P. unfold apply.
  destruct (String.eqb_spec (ev_Type e) TenderPublished) as [Ht|_].
  { unfold apply_tender_published. destruct (_ || _); [done|]. intros <-%Ok_inj.
    apply (projected_tender _ s); try done; unfold is_settlement; by rewrite Ht. }
  destruct (String.eqb_spec (ev_Type e) OfferSelected) as [Ht|_].
  { unfold apply_offer_selected. destruct (sn_Tenders s !! _); [|done]. destruct (empty_s _); [done|].
    intros <-%Ok_inj. apply (projected_tender _ s); try done; unfold is_settlement; by rewrite Ht. }
  destruct (String.eqb_spec (ev_Type e) LoanActivated) as [Ht|_].
  { unfold apply_loan_activated. destruct (_ || _); [done|].
    destruct (parseUnits _) as [a|] eqn:Ea; [|done]. destruct (has_key _ _) eqn:Hk; [done|].
    apply has_key_false in Hk. apply parseUnits_Some in Ea as [Ea Ha]. intros <-%Ok_inj.
    eapply (projected_loan_update _ s); try done; [unfold is_settlement; by rewrite Ht|by rewrite Ht|].
    exists a, a. constructor; try done; [|lia]. rewrite (pj_repaid _ _ P _ Hk). lia. }
  destruct (String.eqb_spec (ev_Type e) PrincipalRepaid) as [Ht|_]; [by apply projected_repaid|].
  destruct (String.eqb_spec (ev_Type e) LoanClosed) as [Ht|_].
  { unfold apply_loan_closed. destruct (sn_Loans s !! _) as [l|] eqn:El; [|done].
    destruct (_ <>s _); [done|]. intros <-%Ok_inj.
    destruct (pj_loan _ _ P _ _ El) as (p & o & [L1 L2 L3 L4]).
    eapply (projected_loan_update _ s); try done; [unfold is_settlement; by rewrite Ht|by rewrite Ht|].
    exists p, o. by constructor. }
  destruct (String.eqb_spec (ev_Type e) CanonicalSettlementExecuted) as [Ht|_]; [|done].
  by apply projected_settlement.
Qed.

(** ** Rebuilding a chain *)

Lemma projected_same_maps hist s s' :
  projected hist s → sn_CanonicalSettlements s' = sn_CanonicalSettlements s →
  sn_Loans s' = sn_Loans s → projected hist s'.
Proof. intros [P1 P2 P3 P4 P5] Es El. constructor; rewrite ?Es, ?El; done. Qed.

Lemma apply_reorgs s e h s' : apply s e h = Ok s' → sn_SettlementReorgs s' = sn_SettlementReorgs s.
Proof.
  unfold apply, apply_tender_published, apply_offer_selected, apply_loan_activated,
    apply_principal_repaid, apply_loan_closed, apply_settlement.
  repeat (case_match; try done); by intros <-%Ok_inj.
Qed.

Lemma apply_events_projected evs : ∀ hist s h s',
  projected hist s → apply_events s evs h = Ok s' →
  projected (hist ++ map (λ e, (h, e)) evs) s' ∧ sn_SettlementReorgs s' = sn_SettlementReorgs s.
Proof.
  induction evs as [|e evs IH]; intros hist s h s' P; cbn [apply_events map].
  { intros <-%Ok_inj. by rewrite app_nil_r. }
  destruct (apply s e h) as [s1|] eqn:E; [|done]. intros Hr.
  destruct (IH _ _ _ _ (apply_projected _ _ _ _ _ P E) Hr) as [P' Hg].
  rewrite <- app_assoc in P'. split; [done|]. by rewrite Hg, (apply_reorgs _ _ _ _ E).
Qed.

Lemma history_app k c1 c2 :
  history k (c1 ++ c2) = history k c1 ++ history (k + Z.of_nat (length c1)) c2.
Proof.
  revert k. induction c1 as [|b c1 IH]; intros k; cbn [history app length]; [by rewrite Z.add_0_r|].
  rewrite IH, app_assoc. do 2 f_equal. lia.
Qed.

Lemma rebuild_loop_projected chain : ∀ k prior hist s s',
  projected hist s → rebuild_loop (number_from k chain) prior s = Ok s' →
  projected (hist ++ history k chain) s' ∧ sn_SettlementReorgs s' = sn_SettlementReorgs s ∧
  (∀ i b, chain !! i = Some b → bk_Number b = k + Z.of_nat i ∧ Time.IsZero (bk_ObservedAt b) = false).
Proof.
  induction chain as [|b chain IH]; intros k prior hist s s' P; cbn [number_from rebuild_loop history].
  { intros <-%Ok_inj. rewrite app_nil_r. split_and!; [done..|]. by intros i b. }
  destruct (_ || _) eqn:Hg; [done|]. bool_facts.
  destruct (apply_events s (bk_Events b) k) as [s1|] eqn:E; [|done]. intros Hr.
  destruct (apply_events_projected _ _ _ _ _ P E) as [P1 G1].
  eapply IH in Hr as (P2 & G2 & N2); [|by apply (projected_same_maps _ s1)].
  rewrite <- app_assoc in P2. split; [done|]. split; [by rewrite G2|].
  intros [|i] a; simpl; [intros [= <-]; split; [lia|done]|].
  intros Ha. destruct (N2 _ _ Ha). split; [lia|done].
Qed.

(** The head of the rebuilt snapshot is the last block. *)
Lemma apply_head s e h s' : apply s e h = Ok s' → sn_Head s' = sn_Head s.
Proof.
  unfold apply, apply_tender_published, apply_offer_selected, apply_loan_activated,
    apply_principal_repaid, apply_loan_closed, apply_settlement.
  repeat (case_match; try done); by intros <-%Ok_inj.
Qed.

Lemma rebuild_loop_head chain : ∀ k prior s s',
  rebuild_loop (number_from k chain) prior s = Ok s' →
  sn_Head s' = (match chain with [] => sn_Head s | _ => k + Z.of_nat (length chain) - 1 end).
Proof.
  induction chain as [|b chain IH]; intros k prior s s'; cbn [number_from rebuild_loop];
    [by intros <-%Ok_inj|].
  destruct (_ || _); [done|]. destruct (apply_events _ _ _) as [s1|]; [|done].
  intros Hr%IH. rewrite Hr. destruct chain; cbn [length sn_Head with_head]; lia.
Qed.

Lemma projected_init reorgs : projected [] (init_snapshot reorgs).
Proof.
  constructor; cbn [sn_CanonicalSettlements sn_Loans init_snapshot].
  - by intros h e ?%elem_of_nil.
  - intros p x. by rewrite lookup_empty.
  - intros p q x y. by rewrite lookup_empty.
  - intros id l. by rewrite lookup_empty.
  - done.
Qed.

(** Everything a successful projection guarantees; [s] is the state before the
    finality marks. *)
Lemma project_Ok chain reorgs depth snap :
  project chain reorgs depth = Ok snap →
  ∃ s, projected (history 1 chain) s ∧ snap = finish depth s ∧
    sn_Head s = Z.of_nat (length chain) ∧ sn_SettlementReorgs s = reorgs ∧
    (∀ i b, chain !! i = Some b → bk_Number b = 1 + Z.of_nat i ∧ Time.IsZero (bk_ObservedAt b) = false).
Proof.
  unfold project. destruct (rebuild_loop _ _ _) as [s|] eqn:E; [|done]. intros <-%Ok_inj. exists s.
  pose proof (rebuild_loop_head _ _ _ _ _ E) as Hh.
  apply (rebuild_loop_projected _ _ _ []) in E as (P & G & N); [|apply projected_init].
  split_and!; try done. rewrite Hh. destruct chain; cbn [length sn_Head init_snapshot]; lia.
Qed.

Lemma project_head chain reorgs depth snap :
  project chain reorgs depth = Ok snap → sn_Head snap = Z.of_nat (length chain).
Proof. by intros (s & _ & -> & Hh & _)%project_Ok. Qed.

(** * The indexer refines a chain *)

Definition ids (hist : list (Z * Event)) : list string := (λ x, ev_ID x.2) <$> hist.

Lemma foldl_delete_lookup {A B} (f : A → string) (l : list A) : ∀ (m : gmap string B) id,
  foldl (λ m x, delete (f x) m) m l !! id = if decide (id ∈ f <$> l) then None else m !! id.
Proof.
  induction l as [|x l IH]; intros m id; cbn [foldl fmap list_fmap].
  { rewrite decide_False; [done|]. by intros ?%elem_of_nil. }
  rewrite IH. destruct (decide (id ∈ f <$> l)) as [Hin|Hin].
  - rewrite decide_True; [done|]. by right.
  - destruct (decide (id = f x)) as [->|Hne].
    + rewrite decide_True by (by left). apply lookup_delete_eq.
    + rewrite lookup_delete_ne by done. rewrite decide_False; [done|].
      intros [|]%elem_of_cons; done.
Qed.

Lemma foldl_insert_grows {A B} (p : A → bool) (f : A → string) (g : A → B) l : ∀ (m : gmap string B) id,
  is_Some (m !! id) → is_Some (foldl (λ m x, if p x then <[f x := g x]> m else m) m l !! id).
Proof.
  induction l as [|x l IH]; intros m id Hm; cbn [foldl]; [done|]. apply IH.
  destruct (p x); [|done]. destruct (decide (id = f x)) as [->|];
    [rewrite lookup_insert_eq; eauto|by rewrite lookup_insert_ne].
Qed.



Section Chain.
Context `{Keccak}.

(** The events that a replacement orphans, with their blocks and heights. *)
Fixpoint orphaned (k : Z) (chain : list Block) : list (Z * Block * Event) :=
  match chain with
  | [] => []
  | block :: rest => map (λ e, (k, block, e)) (bk_Events block) ++ orphaned (k + 1) rest
  end.

Definition add_reorgs (ix : Indexer) (block : Block) (l : list (Z * Block * Event))
    (m : gmap string SettlementReorg) : gmap string SettlementReorg :=
  foldl (λ m x, if ev_Type x.2 =s CanonicalSettlementExecuted
                then <[ev_ID x.2 := reorg_of ix block x.1.2 x.2 x.1.1]> m else m) m l.
Definition drop_events (l : list (Z * Block * Event)) (m : gmap string Z) : gmap string Z :=
  foldl (λ m x, delete (ev_ID x.2) m) m l.

Lemma orphan_events_eq ix block removed h evs : ∀ eb rg,
  orphan_events ix block removed h evs eb rg =
  (drop_events (map (λ e, (h, removed, e)) evs) eb, add_reorgs ix block (map (λ e, (h, removed, e)) evs) rg).
Proof. induction evs as [|e evs IH]; intros eb rg; [done|]. cbn [orphan_events]. by rewrite IH. Qed.

Lemma orphan_loop_chain ix block suffix : ∀ k c,
  (∀ i, (i < length suffix)%nat → c_blocks c !! (k + Z.of_nat i) = suffix !! i) →
  let c' := orphan_loop ix block (seqZ k (Z.of_nat (length suffix))) c in
  (∀ h, c_blocks c' !! h =
     if (k <=? h) && (h <? k + Z.of_nat (length suffix)) then None else c_blocks c !! h) ∧
  c_eventBlocks c' = drop_events (orphaned k suffix) (c_eventBlocks c) ∧
  c_reorgs c' = add_reorgs ix block (orphaned k suffix) (c_reorgs c) ∧
  (∀ tx r, c_receipts c' !! tx = Some r → c_receipts c !! tx = Some r).
Proof.
  induction suffix as [|b suffix IH]; intros k c Hc.
  { cbn. split_and!; try done. intros h. destruct (_ && _) eqn:E; [bool_facts; lia|done]. }
  cbn [length]. rewrite Nat2Z.inj_succ, seqZ_cons by lia. cbn [orphan_loop].
  replace (Z.pred (Z.succ (Z.of_nat (length suffix)))) with (Z.of_nat (length suffix)) by lia.
  set (c1 := orphan_block ix block k c).
  assert (c1 = mkCandidate (delete k (c_blocks c)) (drop_events (map (λ e, (k, b, e)) (bk_Events b)) (c_eventBlocks c))
    (filter (λ '(_, receipt), vr_BlockNumber receipt ≠ k) (c_receipts c))
    (add_reorgs ix block (map (λ e, (k, b, e)) (bk_Events b)) (c_reorgs c))) as E1.
  { unfold c1, orphan_block. pose proof (Hc 0%nat ltac:(simpl; lia)) as Hb.
    rewrite Z.add_0_r in Hb. rewrite Hb. cbn [lookup list_lookup]. by rewrite orphan_events_eq. }
  destruct (IH (Z.succ k) c1) as (B & E & R & T).
  { intros i Hi. rewrite E1. cbn [c_blocks]. rewrite lookup_delete_ne by lia.
    replace (Z.succ k + Z.of_nat i) with (k + Z.of_nat (S i)) by lia. rewrite Hc by (simpl; lia). done. }
  rewrite E1 in B, E, R, T. cbn [c_blocks c_eventBlocks c_receipts c_reorgs] in *. rewrite E1.
  split_and!.
  - intros h. rewrite B. destruct (decide (h = k)) as [->|Hne].
    + rewrite lookup_delete_eq. destruct (Z.leb_spec k k), (Z.ltb_spec k (k + Z.succ (Z.of_nat (length suffix))));
        try lia. by destruct (_ && _).
    + rewrite lookup_delete_ne by done.
      destruct (Z.leb_spec (Z.succ k) h), (Z.leb_spec k h), (Z.ltb_spec h (Z.succ k + Z.of_nat (length suffix))),
        (Z.ltb_spec h (k + Z.succ (Z.of_nat (length suffix)))); try done; lia.
  - rewrite E. cbn [orphaned]. unfold drop_events. by rewrite foldl_app.
  - rewrite R. cbn [orphaned]. unfold add_reorgs. by rewrite foldl_app.
  - intros tx r Hr. apply T in Hr. by apply map_lookup_filter_Some in Hr as [Hr _].
Qed.

(** ** The loops that admit a block *)

Definition event_admitted (ix : Indexer) (height : Z) (hash : string) (e : Event) : Prop :=
  is_settlement e → ev_decodedCanonical e = true ∧ ev_BlockNumber e = height ∧ ev_BlockHash e = hash ∧
    (finalityPolicyHash ix ≠ ""%string → ev_FinalityPolicyHash e = finalityPolicyHash ix) ∧
    (chainID ix ≠ 0 → ev_ChainID e = chainID ix ∧ ev_Gateway e = gateway ix).

Lemma events_loop_Ok ix block evs : ∀ eb eb',
  events_loop ix block evs eb = Ok eb' →
  NoDup (ev_ID <$> evs) ∧ (∀ e, e ∈ evs → eb !! ev_ID e = None) ∧
  (∀ id h, eb' !! id = Some h ↔ eb !! id = Some h ∨ (h = bk_Number block ∧ id ∈ ev_ID <$> evs)) ∧
  Forall (event_admitted ix (bk_Number block) (bk_Hash block)) evs.
Proof.
  induction evs as [|e evs IH]; intros eb eb'; cbn [events_loop].
  { intros <-%Ok_inj. split_and!; [constructor|by intros e ?%elem_of_nil| |constructor].
    intros id h. split; [by left|]. intros [|[_ []%elem_of_nil]]; done. }
  destruct (_ || _); [done|]. destruct (_ && _) eqn:Hs; [done|].
  destruct (eb !! ev_ID e) as [|] eqn:He; [done|]. intros (N & F & I & A)%IH. cbn [fmap list_fmap].
  split_and!.
  - constructor; [|done]. intros (e' & Ee & Hin)%list_elem_of_fmap. specialize (F _ Hin).
    rewrite Ee, lookup_insert_eq in F. done.
  - intros e' [->|Hin]%elem_of_cons; [done|]. specialize (F _ Hin).
    destruct (decide (ev_ID e = ev_ID e')) as [E|E]; [by rewrite E, lookup_insert_eq in F|].
    by rewrite lookup_insert_ne in F.
  - intros id h. rewrite I, elem_of_cons. destruct (decide (ev_ID e = id)) as [<-|Hne].
    + rewrite lookup_insert_eq, He. naive_solver.
    + rewrite lookup_insert_ne by done. naive_solver.
  - constructor; [|done]. intros Ht. rewrite Ht, String.eqb_refl in Hs. cbn [andb] in Hs. bool_facts.
    split_and!; try done.
    + intros Hp. destruct (String.eqb_spec (finalityPolicyHash ix) ""); [done|]. cbn [negb andb] in *. bool_facts. done.
    + intros Hc. destruct (Z.eqb_spec (chainID ix) 0); [done|]. cbn [negb andb] in *. bool_facts. done.
Qed.
(** ** The simulation relation *)

(** An event comes from an accepted authenticated block with the given number and
    hash, and a receipt from some accepted block. *)
Definition event_source `{Ed25519} (ix : Indexer) (height : Z) (blockHash : string) (e : Event) : Prop :=
  blen (headerAuthority ix) ≠ 0 →
  ∃ ab header rs es,
    verifyAuthenticatedBlock (chainID ix) (gateway ix) (headerAuthority ix) ab = Ok (header, rs, es) ∧
    e ∈ es ∧ number header = height ∧ hash header = blockHash.
Definition receipt_source `{Ed25519} (ix : Indexer) (r : verifiedReceipt) : Prop :=
  blen (headerAuthority ix) ≠ 0 →
  ∃ ab header rs es,
    verifyAuthenticatedBlock (chainID ix) (gateway ix) (headerAuthority ix) ab = Ok (header, rs, es) ∧
    r ∈ rs.

Definition block_sourced `{Ed25519} (ix : Indexer) (height : Z) (b : Block) : Prop :=
  Forall (λ e, event_source ix height (bk_Hash b) e ∧ event_admitted ix height (bk_Hash b) e) (bk_Events b).

(** Every block names its predecessor. *)
Definition chained (chain : list Block) : Prop :=
  ∀ i a b, chain !! i = Some a → chain !! S i = Some b → bk_ParentHash b = bk_Hash a.

Record chain_inv `{Ed25519} (ix : Indexer) (chain : list Block) : Prop := {
  ci_blocks : holds_chain (blocks ix) chain;
  ci_chained : chained chain;
  ci_snapshot : project chain (settlementReorgs ix) (finalityDepth ix) = Ok (snapshot ix);
  ci_ids : NoDup (ids (history 1 chain));
  ci_index : ∀ id h, eventBlocks ix !! id = Some h ↔ ∃ e, (h, e) ∈ history 1 chain ∧ ev_ID e = id;
  ci_sourced : ∀ i b, chain !! i = Some b → block_sourced ix (Z.of_nat i + 1) b;
  ci_receipts : ∀ tx r, receipts ix !! tx = Some r → tx = vr_TransactionHash r ∧ receipt_source ix r }.

Lemma history_elem k chain h e :
  (h, e) ∈ history k chain ↔
  ∃ i b, chain !! i = Some b ∧ h = k + Z.of_nat i ∧ e ∈ bk_Events b.
Proof.
  revert k. induction chain as [|a chain IH]; intros k; cbn [history].
  { split; [by intros ?%elem_of_nil|]. by intros (i & b & ? & _). }
  rewrite elem_of_app, list_elem_of_fmap, IH. split.
  - intros [(e' & [= -> ->] & He)|(i & b & Hb & -> & He)].
    + exists 0%nat, a. split_and!; [done|lia|done].
    + exists (S i), b. split_and!; [done|lia|done].
  - intros ([|i] & b & Hb & -> & He).
    + injection Hb as <-. left. exists e. split; [f_equal; lia|done].
    + right. exists i, b. split_and!; [done|lia|done].
Qed.

Lemma orphaned_ids k chain : (λ x, ev_ID x.2) <$> orphaned k chain = ids (history k chain).
Proof.
  revert k. induction chain as [|b chain IH]; intros k; [done|]. cbn [orphaned history].
  unfold ids in *. rewrite !fmap_app, IH. f_equal. rewrite <- !list_fmap_compose. done.
Qed.


Lemma holds_chain_replace m chain n b :
  holds_chain m chain → (n <= length chain)%nat →
  ∀ m', (∀ h, m' !! h = if (Z.of_nat n + 1 <=? h) && (h <? Z.of_nat n + 1 + Z.of_nat (length (drop n chain)))
                        then None else m !! h) →
  holds_chain (<[Z.of_nat n + 1 := b]> m') (take n chain ++ [b]).
Proof.
  intros Hm Hn m' Hm' h. rewrite length_drop in Hm'.
  destruct (decide (h = Z.of_nat n + 1)) as [->|Hne].
  { rewrite lookup_insert_eq, (proj2 (Z.leb_le _ _)) by lia.
    rewrite lookup_app_r by (rewrite length_take; lia). rewrite length_take.
    by replace (_ - _)%nat with 0%nat by lia. }
  rewrite lookup_insert_ne, Hm', Hm by done.
  destruct (Z.leb_spec 1 h) as [H1|H1]; [|by destruct (_ && _)].
  destruct (Z.leb_spec (Z.of_nat n + 1) h) as [H2|H2]; cbn [andb].
  - rewrite (lookup_ge_None_2 (take n chain ++ [b])) by (rewrite length_app, length_take; simpl; lia).
    destruct (Z.ltb_spec h (Z.of_nat n + 1 + Z.of_nat (length chain - n))) as [|H3]; [done|].
    apply lookup_ge_None_2. lia.
  - rewrite lookup_app_l by (rewrite length_take; lia). by rewrite lookup_take_lt by lia.
Qed.
(** The configuration never changes. *)
Record same_config (ix ix' : Indexer) : Prop := {
  sc_chain : chainID ix' = chainID ix; sc_gateway : gateway ix' = gateway ix;
  sc_depth : finalityDepth ix' = finalityDepth ix;
  sc_authority : headerAuthority ix' = headerAuthority ix;
  sc_authority_hash : headerAuthorityHash ix' = headerAuthorityHash ix;
  sc_policy : finalityPolicyHash ix' = finalityPolicyHash ix }.

Lemma same_config_refl ix : same_config ix ix.
Proof. by constructor. Qed.

Lemma commit_Ok c ix ix' :
  commit c ix = (ix', Ok ()) →
  same_config ix ix' ∧ blocks ix' = c_blocks c ∧ eventBlocks ix' = c_eventBlocks c ∧
  receipts ix' = c_receipts c ∧ settlementReorgs ix' = c_reorgs c ∧
  rebuild (c_blocks c) (c_reorgs c) (finalityDepth ix) = Ok (snapshot ix').
Proof.
  unfold commit. destruct (rebuild _ _ _) as [s|] eqn:E; [|done]. intros [= <-].
  split_and!; try done.
Qed.

Lemma event_source_config `{Ed25519} ix ix' h x e :
  same_config ix ix' → event_source ix h x e → event_source ix' h x e.
Proof. intros [C1 C2 C3 C4 C5 C6]. unfold event_source. by rewrite C1, C2, C4. Qed.
Lemma receipt_source_config `{Ed25519} ix ix' r :
  same_config ix ix' → receipt_source ix r → receipt_source ix' r.
Proof. intros [C1 C2 C3 C4 C5 C6]. unfold receipt_source. by rewrite C1, C2, C4. Qed.
Lemma event_admitted_config ix ix' h x e :
  same_config ix ix' → event_admitted ix h x e → event_admitted ix' h x e.
Proof. intros [C1 C2 C3 C4 C5 C6]. unfold event_admitted. by rewrite C1, C2, C6. Qed.
Lemma block_sourced_config `{Ed25519} ix ix' h b :
  same_config ix ix' → block_sourced ix h b → block_sourced ix' h b.
Proof.
  intros C Hb. eapply Forall_impl; [exact Hb|]. intros e [??]. split; [by eapply event_source_config|by eapply event_admitted_config].
Qed.

Lemma receipts_loop_Ok block rs : ∀ m m',
  receipts_loop block rs m = Ok m' →
  ∀ tx r, m' !! tx = Some r → m !! tx = Some r ∨ (r ∈ rs ∧ tx = vr_TransactionHash r).
Proof.
  induction rs as [|x rs IH]; intros m m'; cbn [receipts_loop]; [intros <-%Ok_inj; by left|].
  destruct (_ || _); [done|]. destruct (match m !! _ with Some _ => _ | None => _ end); [done|].
  intros Hr tx r [Hl|[Hin ->]]%(IH _ _ Hr); [|right; split; [by right|done]].
  destruct (decide (tx = vr_TransactionHash x)) as [->|Hne].
  - rewrite lookup_insert_eq in Hl. injection Hl as <-. right. split; [by left|done].
  - rewrite lookup_insert_ne in Hl by done. by left.
Qed.

(** A receipt of a delivered block is on file, under its transaction. *)
Definition receipt_held (m : gmap string verifiedReceipt) (r : verifiedReceipt) : Prop :=
  ∃ r', m !! vr_TransactionHash r = Some r' ∧ vr_BlockNumber r' = vr_BlockNumber r ∧
    vr_TransactionIndex r' = vr_TransactionIndex r.

Lemma receipts_loop_held block rs : ∀ m m',
  receipts_loop block rs m = Ok m' →
  Forall (receipt_held m') rs ∧ ∀ r, receipt_held m r → receipt_held m' r.
Proof.
  induction rs as [|x rs IH]; intros m m'; cbn [receipts_loop]; [intros <-%Ok_inj; split; [constructor|done]|].
  destruct (_ || _); [done|]. destruct (match m !! _ with Some _ => _ | None => _ end) eqn:Hm; [done|].
  intros [Hrs Hkeep]%IH. split.
  - constructor; [|done]. apply Hkeep. exists x. by rewrite lookup_insert_eq.
  - intros r (r' & Hr & Hn & Hi). apply Hkeep. unfold receipt_held.
    destruct (decide (vr_TransactionHash r = vr_TransactionHash x)) as [E|E].
    + exists x. rewrite E, lookup_insert_eq. rewrite E in Hr. rewrite Hr in Hm. bool_facts.
      split_and!; congruence.
    + exists r'. by rewrite lookup_insert_ne.
Qed.

Lemma history_singleton k b : history k [b] = map (λ e, (k, e)) (bk_Events b).
Proof. cbn [history]. apply app_nil_r. Qed.

Lemma ids_map k evs : ids (map (λ e, (k, e)) evs) = ev_ID <$> evs.
Proof. unfold ids. by rewrite <- list_fmap_compose. Qed.

(** The index after a replacement is exactly the index of the new chain. *)
Lemma index_replace chain n block (eb eb' : gmap string Z) :
  (n <= length chain)%nat → bk_Number block = Z.of_nat n + 1 → NoDup (ids (history 1 chain)) →
  (∀ id h, eb !! id = Some h ↔ ∃ e, (h, e) ∈ history 1 chain ∧ ev_ID e = id) →
  NoDup (ev_ID <$> bk_Events block) →
  (∀ e, e ∈ bk_Events block → drop_events (orphaned (bk_Number block) (drop n chain)) eb !! ev_ID e = None) →
  (∀ id h, eb' !! id = Some h ↔ drop_events (orphaned (bk_Number block) (drop n chain)) eb !! id = Some h ∨
                               (h = bk_Number block ∧ id ∈ ev_ID <$> bk_Events block)) →
  NoDup (ids (history 1 (take n chain ++ [block]))) ∧
  (∀ id h, eb' !! id = Some h ↔ ∃ e, (h, e) ∈ history 1 (take n chain ++ [block]) ∧ ev_ID e = id).
Proof.
  intros Hn Hnum Hnd Hix Hblk Hfresh Hix'.
  assert (history 1 chain = history 1 (take n chain) ++ history (bk_Number block) (drop n chain)) as Hsplit.
  { rewrite <- (take_drop n chain) at 1. rewrite history_app, length_take. f_equal. f_equal. lia. }
  assert (history 1 (take n chain ++ [block]) = history 1 (take n chain) ++ map (λ e, (bk_Number block, e)) (bk_Events block)) as Hnew.
  { rewrite history_app, history_singleton, length_take.
    by replace (1 + Z.of_nat (Nat.min n (length chain))) with (bk_Number block) by lia. }
  rewrite Hnew. rewrite Hsplit in Hnd, Hix. unfold ids in Hnd. rewrite fmap_app in Hnd.
  apply NoDup_app in Hnd as (Hnd1 & Hdis & Hnd2).
  assert (∀ id h, drop_events (orphaned (bk_Number block) (drop n chain)) eb !! id = Some h ↔
    ∃ e, (h, e) ∈ history 1 (take n chain) ∧ ev_ID e = id) as Hold.
  { intros id h. unfold drop_events. rewrite foldl_delete_lookup, orphaned_ids.
    destruct (decide (id ∈ ids _)) as [Hin|Hin].
    - split; [done|]. intros (e & He & <-). exfalso. apply (Hdis (ev_ID e)); [|done].
      apply list_elem_of_fmap. by exists (h, e).
    - rewrite Hix. split; intros (e & He & <-); exists e; (split; [|done]).
      + apply elem_of_app in He as [|He]; [done|]. exfalso. apply Hin. apply list_elem_of_fmap. by exists (h, e).
      + apply elem_of_app. by left. }
  split.
  - unfold ids. rewrite fmap_app. fold (ids (map (λ e, (bk_Number block, e)) (bk_Events block))). rewrite ids_map.
    apply NoDup_app. split_and!; [done| |done]. intros id ([h e] & -> & He)%list_elem_of_fmap (e' & Ee & He')%list_elem_of_fmap.
    specialize (Hfresh _ He'). simpl in Ee. assert (drop_events (orphaned (bk_Number block) (drop n chain)) eb !! ev_ID e' = Some h) as Hs.
    { apply Hold. exists e. split; [done|congruence]. } congruence.
  - intros id h. rewrite Hix', Hold. setoid_rewrite elem_of_app. split.
    + intros [(e & He & <-)|[-> (e & -> & He)%list_elem_of_fmap]]; [by eauto|].
      exists e. split; [right|done]. apply list_elem_of_fmap. by exists e.
    + intros (e & [He|(e' & [= -> ->] & He)%list_elem_of_fmap] & <-); [left; eauto|].
      right. split; [done|]. apply list_elem_of_fmap. by exists e'.
Qed.
(** ** Replacing a suffix by a block *)

Lemma replace_from_sim `{Ed25519} ix chain block rs ix' :
  chain_inv ix chain → 1 <= bk_Number block →
  Forall (event_source ix (bk_Number block) (bk_Hash block)) (bk_Events block) →
  Forall (receipt_source ix) rs → replace_from block rs ix = (ix', Ok ()) →
  let n := Z.to_nat (bk_Number block - 1) in
  (n <= length chain)%nat ∧ same_config ix ix' ∧ chain_inv ix' (take n chain ++ [block]) ∧
  settlementReorgs ix' = add_reorgs ix block (orphaned (bk_Number block) (drop n chain)) (settlementReorgs ix) ∧
  Forall (receipt_held (receipts ix')) rs.
Proof.
  intros I Hn1 Hes Hrs. unfold replace_from. pose proof (project_head _ _ _ _ (ci_snapshot _ _ I)) as Hhead.
  destruct (_ && _) eqn:Hpar; [done|]. destruct (negb (Time.IsZero _) && _); [done|].
  set (n := Z.to_nat (bk_Number block - 1)). assert (bk_Number block = Z.of_nat n + 1) as Hnum by lia.
  assert ((n <= length chain)%nat ∧ ∀ a, (0 < n)%nat → chain !! (n - 1)%nat = Some a → bk_ParentHash block = bk_Hash a) as [Hlen Hlink].
  { destruct (Z.ltb_spec 1 (bk_Number block)); cbn [andb] in Hpar; [|split; [lia|]; intros a Ha; lia].
    rewrite (ci_blocks _ _ I) in Hpar. rewrite (proj2 (Z.leb_le _ _)) in Hpar by lia.
    replace (Z.to_nat (bk_Number block - 1 - 1)) with (n - 1)%nat in Hpar by lia.
    destruct (chain !! (n - 1)%nat) as [a|] eqn:Ha; [|done]. apply lookup_lt_Some in Ha as Hlt.
    bool_facts. split; [lia|]. intros ? _ [= <-]. congruence. }
  rewrite Hhead. replace (Z.of_nat (length chain) - bk_Number block + 1)
    with (Z.of_nat (length (drop n chain))) by (rewrite length_drop; lia).
  set (c0 := mkCandidate (blocks ix) (eventBlocks ix) (receipts ix) (settlementReorgs ix)).
  destruct (orphan_loop_chain ix block (drop n chain) (bk_Number block) c0) as (B & E & R & T).
  { intros i Hi. cbn [c0 c_blocks]. rewrite (ci_blocks _ _ I), (proj2 (Z.leb_le _ _)) by lia.
    rewrite lookup_drop. f_equal. lia. }
  set (c := orphan_loop _ _ _ c0) in *.
  destruct (receipts_loop _ _ _) as [rm|] eqn:Hrl; [|done].
  destruct (events_loop _ _ _ _) as [em|] eqn:Hel; [|done].
  intros (SC & Eb & Ee & Er & Eg & Es)%commit_Ok. cbn [c_blocks c_eventBlocks c_receipts c_reorgs] in *.
  rewrite Hnum in B. pose proof (holds_chain_replace _ _ n block (ci_blocks _ _ I) Hlen _ B) as Hholds.
  rewrite <- Hnum in Hholds.
  rewrite E in Hel. apply events_loop_Ok in Hel as (N & F & J & A).
  destruct (index_replace chain n block (eventBlocks ix) em Hlen Hnum (ci_ids _ _ I) (ci_index _ _ I) N F J) as [Hids Hidx].
  split; [done|]. split; [done|].
  split; [|split; [by rewrite Eg, R|rewrite Er; by eapply receipts_loop_held]].
  constructor; rewrite ?Eb, ?Ee, ?Er, ?Eg; try done.
  - intros i a b Ha Hb. destruct (decide (S i < n)%nat) as [Hi|Hi].
    + rewrite !lookup_app_l in * by (rewrite length_take; lia).
      rewrite lookup_take_lt in Ha by lia. rewrite lookup_take_lt in Hb by lia. by eapply (ci_chained _ _ I).
    + assert (S i = n) as Hsn by (apply lookup_lt_Some in Hb; rewrite length_app, length_take in Hb; simpl in Hb; lia).
      rewrite lookup_app_l in Ha by (rewrite length_take; lia). rewrite lookup_take_lt in Ha by lia.
      rewrite lookup_app_r in Hb by (rewrite length_take; lia). rewrite length_take in Hb.
      replace (S i - Nat.min n (length chain))%nat with 0%nat in Hb by lia. injection Hb as <-.
      apply Hlink; [lia|]. by replace (n - 1)%nat with i by lia.
  - rewrite (sc_depth _ _ SC). by rewrite <- (rebuild_project _ _ _ _ Hholds).
  - intros i b Hb. apply (block_sourced_config ix); [done|]. destruct (decide (i < n)%nat) as [Hi|Hi].
    + rewrite lookup_app_l in Hb by (rewrite length_take; lia). rewrite lookup_take_lt in Hb by lia.
      by apply (ci_sourced _ _ I).
    + assert (i = n) as -> by (apply lookup_lt_Some in Hb; rewrite length_app, length_take in Hb; simpl in Hb; lia).
      rewrite lookup_app_r in Hb by (rewrite length_take; lia). rewrite length_take in Hb.
      replace (n - Nat.min n (length chain))%nat with 0%nat in Hb by lia. injection Hb as <-.
      rewrite <- Hnum. apply Forall_and. by split.
  - intros tx r Hr. destruct (receipts_loop_Ok _ _ _ _ Hrl _ _ Hr) as [Hr'|[Hin ->]]; clear Hr.
    + apply T in Hr' as Hr. destruct (ci_receipts _ _ I _ _ Hr). split; [done|]. by eapply receipt_source_config.
    + split; [done|]. eapply receipt_source_config; [done|]. by eapply Forall_forall in Hrs.
Qed.
(** ** Enriching a known block *)

Lemma enrich_events_Ok ix existing incoming : ∀ ee el eb merged changed eb' merged' changed',
  enrich_events ix existing incoming ee el eb merged changed = Ok (eb', merged', changed') →
  ∃ new, merged' = merged ++ new ∧ (∀ e, e ∈ new → e ∈ incoming) ∧ NoDup (ev_ID <$> new) ∧
    (∀ e, e ∈ new → eb !! ev_ID e = None) ∧
    (∀ id h, eb' !! id = Some h ↔ eb !! id = Some h ∨ (h = bk_Number existing ∧ id ∈ ev_ID <$> new)) ∧
    Forall (event_admitted ix (bk_Number existing) (bk_Hash existing)) new ∧
    (changed' = false → changed = false ∧ new = []) ∧
    ((∀ id p, ee !! id = Some p → p ∈ merged) → ∀ e, e ∈ incoming → e ∈ merged').
Proof.
  induction incoming as [|e incoming IH]; intros ee el eb merged changed eb' merged' changed'; cbn [enrich_events].
  { intros [= <- <- <-]. exists []. rewrite app_nil_r.
    split_and!; [done|by intros e ?%elem_of_nil|constructor|by intros e ?%elem_of_nil| |constructor|done|
      by intros _ e ?%elem_of_nil].
    intros id h. split; [by left|]. intros [|[_ []%elem_of_nil]]; done. }
  destruct (_ || _) eqn:Hg; [done|].
  destruct (ee !! ev_ID e) as [prior|] eqn:Hee.
  { case_bool_decide as Hp; cbn [negb]; [|done].
    intros (new & -> & Hin & N & F & J & A & C & M)%IH. exists new. split; [done|].
    split_and!; try done; [intros x Hx; right; auto|].
    intros Hm x [->|Hx]%elem_of_cons; [|by apply M]. apply elem_of_app. left. rewrite <- Hp. by eapply Hm. }
  destruct (match el !! _ with Some _ => _ | None => _ end); [done|].
  destruct (eb !! ev_ID e) as [|] eqn:He; [done|]. intros (new & -> & Hin & N & F & J & A & C & M)%IH.
  exists (e :: new). rewrite <- app_assoc in *. cbn [fmap list_fmap]. split_and!; try done.
  - intros x [->|Hx]%elem_of_cons; [by left|right; auto].
  - constructor; [|done]. intros (x & Ex & Hx)%list_elem_of_fmap. specialize (F _ Hx).
    by rewrite Ex, lookup_insert_eq in F.
  - intros x [->|Hx]%elem_of_cons; [done|]. specialize (F _ Hx).
    destruct (decide (ev_ID e = ev_ID x)) as [E|E]; [by rewrite E, lookup_insert_eq in F|].
    by rewrite lookup_insert_ne in F.
  - intros id h. rewrite J, elem_of_cons. destruct (decide (ev_ID e = id)) as [<-|Hne].
    + rewrite lookup_insert_eq, He. naive_solver.
    + rewrite lookup_insert_ne by done. naive_solver.
  - constructor; [|done]. intros Ht. apply orb_false_iff in Hg as [_ Hg].
    rewrite Ht, String.eqb_refl in Hg. cbn [andb] in Hg. bool_facts. split_and!; done.
  - intros Hc. by destruct (C Hc).
  - intros Hm x [->|Hx]%elem_of_cons; [apply elem_of_app; right; by left|]. apply M; [|done].
    intros id p. rewrite elem_of_app, list_elem_of_singleton.
    destruct (decide (ev_ID e = id)) as [<-|Hne]; [rewrite lookup_insert_eq; intros [= <-]; by right|].
    rewrite lookup_insert_ne by done. left. by eapply Hm.
Qed.

Lemma events_by_id_elem evs id e : events_by_id evs !! id = Some e → e ∈ evs.
Proof.
  unfold events_by_id. assert (∀ (m : gmap string Event) l,
    foldl (λ m event, <[ev_ID event := event]> m) m l !! id = Some e → m !! id = Some e ∨ e ∈ l) as Hl.
  { intros m l. revert m. induction l as [|x l IH]; intros m; cbn [foldl]; [by left|].
    intros [Hm|Hx]%IH; [|right; by right]. destruct (decide (ev_ID x = id)) as [<-|Hne].
    - rewrite lookup_insert_eq in Hm. injection Hm as <-. right. by left.
    - rewrite lookup_insert_ne in Hm by done. by left. }
  intros [Hx|?]%Hl; [by rewrite lookup_empty in Hx|done].
Qed.

Lemma receipt_indexes_elem existing rs : ∀ indexes indexes' i r,
  receipt_indexes existing rs indexes = Ok indexes' → indexes' !! i = Some r →
  indexes !! i = Some r ∨ ∃ tx, (tx, r) ∈ rs.
Proof.
  induction rs as [|[tx x] rs IH]; intros indexes indexes' i r; cbn [receipt_indexes]; [intros <-%Ok_inj; by left|].
  assert (receipt_indexes existing rs (<[vr_TransactionIndex x := x]> indexes) = Ok indexes' →
    indexes' !! i = Some r → indexes !! i = Some r ∨ ∃ tx', (tx', r) ∈ (tx, x) :: rs) as Hins.
  { intros Hx Hi. destruct (IH _ _ _ _ Hx Hi) as [Hl|[tx' Hin]]; [|right; exists tx'; by right].
    destruct (decide (vr_TransactionIndex x = i)) as [<-|Hne].
    - rewrite lookup_insert_eq in Hl. injection Hl as <-. right. exists tx. by left.
    - rewrite lookup_insert_ne in Hl by done. by left. }
  destruct (_ && _); [|intros Hx Hi; destruct (IH _ _ _ _ Hx Hi) as [|[tx' ?]]; [by left|right; exists tx'; by right]].
  destruct (indexes !! vr_TransactionIndex x); [|done]. by destruct (negb _).
Qed.

Lemma enrich_receipts_held existing rs : ∀ indexes m changed m' changed',
  enrich_receipts existing rs indexes m changed = Ok (m', changed') →
  (∀ i r, indexes !! i = Some r → receipt_held m r) →
  Forall (receipt_held m') rs ∧ (∀ r, receipt_held m r → receipt_held m' r) ∧
  (changed' = false → changed = false ∧ m' = m).
Proof.
  induction rs as [|x rs IH]; intros indexes m changed m' changed'; cbn [enrich_receipts].
  { intros [= <- <-] _. split; [constructor|done]. }
  destruct (_ || _); [done|].
  assert (∀ q, m !! vr_TransactionHash x = Some q → q = x → receipt_held m x) as Hsame
    by (intros q Hq ->; by exists x).
  destruct (indexes !! vr_TransactionIndex x) as [q|] eqn:Hi; [|destruct (m !! vr_TransactionHash x) as [q|] eqn:Hm].
  - case_bool_decide as Hq; cbn [negb]; [|done]. subst q. intros Hr Hidx.
    destruct (IH _ _ _ _ _ Hr Hidx) as (Hrs & Hk & Hc). split; [|done]. constructor; [|done].
    apply Hk. by eapply Hidx.
  - case_bool_decide as Hq; cbn [negb]; [|done]. intros Hr Hidx.
    destruct (IH _ _ _ _ _ Hr Hidx) as (Hrs & Hk & Hc). split; [|done]. constructor; [|done].
    apply Hk. by eapply Hsame.
  - intros Hr Hidx. assert (∀ r, receipt_held m r → receipt_held (<[vr_TransactionHash x := x]> m) r) as Hg.
    { intros r (r' & Hr' & Hp). exists r'. split; [|done]. rewrite lookup_insert_ne; [done|].
      intros E. by rewrite E, Hr' in Hm. }
    assert (receipt_held (<[vr_TransactionHash x := x]> m) x) as Hx by (exists x; by rewrite lookup_insert_eq).
    destruct (IH _ _ _ _ _ Hr) as (Hrs & Hk & Hc).
    { intros i r. destruct (decide (vr_TransactionIndex x = i)) as [<-|Hne].
      - rewrite lookup_insert_eq. by intros [= <-].
      - rewrite lookup_insert_ne by done. intros Hir. apply Hg. by eapply Hidx. }
    split; [constructor; [by apply Hk|done]|]. split; [intros r Hh; by apply Hk, Hg|].
    intros E. by destruct (Hc E).
Qed.

Lemma enrich_receipts_Ok existing rs : ∀ indexes m changed m' changed',
  enrich_receipts existing rs indexes m changed = Ok (m', changed') →
  ∀ tx r, m' !! tx = Some r → m !! tx = Some r ∨ (r ∈ rs ∧ tx = vr_TransactionHash r).
Proof.
  induction rs as [|x rs IH]; intros indexes m changed m' changed'; cbn [enrich_receipts].
  { intros [= <- <-]. by left. }
  destruct (_ || _); [done|].
  destruct (indexes !! vr_TransactionIndex x) as [p|], (m !! vr_TransactionHash x) as [q|] eqn:Hm; try (destruct (bool_decide _); cbn [negb]; [|done]);
    intros Hr tx r [Hl|[Hin ->]]%(IH _ _ _ _ _ Hr); try (right; split; [by right|done]); try by left.
  destruct (decide (tx = vr_TransactionHash x)) as [->|Hne].
  - rewrite lookup_insert_eq in Hl. injection Hl as <-. right. split; [by left|done].
  - rewrite lookup_insert_ne in Hl by done. by left.
Qed.

Lemma history_insert k chain n b b' new :
  chain !! n = Some b → bk_Events b' ≡ₚ bk_Events b ++ new →
  history k (<[n := b']> chain) ≡ₚ history k chain ++ map (λ e, (k + Z.of_nat n, e)) new.
Proof.
  intros Hn Hp. rewrite <- (take_drop_middle chain n b Hn) at 2.
  rewrite insert_take_drop by (by eapply lookup_lt_Some). rewrite !history_app. cbn [history].
  assert (length (take n chain) = n) as -> by (rewrite length_take; apply lookup_lt_Some in Hn; lia).
  change (map ?f ?l) with (f <$> l). rewrite Hp, fmap_app. solve_Permutation.
Qed.

Lemma holds_chain_insert m chain n b :
  holds_chain m chain → (n < length chain)%nat → holds_chain (<[Z.of_nat n + 1 := b]> m) (<[n := b]> chain).
Proof.
  intros Hm Hn h. destruct (decide (h = Z.of_nat n + 1)) as [->|Hne].
  - rewrite lookup_insert_eq, (proj2 (Z.leb_le _ _)) by lia.
    replace (Z.to_nat (Z.of_nat n + 1 - 1)) with n by lia. by rewrite list_lookup_insert_eq.
  - rewrite lookup_insert_ne, Hm by done. destruct (Z.leb_spec 1 h); [|done].
    by rewrite list_lookup_insert_ne by lia.
Qed.

Lemma enrich_sim `{Ed25519} ix chain n existing incoming rs ix' :
  chain_inv ix chain → chain !! n = Some existing → bk_Hash existing = bk_Hash incoming →
  Forall (event_source ix (Z.of_nat n + 1) (bk_Hash existing)) (bk_Events incoming) →
  Forall (receipt_source ix) rs →
  enrichAuthenticatedBlock existing incoming rs ix = (ix', Ok ()) →
  ∃ evs new, bk_ParentHash incoming = bk_ParentHash existing ∧
    evs ≡ₚ bk_Events existing ++ new ∧ (∀ e, e ∈ new → e ∈ bk_Events incoming) ∧
    (∀ e, e ∈ bk_Events incoming → e ∈ evs) ∧ same_config ix ix' ∧
    chain_inv ix' (<[n := with_events evs existing]> chain) ∧ settlementReorgs ix' = settlementReorgs ix ∧
    Forall (receipt_held (receipts ix')) rs.
Proof.
  intros I Hn Eh Hes Hrs. unfold enrichAuthenticatedBlock. destruct (_ || _) eqn:Hhd; [done|]. bool_facts.
  destruct (receipt_indexes _ _ _) as [indexes|] eqn:Hri; [|done].
  destruct (enrich_receipts _ _ _ _ _) as [[rm ch]|] eqn:Hr; [|done].
  destruct (enrich_receipts_held _ _ _ _ _ _ _ Hr) as (Hheld & _ & Hrm).
  { intros i r Hi. destruct (receipt_indexes_elem _ _ _ _ _ _ Hri Hi) as [Hx|[tx Hx%elem_of_map_to_list]];
      [by rewrite lookup_empty in Hx|]. destruct (ci_receipts _ _ I _ _ Hx) as [-> _]. by exists r. }
  destruct (enrich_events _ _ _ _ _ _ _ _) as [[[em merged] ch']|] eqn:He; [|done].
  assert (∀ e, e ∈ bk_Events incoming → e ∈ merged) as Hcover.
  { apply enrich_events_Ok in He as (new & _ & _ & _ & _ & _ & _ & _ & M). apply M.
    intros id e. apply events_by_id_elem. }
  destruct ch'; cbn [negb]; cycle 1.
  { intros [= <-]. apply enrich_events_Ok in He as (new & -> & _ & _ & _ & _ & _ & C & _).
    destruct (C eq_refl) as [-> ->]. destruct (Hrm eq_refl) as [_ ->]. rewrite app_nil_r in Hcover.
    exists (bk_Events existing), []. rewrite app_nil_r.
    assert (with_events (bk_Events existing) existing = existing) as -> by (by destruct existing).
    rewrite list_insert_id by done. split_and!; first [done|apply same_config_refl|by intros e ?%elem_of_nil]. }
  intros (SC & Eb & Ee & Er & Eg & Es)%commit_Ok.
  cbn [c_blocks c_eventBlocks c_receipts c_reorgs] in *.
  destruct (project_Ok _ _ _ _ (ci_snapshot _ _ I)) as (s & _ & _ & _ & _ & Hnum).
  destruct (Hnum _ _ Hn) as [Hnum' _]. rewrite Z.add_comm in Hnum'.
  apply enrich_events_Ok in He as (new & -> & Hin & N & F & J & A & _).
  exists (merge_sort log_le (bk_Events existing ++ new)), new. split; [done|].
  split; [apply merge_sort_Permutation|]. split; [done|].
  split; [intros e He; rewrite merge_sort_Permutation; by apply Hcover|].
  split; [done|]. split; [|split; [done|by rewrite Er]].
  set (b' := with_events (merge_sort log_le (bk_Events existing ++ new)) existing) in *.
  assert (history 1 (<[n := b']> chain) ≡ₚ history 1 chain ++ map (λ e, (bk_Number existing, e)) new) as Hh.
  { rewrite (history_insert _ _ _ existing b' new) by (try done; apply merge_sort_Permutation).
    by rewrite Z.add_comm, <- Hnum'. }
  apply lookup_lt_Some in Hn as Hlt.
  pose proof (holds_chain_insert _ _ n b' (ci_blocks _ _ I) Hlt) as Hholds. rewrite <- Hnum' in Hholds.
  constructor; rewrite ?Eb, ?Ee, ?Er, ?Eg; try done.
  - intros i a b Ha Hb.
    assert (∀ j x, (<[n := b']> chain) !! j = Some x → ∃ y, chain !! j = Some y ∧
      bk_Hash x = bk_Hash y ∧ bk_ParentHash x = bk_ParentHash y) as Hsame.
    { intros j x. destruct (decide (j = n)) as [->|Hj].
      - rewrite list_lookup_insert_eq by done. intros [= <-]. by exists existing.
      - rewrite list_lookup_insert_ne by done. intros Hx. by exists x. }
    destruct (Hsame _ _ Ha) as (ya & Hya & -> & _), (Hsame _ _ Hb) as (yb & Hyb & _ & ->).
    by eapply (ci_chained _ _ I).
  - rewrite (sc_depth _ _ SC). by rewrite <- (rebuild_project _ _ _ _ Hholds).
  - unfold ids. rewrite Hh, fmap_app. fold (ids (map (λ e, (bk_Number existing, e)) new)). rewrite ids_map.
    apply NoDup_app. split_and!; [apply (ci_ids _ _ I)| |done].
    intros id ([h e] & -> & He)%list_elem_of_fmap (e' & Ee' & He')%list_elem_of_fmap. simpl in Ee'.
    assert (eventBlocks ix !! ev_ID e' = Some h) as Hx by (apply (ci_index _ _ I); exists e; by split).
    by rewrite F in Hx.
  - intros id h. rewrite J, (ci_index _ _ I). setoid_rewrite Hh. setoid_rewrite elem_of_app. split.
    + intros [(e & He & <-)|[-> (e & -> & He)%list_elem_of_fmap]]; [by eauto|].
      exists e. split; [right|done]. apply list_elem_of_fmap. by exists e.
    + intros (e & [He|(e' & [= -> ->] & He)%list_elem_of_fmap] & <-); [left; eauto|].
      right. split; [done|]. apply list_elem_of_fmap. by exists e'.
  - intros i b Hb. apply (block_sourced_config ix); [done|]. destruct (decide (i = n)) as [->|Hj].
    + rewrite list_lookup_insert_eq in Hb by done. injection Hb as <-.
      pose proof (ci_sourced _ _ I _ _ Hn) as Hs. unfold block_sourced in *. cbn [b' with_events bk_Events bk_Hash].
      rewrite merge_sort_Permutation. apply Forall_app. split; [done|]. rewrite Hnum' in A.
      apply Forall_forall. intros e He. split; [|by eapply Forall_forall in A].
      eapply Forall_forall in Hes; [done|]. auto.
    + rewrite list_lookup_insert_ne in Hb by done. by apply (ci_sourced _ _ I).
  - intros tx r Hx. destruct (enrich_receipts_Ok _ _ _ _ _ _ _ Hr _ _ Hx) as [Hx'|[Hx' ->]].
    + destruct (ci_receipts _ _ I _ _ Hx'). split; [done|]. by eapply receipt_source_config.
    + split; [done|]. eapply receipt_source_config; [done|]. by eapply Forall_forall in Hrs.
Qed.
End Chain.

(** * Every call is a move of the chain *)

Section Simulation.
Context `{Keccak, Ed25519}.

(** What an accepted call does to the chain, given the block and the receipts it
    delivers: a new block goes on top of the chain or in the place of a suffix,
    whose settlements are reported; a block that the chain holds already gets the
    events it did not have, and only those; without an authority there are none to
    get. The receipts are on file afterwards. *)
Inductive accepts (ix : Indexer) (chain : list Block) (ix' : Indexer)
    : option (Block * list verifiedReceipt) → list Block → Prop :=
| ac_rebuilt : ix' = ix → accepts ix chain ix' None chain
| ac_replace n block rs :
    (n <= length chain)%nat → bk_Number block = Z.of_nat n + 1 →
    (∀ old, chain !! n = Some old → bk_Hash old ≠ bk_Hash block) →
    settlementReorgs ix' =
      add_reorgs ix block (orphaned (bk_Number block) (drop n chain)) (settlementReorgs ix) →
    Forall (receipt_held (receipts ix')) rs →
    accepts ix chain ix' (Some (block, rs)) (take n chain ++ [block])
| ac_known n old block rs :
    chain !! n = Some old → bk_Number block = Z.of_nat n + 1 → bk_Hash old = bk_Hash block →
    blen (headerAuthority ix) = 0 → ix' = ix →
    accepts ix chain ix' (Some (block, rs)) chain
| ac_enrich n old block rs evs new :
    chain !! n = Some old → bk_Number block = Z.of_nat n + 1 → bk_Hash old = bk_Hash block →
    bk_ParentHash block = bk_ParentHash old →
    evs ≡ₚ bk_Events old ++ new → (∀ e, e ∈ new → e ∈ bk_Events block) →
    (∀ e, e ∈ bk_Events block → e ∈ evs) →
    settlementReorgs ix' = settlementReorgs ix → Forall (receipt_held (receipts ix')) rs →
    accepts ix chain ix' (Some (block, rs)) (<[n := with_events evs old]> chain).

(** A refused call changes nothing; an accepted one does what [accepts] says. *)
Definition simulated (ix : Indexer) (chain : list Block) (block : option (Block * list verifiedReceipt))
    (ix' : Indexer) (r : result error ()) : Prop :=
  match r with
  | Err _ => ix' = ix
  | Ok _ => same_config ix ix' ∧ ∃ chain', accepts ix chain ix' block chain' ∧ chain_inv ix' chain'
  end.

Lemma commit_Err c ix ix' e : commit c ix = (ix', Err e) → ix' = ix.
Proof. unfold commit. destruct (rebuild _ _ _); [done|]. by intros [= <- <-]. Qed.

Lemma replace_from_Err block rs ix ix' e : replace_from block rs ix = (ix', Err e) → ix' = ix.
Proof.
  unfold replace_from. repeat case_match; first [by intros [= <- <-] | apply commit_Err].
Qed.

Lemma enrich_Err existing incoming rs ix ix' e :
  enrichAuthenticatedBlock existing incoming rs ix = (ix', Err e) → ix' = ix.
Proof.
  unfold enrichAuthenticatedBlock. repeat case_match; first [done | by intros [= <- <-] | apply commit_Err].
Qed.

Lemma ingestBlock_Err block rs ix ix' e : ingestBlock block rs ix = (ix', Err e) → ix' = ix.
Proof.
  unfold ingestBlock.
  repeat case_match; first [done | by intros [= <- <-] | apply replace_from_Err | apply enrich_Err].
Qed.

Lemma ingestBlock_sim ix chain block rs ix' r :
  chain_inv ix chain → 0 <= bk_Number block →
  Forall (event_source ix (bk_Number block) (bk_Hash block)) (bk_Events block) →
  Forall (receipt_source ix) rs → ingestBlock block rs ix = (ix', r) →
  simulated ix chain (Some (with_observed (Time.UTC (bk_ObservedAt block)) block, rs)) ix' r.
Proof.
  intros I Hn Hes Hrs Hi. destruct r as [[]|e]; [|by apply ingestBlock_Err in Hi].
  revert Hi. unfold ingestBlock. destruct (_ || _) eqn:Hg; [done|]. bool_facts.
  set (b := with_observed _ block).
  assert (blocks ix !! bk_Number b = chain !! Z.to_nat (bk_Number block - 1)) as Hat.
  { rewrite (ci_blocks _ _ I). cbn. by rewrite (proj2 (Z.leb_le _ _)) by lia. }
  rewrite Hat. assert ((∀ old, chain !! Z.to_nat (bk_Number block - 1) = Some old → bk_Hash old ≠ bk_Hash b) →
    replace_from b rs ix = (ix', Ok ()) → simulated ix chain (Some (b, rs)) ix' (Ok ())) as Hrep.
  { intros Hne (Hlen & SC & I' & Hr & Hh)%(replace_from_sim _ chain); [|done|cbn; lia|done|done].
    split; [done|]. eexists. split; [|exact I']. by apply ac_replace; [|cbn; lia|..]. }
  destruct (chain !! _) as [existing|] eqn:Hb; [|by apply Hrep].
  destruct (String.eqb_spec (bk_Hash existing) (bk_Hash b)) as [Eh|Hne];
    [|apply Hrep; by intros old [= <-]].
  destruct (_ =? 0) eqn:Ha; bool_facts.
  { intros [= <-]. split; [apply same_config_refl|]. exists chain. split; [|done].
    by apply (ac_known _ _ _ (Z.to_nat (bk_Number block - 1)) existing); [|cbn; lia|..]. }
  intros (evs & new & Hpar & Hp & Hnew & Hall & SC & I' & Hr & Hh)%(enrich_sim _ chain (Z.to_nat (bk_Number block - 1)));
    try done.
  - split; [done|]. eexists. split; [|exact I'].
    by apply (ac_enrich _ _ _ (Z.to_nat (bk_Number block - 1)) existing _ _ evs new); [|cbn; lia|..].
  - rewrite Z2Nat.id, Z.sub_add by lia. by rewrite Eh.
Qed.

Lemma perform_sim c ix chain ix' r :
  chain_inv ix chain → call_ok c → perform c ix = (ix', r) → simulated ix chain (delivered c ix) ix' r.
Proof.
  intros I Hc. destruct c as [block|block|]; cbn [perform delivered].
  - unfold Ingest. destruct (_ =? 0) eqn:Ha; cbn [negb]; [|by intros [= <- <-]].
    apply Z.eqb_eq in Ha. apply ingestBlock_sim; try done. apply Forall_forall. intros e _ ?. done.
  - unfold IngestAuthenticated. destruct (_ || _); [by intros [= <- <-]|].
    destruct (verifyAuthenticatedBlock _ _ _ _) as [[[hd rs] es]|] eqn:Hv; [|by intros [= <- <-]].
    pose proof (parseEVMHeader_number _ _ (bv_header _ _ _ _ _ _ _ (verifyAuthenticatedBlock_Ok _ _ _ _ _ _ _ Hv))).
    intros Hi%(ingestBlock_sim _ chain); [exact Hi|done|cbn; lia|..]; apply Forall_forall; intros x Hx _;
      by exists block, hd, rs, es.
  - unfold Rebuild. rewrite (rebuild_project _ _ _ _ (ci_blocks _ _ I)), (ci_snapshot _ _ I).
    intros [= <- <-]. destruct ix. split; [apply same_config_refl|]. exists chain. split; [by constructor|done].
Qed.

Lemma initial_inv ix : initial ix → chain_inv ix [].
Proof.
  assert (∀ c g d a ah p, chain_inv (mkIndexer c g d a ah p ∅ ∅ ∅ ∅ emptySnapshot) []) as Hempty.
  { intros c g d a ah p. constructor; cbn.
    - intros h. rewrite lookup_empty. by destruct (1 <=? h).
    - by intros i x y.
    - unfold project, finish. cbn. by rewrite !fmap_empty.
    - constructor.
    - intros id h. rewrite lookup_empty. split; [done|]. by intros (e & ?%elem_of_nil & _).
    - by intros i b.
    - intros tx r. by rewrite lookup_empty. }
  intros [(d & _ & ->)|(c & g & d & a & _ & Hn)]; [apply Hempty|]. revert Hn. unfold NewGateway.
  destruct (_ || _); [done|]. destruct (ComputeFinalityPolicyHash _ _ _ _); [|done].
  intros <-%Ok_inj. apply Hempty.
Qed.

Lemma reachable_chain ix : reachable ix → ∃ chain, chain_inv ix chain.
Proof.
  intros (ix0 & H0' & Hsteps). apply initial_inv in H0'. revert H0'. generalize (@nil Block) as chain.
  induction Hsteps as [x|x y z Hs Hsteps IH]; intros chain I; [by exists chain|].
  destruct Hs as (c & r & Hc & Hp). apply (perform_sim _ _ chain) in Hp; [|done..].
  destruct r; [|cbn in Hp; subst y; by apply (IH chain)]. destruct Hp as (_ & chain' & _ & I'). by apply (IH chain').
Qed.
(** ** Theorems *)

Definition final_height (ix : Indexer) : Z :=
  finalHeight_of (sn_Head (snapshot ix)) (finalityDepth ix).


Lemma snapshot_origin ix chain p x :
  chain_inv ix chain → sn_CanonicalSettlements (snapshot ix) !! p = Some x →
  ∃ h e, (h, e) ∈ history 1 chain ∧ is_settlement e ∧ p = ev_PaymentID e ∧
    x = mark_settlement (final_height ix) (settlement_of e h) ∧
    settlement_fields_ok e = true ∧ settlement_units_ok e = true.
Proof.
  intros I. unfold final_height.
  destruct (project_Ok _ _ _ _ (ci_snapshot _ _ I)) as (s & P & -> & _ & _ & _).
  cbn [finish sn_CanonicalSettlements with_settlements sn_Head with_loans with_tenders].
  rewrite lookup_fmap. intros (y & Hy & ->)%fmap_Some.
  destruct (pj_origin _ _ P _ _ Hy) as (h & e & Hin & Ht & -> & ->). exists h, e.
  destruct (pj_settlement _ _ P _ _ Hin Ht) as (_ & ? & ?). done.
Qed.

Lemma mark_Final f u : mark f u = Final ↔ u <= f.
Proof. unfold mark. destruct (Z.leb_spec u f); split; try done; lia. Qed.






(** A settlement of an indexer with an authority, traced to its block. *)
Lemma settlement_traced ix chain p x :
  chain_inv ix chain → blen (headerAuthority ix) ≠ 0 →
  sn_CanonicalSettlements (snapshot ix) !! p = Some x →
  ∃ h b e, blocks ix !! h = Some b ∧ 1 <= h <= sn_Head (snapshot ix) ∧ e ∈ bk_Events b ∧ is_settlement e ∧
    p = ev_PaymentID e ∧ x = mark_settlement (final_height ix) (settlement_of e h) ∧
    event_source ix h (bk_Hash b) e ∧ event_admitted ix h (bk_Hash b) e ∧
    settlement_fields_ok e = true ∧ settlement_units_ok e = true.
Proof.
  intros I Ha Hx. destruct (snapshot_origin _ _ _ _ I Hx) as (h & e & Hin & Ht & -> & -> & Hf & Hu).
  apply history_elem in Hin as (i & b & Hb & -> & He). exists (1 + Z.of_nat i), b, e.
  pose proof (ci_sourced _ _ I _ _ Hb) as Hs. unfold block_sourced in Hs.
  eapply Forall_forall in Hs as [Hs1 Hs2]; [|exact He]. rewrite Z.add_comm in Hs1, Hs2.
  rewrite (ci_blocks _ _ I), (proj2 (Z.leb_le _ _)) by lia.
  rewrite (project_head _ _ _ _ (ci_snapshot _ _ I)). apply lookup_lt_Some in Hb as Hlt.
  replace (Z.to_nat (1 + Z.of_nat i - 1)) with i by lia. split_and!; try done; lia.
Qed.

(** A finalized projection is evidence. What the indexer hands out as a final
    settlement of a payment is the settlement decoded from an event in a block of
    the current chain that lies at least the finality depth below the head; that
    event is one that the verifier of authenticated blocks accepted, under the
    indexer's chain, gateway and header authority, for the block with that number
    and hash; it was made under this indexer's finality policy; and its amounts add
    up: source equals gross, principal and excess make up the gross amount, and the
    debt fell by exactly the principal. *)
Theorem finalized_projection_sound (ix : Indexer) (payment : string) (x : CanonicalSettlement)
    (proof : FinalityProof) :
  reachable ix → FinalizedGatewayProjection payment ix = Some (x, proof) →
  ∃ h b e ab header rs es,
    blocks ix !! h = Some b ∧ 1 <= h ∧ h + finalityDepth ix <= sn_Head (snapshot ix) ∧
    e ∈ bk_Events b ∧ payment = ev_PaymentID e ∧ x = mark_settlement h (settlement_of e h) ∧
    verifyAuthenticatedBlock (chainID ix) (gateway ix) (headerAuthority ix) ab = Ok (header, rs, es) ∧
    e ∈ es ∧ number header = h ∧ hash header = bk_Hash b ∧
    ev_BlockHash e = bk_Hash b ∧ ev_FinalityPolicyHash e = finalityPolicyHash ix ∧
    settlement_units_ok e = true ∧
    fp_HeadBlockNumber proof = sn_Head (snapshot ix) ∧ fp_ConfirmationDepth proof = finalityDepth ix ∧
    fp_EvidenceHash proof = finalityEvidenceHash x (proof_fields ix "").
Proof using All.
  intros [chain I]%reachable_chain. unfold FinalizedGatewayProjection.
  destruct (_ || _) eqn:Hg; [done|]. apply orb_false_iff in Hg as [_ Hg%negb_false_iff%Z.eqb_eq].
  destruct (sn_CanonicalSettlements _ !! payment) as [y|] eqn:Hy; [|done].
  destruct (projection_allowed ix y) eqn:Hp; cbn [negb]; [|done]. intros [= <- <-].
  destruct (settlement_traced ix chain payment y I) as
    (h & b & e & Hb & Hh & He & Ht & -> & -> & Hsrc & Hadm & _ & Hu); [unfold PublicKeySize in Hg; lia|done|].
  destruct Hsrc as (ab & header & rs & es & Hv & Hes & Hn & Hhash); [unfold PublicKeySize in Hg; lia|].
  destruct (Hadm Ht) as (_ & _ & Hbh & _). unfold projection_allowed in Hp. cbn in Hp. bool_facts.
  match goal with A : mark _ _ = Final |- _ => rename A into HF end.
  exists h, b, e, ab, header, rs, es. split_and!; try done; try lia.
  unfold mark_settlement. cbn. rewrite HF. by rewrite (proj2 (mark_Final h h)) by lia.
Qed.

(** The snapshot conserves amounts. In every reachable snapshot a loan's
    principal is what is still outstanding plus everything the chain's events repaid
    on it, both canonical and non-negative; settlements are one per payment and one
    per allocation; and the amounts of a settlement add up. *)
Theorem snapshot_conserves (ix : Indexer) :
  reachable ix →
  ∃ chain, holds_chain (blocks ix) chain ∧
    (∀ id l, sn_Loans (snapshot ix) !! id = Some l →
       ∃ principal outstanding,
         ln_PrincipalUnits l = Big.to_string principal ∧
         ln_OutstandingUnits l = Big.to_string outstanding ∧ 0 <= outstanding <= principal ∧
         principal = outstanding + repaid id (history 1 chain)) ∧
    (∀ p q x y, sn_CanonicalSettlements (snapshot ix) !! p = Some x →
       sn_CanonicalSettlements (snapshot ix) !! q = Some y →
       cs_AllocationID x = cs_AllocationID y → p = q) ∧
    (∀ p x, sn_CanonicalSettlements (snapshot ix) !! p = Some x →
       cs_PaymentID x = p ∧
       ∃ gross principal excess before after,
         cs_SourceUnits x = Big.to_string gross ∧ cs_GrossUnits x = Big.to_string gross ∧
         cs_PrincipalUnits x = Big.to_string principal ∧
         cs_RefundableExcessUnits x = Big.to_string excess ∧
         cs_DebtBeforeUnits x = Big.to_string before ∧ cs_DebtAfterUnits x = Big.to_string after ∧
         gross = principal + excess ∧ before = principal + after ∧
         0 < principal ∧ 0 <= excess ∧ 0 <= after).
Proof using All.
  intros [chain I]%reachable_chain. exists chain. split; [apply I|].
  destruct (project_Ok _ _ _ _ (ci_snapshot _ _ I)) as (s & P & Es & _). split_and!.
  - intros id l. rewrite Es. cbn. rewrite lookup_fmap. intros (k & Hk & ->)%fmap_Some.
    destruct (pj_loan _ _ P _ _ Hk) as (p & o & [L1 L2 L3 L4]). exists p, o. split_and!; first [done | lia].
  - intros p q x y. rewrite Es. cbn. rewrite !lookup_fmap. intros (x' & Hx & ->)%fmap_Some (y' & Hy & ->)%fmap_Some.
    cbn. by apply (pj_allocation _ _ P).
  - intros p x Hx. destruct (snapshot_origin _ _ _ _ I Hx) as (h & e & _ & _ & -> & -> & _ & Hu).
    split; [done|]. cbn. by apply settlement_units_spec.
Qed.
(** Failure evidence is evidence. If the indexer certifies that a transaction
    failed, then that transaction and its receipt were proven, at the stated index,
    under the roots of a header signed by the authority; the receipt reports a
    reverted transaction without any log; and the block with that hash is on the
    current chain, at least the finality depth below the head. *)
Theorem failure_evidence_sound (ix : Indexer) (expected : ExpectedTransaction)
    (ev : TransactionFailureEvidence) :
  reachable ix → VerifyTransactionFailure expected ix = Ok ev →
  ∃ ab header rs es (i : nat) p b,
    verifyAuthenticatedBlock (chainID ix) (gateway ix) (headerAuthority ix) ab = Ok (header, rs, es) ∧
    ab_Receipts ab !! i = Some p ∧ proof_accepted header (Z.of_nat i) p = true ∧
    et_TransactionHash expected = hex32 (keccak (ip_TransactionRLP p)) ∧
    decodeReceipt (ip_ReceiptRLP p) = Ok (TransactionReverted, []) ∧
    blocks ix !! number header = Some b ∧ bk_Hash b = hash header ∧
    number header + finalityDepth ix <= sn_Head (snapshot ix) ∧
    f_TransactionHash ev = et_TransactionHash expected ∧ f_BlockNumber ev = number header ∧
    f_BlockHash ev = hash header ∧ f_HeadBlockNumber ev = sn_Head (snapshot ix).
Proof using All.
  intros [chain I]%reachable_chain. unfold VerifyTransactionFailure. destruct (_ || _) eqn:Hg; [done|]. bool_facts.
  destruct (receipts ix !! _) as [r|] eqn:Hr; [|done].
  destruct (failure_allowed ix r) eqn:Ha; cbn [negb]; [|done]. intros <-%Ok_inj.
  destruct (ci_receipts _ _ I _ _ Hr) as [Etx Hsrc].
  destruct Hsrc as (ab & header & rs & es & Hv & Hin); [unfold PublicKeySize in *; lia|].
  destruct (verified_receipt_origin _ _ _ _ _ _ _ _ (verifyAuthenticatedBlock_Ok _ _ _ _ _ _ _ Hv) Hin)
    as (i & p & st & lg & Hp & Hacc & Hd & ->). cbn in Etx.
  unfold failure_allowed in Ha. cbn in Ha.
  destruct (blocks ix !! number header) as [b|] eqn:Hb; [|bool_facts; done]. bool_facts. subst st.
  pose proof (decodeReceipt_reverted _ _ Hd) as ->.
  exists ab, header, rs, es, i, p, b. cbn. split_and!; try done; lia.
Qed.
End Simulation.

(** * A concrete history *)

Module Sample.
Import Trie.Sample.
#[local] Existing Instance Message.Sample.toy_keccak.

Definition first_block (receipt : string) (second : Z) : AuthenticatedBlock :=
  mkAuthenticatedBlock
    (header_rlp (be_bytes 32 0) (keccak (Trie.enc tx_trie)) (keccak (Trie.enc (Trie.Leaf [8; 0] receipt))) 1)
    (at_second second) (be_bytes 64 5)
    [mkReceiptProof 0 tx_rlp [Trie.enc tx_trie] receipt [Trie.enc (Trie.Leaf [8; 0] receipt)]].
Definition next_block (parent : AuthenticatedBlock) (n second : Z) : AuthenticatedBlock :=
  mkAuthenticatedBlock (header_rlp (keccak (ab_HeaderRLP parent)) (be_bytes 32 0) (be_bytes 32 0) n)
    (at_second second) (be_bytes 64 5) [].

Definition start : Indexer :=
  match NewGateway 1 Gateway.Sample.gateway 2 authority with Ok ix => ix | Err _ => New 2 end.
Definition ingest (block : AuthenticatedBlock) (ix : Indexer) : Indexer := (IngestAuthenticated block ix).1.

Lemma start_reachable : reachable start.
Proof.
  exists start. split; [|apply rtc_refl]. right. exists 1, Gateway.Sample.gateway, 2, authority.
  split; [lia|]. unfold start.
  assert (is_ok (NewGateway 1 Gateway.Sample.gateway 2 authority) = true) as B by (vm_compute; reflexivity).
  destruct (NewGateway _ _ _ _); [reflexivity|discriminate B].
Qed.

Lemma ingest_step block ix : step ix (ingest block ix).
Proof. exists (CallIngestAuthenticated block). eexists. split; [done|]. apply surjective_pairing. Qed.

Lemma ingest_reachable block ix : reachable ix → reachable (ingest block ix).
Proof.
  intros (ix0 & Hi & Hs). exists ix0. split; [exact Hi|]. eapply rtc_r; [exact Hs|apply ingest_step].
Qed.

(** Three blocks, the first with a settlement, which is then final. *)
Definition settled : AuthenticatedBlock := first_block receipt_rlp 2000.
Definition second_block : AuthenticatedBlock := next_block settled 2 2001.
Definition three : Indexer :=
  ingest (next_block second_block 3 2002) (ingest second_block (ingest settled start)).

(** The same with a reverted transaction. *)
Definition reverted_rlp : string :=
  rlp_encode (Lst [Str ""; Str (be_bytes 1 9); Str (be_bytes 256 0); Lst []]).
Definition failed_block : AuthenticatedBlock := first_block reverted_rlp 2003.
Definition failed_second : AuthenticatedBlock := next_block failed_block 2 2004.
Definition failed_three : Indexer :=
  ingest (next_block failed_second 3 2005) (ingest failed_second (ingest failed_block start)).

(** The reverted block replaces the settled chain. *)
Definition replaced : Indexer := ingest failed_block three.

Lemma three_reachable : reachable three.
Proof. do 3 apply ingest_reachable. exact start_reachable. Qed.
Lemma failed_three_reachable : reachable failed_three.
Proof. do 3 apply ingest_reachable. exact start_reachable. Qed.

Definition paid : string := hex32 (be_bytes 32 11).

Lemma three_final :
  match FinalizedGatewayProjection paid three with Some (x, _) => cs_GrossUnits x =s "100" | None => false end
  = true.
Proof. vm_compute. reflexivity. Qed.


Lemma replaced_reported :
  match blocks replaced !! 1, map_to_list (settlementReorgs replaced) with
  | Some b, [(_, r)] => (0 =? llen (bk_Events b)) && sr_CompensationRequired r
  | _, _ => false
  end = true.
Proof. vm_compute. reflexivity. Qed.

(** The settled block comes back and is orphaned again before it is final: the record
    of the deep reorganisation, which demands compensation, is overwritten by one
    that does not. *)
Definition replaced_again : Indexer :=
  ingest (first_block reverted_rlp 2007) (ingest (first_block receipt_rlp 2006) replaced).
Definition depth_classes (ix : Indexer) : list (string * bool) :=
  (λ x, (sr_DepthClass x.2, sr_CompensationRequired x.2)) <$> map_to_list (settlementReorgs ix).
Lemma replaced_again_reachable : reachable replaced_again.
Proof. do 3 apply ingest_reachable. exact three_reachable. Qed.
Lemma deep_record_overwritten :
  reachable replaced_again ∧ depth_classes replaced = [(ReorgDeepFinality, true)] ∧
  depth_classes replaced_again = [(ReorgPreFinality, false)].
Proof. split; [exact replaced_again_reachable|]. split; vm_compute; reflexivity. Qed.

Definition failed_transaction : ExpectedTransaction :=
  mkExpectedTransaction 1 Gateway.Sample.gateway (hex32 (keccak tx_rlp)).
Lemma failure_accepted : is_ok (VerifyTransactionFailure failed_transaction failed_three) = true.
Proof. vm_compute. reflexivity. Qed.



Lemma finalized_projection_sound_witness :
  ∃ x proof h e, FinalizedGatewayProjection paid three = Some (x, proof) ∧
    x = mark_settlement h (settlement_of e h) ∧ settlement_units_ok e = true.
Proof.
  pose proof three_final as B.
  destruct (FinalizedGatewayProjection paid three) as [[x proof]|] eqn:E; [|discriminate B].
  destruct (finalized_projection_sound three paid x proof three_reachable E)
    as (h & b & e & _ & _ & _ & _ & _ & _ & _ & _ & _ & Hx & _ & _ & _ & _ & _ & _ & Hu & _).
  exists x, proof, h, e. split; [reflexivity|]. split; [exact Hx|exact Hu].
Defined.

Lemma snapshot_conserves_witness : ∃ chain, holds_chain (blocks three) chain.
Proof.
  destruct (snapshot_conserves three three_reachable) as (chain & Hc & _). exists chain. exact Hc.
Defined.

Lemma failure_evidence_sound_witness :
  ∃ ev header, VerifyTransactionFailure failed_transaction failed_three = Ok ev ∧
    f_BlockHash ev = hash header.
Proof.
  pose proof failure_accepted as B.
  destruct (VerifyTransactionFailure failed_transaction failed_three) as [ev|] eqn:E; [|discriminate B].
  destruct (failure_evidence_sound failed_three failed_transaction ev failed_three_reachable E)
    as (_ & header & _ & _ & _ & _ & _ & _ & _ & _ & _ & _ & _ & _ & _ & _ & _ & Hh & _).
  exists ev, header. split; [reflexivity|exact Hh].
Defined.
End Sample.
