(* ===== verification/SettlementDigest.v ===== *)
(** The instruction digest of the settlement gateway
    ([payment-orchestrator/settlement/digest.go]): Keccak-256 over the 26 ABI words
    that the accounting attester signs. *)
From S2P Require Import Prelude GoStd CrossChainTypes Rlp Gateway.
From S2P Require AllocationMode Message.

(** Go errors of this package travel through the callbacks of the allocation-mode
    registry, so the package's errors are values of the registry's error type. *)
Abbreviation error := AllocationMode.error.
Definition ErrInvalidDigestInput : error :=
  AllocationMode.ErrExternal "invalid Solidity settlement digest input".

Definition EligibilityDomainLabel : string := "UNIFIED_PHASE7C_ELIGIBILITY_V1".

Record SolidityInstruction := mkSolidityInstruction {
  si_PaymentID : string;
  si_AllocationID : string;
  si_LoanID : string;
  si_SourceAssetID : string;
  si_TargetAssetID : string;
  si_SourceUnits : string;
  si_TargetUnits : string;
  si_ProviderIDHash : string;
  si_ProviderReferenceHash : string;
  si_ReconciliationID : string;
  si_ReconciliationCommitment : string;
  si_OriginalJournalSetHash : string;
  si_ConversionPolicyHash : string;
  si_FinalityPolicyHash : string;
  si_EvidenceHash : string;
  si_JournalRef : string;
  si_FinalizedAt : Z;
  si_ReversalDeadline : Z;
  si_ExpectedDebt : string;
  si_ExpectedStateNonce : Z;
  si_Attester : string }.

Record SolidityDigestInput := mkSolidityDigestInput {
  sd_ChainID : Z;
  sd_Gateway : string;
  sd_Finalizer : string;
  sd_PolicySetHash : string;
  sd_Instruction : SolidityInstruction }.

(** * Encoding *)

(** [strings.ToLower], [HasPrefix], the length and the decoder, in one guard. *)
Definition decodeFixedHex (value : string) (size : Z) : result error string :=
  if (value <>s ToLower value) || negb (String.prefix "0x" value) || negb (blen value =? 2 + size * 2)
  then Err ErrInvalidDigestInput
  else match DecodeString (s_drop 2 value) with
       | Some decoded => if blen decoded =? size then Ok decoded else Err ErrInvalidDigestInput
       | None => Err ErrInvalidDigestInput
       end.

Definition appendBytes32Word (encoded value : string) : result error string :=
  let? decoded := decodeFixedHex value 32 in Ok (encoded +:+ decoded).

Definition appendAddressWord (encoded value : string) : result error string :=
  let? decoded := decodeFixedHex value 20 in Ok (encoded +:+ be_bytes 12 0 +:+ decoded).

Definition appendUint64Word (encoded : string) (value : Z) : string :=
  encoded +:+ be_bytes 32 value.

(** [BitLen() > 256] of a non-negative number is [number >= 2^256]. *)
Definition appendUint256Word (encoded value : string) : result error string :=
  match Big.set_string value with
  | Some number =>
      if (number <? 0) || (2 ^ 256 <=? number) || (Big.to_string number <>s value)
      then Err ErrInvalidDigestInput else Ok (encoded +:+ be_bytes 32 number)
  | None => Err ErrInvalidDigestInput
  end.

(** [for _, value := range values]. *)
Fixpoint appendBytes32Words (encoded : string) (values : list string) : result error string :=
  match values with
  | [] => Ok encoded
  | value :: rest =>
      let? encoded := appendBytes32Word encoded value in appendBytes32Words encoded rest
  end.

Definition SolidityInstructionDigest `{Keccak} (input : SolidityDigestInput) : result error string :=
  if sd_ChainID input =? 0 then Err ErrInvalidDigestInput
  else
    let encoded := appendUint64Word (keccak EligibilityDomainLabel) (sd_ChainID input) in
    let? encoded := appendAddressWord encoded (sd_Gateway input) in
    let? encoded := appendAddressWord encoded (sd_Finalizer input) in
    let? encoded := appendBytes32Word encoded (sd_PolicySetHash input) in
    let instruction := sd_Instruction input in
    let? encoded := appendBytes32Words encoded
      [si_PaymentID instruction; si_AllocationID instruction; si_LoanID instruction;
       si_SourceAssetID instruction; si_TargetAssetID instruction] in
    let? encoded := appendUint256Word encoded (si_SourceUnits instruction) in
    let? encoded := appendUint256Word encoded (si_TargetUnits instruction) in
    let? encoded := appendBytes32Words encoded
      [si_ProviderIDHash instruction; si_ProviderReferenceHash instruction;
       si_ReconciliationID instruction; si_ReconciliationCommitment instruction;
       si_OriginalJournalSetHash instruction; si_ConversionPolicyHash instruction;
       si_FinalityPolicyHash instruction; si_EvidenceHash instruction; si_JournalRef instruction] in
    let encoded := appendUint64Word encoded (si_FinalizedAt instruction) in
    let encoded := appendUint64Word encoded (si_ReversalDeadline instruction) in
    let? encoded := appendUint256Word encoded (si_ExpectedDebt instruction) in
    let encoded := appendUint64Word encoded (si_ExpectedStateNonce instruction) in
    let? encoded := appendAddressWord encoded (si_Attester instruction) in
    if negb (blen encoded =? 26 * 32) then Err ErrInvalidDigestInput
    else Ok (hex32 (keccak encoded)).

(** * The words of an instruction *)

(** How one field is laid out in a word of 32 bytes. *)
Inductive field := FBytes32 (value : string) | FAddress (value : string)
  | FUint256 (value : string) | FUint64 (value : Z).

Definition word_of (f : field) : string :=
  match f with
  | FBytes32 value => bytes_of_hex value
  | FAddress value => address_bytes value
  | FUint256 value => units_bytes value
  | FUint64 value => be_bytes 32 value
  end.

(** The values a word can hold without loss. *)
Definition field_ok (f : field) : Prop :=
  match f with
  | FBytes32 value => canonicalHex value 32 = true
  | FAddress value => canonicalHex value 20 = true
  | FUint256 value => ∃ z, 0 <= z < 2 ^ 256 ∧ value = Big.to_string z
  | FUint64 value => 0 <= value < 2 ^ 64
  end.

Definition same_kind (f g : field) : Prop :=
  match f, g with
  | FBytes32 _, FBytes32 _ | FAddress _, FAddress _ | FUint256 _, FUint256 _
  | FUint64 _, FUint64 _ => True
  | _, _ => False
  end.

Definition fields_of (i : SolidityDigestInput) : list field :=
  let s := sd_Instruction i in
  [FUint64 (sd_ChainID i); FAddress (sd_Gateway i); FAddress (sd_Finalizer i);
   FBytes32 (sd_PolicySetHash i);
   FBytes32 (si_PaymentID s); FBytes32 (si_AllocationID s); FBytes32 (si_LoanID s);
   FBytes32 (si_SourceAssetID s); FBytes32 (si_TargetAssetID s);
   FUint256 (si_SourceUnits s); FUint256 (si_TargetUnits s);
   FBytes32 (si_ProviderIDHash s); FBytes32 (si_ProviderReferenceHash s);
   FBytes32 (si_ReconciliationID s); FBytes32 (si_ReconciliationCommitment s);
   FBytes32 (si_OriginalJournalSetHash s); FBytes32 (si_ConversionPolicyHash s);
   FBytes32 (si_FinalityPolicyHash s); FBytes32 (si_EvidenceHash s); FBytes32 (si_JournalRef s);
   FUint64 (si_FinalizedAt s); FUint64 (si_ReversalDeadline s); FUint256 (si_ExpectedDebt s);
   FUint64 (si_ExpectedStateNonce s); FAddress (si_Attester s)].

(** Go's [uint64] fields. *)
Definition typed (i : SolidityDigestInput) : Prop :=
  0 <= sd_ChainID i < 2 ^ 64 ∧ 0 <= si_FinalizedAt (sd_Instruction i) < 2 ^ 64 ∧
  0 <= si_ReversalDeadline (sd_Instruction i) < 2 ^ 64 ∧
  0 <= si_ExpectedStateNonce (sd_Instruction i) < 2 ^ 64.

Definition preimage `{Keccak} (i : SolidityDigestInput) : string :=
  keccak EligibilityDomainLabel +:+ concat_all (word_of <$> fields_of i).

Lemma decodeFixedHex_Ok v n b : decodeFixedHex v n = Ok b ↔ blen b = n ∧ v = hex32 b.
Proof.
  assert (decodeFixedHex v n = match decodeCanonicalHex v n with
                               | Some b => Ok b | None => Err ErrInvalidDigestInput end) as ->.
  { unfold decodeFixedHex, decodeCanonicalHex, canonicalHex. destruct (_ || _); [done|].
    destruct (DecodeString _) as [d|]; [|done]. by destruct (_ =? _). }
  split.
  - destruct (decodeCanonicalHex v n) as [d|] eqn:Hd; [|done]. intros <-%Ok_inj.
    unfold decodeCanonicalHex in Hd. destruct (canonicalHex v n) eqn:Hc; [|done]. cbn [negb] in Hd.
    apply canonicalHex_spec in Hc as (c & Hl & ->).
    change (s_drop 2 (hex32 c)) with (hex c) in Hd. rewrite DecodeString_hex in Hd.
    injection Hd as <-. done.
  - intros [Hl ->]. by rewrite decodeCanonicalHex_hex32.
Qed.

Lemma append_bytes32 e v e' :
  appendBytes32Word e v = Ok e' ↔ field_ok (FBytes32 v) ∧ e' = e +:+ word_of (FBytes32 v).
Proof.
  unfold appendBytes32Word. cbn [field_ok word_of]. rewrite canonicalHex_spec. split.
  - destruct (decodeFixedHex v 32) as [b|] eqn:Hd; [|done].
    apply decodeFixedHex_Ok in Hd as [Hb ->]. intros <-%Ok_inj. rewrite bytes_of_hex32. by eauto.
  - intros [(b & Hb & ->) ->]. rewrite (proj2 (decodeFixedHex_Ok _ _ b)), bytes_of_hex32 by done. done.
Qed.

Lemma append_address e v e' :
  appendAddressWord e v = Ok e' ↔ field_ok (FAddress v) ∧ e' = e +:+ word_of (FAddress v).
Proof.
  unfold appendAddressWord. cbn [field_ok word_of]. unfold address_bytes. rewrite canonicalHex_spec. split.
  - destruct (decodeFixedHex v 20) as [b|] eqn:Hd; [|done].
    apply decodeFixedHex_Ok in Hd as [Hb ->]. intros <-%Ok_inj. rewrite bytes_of_hex32. by eauto.
  - intros [(b & Hb & ->) ->]. rewrite (proj2 (decodeFixedHex_Ok _ _ b)), bytes_of_hex32 by done. done.
Qed.

Lemma append_uint256 e v e' :
  appendUint256Word e v = Ok e' ↔ field_ok (FUint256 v) ∧ e' = e +:+ word_of (FUint256 v).
Proof.
  unfold appendUint256Word. cbn [field_ok word_of]. unfold units_bytes. split.
  - destruct (Big.set_string v) as [z|]; [|done]. destruct (_ || _) eqn:Hg; [done|].
    intros <-%Ok_inj. bool_facts. split; [|done]. exists z. split; [lia|done].
  - intros [(z & Hz & ->) ->]. rewrite Big.set_string_to_string. cbn [default].
    rewrite (proj2 (Z.ltb_ge _ _)), (proj2 (Z.leb_gt _ _)), String.eqb_refl by lia. done.
Qed.

Lemma append_bytes32s vs : ∀ e e',
  appendBytes32Words e vs = Ok e' ↔
  Forall field_ok (FBytes32 <$> vs) ∧ e' = e +:+ concat_all (word_of <$> (FBytes32 <$> vs)).
Proof.
  induction vs as [|v vs IH]; intros e e'.
  { cbn. rewrite string_app_nil_r. split; [intros <-%Ok_inj; by split|by intros [_ ->]]. }
  cbn [appendBytes32Words]. rewrite !fmap_cons, Forall_cons.
  change (concat_all (?x :: ?r)) with (x +:+ concat_all r). rewrite <- string_app_assoc. split.
  - destruct (appendBytes32Word e v) as [a|] eqn:Ha; [|done].
    apply append_bytes32 in Ha as [H1 ->]. intros [H2 ->]%IH. done.
  - intros [[H1 H2] ->]. rewrite (proj2 (append_bytes32 e v _) (conj H1 eq_refl)).
    by apply IH.
Qed.

Lemma digest_word_length f : field_ok f → String.length (word_of f) = 32%nat.
Proof.
  destruct f as [v|v|v|z]; cbn [field_ok word_of].
  - intros (b & Hb & ->)%canonicalHex_spec. rewrite bytes_of_hex32. unfold blen in Hb. lia.
  - intros (b & Hb & ->)%canonicalHex_spec. unfold address_bytes. rewrite bytes_of_hex32.
    rewrite string_app_length, be_bytes_length. unfold blen in Hb. lia.
  - intros _. apply be_bytes_length.
  - intros _. apply be_bytes_length.
Qed.

(** A word determines the field it was made from. *)
Lemma word_inj f g : same_kind f g → field_ok f → field_ok g → word_of f = word_of g → f = g.
Proof.
  destruct f as [v|v|v|z], g as [w|w|w|y]; cbn [same_kind field_ok word_of]; intros K; try destruct K.
  - intros (b & Hb & ->)%canonicalHex_spec (c & Hc & ->)%canonicalHex_spec.
    rewrite !bytes_of_hex32. by intros ->.
  - intros (b & Hb & ->)%canonicalHex_spec (c & Hc & ->)%canonicalHex_spec.
    unfold address_bytes. rewrite !bytes_of_hex32. intros E.
    apply string_app_inj_l in E as [_ ->]; [done|by rewrite !be_bytes_length].
  - intros (a & Ha & ->) (b & Hb & ->). unfold units_bytes. rewrite !Big.set_string_to_string.
    change (default 0 (Some ?x)) with x. intros E%be_bytes_inj; [by subst|..]; change (256 ^ Z.of_nat 32) with (2 ^ 256); lia.
  - intros Ha Hb E%be_bytes_inj; [by subst|..]; change (256 ^ Z.of_nat 32) with (2 ^ 256); lia.
Qed.

Lemma words_inj fs gs :
  Forall2 same_kind fs gs → Forall field_ok fs → Forall field_ok gs →
  concat_all (word_of <$> fs) = concat_all (word_of <$> gs) → fs = gs.
Proof.
  induction 1 as [|f g fs gs K Ks IH]; [done|]. intros [Hf Hfs]%Forall_cons [Hg Hgs]%Forall_cons.
  rewrite !fmap_cons. change (concat_all (?x :: ?r)) with (x +:+ concat_all r). intros E.
  apply string_app_inj_l in E as [E1 E2]; [|by rewrite !digest_word_length].
  rewrite (word_inj f g) by done. by rewrite (IH Hfs Hgs E2).
Qed.

Lemma fields_kinds i j : Forall2 same_kind (fields_of i) (fields_of j).
Proof. unfold fields_of. repeat constructor. Qed.

Lemma fields_inj i j : fields_of i = fields_of j → i = j.
Proof.
  destruct i as [? ? ? ? []], j as [? ? ? ? []]. unfold fields_of. cbn. intros E. by simplify_eq.
Qed.

Lemma words_total_length fs :
  Forall field_ok fs → String.length (concat_all (word_of <$> fs)) = (32 * length fs)%nat.
Proof.
  induction 1 as [|f fs Hf Hfs IH]; [done|]. rewrite fmap_cons. cbn [length].
  change (concat_all (?x :: ?r)) with (x +:+ concat_all r).
  rewrite string_app_length, IH, (digest_word_length f Hf). lia.
Qed.

Lemma address_runs e v :
  field_ok (FAddress v) → appendAddressWord e v = Ok (e +:+ word_of (FAddress v)).
Proof. intros Hv. by apply append_address. Qed.
Lemma bytes32_runs e v :
  field_ok (FBytes32 v) → appendBytes32Word e v = Ok (e +:+ word_of (FBytes32 v)).
Proof. intros Hv. by apply append_bytes32. Qed.
Lemma uint256_runs e v :
  field_ok (FUint256 v) → appendUint256Word e v = Ok (e +:+ word_of (FUint256 v)).
Proof. intros Hv. by apply append_uint256. Qed.
Lemma bytes32s_runs e vs :
  Forall field_ok (FBytes32 <$> vs) →
  appendBytes32Words e vs = Ok (e +:+ concat_all (word_of <$> (FBytes32 <$> vs))).
Proof. intros Hv. by apply append_bytes32s. Qed.

(** Runs the appends of a digest whose fields are all fine. *)
Ltac all_fields := cbn [fmap list_fmap]; repeat (apply Forall_cons_2; [assumption|]); constructor.
Ltac run_appends :=
  repeat (first [rewrite address_runs by assumption | rewrite bytes32_runs by assumption
                | rewrite uint256_runs by assumption | rewrite bytes32s_runs by all_fields];
          cbv beta iota zeta).

Ltac split_fields F :=
  repeat match type of F with Forall _ (_ :: _) => apply Forall_cons in F as [? F] end.

Ltac flatten_words :=
  unfold preimage, appendUint64Word, fields_of; cbn [fmap list_fmap];
  repeat change (concat_all (?x :: ?r)) with (x +:+ concat_all r);
  change (concat_all []) with ""; rewrite !string_app_assoc, ?string_app_nil_r; reflexivity.

Section Digest.
Context `{Keccak}.

(** The digest is computed exactly when every field fits its word, and then it is
    the hash of the words in order. *)
Lemma digest_Ok i d :
  typed i →
  SolidityInstructionDigest i = Ok d ↔
  sd_ChainID i ≠ 0 ∧ Forall field_ok (fields_of i) ∧ d = hex32 (keccak (preimage i)).
Proof.
  intros (T1 & T2 & T3 & T4). unfold SolidityInstructionDigest. split.
  - destruct (Z.eqb_spec (sd_ChainID i) 0) as [|Hc]; [done|].
    destruct (appendAddressWord _ (sd_Gateway i)) as [e1|] eqn:E1; [|done].
    destruct (appendAddressWord e1 _) as [e2|] eqn:E2; [|done].
    destruct (appendBytes32Word e2 _) as [e3|] eqn:E3; [|done].
    destruct (appendBytes32Words e3 _) as [e4|] eqn:E4; [|done].
    destruct (appendUint256Word e4 _) as [e5|] eqn:E5; [|done].
    destruct (appendUint256Word e5 _) as [e6|] eqn:E6; [|done].
    destruct (appendBytes32Words e6 _) as [e7|] eqn:E7; [|done].
    destruct (appendUint256Word _ (si_ExpectedDebt _)) as [e8|] eqn:E8; [|done].
    destruct (appendAddressWord _ (si_Attester _)) as [e9|] eqn:E9; [|done].
    destruct (negb _); [done|]. intros <-%Ok_inj.
    apply append_address in E1 as [F1 ->], E2 as [F2 ->], E9 as [F9 ->].
    apply append_bytes32 in E3 as [F3 ->]. apply append_bytes32s in E4 as [F4 ->], E7 as [F7 ->].
    apply append_uint256 in E5 as [F5 ->], E6 as [F6 ->], E8 as [F8 ->].
    split; [done|]. cbn in F4, F7. split_fields F4. split_fields F7.
    split; [repeat (apply Forall_cons_2; [assumption|]); constructor|].
    do 2 f_equal. flatten_words.
  - intros (Hc & HF & ->). rewrite (proj2 (Z.eqb_neq _ _) Hc).
    assert (String.length (preimage i) = (26 * 32)%nat) as Hl.
    { unfold preimage. by rewrite string_app_length, keccak_length, words_total_length. }
    unfold fields_of in HF. cbv zeta in HF. split_fields HF. run_appends.
    match goal with |- context [negb (blen ?s =? _)] => assert (s = preimage i) as -> by flatten_words end.
    unfold blen. by rewrite Hl.
Qed.

(** An instruction digest stands for one instruction. The digest exists exactly
    when the chain id is set and every field is a value its ABI word can hold
    (canonical hexadecimal of the right length, canonical decimal below 2^256), and
    two inputs with the same digest are equal in every field, the chain, gateway,
    finalizer and policy included, unless the two word sequences themselves are a
    Keccak-256 collision. *)
Theorem instruction_digest_binds (i j : SolidityDigestInput) :
  typed i → typed j →
  ((∃ d, SolidityInstructionDigest i = Ok d) ↔ sd_ChainID i ≠ 0 ∧ Forall field_ok (fields_of i)) ∧
  (∀ d, SolidityInstructionDigest i = Ok d → SolidityInstructionDigest j = Ok d →
     i = j ∨ collides (preimage i) (preimage j)).
Proof using All.
  intros Ti Tj. split.
  - split; [intros [d (Hc & HF & _)%digest_Ok]; done|].
    intros [Hc HF]. eexists. by apply digest_Ok.
  - intros d (_ & Fi & ->)%digest_Ok (_ & Fj & E)%digest_Ok; [|done..].
    apply (inj hex32) in E. apply keccak_cases in E as [E|]; [left|by right].
    apply string_app_inj_l in E as [_ E]; [|done].
    by apply fields_inj, words_inj; [apply fields_kinds|..].
Qed.
End Digest.

Module Sample.
Import Message.Sample.

Definition h (n : Z) : string := hex32 (be_bytes 32 n).
Definition a (n : Z) : string := hex32 (be_bytes 20 n).
Definition instruction : SolidityInstruction :=
  mkSolidityInstruction (h 1) (h 2) (h 3) (h 4) (h 5) "100" "100" (h 6) (h 7) (h 8) (h 9) (h 10)
    (h 11) (h 12) (h 13) (h 14) 1000 2000 "250" 7 (a 15).
Definition input : SolidityDigestInput := mkSolidityDigestInput 1 (a 20) (a 21) (h 22) instruction.

Lemma input_digest : is_ok (SolidityInstructionDigest input) = true.
Proof. vm_compute. reflexivity. Qed.

Lemma instruction_digest_binds_witness :
  ∃ d, SolidityInstructionDigest input = Ok d ∧
    (input = input ∨ collides (preimage input) (preimage input)) ∧
    ∃ d, SolidityInstructionDigest input = Ok d.
Proof.
  destruct (SolidityInstructionDigest input) as [d|e] eqn:E;
    [|pose proof input_digest as X; rewrite E in X; discriminate X].
  assert (typed input) as T by (unfold typed; cbn; lia).
  exists d. split; [done|]. rewrite <- E.
  destruct (instruction_digest_binds input input T T) as [_ B]. split.
  - by apply (B d).
  - by exists d.
Defined.
End Sample.
