(* ===== verification/SettlementTypes.v ===== *)
(** Data and predicates of the settlement coordinator
    ([payment-orchestrator/settlement/settlement.go], [store.go], [reversal.go]):
    requests, plans, durable records and the checks on them.

    The verified values of the chain indexer ([VerifiedGatewayProjection],
    [VerifiedTransactionFailure], [VerifiedReorgEnvelope]) wrap exactly the records
    that their accessors return; the model passes those records. *)
From S2P Require Import Prelude GoStd CrossChainTypes ChainTypes PaymentTypes Payment Rlp Gateway.
From S2P Require Import SettlementDigest.
From S2P Require AllocationMode.

(** * Errors and states *)

Definition ErrInvalidPlan : error := AllocationMode.ErrExternal "invalid canonical settlement plan".
Definition ErrPlanConflict : error := AllocationMode.ErrExternal "canonical settlement plan conflict".
Definition ErrInvalidTransition : error :=
  AllocationMode.ErrExternal "invalid canonical settlement transition".
Definition ErrInvalidEvent : error := AllocationMode.ErrExternal "invalid canonical gateway event".
Definition ErrInvalidReorg : error :=
  AllocationMode.ErrExternal "invalid canonical settlement reorganization".
Definition ErrStoreConflict : error :=
  AllocationMode.ErrExternal "canonical coordinator store compare-and-swap conflict".
Definition ErrInvalidStore : error := AllocationMode.ErrExternal "invalid canonical coordinator store".

Definition StatePrepared : string := "PREPARED".
Definition StateSubmitted : string := "SUBMITTED".
Definition StateConfirmed : string := "CONFIRMED".
Definition StateFailed : string := "FAILED".
Definition StateQuarantined : string := "QUARANTINED".
Definition StateIncident : string := "INCIDENT".

(** * Records *)

Record PrepareRequest := mkPrepareRequest {
  q_PaymentID : string;
  q_AllocationID : string;
  q_LoanID : string;
  q_ProviderID : string;
  q_ProviderReference : string;
  q_PaymentStatus : string;
  q_PaymentVersion : Z;
  q_SourceAssetID : string;
  q_TargetAssetID : string;
  q_TargetToken : string;
  q_Denomination : string;
  q_SourcePrecision : Z;
  q_TargetPrecision : Z;
  q_SourceUnits : string;
  q_TargetUnits : string;
  q_ReconciliationID : string;
  q_DifferenceUnits : string;
  q_UnmatchedItems : Z;
  q_FinalityPolicyHash : string;
  q_ConversionPolicyHash : string;
  q_PolicySetHash : string;
  q_EligibilityEvidenceHash : string;
  q_OriginalJournalIDs : list string;
  q_ExpectedDebtUnits : string;
  q_ExpectedStateNonce : Z;
  q_ChainID : Z;
  q_GatewayAddress : string;
  q_FinalizerAddress : string;
  q_ProviderIDHash : string;
  q_ProviderReferenceHash : string;
  q_ReconciliationCommitment : string;
  q_OriginalJournalSetHash : string;
  q_JournalRef : string;
  q_AttesterAddress : string;
  q_FinalizedAt : Time.t;
  q_ReversalDeadline : Time.t;
  q_PreparedAt : Time.t;
  q_CorrelationID : string }.

Record SubmissionRequest := mkSubmissionRequest {
  sq_PaymentID : string;
  sq_AllocationID : string;
  sq_InstructionDigest : string;
  sq_ExpectedVersion : Z;
  sq_ChainID : Z;
  sq_Gateway : string;
  sq_Sender : string;
  sq_SenderNonce : Z;
  sq_TransactionHash : string;
  sq_CalldataHash : string;
  sq_SubmittedAt : Time.t }.

Record Submission := mkSubmission {
  sb_ChainID : Z;
  sb_Gateway : string;
  sb_Sender : string;
  sb_SenderNonce : Z;
  sb_TransactionHash : string;
  sb_CalldataHash : string;
  sb_SubmittedAt : Time.t }.

#[export] Instance Submission_eq_dec : EqDecision Submission.
Proof. solve_decision. Defined.

Definition zeroSubmission : Submission := mkSubmission 0 "" "" 0 "" "" Time.zero.

Record Plan := mkPlan {
  pl_PaymentID : string;
  pl_AllocationID : string;
  pl_LoanID : string;
  pl_ProviderID : string;
  pl_ProviderReference : string;
  pl_PaymentVersion : Z;
  pl_SourceAssetID : string;
  pl_TargetAssetID : string;
  pl_TargetToken : string;
  pl_Denomination : string;
  pl_Precision : Z;
  pl_SourceUnits : string;
  pl_TargetUnits : string;
  pl_PrincipalUnits : string;
  pl_RefundableExcessUnits : string;
  pl_DebtBeforeUnits : string;
  pl_DebtAfterUnits : string;
  pl_ReconciliationID : string;
  pl_ProviderIDHash : string;
  pl_ProviderReferenceHash : string;
  pl_ReconciliationCommitment : string;
  pl_OriginalJournalSetHash : string;
  pl_FinalityPolicyHash : string;
  pl_ConversionPolicyHash : string;
  pl_PolicySetHash : string;
  pl_EligibilityEvidenceHash : string;
  pl_JournalRef : string;
  pl_ProviderFinalizedAt : Z;
  pl_ReversalDeadlineUnix : Z;
  pl_OriginalJournalIDs : list string;
  pl_ExpectedStateNonce : Z;
  pl_ChainID : Z;
  pl_GatewayAddress : string;
  pl_FinalizerAddress : string;
  pl_AttesterAddress : string;
  pl_ReversalDeadline : Time.t;
  pl_CorrelationID : string;
  pl_InstructionDigest : string;
  pl_Instruction : SolidityInstruction;
  pl_State : string;
  pl_Version : Z;
  pl_PreparedAt : Time.t;
  pl_Submission : Submission;
  pl_FailureReason : string;
  pl_FailureProof : TransactionFailureEvidence;
  pl_Replayed : bool }.

Record gatewayEvent := mkgatewayEvent {
  ge_EventID : string;
  ge_TransactionHash : string;
  ge_LogIndex : Z;
  ge_BlockNumber : Z;
  ge_BlockHash : string;
  ge_ChainID : Z;
  ge_Gateway : string;
  ge_PaymentID : string;
  ge_AllocationID : string;
  ge_LoanID : string;
  ge_InstructionDigest : string;
  ge_PolicySetHash : string;
  ge_LoanAccount : string;
  ge_Finalizer : string;
  ge_Attester : string;
  ge_SourceAssetID : string;
  ge_TargetAssetID : string;
  ge_TargetToken : string;
  ge_SourceUnits : string;
  ge_GrossUnits : string;
  ge_ProviderIDHash : string;
  ge_ProviderReferenceHash : string;
  ge_ReconciliationID : string;
  ge_ReconciliationCommitment : string;
  ge_OriginalJournalSetHash : string;
  ge_ConversionPolicyHash : string;
  ge_FinalityPolicyHash : string;
  ge_EvidenceHash : string;
  ge_JournalRef : string;
  ge_ProviderFinalizedAt : Z;
  ge_ReversalDeadline : Z;
  ge_DebtBeforeUnits : string;
  ge_PrincipalUnits : string;
  ge_RefundableExcess : string;
  ge_DebtAfterUnits : string;
  ge_StateNonceBefore : Z;
  ge_StateNonceAfter : Z;
  ge_LenderID : string;
  ge_BorrowerID : string;
  ge_RawEvidenceHash : string;
  ge_TransactionIndex : Z;
  ge_ReceiptsRoot : string;
  ge_InclusionProofHash : string;
  ge_ReceiptHeaderSignatureHash : string }.

Record ConfirmationRequest := mkConfirmationRequest {
  cq_PaymentID : string;
  cq_AllocationID : string;
  cq_InstructionDigest : string;
  cq_ExpectedVersion : Z;
  cq_Projection : CanonicalSettlement * FinalityProof }.

Record AccountingProjection := mkAccountingProjection {
  ap_PaymentID : string;
  ap_AllocationID : string;
  ap_LoanID : string;
  ap_ProviderID : string;
  ap_ProviderReference : string;
  ap_SourceAssetID : string;
  ap_TargetAssetID : string;
  ap_TargetToken : string;
  ap_Denomination : string;
  ap_Precision : Z;
  ap_SourceUnits : string;
  ap_TargetUnits : string;
  ap_PrincipalUnits : string;
  ap_RefundableExcessUnits : string;
  ap_DebtBeforeUnits : string;
  ap_DebtAfterUnits : string;
  ap_ReconciliationID : string;
  ap_ProviderIDHash : string;
  ap_ProviderReferenceHash : string;
  ap_ReconciliationCommitment : string;
  ap_OriginalJournalSetHash : string;
  ap_FinalityPolicyHash : string;
  ap_ConversionPolicyHash : string;
  ap_PolicySetHash : string;
  ap_EligibilityEvidenceHash : string;
  ap_JournalRef : string;
  ap_ProviderFinalizedAt : Z;
  ap_ReversalDeadlineUnix : Z;
  ap_OriginalJournalIDs : list string;
  ap_CorrelationID : string;
  ap_InstructionDigest : string;
  ap_ChainID : Z;
  ap_Gateway : string;
  ap_LoanAccount : string;
  ap_Finalizer : string;
  ap_Attester : string;
  ap_TransactionHash : string;
  ap_EventID : string;
  ap_LogIndex : Z;
  ap_BlockNumber : Z;
  ap_BlockHash : string;
  ap_TransactionIndex : Z;
  ap_ReceiptsRoot : string;
  ap_InclusionProofHash : string;
  ap_HeaderAuthorityHash : string;
  ap_ReceiptHeaderSignatureHash : string;
  ap_HeadHeaderSignatureHash : string;
  ap_ConfirmationDepth : Z;
  ap_FinalityHeadBlock : Z;
  ap_FinalityHeadHash : string;
  ap_FinalityEvidenceHash : string;
  ap_StateNonceBefore : Z;
  ap_StateNonceAfter : Z;
  ap_LenderID : string;
  ap_BorrowerID : string;
  ap_EventEvidenceHash : string;
  ap_GatewayPayloadHash : string;
  ap_ConfirmedAt : Time.t;
  ap_Incident : bool }.

(** The opaque result of [Confirm]. *)
Record Confirmation := mkConfirmation { value : AccountingProjection; replayed : bool }.

Record FailureRequest := mkFailureRequest {
  fq_PaymentID : string;
  fq_AllocationID : string;
  fq_InstructionDigest : string;
  fq_ExpectedVersion : Z;
  fq_Proof : TransactionFailureEvidence }.

Record RetryRequest := mkRetryRequest {
  ry_PaymentID : string;
  ry_AllocationID : string;
  ry_InstructionDigest : string;
  ry_ExpectedVersion : Z;
  ry_EvidenceHash : string;
  ry_RetriedAt : Time.t }.

Record ReorgEvidence := mkReorgEvidence {
  re_ReorgID : string;
  re_PaymentID : string;
  re_AllocationID : string;
  re_InstructionDigest : string;
  re_ChainID : Z;
  re_Gateway : string;
  re_OrphanedEventID : string;
  re_OrphanedTxHash : string;
  re_OrphanedEventEvidenceHash : string;
  re_RawEvidenceHash : string;
  re_TransactionIndex : Z;
  re_ReceiptsRoot : string;
  re_InclusionProofHash : string;
  re_OrphanedReceiptHeaderSignatureHash : string;
  re_OrphanedBlockHash : string;
  re_OrphanedBlock : Z;
  re_ReplacementBlockHash : string;
  re_ReplacementBlock : Z;
  re_DepthClass : string;
  re_ConfirmationDepth : Z;
  re_DetectedHead : Z;
  re_DetectedHeadHash : string;
  re_FinalityPolicyHash : string;
  re_HeaderAuthorityHash : string;
  re_ReplacementHeaderSignatureHash : string;
  re_DetectedHeadHeaderSignatureHash : string;
  re_Deep : bool;
  re_CompensationRequired : bool;
  re_EvidenceHash : string;
  re_SubmissionSubmittedAt : Time.t;
  re_DetectedAt : Time.t }.

Record PendingReversalSnapshot := mkPendingReversalSnapshot {
  pn_QuarantineID : string;
  pn_IngressID : Z;
  pn_ProviderID : string;
  pn_ProviderEventID : string;
  pn_ProviderReference : string;
  pn_AssetID : string;
  pn_Units : string;
  pn_RawHash : string;
  pn_SignatureHash : string;
  pn_PaymentID : string;
  pn_AllocationID : string;
  pn_InstructionDigest : string;
  pn_CallbackEvidenceHash : string;
  pn_CallbackExpiresAt : Time.t;
  pn_OccurredAt : Time.t;
  pn_ReceivedAt : Time.t;
  pn_OriginState : string;
  pn_SubmissionChainID : Z;
  pn_SubmissionGateway : string;
  pn_SubmissionTxHash : string;
  pn_SubmissionSubmittedAt : Time.t }.

#[export] Instance PendingReversalSnapshot_eq_dec : EqDecision PendingReversalSnapshot.
Proof. solve_decision. Defined.

(** The zero value of the struct. *)
Definition zeroPending : PendingReversalSnapshot :=
  mkPendingReversalSnapshot "" 0 "" "" "" "" "" "" "" "" "" "" "" Time.zero Time.zero Time.zero ""
    0 "" "" Time.zero.

Record StoredTombstone := mkStoredTombstone {
  ts_PaymentID : string;
  ts_AllocationID : string;
  ts_InstructionDigest : string;
  ts_QuarantineID : string;
  ts_ReversalEventID : string;
  ts_EvidenceHash : string;
  ts_OccurredAt : Time.t }.

#[export] Instance StoredTombstone_eq_dec : EqDecision StoredTombstone.
Proof. solve_decision. Defined.

Record PendingReversalResolution := mkPendingReversalResolution {
  pr_Pending : PendingReversalSnapshot;
  pr_RequestDigest : string;
  pr_ResolutionID : string;
  pr_ReversalEventID : string;
  pr_FailureEvidenceHash : string;
  pr_FailureProof : TransactionFailureEvidence;
  pr_ResolutionEvidence : string;
  pr_ResolvedBy : string;
  pr_ResolvedAt : Time.t }.

#[export] Instance PendingReversalResolution_eq_dec : EqDecision PendingReversalResolution.
Proof. solve_decision. Defined.

Record StoredReversalResolution := mkStoredReversalResolution {
  sv_Resolution : PendingReversalResolution;
  sv_JournalIDs : list string }.

Record ConsumedPendingReversalSnapshot := mkConsumedPendingReversalSnapshot {
  cn_Pending : PendingReversalSnapshot;
  cn_ResolutionID : string;
  cn_ResolutionEvidenceHash : string;
  cn_ResolvedBy : string;
  cn_ResolvedAt : Time.t;
  cn_GatewayEventID : string;
  cn_GatewayTransactionHash : string;
  cn_GatewayRawPayloadHash : string;
  cn_FinalityEvidenceHash : string }.

Record StoredCoordinator := mkStoredCoordinator {
  sc_PaymentID : string;
  sc_AllocationID : string;
  sc_InstructionDigest : string;
  sc_AllocationExpectedVersion : Z;
  sc_State : string;
  sc_Version : Z;
  sc_Snapshot : string;
  sc_Tombstoned : bool;
  sc_PendingReversal : bool }.

#[export] Instance StoredCoordinator_eq_dec : EqDecision StoredCoordinator.
Proof. solve_decision. Defined.

Record durableSnapshot := mkdurableSnapshot {
  ds_Plan : Plan;
  ds_Confirmation : option AccountingProjection;
  ds_Reorgs : list ReorgEvidence;
  ds_Claim : AllocationMode.Claim;
  ds_Tombstoned : bool;
  ds_PendingReversal : option PendingReversalSnapshot;
  ds_ConsumedPendingReversal : option ConsumedPendingReversalSnapshot }.

(** * Updating a plan

    The terms of a plan never change; what the coordinator updates is its state,
    version, preparation time, submission, failure reason and failure proof. *)
Definition with_progress (state : string) (version : Z) (preparedAt : Time.t)
    (submission : Submission) (reason : string) (proof : TransactionFailureEvidence)
    (replayed : bool) (p : Plan) : Plan :=
  mkPlan (pl_PaymentID p) (pl_AllocationID p) (pl_LoanID p) (pl_ProviderID p)
    (pl_ProviderReference p) (pl_PaymentVersion p) (pl_SourceAssetID p) (pl_TargetAssetID p)
    (pl_TargetToken p) (pl_Denomination p) (pl_Precision p) (pl_SourceUnits p) (pl_TargetUnits p)
    (pl_PrincipalUnits p) (pl_RefundableExcessUnits p) (pl_DebtBeforeUnits p)
    (pl_DebtAfterUnits p) (pl_ReconciliationID p) (pl_ProviderIDHash p)
    (pl_ProviderReferenceHash p) (pl_ReconciliationCommitment p) (pl_OriginalJournalSetHash p)
    (pl_FinalityPolicyHash p) (pl_ConversionPolicyHash p) (pl_PolicySetHash p)
    (pl_EligibilityEvidenceHash p) (pl_JournalRef p) (pl_ProviderFinalizedAt p)
    (pl_ReversalDeadlineUnix p) (pl_OriginalJournalIDs p) (pl_ExpectedStateNonce p) (pl_ChainID p)
    (pl_GatewayAddress p) (pl_FinalizerAddress p) (pl_AttesterAddress p) (pl_ReversalDeadline p)
    (pl_CorrelationID p) (pl_InstructionDigest p) (pl_Instruction p) state version preparedAt
    submission reason proof replayed.

(** [nextPlan.State = state; nextPlan.Version++], with the other fields as given.
    The version is a [uint64]. *)
Definition advanced (state reason : string) (submission : Submission) (proof : TransactionFailureEvidence)
    (preparedAt : Time.t) (p : Plan) : Plan :=
  with_progress state (u64 (pl_Version p + 1)) preparedAt submission reason proof (pl_Replayed p) p.

Definition moved (state reason : string) (p : Plan) : Plan :=
  advanced state reason (pl_Submission p) (pl_FailureProof p) (pl_PreparedAt p) p.

Definition replayed_plan (p : Plan) : Plan :=
  with_progress (pl_State p) (pl_Version p) (pl_PreparedAt p) (pl_Submission p) (pl_FailureReason p)
    (pl_FailureProof p) true p.

(** * Numbers, addresses and hashes *)

(** [positive] and [nonNegative]: canonical decimals. *)
Definition positive (value : string) : option Z := Big.canonical_positive value.
Definition nonNegative (value : string) : option Z := Big.canonical_nonneg value.

(** The loop of [uniqueNonempty] with the set of values seen. *)
Fixpoint unique_loop (seen : gset string) (values : list string) : bool :=
  match values with
  | [] => true
  | value :: rest =>
      if empty_s value then false
      else if bool_decide (value ∈ seen) then false
      else unique_loop ({[value]} ∪ seen) rest
  end.
Definition uniqueNonempty (values : list string) : bool := unique_loop ∅ values.

Definition validAddress (value : string) : bool :=
  match decodeFixedHex value 20 with Ok decoded => nonzero_bytes decoded | Err _ => false end.
Definition validNonzeroHash (value : string) : bool :=
  match decodeFixedHex value 32 with Ok decoded => nonzero_bytes decoded | Err _ => false end.
Definition validCanonicalHash (value : string) : bool :=
  match decodeFixedHex value 32 with Ok _ => true | Err _ => false end.

(** [Nanosecond()] of a time. *)
Definition Nanosecond (t : Time.t) : Z := Time.ns t mod 1000000000.

(** * Requests *)

Definition validPrepare (request : PrepareRequest) : bool :=
  (q_PaymentID request <>s "") && (q_AllocationID request <>s "") &&
  (q_LoanID request <>s "") && (q_ProviderID request <>s "") &&
  (q_ProviderReference request <>s "") && (q_PaymentStatus request =s StatusFinal) &&
  (0 <? q_PaymentVersion request) &&
  (q_SourceAssetID request <>s "") && (q_TargetAssetID request <>s "") &&
  (q_SourceAssetID request <>s q_TargetAssetID request) && validAddress (q_TargetToken request) &&
  (q_Denomination request <>s "") && (0 <? q_SourcePrecision request) &&
  (q_SourcePrecision request =? q_TargetPrecision request) &&
  match positive (q_SourceUnits request), positive (q_TargetUnits request) with
  | Some source, Some target => source =? target
  | _, _ => false
  end &&
  match positive (q_ExpectedDebtUnits request) with Some debt => 0 <? debt | None => false end &&
  (q_ReconciliationID request <>s "") &&
  match nonNegative (q_DifferenceUnits request) with
  | Some difference => difference =? 0
  | None => false
  end &&
  (q_UnmatchedItems request =? 0) && (q_FinalityPolicyHash request <>s "") &&
  (q_ConversionPolicyHash request <>s "") && (q_PolicySetHash request <>s "") &&
  (q_EligibilityEvidenceHash request <>s "") &&
  Nat.eqb (length (q_OriginalJournalIDs request)) 2 &&
  uniqueNonempty (q_OriginalJournalIDs request) && (0 <? q_ExpectedStateNonce request) &&
  (0 <? q_ChainID request) && validAddress (q_GatewayAddress request) &&
  validAddress (q_FinalizerAddress request) &&
  validAddress (q_AttesterAddress request) &&
  (Nanosecond (q_FinalizedAt request) =? 0) &&
  (Nanosecond (q_ReversalDeadline request) =? 0) &&
  negb (Time.IsZero (q_FinalizedAt request)) &&
  Time.After (q_ReversalDeadline request) (q_FinalizedAt request) &&
  negb (Time.Before (q_PreparedAt request) (q_ReversalDeadline request)) &&
  (q_CorrelationID request <>s "").

Definition validSubmission (request : SubmissionRequest) : bool :=
  (sq_PaymentID request <>s "") && (sq_AllocationID request <>s "") &&
  (sq_InstructionDigest request <>s "") && (0 <? sq_ExpectedVersion request) &&
  (0 <? sq_ChainID request) && (sq_Gateway request <>s "") && (sq_Sender request <>s "") &&
  (sq_TransactionHash request <>s "") && (sq_CalldataHash request <>s "") &&
  negb (Time.IsZero (sq_SubmittedAt request)).

(** * Plans, claims and states *)

Definition stateFromCanonical (state : string) : string :=
  if state =s AllocationMode.CanonicalPrepared then StatePrepared
  else if state =s AllocationMode.CanonicalSubmitted then StateSubmitted
  else if state =s AllocationMode.CanonicalConfirmed then StateConfirmed
  else if state =s AllocationMode.CanonicalFailed then StateFailed
  else if state =s AllocationMode.CanonicalQuarantined then StateQuarantined
  else if state =s AllocationMode.CanonicalIncident then StateIncident
  else "".

Definition validState (state : string) : bool :=
  bool_decide (state ∈ [StatePrepared; StateSubmitted; StateConfirmed; StateFailed;
                        StateQuarantined; StateIncident]).

Definition claimMatchesPlan (claim : AllocationMode.Claim) (plan : Plan) : bool :=
  (AllocationMode.Mode claim =s AllocationMode.ModeCanonicalGateway) &&
  (AllocationMode.PaymentID claim =s pl_PaymentID plan) &&
  (AllocationMode.AllocationID claim =s pl_AllocationID plan) &&
  (AllocationMode.Digest claim =s pl_InstructionDigest plan).

Definition submittedPendingMatchesPlan (pending : PendingReversalSnapshot) (plan : Plan) : bool :=
  (pn_OriginState pending =s StateSubmitted) &&
  (pn_PaymentID pending =s pl_PaymentID plan) &&
  (pn_AllocationID pending =s pl_AllocationID plan) &&
  (pn_InstructionDigest pending =s pl_InstructionDigest plan) &&
  (pn_SubmissionChainID pending =? sb_ChainID (pl_Submission plan)) &&
  (pn_SubmissionGateway pending =s sb_Gateway (pl_Submission plan)) &&
  (pn_SubmissionTxHash pending =s sb_TransactionHash (pl_Submission plan)) &&
  Time.Equal (pn_SubmissionSubmittedAt pending) (Time.UTC (sb_SubmittedAt (pl_Submission plan))).

(** * Gateway events *)

(** [gatewayProjection]: the event part of a verified projection. *)
Definition gatewayProjection (event : CanonicalSettlement) : gatewayEvent :=
  {| ge_EventID := cs_EventID event;
     ge_TransactionHash := cs_TransactionHash event;
     ge_LogIndex := cs_LogIndex event;
     ge_BlockNumber := cs_UpdatedInBlock event;
     ge_BlockHash := cs_BlockHash event;
     ge_ChainID := cs_ChainID event;
     ge_Gateway := cs_Gateway event;
     ge_PaymentID := cs_PaymentID event;
     ge_AllocationID := cs_AllocationID event;
     ge_LoanID := cs_LoanID event;
     ge_InstructionDigest := cs_InstructionDigest event;
     ge_PolicySetHash := cs_PolicySetHash event;
     ge_LoanAccount := cs_LoanAccount event;
     ge_Finalizer := cs_Finalizer event;
     ge_Attester := cs_Attester event;
     ge_SourceAssetID := cs_SourceAssetID event;
     ge_TargetAssetID := cs_TargetAssetID event;
     ge_TargetToken := cs_TargetToken event;
     ge_SourceUnits := cs_SourceUnits event;
     ge_GrossUnits := cs_GrossUnits event;
     ge_ProviderIDHash := cs_ProviderIDHash event;
     ge_ProviderReferenceHash := cs_ProviderReferenceHash event;
     ge_ReconciliationID := cs_ReconciliationID event;
     ge_ReconciliationCommitment := cs_ReconciliationCommitment event;
     ge_OriginalJournalSetHash := cs_OriginalJournalSetHash event;
     ge_ConversionPolicyHash := cs_ConversionPolicyHash event;
     ge_FinalityPolicyHash := cs_FinalityPolicyHash event;
     ge_EvidenceHash := cs_EvidenceHash event;
     ge_JournalRef := cs_JournalRef event;
     ge_ProviderFinalizedAt := cs_ProviderFinalizedAt event;
     ge_ReversalDeadline := cs_ReversalDeadline event;
     ge_DebtBeforeUnits := cs_DebtBeforeUnits event;
     ge_PrincipalUnits := cs_PrincipalUnits event;
     ge_RefundableExcess := cs_RefundableExcessUnits event;
     ge_DebtAfterUnits := cs_DebtAfterUnits event;
     ge_StateNonceBefore := cs_StateNonceBefore event;
     ge_StateNonceAfter := cs_StateNonceAfter event;
     ge_LenderID := cs_LenderID event;
     ge_BorrowerID := cs_BorrowerID event;
     ge_RawEvidenceHash := cs_RawEvidenceHash event;
     ge_TransactionIndex := cs_TransactionIndex event;
     ge_ReceiptsRoot := cs_ReceiptsRoot event;
     ge_InclusionProofHash := cs_InclusionProofHash event;
     ge_ReceiptHeaderSignatureHash := cs_ReceiptHeaderSignatureHash event |}.

(** The subtraction of two [uint64] heights cannot wrap behind the comparison of the
    heights. *)
Definition validEvent (plan : Plan) (event : gatewayEvent) (proof : FinalityProof) : bool :=
  (fp_Finality proof =s ChainTypes.Final) &&
  (0 <? fp_ConfirmationDepth proof) &&
  (ge_BlockNumber event <=? fp_HeadBlockNumber proof) &&
  (fp_ConfirmationDepth proof <=? fp_HeadBlockNumber proof - ge_BlockNumber event) &&
  (fp_HeadBlockHash proof <>s "") &&
  (fp_EvidenceHash proof <>s "") &&
  (fp_FinalityPolicyHash proof =s pl_FinalityPolicyHash plan) &&
  (fp_HeaderAuthorityHash proof <>s "") &&
  (fp_HeadHeaderSignatureHash proof <>s "") &&
  negb (Time.IsZero (fp_ObservedAt proof)) &&
  negb (Time.IsZero (sb_SubmittedAt (pl_Submission plan))) &&
  negb (Time.Before (fp_ObservedAt proof) (sb_SubmittedAt (pl_Submission plan))) &&
  ((pl_State plan =s StateSubmitted) || (pl_State plan =s StateQuarantined)) &&
  (ge_EventID event <>s "") &&
  (ge_ReceiptsRoot event <>s "") &&
  (ge_InclusionProofHash event <>s "") &&
  (ge_ReceiptHeaderSignatureHash event <>s "") &&
  (ge_TransactionHash event =s sb_TransactionHash (pl_Submission plan)) &&
  (ge_ChainID event =? sb_ChainID (pl_Submission plan)) &&
  (ge_Gateway event =s sb_Gateway (pl_Submission plan)) &&
  (0 <? ge_BlockNumber event) &&
  (ge_BlockHash event <>s "") &&
  (ge_LoanID event =s pl_LoanID plan) &&
  (ge_PaymentID event =s pl_PaymentID plan) &&
  (ge_AllocationID event =s pl_AllocationID plan) &&
  (ge_InstructionDigest event =s pl_InstructionDigest plan) &&
  (ge_PolicySetHash event =s pl_PolicySetHash plan) &&
  (ge_Finalizer event =s pl_FinalizerAddress plan) &&
  (ge_Attester event =s pl_AttesterAddress plan) &&
  (ge_SourceAssetID event =s pl_SourceAssetID plan) &&
  (ge_TargetAssetID event =s pl_TargetAssetID plan) &&
  (ge_TargetToken event =s pl_TargetToken plan) &&
  (ge_SourceUnits event =s pl_SourceUnits plan) &&
  (ge_GrossUnits event =s pl_TargetUnits plan) &&
  (ge_ProviderIDHash event =s si_ProviderIDHash (pl_Instruction plan)) &&
  (ge_ProviderReferenceHash event =s si_ProviderReferenceHash (pl_Instruction plan)) &&
  (ge_ReconciliationID event =s si_ReconciliationID (pl_Instruction plan)) &&
  (ge_ReconciliationCommitment event =s si_ReconciliationCommitment (pl_Instruction plan)) &&
  (ge_OriginalJournalSetHash event =s si_OriginalJournalSetHash (pl_Instruction plan)) &&
  (ge_ConversionPolicyHash event =s si_ConversionPolicyHash (pl_Instruction plan)) &&
  (ge_FinalityPolicyHash event =s si_FinalityPolicyHash (pl_Instruction plan)) &&
  (ge_EvidenceHash event =s si_EvidenceHash (pl_Instruction plan)) &&
  (ge_JournalRef event =s si_JournalRef (pl_Instruction plan)) &&
  (ge_ProviderFinalizedAt event =? si_FinalizedAt (pl_Instruction plan)) &&
  (ge_ReversalDeadline event =? si_ReversalDeadline (pl_Instruction plan)) &&
  (ge_PrincipalUnits event =s pl_PrincipalUnits plan) &&
  (ge_RefundableExcess event =s pl_RefundableExcessUnits plan) &&
  (ge_DebtBeforeUnits event =s pl_DebtBeforeUnits plan) &&
  (ge_DebtAfterUnits event =s pl_DebtAfterUnits plan) &&
  (ge_StateNonceBefore event =? pl_ExpectedStateNonce plan) &&
  (ge_StateNonceBefore event <? ge_StateNonceAfter event) &&
  (ge_LenderID event <>s "") &&
  (ge_BorrowerID event <>s "") &&
  (ge_EvidenceHash event <>s "") &&
  (ge_RawEvidenceHash event <>s "") &&
  match positive (ge_SourceUnits event), positive (ge_GrossUnits event),
        positive (ge_PrincipalUnits event), nonNegative (ge_RefundableExcess event),
        positive (ge_DebtBeforeUnits event), nonNegative (ge_DebtAfterUnits event) with
  | Some source, Some gross, Some principal, Some excess, Some before, Some after =>
      (source =? gross) && (principal + excess =? gross) && (principal + after =? before)
  | _, _, _, _, _, _ => false
  end.

Definition sameGatewayEvent (record : Confirmation) (event : gatewayEvent) : bool :=
  let projection := value record in
  (ap_EventID projection =s ge_EventID event) &&
  (ap_TransactionHash projection =s ge_TransactionHash event) &&
  (ap_BlockHash projection =s ge_BlockHash event) &&
  (ap_TransactionIndex projection =? ge_TransactionIndex event) &&
  (ap_ReceiptsRoot projection =s ge_ReceiptsRoot event) &&
  (ap_InclusionProofHash projection =s ge_InclusionProofHash event) &&
  (ap_ReceiptHeaderSignatureHash projection =s ge_ReceiptHeaderSignatureHash event) &&
  (ap_LogIndex projection =? ge_LogIndex event) &&
  (ap_EventEvidenceHash projection =s ge_EvidenceHash event) &&
  (ap_GatewayPayloadHash projection =s ge_RawEvidenceHash event) &&
  (ap_InstructionDigest projection =s ge_InstructionDigest event) &&
  (ap_ChainID projection =? ge_ChainID event) &&
  (ap_Gateway projection =s ge_Gateway event) &&
  (ap_LoanID projection =s ge_LoanID event) &&
  (ap_LoanAccount projection =s ge_LoanAccount event) &&
  (ap_PaymentID projection =s ge_PaymentID event) &&
  (ap_AllocationID projection =s ge_AllocationID event) &&
  (ap_TargetAssetID projection =s ge_TargetAssetID event) &&
  (ap_TargetToken projection =s ge_TargetToken event) &&
  (ap_TargetUnits projection =s ge_GrossUnits event) &&
  (ap_PrincipalUnits projection =s ge_PrincipalUnits event) &&
  (ap_RefundableExcessUnits projection =s ge_RefundableExcess event) &&
  (ap_DebtBeforeUnits projection =s ge_DebtBeforeUnits event) &&
  (ap_DebtAfterUnits projection =s ge_DebtAfterUnits event) &&
  (ap_StateNonceBefore projection =? ge_StateNonceBefore event) &&
  (ap_StateNonceAfter projection =? ge_StateNonceAfter event) &&
  (ap_Finalizer projection =s ge_Finalizer event) &&
  (ap_Attester projection =s ge_Attester event) &&
  (ap_LenderID projection =s ge_LenderID event) &&
  (ap_BorrowerID projection =s ge_BorrowerID event).

(** * What the operations build *)

(** [uint64(t.Unix())] converts an [int64]. *)
Definition instruction_of (request : PrepareRequest) : SolidityInstruction :=
  {| si_PaymentID := q_PaymentID request;
     si_AllocationID := q_AllocationID request;
     si_LoanID := q_LoanID request;
     si_SourceAssetID := q_SourceAssetID request;
     si_TargetAssetID := q_TargetAssetID request;
     si_SourceUnits := q_SourceUnits request;
     si_TargetUnits := q_TargetUnits request;
     si_ProviderIDHash := q_ProviderIDHash request;
     si_ProviderReferenceHash := q_ProviderReferenceHash request;
     si_ReconciliationID := q_ReconciliationID request;
     si_ReconciliationCommitment := q_ReconciliationCommitment request;
     si_OriginalJournalSetHash := q_OriginalJournalSetHash request;
     si_ConversionPolicyHash := q_ConversionPolicyHash request;
     si_FinalityPolicyHash := q_FinalityPolicyHash request;
     si_EvidenceHash := q_EligibilityEvidenceHash request;
     si_JournalRef := q_JournalRef request;
     si_FinalizedAt := u64 (Time.Unix (q_FinalizedAt request));
     si_ReversalDeadline := u64 (Time.Unix (q_ReversalDeadline request));
     si_ExpectedDebt := q_ExpectedDebtUnits request;
     si_ExpectedStateNonce := q_ExpectedStateNonce request;
     si_Attester := q_AttesterAddress request |}.

(** The plan of a request: the waterfall splits the gross amount into principal and
    refundable excess. *)
Definition plan_of (request : PrepareRequest) (instructionDigest : string)
    (principal excess debt after : Z) : Plan :=
  {| pl_PaymentID := q_PaymentID request;
     pl_AllocationID := q_AllocationID request;
     pl_LoanID := q_LoanID request;
     pl_ProviderID := q_ProviderID request;
     pl_ProviderReference := q_ProviderReference request;
     pl_PaymentVersion := q_PaymentVersion request;
     pl_SourceAssetID := q_SourceAssetID request;
     pl_TargetAssetID := q_TargetAssetID request;
     pl_TargetToken := q_TargetToken request;
     pl_Denomination := q_Denomination request;
     pl_Precision := q_TargetPrecision request;
     pl_SourceUnits := q_SourceUnits request;
     pl_TargetUnits := q_TargetUnits request;
     pl_PrincipalUnits := Big.to_string principal;
     pl_RefundableExcessUnits := Big.to_string excess;
     pl_DebtBeforeUnits := Big.to_string debt;
     pl_DebtAfterUnits := Big.to_string after;
     pl_ReconciliationID := q_ReconciliationID request;
     pl_ProviderIDHash := q_ProviderIDHash request;
     pl_ProviderReferenceHash := q_ProviderReferenceHash request;
     pl_ReconciliationCommitment := q_ReconciliationCommitment request;
     pl_OriginalJournalSetHash := q_OriginalJournalSetHash request;
     pl_FinalityPolicyHash := q_FinalityPolicyHash request;
     pl_ConversionPolicyHash := q_ConversionPolicyHash request;
     pl_PolicySetHash := q_PolicySetHash request;
     pl_EligibilityEvidenceHash := q_EligibilityEvidenceHash request;
     pl_JournalRef := q_JournalRef request;
     pl_ProviderFinalizedAt := u64 (Time.Unix (q_FinalizedAt request));
     pl_ReversalDeadlineUnix := u64 (Time.Unix (q_ReversalDeadline request));
     pl_OriginalJournalIDs := q_OriginalJournalIDs request;
     pl_ExpectedStateNonce := q_ExpectedStateNonce request;
     pl_ChainID := q_ChainID request;
     pl_GatewayAddress := q_GatewayAddress request;
     pl_FinalizerAddress := q_FinalizerAddress request;
     pl_AttesterAddress := q_AttesterAddress request;
     pl_ReversalDeadline := Time.UTC (q_ReversalDeadline request);
     pl_CorrelationID := q_CorrelationID request;
     pl_InstructionDigest := instructionDigest;
     pl_Instruction := instruction_of request;
     pl_State := StatePrepared;
     pl_Version := 1;
     pl_PreparedAt := Time.UTC (q_PreparedAt request);
     pl_Submission := zeroSubmission;
     pl_FailureReason := "";
     pl_FailureProof := zeroFailure;
     pl_Replayed := false |}.

Definition submission_of (request : SubmissionRequest) : Submission :=
  mkSubmission (sq_ChainID request) (sq_Gateway request) (sq_Sender request) (sq_SenderNonce request)
    (sq_TransactionHash request) (sq_CalldataHash request) (Time.UTC (sq_SubmittedAt request)).

Definition projection_of (plan : Plan) (event : gatewayEvent) (proof : FinalityProof)
    (incident : bool) : AccountingProjection :=
  {| ap_PaymentID := pl_PaymentID plan;
     ap_AllocationID := pl_AllocationID plan;
     ap_LoanID := pl_LoanID plan;
     ap_ProviderID := pl_ProviderID plan;
     ap_ProviderReference := pl_ProviderReference plan;
     ap_SourceAssetID := pl_SourceAssetID plan;
     ap_TargetAssetID := pl_TargetAssetID plan;
     ap_TargetToken := pl_TargetToken plan;
     ap_Denomination := pl_Denomination plan;
     ap_Precision := pl_Precision plan;
     ap_SourceUnits := pl_SourceUnits plan;
     ap_TargetUnits := pl_TargetUnits plan;
     ap_PrincipalUnits := pl_PrincipalUnits plan;
     ap_RefundableExcessUnits := pl_RefundableExcessUnits plan;
     ap_DebtBeforeUnits := pl_DebtBeforeUnits plan;
     ap_DebtAfterUnits := pl_DebtAfterUnits plan;
     ap_ReconciliationID := pl_ReconciliationID plan;
     ap_ProviderIDHash := ge_ProviderIDHash event;
     ap_ProviderReferenceHash := ge_ProviderReferenceHash event;
     ap_ReconciliationCommitment := ge_ReconciliationCommitment event;
     ap_OriginalJournalSetHash := ge_OriginalJournalSetHash event;
     ap_FinalityPolicyHash := pl_FinalityPolicyHash plan;
     ap_ConversionPolicyHash := pl_ConversionPolicyHash plan;
     ap_PolicySetHash := pl_PolicySetHash plan;
     ap_EligibilityEvidenceHash := pl_EligibilityEvidenceHash plan;
     ap_JournalRef := ge_JournalRef event;
     ap_ProviderFinalizedAt := ge_ProviderFinalizedAt event;
     ap_ReversalDeadlineUnix := ge_ReversalDeadline event;
     ap_OriginalJournalIDs := pl_OriginalJournalIDs plan;
     ap_CorrelationID := pl_CorrelationID plan;
     ap_InstructionDigest := pl_InstructionDigest plan;
     ap_ChainID := ge_ChainID event;
     ap_Gateway := ge_Gateway event;
     ap_LoanAccount := ge_LoanAccount event;
     ap_Finalizer := ge_Finalizer event;
     ap_Attester := ge_Attester event;
     ap_TransactionHash := ge_TransactionHash event;
     ap_EventID := ge_EventID event;
     ap_LogIndex := ge_LogIndex event;
     ap_BlockNumber := ge_BlockNumber event;
     ap_BlockHash := ge_BlockHash event;
     ap_TransactionIndex := ge_TransactionIndex event;
     ap_ReceiptsRoot := ge_ReceiptsRoot event;
     ap_InclusionProofHash := ge_InclusionProofHash event;
     ap_HeaderAuthorityHash := fp_HeaderAuthorityHash proof;
     ap_ReceiptHeaderSignatureHash := ge_ReceiptHeaderSignatureHash event;
     ap_HeadHeaderSignatureHash := fp_HeadHeaderSignatureHash proof;
     ap_ConfirmationDepth := fp_ConfirmationDepth proof;
     ap_FinalityHeadBlock := fp_HeadBlockNumber proof;
     ap_FinalityHeadHash := fp_HeadBlockHash proof;
     ap_FinalityEvidenceHash := fp_EvidenceHash proof;
     ap_StateNonceBefore := ge_StateNonceBefore event;
     ap_StateNonceAfter := ge_StateNonceAfter event;
     ap_LenderID := ge_LenderID event;
     ap_BorrowerID := ge_BorrowerID event;
     ap_EventEvidenceHash := ge_EvidenceHash event;
     ap_GatewayPayloadHash := ge_RawEvidenceHash event;
     ap_ConfirmedAt := Time.UTC (fp_ObservedAt proof);
     ap_Incident := incident |}.

Definition reorg_evidence (plan : Plan) (request : SettlementReorg) (deep : bool) : ReorgEvidence :=
  {| re_ReorgID := "reorg:" +:+ sr_EvidenceHash request;
     re_PaymentID := pl_PaymentID plan;
     re_AllocationID := pl_AllocationID plan;
     re_InstructionDigest := pl_InstructionDigest plan;
     re_ChainID := sr_ChainID request;
     re_Gateway := sr_Gateway request;
     re_OrphanedEventID := sr_EventID request;
     re_OrphanedTxHash := sr_TransactionHash request;
     re_OrphanedEventEvidenceHash := sr_OrphanedEventEvidenceHash request;
     re_RawEvidenceHash := sr_RawEvidenceHash request;
     re_TransactionIndex := sr_TransactionIndex request;
     re_ReceiptsRoot := sr_ReceiptsRoot request;
     re_InclusionProofHash := sr_InclusionProofHash request;
     re_OrphanedReceiptHeaderSignatureHash := sr_OrphanedReceiptHeaderSignatureHash request;
     re_OrphanedBlockHash := sr_OrphanedBlockHash request;
     re_OrphanedBlock := sr_OrphanedBlock request;
     re_ReplacementBlockHash := sr_ReplacementBlockHash request;
     re_ReplacementBlock := sr_ReplacementBlock request;
     re_DepthClass := sr_DepthClass request;
     re_ConfirmationDepth := sr_ConfirmationDepth request;
     re_DetectedHead := sr_DetectedHead request;
     re_DetectedHeadHash := sr_DetectedHeadHash request;
     re_FinalityPolicyHash := sr_FinalityPolicyHash request;
     re_HeaderAuthorityHash := sr_HeaderAuthorityHash request;
     re_ReplacementHeaderSignatureHash := sr_ReplacementHeaderSignatureHash request;
     re_DetectedHeadHeaderSignatureHash := sr_DetectedHeadHeaderSignatureHash request;
     re_Deep := deep;
     re_CompensationRequired := sr_CompensationRequired request;
     re_EvidenceHash := sr_EvidenceHash request;
     re_SubmissionSubmittedAt := Time.UTC (sb_SubmittedAt (pl_Submission plan));
     re_DetectedAt := Time.UTC (sr_DetectedAt request) |}.

(** The incident recorded when a quarantined submission finalizes. *)
Definition consumed_of (pending : PendingReversalSnapshot) (event : gatewayEvent)
    (proof : FinalityProof) : ConsumedPendingReversalSnapshot :=
  {| cn_Pending := pending;
     cn_ResolutionID := "canonical-success:" +:+ ge_EventID event;
     cn_ResolutionEvidenceHash := fp_EvidenceHash proof;
     cn_ResolvedBy := "canonical-chain-indexer";
     cn_ResolvedAt := Time.UTC (fp_ObservedAt proof);
     cn_GatewayEventID := ge_EventID event;
     cn_GatewayTransactionHash := ge_TransactionHash event;
     cn_GatewayRawPayloadHash := ge_RawEvidenceHash event;
     cn_FinalityEvidenceHash := fp_EvidenceHash proof |}.

Definition pendingSnapshot (record : CanonicalReversalRecord) (plan : Plan) (originState : string)
    : PendingReversalSnapshot :=
  let submitted := originState =s StateSubmitted in
  {| pn_QuarantineID := rr_QuarantineID record;
     pn_IngressID := rr_IngressID record;
     pn_ProviderID := rr_ProviderID record;
     pn_ProviderEventID := rr_ProviderEventID record;
     pn_ProviderReference := rr_ProviderReference record;
     pn_AssetID := rr_AssetID record;
     pn_Units := rr_Units record;
     pn_RawHash := rr_RawHash record;
     pn_SignatureHash := rr_SignatureHash record;
     pn_PaymentID := pl_PaymentID plan;
     pn_AllocationID := pl_AllocationID plan;
     pn_InstructionDigest := pl_InstructionDigest plan;
     pn_CallbackEvidenceHash := rr_CallbackEvidenceHash record;
     pn_CallbackExpiresAt := Time.UTC (rr_CallbackExpiresAt record);
     pn_OccurredAt := Time.UTC (rr_OccurredAt record);
     pn_ReceivedAt := Time.UTC (rr_ReceivedAt record);
     pn_OriginState := originState;
     pn_SubmissionChainID := if submitted then sb_ChainID (pl_Submission plan) else 0;
     pn_SubmissionGateway := if submitted then sb_Gateway (pl_Submission plan) else "";
     pn_SubmissionTxHash := if submitted then sb_TransactionHash (pl_Submission plan) else "";
     pn_SubmissionSubmittedAt :=
       if submitted then Time.UTC (sb_SubmittedAt (pl_Submission plan)) else Time.zero |}.

(** * Reversals *)

Definition validReversalRecord (record : CanonicalReversalRecord) : bool :=
  (rr_QuarantineID record <>s "") && (0 <? rr_IngressID record) && (rr_PaymentID record <>s "") &&
  (rr_ProviderID record <>s "") && (rr_ProviderEventID record <>s "") &&
  (rr_ReversalEventID record =s
     canonicalPaymentEventID (rr_ProviderID record) (rr_ProviderEventID record)) &&
  (rr_AssetID record <>s "") && (rr_Units record <>s "") && (rr_RawHash record <>s "") &&
  (rr_SignatureHash record <>s "") && (rr_CallbackEvidenceHash record <>s "") &&
  negb (Time.IsZero (rr_CallbackExpiresAt record)) && negb (Time.IsZero (rr_OccurredAt record)) &&
  negb (Time.IsZero (rr_ReceivedAt record)) &&
  negb (Time.Before (rr_ReceivedAt record) (rr_OccurredAt record)).

Definition validResolutionRecord (record : CanonicalReversalRecord) : bool :=
  validReversalRecord record && (rr_ResolutionID record <>s "") && (rr_AllocationID record <>s "") &&
  (rr_InstructionDigest record <>s "") && (rr_ResolutionEvidence record <>s "") &&
  (rr_ResolvedBy record <>s "").

Definition samePendingReversal (pending : PendingReversalSnapshot) (record : CanonicalReversalRecord)
    : bool :=
  (pn_QuarantineID pending =s rr_QuarantineID record) &&
  (pn_IngressID pending =? rr_IngressID record) &&
  (pn_PaymentID pending =s rr_PaymentID record) &&
  (pn_ProviderID pending =s rr_ProviderID record) &&
  (pn_ProviderEventID pending =s rr_ProviderEventID record) &&
  (pn_ProviderReference pending =s rr_ProviderReference record) &&
  (pn_AssetID pending =s rr_AssetID record) &&
  (pn_Units pending =s rr_Units record) &&
  (pn_RawHash pending =s rr_RawHash record) &&
  (pn_SignatureHash pending =s rr_SignatureHash record) &&
  (pn_CallbackEvidenceHash pending =s rr_CallbackEvidenceHash record) &&
  Time.Equal (pn_CallbackExpiresAt pending) (Time.UTC (rr_CallbackExpiresAt record)) &&
  Time.Equal (pn_OccurredAt pending) (Time.UTC (rr_OccurredAt record)).

Definition validPendingSnapshot (pending : PendingReversalSnapshot) : bool :=
  (if pn_OriginState pending =s StateSubmitted then
     negb ((pn_SubmissionChainID pending =? 0) || empty_s (pn_SubmissionGateway pending) ||
           empty_s (pn_SubmissionTxHash pending) || Time.IsZero (pn_SubmissionSubmittedAt pending))
   else if (pn_OriginState pending =s StatePrepared) || (pn_OriginState pending =s StateFailed) then
     negb (negb (pn_SubmissionChainID pending =? 0) || (pn_SubmissionGateway pending <>s "") ||
           (pn_SubmissionTxHash pending <>s "") || negb (Time.IsZero (pn_SubmissionSubmittedAt pending)))
   else false) &&
  (pn_QuarantineID pending <>s "") && (0 <? pn_IngressID pending) &&
  (pn_ProviderID pending <>s "") && (pn_ProviderEventID pending <>s "") &&
  (pn_ProviderReference pending <>s "") && (pn_AssetID pending <>s "") &&
  (pn_Units pending <>s "") && (pn_RawHash pending <>s "") &&
  (pn_SignatureHash pending <>s "") && (pn_PaymentID pending <>s "") &&
  (pn_AllocationID pending <>s "") && (pn_InstructionDigest pending <>s "") &&
  (pn_CallbackEvidenceHash pending <>s "") &&
  negb (Time.IsZero (pn_CallbackExpiresAt pending)) &&
  negb (Time.IsZero (pn_OccurredAt pending)) && negb (Time.IsZero (pn_ReceivedAt pending)) &&
  negb (Time.Before (pn_ReceivedAt pending) (pn_OccurredAt pending)) &&
  negb (Time.After (pn_ReceivedAt pending) (pn_CallbackExpiresAt pending)).

(** ** Digests *)

Section Digests.
Context `{Sha256, Json}.

Definition preSubmissionFailureEvidenceHash (plan : Plan) (pending : PendingReversalSnapshot)
    : string :=
  tagged_digest "UNIFIED_PHASE7C_PRE_SUBMISSION_REVERSAL_V1"
    [("PaymentID", JString (pl_PaymentID plan)); ("AllocationID", JString (pl_AllocationID plan));
     ("InstructionDigest", JString (pl_InstructionDigest plan));
     ("OriginState", JString (pn_OriginState pending));
     ("QuarantineID", JString (pn_QuarantineID pending));
     ("ProviderID", JString (pn_ProviderID pending));
     ("ProviderEventID", JString (pn_ProviderEventID pending));
     ("RawHash", JString (pn_RawHash pending));
     ("CallbackEvidenceHash", JString (pn_CallbackEvidenceHash pending));
     ("OccurredAt", JTime (Time.UTC (pn_OccurredAt pending)));
     ("ReceivedAt", JTime (Time.UTC (pn_ReceivedAt pending)))].

Definition pending_json (p : PendingReversalSnapshot) : jval :=
  JObject
    [("QuarantineID", JString (pn_QuarantineID p)); ("IngressID", JUint (pn_IngressID p));
     ("ProviderID", JString (pn_ProviderID p)); ("ProviderEventID", JString (pn_ProviderEventID p));
     ("ProviderReference", JString (pn_ProviderReference p)); ("AssetID", JString (pn_AssetID p));
     ("Units", JString (pn_Units p)); ("RawHash", JString (pn_RawHash p));
     ("SignatureHash", JString (pn_SignatureHash p)); ("PaymentID", JString (pn_PaymentID p));
     ("AllocationID", JString (pn_AllocationID p));
     ("InstructionDigest", JString (pn_InstructionDigest p));
     ("CallbackEvidenceHash", JString (pn_CallbackEvidenceHash p));
     ("CallbackExpiresAt", JTime (pn_CallbackExpiresAt p)); ("OccurredAt", JTime (pn_OccurredAt p));
     ("ReceivedAt", JTime (pn_ReceivedAt p)); ("OriginState", JString (pn_OriginState p));
     ("SubmissionChainID", JUint (pn_SubmissionChainID p));
     ("SubmissionGateway", JString (pn_SubmissionGateway p));
     ("SubmissionTxHash", JString (pn_SubmissionTxHash p));
     ("SubmissionSubmittedAt", JTime (pn_SubmissionSubmittedAt p))].

Definition failure_json (f : TransactionFailureEvidence) : jval :=
  JObject
    [("ChainID", JUint (f_ChainID f)); ("Gateway", JString (f_Gateway f));
     ("TransactionHash", JString (f_TransactionHash f));
     ("ReceiptPayloadHash", JString (f_ReceiptPayloadHash f)); ("Status", JString (f_Status f));
     ("TransactionIndex", JUint (f_TransactionIndex f)); ("BlockNumber", JUint (f_BlockNumber f));
     ("BlockHash", JString (f_BlockHash f)); ("ReceiptsRoot", JString (f_ReceiptsRoot f));
     ("InclusionProofHash", JString (f_InclusionProofHash f));
     ("FinalityPolicyHash", JString (f_FinalityPolicyHash f));
     ("HeaderAuthorityHash", JString (f_HeaderAuthorityHash f));
     ("ReceiptHeaderSignatureHash", JString (f_ReceiptHeaderSignatureHash f));
     ("HeadHeaderSignatureHash", JString (f_HeadHeaderSignatureHash f));
     ("ConfirmationDepth", JUint (f_ConfirmationDepth f));
     ("HeadBlockNumber", JUint (f_HeadBlockNumber f)); ("HeadBlockHash", JString (f_HeadBlockHash f));
     ("EvidenceHash", JString (f_EvidenceHash f)); ("ObservedAt", JTime (f_ObservedAt f))].

Definition reversalResolutionRequestDigest (pending : PendingReversalSnapshot)
    (resolutionID failureEvidenceHash : string) (failureProof : TransactionFailureEvidence)
    (resolutionEvidence resolvedBy : string) (resolvedAt : Time.t) : string :=
  tagged_digest "UNIFIED_PHASE7C_REVERSAL_RESOLUTION_V1"
    [("Pending", pending_json pending); ("ResolutionID", JString resolutionID);
     ("FailureEvidenceHash", JString failureEvidenceHash); ("FailureProof", failure_json failureProof);
     ("ResolutionEvidence", JString resolutionEvidence); ("ResolvedBy", JString resolvedBy);
     ("ResolvedAt", JTime (Time.UTC resolvedAt))].

Definition CalculateAllocationID (request : PrepareRequest) : string :=
  "0x" +:+ tagged_digest "UNIFIED_PHASE7C_ALLOCATION_V1"
    [("PaymentID", JString (q_PaymentID request)); ("LoanID", JString (q_LoanID request));
     ("SourceAssetID", JString (q_SourceAssetID request));
     ("TargetAssetID", JString (q_TargetAssetID request));
     ("TargetUnits", JString (q_TargetUnits request));
     ("ExpectedDebt", JString (q_ExpectedDebtUnits request));
     ("ExpectedNonce", JUint (q_ExpectedStateNonce request));
     ("PaymentVersion", JUint (q_PaymentVersion request));
     ("PolicySetHash", JString (q_PolicySetHash request));
     ("EligibilityHash", JString (q_EligibilityEvidenceHash request))].

Definition validateReversalFailureProof (plan : Plan) (pending : PendingReversalSnapshot)
    (record : CanonicalReversalRecord) : result error (string * TransactionFailureEvidence) :=
  let failure := rr_FailureProof record in
  if pn_OriginState pending =s StateSubmitted then
    if (f_Status failure <>s TransactionReverted) || empty_s (f_EvidenceHash failure) ||
       empty_s (f_ReceiptPayloadHash failure) ||
       negb (f_ChainID failure =? sb_ChainID (pl_Submission plan)) ||
       (f_Gateway failure <>s sb_Gateway (pl_Submission plan)) ||
       (f_TransactionHash failure <>s sb_TransactionHash (pl_Submission plan)) ||
       (f_FinalityPolicyHash failure <>s pl_FinalityPolicyHash plan) ||
       empty_s (f_HeaderAuthorityHash failure) || empty_s (f_ReceiptHeaderSignatureHash failure) ||
       empty_s (f_HeadHeaderSignatureHash failure) || Time.IsZero (f_ObservedAt failure) ||
       Time.Before (f_ObservedAt failure) (sb_SubmittedAt (pl_Submission plan)) ||
       Time.After (f_ObservedAt failure) (rr_ReceivedAt record) ||
       (f_BlockNumber failure =? 0) || empty_s (f_BlockHash failure) ||
       empty_s (f_ReceiptsRoot failure) || empty_s (f_InclusionProofHash failure) ||
       (f_ConfirmationDepth failure =? 0) || (f_HeadBlockNumber failure <? f_BlockNumber failure) ||
       (f_HeadBlockNumber failure - f_BlockNumber failure <? f_ConfirmationDepth failure) ||
       empty_s (f_HeadBlockHash failure)
    then Err ErrInvalidTransition
    else Ok (f_EvidenceHash failure, failure)
  else if (pn_OriginState pending =s StatePrepared) || (pn_OriginState pending =s StateFailed) then
    if bool_decide (failure ≠ zeroFailure) then Err ErrInvalidTransition
    else Ok (preSubmissionFailureEvidenceHash plan pending, zeroFailure)
  else Err ErrInvalidTransition.

Definition validPendingResolution (resolution : PendingReversalResolution) : bool :=
  let pending := pr_Pending resolution in
  let failure := pr_FailureProof resolution in
  if negb (validPendingSnapshot pending) || empty_s (pr_RequestDigest resolution) ||
     empty_s (pr_ResolutionID resolution) || empty_s (pr_ReversalEventID resolution) ||
     (pr_ReversalEventID resolution <>s pn_ProviderID pending +:+ ":" +:+ pn_ProviderEventID pending) ||
     empty_s (pr_FailureEvidenceHash resolution) || empty_s (pr_ResolutionEvidence resolution) ||
     empty_s (pr_ResolvedBy resolution) || Time.IsZero (pr_ResolvedAt resolution)
  then false
  else if pr_RequestDigest resolution <>s
            reversalResolutionRequestDigest pending (pr_ResolutionID resolution)
              (pr_FailureEvidenceHash resolution) failure (pr_ResolutionEvidence resolution)
              (pr_ResolvedBy resolution) (pr_ResolvedAt resolution)
  then false
  else if pn_OriginState pending =s StateSubmitted then
    (f_Status failure =s TransactionReverted) &&
    (f_EvidenceHash failure =s pr_FailureEvidenceHash resolution) &&
    (f_ChainID failure =? pn_SubmissionChainID pending) &&
    (f_Gateway failure =s pn_SubmissionGateway pending) &&
    (f_TransactionHash failure =s pn_SubmissionTxHash pending) &&
    (f_ReceiptPayloadHash failure <>s "") && (f_FinalityPolicyHash failure <>s "") &&
    (f_HeaderAuthorityHash failure <>s "") && (f_ReceiptHeaderSignatureHash failure <>s "") &&
    (f_HeadHeaderSignatureHash failure <>s "") && (0 <? f_BlockNumber failure) &&
    (f_BlockHash failure <>s "") && (f_ReceiptsRoot failure <>s "") &&
    (f_InclusionProofHash failure <>s "") && (0 <? f_ConfirmationDepth failure) &&
    (f_BlockNumber failure <=? f_HeadBlockNumber failure) &&
    (f_ConfirmationDepth failure <=? f_HeadBlockNumber failure - f_BlockNumber failure) &&
    (f_HeadBlockHash failure <>s "") && negb (Time.IsZero (f_ObservedAt failure)) &&
    negb (Time.Before (f_ObservedAt failure) (pn_SubmissionSubmittedAt pending)) &&
    negb (Time.After (f_ObservedAt failure) (pr_ResolvedAt resolution))
  else if (pn_OriginState pending =s StatePrepared) || (pn_OriginState pending =s StateFailed) then
    bool_decide (failure = zeroFailure)
  else false.

Definition validStoredReversalResolution (record : StoredReversalResolution) : bool :=
  validPendingResolution (sv_Resolution record) && (0 <? Z.of_nat (length (sv_JournalIDs record))) &&
  (Z.of_nat (length (sv_JournalIDs record)) <=? 2) && uniqueNonempty (sv_JournalIDs record).

Definition resolvedReversalMatchesRecord (stored : StoredReversalResolution)
    (record : CanonicalReversalRecord) : bool :=
  let resolution := sv_Resolution stored in
  let failure := rr_FailureProof record in
  let digest := reversalResolutionRequestDigest (pr_Pending resolution) (rr_ResolutionID record)
    (pr_FailureEvidenceHash resolution) failure (rr_ResolutionEvidence record) (rr_ResolvedBy record)
    (rr_ReceivedAt record) in
  samePendingReversal (pr_Pending resolution) record &&
  (pn_AllocationID (pr_Pending resolution) =s rr_AllocationID record) &&
  (pn_InstructionDigest (pr_Pending resolution) =s rr_InstructionDigest record) &&
  (pr_ResolutionID resolution =s rr_ResolutionID record) &&
  (pr_ReversalEventID resolution =s rr_ReversalEventID record) &&
  bool_decide (pr_FailureProof resolution = failure) &&
  (pr_ResolutionEvidence resolution =s rr_ResolutionEvidence record) &&
  (pr_ResolvedBy resolution =s rr_ResolvedBy record) &&
  Time.Equal (pr_ResolvedAt resolution) (Time.UTC (rr_ReceivedAt record)) &&
  (pr_RequestDigest resolution =s digest).
End Digests.

(** [CalculateInstructionDigest]: a negative [int64] time is refused before it is
    converted. *)
Definition CalculateInstructionDigest `{Keccak} (request : PrepareRequest) : result error string :=
  if (Time.Unix (q_FinalizedAt request) <? 0) || (Time.Unix (q_ReversalDeadline request) <? 0)
  then Err ErrInvalidDigestInput
  else SolidityInstructionDigest
         (mkSolidityDigestInput (q_ChainID request) (q_GatewayAddress request)
            (q_FinalizerAddress request) (q_PolicySetHash request) (instruction_of request)).
