(* ===== verification/SettlementStore.v ===== *)
(** The durable store of the settlement coordinator
    ([payment-orchestrator/settlement/store.go]): the interface, its laws, the
    memory store, and the checks on recovered snapshots. The SQL store sends the
    same operations to stored procedures of an external database. *)
From S2P Require Import Prelude GoStd CrossChainTypes ChainTypes Payment Gateway SettlementDigest.
From S2P Require Import SettlementTypes.
From S2P Require AllocationMode.

(** * Records *)

Definition validStoredCoordinator (record : StoredCoordinator) : bool :=
  (sc_PaymentID record <>s "") && (sc_AllocationID record <>s "") &&
  (sc_InstructionDigest record <>s "") && (0 <? sc_AllocationExpectedVersion record) &&
  validState (sc_State record) && (0 <? sc_Version record) && (sc_Snapshot record <>s "").

(** [slices.Equal] of the snapshots and equality of the other fields. *)
Definition storedCoordinatorsEqual (left right : StoredCoordinator) : bool :=
  bool_decide (left = right).

Definition validStoredTombstone (record : StoredTombstone) : bool :=
  (ts_PaymentID record <>s "") &&
  Bool.eqb (empty_s (ts_AllocationID record)) (empty_s (ts_InstructionDigest record)) &&
  (ts_ReversalEventID record <>s "") && (ts_EvidenceHash record <>s "") &&
  negb (Time.IsZero (ts_OccurredAt record)).

Definition validConsumedPendingReversal (consumed : ConsumedPendingReversalSnapshot) (plan : Plan)
    (confirmation : AccountingProjection) : bool :=
  validPendingSnapshot (cn_Pending consumed) &&
  submittedPendingMatchesPlan (cn_Pending consumed) plan &&
  (cn_ResolutionID consumed =s "canonical-success:" +:+ cn_GatewayEventID consumed) &&
  (cn_ResolutionEvidenceHash consumed <>s "") &&
  (cn_ResolvedBy consumed =s "canonical-chain-indexer") &&
  negb (Time.IsZero (cn_ResolvedAt consumed)) &&
  (cn_GatewayEventID consumed =s ap_EventID confirmation) &&
  (cn_GatewayTransactionHash consumed =s ap_TransactionHash confirmation) &&
  (cn_GatewayRawPayloadHash consumed =s ap_GatewayPayloadHash confirmation) &&
  (cn_FinalityEvidenceHash consumed =s ap_FinalityEvidenceHash confirmation) &&
  (cn_ResolutionEvidenceHash consumed =s ap_FinalityEvidenceHash confirmation) &&
  Time.Equal (cn_ResolvedAt consumed) (Time.UTC (ap_ConfirmedAt confirmation)) &&
  ap_Incident confirmation.

Definition validRecoveredReorg (plan : Plan) (confirmation : option AccountingProjection)
    (reorg : ReorgEvidence) : bool :=
  if (re_ReorgID reorg <>s "reorg:" +:+ re_EvidenceHash reorg) ||
     (re_PaymentID reorg <>s pl_PaymentID plan) ||
     (re_AllocationID reorg <>s pl_AllocationID plan) ||
     (re_InstructionDigest reorg <>s pl_InstructionDigest plan) ||
     negb (re_ChainID reorg =? pl_ChainID plan) ||
     (re_Gateway reorg <>s pl_GatewayAddress plan) ||
     (re_FinalityPolicyHash reorg <>s pl_FinalityPolicyHash plan) ||
     empty_s (re_OrphanedEventID reorg) ||
     negb (validCanonicalHash (re_OrphanedTxHash reorg)) ||
     negb (validNonzeroHash (re_OrphanedEventEvidenceHash reorg)) ||
     negb (validCanonicalHash (re_RawEvidenceHash reorg)) ||
     negb (validCanonicalHash (re_ReceiptsRoot reorg)) ||
     negb (validCanonicalHash (re_InclusionProofHash reorg)) ||
     negb (validCanonicalHash (re_OrphanedReceiptHeaderSignatureHash reorg)) ||
     negb (validCanonicalHash (re_OrphanedBlockHash reorg)) ||
     (re_OrphanedBlock reorg =? 0) ||
     negb (validCanonicalHash (re_ReplacementBlockHash reorg)) ||
     (re_ReplacementBlock reorg =? 0) ||
     (re_ConfirmationDepth reorg =? 0) ||
     (re_DetectedHead reorg <? re_OrphanedBlock reorg) ||
     negb (validCanonicalHash (re_DetectedHeadHash reorg)) ||
     negb (validCanonicalHash (re_FinalityPolicyHash reorg)) ||
     negb (validCanonicalHash (re_HeaderAuthorityHash reorg)) ||
     negb (validCanonicalHash (re_ReplacementHeaderSignatureHash reorg)) ||
     negb (validCanonicalHash (re_DetectedHeadHeaderSignatureHash reorg)) ||
     negb (validCanonicalHash (re_EvidenceHash reorg)) ||
     Time.IsZero (re_SubmissionSubmittedAt reorg) ||
     Time.IsZero (re_DetectedAt reorg) ||
     Time.Before (re_DetectedAt reorg) (re_SubmissionSubmittedAt reorg) ||
     negb (Bool.eqb (re_Deep reorg) (re_DepthClass reorg =s ReorgDeepFinality)) ||
     negb (Bool.eqb (re_CompensationRequired reorg) (re_Deep reorg))
  then false
  else if negb (re_Deep reorg) then
    (re_DepthClass reorg =s ReorgPreFinality) &&
    (re_OrphanedEventEvidenceHash reorg =s pl_EligibilityEvidenceHash plan) &&
    (re_OrphanedTxHash reorg =s sb_TransactionHash (pl_Submission plan))
  else
    match confirmation with
    | None => false
    | Some confirmation =>
        (re_OrphanedEventID reorg =s ap_EventID confirmation) &&
        (re_OrphanedTxHash reorg =s ap_TransactionHash confirmation) &&
        (re_OrphanedEventEvidenceHash reorg =s ap_EventEvidenceHash confirmation) &&
        (re_TransactionIndex reorg =? ap_TransactionIndex confirmation) &&
        (re_ReceiptsRoot reorg =s ap_ReceiptsRoot confirmation) &&
        (re_InclusionProofHash reorg =s ap_InclusionProofHash confirmation) &&
        (re_OrphanedReceiptHeaderSignatureHash reorg =s ap_ReceiptHeaderSignatureHash confirmation) &&
        (re_OrphanedBlockHash reorg =s ap_BlockHash confirmation) &&
        (re_OrphanedBlock reorg =? ap_BlockNumber confirmation) &&
        (re_RawEvidenceHash reorg =s ap_GatewayPayloadHash confirmation) &&
        (re_FinalityPolicyHash reorg =s ap_FinalityPolicyHash confirmation) &&
        (re_HeaderAuthorityHash reorg =s ap_HeaderAuthorityHash confirmation) &&
        (re_ConfirmationDepth reorg =? ap_ConfirmationDepth confirmation) &&
        (ap_FinalityHeadBlock confirmation <=? re_DetectedHead reorg) &&
        negb (Time.Before (re_DetectedAt reorg) (ap_ConfirmedAt confirmation))
    end.

(** The guards of [validRecoveredSnapshot], one definition per part of a snapshot. *)
Definition recovered_envelope (record : StoredCoordinator) (snapshot : durableSnapshot) : bool :=
  let plan := ds_Plan snapshot in
  let claim := ds_Claim snapshot in
  (pl_PaymentID plan =s sc_PaymentID record) &&
  (pl_AllocationID plan =s sc_AllocationID record) &&
  (pl_InstructionDigest plan =s sc_InstructionDigest record) &&
  (pl_PaymentVersion plan =? sc_AllocationExpectedVersion record) &&
  (pl_State plan =s sc_State record) && (pl_Version plan =? sc_Version record) &&
  (AllocationMode.PaymentID claim =s pl_PaymentID plan) &&
  (AllocationMode.AllocationID claim =s pl_AllocationID plan) &&
  (AllocationMode.Digest claim =s pl_InstructionDigest plan) &&
  (AllocationMode.Mode claim =s AllocationMode.ModeCanonicalGateway) &&
  (stateFromCanonical (AllocationMode.State claim) =s pl_State plan) &&
  Bool.eqb (ds_Tombstoned snapshot) (sc_Tombstoned record) &&
  Bool.eqb (bool_decide (is_Some (ds_PendingReversal snapshot))) (sc_PendingReversal record).

Definition recovered_confirmation (plan : Plan) (confirmation : option AccountingProjection) : bool :=
  match confirmation with
  | None => true
  | Some c =>
      (ap_PaymentID c =s pl_PaymentID plan) && (ap_AllocationID c =s pl_AllocationID plan) &&
      (ap_InstructionDigest c =s pl_InstructionDigest plan) &&
      (ap_FinalityPolicyHash c =s pl_FinalityPolicyHash plan) &&
      (ap_TransactionHash c <>s "") && (ap_BlockHash c <>s "") && (ap_ReceiptsRoot c <>s "") &&
      (ap_InclusionProofHash c <>s "") && (ap_HeaderAuthorityHash c <>s "") &&
      (ap_ReceiptHeaderSignatureHash c <>s "") && (ap_HeadHeaderSignatureHash c <>s "") &&
      negb (ap_ConfirmationDepth c =? 0) && (ap_FinalityHeadHash c <>s "") &&
      (ap_FinalityEvidenceHash c <>s "") &&
      negb (Time.IsZero (sb_SubmittedAt (pl_Submission plan))) &&
      negb (Time.Before (ap_ConfirmedAt c) (sb_SubmittedAt (pl_Submission plan))) &&
      ((pl_State plan =s StateConfirmed) || (pl_State plan =s StateIncident))
  end.

Definition recovered_pending (plan : Plan) (pending : option PendingReversalSnapshot) : bool :=
  match pending with
  | None => true
  | Some pending =>
      validPendingSnapshot pending && (pn_PaymentID pending =s pl_PaymentID plan) &&
      (pn_AllocationID pending =s pl_AllocationID plan) &&
      (pn_InstructionDigest pending =s pl_InstructionDigest plan) &&
      (pl_State plan =s StateQuarantined) &&
      negb ((pn_OriginState pending =s StateSubmitted) &&
            (negb (pn_SubmissionChainID pending =? sb_ChainID (pl_Submission plan)) ||
             (pn_SubmissionGateway pending <>s sb_Gateway (pl_Submission plan)) ||
             (pn_SubmissionTxHash pending <>s sb_TransactionHash (pl_Submission plan)) ||
             negb (Time.Equal (pn_SubmissionSubmittedAt pending)
                     (Time.UTC (sb_SubmittedAt (pl_Submission plan))))))
  end.

Definition recovered_consumed (snapshot : durableSnapshot) : bool :=
  match ds_ConsumedPendingReversal snapshot with
  | None => true
  | Some consumed =>
      match ds_PendingReversal snapshot, ds_Confirmation snapshot with
      | None, Some confirmation =>
          (pl_State (ds_Plan snapshot) =s StateIncident) && negb (ds_Tombstoned snapshot) &&
          validConsumedPendingReversal consumed (ds_Plan snapshot) confirmation
      | _, _ => false
      end
  end.

Definition validRecoveredSnapshot (record : StoredCoordinator) (snapshot : durableSnapshot) : bool :=
  recovered_envelope record snapshot &&
  recovered_confirmation (ds_Plan snapshot) (ds_Confirmation snapshot) &&
  recovered_pending (ds_Plan snapshot) (ds_PendingReversal snapshot) &&
  recovered_consumed snapshot &&
  forallb (validRecoveredReorg (ds_Plan snapshot) (ds_Confirmation snapshot)) (ds_Reorgs snapshot).

(** * The interface *)

(** [json.Marshal] and [json.Unmarshal] of a snapshot. *)
Class SnapshotCodec := {
  marshal_snapshot : durableSnapshot → option string;
  unmarshal_snapshot : string → option durableSnapshot }.

Definition encodeDurableSnapshot `{SnapshotCodec} (snapshot : durableSnapshot) : option string :=
  marshal_snapshot snapshot.

Definition decodeDurableSnapshot `{SnapshotCodec} (encoded : string) : result error durableSnapshot :=
  if empty_s encoded then Err ErrInvalidStore
  else match unmarshal_snapshot encoded with
       | Some snapshot => Ok snapshot
       | None => Err ErrInvalidStore
       end.

(** A snapshot that survives the codec: its encoding is not empty and decodes to it.
    JSON keeps strings of valid UTF-8 and times in UTC. *)
Definition faithful `{SnapshotCodec} (snapshot : durableSnapshot) : Prop :=
  ∀ encoded, marshal_snapshot snapshot = Some encoded →
    encoded ≠ ""%string ∧ unmarshal_snapshot encoded = Some snapshot.

(** [Store]. The fallback of [ResolvePendingReversal] works on an arbitrary state. *)
Class Store (T : Type) := {
  Create : StoredCoordinator → string → Time.t → T → T * result error ();
  CompareAndSwap : string → Z → StoredCoordinator → string → Time.t → T → T * result error ();
  QuarantinePendingReversal :
    string → Z → StoredCoordinator → PendingReversalSnapshot → T → T * result error ();
  CreateTombstone : StoredTombstone → T → T * result error ();
  ResolvePendingReversal {W : Type} :
    string → Z → StoredCoordinator → PendingReversalResolution →
    (W → W * result error (list string)) → T → W → T * W * result error (list string);
  LoadAll : T → result error (list StoredCoordinator);
  LoadTombstones : T → result error (list StoredTombstone);
  LoadResolvedReversals : T → result error (list StoredReversalResolution) }.

(** * [MemoryStore] *)

Record MemoryStore := mkMemoryStore {
  ms_records : gmap string StoredCoordinator;
  ms_tombstones : gmap string StoredTombstone;
  ms_quarantines : gmap string PendingReversalSnapshot;
  ms_resolutions : gmap string StoredReversalResolution }.

Definition NewMemoryStore : MemoryStore := mkMemoryStore ∅ ∅ ∅ ∅.

Definition with_record (record : StoredCoordinator) (store : MemoryStore) : MemoryStore :=
  mkMemoryStore (<[sc_PaymentID record := record]> (ms_records store)) (ms_tombstones store)
    (ms_quarantines store) (ms_resolutions store).

Definition memory_Create (record : StoredCoordinator) (evidenceHash : string) (occurredAt : Time.t)
    (store : MemoryStore) : MemoryStore * result error () :=
  if negb (validStoredCoordinator record) || empty_s evidenceHash || Time.IsZero occurredAt
  then (store, Err ErrInvalidStore)
  else match ms_records store !! sc_PaymentID record with
  | Some existing =>
      if storedCoordinatorsEqual existing record then (store, Ok tt) else (store, Err ErrStoreConflict)
  | None => (with_record record store, Ok tt)
  end.

(** The comparison of the current record with the next one that every update makes. *)
Definition current_matches (current next : StoredCoordinator) (expectedState : string)
    (expectedVersion : Z) : bool :=
  (sc_State current =s expectedState) && (sc_Version current =? expectedVersion) &&
  (sc_AllocationID current =s sc_AllocationID next) &&
  (sc_InstructionDigest current =s sc_InstructionDigest next) &&
  (sc_AllocationExpectedVersion current =? sc_AllocationExpectedVersion next).

Definition memory_CompareAndSwap (expectedState : string) (expectedVersion : Z)
    (next : StoredCoordinator) (evidenceHash : string) (occurredAt : Time.t) (store : MemoryStore)
    : MemoryStore * result error () :=
  if negb (validStoredCoordinator next) || negb (validState expectedState) ||
     (expectedVersion =? 0) || negb (sc_Version next =? u64 (expectedVersion + 1)) ||
     empty_s evidenceHash || Time.IsZero occurredAt
  then (store, Err ErrInvalidStore)
  else match ms_records store !! sc_PaymentID next with
  | Some current =>
      if current_matches current next expectedState expectedVersion
      then (with_record next store, Ok tt) else (store, Err ErrStoreConflict)
  | None => (store, Err ErrStoreConflict)
  end.

Definition memory_CreateTombstone (record : StoredTombstone) (store : MemoryStore)
    : MemoryStore * result error () :=
  if negb (validStoredTombstone record) then (store, Err ErrInvalidStore)
  else match ms_tombstones store !! ts_PaymentID record with
  | Some existing =>
      if bool_decide (existing = record) then (store, Ok tt) else (store, Err ErrStoreConflict)
  | None =>
      (mkMemoryStore (ms_records store) (<[ts_PaymentID record := record]> (ms_tombstones store))
         (ms_quarantines store) (ms_resolutions store), Ok tt)
  end.

Definition quarantine_arguments_ok (expectedState : string) (expectedVersion : Z)
    (next : StoredCoordinator) (pending : PendingReversalSnapshot) : bool :=
  validStoredCoordinator next && validPendingSnapshot pending &&
  (pn_PaymentID pending =s sc_PaymentID next) && (pn_AllocationID pending =s sc_AllocationID next) &&
  (pn_InstructionDigest pending =s sc_InstructionDigest next) &&
  (pn_OriginState pending =s expectedState) && (sc_State next =s StateQuarantined) &&
  negb (sc_Tombstoned next) && sc_PendingReversal next &&
  (sc_Version next =? u64 (expectedVersion + 1)).

Definition memory_QuarantinePendingReversal (expectedState : string) (expectedVersion : Z)
    (next : StoredCoordinator) (pending : PendingReversalSnapshot) (store : MemoryStore)
    : MemoryStore * result error () :=
  if negb (quarantine_arguments_ok expectedState expectedVersion next pending)
  then (store, Err ErrInvalidStore)
  else match ms_records store !! sc_PaymentID next with
  | None => (store, Err ErrStoreConflict)
  | Some current =>
      if negb (current_matches current next expectedState expectedVersion) ||
         sc_Tombstoned current || sc_PendingReversal current
      then (store, Err ErrStoreConflict)
      else if match ms_quarantines store !! pn_QuarantineID pending with
              | Some existing => bool_decide (existing ≠ pending)
              | None => false
              end
      then (store, Err ErrStoreConflict)
      else (mkMemoryStore (<[sc_PaymentID next := next]> (ms_records store)) (ms_tombstones store)
              (<[pn_QuarantineID pending := pending]> (ms_quarantines store)) (ms_resolutions store),
            Ok tt)
  end.

Definition resolve_arguments_ok `{Sha256, Json} (expectedState : string) (expectedVersion : Z)
    (next : StoredCoordinator) (resolution : PendingReversalResolution) : bool :=
  (expectedState =s StateQuarantined) && validStoredCoordinator next &&
  (sc_State next =s StateFailed) && (sc_Version next =? u64 (expectedVersion + 1)) &&
  sc_Tombstoned next && negb (sc_PendingReversal next) && validPendingResolution resolution.

Definition resolution_tombstone (next : StoredCoordinator) (resolution : PendingReversalResolution)
    : StoredTombstone :=
  {| ts_PaymentID := sc_PaymentID next;
     ts_AllocationID := sc_AllocationID next;
     ts_InstructionDigest := sc_InstructionDigest next;
     ts_QuarantineID := pn_QuarantineID (pr_Pending resolution);
     ts_ReversalEventID := pr_ReversalEventID resolution;
     ts_EvidenceHash := pr_ResolutionEvidence resolution;
     ts_OccurredAt := Time.UTC (pr_ResolvedAt resolution) |}.

(** The last part of [ResolvePendingReversal]: the callback runs, and its journal
    identifiers are checked, before anything is written. *)
Definition memory_resolve_commit {W : Type} (next : StoredCoordinator)
    (resolution : PendingReversalResolution) (localFallback : W → W * result error (list string))
    (store : MemoryStore) (w : W) : MemoryStore * W * result error (list string) :=
  let quarantineID := pn_QuarantineID (pr_Pending resolution) in
  let tombstone := resolution_tombstone next resolution in
  match localFallback w with
  | (w, Err err) => (store, w, Err err)
  | (w, Ok journalIDs) =>
      if Nat.eqb (length journalIDs) 0 || Nat.ltb 2 (length journalIDs) ||
         negb (uniqueNonempty journalIDs)
      then (store, w, Err ErrInvalidStore)
      else
        (mkMemoryStore (<[sc_PaymentID next := next]> (ms_records store))
           (<[sc_PaymentID next := tombstone]> (ms_tombstones store))
           (delete quarantineID (ms_quarantines store))
           (<[quarantineID := mkStoredReversalResolution resolution journalIDs]>
              (ms_resolutions store)),
         w, Ok journalIDs)
  end.

Definition memory_ResolvePendingReversal `{Sha256, Json} {W : Type} (expectedState : string)
    (expectedVersion : Z) (next : StoredCoordinator) (resolution : PendingReversalResolution)
    (localFallback : W → W * result error (list string)) (store : MemoryStore) (w : W)
    : MemoryStore * W * result error (list string) :=
  let quarantineID := pn_QuarantineID (pr_Pending resolution) in
  if negb (resolve_arguments_ok expectedState expectedVersion next resolution)
  then (store, w, Err ErrInvalidStore)
  else match ms_resolutions store !! quarantineID with
  | Some stored =>
      match ms_records store !! sc_PaymentID next with
      | Some current =>
          if negb (storedCoordinatorsEqual current next) ||
             bool_decide (sv_Resolution stored ≠ resolution)
          then (store, w, Err ErrStoreConflict) else (store, w, Ok (sv_JournalIDs stored))
      | None => (store, w, Err ErrStoreConflict)
      end
  | None =>
      match ms_records store !! sc_PaymentID next with
      | None => (store, w, Err ErrStoreConflict)
      | Some current =>
          if negb (current_matches current next expectedState expectedVersion) ||
             negb (sc_PendingReversal current) || sc_Tombstoned current
          then (store, w, Err ErrStoreConflict)
          else if match ms_quarantines store !! quarantineID with
                  | Some pending => bool_decide (pending ≠ pr_Pending resolution)
                  | None => true
                  end
          then (store, w, Err ErrStoreConflict)
          else if match ms_tombstones store !! sc_PaymentID next with
                  | Some existing => bool_decide (existing ≠ resolution_tombstone next resolution)
                  | None => false
                  end
          then (store, w, Err ErrStoreConflict)
          else memory_resolve_commit next resolution localFallback store w
      end
  end.

Definition memory_LoadAll (store : MemoryStore) : result error (list StoredCoordinator) :=
  Ok (sort_by sc_PaymentID (map_to_list (ms_records store)).*2).
Definition memory_LoadTombstones (store : MemoryStore) : result error (list StoredTombstone) :=
  Ok (sort_by ts_PaymentID (map_to_list (ms_tombstones store)).*2).
Definition memory_LoadResolvedReversals (store : MemoryStore)
    : result error (list StoredReversalResolution) :=
  Ok (sort_by (λ r, pn_QuarantineID (pr_Pending (sv_Resolution r)))
        (map_to_list (ms_resolutions store)).*2).

#[export] Instance memory_store `{Sha256, Json} : Store MemoryStore := {
  Create := memory_Create;
  CompareAndSwap := memory_CompareAndSwap;
  QuarantinePendingReversal := memory_QuarantinePendingReversal;
  CreateTombstone := memory_CreateTombstone;
  ResolvePendingReversal W := memory_ResolvePendingReversal;
  LoadAll := memory_LoadAll;
  LoadTombstones := memory_LoadTombstones;
  LoadResolvedReversals := memory_LoadResolvedReversals }.

(** * What a store promises *)

(** The three tables of a store and how each operation changes them. An operation
    that answers an error changed none of them; a resolution either replays a stored
    one or commits the record, the tombstone and the resolution together, after the
    callback succeeded or, in a store that posts the accounting in its own
    transaction, without running it. The memory store below keeps these laws. A store
    behind a connection that can lose the response of a committed request does not:
    its caller gets an error for a change that was made. *)
Class StoreLaws (T : Type) `{Sha256, Json, Store T} := {
  stored : T → gmap string StoredCoordinator;
  tombs : T → gmap string StoredTombstone;
  resolved : T → gmap string StoredReversalResolution;
  store_ok : T → Prop;
  stored_key t p r : store_ok t → stored t !! p = Some r → sc_PaymentID r = p;
  tombs_key t p r : store_ok t → tombs t !! p = Some r → ts_PaymentID r = p ∧ p ≠ ""%string;
  resolved_key t q r : store_ok t → resolved t !! q = Some r →
    pn_QuarantineID (pr_Pending (sv_Resolution r)) = q ∧ validStoredReversalResolution r = true;
  create_law record e at_ t t' r : store_ok t → Create record e at_ t = (t', r) →
    store_ok t' ∧ tombs t' = tombs t ∧ resolved t' = resolved t ∧
    match r with
    | Ok _ => (stored t !! sc_PaymentID record = None ∨
               stored t !! sc_PaymentID record = Some record) ∧
              stored t' = <[sc_PaymentID record := record]> (stored t)
    | Err _ => stored t' = stored t
    end;
  swap_law st v next e at_ t t' r : store_ok t → CompareAndSwap st v next e at_ t = (t', r) →
    store_ok t' ∧ tombs t' = tombs t ∧ resolved t' = resolved t ∧
    match r with
    | Ok _ => (∃ current, stored t !! sc_PaymentID next = Some current ∧
                 current_matches current next st v = true) ∧
              validStoredCoordinator next = true ∧
              stored t' = <[sc_PaymentID next := next]> (stored t)
    | Err _ => stored t' = stored t
    end;
  quarantine_law st v next p t t' r : store_ok t →
    QuarantinePendingReversal st v next p t = (t', r) →
    store_ok t' ∧ tombs t' = tombs t ∧ resolved t' = resolved t ∧
    match r with
    | Ok _ => (∃ current, stored t !! sc_PaymentID next = Some current ∧
                 current_matches current next st v = true ∧ sc_Tombstoned current = false) ∧
              quarantine_arguments_ok st v next p = true ∧
              stored t' = <[sc_PaymentID next := next]> (stored t)
    | Err _ => stored t' = stored t
    end;
  tombstone_law record t t' r : store_ok t → CreateTombstone record t = (t', r) →
    store_ok t' ∧ stored t' = stored t ∧ resolved t' = resolved t ∧
    match r with
    | Ok _ => (tombs t !! ts_PaymentID record = None ∨
               tombs t !! ts_PaymentID record = Some record) ∧
              tombs t' = <[ts_PaymentID record := record]> (tombs t)
    | Err _ => tombs t' = tombs t
    end;
  resolve_law {W : Type} st v next res (f : W → W * result error (list string)) t w t' w' r :
    store_ok t → ResolvePendingReversal st v next res f t w = (t', w', r) →
    store_ok t' ∧
    match r with
    | Ok ids =>
        resolve_arguments_ok st v next res = true ∧
        ((w' = w ∧ stored t' = stored t ∧ tombs t' = tombs t ∧ resolved t' = resolved t ∧
          resolved t !! pn_QuarantineID (pr_Pending res) = Some (mkStoredReversalResolution res ids) ∧
          stored t !! sc_PaymentID next = Some next) ∨
         ((f w = (w', Ok ids) ∨ w' = w) ∧
          stored t' = <[sc_PaymentID next := next]> (stored t) ∧
          tombs t' = <[sc_PaymentID next := resolution_tombstone next res]> (tombs t) ∧
          resolved t !! pn_QuarantineID (pr_Pending res) = None ∧
          resolved t' = <[pn_QuarantineID (pr_Pending res) := mkStoredReversalResolution res ids]>
                          (resolved t)))
    | Err _ => stored t' = stored t ∧ tombs t' = tombs t ∧ resolved t' = resolved t ∧
               (w' = w ∨ f w = (w', r) ∨ ∃ ids, f w = (w', Ok ids) ∧
                  (length ids = 0%nat ∨ (2 < length ids)%nat ∨ uniqueNonempty ids = false))
    end;
  resolve_runs {W : Type} st v next res (f : W → W * result error (list string)) t w t' w' r :
    ResolvePendingReversal st v next res f t w = (t', w', r) →
    w' = w ∨ match r with Ok ids => f w = (w', Ok ids) | Err _ => ∃ x, f w = (w', x) end;
  load_law t : store_ok t →
    LoadAll t = Ok (sort_by sc_PaymentID (map_to_list (stored t)).*2) ∧
    LoadTombstones t = Ok (sort_by ts_PaymentID (map_to_list (tombs t)).*2) ∧
    LoadResolvedReversals t =
      Ok (sort_by (λ r, pn_QuarantineID (pr_Pending (sv_Resolution r))) (map_to_list (resolved t)).*2) }.

Definition memory_keyed `{Sha256, Json} (t : MemoryStore) : Prop :=
  (∀ p r, ms_records t !! p = Some r → sc_PaymentID r = p) ∧
  (∀ p r, ms_tombstones t !! p = Some r → ts_PaymentID r = p ∧ p ≠ ""%string) ∧
  (∀ q r, ms_resolutions t !! q = Some r →
     pn_QuarantineID (pr_Pending (sv_Resolution r)) = q ∧ validStoredReversalResolution r = true).

Lemma insert_keyed {A} (P : string → A → Prop) (m : gmap string A) i x :
  (∀ p r, m !! p = Some r → P p r) → P i x → ∀ p r, <[i := x]> m !! p = Some r → P p r.
Proof.
  intros Hm Hx p r. destruct (decide (i = p)) as [<-|].
  - rewrite lookup_insert_eq. by intros [= <-].
  - rewrite lookup_insert_ne by done. apply Hm.
Qed.

Lemma memory_resolve_keyed `{Sha256, Json} {W : Type} st v next res
    (f : W → W * result error (list string)) t w t' w' r :
  memory_keyed t → memory_ResolvePendingReversal st v next res f t w = (t', w', r) →
  memory_keyed t' ∧
  match r with
  | Ok ids =>
      resolve_arguments_ok st v next res = true ∧
      ((w' = w ∧ ms_records t' = ms_records t ∧ ms_tombstones t' = ms_tombstones t ∧
        ms_resolutions t' = ms_resolutions t ∧
        ms_resolutions t !! pn_QuarantineID (pr_Pending res) = Some (mkStoredReversalResolution res ids) ∧
        ms_records t !! sc_PaymentID next = Some next) ∨
       (f w = (w', Ok ids) ∧ ms_records t' = <[sc_PaymentID next := next]> (ms_records t) ∧
        ms_tombstones t' = <[sc_PaymentID next := resolution_tombstone next res]> (ms_tombstones t) ∧
        ms_resolutions t !! pn_QuarantineID (pr_Pending res) = None ∧
        ms_resolutions t' = <[pn_QuarantineID (pr_Pending res) := mkStoredReversalResolution res ids]>
                              (ms_resolutions t)))
  | Err _ => ms_records t' = ms_records t ∧ ms_tombstones t' = ms_tombstones t ∧
             ms_resolutions t' = ms_resolutions t ∧
             (w' = w ∨ f w = (w', r) ∨ ∃ ids, f w = (w', Ok ids) ∧
                (length ids = 0%nat ∨ (2 < length ids)%nat ∨ uniqueNonempty ids = false))
  end.
Proof.
  intros K. pose proof K as (K1 & K2 & K3). unfold memory_ResolvePendingReversal.
  assert (∀ e, (t, w, Err e) = (t', w', r) → memory_keyed t' ∧ match r with
    | Ok _ => False
    | Err _ => ms_records t' = ms_records t ∧ ms_tombstones t' = ms_tombstones t ∧
               ms_resolutions t' = ms_resolutions t ∧ w' = w end) as Hsame by (by intros e [= <- <- <-]).
  destruct (resolve_arguments_ok _ _ _ _) eqn:Ha; cbn [negb];
    [|intros Hx%Hsame; destruct r; [tauto|]; intuition].
  destruct (ms_resolutions t !! _) as [old|] eqn:Hr.
  { destruct (ms_records t !! _) as [cur|] eqn:Hc; [|intros Hx%Hsame; destruct r; [tauto|]; intuition].
    unfold storedCoordinatorsEqual. destruct (_ || _) eqn:Hg;
      [intros Hx%Hsame; destruct r; [tauto|]; intuition|].
    bool_facts. subst cur. intros [= <- <- <-].
    split; [done|]. split; [done|]. left. split_and!; try done.
    f_equal. destruct old as [o ids]. cbn in *.
    match goal with A : ¬ o ≠ _ |- _ => apply dec_stable in A end. by subst. }
  destruct (ms_records t !! _) as [cur|] eqn:Hc; [|intros Hx%Hsame; destruct r; [tauto|]; intuition].
  destruct (_ || _); [intros Hx%Hsame; destruct r; [tauto|]; intuition|].
  destruct (match ms_quarantines t !! _ with Some _ => _ | None => _ end);
    [intros Hx%Hsame; destruct r; [tauto|]; intuition|].
  destruct (match ms_tombstones t !! _ with Some _ => _ | None => _ end);
    [intros Hx%Hsame; destruct r; [tauto|]; intuition|].
  unfold memory_resolve_commit. destruct (f w) as [w1 [ids|e]] eqn:Hf.
  - destruct (_ || _) eqn:Hi.
    { intros [= <- <- <-]. split; [done|]. split_and!; try done. right; right. exists ids.
      split; [done|]. apply orb_true_iff in Hi as [Hi|Hi]; [|bool_facts; auto].
      apply orb_true_iff in Hi as [Hi|Hi]; [left; by apply Nat.eqb_eq|right; left; by apply Nat.ltb_lt]. }
    pose proof Ha as Ha'. unfold resolve_arguments_ok in Ha'. bool_facts. intros [= <- <- <-]. split.
    + split_and!; cbn.
      * by apply (insert_keyed (λ p r, sc_PaymentID r = p)).
      * apply (insert_keyed (λ p r, ts_PaymentID r = p ∧ p ≠ ""%string)); [done|].
        split; [done|]. unfold validStoredCoordinator in *. bool_facts. done.
      * apply (insert_keyed (λ q r, pn_QuarantineID (pr_Pending (sv_Resolution r)) = q ∧
                                    validStoredReversalResolution r = true)); [done|].
        split; [done|]. unfold validStoredReversalResolution. cbn.
        repeat match goal with A : _ = true |- _ => rewrite A; clear A end.
        repeat match goal with A : Nat.eqb _ _ = false |- _ => apply Nat.eqb_neq in A
               | A : Nat.ltb _ _ = false |- _ => apply Nat.ltb_ge in A end.
        rewrite (proj2 (Z.ltb_lt _ _)), (proj2 (Z.leb_le _ _)) by lia. done.
    + split; [done|]. by right.
  - intros [= <- <- <-]. split; [done|]. split_and!; try done. right; left. done.
Qed.

Lemma memory_resolve_runs `{Sha256, Json} {W : Type} st v next res
    (f : W → W * result error (list string)) t w t' w' r :
  memory_ResolvePendingReversal st v next res f t w = (t', w', r) →
  w' = w ∨ match r with Ok ids => f w = (w', Ok ids) | Err _ => ∃ x, f w = (w', x) end.
Proof.
  unfold memory_ResolvePendingReversal, memory_resolve_commit. intros Hx.
  repeat match type of Hx with
  | (let '_ := ?b in _) = _ => destruct b eqn:?
  | (if ?b then _ else _) = _ => destruct b
  | match ?b with _ => _ end = _ => destruct b eqn:?
  end; simplify_eq; eauto.
Qed.

#[export] Instance memory_store_laws `{Sha256, Json} : StoreLaws MemoryStore.
Proof.
  refine {| stored := ms_records; tombs := ms_tombstones; resolved := ms_resolutions;
            store_ok := memory_keyed |}.
  - intros t p r (K & _ & _). apply K.
  - intros t p r (_ & K & _). apply K.
  - intros t q r (_ & _ & K). apply K.
  - intros record e at_ t t' r (K1 & K2 & K3). cbn. unfold memory_Create.
    destruct (_ || _); [intros [= <- <-]; done|].
    destruct (ms_records t !! _) as [x|] eqn:Hx.
    + unfold storedCoordinatorsEqual. case_bool_decide as He; intros [= <- <-]; [|done]. subst x.
      split_and!; try done; [by right|]. by rewrite insert_id.
    + intros [= <- <-]. split_and!; try done; [|by left].
      split_and!; try done. by apply (insert_keyed (λ p r, sc_PaymentID r = p)).
  - intros st v next e at_ t t' r (K1 & K2 & K3). cbn. unfold memory_CompareAndSwap.
    destruct (_ || _) eqn:Hg; [intros [= <- <-]; done|]. bool_facts.
    destruct (ms_records t !! _) as [x|] eqn:Hx; [|intros [= <- <-]; done].
    destruct (current_matches _ _ _ _) eqn:Hc; intros [= <- <-]; [|done].
    split_and!; try done; [|by exists x].
    split_and!; try done. by apply (insert_keyed (λ p r, sc_PaymentID r = p)).
  - intros st v next p t t' r (K1 & K2 & K3). cbn. unfold memory_QuarantinePendingReversal.
    destruct (quarantine_arguments_ok _ _ _ _) eqn:Hg; cbn [negb]; [|intros [= <- <-]; done].
    destruct (ms_records t !! _) as [x|] eqn:Hx; [|intros [= <- <-]; done].
    destruct (_ || _) eqn:Hc; [intros [= <- <-]; done|]. bool_facts.
    destruct (match _ with Some _ => _ | None => _ end); intros [= <- <-]; [done|].
    split_and!; try done; [|by exists x].
    split_and!; try done. by apply (insert_keyed (λ p r, sc_PaymentID r = p)).
  - intros record t t' r (K1 & K2 & K3). cbn. unfold memory_CreateTombstone.
    destruct (validStoredTombstone record) eqn:Hv; cbn [negb]; [|intros [= <- <-]; done].
    destruct (ms_tombstones t !! _) as [x|] eqn:Hx.
    + case_bool_decide as He; intros [= <- <-]; [|done]. subst x.
      split_and!; try done; [by right|]. by rewrite insert_id.
    + intros [= <- <-]. split_and!; try done; [|by left].
      unfold validStoredTombstone in Hv. bool_facts. split_and!; try done.
      apply (insert_keyed (λ p r, ts_PaymentID r = p ∧ p ≠ ""%string)); done.
  - intros W st v next res f t w t' w' r K Hx.
    destruct (memory_resolve_keyed _ _ _ _ _ _ _ _ _ _ K Hx) as [K' Hr]. split; [exact K'|].
    destruct r as [ids|]; [|exact Hr]. destruct Hr as [Ha [Hr|(Hf & Hr)]]; split; auto.
  - intros W st v next res f t w t' w' r. apply memory_resolve_runs.
  - intros t (K1 & K2 & K3). done.
Defined.
