(* ===== verification/Settlement.v ===== *)
(** The settlement coordinator
    ([payment-orchestrator/settlement/settlement.go] and [reversal.go]): plans of
    canonical settlements, their submission, confirmation by finalized gateway
    events, failure, retry, reorganisation, and the provider reversals that race
    with them.

    The coordinator holds the allocation-mode registry, which it shares with the
    synthetic allocator, and a durable store. Every transition runs inside a
    callback of the registry: the store's compare-and-swap happens first, then the
    registry publishes the claim, then the coordinator publishes the plan. *)
From S2P Require Import Prelude GoStd CrossChainTypes ChainTypes Payment SettlementDigest.
From S2P Require Import SettlementTypes SettlementStore.
From S2P Require AllocationMode.

Section Coordinator.
Context `{Keccak, Sha256, Json, SnapshotCodec} {S T : Type}.
Context `{AllocationMode.ClaimStore T S, Store T}.

Record Coordinator := mkCoordinator {
  modes : AllocationMode.Registry S;
  store : T;
  plans : gmap string Plan;
  byAllocation : gmap string string;
  confirmations : gmap string Confirmation;
  reorgs : list ReorgEvidence;
  pending : gmap string PendingReversalSnapshot;
  consumed : gmap string ConsumedPendingReversalSnapshot;
  resolutions : gmap string StoredReversalResolution }.

(** Assignments to fields. *)
Definition set_shared m t (k : Coordinator) : Coordinator :=
  mkCoordinator m t (plans k) (byAllocation k) (confirmations k) (reorgs k) (pending k) (consumed k)
    (resolutions k).
Definition set_plans f (k : Coordinator) : Coordinator :=
  mkCoordinator (modes k) (store k) (f (plans k)) (byAllocation k) (confirmations k) (reorgs k)
    (pending k) (consumed k) (resolutions k).
Definition set_byAllocation f (k : Coordinator) : Coordinator :=
  mkCoordinator (modes k) (store k) (plans k) (f (byAllocation k)) (confirmations k) (reorgs k)
    (pending k) (consumed k) (resolutions k).
Definition set_confirmations f (k : Coordinator) : Coordinator :=
  mkCoordinator (modes k) (store k) (plans k) (byAllocation k) (f (confirmations k)) (reorgs k)
    (pending k) (consumed k) (resolutions k).
Definition set_reorgs f (k : Coordinator) : Coordinator :=
  mkCoordinator (modes k) (store k) (plans k) (byAllocation k) (confirmations k) (f (reorgs k))
    (pending k) (consumed k) (resolutions k).
Definition set_pending f (k : Coordinator) : Coordinator :=
  mkCoordinator (modes k) (store k) (plans k) (byAllocation k) (confirmations k) (reorgs k)
    (f (pending k)) (consumed k) (resolutions k).
Definition set_consumed f (k : Coordinator) : Coordinator :=
  mkCoordinator (modes k) (store k) (plans k) (byAllocation k) (confirmations k) (reorgs k)
    (pending k) (f (consumed k)) (resolutions k).
Definition set_resolutions f (k : Coordinator) : Coordinator :=
  mkCoordinator (modes k) (store k) (plans k) (byAllocation k) (confirmations k) (reorgs k)
    (pending k) (consumed k) (f (resolutions k)).

Definition publish (plan : Plan) (k : Coordinator) : Coordinator :=
  set_plans (insert (pl_PaymentID plan) plan) k.

(** * Durable records *)

(** The snapshot of one plan: everything the coordinator knows about its payment. *)
Definition snapshot_of (k : Coordinator) (plan : Plan) (claim : AllocationMode.Claim)
    (tombstoned : bool) (pending : option PendingReversalSnapshot) : durableSnapshot :=
  {| ds_Plan := plan;
     ds_Confirmation := value <$> confirmations k !! pl_PaymentID plan;
     ds_Reorgs := filter (λ reorg, re_PaymentID reorg = pl_PaymentID plan) (reorgs k);
     ds_Claim := claim;
     ds_Tombstoned := tombstoned;
     ds_PendingReversal := pending;
     ds_ConsumedPendingReversal := consumed k !! pl_PaymentID plan |}.

Definition durableRecordWith (k : Coordinator) (plan : Plan) (claim : AllocationMode.Claim)
    (tombstoned : bool) (pending : option PendingReversalSnapshot) : result error StoredCoordinator :=
  if negb (claimMatchesPlan claim plan) ||
     (stateFromCanonical (AllocationMode.State claim) <>s pl_State plan)
  then Err ErrInvalidTransition
  else match encodeDurableSnapshot (snapshot_of k plan claim tombstoned pending) with
  | None => Err ErrInvalidStore
  | Some encoded =>
      Ok {| sc_PaymentID := pl_PaymentID plan;
            sc_AllocationID := pl_AllocationID plan;
            sc_InstructionDigest := pl_InstructionDigest plan;
            sc_AllocationExpectedVersion := pl_PaymentVersion plan;
            sc_State := pl_State plan;
            sc_Version := pl_Version plan;
            sc_Snapshot := encoded;
            sc_Tombstoned := tombstoned;
            sc_PendingReversal := bool_decide (is_Some pending) |}
  end.

Definition durableRecord (k : Coordinator) (plan : Plan) (claim : AllocationMode.Claim)
    : result error StoredCoordinator :=
  durableRecordWith k plan claim false (pending k !! pl_PaymentID plan).

Definition createDurable (k : Coordinator) (plan : Plan) (claim : AllocationMode.Claim)
    (evidenceHash : string) (occurredAt : Time.t) (t : T) : T * result error () :=
  match durableRecord k plan claim with
  | Err err => (t, Err err)
  | Ok record => Create record evidenceHash occurredAt t
  end.

Definition compareAndSwapDurable (k : Coordinator) (expectedState : string) (expectedVersion : Z)
    (plan : Plan) (claim : AllocationMode.Claim) (evidenceHash : string) (occurredAt : Time.t) (t : T)
    : T * result error () :=
  match durableRecord k plan claim with
  | Err err => (t, Err err)
  | Ok record => CompareAndSwap expectedState expectedVersion record evidenceHash occurredAt t
  end.

(** [modes.TransitionWithCommit] with the durable compare-and-swap of the next plan
    as its commit. *)
Definition transition (k : Coordinator) (plan next : Plan) (expectedState expected to : string)
    (evidenceHash : string) (occurredAt : Time.t) : Coordinator * result error AllocationMode.Claim :=
  let '(m, t, r) :=
    AllocationMode.TransitionWithCommit (pl_PaymentID plan) (pl_AllocationID plan)
      (pl_InstructionDigest plan) expected to
      (Some (λ claim, compareAndSwapDurable k expectedState (pl_Version plan) next claim
                        evidenceHash occurredAt))
      (modes k) (store k) in
  (set_shared m t k, r).

(** * Preparation *)

Definition create_claim (k : Coordinator) (request : PrepareRequest) (instructionDigest : string)
    (plan : Plan) : Coordinator * result error AllocationMode.Claim :=
  let '(m, t, r) :=
    AllocationMode.ClaimModeWithCommit (q_PaymentID request) (q_AllocationID request)
      AllocationMode.ModeCanonicalGateway instructionDigest (q_PaymentVersion request)
      (q_EligibilityEvidenceHash request) (q_PreparedAt request)
      (Some (λ claim, createDurable k plan claim (q_EligibilityEvidenceHash request)
                        (q_PreparedAt request)))
      (modes k) (store k) in
  (set_shared m t k, r).

(** A request for a payment that already has a plan. *)
Definition prepare_existing (k : Coordinator) (request : PrepareRequest) (instructionDigest : string)
    (existing : Plan) : result error Plan :=
  if (pl_InstructionDigest existing <>s instructionDigest) ||
     (pl_AllocationID existing <>s q_AllocationID request)
  then Err ErrPlanConflict
  else if (pl_State existing =s StatePrepared) &&
          match AllocationMode.Lookup (pl_PaymentID existing) (modes k) with
          | None => true
          | Some claim => negb (claimMatchesPlan claim existing) ||
                          (AllocationMode.State claim <>s AllocationMode.CanonicalPrepared)
          end
  then Err ErrInvalidTransition
  else if pl_State existing =s StateFailed then Err ErrInvalidTransition
  else Ok (replayed_plan existing).

Definition Prepare (request : PrepareRequest) (k : Coordinator) : Coordinator * result error Plan :=
  if negb (validPrepare request) || (q_AllocationID request <>s CalculateAllocationID request)
  then (k, Err ErrInvalidPlan)
  else match CalculateInstructionDigest request with
  | Err _ => (k, Err ErrInvalidPlan)
  | Ok instructionDigest =>
      let gross := default 0 (positive (q_TargetUnits request)) in
      let debt := default 0 (positive (q_ExpectedDebtUnits request)) in
      let principal := if debt <? gross then debt else gross in
      let excess := gross - principal in
      let after := debt - principal in
      match plans k !! q_PaymentID request with
      | Some existing => (k, prepare_existing k request instructionDigest existing)
      | None =>
          if match byAllocation k !! q_AllocationID request with
             | Some owner => owner <>s q_PaymentID request
             | None => false
             end
          then (k, Err ErrPlanConflict)
          else
            let plan := plan_of request instructionDigest principal excess debt after in
            match create_claim k request instructionDigest plan with
            | (k, Err err) => (k, Err (AllocationMode.Join ErrPlanConflict err))
            | (k, Ok claim) =>
                if AllocationMode.State claim <>s AllocationMode.CanonicalPrepared
                then (k, Err ErrPlanConflict)
                else (set_byAllocation (insert (pl_AllocationID plan) (pl_PaymentID plan))
                        (publish plan k), Ok plan)
            end
      end
  end.

(** * Submission *)

(** The plan a request names by payment, allocation and digest. *)
Definition named_plan (k : Coordinator) (paymentID allocationID digest : string) : option Plan :=
  match plans k !! paymentID with
  | Some plan =>
      if (pl_AllocationID plan <>s allocationID) || (pl_InstructionDigest plan <>s digest)
      then None else Some plan
  | None => None
  end.

Definition submit_allowed (request : SubmissionRequest) (plan : Plan) : bool :=
  (pl_State plan =s StatePrepared) && (pl_Version plan =? sq_ExpectedVersion request) &&
  negb (Time.Before (sq_SubmittedAt request) (pl_PreparedAt plan)) &&
  (sq_ChainID request =? pl_ChainID plan) && (sq_Gateway request =s pl_GatewayAddress plan) &&
  (sq_Sender request =s pl_FinalizerAddress plan).

Definition Submit (request : SubmissionRequest) (k : Coordinator) : Coordinator * result error Plan :=
  if negb (validSubmission request) then (k, Err ErrInvalidTransition)
  else match named_plan k (sq_PaymentID request) (sq_AllocationID request)
               (sq_InstructionDigest request) with
  | None => (k, Err ErrPlanConflict)
  | Some plan =>
      let submission := submission_of request in
      if (pl_State plan =s StateSubmitted) && bool_decide (pl_Submission plan = submission)
      then (k, Ok (replayed_plan plan))
      else if negb (submit_allowed request plan) then (k, Err ErrInvalidTransition)
      else
        let next := advanced StateSubmitted (pl_FailureReason plan) submission (pl_FailureProof plan)
                      (pl_PreparedAt plan) plan in
        match transition k plan next StatePrepared AllocationMode.CanonicalPrepared
                AllocationMode.CanonicalSubmitted (sq_CalldataHash request) (sq_SubmittedAt request) with
        | (k, Err err) => (k, Err (AllocationMode.Join ErrInvalidTransition err))
        | (k, Ok _) => (publish next k, Ok next)
        end
  end.

(** * Confirmation *)

(** The version a confirmation may name: the plan's, or, for a plan quarantined out
    of the submitted state, the one before. *)
Definition version_matches (plan : Plan) (pending : option PendingReversalSnapshot)
    (expectedVersion : Z) : bool :=
  (pl_Version plan =? expectedVersion) ||
  match pending with
  | Some pending =>
      (pl_State plan =s StateQuarantined) && (pn_OriginState pending =s StateSubmitted) &&
      (expectedVersion <? 2 ^ 64 - 1) && (pl_Version plan =? u64 (expectedVersion + 1))
  | None => false
  end.

Definition confirm_allowed (plan : Plan) (pending : option PendingReversalSnapshot)
    (expectedVersion : Z) (event : gatewayEvent) (proof : FinalityProof) : bool :=
  version_matches plan pending expectedVersion && validEvent plan event proof &&
  negb ((pl_State plan =s StateQuarantined) &&
        match pending with
        | Some pending => negb (submittedPendingMatchesPlan pending plan)
        | None => true
        end).

(** The registry state a confirmation moves to, with the plan state and whether the
    confirmation is an incident. *)
Definition confirm_target (claim : AllocationMode.Claim) : option (string * string * bool) :=
  if AllocationMode.State claim =s AllocationMode.CanonicalSubmitted
  then Some (AllocationMode.CanonicalConfirmed, StateConfirmed, false)
  else if AllocationMode.State claim =s AllocationMode.CanonicalQuarantined
  then Some (AllocationMode.CanonicalIncident, StateIncident, true)
  else None.

(** The transition of a confirmation: the coordinator enters the confirmation, and
    consumes the pending reversal of an incident, before the durable write, and
    takes both back when that fails. *)
Definition confirm_commit (k : Coordinator) (plan : Plan) (claim : AllocationMode.Claim)
    (event : gatewayEvent) (proof : FinalityProof) (to finalState : string) (incident : bool)
    : Coordinator * result error Confirmation :=
  let id := pl_PaymentID plan in
  let had := pending k !! id in
  let confirmation := mkConfirmation (projection_of plan event proof incident) false in
  let next := moved finalState (pl_FailureReason plan) plan in
  let entered := set_confirmations (insert id confirmation)
    (if incident then
       set_consumed (insert id (consumed_of (default zeroPending had) event proof))
         (set_pending (delete id) k)
     else k) in
  match transition entered plan next (pl_State plan) (AllocationMode.State claim) to
          (fp_EvidenceHash proof) (fp_ObservedAt proof) with
  | (k, Err err) =>
      let k := set_confirmations (delete id) k in
      let k := match had with Some pending => set_pending (insert id pending) k | None => k end in
      let k := if incident then set_consumed (delete id) k else k in
      (k, Err (AllocationMode.Join ErrInvalidTransition err))
  | (k, Ok _) => (publish next k, Ok confirmation)
  end.

Definition Confirm (request : ConfirmationRequest) (k : Coordinator)
    : Coordinator * result error Confirmation :=
  if empty_s (cq_PaymentID request) || empty_s (cq_AllocationID request) ||
     empty_s (cq_InstructionDigest request) || (cq_ExpectedVersion request =? 0)
  then (k, Err ErrInvalidEvent)
  else
    let '(settlement, proof) := cq_Projection request in
    let event := gatewayProjection settlement in
    match named_plan k (cq_PaymentID request) (cq_AllocationID request)
            (cq_InstructionDigest request) with
    | None => (k, Err ErrPlanConflict)
    | Some plan =>
        match confirmations k !! cq_PaymentID request with
        | Some existing =>
            if sameGatewayEvent existing event
            then (k, Ok (mkConfirmation (value existing) true)) else (k, Err ErrPlanConflict)
        | None =>
            if negb (confirm_allowed plan (pending k !! pl_PaymentID plan) (cq_ExpectedVersion request)
                       event proof)
            then (k, Err ErrInvalidEvent)
            else match AllocationMode.Lookup (pl_PaymentID plan) (modes k) with
            | None => (k, Err ErrInvalidTransition)
            | Some claim =>
                if (AllocationMode.AllocationID claim <>s pl_AllocationID plan) ||
                   (AllocationMode.Digest claim <>s pl_InstructionDigest plan) ||
                   (stateFromCanonical (AllocationMode.State claim) <>s pl_State plan)
                then (k, Err ErrInvalidTransition)
                else match confirm_target claim with
                | None => (k, Err ErrInvalidTransition)
                | Some (to, finalState, incident) =>
                    confirm_commit k plan claim event proof to finalState incident
                end
            end
        end
    end.

(** * Failure and retry *)

Definition failure_ok (failure : TransactionFailureEvidence) : bool :=
  (f_Status failure =s TransactionReverted) && (f_EvidenceHash failure <>s "") &&
  (f_ReceiptPayloadHash failure <>s "") && (f_FinalityPolicyHash failure <>s "") &&
  (f_HeaderAuthorityHash failure <>s "") && (f_ReceiptHeaderSignatureHash failure <>s "") &&
  (f_HeadHeaderSignatureHash failure <>s "") && (f_ReceiptsRoot failure <>s "") &&
  (f_InclusionProofHash failure <>s "") && negb (Time.IsZero (f_ObservedAt failure)).

Definition fail_allowed (plan : Plan) (failure : TransactionFailureEvidence) (expectedVersion : Z)
    : bool :=
  (pl_Version plan =? expectedVersion) && (pl_State plan =s StateSubmitted) &&
  (f_TransactionHash failure =s sb_TransactionHash (pl_Submission plan)) &&
  (f_ChainID failure =? sb_ChainID (pl_Submission plan)) &&
  (f_Gateway failure =s sb_Gateway (pl_Submission plan)) &&
  (f_FinalityPolicyHash failure =s pl_FinalityPolicyHash plan) &&
  negb (Time.Before (f_ObservedAt failure) (sb_SubmittedAt (pl_Submission plan))) &&
  negb (f_ConfirmationDepth failure =? 0) &&
  (f_BlockNumber failure <=? f_HeadBlockNumber failure) &&
  (f_ConfirmationDepth failure <=? f_HeadBlockNumber failure - f_BlockNumber failure).

Definition Fail_ (request : FailureRequest) (k : Coordinator) : Coordinator * result error Plan :=
  let failure := fq_Proof request in
  if empty_s (fq_PaymentID request) || empty_s (fq_AllocationID request) ||
     empty_s (fq_InstructionDigest request) || (fq_ExpectedVersion request =? 0) ||
     negb (failure_ok failure)
  then (k, Err ErrInvalidTransition)
  else match named_plan k (fq_PaymentID request) (fq_AllocationID request)
               (fq_InstructionDigest request) with
  | None => (k, Err ErrPlanConflict)
  | Some plan =>
      if (pl_State plan =s StateFailed) && bool_decide (pl_FailureProof plan = failure)
      then (k, Ok (replayed_plan plan))
      else if negb (fail_allowed plan failure (fq_ExpectedVersion request))
      then (k, Err ErrInvalidTransition)
      else match AllocationMode.Lookup (pl_PaymentID plan) (modes k) with
      | None => (k, Err ErrInvalidTransition)
      | Some claim =>
          if (AllocationMode.State claim <>s AllocationMode.CanonicalSubmitted) ||
             negb (claimMatchesPlan claim plan)
          then (k, Err ErrInvalidTransition)
          else
            let next := advanced StateFailed "VERIFIED_TRANSACTION_REVERTED" (pl_Submission plan)
                          failure (pl_PreparedAt plan) plan in
            match transition k plan next StateSubmitted AllocationMode.CanonicalSubmitted
                    AllocationMode.CanonicalFailed (f_EvidenceHash failure) (f_ObservedAt failure) with
            | (k, Err err) => (k, Err (AllocationMode.Join ErrInvalidTransition err))
            | (k, Ok _) => (publish next k, Ok next)
            end
      end
  end.

Definition Retry (request : RetryRequest) (k : Coordinator) : Coordinator * result error Plan :=
  if empty_s (ry_PaymentID request) || empty_s (ry_AllocationID request) ||
     empty_s (ry_InstructionDigest request) || (ry_ExpectedVersion request =? 0) ||
     empty_s (ry_EvidenceHash request) || Time.IsZero (ry_RetriedAt request)
  then (k, Err ErrInvalidTransition)
  else match named_plan k (ry_PaymentID request) (ry_AllocationID request)
               (ry_InstructionDigest request) with
  | None => (k, Err ErrInvalidTransition)
  | Some plan =>
      if (pl_State plan <>s StateFailed) || negb (pl_Version plan =? ry_ExpectedVersion request) ||
         AllocationMode.IsReversed (pl_PaymentID plan) (modes k)
      then (k, Err ErrInvalidTransition)
      else
        let next := advanced StatePrepared "" zeroSubmission zeroFailure
                      (Time.UTC (ry_RetriedAt request)) plan in
        match transition k plan next StateFailed AllocationMode.CanonicalFailed
                AllocationMode.CanonicalPrepared (ry_EvidenceHash request) (ry_RetriedAt request) with
        | (k, Err err) => (k, Err (AllocationMode.Join ErrPlanConflict err))
        | (k, Ok _) => (publish next k, Ok next)
        end
  end.

(** * Reorganisations *)

Definition reorg_ok (request : SettlementReorg) (expectedVersion : Z) : bool :=
  let deep := sr_DepthClass request =s ReorgDeepFinality in
  negb (expectedVersion =? 0) && (sr_PaymentID request <>s "") && (sr_AllocationID request <>s "") &&
  (sr_InstructionDigest request <>s "") && negb (sr_ChainID request =? 0) &&
  (sr_Gateway request <>s "") && (sr_EventID request <>s "") &&
  (sr_TransactionHash request <>s "") && (sr_OrphanedBlockHash request <>s "") &&
  validNonzeroHash (sr_OrphanedEventEvidenceHash request) &&
  (sr_RawEvidenceHash request <>s "") && (sr_ReceiptsRoot request <>s "") &&
  (sr_InclusionProofHash request <>s "") &&
  (sr_OrphanedReceiptHeaderSignatureHash request <>s "") &&
  negb (sr_OrphanedBlock request =? 0) && negb (sr_ReplacementBlock request =? 0) &&
  (sr_ReplacementBlockHash request <>s "") && negb (sr_ConfirmationDepth request =? 0) &&
  (sr_OrphanedBlock request <=? sr_DetectedHead request) &&
  (sr_DetectedHeadHash request <>s "") && (sr_FinalityPolicyHash request <>s "") &&
  (sr_HeaderAuthorityHash request <>s "") && (sr_ReplacementHeaderSignatureHash request <>s "") &&
  (sr_DetectedHeadHeaderSignatureHash request <>s "") &&
  ((sr_DepthClass request =s ReorgPreFinality) || deep) &&
  Bool.eqb (sr_CompensationRequired request) deep &&
  (sr_EvidenceHash request <>s "") && negb (Time.IsZero (sr_DetectedAt request)).

(** The guard on a submitted or quarantined plan: the orphaned transaction is the
    submitted one and was not final. *)
Definition pre_finality_ok (plan : Plan) (request : SettlementReorg) : bool :=
  negb (sr_DepthClass request =s ReorgDeepFinality) &&
  (sr_TransactionHash request =s sb_TransactionHash (pl_Submission plan)) &&
  (sr_OrphanedEventEvidenceHash request =s pl_EligibilityEvidenceHash plan) &&
  (sr_ChainID request =? sb_ChainID (pl_Submission plan)) &&
  (sr_Gateway request =s sb_Gateway (pl_Submission plan)) &&
  negb (Time.IsZero (sb_SubmittedAt (pl_Submission plan))) &&
  negb (Time.Before (sr_DetectedAt request) (sb_SubmittedAt (pl_Submission plan))).

(** The guard on a confirmed plan: the orphaned event is the confirmed one. *)
Definition post_finality_ok (projection : AccountingProjection) (request : SettlementReorg) : bool :=
  (sr_DepthClass request =s ReorgDeepFinality) &&
  (sr_EventID request =s ap_EventID projection) &&
  (sr_TransactionHash request =s ap_TransactionHash projection) &&
  (sr_OrphanedEventEvidenceHash request =s ap_EventEvidenceHash projection) &&
  (sr_TransactionIndex request =? ap_TransactionIndex projection) &&
  (sr_ReceiptsRoot request =s ap_ReceiptsRoot projection) &&
  (sr_InclusionProofHash request =s ap_InclusionProofHash projection) &&
  (sr_OrphanedReceiptHeaderSignatureHash request =s ap_ReceiptHeaderSignatureHash projection) &&
  (sr_OrphanedBlockHash request =s ap_BlockHash projection) &&
  (sr_RawEvidenceHash request =s ap_GatewayPayloadHash projection) &&
  (sr_ChainID request =? ap_ChainID projection) &&
  (sr_Gateway request =s ap_Gateway projection) &&
  (sr_FinalityPolicyHash request =s ap_FinalityPolicyHash projection) &&
  (sr_HeaderAuthorityHash request =s ap_HeaderAuthorityHash projection) &&
  (sr_ConfirmationDepth request =? ap_ConfirmationDepth projection) &&
  (ap_FinalityHeadBlock projection <=? sr_DetectedHead request) &&
  negb (Time.Before (sr_DetectedAt request) (ap_ConfirmedAt projection)).

Definition rollbackReorg (k : Coordinator) : Coordinator :=
  set_reorgs (λ l, take (length l - 1) l) k.

(** A durable write outside the registry, for a claim that keeps its state. *)
Definition swap (k : Coordinator) (expectedState : string) (plan next : Plan)
    (claim : AllocationMode.Claim) (evidenceHash : string) (occurredAt : Time.t)
    : Coordinator * result error () :=
  let '(t, r) := compareAndSwapDurable k expectedState (pl_Version plan) next claim evidenceHash
                   occurredAt (store k) in
  (set_shared (modes k) t k, r).

(** The end of each branch: publish the plan, or take the evidence back. *)
Definition reorg_finish {A : Type} (evidence : ReorgEvidence) (next : Plan)
    (outcome : Coordinator * result error A) : Coordinator * result error ReorgEvidence :=
  match outcome with
  | (k, Err err) => (rollbackReorg k, Err (AllocationMode.Join ErrInvalidReorg err))
  | (k, Ok _) => (publish next k, Ok evidence)
  end.

(** [k] already holds the evidence at the end of its list. *)
Definition reorg_commit (k : Coordinator) (plan : Plan) (claim : AllocationMode.Claim)
    (request : SettlementReorg) (evidence : ReorgEvidence)
    : Coordinator * result error ReorgEvidence :=
  let hash := re_EvidenceHash evidence in
  let at_ := re_DetectedAt evidence in
  if (pl_State plan =s StateSubmitted) || (pl_State plan =s StateQuarantined) then
    if negb (pre_finality_ok plan request) then (rollbackReorg k, Err ErrInvalidReorg)
    else if AllocationMode.State claim =s AllocationMode.CanonicalQuarantined then
      let next := moved StateQuarantined "REORG_BEFORE_FINALITY_REVERSAL_PENDING" plan in
      reorg_finish evidence next (swap k StateQuarantined plan next claim hash at_)
    else
      let next := moved StateFailed "REORG_BEFORE_FINALITY" plan in
      reorg_finish evidence next
        (transition k plan next StateSubmitted AllocationMode.CanonicalSubmitted
           AllocationMode.CanonicalFailed hash at_)
  else if (pl_State plan =s StateConfirmed) || (pl_State plan =s StateIncident) then
    if match confirmations k !! pl_PaymentID plan with
       | None => true
       | Some confirmation => negb (post_finality_ok (value confirmation) request)
       end
    then (rollbackReorg k, Err ErrInvalidReorg)
    else
      let next := moved StateIncident (pl_FailureReason plan) plan in
      if AllocationMode.State claim =s AllocationMode.CanonicalConfirmed then
        reorg_finish evidence next
          (transition k plan next StateConfirmed AllocationMode.CanonicalConfirmed
             AllocationMode.CanonicalIncident hash at_)
      else if AllocationMode.State claim <>s AllocationMode.CanonicalIncident
      then (rollbackReorg k, Err ErrInvalidReorg)
      else reorg_finish evidence next (swap k StateIncident plan next claim hash at_)
  else (rollbackReorg k, Err ErrInvalidReorg).

(** [for _, existing := range coordinator.reorgs]. *)
Definition known_reorg (k : Coordinator) (eventID : string) : option ReorgEvidence :=
  snd <$> list_find (λ existing, re_OrphanedEventID existing = eventID) (reorgs k).

Definition RecordReorg (expectedVersion : Z) (request : SettlementReorg) (k : Coordinator)
    : Coordinator * result error ReorgEvidence :=
  if negb (reorg_ok request expectedVersion) then (k, Err ErrInvalidReorg)
  else match named_plan k (sr_PaymentID request) (sr_AllocationID request)
               (sr_InstructionDigest request) with
  | None => (k, Err ErrInvalidReorg)
  | Some plan =>
      if negb (sr_ChainID request =? pl_ChainID plan) ||
         (sr_Gateway request <>s pl_GatewayAddress plan) ||
         (sr_FinalityPolicyHash request <>s pl_FinalityPolicyHash plan)
      then (k, Err ErrInvalidReorg)
      else match known_reorg k (sr_EventID request) with
      | Some existing =>
          if re_EvidenceHash existing =s sr_EvidenceHash request
          then (k, Ok existing) else (k, Err ErrInvalidReorg)
      | None =>
          if negb (pl_Version plan =? expectedVersion) then (k, Err ErrInvalidReorg)
          else match AllocationMode.Lookup (pl_PaymentID plan) (modes k) with
          | None => (k, Err ErrInvalidReorg)
          | Some claim =>
              let evidence :=
                reorg_evidence plan request (sr_DepthClass request =s ReorgDeepFinality) in
              reorg_commit (set_reorgs (λ l, l ++ [evidence]) k) plan claim request evidence
          end
      end
  end.

(** * Reads *)

Definition missingClaimReason (k : Coordinator) (paymentID : string) (claimExists : bool)
    (planState : string) : string :=
  if AllocationMode.IsReversed paymentID (modes k) then
    if planState =s StateQuarantined then "PAYMENT_REVERSED" else "REVERSED_BEFORE_SUBMISSION"
  else if claimExists then "ALLOCATION_MODE_CONFLICT" else "MODE_CLAIM_RELEASED".

(** [Plan] shows the state of the registry's claim; a prepared or quarantined plan
    whose claim is gone is failed in memory. *)
Definition Plan_ (paymentID : string) (k : Coordinator) : Coordinator * option Plan :=
  match plans k !! paymentID with
  | None => (k, None)
  | Some plan =>
      let claim := AllocationMode.Lookup paymentID (modes k) in
      match claim with
      | Some claim =>
          if claimMatchesPlan claim plan
          then (k, Some (with_progress (stateFromCanonical (AllocationMode.State claim))
                           (pl_Version plan) (pl_PreparedAt plan) (pl_Submission plan)
                           (pl_FailureReason plan) (pl_FailureProof plan) (pl_Replayed plan) plan))
          else if (pl_State plan =s StatePrepared) || (pl_State plan =s StateQuarantined) then
            let plan := moved StateFailed (missingClaimReason k paymentID true (pl_State plan)) plan in
            (set_plans (insert paymentID plan) k, Some plan)
          else (k, Some plan)
      | None =>
          if (pl_State plan =s StatePrepared) || (pl_State plan =s StateQuarantined) then
            let plan := moved StateFailed (missingClaimReason k paymentID false (pl_State plan)) plan in
            (set_plans (insert paymentID plan) k, Some plan)
          else (k, Some plan)
      end
  end.

Definition Confirmation_ (paymentID : string) (k : Coordinator) : option Confirmation :=
  confirmations k !! paymentID.
Definition Reorgs (k : Coordinator) : list ReorgEvidence := reorgs k.
Definition ReorgAuthority (reorgID : string) (k : Coordinator) : option ReorgEvidence :=
  if empty_s reorgID then None
  else snd <$> list_find (λ evidence, re_ReorgID evidence = reorgID) (reorgs k).

(** * Provider reversals *)

Section Reversals.
Context {W : Type}.

(** What the callback of [HandleProviderReversal] works on: the caller's state, the
    store, and the two variables it assigns. *)
Definition reversal_state : Type := W * T * option Plan * option PendingReversalSnapshot.

(** An unclaimed or synthetic payment: the caller's reversal commits, then the
    payment is tombstoned. *)
Definition reverse_unallocated (record : CanonicalReversalRecord)
    (commit : W → W * result error ()) : AllocationMode.callback reversal_state :=
  λ '(w, t, p, q),
    match commit w with
    | (w, Err err) => ((w, t, p, q), Err err)
    | (w, Ok _) =>
        let '(t, r) := CreateTombstone
          (mkStoredTombstone (rr_PaymentID record) "" "" "" (rr_ReversalEventID record)
             (rr_CallbackEvidenceHash record) (Time.UTC (rr_ReceivedAt record))) t in
        ((w, t, p, q), r)
    end.

Definition reverse_quarantine (k : Coordinator) (record : CanonicalReversalRecord)
    (claim : AllocationMode.Claim) : AllocationMode.callback reversal_state :=
  λ '(w, t, p, q),
    match plans k !! rr_PaymentID record with
    | None => ((w, t, p, q), Err ErrInvalidTransition)
    | Some plan =>
        if ((pl_State plan <>s StatePrepared) && (pl_State plan <>s StateSubmitted) &&
            (pl_State plan <>s StateFailed)) || negb (claimMatchesPlan claim plan)
        then ((w, t, p, q), Err ErrInvalidTransition)
        else
          let next := moved StateQuarantined "PROVIDER_REVERSAL_PENDING" plan in
          let nextClaim := AllocationMode.with_state AllocationMode.CanonicalQuarantined claim in
          let pending := pendingSnapshot record next (pl_State plan) in
          match durableRecordWith k next nextClaim false (Some pending) with
          | Err err => ((w, t, p, q), Err err)
          | Ok nextRecord =>
              match QuarantinePendingReversal (pl_State plan) (pl_Version plan) nextRecord pending t with
              | (t, Err err) => ((w, t, p, q), Err err)
              | (t, Ok _) => ((w, t, Some next, Some pending), Ok tt)
              end
          end
    end.

Definition reverse_incident (k : Coordinator) (record : CanonicalReversalRecord)
    (claim : AllocationMode.Claim) : AllocationMode.callback reversal_state :=
  λ '(w, t, p, q),
    match plans k !! rr_PaymentID record with
    | None => ((w, t, p, q), Err ErrInvalidTransition)
    | Some plan =>
        if (pl_State plan <>s StateConfirmed) || negb (claimMatchesPlan claim plan)
        then ((w, t, p, q), Err ErrInvalidTransition)
        else
          let next := moved StateIncident "PROVIDER_REVERSAL_AFTER_CONFIRMATION" plan in
          let nextClaim := AllocationMode.with_state AllocationMode.CanonicalIncident claim in
          match durableRecordWith k next nextClaim false None with
          | Err err => ((w, t, p, q), Err err)
          | Ok nextRecord =>
              match CompareAndSwap StateConfirmed (pl_Version plan) nextRecord
                      (rr_CallbackEvidenceHash record) (Time.UTC (rr_ReceivedAt record)) t with
              | (t, Err err) => ((w, t, p, q), Err err)
              | (t, Ok _) => ((w, t, Some next, q), Ok tt)
              end
          end
    end.

Definition reversal_callback (k : Coordinator) (record : CanonicalReversalRecord)
    (commit : W → W * result error ()) (claim : AllocationMode.Claim)
    (disposition : AllocationMode.ReversalDisposition) (permanent : bool)
    : AllocationMode.callback reversal_state :=
  match disposition with
  | AllocationMode.ReversalUnclaimed | AllocationMode.ReversalSynthetic =>
      reverse_unallocated record commit
  | AllocationMode.ReversalQuarantined => reverse_quarantine k record claim
  | AllocationMode.ReversalIncident => reverse_incident k record claim
  | AllocationMode.ReversalReleased => λ s, (s, Err ErrInvalidTransition)
  end.

(** A repeated reversal of a payment whose reversal is already pending. *)
Definition reversal_repeated (k : Coordinator) (record : CanonicalReversalRecord) (plan : Plan)
    : result error (AllocationMode.Claim * AllocationMode.ReversalDisposition) :=
  match pending k !! rr_PaymentID record, AllocationMode.Lookup (rr_PaymentID record) (modes k) with
  | Some pending, Some claim =>
      if negb (claimMatchesPlan claim plan) || negb (samePendingReversal pending record)
      then Err ErrPlanConflict else Ok (claim, AllocationMode.ReversalQuarantined)
  | _, _ => Err ErrPlanConflict
  end.

Definition settlement_Handle (record : CanonicalReversalRecord) (commit : W → W * result error ())
    (k : Coordinator) (w : W)
    : Coordinator * W *
      result error (AllocationMode.Claim * AllocationMode.ReversalDisposition) :=
  if negb (validReversalRecord record) then (k, w, Err ErrInvalidTransition)
  else
    match (match plans k !! rr_PaymentID record with
           | Some plan => if pl_State plan =s StateQuarantined then Some plan else None
           | None => None
           end) with
    | Some plan => (k, w, reversal_repeated k record plan)
    | None =>
        let '(m, (w, t, committedPlan, committedPending), (claim, disposition, err)) :=
          AllocationMode.HandleReversalWithCommit (rr_PaymentID record)
            (Some (reversal_callback k record commit)) (modes k) (w, store k, None, None) in
        let k := set_shared m t k in
        match err with
        | Some err => (k, w, Err (AllocationMode.Join ErrInvalidTransition err))
        | None =>
            let k := match committedPlan with
                     | Some plan => set_plans (insert (rr_PaymentID record) plan) k
                     | None => k
                     end in
            let k := match committedPending with
                     | Some pending => set_pending (insert (rr_PaymentID record) pending) k
                     | None => k
                     end in
            (k, w, Ok (claim, disposition))
        end
    end.

Definition resolution_of (pending : PendingReversalSnapshot) (record : CanonicalReversalRecord)
    (failureEvidenceHash : string) (failureProof : TransactionFailureEvidence)
    : PendingReversalResolution :=
  {| pr_Pending := pending;
     pr_RequestDigest := reversalResolutionRequestDigest pending (rr_ResolutionID record)
       failureEvidenceHash failureProof (rr_ResolutionEvidence record) (rr_ResolvedBy record)
       (rr_ReceivedAt record);
     pr_ResolutionID := rr_ResolutionID record;
     pr_ReversalEventID := rr_ReversalEventID record;
     pr_FailureEvidenceHash := failureEvidenceHash;
     pr_FailureProof := failureProof;
     pr_ResolutionEvidence := rr_ResolutionEvidence record;
     pr_ResolvedBy := rr_ResolvedBy record;
     pr_ResolvedAt := Time.UTC (rr_ReceivedAt record) |}.

(** The transition of a resolution: [ResolveQuarantinedReversal] of the registry with
    the store's transaction as its commit. *)
Definition resolve_commit (k : Coordinator) (record : CanonicalReversalRecord) (plan : Plan)
    (claim : AllocationMode.Claim) (resolution : PendingReversalResolution)
    (localFallback : W → W * result error (list string)) (w : W)
    : Coordinator * W * result error CanonicalReversalResolution :=
  let next := moved StateFailed "PROVIDER_REVERSAL_RESOLVED" plan in
  let nextClaim := AllocationMode.with_state AllocationMode.CanonicalFailed claim in
  match durableRecordWith k next nextClaim true None with
  | Err err => (k, w, Err err)
  | Ok nextRecord =>
      let '(m, (w, t, journalIDs), r) :=
        AllocationMode.ResolveQuarantinedReversal claim
          (Some (λ '(w, t, journalIDs),
             match ResolvePendingReversal StateQuarantined (pl_Version plan) nextRecord resolution
                     localFallback t w with
             | (t, w, Ok ids) => ((w, t, ids), Ok tt)
             | (t, w, Err err) => ((w, t, journalIDs), Err err)
             end)) (modes k) (w, store k, []) in
      let k := set_shared m t k in
      match r with
      | Err err => (k, w, Err (AllocationMode.Join ErrInvalidTransition err))
      | Ok _ =>
          (set_resolutions
             (insert (rr_QuarantineID record) (mkStoredReversalResolution resolution journalIDs))
             (set_pending (delete (rr_PaymentID record))
                (set_plans (insert (rr_PaymentID record) next) k)),
           w, Ok (mkReversalResolution journalIDs (pr_FailureEvidenceHash resolution)))
      end
  end.

Definition settlement_Resolve (record : CanonicalReversalRecord)
    (localFallback : W → W * result error (list string)) (k : Coordinator) (w : W)
    : Coordinator * W * result error CanonicalReversalResolution :=
  if negb (validResolutionRecord record) then (k, w, Err ErrInvalidTransition)
  else match resolutions k !! rr_QuarantineID record with
  | Some stored =>
      if negb (resolvedReversalMatchesRecord stored record) then (k, w, Err ErrInvalidTransition)
      else (k, w, Ok (mkReversalResolution (sv_JournalIDs stored)
                        (pr_FailureEvidenceHash (sv_Resolution stored))))
  | None =>
      match plans k !! rr_PaymentID record, pending k !! rr_PaymentID record with
      | Some plan, Some pending =>
          if (pl_State plan <>s StateQuarantined) || (pl_AllocationID plan <>s rr_AllocationID record) ||
             (pl_InstructionDigest plan <>s rr_InstructionDigest record) ||
             negb (samePendingReversal pending record) ||
             Time.Before (rr_ReceivedAt record) (pn_ReceivedAt pending)
          then (k, w, Err ErrInvalidTransition)
          else match AllocationMode.Lookup (rr_PaymentID record) (modes k) with
          | None => (k, w, Err ErrInvalidTransition)
          | Some claim =>
              if (AllocationMode.State claim <>s AllocationMode.CanonicalQuarantined) ||
                 negb (claimMatchesPlan claim plan)
              then (k, w, Err ErrInvalidTransition)
              else match validateReversalFailureProof plan pending record with
              | Err err => (k, w, Err err)
              | Ok (hash, proof) =>
                  resolve_commit k record plan claim (resolution_of pending record hash proof)
                    localFallback w
              end
          end
      | _, _ => (k, w, Err ErrInvalidTransition)
      end
  end.
End Reversals.

Definition settlement_Resolved (request : CanonicalReversalResolutionRequest) (k : Coordinator)
    : result error (option CanonicalReversalResolutionRecord) :=
  if empty_s (rq_QuarantineID request) || empty_s (rq_ResolutionID request) ||
     empty_s (rq_PaymentID request) || empty_s (rq_AllocationID request) ||
     empty_s (rq_InstructionDigest request) || empty_s (rq_ResolutionEvidenceHash request) ||
     empty_s (rq_ResolvedBy request) || Time.IsZero (rq_ResolvedAt request)
  then Err ErrInvalidTransition
  else match resolutions k !! rq_QuarantineID request with
  | None => Ok None
  | Some stored =>
      let resolution := sv_Resolution stored in
      let p := pr_Pending resolution in
      let failure := rq_FailureProof request in
      let digest := reversalResolutionRequestDigest p (rq_ResolutionID request)
        (pr_FailureEvidenceHash resolution) failure (rq_ResolutionEvidenceHash request)
        (rq_ResolvedBy request) (rq_ResolvedAt request) in
      if (pn_PaymentID p <>s rq_PaymentID request) || (pn_AllocationID p <>s rq_AllocationID request) ||
         (pn_InstructionDigest p <>s rq_InstructionDigest request) ||
         (pr_ResolutionID resolution <>s rq_ResolutionID request) ||
         (pr_ResolutionEvidence resolution <>s rq_ResolutionEvidenceHash request) ||
         (pr_ResolvedBy resolution <>s rq_ResolvedBy request) ||
         negb (Time.Equal (pr_ResolvedAt resolution) (Time.UTC (rq_ResolvedAt request))) ||
         bool_decide (pr_FailureProof resolution ≠ failure) ||
         (pr_RequestDigest resolution <>s digest)
      then Err ErrInvalidTransition
      else Ok (Some
        {| rs_QuarantineID := pn_QuarantineID p;
           rs_ResolutionID := pr_ResolutionID resolution;
           rs_PaymentID := pn_PaymentID p;
           rs_AllocationID := pn_AllocationID p;
           rs_InstructionDigest := pn_InstructionDigest p;
           rs_ProviderID := pn_ProviderID p;
           rs_ProviderEventID := pn_ProviderEventID p;
           rs_ProviderReference := pn_ProviderReference p;
           rs_AssetID := pn_AssetID p;
           rs_Units := pn_Units p;
           rs_RawHash := pn_RawHash p;
           rs_RequestDigest := pr_RequestDigest resolution;
           rs_CanonicalFailureEvidenceHash := pr_FailureEvidenceHash resolution;
           rs_ResolutionEvidenceHash := pr_ResolutionEvidence resolution;
           rs_ResolvedBy := pr_ResolvedBy resolution;
           rs_ResolvedAt := Time.UTC (pr_ResolvedAt resolution);
           rs_JournalIDs := sv_JournalIDs stored |})
  end.

Definition pending_record (p : PendingReversalSnapshot) : CanonicalReversalRecord :=
  {| rr_QuarantineID := pn_QuarantineID p;
     rr_ResolutionID := "";
     rr_IngressID := pn_IngressID p;
     rr_PaymentID := pn_PaymentID p;
     rr_AllocationID := pn_AllocationID p;
     rr_InstructionDigest := pn_InstructionDigest p;
     rr_ProviderID := pn_ProviderID p;
     rr_ProviderEventID := pn_ProviderEventID p;
     rr_ReversalEventID := canonicalPaymentEventID (pn_ProviderID p) (pn_ProviderEventID p);
     rr_ProviderReference := pn_ProviderReference p;
     rr_AssetID := pn_AssetID p;
     rr_Units := pn_Units p;
     rr_RawHash := pn_RawHash p;
     rr_SignatureHash := pn_SignatureHash p;
     rr_CallbackEvidenceHash := pn_CallbackEvidenceHash p;
     rr_CallbackExpiresAt := Time.UTC (pn_CallbackExpiresAt p);
     rr_FailureProof := zeroFailure;
     rr_ResolutionEvidence := "";
     rr_ResolvedBy := "";
     rr_OccurredAt := Time.UTC (pn_OccurredAt p);
     rr_ReceivedAt := Time.UTC (pn_ReceivedAt p) |}.

Definition consumption (c : ConsumedPendingReversalSnapshot) : CanonicalReversalConsumption :=
  let p := cn_Pending c in
  {| co_QuarantineID := pn_QuarantineID p;
     co_IngressID := pn_IngressID p;
     co_PaymentID := pn_PaymentID p;
     co_AllocationID := pn_AllocationID p;
     co_InstructionDigest := pn_InstructionDigest p;
     co_ProviderID := pn_ProviderID p;
     co_ProviderEventID := pn_ProviderEventID p;
     co_ProviderReference := pn_ProviderReference p;
     co_AssetID := pn_AssetID p;
     co_Units := pn_Units p;
     co_RawHash := pn_RawHash p;
     co_SignatureHash := pn_SignatureHash p;
     co_CallbackEvidenceHash := pn_CallbackEvidenceHash p;
     co_CallbackExpiresAt := Time.UTC (pn_CallbackExpiresAt p);
     co_CallbackOccurredAt := Time.UTC (pn_OccurredAt p);
     co_CallbackReceivedAt := Time.UTC (pn_ReceivedAt p);
     co_ResolutionID := cn_ResolutionID c;
     co_ResolutionEvidenceHash := cn_ResolutionEvidenceHash c;
     co_ResolvedBy := cn_ResolvedBy c;
     co_ResolvedAt := Time.UTC (cn_ResolvedAt c);
     co_GatewayEventID := cn_GatewayEventID c;
     co_GatewayTransactionHash := cn_GatewayTransactionHash c;
     co_GatewayRawPayloadHash := cn_GatewayRawPayloadHash c;
     co_FinalityEvidenceHash := cn_FinalityEvidenceHash c |}.

Definition settlement_Pending (k : Coordinator) : list CanonicalReversalRecord :=
  sort_by rr_PaymentID (pending_record <$> (map_to_list (pending k)).*2).
Definition settlement_Consumed (k : Coordinator) : list CanonicalReversalConsumption :=
  sort_by co_QuarantineID (consumption <$> (map_to_list (consumed k)).*2).

(** * Construction *)

Definition restored_plan (snapshot : durableSnapshot) (k : Coordinator) : Coordinator :=
  let plan := ds_Plan snapshot in
  let id := pl_PaymentID plan in
  let k := set_byAllocation (insert (pl_AllocationID plan) id) (publish plan k) in
  let k := match ds_Confirmation snapshot with
           | Some projection => set_confirmations (insert id (mkConfirmation projection false)) k
           | None => k
           end in
  let k := set_reorgs (λ l, l ++ ds_Reorgs snapshot) k in
  let k := match ds_PendingReversal snapshot with
           | Some p => set_pending (insert id p) k
           | None => k
           end in
  match ds_ConsumedPendingReversal snapshot with
  | Some c => set_consumed (insert id c) k
  | None => k
  end.

(** [Restore] writes to the shared registry, also when a later record is refused. *)
Fixpoint restore_records (records : list StoredCoordinator) (k : Coordinator)
    : Coordinator * result error () :=
  match records with
  | [] => (k, Ok tt)
  | record :: rest =>
      match decodeDurableSnapshot (sc_Snapshot record) with
      | Err _ => (k, Err ErrInvalidPlan)
      | Ok snapshot =>
          if negb (validRecoveredSnapshot record snapshot) then (k, Err ErrInvalidPlan)
          else match AllocationMode.Restore (ds_Claim snapshot) (ds_Tombstoned snapshot) (modes k) with
          | (m, Err err) => (set_shared m (store k) k, Err (AllocationMode.Join ErrInvalidPlan err))
          | (m, Ok _) => restore_records rest (restored_plan snapshot (set_shared m (store k) k))
          end
      end
  end.

Fixpoint restore_tombstones (tombstones : list StoredTombstone) (k : Coordinator)
    : Coordinator * result error () :=
  match tombstones with
  | [] => (k, Ok tt)
  | tombstone :: rest =>
      match AllocationMode.RestoreTombstone (ts_PaymentID tombstone) (modes k) with
      | (m, Err err) => (set_shared m (store k) k, Err (AllocationMode.Join ErrInvalidPlan err))
      | (m, Ok _) => restore_tombstones rest (set_shared m (store k) k)
      end
  end.

Fixpoint restore_resolutions (l : list StoredReversalResolution) (k : Coordinator)
    : Coordinator * result error () :=
  match l with
  | [] => (k, Ok tt)
  | resolution :: rest =>
      let p := pr_Pending (sv_Resolution resolution) in
      if negb (validStoredReversalResolution resolution) then (k, Err ErrInvalidPlan)
      else if match plans k !! pn_PaymentID p with
              | None => true
              | Some plan => (pl_State plan <>s StateFailed) ||
                             negb (AllocationMode.IsReversed (pn_PaymentID p) (modes k))
              end
      then (k, Err ErrInvalidPlan)
      else if has_key (resolutions k) (pn_QuarantineID p) then (k, Err ErrInvalidPlan)
      else restore_resolutions rest (set_resolutions (insert (pn_QuarantineID p) resolution) k)
  end.

(** The coordinator under construction; its registry is the shared one, also when
    the construction fails. *)
Definition NewWithStore (m : AllocationMode.Registry S) (t : T) : Coordinator * result error () :=
  let k := mkCoordinator m t ∅ ∅ ∅ [] ∅ ∅ ∅ in
  match LoadAll t with
  | Err err => (k, Err (AllocationMode.Join ErrInvalidPlan err))
  | Ok records =>
      match restore_records records k with
      | (k, Err err) => (k, Err err)
      | (k, Ok _) =>
          match LoadTombstones t with
          | Err err => (k, Err (AllocationMode.Join ErrInvalidPlan err))
          | Ok tombstones =>
              match restore_tombstones tombstones k with
              | (k, Err err) => (k, Err err)
              | (k, Ok _) =>
                  match LoadResolvedReversals t with
                  | Err err => (k, Err (AllocationMode.Join ErrInvalidPlan err))
                  | Ok resolutions => restore_resolutions resolutions k
                  end
              end
          end
      end
  end.
End Coordinator.
Arguments Coordinator : clear implicits.

(** The coordinator is the reversal coordinator of the payment orchestrator. *)
#[export] Instance settlement_coordinator `{Keccak, Sha256, Json, SnapshotCodec} {S T : Type}
    `{Store T} : Payment.Coordinator (Coordinator S T) := {
  HandleProviderReversal W := settlement_Handle;
  ResolveProviderReversal W := settlement_Resolve;
  ResolvedProviderReversal := settlement_Resolved;
  PendingProviderReversals := settlement_Pending;
  ConsumedProviderReversals := settlement_Consumed }.
