(* ===== verification/SettlementMachine.v ===== *)
(** The abstract specification of the settlement coordinator: one machine per
    payment, whose states are the durable snapshots and whose steps are the
    transitions of one plan. [SettlementRefinement] proves that the coordinator, with
    its shared registry, its maps and its store, runs exactly such machines. *)
From S2P Require Import Prelude GoStd CrossChainTypes ChainTypes Payment SettlementDigest.
From S2P Require Import SettlementTypes SettlementStore Settlement.
From S2P Require AllocationMode.

(** * States *)

(** A plan, its claim, and what is recorded about its payment. *)
Definition set_plan (plan : Plan) (s : durableSnapshot) : durableSnapshot :=
  {| ds_Plan := plan;
     ds_Confirmation := ds_Confirmation s;
     ds_Reorgs := ds_Reorgs s;
     ds_Claim := AllocationMode.with_state (pl_State plan) (ds_Claim s);
     ds_Tombstoned := ds_Tombstoned s;
     ds_PendingReversal := ds_PendingReversal s;
     ds_ConsumedPendingReversal := ds_ConsumedPendingReversal s |}.
Definition set_confirmation (c : AccountingProjection) (s : durableSnapshot) : durableSnapshot :=
  mkdurableSnapshot (ds_Plan s) (Some c) (ds_Reorgs s) (ds_Claim s) (ds_Tombstoned s)
    (ds_PendingReversal s) (ds_ConsumedPendingReversal s).
Definition add_reorg (r : ReorgEvidence) (s : durableSnapshot) : durableSnapshot :=
  mkdurableSnapshot (ds_Plan s) (ds_Confirmation s) (ds_Reorgs s ++ [r]) (ds_Claim s)
    (ds_Tombstoned s) (ds_PendingReversal s) (ds_ConsumedPendingReversal s).
Definition set_pending_reversal (p : option PendingReversalSnapshot) (s : durableSnapshot)
    : durableSnapshot :=
  mkdurableSnapshot (ds_Plan s) (ds_Confirmation s) (ds_Reorgs s) (ds_Claim s) (ds_Tombstoned s) p
    (ds_ConsumedPendingReversal s).
Definition set_consumed_reversal (c : ConsumedPendingReversalSnapshot) (s : durableSnapshot)
    : durableSnapshot :=
  mkdurableSnapshot (ds_Plan s) (ds_Confirmation s) (ds_Reorgs s) (ds_Claim s) (ds_Tombstoned s)
    (ds_PendingReversal s) (Some c).
Definition set_tombstoned (s : durableSnapshot) : durableSnapshot :=
  mkdurableSnapshot (ds_Plan s) (ds_Confirmation s) (ds_Reorgs s) (ds_Claim s) true
    (ds_PendingReversal s) (ds_ConsumedPendingReversal s).

(** The part of a plan that no operation changes. *)
Definition terms (p : Plan) : Plan :=
  with_progress "" 0 Time.zero zeroSubmission "" zeroFailure false p.

(** * Steps *)

Section Machine.
Context `{Keccak, Sha256, Json}.

(** A plan made from an accepted request. *)
Record planned (request : PrepareRequest) (p : Plan) : Prop := {
  pd_valid : validPrepare request = true;
  pd_allocation : q_AllocationID request = CalculateAllocationID request;
  pd_digest : CalculateInstructionDigest request = Ok (pl_InstructionDigest p);
  pd_terms : ∃ gross debt,
    positive (q_TargetUnits request) = Some gross ∧ positive (q_ExpectedDebtUnits request) = Some debt ∧
    terms p = terms (plan_of request (pl_InstructionDigest p) (Z.min gross debt)
                       (gross - Z.min gross debt) debt (debt - Z.min gross debt)) }.

(** The first snapshot of a payment. *)
Record fresh (s : durableSnapshot) : Prop := {
  fr_planned : ∃ request, planned request (ds_Plan s);
  fr_state : pl_State (ds_Plan s) = StatePrepared;
  fr_version : pl_Version (ds_Plan s) = 1;
  fr_claim : claimMatchesPlan (ds_Claim s) (ds_Plan s) = true ∧
             AllocationMode.State (ds_Claim s) = StatePrepared;
  fr_empty : ds_Confirmation s = None ∧ ds_Reorgs s = [] ∧ ds_Tombstoned s = false ∧
             ds_PendingReversal s = None ∧ ds_ConsumedPendingReversal s = None }.

Inductive move (s : durableSnapshot) : durableSnapshot → Prop :=
| move_submit request :
    validSubmission request = true → submit_allowed request (ds_Plan s) = true →
    move s (set_plan (advanced StateSubmitted (pl_FailureReason (ds_Plan s)) (submission_of request)
                        (pl_FailureProof (ds_Plan s)) (pl_PreparedAt (ds_Plan s)) (ds_Plan s)) s)
| move_confirm event proof version :
    ds_Confirmation s = None → pl_State (ds_Plan s) = StateSubmitted →
    confirm_allowed (ds_Plan s) (ds_PendingReversal s) version event proof = true →
    move s (set_confirmation (projection_of (ds_Plan s) event proof false)
              (set_plan (moved StateConfirmed (pl_FailureReason (ds_Plan s)) (ds_Plan s)) s))
| move_confirm_incident event proof version pending :
    ds_Confirmation s = None → pl_State (ds_Plan s) = StateQuarantined →
    ds_PendingReversal s = Some pending →
    confirm_allowed (ds_Plan s) (ds_PendingReversal s) version event proof = true →
    move s (set_confirmation (projection_of (ds_Plan s) event proof true)
              (set_consumed_reversal (consumed_of pending event proof)
                 (set_pending_reversal None
                    (set_plan (moved StateIncident (pl_FailureReason (ds_Plan s)) (ds_Plan s)) s))))
| move_fail failure version :
    failure_ok failure = true → fail_allowed (ds_Plan s) failure version = true →
    move s (set_plan (advanced StateFailed "VERIFIED_TRANSACTION_REVERTED" (pl_Submission (ds_Plan s))
                        failure (pl_PreparedAt (ds_Plan s)) (ds_Plan s)) s)
| move_retry at_ :
    pl_State (ds_Plan s) = StateFailed → ds_Tombstoned s = false →
    move s (set_plan (advanced StatePrepared "" zeroSubmission zeroFailure at_ (ds_Plan s)) s)
| move_reorg request version :
    reorg_ok request version = true → pl_State (ds_Plan s) = StateSubmitted →
    pre_finality_ok (ds_Plan s) request = true →
    move s (add_reorg (reorg_evidence (ds_Plan s) request false)
              (set_plan (moved StateFailed "REORG_BEFORE_FINALITY" (ds_Plan s)) s))
| move_reorg_pending request version :
    reorg_ok request version = true → pl_State (ds_Plan s) = StateQuarantined →
    pre_finality_ok (ds_Plan s) request = true →
    move s (add_reorg (reorg_evidence (ds_Plan s) request false)
              (set_plan (moved StateQuarantined "REORG_BEFORE_FINALITY_REVERSAL_PENDING" (ds_Plan s)) s))
| move_reorg_deep request version projection :
    reorg_ok request version = true →
    pl_State (ds_Plan s) = StateConfirmed ∨ pl_State (ds_Plan s) = StateIncident →
    ds_Confirmation s = Some projection → post_finality_ok projection request = true →
    move s (add_reorg (reorg_evidence (ds_Plan s) request true)
              (set_plan (moved StateIncident (pl_FailureReason (ds_Plan s)) (ds_Plan s)) s))
| move_quarantine record :
    validReversalRecord record = true → ds_Tombstoned s = false →
    pl_State (ds_Plan s) ∈ [StatePrepared; StateSubmitted; StateFailed] →
    validPendingSnapshot (pendingSnapshot record
      (moved StateQuarantined "PROVIDER_REVERSAL_PENDING" (ds_Plan s)) (pl_State (ds_Plan s))) = true →
    move s (set_pending_reversal
              (Some (pendingSnapshot record
                       (moved StateQuarantined "PROVIDER_REVERSAL_PENDING" (ds_Plan s))
                       (pl_State (ds_Plan s))))
              (set_plan (moved StateQuarantined "PROVIDER_REVERSAL_PENDING" (ds_Plan s)) s))
| move_reversal_incident record :
    validReversalRecord record = true → pl_State (ds_Plan s) = StateConfirmed →
    move s (set_plan (moved StateIncident "PROVIDER_REVERSAL_AFTER_CONFIRMATION" (ds_Plan s)) s)
| move_resolve record pending hash proof :
    validResolutionRecord record = true → pl_State (ds_Plan s) = StateQuarantined →
    ds_PendingReversal s = Some pending → samePendingReversal pending record = true →
    validateReversalFailureProof (ds_Plan s) pending record = Ok (hash, proof) →
    move s (set_tombstoned (set_pending_reversal None
              (set_plan (moved StateFailed "PROVIDER_REVERSAL_RESOLVED" (ds_Plan s)) s))).

(** A step is a move that counts one version up; versions never wrap. *)
Definition snap_step (s s' : durableSnapshot) : Prop :=
  move s s' ∧ pl_Version (ds_Plan s') = pl_Version (ds_Plan s) + 1.

(** A snapshot as some run of the machine leaves it. *)
Definition snap_reachable (s : durableSnapshot) : Prop := ∃ s0, fresh s0 ∧ rtc snap_step s0 s.

(** * The invariant of a snapshot *)

(** The confirmation is the projection of a verified event of the plan's own
    submission. *)
Definition confirmed_by (plan : Plan) (c : AccountingProjection) : Prop :=
  ∃ before event proof incident,
    terms before = terms plan ∧ pl_Submission before = pl_Submission plan ∧
    validEvent before event proof = true ∧ c = projection_of before event proof incident.

Record snap_ok (s : durableSnapshot) : Prop := {
  so_planned : ∃ request, planned request (ds_Plan s);
  so_claim : claimMatchesPlan (ds_Claim s) (ds_Plan s) = true;
  so_claim_state : AllocationMode.State (ds_Claim s) = pl_State (ds_Plan s);
  so_state : validState (pl_State (ds_Plan s)) = true;
  so_version : 1 <= pl_Version (ds_Plan s) < 2 ^ 64;
  so_confirmation : is_Some (ds_Confirmation s) ↔
    pl_State (ds_Plan s) = StateConfirmed ∨ pl_State (ds_Plan s) = StateIncident;
  so_confirmed : ∀ c, ds_Confirmation s = Some c → confirmed_by (ds_Plan s) c;
  so_pending : is_Some (ds_PendingReversal s) ↔ pl_State (ds_Plan s) = StateQuarantined;
  so_origin : ∀ p, ds_PendingReversal s = Some p →
    pn_PaymentID p = pl_PaymentID (ds_Plan s) ∧
    pn_OriginState p ∈ [StatePrepared; StateSubmitted; StateFailed] ∧
    (pn_OriginState p = StateSubmitted → submittedPendingMatchesPlan p (ds_Plan s) = true);
  so_consumed : is_Some (ds_ConsumedPendingReversal s) → pl_State (ds_Plan s) = StateIncident;
  so_tombstoned : ds_Tombstoned s = true → pl_State (ds_Plan s) = StateFailed }.

Lemma planned_terms request p p' : terms p' = terms p → planned request p → planned request p'.
Proof.
  intros E [V A D (g & d & Hg & Hd & Ht)].
  assert (pl_InstructionDigest p' = pl_InstructionDigest p) as Ed by exact (f_equal pl_InstructionDigest E).
  split; [done..|by rewrite Ed|]. exists g, d. rewrite E, Ed. done.
Qed.

Lemma claim_matches_moved c p p' st :
  terms p' = terms p → claimMatchesPlan c p = true →
  claimMatchesPlan (AllocationMode.with_state st c) p' = true.
Proof.
  intros E. unfold claimMatchesPlan. cbn.
  pose proof (f_equal pl_PaymentID E) as E1. pose proof (f_equal pl_AllocationID E) as E2.
  pose proof (f_equal pl_InstructionDigest E) as E3. cbn in E1, E2, E3. by rewrite E1, E2, E3.
Qed.

Lemma fresh_ok s : fresh s → snap_ok s.
Proof.
  intros [P St V [C1 C2] (E1 & E2 & E3 & E4 & E5)].
  split; try done; rewrite ?St, ?V, ?E1, ?E3, ?E4, ?E5; try done; try lia.
  split; [intros [? [=]]|intros [|]; discriminate].
Qed.

(** A move changes the plan's progress only, and never takes anything back. *)
Lemma move_terms s s' :
  move s s' →
  terms (ds_Plan s') = terms (ds_Plan s) ∧
  AllocationMode.identity (ds_Claim s') = AllocationMode.identity (ds_Claim s) ∧
  (∀ c, ds_Confirmation s = Some c → ds_Confirmation s' = Some c) ∧
  ds_Reorgs s `prefix_of` ds_Reorgs s' ∧
  (ds_Tombstoned s = true → ds_Tombstoned s' = true).
Proof.
  destruct 1; split_and!; try done; cbn; try (intros c Hc; congruence);
    try (by apply prefix_app_r); intros ?; congruence.
Qed.

(** The edges of the life cycle. *)
Definition edge (from to : string) : Prop :=
  (from, to) ∈ [(StatePrepared, StateSubmitted); (StatePrepared, StateQuarantined);
                (StateSubmitted, StateConfirmed); (StateSubmitted, StateFailed);
                (StateSubmitted, StateQuarantined); (StateConfirmed, StateIncident);
                (StateFailed, StatePrepared); (StateFailed, StateQuarantined);
                (StateQuarantined, StateIncident); (StateQuarantined, StateFailed);
                (StateQuarantined, StateQuarantined); (StateIncident, StateIncident)].

Lemma move_edge s s' : move s s' → edge (pl_State (ds_Plan s)) (pl_State (ds_Plan s')).
Proof.
  destruct 1; cbn; unfold submit_allowed, fail_allowed in *; bool_facts;
    repeat match goal with
    | E : pl_State _ = _ |- _ => rewrite E
    | E : _ ∨ _ |- _ => destruct E as [-> | ->]
    | E : _ ∈ _ |- _ => rewrite !elem_of_cons, elem_of_nil in E; destruct E as [-> | [-> | [-> | []]]]
    end; unfold edge; set_solver.
Qed.

Lemma confirmed_by_moved plan st reason c : confirmed_by plan c → confirmed_by (moved st reason plan) c.
Proof. intros (b & e & f & i & E1 & E2 & E3 & E4). by exists b, e, f, i. Qed.

Lemma confirm_allowed_valid plan pending v event proof :
  confirm_allowed plan pending v event proof = true → validEvent plan event proof = true.
Proof. unfold confirm_allowed. intros E. by bool_facts. Qed.

Lemma pending_of_submitted record plan :
  submittedPendingMatchesPlan (pendingSnapshot record plan StateSubmitted) plan = true.
Proof.
  unfold submittedPendingMatchesPlan, pendingSnapshot, Time.Equal. cbn.
  by rewrite !String.eqb_refl, !Z.eqb_refl.
Qed.

(** The state of a move's source, from its guard. *)
Ltac guard_state :=
  unfold submit_allowed, fail_allowed in *; bool_facts;
  repeat match goal with
  | E : _ ∨ _ |- _ => destruct E as [E|E]
  | E : _ ∈ [StatePrepared; _; _] |- _ =>
      rewrite !elem_of_cons, elem_of_nil in E; destruct E as [E|[E|[E|[]]]]
  end.

(** What the invariant says about a snapshot in a given state. *)
Lemma ok_not_confirmed s : snap_ok s →
  pl_State (ds_Plan s) ≠ StateConfirmed → pl_State (ds_Plan s) ≠ StateIncident →
  ds_Confirmation s = None.
Proof.
  intros I N1 N2. destruct (ds_Confirmation s) as [c|] eqn:E; [|done].
  destruct (proj1 (so_confirmation s I)); [by eexists|done..].
Qed.
Lemma ok_not_pending s : snap_ok s → pl_State (ds_Plan s) ≠ StateQuarantined → ds_PendingReversal s = None.
Proof.
  intros I N. destruct (ds_PendingReversal s) as [c|] eqn:E; [|done].
  destruct N. apply (so_pending s I). by eexists.
Qed.
Lemma ok_not_consumed s : snap_ok s →
  pl_State (ds_Plan s) ≠ StateIncident → ds_ConsumedPendingReversal s = None.
Proof.
  intros I N. destruct (ds_ConsumedPendingReversal s) as [c|] eqn:E; [|done].
  destruct N. apply (so_consumed s I). by eexists.
Qed.
Lemma ok_not_tombstoned s : snap_ok s → pl_State (ds_Plan s) ≠ StateFailed → ds_Tombstoned s = false.
Proof.
  intros I N. destruct (ds_Tombstoned s) eqn:E; [|done]. destruct N. by apply (so_tombstoned s I).
Qed.

(** Closes the fields that only relate a state to what is present. *)
Ltac state_logic :=
  repeat match goal with
  | E : _ = None |- _ => rewrite E
  | E : _ = Some _ |- _ => rewrite E
  end;
  solve [done | intros; congruence
        | split; [intros [? [=]] | intros [|]; discriminate]
        | split; [intros [? [=]] | discriminate]
        | split; [auto | by eexists]
        | intros [? [=]] | intros [=] ].

Lemma step_ok s s' : snap_step s s' → snap_ok s → snap_ok s'.
Proof.
  intros [M V] I. pose proof I as [P C CS St Ve Cf Cb Pe Or Co To].
  destruct (move_terms s s' M) as (HT & _).
  assert (∃ request, planned request (ds_Plan s')) as P'
    by (destruct P as [rq P]; exists rq; by apply (planned_terms _ (ds_Plan s))).
  assert (claimMatchesPlan (ds_Claim s') (ds_Plan s') = true) as C'
    by (destruct M; by apply (claim_matches_moved _ (ds_Plan s))).
  assert (pl_Version (ds_Plan s') < 2 ^ 64) as V2 by (destruct M; apply u64_range).
  assert (1 <= pl_Version (ds_Plan s') < 2 ^ 64) as V' by lia.
  destruct M; guard_state;
    match goal with E : pl_State (ds_Plan s) = _ |- _ =>
      try pose proof (ok_not_confirmed s I ltac:(rewrite E; discriminate) ltac:(rewrite E; discriminate)) as X1;
      try pose proof (ok_not_pending s I ltac:(rewrite E; discriminate)) as X2;
      try pose proof (ok_not_consumed s I ltac:(rewrite E; discriminate)) as X3;
      try pose proof (ok_not_tombstoned s I ltac:(rewrite E; discriminate)) as X4
    end;
    split; try done; cbn in *; try state_logic.
  - intros c [= <-]. exists (ds_Plan s), event, proof, false. split_and!; try done.
    by eapply confirm_allowed_valid.
  - intros c [= <-]. exists (ds_Plan s), event, proof, true. split_and!; try done.
    by eapply confirm_allowed_valid.
  - intros p [= <-]. split; [done|]. cbn. match goal with A : pl_State _ = _ |- _ => rewrite A end. split; [set_solver|discriminate].
  - intros p [= <-]. split; [done|]. cbn. match goal with A : pl_State _ = _ |- _ => rewrite A end. split; [set_solver|].
    intros _. apply pending_of_submitted.
  - intros p [= <-]. split; [done|]. cbn. match goal with A : pl_State _ = _ |- _ => rewrite A end. split; [set_solver|discriminate].
  - rewrite Cf. split; intros _; [by right|by left].
Qed.

Lemma reachable_ok s : snap_reachable s → snap_ok s.
Proof.
  intros (s0 & F & R). apply fresh_ok in F. induction R as [|x y z X R IH]; [done|].
  apply IH. by eapply step_ok.
Qed.

(** ** Runs *)

(** What a run keeps. *)
Record run_keeps (s s' : durableSnapshot) : Prop := {
  rk_terms : terms (ds_Plan s') = terms (ds_Plan s);
  rk_claim : AllocationMode.identity (ds_Claim s') = AllocationMode.identity (ds_Claim s);
  rk_confirmation : ∀ c, ds_Confirmation s = Some c → ds_Confirmation s' = Some c;
  rk_reorgs : ds_Reorgs s `prefix_of` ds_Reorgs s';
  rk_tombstoned : ds_Tombstoned s = true → ds_Tombstoned s' = true }.

Lemma step_keeps s s' : snap_step s s' → run_keeps s s'.
Proof. intros [M _]. destruct (move_terms s s' M) as (? & ? & ? & ? & ?). by split. Qed.

#[export] Instance run_keeps_refl : Reflexive run_keeps.
Proof. by split. Qed.
#[export] Instance run_keeps_trans : Transitive run_keeps.
Proof.
  intros x y z [A1 A2 A3 A4 A5] [B1 B2 B3 B4 B5]. split; [congruence..|auto| |auto].
  by etrans.
Qed.

(** A resolved reversal is final. *)
Lemma tombstoned_final s s' : snap_ok s → ds_Tombstoned s = true → ¬ snap_step s s'.
Proof.
  intros I Ht [M _]. pose proof (so_tombstoned s I Ht) as St.
  destruct M; guard_state;
    solve [congruence | match goal with A : pl_State _ = _ |- _ => rewrite St in A; discriminate A end].
Qed.

Lemma run_steps s s' n :
  nsteps snap_step n s s' → snap_ok s →
  snap_ok s' ∧ run_keeps s s' ∧ pl_Version (ds_Plan s') = pl_Version (ds_Plan s) + Z.of_nat n.
Proof.
  induction 1 as [s|n x y z X R IH]; intros I.
  - split_and!; [done|done|lia].
  - destruct (IH (step_ok _ _ X I)) as (I' & K & V). split_and!; [done| |].
    + etrans; [by apply step_keeps|done].
    + destruct X as [_ X]. lia.
Qed.

(** ** Recovery *)

(** What a restart checks of a snapshot, apart from its reorganisations. *)
Record recoverable (s : durableSnapshot) : Prop := {
  rc_submission : pl_State (ds_Plan s) = StateSubmitted →
    sb_TransactionHash (pl_Submission (ds_Plan s)) ≠ ""%string;
  rc_confirmation : recovered_confirmation (ds_Plan s) (ds_Confirmation s) = true;
  rc_pending : recovered_pending (ds_Plan s) (ds_PendingReversal s) = true;
  rc_consumed : recovered_consumed s = true }.

Lemma fresh_recoverable s : fresh s → recoverable s.
Proof.
  intros [P St V C (E1 & E2 & E3 & E4 & E5)]. split; unfold recovered_consumed; rewrite ?E1, ?E4, ?E5; try done.
  rewrite St. discriminate.
Qed.

(** Proves a conjunction of checks from their facts. *)
Ltac prove_checks :=
  repeat (apply andb_true_iff; split);
  try solve [ done | by apply String.eqb_refl | by apply String.eqb_eq | by apply negb_true_iff, String.eqb_neq
            | by apply negb_true_iff, Z.eqb_neq; lia | by apply Z.eqb_eq
            | by apply negb_true_iff | unfold Time.Before, Time.Equal in *; cbn in *; by apply negb_true_iff ].

Lemma confirmation_recovered plan event proof incident st reason :
  validEvent plan event proof = true → sb_TransactionHash (pl_Submission plan) ≠ ""%string →
  st = StateConfirmed ∨ st = StateIncident →
  recovered_confirmation (moved st reason plan) (Some (projection_of plan event proof incident)) = true.
Proof.
  intros Hv Ht Hst. unfold recovered_confirmation. cbn. unfold validEvent in Hv. bool_facts.
  prove_checks.
  - apply negb_true_iff, String.eqb_neq. congruence.
  - by destruct Hst as [-> | ->].
Qed.

(** The checks on a confirmation read only the plan's terms, submission and state. *)
Lemma recovered_confirmation_moved plan c reason :
  pl_State plan = StateConfirmed ∨ pl_State plan = StateIncident →
  recovered_confirmation plan c = true →
  recovered_confirmation (moved StateIncident reason plan) c = true.
Proof.
  intros Hst. unfold recovered_confirmation. destruct c as [c|]; [|done]. cbn. intros Hc. bool_facts.
  prove_checks.
Qed.

Lemma submitted_pending_valid pending plan :
  validPendingSnapshot pending = true → submittedPendingMatchesPlan pending plan = true →
  sb_TransactionHash (pl_Submission plan) ≠ ""%string.
Proof.
  unfold validPendingSnapshot, submittedPendingMatchesPlan. intros Hv Hm. bool_facts.
  match goal with A : pn_OriginState _ = _ |- _ => rewrite A in * end. rewrite String.eqb_refl in *.
  bool_facts. congruence.
Qed.

Lemma recovered_consumed_moved s s' reason :
  ds_Plan s' = moved StateIncident reason (ds_Plan s) → ds_Confirmation s' = ds_Confirmation s →
  ds_PendingReversal s' = ds_PendingReversal s → ds_Tombstoned s' = ds_Tombstoned s →
  ds_ConsumedPendingReversal s' = ds_ConsumedPendingReversal s →
  recovered_consumed s = true → recovered_consumed s' = true.
Proof.
  unfold recovered_consumed. intros -> -> -> -> ->. destruct (ds_ConsumedPendingReversal s) as [c|]; [|done].
  destruct (ds_PendingReversal s); [done|]. destruct (ds_Confirmation s) as [a|]; [|done].
  intros E. apply andb_true_iff in E as [E1 E2]. apply andb_true_iff in E1 as [_ E1].
  change (negb (ds_Tombstoned s) && validConsumedPendingReversal c (ds_Plan s) a = true). by rewrite E1, E2.
Qed.

Lemma consumed_recovered pending plan event proof reason :
  validPendingSnapshot pending = true → submittedPendingMatchesPlan pending plan = true →
  validEvent plan event proof = true →
  validConsumedPendingReversal (consumed_of pending event proof) (moved StateIncident reason plan)
    (projection_of plan event proof true) = true.
Proof.
  intros Hp Hm Hv. unfold validConsumedPendingReversal. change (cn_Pending _) with pending.
  change (submittedPendingMatchesPlan pending _) with (submittedPendingMatchesPlan pending plan).
  rewrite Hp, Hm. cbn. unfold validEvent in Hv. bool_facts.
  prove_checks.
Qed.

Lemma pending_recovered record plan origin reason :
  origin ∈ [StatePrepared; StateSubmitted; StateFailed] →
  let next := moved StateQuarantined reason plan in
  validPendingSnapshot (pendingSnapshot record next origin) = true →
  recovered_pending next (Some (pendingSnapshot record next origin)) = true.
Proof.
  intros Ho next Hv. unfold recovered_pending. rewrite Hv. cbn.
  rewrite !String.eqb_refl. cbn. rewrite !elem_of_cons, elem_of_nil in Ho.
  destruct Ho as [-> |[-> |[-> |[]]]]; cbn; try done.
  rewrite !Z.eqb_refl, !String.eqb_refl. unfold Time.Equal. cbn. by rewrite Z.eqb_refl.
Qed.

(** In a state that holds no confirmation, no pending and no consumed reversal, there
    is nothing to check. *)
Lemma ok_recoverable s :
  snap_ok s →
  (pl_State (ds_Plan s) = StateSubmitted → sb_TransactionHash (pl_Submission (ds_Plan s)) ≠ ""%string) →
  (pl_State (ds_Plan s) ∈ [StateConfirmed; StateIncident] →
     recovered_confirmation (ds_Plan s) (ds_Confirmation s) = true) →
  (pl_State (ds_Plan s) = StateQuarantined → recovered_pending (ds_Plan s) (ds_PendingReversal s) = true) →
  (pl_State (ds_Plan s) = StateIncident → recovered_consumed s = true) →
  recoverable s.
Proof.
  intros I Hs Hc Hp Hn. split; [done|..].
  - destruct (decide (pl_State (ds_Plan s) ∈ [StateConfirmed; StateIncident])) as [E|E]; [by apply Hc|].
    by rewrite ok_not_confirmed by set_solver.
  - destruct (decide (pl_State (ds_Plan s) = StateQuarantined)) as [E|E]; [by apply Hp|].
    by rewrite ok_not_pending.
  - destruct (decide (pl_State (ds_Plan s) = StateIncident)) as [E|E]; [by apply Hn|].
    unfold recovered_consumed. by rewrite ok_not_consumed.
Qed.

(** A confirmation out of quarantine: the pending reversal is valid and interrupted the
    submission being confirmed. *)
Lemma confirm_quarantined plan pending v event proof :
  pl_State plan = StateQuarantined → recovered_pending plan (Some pending) = true →
  confirm_allowed plan (Some pending) v event proof = true →
  validPendingSnapshot pending = true ∧ submittedPendingMatchesPlan pending plan = true.
Proof.
  unfold recovered_pending, confirm_allowed. intros Hst Hp Hc. rewrite Hst, String.eqb_refl in Hc.
  cbn in Hc. bool_facts. done.
Qed.

Lemma step_recoverable s s' : snap_step s s' → snap_ok s → recoverable s → recoverable s'.
Proof.
  intros X I [Rs Rc Rp Rn]. pose proof (step_ok s s' X I) as I'. destruct X as [M _].
  apply ok_recoverable; [done|..]; destruct M; cbn [ds_Plan set_plan set_confirmation add_reorg
      set_pending_reversal set_consumed_reversal set_tombstoned advanced moved with_progress pl_State];
    try (intros E; first [discriminate E | by apply elem_of_cons in E as [E|E%list_elem_of_singleton]]);
    intros _.
  - unfold validSubmission in *. bool_facts. done.
  - apply confirmation_recovered; auto. by eapply confirm_allowed_valid.
  - match goal with A : ds_PendingReversal s = _ |- _ => rewrite A in * end.
    apply confirmation_recovered; auto; [by eapply confirm_allowed_valid|].
    by eapply submitted_pending_valid; eapply confirm_quarantined.
  - by apply recovered_confirmation_moved.
  - apply recovered_confirmation_moved; auto.
  - match goal with A : pl_State (ds_Plan s) = _ |- _ =>
      revert Rp; unfold recovered_pending; cbn; by rewrite A end.
  - by apply pending_recovered.
  - match goal with A : ds_PendingReversal s = _ |- _ => rewrite A in * end.
    unfold recovered_consumed. cbn [ds_ConsumedPendingReversal ds_PendingReversal ds_Confirmation ds_Tombstoned
      ds_Plan set_plan set_confirmation set_consumed_reversal set_pending_reversal].
    rewrite (ok_not_tombstoned s I) by
      (match goal with A : pl_State _ = _ |- _ => rewrite A end; discriminate). change (_ =s StateIncident) with true. cbn [andb negb].
    apply consumed_recovered; [by eapply confirm_quarantined..|by eapply confirm_allowed_valid].
  - by eapply recovered_consumed_moved.
  - by eapply recovered_consumed_moved.
Qed.

Lemma reachable_recoverable s : snap_reachable s → recoverable s.
Proof.
  intros (s0 & F & R). assert (snap_ok s0) as O by (by apply fresh_ok). apply fresh_recoverable in F.
  induction R as [|x y z X R IH]; [done|]. apply IH; [by eapply step_recoverable|by eapply step_ok].
Qed.

End Machine.
