(* ===== verification/SettlementRefinement.v ===== *)
(** The settlement coordinator refines the per-payment machine: every call, failing
    or not, leaves each payment's machine where it was or takes it one step, and the
    store, the registry and the coordinator's maps always describe the same states. *)
From S2P Require Import Prelude GoStd CrossChainTypes ChainTypes Payment SettlementDigest.
From S2P Require Import SettlementTypes SettlementStore Settlement SettlementMachine.
From S2P Require AllocationMode.

Section Refinement.
Context `{Keccak, Sha256, Json, SnapshotCodec} {S T : Type}.
Context `{AllocationMode.ClaimStoreLaws T S, !Store T, !StoreLaws T}.
Abbreviation K := (Coordinator S T).
Implicit Types (k : K) (p : string).

(** * The abstraction *)

Definition claim_of k p : option AllocationMode.Claim := AllocationMode.byPayment (modes k) !! p.
Definition is_reversed k p : bool := bool_decide (p ∈ AllocationMode.reversed (modes k)).
Definition reorgs_of p (l : list ReorgEvidence) : list ReorgEvidence :=
  filter (λ r, re_PaymentID r = p) l.
#[local] Arguments reorgs_of : simpl never.

(** The machine state of a payment. *)
Definition view k p : option durableSnapshot :=
  match plans k !! p, claim_of k p with
  | Some plan, Some claim => Some (snapshot_of k plan claim (is_reversed k p) (pending k !! p))
  | _, _ => None
  end.

(** The durable record of a machine state. *)
Definition record_of (s : durableSnapshot) (encoded : string) : StoredCoordinator :=
  let plan := ds_Plan s in
  {| sc_PaymentID := pl_PaymentID plan;
     sc_AllocationID := pl_AllocationID plan;
     sc_InstructionDigest := pl_InstructionDigest plan;
     sc_AllocationExpectedVersion := pl_PaymentVersion plan;
     sc_State := pl_State plan;
     sc_Version := pl_Version plan;
     sc_Snapshot := encoded;
     sc_Tombstoned := ds_Tombstoned s;
     sc_PendingReversal := bool_decide (is_Some (ds_PendingReversal s)) |}.

(** The record on file for a machine state. *)
Definition on_file (o : option durableSnapshot) (r : option StoredCoordinator) : Prop :=
  match o with
  | None => r = None
  | Some s => ∃ encoded, marshal_snapshot s = Some encoded ∧ r = Some (record_of s encoded)
  end.

Definition claims_ok k : Prop := AllocationMode.store_ok (W := T) (AllocationMode.store (modes k)).

Record Inv k : Prop := {
  inv_claims : claims_ok k;
  inv_store : store_ok (store k);
  inv_key p plan : plans k !! p = Some plan → pl_PaymentID plan = p;
  inv_claim p : is_Some (plans k !! p) → is_Some (claim_of k p);
  inv_reach p s : view k p = Some s → snap_reachable s;
  inv_mirror p : on_file (view k p) (stored (store k) !! p);
  inv_unplanned p : plans k !! p = None →
    confirmations k !! p = None ∧ pending k !! p = None ∧ consumed k !! p = None ∧
    reorgs_of p (reorgs k) = [];
  inv_allocations a p : byAllocation k !! a = Some p ↔
    ∃ plan, plans k !! p = Some plan ∧ pl_AllocationID plan = a;
  inv_tombs p : is_Some (tombs (store k) !! p) ↔ p ∈ AllocationMode.reversed (modes k);
  inv_resolved : resolved (store k) = resolutions k;
  inv_final q r : resolutions k !! q = Some r →
    ∃ s, view k (pn_PaymentID (pr_Pending (sv_Resolution r))) = Some s ∧ ds_Tombstoned s = true;
  inv_confirmations p c : confirmations k !! p = Some c → replayed c = false }.

Lemma inv_view k p plan : Inv k → plans k !! p = Some plan →
  ∃ claim, claim_of k p = Some claim ∧
    view k p = Some (snapshot_of k plan claim (is_reversed k p) (pending k !! p)) ∧
    snap_ok (snapshot_of k plan claim (is_reversed k p) (pending k !! p)) ∧
    pl_PaymentID plan = p.
Proof.
  intros I Hp. destruct (inv_claim k I p) as [c Hc]; [by eexists|]. exists c.
  assert (view k p = Some (snapshot_of k plan c (is_reversed k p) (pending k !! p))) as Hv
    by (unfold view; by rewrite Hp, Hc).
  split_and!; [done|done|by eapply reachable_ok, inv_reach|by eapply inv_key].
Qed.

(** * Changes *)

Definition change (o o' : option durableSnapshot) : Prop :=
  o' = o ∨ (o = None ∧ ∃ s', o' = Some s' ∧ fresh s') ∨
  ∃ s s', o = Some s ∧ o' = Some s' ∧ snap_step s s'.

(** What one call does, by whether it succeeded. *)
Definition simulated k (ok : bool) k' : Prop :=
  Inv k' ∧ if ok then ∀ p, change (view k p) (view k' p) else ∀ p, view k' p = view k p.

(** Two coordinators that show the same. *)
Record same k k' : Prop := {
  sm_plans : plans k' = plans k;
  sm_byAllocation : byAllocation k' = byAllocation k;
  sm_confirmations : confirmations k' = confirmations k;
  sm_reorgs : reorgs k' = reorgs k;
  sm_pending : pending k' = pending k;
  sm_consumed : consumed k' = consumed k;
  sm_resolutions : resolutions k' = resolutions k;
  sm_claims p : is_Some (plans k !! p) → claim_of k' p = claim_of k p;
  sm_reversed : AllocationMode.reversed (modes k') = AllocationMode.reversed (modes k);
  sm_claim_store : claims_ok k → claims_ok k';
  sm_store : store_ok (store k');
  sm_stored : stored (store k') = stored (store k);
  sm_tombs : tombs (store k') = tombs (store k);
  sm_resolved : resolved (store k') = resolved (store k) }.

Lemma same_view k k' p : same k k' → view k' p = view k p.
Proof.
  intros M. unfold view, snapshot_of, is_reversed.
  rewrite (sm_plans _ _ M), (sm_pending _ _ M), (sm_reversed _ _ M).
  destruct (plans k !! p) eqn:Hp; [|done]. rewrite (sm_claims _ _ M) by (rewrite Hp; by eexists).
  rewrite (sm_confirmations _ _ M), (sm_reorgs _ _ M), (sm_consumed _ _ M). done.
Qed.

Lemma same_inv k k' : Inv k → same k k' → Inv k'.
Proof.
  intros I M. pose proof (λ p, same_view k k' p M) as V. split.
  - apply M, I.
  - apply M.
  - rewrite (sm_plans _ _ M). apply I.
  - intros p. rewrite (sm_plans _ _ M). intros Hp. rewrite (sm_claims _ _ M) by done. by apply I.
  - intros p s. rewrite V. apply I.
  - intros p. rewrite V, (sm_stored _ _ M). apply I.
  - intros p. rewrite (sm_plans _ _ M), (sm_confirmations _ _ M), (sm_pending _ _ M),
      (sm_consumed _ _ M), (sm_reorgs _ _ M). apply I.
  - intros a p. rewrite (sm_byAllocation _ _ M), (sm_plans _ _ M). apply I.
  - intros p. rewrite (sm_tombs _ _ M), (sm_reversed _ _ M). apply I.
  - rewrite (sm_resolved _ _ M), (sm_resolutions _ _ M). apply I.
  - intros q r. rewrite (sm_resolutions _ _ M), V. apply I.
  - intros p c. rewrite (sm_confirmations _ _ M). apply I.
Qed.

Lemma same_simulated k k' ok : Inv k → same k k' → simulated k ok k'.
Proof.
  intros I M. split; [by eapply same_inv|].
  destruct ok; intros p; [left|]; by apply same_view.
Qed.

Lemma same_refl k : store_ok (store k) → same k k.
Proof. by split. Qed.

(** A call that touches one payment [p], whose machine ends in [s']. *)
Record update p k k' (s' : durableSnapshot) : Prop := {
  up_plans q : q ≠ p → plans k' !! q = plans k !! q;
  up_claims q : q ≠ p → claim_of k' q = claim_of k q;
  up_confirmations q : q ≠ p → confirmations k' !! q = confirmations k !! q;
  up_pending q : q ≠ p → pending k' !! q = pending k !! q;
  up_consumed q : q ≠ p → consumed k' !! q = consumed k !! q;
  up_reorgs q : q ≠ p → reorgs_of q (reorgs k') = reorgs_of q (reorgs k);
  up_reversed q : q ≠ p → is_reversed k' q = is_reversed k q;
  up_stored q : q ≠ p → stored (store k') !! q = stored (store k) !! q;
  up_tombs q : is_Some (tombs (store k') !! q) ↔ q ∈ AllocationMode.reversed (modes k');
  up_allocations a q : byAllocation k' !! a = Some q ↔
    ∃ plan, plans k' !! q = Some plan ∧ pl_AllocationID plan = a;
  up_resolved : resolved (store k') = resolutions k';
  up_final q r : resolutions k' !! q = Some r →
    resolutions k !! q = Some r ∨
    (pn_PaymentID (pr_Pending (sv_Resolution r)) = p ∧ ds_Tombstoned s' = true);
  up_replayed c : confirmations k' !! p = Some c → replayed c = false;
  up_claim_store : claims_ok k';
  up_store : store_ok (store k');
  up_key : pl_PaymentID (ds_Plan s') = p;
  up_view : view k' p = Some s';
  up_file : on_file (Some s') (stored (store k') !! p);
  up_change : change (view k p) (Some s') }.

Lemma update_view p k k' s' q : Inv k → update p k k' s' → q ≠ p → view k' q = view k q.
Proof.
  intros I U Hq. unfold view. rewrite (up_plans _ _ _ _ U), (up_claims _ _ _ _ U) by done.
  destruct (plans k !! q) as [plan|] eqn:Hp; [|done]. destruct (claim_of k q); [|done].
  unfold snapshot_of. rewrite (inv_key k I q plan Hp).
  rewrite (up_confirmations _ _ _ _ U), (up_pending _ _ _ _ U), (up_consumed _ _ _ _ U),
    (up_reversed _ _ _ _ U) by done.
  change (filter (λ reorg, re_PaymentID reorg = q) ?l) with (reorgs_of q l).
  by rewrite (up_reorgs _ _ _ _ U) by done.
Qed.

(** A tombstoned machine does not change. *)
Lemma change_tombstoned k p s s' :
  Inv k → view k p = Some s → ds_Tombstoned s = true → change (view k p) (Some s') → s' = s.
Proof.
  intros I Hv Ht. rewrite Hv. intros [[= ->]|[[[=] _]|(x & y & [= <-] & [= <-] & X)]]; [done|].
  exfalso. eapply tombstoned_final; [|done|done]. by eapply reachable_ok, inv_reach.
Qed.

Lemma change_reachable k p s' : Inv k → change (view k p) (Some s') → snap_reachable s'.
Proof.
  intros I [E|[[_ (x & [= <-] & F)]|(x & y & E & [= <-] & X)]].
  - by eapply inv_reach.
  - by exists s'.
  - destruct (inv_reach k I p x E) as (s0 & F & R). exists s0. split; [done|]. by eapply rtc_r.
Qed.

Lemma update_simulated p k k' s' : Inv k → update p k k' s' → simulated k true k'.
Proof.
  intros I U. pose proof (λ q, update_view p k k' s' q I U) as V.
  pose proof (up_view _ _ _ _ U) as Vp. pose proof (up_change _ _ _ _ U) as C.
  assert (∃ plan c, plans k' !! p = Some plan ∧ claim_of k' p = Some c ∧ ds_Plan s' = plan)
    as (plan & c & Hp & Hc & Es).
  { unfold view in Vp. destruct (plans k' !! p) as [plan|]; [|done].
    destruct (claim_of k' p) as [c|]; [|done]. exists plan, c. by injection Vp as <-. }
  split; [split|].
  - apply U.
  - apply U.
  - intros q pl. destruct (decide (q = p)) as [->|].
    + rewrite Hp. intros [= <-]. rewrite <- Es. apply U.
    + rewrite (up_plans _ _ _ _ U) by done. apply I.
  - intros q. destruct (decide (q = p)) as [->|]; [by eexists|].
    rewrite (up_plans _ _ _ _ U), (up_claims _ _ _ _ U) by done. apply I.
  - intros q s. destruct (decide (q = p)) as [->|]; [|rewrite V by done; apply I].
    rewrite Vp. intros [= <-]. by eapply change_reachable.
  - intros q. destruct (decide (q = p)) as [->|].
    + rewrite Vp. apply U.
    + rewrite V, (up_stored _ _ _ _ U) by done. apply I.
  - intros q. destruct (decide (q = p)) as [->|]; [by rewrite Hp|].
    rewrite (up_plans _ _ _ _ U), (up_confirmations _ _ _ _ U), (up_pending _ _ _ _ U),
      (up_consumed _ _ _ _ U), (up_reorgs _ _ _ _ U) by done. apply I.
  - apply U.
  - apply U.
  - apply U.
  - intros q r Hr. destruct (up_final _ _ _ _ U q r Hr) as [Ho|[-> Ht]]; [|by eauto].
    destruct (inv_final k I q r Ho) as (s & Hs & Ht).
    destruct (decide (pn_PaymentID (pr_Pending (sv_Resolution r)) = p)) as [E|].
    + rewrite E in *. exists s'. split; [done|]. by rewrite (change_tombstoned k p s s' I Hs Ht C).
    + exists s. by rewrite V.
  - intros q c'. destruct (decide (q = p)) as [->|]; [apply U|].
    rewrite (up_confirmations _ _ _ _ U) by done. apply I.
  - intros q. destruct (decide (q = p)) as [->|]; [by rewrite Vp|left; by apply V].
Qed.

(** Calls that move an existing plan in place: the registry holds the claim in its new
    state, the store the new record, and the plan is published. *)
Lemma inplace_simulated p k k' plan next claim claim' s' encoded :
  Inv k → plans k !! p = Some plan → claim_of k p = Some claim →
  plans k' = <[p := next]> (plans k) → byAllocation k' = byAllocation k →
  pl_AllocationID next = pl_AllocationID plan → pl_PaymentID next = p →
  resolutions k' = resolutions k →
  AllocationMode.reversed (modes k') = AllocationMode.reversed (modes k) →
  AllocationMode.store (modes k') = AllocationMode.store (modes k) →
  AllocationMode.byPayment (modes k') = <[p := claim']> (AllocationMode.byPayment (modes k)) →
  (∀ q, q ≠ p → confirmations k' !! q = confirmations k !! q ∧ pending k' !! q = pending k !! q ∧
     consumed k' !! q = consumed k !! q ∧ reorgs_of q (reorgs k') = reorgs_of q (reorgs k)) →
  (∀ c, confirmations k' !! p = Some c → replayed c = false) →
  store_ok (store k') → tombs (store k') = tombs (store k) →
  resolved (store k') = resolved (store k) →
  stored (store k') = <[p := record_of s' encoded]> (stored (store k)) →
  marshal_snapshot s' = Some encoded →
  s' = snapshot_of k' next claim' (is_reversed k p) (pending k' !! p) →
  snap_step (snapshot_of k plan claim (is_reversed k p) (pending k !! p)) s' →
  simulated k true k'.
Proof.
  intros I Hp Hc Ep Ea Ea' Ek Er Erev Ecs Em Ho Hrep Hok Et Eres Est Hm Es X.
  apply (update_simulated p k k' s'); [done|].
  assert (is_reversed k' p = is_reversed k p) as Erp by (unfold is_reversed; by rewrite Erev).
  split; try done.
  - intros q Hq. rewrite Ep. by apply lookup_insert_ne.
  - intros q Hq. unfold claim_of. rewrite Em. by apply lookup_insert_ne.
  - intros q Hq. by apply Ho.
  - intros q Hq. by apply Ho.
  - intros q Hq. by apply Ho.
  - intros q Hq. by apply Ho.
  - intros q Hq. unfold is_reversed. by rewrite Erev.
  - intros q Hq. rewrite Est. by apply lookup_insert_ne.
  - intros q. rewrite Et, Erev. apply I.
  - intros a q. rewrite Ea, (inv_allocations k I), Ep. destruct (decide (q = p)) as [->|].
    + rewrite lookup_insert_eq, Hp. split; intros (x & [= <-] & <-); eauto.
    + by rewrite lookup_insert_ne.
  - rewrite Eres, Er. apply I.
  - intros q r. rewrite Er. by left.
  - unfold claims_ok. rewrite Ecs. apply I.
  - by rewrite Es.
  - unfold view, claim_of. rewrite Ep, Em, !lookup_insert_eq, Erp. by rewrite Es.
  - cbn. exists encoded. split; [done|]. by rewrite Est, lookup_insert_eq.
  - right; right. exists (snapshot_of k plan claim (is_reversed k p) (pending k !! p)), s'.
    split_and!; try done. unfold view. by rewrite Hp, Hc.
Qed.

Lemma durableRecordWith_Ok k plan c tomb pend r :
  durableRecordWith k plan c tomb pend = Ok r →
  claimMatchesPlan c plan = true ∧ stateFromCanonical (AllocationMode.State c) = pl_State plan ∧
  ∃ encoded, marshal_snapshot (snapshot_of k plan c tomb pend) = Some encoded ∧
    r = record_of (snapshot_of k plan c tomb pend) encoded.
Proof.
  unfold durableRecordWith, encodeDurableSnapshot. destruct (_ || _) eqn:Hg; [done|].
  destruct (marshal_snapshot _) as [b|] eqn:Hm; [|done]. bool_facts. intros <-%Ok_inj.
  split_and!; [done|done|]. by exists b.
Qed.

(** What a successful transition leaves: a claim in the new state, and the record of
    the next plan on file. *)
Record transitioned k (plan next : Plan) (expected to : string) (claim : AllocationMode.Claim)
    (encoded : string) k' : Prop := {
  tr_claim : claim_of k (pl_PaymentID plan) = Some claim;
  tr_expected : AllocationMode.State claim = expected;
  tr_matches : claimMatchesPlan (AllocationMode.with_state to claim) next = true;
  tr_encoded : marshal_snapshot (snapshot_of k next (AllocationMode.with_state to claim) false
                                   (pending k !! pl_PaymentID next)) = Some encoded;
  tr_positive : 0 < pl_Version next;
  tr_shared : ∃ m t, k' = set_shared m t k ∧
    AllocationMode.byPayment m = <[pl_PaymentID plan := AllocationMode.with_state to claim]>
                                   (AllocationMode.byPayment (modes k)) ∧
    AllocationMode.reversed m = AllocationMode.reversed (modes k) ∧
    AllocationMode.store m = AllocationMode.store (modes k) ∧
    store_ok t ∧ tombs t = tombs (store k) ∧ resolved t = resolved (store k) ∧
    stored t = <[pl_PaymentID next := record_of (snapshot_of k next (AllocationMode.with_state to claim)
                   false (pending k !! pl_PaymentID next)) encoded]> (stored (store k)) }.

Lemma compareAndSwap_cases k st v next c e at_ t t' r :
  store_ok t → compareAndSwapDurable k st v next c e at_ t = (t', r) →
  store_ok t' ∧ tombs t' = tombs t ∧ resolved t' = resolved t ∧
  match r with
  | Err _ => stored t' = stored t
  | Ok _ =>
      claimMatchesPlan c next = true ∧ stateFromCanonical (AllocationMode.State c) = pl_State next ∧
      0 < pl_Version next ∧
      ∃ encoded,
        marshal_snapshot (snapshot_of k next c false (pending k !! pl_PaymentID next)) = Some encoded ∧
        stored t' = <[pl_PaymentID next := record_of (snapshot_of k next c false
                        (pending k !! pl_PaymentID next)) encoded]> (stored t)
  end.
Proof.
  intros Ht. unfold compareAndSwapDurable, durableRecord.
  destruct (durableRecordWith _ _ _ _ _) as [rec|e1] eqn:Hr; [|by intros [= <- <-]].
  apply durableRecordWith_Ok in Hr as (Hc & Hs & b & Hm & ->).
  intros Hx. apply (swap_law _ _ _ _ _ _ _ _ Ht) in Hx as (Hok & Et & Er & Hx).
  split_and!; [done..|]. destruct r; [|done]. destruct Hx as (_ & Hv & Hst).
  split_and!; [done|done| |by exists b].
  unfold validStoredCoordinator in Hv. bool_facts. cbn in *. lia.
Qed.

Lemma transition_cases k plan next st x y e at_ k' r :
  store_ok (store k) → transition k plan next st x y e at_ = (k', r) →
  match r with
  | Err _ => same k k'
  | Ok _ => ∃ claim encoded, transitioned k plan next x y claim encoded k'
  end.
Proof.
  intros I. unfold transition, AllocationMode.TransitionWithCommit.
  assert (same k (set_shared (modes k) (store k) k)) as Hsame by (by split).
  destruct (_ || _); [by intros [= <- <-]|].
  destruct (AllocationMode.byPayment (modes k) !! _) as [c|] eqn:Hc; [|by intros [= <- <-]].
  destruct (_ || _) eqn:Hg; [by intros [= <- <-]|]. bool_facts.
  destruct (compareAndSwapDurable _ _ _ _ _ _ _ _) as [t [u|err]] eqn:Hs;
    (apply compareAndSwap_cases in Hs as (Hok & Et & Er & Hs); [|done]); intros [= <- <-].
  - destruct Hs as (Hm & Hst & Hv & b & Hb & Est). exists c, b. split; try done.
    eexists _, t. split; [reflexivity|]. done.
  - by split.
Qed.

Lemma next_version k p plan next :
  Inv k → plans k !! p = Some plan → pl_Version next = u64 (pl_Version plan + 1) →
  0 < pl_Version next → pl_Version next = pl_Version plan + 1.
Proof.
  intros I Hp Hv Hpos. destruct (inv_view k p plan I Hp) as (c & _ & _ & O & _).
  pose proof (so_version _ O) as V. cbn in V. rewrite Hv in *.
  destruct (Z.eq_dec (pl_Version plan + 1) (2 ^ 64)) as [E|]; [|apply u64_small; lia].
  rewrite E in Hpos. vm_compute in Hpos. discriminate Hpos.
Qed.

Lemma named_plan_Some k p a d plan :
  named_plan k p a d = Some plan →
  plans k !! p = Some plan ∧ pl_AllocationID plan = a ∧ pl_InstructionDigest plan = d.
Proof.
  unfold named_plan. destruct (plans k !! p) as [x|]; [|done]. destruct (_ || _) eqn:E; [done|].
  intros [= ->]. bool_facts. done.
Qed.

(** A transition that only moves the plan. *)
Lemma plain_transition k p plan next st x e at_ k' u :
  Inv k → plans k !! p = Some plan → is_reversed k p = false →
  terms next = terms plan → pl_Version next = u64 (pl_Version plan + 1) →
  (∀ s, view k p = Some s → AllocationMode.State (ds_Claim s) = x → move s (set_plan next s)) →
  transition k plan next st x (pl_State next) e at_ = (k', Ok u) → simulated k true (publish next k').
Proof.
  intros I Hp Hrev Ht Hv Hmove Hx. destruct (inv_view k p plan I Hp) as (c & Hc & Hview & O & Hkey).
  apply transition_cases in Hx as (claim & b & X); [|apply I].
  pose proof (f_equal pl_PaymentID Ht) as Ek. pose proof (f_equal pl_AllocationID Ht) as Ea.
  cbn in Ek, Ea. destruct X as [X1 X2 X3 X4 X5 (m & t & -> & Em & Er & Ecs & Hok & Et & Eres & Est)].
  rewrite Hkey in *. rewrite Ek in *. rewrite Hc in X1. injection X1 as <-.
  pose proof (next_version k p plan next I Hp Hv X5) as Hn.
  eapply (inplace_simulated p k _ plan next c (AllocationMode.with_state (pl_State next) c) _ b);
    try done; cbn; try (by rewrite Ek).
  - intros c'. apply I.
  - unfold snapshot_of. cbn. by rewrite Hrev.
  - split; [|done]. specialize (Hmove _ Hview X2). unfold set_plan, snapshot_of in *. cbn in *.
    rewrite Hrev, Hkey, Ek in *. exact Hmove.
Qed.

Lemma result_simulated {A} k (x : K * result error A) k' r :
  x = (k', r) → simulated k (is_ok r) k' → simulated k (is_ok x.2) x.1.
Proof. by intros ->. Qed.

Lemma not_failed_not_reversed k p plan :
  Inv k → plans k !! p = Some plan → pl_State plan ≠ StateFailed → is_reversed k p = false.
Proof.
  intros I Hp Hs. destruct (inv_view k p plan I Hp) as (c & _ & _ & O & _).
  by apply (ok_not_tombstoned _ O).
Qed.

Lemma Submit_simulated request k :
  Inv k → simulated k (is_ok (Submit request k).2) (Submit request k).1.
Proof.
  intros I. assert (∀ ok, simulated k ok k) as Hk by (intros; apply same_simulated, same_refl, I; done).
  unfold Submit. destruct (validSubmission request) eqn:Hv; cbn [negb]; [|apply Hk].
  destruct (named_plan _ _ _ _) as [plan|] eqn:Hn; [|apply Hk].
  apply named_plan_Some in Hn as (Hp & _ & _). destruct (_ && _); [apply Hk|].
  destruct (submit_allowed request plan) eqn:Hs; cbn [negb]; [|apply Hk].
  destruct (transition _ _ _ _ _ _ _ _) as [k' [u|err]] eqn:Hx.
  - assert (pl_State plan = StatePrepared) as Est by (unfold submit_allowed in Hs; bool_facts; done).
    eapply plain_transition; [done|done| |done|done| |exact Hx].
    + eapply not_failed_not_reversed; [done|done|by rewrite Est].
    + intros s Hv'. destruct (inv_view k _ plan I Hp) as (c & _ & Hview & _).
      rewrite Hv' in Hview. injection Hview as ->. intros _. by apply move_submit.
  - apply transition_cases in Hx; [|apply I]. by apply same_simulated.
Qed.

Lemma Fail_simulated request k :
  Inv k → simulated k (is_ok (Fail_ request k).2) (Fail_ request k).1.
Proof.
  intros I. assert (∀ ok, simulated k ok k) as Hk by (intros; apply same_simulated, same_refl, I; done).
  unfold Fail_. destruct (_ || negb (failure_ok _)) eqn:Hv; [apply Hk|].
  apply orb_false_iff in Hv as [_ Hv%negb_false_iff].
  destruct (named_plan _ _ _ _) as [plan|] eqn:Hn; [|apply Hk].
  apply named_plan_Some in Hn as (Hp & _ & _). destruct (_ && _); [apply Hk|].
  destruct (fail_allowed plan _ _) eqn:Hs; cbn [negb]; [|apply Hk].
  destruct (AllocationMode.Lookup _ _); [|apply Hk]. destruct (_ || _); [apply Hk|].
  destruct (transition _ _ _ _ _ _ _ _) as [k' [u|err]] eqn:Hx.
  - assert (pl_State plan = StateSubmitted) as Est by (unfold fail_allowed in Hs; bool_facts; done).
    eapply plain_transition; [done|done| |done|done| |exact Hx].
    + eapply not_failed_not_reversed; [done|done|by rewrite Est].
    + intros s Hv'. destruct (inv_view k _ plan I Hp) as (c' & _ & Hview & _).
      rewrite Hv' in Hview. injection Hview as ->. intros _. by eapply move_fail.
  - apply transition_cases in Hx; [|apply I]. by apply same_simulated.
Qed.

Lemma Retry_simulated request k :
  Inv k → simulated k (is_ok (Retry request k).2) (Retry request k).1.
Proof.
  intros I. assert (∀ ok, simulated k ok k) as Hk by (intros; apply same_simulated, same_refl, I; done).
  unfold Retry. destruct (_ || _); [apply Hk|].
  destruct (named_plan _ _ _ _) as [plan|] eqn:Hn; [|apply Hk].
  apply named_plan_Some in Hn as (Hp & _ & _). destruct (inv_view k _ plan I Hp) as (c & _ & Hview & O & Hkey).
  destruct (_ || _) eqn:Hg; [apply Hk|]. bool_facts. rewrite Hkey in *.
  destruct (transition _ _ _ _ _ _ _ _) as [k' [u|err]] eqn:Hx.
  - eapply plain_transition; [done|done|done|done|done| |exact Hx].
    intros s Hv'. rewrite Hv' in Hview. injection Hview as ->. intros _. by apply move_retry.
  - apply transition_cases in Hx; [|apply I]. by apply same_simulated.
Qed.

(** Appending evidence of one payment. *)
Lemma reorgs_of_app q l r : reorgs_of q (l ++ [r]) =
  if decide (re_PaymentID r = q) then reorgs_of q l ++ [r] else reorgs_of q l.
Proof.
  unfold reorgs_of. rewrite filter_app. destruct (decide _) as [E|E].
  - by rewrite filter_cons_True.
  - by rewrite filter_cons_False, filter_nil, app_nil_r.
Qed.

Lemma rollback_same k k' e :
  same (set_reorgs (λ l, l ++ [e]) k) k' → same k (rollbackReorg k').
Proof.
  intros [M1 M2 M3 M4 M5 M6 M7 M8 M9 M14 M10 M11 M12 M13]. cbn in *. split; try done. cbn.
  rewrite M4, length_app. cbn. by replace (_ + 1 - 1)%nat with (length (reorgs k)) by lia; rewrite take_app_length.
Qed.

(** A durable write that moves a plan and adds its reorganisation. *)
Lemma reorg_published k p plan claim claim' next e b m t :
  let k1 := set_reorgs (λ l, l ++ [e]) k in
  Inv k → plans k !! p = Some plan → claim_of k p = Some claim → is_reversed k p = false →
  re_PaymentID e = p → terms next = terms plan → pl_Version next = u64 (pl_Version plan + 1) →
  0 < pl_Version next → claim' = AllocationMode.with_state (pl_State next) claim →
  marshal_snapshot (snapshot_of k1 next claim' false (pending k !! p)) = Some b →
  AllocationMode.byPayment m = <[p := claim']> (AllocationMode.byPayment (modes k)) →
  AllocationMode.reversed m = AllocationMode.reversed (modes k) →
  AllocationMode.store m = AllocationMode.store (modes k) →
  store_ok t → tombs t = tombs (store k) → resolved t = resolved (store k) →
  stored t = <[p := record_of (snapshot_of k1 next claim' false (pending k !! p)) b]> (stored (store k)) →
  (∀ s, view k p = Some s → move s (add_reorg e (set_plan next s))) →
  simulated k true (publish next (set_shared m t k1)).
Proof.
  intros k1 I Hp Hc Hrev He Ht Hv Hpos -> Hm Em Er Ecs Hok Et Eres Est Hmove.
  destruct (inv_view k p plan I Hp) as (c & Hc' & Hview & O & Hkey).
  rewrite Hc in Hc'. injection Hc' as <-.
  pose proof (f_equal pl_PaymentID Ht) as Ek. pose proof (f_equal pl_AllocationID Ht) as Ea.
  cbn in Ek, Ea. rewrite Hkey in Ek. pose proof (next_version k p plan next I Hp Hv Hpos) as Hn.
  eapply (inplace_simulated p k _ plan next claim (AllocationMode.with_state (pl_State next) claim) _ b);
    try done; cbn; try (by rewrite Ek).
  - intros q Hq. split_and!; try done. rewrite reorgs_of_app. by destruct (decide _) as [E|]; [congruence|].
  - intros c'. apply I.
  - unfold snapshot_of. cbn. by rewrite Hrev.
  - split; [|done]. specialize (Hmove _ Hview). unfold add_reorg, set_plan, snapshot_of in *. cbn in *.
    change (filter (λ reorg, re_PaymentID reorg = pl_PaymentID next) ?l) with (reorgs_of (pl_PaymentID next) l).
    rewrite reorgs_of_app. unfold reorgs_of. rewrite Hrev, Hkey, Ek in *.
    rewrite decide_True by done. exact Hmove.
Qed.

Lemma snapshot_extra k e plan c tomb pend :
  snapshot_of (set_reorgs (λ l, l ++ [e]) k) plan c tomb pend =
  mkdurableSnapshot plan (value <$> confirmations k !! pl_PaymentID plan)
    (reorgs_of (pl_PaymentID plan) (reorgs k ++ [e])) c tomb pend (consumed k !! pl_PaymentID plan).
Proof. reflexivity. Qed.

(** The end of a reorganisation whose durable write goes through the registry. *)
Lemma reorg_transition_simulated k p plan claim next st e h at_ :
  Inv k → plans k !! p = Some plan → claim_of k p = Some claim → is_reversed k p = false →
  re_PaymentID e = p → terms next = terms plan → pl_Version next = u64 (pl_Version plan + 1) →
  (∀ s, view k p = Some s → move s (add_reorg e (set_plan next s))) →
  let x := reorg_finish e next
    (transition (set_reorgs (λ l, l ++ [e]) k) plan next st (AllocationMode.State claim)
       (pl_State next) h at_) in
  simulated k (is_ok x.2) x.1.
Proof.
  intros I Hp Hc Hrev He Ht Hv Hmove. cbv zeta.
  pose proof (inv_key k I p plan Hp) as Hkey.
  pose proof (f_equal pl_PaymentID Ht) as Ek. cbn in Ek. rewrite Hkey in Ek.
  destruct (transition _ _ _ _ _ _ _ _) as [k' [u|err]] eqn:Hx; cbn [reorg_finish].
  - apply transition_cases in Hx as (c & b & [X1 X2 X3 X4 X5 (m & t & -> & Em & Er & Ecs & Hok & Et & Eres & Est)]);
      [|apply I]. rewrite Hkey, Ek in *. cbn in X1.
    assert (c = claim) as -> by (unfold claim_of in *; cbn in *; congruence).
    by eapply (reorg_published k p plan claim _ next e b m t).
  - apply transition_cases in Hx; [|apply I]. by eapply same_simulated, rollback_same.
Qed.

(** The same for a claim that keeps its state. *)
Lemma reorg_swap_simulated k p plan claim next st e h at_ :
  Inv k → plans k !! p = Some plan → claim_of k p = Some claim → is_reversed k p = false →
  re_PaymentID e = p → terms next = terms plan → pl_Version next = u64 (pl_Version plan + 1) →
  pl_State next = AllocationMode.State claim →
  (∀ s, view k p = Some s → move s (add_reorg e (set_plan next s))) →
  let x := reorg_finish e next (swap (set_reorgs (λ l, l ++ [e]) k) st plan next claim h at_) in
  simulated k (is_ok x.2) x.1.
Proof.
  intros I Hp Hc Hrev He Ht Hv Hst Hmove. cbv zeta.
  pose proof (inv_key k I p plan Hp) as Hkey.
  pose proof (f_equal pl_PaymentID Ht) as Ek. cbn in Ek. rewrite Hkey in Ek.
  unfold swap. destruct (compareAndSwapDurable _ _ _ _ _ _ _ _) as [t r] eqn:Hx.
  apply compareAndSwap_cases in Hx as (Hok & Et & Er & Hx); [|apply I]. destruct r as [u|err]; cbn [reorg_finish].
  - destruct Hx as (_ & _ & Hpos & b & Hm & Est). rewrite Ek in *.
    assert (claim = AllocationMode.with_state (pl_State next) claim) as Ec
      by (rewrite Hst; by destruct claim).
    eapply (reorg_published k p plan claim _ next e b); try done.
    cbn. symmetry. by apply insert_id.
  - cbn. eapply same_simulated; [done|]. apply (rollback_same k _ e). by split.
Qed.

Lemma RecordReorg_simulated v request k :
  Inv k → simulated k (is_ok (RecordReorg v request k).2) (RecordReorg v request k).1.
Proof.
  intros I. assert (∀ ok, simulated k ok k) as Hk by (intros; apply same_simulated, same_refl, I; done).
  unfold RecordReorg. destruct (reorg_ok request v) eqn:Hok; cbn [negb]; [|apply Hk].
  destruct (named_plan _ _ _ _) as [plan|] eqn:Hn; [|apply Hk].
  apply named_plan_Some in Hn as (Hp & _ & _). destruct (_ || _); [apply Hk|].
  destruct (known_reorg _ _); [by destruct (_ =s _); apply Hk|]. destruct (negb _); [apply Hk|].
  destruct (inv_view k _ plan I Hp) as (c & Hc & Hview & O & Hkey).
  unfold AllocationMode.Lookup. rewrite Hkey. unfold claim_of in Hc. rewrite Hc.
  pose proof (so_claim_state _ O) as Hcs. cbn in Hcs. unfold reorg_commit.
  set (e := reorg_evidence plan request _).
  assert (∀ err, simulated k (is_ok (@Err error ReorgEvidence err)) (rollbackReorg (set_reorgs (λ l, l ++ [e]) k))) as Hroll.
  { intros err. apply same_simulated; [done|]. apply (rollback_same k _ e), same_refl, I. }
  destruct ((pl_State plan =s StateSubmitted) || (pl_State plan =s StateQuarantined)) eqn:Hs1.
  { destruct (pre_finality_ok plan request) eqn:Hpre; cbn [negb]; [|exact (Hroll ErrInvalidReorg)].
    assert (e = reorg_evidence plan request false) as He.
    { unfold e. unfold pre_finality_ok in Hpre. bool_facts.
      by match goal with A : _ ≠ ReorgDeepFinality |- _ => rewrite (proj2 (String.eqb_neq _ _) A) end. }
    rewrite Hcs. destruct (pl_State plan =s AllocationMode.CanonicalQuarantined) eqn:Hq.
    - apply String.eqb_eq in Hq. eapply (reorg_swap_simulated k (sr_PaymentID request) plan c); try done.
      + eapply not_failed_not_reversed; [done|done|by rewrite Hq].
      + by rewrite Hcs, Hq.
      + intros s Hv. rewrite Hview in Hv. injection Hv as <-. rewrite He. by eapply move_reorg_pending.
    - assert (pl_State plan = StateSubmitted) as Es.
      { apply orb_true_iff in Hs1 as [Es|Es]; bool_facts; [done|]. by destruct Hq. }
      replace AllocationMode.CanonicalSubmitted with (AllocationMode.State c) by (by rewrite Hcs, Es).
      eapply (reorg_transition_simulated k (sr_PaymentID request) plan c); try done.
      + eapply not_failed_not_reversed; [done|done|by rewrite Es].
      + intros s Hv. rewrite Hview in Hv. injection Hv as <-. rewrite He. by eapply move_reorg. }
  destruct ((pl_State plan =s StateConfirmed) || (pl_State plan =s StateIncident)) eqn:Hs2;
    [|exact (Hroll ErrInvalidReorg)].
  rewrite Hkey. cbn [confirmations set_reorgs].
  destruct (confirmations k !! sr_PaymentID request) as [cf|] eqn:Hcf; [|exact (Hroll ErrInvalidReorg)].
  destruct (post_finality_ok (value cf) request) eqn:Hpost; cbn [negb]; [|exact (Hroll ErrInvalidReorg)].
  assert (e = reorg_evidence plan request true) as He.
  { unfold e. unfold post_finality_ok in Hpost. bool_facts.
    by match goal with A : _ = ReorgDeepFinality |- _ => rewrite A end. }
  assert (∀ s, view k (sr_PaymentID request) = Some s →
    move s (add_reorg e (set_plan (moved StateIncident (pl_FailureReason plan) plan) s))) as Hmove.
  { intros s Hv. rewrite Hview in Hv. injection Hv as <-. rewrite He.
    eapply move_reorg_deep; try done.
    - apply orb_true_iff in Hs2 as [|]; bool_facts; [by left|by right].
    - cbn. by rewrite Hkey, Hcf. }
  rewrite Hcs. destruct (pl_State plan =s AllocationMode.CanonicalConfirmed) eqn:Hq.
  - apply String.eqb_eq in Hq. replace AllocationMode.CanonicalConfirmed with (AllocationMode.State c) by (by rewrite Hcs).
    eapply (reorg_transition_simulated k (sr_PaymentID request) plan c); try done.
    eapply not_failed_not_reversed; [done|done|by rewrite Hq].
  - destruct (pl_State plan =s AllocationMode.CanonicalIncident) eqn:Hi; cbn [negb]; [|exact (Hroll ErrInvalidReorg)].
    apply String.eqb_eq in Hi. eapply (reorg_swap_simulated k (sr_PaymentID request) plan c); try done.
    + eapply not_failed_not_reversed; [done|done|by rewrite Hi].
    + by rewrite Hcs, Hi.
Qed.

Lemma move_eq s s1 s2 : move s s1 → s1 = s2 → move s s2.
Proof. by intros M <-. Qed.

(** The coordinator with a confirmation entered, before the durable write. *)
Definition entered k p (confirmation : Confirmation) (incident : bool)
    (c : ConsumedPendingReversalSnapshot) : K :=
  set_confirmations (insert p confirmation)
    (if incident then set_consumed (insert p c) (set_pending (delete p) k) else k).

Lemma confirm_commit_entered k plan claim event proof to st incident :
  confirm_commit k plan claim event proof to st incident =
  let p := pl_PaymentID plan in
  let had := pending k !! p in
  let confirmation := mkConfirmation (projection_of plan event proof incident) false in
  let next := moved st (pl_FailureReason plan) plan in
  match transition (entered k p confirmation incident (consumed_of (default zeroPending had) event proof))
          plan next (pl_State plan) (AllocationMode.State claim) to (fp_EvidenceHash proof)
          (fp_ObservedAt proof) with
  | (k, Err err) =>
      let k := set_confirmations (delete p) k in
      let k := match had with Some pending => set_pending (insert p pending) k | None => k end in
      let k := if incident then set_consumed (delete p) k else k in
      (k, Err (AllocationMode.Join ErrInvalidTransition err))
  | (k, Ok _) => (publish next k, Ok confirmation)
  end.
Proof. reflexivity. Qed.

Lemma confirm_rollback k k' p cf incident c :
  same (entered k p cf incident c) k' → confirmations k !! p = None → consumed k !! p = None →
  (incident = true → is_Some (pending k !! p)) →
  let k1 := set_confirmations (delete p) k' in
  let k2 := match pending k !! p with Some pending => set_pending (insert p pending) k1 | None => k1 end in
  same k (if incident then set_consumed (delete p) k2 else k2).
Proof.
  intros [M1 M2 M3 M4 M5 M6 M7 M8 M9 M14 M10 M11 M12 M13] Hcf Hcon Hpe. unfold entered in *.
  destruct incident.
  - destruct (Hpe eq_refl) as [pe Hp]. rewrite Hp. cbn in *. split; try done; cbn.
    + by rewrite M3, delete_insert_id.
    + by rewrite M5, insert_delete_id.
    + by rewrite M6, delete_insert_id.
  - destruct (pending k !! p) as [pe|] eqn:Hp; cbn in *; split; try done; cbn.
    + by rewrite M3, delete_insert_id.
    + by rewrite M5, insert_id.
    + by rewrite M3, delete_insert_id.
Qed.

Lemma confirm_commit_simulated k p plan claim event proof (incident : bool) v :
  Inv k → plans k !! p = Some plan → claim_of k p = Some claim → confirmations k !! p = None →
  confirm_allowed plan (pending k !! p) v event proof = true →
  pl_State plan = (if incident then StateQuarantined else StateSubmitted) →
  let to := if incident then AllocationMode.CanonicalIncident else AllocationMode.CanonicalConfirmed in
  let x := confirm_commit k plan claim event proof to to incident in
  simulated k (is_ok x.2) x.1.
Proof.
  intros I Hp Hc Hcf Ha Hs. cbv zeta.
  destruct (inv_view k _ plan I Hp) as (c & Hc' & Hview & O & Hkey).
  rewrite Hc in Hc'. injection Hc' as <-.
  assert (is_reversed k p = false) as Hrev
    by (eapply not_failed_not_reversed; [done|done|by rewrite Hs; destruct incident]).
  pose proof (ok_not_consumed _ O ltac:(cbn; rewrite Hs; by destruct incident)) as Hcon.
  cbn in Hcon. rewrite Hkey in Hcon.
  pose proof (so_pending _ O) as Hpe. cbn in Hpe. rewrite Hs in Hpe.
  rewrite confirm_commit_entered. cbv zeta. rewrite Hkey.
  destruct (transition _ _ _ _ _ _ _ _) as [k' [u|err]] eqn:Hx.
  - apply transition_cases in Hx as (c1 & b & [X1 X2 X3 X4 X5 (m & t & -> & Em & Er & Ecs & Hok & Et & Eres & Est)]);
      [|destruct incident; apply I].
    change (pl_PaymentID (moved _ _ plan)) with (pl_PaymentID plan) in *. rewrite Hkey in *.
    assert (c1 = claim) as -> by (destruct incident; unfold claim_of in *; cbn in *; congruence).
    pose proof (next_version k p plan (moved _ _ plan) I Hp eq_refl X5) as Hn.
    destruct incident; unfold entered in *; cbn in *.
    + rewrite lookup_delete_eq in *. destruct (proj2 Hpe eq_refl) as [pe Hpend]. rewrite Hpend in *.
      eapply (inplace_simulated p k _ plan (moved StateIncident (pl_FailureReason plan) plan) claim
        (AllocationMode.with_state AllocationMode.CanonicalIncident claim) _ b); try done; cbn.
      * by rewrite Hkey.
      * intros q Hq. by rewrite !lookup_insert_ne, lookup_delete_ne.
      * rewrite lookup_insert_eq. by intros ? [= <-].
      * unfold snapshot_of. cbn. by rewrite Hrev, lookup_delete_eq.
      * split; [|done]. rewrite Hrev, Hpend in *.
        eapply move_eq; [eapply (move_confirm_incident _ event proof v pe)|].
        -- cbn. by rewrite Hkey, Hcf.
        -- done.
        -- done.
        -- done.
        -- unfold set_confirmation, set_consumed_reversal, set_pending_reversal, set_plan, snapshot_of.
           cbn. by rewrite Hkey, !lookup_insert_eq.
    + eapply (inplace_simulated p k _ plan (moved StateConfirmed (pl_FailureReason plan) plan) claim
        (AllocationMode.with_state AllocationMode.CanonicalConfirmed claim) _ b); try done; cbn.
      * by rewrite Hkey.
      * intros q Hq. by rewrite !lookup_insert_ne.
      * rewrite lookup_insert_eq. by intros ? [= <-].
      * unfold snapshot_of. cbn. by rewrite Hrev.
      * split; [|done]. rewrite Hrev in *.
        eapply move_eq; [eapply (move_confirm _ event proof v)|].
        -- cbn. by rewrite Hkey, Hcf.
        -- done.
        -- done.
        -- unfold set_confirmation, set_plan, snapshot_of. cbn. by rewrite Hkey, !lookup_insert_eq.
  - apply transition_cases in Hx; [|destruct incident; apply I].
    eapply same_simulated, confirm_rollback; try done. intros ->. by apply Hpe.
Qed.

Lemma Confirm_simulated request k :
  Inv k → simulated k (is_ok (Confirm request k).2) (Confirm request k).1.
Proof.
  intros I. assert (∀ ok, simulated k ok k) as Hk by (intros; apply same_simulated, same_refl, I; done).
  unfold Confirm. destruct (_ || _); [apply Hk|]. destruct (cq_Projection request) as [settlement proof].
  destruct (named_plan _ _ _ _) as [plan|] eqn:Hn; [|apply Hk].
  apply named_plan_Some in Hn as (Hp & _ & _).
  destruct (inv_view k _ plan I Hp) as (c & Hc & Hview & O & Hkey). rewrite Hkey.
  destruct (confirmations k !! _) as [cf|] eqn:Hcf; [by destruct (sameGatewayEvent _ _); apply Hk|].
  destruct (confirm_allowed _ _ _ _ _) eqn:Ha; cbn [negb]; [|apply Hk].
  unfold AllocationMode.Lookup. unfold claim_of in Hc. rewrite Hc. destruct (_ || _); [apply Hk|].
  pose proof (so_claim_state _ O) as Hcs. cbn in Hcs. unfold confirm_target.
  destruct (AllocationMode.State c =s AllocationMode.CanonicalSubmitted) eqn:E1.
  - apply String.eqb_eq in E1. eapply (confirm_commit_simulated k _ plan c _ proof false); try done. by rewrite <- Hcs, E1.
  - destruct (AllocationMode.State c =s AllocationMode.CanonicalQuarantined) eqn:E2; [|apply Hk].
    apply String.eqb_eq in E2. eapply (confirm_commit_simulated k _ plan c _ proof true); try done. by rewrite <- Hcs, E2.
Qed.

Lemma createDurable_cases k plan c e at_ t t' r :
  store_ok t → createDurable k plan c e at_ t = (t', r) →
  store_ok t' ∧ tombs t' = tombs t ∧ resolved t' = resolved t ∧
  match r with
  | Err _ => stored t' = stored t
  | Ok _ =>
      claimMatchesPlan c plan = true ∧
      ∃ encoded,
        marshal_snapshot (snapshot_of k plan c false (pending k !! pl_PaymentID plan)) = Some encoded ∧
        stored t' = <[pl_PaymentID plan := record_of (snapshot_of k plan c false
                        (pending k !! pl_PaymentID plan)) encoded]> (stored t)
  end.
Proof.
  intros Ht. unfold createDurable, durableRecord.
  destruct (durableRecordWith _ _ _ _ _) as [rec|e1] eqn:Hr; [|by intros [= <- <-]].
  apply durableRecordWith_Ok in Hr as (Hc & Hs & b & Hm & ->).
  intros Hx. apply (create_law _ _ _ _ _ _ Ht) in Hx as (Hok & Et & Er & Hx).
  split_and!; [done..|]. destruct r; [|done]. destruct Hx as [_ Hx]. split; [done|]. by exists b.
Qed.

(** A claim made with the durable creation of its plan. *)
Lemma create_claim_cases k request digest plan k' r :
  Inv k → create_claim k request digest plan = (k', r) →
  match r with
  | Err _ => same k k'
  | Ok claim =>
      claim_of k (q_PaymentID request) = None ∧ is_reversed k (q_PaymentID request) = false ∧
      AllocationMode.State claim = StatePrepared ∧ claimMatchesPlan claim plan = true ∧
      ∃ m t encoded, k' = set_shared m t k ∧
        AllocationMode.byPayment m = <[q_PaymentID request := claim]> (AllocationMode.byPayment (modes k)) ∧
        AllocationMode.reversed m = AllocationMode.reversed (modes k) ∧
        AllocationMode.store_ok (W := T) (AllocationMode.store m) ∧
        store_ok t ∧ tombs t = tombs (store k) ∧ resolved t = resolved (store k) ∧
        marshal_snapshot (snapshot_of k plan claim false (pending k !! pl_PaymentID plan)) = Some encoded ∧
        stored t = <[pl_PaymentID plan := record_of (snapshot_of k plan claim false
                       (pending k !! pl_PaymentID plan)) encoded]> (stored (store k))
  end.
Proof.
  intros I. unfold create_claim, AllocationMode.ClaimModeWithCommit.
  assert (same k (set_shared (modes k) (store k) k)) as Hsame by (split; try done; apply I).
  destruct (_ || _); [by intros [= <- <-]|].
  case_bool_decide as Hrev; [by intros [= <- <-]|].
  destruct (has_key (AllocationMode.byPayment _) _) eqn:Hb; [by intros [= <- <-]|].
  destruct (has_key (AllocationMode.byAllocation _) _); [by intros [= <- <-]|].
  apply has_key_false in Hb.
  set (record := AllocationMode.mkClaim _ _ _ _ _ _ _ _ _).
  destruct (AllocationMode.ClaimCanonical _ _ _ _) as [[s' t] [u|err]] eqn:Hx; intros [= <- <-].
  - destruct u. apply AllocationMode.canonical_Ok in Hx as (Hf & Hok & _); [|apply I].
    apply createDurable_cases in Hf as (Hst & Et & Er & Hm & b & Hb' & Est); [|apply I].
    split_and!; try done; [by apply bool_decide_eq_false|]. eexists _, t, b. split; [reflexivity|]. done.
  - apply AllocationMode.canonical_Err in Hx as (Hok & _ & Hw); [|apply I].
    destruct Hw as [-> | (e' & Hf)]; [split; try done; apply I|].
    apply createDurable_cases in Hf as (Hst & Et & Er & Est); [|apply I]. by split.
Qed.

Lemma validPrepare_units request :
  validPrepare request = true → ∃ gross debt,
    positive (q_TargetUnits request) = Some gross ∧ positive (q_SourceUnits request) = Some gross ∧
    positive (q_ExpectedDebtUnits request) = Some debt.
Proof.
  unfold validPrepare. intros Hv. bool_facts.
  destruct (positive (q_SourceUnits request)) as [a|]; [|done].
  destruct (positive (q_TargetUnits request)) as [b|]; [|done].
  destruct (positive (q_ExpectedDebtUnits request)) as [d|]; [|done]. bool_facts. subst. by exists b, d.
Qed.

Lemma Prepare_simulated request k :
  Inv k → simulated k (is_ok (Prepare request k).2) (Prepare request k).1.
Proof.
  intros I. assert (∀ ok, simulated k ok k) as Hk by (intros; apply same_simulated, same_refl, I; done).
  unfold Prepare. destruct (_ || _) eqn:Hg; [apply Hk|]. apply orb_false_iff in Hg as [Hv Ha].
  apply negb_false_iff in Hv, Ha. apply String.eqb_eq in Ha.
  destruct (CalculateInstructionDigest request) as [digest|] eqn:Hd; [|apply Hk].
  destruct (plans k !! q_PaymentID request) as [old|] eqn:Hp; [apply Hk|].
  destruct (match byAllocation k !! _ with Some _ => _ | None => _ end) eqn:Hown; [apply Hk|].
  destruct (validPrepare_units request Hv) as (gross & debt & Hgr & _ & Hde).
  rewrite Hgr, Hde. change (default 0 (Some ?x)) with x. cbv zeta.
  set (plan := plan_of request digest _ _ _ _).
  destruct (create_claim k request digest plan) as [k' [claim|err]] eqn:Hx.
  2:{ apply create_claim_cases in Hx; [|done]. by apply same_simulated. }
  apply create_claim_cases in Hx as (Hc & Hrev & Hst & Hm & m & t & b & -> & Em & Er & Hcs & Hok & Et & Eres & Hb & Est);
    [|done]. rewrite Hst. change (StatePrepared <>s AllocationMode.CanonicalPrepared) with false. cbv iota.
  destruct (inv_unplanned k I _ Hp) as (U1 & U2 & U3 & U4).
  eapply (update_simulated (q_PaymentID request) k _
    (snapshot_of k plan claim false (pending k !! q_PaymentID request))); [done|].
  split; cbn; try done.
  - intros q Hq. by rewrite lookup_insert_ne.
  - intros q Hq. unfold claim_of. cbn. by rewrite Em, lookup_insert_ne.
  - intros q Hq. unfold is_reversed. cbn. by rewrite Er.
  - intros q Hq. by rewrite Est, lookup_insert_ne.
  - intros q. rewrite Et, Er. apply I.
  - intros a q. destruct (decide (a = q_AllocationID request)) as [->|Hne].
    + rewrite lookup_insert_eq. split.
      * intros [= <-]. exists plan. by rewrite lookup_insert_eq.
      * intros (pl & Hpl & Ea). destruct (decide (q = q_PaymentID request)) as [->|]; [done|].
        rewrite lookup_insert_ne in Hpl by done.
        rewrite (proj2 (inv_allocations k I (q_AllocationID request) q)) in Hown by eauto.
        bool_facts. congruence.
    + rewrite lookup_insert_ne, (inv_allocations k I) by done.
      destruct (decide (q = q_PaymentID request)) as [->|]; [|by rewrite lookup_insert_ne].
      rewrite lookup_insert_eq, Hp. split; intros (pl & [= <-] & Ea). by destruct Hne.
  - rewrite Eres. apply I.
  - by left.
  - intros c. rewrite U1. done.
  - unfold view, claim_of, is_reversed. cbn. rewrite Em, Er, !lookup_insert_eq.
    unfold is_reversed in Hrev. by rewrite Hrev.
  - exists b. split; [done|]. by rewrite Est, lookup_insert_eq.
  - right; left. unfold view. rewrite Hp. split; [done|]. eexists. split; [done|].
    split; cbn; try done.
    + exists request. split; [done..|]. exists gross, debt. split_and!; try done.
      unfold plan. cbn. destruct (Z.ltb_spec debt gross); [rewrite !Z.min_r by lia|rewrite !Z.min_l by lia]; done.
    + rewrite U1, U2, U3. done.
Qed.

(** [Plan] never finds a claim missing: it is a read. *)
Lemma Plan_reads p k : Inv k → Plan_ p k = (k, plans k !! p).
Proof.
  intros I. unfold Plan_, AllocationMode.Lookup. destruct (plans k !! p) as [plan|] eqn:Hp; [|done].
  destruct (inv_view k p plan I Hp) as (c & Hc & _ & O & _). unfold claim_of in Hc. rewrite Hc.
  pose proof (so_claim _ O) as Hm. pose proof (so_claim_state _ O) as Hs.
  pose proof (so_state _ O) as Hv. cbn in Hm, Hs, Hv. rewrite Hm, Hs.
  assert (stateFromCanonical (pl_State plan) = pl_State plan) as ->; [|by destruct plan].
  unfold validState in Hv. bool_facts. rewrite !elem_of_cons, elem_of_nil in Hv.
  by destruct Hv as [-> |[-> |[-> |[-> |[-> |[-> |[]]]]]]].
Qed.

(** ** Reversals *)

(** A payment without a plan is tombstoned. *)
Lemma tombstone_simulated k p m t record :
  Inv k → plans k !! p = None → ts_PaymentID record = p →
  AllocationMode.byPayment m = AllocationMode.byPayment (modes k) →
  AllocationMode.reversed m = {[p]} ∪ AllocationMode.reversed (modes k) →
  AllocationMode.store m = AllocationMode.store (modes k) →
  store_ok t → stored t = stored (store k) → resolved t = resolved (store k) →
  tombs t = <[p := record]> (tombs (store k)) →
  simulated k true (set_shared m t k).
Proof.
  intros I Hp Hr Em Erev Ecs Hok Est Eres Et.
  assert (∀ q, view (set_shared m t k) q = view k q) as V.
  { intros q. unfold view, claim_of, is_reversed. cbn. rewrite Em. destruct (plans k !! q) eqn:Hq; [|done].
    destruct (AllocationMode.byPayment (modes k) !! q); [|done].
    unfold snapshot_of. cbn. do 2 f_equal. rewrite Erev. apply bool_decide_ext. set_solver. }
  split; [split|].
  - unfold claims_ok. cbn. rewrite Ecs. apply I.
  - done.
  - apply I.
  - intros q. unfold claim_of. cbn. rewrite Em. apply I.
  - intros q s. rewrite V. apply I.
  - intros q. rewrite V. cbn. rewrite Est. apply I.
  - intros q. apply I.
  - intros a q. apply I.
  - intros q. cbn. rewrite Et, Erev. destruct (decide (q = p)) as [->|].
    + rewrite lookup_insert_eq. set_solver.
    + rewrite lookup_insert_ne, (inv_tombs k I) by done. set_solver.
  - cbn. rewrite Eres. apply I.
  - intros q r Hq. destruct (inv_final k I q r Hq) as (s & Hs & Ht). exists s. by rewrite V.
  - intros q c. apply I.
  - intros q. left. apply V.
Qed.

(** A provider reversal that quarantines a plan. *)
Lemma quarantine_simulated k p plan claim record t t' next_record :
  let next := moved StateQuarantined "PROVIDER_REVERSAL_PENDING" plan in
  let claim' := AllocationMode.with_state AllocationMode.CanonicalQuarantined claim in
  let pe := pendingSnapshot record next (pl_State plan) in
  Inv k → plans k !! p = Some plan → claim_of k p = Some claim → validReversalRecord record = true →
  pl_State plan ∈ [StatePrepared; StateSubmitted; StateFailed] → t = store k →
  durableRecordWith k next claim' false (Some pe) = Ok next_record →
  QuarantinePendingReversal (pl_State plan) (pl_Version plan) next_record pe t = (t', Ok tt) →
  simulated k true
    (set_pending (insert p pe) (set_plans (insert p next) (set_shared
       (AllocationMode.mkRegistry (<[p := claim']> (AllocationMode.byPayment (modes k)))
          (AllocationMode.byAllocation (modes k)) (AllocationMode.reversed (modes k))
          (AllocationMode.store (modes k))) t' k))).
Proof.
  intros next claim' pe I Hp Hc Hv Hst -> Hr Hq.
  destruct (inv_view k p plan I Hp) as (c & Hc' & Hview & O & Hkey).
  rewrite Hc in Hc'. injection Hc' as <-.
  apply durableRecordWith_Ok in Hr as (_ & _ & b & Hm & ->).
  apply quarantine_law in Hq as (Hok & Et & Er & (cur & Hcur & Hcm & Htomb) & Hargs & Est); [|apply I].
  change (sc_PaymentID (record_of _ _)) with (pl_PaymentID plan) in *. rewrite Hkey in *.
  assert (is_reversed k p = false) as Hrev.
  { pose proof (inv_mirror k I p) as M. rewrite Hview in M. destruct M as (b' & _ & M).
    rewrite Hcur in M. injection M as ->. done. }
  assert (0 < pl_Version next) as Hpos.
  { unfold quarantine_arguments_ok, validStoredCoordinator in Hargs. cbn [record_of sc_Version ds_Plan snapshot_of] in Hargs.
    bool_facts. done. }
  pose proof (next_version k p plan next I Hp eq_refl Hpos) as Hn.
  eapply (inplace_simulated p k _ plan next claim claim' _ b); try done; cbn.
  - intros q Hq. by rewrite lookup_insert_ne.
  - intros c'. apply I.
  - rewrite lookup_insert_eq, Hrev. reflexivity.
  - split; [|done]. rewrite Hrev. eapply move_eq; [eapply (move_quarantine _ record)|]; try done.
    unfold quarantine_arguments_ok in Hargs. bool_facts. done.
Qed.

Lemma incident_simulated k p plan claim record t' next_record :
  let next := moved StateIncident "PROVIDER_REVERSAL_AFTER_CONFIRMATION" plan in
  let claim' := AllocationMode.with_state AllocationMode.CanonicalIncident claim in
  Inv k → plans k !! p = Some plan → claim_of k p = Some claim → validReversalRecord record = true →
  pl_State plan = StateConfirmed →
  durableRecordWith k next claim' false None = Ok next_record →
  CompareAndSwap StateConfirmed (pl_Version plan) next_record (rr_CallbackEvidenceHash record)
    (Time.UTC (rr_ReceivedAt record)) (store k) = (t', Ok tt) →
  simulated k true
    (set_plans (insert p next) (set_shared
       (AllocationMode.mkRegistry (<[p := claim']> (AllocationMode.byPayment (modes k)))
          (AllocationMode.byAllocation (modes k)) (AllocationMode.reversed (modes k))
          (AllocationMode.store (modes k))) t' k)).
Proof.
  intros next claim' I Hp Hc Hv Hst Hr Hs.
  destruct (inv_view k p plan I Hp) as (c & Hc' & Hview & O & Hkey).
  rewrite Hc in Hc'. injection Hc' as <-.
  assert (is_reversed k p = false) as Hrev by (eapply not_failed_not_reversed; [done|done|by rewrite Hst]).
  pose proof (ok_not_pending _ O ltac:(cbn; by rewrite Hst)) as Hpe. cbn in Hpe.
  apply durableRecordWith_Ok in Hr as (_ & _ & b & Hm & ->).
  apply swap_law in Hs as (Hok & Et & Er & _ & Hval & Est); [|apply I].
  change (sc_PaymentID (record_of _ _)) with (pl_PaymentID plan) in *. rewrite Hkey in *.
  assert (0 < pl_Version next) as Hpos.
  { unfold validStoredCoordinator in Hval. cbn [record_of sc_Version ds_Plan snapshot_of] in Hval. bool_facts. done. }
  pose proof (next_version k p plan next I Hp eq_refl Hpos) as Hn.
  eapply (inplace_simulated p k _ plan next claim claim' _ b); try done; cbn.
  - intros c'. apply I.
  - rewrite Hrev, Hpe. reflexivity.
  - split; [|done]. rewrite Hrev, Hpe. eapply move_eq; [eapply (move_reversal_incident _ record)|]; try done.
Qed.

(** ** The calls of the payment orchestrator *)

(** A coordinator whose store changed in nothing that counts. *)
Lemma same_shared k t :
  store_ok t → stored t = stored (store k) → tombs t = tombs (store k) →
  resolved t = resolved (store k) → same k (set_shared (modes k) t k).
Proof. by split. Qed.

Section Calls.
Context {W : Type}.
Implicit Types (w : W).

Lemma reverse_unallocated_cases record (commit : W → W * result error ()) w t x t' a b r :
  store_ok t → reverse_unallocated record commit (w, t, None, None) = ((x, t', a, b), r) →
  a = None ∧ b = None ∧ store_ok t' ∧ stored t' = stored t ∧ resolved t' = resolved t ∧
  match r with
  | Ok _ => ∃ tombstone, ts_PaymentID tombstone = rr_PaymentID record ∧
              tombs t' = <[rr_PaymentID record := tombstone]> (tombs t)
  | Err _ => tombs t' = tombs t
  end.
Proof.
  intros Ht. unfold reverse_unallocated. destruct (commit w) as [w1 [u|e]]; [|by intros [= <- <- <- <- <-]].
  destruct (CreateTombstone _ t) as [t1 r1] eqn:Hx. intros [= <- <- <- <- <-].
  apply tombstone_law in Hx as (Hok & Es & Er & Hx); [|done]. split_and!; try done.
  destruct r1; [|done]. destruct Hx as [_ Hx]. eexists. split; [|exact Hx]. done.
Qed.

Lemma reverse_quarantine_cases k record claim w x t' a b r :
  Inv k → reverse_quarantine k record claim (w, store k, None, None) = ((x, t', a, b), r) →
  match r with
  | Ok _ => ∃ plan next_record,
      let next := moved StateQuarantined "PROVIDER_REVERSAL_PENDING" plan in
      let pe := pendingSnapshot record next (pl_State plan) in
      plans k !! rr_PaymentID record = Some plan ∧
      pl_State plan ∈ [StatePrepared; StateSubmitted; StateFailed] ∧
      durableRecordWith k next (AllocationMode.with_state AllocationMode.CanonicalQuarantined claim)
        false (Some pe) = Ok next_record ∧
      QuarantinePendingReversal (pl_State plan) (pl_Version plan) next_record pe (store k) = (t', Ok tt) ∧
      a = Some next ∧ b = Some pe
  | Err _ => same k (set_shared (modes k) t' k)
  end.
Proof.
  intros I. assert (same k (set_shared (modes k) (store k) k)) as Hs by (apply same_shared; try done; apply I).
  unfold reverse_quarantine. destruct (plans k !! _) as [plan|] eqn:Hp; [|by intros [= <- <- <- <- <-]].
  destruct (_ || _) eqn:Hg; [by intros [= <- <- <- <- <-]|].
  destruct (durableRecordWith _ _ _ _ _) as [rec|e] eqn:Hr; [|by intros [= <- <- <- <- <-]].
  destruct (QuarantinePendingReversal _ _ _ _ _) as [t1 [[]|e]] eqn:Hq; intros [= <- <- <- <- <-].
  - exists plan, rec. split_and!; try done. apply orb_false_iff in Hg as [Hg _].
    rewrite !elem_of_cons, elem_of_nil.
    destruct (pl_State plan =s StatePrepared) eqn:E1; [apply String.eqb_eq in E1; auto|].
    destruct (pl_State plan =s StateSubmitted) eqn:E2; [apply String.eqb_eq in E2; auto|].
    destruct (pl_State plan =s StateFailed) eqn:E3; [apply String.eqb_eq in E3; auto|done].
  - apply quarantine_law in Hq as (Hok & Et & Er & Es); [|apply I]. by apply same_shared.
Qed.

Lemma reverse_incident_cases k record claim w x t' a b r :
  Inv k → reverse_incident k record claim (w, store k, None, None) = ((x, t', a, b), r) →
  match r with
  | Ok _ => ∃ plan next_record,
      let next := moved StateIncident "PROVIDER_REVERSAL_AFTER_CONFIRMATION" plan in
      plans k !! rr_PaymentID record = Some plan ∧ pl_State plan = StateConfirmed ∧
      durableRecordWith k next (AllocationMode.with_state AllocationMode.CanonicalIncident claim)
        false None = Ok next_record ∧
      CompareAndSwap StateConfirmed (pl_Version plan) next_record (rr_CallbackEvidenceHash record)
        (Time.UTC (rr_ReceivedAt record)) (store k) = (t', Ok tt) ∧
      a = Some next ∧ b = None
  | Err _ => same k (set_shared (modes k) t' k)
  end.
Proof.
  intros I. assert (same k (set_shared (modes k) (store k) k)) as Hs by (apply same_shared; try done; apply I).
  unfold reverse_incident. destruct (plans k !! _) as [plan|] eqn:Hp; [|by intros [= <- <- <- <- <-]].
  destruct (_ || _) eqn:Hg; [by intros [= <- <- <- <- <-]|]. bool_facts.
  destruct (durableRecordWith _ _ _ _ _) as [rec|e] eqn:Hr; [|by intros [= <- <- <- <- <-]].
  destruct (CompareAndSwap _ _ _ _ _ _) as [t1 [[]|e]] eqn:Hq; intros [= <- <- <- <- <-].
  - by exists plan, rec.
  - apply swap_law in Hq as (Hok & Et & Er & Es); [|apply I]. by apply same_shared.
Qed.

Lemma Handle_simulated record (commit : W → W * result error ()) k w :
  Inv k → simulated k (is_ok (settlement_Handle record commit k w).2)
                      (settlement_Handle record commit k w).1.1.
Proof.
  intros I. assert (∀ ok, simulated k ok k) as Hk by (intros; apply same_simulated, same_refl, I; done).
  assert (∀ ok, simulated k ok (set_shared (modes k) (store k) k)) as Hk'
    by (intros ok; apply same_simulated; [done|]; apply same_shared; try done; apply I).
  unfold settlement_Handle. destruct (validReversalRecord record) eqn:Hv; cbn [negb]; [|apply Hk].
  destruct (match plans k !! _ with Some _ => _ | None => _ end); [apply Hk|].
  unfold AllocationMode.HandleReversalWithCommit.
  assert (empty_s (rr_PaymentID record) = false) as ->
    by (unfold validReversalRecord in Hv; bool_facts; by apply String.eqb_neq).
  set (p := rr_PaymentID record).
  destruct (AllocationMode.byPayment (modes k) !! p) as [c|] eqn:Hc.
  2:{ unfold AllocationMode.resolve_with. cbn [reversal_callback].
    destruct (reverse_unallocated record commit _) as [[[[x t'] a] b] r] eqn:Hx.
      apply reverse_unallocated_cases in Hx as (-> & -> & Hok & Es & Er & Hx); [|apply I].
      destruct r; cbn.
      - destruct Hx as (ts & Hts & Et). eapply (tombstone_simulated k p); try done.
        destruct (plans k !! p) eqn:Hp; [|done]. destruct (inv_claim k I p) as [? Hc']; [by rewrite Hp|].
        unfold claim_of in Hc'. by rewrite Hc in Hc'.
      - apply same_simulated; [done|]. by apply same_shared. }
  destruct (AllocationMode.Mode c =s AllocationMode.ModeSyntheticProjection) eqn:Hmode.
  { unfold AllocationMode.resolve_with. cbn [reversal_callback].
    destruct (reverse_unallocated record commit _) as [[[[x t'] a] b] r] eqn:Hx.
    apply reverse_unallocated_cases in Hx as (-> & -> & Hok & Es & Er & Hx); [|apply I].
    destruct r; cbn.
    - destruct Hx as (ts & Hts & Et). eapply (tombstone_simulated k p); try done.
      destruct (plans k !! p) eqn:Hp; [|done]. destruct (inv_view k p _ I Hp) as (c' & Hc' & _ & O & _).
      unfold claim_of in Hc'. rewrite Hc in Hc'. injection Hc' as <-.
      pose proof (so_claim _ O) as Hm. unfold claimMatchesPlan in Hm. cbn in Hm. bool_facts.
      
      match goal with A : AllocationMode.Mode c = _ |- _ => by rewrite A in Hmode end.
    - apply same_simulated; [done|]. by apply same_shared. }
  cbv zeta.
  assert (∀ x t' a b r, reverse_quarantine k record c (w, store k, None, None) = ((x, t', a, b), r) →
    match r with
    | Ok _ => ∃ next pe, a = Some next ∧ b = Some pe ∧
        simulated k true (set_pending (insert p pe) (set_plans (insert p next) (set_shared
          (AllocationMode.mkRegistry (<[p := AllocationMode.with_state AllocationMode.CanonicalQuarantined c]>
             (AllocationMode.byPayment (modes k))) (AllocationMode.byAllocation (modes k))
             (AllocationMode.reversed (modes k)) (AllocationMode.store (modes k))) t' k)))
    | Err _ => simulated k false (set_shared (modes k) t' k)
    end) as HQ.
  { intros x t' a b r Hx. apply reverse_quarantine_cases in Hx; [|done].
    destruct r; [|by apply same_simulated].
    destruct Hx as (plan & rec & Hp & Hst & Hr & Hq & -> & ->). eexists _, _. split_and!; [done..|].
    by eapply quarantine_simulated. }
  destruct (_ || _); [|destruct (AllocationMode.State c =s AllocationMode.CanonicalSubmitted)].
  - unfold AllocationMode.resolve_with. cbn [reversal_callback].
    destruct (reverse_quarantine k record c _) as [[[[x t'] a] b] r] .
    specialize (HQ _ _ _ _ _ eq_refl). destruct r; cbn; [|done]. by destruct HQ as (next & pe & -> & -> & Hx).
  - unfold AllocationMode.resolve_with. cbn [reversal_callback].
    destruct (reverse_quarantine k record c _) as [[[[x t'] a] b] r] .
    specialize (HQ _ _ _ _ _ eq_refl). destruct r; cbn; [|done]. by destruct HQ as (next & pe & -> & -> & Hx).
  - destruct (AllocationMode.State c =s AllocationMode.CanonicalQuarantined); [apply Hk'|].
    destruct (AllocationMode.State c =s AllocationMode.CanonicalConfirmed);
      [|destruct (AllocationMode.State c =s AllocationMode.CanonicalIncident); apply Hk'].
    unfold AllocationMode.resolve_with. cbn [reversal_callback].
    destruct (reverse_incident k record c _) as [[[[x t'] a] b] r] eqn:Hx.
    apply reverse_incident_cases in Hx; [|done]. destruct r; cbn; [|by apply same_simulated].
    destruct Hx as (plan & rec & Hp & Hst & Hr & Hq & -> & ->). by eapply incident_simulated.
Qed.

(** The commit of a resolution, as the registry runs it. *)
Lemma resolve_commit_cases k record plan claim res (fallback : W → W * result error (list string)) w x r :
  Inv k → plans k !! pl_PaymentID plan = Some plan → claim_of k (pl_PaymentID plan) = Some claim →
  pl_State plan = StateQuarantined → claimMatchesPlan claim plan = true →
  resolve_commit k record plan claim res fallback w = (x, r) →
  match r with
  | Err _ => same k x.1
  | Ok answer => ∃ t' ids encoded,
      let p := pl_PaymentID plan in
      let next := moved StateFailed "PROVIDER_REVERSAL_RESOLVED" plan in
      let nextClaim := AllocationMode.with_state AllocationMode.CanonicalFailed claim in
      let s' := snapshot_of k next nextClaim true None in
      marshal_snapshot s' = Some encoded ∧ store_ok t' ∧ 0 < pl_Version next ∧
      stored t' = <[p := record_of s' encoded]> (stored (store k)) ∧
      tombs t' = <[p := resolution_tombstone (record_of s' encoded) res]> (tombs (store k)) ∧
      resolved t' = <[pn_QuarantineID (pr_Pending res) := mkStoredReversalResolution res ids]>
                      (resolved (store k)) ∧
      x.1 = set_resolutions (insert (rr_QuarantineID record) (mkStoredReversalResolution res ids))
              (set_pending (delete (rr_PaymentID record)) (set_plans (insert (rr_PaymentID record) next)
                 (set_shared (AllocationMode.tombstone p (AllocationMode.mkRegistry
                    (<[p := nextClaim]> (AllocationMode.byPayment (modes k)))
                    (AllocationMode.byAllocation (modes k)) (AllocationMode.reversed (modes k))
                    (AllocationMode.store (modes k)))) t' k)))
  end.
Proof.
  intros I Hp Hc Hst Hm. unfold resolve_commit. cbv zeta.
  assert (same k k) as Hk by apply same_refl, I.
  destruct (durableRecordWith _ _ _ _ _) as [rec|e] eqn:Hr; [|by intros [= <- <-]].
  apply durableRecordWith_Ok in Hr as (_ & _ & b & Hb & ->).
  set (p := pl_PaymentID plan) in *.
  assert (AllocationMode.PaymentID claim = p) as Ep by (unfold claimMatchesPlan in Hm; bool_facts; done).
  assert (same k (set_shared (modes k) (store k) k)) as Hk' by (apply same_shared; try done; apply I).
  unfold AllocationMode.ResolveQuarantinedReversal. unfold claim_of in Hc. rewrite Ep, Hc.
  destruct (_ || _); [by intros [= <- <-]|].
  destruct (ResolvePendingReversal _ _ _ _ _ _ _) as [[t' w'] [ids|e]] eqn:Hx;
    (apply resolve_law in Hx as [Hok Hx]; [|apply I]); intros [= <- <-]; cbn.
  2:{ destruct Hx as (E1 & E2 & E3 & _). by apply same_shared. }
  destruct Hx as (Ha & Hx). change (sc_PaymentID _) with p in Hx.
  destruct Hx as [(_ & _ & _ & _ & _ & Hcur)|(_ & Es & Et & _ & Er)].
  - exfalso. pose proof (inv_mirror k I p) as M. unfold view, claim_of in M. rewrite Hp, Hc in M.
    destruct M as (b' & _ & M). rewrite Hcur in M. injection M as M1 M2 M3. cbn in *. by rewrite Hst in *.
  - exists t', ids, b. split_and!; try done.
    + unfold resolve_arguments_ok, validStoredCoordinator in Ha.
      cbn [record_of sc_Version ds_Plan snapshot_of] in Ha. bool_facts. done.
    + unfold AllocationMode.publish. cbn. by rewrite Ep.
Qed.

Lemma Resolve_simulated record (fallback : W → W * result error (list string)) k w :
  Inv k → simulated k (is_ok (settlement_Resolve record fallback k w).2)
                      (settlement_Resolve record fallback k w).1.1.
Proof.
  intros I. assert (∀ ok, simulated k ok k) as Hk by (intros; apply same_simulated, same_refl, I; done).
  unfold settlement_Resolve. destruct (validResolutionRecord record) eqn:Hv; cbn [negb]; [|apply Hk].
  destruct (resolutions k !! _) as [old|]; [destruct (negb _); apply Hk|].
  destruct (plans k !! _) as [plan|] eqn:Hp; [|apply Hk].
  destruct (pending k !! _) as [pe|] eqn:Hpe; [|apply Hk].
  destruct (_ || _) eqn:Hg; [apply Hk|]. bool_facts.
  destruct (inv_view k _ plan I Hp) as (c & Hc & Hview & O & Hkey).
  unfold AllocationMode.Lookup. pose proof Hc as Hc0. unfold claim_of in Hc0. rewrite Hc0.
  destruct (_ || _) eqn:Hg2; [apply Hk|].
  destruct (validateReversalFailureProof plan pe record) as [[hash proof]|] eqn:Hf; [|apply Hk].
  bool_facts. set (p := rr_PaymentID record) in *.
  set (res := resolution_of pe record hash proof) in *.
  destruct (resolve_commit k record plan c res fallback w) as [x r] eqn:Hx.
  apply resolve_commit_cases in Hx; [|by rewrite ?Hkey..]. destruct r as [answer|]; [|by apply same_simulated].
  destruct Hx as (t' & ids & b & Hb & Hok & Hpos & Es & Et & Er & Hx1). cbv zeta in *.
  cbn [fst snd is_ok]. rewrite Hx1, Hkey in *. clear Hx1.
  set (next := moved StateFailed "PROVIDER_REVERSAL_RESOLVED" plan) in *.
  set (s' := snapshot_of k next _ true None) in *.
  pose proof (next_version k p plan next I Hp eq_refl Hpos) as Hn.
  destruct (so_origin _ O pe Hpe) as (Horig & _ & _). cbn in Horig. rewrite Hkey in Horig.
  apply (update_simulated p k _ s'); [done|].
  split; cbn; try done.
  - intros q Hq. by rewrite lookup_insert_ne.
  - intros q Hq. unfold claim_of. cbn. by rewrite lookup_insert_ne.
  - intros q Hq. by rewrite lookup_delete_ne.
  - intros q Hq. unfold is_reversed. cbn. apply bool_decide_ext. set_solver.
  - intros q Hq. rewrite Es. by rewrite lookup_insert_ne.
  - intros q. rewrite Et. destruct (decide (q = p)) as [->|].
    + rewrite lookup_insert_eq. set_solver.
    + rewrite lookup_insert_ne, (inv_tombs k I) by done. set_solver.
  - intros a q. rewrite (inv_allocations k I). destruct (decide (q = p)) as [->|].
    + rewrite lookup_insert_eq, Hp. split; intros (y & [= <-] & <-); eauto.
    + by rewrite lookup_insert_ne.
  - rewrite Er, (inv_resolved k I). f_equal. unfold samePendingReversal in *. bool_facts. done.
  - intros q r. destruct (decide (q = rr_QuarantineID record)) as [->|].
    + rewrite lookup_insert_eq. intros [= <-]. right. done.
    + rewrite lookup_insert_ne by done. by left.
  - intros y. apply I.
  - apply I.
  - unfold view, claim_of, is_reversed. cbn. rewrite !lookup_insert_eq, lookup_delete_eq.
    rewrite bool_decide_true by set_solver. done.
  - exists b. split; [done|]. by rewrite Es, lookup_insert_eq.
  - right; right. eexists _, _. split; [exact Hview|]. split; [reflexivity|]. split; [|done].
    eapply move_eq; [eapply (move_resolve _ record pe hash proof)|]; try done.
Qed.
End Calls.
End Refinement.
