(* ===== verification/SettlementRuns.v ===== *)
(** Runs of the settlement coordinator: every operation, the synthetic claims other
    components make in the shared registry, and restarts, from an empty coordinator.
    The theorems about the coordinator as a whole are here. *)
From S2P Require Import Prelude GoStd CrossChainTypes ChainTypes Payment SettlementDigest.
From S2P Require Import SettlementTypes SettlementStore Settlement SettlementMachine SettlementRefinement.
From S2P Require AllocationMode.

Section Runs.
Context `{Keccak, Sha256, Json, SnapshotCodec} {S T : Type}.
Context `{AllocationMode.ClaimStoreLaws T S, !Store T, !StoreLaws T}.
Abbreviation K := (Coordinator S T).
Implicit Types (k : K) (p : string).

(** * Restart *)

(** What the restoration of one snapshot leaves. *)
Record restored (s : durableSnapshot) k k' : Prop := {
  rd_plans : plans k' = <[pl_PaymentID (ds_Plan s) := ds_Plan s]> (plans k);
  rd_allocations : byAllocation k' =
    <[pl_AllocationID (ds_Plan s) := pl_PaymentID (ds_Plan s)]> (byAllocation k);
  rd_confirmation : confirmations k' =
    match ds_Confirmation s with
    | Some c => <[pl_PaymentID (ds_Plan s) := mkConfirmation c false]> (confirmations k)
    | None => confirmations k
    end;
  rd_reorgs : reorgs k' = reorgs k ++ ds_Reorgs s;
  rd_pending : pending k' =
    match ds_PendingReversal s with
    | Some x => <[pl_PaymentID (ds_Plan s) := x]> (pending k)
    | None => pending k
    end;
  rd_consumed : consumed k' =
    match ds_ConsumedPendingReversal s with
    | Some x => <[pl_PaymentID (ds_Plan s) := x]> (consumed k)
    | None => consumed k
    end;
  rd_resolutions : resolutions k' = resolutions k;
  rd_store : store k' = store k;
  rd_claims : AllocationMode.byPayment (modes k') =
    <[pl_PaymentID (ds_Plan s) := ds_Claim s]> (AllocationMode.byPayment (modes k));
  rd_reversed : AllocationMode.reversed (modes k') =
    (if ds_Tombstoned s then {[pl_PaymentID (ds_Plan s)]} else ∅) ∪ AllocationMode.reversed (modes k);
  rd_claim_store : AllocationMode.store (modes k') = AllocationMode.store (modes k) }.

Lemma Restore_Ok c tomb (r r' : AllocationMode.Registry S) u :
  AllocationMode.Restore c tomb r = (r', Ok u) →
  AllocationMode.byPayment r' = <[AllocationMode.PaymentID c := c]> (AllocationMode.byPayment r) ∧
  AllocationMode.reversed r' = (if tomb then {[AllocationMode.PaymentID c]} else ∅) ∪ AllocationMode.reversed r ∧
  AllocationMode.store r' = AllocationMode.store r.
Proof.
  unfold AllocationMode.Restore. destruct (_ || _); [done|].
  destruct (AllocationMode.byPayment r !! _) as [d|] eqn:Hd.
  - destruct (_ || _) eqn:Hg; [done|]. apply orb_false_iff in Hg as [Hg _].
    apply negb_false_iff in Hg. unfold AllocationMode.sameDurableClaim in Hg. apply bool_decide_eq_true in Hg.
    assert (AllocationMode.with_state (AllocationMode.State c) d = c) as Ed.
    { destruct c, d. cbn in *. by simplify_eq. }
    destruct tomb; intros [= <- <-]; cbn; rewrite Ed; split_and!; try done; set_solver.
  - destruct (match _ with Some _ => _ | None => _ end); [done|].
    destruct tomb; intros [= <- <-]; cbn; split_and!; try done; set_solver.
Qed.

Lemma restored_one record s m k u :
  validRecoveredSnapshot record s = true →
  AllocationMode.Restore (ds_Claim s) (ds_Tombstoned s) (modes k) = (m, Ok u) →
  restored s k (restored_plan s (set_shared m (store k) k)).
Proof.
  intros Hv (Eb & Er & Es)%Restore_Ok.
  assert (AllocationMode.PaymentID (ds_Claim s) = pl_PaymentID (ds_Plan s)) as Ep.
  { unfold validRecoveredSnapshot, recovered_envelope in Hv. bool_facts. done. }
  rewrite Ep in *. unfold restored_plan.
  split; destruct (ds_Confirmation s), (ds_PendingReversal s), (ds_ConsumedPendingReversal s); done.
Qed.

Lemma restore_records_cons record l k k' u :
  restore_records (record :: l) k = (k', Ok u) →
  ∃ s k1, decodeDurableSnapshot (sc_Snapshot record) = Ok s ∧
    validRecoveredSnapshot record s = true ∧ restored s k k1 ∧ restore_records l k1 = (k', Ok u).
Proof.
  cbn. destruct (decodeDurableSnapshot _) as [s|] eqn:Hd; [|done].
  destruct (validRecoveredSnapshot record s) eqn:Hv; cbn [negb]; [|done].
  destruct (AllocationMode.Restore _ _ _) as [m [u1|e]] eqn:Hr; [|done]. intros Hx.
  exists s. eexists. split; [done|]. split; [done|]. split; [by eapply restored_one|done].
Qed.


Lemma reorgs_of_appended p l l' : reorgs_of p (l ++ l') = reorgs_of p l ++ reorgs_of p l'.
Proof. apply filter_app. Qed.

(** The snapshots of the records, one per payment. *)
Record shelved (l : list StoredCoordinator) (m : gmap string durableSnapshot) : Prop := {
  sh_decoded r : r ∈ l → ∃ s, m !! sc_PaymentID r = Some s ∧ decodeDurableSnapshot (sc_Snapshot r) = Ok s;
  sh_unique : NoDup (sc_PaymentID <$> l);
  sh_key p s : m !! p = Some s → pl_PaymentID (ds_Plan s) = p;
  sh_reorgs p s : m !! p = Some s → ∀ q, reorgs_of q (ds_Reorgs s) = if decide (q = p) then ds_Reorgs s else [];
  sh_allocations p q s s' : m !! p = Some s → m !! q = Some s' →
    pl_AllocationID (ds_Plan s) = pl_AllocationID (ds_Plan s') → p = q }.

(** The part of a coordinator that restoration fills in, for one payment. *)
Record shows k p (s : durableSnapshot) : Prop := {
  sw_plan : plans k !! p = Some (ds_Plan s);
  sw_allocation a : byAllocation k !! a = Some p ↔ a = pl_AllocationID (ds_Plan s);
  sw_confirmation : confirmations k !! p = (λ c, mkConfirmation c false) <$> ds_Confirmation s;
  sw_reorgs : reorgs_of p (reorgs k) = ds_Reorgs s;
  sw_pending : pending k !! p = ds_PendingReversal s;
  sw_consumed : consumed k !! p = ds_ConsumedPendingReversal s;
  sw_claim : claim_of k p = Some (ds_Claim s);
  sw_reversed : is_reversed k p = ds_Tombstoned s }.

(** A payment the coordinator knows nothing about; the registry may hold a claim. *)
Record absent k p : Prop := {
  bk_plan : plans k !! p = None;
  bk_allocation a : byAllocation k !! a ≠ Some p;
  bk_confirmation : confirmations k !! p = None;
  bk_reorgs : reorgs_of p (reorgs k) = [];
  bk_pending : pending k !! p = None;
  bk_consumed : consumed k !! p = None }.
Record blank k p : Prop := { bk_absent : absent k p; bk_reversed : is_reversed k p = false }.

Lemma restored_shows s k k' (Hr : restored s k k') :
  (∀ q, reorgs_of q (ds_Reorgs s) = if decide (q = pl_PaymentID (ds_Plan s)) then ds_Reorgs s else []) →
  (blank k (pl_PaymentID (ds_Plan s)) → shows k' (pl_PaymentID (ds_Plan s)) s) ∧
  (∀ q, q ≠ pl_PaymentID (ds_Plan s) → blank k q → blank k' q) ∧
  (∀ q s', q ≠ pl_PaymentID (ds_Plan s) → pl_AllocationID (ds_Plan s') ≠ pl_AllocationID (ds_Plan s) →
     shows k q s' → shows k' q s').
Proof.
  intros Hre. set (p := pl_PaymentID (ds_Plan s)) in *.
  destruct Hr as [E1 E2 E3 E4 E5 E6 E7 E8 E9 E10 E11]. fold p in E1, E2, E3, E5, E6, E9, E10.
  split; [|split].
  - intros [[B1 B2 B3 B4 B5 B6] B7]. split.
    + by rewrite E1, lookup_insert_eq.
    + intros a. rewrite E2, lookup_insert_Some. split; [|by left].
      intros [[-> _]|[_ Hx]]; [done|by apply B2 in Hx].
    + rewrite E3. destruct (ds_Confirmation s); [by rewrite lookup_insert_eq|done].
    + rewrite E4, reorgs_of_appended, B4, Hre. by rewrite decide_True.
    + rewrite E5. destruct (ds_PendingReversal s); [by rewrite lookup_insert_eq|done].
    + rewrite E6. destruct (ds_ConsumedPendingReversal s); [by rewrite lookup_insert_eq|done].
    + unfold claim_of. by rewrite E9, lookup_insert_eq.
    + unfold is_reversed in *. apply bool_decide_eq_false in B7. rewrite E10.
      destruct (ds_Tombstoned s); [apply bool_decide_true|apply bool_decide_false]; set_solver.
  - intros q Hq [[B1 B2 B3 B4 B5 B6] B7]. split; [split|].
    + by rewrite E1, lookup_insert_ne.
    + intros a. rewrite E2, lookup_insert_Some. intros [[_ Hx]|[_ Hx]]; [congruence|by eapply B2].
    + rewrite E3. destruct (ds_Confirmation s); [by rewrite lookup_insert_ne|done].
    + rewrite E4, reorgs_of_appended, B4, Hre. by rewrite decide_False.
    + rewrite E5. destruct (ds_PendingReversal s); [by rewrite lookup_insert_ne|done].
    + rewrite E6. destruct (ds_ConsumedPendingReversal s); [by rewrite lookup_insert_ne|done].
    + unfold is_reversed in *. apply bool_decide_eq_false in B7. rewrite E10.
      destruct (ds_Tombstoned s); apply bool_decide_false; set_solver.
  - intros q s' Hq Ha [B1 B2 B3 B4 B5 B6 B7 B8]. split.
    + by rewrite E1, lookup_insert_ne.
    + intros a. rewrite E2, lookup_insert_Some, B2. split.
      * intros [[_ Hx]|[_ Hx]]; [congruence|done].
      * intros ->. right. split; [congruence|done].
    + rewrite E3. destruct (ds_Confirmation s); [by rewrite lookup_insert_ne|done].
    + rewrite E4, reorgs_of_appended, B4, Hre. rewrite decide_False by done. by rewrite app_nil_r.
    + rewrite E5. destruct (ds_PendingReversal s); [by rewrite lookup_insert_ne|done].
    + rewrite E6. destruct (ds_ConsumedPendingReversal s); [by rewrite lookup_insert_ne|done].
    + unfold claim_of. by rewrite E9, lookup_insert_ne.
    + rewrite <- B8. unfold is_reversed in *. rewrite E10. apply bool_decide_ext.
      destruct (ds_Tombstoned s); set_solver.
Qed.

Lemma restore_records_shows l m k k' u :
  shelved l m → restore_records l k = (k', Ok u) →
  (∀ r, r ∈ l → blank k (sc_PaymentID r)) →
  (∀ r s, r ∈ l → m !! sc_PaymentID r = Some s → shows k' (sc_PaymentID r) s) ∧
  (∀ q, q ∉ sc_PaymentID <$> l → blank k q → blank k' q) ∧
  (∀ q s, q ∉ sc_PaymentID <$> l → m !! q = Some s → shows k q s → shows k' q s) ∧
  store k' = store k ∧ resolutions k' = resolutions k ∧
  AllocationMode.store (modes k') = AllocationMode.store (modes k) ∧
  ∀ q, q ∉ sc_PaymentID <$> l → claim_of k' q = claim_of k q.
Proof.
  intros Hm. revert k. pose proof Hm as [D U Ky Re Al].
  clear Hm. induction l as [|r l IH]; intros k Hx Hb.
  { injection Hx as <- _. split_and!; try done. intros r s Hr. by apply elem_of_nil in Hr. }
  apply restore_records_cons in Hx as (s & k1 & Hd & _ & Hr & Hx).
  destruct (D r) as (s' & Hs & Hd'); [by left|]. rewrite Hd in Hd'. injection Hd' as <-.
  pose proof (Ky _ _ Hs) as Hk. destruct (restored_shows s k k1 Hr) as (R1 & R2 & R3).
  { intros q. rewrite Hk. by apply (Re (sc_PaymentID r)). }
  rewrite Hk in *. cbn in U. apply NoDup_cons in U as [Hnew U].
  destruct (IH) with (k := k1) as (A1 & A2 & A3 & A4 & A5 & A6 & A7); [|done|done| |].
  { intros x Hin. apply D. by right. }
  { intros x Hin. apply R2; [|by apply Hb; right]. intros Hxx. apply Hnew. rewrite <- Hxx.
    by apply list_elem_of_fmap_2. }
  split_and!.
  - intros x sx Hin Hsx. apply elem_of_cons in Hin as [->|Hin]; [|by apply A1].
    rewrite Hs in Hsx. injection Hsx as <-. apply A3; [done|done|]. apply R1, Hb. by left.
  - intros q Hq Bq. cbn in Hq. apply not_elem_of_cons in Hq as [Hq Hql]. apply A2; [done|]. by apply R2.
  - intros q sq Hq Hsq Sq. cbn in Hq. apply not_elem_of_cons in Hq as [Hq Hql]. apply A3; [done..|].
    apply R3; [done| |done]. intros Ea. apply Hq. by apply (Al q (sc_PaymentID r) sq s).
  - rewrite A4. apply Hr.
  - rewrite A5. apply Hr.
  - rewrite A6. apply Hr.
  - intros q Hq. cbn in Hq. apply not_elem_of_cons in Hq as [Hq Hql]. rewrite A7 by done.
    unfold claim_of. rewrite (rd_claims _ _ _ Hr), Hk. by rewrite lookup_insert_ne.
Qed.

(** The values of a table keyed by one of their fields, in key order. *)
Lemma sorted_values {A} (key : A → string) (m : gmap string A) :
  (∀ p r, m !! p = Some r → key r = p) →
  NoDup (key <$> sort_by key (map_to_list m).*2) ∧
  ∀ r, r ∈ sort_by key (map_to_list m).*2 ↔ m !! key r = Some r.
Proof.
  intros Hk. split.
  - rewrite sort_by_perm, <- list_fmap_compose.
    rewrite (list_fmap_ext _ fst (map_to_list m)) by
      (intros i [p r] Hi%list_elem_of_lookup_2%elem_of_map_to_list; by apply Hk).
    apply NoDup_fst_map_to_list.
  - intros r. rewrite sort_by_perm, list_elem_of_fmap. split.
    + intros ([p x] & -> & Hx%elem_of_map_to_list). cbn. by rewrite (Hk p x Hx).
    + intros Hr. exists (key r, r). split; [done|]. by apply elem_of_map_to_list.
Qed.

Lemma restore_tombstones_Ok l k k' u :
  restore_tombstones l k = (k', Ok u) →
  ∃ m, k' = set_shared m (store k) k ∧
    AllocationMode.byPayment m = AllocationMode.byPayment (modes k) ∧
    AllocationMode.store m = AllocationMode.store (modes k) ∧
    ∀ q, q ∈ AllocationMode.reversed m ↔ q ∈ ts_PaymentID <$> l ∨ q ∈ AllocationMode.reversed (modes k).
Proof.
  revert k. induction l as [|x l IH]; intros k; cbn.
  { intros [= <- _]. exists (modes k). destruct k. cbn. split_and!; try done. intros q. set_solver. }
  unfold AllocationMode.RestoreTombstone. destruct (empty_s _); [done|].
  intros (m & -> & Eb & Es & Er)%IH. exists m. split_and!; try done. intros q. rewrite Er. cbn. set_solver.
Qed.

Lemma restore_resolutions_Ok l k k' u :
  restore_resolutions l k = (k', Ok u) →
  let key r := pn_QuarantineID (pr_Pending (sv_Resolution r)) in
  NoDup (key <$> l) →
  ∃ m, k' = set_resolutions (λ _, m) k ∧ (∀ r, r ∈ l → m !! key r = Some r) ∧
    ∀ q, q ∉ key <$> l → m !! q = resolutions k !! q.
Proof.
  revert k. induction l as [|x l IH]; intros k; cbn.
  { intros [= <- _] _. exists (resolutions k). destruct k. cbn. split_and!; try done. intros r Hr.
    by apply elem_of_nil in Hr. }
  destruct (negb _); [done|]. destruct (match plans k !! _ with Some _ => _ | None => _ end); [done|].
  destruct (has_key _ _); [done|]. intros Hx Hnd. apply NoDup_cons in Hnd as [Hn Hnd].
  destruct (IH _ Hx Hnd) as (m & -> & Hin & Hout). exists m. split; [done|]. split.
  - intros r Hr. apply elem_of_cons in Hr as [->|Hr]; [|by apply Hin].
    rewrite Hout by done. cbn. by rewrite lookup_insert_eq.
  - intros q Hq. apply not_elem_of_cons in Hq as [Hq Hql]. rewrite Hout by done. cbn.
    by rewrite lookup_insert_ne.
Qed.

Lemma New_fresh (s : S) (r : AllocationMode.Registry S) :
  AllocationMode.New (W := T) (Some s) = Ok r →
  AllocationMode.store r = s ∧ AllocationMode.reversed r = ∅.
Proof.
  unfold AllocationMode.New. destruct (AllocationMode.LoadClaims s) as [l|]; [|done]. cbn.
  assert (∀ r0 : AllocationMode.Registry S, AllocationMode.load_loop l r0 = Ok r →
    AllocationMode.store r = AllocationMode.store r0 ∧
    AllocationMode.reversed r = AllocationMode.reversed r0) as Hl.
  { induction l as [|c l IH]; intros r0; cbn; [by intros <-%Ok_inj|].
    destruct (negb _); [done|]. destruct (has_key _ _); [done|]. destruct (has_key _ _); [done|].
    intros Hx. by apply IH in Hx. }
  apply Hl.
Qed.

(** The machine states of a coordinator, as a table. *)
Definition views k : gmap string durableSnapshot := map_imap (λ p _, view k p) (plans k).

Lemma views_lookup k p : views k !! p = view k p.
Proof. unfold views. rewrite map_lookup_imap. unfold view. by destruct (plans k !! p). Qed.

Lemma view_Some k p s : Inv k → view k p = Some s →
  pl_PaymentID (ds_Plan s) = p ∧ plans k !! p = Some (ds_Plan s) ∧ ds_Reorgs s = reorgs_of p (reorgs k).
Proof.
  intros I. unfold view. destruct (plans k !! p) as [plan|] eqn:Hp; [|done].
  destruct (claim_of k p); [|done]. intros [= <-]. pose proof (inv_key k I p plan Hp) as Hk.
  split_and!; try done. cbn. by rewrite Hk.
Qed.

Lemma stored_shelved k :
  Inv k → (∀ p s, view k p = Some s → faithful s) →
  shelved (sort_by sc_PaymentID (map_to_list (stored (store k))).*2) (views k).
Proof.
  intros I F. destruct (sorted_values sc_PaymentID (stored (store k))) as [Hnd Hin].
  { intros p r. apply stored_key, I. }
  split.
  - intros r Hr%Hin. pose proof (inv_mirror k I (sc_PaymentID r)) as M. rewrite Hr in M.
    rewrite views_lookup. destruct (view k (sc_PaymentID r)) as [s|] eqn:Hv; [|done].
    destruct M as (b & Hb & [= Er]). exists s. split; [done|]. rewrite Er. cbn.
    destruct (F _ _ Hv b Hb) as [Hne Hu]. unfold decodeDurableSnapshot.
    assert (empty_s b = false) as -> by (by apply String.eqb_neq). by rewrite Hu.
  - done.
  - intros p s. rewrite views_lookup. by intros (? & _ & _)%view_Some.
  - intros p s. rewrite views_lookup. intros (_ & _ & ->)%view_Some q; [|done].
    unfold reorgs_of. rewrite list_filter_filter. destruct (decide (q = p)) as [->|Hne].
    + apply list_filter_iff. intros x. tauto.
    + induction (reorgs k) as [|x l IH]; [done|]. rewrite filter_cons_False; [done|].
      intros [E1 E2]. congruence.
  - intros p q s s'. rewrite !views_lookup. intros (_ & Hp1 & _)%view_Some; [|done].
    intros (_ & Hp2 & _)%view_Some; [|done]. intros E.
    assert (byAllocation k !! pl_AllocationID (ds_Plan s) = Some p) as A1 by (apply I; eauto).
    assert (byAllocation k !! pl_AllocationID (ds_Plan s) = Some q) as A2 by (apply I; rewrite E; eauto).
    congruence.
Qed.

(** After the records: every payment on file is shown, every other is blank. *)
Lemma records_restored k m k' u :
  Inv k → (∀ p s, view k p = Some s → faithful s) → AllocationMode.reversed m = ∅ →
  restore_records (sort_by sc_PaymentID (map_to_list (stored (store k))).*2)
    (mkCoordinator m (store k) ∅ ∅ ∅ [] ∅ ∅ ∅) = (k', Ok u) →
  (∀ p s, view k p = Some s → shows k' p s) ∧ (∀ p, view k p = None → blank k' p) ∧
  store k' = store k ∧ resolutions k' = ∅ ∧
  AllocationMode.store (modes k') = AllocationMode.store m ∧
  ∀ p, view k p = None → claim_of k' p = AllocationMode.byPayment m !! p.
Proof.
  intros I F Hm Hx. set (k0 := mkCoordinator _ _ _ _ _ _ _ _ _) in Hx.
  assert (∀ p, blank k0 p) as Hb.
  { intros p. split; [by split|]. unfold is_reversed. cbn. rewrite Hm.
    by apply bool_decide_false, not_elem_of_empty. }
  destruct (restore_records_shows _ (views k) k0 k' u (stored_shelved k I F) Hx) as (A1 & A2 & _ & A4 & A5 & A6 & A7).
  { intros r _. apply Hb. }
  destruct (sorted_values sc_PaymentID (stored (store k))) as [Hnd Hin].
  { intros p r. apply stored_key, I. }
  assert (∀ p, view k p = None → p ∉ sc_PaymentID <$> sort_by sc_PaymentID (map_to_list (stored (store k))).*2)
    as Hout.
  { intros p Hv (r & -> & Hr%Hin)%list_elem_of_fmap.
    pose proof (inv_mirror k I (sc_PaymentID r)) as M. rewrite Hv in M. cbn in M. by rewrite M in Hr. }
  split_and!; try done.
  - intros p s Hs. pose proof (inv_mirror k I p) as M. rewrite Hs in M. destruct M as (b & _ & M).
    destruct (view_Some k p s I Hs) as (Hk & _).
    specialize (A1 (record_of s b) s). cbn in A1. rewrite Hk, views_lookup, Hin in A1. cbn in A1.
    rewrite Hk in A1. by apply A1.
  - intros p Hv. apply A2; [by apply Hout|done].
  - intros p Hv. rewrite A7 by (by apply Hout). done.
Qed.

Lemma shows_view k p s :
  shows k p s → pl_PaymentID (ds_Plan s) = p → view k p = Some s.
Proof.
  intros [W1 W2 W3 W4 W5 W6 W7 W8] Hk. unfold view. rewrite W1, W7. f_equal. unfold snapshot_of.
  rewrite Hk, W3, W5, W6, W8. change (filter _ (reorgs k)) with (reorgs_of p (reorgs k)). rewrite W4.
  destruct s as [pl cf rg cl tb pe cn]. cbn. by destruct cf.
Qed.

(** A coordinator that shows what another one shows. *)
Lemma shown_inv k k' :
  Inv k → (∀ q s, view k q = Some s → shows k' q s) → (∀ q, view k q = None → absent k' q) →
  (∀ q, q ∈ AllocationMode.reversed (modes k') ↔ q ∈ AllocationMode.reversed (modes k)) →
  store k' = store k → resolutions k' = resolutions k →
  AllocationMode.store (modes k') = AllocationMode.store (modes k) →
  Inv k' ∧ ∀ p, view k' p = view k p.
Proof.
  intros I Sh Bl Rv Es Er Ec.
  assert (∀ q, view k' q = view k q) as V.
  { intros q. destruct (view k q) as [s|] eqn:Hv.
    - apply shows_view; [by apply Sh|]. by apply (view_Some k).
    - unfold view. by rewrite (bk_plan _ _ (Bl q Hv)). }
  assert (∀ q, plans k !! q = None → view k q = None) as N by (intros q Hp; unfold view; by rewrite Hp).
  assert (∀ q, plans k' !! q = plans k !! q) as P.
  { intros q. destruct (plans k !! q) as [pl|] eqn:Hp.
    - destruct (inv_view k q pl I Hp) as (c & _ & Hv & _). by rewrite (sw_plan _ _ _ (Sh q _ Hv)).
    - apply (Bl q (N q Hp)). }
  split; [|done]. split.
  - unfold claims_ok. rewrite Ec. apply I.
  - rewrite Es. apply I.
  - intros q pl. rewrite P. apply I.
  - intros q. rewrite P. intros [pl Hp]. destruct (inv_view k q pl I Hp) as (c & _ & Hv & _).
    rewrite (sw_claim _ _ _ (Sh q _ Hv)). by eexists.
  - intros q s. rewrite V. apply I.
  - intros q. rewrite V, Es. apply I.
  - intros q. rewrite P. intros Hp. by destruct (Bl q (N q Hp)).
  - intros a q. rewrite P. destruct (plans k !! q) as [pl|] eqn:Hp.
    + destruct (inv_view k q pl I Hp) as (c & _ & Hv & _). rewrite (sw_allocation _ _ _ (Sh q _ Hv)).
      cbn. split; [intros ->; by exists pl|]. by intros (x & [= <-] & ->).
    + split; [intros Ha; by apply (bk_allocation _ _ (Bl q (N q Hp))) in Ha|by intros (x & [=] & _)].
  - intros q. rewrite Es, Rv. apply I.
  - rewrite Es, Er. apply I.
  - intros q r. rewrite Er, V. apply I.
  - intros q c Hc. destruct (view k q) as [s|] eqn:Hv.
    + rewrite (sw_confirmation _ _ _ (Sh q s Hv)) in Hc. destruct (ds_Confirmation s); [|done].
      by injection Hc as <-.
    + by rewrite (bk_confirmation _ _ (Bl q Hv)) in Hc.
Qed.

Lemma view_tombstoned k q s : view k q = Some s → ds_Tombstoned s = is_reversed k q.
Proof.
  unfold view. destruct (plans k !! q); [|done]. destruct (claim_of k q); [|done]. by intros [= <-].
Qed.

(** Restoration shows every machine where it was. *)
Lemma restarted k m k' u :
  Inv k → (∀ p s, view k p = Some s → faithful s) →
  AllocationMode.New (W := T) (Some (AllocationMode.store (modes k))) = Ok m →
  NewWithStore m (store k) = (k', Ok u) →
  Inv k' ∧ (∀ p, view k' p = view k p) ∧ resolutions k' = resolutions k ∧ store k' = store k ∧
  AllocationMode.store (modes k') = AllocationMode.store (modes k) ∧
  ∀ p, claim_of k' p = match view k p with Some _ => claim_of k p | None => AllocationMode.byPayment m !! p end.
Proof.
  intros I F Hn%New_fresh. destruct Hn as [Hst Hrev]. unfold NewWithStore.
  destruct (load_law (store k) (inv_store k I)) as (-> & -> & ->).
  destruct (restore_records _ _) as [k1 [u1|]] eqn:Hx1; [|done].
  destruct (restore_tombstones _ k1) as [k2 [u2|]] eqn:Hx2; [|done]. intros Hx3.
  destruct (records_restored k m k1 u1 I F Hrev Hx1) as (Sh & Bl & E1 & E2 & E3 & E4).
  apply restore_tombstones_Ok in Hx2 as (m2 & -> & Eb & Es & Er). rewrite E1 in *.
  destruct (sorted_values (λ r, pn_QuarantineID (pr_Pending (sv_Resolution r))) (resolved (store k))) as [Hnd Hin].
  { intros q r Hr. by apply (resolved_key _ _ _ (inv_store k I)). }
  apply restore_resolutions_Ok in Hx3 as (mr & -> & Hr1 & Hr2); [|done]. cbn [resolutions set_shared] in Hr2.
  rewrite E2 in Hr2.
  assert (mr = resolutions k) as ->.
  { rewrite <- (inv_resolved k I). apply map_eq. intros q. destruct (resolved (store k) !! q) as [r|] eqn:Hq.
    - destruct (resolved_key _ _ _ (inv_store k I) Hq) as [<- _]. apply Hr1, Hin. done.
    - rewrite Hr2; [done|]. intros (r & -> & Hr%Hin)%list_elem_of_fmap. by rewrite Hr in Hq. }
  destruct (sorted_values ts_PaymentID (tombs (store k))) as [_ Htin].
  { intros q r Hr. by apply (tombs_key _ _ _ (inv_store k I)). }
  assert (∀ q, q ∈ AllocationMode.reversed m2 ↔ q ∈ AllocationMode.reversed (modes k)) as Hrv.
  { intros q. rewrite Er, <- (inv_tombs k I). split.
    - intros [(r & -> & Hr%Htin)%list_elem_of_fmap|Hq]; [by eexists|]. apply (inv_tombs k I).
      assert (is_reversed k1 q = true) as Hq' by (by apply bool_decide_true).
      destruct (view k q) as [s|] eqn:Hv; [|by rewrite (bk_reversed _ _ (Bl q Hv)) in Hq'].
      rewrite (sw_reversed _ _ _ (Sh q s Hv)), (view_tombstoned k q s Hv) in Hq'.
      by apply bool_decide_eq_true in Hq'.
    - intros [r Hr]. left. apply list_elem_of_fmap. exists r.
      destruct (tombs_key _ _ _ (inv_store k I) Hr) as [E _]. split; [done|]. apply Htin. by rewrite E. }
  destruct (shown_inv k (set_resolutions (λ _, resolutions k) (set_shared m2 (store k) k1)) I)
    as [I' V]; try done.
  - intros q s Hv. destruct (Sh q s Hv) as [W1 W2 W3 W4 W5 W6 W7 W8]. split; try done.
    + unfold claim_of. cbn. by rewrite Eb.
    + rewrite (view_tombstoned k q s Hv). apply bool_decide_ext, Hrv.
  - intros q Hv. by destruct (Bl q Hv) as [[]].
  - cbn. by rewrite Es, E3, Hst.
  - split_and!; try done; [cbn; by rewrite Es, E3, Hst|]. intros p. unfold claim_of at 1. cbn. rewrite Eb.
    change (claim_of k1 p = match view k p with Some _ => claim_of k p | None => AllocationMode.byPayment m !! p end).
    destruct (view k p) as [s|] eqn:Hv; [|by apply E4]. rewrite (sw_claim _ _ _ (Sh p s Hv)). revert Hv.
    unfold view. destruct (plans k !! p); [|done]. destruct (claim_of k p); [|done]. by intros [= <-].
Qed.

(** * Runs *)

(** A synthetic claim that another component makes in the shared registry. *)
Definition foreign_claim (p a digest : string) (version : Z) (evidence : string) (at_ : Time.t) k : K :=
  set_shared (AllocationMode.ClaimMode (W := T) p a AllocationMode.ModeSyntheticProjection digest version
                evidence at_ (modes k)).1 (store k) k.

(** One call, with whether it succeeded. A restart drops the coordinator and the
    registry and builds both again from the two stores. *)
Inductive call k : bool → K → Prop :=
| call_prepare request : call k (is_ok (Prepare request k).2) (Prepare request k).1
| call_submit request : call k (is_ok (Submit request k).2) (Submit request k).1
| call_confirm request : call k (is_ok (Confirm request k).2) (Confirm request k).1
| call_fail request : call k (is_ok (Fail_ request k).2) (Fail_ request k).1
| call_retry request : call k (is_ok (Retry request k).2) (Retry request k).1
| call_reorg version request :
    call k (is_ok (RecordReorg version request k).2) (RecordReorg version request k).1
| call_plan p : call k true (Plan_ p k).1
| call_handle (W : Type) record (commit : W → W * result error ()) w :
    call k (is_ok (settlement_Handle record commit k w).2) (settlement_Handle record commit k w).1.1
| call_resolve (W : Type) record (fallback : W → W * result error (list string)) w :
    call k (is_ok (settlement_Resolve record fallback k w).2)
      (settlement_Resolve record fallback k w).1.1
| call_foreign p a digest version evidence at_ :
    call k false (foreign_claim p a digest version evidence at_ k)
| call_restart m k' :
    (∀ p s, view k p = Some s → faithful s) →
    AllocationMode.New (W := T) (Some (AllocationMode.store (modes k))) = Ok m →
    NewWithStore m (store k) = (k', Ok tt) → call k false k'.

Definition next k k' : Prop := ∃ ok, call k ok k'.

(** A coordinator on an empty store. *)
Record initial k : Prop := {
  in_claims : AllocationMode.linked (W := T) (modes k);
  in_store : store_ok (store k);
  in_empty : stored (store k) = ∅ ∧ tombs (store k) = ∅ ∧ resolved (store k) = ∅;
  in_fresh : AllocationMode.reversed (modes k) = ∅ ∧ k = mkCoordinator (modes k) (store k) ∅ ∅ ∅ [] ∅ ∅ ∅ }.

Definition reachable k : Prop := ∃ k0, initial k0 ∧ rtc next k0 k.

Lemma coordinator_initial_inv k : initial k → Inv k.
Proof.
  intros [[C _] O (E1 & E2 & E3) [R ->]]. cbn in *. split; try done; cbn.
  - intros p. rewrite lookup_empty. by intros [? [=]].
  - intros p. unfold view. cbn. by rewrite E1.
  - intros a p. rewrite lookup_empty. split; [done|]. by intros (x & Hx & _).
  - intros p. rewrite E2, R, lookup_empty. split; [by intros [? [=]]|set_solver].
Qed.

Lemma foreign_same p a digest v e at_ k : Inv k → same k (foreign_claim p a digest v e at_ k).
Proof.
  intros I. unfold foreign_claim, AllocationMode.ClaimMode.
  assert (same k (set_shared (modes k) (store k) k)) as Hk by (apply same_shared; try done; apply I).
  destruct (_ || _); [done|]. case_bool_decide; [done|].
  destruct (AllocationMode.byPayment (modes k) !! p) as [c|] eqn:Hc; [by destruct (_ && _)|].
  destruct (match _ with Some _ => _ | None => _ end); [done|].
  destruct (AllocationMode.ClaimSynthetic _ _) as [s' [b|err]] eqn:Hx; cbn.
  - split; try done; [|intros Hok|apply I].
    + intros q Hq. unfold claim_of. cbn. destruct (decide (q = p)) as [->|]; [|by rewrite lookup_insert_ne].
      destruct (inv_claim k I p Hq) as [x Hx']. unfold claim_of in Hx'. by rewrite Hc in Hx'.
    + apply AllocationMode.synthetic_Ok in Hx as [Hs _]; [done|apply I].
  - split; try done; [intros Hok|apply I].
    apply AllocationMode.synthetic_Err in Hx as [Hs _]; [done|apply I].
Qed.

Lemma call_simulated k ok k' : Inv k → call k ok k' → simulated k ok k'.
Proof.
  intros I [].
  - by apply Prepare_simulated.
  - by apply Submit_simulated.
  - by apply Confirm_simulated.
  - by apply Fail_simulated.
  - by apply Retry_simulated.
  - by apply RecordReorg_simulated.
  - rewrite Plan_reads by done. apply same_simulated; [done|]. apply same_refl, I.
  - by apply Handle_simulated.
  - by apply Resolve_simulated.
  - apply same_simulated; [done|]. by apply foreign_same.
  - match goal with N : NewWithStore _ _ = _ |- _ => eapply restarted in N as (I' & V & _) end; done.
Qed.

Lemma run_inv k k' : Inv k → rtc next k k' → Inv k'.
Proof.
  intros I R. induction R as [|x y z [ok X] R IH]; [done|]. apply IH. by apply (call_simulated x ok y).
Qed.

Lemma coordinator_inv k : reachable k → Inv k.
Proof. intros (k0 & I%coordinator_initial_inv & R). by apply (run_inv k0). Qed.

(** ** The registry stays linked to the claim store and keeps its tombstones *)

(** A registry that is linked to its store and has tombstoned at least the payments
    in [X]. *)
Definition marked_registry (X : gset string) (r : AllocationMode.Registry S) : Prop :=
  AllocationMode.linked (W := T) r ∧ X ⊆ AllocationMode.reversed r.
Abbreviation marked X k := (marked_registry X (modes k)).

Lemma quiet_marked X may (r r' : AllocationMode.Registry S) :
  AllocationMode.quiet may r r' → marked_registry X r → marked_registry X r'.
Proof.
  intros Hq [L Hx]. split; [by eapply AllocationMode.quiet_linked|].
  pose proof (AllocationMode.effect_tombstones _ _ _ (AllocationMode.quiet_effect _ _ _ Hq)). set_solver.
Qed.

Lemma live_step_marked X (r r' : AllocationMode.Registry S) :
  AllocationMode.live_step (W := T) r r' → marked_registry X r → marked_registry X r'.
Proof.
  intros Hs [L Hx]. split; [by eapply AllocationMode.live_step_linked|].
  pose proof (AllocationMode.effect_tombstones _ _ _ (AllocationMode.live_step_effect _ _ Hs)). set_solver.
Qed.

Lemma transition_marked X k plan nx st x y e at_ : marked X k → marked X (transition k plan nx st x y e at_).1.
Proof.
  intros L. unfold transition.
  match goal with |- context [AllocationMode.TransitionWithCommit ?p ?a ?d ?x ?y ?f ?r ?w] =>
    pose proof (AllocationMode.TransitionWithCommit_quiet p a d x y f r w) as Q end.
  destruct (AllocationMode.TransitionWithCommit _ _ _ _ _ _ _ _) as [[m t] r].
  cbn in *. by eapply quiet_marked.
Qed.

(** Runs through the branches of an operation whose only call into the registry is a
    transition. *)
Ltac transition_branches :=
  repeat first
    [ done
    | match goal with |- context [transition ?k ?plan ?nx ?st ?x ?y ?e ?a] =>
        pose proof (λ X, transition_marked X k plan nx st x y e a);
        destruct (transition k plan nx st x y e a) as [? [?|?]]; cbn in *; solve [auto] end
    | match goal with
      | |- context [match ?b with _ => _ end] =>
          lazymatch b with context [match _ with _ => _ end] => fail | _ => destruct b end
      end; cbn ].

Lemma Submit_marked X request k : marked X k → marked X (Submit request k).1.
Proof. intros L. unfold Submit. transition_branches. Qed.
Lemma Fail_marked X request k : marked X k → marked X (Fail_ request k).1.
Proof. intros L. unfold Fail_. cbv zeta. transition_branches. Qed.
Lemma Retry_marked X request k : marked X k → marked X (Retry request k).1.
Proof. intros L. unfold Retry. transition_branches. Qed.

Lemma Confirm_marked X request k : marked X k → marked X (Confirm request k).1.
Proof.
  intros L. assert (∀ plan claim event proof to final (incident : bool),
    marked X (confirm_commit k plan claim event proof to final incident).1) as Hc.
  { intros plan claim event proof to final incident. unfold confirm_commit. cbv zeta.
    match goal with |- context [transition ?k ?plan ?nx ?st ?x ?y ?e ?a] =>
      pose proof (transition_marked X k plan nx st x y e a) as Y;
      destruct (transition k plan nx st x y e a) as [k1 [u|err]] end;
      destruct incident; (specialize (Y L)); cbn in *; [done..| |]; by destruct (pending k !! _). }
  unfold Confirm. repeat (destruct (_ || _); [done|]). destruct (cq_Projection request) as [settlement fp].
  destruct (named_plan _ _ _ _); [|done].
  destruct (confirmations k !! _); [by destruct (sameGatewayEvent _ _)|].
  destruct (negb _); [done|]. destruct (AllocationMode.Lookup _ _) as [c|]; [|done].
  destruct (_ || _); [done|]. destruct (confirm_target c) as [[[a b] i]|]; [apply Hc|done].
Qed.

Lemma reorg_finish_marked {A} X evidence nx (x : K * result error A) :
  marked X x.1 → marked X (reorg_finish evidence nx x).1.
Proof. by destruct x as [k [u|err]]. Qed.

Lemma RecordReorg_marked X v request k : marked X k → marked X (RecordReorg v request k).1.
Proof.
  intros L. unfold RecordReorg. destruct (negb _); [done|]. destruct (named_plan _ _ _ _) as [plan|]; [|done].
  destruct (_ || _); [done|]. destruct (known_reorg _ _); [by destruct (_ =s _)|].
  destruct (negb _); [done|]. destruct (AllocationMode.Lookup _ _) as [c|]; [|done].
  set (k1 := set_reorgs _ k). assert (marked X k1) as L1 by done. clearbody k1.
  assert (∀ st nx e a, marked X (swap k1 st plan nx c e a).1) as Hs.
  { intros st nx e a. unfold swap. by destruct (compareAndSwapDurable _ _ _ _ _ _ _ _). }
  unfold reorg_commit. destruct ((_ =s _) || (_ =s _)).
  - destruct (negb _); [done|].
    destruct (AllocationMode.State c =s AllocationMode.CanonicalQuarantined); apply reorg_finish_marked;
      [apply Hs|by apply transition_marked].
  - destruct ((_ =s _) || (_ =s _)); [|done]. destruct (match confirmations k1 !! _ with Some _ => _ | None => _ end); [done|].
    cbv zeta. destruct (AllocationMode.State c =s AllocationMode.CanonicalConfirmed).
    { apply reorg_finish_marked. by apply transition_marked. }
    destruct (AllocationMode.State c <>s AllocationMode.CanonicalIncident); [done|].
    by apply reorg_finish_marked.
Qed.

Lemma Prepare_marked X request k : marked X k → marked X (Prepare request k).1.
Proof.
  intros L. unfold Prepare. destruct (_ || _); [done|]. destruct (CalculateInstructionDigest _) as [d|]; [|done].
  cbv zeta. destruct (plans k !! _); [done|].
  destruct (match byAllocation k !! _ with Some _ => _ | None => _ end); [done|].
  set (plan := plan_of _ _ _ _ _ _). clearbody plan.
  assert (marked X (create_claim k request d plan).1) as Lc.
  { unfold create_claim.
    match goal with |- context [AllocationMode.ClaimModeWithCommit ?p ?a ?m ?d ?v ?e ?t ?f ?r ?w] =>
      pose proof (live_step_marked X r _ (AllocationMode.step_claim_commit p a m d v e t f r w) L) as Q end.
    by destruct (AllocationMode.ClaimModeWithCommit _ _ _ _ _ _ _ _ _ _) as [[m t] r]. }
  destruct (create_claim k request d plan) as [k1 [c|e]]; [|done]. cbn in *. by destruct (negb _).
Qed.

Lemma Handle_marked {W} X record (commit : W → W * result error ()) k w :
  marked X k → marked X (settlement_Handle record commit k w).1.1.
Proof.
  intros L. unfold settlement_Handle. destruct (negb _); [done|].
  destruct (match plans k !! _ with Some _ => _ | None => _ end); [done|].
  match goal with |- context [AllocationMode.HandleReversalWithCommit ?p ?f ?r ?w] =>
    pose proof (AllocationMode.HandleReversal_quiet p f r w) as Q end.
  destruct (AllocationMode.HandleReversalWithCommit _ _ _ _) as [[m [[[x t] a] b]] [[c d] [e|]]]; cbn in *.
  - by eapply quiet_marked.
  - destruct a, b; by eapply quiet_marked.
Qed.

Lemma Resolve_marked {W} X record (fallback : W → W * result error (list string)) k w :
  marked X k → marked X (settlement_Resolve record fallback k w).1.1.
Proof.
  intros L. unfold settlement_Resolve. destruct (negb _); [done|].
  destruct (resolutions k !! _); [by destruct (negb _)|].
  destruct (plans k !! _) as [plan|]; [|done]. destruct (pending k !! _) as [pe|]; [|done].
  destruct (_ || _); [done|]. destruct (AllocationMode.Lookup _ _) as [c|]; [|done].
  destruct (_ || _); [done|]. destruct (validateReversalFailureProof _ _ _) as [[h f]|]; [|done].
  unfold resolve_commit. cbv zeta. destruct (durableRecordWith _ _ _ _ _) as [nr|]; [|done].
  match goal with |- context [AllocationMode.ResolveQuarantinedReversal ?c ?f ?r ?w] =>
    pose proof (AllocationMode.Resolve_quiet c f r w) as Q end.
  destruct (AllocationMode.ResolveQuarantinedReversal _ _ _ _) as [[m [[x t] ids]] [u|e]]; cbn in *;
    by eapply quiet_marked.
Qed.

Lemma call_marked X k ok k' : Inv k → marked X k → call k ok k' → marked X k'.
Proof.
  intros I L [].
  - by apply Prepare_marked.
  - by apply Submit_marked.
  - by apply Confirm_marked.
  - by apply Fail_marked.
  - by apply Retry_marked.
  - by apply RecordReorg_marked.
  - by rewrite Plan_reads.
  - by apply Handle_marked.
  - by apply Resolve_marked.
  - unfold foreign_claim. cbn. eapply live_step_marked; [|done]. constructor.
  - match goal with N : NewWithStore _ _ = _ |- _ =>
      eapply restarted in N as (I' & V & _ & Et & Es & Hc); [|done..] end.
    destruct L as [[Lo Ll] Hx]. split; [split; [by rewrite Es|]|].
    + intros p. rewrite Es, <- Ll.
      specialize (Hc p). unfold claim_of in Hc. rewrite Hc. destruct (view k p); [done|].
      destruct (AllocationMode.New_linked _ Lo) as (m' & Hm' & _ & Hb).
      match goal with N : AllocationMode.New _ = Ok m |- _ => rewrite N in Hm' end.
      injection Hm' as <-. by rewrite Hb, Ll.
    + intros p Hp. rewrite <- (inv_tombs _ I'), Et, (inv_tombs k I). by apply Hx.
Qed.

Lemma run_marked X k k' : Inv k → marked X k → rtc next k k' → marked X k'.
Proof.
  intros I L R. induction R as [|x y z [ok C] R IH]; [done|]. apply IH; [by apply (call_simulated x ok y)|].
  by eapply call_marked.
Qed.

Lemma reachable_linked k : reachable k → AllocationMode.linked (W := T) (modes k).
Proof.
  intros (k0 & J & R). apply (run_marked ∅ k0 k); [by apply coordinator_initial_inv| |done].
  split; [apply J|set_solver].
Qed.

(** ** Restart succeeds *)

Lemma Restore_succeeds c tomb d (r : AllocationMode.Registry S) :
  AllocationMode.byPayment r !! AllocationMode.PaymentID c = Some d →
  AllocationMode.identity d = AllocationMode.identity c → AllocationMode.validDurableClaim d = true →
  AllocationMode.Mode c = AllocationMode.ModeCanonicalGateway →
  AllocationMode.validCanonicalState (AllocationMode.State c) = true →
  AllocationMode.PaymentID c ∉ AllocationMode.reversed r →
  (AllocationMode.Restore c tomb r).2 = Ok tt.
Proof.
  intros Hd Hi Hv Hm Hs Hr. unfold AllocationMode.Restore.
  unfold AllocationMode.validDurableClaim in Hv. destruct (_ || _) eqn:Hg in Hv; [done|]. bool_facts.
  pose proof (f_equal AllocationMode.PaymentID Hi) as E1. pose proof (f_equal AllocationMode.AllocationID Hi) as E2.
  pose proof (f_equal AllocationMode.Digest Hi) as E3. cbn in E1, E2, E3.
  assert (AllocationMode.sameDurableClaim d c = true) as Hsame.
  { unfold AllocationMode.sameDurableClaim. apply bool_decide_true. destruct c, d. cbn in *. by simplify_eq. }
  rewrite Hd, Hsame, (bool_decide_false _ Hr), Hm, Hs. rewrite <- E1, <- E2, <- E3.
  rewrite !(proj2 (String.eqb_neq _ _)) by done. done.
Qed.

(** A claim as the claim store has it, which [Restore] accepts for a snapshot. *)
Definition restorable k p (s : durableSnapshot) : Prop :=
  is_reversed k p = false ∧
  ∃ d, claim_of k p = Some d ∧ AllocationMode.identity d = AllocationMode.identity (ds_Claim s) ∧
    AllocationMode.validDurableClaim d = true.

Lemma restore_records_succeeds l m k :
  shelved l m →
  (∀ r s, r ∈ l → m !! sc_PaymentID r = Some s →
     validRecoveredSnapshot r s = true ∧
     AllocationMode.validCanonicalState (AllocationMode.State (ds_Claim s)) = true ∧
     restorable k (sc_PaymentID r) s) →
  ∃ k', restore_records l k = (k', Ok tt).
Proof.
  intros [D U Ky _ _]. revert k. induction l as [|r l IH]; intros k Hall; [by exists k|].
  destruct (D r) as (s & Hs & Hd); [by left|]. cbn. rewrite Hd.
  destruct (Hall r s) as (Hv & Hst & Hrev & d & Hc & Hi & Hdv); [by left|done|]. rewrite Hv. cbn [negb].
  pose proof (Ky _ _ Hs) as Hk. cbn in U. apply NoDup_cons in U as [Hnew U].
  assert (AllocationMode.PaymentID (ds_Claim s) = sc_PaymentID r ∧
    AllocationMode.Mode (ds_Claim s) = AllocationMode.ModeCanonicalGateway) as [Ep Em].
  { rewrite <- Hk. unfold validRecoveredSnapshot, recovered_envelope in Hv. bool_facts. done. }
  pose proof (Restore_succeeds (ds_Claim s) (ds_Tombstoned s) d (modes k)) as Hok. rewrite Ep in Hok.
  unfold is_reversed in Hrev. apply bool_decide_eq_false in Hrev.
  specialize (Hok Hc Hi Hdv Em Hst Hrev).
  destruct (AllocationMode.Restore _ _ _) as [m1 r1] eqn:Hr. cbn in Hok. subst r1.
  pose proof (restored_one r s m1 k tt Hv Hr) as Hone. apply IH; [|done|].
  { intros x Hx. apply D. by right. }
  intros x sx Hx Hsx. destruct (Hall x sx) as (Hvx & Hstx & Hrx & dx & Hcx & Hix & Hdx); [by right|done|].
  split_and!; try done. assert (sc_PaymentID x ≠ sc_PaymentID r) as Hne.
  { intros E. apply Hnew. rewrite <- E. by apply list_elem_of_fmap_2. }
  split.
  - unfold is_reversed in *. rewrite (rd_reversed _ _ _ Hone), Hk.
    apply bool_decide_eq_false in Hrx. apply bool_decide_false. destruct (ds_Tombstoned s); set_solver.
  - exists dx. split; [|done]. unfold claim_of. rewrite (rd_claims _ _ _ Hone), Hk.
    by rewrite lookup_insert_ne.
Qed.

Lemma restore_tombstones_succeeds l k :
  (∀ x, x ∈ l → ts_PaymentID x ≠ ""%string) → ∃ k', restore_tombstones l k = (k', Ok tt).
Proof.
  revert k. induction l as [|x l IH]; intros k Hl; [by exists k|]. cbn.
  unfold AllocationMode.RestoreTombstone. rewrite (proj2 (String.eqb_neq _ _)) by (apply Hl; by left).
  apply IH. intros y Hy. apply Hl. by right.
Qed.

Lemma restore_resolutions_succeeds l k :
  let key r := pn_QuarantineID (pr_Pending (sv_Resolution r)) in
  NoDup (key <$> l) → (∀ r, r ∈ l → resolutions k !! key r = None) →
  (∀ r, r ∈ l → validStoredReversalResolution r = true ∧
     ∃ plan, plans k !! pn_PaymentID (pr_Pending (sv_Resolution r)) = Some plan ∧
       pl_State plan = StateFailed ∧ is_reversed k (pn_PaymentID (pr_Pending (sv_Resolution r))) = true) →
  ∃ k', restore_resolutions l k = (k', Ok tt).
Proof.
  intros key. revert k. induction l as [|x l IH]; intros k Hnd Hnew Hl; [by exists k|]. cbn.
  destruct (Hl x) as (-> & plan & -> & -> & Hr); [by left|]. cbn [negb].
  unfold is_reversed in Hr. unfold AllocationMode.IsReversed. rewrite Hr. cbn.
  rewrite (proj2 (has_key_false _ _)) by (apply Hnew; by left).
  cbn in Hnd. apply NoDup_cons in Hnd as [Hx Hnd]. apply IH; [done|..].
  - intros r Hin. cbn. rewrite lookup_insert_ne; [apply Hnew; by right|].
    intros E. apply Hx. change (key x ∈ key <$> l). unfold key at 1. rewrite E. by apply list_elem_of_fmap_2.
  - intros r Hin. apply Hl. by right.
Qed.

Lemma envelope_recovered s encoded : snap_ok s → recovered_envelope (record_of s encoded) s = true.
Proof.
  intros O. unfold recovered_envelope. cbn. pose proof (so_claim s O) as Hm. unfold claimMatchesPlan in Hm.
  bool_facts. repeat match goal with A : _ (ds_Claim s) = _ |- _ => rewrite A; clear A end.
  rewrite (so_claim_state s O), !String.eqb_refl, !Z.eqb_refl, !Bool.eqb_reflx.
  assert (stateFromCanonical (pl_State (ds_Plan s)) = pl_State (ds_Plan s)) as ->.
  { pose proof (so_state s O) as Hv. unfold validState in Hv. bool_facts.
    rewrite !elem_of_cons, elem_of_nil in Hv. by destruct Hv as [-> |[-> |[-> |[-> |[-> |[-> |[]]]]]]]. }
  by rewrite String.eqb_refl.
Qed.

(** What a restart needs beyond the invariants: snapshots that survive their encoding,
    and reorganisations that the recovery check accepts. *)
Definition reorgs_accepted k : Prop :=
  ∀ p s, view k p = Some s → faithful s ∧
    forallb (validRecoveredReorg (ds_Plan s) (ds_Confirmation s)) (ds_Reorgs s) = true.

Lemma records_recovered k :
  reachable k → reorgs_accepted k →
  ∃ m k', AllocationMode.New (W := T) (Some (AllocationMode.store (modes k))) = Ok m ∧
    restore_records (sort_by sc_PaymentID (map_to_list (stored (store k))).*2)
      (mkCoordinator m (store k) ∅ ∅ ∅ [] ∅ ∅ ∅) = (k', Ok tt).
Proof.
  intros Hre Ha. pose proof (coordinator_inv k Hre) as I. destruct (reachable_linked k Hre) as [Lo Ll].
  destruct (AllocationMode.New_linked _ Lo) as (m & Hm & _ & Hb). exists m.
  destruct (New_fresh _ _ Hm) as [_ Hrev].
  destruct (restore_records_succeeds (sort_by sc_PaymentID (map_to_list (stored (store k))).*2) (views k)
    (mkCoordinator m (store k) ∅ ∅ ∅ [] ∅ ∅ ∅)) as [k' Hk']; [| |by exists k'].
  { apply stored_shelved; [done|]. intros p s Hs. by apply (Ha p). }
  intros r s Hr. rewrite views_lookup. intros Hs. set (p := sc_PaymentID r) in *.
  destruct (sorted_values sc_PaymentID (stored (store k))) as [_ Hin].
  { intros q x. apply stored_key, I. }
  apply Hin in Hr. pose proof (inv_mirror k I p) as M. fold p in Hr. rewrite Hs, Hr in M.
  destruct M as (b & _ & [= Er]). pose proof (inv_reach k I p s Hs) as Rs.
  pose proof (reachable_ok s Rs) as O. destruct (reachable_recoverable s Rs) as [_ R1 R2 R3].
  destruct (Ha p s Hs) as [_ R4]. unfold restorable. split_and!.
  - unfold validRecoveredSnapshot. rewrite Er, (envelope_recovered s b O), R1, R2, R3, R4. done.
  - rewrite (so_claim_state s O). exact (so_state s O).
  - unfold is_reversed. cbn. rewrite Hrev. by apply bool_decide_false, not_elem_of_empty.
  - specialize (Ll p). unfold claim_of. cbn. rewrite Hb.
    assert (AllocationMode.byPayment (modes k) !! p = Some (ds_Claim s)) as Hc.
    { revert Hs. unfold view, claim_of. destruct (plans k !! p); [|done].
      destruct (AllocationMode.byPayment (modes k) !! p); [|done]. by intros [= <-]. }
    rewrite Hc in Ll. destruct (AllocationMode.durable _ !! p) as [d|] eqn:Hd; [|done]. exists d.
    apply (inj Some) in Ll. split_and!; try done. by apply (AllocationMode.durable_valid _ _ _ Lo Hd).
Qed.

(** * Theorems *)

(** C8: the coordinator implements the per-payment machine, over stores that keep the
    laws of [StoreLaws] and [ClaimStoreLaws]: an operation that answers an error has
    changed nothing, as in the memory stores. A call that succeeds
    leaves every payment's machine where it was, starts it, or takes it exactly one
    step; a call that fails, a claim another component makes in the shared registry,
    and a restart from the stores change no machine. After every call the durable
    record of each payment is exactly the encoding of its machine's state. *)
Theorem settlement_refines k ok k' :
  reachable k → call k ok k' →
  (∀ p, if ok then change (view k p) (view k' p) else view k' p = view k p) ∧
  ∀ p, on_file (view k' p) (stored (store k') !! p).
Proof using All.
  intros I%coordinator_inv X. destruct (call_simulated k ok k' I X) as [I' V].
  split; [destruct ok; apply V|apply I'].
Qed.

Lemma run_views k k' p s :
  Inv k → rtc next k k' → view k p = Some s → ∃ n s', view k' p = Some s' ∧ nsteps snap_step n s s'.
Proof.
  intros I R. revert s. induction R as [k|k k1 k' [ok X] R IH]; intros s Hs.
  { exists 0%nat, s. split; [done|]. constructor. }
  destruct (call_simulated k ok k1 I X) as [I1 V].
  assert (change (view k p) (view k1 p)) as [E|[[E _]|(x & y & E1 & E2 & Y)]]
    by (destruct ok; [apply V|left; apply V]).
  - apply IH; [done|]. congruence.
  - congruence.
  - destruct (IH I1 y E2) as (n & s' & Hs' & N). exists (Datatypes.S n), s'. split; [done|].
    rewrite Hs in E1. injection E1 as <-. by econstructor.
Qed.

(** The life of a plan. Along any run the machine of a payment only moves
    forward: the terms of the plan and the identity of its claim never change, a
    confirmation once entered stays, recorded reorganisations are only appended to,
    the version counts the transitions, each of which follows an edge of the life
    cycle, and a payment whose reversal was resolved never moves again. *)
Theorem settlement_lifecycle k k' p s :
  reachable k → rtc next k k' → view k p = Some s →
  ∃ n s', view k' p = Some s' ∧ run_keeps s s' ∧
    pl_Version (ds_Plan s') = pl_Version (ds_Plan s) + Z.of_nat n ∧
    nsteps (λ a b, snap_step a b ∧ edge (pl_State (ds_Plan a)) (pl_State (ds_Plan b))) n s s' ∧
    (ds_Tombstoned s = true → s' = s).
Proof using All.
  intros I%coordinator_inv R Hs. destruct (run_views k k' p s I R Hs) as (n & s' & Hs' & N).
  assert (snap_ok s) as O by (eapply reachable_ok, inv_reach; done).
  destruct (run_steps s s' n N O) as (_ & Hk & Hv). exists n, s'. split_and!; try done.
  - clear -N. induction N as [|n x y z X N IH]; [constructor|]. econstructor; [|done].
    split; [done|]. destruct X as [M _]. by apply move_edge.
  - intros Ht. destruct N as [|n x y z X N]; [done|]. by apply tombstoned_final in X.
Qed.

(** ** Reversals *)

(** A tombstoned payment has no confirmation. *)
Lemma tombstoned_unconfirmed k p :
  Inv k → p ∈ AllocationMode.reversed (modes k) → confirmations k !! p = None.
Proof.
  intros I Hp. destruct (plans k !! p) as [plan|] eqn:Hpl; [|by apply (inv_unplanned k I)].
  destruct (inv_view k p plan I Hpl) as (c & _ & _ & O & Hkey).
  assert (is_reversed k p = true) as Hr by (by apply bool_decide_true). rewrite Hr in O.
  assert (ds_Confirmation (snapshot_of k plan c true (pending k !! p)) = None) as Hn.
  { apply ok_not_confirmed; [done|rewrite (so_tombstoned _ O eq_refl); discriminate..]. }
  cbn in Hn. rewrite Hkey in Hn. by destruct (confirmations k !! p).
Qed.

(** A reversal that is carried out at once: the caller's commit has run, and the
    payment is tombstoned. *)
Lemma Handle_local {W} record (commit : W → W * result error ()) k w k1 w1 claim d :
  settlement_Handle record commit k w = (k1, w1, Ok (claim, d)) →
  d = AllocationMode.ReversalUnclaimed ∨ d = AllocationMode.ReversalSynthetic →
  commit w = (w1, Ok ()) ∧ rr_PaymentID record ∈ AllocationMode.reversed (modes k1).
Proof.
  unfold settlement_Handle. destruct (negb _); [done|].
  destruct (match plans k !! _ with Some _ => _ | None => _ end).
  { unfold reversal_repeated. intros Hx Hd. exfalso. destruct (pending k !! _); [|done].
    destruct (AllocationMode.Lookup _ _); [|done]. destruct (_ || _); [done|].
    injection Hx as _ _ _ <-. by destruct Hd. }
  assert (∀ x, reverse_unallocated record commit (w, store k, None, None) = (x, Ok ()) →
    commit w = (x.1.1.1, Ok ())) as Hrun.
  { intros x. unfold reverse_unallocated. destruct (commit w) as [w2 [[]|e]]; [|done].
    destruct (CreateTombstone _ _). by intros [= <- _]. }
  unfold AllocationMode.HandleReversalWithCommit, AllocationMode.resolve_with.
  destruct (empty_s _); [done|]. destruct (AllocationMode.byPayment _ !! _) as [c|].
  - destruct (_ =s AllocationMode.ModeSyntheticProjection).
    { unfold reversal_callback. destruct (reverse_unallocated _ _ _) as [[[[w2 t] a] b] [[]|e]] eqn:Hx; [|done].
      intros Hy _. rewrite (Hrun _ eq_refl). destruct a, b; injection Hy as <- <- _ _;
        (split; [done|]); cbn; set_solver. }
    intros Hx Hd. exfalso. revert Hx.
    repeat match goal with |- context [if ?b then _ else _] => destruct b end;
      try match goal with |- context [reversal_callback ?a ?b ?c ?d ?e ?f ?g] =>
        destruct (reversal_callback a b c d e f g) as [[[[? ?] ?] ?] [?|?]] end;
      intros Hx; repeat case_match; simplify_eq; by destruct Hd.
  - unfold reversal_callback. destruct (reverse_unallocated _ _ _) as [[[[w2 t] a] b] [[]|e]] eqn:Hx; [|done].
    intros Hy _. rewrite (Hrun _ eq_refl). destruct a, b; injection Hy as <- <- _ _;
      (split; [done|]); cbn; set_solver.
Qed.

(** The order of the two effects matters: a reversal whose accounting has committed
    and whose tombstone the store then refuses is answered with an error, and the
    coordinator and the registry are as they were. The books are reversed, and
    nothing keeps the payment from being prepared and settled on chain. *)
Lemma reversal_without_tombstone {W} record (commit : W → W * result error ()) k w w1 t e :
  validReversalRecord record = true → plans k !! rr_PaymentID record = None →
  AllocationMode.byPayment (modes k) !! rr_PaymentID record = None → rr_PaymentID record ≠ ""%string →
  commit w = (w1, Ok ()) →
  CreateTombstone (mkStoredTombstone (rr_PaymentID record) "" "" "" (rr_ReversalEventID record)
    (rr_CallbackEvidenceHash record) (Time.UTC (rr_ReceivedAt record))) (store k) = (t, Err e) →
  ∃ err, settlement_Handle record commit k w = (set_shared (modes k) t k, w1, Err err).
Proof.
  intros Hv Hp Hc Hne Hw Ht. unfold settlement_Handle. rewrite Hv, Hp. cbn [negb].
  unfold AllocationMode.HandleReversalWithCommit, AllocationMode.resolve_with. rewrite Hc.
  apply String.eqb_neq in Hne. rewrite Hne. cbn. rewrite Hw, Ht. by eexists.
Qed.

(** C9: no double settlement, over stores that keep the laws of [StoreLaws] and
    [ClaimStoreLaws], as the memory stores do. In every reachable coordinator the
    registry's claim of a planned payment is the plan's own canonical claim in the
    plan's state; a confirmation exists exactly for confirmed and incident plans, a
    pending reversal exactly for quarantined ones. A payment whose reversal was
    carried out has no on-chain confirmation, now or after any further run: this holds
    for reversals resolved from quarantine, whose plan has failed, and for reversals
    that [HandleProviderReversal] carried out at once and answered with success, after
    the caller's accounting committed. It is not claimed for a direct reversal that
    ended with an error ([reversal_without_tombstone]). *)
Theorem settlement_exclusive k :
  reachable k →
  (∀ p s, view k p = Some s →
     claimMatchesPlan (ds_Claim s) (ds_Plan s) = true ∧
     AllocationMode.State (ds_Claim s) = pl_State (ds_Plan s) ∧
     (is_Some (confirmations k !! p) ↔
        pl_State (ds_Plan s) = StateConfirmed ∨ pl_State (ds_Plan s) = StateIncident) ∧
     (is_Some (pending k !! p) ↔ pl_State (ds_Plan s) = StateQuarantined)) ∧
  (∀ q r k', resolutions k !! q = Some r → rtc next k k' →
     let p := pn_PaymentID (pr_Pending (sv_Resolution r)) in
     (∃ s, view k p = Some s ∧ pl_State (ds_Plan s) = StateFailed) ∧ confirmations k' !! p = None) ∧
  (∀ (W : Type) record (commit : W → W * result error ()) w k1 w1 claim d,
     settlement_Handle record commit k w = (k1, w1, Ok (claim, d)) →
     d = AllocationMode.ReversalUnclaimed ∨ d = AllocationMode.ReversalSynthetic →
     commit w = (w1, Ok ()) ∧
     ∀ k', rtc next k1 k' → confirmations k' !! rr_PaymentID record = None).
Proof using All.
  intros Hre. pose proof (coordinator_inv k Hre) as I. pose proof (reachable_linked k Hre) as L.
  assert (∀ k1 k' p, Inv k1 → AllocationMode.linked (W := T) (modes k1) →
    p ∈ AllocationMode.reversed (modes k1) → rtc next k1 k' → confirmations k' !! p = None) as Hlater.
  { intros k1 k' p I1 L1 Hp R. apply tombstoned_unconfirmed; [by apply (run_inv k1)|].
    destruct (run_marked {[p]} k1 k' I1) as [_ Hx]; [split; [done|set_solver]|done|set_solver]. }
  split_and!.
  - intros p s Hs. assert (snap_ok s) as O by (eapply reachable_ok, inv_reach; done).
    assert (ds_Confirmation s = value <$> confirmations k !! p ∧ ds_PendingReversal s = pending k !! p) as [Hc Hpe].
    { revert Hs. unfold view. destruct (plans k !! p) as [pl|] eqn:Hp; [|done].
      destruct (claim_of k p); [|done]. intros [= <-]. cbn. by rewrite (inv_key k I p pl Hp). }
    split_and!; [apply O|apply O|..].
    + rewrite <- (so_confirmation s O), Hc. by rewrite fmap_is_Some.
    + rewrite <- (so_pending s O), Hpe. done.
  - intros q r k' Hr R p. destruct (inv_final k I q r Hr) as (s & Hs & Ht). split.
    + exists s. split; [done|]. by apply so_tombstoned; [eapply reachable_ok, inv_reach|].
    + apply (Hlater k); try done. rewrite (view_tombstoned k p s Hs) in Ht.
      by apply bool_decide_eq_true in Ht.
  - intros W record commit w k1 w1 claim d Hx Hd. destruct (Handle_local _ _ _ _ _ _ _ _ Hx Hd) as [Hc Hp].
    split; [done|]. intros k' R.
    assert (call k true k1) as C.
    { pose proof (call_handle k W record commit w) as C. by rewrite Hx in C. }
    apply (Hlater k1); try done; [by apply (call_simulated k true)|].
    by destruct (call_marked ∅ k true k1 I) as [? _]; [split; [done|set_solver]| |].
Qed.

(** C11: a confirmation is backed by the plan it settles. Every confirmation the
    coordinator holds belongs to a plan prepared from an accepted request for that
    payment; its instruction digest and allocation are those of the request; it
    splits the request's units into principal up to the expected debt, refundable
    excess and remaining debt; and it names the transaction that was submitted for
    the plan, with a finality head at least the confirmation depth above its block. *)
Theorem confirmation_sound k p c :
  reachable k → confirmations k !! p = Some c →
  ∃ plan request gross debt,
    plans k !! p = Some plan ∧ q_PaymentID request = p ∧ validPrepare request = true ∧
    ap_AllocationID (value c) = CalculateAllocationID request ∧
    CalculateInstructionDigest request = Ok (ap_InstructionDigest (value c)) ∧
    positive (q_SourceUnits request) = Some gross ∧ positive (q_ExpectedDebtUnits request) = Some debt ∧
    ap_PrincipalUnits (value c) = Big.to_string (Z.min gross debt) ∧
    ap_RefundableExcessUnits (value c) = Big.to_string (gross - Z.min gross debt) ∧
    ap_DebtAfterUnits (value c) = Big.to_string (debt - Z.min gross debt) ∧
    ap_TransactionHash (value c) = sb_TransactionHash (pl_Submission plan) ∧
    0 < ap_ConfirmationDepth (value c) <= ap_FinalityHeadBlock (value c) - ap_BlockNumber (value c).
Proof using All.
  intros I%coordinator_inv Hc. destruct (plans k !! p) as [plan|] eqn:Hp.
  2:{ destruct (inv_unplanned k I p Hp) as (U & _). by rewrite U in Hc. }
  destruct (inv_view k p plan I Hp) as (cl & _ & _ & O & Hkey). exists plan.
  destruct (so_planned _ O) as [rq P]. exists rq. cbn in P. destruct P as [Pv Pa Pd (g & d & Hg & Hd & Ht)].
  destruct (validPrepare_units rq Pv) as (g' & d' & Hg' & Hs' & Hd'). 
  rewrite Hg in Hg'. rewrite Hd in Hd'. injection Hg' as <-. injection Hd' as <-. exists g, d.
  destruct (so_confirmed _ O (value c)) as (b & e & f & i & Eb & Es & Ev & ->); [cbn; by rewrite Hkey, Hc|].
  cbn in Eb, Es. assert (terms b = terms _) as Et by exact (eq_trans Eb Ht).
  pose proof (f_equal pl_PaymentID Ht) as T1. pose proof (f_equal pl_AllocationID Et) as T2.
  pose proof (f_equal pl_InstructionDigest Eb) as T3. pose proof (f_equal pl_PrincipalUnits Et) as T4.
  pose proof (f_equal pl_RefundableExcessUnits Et) as T5. pose proof (f_equal pl_DebtAfterUnits Et) as T6.
  cbn in T1, T2, T3, T4, T5, T6. unfold validEvent in Ev. bool_facts. cbn. split_and!; try congruence; lia.
Qed.

(** C10: a restart succeeds and loses nothing, over stores that keep the laws of
    [StoreLaws] and [ClaimStoreLaws], as the memory stores do; with a store that loses
    the response of a committed request the memory of the process may be behind the
    store, and the theorem is not about that process. From every reachable coordinator whose
    snapshots survive their encoding and whose reorganisations the recovery check
    accepts, the registry and the coordinator can be built again from the two stores;
    every payment is then in exactly the state it was in, with the same resolved
    reversals, and the new coordinator is again reachable. *)
Theorem restart_available k :
  reachable k → reorgs_accepted k →
  ∃ m k', AllocationMode.New (W := T) (Some (AllocationMode.store (modes k))) = Ok m ∧
    NewWithStore m (store k) = (k', Ok tt) ∧ reachable k' ∧
    (∀ p, view k' p = view k p) ∧ resolutions k' = resolutions k.
Proof using All.
  intros Hre Ha. pose proof (coordinator_inv k Hre) as I.
  assert (∀ p s, view k p = Some s → faithful s) as F by (intros p s Hs; by apply (Ha p)).
  destruct (records_recovered k Hre Ha) as (m & k1 & Hm & Hx1). exists m.
  destruct (New_fresh _ _ Hm) as [_ Hrev].
  destruct (records_restored k m k1 tt I F Hrev Hx1) as (Sh & Bl & E1 & E2 & E3 & E4).
  assert (∃ k', NewWithStore m (store k) = (k', Ok tt)) as [k' Hk'].
  { unfold NewWithStore. destruct (load_law (store k) (inv_store k I)) as (-> & -> & ->). rewrite Hx1.
    destruct (sorted_values ts_PaymentID (tombs (store k))) as [_ Hin].
    { intros q r Hr. by apply (tombs_key _ _ _ (inv_store k I)). }
    destruct (restore_tombstones_succeeds (sort_by ts_PaymentID (map_to_list (tombs (store k))).*2) k1)
      as [k2 Hx2].
    { intros x Hx%Hin. by apply (tombs_key _ _ _ (inv_store k I)) in Hx as [_ Hx]. }
    rewrite Hx2. apply restore_tombstones_Ok in Hx2 as (m2 & -> & _ & _ & Hr2).
    destruct (sorted_values (λ r, pn_QuarantineID (pr_Pending (sv_Resolution r))) (resolved (store k)))
      as [Hnd Hres].
    { intros q r Hr. by apply (resolved_key _ _ _ (inv_store k I)). }
    apply restore_resolutions_succeeds; [done| |].
    - intros r _. cbn. by rewrite E2.
    - intros r Hr%Hres. destruct (resolved_key _ _ _ (inv_store k I) Hr) as [_ Hv]. split; [done|].
      rewrite (inv_resolved k I) in Hr. destruct (inv_final k I _ r Hr) as (s & Hs & Ht).
      exists (ds_Plan s). cbn. rewrite (sw_plan _ _ _ (Sh _ s Hs)). split; [done|]. split.
      + apply so_tombstoned; [|done]. by eapply reachable_ok, inv_reach.
      + apply bool_decide_true. cbn. apply Hr2. left. apply list_elem_of_fmap.
        assert (is_reversed k (pn_PaymentID (pr_Pending (sv_Resolution r))) = true) as Hrv
          by (by rewrite <- (view_tombstoned k _ s Hs)).
        apply bool_decide_eq_true, (inv_tombs k I) in Hrv as [t Hrv].
        destruct (tombs_key _ _ _ (inv_store k I) Hrv) as [E _]. exists t. split; [done|].
        apply Hin. by rewrite E. }
  exists k'. destruct (restarted k m k' tt I F Hm Hk') as (_ & V & Er & _). split_and!; try done.
  destruct Hre as (k0 & J & R). exists k0. split; [done|]. eapply rtc_r; [done|].
  exists false. by eapply call_restart.
Qed.

Lemma restore_records_checked l k k' u r :
  restore_records l k = (k', Ok u) → r ∈ l →
  ∃ s, decodeDurableSnapshot (sc_Snapshot r) = Ok s ∧ validRecoveredSnapshot r s = true.
Proof.
  revert k. induction l as [|x l IH]; intros k Hx Hr; [by apply elem_of_nil in Hr|].
  apply restore_records_cons in Hx as (s & k1 & Hd & Hv & _ & Hx).
  apply elem_of_cons in Hr as [->|Hr]; [by exists s|]. by eapply IH.
Qed.

(** C12: what a restart refuses. A coordinator that holds a reorganisation from before
    finality whose orphaned transaction is no longer the plan's submission cannot be
    built again from its stores, whatever the registry: the recovery check compares
    the two, and a retry clears the submission but keeps the reorganisation. *)
Theorem restart_blocked k p s r m :
  reachable k → (∀ p s, view k p = Some s → faithful s) →
  view k p = Some s → r ∈ ds_Reorgs s → re_Deep r = false →
  re_OrphanedTxHash r ≠ sb_TransactionHash (pl_Submission (ds_Plan s)) →
  ∃ k' e, NewWithStore m (store k) = (k', Err e).
Proof using All.
  intros I%coordinator_inv F Hs Hr Hd Hne. unfold NewWithStore.
  destruct (load_law (store k) (inv_store k I)) as (-> & _).
  destruct (restore_records _ _) as [k1 [u|e]] eqn:Hx; [exfalso|by eexists _, _].
  pose proof (stored_shelved k I F) as [Sd _ _ _ _].
  destruct (sorted_values sc_PaymentID (stored (store k))) as [_ Hin].
  { intros q x. apply stored_key, I. }
  pose proof (inv_mirror k I p) as M. rewrite Hs in M. destruct M as (b & _ & M).
  destruct (view_Some k p s I Hs) as (Hk & _).
  assert (record_of s b ∈ sort_by sc_PaymentID (map_to_list (stored (store k))).*2) as Hin'.
  { apply Hin. cbn. by rewrite Hk. }
  destruct (restore_records_checked _ _ _ _ _ Hx Hin') as (s' & Hd' & Hv).
  destruct (Sd _ Hin') as (s0 & Hs0 & Hd0). rewrite views_lookup in Hs0. cbn in Hs0. rewrite Hk, Hs in Hs0.
  injection Hs0 as <-. rewrite Hd0 in Hd'. injection Hd' as <-.
  unfold validRecoveredSnapshot in Hv. apply andb_true_iff in Hv as [_ Hv].
  rewrite forallb_forall in Hv. specialize (Hv r (proj1 (list_elem_of_In _ _) Hr)).
  unfold validRecoveredReorg in Hv. destruct (_ || _) in Hv; [done|]. rewrite Hd in Hv. cbn in Hv.
  bool_facts. done.
Qed.

End Runs.
