(* ===== verification/SettlementSample.v ===== *)
(** A settlement end to end on concrete data: the instances that the theorems about
    the coordinator range over, a run through preparation, submission and
    confirmation, and the run that leaves a coordinator unable to restart. *)
From S2P Require Import Prelude GoStd CrossChainTypes ChainTypes PaymentTypes Payment SettlementDigest.
From S2P Require Import SettlementTypes SettlementStore Settlement SettlementMachine SettlementRefinement SettlementRuns.
From S2P Require AllocationMode Message.

#[local] Existing Instances Message.Sample.toy_keccak AllocationMode.memory_store AllocationMode.memory_store_laws.
#[local] Instance toy_sha : Sha256 := λ s, keccak s.
#[local] Instance toy_json : Json := λ _, "{}"%string.

Definition h (n : Z) : string := SettlementDigest.Sample.h n.
Definition a (n : Z) : string := SettlementDigest.Sample.a n.
Definition at_ (n : Z) : Time.t := Time.mk (62135596800000000000 + n * 1000000000) "".

(** ** Requests *)

Definition draft (allocation : string) : PrepareRequest :=
  {| q_PaymentID := h 1;
     q_AllocationID := allocation;
     q_LoanID := h 3;
     q_ProviderID := "provider";
     q_ProviderReference := "reference";
     q_PaymentStatus := StatusFinal;
     q_PaymentVersion := 4;
     q_SourceAssetID := h 4;
     q_TargetAssetID := h 5;
     q_TargetToken := a 6;
     q_Denomination := "USD";
     q_SourcePrecision := 6;
     q_TargetPrecision := 6;
     q_SourceUnits := "300";
     q_TargetUnits := "300";
     q_ReconciliationID := h 7;
     q_DifferenceUnits := "0";
     q_UnmatchedItems := 0;
     q_FinalityPolicyHash := h 8;
     q_ConversionPolicyHash := h 9;
     q_PolicySetHash := h 10;
     q_EligibilityEvidenceHash := h 11;
     q_OriginalJournalIDs := ["journal-1"; "journal-2"];
     q_ExpectedDebtUnits := "250";
     q_ExpectedStateNonce := 7;
     q_ChainID := 1;
     q_GatewayAddress := a 12;
     q_FinalizerAddress := a 13;
     q_ProviderIDHash := h 14;
     q_ProviderReferenceHash := h 15;
     q_ReconciliationCommitment := h 16;
     q_OriginalJournalSetHash := h 17;
     q_JournalRef := h 18;
     q_AttesterAddress := a 19;
     q_FinalizedAt := at_ 100;
     q_ReversalDeadline := at_ 200;
     q_PreparedAt := at_ 300;
     q_CorrelationID := "correlation" |}.
Definition prepare : PrepareRequest := draft (CalculateAllocationID (draft "")).
Definition digest : string :=
  match CalculateInstructionDigest prepare with Ok d => d | Err _ => "" end.
Definition submit : SubmissionRequest :=
  mkSubmissionRequest (h 1) (q_AllocationID prepare) digest 1 1 (a 12) (a 13) 5 (h 20) (h 21) (at_ 400).
Definition settlement : CanonicalSettlement :=
  {| cs_PaymentID := h 1; cs_AllocationID := q_AllocationID prepare; cs_InstructionDigest := digest;
     cs_PolicySetHash := h 10; cs_LoanID := h 3; cs_LoanAccount := a 22; cs_Finalizer := a 13;
     cs_Attester := a 19; cs_SourceAssetID := h 4; cs_TargetAssetID := h 5; cs_TargetToken := a 6;
     cs_SourceUnits := "300"; cs_GrossUnits := "300"; cs_ProviderIDHash := h 14;
     cs_ProviderReferenceHash := h 15; cs_ReconciliationID := h 7;
     cs_ReconciliationCommitment := h 16; cs_OriginalJournalSetHash := h 17;
     cs_ConversionPolicyHash := h 9; cs_FinalityPolicyHash := h 8; cs_EvidenceHash := h 11;
     cs_JournalRef := h 18; cs_ProviderFinalizedAt := 100; cs_ReversalDeadline := 200;
     cs_PrincipalUnits := "250"; cs_RefundableExcessUnits := "50"; cs_DebtBeforeUnits := "250";
     cs_DebtAfterUnits := "0"; cs_StateNonceBefore := 7; cs_StateNonceAfter := 8;
     cs_LenderID := "lender"; cs_BorrowerID := "borrower"; cs_ChainID := 1; cs_Gateway := a 12;
     cs_TransactionHash := h 20; cs_EventID := "event"; cs_LogIndex := 0; cs_BlockHash := h 23;
     cs_RawEvidenceHash := h 24; cs_TransactionIndex := 0; cs_ReceiptsRoot := h 25;
     cs_InclusionProofHash := h 26; cs_ReceiptHeaderSignatureHash := h 27; cs_UpdatedInBlock := 90;
     cs_Finality := Final |}.
Definition finality : FinalityProof :=
  mkFinalityProof Final 12 110 (h 28) (h 29) (at_ 500) (h 8) (h 30) (h 31).
Definition confirm : ConfirmationRequest :=
  {| cq_PaymentID := h 1; cq_AllocationID := q_AllocationID prepare; cq_InstructionDigest := digest;
     cq_ExpectedVersion := 2; cq_Projection := (settlement, finality) |}.
Definition reorg : SettlementReorg :=
  {| sr_PaymentID := h 1; sr_AllocationID := q_AllocationID prepare; sr_InstructionDigest := digest;
     sr_ChainID := 1; sr_Gateway := a 12; sr_EventID := "event"; sr_TransactionHash := h 20;
     sr_OrphanedEventEvidenceHash := h 11; sr_RawEvidenceHash := h 24; sr_TransactionIndex := 0;
     sr_ReceiptsRoot := h 25; sr_InclusionProofHash := h 26;
     sr_OrphanedReceiptHeaderSignatureHash := h 27; sr_OrphanedBlockHash := h 23; sr_OrphanedBlock := 90;
     sr_ReplacementBlockHash := h 32; sr_ReplacementBlock := 90; sr_DepthClass := ReorgPreFinality;
     sr_ConfirmationDepth := 12; sr_DetectedHead := 95; sr_DetectedHeadHash := h 33;
     sr_FinalityPolicyHash := h 8; sr_HeaderAuthorityHash := h 30;
     sr_ReplacementHeaderSignatureHash := h 34; sr_DetectedHeadHeaderSignatureHash := h 35;
     sr_CompensationRequired := false; sr_EvidenceHash := h 36; sr_DetectedAt := at_ 450 |}.
Definition retry : RetryRequest :=
  {| ry_PaymentID := h 1; ry_AllocationID := q_AllocationID prepare; ry_InstructionDigest := digest;
     ry_ExpectedVersion := 3; ry_EvidenceHash := h 37; ry_RetriedAt := at_ 600 |}.

(** ** The codec *)

(** A plan's snapshots differ in their versions; the codec writes the version and
    reads it back through a table. *)
Definition encoded (s : durableSnapshot) : string := Big.to_string (pl_Version (ds_Plan s)).
Definition table (book : list durableSnapshot) : SnapshotCodec :=
  {| marshal_snapshot s := Some (encoded s);
     unmarshal_snapshot b := list_find (λ s, encoded s = b) book ≫= λ x, Some x.2 |}.

Abbreviation C := (Coordinator AllocationMode.MemoryStore MemoryStore).
Definition k0 : C :=
  mkCoordinator (AllocationMode.mkRegistry ∅ ∅ ∅ AllocationMode.NewMemoryStore) NewMemoryStore
    ∅ ∅ ∅ [] ∅ ∅ ∅.

Section Run.
Variable codec : SnapshotCodec.
Definition k1 : C := (Prepare prepare k0).1.
Definition k2 : C := (Submit submit k1).1.
Definition k3 : C := (Confirm confirm k2).1.
Definition k4 : C := (RecordReorg 2 reorg k2).1.
Definition k5 : C := (Retry retry k4).1.
End Run.

Definition book : list durableSnapshot := omap (λ k, view k (h 1)) [k1 (table []); k2 (table []); k5 (table [])].
#[local] Instance codec : SnapshotCodec := table book.

(** Every call of the two runs succeeds. *)
Lemma calls_succeed :
  is_ok (Prepare prepare k0).2 && is_ok (Submit submit (k1 codec)).2 &&
  is_ok (Confirm confirm (k2 codec)).2 && is_ok (RecordReorg 2 reorg (k2 codec)).2 &&
  is_ok (Retry retry (k4 codec)).2 = true.
Proof. vm_compute. reflexivity. Qed.

Lemma k0_initial : initial k0.
Proof.
  split; [| |by split_and!|by split].
  - unfold AllocationMode.linked. split; [|done]. by split.
  - cbn. unfold memory_keyed. cbn. split_and!; intros p r Hr; cbn in Hr; by rewrite lookup_empty in Hr.
Qed.

Lemma k1_reachable : reachable (k1 codec).
Proof.
  exists k0. split; [apply k0_initial|]. apply rtc_once.
  unfold k1. eexists. apply (call_prepare k0 prepare).
Qed.
Lemma next_k2 : next (k1 codec) (k2 codec).
Proof. unfold k2. eexists. apply (call_submit _ submit). Qed.
Lemma next_k3 : next (k2 codec) (k3 codec).
Proof. unfold k3. eexists. apply (call_confirm _ confirm). Qed.

Lemma next_k4 : next (k2 codec) (k4 codec).
Proof. unfold k4. eexists. apply (call_reorg _ 2 reorg). Qed.
Lemma next_k5 : next (k4 codec) (k5 codec).
Proof. unfold k5. eexists. apply (call_retry _ retry). Qed.

Lemma reachable_next (k k' : C) : reachable k → next k k' → reachable k'.
Proof. intros (i & J & R) X. exists i. split; [done|]. by eapply rtc_r. Qed.
Lemma k2_reachable : reachable (k2 codec).
Proof. exact (reachable_next _ _ k1_reachable next_k2). Qed.
Lemma k5_reachable : reachable (k5 codec).
Proof. exact (reachable_next _ _ (reachable_next _ _ k2_reachable next_k4) next_k5). Qed.

(** The only payment is [h 1]. *)
Lemma only_payment (k : C) p s : (map_to_list (plans k)).*1 = [h 1] → view k p = Some s → p = h 1.
Proof.
  intros Hp. unfold view. destruct (plans k !! p) as [plan|] eqn:E; [|done]. intros _.
  apply elem_of_map_to_list in E. apply (list_elem_of_fmap_2 fst) in E. rewrite Hp in E.
  by apply list_elem_of_singleton in E.
Qed.

(** The snapshots of [k1] and [k5] survive the codec. *)
Lemma book_views : view (k1 codec) (h 1) = book !! 0%nat ∧ view (k5 codec) (h 1) = book !! 2%nat.
Proof. split; vm_compute; reflexivity. Qed.
Lemma book_decodes : (λ s, unmarshal_snapshot (encoded s)) <$> book = Some <$> book.
Proof. vm_compute. reflexivity. Qed.
Lemma book_encodes : forallb (λ s, encoded s <>s "") book = true.
Proof. vm_compute. reflexivity. Qed.

Lemma views_faithful (k : C) i :
  (map_to_list (plans k)).*1 = [h 1] → view k (h 1) = book !! i →
  ∀ p s, view k p = Some s → faithful s.
Proof.
  intros Hp Hv p s Hs. assert (p = h 1) as -> by (by eapply only_payment).
  rewrite Hs in Hv. symmetry in Hv. intros b [= <-]. split.
  - pose proof book_encodes as E. rewrite forallb_forall in E.
    specialize (E s (proj1 (list_elem_of_In _ _) (list_elem_of_lookup_2 _ _ _ Hv))). by bool_facts.
  - pose proof (f_equal (.!! i) book_decodes) as E. cbn beta in E. rewrite !list_lookup_fmap, Hv in E.
    exact (inj Some _ _ E).
Qed.
Lemma k1_payments : (map_to_list (plans (k1 codec))).*1 = [h 1].
Proof. vm_compute. reflexivity. Qed.
Lemma k5_payments : (map_to_list (plans (k5 codec))).*1 = [h 1].
Proof. vm_compute. reflexivity. Qed.

(** ** Witnesses *)

Lemma k2_submitted : call (k1 codec) true (k2 codec).
Proof.
  assert (is_ok (Submit submit (k1 codec)).2 = true) as <- by (vm_compute; reflexivity).
  unfold k2. apply (call_submit _ submit).
Qed.

Lemma settlement_refines_witness :
  change (view (k1 codec) (h 1)) (view (k2 codec) (h 1)) ∧
  on_file (view (k2 codec) (h 1)) (stored (store (k2 codec)) !! h 1).
Proof.
  destruct (settlement_refines (k1 codec) true (k2 codec) k1_reachable k2_submitted) as [V F].
  split; [exact (V (h 1))|exact (F (h 1))].
Defined.

Lemma k1_view : is_Some (view (k1 codec) (h 1)).
Proof. vm_compute. by eexists. Qed.

Lemma settlement_lifecycle_witness :
  ∃ s n s', view (k1 codec) (h 1) = Some s ∧ view (k2 codec) (h 1) = Some s' ∧
    pl_Version (ds_Plan s') = pl_Version (ds_Plan s) + Z.of_nat n.
Proof.
  destruct k1_view as [s Hs].
  destruct (settlement_lifecycle (k1 codec) (k2 codec) (h 1) s k1_reachable (rtc_once _ _ next_k2) Hs)
    as (n & s' & Hs' & _ & Hv & _). exists s, n, s'. split; [exact Hs|]. split; [exact Hs'|exact Hv].
Defined.

(** A reversal of a payment that nobody claimed; the caller counts its commits. *)
Definition unclaimed : CanonicalReversalRecord :=
  mkReversalRecord "quarantine-000001" "" 1 (h 9) "" "" "provider" "e9" "provider:e9" "reference" (h 4)
    "300" (h 40) (h 41) (h 42) (at_ 900) zeroFailure "" "" (at_ 500) (at_ 600).
Definition count (w : Z) : Z * result error () := (w + 1, Ok tt).
Definition reversed_k1 : C := (settlement_Handle unclaimed count (k1 codec) 0).1.1.

Lemma unclaimed_reversed :
  (settlement_Handle unclaimed count (k1 codec) 0).1.2 = 1 ∧
  ∃ claim, (settlement_Handle unclaimed count (k1 codec) 0).2 = Ok (claim, AllocationMode.ReversalUnclaimed).
Proof. split; [vm_compute; reflexivity|]. eexists. vm_compute. reflexivity. Qed.

Lemma settlement_exclusive_witness :
  ∃ s, view (k1 codec) (h 1) = Some s ∧ claimMatchesPlan (ds_Claim s) (ds_Plan s) = true ∧
    count 0 = (1, Ok tt) ∧ confirmations reversed_k1 !! h 9 = None.
Proof.
  destruct k1_view as [s Hs]. destruct unclaimed_reversed as [Hw [claim Hd]].
  destruct (settlement_exclusive (k1 codec) k1_reachable) as (Hp & _ & Hh).
  exists s. split; [exact Hs|]. split; [exact (proj1 (Hp (h 1) s Hs))|].
  destruct (Hh Z unclaimed count 0 reversed_k1 1 claim AllocationMode.ReversalUnclaimed) as [Hc Hl].
  - unfold reversed_k1. rewrite <- Hd, <- Hw. by destruct (settlement_Handle unclaimed count (k1 codec) 0) as [[? ?] ?].
  - by left.
  - split; [exact Hc|]. exact (Hl reversed_k1 (rtc_refl _ _)).
Defined.

Lemma k3_confirmed : is_Some (confirmations (k3 codec) !! h 1).
Proof. vm_compute. by eexists. Qed.

Lemma confirmation_sound_witness :
  ∃ c plan, confirmations (k3 codec) !! h 1 = Some c ∧ plans (k3 codec) !! h 1 = Some plan ∧
    ap_TransactionHash (value c) = sb_TransactionHash (pl_Submission plan).
Proof.
  destruct k3_confirmed as [c Hc].
  destruct (confirmation_sound (k3 codec) (h 1) c (reachable_next _ _ k2_reachable next_k3) Hc)
    as (plan & rq & g & d & Hp & _ & _ & _ & _ & _ & _ & _ & _ & _ & Ht & _).
  exists c, plan. split; [exact Hc|]. split; [exact Hp|exact Ht].
Defined.

Lemma k1_accepted : reorgs_accepted (k1 codec).
Proof.
  intros p s Hs. split; [exact (views_faithful _ 0 k1_payments (proj1 book_views) p s Hs)|].
  assert (p = h 1) as -> by exact (only_payment _ p s k1_payments Hs).
  assert (ds_Reorgs <$> view (k1 codec) (h 1) = Some []) as E by (vm_compute; reflexivity).
  rewrite Hs in E. apply (inj Some) in E. by rewrite E.
Qed.

Lemma restart_available_witness :
  ∃ m (k' : C), NewWithStore m (store (k1 codec)) = (k', Ok tt) ∧ view k' (h 1) = view (k1 codec) (h 1).
Proof.
  destruct (restart_available (k1 codec) k1_reachable k1_accepted) as (m & k' & _ & Hn & _ & V & _).
  exists m, k'. split; [exact Hn|exact (V (h 1))].
Defined.

(** The reorganisation and the cleared submission of [k5]. *)
Lemma k5_orphan :
  ∃ s r, view (k5 codec) (h 1) = Some s ∧ r ∈ ds_Reorgs s ∧ re_Deep r = false ∧
    re_OrphanedTxHash r ≠ sb_TransactionHash (pl_Submission (ds_Plan s)).
Proof.
  assert (match view (k5 codec) (h 1) with
          | Some s => match ds_Reorgs s with
                      | [r] => negb (re_Deep r) &&
                               (re_OrphanedTxHash r <>s sb_TransactionHash (pl_Submission (ds_Plan s)))
                      | _ => false
                      end
          | None => false
          end = true) as E by (vm_compute; reflexivity).
  destruct (view (k5 codec) (h 1)) as [s|]; [|discriminate E]. exists s.
  destruct (ds_Reorgs s) as [|r [|]]; try discriminate E. exists r. bool_facts.
  split_and!; try done. by apply list_elem_of_singleton.
Qed.

(** A plan that was prepared, submitted, orphaned before finality and retried. *)
Lemma restart_blocked_witness :
  ∃ (k' : C) e, NewWithStore (modes k0) (store (k5 codec)) = (k', Err e).
Proof.
  destruct k5_orphan as (s & r & Hs & Hr & Hd & Hne).
  exact (restart_blocked (k5 codec) (h 1) s r (modes k0) k5_reachable
           (views_faithful _ 2 k5_payments (proj2 book_views)) Hs Hr Hd Hne).
Defined.
