(* ===== verification/PaymentSettlement.v ===== *)
(** The payment orchestrator with the settlement coordinator as its reversal
    coordinator: the coordinator keeps what the orchestrator relies on, so the
    theorems about the orchestrator hold of the two together; and a run in which the
    store of the coordinator refuses a tombstone after the accounting committed. *)
From S2P Require Import Prelude GoStd CrossChainTypes ChainTypes PaymentTypes Payment SettlementDigest.
From S2P Require Import SettlementTypes SettlementStore Settlement SettlementRuns.
From S2P Require AllocationMode Message SettlementSample.

(** * The coordinator runs its callbacks at most once *)

Section Laws.
Context `{Keccak, Sha256, Json, SnapshotCodec} {S T : Type}.
Context `{!Store T, !StoreLaws T}.
Abbreviation K := (Coordinator S T).

Definition runs_once {W A : Type} (commit : W → W * result error ()) (w w' : W)
    (r : result error (A * AllocationMode.ReversalDisposition)) : Prop :=
  match r with
  | Ok (_, AllocationMode.ReversalQuarantined) | Ok (_, AllocationMode.ReversalIncident) => w' = w
  | Ok _ => commit w = (w', Ok ())
  | Err _ => w' = w ∨ ∃ x, commit w = (w', x)
  end.

(** The callback that the coordinator hands to the registry. *)
Lemma reversal_callback_runs {W} (k : K) record (commit : W → W * result error ()) claim d b w t w' t' a q r :
  reversal_callback k record commit claim d b (w, t, None, None) = ((w', t', a, q), r) →
  match r with
  | Ok _ => match d with
            | AllocationMode.ReversalUnclaimed | AllocationMode.ReversalSynthetic => commit w = (w', Ok ())
            | _ => w' = w
            end
  | Err _ => w' = w ∨ ∃ x, commit w = (w', x)
  end.
Proof.
  unfold reversal_callback, reverse_unallocated, reverse_quarantine, reverse_incident.
  destruct d; [destruct (commit w) as [w1 [[]|e]] eqn:Hc; [destruct (CreateTombstone _ _) as [t1 r1]|]..| | |];
    intros Hx; repeat case_match; simplify_eq; eauto.
Qed.

(** What the registry does with a callback, by the answer it gives. *)
Lemma HandleReversal_callback {W} p f (m m' : AllocationMode.Registry S) (s s' : W) claim d err :
  AllocationMode.HandleReversalWithCommit p (Some f) m s = (m', s', (claim, d, err)) →
  match err with
  | Some _ => s' = s ∨ ∃ c b e, f c d b s = (s', Err e)
  | None => (s' = s ∧ (d = AllocationMode.ReversalQuarantined ∨ d = AllocationMode.ReversalIncident)) ∨
            ∃ c b u, f c d b s = (s', Ok u)
  end.
Proof.
  unfold AllocationMode.HandleReversalWithCommit, AllocationMode.resolve_with.
  destruct (empty_s _); [intros [= <- <- <- <- <-]; by left|]. intros Hx.
  repeat case_match; simplify_eq; eauto 7.
Qed.

Lemma Handle_runs {W} record (commit : W → W * result error ()) (k : K) w k' w' r :
  settlement_Handle record commit k w = (k', w', r) → runs_once commit w w' r.
Proof.
  unfold settlement_Handle. destruct (negb _); [intros [= <- <- <-]; by left|].
  destruct (match plans k !! _ with Some _ => _ | None => _ end).
  { unfold reversal_repeated. intros [= <- <- <-]. destruct (pending k !! _); [|by left].
    destruct (AllocationMode.Lookup _ _); [|by left]. destruct (_ || _); [by left|done]. }
  destruct (AllocationMode.HandleReversalWithCommit _ _ _ _) as [[m [[[w1 t1] a1] q1]] [[claim d] err]] eqn:Hx.
  apply HandleReversal_callback in Hx. destruct err as [e|].
  - intros [= _ <- <-]. destruct Hx as [[= -> _ _ _]|(c & b & e' & Hx)]; [by left|].
    by apply reversal_callback_runs in Hx.
  - intros [= _ <- <-]. destruct Hx as [[[= -> _ _ _] [-> | ->]]|(c & b & u & Hx)]; [done..|].
    apply reversal_callback_runs in Hx as Hy. by destruct d.
Qed.

Lemma Resolve_runs {W} record (f : W → W * result error (list string)) (k : K) w k' w' r :
  settlement_Resolve record f k w = (k', w', r) →
  w' = w ∨ match r with Ok _ => ∃ ids, f w = (w', Ok ids) | Err _ => ∃ x, f w = (w', x) end.
Proof using All.
  unfold settlement_Resolve. destruct (negb _); [intros [= <- <- <-]; by left|].
  destruct (resolutions k !! _); [destruct (negb _); intros [= <- <- <-]; by left|].
  destruct (plans k !! _) as [plan|]; [|intros [= <- <- <-]; by left].
  destruct (pending k !! _) as [pe|]; [|intros [= <- <- <-]; by left].
  destruct (_ || _); [intros [= <- <- <-]; by left|].
  destruct (AllocationMode.Lookup _ _) as [c|]; [|intros [= <- <- <-]; by left].
  destruct (_ || _); [intros [= <- <- <-]; by left|].
  destruct (validateReversalFailureProof _ _ _) as [[hash proof]|]; [|intros [= <- <- <-]; by left].
  unfold resolve_commit, AllocationMode.ResolveQuarantinedReversal.
  destruct (durableRecordWith _ _ _ _ _) as [nr|]; [|intros [= <- <- <-]; by left].
  destruct (AllocationMode.byPayment _ !! _); [|intros [= <- <- <-]; by left].
  destruct (_ || _); [intros [= <- <- <-]; by left|].
  destruct (ResolvePendingReversal _ _ _ _ _ _ _) as [[t1 w1] r1] eqn:Hr. apply resolve_runs in Hr.
  destruct r1 as [ids|e]; intros [= <- <- <-]; destruct Hr as [Hr|Hr]; eauto.
Qed.

#[export] Instance settlement_laws : CoordinatorLaws K.
Proof using All.
  split.
  - intros W record commit k w k' w' r Hx. exact (Handle_runs record commit k w k' w' r Hx).
  - intros W record f k w k' w' r. apply Resolve_runs.
Qed.
End Laws.

(** * A tombstone refused after the accounting committed *)

Module Sample.
#[local] Existing Instances Message.Sample.toy_keccak AllocationMode.memory_store AllocationMode.memory_store_laws.
#[local] Instance toy_sha : Sha256 := λ s, s.
#[local] Instance toy_json : Json := λ _, "{}"%string.
#[local] Instance toy_snapshots : SnapshotCodec :=
  {| marshal_snapshot _ := Some "{}"%string; unmarshal_snapshot _ := None |}.

(** The memory store, except that it refuses tombstones, as a database does that is
    not reachable at that moment. It keeps the laws of a store. *)
#[local] Instance refusing : Store MemoryStore := {
  Create := memory_Create;
  CompareAndSwap := memory_CompareAndSwap;
  QuarantinePendingReversal := memory_QuarantinePendingReversal;
  CreateTombstone _ t := (t, Err ErrInvalidStore);
  ResolvePendingReversal W := memory_ResolvePendingReversal;
  LoadAll := memory_LoadAll;
  LoadTombstones := memory_LoadTombstones;
  LoadResolvedReversals := memory_LoadResolvedReversals }.
#[local] Instance refusing_laws : StoreLaws MemoryStore.
Proof.
  refine {| stored := ms_records; tombs := ms_tombstones; resolved := ms_resolutions; store_ok := memory_keyed |}.
  - exact (@stored_key _ _ _ _ memory_store_laws).
  - exact (@tombs_key _ _ _ _ memory_store_laws).
  - exact (@resolved_key _ _ _ _ memory_store_laws).
  - exact (@create_law _ _ _ _ memory_store_laws).
  - exact (@swap_law _ _ _ _ memory_store_laws).
  - exact (@quarantine_law _ _ _ _ memory_store_laws).
  - intros record t t' r K [= <- <-]. done.
  - exact (@resolve_law _ _ _ _ memory_store_laws).
  - exact (@resolve_runs _ _ _ _ memory_store_laws).
  - exact (@load_law _ _ _ _ memory_store_laws).
Qed.

Definition t (n : Z) : Time.t := Time.mk n "".
Definition callback (event status : string) : Callback :=
  mkCallback "bank" event "p1" "ref" status "USD" "100" (t 5) (t 100) "ev".
Definition known : list Callback :=
  [callback "e1" StatusProcessing; callback "e2" StatusProvisional; callback "e3" StatusReversed;
   callback "e4" StatusFinal].
Definition bytes (cb : Callback) : string := cb_ProviderEventID cb +:+ cb_Status cb.
#[local] Instance toy_codec : CallbackCodec :=
  {| ed25519_Verify _ _ signature := signature =s "signed";
     marshal_callback cb := Some (bytes cb);
     unmarshal_callback raw := List.find (λ cb, bytes cb =s raw) known |}.
Definition counting : PaymentAccounting Z () := λ _ _ a, (a + 1, Ok ["j"%string]).

Abbreviation C := (Coordinator AllocationMode.MemoryStore MemoryStore).
Abbreviation sys := (@system C Z).
Definition bank : Provider := mkProvider "bank" RailBank (be_bytes 32 7) true "USD" true 1.
Definition intent : Intent :=
  mkIntent "p1" "entity" "key" "corr" "payer" "loan" "bank" "" RailBank "REPAYMENT" "USD" "100"
    (t 50) 1 "" 0 Time.zero Time.zero Time.zero Time.zero Time.zero.
Definition o0 : Orchestrator := mkOrchestrator {["bank" := bank]} ∅ ∅ ∅ ∅ [] [] [] ∅ ∅ ∅.
Definition s0 : sys := (o0, SettlementSample.k0, 0, []).
Definition s1 : sys := ((CreateIntent intent (t 3) o0).1, SettlementSample.k0, 0, []).
Definition deliver (s : sys) (cb : Callback) : sys :=
  let '(o, k, a, log) := s in
  let '(o', k', (a', ts), out) :=
    @IngestCallback _ _ _ _ _ _ (logged counting) (t 9) "bank" (cb_ProviderEventID cb) (bytes cb)
      "signed" (t 6) o k (a, []) in
  (o', k', a', log ++ (pair (answered out) <$> ts)).
Definition s5 : sys := foldl deliver s1 known.

Lemma delivery_step s cb : sys_step counting s (deliver s cb).
Proof.
  destruct s as [[[o k] a] log]. unfold deliver.
  destruct (IngestCallback _ _ _ _ _ _ _ _ _) as [[[o' k'] [a' ts]] out] eqn:Hi.
  exact (call_ingest counting _ _ _ _ _ _ _ _ _ _ _ _ _ _ _ Hi).
Qed.
Lemma bank_registered : New [bank] SettlementSample.k0 = Ok o0.
Proof. vm_compute. reflexivity. Qed.
Lemma s5_reachable : sys_reachable counting s5.
Proof.
  exists [bank], o0, SettlementSample.k0, 0. split; [exact bank_registered|].
  eapply rtc_l; [exact (call_create counting intent (t 3) o0 SettlementSample.k0 0 [])|].
  unfold s5. change (rtc (sys_step counting) s1 (foldl deliver s1 known)). generalize s1.
  induction known as [|cb l IH]; intros s; [apply rtc_refl|]. eapply rtc_l; [apply delivery_step|]. apply IH.
Qed.

(** The reversal is booked, its delivery fails and the payment stays provisional; the
    final report is then booked after the reversal. *)
Lemma reversal_booked_without_tombstone :
  sys_reachable counting s5 ∧ t_To <$> sys_kept s5 = [StatusProvisional; StatusFinal] ∧
  t_To <$> sys_lost s5 = [StatusReversed] ∧
  (t_To ∘ snd) <$> sys_log s5 = [StatusProvisional; StatusReversed; StatusFinal] ∧
  i_Status <$> sys_payments s5 !! "p1"%string = Some StatusFinal.
Proof. split; [exact s5_reachable|]. split_and!; vm_compute; reflexivity. Qed.

Lemma accounting_at_most_once_witness :
  t_To <$> booked "p1" (sys_kept s5) = [StatusProvisional; StatusFinal] ∧
  StronglySorted earlier (booked "p1" (sys_kept s5)) ∧ Forall (lost_ok (sys_payments s5)) (sys_lost s5).
Proof.
  split; [vm_compute; reflexivity|].
  destruct (accounting_at_most_once counting s5 "p1" s5_reachable) as (Hs & _ & _ & Hl).
  split; [exact Hs|exact Hl].
Defined.

End Sample.
