(* ===== verification/SettlementAccounting.v ===== *)
(** Settlement accounting ([foundation-ledger/internal/settlementaccounting] and its
    adapter [settlementintegration]): the confirmation and reorganization evidence the
    ledger accepts, the journals a canonical settlement posts, and their compensation.

    The opaque values ([VerifiedConfirmation], [VerifiedReorg], and the coordinator's
    [settlement.Confirmation] and [DurableReorgAuthority]) wrap exactly the record that
    their accessor returns; the model passes that record. *)
From S2P Require Import Prelude GoStd Rlp Gateway SettlementTypes Ledger.

(** * Data *)

Inductive error :=
  | ErrInvalidConfirmation | ErrConfirmationConflict | ErrPaymentAlreadyClaimed
  | ErrInvalidSourceEvidence | ErrInvalidReorg | ErrReorgConflict
  | ErrLedger (inner : Ledger.error).

Definition AccountProviderBankAsset : string := "1100".
Definition AccountProviderCardAsset : string := "1120".
Definition AccountRestrictedToken : string := "1260".
Definition AccountPrincipalReceivable : string := "1310".
Definition AccountLenderRepaymentPayable : string := "2130".
Definition AccountRefundPayable : string := "2150".
Definition AccountLenderPrincipalClaims : string := "2310".
Definition AccountUnallocatedPayment : string := "9120".
Definition AccountConversionClearing : string := "9160".

Record Confirmation := mkConf {
  cf_CanonicalizationID : string;
  cf_InstructionDigest : string;
  cf_PaymentID : string;
  cf_AllocationID : string;
  cf_LoanID : string;
  cf_ChainID : Z;
  cf_Gateway : string;
  cf_LoanAccount : string;
  cf_Finalizer : string;
  cf_Attester : string;
  cf_BorrowerID : string;
  cf_LenderID : string;
  cf_SourceAssetID : string;
  cf_TargetAssetID : string;
  cf_TargetToken : string;
  cf_SourceUnits : string;
  cf_TargetUnits : string;
  cf_PrincipalUnits : string;
  cf_RefundableExcessUnits : string;
  cf_DebtBeforeUnits : string;
  cf_DebtAfterUnits : string;
  cf_StateNonceBefore : Z;
  cf_StateNonceAfter : Z;
  cf_PolicySetHash : string;
  cf_ProviderIDHash : string;
  cf_ProviderReferenceHash : string;
  cf_ReconciliationCommitment : string;
  cf_OriginalJournalSetHash : string;
  cf_ConversionPolicyHash : string;
  cf_FinalityPolicyHash : string;
  cf_InstructionEvidenceHash : string;
  cf_JournalRef : string;
  cf_ProviderFinalizedAt : Z;
  cf_ReversalDeadline : Z;
  cf_OriginalProvisionalJournalID : string;
  cf_OriginalFinalJournalID : string;
  cf_ReconciliationID : string;
  cf_ConversionEvidenceHash : string;
  cf_GatewayTransactionHash : string;
  cf_GatewayEventID : string;
  cf_GatewayBlockHash : string;
  cf_GatewayBlockNumber : Z;
  cf_GatewayLogIndex : Z;
  cf_TransactionIndex : Z;
  cf_ReceiptsRoot : string;
  cf_InclusionProofHash : string;
  cf_ConfirmationDepth : Z;
  cf_FinalityHeadBlock : Z;
  cf_FinalityHeadHash : string;
  cf_HeaderAuthorityHash : string;
  cf_ReceiptHeaderSignatureHash : string;
  cf_HeadHeaderSignatureHash : string;
  cf_FinalityEvidenceHash : string;
  cf_EventEvidenceHash : string;
  cf_CorrelationID : string;
  cf_RawGatewayPayloadHash : string;
  cf_ConfirmedAt : Time.t }.

Record DurableConfirmationAuthority := mkAuthority {
  da_canonicalizationID : string;
  da_conversionEvidenceHash : string;
  da_paymentID : string;
  da_allocationID : string;
  da_instructionDigest : string;
  da_transactionHash : string;
  da_gatewayEventID : string;
  da_eventEvidenceHash : string;
  da_rawPayloadHash : string;
  da_finalityEvidenceHash : string;
  da_transactionIndex : Z;
  da_receiptsRoot : string;
  da_inclusionProofHash : string;
  da_finalityPolicyHash : string;
  da_headerAuthorityHash : string;
  da_receiptHeaderSigHash : string;
  da_headHeaderSigHash : string }.

Record ReorgEvidence := mkReorg {
  rg_ReorgID : string;
  rg_CanonicalizationID : string;
  rg_PaymentID : string;
  rg_AllocationID : string;
  rg_InstructionDigest : string;
  rg_ChainID : Z;
  rg_Gateway : string;
  rg_GatewayTransactionHash : string;
  rg_GatewayEventID : string;
  rg_TransactionIndex : Z;
  rg_ReceiptsRoot : string;
  rg_InclusionProofHash : string;
  rg_FinalityPolicyHash : string;
  rg_HeaderAuthorityHash : string;
  rg_ReceiptHeaderSignatureHash : string;
  rg_ConfirmationHeadHeaderSignatureHash : string;
  rg_ReplacementHeaderSignatureHash : string;
  rg_DetectedHeadHeaderSignatureHash : string;
  rg_OrphanedBlockHash : string;
  rg_OrphanedBlockNumber : Z;
  rg_ReplacementBlockHash : string;
  rg_ReplacementBlockNumber : Z;
  rg_ConfirmationDepth : Z;
  rg_DetectedHeadBlock : Z;
  rg_DetectedHeadHash : string;
  rg_OrphanedEventEvidenceHash : string;
  rg_OrphanedRawPayloadHash : string;
  rg_Deep : bool;
  rg_Owner : string;
  rg_EvidenceHash : string;
  rg_SubmissionSubmittedAt : Time.t;
  rg_OccurredAt : Time.t;
  rg_ResolutionDeadline : Time.t }.

Record ReorgMetadata := mkMetadata {
  md_ReorgID : string;
  md_CanonicalizationID : string;
  md_Owner : string;
  md_ResolutionDeadline : Time.t }.

Record Incident := mkIncident {
  in_IncidentID : string;
  in_ReorgID : string;
  in_CanonicalizationID : string;
  in_InstructionDigest : string;
  in_GatewayTransactionHash : string;
  in_GatewayEventID : string;
  in_Owner : string;
  in_EvidenceHash : string;
  in_ObservedAt : Time.t }.

Record record := mkRecord {
  r_confirmationHash : string;
  r_instructionDigest : string;
  r_gatewayTransactionHash : string;
  r_gatewayEventID : string;
  r_gatewayBlockHash : string;
  r_gatewayBlockNumber : Z;
  r_transactionIndex : Z;
  r_receiptsRoot : string;
  r_inclusionProofHash : string;
  r_finalityPolicyHash : string;
  r_headerAuthorityHash : string;
  r_receiptHeaderSigHash : string;
  r_headHeaderSigHash : string;
  r_instructionEvidenceHash : string;
  r_eventEvidenceHash : string;
  r_rawGatewayPayloadHash : string;
  r_journalIDs : list string;
  r_reorgHash : string;
  r_reversalJournalIDs : list string }.

Record Poster := mkPoster {
  book : Ledger;
  legalEntityID : string;
  loanBookID : string;
  records : gmap string record;
  byPayment : gmap string string;
  byAllocation : gmap string string;
  incidents : gmap string Incident }.

(** [hashJSON] on the two types it is applied to: the hexadecimal SHA-256 of the JSON
    encoding, which is never empty. *)
Class AccountingDigests := {
  hash_confirmation : Confirmation → string;
  hash_reorg : ReorgEvidence → string;
  hash_reorg_nonempty : ∀ reorg, hash_reorg reorg ≠ "" }.

(** * Amounts and hashes *)

Definition canonicalPositive (value : string) : option Z := Big.canonical_positive value.
Definition canonicalNonNegative (value : string) : option Z := Big.canonical_nonneg value.

Definition canonicalHash (value : string) : bool :=
  if negb (blen value =? 66) || negb (String.prefix "0x" value) || (value <>s ToLower value)
  then false
  else match DecodeString (s_drop 2 value) with Some _ => true | None => false end.

Definition nonzeroCanonicalHash (value : string) : bool :=
  if negb (canonicalHash value) then false
  else existsb (λ item, negb (Ascii.eqb item Ascii.zero))
         (String.list_ascii_of_string (default "" (DecodeString (s_drop 2 value)))).

(** [strings.HasSuffix]. *)
Definition HasSuffix (value suffix : string) : bool :=
  (String.length suffix <=? String.length value)%nat &&
  (s_drop (String.length value - String.length suffix) value =s suffix).

Definition validConfirmation (confirmation : Confirmation) : bool :=
  match canonicalPositive (cf_SourceUnits confirmation),
        canonicalPositive (cf_TargetUnits confirmation),
        canonicalPositive (cf_PrincipalUnits confirmation),
        canonicalNonNegative (cf_RefundableExcessUnits confirmation),
        canonicalPositive (cf_DebtBeforeUnits confirmation),
        canonicalNonNegative (cf_DebtAfterUnits confirmation) with
  | Some source, Some target, Some principal, Some excess, Some debtBefore, Some debtAfter =>
     if negb (source =? target) || negb (principal + excess =? target) ||
        negb (principal + debtAfter =? debtBefore)
     then false
     else
     negb (empty_s (cf_CanonicalizationID confirmation)) &&
     negb (empty_s (cf_InstructionDigest confirmation)) &&
     negb (empty_s (cf_PaymentID confirmation)) && negb (empty_s (cf_AllocationID confirmation))
     && negb (empty_s (cf_LoanID confirmation)) && (0 <? cf_ChainID confirmation) &&
     negb (empty_s (cf_Gateway confirmation)) && negb (empty_s (cf_LoanAccount confirmation)) &&
     negb (empty_s (cf_Finalizer confirmation)) && negb (empty_s (cf_Attester confirmation)) &&
     negb (empty_s (cf_BorrowerID confirmation)) && negb (empty_s (cf_LenderID confirmation)) &&
     (cf_BorrowerID confirmation <>s cf_LenderID confirmation) &&
     negb (empty_s (cf_SourceAssetID confirmation)) &&
     negb (empty_s (cf_TargetAssetID confirmation)) &&
     (cf_SourceAssetID confirmation <>s cf_TargetAssetID confirmation) &&
     negb (empty_s (cf_TargetToken confirmation)) && (0 <? cf_StateNonceBefore confirmation) &&
     (cf_StateNonceBefore confirmation <? cf_StateNonceAfter confirmation) &&
     negb (empty_s (cf_PolicySetHash confirmation)) &&
     negb (empty_s (cf_ProviderIDHash confirmation)) &&
     negb (empty_s (cf_ProviderReferenceHash confirmation)) &&
     negb (empty_s (cf_ReconciliationCommitment confirmation)) &&
     negb (empty_s (cf_OriginalJournalSetHash confirmation)) &&
     negb (empty_s (cf_ConversionPolicyHash confirmation)) &&
     canonicalHash (cf_FinalityPolicyHash confirmation) &&
     negb (empty_s (cf_InstructionEvidenceHash confirmation)) &&
     negb (empty_s (cf_JournalRef confirmation)) && (0 <? cf_ProviderFinalizedAt confirmation) &&
     (cf_ProviderFinalizedAt confirmation <? cf_ReversalDeadline confirmation) &&
     negb (empty_s (cf_OriginalProvisionalJournalID confirmation)) &&
     negb (empty_s (cf_OriginalFinalJournalID confirmation)) &&
     negb (empty_s (cf_ReconciliationID confirmation)) &&
     negb (empty_s (cf_ConversionEvidenceHash confirmation)) &&
     negb (empty_s (cf_GatewayTransactionHash confirmation)) &&
     negb (empty_s (cf_GatewayEventID confirmation)) &&
     negb (empty_s (cf_GatewayBlockHash confirmation)) &&
     (0 <? cf_GatewayBlockNumber confirmation) && canonicalHash (cf_ReceiptsRoot confirmation) &&
     canonicalHash (cf_InclusionProofHash confirmation) &&
     (0 <? cf_ConfirmationDepth confirmation) &&
     (cf_GatewayBlockNumber confirmation <=? cf_FinalityHeadBlock confirmation) &&
     (cf_ConfirmationDepth confirmation <=?
      u64 (cf_FinalityHeadBlock confirmation - cf_GatewayBlockNumber confirmation))
     && negb (empty_s (cf_FinalityHeadHash confirmation)) &&
     canonicalHash (cf_HeaderAuthorityHash confirmation) &&
     canonicalHash (cf_ReceiptHeaderSignatureHash confirmation) &&
     canonicalHash (cf_HeadHeaderSignatureHash confirmation) &&
     negb (empty_s (cf_FinalityEvidenceHash confirmation)) &&
     nonzeroCanonicalHash (cf_EventEvidenceHash confirmation) &&
     negb (empty_s (cf_CorrelationID confirmation)) &&
     negb (empty_s (cf_RawGatewayPayloadHash confirmation)) &&
     negb (Time.IsZero (cf_ConfirmedAt confirmation))
  | _, _, _, _, _, _ => false
  end.

(** * Authority *)

(** An argument of a database query, or a column of a row. *)
Inductive arg := ArgS (s : string) | ArgU (n : Z) | ArgT (at_ : Time.t).

(** [authorityQueryer]: [QueryRowContext] with the fixed query text followed by [Scan];
    [None] is an error of either (no matching row included). *)
Definition authorityQueryer : Type := list arg → option (string * string).

Definition authority_args (projection : AccountingProjection) : list arg :=
  [ArgS (ap_PaymentID projection); ArgS (ap_AllocationID projection);
   ArgS (ap_InstructionDigest projection); ArgS (ap_TransactionHash projection);
   ArgS (ap_EventID projection); ArgS (ap_GatewayPayloadHash projection);
   ArgS (ap_FinalityEvidenceHash projection); ArgU (ap_ChainID projection);
   ArgS (ap_Gateway projection); ArgS (ap_BlockHash projection);
   ArgU (ap_BlockNumber projection); ArgU (ap_LogIndex projection);
   ArgS (Big.to_string (ap_TransactionIndex projection));
   ArgS (ap_ReceiptsRoot projection); ArgS (ap_InclusionProofHash projection);
   ArgS (ap_FinalityPolicyHash projection); ArgS (ap_HeaderAuthorityHash projection);
   ArgS (ap_ReceiptHeaderSignatureHash projection);
   ArgS (ap_HeadHeaderSignatureHash projection); ArgS (ap_EventEvidenceHash projection)].

Definition authority_of (projection : AccountingProjection) (row : string * string)
    : DurableConfirmationAuthority := {|
  da_canonicalizationID := fst row;
  da_conversionEvidenceHash := snd row;
  da_paymentID := ap_PaymentID projection;
  da_allocationID := ap_AllocationID projection;
  da_instructionDigest := ap_InstructionDigest projection;
  da_transactionHash := ap_TransactionHash projection;
  da_gatewayEventID := ap_EventID projection;
  da_eventEvidenceHash := ap_EventEvidenceHash projection;
  da_rawPayloadHash := ap_GatewayPayloadHash projection;
  da_finalityEvidenceHash := ap_FinalityEvidenceHash projection;
  da_transactionIndex := ap_TransactionIndex projection;
  da_receiptsRoot := ap_ReceiptsRoot projection;
  da_inclusionProofHash := ap_InclusionProofHash projection;
  da_finalityPolicyHash := ap_FinalityPolicyHash projection;
  da_headerAuthorityHash := ap_HeaderAuthorityHash projection;
  da_receiptHeaderSigHash := ap_ReceiptHeaderSignatureHash projection;
  da_headHeaderSigHash := ap_HeadHeaderSignatureHash projection |}.

Definition loadDurableConfirmationAuthority (queryer : option authorityQueryer)
    (input : SettlementTypes.Confirmation) : result error DurableConfirmationAuthority :=
  let projection := value input in
  match queryer with
  | None => Err ErrInvalidConfirmation
  | Some query =>
  if empty_s (ap_PaymentID projection) || empty_s (ap_AllocationID projection) ||
     empty_s (ap_InstructionDigest projection) || empty_s (ap_TransactionHash projection) ||
     empty_s (ap_EventID projection) ||
     negb (nonzeroCanonicalHash (ap_EventEvidenceHash projection)) ||
     empty_s (ap_GatewayPayloadHash projection) || empty_s (ap_FinalityEvidenceHash projection) ||
     negb (canonicalHash (ap_FinalityPolicyHash projection)) ||
     negb (canonicalHash (ap_ReceiptsRoot projection)) ||
     negb (canonicalHash (ap_InclusionProofHash projection)) ||
     negb (canonicalHash (ap_HeaderAuthorityHash projection)) ||
     negb (canonicalHash (ap_ReceiptHeaderSignatureHash projection)) ||
     negb (canonicalHash (ap_HeadHeaderSignatureHash projection))
  then Err ErrInvalidConfirmation
  else match query (authority_args projection) with
  | None => Err ErrInvalidConfirmation
  | Some row =>
      if empty_s (fst row) || empty_s (snd row) then Err ErrInvalidConfirmation
      else Ok (authority_of projection row)
  end
  end.

(** [LoadDurableConfirmationAuthority] refuses a nil database and wraps any other. *)
Definition LoadDurableConfirmationAuthority (db : option authorityQueryer)
    (input : SettlementTypes.Confirmation) : result error DurableConfirmationAuthority :=
  match db with
  | None => Err ErrInvalidConfirmation
  | Some db => loadDurableConfirmationAuthority (Some db) input
  end.

(** The loop that sorts the original journals by suffix. *)
Fixpoint original_journals (ids : list string) (provisionalID finalID : string)
    : option (string * string) :=
  match ids with
  | [] => Some (provisionalID, finalID)
  | journalID :: rest =>
      if HasSuffix journalID ":provisional" then original_journals rest journalID finalID
      else if HasSuffix journalID ":final" then original_journals rest provisionalID journalID
      else None
  end.

Definition confirmation_of (authority : DurableConfirmationAuthority)
    (projection : AccountingProjection) (provisionalID finalID : string) : Confirmation := {|
  cf_CanonicalizationID := da_canonicalizationID authority;
  cf_InstructionDigest := ap_InstructionDigest projection;
  cf_PaymentID := ap_PaymentID projection;
  cf_AllocationID := ap_AllocationID projection;
  cf_LoanID := ap_LoanID projection;
  cf_ChainID := ap_ChainID projection;
  cf_Gateway := ap_Gateway projection;
  cf_LoanAccount := ap_LoanAccount projection;
  cf_Finalizer := ap_Finalizer projection;
  cf_Attester := ap_Attester projection;
  cf_BorrowerID := ap_BorrowerID projection;
  cf_LenderID := ap_LenderID projection;
  cf_SourceAssetID := ap_SourceAssetID projection;
  cf_TargetAssetID := ap_TargetAssetID projection;
  cf_TargetToken := ap_TargetToken projection;
  cf_SourceUnits := ap_SourceUnits projection;
  cf_TargetUnits := ap_TargetUnits projection;
  cf_PrincipalUnits := ap_PrincipalUnits projection;
  cf_RefundableExcessUnits := ap_RefundableExcessUnits projection;
  cf_DebtBeforeUnits := ap_DebtBeforeUnits projection;
  cf_DebtAfterUnits := ap_DebtAfterUnits projection;
  cf_StateNonceBefore := ap_StateNonceBefore projection;
  cf_StateNonceAfter := ap_StateNonceAfter projection;
  cf_PolicySetHash := ap_PolicySetHash projection;
  cf_ProviderIDHash := ap_ProviderIDHash projection;
  cf_ProviderReferenceHash := ap_ProviderReferenceHash projection;
  cf_ReconciliationCommitment := ap_ReconciliationCommitment projection;
  cf_OriginalJournalSetHash := ap_OriginalJournalSetHash projection;
  cf_ConversionPolicyHash := ap_ConversionPolicyHash projection;
  cf_FinalityPolicyHash := ap_FinalityPolicyHash projection;
  cf_InstructionEvidenceHash := ap_EligibilityEvidenceHash projection;
  cf_JournalRef := ap_JournalRef projection;
  cf_ProviderFinalizedAt := ap_ProviderFinalizedAt projection;
  cf_ReversalDeadline := ap_ReversalDeadlineUnix projection;
  cf_OriginalProvisionalJournalID := provisionalID;
  cf_OriginalFinalJournalID := finalID;
  cf_ReconciliationID := ap_ReconciliationID projection;
  cf_ConversionEvidenceHash := da_conversionEvidenceHash authority;
  cf_GatewayTransactionHash := ap_TransactionHash projection;
  cf_GatewayEventID := ap_EventID projection;
  cf_GatewayBlockHash := ap_BlockHash projection;
  cf_GatewayBlockNumber := ap_BlockNumber projection;
  cf_GatewayLogIndex := ap_LogIndex projection;
  cf_TransactionIndex := ap_TransactionIndex projection;
  cf_ReceiptsRoot := ap_ReceiptsRoot projection;
  cf_InclusionProofHash := ap_InclusionProofHash projection;
  cf_ConfirmationDepth := ap_ConfirmationDepth projection;
  cf_FinalityHeadBlock := ap_FinalityHeadBlock projection;
  cf_FinalityHeadHash := ap_FinalityHeadHash projection;
  cf_HeaderAuthorityHash := ap_HeaderAuthorityHash projection;
  cf_ReceiptHeaderSignatureHash := ap_ReceiptHeaderSignatureHash projection;
  cf_HeadHeaderSignatureHash := ap_HeadHeaderSignatureHash projection;
  cf_FinalityEvidenceHash := ap_FinalityEvidenceHash projection;
  cf_EventEvidenceHash := ap_EventEvidenceHash projection;
  cf_CorrelationID := ap_CorrelationID projection;
  cf_RawGatewayPayloadHash := ap_GatewayPayloadHash projection;
  cf_ConfirmedAt := ap_ConfirmedAt projection |}.

Definition VerifyConfirmation (authority : DurableConfirmationAuthority)
    (input : SettlementTypes.Confirmation) : result error Confirmation :=
  let projection := value input in
  if empty_s (da_canonicalizationID authority) || empty_s (da_conversionEvidenceHash authority) ||
     (da_paymentID authority <>s ap_PaymentID projection) ||
     (da_allocationID authority <>s ap_AllocationID projection) ||
     (da_instructionDigest authority <>s ap_InstructionDigest projection) ||
     (da_transactionHash authority <>s ap_TransactionHash projection) ||
     (da_gatewayEventID authority <>s ap_EventID projection) ||
     (da_eventEvidenceHash authority <>s ap_EventEvidenceHash projection) ||
     (da_rawPayloadHash authority <>s ap_GatewayPayloadHash projection) ||
     (da_finalityEvidenceHash authority <>s ap_FinalityEvidenceHash projection) ||
     negb (da_transactionIndex authority =? ap_TransactionIndex projection) ||
     (da_receiptsRoot authority <>s ap_ReceiptsRoot projection) ||
     (da_inclusionProofHash authority <>s ap_InclusionProofHash projection) ||
     (da_finalityPolicyHash authority <>s ap_FinalityPolicyHash projection) ||
     (da_headerAuthorityHash authority <>s ap_HeaderAuthorityHash projection) ||
     (da_receiptHeaderSigHash authority <>s ap_ReceiptHeaderSignatureHash projection) ||
     (da_headHeaderSigHash authority <>s ap_HeadHeaderSignatureHash projection) ||
     empty_s (ap_InstructionDigest projection) || negb (length (ap_OriginalJournalIDs projection) =? 2)%nat
  then Err ErrInvalidConfirmation
  else match original_journals (ap_OriginalJournalIDs projection) "" "" with
  | None => Err ErrInvalidConfirmation
  | Some (provisionalID, finalID) =>
      if (provisionalID <>s "payment:" +:+ ap_PaymentID projection +:+ ":provisional") ||
         (finalID <>s "payment:" +:+ ap_PaymentID projection +:+ ":final")
      then Err ErrInvalidConfirmation
      else
        let confirmation := confirmation_of authority projection provisionalID finalID in
        if negb (validConfirmation confirmation) then Err ErrInvalidConfirmation
        else Ok confirmation
  end.

Definition reorg_of (metadata : ReorgMetadata) (projection : AccountingProjection)
    (reorg : SettlementTypes.ReorgEvidence) : ReorgEvidence := {|
  rg_ReorgID := md_ReorgID metadata;
  rg_CanonicalizationID := md_CanonicalizationID metadata;
  rg_PaymentID := re_PaymentID reorg;
  rg_AllocationID := re_AllocationID reorg;
  rg_InstructionDigest := re_InstructionDigest reorg;
  rg_ChainID := re_ChainID reorg;
  rg_Gateway := re_Gateway reorg;
  rg_GatewayTransactionHash := re_OrphanedTxHash reorg;
  rg_GatewayEventID := re_OrphanedEventID reorg;
  rg_TransactionIndex := re_TransactionIndex reorg;
  rg_ReceiptsRoot := re_ReceiptsRoot reorg;
  rg_InclusionProofHash := re_InclusionProofHash reorg;
  rg_FinalityPolicyHash := ap_FinalityPolicyHash projection;
  rg_HeaderAuthorityHash := ap_HeaderAuthorityHash projection;
  rg_ReceiptHeaderSignatureHash := re_OrphanedReceiptHeaderSignatureHash reorg;
  rg_ConfirmationHeadHeaderSignatureHash := ap_HeadHeaderSignatureHash projection;
  rg_ReplacementHeaderSignatureHash := re_ReplacementHeaderSignatureHash reorg;
  rg_DetectedHeadHeaderSignatureHash := re_DetectedHeadHeaderSignatureHash reorg;
  rg_OrphanedBlockHash := re_OrphanedBlockHash reorg;
  rg_OrphanedBlockNumber := re_OrphanedBlock reorg;
  rg_ReplacementBlockHash := re_ReplacementBlockHash reorg;
  rg_ReplacementBlockNumber := re_ReplacementBlock reorg;
  rg_ConfirmationDepth := re_ConfirmationDepth reorg;
  rg_DetectedHeadBlock := re_DetectedHead reorg;
  rg_DetectedHeadHash := re_DetectedHeadHash reorg;
  rg_OrphanedEventEvidenceHash := re_OrphanedEventEvidenceHash reorg;
  rg_OrphanedRawPayloadHash := re_RawEvidenceHash reorg;
  rg_Deep := re_Deep reorg;
  rg_Owner := md_Owner metadata;
  rg_EvidenceHash := re_EvidenceHash reorg;
  rg_SubmissionSubmittedAt := Time.UTC (re_SubmissionSubmittedAt reorg);
  rg_OccurredAt := Time.UTC (re_DetectedAt reorg);
  rg_ResolutionDeadline := Time.UTC (md_ResolutionDeadline metadata) |}.

Definition VerifyReorg (metadata : ReorgMetadata) (coordinatorConfirmation : SettlementTypes.Confirmation)
    (reorg : SettlementTypes.ReorgEvidence) : result error ReorgEvidence :=
  let projection := value coordinatorConfirmation in
  if empty_s (md_ReorgID metadata) || empty_s (md_CanonicalizationID metadata) ||
     (md_ReorgID metadata <>s re_ReorgID reorg) || empty_s (md_Owner metadata) ||
     Time.IsZero (md_ResolutionDeadline metadata) ||
     (re_PaymentID reorg <>s ap_PaymentID projection) ||
     (re_AllocationID reorg <>s ap_AllocationID projection) ||
     (re_InstructionDigest reorg <>s ap_InstructionDigest projection) ||
     negb (re_ChainID reorg =? ap_ChainID projection) ||
     (re_Gateway reorg <>s ap_Gateway projection) ||
     (re_OrphanedTxHash reorg <>s ap_TransactionHash projection) ||
     (re_OrphanedEventID reorg <>s ap_EventID projection) ||
     negb (re_TransactionIndex reorg =? ap_TransactionIndex projection) ||
     (re_ReceiptsRoot reorg <>s ap_ReceiptsRoot projection) ||
     (re_InclusionProofHash reorg <>s ap_InclusionProofHash projection) ||
     (re_OrphanedReceiptHeaderSignatureHash reorg <>s ap_ReceiptHeaderSignatureHash projection) ||
     (re_FinalityPolicyHash reorg <>s ap_FinalityPolicyHash projection) ||
     (re_HeaderAuthorityHash reorg <>s ap_HeaderAuthorityHash projection) ||
     negb (canonicalHash (ap_FinalityPolicyHash projection)) ||
     negb (canonicalHash (ap_HeaderAuthorityHash projection)) ||
     negb (canonicalHash (ap_HeadHeaderSignatureHash projection)) ||
     negb (canonicalHash (re_ReceiptsRoot reorg)) ||
     negb (canonicalHash (re_InclusionProofHash reorg)) ||
     negb (canonicalHash (re_OrphanedReceiptHeaderSignatureHash reorg)) ||
     negb (canonicalHash (re_ReplacementHeaderSignatureHash reorg)) ||
     negb (canonicalHash (re_DetectedHeadHeaderSignatureHash reorg)) ||
     (re_OrphanedBlockHash reorg <>s ap_BlockHash projection) ||
     negb (re_OrphanedBlock reorg =? ap_BlockNumber projection) ||
     (re_OrphanedEventEvidenceHash reorg <>s ap_EventEvidenceHash projection) ||
     (re_RawEvidenceHash reorg <>s ap_GatewayPayloadHash projection) ||
     negb (nonzeroCanonicalHash (re_OrphanedEventEvidenceHash reorg)) ||
     negb (re_ConfirmationDepth reorg =? ap_ConfirmationDepth projection) ||
     empty_s (re_ReplacementBlockHash reorg) || (re_ReplacementBlock reorg =? 0) ||
     (re_DetectedHead reorg <? re_OrphanedBlock reorg) || empty_s (re_DetectedHeadHash reorg) ||
     negb (re_Deep reorg) || negb (re_CompensationRequired reorg) ||
     empty_s (re_EvidenceHash reorg) || Time.IsZero (re_DetectedAt reorg) ||
     Time.IsZero (re_SubmissionSubmittedAt reorg) ||
     Time.After (re_SubmissionSubmittedAt reorg) (re_DetectedAt reorg) ||
     Time.After (re_SubmissionSubmittedAt reorg) (ap_ConfirmedAt projection) ||
     negb (Time.After (md_ResolutionDeadline metadata) (re_DetectedAt reorg))
  then Err ErrInvalidReorg
  else Ok (reorg_of metadata projection reorg).

(** [settlementintegration.AdaptConfirmation] joins a second error to the first. *)
Definition AdaptConfirmation (authority : DurableConfirmationAuthority)
    (input : SettlementTypes.Confirmation) : result (string * error) Confirmation :=
  match VerifyConfirmation authority input with
  | Err err => Err ("invalid settlement integration confirmation"%string, err)
  | Ok verified => Ok verified
  end.

Definition AdaptVerifiedReorg (metadata : ReorgMetadata) (confirmation : SettlementTypes.Confirmation)
    (authority : SettlementTypes.ReorgEvidence) : result error ReorgEvidence :=
  VerifyReorg metadata confirmation authority.

(** * The poster *)

Definition New (book : option Ledger) (legalEntityID loanBookID : string) : result error Poster :=
  match book with
  | None => Err ErrInvalidConfirmation
  | Some book =>
      if empty_s legalEntityID || empty_s loanBookID then Err ErrInvalidConfirmation
      else Ok (mkPoster book legalEntityID loanBookID ∅ ∅ ∅ ∅)
  end.

Definition journalBelongsToPayment (journal : PostedJournal) (paymentID : string) : bool :=
  let journal := p_Journal journal in
  (j_ID journal =s "payment:" +:+ paymentID +:+ ":provisional") ||
  (j_ID journal =s "payment:" +:+ paymentID +:+ ":final") ||
  (j_SourceEventID journal =s paymentID) ||
  String.prefix ("payment:" +:+ paymentID +:+ ":") (j_IdempotencyKey journal).

Definition canonical_prefix (confirmation : Confirmation) : string :=
  "payment:" +:+ cf_PaymentID confirmation +:+ ":canonical:".
Definition exactCanonicalPrefix (confirmation : Confirmation) : string :=
  "payment:" +:+ cf_PaymentID confirmation +:+ ":canonical:" +:+
  cf_CanonicalizationID confirmation +:+ ":".

(** The first loop of [ApplyConfirmation] over the book: a journal of the payment under
    another canonicalization. *)
Definition claimed_elsewhere (confirmation : Confirmation) (item : PostedJournal) : bool :=
  let item := p_Journal item in
  (j_SourceSystem item =s "canonical-settlement") &&
  String.prefix (canonical_prefix confirmation) (j_IdempotencyKey item) &&
  negb (String.prefix (exactCanonicalPrefix confirmation) (j_IdempotencyKey item)).

(** ** Source evidence *)

(** The inner loop over the lines of one journal. *)
Fixpoint source_lines (assetID : string) (lines : list Entry) (sourceBalance : Z) : option Z :=
  match lines with
  | [] => Some sourceBalance
  | line :: rest =>
      if (e_AccountCode line <>s AccountUnallocatedPayment) || (e_AssetID line <>s assetID)
      then source_lines assetID rest sourceBalance
      else match canonicalNonNegative (e_Units line) with
      | None => None
      | Some units =>
          source_lines assetID rest
            (if e_Side line =s Credit then sourceBalance + units else sourceBalance - units)
      end
  end.

(** The loop over [book.List()]. Go walks the map in an unspecified order, which can
    change which error is reported but not whether there is one. *)
Fixpoint source_scan (confirmation : Confirmation) (provisional final : Journal)
    (items : list PostedJournal) (sourceBalance : Z) : result error Z :=
  match items with
  | [] => Ok sourceBalance
  | item :: rest =>
      let j := p_Journal item in
      if (j_ReversalOf j =s j_ID provisional) || (j_ReversalOf j =s j_ID final)
      then Err ErrInvalidSourceEvidence
      else if (j_SourceSystem j =s "payment-allocation") &&
              (j_SourceEventID j =s cf_PaymentID confirmation)
      then Err ErrPaymentAlreadyClaimed
      else if (j_SourceSystem j =s "canonical-settlement") &&
              String.prefix (exactCanonicalPrefix confirmation) (j_IdempotencyKey j)
      then source_scan confirmation provisional final rest sourceBalance
      else if negb (journalBelongsToPayment item (cf_PaymentID confirmation))
      then source_scan confirmation provisional final rest sourceBalance
      else match source_lines (cf_SourceAssetID confirmation) (j_Entries j) sourceBalance with
      | None => Err ErrInvalidSourceEvidence
      | Some sourceBalance => source_scan confirmation provisional final rest sourceBalance
      end
  end.

Definition source_line_ok (confirmation : Confirmation) (line : Entry) : bool :=
  negb ((e_AssetID line <>s cf_SourceAssetID confirmation) ||
        (e_Units line <>s cf_SourceUnits confirmation) ||
        (e_LoanID line <>s cf_LoanID confirmation) ||
        (e_PartyID line <>s cf_BorrowerID confirmation)).

Definition validateSource (poster : Poster) (confirmation : Confirmation)
    : result error (Journal * Journal * string) :=
  match Get (cf_OriginalProvisionalJournalID confirmation) (book poster),
        Get (cf_OriginalFinalJournalID confirmation) (book poster) with
  | Some provisional, Some final =>
      let provisional := p_Journal provisional in
      let final := p_Journal final in
      if (j_ID provisional <>s "payment:" +:+ cf_PaymentID confirmation +:+ ":provisional") ||
         (j_ID final <>s "payment:" +:+ cf_PaymentID confirmation +:+ ":final") ||
         (j_LegalEntityID provisional <>s legalEntityID poster) ||
         (j_LegalEntityID final <>s legalEntityID poster) ||
         (j_BookID provisional <>s j_BookID final) ||
         (j_SourceSystem provisional <>s "payment-orchestrator") ||
         (j_SourceSystem final <>s "payment-orchestrator") ||
         (j_EntryType provisional <>s "PAYMENT_PROVISIONAL") ||
         (j_EntryType final <>s "PAYMENT_FINAL") ||
         (j_LoanID provisional <>s cf_LoanID confirmation) ||
         (j_LoanID final <>s cf_LoanID confirmation)
      then Err ErrInvalidSourceEvidence
      else match j_Entries provisional, j_Entries final with
      | [p0; p1], [f0; f1] =>
          let pendingAccount := e_AccountCode p0 in
          let sourceAccount := e_AccountCode f0 in
          if ((pendingAccount <>s "9130") && (pendingAccount <>s "9140")) ||
             ((sourceAccount <>s AccountProviderBankAsset) &&
              (sourceAccount <>s AccountProviderCardAsset)) ||
             (e_Side p0 <>s Debit) || (e_AccountCode p1 <>s AccountUnallocatedPayment) ||
             (e_Side p1 <>s Credit) || (e_Side f0 <>s Debit) ||
             (e_AccountCode f1 <>s pendingAccount) || (e_Side f1 <>s Credit)
          then Err ErrInvalidSourceEvidence
          else if negb (forallb (source_line_ok confirmation) [p0; p1; f0; f1])
          then Err ErrInvalidSourceEvidence
          else
            let? sourceBalance := source_scan confirmation provisional final (List_ (book poster)) 0 in
            if negb (sourceBalance =? default 0 (canonicalNonNegative (cf_SourceUnits confirmation)))
            then Err ErrInvalidSourceEvidence
            else Ok (provisional, final, sourceAccount)
      | _, _ => Err ErrInvalidSourceEvidence
      end
  | _, _ => Err ErrInvalidSourceEvidence
  end.

(** ** Journals *)

Definition entry (confirmation : Confirmation) (accountCode side assetID units partyID : string)
    : Entry :=
  mkEntry accountCode side assetID units partyID (cf_LoanID confirmation) "".

Definition journal (poster : Poster) (confirmation : Confirmation)
    (bookID suffix entryType : string) (entries : list Entry) : Journal :=
  mkJournal ("canonical:" +:+ cf_CanonicalizationID confirmation +:+ ":" +:+ suffix)
    (legalEntityID poster) bookID "canonical-settlement" entryType
    (cf_GatewayEventID confirmation) (cf_LoanID confirmation)
    ("payment:" +:+ cf_PaymentID confirmation +:+ ":canonical:" +:+
     cf_CanonicalizationID confirmation +:+ ":" +:+ suffix)
    (cf_CorrelationID confirmation) (Time.UTC (cf_ConfirmedAt confirmation)) entries
    (cf_RawGatewayPayloadHash confirmation) "" "".

Definition excess_units (confirmation : Confirmation) : Z :=
  default 0 (canonicalNonNegative (cf_RefundableExcessUnits confirmation)).

Definition principalEntries (c : Confirmation) : list Entry :=
  [entry c AccountUnallocatedPayment Debit (cf_TargetAssetID c) (cf_TargetUnits c) "";
   entry c AccountPrincipalReceivable Credit (cf_TargetAssetID c) (cf_PrincipalUnits c)
     (cf_BorrowerID c)] ++
  (if 0 <? excess_units c
   then [entry c AccountRefundPayable Credit (cf_TargetAssetID c) (cf_RefundableExcessUnits c)
           (cf_BorrowerID c)]
   else []).

Definition buildJournals (poster : Poster) (c : Confirmation) (provisional : Journal)
    (sourceAccount : string) : list Journal :=
  let sourceBookID := j_BookID provisional in
  [journal poster c sourceBookID "source-unallocated" "CANONICAL_SOURCE_CLEARED"
     [entry c AccountUnallocatedPayment Debit (cf_SourceAssetID c) (cf_SourceUnits c)
        (cf_BorrowerID c);
      entry c AccountConversionClearing Credit (cf_SourceAssetID c) (cf_SourceUnits c) ""];
   journal poster c sourceBookID "source-converted" "CANONICAL_SOURCE_CONVERTED"
     [entry c AccountConversionClearing Debit (cf_SourceAssetID c) (cf_SourceUnits c) "";
      entry c sourceAccount Credit (cf_SourceAssetID c) (cf_SourceUnits c) ""];
   journal poster c (loanBookID poster) "target-custody" "CANONICAL_TARGET_CUSTODY"
     [entry c AccountRestrictedToken Debit (cf_TargetAssetID c) (cf_TargetUnits c) "";
      entry c AccountConversionClearing Credit (cf_TargetAssetID c) (cf_TargetUnits c) ""];
   journal poster c (loanBookID poster) "target-unallocated" "CANONICAL_TARGET_UNALLOCATED"
     [entry c AccountConversionClearing Debit (cf_TargetAssetID c) (cf_TargetUnits c) "";
      entry c AccountUnallocatedPayment Credit (cf_TargetAssetID c) (cf_TargetUnits c)
        (cf_BorrowerID c)];
   journal poster c (loanBookID poster) "allocation" "CANONICAL_PAYMENT_ALLOCATED"
     (principalEntries c);
   journal poster c (loanBookID poster) "lender-claim" "CANONICAL_LENDER_CLAIM_ALLOCATED"
     [entry c AccountLenderPrincipalClaims Debit (cf_TargetAssetID c) (cf_PrincipalUnits c)
        (cf_LenderID c);
      entry c AccountLenderRepaymentPayable Credit (cf_TargetAssetID c) (cf_PrincipalUnits c)
        (cf_LenderID c)];
   journal poster c (loanBookID poster) "lender-payout" "CANONICAL_LENDER_PAID"
     [entry c AccountLenderRepaymentPayable Debit (cf_TargetAssetID c) (cf_PrincipalUnits c)
        (cf_LenderID c);
      entry c AccountRestrictedToken Credit (cf_TargetAssetID c) (cf_PrincipalUnits c)
        (cf_LenderID c)]] ++
  (if 0 <? excess_units c
   then [journal poster c (loanBookID poster) "borrower-refund" "CANONICAL_BORROWER_REFUNDED"
           [entry c AccountRefundPayable Debit (cf_TargetAssetID c) (cf_RefundableExcessUnits c)
              (cf_BorrowerID c);
            entry c AccountRestrictedToken Credit (cf_TargetAssetID c) (cf_RefundableExcessUnits c)
              (cf_BorrowerID c)]]
   else []).

Definition posted_id (p : PostedJournal) : string := j_ID (p_Journal p).

(** ** Operations *)

Section Operations.
Context `{JournalDigest, AccountingDigests}.

Definition record_of (confirmation : Confirmation) (contentHash : string) (journalIDs : list string)
    : record := {|
  r_confirmationHash := contentHash;
  r_instructionDigest := cf_InstructionDigest confirmation;
  r_gatewayTransactionHash := cf_GatewayTransactionHash confirmation;
  r_gatewayEventID := cf_GatewayEventID confirmation;
  r_gatewayBlockHash := cf_GatewayBlockHash confirmation;
  r_gatewayBlockNumber := cf_GatewayBlockNumber confirmation;
  r_transactionIndex := cf_TransactionIndex confirmation;
  r_receiptsRoot := cf_ReceiptsRoot confirmation;
  r_inclusionProofHash := cf_InclusionProofHash confirmation;
  r_finalityPolicyHash := cf_FinalityPolicyHash confirmation;
  r_headerAuthorityHash := cf_HeaderAuthorityHash confirmation;
  r_receiptHeaderSigHash := cf_ReceiptHeaderSignatureHash confirmation;
  r_headHeaderSigHash := cf_HeadHeaderSignatureHash confirmation;
  r_instructionEvidenceHash := cf_InstructionEvidenceHash confirmation;
  r_eventEvidenceHash := cf_EventEvidenceHash confirmation;
  r_rawGatewayPayloadHash := cf_RawGatewayPayloadHash confirmation;
  r_journalIDs := journalIDs;
  r_reorgHash := "";
  r_reversalJournalIDs := [] |}.

Definition with_book (b : Ledger) (poster : Poster) : Poster :=
  mkPoster b (legalEntityID poster) (loanBookID poster) (records poster) (byPayment poster)
    (byAllocation poster) (incidents poster).

Definition ApplyConfirmation (now : Time.t) (confirmation : Confirmation) (poster : Poster)
    : Poster * result error (list string) :=
  if negb (validConfirmation confirmation) then (poster, Err ErrInvalidConfirmation)
  else
  let contentHash := hash_confirmation confirmation in
  match records poster !! cf_CanonicalizationID confirmation with
  | Some stored =>
      if r_confirmationHash stored <>s contentHash then (poster, Err ErrConfirmationConflict)
      else (poster, Ok (r_journalIDs stored))
  | None =>
  if lookup_zero "" (byPayment poster) (cf_PaymentID confirmation) <>s ""
  then (poster, Err ErrPaymentAlreadyClaimed)
  else if lookup_zero "" (byAllocation poster) (cf_AllocationID confirmation) <>s ""
  then (poster, Err ErrPaymentAlreadyClaimed)
  else if existsb (claimed_elsewhere confirmation) (List_ (book poster))
  then (poster, Err ErrPaymentAlreadyClaimed)
  else match validateSource poster confirmation with
  | Err err => (poster, Err err)
  | Ok (provisional, _, sourceAccount) =>
      match PostBatch now (buildJournals poster confirmation provisional sourceAccount)
              (book poster) with
      | (book', Err err) => (with_book book' poster, Err (ErrLedger err))
      | (book', Ok posted) =>
          let journalIDs := posted_id <$> posted in
          (mkPoster book' (legalEntityID poster) (loanBookID poster)
             (<[cf_CanonicalizationID confirmation :=
                  record_of confirmation contentHash journalIDs]> (records poster))
             (<[cf_PaymentID confirmation := cf_CanonicalizationID confirmation]> (byPayment poster))
             (<[cf_AllocationID confirmation := cf_CanonicalizationID confirmation]>
                (byAllocation poster))
             (incidents poster), Ok journalIDs)
      end
  end
  end.

(** The first guard of [CompensateReorg]. *)
Definition reorg_incomplete (reorg : ReorgEvidence) : bool :=
     empty_s (rg_ReorgID reorg) || empty_s (rg_CanonicalizationID reorg) ||
     empty_s (rg_PaymentID reorg) || empty_s (rg_AllocationID reorg) ||
     empty_s (rg_InstructionDigest reorg) || (rg_ChainID reorg =? 0) || empty_s (rg_Gateway reorg)
     || empty_s (rg_GatewayTransactionHash reorg) || empty_s (rg_GatewayEventID reorg) ||
     negb (canonicalHash (rg_ReceiptsRoot reorg)) ||
     negb (canonicalHash (rg_InclusionProofHash reorg)) ||
     negb (canonicalHash (rg_FinalityPolicyHash reorg)) ||
     negb (canonicalHash (rg_HeaderAuthorityHash reorg)) ||
     negb (canonicalHash (rg_ReceiptHeaderSignatureHash reorg)) ||
     negb (canonicalHash (rg_ConfirmationHeadHeaderSignatureHash reorg)) ||
     empty_s (rg_OrphanedBlockHash reorg) || (rg_OrphanedBlockNumber reorg =? 0) ||
     empty_s (rg_ReplacementBlockHash reorg) || (rg_ReplacementBlockNumber reorg =? 0) ||
     (rg_ConfirmationDepth reorg =? 0) ||
     (rg_DetectedHeadBlock reorg <? rg_OrphanedBlockNumber reorg) ||
     empty_s (rg_DetectedHeadHash reorg) ||
     negb (nonzeroCanonicalHash (rg_OrphanedEventEvidenceHash reorg)) ||
     empty_s (rg_OrphanedRawPayloadHash reorg) || negb (rg_Deep reorg) || empty_s (rg_Owner reorg)
     || empty_s (rg_EvidenceHash reorg) || Time.IsZero (rg_OccurredAt reorg) ||
     negb (Time.After (rg_ResolutionDeadline reorg) (rg_OccurredAt reorg)).

(** The second guard: the evidence against the stored record. *)
Definition reorg_mismatch (reorg : ReorgEvidence) (stored : record) : bool :=
     (rg_InstructionDigest reorg <>s r_instructionDigest stored) ||
     (rg_GatewayTransactionHash reorg <>s r_gatewayTransactionHash stored) ||
     (rg_GatewayEventID reorg <>s r_gatewayEventID stored) ||
     (rg_OrphanedBlockHash reorg <>s r_gatewayBlockHash stored) ||
     negb (rg_OrphanedBlockNumber reorg =? r_gatewayBlockNumber stored) ||
     negb (rg_TransactionIndex reorg =? r_transactionIndex stored) ||
     (rg_ReceiptsRoot reorg <>s r_receiptsRoot stored) ||
     (rg_InclusionProofHash reorg <>s r_inclusionProofHash stored) ||
     (rg_FinalityPolicyHash reorg <>s r_finalityPolicyHash stored) ||
     (rg_HeaderAuthorityHash reorg <>s r_headerAuthorityHash stored) ||
     (rg_ReceiptHeaderSignatureHash reorg <>s r_receiptHeaderSigHash stored) ||
     (rg_ConfirmationHeadHeaderSignatureHash reorg <>s r_headHeaderSigHash stored) ||
     (rg_OrphanedEventEvidenceHash reorg <>s r_eventEvidenceHash stored) ||
     (rg_OrphanedRawPayloadHash reorg <>s r_rawGatewayPayloadHash stored).

(** The journal posted against [original]; the loop flips every side. *)
Definition reorg_journal (reorg : ReorgEvidence) (original : Journal) : Journal :=
  mkJournal (j_ID original +:+ ":reorg:" +:+ rg_ReorgID reorg) (j_LegalEntityID original)
    (j_BookID original) "canonical-settlement" "CANONICAL_SETTLEMENT_REORG"
    (rg_GatewayEventID reorg) (j_LoanID original) (rg_ReorgID reorg +:+ ":" +:+ j_ID original)
    (j_CorrelationID original) (Time.UTC (rg_OccurredAt reorg))
    (reverse_entry <$> j_Entries original) (rg_EvidenceHash reorg) (j_ID original)
    "deep reorganization removed finalized gateway event".

Fixpoint reorg_journals (reorg : ReorgEvidence) (ids : list string) (bk : Ledger)
    : result error (list Journal) :=
  match ids with
  | [] => Ok []
  | journalID :: rest =>
      match Get journalID bk with
      | None => Err ErrInvalidReorg
      | Some original =>
          let? journals := reorg_journals reorg rest bk in
          Ok (reorg_journal reorg (p_Journal original) :: journals)
      end
  end.

Definition incident_of (reorg : ReorgEvidence) : Incident :=
  mkIncident ("reorg:" +:+ rg_ReorgID reorg) (rg_ReorgID reorg) (rg_CanonicalizationID reorg)
    (rg_InstructionDigest reorg) (rg_GatewayTransactionHash reorg) (rg_GatewayEventID reorg)
    (rg_Owner reorg) (rg_EvidenceHash reorg) (Time.UTC (rg_OccurredAt reorg)).

(** [stored] with its reorganization filled in. *)
Definition with_reorg (contentHash : string) (reversalIDs : list string) (stored : record) : record :=
  mkRecord (r_confirmationHash stored) (r_instructionDigest stored)
    (r_gatewayTransactionHash stored) (r_gatewayEventID stored) (r_gatewayBlockHash stored)
    (r_gatewayBlockNumber stored) (r_transactionIndex stored) (r_receiptsRoot stored)
    (r_inclusionProofHash stored) (r_finalityPolicyHash stored) (r_headerAuthorityHash stored)
    (r_receiptHeaderSigHash stored) (r_headHeaderSigHash stored)
    (r_instructionEvidenceHash stored) (r_eventEvidenceHash stored)
    (r_rawGatewayPayloadHash stored) (r_journalIDs stored) contentHash reversalIDs.

Definition CompensateReorg (now : Time.t) (reorg : ReorgEvidence) (poster : Poster)
    : Poster * result error (list string) :=
  if reorg_incomplete reorg then (poster, Err ErrInvalidReorg)
  else
  let contentHash := hash_reorg reorg in
  match records poster !! rg_CanonicalizationID reorg with
  | None => (poster, Err ErrInvalidReorg)
  | Some stored =>
      if reorg_mismatch reorg stored then (poster, Err ErrInvalidReorg)
      else if r_reorgHash stored <>s "" then
        if r_reorgHash stored <>s contentHash then (poster, Err ErrReorgConflict)
        else (poster, Ok (r_reversalJournalIDs stored))
      else match reorg_journals reorg (r_journalIDs stored) (book poster) with
      | Err err => (poster, Err err)
      | Ok journals =>
          match PostBatch now journals (book poster) with
          | (book', Err err) => (with_book book' poster, Err (ErrLedger err))
          | (book', Ok posted) =>
              let reversalIDs := posted_id <$> posted in
              (mkPoster book' (legalEntityID poster) (loanBookID poster)
                 (<[rg_CanonicalizationID reorg := with_reorg contentHash reversalIDs stored]>
                    (records poster))
                 (byPayment poster) (byAllocation poster)
                 (<[rg_ReorgID reorg := incident_of reorg]> (incidents poster)), Ok reversalIDs)
          end
      end
  end.

(** [Incidents] walks the map in an unspecified order; the model fixes one. *)
Definition Incidents (poster : Poster) : list Incident := (map_to_list (incidents poster)).*2.
End Operations.
