(* ===== verification/SettlementBooks.v ===== *)
(** What canonical settlement does to the books: the journals of a confirmation are
    always postable, their net effect, their compensation, the replay of a confirmation
    after a restart, and the exclusion of a second settlement of the same payment. *)
From S2P Require Import Prelude GoStd SettlementTypes Ledger SettlementAccounting.
From S2P Require Allocation AllocationAccounting CrossChainAccounting PaymentAccounting.

(** * Valid confirmations *)

(** What [validConfirmation] guarantees about the fields that enter the journals. *)
Record settles (c : Confirmation) (principal excess : Z) : Prop := {
  st_source : cf_SourceUnits c = Big.to_string (principal + excess);
  st_target : cf_TargetUnits c = Big.to_string (principal + excess);
  st_principal : cf_PrincipalUnits c = Big.to_string principal;
  st_excess : cf_RefundableExcessUnits c = Big.to_string excess;
  st_debt : ∃ after, cf_DebtBeforeUnits c = Big.to_string (principal + after) ∧
    cf_DebtAfterUnits c = Big.to_string after ∧ 0 <= after;
  st_positive : 0 < principal;
  st_nonneg : 0 <= excess;
  st_ids : cf_CanonicalizationID c ≠ "" ∧ cf_PaymentID c ≠ "" ∧ cf_AllocationID c ≠ "" ∧
    cf_GatewayEventID c ≠ "" ∧ cf_CorrelationID c ≠ "" ∧ cf_RawGatewayPayloadHash c ≠ "" ∧
    Time.ns (cf_ConfirmedAt c) ≠ 0;
  st_assets : cf_SourceAssetID c ≠ "" ∧ cf_TargetAssetID c ≠ "" ∧
    cf_SourceAssetID c ≠ cf_TargetAssetID c }.

Lemma validConfirmation_settles c :
  validConfirmation c = true → ∃ principal excess, settles c principal excess.
Proof.
  unfold validConfirmation, canonicalPositive, canonicalNonNegative. intros Hv.
  destruct (Big.canonical_positive (cf_SourceUnits c)) as [s|] eqn:Es; [|done].
  destruct (Big.canonical_positive (cf_TargetUnits c)) as [t|] eqn:Et; [|done].
  destruct (Big.canonical_positive (cf_PrincipalUnits c)) as [p|] eqn:Ep; [|done].
  destruct (Big.canonical_nonneg (cf_RefundableExcessUnits c)) as [x|] eqn:Ex; [|done].
  destruct (Big.canonical_positive (cf_DebtBeforeUnits c)) as [b|] eqn:Eb; [|done].
  destruct (Big.canonical_nonneg (cf_DebtAfterUnits c)) as [a|] eqn:Ea; [|done].
  destruct (negb (s =? t) || _ || _) eqn:Hg; [done|]. bool_facts.
  apply Big.canonical_positive_Some in Es as [Es ?], Et as [Et ?], Ep as [Ep ?], Eb as [Eb ?].
  apply Big.canonical_nonneg_Some in Ex as [Ex ?], Ea as [Ea ?]. unfold Time.IsZero in *. bool_facts.
  exists p, x. subst s t b. split; try done. by exists a.
Qed.

(** * The journals of a settlement *)

Section Journals.
Context (poster : Poster) (c : Confirmation) (principal excess : Z).
Hypothesis Hc : settles c principal excess.
Hypothesis Hentity : legalEntityID poster ≠ "".

Lemma journal_well_formed bookID suffix entryType entries :
  bookID ≠ "" → entryType ≠ "" → (2 <= length entries)%nat →
  Forall (λ e, entry_ok e = true) entries →
  (∀ asset, side_total Debit asset entries = side_total Credit asset entries) →
  well_formed (journal poster c bookID suffix entryType entries).
Proof using Hc Hentity.
  intros. destruct Hc as [_ _ _ _ _ _ _ (?&?&?&?&?&?&?) _]. by split; simpl.
Qed.

Lemma pair_well_formed bookID suffix entryType a1 a2 asset units p1 p2 z :
  bookID ≠ "" → entryType ≠ "" → a1 ≠ "" → a2 ≠ "" → asset ≠ "" →
  Big.positive units = Some z →
  well_formed (journal poster c bookID suffix entryType
    [entry c a1 Debit asset units p1; entry c a2 Credit asset units p2]).
Proof using Hc Hentity.
  intros. apply journal_well_formed; try done. by eapply two_entries_ok.
Qed.

Lemma positive_units z units : units = Big.to_string z → 0 < z → Big.positive units = Some z.
Proof. intros -> Hz. apply Big.positive_Some. split; [apply Big.set_string_to_string|done]. Qed.

Lemma excess_units_settles : excess_units c = excess.
Proof using Hc.
  unfold excess_units, canonicalNonNegative. rewrite (st_excess _ _ _ Hc).
  by rewrite Big.canonical_nonneg_to_string by apply Hc.
Qed.

Lemma principalEntries_ok : Forall (λ e, entry_ok e = true) (principalEntries c).
Proof using Hc.
  destruct Hc as [_ Ht Hp Hx _ Hp0 Hx0 _ (_ & Ha & _)]. unfold principalEntries.
  rewrite excess_units_settles. unfold entry_ok.
  apply Forall_app. split; [|destruct (Z.ltb_spec 0 excess)]; repeat constructor; simpl;
    erewrite positive_units by (done || lia); by rewrite (proj2 (String.eqb_neq _ _) Ha).
Qed.

Lemma principalEntries_balanced asset :
  side_total Debit asset (principalEntries c) = side_total Credit asset (principalEntries c).
Proof using Hc.
  destruct Hc as [_ Ht Hp Hx _ Hp0 Hx0 _ _]. unfold principalEntries, side_total.
  rewrite excess_units_settles.
  destruct (Z.ltb_spec 0 excess); simpl; unfold entry_units; simpl;
    rewrite Ht, Hp, ?Hx, !Big.set_string_to_string; simpl;
    destruct (cf_TargetAssetID c =s asset); simpl; lia.
Qed.

(** Every journal of a valid confirmation passes the kernel's validation. *)
Lemma buildJournals_well_formed provisional sourceAccount :
  loanBookID poster ≠ "" → j_BookID provisional ≠ "" → sourceAccount ≠ "" →
  Forall well_formed (buildJournals poster c provisional sourceAccount).
Proof using Hc Hentity.
  intros Hl Hb Hs. pose proof Hc as [Hsu Htu Hpu Hxu _ Hp0 Hx0 _ (Ha1 & Ha2 & _)].
  assert (Big.positive (cf_SourceUnits c) = Some (principal + excess)) by (apply positive_units; [done|lia]).
  assert (Big.positive (cf_TargetUnits c) = Some (principal + excess)) by (apply positive_units; [done|lia]).
  assert (Big.positive (cf_PrincipalUnits c) = Some principal) by (apply positive_units; [done|lia]).
  unfold buildJournals. rewrite excess_units_settles. apply Forall_app. split.
  - repeat (constructor; [first [by eapply pair_well_formed | idtac]|]); [|constructor].
    apply journal_well_formed; try done; [|apply principalEntries_ok|apply principalEntries_balanced].
    unfold principalEntries. rewrite length_app. simpl. lia.
  - destruct (Z.ltb_spec 0 excess); [|constructor]. apply Forall_singleton.
    eapply pair_well_formed; try done. by apply positive_units.
Qed.
End Journals.

(** The net effect: the payment leaves the unallocated account and the provider's asset
    account in the source asset, the borrower's receivable and the lender's claim fall by
    the principal in the target asset, and every clearing, custody, refund and payable
    account is left as it was. *)
Definition settlement_movement (c : Confirmation) (sourceAccount : string) (principal excess : Z)
    (account asset : string) : Z :=
  movement account asset AccountUnallocatedPayment (cf_SourceAssetID c) (principal + excess)
  - movement account asset sourceAccount (cf_SourceAssetID c) (principal + excess)
  - movement account asset AccountPrincipalReceivable (cf_TargetAssetID c) principal
  + movement account asset AccountLenderPrincipalClaims (cf_TargetAssetID c) principal.

Definition batch_delta (account asset : string) (js : list Journal) : Z :=
  Zsum (λ j, account_delta account asset (j_Entries j)) js.

Section Movement.
Context (poster : Poster) (c : Confirmation) (principal excess : Z).
Hypothesis Hc : settles c principal excess.

Lemma pair_delta bookID suffix entryType a1 a2 x units p1 p2 z account asset :
  units = Big.to_string z →
  account_delta account asset (j_Entries (journal poster c bookID suffix entryType
    [entry c a1 Debit x units p1; entry c a2 Credit x units p2])) =
  movement account asset a1 x z - movement account asset a2 x z.
Proof.
  intros ->. unfold movement, account_delta, signed_units, entry_units. simpl.
  rewrite Big.set_string_to_string. simpl. destruct ((a1 =s account) && _), ((a2 =s account) && _); lia.
Qed.

Lemma principal_delta account asset :
  account_delta account asset (principalEntries c) =
  movement account asset AccountUnallocatedPayment (cf_TargetAssetID c) (principal + excess)
  - movement account asset AccountPrincipalReceivable (cf_TargetAssetID c) principal
  - movement account asset AccountRefundPayable (cf_TargetAssetID c) excess.
Proof using Hc.
  pose proof Hc as [_ Ht Hp Hx _ Hp0 Hx0 _ _]. unfold principalEntries.
  rewrite (excess_units_settles _ _ _ Hc), account_delta_app.
  assert (account_delta account asset
    (if 0 <? excess then [entry c AccountRefundPayable Credit (cf_TargetAssetID c)
       (cf_RefundableExcessUnits c) (cf_BorrowerID c)] else []) =
    - movement account asset AccountRefundPayable (cf_TargetAssetID c) excess) as ->.
  { destruct (Z.ltb_spec 0 excess).
    - apply account_delta_credit. rewrite Hx. apply Big.set_string_to_string.
    - assert (excess = 0) as -> by lia. by rewrite movement_0. }
  match goal with |- account_delta _ _ [?d; ?k] + _ = _ => change [d; k] with ([d] ++ [k]) end.
  rewrite account_delta_app, Ht, Hp. unfold entry.
  erewrite account_delta_debit, account_delta_credit by apply Big.set_string_to_string. lia.
Qed.

Lemma movement_add account asset a x y z :
  movement account asset a x (y + z) = movement account asset a x y + movement account asset a x z.
Proof. unfold movement. destruct (_ && _); lia. Qed.

Lemma buildJournals_delta provisional sourceAccount account asset :
  batch_delta account asset (buildJournals poster c provisional sourceAccount) =
  settlement_movement c sourceAccount principal excess account asset.
Proof using Hc.
  pose proof Hc as [Hs Ht Hp Hx _ Hp0 Hx0 _ _]. unfold batch_delta, buildJournals.
  rewrite (excess_units_settles _ _ _ Hc), Zsum_app, !Zsum_cons, Zsum_nil.
  rewrite !(pair_delta _ _ _ _ _ _ _ _ _ _ account asset Hs), !(pair_delta _ _ _ _ _ _ _ _ _ _ account asset Ht),
    !(pair_delta _ _ _ _ _ _ _ _ _ _ account asset Hp).
  change (j_Entries (journal poster c (loanBookID poster) "allocation" "CANONICAL_PAYMENT_ALLOCATED"
    (principalEntries c))) with (principalEntries c).
  rewrite principal_delta. unfold settlement_movement.
  destruct (Z.ltb_spec 0 excess).
  - rewrite Zsum_cons, Zsum_nil, (pair_delta _ _ _ _ _ _ _ _ _ _ account asset Hx).
    rewrite !movement_add. lia.
  - assert (excess = 0) as -> by lia. rewrite Zsum_nil, movement_0, !Z.add_0_r. lia.
Qed.
End Movement.

(** * New batches *)

(** Two journals that can be posted one after the other. *)
Definition distinct (j j' : Journal) : Prop :=
  j_ID j' ≠ j_ID j ∧ scope j' ≠ scope j ∧
  (j_ReversalOf j' ≠ "" → j_ReversalOf j' ≠ j_ReversalOf j).

Lemma fresh_batch_distinct now hs bk :
  ForallOrdPairs distinct hs.*1 → Forall (λ j, fresh j bk) hs.*1 → fresh_batch now hs bk.
Proof.
  revert bk. induction hs as [|[j h] hs IH]; intros bk Hd Hf; simpl; [done|].
  inversion Hd as [|? ? Hj Hd']; inversion Hf as [|? ? Hfj Hf']; subst. split; [done|].
  apply IH; [done|]. rewrite Forall_forall in Hf' |- *. intros j' Hj'.
  rewrite List.Forall_forall in Hj. destruct (Hj j') as (?&?&?); [by apply list_elem_of_In|].
  apply fresh_store; auto.
Qed.

Lemma all_new_distinct now js bk :
  ForallOrdPairs distinct js → Forall (λ j, fresh j bk) js → all_new now js bk.
Proof. intros Hd Hf hs Hhs. apply fresh_batch_distinct; by rewrite Hhs. Qed.

(** Journals told apart by their identifiers: equal scopes or equal reversals mean equal
    identifiers. *)
Lemma distinct_by_id (P : Journal → Prop) js :
  (∀ j j', P j → P j' → scope j' = scope j → j_ID j' = j_ID j) →
  (∀ j j', P j → P j' → j_ReversalOf j' ≠ "" → j_ReversalOf j' = j_ReversalOf j → j_ID j' = j_ID j) →
  Forall P js → NoDup (j_ID <$> js) → ForallOrdPairs distinct js.
Proof.
  intros Hs Hr. induction 1 as [|j js Hj HF IH]; intros Hn; [constructor|].
  apply NoDup_cons in Hn as [Hni Hn]. constructor; [|by apply IH].
  rewrite List.Forall_forall. intros j' Hin%list_elem_of_In. rewrite Forall_forall in HF.
  assert (j_ID j' ≠ j_ID j) as Hid.
  { intros E. apply Hni. rewrite <- E. by apply list_elem_of_fmap_2. }
  split_and!; [done|intros E; by apply Hid, Hs; auto|intros Hne E; by apply Hid, Hr; auto].
Qed.

#[export] Instance append_inj (a : string) : Inj (=) (=) (String.append a).
Proof. intros b c. induction a as [|x a IH]; [done|]. intros E. injection E. apply IH. Qed.

(** ** The settlement batch *)

Definition own_journal (poster : Poster) (c : Confirmation) (j : Journal) : Prop :=
  ∃ suffix, j_ID j = "canonical:" +:+ cf_CanonicalizationID c +:+ ":" +:+ suffix ∧
    j_IdempotencyKey j = "payment:" +:+ cf_PaymentID c +:+ ":canonical:" +:+
      cf_CanonicalizationID c +:+ ":" +:+ suffix ∧
    j_LegalEntityID j = legalEntityID poster ∧ j_SourceSystem j = "canonical-settlement" ∧
    j_ReversalOf j = "" ∧ j_SourceEventID j = cf_GatewayEventID c.

Lemma buildJournals_own poster c provisional sourceAccount :
  Forall (own_journal poster c) (buildJournals poster c provisional sourceAccount).
Proof.
  unfold buildJournals. apply Forall_app. split; [|destruct (0 <? _)];
    repeat constructor; by eexists.
Qed.

Definition suffixes (c : Confirmation) : list string :=
  ["source-unallocated"; "source-converted"; "target-custody"; "target-unallocated";
   "allocation"; "lender-claim"; "lender-payout"]%string ++
  (if 0 <? excess_units c then ["borrower-refund"%string] else []).

Lemma buildJournals_ids poster c provisional sourceAccount :
  j_ID <$> buildJournals poster c provisional sourceAccount =
  (λ suffix, "canonical:" +:+ cf_CanonicalizationID c +:+ ":" +:+ suffix) <$> suffixes c.
Proof. unfold buildJournals, suffixes. by destruct (0 <? _). Qed.

Lemma buildJournals_ids_NoDup poster c provisional sourceAccount :
  NoDup (j_ID <$> buildJournals poster c provisional sourceAccount).
Proof.
  rewrite buildJournals_ids. apply NoDup_fmap_2.
  - intros s s' E. by repeat apply append_inj in E.
  - unfold suffixes. apply (bool_decide_unpack _). by destruct (0 <? _).
Qed.

Lemma buildJournals_distinct poster c provisional sourceAccount :
  ForallOrdPairs distinct (buildJournals poster c provisional sourceAccount).
Proof.
  apply (distinct_by_id (own_journal poster c)); [| |apply buildJournals_own|].
  - intros j j' (s & Hi & Hk & Hl & Hs & _) (s' & Hi' & Hk' & Hl' & Hs' & _) E.
    unfold scope in E. rewrite Hk, Hl, Hs, Hk', Hl', Hs' in E.
    repeat apply append_inj in E. by rewrite Hi, Hi', E.
  - by intros j j' _ (s' & _ & _ & _ & _ & -> & _).
  - apply buildJournals_ids_NoDup.
Qed.

(** * Source evidence *)

(** The value of a line on the unallocated account, credits counting positively. *)
Definition line_counts (assetID : string) (line : Entry) : bool :=
  (e_AccountCode line =s AccountUnallocatedPayment) && (e_AssetID line =s assetID).
Definition line_units (line : Entry) : Z := default 0 (canonicalNonNegative (e_Units line)).
Definition line_value (assetID : string) (line : Entry) : Z :=
  if line_counts assetID line
  then if e_Side line =s Credit then line_units line else - line_units line else 0.
Definition line_readable (assetID : string) (line : Entry) : Prop :=
  line_counts assetID line = true → is_Some (canonicalNonNegative (e_Units line)).

Lemma source_lines_spec assetID lines b b' :
  source_lines assetID lines b = Some b' ↔
  Forall (line_readable assetID) lines ∧ b' = b + Zsum (line_value assetID) lines.
Proof.
  revert b. induction lines as [|line lines IH]; intros b; cbn [source_lines].
  { rewrite Zsum_nil. split; [intros [= <-]; split; [constructor|lia]|].
    intros [_ ->]. f_equal. lia. }
  rewrite Zsum_cons, Forall_cons.
  assert ((e_AccountCode line <>s AccountUnallocatedPayment) || (e_AssetID line <>s assetID) =
    negb (line_counts assetID line)) as -> by (unfold line_counts; by rewrite negb_andb).
  unfold line_value at 1, line_readable at 1, line_units.
  destruct (line_counts assetID line); simpl.
  - destruct (canonicalNonNegative (e_Units line)) as [u|]; simpl.
    + rewrite IH. split; intros [Hf ->]; split_and!; try done; try apply Hf;
        try (by intros; eexists); destruct (e_Side line =s Credit); lia.
    + split; [done|]. intros [[Hr _] _]. by destruct (Hr eq_refl).
  - rewrite IH. split; intros [Hf ->]; split_and!; try done; apply Hf || lia.
Qed.

(** A journal of the book that stops a settlement of [c], and one whose lines count. *)
Definition stops (c : Confirmation) (provisional final item : Journal) : bool :=
  (j_ReversalOf item =s j_ID provisional) || (j_ReversalOf item =s j_ID final) ||
  ((j_SourceSystem item =s "payment-allocation") && (j_SourceEventID item =s cf_PaymentID c)).
Definition counts (c : Confirmation) (item : PostedJournal) : bool :=
  negb ((j_SourceSystem (p_Journal item) =s "canonical-settlement") &&
        String.prefix (exactCanonicalPrefix c) (j_IdempotencyKey (p_Journal item))) &&
  journalBelongsToPayment item (cf_PaymentID c).
Definition contribution (c : Confirmation) (item : PostedJournal) : Z :=
  if counts c item
  then Zsum (line_value (cf_SourceAssetID c)) (j_Entries (p_Journal item)) else 0.
Definition admissible (c : Confirmation) (provisional final : Journal) (item : PostedJournal) : Prop :=
  stops c provisional final (p_Journal item) = false ∧
  (counts c item = true → Forall (line_readable (cf_SourceAssetID c)) (j_Entries (p_Journal item))).

(** The scan succeeds exactly when no journal stops it and every counted line can be
    read; its result is the payment's unallocated balance. *)
Lemma source_scan_spec c provisional final items b b' :
  source_scan c provisional final items b = Ok b' ↔
  Forall (admissible c provisional final) items ∧ b' = b + Zsum (contribution c) items.
Proof.
  revert b. induction items as [|item items IH]; intros b; cbn [source_scan].
  { rewrite Zsum_nil. split; [intros [= <-]; split; [constructor|lia]|].
    intros [_ ->]. f_equal. lia. }
  rewrite Zsum_cons, Forall_cons.
  unfold admissible at 1, contribution at 1, stops at 1, counts at 1 2.
  destruct ((j_ReversalOf _ =s _) || _); simpl; [naive_solver|].
  destruct ((j_SourceSystem _ =s _) && (j_SourceEventID _ =s _)); simpl; [naive_solver|].
  destruct ((j_SourceSystem _ =s "canonical-settlement") && _); simpl.
  { rewrite IH. split; [intros [? ->]|intros [[_ ?] ->]]; split_and!; try done; lia. }
  destruct (journalBelongsToPayment item (cf_PaymentID c)); simpl.
  2: { rewrite IH. split; [intros [? ->]|intros [[_ ?] ->]]; split_and!; try done; lia. }
  destruct (source_lines _ _ b) as [b1|] eqn:El.
  - apply source_lines_spec in El as [Hr ->]. rewrite IH.
    split; [intros [? ->]|intros [[_ ?] ->]]; split_and!; try done; lia.
  - split; [done|]. intros [[[_ Hr] _] _].
    rewrite (proj2 (source_lines_spec _ _ b _) (conj (Hr eq_refl) eq_refl)) in El. done.
Qed.

(** So the order in which Go walks the book does not matter. *)
Lemma source_scan_order c provisional final items items' b b' :
  items ≡ₚ items' →
  source_scan c provisional final items b = Ok b' ↔ source_scan c provisional final items' b = Ok b'.
Proof.
  intros Hp. rewrite !source_scan_spec, (Zsum_perm _ _ _ Hp).
  split; (intros [HF ->]; split; [|done]); [by rewrite <- Hp|by rewrite Hp].
Qed.

Lemma Forall_List_ (P : PostedJournal → Prop) bk :
  Forall P (List_ bk) ↔ ∀ id p, byID bk !! id = Some p → P p.
Proof.
  unfold List_. rewrite Forall_fmap, Forall_forall. split.
  - intros HF id p Hp. apply (HF (id, p)). by apply elem_of_map_to_list.
  - intros HF [id p] Hin%elem_of_map_to_list. by apply (HF id p).
Qed.

Lemma Zsum_List_ f bk : Zsum f (List_ bk) = Msum f (byID bk).
Proof. unfold List_, Msum. by rewrite Zsum_fmap. Qed.

Lemma existsb_List_false f bk :
  existsb f (List_ bk) = false ↔ ∀ id p, byID bk !! id = Some p → f p = false.
Proof.
  rewrite <- Forall_List_. generalize (List_ bk). intros l. induction l as [|x l IH]; simpl; [by split|].
  by rewrite orb_false_iff, IH, Forall_cons.
Qed.

(** ** The two source journals *)

(** The part of [validateSource] that looks at the payment's two journals only. *)
Definition source_pair (entity : string) (c : Confirmation) (provisional final : Journal)
    (sourceAccount : string) : Prop :=
  j_ID provisional = "payment:" +:+ cf_PaymentID c +:+ ":provisional" ∧
  j_ID final = "payment:" +:+ cf_PaymentID c +:+ ":final" ∧
  j_LegalEntityID provisional = entity ∧ j_LegalEntityID final = entity ∧
  j_BookID provisional = j_BookID final ∧
  j_SourceSystem provisional = "payment-orchestrator" ∧
  j_SourceSystem final = "payment-orchestrator" ∧
  j_EntryType provisional = "PAYMENT_PROVISIONAL" ∧ j_EntryType final = "PAYMENT_FINAL" ∧
  j_LoanID provisional = cf_LoanID c ∧ j_LoanID final = cf_LoanID c ∧
  (sourceAccount = AccountProviderBankAsset ∨ sourceAccount = AccountProviderCardAsset) ∧
  ∃ pending t1 t2 t3 t4, (pending = "9130" ∨ pending = "9140") ∧
    let line account side t := mkEntry account side (cf_SourceAssetID c) (cf_SourceUnits c)
      (cf_BorrowerID c) (cf_LoanID c) t in
    j_Entries provisional = [line pending Debit t1; line AccountUnallocatedPayment Credit t2] ∧
    j_Entries final = [line sourceAccount Debit t3; line pending Credit t4].

Lemma one_of_two a b d : (a <>s b) && (a <>s d) = false → a = b ∨ a = d.
Proof. destruct (String.eqb_spec a b), (String.eqb_spec a d); simpl; intros E; auto; discriminate E. Qed.

Lemma source_line_ok_spec c e :
  source_line_ok c e = true ↔
  e = mkEntry (e_AccountCode e) (e_Side e) (cf_SourceAssetID c) (cf_SourceUnits c)
        (cf_BorrowerID c) (cf_LoanID c) (e_TrancheID e).
Proof.
  unfold source_line_ok. destruct e as [a s x u p l t]; simpl. split.
  - intros Hb. bool_facts. by subst.
  - intros [= -> -> -> ->]. by rewrite !String.eqb_refl.
Qed.

Lemma validateSource_spec poster c provisional final sourceAccount :
  validateSource poster c = Ok (provisional, final, sourceAccount) ↔
  (∃ pp pf, Get (cf_OriginalProvisionalJournalID c) (book poster) = Some pp ∧
     Get (cf_OriginalFinalJournalID c) (book poster) = Some pf ∧
     p_Journal pp = provisional ∧ p_Journal pf = final) ∧
  source_pair (legalEntityID poster) c provisional final sourceAccount ∧
  (∀ id item, byID (book poster) !! id = Some item → admissible c provisional final item) ∧
  Msum (contribution c) (byID (book poster)) = default 0 (canonicalNonNegative (cf_SourceUnits c)).
Proof.
  rewrite <- Forall_List_, <- Zsum_List_. unfold validateSource. split.
  - destruct (Get (cf_OriginalProvisionalJournalID c) (book poster)) as [pp|] eqn:Hp; [|done].
    destruct (Get (cf_OriginalFinalJournalID c) (book poster)) as [pf|] eqn:Hf; [|done].
    cbv zeta. pass_if Hg.
    destruct (j_Entries (p_Journal pp)) as [|p0 [|p1 [|]]] eqn:Ep; try done.
    destruct (j_Entries (p_Journal pf)) as [|f0 [|f1 [|]]] eqn:Ef; try done.
    pass_if Hs. pass_if Hl.
    destruct (source_scan _ _ _ _ 0) as [b|] eqn:Hscan; [|done]. simpl.
    destruct (b =? _) eqn:Hb; [|done]. simpl. intros [= <- <- <-].
    apply source_scan_spec in Hscan as [HF ->]. apply Z.eqb_eq in Hb.
    split; [by exists pp, pf|]. split; [|by split; [|lia]].
    apply negb_false_iff in Hl. rewrite forallb_forall in Hl. bool_facts.
    pose proof (proj1 (source_line_ok_spec c p0) (Hl p0 ltac:(simpl; auto))) as L0.
    pose proof (proj1 (source_line_ok_spec c p1) (Hl p1 ltac:(simpl; auto))) as L1.
    pose proof (proj1 (source_line_ok_spec c f0) (Hl f0 ltac:(simpl; auto))) as L2.
    pose proof (proj1 (source_line_ok_spec c f1) (Hl f1 ltac:(simpl; auto))) as L3.
    unfold source_pair. rewrite Ep, Ef. split_and!; try done; [by apply one_of_two|].
    exists (e_AccountCode p0), (e_TrancheID p0), (e_TrancheID p1), (e_TrancheID f0), (e_TrancheID f1).
    split; [by apply one_of_two|]. cbv zeta. split; congruence.
  - intros ((pp & pf & -> & -> & <- & <-) & Hsp & HF & Hm). cbv zeta.
    destruct Hsp as (E1&E2&E3&E4&E5&E6&E7&E8&E9&E10&E11&Hacc&pend&t1&t2&t3&t4&Hpend&Ep&Ef).
    rewrite E1, E2, E3, E4, E5, E6, E7, E8, E9, E10, E11, Ep, Ef, !String.eqb_refl. simpl.
    rewrite (proj2 (source_scan_spec c _ _ (List_ (book poster)) 0 _) (conj HF eq_refl)).
    unfold source_line_ok. simpl. rewrite !String.eqb_refl, Z.add_0_l, Hm, Z.eqb_refl. simpl.
    by destruct Hpend as [-> | ->], Hacc as [-> | ->].
Qed.

(** * Batches that are posted again *)

Section Replays.
Context `{JournalDigest}.

(** [p] answers for the journal [j] with digest [h]. *)
Definition answers (bk : Ledger) (j : Journal) (h : string) (p : PostedJournal) : Prop :=
  ∃ id, idempotency bk !! scope j = Some id ∧ byID bk !! id = Some p ∧ p_ContentHash p = h.

Lemma answers_extends bk bk' j h p : extends bk bk' → answers bk j h p → answers bk' j h p.
Proof.
  intros (Hb & Hi & _) (id & Hs & Hp & Hh). exists id.
  split_and!; [exact (lookup_weaken _ _ _ _ Hs Hi)|exact (lookup_weaken _ _ _ _ Hp Hb)|done].
Qed.

Lemma answers_replay bk j h p now :
  answers bk j h p → postValidated j h now bk = (bk, Ok p).
Proof.
  intros (id & Hs & Hp & Hh). rewrite (postValidated_replay _ _ _ _ _ Hs).
  unfold lookup_zero. rewrite Hp. simpl. by rewrite Hh, String.eqb_refl.
Qed.

Lemma postValidated_answers j h now bk bk' p :
  ledger_inv bk → postValidated j h now bk = (bk', Ok p) → answers bk' j h p.
Proof.
  intros Hinv [(-> & Hh & id & Hs & ->)|(Hf & -> & ->)]%postValidated_Ok.
  - destruct (inv_idem _ Hinv _ _ Hs) as (q & Hq & _). exists id.
    unfold lookup_zero in *. by rewrite Hq in Hh |- *.
  - exists (j_ID j). simpl. by rewrite !lookup_insert_eq.
Qed.

Lemma post_all_answers now hs bk bk' ps :
  ledger_inv bk → Forall (λ '(j, h), validateAndHash j = Ok h) hs →
  post_all now hs bk = (bk', Ok ps) → Forall2 (λ '(j, h) p, answers bk' j h p) hs ps.
Proof.
  intros Hinv HF. revert bk ps Hinv. induction HF as [|[j h] hs Hj _ IH]; intros bk ps Hinv Hp;
    cbn [post_all] in Hp; [by injection Hp as <- <-|].
  destruct (postValidated j h now bk) as [b1 [p|]] eqn:E1; [|done].
  destruct (post_all now hs b1) as [b2 [qs|]] eqn:E2; [|done]. injection Hp as -> <-.
  assert (ledger_inv b1) as Hinv1.
  { pose proof (postValidated_inv j h now bk Hinv Hj) as Hx. by rewrite E1 in Hx. }
  constructor; [|by apply (IH b1)].
  eapply answers_extends; [|exact (postValidated_answers _ _ _ _ _ _ Hinv E1)].
  pose proof (post_all_extends now hs b1) as Hx. by rewrite E2 in Hx.
Qed.

(** What was posted once is found again in every later state of the book. *)
Lemma PostBatch_replay now now' js bk bk' bk2 ps :
  ledger_inv bk → PostBatch now js bk = (bk', Ok ps) → extends bk' bk2 →
  PostBatch now' js bk2 = (bk2, Ok ps).
Proof.
  intros Hinv Hp Hext. unfold PostBatch in *. destruct js as [|j js]; [done|].
  destruct (hash_all (j :: js)) as [hs|] eqn:Hh; [|done]. apply hash_all_Ok in Hh as [_ HF].
  destruct (post_all now hs bk) as [b [qs|]] eqn:Ea; [|done]. injection Hp as -> ->.
  assert (post_all now' hs bk2 = (bk2, Ok ps)) as ->; [|done].
  pose proof (post_all_answers _ _ _ _ _ Hinv HF Ea) as HA. clear Ea HF.
  induction HA as [|[j' h] p hs' ps Ha _ IH]; [done|]. cbn [post_all].
  rewrite (answers_replay bk2 _ _ p) by (by eapply answers_extends). by rewrite IH.
Qed.

Lemma batch_unchanged now js bk bk' e : PostBatch now js bk = (bk', Err e) → bk' = bk.
Proof.
  unfold PostBatch. destruct js as [|j js]; [by intros [= <-]|].
  destruct (hash_all (j :: js)) as [hs|]; [|by intros [= <-]].
  destruct (post_all now hs bk) as [b [qs|]]; [done|by intros [= <-]].
Qed.

(** What a batch adds to the book are its own journals. *)
Lemma post_all_adds now hs bk bk' ps id p :
  post_all now hs bk = (bk', Ok ps) → byID bk' !! id = Some p →
  byID bk !! id = Some p ∨ p_Journal p ∈ hs.*1.
Proof.
  revert bk ps. induction hs as [|[j h] hs IH]; intros bk ps Hp Hb; cbn [post_all] in Hp.
  { injection Hp as <- _. by left. }
  destruct (postValidated j h now bk) as [b1 [q|]] eqn:E1; [|done].
  destruct (post_all now hs b1) as [b2 [qs|]] eqn:E2; [|done]. injection Hp as -> _.
  destruct (IH b1 qs E2 Hb) as [Hb1|Hin]; [|right; by right].
  apply postValidated_Ok in E1 as [(-> & _)|(Hf & -> & _)]; [by left|].
  simpl in Hb1. apply lookup_insert_Some in Hb1 as [[_ <-]|[_ Hb1]]; [right; by left|by left].
Qed.

Lemma PostBatch_adds now js bk bk' ps id p :
  PostBatch now js bk = (bk', Ok ps) → byID bk' !! id = Some p →
  byID bk !! id = Some p ∨ p_Journal p ∈ js.
Proof.
  unfold PostBatch. destruct js as [|j js]; [done|].
  destruct (hash_all (j :: js)) as [hs|] eqn:Hh; [|done]. apply hash_all_Ok in Hh as [<- _].
  destruct (post_all now hs bk) as [b [qs|]] eqn:Ea; [|done]. intros [= -> ->].
  by eapply post_all_adds.
Qed.
End Replays.

(** A sum over a book that has grown by journals of no weight. *)
Lemma Msum_grow {K A} `{Countable K} (f : A → Z) (m m' : gmap K A) :
  m ⊆ m' → (∀ i x, m' !! i = Some x → m !! i = Some x ∨ f x = 0) → Msum f m' = Msum f m.
Proof.
  intros Hsub Hz. revert m' Hsub Hz. induction m as [|i x m Hi IH] using map_ind; intros m' Hsub Hz.
  - rewrite Msum_empty. apply Msum_zero. intros j y Hj. by destruct (Hz j y Hj).
  - assert (m' !! i = Some x) as Hx by (eapply lookup_weaken; [apply lookup_insert_eq|done]).
    rewrite (Msum_delete f m' i x), Msum_insert_fresh by done. f_equal. apply IH.
    + apply map_subseteq_spec. intros j y Hj.
      rewrite lookup_delete_ne by congruence. eapply lookup_weaken; [|done].
      by rewrite lookup_insert_ne by congruence.
    + intros j y [Hne Hj]%lookup_delete_Some. destruct (Hz j y Hj) as [Hy|]; [|by right].
      left. by rewrite lookup_insert_ne in Hy.
Qed.

(** * Posting a settlement *)

Section Posting.
Context `{JournalDigest, AccountingDigests}.

(** The poster after a new confirmation whose batch left the book [bk]. *)
Definition posted_poster (c : Confirmation) (bk : Ledger) (ids : list string) (poster : Poster) : Poster :=
  mkPoster bk (legalEntityID poster) (loanBookID poster)
    (<[cf_CanonicalizationID c := record_of c (hash_confirmation c) ids]> (records poster))
    (<[cf_PaymentID c := cf_CanonicalizationID c]> (byPayment poster))
    (<[cf_AllocationID c := cf_CanonicalizationID c]> (byAllocation poster)) (incidents poster).

(** No record of the payment or the allocation, in memory or in the book. *)
Definition unclaimed (c : Confirmation) (poster : Poster) : Prop :=
  lookup_zero "" (byPayment poster) (cf_PaymentID c) = "" ∧
  lookup_zero "" (byAllocation poster) (cf_AllocationID c) = "" ∧
  ∀ id item, byID (book poster) !! id = Some item → claimed_elsewhere c item = false.

(** A confirmation without a record succeeds exactly this way. *)
Lemma Apply_new now c poster poster' ids :
  records poster !! cf_CanonicalizationID c = None →
  ApplyConfirmation now c poster = (poster', Ok ids) ↔
  validConfirmation c = true ∧ unclaimed c poster ∧
  ∃ provisional final sourceAccount bk ps,
    validateSource poster c = Ok (provisional, final, sourceAccount) ∧
    PostBatch now (buildJournals poster c provisional sourceAccount) (book poster) = (bk, Ok ps) ∧
    ids = posted_id <$> ps ∧ poster' = posted_poster c bk ids poster.
Proof.
  intros Hrec. unfold ApplyConfirmation, unclaimed. rewrite Hrec, <- existsb_List_false.
  destruct (validConfirmation c); simpl; [|naive_solver].
  destruct (String.eqb_spec (lookup_zero "" (byPayment poster) (cf_PaymentID c)) ""); simpl; [|naive_solver].
  destruct (String.eqb_spec (lookup_zero "" (byAllocation poster) (cf_AllocationID c)) ""); simpl; [|naive_solver].
  destruct (existsb (claimed_elsewhere c) (List_ (book poster))); [naive_solver|].
  destruct (validateSource poster c) as [[[prov fin] acct]|]; [|naive_solver].
  destruct (PostBatch now _ (book poster)) as [bk [ps|]] eqn:Hp.
  - split.
    + intros [= <- <-]. split_and!; try done. eexists _, _, _, _, _. split_and!; [reflexivity|exact Hp|done|done].
    + intros (_ & _ & p' & f' & a' & bk' & ps' & [= <- <- <-] & Hp' & -> & ->).
      rewrite Hp in Hp'. by injection Hp' as <- <-.
  - split; [done|]. intros (_ & _ & p' & f' & a' & bk' & ps' & [= <- <- <-] & Hp' & _). congruence.
Qed.

(** ** The effect of a new settlement *)

Lemma PostBatch_all now js bk :
  js ≠ [] → Forall well_formed js → Forall (λ j, is_Some (journal_digest j)) js →
  ForallOrdPairs distinct js → Forall (λ j, fresh j bk) js →
  ∃ hs ps, PostBatch now js bk = (store_all now hs bk, Ok ps) ∧ hs.*1 = js ∧
    fresh_batch now hs bk ∧ posted_id <$> ps = j_ID <$> js ∧
    (∀ account asset, account_balance account asset (store_all now hs bk) =
       account_balance account asset bk + batch_delta account asset js).
Proof.
  intros Hne Hw Hd Hpd Hf.
  destruct (hash_all_complete js) as [hs Hh].
  { rewrite Forall_forall in *. intros j Hj. destruct (Hd j Hj) as [h Hdj].
    by rewrite (proj2 (validateAndHash_Ok j h) (conj (Hw j Hj) Hdj)). }
  apply hash_all_Ok in Hh as [Hfst HF].
  assert (fresh_batch now hs bk) as Hfb by (apply fresh_batch_distinct; by rewrite Hfst).
  exists hs. eexists. split; [exact (PostBatch_fresh now js hs bk Hne Hfst HF Hfb)|].
  split_and!; [done|done| |].
  - rewrite <- Hfst, <- !list_fmap_compose. apply list_fmap_ext. by intros i [].
  - intros account asset. rewrite store_all_account_balance by done. f_equal.
    unfold batch_delta. rewrite <- Hfst, Zsum_fmap. apply Zsum_ext. by intros [].
Qed.

Lemma buildJournals_nonempty poster c provisional sourceAccount :
  buildJournals poster c provisional sourceAccount ≠ [].
Proof. done. Qed.

(** What a valid source says about the fields the journals use. *)
Lemma source_fields poster c provisional final sourceAccount :
  ledger_inv (book poster) → validateSource poster c = Ok (provisional, final, sourceAccount) →
  j_BookID provisional ≠ "" ∧ sourceAccount ≠ "".
Proof.
  intros Hinv [(pp & pf & Hp & _ & <- & _) [Hsp _]]%validateSource_spec. split.
  - by destruct (inv_valid _ Hinv _ _ Hp) as [_ [[(_&_&?&_) _ _ _ _] _]%validateAndHash_Ok].
  - by destruct Hsp as (_&_&_&_&_&_&_&_&_&_&_&[-> | ->]&_).
Qed.

(** A poster as [New] makes them. *)
Definition configured (poster : Poster) : Prop :=
  legalEntityID poster ≠ "" ∧ loanBookID poster ≠ "".

(** C14: the effect of a settlement. A valid confirmation of a payment that nothing claims,
    with valid source journals and journals that are new to the book, is always posted;
    the only balances that change are the unallocated payment and the provider account in
    the source asset, by the whole payment, and the borrower's receivable and the lender's
    claim in the target asset, by the principal; and the confirmation again returns the
    same journals and changes nothing. *)
Theorem settlement_effect (now now' : Time.t) (c : Confirmation) (poster : Poster)
    (provisional final : Journal) (sourceAccount : string) :
  let js := buildJournals poster c provisional sourceAccount in
  configured poster → ledger_inv (book poster) → validConfirmation c = true →
  records poster !! cf_CanonicalizationID c = None → unclaimed c poster →
  validateSource poster c = Ok (provisional, final, sourceAccount) →
  Forall (λ j, is_Some (journal_digest j)) js → Forall (λ j, fresh j (book poster)) js →
  ∃ poster' ids principal excess,
    ApplyConfirmation now c poster = (poster', Ok ids) ∧ settles c principal excess ∧
    ids = j_ID <$> js ∧
    (∀ account asset, account_balance account asset (book poster') =
       account_balance account asset (book poster) +
       settlement_movement c sourceAccount principal excess account asset) ∧
    ApplyConfirmation now' c poster' = (poster', Ok ids).
Proof.
  intros js [Hle Hlb] Hinv Hv Hrec Hun Hvs Hd Hf.
  destruct (validConfirmation_settles c Hv) as (p & x & Hs).
  destruct (source_fields _ _ _ _ _ Hinv Hvs) as [Hb Ha].
  destruct (PostBatch_all now js (book poster)) as (hs & ps & Hpb & _ & _ & Hids & Hbal); try done.
  { by eapply buildJournals_well_formed. }
  { apply buildJournals_distinct. }
  exists (posted_poster c (store_all now hs (book poster)) (posted_id <$> ps) poster), (posted_id <$> ps), p, x.
  assert (ApplyConfirmation now c poster =
    (posted_poster c (store_all now hs (book poster)) (posted_id <$> ps) poster, Ok (posted_id <$> ps))) as Happ.
  { apply Apply_new; [done|]. split_and!; try done; [apply Hun..|].
    by eexists _, _, _, _, _. }
  split_and!; try done.
  - intros account asset. simpl. rewrite Hbal. f_equal. by apply buildJournals_delta.
  - unfold ApplyConfirmation. rewrite Hv. simpl. rewrite lookup_insert_eq. simpl.
    by rewrite String.eqb_refl.
Qed.

(** C15: every batch is well typed. The journals built from a valid confirmation and a
    valid source are well formed for the posting kernel, can be posted one after the other,
    have pairwise different identifiers, reverse nothing, and there are seven of them, eight
    when part of the payment is refunded. *)
Theorem settlement_batch_typed (c : Confirmation) (poster : Poster) (provisional final : Journal)
    (sourceAccount : string) :
  let js := buildJournals poster c provisional sourceAccount in
  configured poster → ledger_inv (book poster) → validConfirmation c = true →
  validateSource poster c = Ok (provisional, final, sourceAccount) →
  Forall well_formed js ∧ ForallOrdPairs distinct js ∧ NoDup (j_ID <$> js) ∧
  Forall (λ j, j_ReversalOf j = "") js ∧
  length js = if 0 <? excess_units c then 8%nat else 7%nat.
Proof.
  intros js [Hle Hlb] Hinv Hv Hvs. destruct (validConfirmation_settles c Hv) as (p & x & Hs).
  destruct (source_fields _ _ _ _ _ Hinv Hvs) as [Hb Ha]. split_and!.
  - by eapply buildJournals_well_formed.
  - apply buildJournals_distinct.
  - apply buildJournals_ids_NoDup.
  - eapply Forall_impl; [apply buildJournals_own|]. by intros j (s & _ & _ & _ & _ & ? & _).
  - unfold js, buildJournals. by destruct (0 <? excess_units c).
Qed.

(** ** Posting again after a restart *)

(** A journal that does not bear on the settlement [c]. *)
Definition unrelated (c : Confirmation) (provisional final : Journal) (item : PostedJournal) : Prop :=
  admissible c provisional final item ∧ contribution c item = 0 ∧ claimed_elsewhere c item = false.

Lemma own_prefix poster c j :
  own_journal poster c j → String.prefix (exactCanonicalPrefix c) (j_IdempotencyKey j) = true.
Proof.
  intros (s & _ & Hk & _). rewrite Hk.
  replace (_ +:+ _) with (exactCanonicalPrefix c +:+ s); [apply string_prefix_app|].
  unfold exactCanonicalPrefix. by rewrite !string_app_assoc.
Qed.

Lemma own_unrelated poster c provisional final item :
  j_ID provisional ≠ "" → j_ID final ≠ "" → own_journal poster c (p_Journal item) →
  unrelated c provisional final item.
Proof.
  intros Hp Hf Hown. pose proof (own_prefix _ _ _ Hown) as Hpre.
  destruct Hown as (s & _ & _ & _ & Hs & Hr & _).
  assert (counts c item = false) as Hct by (unfold counts; by rewrite Hs, Hpre).
  unfold unrelated, admissible, contribution, claimed_elsewhere, stops. rewrite Hct, Hs, Hr, Hpre.
  rewrite !andb_false_r. split_and!; try done.
  rewrite (proj2 (String.eqb_neq "" _)), (proj2 (String.eqb_neq "" _)) by done. done.
Qed.

Lemma validateSource_grow poster poster2 c provisional final sourceAccount :
  validateSource poster c = Ok (provisional, final, sourceAccount) →
  legalEntityID poster2 = legalEntityID poster → byID (book poster) ⊆ byID (book poster2) →
  (∀ id item, byID (book poster2) !! id = Some item →
     byID (book poster) !! id = Some item ∨ unrelated c provisional final item) →
  validateSource poster2 c = Ok (provisional, final, sourceAccount).
Proof.
  rewrite !validateSource_spec. intros ((pp & pf & Hp & Hf & Hpj & Hfj) & Hsp & HA & HM) Hle Hsub Hnew.
  split_and!.
  - exists pp, pf. split_and!; [exact (lookup_weaken _ _ _ _ Hp Hsub)|exact (lookup_weaken _ _ _ _ Hf Hsub)|done|done].
  - by rewrite Hle.
  - intros id item Hi. destruct (Hnew id item Hi) as [Ho|[Ha _]]; [by eapply HA|done].
  - rewrite <- HM. apply Msum_grow; [done|]. intros id item Hi.
    destruct (Hnew id item Hi) as [Ho|(_ & Hz & _)]; [by left|by right].
Qed.

(** Restarts do not settle twice. After a confirmation was posted, let the book grow by
    journals that do not bear on it, and start a new poster, with no memory, on that
    book: the confirmation is accepted again, returns the same journals and leaves the
    book as it is. *)
Theorem restart_replays (now now' : Time.t) (c : Confirmation) (poster poster' poster2 : Poster)
    (ids : list string) (bk : Ledger) (provisional final : Journal) (sourceAccount : string) :
  configured poster → ledger_inv (book poster) →
  records poster !! cf_CanonicalizationID c = None →
  validateSource poster c = Ok (provisional, final, sourceAccount) →
  ApplyConfirmation now c poster = (poster', Ok ids) →
  extends (book poster') bk →
  (∀ id item, byID bk !! id = Some item →
     byID (book poster') !! id = Some item ∨ unrelated c provisional final item) →
  New (Some bk) (legalEntityID poster) (loanBookID poster) = Ok poster2 →
  ∃ poster3, ApplyConfirmation now' c poster2 = (poster3, Ok ids) ∧ book poster3 = bk.
Proof.
  intros [Hle Hlb] Hinv Hrec Hvs Happ Hext Hnew HN.
  assert (poster2 = mkPoster bk (legalEntityID poster) (loanBookID poster) ∅ ∅ ∅ ∅) as ->.
  { unfold New in HN. rewrite !(proj2 (String.eqb_neq _ _)) in HN by done. by injection HN. }
  apply Apply_new in Happ as (Hv & (_ & _ & Hcl) & pv & fn & sa & bk' & ps & Hvs' & Hpb & -> & ->); [|done].
  rewrite Hvs in Hvs'. injection Hvs' as <- <- <-. cbn [book posted_poster] in Hext, Hnew.
  pose proof Hvs as [_ [(Hi1 & Hi2 & _) _]]%validateSource_spec.
  pose proof (PostBatch_extends now (buildJournals poster c provisional sourceAccount) (book poster)) as Hgrow.
  rewrite Hpb in Hgrow. cbn [fst] in Hgrow.
  assert (∀ id item, byID bk !! id = Some item →
    byID (book poster) !! id = Some item ∨ unrelated c provisional final item) as Hall.
  { intros id item Hi. destruct (Hnew id item Hi) as [Ho|]; [|by right].
    destruct (PostBatch_adds _ _ _ _ _ _ _ Hpb Ho) as [?|Hin]; [by left|]. right.
    pose proof (buildJournals_own poster c provisional sourceAccount) as HO. rewrite Forall_forall in HO.
    eapply own_unrelated; [by rewrite Hi1|by rewrite Hi2|]. by apply HO. }
  eexists. split.
  - apply Apply_new; [done|]. split; [done|]. split.
    { split_and!; try done. intros id item Hi.
      destruct (Hall id item Hi) as [Ho|(_ & _ & Hu)]; [by eapply Hcl|done]. }
    exists provisional, final, sourceAccount, bk, ps. split_and!.
    + eapply validateSource_grow; [exact Hvs|done| |exact Hall].
      etrans; [apply Hgrow|apply Hext].
    + change (buildJournals (mkPoster _ _ _ _ _ _ _) c provisional sourceAccount)
        with (buildJournals poster c provisional sourceAccount).
      by eapply PostBatch_replay.
    + done.
    + done.
  - done.
Qed.

(** ** Compensation *)

Lemma reorg_journals_Ok reorg js bk :
  Forall (λ j, ∃ h at_, Get (j_ID j) bk = Some (mkPosted j h at_)) js →
  reorg_journals reorg (j_ID <$> js) bk = Ok (reorg_journal reorg <$> js).
Proof.
  induction 1 as [|j js (h & at_ & Hg) _ IH]; [done|]. rewrite !fmap_cons. cbn [reorg_journals].
  by rewrite Hg, IH.
Qed.

Lemma store_all_lookup now hs bk j :
  fresh_batch now hs bk → j ∈ hs.*1 →
  ∃ h, byID (store_all now hs bk) !! j_ID j = Some (mkPosted j h now).
Proof.
  revert bk. induction hs as [|[j' h'] hs IH]; intros bk Hf Hin; [by apply elem_of_nil in Hin|].
  destruct Hf as [Hj Hf]. apply elem_of_cons in Hin as [->|Hin]; [|by apply IH].
  exists h'. pose proof (post_all_extends now hs (store j' h' now bk)) as Hx.
  rewrite post_all_fresh in Hx by done. eapply lookup_weaken; [|apply Hx]. apply lookup_insert_eq.
Qed.

Lemma append_inj_r (a b d : string) : a +:+ d = b +:+ d → a = b.
Proof.
  intros E. apply string_app_inj_l in E as [? _]; [done|].
  apply (f_equal String.length) in E. rewrite !string_app_length in E. lia.
Qed.

Lemma reorg_incomplete_fields reorg :
  reorg_incomplete reorg = false →
  rg_ReorgID reorg ≠ "" ∧ rg_GatewayEventID reorg ≠ "" ∧ rg_EvidenceHash reorg ≠ "" ∧
  Time.ns (rg_OccurredAt reorg) ≠ 0.
Proof. unfold reorg_incomplete, Time.IsZero. intros Hb. bool_facts. done. Qed.

Lemma reorg_journal_well_formed reorg j :
  reorg_incomplete reorg = false → well_formed j → well_formed (reorg_journal reorg j).
Proof.
  intros (?&?&?&?)%reorg_incomplete_fields [(?&?&?&?&?&?&?&?&?&?) Hself Hlen HF Hb].
  split; simpl.
  - split_and!; try done; [by destruct (j_ID j)|by destruct (rg_ReorgID reorg)].
  - intros E. apply (f_equal String.length) in E. rewrite !string_app_length in E. simpl in E. lia.
  - by rewrite length_fmap.
  - apply Forall_fmap. eapply Forall_impl; [exact HF|]. apply entry_ok_reverse.
  - intros asset. destruct (side_total_reverse asset _ HF) as [-> ->]. by rewrite Hb.
Qed.

Lemma reorg_journals_distinct poster c reorg js :
  Forall (own_journal poster c) js → NoDup (j_ID <$> js) →
  ForallOrdPairs distinct (reorg_journal reorg <$> js).
Proof.
  intros HO Hn.
  apply (distinct_by_id (λ j, ∃ o, own_journal poster c o ∧ j = reorg_journal reorg o)).
  - intros j j' (o & (s & _ & _ & Hl & _) & ->) (o' & (s' & _ & _ & Hl' & _) & ->) E.
    unfold scope in E. simpl in E. rewrite Hl, Hl' in E. repeat apply append_inj in E.
    simpl. congruence.
  - intros j j' (o & _ & ->) (o' & _ & ->) _ E. simpl in *. congruence.
  - apply Forall_fmap. eapply Forall_impl; [exact HO|]. intros o Ho. by exists o.
  - rewrite <- list_fmap_compose. replace ((j_ID ∘ reorg_journal reorg) <$> js)
      with ((λ id, id +:+ (":reorg:" +:+ rg_ReorgID reorg)) <$> (j_ID <$> js)).
    + apply NoDup_fmap_2; [|done]. intros a b. apply append_inj_r.
    + rewrite <- list_fmap_compose. done.
Qed.

Lemma reorg_delta reorg js account asset :
  Forall well_formed js →
  batch_delta account asset (reorg_journal reorg <$> js) = - batch_delta account asset js.
Proof.
  intros HW. unfold batch_delta. rewrite Zsum_fmap, <- Zsum_opp. apply Zsum_ext. intros j Hj.
  rewrite Forall_forall in HW. by apply account_delta_reverse, HW.
Qed.

(** A deep reorganization undoes the settlement. Post a new confirmation, let the book
    grow in any way, then present reorganization evidence that matches the recorded
    settlement, with journals that are new to the book: the compensation succeeds, takes
    exactly the settlement's movements out of every balance and leaves one incident; the
    same evidence again returns the same journals and changes nothing, and other evidence
    for the settlement is refused as a conflict. *)
Theorem reorg_undoes_settlement (now now' : Time.t) (c : Confirmation) (reorg : ReorgEvidence)
    (poster poster1 poster2 : Poster) (provisional final : Journal) (sourceAccount : string)
    (ids : list string) :
  let js := buildJournals poster c provisional sourceAccount in
  let rjs := reorg_journal reorg <$> js in
  configured poster → ledger_inv (book poster) →
  records poster !! cf_CanonicalizationID c = None →
  validateSource poster c = Ok (provisional, final, sourceAccount) →
  Forall (λ j, fresh j (book poster)) js →
  ApplyConfirmation now c poster = (poster1, Ok ids) →
  extends (book poster1) (book poster2) →
  records poster2 !! cf_CanonicalizationID c = records poster1 !! cf_CanonicalizationID c →
  rg_CanonicalizationID reorg = cf_CanonicalizationID c → reorg_incomplete reorg = false →
  reorg_mismatch reorg (record_of c (hash_confirmation c) ids) = false →
  Forall (λ j, is_Some (journal_digest j)) rjs → Forall (λ j, fresh j (book poster2)) rjs →
  ∃ poster3 principal excess, CompensateReorg now' reorg poster2 = (poster3, Ok (j_ID <$> rjs)) ∧
    settles c principal excess ∧
    (∀ account asset, account_balance account asset (book poster3) =
       account_balance account asset (book poster2) -
       settlement_movement c sourceAccount principal excess account asset) ∧
    incidents poster3 !! rg_ReorgID reorg = Some (incident_of reorg) ∧
    ∀ now'' reorg', rg_CanonicalizationID reorg' = cf_CanonicalizationID c →
      reorg_incomplete reorg' = false → reorg_mismatch reorg' (record_of c (hash_confirmation c) ids) = false →
      CompensateReorg now'' reorg' poster3 =
        (poster3, if hash_reorg reorg' =s hash_reorg reorg then Ok (j_ID <$> rjs) else Err ErrReorgConflict).
Proof.
  intros js rjs [Hle Hlb] Hinv Hrec Hvs Hfr Happ Hext Hrec2 Hcid Hinc Hmis Hdr Hfr2.
  apply Apply_new in Happ as (Hv & _ & pv & fn & sa & bk & ps & Hvs' & Hpb & -> & ->); [|done].
  rewrite Hvs in Hvs'. injection Hvs' as <- <- <-. fold js in Hpb.
  destruct (validConfirmation_settles c Hv) as (p & x & Hs).
  destruct (source_fields _ _ _ _ _ Hinv Hvs) as [Hb Ha].
  assert (Forall well_formed js) as HW by (by eapply buildJournals_well_formed).
  destruct (PostBatch_new _ _ _ _ _ Hpb) as (hs & Hfst & Hfb & -> & Hids).
  { apply all_new_distinct; [apply buildJournals_distinct|done]. }
  change (posted_id <$> ps = j_ID <$> js) in Hids. rewrite Hids in *.
  cbn [book records posted_poster] in Hext, Hrec2. rewrite lookup_insert_eq in Hrec2.
  destruct (PostBatch_all now' rjs (book poster2)) as (hs2 & ps2 & Hpb2 & _ & _ & Hids2 & Hbal2);
    [done|apply Forall_fmap; eapply Forall_impl; [exact HW|intros j; by apply reorg_journal_well_formed]|done| |done|].
  { eapply reorg_journals_distinct; [apply buildJournals_own|apply buildJournals_ids_NoDup]. }
  assert (reorg_journals reorg (j_ID <$> js) (book poster2) = Ok rjs) as Hrj.
  { apply reorg_journals_Ok, Forall_forall. intros j Hj. rewrite <- Hfst in Hj.
    destruct (store_all_lookup _ _ _ _ Hfb Hj) as [h Hh]. exists h, now.
    eapply lookup_weaken; [exact Hh|apply Hext]. }
  eexists _, p, x. split; [|split; [done|split]].
  - unfold CompensateReorg. rewrite Hinc, Hcid, Hrec2, Hmis.
    change (r_reorgHash (record_of c (hash_confirmation c) (j_ID <$> js)) <>s "") with false.
    change (r_journalIDs (record_of c (hash_confirmation c) (j_ID <$> js))) with (j_ID <$> js).
    cbv iota zeta. rewrite Hrj, Hpb2, Hids2. reflexivity.
  - intros account asset. cbn [book]. rewrite Hbal2. unfold rjs. rewrite reorg_delta by done.
    unfold js. rewrite (buildJournals_delta _ _ _ _ Hs). lia.
  - cbn [incidents]. split; [apply lookup_insert_eq|]. intros now'' reorg' Hcid' Hinc' Hmis'.
    unfold CompensateReorg. rewrite Hinc', Hcid'. cbn [records]. rewrite lookup_insert_eq.
    change (reorg_mismatch reorg' (with_reorg _ _ _)) with
      (reorg_mismatch reorg' (record_of c (hash_confirmation c) (j_ID <$> js))).
    rewrite Hmis'. cbn [r_reorgHash r_reversalJournalIDs with_reorg].
    rewrite (proj2 (String.eqb_neq _ _) (hash_reorg_nonempty reorg)). cbv iota zeta beta. cbn [negb].
    rewrite (String.eqb_sym (hash_reorg reorg') (hash_reorg reorg)).
    by destruct (hash_reorg reorg =s hash_reorg reorg').
Qed.
End Posting.

(** * One settlement per payment *)

Lemma prefix_spec a s : String.prefix a s = true ↔ ∃ b, s = a +:+ b.
Proof.
  split; [|intros [b ->]; apply string_prefix_app]. revert s. induction a as [|x a IH]; intros s; [by eexists|].
  destruct s as [|y s]; simpl; [done|]. destruct (Ascii.ascii_dec x y) as [->|]; [|done].
  intros (b & ->)%IH. by exists b.
Qed.

Section Exclusion.
Context `{JournalDigest, AccountingDigests}.

(** [L] holds the confirmations that are ever presented; no two of them with different
    payments have the same hash. *)
Context (L : list Confirmation).
Definition payments_bind : Prop :=
  ∀ a b, a ∈ L → b ∈ L → hash_confirmation a = hash_confirmation b → cf_PaymentID a = cf_PaymentID b.

(** The separator of idempotency scopes occurs in no legal entity and no source system. *)
Definition nul_free (s : string) : Prop := has_char Ascii.zero s = false.
Definition clean (bk : Ledger) : Prop :=
  ∀ id p, byID bk !! id = Some p →
    nul_free (j_LegalEntityID (p_Journal p)) ∧ nul_free (j_SourceSystem (p_Journal p)).

Lemma clean_extends bk bk' : extends bk bk' → clean bk' → clean bk.
Proof. intros (Hb & _) Hc id p Hp. exact (Hc id p (lookup_weaken _ _ _ _ Hp Hb)). Qed.

Lemma scope_inj j j' :
  nul_free (j_LegalEntityID j) → nul_free (j_SourceSystem j) →
  nul_free (j_LegalEntityID j') → nul_free (j_SourceSystem j') → scope j = scope j' →
  j_SourceSystem j = j_SourceSystem j' ∧ j_IdempotencyKey j = j_IdempotencyKey j'.
Proof.
  intros He Hs He' Hs' E. unfold scope in E.
  apply (separator_inj Ascii.zero) in E as [_ E]; [|done..].
  by apply (separator_inj Ascii.zero) in E.
Qed.

(** The book holds a journal of the settlement [c]. *)
Definition settled_in (c : Confirmation) (bk : Ledger) : Prop :=
  ∃ id item, byID bk !! id = Some item ∧
    j_SourceSystem (p_Journal item) = "canonical-settlement" ∧
    String.prefix (exactCanonicalPrefix c) (j_IdempotencyKey (p_Journal item)) = true.

Lemma settled_in_extends c bk bk' : extends bk bk' → settled_in c bk → settled_in c bk'.
Proof.
  intros (Hb & _) (id & item & Hi & Hx). exists id, item.
  split; [exact (lookup_weaken _ _ _ _ Hi Hb)|done].
Qed.

(** A journal of one canonicalization claims the payment against every other. *)
Lemma settled_in_claims c c' bk :
  settled_in c bk → cf_PaymentID c' = cf_PaymentID c →
  CrossChainAccounting.colon_free (cf_CanonicalizationID c) →
  CrossChainAccounting.colon_free (cf_CanonicalizationID c') →
  cf_CanonicalizationID c' ≠ cf_CanonicalizationID c →
  ∃ id item, byID bk !! id = Some item ∧ claimed_elsewhere c' item = true.
Proof.
  intros (id & item & Hi & Hs & Hp) HP Hf Hf' Hne. exists id, item. split; [done|].
  apply prefix_spec in Hp as [b Hb]. unfold exactCanonicalPrefix in Hb. rewrite !string_app_assoc in Hb.
  unfold claimed_elsewhere, canonical_prefix. rewrite Hs, Hb, HP. rewrite String.eqb_refl, andb_true_l.
  apply andb_true_iff. split.
  - apply prefix_spec. eexists. by rewrite !string_app_assoc.
  - apply negb_true_iff, not_true_is_false. intros (b' & Hb')%prefix_spec. apply Hne.
    unfold exactCanonicalPrefix in Hb'. rewrite HP, !string_app_assoc in Hb'.
    repeat apply append_inj in Hb'. by apply separator_inj in Hb' as [-> _].
Qed.

(** Everything that can happen to a poster and its book: confirmations, compensations,
    any posting by other components to the shared book, and a restart. *)
Inductive poster_step (poster : Poster) : Poster → Prop :=
| step_apply now c : c ∈ L → poster_step poster (ApplyConfirmation now c poster).1
| step_compensate now reorg : poster_step poster (CompensateReorg now reorg poster).1
| step_book bk : ledger_step (book poster) bk → poster_step poster (with_book bk poster)
| step_restart entity loanBook poster' :
    nul_free entity → New (Some (book poster)) entity loanBook = Ok poster' → poster_step poster poster'.

Definition poster_reachable (poster : Poster) : Prop :=
  ∃ entity loanBook poster0, nul_free entity ∧ New (Some Ledger.New) entity loanBook = Ok poster0 ∧
    rtc poster_step poster0 poster.

Record poster_inv (poster : Poster) : Prop := {
  pi_book : ledger_inv (book poster);
  pi_entity : nul_free (legalEntityID poster);
  pi_record : ∀ id r, records poster !! id = Some r →
    ∃ c, c ∈ L ∧ cf_CanonicalizationID c = id ∧ id ≠ "" ∧ r_confirmationHash r = hash_confirmation c ∧
      settled_in c (book poster) ∧ byPayment poster !! cf_PaymentID c = Some id }.

(** Every outcome of a confirmation. *)
Lemma Apply_cases now c poster :
  (∃ e, ApplyConfirmation now c poster = (poster, Err e)) ∨
  (∃ r, records poster !! cf_CanonicalizationID c = Some r ∧
     r_confirmationHash r = hash_confirmation c ∧
     ApplyConfirmation now c poster = (poster, Ok (r_journalIDs r))) ∨
  (records poster !! cf_CanonicalizationID c = None ∧ ∃ poster' ids,
     ApplyConfirmation now c poster = (poster', Ok ids)).
Proof.
  unfold ApplyConfirmation. destruct (validConfirmation c); simpl; [|eauto].
  destruct (records poster !! cf_CanonicalizationID c) as [r|].
  { destruct (String.eqb_spec (r_confirmationHash r) (hash_confirmation c)); simpl; eauto 6. }
  destruct (lookup_zero "" (byPayment poster) _ <>s ""); [eauto|].
  destruct (lookup_zero "" (byAllocation poster) _ <>s ""); [eauto|].
  destruct (existsb _ _); [eauto|]. destruct (validateSource poster c) as [[[prov fin] acct]|]; [|eauto].
  destruct (PostBatch now _ (book poster)) as [bk [ps|e]] eqn:Hp; [eauto 6|].
  left. exists (ErrLedger e). apply batch_unchanged in Hp as ->. by destruct poster.
Qed.

Lemma Compensate_cases now reorg poster :
  (∃ res, CompensateReorg now reorg poster = (poster, res)) ∨
  (∃ stored journals bk ps, records poster !! rg_CanonicalizationID reorg = Some stored ∧
     PostBatch now journals (book poster) = (bk, Ok ps) ∧
     CompensateReorg now reorg poster =
       (mkPoster bk (legalEntityID poster) (loanBookID poster)
          (<[rg_CanonicalizationID reorg :=
               with_reorg (hash_reorg reorg) (posted_id <$> ps) stored]> (records poster))
          (byPayment poster) (byAllocation poster)
          (<[rg_ReorgID reorg := incident_of reorg]> (incidents poster)), Ok (posted_id <$> ps))).
Proof.
  unfold CompensateReorg. destruct (reorg_incomplete reorg); [eauto|].
  destruct (records poster !! rg_CanonicalizationID reorg) as [stored|]; [|eauto].
  destruct (reorg_mismatch reorg stored); [eauto|].
  destruct (r_reorgHash stored <>s ""); [destruct (r_reorgHash stored <>s _); eauto|].
  destruct (reorg_journals reorg _ (book poster)) as [js|]; [|eauto].
  destruct (PostBatch now js (book poster)) as [bk [ps|e]] eqn:Hp; [right; eauto 10|].
  left. exists (Err (ErrLedger e)). apply batch_unchanged in Hp as ->. by destruct poster.
Qed.

(** A settlement that was posted has a journal in the book. *)
Lemma posted_settled poster c provisional sourceAccount now bk ps :
  nul_free (legalEntityID poster) → clean bk → ledger_inv (book poster) →
  PostBatch now (buildJournals poster c provisional sourceAccount) (book poster) = (bk, Ok ps) →
  settled_in c bk.
Proof.
  intros Hle Hclean Hinv Hp. pose proof (PostBatch_inv now _ _ Hinv : ledger_inv (PostBatch now
    (buildJournals poster c provisional sourceAccount) (book poster)).1) as Hinv'.
  rewrite Hp in Hinv'. cbn [fst] in Hinv'. unfold PostBatch in Hp.
  pose proof (buildJournals_own poster c provisional sourceAccount) as HO.
  destruct (buildJournals poster c provisional sourceAccount) as [|j js] eqn:Ej; [done|].
  destruct (hash_all (j :: js)) as [hs|] eqn:Hh; [|done]. apply hash_all_Ok in Hh as [Hfst HF].
  destruct (post_all now hs (book poster)) as [b [qs|]] eqn:Ea; [|done]. injection Hp as -> ->.
  pose proof (post_all_answers _ _ _ _ _ Hinv HF Ea) as HA.
  destruct hs as [|[j' h] hs]; [done|]. injection Hfst as -> _.
  inversion HA as [|? p ? ? Hans _]; subst. cbv beta iota in Hans. destruct Hans as (id & Hsc & Hid & _).
  destruct (inv_idem _ Hinv' _ _ Hsc) as (q & Hq & Eq). rewrite Hid in Hq. injection Hq as <-.
  inversion HO as [|? ? Hown _]; subst. destruct (Hclean _ _ Hid) as [Hpe Hps].
  pose proof Hown as (s & _ & _ & Ele & Es & _).
  destruct (scope_inj (p_Journal p) j) as [Eps Epk]; try done; [by rewrite Ele|by rewrite Es|].
  exists id, p. split_and!; [done|by rewrite Eps|]. rewrite Epk. by eapply own_prefix.
Qed.

Lemma poster_step_inv poster poster' :
  clean (book poster') → poster_inv poster → poster_step poster poster' → poster_inv poster'.
Proof.
  intros Hclean [Hb He0 Hr] Hstep.
  assert (∀ bk rs, extends (book poster) bk → ledger_inv bk →
    (∀ id r, rs !! id = Some r → ∃ r', records poster !! id = Some r' ∧
       r_confirmationHash r = r_confirmationHash r') →
    ∀ lb inc, poster_inv (mkPoster bk (legalEntityID poster) lb rs (byPayment poster) (byAllocation poster) inc)) as Hgrow.
  { intros bk rs He Hi Hrs lb inc. split; [done|done|]. intros id r Hid.
    destruct (Hrs id r Hid) as (r' & Hr' & Eh). destruct (Hr id r' Hr') as (c & HL & Hc & Hne & Hh & Hs & Hp).
    exists c. split_and!; try done; [congruence|]. by eapply settled_in_extends. }
  destruct Hstep as [now c HcL|now reorg|bk Hbk|le lb p' Hle HN].
  - destruct (Apply_cases now c poster) as [[e ->]|[(r & _ & _ & ->)|(Hn & p' & ids & Ha)]]; [by split..|].
    rewrite Ha in Hclean |- *. cbn [fst] in Hclean |- *. pose proof Ha as Ha'.
    apply Apply_new in Ha' as (Hv & (Hbp & _) & pv & fn & sa & bk & ps & _ & Hp & -> & ->); [|done].
    pose proof (PostBatch_inv now (buildJournals poster c pv sa) _ Hb) as Hi.
    pose proof (PostBatch_extends now (buildJournals poster c pv sa) (book poster)) as He.
    rewrite Hp in Hi, He. cbn [fst] in Hi, He.
    split; [done|done|]. cbn [records book byPayment posted_poster] in Hclean |- *. intros id r.
    intros [[<- <-]|[Hne Hid]]%lookup_insert_Some.
    + exists c. destruct (validConfirmation_settles c Hv) as (? & ? & [_ _ _ _ _ _ _ (? & _) _]).
      split_and!; try done; [by eapply posted_settled|apply lookup_insert_eq].
    + destruct (Hr id r Hid) as (c' & HL' & Hc' & Hne' & Hh & Hs & Hpay).
      exists c'. split_and!; try done; [by eapply settled_in_extends|].
      rewrite lookup_insert_ne; [done|]. intros E. rewrite <- E in Hpay.
      unfold lookup_zero in Hbp. by rewrite Hpay in Hbp.
  - destruct (Compensate_cases now reorg poster) as [[res ->]|(st & js & bk & ps & Hst & Hp & ->)]; [by split|].
    pose proof (PostBatch_inv now js _ Hb) as Hi. pose proof (PostBatch_extends now js (book poster)) as He.
    rewrite Hp in Hi, He. apply Hgrow; [done|done|].
    intros id r [[<- <-]|[_ Hid]]%lookup_insert_Some; [by exists st|by exists r].
  - apply Hgrow; [by apply ledger_step_extends|by eapply ledger_step_inv|]. intros id r Hid. by exists r.
  - unfold New in HN. destruct (_ || _); [done|]. injection HN as <-. by split.
Qed.

Lemma New_poster_inv bk entity loanBook poster :
  ledger_inv bk → nul_free entity → New (Some bk) entity loanBook = Ok poster → poster_inv poster.
Proof.
  intros Hb He HN. unfold New in HN. destruct (_ || _); [done|]. injection HN as <-. by split.
Qed.

Lemma poster_step_extends poster poster' : poster_step poster poster' → extends (book poster) (book poster').
Proof.
  intros [now c _|now reorg|bk Hbk|le lb p' _ HN].
  - destruct (Apply_cases now c poster) as [[e ->]|[(r & _ & _ & ->)|(Hn & p' & ids & Ha)]]; [done..|].
    rewrite Ha. apply Apply_new in Ha as (_ & _ & pv & fn & sa & bk & ps & _ & Hp & _ & ->); [|done].
    pose proof (PostBatch_extends now (buildJournals poster c pv sa) (book poster)) as He. by rewrite Hp in He.
  - destruct (Compensate_cases now reorg poster) as [[res ->]|(st & js & bk & ps & _ & Hp & ->)]; [done|].
    pose proof (PostBatch_extends now js (book poster)) as He. by rewrite Hp in He.
  - by apply ledger_step_extends.
  - unfold New in HN. destruct (_ || _); [done|]. by injection HN as <-.
Qed.

Lemma poster_steps_extends poster poster' :
  rtc poster_step poster poster' → extends (book poster) (book poster').
Proof.
  induction 1 as [|p p' p'' Hs _ IH]; [done|].
  pose proof (poster_step_extends _ _ Hs) as (?&?&?). destruct IH as (?&?&?). split_and!; by etrans.
Qed.

Lemma poster_steps_inv poster poster' :
  clean (book poster') → poster_inv poster → rtc poster_step poster poster' → poster_inv poster'.
Proof.
  intros Hclean Hinv Hr. induction Hr as [|p p' p'' Hs Hr IH]; [done|]. apply IH; [done|].
  eapply poster_step_inv; [|done|done]. eapply clean_extends; [by apply poster_steps_extends|done].
Qed.

Lemma poster_reachable_inv poster : clean (book poster) → poster_reachable poster → poster_inv poster.
Proof.
  intros Hclean (le & lb & p0 & He & HN & Hr). eapply poster_steps_inv; [done| |done].
  eapply New_poster_inv; [apply New_inv|done|done].
Qed.

(** A confirmation that succeeds has its settlement in the book. *)
Lemma Apply_settled now c poster poster' ids :
  payments_bind → c ∈ L → clean (book poster') → poster_inv poster → ApplyConfirmation now c poster = (poster', Ok ids) →
  settled_in c (book poster') ∧
  ∀ r, records poster' !! cf_CanonicalizationID c = Some r →
    byPayment poster' !! cf_PaymentID c = Some (cf_CanonicalizationID c).
Proof.
  intros Hbind HcL Hclean Hinv Ha.
  destruct (Apply_cases now c poster) as [[e E]|[(r & Hr & Hh & E)|(Hn & _)]].
  - by rewrite E in Ha.
  - rewrite E in Ha. injection Ha as <- _.
    destruct (pi_record _ Hinv _ _ Hr) as (c' & HL' & Hc' & _ & Hh' & (id & item & Hi & Hs & Hp) & Hpay).
    assert (cf_PaymentID c = cf_PaymentID c') as HP by (apply Hbind; [done|done|congruence]).
    split; [|intros _ _; by rewrite HP]. exists id, item. split_and!; try done.
    unfold exactCanonicalPrefix in *. by rewrite HP, <- Hc'.
  - apply Apply_new in Ha as (_ & _ & pv & fn & sa & bk & ps & _ & Hp & _ & ->); [|done]. split.
    + by eapply posted_settled; [apply Hinv| |apply Hinv|].
    + intros _ _. apply lookup_insert_eq.
Qed.

(** No record of [c'] can appear where the payment is settled under another identifier. *)
Lemma step_keeps_out c c' poster poster' :
  payments_bind → c' ∈ L → cf_PaymentID c' = cf_PaymentID c →
  CrossChainAccounting.colon_free (cf_CanonicalizationID c) →
  CrossChainAccounting.colon_free (cf_CanonicalizationID c') →
  cf_CanonicalizationID c' ≠ cf_CanonicalizationID c →
  settled_in c (book poster) →
  (∀ r, records poster !! cf_CanonicalizationID c' = Some r → r_confirmationHash r ≠ hash_confirmation c') →
  poster_step poster poster' →
  ∀ r, records poster' !! cf_CanonicalizationID c' = Some r → r_confirmationHash r ≠ hash_confirmation c'.
Proof.
  intros Hbind HcL HP Hf Hf' Hne Hs Hout [now d HdL|now reorg|bk Hbk|le lb p' _ HN] r.
  - destruct (Apply_cases now d poster) as [[e ->]|[(r0 & _ & _ & ->)|(Hn & p' & ids & Ha)]]; [by apply Hout..|].
    rewrite Ha. apply Apply_new in Ha as (_ & (_ & _ & Hcl) & pv & fn & sa & bk & ps & _ & _ & _ & ->); [|done].
    cbn [fst records posted_poster]. intros [[Eid <-]|[_ Hr]]%lookup_insert_Some; [|by apply Hout].
    cbn [r_confirmationHash record_of]. intros Eh. pose proof (Hbind _ _ HdL HcL Eh) as Ep.
    destruct (settled_in_claims c d (book poster)) as (id & item & Hi & Hc);
      [done|congruence|done|by rewrite Eid|congruence|].
    by rewrite (Hcl _ _ Hi) in Hc.
  - destruct (Compensate_cases now reorg poster) as [[res ->]|(st & js & bk & ps & Hst & _ & ->)]; [by apply Hout|].
    cbn [fst records]. intros [[Eid <-]|[_ Hr]]%lookup_insert_Some; [|by apply Hout].
    cbn [r_confirmationHash with_reorg]. apply Hout. by rewrite <- Eid.
  - apply Hout.
  - unfold New in HN. destruct (_ || _); [done|]. by injection HN as <-.
Qed.

(** C13: a payment is settled under one canonicalization, as long as the
    canonicalization identifiers hold no colon. From any reachable state, after a
    confirmation succeeded, and through any further confirmations, compensations, postings
    of other components and restarts, no confirmation of the same payment under another
    colon-free identifier succeeds. Three conditions are needed: the two identifiers hold
    no colon (with colons a payment can be settled twice, after a restart of the poster),
    the legal entities and source systems of the book hold no NUL, and of the
    confirmations ever presented no two for different payments have the same hash. *)
Theorem one_settlement_per_payment (now now' : Time.t) (c c' : Confirmation)
    (poster poster1 poster2 poster3 : Poster) (ids ids' : list string) :
  payments_bind → c ∈ L → c' ∈ L → clean (book poster3) → poster_reachable poster →
  ApplyConfirmation now c poster = (poster1, Ok ids) → rtc poster_step poster1 poster2 →
  ApplyConfirmation now' c' poster2 = (poster3, Ok ids') → cf_PaymentID c' = cf_PaymentID c →
  CrossChainAccounting.colon_free (cf_CanonicalizationID c) →
  CrossChainAccounting.colon_free (cf_CanonicalizationID c') →
  cf_CanonicalizationID c' = cf_CanonicalizationID c.
Proof.
  intros Hbind HcL HcL' Hclean Hreach Ha Hrun Ha' HP Hf Hf'.
  destruct (decide (cf_CanonicalizationID c' = cf_CanonicalizationID c)) as [|Hne]; [done|exfalso].
  assert (poster_step poster poster1) as Hst by (pose proof (step_apply poster now c HcL) as Hx; by rewrite Ha in Hx).
  assert (poster_step poster2 poster3) as Hst' by (pose proof (step_apply poster2 now' c' HcL') as Hx; by rewrite Ha' in Hx).
  assert (clean (book poster1)) as Hclean1.
  { eapply clean_extends, Hclean. apply poster_steps_extends. eapply rtc_r; [exact Hrun|done]. }
  assert (poster_inv poster) as Hinv.
  { apply poster_reachable_inv; [|done]. eapply clean_extends, Hclean1. by apply poster_step_extends. }
  assert (poster_inv poster1) as Hinv1 by (by eapply poster_step_inv).
  destruct (Apply_settled _ _ _ _ _ Hbind HcL Hclean1 Hinv Ha) as [Hs Hpay].
  assert (∀ r, records poster1 !! cf_CanonicalizationID c' = Some r →
    r_confirmationHash r ≠ hash_confirmation c') as Hout.
  { intros r Hr Eh. destruct (pi_record _ Hinv1 _ _ Hr) as (d & HdL & Hd & _ & Hh & _ & Hdp).
    assert (cf_PaymentID d = cf_PaymentID c') as Ed by (apply Hbind; [done|done|congruence]).
    rewrite Ed, HP in Hdp.
    destruct (Apply_cases now c poster) as [[e E]|[(r0 & Hr0 & _ & E)|(Hn & _)]]; rewrite ?E in Ha.
    - done.
    - injection Ha as <- _. rewrite (Hpay _ Hr0) in Hdp. congruence.
    - apply Apply_new in Ha as (_ & _ & pv & fn & sa & bk & ps & _ & _ & _ & ->); [|done].
      cbn [byPayment posted_poster] in Hdp. rewrite lookup_insert_eq in Hdp. congruence. }
  assert (settled_in c (book poster2) ∧ ∀ r, records poster2 !! cf_CanonicalizationID c' = Some r →
    r_confirmationHash r ≠ hash_confirmation c') as [Hs2 Hout2].
  { clear Ha Hpay Hinv1 Hst Hst' Hclean1 Ha'. induction Hrun as [|p p' p'' Hstep _ IH]; [done|]. apply IH.
    - eapply settled_in_extends; [by apply poster_step_extends|done].
    - by eapply step_keeps_out. }
  destruct (Apply_cases now' c' poster2) as [[e E]|[(r0 & Hr0 & Hh0 & _)|(Hn & _)]].
  - by rewrite E in Ha'.
  - by apply (Hout2 r0).
  - apply Apply_new in Ha' as (_ & (_ & _ & Hcl) & _); [|done].
    destruct (settled_in_claims c c' (book poster2)) as (id & item & Hi & Hc); [done..|].
    by rewrite (Hcl _ _ Hi) in Hc.
Qed.

(** A payment that the synthetic engine allocated is not settled. Once the allocation
    journals of a payment are posted, a poster on any later state of that book refuses every
    confirmation of the payment that it has no record of, and changes nothing. *)
Theorem allocated_payment_not_settled (now now' : Time.t) (item : Allocation.Allocation)
    (allocator : AllocationAccounting.Poster) (principal excess : Z) (h1 h2 : string)
    (c : Confirmation) (poster : Poster) :
  let allocator' := (AllocationAccounting.ApplyAllocation_ now item allocator).1 in
  AllocationAccounting.valid_item item principal excess →
  AllocationAccounting.records allocator !! Allocation.al_AllocationID item = None →
  fresh (AllocationAccounting.allocation_journal item excess) (AllocationAccounting.book allocator) →
  fresh (AllocationAccounting.lender_journal item) (AllocationAccounting.book allocator) →
  journal_digest (AllocationAccounting.allocation_journal item excess) = Some h1 →
  journal_digest (AllocationAccounting.lender_journal item) = Some h2 →
  extends (AllocationAccounting.book allocator') (book poster) →
  cf_PaymentID c = Allocation.al_PaymentID item →
  records poster !! cf_CanonicalizationID c = None →
  ∃ e, ApplyConfirmation now' c poster = (poster, Err e).
Proof.
  intros allocator' Hv Hrec Hf1 Hf2 Hd1 Hd2 Hext HP Hn.
  destruct (AllocationAccounting.Apply_fresh now item allocator principal excess h1 h2) as [Happ _]; try done.
  unfold allocator' in Hext. rewrite Happ in Hext. cbn [fst AllocationAccounting.book] in Hext.
  destruct (Apply_cases now' c poster) as [?|[(r & Hr & _)|(_ & p' & ids & Ha)]]; [done|congruence|].
  apply Apply_new in Ha as (_ & _ & pv & fn & sa & bk & ps & Hvs & _); [|done].
  apply validateSource_spec in Hvs as (_ & _ & HA & _). exfalso.
  assert (byID (book poster) !! j_ID (AllocationAccounting.lender_journal item) =
    Some (mkPosted (AllocationAccounting.lender_journal item) h2 now)) as Hl.
  { eapply lookup_weaken; [|apply Hext]. apply lookup_insert_eq. }
  destruct (HA _ _ Hl) as [Hstop _]. unfold stops in Hstop. simpl in Hstop.
  rewrite HP, String.eqb_refl in Hstop. by rewrite orb_true_r in Hstop.
Qed.
End Exclusion.

(** * From a final payment to its settlement *)

Section Pipeline.
Context `{JournalDigest, AccountingDigests}.
Import PaymentTypes.

(** The confirmation [c] settles the payment of [tr]. *)
Definition settles_payment (c : Confirmation) (tr : Transition) : Prop :=
  let p := t_Payment tr in
  i_PaymentID p = cf_PaymentID c ∧ i_LoanID p = cf_LoanID c ∧ i_PayerReference p = cf_BorrowerID c ∧
  i_AssetID p = cf_SourceAssetID c ∧ i_Units p = cf_SourceUnits c.

Lemma payment_source_pair (pa : PaymentAccounting.Poster) (tr1 tr2 : Transition) c :
  settles_payment c tr1 → settles_payment c tr2 → i_Rail (t_Payment tr1) = i_Rail (t_Payment tr2) →
  source_pair (PaymentAccounting.legalEntityID pa) c (PaymentAccounting.provisionalJournal pa tr1)
    (PaymentAccounting.finalJournal pa tr2) (PaymentAccounting.settlementAccount tr2).
Proof.
  intros (P1 & L1 & B1 & A1 & U1) (P2 & L2 & B2 & A2 & U2) HR. unfold source_pair. simpl.
  rewrite P1, P2, L1, L2. split_and!; try done.
  - unfold PaymentAccounting.settlementAccount. destruct (_ =s _); auto.
  - exists (PaymentAccounting.pendingAccount tr1), "", "", "", "".
    assert (PaymentAccounting.pendingAccount tr2 = PaymentAccounting.pendingAccount tr1) as ->
      by (unfold PaymentAccounting.pendingAccount; by rewrite HR).
    split; [unfold PaymentAccounting.pendingAccount; destruct (_ =s _); auto|].
    unfold PaymentAccounting.entry. cbv zeta. by rewrite L1, L2, B1, B2, A1, A2, U1, U2.
Qed.

(** The two journals of a payment contribute exactly its units. *)
Lemma pair_contribution c provisional final sourceAccount entity pp pf principal excess :
  settles c principal excess → source_pair entity c provisional final sourceAccount →
  p_Journal pp = provisional → p_Journal pf = final →
  j_ReversalOf provisional = "" → j_ReversalOf final = "" →
  admissible c provisional final pp ∧ admissible c provisional final pf ∧
  contribution c pp = principal + excess ∧ contribution c pf = 0 ∧
  claimed_elsewhere c pp = false ∧ claimed_elsewhere c pf = false.
Proof.
  intros Hs (E1&E2&_&_&_&S1&S2&_&_&_&_&Hacc&pend&t1&t2&t3&t4&Hpend&Ep&Ef) Hpp Hpf R1 R2.
  assert (canonicalNonNegative (cf_SourceUnits c) = Some (principal + excess)) as Hu.
  { rewrite (st_source _ _ _ Hs). apply Big.canonical_nonneg_to_string. destruct Hs. lia. }
  assert (∀ l, e_Units l = cf_SourceUnits c → line_readable (cf_SourceAssetID c) l) as Hread.
  { intros l El _. rewrite El, Hu. by eexists. }
  assert (counts c pp = true ∧ counts c pf = true) as [C1 C2].
  { unfold counts, journalBelongsToPayment. rewrite Hpp, Hpf, S1, S2, E1, E2, !String.eqb_refl.
    split; [done|]. simpl. by rewrite orb_true_r. }
  unfold admissible, contribution, stops, claimed_elsewhere. rewrite C1, C2, Hpp, Hpf, R1, R2, S1, S2, E1, E2, Ep, Ef.
  split_and!; try done; try (intros _; repeat constructor; by apply Hread).
  - rewrite !Zsum_cons, Zsum_nil. unfold line_value at 1 2, line_counts, line_units. simpl.
    rewrite Hu, String.eqb_refl. simpl. destruct Hpend as [-> | ->]; simpl; lia.
  - rewrite !Zsum_cons, Zsum_nil. unfold line_value at 1 2, line_counts. simpl.
    destruct Hpend as [-> | ->], Hacc as [-> | ->]; done.
Qed.

(** A final payment can be settled. When the book holds the provisional and the final
    journal that payment accounting posts for a payment, under the poster's legal entity,
    and nothing else in it bears on the payment, the source check accepts every valid
    confirmation of that payment and finds the settlement account of its rail. *)
Theorem final_payment_is_source (pa : PaymentAccounting.Poster) (tr1 tr2 : Transition)
    (c : Confirmation) (poster : Poster) (pp pf : PostedJournal) :
  let provisional := PaymentAccounting.provisionalJournal pa tr1 in
  let final := PaymentAccounting.finalJournal pa tr2 in
  validConfirmation c = true → settles_payment c tr1 → settles_payment c tr2 →
  i_Rail (t_Payment tr1) = i_Rail (t_Payment tr2) →
  PaymentAccounting.legalEntityID pa = legalEntityID poster →
  cf_OriginalProvisionalJournalID c = j_ID provisional → cf_OriginalFinalJournalID c = j_ID final →
  Get (j_ID provisional) (book poster) = Some pp → p_Journal pp = provisional →
  Get (j_ID final) (book poster) = Some pf → p_Journal pf = final →
  (∀ id item, byID (book poster) !! id = Some item → id ≠ j_ID provisional → id ≠ j_ID final →
     unrelated c provisional final item) →
  validateSource poster c = Ok (provisional, final, PaymentAccounting.settlementAccount tr2) ∧
  ∀ id item, byID (book poster) !! id = Some item → claimed_elsewhere c item = false.
Proof.
  intros provisional final Hv HS1 HS2 HR Hle Hip Hif Hgp Hpp Hgf Hpf Hun.
  destruct (validConfirmation_settles c Hv) as (p & x & Hs).
  pose proof (payment_source_pair pa tr1 tr2 c HS1 HS2 HR) as Hsp. fold provisional final in Hsp.
  destruct (pair_contribution c provisional final _ _ pp pf p x Hs Hsp Hpp Hpf eq_refl eq_refl)
    as (A1 & A2 & C1 & C2 & N1 & N2).
  assert (∀ id item, byID (book poster) !! id = Some item →
    id = j_ID provisional ∧ item = pp ∨ id = j_ID final ∧ item = pf ∨ unrelated c provisional final item) as Hall.
  { intros id item Hi. destruct (decide (id = j_ID provisional)) as [->|]; [left; split; [done|unfold Get in Hgp; congruence]|].
    destruct (decide (id = j_ID final)) as [->|]; [right; left; split; [done|unfold Get in Hgf; congruence]|].
    right. right. by eapply Hun. }
  split.
  - apply validateSource_spec. split_and!.
    + exists pp, pf. by rewrite Hip, Hif.
    + by rewrite <- Hle.
    + intros id item Hi. destruct (Hall id item Hi) as [[_ ->]|[[_ ->]|[? _]]]; done.
    + rewrite (Msum_grow (contribution c) {[j_ID provisional := pp]}).
      * unfold Msum. rewrite map_to_list_singleton, Zsum_cons, Zsum_nil. simpl.
        rewrite C1, (st_source _ _ _ Hs). unfold canonicalNonNegative.
        rewrite Big.canonical_nonneg_to_string; [simpl; lia|destruct Hs; lia].
      * by apply map_singleton_subseteq_l.
      * intros id item Hi. destruct (Hall id item Hi) as [[-> ->]|[[_ ->]|(_ & Hz & _)]];
          [left; apply lookup_insert_eq|by right|by right].
  - intros id item Hi. destruct (Hall id item Hi) as [[_ ->]|[[_ ->]|(_ & _ & ?)]]; done.
Qed.
End Pipeline.

(** * Authority *)

Lemma VerifyConfirmation_Ok authority input c :
  VerifyConfirmation authority input = Ok c →
  let projection := value input in
  da_paymentID authority = ap_PaymentID projection ∧
  da_allocationID authority = ap_AllocationID projection ∧
  da_instructionDigest authority = ap_InstructionDigest projection ∧
  da_transactionHash authority = ap_TransactionHash projection ∧
  da_gatewayEventID authority = ap_EventID projection ∧
  da_eventEvidenceHash authority = ap_EventEvidenceHash projection ∧
  da_rawPayloadHash authority = ap_GatewayPayloadHash projection ∧
  da_finalityEvidenceHash authority = ap_FinalityEvidenceHash projection ∧
  c = confirmation_of authority projection
        ("payment:" +:+ ap_PaymentID projection +:+ ":provisional")
        ("payment:" +:+ ap_PaymentID projection +:+ ":final") ∧
  validConfirmation c = true.
Proof.
  unfold VerifyConfirmation. cbv zeta. pass_if Hg.
  destruct (original_journals _ "" "") as [[pid fid]|]; [|done]. pass_if Hj. pass_if Hv.
  intros [= <-]. apply negb_false_iff in Hv. bool_facts. subst pid fid. done.
Qed.

(** The authority binds the confirmation. When an authority was loaded from the database
    for one coordinator confirmation and the verification of a confirmation against it
    succeeds, the canonicalization and the conversion are the row the database returned
    for the loaded confirmation, both confirmations name the same payment, allocation,
    instruction, transaction, event and evidence, and the source journals are the
    payment's own two. *)
Theorem authority_binds (query : authorityQueryer) (input input' : SettlementTypes.Confirmation)
    (authority : DurableConfirmationAuthority) (c : Confirmation) :
  let projection := value input in
  loadDurableConfirmationAuthority (Some query) input = Ok authority →
  VerifyConfirmation authority input' = Ok c →
  query (authority_args projection) = Some (cf_CanonicalizationID c, cf_ConversionEvidenceHash c) ∧
  validConfirmation c = true ∧
  cf_PaymentID c = ap_PaymentID projection ∧ cf_AllocationID c = ap_AllocationID projection ∧
  cf_InstructionDigest c = ap_InstructionDigest projection ∧
  cf_GatewayTransactionHash c = ap_TransactionHash projection ∧
  cf_GatewayEventID c = ap_EventID projection ∧
  cf_EventEvidenceHash c = ap_EventEvidenceHash projection ∧
  cf_RawGatewayPayloadHash c = ap_GatewayPayloadHash projection ∧
  cf_FinalityEvidenceHash c = ap_FinalityEvidenceHash projection ∧
  cf_OriginalProvisionalJournalID c = "payment:" +:+ cf_PaymentID c +:+ ":provisional" ∧
  cf_OriginalFinalJournalID c = "payment:" +:+ cf_PaymentID c +:+ ":final".
Proof.
  intros projection. unfold loadDurableConfirmationAuthority. fold projection. pass_if Hg.
  destruct (query (authority_args projection)) as [row|]; [|done]. pass_if Hr. intros [= <-] HV.
  apply VerifyConfirmation_Ok in HV as (E1&E2&E3&E4&E5&E6&E7&E8&->&Hv).
  cbn -[validConfirmation projection] in *. split_and!; try done. by destruct row.
Qed.

(** Guards that follow from equations between the fields. *)
Ltac solve_fields :=
  unfold Time.IsZero, Time.After, Time.UTC in *; cbn [Time.ns] in *;
  repeat (apply orb_false_iff; split);
  first [ apply String.eqb_neq; congruence
        | apply negb_false_iff; congruence
        | apply negb_false_iff, String.eqb_eq; congruence
        | apply negb_false_iff, Z.eqb_eq; congruence
        | apply negb_false_iff, Z.ltb_lt; lia
        | apply Z.eqb_neq; lia
        | apply Z.ltb_ge; lia ].

(** The facts behind a verified confirmation and a verified reorganization of it. *)
Ltac open_reorg :=
  let HV := fresh "HV" in let Hv := fresh "Hv" in let Hg := fresh "Hg" in let Ha := fresh "Ha" in
  lazymatch goal with |- context [VerifyConfirmation ?a ?i] =>
    destruct (VerifyConfirmation a i) as [?|] eqn:HV; [|done] end;
  intros [= ->]; apply VerifyConfirmation_Ok in HV as (_&_&_&_&_&_&_&_&->&Hv);
  pass_if Hg; intros [= <-]; revert Hv Hg; unfold validConfirmation;
  do 3 (destruct (canonicalPositive _); [|done]); destruct (canonicalNonNegative _); [|done];
  destruct (canonicalPositive _); [|done]; destruct (canonicalNonNegative _); [|done];
  pass_if Ha; intros Hv Hg; clear Ha;
  cbn -[canonicalHash nonzeroCanonicalHash String.append Z.ltb Z.leb Z.eqb String.eqb] in Hv;
  bool_facts.

Lemma canonicalHash_nonempty v : canonicalHash v = true → v ≠ "".
Proof. by intros Hv ->. Qed.

(** Verified reorganizations are accepted. Evidence that the coordinator's reorganization
    authority yields for a confirmation is complete and matches the record of that
    confirmation in every field the compensation compares, whatever the poster stored
    besides; so [CompensateReorg] never refuses it for a mismatch. *)
Theorem verified_reorg_accepted (authority : DurableConfirmationAuthority)
    (input : SettlementTypes.Confirmation) (metadata : ReorgMetadata)
    (evidence : SettlementTypes.ReorgEvidence) (c : Confirmation) (reorg : ReorgEvidence) :
  AdaptConfirmation authority input = Ok c → AdaptVerifiedReorg metadata input evidence = Ok reorg →
  reorg_incomplete reorg = false ∧
  ∀ contentHash ids, reorg_mismatch reorg (record_of c contentHash ids) = false.
Proof.
  unfold AdaptConfirmation, AdaptVerifiedReorg, VerifyReorg. cbv zeta. open_reorg. split.
  - unfold reorg_incomplete. cbn -[canonicalHash nonzeroCanonicalHash Z.ltb Z.eqb String.eqb].
    solve_fields.
  - intros h ids. unfold reorg_mismatch. cbn -[Z.eqb String.eqb]. solve_fields.
Qed.
