(* ===== verification/SettlementBooksSample.v ===== *)
(** A settlement on the books, on concrete data: the payment's two journals posted by
    payment accounting, the coordinator's confirmation verified against a database row,
    its journals, a restart, a deep reorganization and its compensation. *)
From S2P Require Import Prelude GoStd PaymentTypes SettlementTypes Ledger SettlementAccounting SettlementBooks.
From S2P Require Allocation AllocationAccounting CrossChainAccounting PaymentAccounting SettlementDigest.

(** ** Digests *)

#[local] Existing Instance id_digest.
#[local] Instance plain_digests : AccountingDigests.
Proof.
  refine {| hash_confirmation c := cf_PaymentID c;
            hash_reorg r := String CrossChainAccounting.colon (rg_ReorgID r) |}. done.
Defined.
#[local] Instance plain_payments : PaymentAccounting.PaymentDigests := {
  PaymentAccounting.hash_transition tr := t_ProviderEventID tr;
  PaymentAccounting.hash_statement l := "s"; PaymentAccounting.hash_evidence l := "e";
  PaymentAccounting.hash_run r := "r" }.

(** ** The payment and its confirmation *)

Definition t (n : Z) : Time.t := Time.mk n "".
Definition h (n : Z) : string := SettlementDigest.Sample.h n.

Definition intent (status : string) : Intent :=
  mkIntent "p1" "entity" "k" "corr" "borrower" "L" "prov" "ref" RailCard "repay" "USD" "130" (t 90) 1
    status 3 (t 1) (t 5) (t 4) (t 5) (t 0).
Definition tr1 : Transition :=
  mkTransition (intent StatusProvisional) StatusProcessing StatusProvisional "ev1" (t 4) (t 4) "h".
Definition tr2 : Transition :=
  mkTransition (intent StatusFinal) StatusProvisional StatusFinal "ev2" (t 5) (t 5) "h".
Definition pa : PaymentAccounting.Poster := PaymentAccounting.mkPoster Ledger.New "entity" "payments" ∅ ∅.
Definition pa2 : PaymentAccounting.Poster :=
  (PaymentAccounting.Apply (t 6) tr2 (PaymentAccounting.Apply (t 5) tr1 pa).1).1.

Definition projection_of (payment allocation : string) (journals : list string) : AccountingProjection :=
  {| ap_PaymentID := payment; ap_AllocationID := allocation; ap_LoanID := "L"; ap_ProviderID := "prov";
     ap_ProviderReference := "ref"; ap_SourceAssetID := "USD"; ap_TargetAssetID := "USDC";
     ap_TargetToken := "token"; ap_Denomination := "USD"; ap_Precision := 2; ap_SourceUnits := "130";
     ap_TargetUnits := "130"; ap_PrincipalUnits := "100"; ap_RefundableExcessUnits := "30";
     ap_DebtBeforeUnits := "100"; ap_DebtAfterUnits := "0"; ap_ReconciliationID := "rec";
     ap_ProviderIDHash := "pih"; ap_ProviderReferenceHash := "prh";
     ap_ReconciliationCommitment := "rc"; ap_OriginalJournalSetHash := "oj";
     ap_FinalityPolicyHash := h 1; ap_ConversionPolicyHash := h 2; ap_PolicySetHash := h 3;
     ap_EligibilityEvidenceHash := h 4; ap_JournalRef := "jr"; ap_ProviderFinalizedAt := 5;
     ap_ReversalDeadlineUnix := 9; ap_OriginalJournalIDs := journals;
     ap_CorrelationID := "corr"; ap_InstructionDigest := h 5; ap_ChainID := 1; ap_Gateway := "gw";
     ap_LoanAccount := "acct"; ap_Finalizer := "fin"; ap_Attester := "att"; ap_TransactionHash := h 6;
     ap_EventID := "event"; ap_LogIndex := 0; ap_BlockNumber := 10; ap_BlockHash := h 7;
     ap_TransactionIndex := 2; ap_ReceiptsRoot := h 8; ap_InclusionProofHash := h 9;
     ap_HeaderAuthorityHash := h 10; ap_ReceiptHeaderSignatureHash := h 11;
     ap_HeadHeaderSignatureHash := h 12; ap_ConfirmationDepth := 3; ap_FinalityHeadBlock := 14;
     ap_FinalityHeadHash := h 13; ap_FinalityEvidenceHash := h 14; ap_StateNonceBefore := 7;
     ap_StateNonceAfter := 8; ap_LenderID := "lender"; ap_BorrowerID := "borrower";
     ap_EventEvidenceHash := h 15; ap_GatewayPayloadHash := h 16; ap_ConfirmedAt := t 20;
     ap_Incident := false |}.
Definition projection : AccountingProjection :=
  projection_of "p1" "a1" ["payment:p1:provisional"; "payment:p1:final"].
Definition input : SettlementTypes.Confirmation := mkConfirmation projection false.
Definition query : authorityQueryer := λ _, Some ("canon-1"%string, "conversion"%string).
Definition authority : DurableConfirmationAuthority :=
  authority_of projection ("canon-1"%string, "conversion"%string).
Definition c : SettlementAccounting.Confirmation :=
  confirmation_of authority projection "payment:p1:provisional" "payment:p1:final".

Lemma authority_loaded : loadDurableConfirmationAuthority (Some query) input = Ok authority.
Proof. vm_compute. reflexivity. Qed.

Lemma c_verified : VerifyConfirmation authority input = Ok c.
Proof. vm_compute. reflexivity. Qed.

Lemma c_valid : validConfirmation c = true.
Proof. vm_compute. reflexivity. Qed.

Lemma authority_binds_witness :
  query (authority_args projection) = Some (cf_CanonicalizationID c, cf_ConversionEvidenceHash c) ∧
  cf_PaymentID c = "p1".
Proof.
  destruct (authority_binds query input input authority c authority_loaded c_verified) as (Hq & _ & Hp & _).
  split; [exact Hq|exact Hp].
Defined.

(** ** The books *)

Definition fresh_b (j : Journal) (bk : Ledger) : bool :=
  negb (has_key (idempotency bk) (scope j)) && negb (has_key (byID bk) (j_ID j)) &&
  ((j_ReversalOf j =s "") ||
   has_key (byID bk) (j_ReversalOf j) && negb (has_key (reversals bk) (j_ReversalOf j))).

Lemma fresh_b_sound js bk : forallb (λ j, fresh_b j bk) js = true → Forall (λ j, fresh j bk) js.
Proof.
  intros HF. apply Forall_forall. intros j Hj. rewrite forallb_forall in HF.
  specialize (HF j (proj1 (list_elem_of_In _ _) Hj)). unfold fresh_b in HF.
  apply andb_true_iff in HF as [[H1 H2]%andb_true_iff H3]. apply negb_true_iff, has_key_false in H1, H2.
  split; [done|done|]. intros Hne. rewrite (proj2 (String.eqb_neq _ _) Hne) in H3.
  apply andb_true_iff in H3 as [H3 H4]. split; [by apply has_key_true|].
  by apply has_key_false, negb_true_iff.
Qed.

Lemma digests_total (js : list Journal) : Forall (λ j, is_Some (journal_digest j)) js.
Proof. apply Forall_forall. intros j _. unfold journal_digest, id_digest. by eexists. Qed.

Definition provisional : Journal := PaymentAccounting.provisionalJournal pa tr1.
Definition final : Journal := PaymentAccounting.finalJournal pa tr2.
Definition bk1 : Ledger := (PostBatch (t 5) [provisional] Ledger.New).1.
Definition bk2 : Ledger := (PostBatch (t 6) [final] bk1).1.
Definition digest_of (j : Journal) : string := default ""%string (journal_digest j).
Definition pp : PostedJournal := mkPosted provisional (digest_of provisional) (t 5).
Definition pf : PostedJournal := mkPosted final (digest_of final) (t 6).

Lemma books_agree : PaymentAccounting.book pa2 = bk2.
Proof. vm_compute. reflexivity. Qed.

Lemma bk2_inv : ledger_inv bk2.
Proof. apply PostBatch_inv, PostBatch_inv, New_inv. Qed.

Lemma bk2_journals :
  byID bk2 = <["payment:p1:final" := pf]> {["payment:p1:provisional" := pp]}.
Proof. vm_compute. reflexivity. Qed.

Definition fresh_poster (bk : Ledger) : Poster := mkPoster bk "entity" "loans" ∅ ∅ ∅ ∅.
Definition poster : Poster := fresh_poster (PaymentAccounting.book pa2).

Lemma poster_inv_book : ledger_inv (book poster).
Proof. unfold poster. simpl. rewrite books_agree. apply bk2_inv. Qed.

Lemma final_payment_is_source_witness :
  validateSource poster c = Ok (provisional, final, "1120"%string).
Proof.
  destruct (final_payment_is_source pa tr1 tr2 c poster pp pf) as [HV _];
    [exact c_valid|by vm_compute|by vm_compute|reflexivity|reflexivity|reflexivity|reflexivity
    |vm_compute; reflexivity|reflexivity|vm_compute; reflexivity|reflexivity| |exact HV].
  intros id item. unfold poster. simpl. rewrite books_agree, bk2_journals.
  intros [[<- _]|[_ [<- _]%lookup_singleton_Some]]%lookup_insert_Some Hn1 Hn2;
    exfalso; [by apply Hn2|by apply Hn1].
Defined.

Lemma source_accepted : validateSource poster c = Ok (provisional, final, "1120"%string).
Proof. vm_compute. reflexivity. Qed.

Lemma poster_unclaimed : unclaimed c poster.
Proof. split; [done|split; [done|]]. apply existsb_List_false. vm_compute. reflexivity. Qed.

Definition js : list Journal := buildJournals poster c provisional "1120".
Definition ids : list string := j_ID <$> js.

Lemma js_fresh : Forall (λ j, fresh j (book poster)) js.
Proof. apply fresh_b_sound. vm_compute. reflexivity. Qed.

Lemma settlement_effect_witness :
  ∃ poster' ids, ApplyConfirmation (t 21) c poster = (poster', Ok ids) ∧
    account_balance "9120" "USD" (book poster') = 0 ∧
    account_balance "1120" "USD" (book poster') = 0 ∧
    account_balance "1310" "USDC" (book poster') = -100 ∧
    account_balance "2310" "USDC" (book poster') = 100 ∧
    account_balance "1260" "USDC" (book poster') = 0.
Proof.
  destruct (settlement_effect (t 21) (t 22) c poster provisional final "1120")
    as (p' & i & pr & ex & Ha & Hs & _ & Hb & _);
    [done|exact poster_inv_book|exact c_valid|reflexivity|exact poster_unclaimed|exact source_accepted
    |apply digests_total|exact js_fresh|].
  exists p', i. split; [exact Ha|].
  assert (pr = 100 ∧ ex = 30) as [-> ->].
  { destruct Hs as [_ _ Hp Hx _ _ _ _ _]. split; apply Big.to_string_inj; [rewrite <- Hp|rewrite <- Hx]; reflexivity. }
  rewrite !Hb. split_and!; vm_compute; reflexivity.
Defined.

Lemma settlement_batch_typed_witness : NoDup ids ∧ length js = 8%nat.
Proof.
  destruct (settlement_batch_typed c poster provisional final "1120") as (_ & _ & Hn & _ & Hl);
    [done|exact poster_inv_book|exact c_valid|exact source_accepted|].
  split; [exact Hn|]. etransitivity; [exact Hl|reflexivity].
Defined.

(** ** Restart, reorganization, exclusion *)

Definition poster1 : Poster := (ApplyConfirmation (t 21) c poster).1.

Lemma settled_ids : (ApplyConfirmation (t 21) c poster).2 = Ok ids.
Proof. vm_compute. reflexivity. Qed.

Lemma poster_settled : ApplyConfirmation (t 21) c poster = (poster1, Ok ids).
Proof. rewrite (surjective_pairing (ApplyConfirmation (t 21) c poster)), settled_ids. done. Qed.

Definition poster2 : Poster := fresh_poster (book poster1).
Definition poster3 : Poster := (ApplyConfirmation (t 30) c poster2).1.

Lemma settled_again_ids : (ApplyConfirmation (t 30) c poster2).2 = Ok ids.
Proof. vm_compute. reflexivity. Qed.

Lemma poster_settled_again : ApplyConfirmation (t 30) c poster2 = (poster3, Ok ids).
Proof. rewrite (surjective_pairing (ApplyConfirmation (t 30) c poster2)), settled_again_ids. done. Qed.

Lemma restart_replays_witness :
  ∃ poster3, ApplyConfirmation (t 30) c (fresh_poster (book poster1)) = (poster3, Ok ids) ∧
    book poster3 = book poster1.
Proof.
  apply (restart_replays (t 21) (t 30) c poster poster1 (fresh_poster (book poster1)) ids (book poster1)
    provisional final "1120"); [done|exact poster_inv_book|reflexivity|exact source_accepted
    |exact poster_settled|done|by left|reflexivity].
Defined.

Definition evidence : SettlementTypes.ReorgEvidence :=
  {| re_ReorgID := "reorg-1"; re_PaymentID := "p1"; re_AllocationID := "a1";
     re_InstructionDigest := h 5; re_ChainID := 1; re_Gateway := "gw"; re_OrphanedEventID := "event";
     re_OrphanedTxHash := h 6; re_OrphanedEventEvidenceHash := h 15; re_RawEvidenceHash := h 16;
     re_TransactionIndex := 2; re_ReceiptsRoot := h 8; re_InclusionProofHash := h 9;
     re_OrphanedReceiptHeaderSignatureHash := h 11; re_OrphanedBlockHash := h 7; re_OrphanedBlock := 10;
     re_ReplacementBlockHash := h 20; re_ReplacementBlock := 10; re_DepthClass := "DEEP";
     re_ConfirmationDepth := 3; re_DetectedHead := 15; re_DetectedHeadHash := h 21;
     re_FinalityPolicyHash := h 1; re_HeaderAuthorityHash := h 10;
     re_ReplacementHeaderSignatureHash := h 22; re_DetectedHeadHeaderSignatureHash := h 23;
     re_Deep := true; re_CompensationRequired := true; re_EvidenceHash := h 24;
     re_SubmissionSubmittedAt := t 15; re_DetectedAt := t 40 |}.
Definition metadata : ReorgMetadata := mkMetadata "reorg-1" "canon-1" "owner" (t 99).
Definition reorg : SettlementAccounting.ReorgEvidence := reorg_of metadata projection evidence.

Lemma reorg_verified : AdaptVerifiedReorg metadata input evidence = Ok reorg.
Proof. vm_compute. reflexivity. Qed.

Lemma verified_reorg_accepted_witness :
  reorg_incomplete reorg = false ∧ reorg_mismatch reorg (record_of c "h" ids) = false.
Proof.
  destruct (verified_reorg_accepted authority input metadata evidence c reorg) as [Hi Hm];
    [vm_compute; reflexivity|exact reorg_verified|]. split; [exact Hi|apply Hm].
Defined.

Definition rjs : list Journal := reorg_journal reorg <$> js.

Lemma rjs_fresh : Forall (λ j, fresh j (book poster1)) rjs.
Proof. apply fresh_b_sound. vm_compute. reflexivity. Qed.

Lemma reorg_matches : reorg_mismatch reorg (record_of c (hash_confirmation c) ids) = false.
Proof. vm_compute. reflexivity. Qed.

Lemma reorg_undoes_settlement_witness :
  ∃ poster3, CompensateReorg (t 41) reorg poster1 = (poster3, Ok (j_ID <$> rjs)) ∧
    account_balance "1310" "USDC" (book poster3) = 0 ∧
    account_balance "9120" "USD" (book poster3) = -130 ∧
    CompensateReorg (t 50) reorg poster3 = (poster3, Ok (j_ID <$> rjs)).
Proof.
  destruct (reorg_undoes_settlement (t 21) (t 41) c reorg poster poster1 poster1 provisional final "1120" ids)
    as (p3 & pr & ex & Hc & Hs & Hb & _ & Hr);
    [done|exact poster_inv_book|reflexivity|exact source_accepted|exact js_fresh|exact poster_settled
    |done|reflexivity|reflexivity|vm_compute; reflexivity|exact reorg_matches|apply digests_total|exact rjs_fresh|].
  assert (pr = 100 ∧ ex = 30) as [-> ->].
  { destruct Hs as [_ _ Hp Hx _ _ _ _ _]. split; apply Big.to_string_inj; [rewrite <- Hp|rewrite <- Hx]; reflexivity. }
  exists p3. split; [exact Hc|]. rewrite !Hb. split; [vm_compute; reflexivity|]. split; [vm_compute; reflexivity|].
  apply (Hr (t 50) reorg); [reflexivity|vm_compute; reflexivity|exact reorg_matches].
Defined.

Lemma poster_is_reachable : poster_reachable [c] poster.
Proof.
  exists "entity", "loans", (fresh_poster Ledger.New). split; [reflexivity|]. split; [reflexivity|].
  replace poster with (fresh_poster bk2) by (unfold poster; by rewrite books_agree).
  eapply rtc_l; [apply (step_book _ _ bk1), step_batch|].
  eapply rtc_l; [apply (step_book _ _ bk2), (step_batch bk1)|]. apply rtc_refl.
Qed.

Lemma one_binds : payments_bind [c].
Proof. intros x y Hx Hy _. apply list_elem_of_singleton in Hx, Hy. by subst. Qed.

Lemma poster3_clean : clean (book poster3).
Proof.
  intros id p Hp.
  assert (Forall (λ q, has_char Ascii.zero (j_LegalEntityID (p_Journal q)) = false ∧
    has_char Ascii.zero (j_SourceSystem (p_Journal q)) = false) (List_ (book poster3))) as HF.
  { apply (bool_decide_unpack _). vm_compute. exact I. }
  exact (proj1 (Forall_List_ _ _) HF id p Hp).
Qed.

Lemma one_settlement_per_payment_witness :
  ApplyConfirmation (t 30) c poster2 = (poster3, Ok ids) ∧ cf_CanonicalizationID c = cf_CanonicalizationID c.
Proof.
  split; [exact poster_settled_again|].
  exact (one_settlement_per_payment [c] (t 21) (t 30) c c poster poster1 poster2 poster3 ids ids
    one_binds (list_elem_of_here c []) (list_elem_of_here c []) poster3_clean poster_is_reachable poster_settled
    (rtc_once _ _ (step_restart [c] poster1 "entity" "loans" poster2 eq_refl eq_refl)) poster_settled_again
    eq_refl eq_refl eq_refl).
Defined.

(** Why the identifiers must hold no colon: the book tells the canonicalizations of a
    payment apart by a prefix of the idempotency key that ends with a colon, so the
    journals of [x:y] pass for journals of [x]. After a restart of the poster both
    settle the payment, and the receivable is credited twice. *)
Definition c_as (id : string) : SettlementAccounting.Confirmation :=
  confirmation_of (authority_of projection (id, "conversion"%string)) projection
    "payment:p1:provisional" "payment:p1:final".
Definition first_xy : Poster * result SettlementAccounting.error (list string) :=
  ApplyConfirmation (t 21) (c_as "x:y") poster.
Definition then_x : Poster * result SettlementAccounting.error (list string) :=
  ApplyConfirmation (t 30) (c_as "x") (fresh_poster (book first_xy.1)).
Lemma colon_settles_twice :
  validConfirmation (c_as "x:y") = true ∧ validConfirmation (c_as "x") = true ∧
  cf_PaymentID (c_as "x") = cf_PaymentID (c_as "x:y") ∧
  is_ok first_xy.2 = true ∧ is_ok then_x.2 = true ∧
  account_balance "1310" "USDC" (book first_xy.1) = -100 ∧
  account_balance "1310" "USDC" (book then_x.1) = -200.
Proof. split_and!; vm_compute; reflexivity. Qed.

(** ** A payment that was allocated instead *)

Definition item : Allocation.Allocation := AllocationAccounting.Sample.item.
Definition allocator : AllocationAccounting.Poster := AllocationAccounting.Sample.poster.
Definition lender : Journal := AllocationAccounting.lender_journal item.
Definition taken : Journal := AllocationAccounting.allocation_journal item 30.
Definition booked : Ledger :=
  AllocationAccounting.book (AllocationAccounting.ApplyAllocation_ (t 7) item allocator).1.
Definition c2 : SettlementAccounting.Confirmation :=
  confirmation_of authority
    (projection_of (Allocation.al_PaymentID item) "a2" [])
    "payment:provisional" "payment:final".

Lemma allocated_payment_not_settled_witness :
  validConfirmation c2 = true ∧
  ∃ e, ApplyConfirmation (t 30) c2 (fresh_poster booked) = (fresh_poster booked, Err e).
Proof.
  split; [vm_compute; reflexivity|].
  apply (allocated_payment_not_settled (t 7) (t 30) item allocator 100 30 (digest_of taken) (digest_of lender)
    c2 (fresh_poster booked)); [exact AllocationAccounting.Sample.item_valid|reflexivity|by split|by split
    |reflexivity|reflexivity|done|reflexivity|reflexivity].
Defined.
