(* ===== verification/SettlementRepository.v ===== *)
(** The durable evidence of settlements
    ([foundation-ledger/internal/settlementrepository]): what the repository checks before
    and after the calls to the database, and how it reads rows back. The database
    procedures and the JSON codec are parameters. *)
From S2P Require Import Prelude GoStd Rlp Gateway SettlementTypes Ledger SettlementAccounting SettlementBooks.

(** * Data *)

Inductive error := ErrInvalidRepository | ErrQuery (operation : string).

Record DeepCompensationRequest := mkDeep {
  dc_CompensationID : string;
  dc_CompensationEvidenceHash : string;
  dc_ConfirmationID : string;
  dc_Reorg : ReorgEvidence }.

Record CanonicalSuccessCommitRequest := mkSuccess {
  sr_Confirmation : SettlementTypes.Confirmation;
  sr_ConversionEvidenceHash : string;
  sr_ConvertedAt : Time.t;
  sr_TargetBookID : string }.

Record CanonicalSuccessCommitResult := mkSuccessResult {
  sx_ConfirmationID : string;
  sx_ConversionID : string;
  sx_GatewayEventID : string;
  sx_JournalIDs : list string }.

(** [rowQueryer]: [QueryRowContext] with one of the four query texts, and the columns of
    the row it yields; [None] is an error of the query, no row included. A column that
    holds a value of another kind than its destination makes [Scan] fail. *)
Record rowQueryer := mkQueryer {
  commit_canonical_external_settlement : list arg → option (list arg);
  record_deep_canonical_settlement_compensation : list arg → option (list arg);
  load_confirmation : list arg → option (list arg);
  load_deep_reorg : list arg → option (list arg) }.

(** [json.Marshal] of a projection and [json.Unmarshal] into a commit result. *)
Class RepositoryCodec := {
  marshal_projection : AccountingProjection → option string;
  unmarshal_result : string → option CanonicalSuccessCommitResult }.

Definition New (db : option rowQueryer) : result error rowQueryer :=
  match db with None => Err ErrInvalidRepository | Some db => Ok db end.

(** * Operations *)

Fixpoint unique_loop (values : list string) (seen : gset string) : bool :=
  match values with
  | [] => true
  | value :: rest =>
      if empty_s value then false
      else if bool_decide (value ∈ seen) then false
      else unique_loop rest ({[value]} ∪ seen)
  end.
Definition uniqueNonempty (values : list string) : bool := unique_loop values ∅.

Definition scan_string (row : option (list arg)) : option string :=
  match row with Some [ArgS s] => Some s | _ => None end.

(** The guard of [CommitCanonicalSuccess]. *)
Definition commit_incomplete (request : CanonicalSuccessCommitRequest) : bool :=
  let projection := value (sr_Confirmation request) in
     empty_s (ap_PaymentID projection) || empty_s (ap_AllocationID projection) ||
     empty_s (ap_InstructionDigest projection) || empty_s (ap_EventID projection) ||
     empty_s (ap_TransactionHash projection) || empty_s (ap_GatewayPayloadHash projection) ||
     empty_s (ap_FinalityEvidenceHash projection) || empty_s (sr_ConversionEvidenceHash request)
     || Time.IsZero (sr_ConvertedAt request) || empty_s (sr_TargetBookID request).

(** The checks on the decoded result. *)
Definition commit_result_ok (projection : AccountingProjection) (r : CanonicalSuccessCommitResult) : bool :=
  negb (empty_s (sx_ConfirmationID r) || empty_s (sx_ConversionID r) ||
        (sx_GatewayEventID r <>s ap_EventID projection) ||
        (length (sx_JournalIDs r) <? 7)%nat || (8 <? length (sx_JournalIDs r))%nat ||
        negb (uniqueNonempty (sx_JournalIDs r))).

Definition CommitCanonicalSuccess `{RepositoryCodec} (repository : rowQueryer)
    (request : CanonicalSuccessCommitRequest) : result error CanonicalSuccessCommitResult :=
  let projection := value (sr_Confirmation request) in
  if commit_incomplete request then Err ErrInvalidRepository
  else match marshal_projection projection with
  | None => Err ErrInvalidRepository
  | Some encodedProjection =>
      match scan_string (commit_canonical_external_settlement repository
              [ArgS encodedProjection; ArgS (sr_ConversionEvidenceHash request);
               ArgT (Time.UTC (sr_ConvertedAt request)); ArgS (sr_TargetBookID request)]) with
      | None => Err (ErrQuery "commit canonical external settlement")
      | Some encodedResult =>
          match unmarshal_result encodedResult with
          | None => Err ErrInvalidRepository
          | Some r => if commit_result_ok projection r then Ok r else Err ErrInvalidRepository
          end
      end
  end.

(** The guard of [RecordDeepCompensation]. *)
Definition compensation_incomplete (request : DeepCompensationRequest) : bool :=
  let reorg := dc_Reorg request in
     empty_s (dc_CompensationID request) || empty_s (dc_CompensationEvidenceHash request) ||
     empty_s (dc_ConfirmationID request) || empty_s (rg_ReorgID reorg) ||
     empty_s (rg_CanonicalizationID reorg) || empty_s (rg_PaymentID reorg) ||
     empty_s (rg_AllocationID reorg) || empty_s (rg_InstructionDigest reorg) ||
     (rg_ChainID reorg =? 0) || empty_s (rg_Gateway reorg) ||
     empty_s (rg_GatewayTransactionHash reorg) || empty_s (rg_GatewayEventID reorg) ||
     empty_s (rg_ReceiptsRoot reorg) || empty_s (rg_InclusionProofHash reorg) ||
     empty_s (rg_FinalityPolicyHash reorg) || empty_s (rg_HeaderAuthorityHash reorg) ||
     empty_s (rg_ReceiptHeaderSignatureHash reorg) ||
     empty_s (rg_ConfirmationHeadHeaderSignatureHash reorg) ||
     empty_s (rg_ReplacementHeaderSignatureHash reorg) ||
     empty_s (rg_DetectedHeadHeaderSignatureHash reorg) || empty_s (rg_OrphanedBlockHash reorg) ||
     (rg_OrphanedBlockNumber reorg =? 0) || empty_s (rg_ReplacementBlockHash reorg) ||
     (rg_ReplacementBlockNumber reorg =? 0) || (rg_ConfirmationDepth reorg =? 0) ||
     (rg_DetectedHeadBlock reorg <? rg_OrphanedBlockNumber reorg) ||
     empty_s (rg_DetectedHeadHash reorg) || empty_s (rg_OrphanedEventEvidenceHash reorg) ||
     empty_s (rg_OrphanedRawPayloadHash reorg) || negb (rg_Deep reorg) || empty_s (rg_Owner reorg)
     || empty_s (rg_EvidenceHash reorg) || Time.IsZero (rg_SubmissionSubmittedAt reorg) ||
     Time.IsZero (rg_OccurredAt reorg) ||
     Time.After (rg_SubmissionSubmittedAt reorg) (rg_OccurredAt reorg) ||
     negb (Time.After (rg_ResolutionDeadline reorg) (rg_OccurredAt reorg)).

Definition compensation_args (request : DeepCompensationRequest) : list arg :=
  let reorg := dc_Reorg request in
  [ArgS (rg_ReorgID reorg); ArgS (dc_CompensationID request); ArgS (dc_ConfirmationID request);
   ArgS (rg_CanonicalizationID reorg); ArgS (rg_InstructionDigest reorg); ArgU (rg_ChainID reorg);
   ArgS (rg_Gateway reorg); ArgS (rg_GatewayTransactionHash reorg); ArgS (rg_GatewayEventID reorg);
   ArgS (Big.to_string (rg_TransactionIndex reorg)); ArgS (rg_ReceiptsRoot reorg);
   ArgS (rg_InclusionProofHash reorg); ArgS (rg_FinalityPolicyHash reorg);
   ArgS (rg_HeaderAuthorityHash reorg); ArgS (rg_ReceiptHeaderSignatureHash reorg);
   ArgS (rg_ConfirmationHeadHeaderSignatureHash reorg);
   ArgS (rg_ReplacementHeaderSignatureHash reorg); ArgS (rg_DetectedHeadHeaderSignatureHash reorg);
   ArgS (rg_OrphanedBlockHash reorg); ArgU (rg_OrphanedBlockNumber reorg);
   ArgS (rg_ReplacementBlockHash reorg); ArgU (rg_ReplacementBlockNumber reorg);
   ArgU (rg_ConfirmationDepth reorg); ArgU (rg_DetectedHeadBlock reorg);
   ArgS (rg_DetectedHeadHash reorg); ArgS (rg_OrphanedEventEvidenceHash reorg);
   ArgS (rg_OrphanedRawPayloadHash reorg); ArgS (rg_EvidenceHash reorg);
   ArgT (rg_SubmissionSubmittedAt reorg); ArgS (dc_CompensationEvidenceHash request);
   ArgS (rg_Owner reorg); ArgT (rg_OccurredAt reorg); ArgT (rg_ResolutionDeadline reorg)].

Definition RecordDeepCompensation (repository : rowQueryer) (request : DeepCompensationRequest)
    : result error string :=
  if compensation_incomplete request then Err ErrInvalidRepository
  else match scan_string (record_deep_canonical_settlement_compensation repository
                            (compensation_args request)) with
  | None => Err (ErrQuery "record canonical settlement deep compensation")
  | Some compensationID =>
      if compensationID <>s dc_CompensationID request then Err ErrInvalidRepository
      else Ok compensationID
  end.

(** [Scan] into a confirmation, column by column. *)
Definition scan_confirmation (row : list arg) : option Confirmation :=
  match row with
  | [ArgS CanonicalizationID; ArgS InstructionDigest; ArgS PaymentID; ArgS AllocationID; ArgS LoanID;
     ArgU ChainID; ArgS Gateway; ArgS LoanAccount; ArgS Finalizer; ArgS Attester; ArgS BorrowerID;
     ArgS LenderID; ArgS SourceAssetID; ArgS TargetAssetID; ArgS TargetToken; ArgS SourceUnits;
     ArgS TargetUnits; ArgS PrincipalUnits; ArgS RefundableExcessUnits; ArgS DebtBeforeUnits;
     ArgS DebtAfterUnits; ArgU StateNonceBefore; ArgU StateNonceAfter; ArgS PolicySetHash;
     ArgS ProviderIDHash; ArgS ProviderReferenceHash; ArgS ReconciliationCommitment;
     ArgS OriginalJournalSetHash; ArgS ConversionPolicyHash; ArgS FinalityPolicyHash;
     ArgS InstructionEvidenceHash; ArgS JournalRef; ArgU ProviderFinalizedAt; ArgU ReversalDeadline;
     ArgS OriginalProvisionalJournalID; ArgS OriginalFinalJournalID; ArgS ReconciliationID;
     ArgS ConversionEvidenceHash; ArgS GatewayTransactionHash; ArgS GatewayEventID;
     ArgS GatewayBlockHash; ArgU GatewayBlockNumber; ArgU GatewayLogIndex; ArgU TransactionIndex;
     ArgS ReceiptsRoot; ArgS InclusionProofHash; ArgU ConfirmationDepth; ArgU FinalityHeadBlock;
     ArgS FinalityHeadHash; ArgS HeaderAuthorityHash; ArgS ReceiptHeaderSignatureHash;
     ArgS HeadHeaderSignatureHash; ArgS FinalityEvidenceHash; ArgS EventEvidenceHash;
     ArgS CorrelationID; ArgS RawGatewayPayloadHash; ArgT ConfirmedAt] =>
      Some {| cf_CanonicalizationID := CanonicalizationID; cf_InstructionDigest := InstructionDigest;
          cf_PaymentID := PaymentID; cf_AllocationID := AllocationID; cf_LoanID := LoanID;
          cf_ChainID := ChainID; cf_Gateway := Gateway; cf_LoanAccount := LoanAccount;
          cf_Finalizer := Finalizer; cf_Attester := Attester; cf_BorrowerID := BorrowerID;
          cf_LenderID := LenderID; cf_SourceAssetID := SourceAssetID; cf_TargetAssetID := TargetAssetID;
          cf_TargetToken := TargetToken; cf_SourceUnits := SourceUnits; cf_TargetUnits := TargetUnits;
          cf_PrincipalUnits := PrincipalUnits; cf_RefundableExcessUnits := RefundableExcessUnits;
          cf_DebtBeforeUnits := DebtBeforeUnits; cf_DebtAfterUnits := DebtAfterUnits;
          cf_StateNonceBefore := StateNonceBefore; cf_StateNonceAfter := StateNonceAfter;
          cf_PolicySetHash := PolicySetHash; cf_ProviderIDHash := ProviderIDHash;
          cf_ProviderReferenceHash := ProviderReferenceHash;
          cf_ReconciliationCommitment := ReconciliationCommitment;
          cf_OriginalJournalSetHash := OriginalJournalSetHash;
          cf_ConversionPolicyHash := ConversionPolicyHash; cf_FinalityPolicyHash := FinalityPolicyHash;
          cf_InstructionEvidenceHash := InstructionEvidenceHash; cf_JournalRef := JournalRef;
          cf_ProviderFinalizedAt := ProviderFinalizedAt; cf_ReversalDeadline := ReversalDeadline;
          cf_OriginalProvisionalJournalID := OriginalProvisionalJournalID;
          cf_OriginalFinalJournalID := OriginalFinalJournalID; cf_ReconciliationID := ReconciliationID;
          cf_ConversionEvidenceHash := ConversionEvidenceHash;
          cf_GatewayTransactionHash := GatewayTransactionHash; cf_GatewayEventID := GatewayEventID;
          cf_GatewayBlockHash := GatewayBlockHash; cf_GatewayBlockNumber := GatewayBlockNumber;
          cf_GatewayLogIndex := GatewayLogIndex; cf_TransactionIndex := TransactionIndex;
          cf_ReceiptsRoot := ReceiptsRoot; cf_InclusionProofHash := InclusionProofHash;
          cf_ConfirmationDepth := ConfirmationDepth; cf_FinalityHeadBlock := FinalityHeadBlock;
          cf_FinalityHeadHash := FinalityHeadHash; cf_HeaderAuthorityHash := HeaderAuthorityHash;
          cf_ReceiptHeaderSignatureHash := ReceiptHeaderSignatureHash;
          cf_HeadHeaderSignatureHash := HeadHeaderSignatureHash;
          cf_FinalityEvidenceHash := FinalityEvidenceHash; cf_EventEvidenceHash := EventEvidenceHash;
          cf_CorrelationID := CorrelationID; cf_RawGatewayPayloadHash := RawGatewayPayloadHash;
          cf_ConfirmedAt := ConfirmedAt |}
  | _ => None
  end.

Definition LoadConfirmation (repository : rowQueryer) (canonicalizationID : string)
    : result error Confirmation :=
  if empty_s canonicalizationID then Err ErrInvalidRepository
  else match load_confirmation repository [ArgS canonicalizationID] ≫= scan_confirmation with
  | None => Err (ErrQuery "load canonical settlement confirmation")
  | Some confirmation => Ok confirmation
  end.

(** [Scan] into reorganization evidence that is deep by construction of the query. *)
Definition scan_reorg (row : list arg) : option ReorgEvidence :=
  match row with
  | [ArgS ReorgID; ArgS CanonicalizationID; ArgS PaymentID; ArgS AllocationID; ArgS InstructionDigest;
     ArgU ChainID; ArgS Gateway; ArgS GatewayTransactionHash; ArgS GatewayEventID;
     ArgU TransactionIndex; ArgS ReceiptsRoot; ArgS InclusionProofHash; ArgS FinalityPolicyHash;
     ArgS HeaderAuthorityHash; ArgS ReceiptHeaderSignatureHash;
     ArgS ConfirmationHeadHeaderSignatureHash; ArgS ReplacementHeaderSignatureHash;
     ArgS DetectedHeadHeaderSignatureHash; ArgS OrphanedBlockHash; ArgU OrphanedBlockNumber;
     ArgS ReplacementBlockHash; ArgU ReplacementBlockNumber; ArgU ConfirmationDepth;
     ArgU DetectedHeadBlock; ArgS DetectedHeadHash; ArgS OrphanedEventEvidenceHash;
     ArgS OrphanedRawPayloadHash; ArgS Owner; ArgS EvidenceHash; ArgT SubmissionSubmittedAt;
     ArgT OccurredAt; ArgT ResolutionDeadline] =>
      Some {| rg_ReorgID := ReorgID; rg_CanonicalizationID := CanonicalizationID; rg_PaymentID := PaymentID;
          rg_AllocationID := AllocationID; rg_InstructionDigest := InstructionDigest;
          rg_ChainID := ChainID; rg_Gateway := Gateway;
          rg_GatewayTransactionHash := GatewayTransactionHash; rg_GatewayEventID := GatewayEventID;
          rg_TransactionIndex := TransactionIndex; rg_ReceiptsRoot := ReceiptsRoot;
          rg_InclusionProofHash := InclusionProofHash; rg_FinalityPolicyHash := FinalityPolicyHash;
          rg_HeaderAuthorityHash := HeaderAuthorityHash;
          rg_ReceiptHeaderSignatureHash := ReceiptHeaderSignatureHash;
          rg_ConfirmationHeadHeaderSignatureHash := ConfirmationHeadHeaderSignatureHash;
          rg_ReplacementHeaderSignatureHash := ReplacementHeaderSignatureHash;
          rg_DetectedHeadHeaderSignatureHash := DetectedHeadHeaderSignatureHash;
          rg_OrphanedBlockHash := OrphanedBlockHash; rg_OrphanedBlockNumber := OrphanedBlockNumber;
          rg_ReplacementBlockHash := ReplacementBlockHash;
          rg_ReplacementBlockNumber := ReplacementBlockNumber; rg_ConfirmationDepth := ConfirmationDepth;
          rg_DetectedHeadBlock := DetectedHeadBlock; rg_DetectedHeadHash := DetectedHeadHash;
          rg_OrphanedEventEvidenceHash := OrphanedEventEvidenceHash;
          rg_OrphanedRawPayloadHash := OrphanedRawPayloadHash; rg_Deep := true; rg_Owner := Owner;
          rg_EvidenceHash := EvidenceHash; rg_SubmissionSubmittedAt := SubmissionSubmittedAt;
          rg_OccurredAt := OccurredAt; rg_ResolutionDeadline := ResolutionDeadline |}
  | _ => None
  end.

Definition LoadDeepReorg (repository : rowQueryer) (canonicalizationID : string)
    : result error ReorgEvidence :=
  if empty_s canonicalizationID then Err ErrInvalidRepository
  else match load_deep_reorg repository [ArgS canonicalizationID] ≫= scan_reorg with
  | None => Err (ErrQuery "load canonical settlement deep reorg")
  | Some reorg => Ok reorg
  end.

(** * Rows *)

(** The columns of a stored confirmation and of stored evidence, in the order of the
    [SELECT] lists. *)
Definition confirmation_row (r : Confirmation) : list arg :=
  [ArgS (cf_CanonicalizationID r); ArgS (cf_InstructionDigest r); ArgS (cf_PaymentID r);
   ArgS (cf_AllocationID r); ArgS (cf_LoanID r); ArgU (cf_ChainID r); ArgS (cf_Gateway r);
   ArgS (cf_LoanAccount r); ArgS (cf_Finalizer r); ArgS (cf_Attester r); ArgS (cf_BorrowerID r);
   ArgS (cf_LenderID r); ArgS (cf_SourceAssetID r); ArgS (cf_TargetAssetID r);
   ArgS (cf_TargetToken r); ArgS (cf_SourceUnits r); ArgS (cf_TargetUnits r);
   ArgS (cf_PrincipalUnits r); ArgS (cf_RefundableExcessUnits r); ArgS (cf_DebtBeforeUnits r);
   ArgS (cf_DebtAfterUnits r); ArgU (cf_StateNonceBefore r); ArgU (cf_StateNonceAfter r);
   ArgS (cf_PolicySetHash r); ArgS (cf_ProviderIDHash r); ArgS (cf_ProviderReferenceHash r);
   ArgS (cf_ReconciliationCommitment r); ArgS (cf_OriginalJournalSetHash r);
   ArgS (cf_ConversionPolicyHash r); ArgS (cf_FinalityPolicyHash r);
   ArgS (cf_InstructionEvidenceHash r); ArgS (cf_JournalRef r); ArgU (cf_ProviderFinalizedAt r);
   ArgU (cf_ReversalDeadline r); ArgS (cf_OriginalProvisionalJournalID r);
   ArgS (cf_OriginalFinalJournalID r); ArgS (cf_ReconciliationID r);
   ArgS (cf_ConversionEvidenceHash r); ArgS (cf_GatewayTransactionHash r);
   ArgS (cf_GatewayEventID r); ArgS (cf_GatewayBlockHash r); ArgU (cf_GatewayBlockNumber r);
   ArgU (cf_GatewayLogIndex r); ArgU (cf_TransactionIndex r); ArgS (cf_ReceiptsRoot r);
   ArgS (cf_InclusionProofHash r); ArgU (cf_ConfirmationDepth r); ArgU (cf_FinalityHeadBlock r);
   ArgS (cf_FinalityHeadHash r); ArgS (cf_HeaderAuthorityHash r);
   ArgS (cf_ReceiptHeaderSignatureHash r); ArgS (cf_HeadHeaderSignatureHash r);
   ArgS (cf_FinalityEvidenceHash r); ArgS (cf_EventEvidenceHash r); ArgS (cf_CorrelationID r);
   ArgS (cf_RawGatewayPayloadHash r); ArgT (cf_ConfirmedAt r)].

Definition reorg_row (r : ReorgEvidence) : list arg :=
  [ArgS (rg_ReorgID r); ArgS (rg_CanonicalizationID r); ArgS (rg_PaymentID r);
   ArgS (rg_AllocationID r); ArgS (rg_InstructionDigest r); ArgU (rg_ChainID r);
   ArgS (rg_Gateway r); ArgS (rg_GatewayTransactionHash r); ArgS (rg_GatewayEventID r);
   ArgU (rg_TransactionIndex r); ArgS (rg_ReceiptsRoot r); ArgS (rg_InclusionProofHash r);
   ArgS (rg_FinalityPolicyHash r); ArgS (rg_HeaderAuthorityHash r);
   ArgS (rg_ReceiptHeaderSignatureHash r); ArgS (rg_ConfirmationHeadHeaderSignatureHash r);
   ArgS (rg_ReplacementHeaderSignatureHash r); ArgS (rg_DetectedHeadHeaderSignatureHash r);
   ArgS (rg_OrphanedBlockHash r); ArgU (rg_OrphanedBlockNumber r); ArgS (rg_ReplacementBlockHash r);
   ArgU (rg_ReplacementBlockNumber r); ArgU (rg_ConfirmationDepth r); ArgU (rg_DetectedHeadBlock r);
   ArgS (rg_DetectedHeadHash r); ArgS (rg_OrphanedEventEvidenceHash r);
   ArgS (rg_OrphanedRawPayloadHash r); ArgS (rg_Owner r); ArgS (rg_EvidenceHash r);
   ArgT (rg_SubmissionSubmittedAt r); ArgT (rg_OccurredAt r); ArgT (rg_ResolutionDeadline r)].

(** Every row of the right shape is read back exactly, and only such rows are read. *)
Lemma scan_confirmation_spec row c : scan_confirmation row = Some c ↔ row = confirmation_row c.
Proof.
  split; [|intros ->; by destruct c].
  unfold scan_confirmation. intros Hs.
  repeat match type of Hs with
  | match ?l with _ => _ end = _ => destruct l; try discriminate Hs
  end. apply (inj Some) in Hs. by rewrite <- Hs.
Qed.

Lemma scan_reorg_spec row r :
  scan_reorg row = Some r ↔ row = reorg_row r ∧ rg_Deep r = true.
Proof.
  split; [|intros [-> Hd]; destruct r; simpl in *; by rewrite Hd].
  unfold scan_reorg. intros Hs.
  repeat match type of Hs with
  | match ?l with _ => _ end = _ => destruct l; try discriminate Hs
  end. apply (inj Some) in Hs. by rewrite <- Hs.
Qed.

Lemma unique_loop_spec values seen :
  unique_loop values seen = true ↔
  Forall (λ v, v ≠ "" ∧ v ∉ seen) values ∧ NoDup values.
Proof.
  revert seen. induction values as [|v values IH]; intros seen; cbn [unique_loop].
  { split; [intros _; split; constructor|done]. }
  destruct (String.eqb_spec v "") as [->|Hv]; [rewrite Forall_cons; naive_solver|].
  case_bool_decide as Hin; [rewrite Forall_cons; naive_solver|].
  rewrite IH, Forall_cons, NoDup_cons, !Forall_forall. split.
  - intros [HF HN]. split_and!; try done.
    + intros x Hx. destruct (HF x Hx). set_solver.
    + intros Hv'. destruct (HF v Hv'). set_solver.
  - intros [[_ HF] [Hnv HN]]. split; [|done]. intros x Hx. destruct (HF x Hx). split; [done|].
    rewrite elem_of_union, elem_of_singleton. by intros [->|?].
Qed.

Lemma uniqueNonempty_spec values :
  uniqueNonempty values = true ↔ Forall (λ v, v ≠ "") values ∧ NoDup values.
Proof.
  unfold uniqueNonempty. rewrite unique_loop_spec, !Forall_forall.
  split; (intros [HF HN]; split; [|done]); intros v Hv.
  - apply (HF v Hv).
  - split; [by apply HF|apply not_elem_of_empty].
Qed.

(** What a successful commit guarantees: the reply names the confirmed event, and its
    journals are seven or eight different identifiers, as many as a settlement posts. *)
Theorem commit_result_sound `{RepositoryCodec} (repository : rowQueryer)
    (request : CanonicalSuccessCommitRequest) (r : CanonicalSuccessCommitResult) :
  CommitCanonicalSuccess repository request = Ok r →
  sx_ConfirmationID r ≠ "" ∧ sx_ConversionID r ≠ "" ∧
  sx_GatewayEventID r = ap_EventID (value (sr_Confirmation request)) ∧
  NoDup (sx_JournalIDs r) ∧ Forall (λ v, v ≠ "") (sx_JournalIDs r) ∧
  (7 <= length (sx_JournalIDs r) <= 8)%nat.
Proof.
  unfold CommitCanonicalSuccess. cbv zeta. pass_if Hg.
  destruct (marshal_projection _); [|done]. destruct (scan_string _); [|done].
  destruct (unmarshal_result _) as [x|]; [|done].
  destruct (commit_result_ok _ x) eqn:Hok; [|done]. intros [= ->]. unfold commit_result_ok in Hok.
  apply negb_true_iff in Hok. rewrite !orb_false_iff in Hok.
  destruct Hok as [[[[[E1 E2] E3] E4] E5] [HF HN]%negb_false_iff%uniqueNonempty_spec]. bool_facts.
  apply Nat.ltb_ge in E4, E5. split_and!; try done; lia.
Qed.

(** Compensation evidence that the ledger's adapter accepted for a confirmation also
    passes the repository's own guard. *)
Theorem verified_reorg_recorded (authority : DurableConfirmationAuthority)
    (input : SettlementTypes.Confirmation) (metadata : ReorgMetadata)
    (evidence : SettlementTypes.ReorgEvidence) (c : Confirmation) (reorg : ReorgEvidence)
    (request : DeepCompensationRequest) :
  AdaptConfirmation authority input = Ok c → AdaptVerifiedReorg metadata input evidence = Ok reorg →
  dc_Reorg request = reorg → dc_CompensationID request ≠ "" →
  dc_CompensationEvidenceHash request ≠ "" → dc_ConfirmationID request ≠ "" →
  compensation_incomplete request = false.
Proof.
  unfold AdaptConfirmation, AdaptVerifiedReorg, VerifyReorg. cbv zeta. open_reorg.
  intros Hrq Hn1 Hn2 Hn3. unfold compensation_incomplete. rewrite Hrq.
  repeat match goal with Hx : canonicalHash _ = true |- _ => apply canonicalHash_nonempty in Hx end.
  cbn -[nonzeroCanonicalHash Z.ltb Z.eqb String.eqb].
  match goal with Hx : nonzeroCanonicalHash ?v = true |- _ =>
    assert (v ≠ "") by (intros E; rewrite E in Hx; discriminate Hx) end.
  solve_fields.
Qed.
