(* ===== verification/Projector.v ===== *)
(** The cross-chain projector ([chain-indexer/crosschain/projector.go]): authenticated
    source, execution, acknowledgement and reorganization facts of messages between
    several chains, their durable form and their restoration.

    Byte slices and 32-byte arrays are strings; a nil message pointer is [None].
    [proto.Equal] compares the declared fields, which is equality of the records; deep
    copies are identities. *)
From S2P Require Import Prelude GoStd CrossChainTypes Message.

(** * Protobuf messages *)

Record SourceEventProof := mkProof {
  sp_MessageId : string;
  sp_SourceChainId : string;
  sp_SourceContract : string;
  sp_SourceBlockHash : string;
  sp_SourceBlockNumber : Z;
  sp_SourceBlockTimestamp : option Timestamp;
  sp_TransactionHash : string;
  sp_TransactionIndex : Z;
  sp_ReceiptRoot : string;
  sp_ReceiptProofHash : string;
  sp_LogIndex : Z;
  sp_EventHash : string;
  sp_FinalityHeadHash : string;
  sp_FinalityHeadNumber : Z;
  sp_RequiredDepth : Z;
  sp_HeaderAuthorityHash : string;
  sp_ObserverSignature : string;
  sp_FinalityPolicyHash : string;
  sp_ObserverSignedHeaderCommitment : string }.
#[export] Instance SourceEventProof_eq_dec : EqDecision SourceEventProof.
Proof. solve_decision. Defined.

Record FinalityCertificate := mkCertificate {
  fc_MessageId : string;
  fc_SourceProofHash : string;
  fc_SignerSetHash : string;
  fc_SignerSetVersion : Z;
  fc_Threshold : Z;
  fc_Signatures : list string;
  fc_ValidFrom : option Timestamp;
  fc_ValidUntil : option Timestamp;
  fc_CertificateHash : string }.
#[export] Instance FinalityCertificate_eq_dec : EqDecision FinalityCertificate.
Proof. solve_decision. Defined.

Record ExecutionResult := mkExecution {
  er_MessageId : string;
  er_LaneId : string;
  er_SourceNonce : Z;
  er_ActionType : Z;
  er_Target : string;
  er_ResultHash : string;
  er_DestinationChainId : string;
  er_TransactionHash : string;
  er_LogIndex : Z;
  er_ExecutedAt : option Timestamp }.
#[export] Instance ExecutionResult_eq_dec : EqDecision ExecutionResult.
Proof. solve_decision. Defined.

Record Acknowledgement := mkAcknowledgement {
  ak_MessageId : string;
  ak_ExecutionResultHash : string;
  ak_DestinationExecutionProof : option SourceEventProof;
  ak_FinalityCertificate : option FinalityCertificate;
  ak_AcknowledgedAt : option Timestamp }.
#[export] Instance Acknowledgement_eq_dec : EqDecision Acknowledgement.
Proof. solve_decision. Defined.

Record ReorganizationEvidence := mkReorganization {
  ro_ChainId : string;
  ro_OrphanedBlockHash : string;
  ro_ReplacementBlockHash : string;
  ro_DetectedHeadHash : string;
  ro_BlockNumber : Z;
  ro_DetectedHeadNumber : Z;
  ro_AffectedMessageIds : list string;
  ro_EvidenceHash : string;
  ro_DetectedAt : option Timestamp;
  ro_OrphanedSourceProof : option SourceEventProof;
  ro_OrphanedEventEvidenceHash : string;
  ro_ReplacementBlockNumber : Z;
  ro_ReplacementHeaderAuthorityHash : string;
  ro_ReplacementObserverSignedHeaderCommitment : string;
  ro_ReplacementObserverSignature : string;
  ro_DetectedHeadHeaderAuthorityHash : string;
  ro_DetectedHeadObserverSignedHeaderCommitment : string;
  ro_DetectedHeadObserverSignature : string;
  ro_FinalityPolicyHash : string;
  ro_OrphanedFinalityCertificate : option FinalityCertificate;
  ro_AffectedOrphanedSourceProofs : list (option SourceEventProof);
  ro_AffectedOrphanedEventEvidenceHashes : list string;
  ro_AffectedOrphanedFinalityCertificates : list (option FinalityCertificate) }.
#[export] Instance ReorganizationEvidence_eq_dec : EqDecision ReorganizationEvidence.
Proof. solve_decision. Defined.

(** [Identifier] messages are their value. *)
Record Incident := mkIncident {
  ic_IncidentId : string;
  ic_RouteId : string;
  ic_AffectedMessageIds : list string;
  ic_ReasonCode : string;
  ic_Owner : string;
  ic_EvidenceHash : string;
  ic_OpenedAt : option Timestamp;
  ic_Status : string }.
#[export] Instance Incident_eq_dec : EqDecision Incident.
Proof. solve_decision. Defined.

(** * Projector data *)

Inductive error :=
  | ErrUnknownChain | ErrFinalityPolicy | ErrProjectionConflict | ErrInsufficientFinality
  | ErrUnauthenticated | ErrConfiguration (text : string).

Definition observerCommitmentDomain : string := "UNIFIED_OBSERVER_SIGNED_HEADER_V1".
Definition reorganizationEvidenceDomain : string := "UNIFIED_XCHAIN_REORGANIZATION_EVIDENCE_V1".
Definition reorganizationHeaderDomain : string := "UNIFIED_XCHAIN_REORGANIZATION_HEADER_V1".
Definition maxReorganizationMessages : nat := 256.

Record Verification := mkVerification { CanonicalEvidenceHash : string; Final : bool }.

(** The interface of the authenticated verifier; [None] is an error. *)
Record EvidenceVerifier := mkVerifier {
  VerifySource : Envelope → SourceEventProof → option FinalityCertificate → option Verification;
  VerifyExecution : ExecutionResult → SourceEventProof → option Verification;
  VerifyAcknowledgement : Acknowledgement → option Verification;
  VerifyReorganization : ReorganizationEvidence → option Verification }.

Record ChainConfig := mkChainConfig {
  cc_ChainID : string;
  cc_Coordinator : string;
  cc_ConfigurationHash : string;
  cc_FinalityPolicyHash : string;
  cc_ObserverAuthority : string;
  cc_RequiredDepth : Z }.
#[export] Instance ChainConfig_eq_dec : EqDecision ChainConfig.
Proof. solve_decision. Defined.

Record MessageProjection := mkProjection {
  m_MessageID : string;
  m_SourceChainID : string;
  m_DestinationChainID : string;
  m_Envelope : option Envelope;
  m_SourceProof : option SourceEventProof;
  m_SourceFinalityCertificate : option FinalityCertificate;
  m_Execution : option ExecutionResult;
  m_ExecutionProof : option SourceEventProof;
  m_Acknowledgement : option Acknowledgement;
  m_SourceFinal : bool;
  m_SourceEvidenceHash : string;
  m_ExecutionEvidenceHash : string;
  m_Disputed : bool;
  m_Reorganization : option ReorganizationEvidence;
  m_Incident : option Incident }.
#[export] Instance MessageProjection_eq_dec : EqDecision MessageProjection.
Proof. solve_decision. Defined.

Record Projector := mkProjector {
  chains : gmap string ChainConfig;
  messages : gmap string MessageProjection;
  eventIDs : gmap string string;
  routes : gmap string string;
  verifier : EvidenceVerifier }.

(** The zero value of a 32-byte array, and its comparison. *)
Definition zero32 : string := zeros 32.
Abbreviation is_zero32 s := (String.eqb s zero32).

(** [fixedBytes32] yields the zero array for a slice of another length. *)
Definition fixedBytes32 (source : string) : string :=
  if exactLength source 32 then source else zero32.

(** Replacement of the parts that change. *)
Definition set_messages (m : gmap string MessageProjection) (p : Projector) : Projector :=
  mkProjector (chains p) m (eventIDs p) (routes p) (verifier p).
Definition set_facts (m : gmap string MessageProjection) (ev : gmap string string) (p : Projector)
    : Projector :=
  mkProjector (chains p) m ev (routes p) (verifier p).

(** * Configuration *)

Definition config_ok (config : ChainConfig) : bool :=
  negb (empty_s (cc_ChainID config) || negb (exactLength (cc_Coordinator config) 20) ||
        is_zero32 (cc_ConfigurationHash config) || is_zero32 (cc_FinalityPolicyHash config) ||
        is_zero32 (cc_ObserverAuthority config) || (cc_RequiredDepth config =? 0)).

Fixpoint add_chains (configs : list ChainConfig) (chains : gmap string ChainConfig)
    : result error (gmap string ChainConfig) :=
  match configs with
  | [] => Ok chains
  | config :: rest =>
      if negb (config_ok config) then Err (ErrConfiguration "invalid chain configuration")
      else if has_key chains (cc_ChainID config) then
        Err (ErrConfiguration ("duplicate chain " +:+ cc_ChainID config))
      else add_chains rest (<[cc_ChainID config := config]> chains)
  end.

Definition NewProjector (verifier : option EvidenceVerifier) (configs : list ChainConfig)
    : result error Projector :=
  match verifier with
  | None => Err (ErrConfiguration "authenticated evidence verifier is required")
  | Some verifier =>
      if (length configs <? 2)%nat
      then Err (ErrConfiguration "multi-chain projector requires at least two chains")
      else
        let? chains := add_chains configs ∅ in
        Ok (mkProjector chains ∅ ∅ ∅ verifier)
  end.

Definition BindRoute (routeID policyHash : string) (p : Projector) : Projector * result error () :=
  if empty_s routeID || is_zero32 policyHash then (p, Err ErrProjectionConflict)
  else match routes p !! policyHash with
  | Some existing =>
      if existing <>s routeID then (p, Err ErrProjectionConflict)
      else (mkProjector (chains p) (messages p) (eventIDs p)
              (<[policyHash := routeID]> (routes p)) (verifier p), Ok ())
  | None => (mkProjector (chains p) (messages p) (eventIDs p)
               (<[policyHash := routeID]> (routes p)) (verifier p), Ok ())
  end.

(** * Commitments *)

Definition abiUint64 (value : Z) : string := uintWord value.

(** Zero padding to a multiple of 32 bytes. *)
Definition pad32 (encoded : string) : string :=
  let remainder := (String.length encoded mod 32)%nat in
  if (remainder =? 0)%nat then encoded else encoded +:+ zeros (32 - remainder).

Definition timestamp_bad (ts : option Timestamp) : bool :=
  match ts with
  | None => true
  | Some ts => (seconds ts <? 0) || negb (nanos ts =? 0)
  end.

Definition observer_preimage (proof : SourceEventProof) : string :=
  pad32 (abiUint64 (9 * 32) +:+ sp_SourceBlockHash proof +:+ abiUint64 (sp_SourceBlockNumber proof) +:+
    abiUint64 (GetSeconds (sp_SourceBlockTimestamp proof)) +:+ sp_FinalityHeadHash proof +:+
    abiUint64 (sp_FinalityHeadNumber proof) +:+ abiUint64 (sp_RequiredDepth proof) +:+
    sp_HeaderAuthorityHash proof +:+ sp_FinalityPolicyHash proof +:+
    abiUint64 (Z.of_nat (String.length observerCommitmentDomain)) +:+ observerCommitmentDomain).

Definition source_proof_preimage (proof : SourceEventProof) : string :=
  let signature := sp_ObserverSignature proof in
  pad32 (abiUint64 32 +:+ sp_SourceBlockHash proof +:+ abiUint64 (sp_SourceBlockNumber proof) +:+
    abiUint64 (GetSeconds (sp_SourceBlockTimestamp proof)) +:+ sp_TransactionHash proof +:+
    abiUint64 (sp_TransactionIndex proof) +:+ sp_ReceiptRoot proof +:+ sp_ReceiptProofHash proof +:+
    abiUint64 (sp_LogIndex proof) +:+ sp_EventHash proof +:+ sp_FinalityHeadHash proof +:+
    abiUint64 (sp_FinalityHeadNumber proof) +:+ abiUint64 (sp_RequiredDepth proof) +:+
    sp_HeaderAuthorityHash proof +:+ sp_ObserverSignedHeaderCommitment proof +:+
    abiUint64 (16 * 32) +:+ sp_FinalityPolicyHash proof +:+
    abiUint64 (Z.of_nat (String.length signature)) +:+ signature).

Definition hasRequiredDepth (sourceBlock finalityHead requiredDepth : Z) : bool :=
  negb (requiredDepth =? 0) && (sourceBlock <=? 2 ^ 64 - 1 - requiredDepth) &&
  (u64 (sourceBlock + requiredDepth) <=? finalityHead).

Section Commitments.
Context `{Keccak}.

Definition ComputeObserverHeaderCommitment (proof : SourceEventProof) : result error string :=
  if negb (exactLength (sp_SourceBlockHash proof) 32) ||
     negb (exactLength (sp_FinalityHeadHash proof) 32) ||
     negb (exactLength (sp_HeaderAuthorityHash proof) 32) ||
     negb (exactLength (sp_FinalityPolicyHash proof) 32) ||
     timestamp_bad (sp_SourceBlockTimestamp proof)
  then Err ErrUnauthenticated
  else Ok (keccak (observer_preimage proof)).

Definition ComputeSourceProofHash (proof : SourceEventProof) : result error string :=
  if negb (exactLength (sp_SourceBlockHash proof) 32) ||
     negb (exactLength (sp_TransactionHash proof) 32) || negb (exactLength (sp_ReceiptRoot proof) 32) ||
     negb (exactLength (sp_ReceiptProofHash proof) 32) || negb (exactLength (sp_EventHash proof) 32) ||
     negb (exactLength (sp_FinalityHeadHash proof) 32) ||
     negb (exactLength (sp_HeaderAuthorityHash proof) 32) ||
     negb (exactLength (sp_ObserverSignedHeaderCommitment proof) 32) ||
     empty_s (sp_ObserverSignature proof) || negb (exactLength (sp_FinalityPolicyHash proof) 32) ||
     (2 ^ 32 - 1 <? sp_TransactionIndex proof) || (2 ^ 32 - 1 <? sp_LogIndex proof) ||
     timestamp_bad (sp_SourceBlockTimestamp proof)
  then Err ErrUnauthenticated
  else Ok (keccak (source_proof_preimage proof)).

(** The comparison of a 32-byte result with a field, an error counting as different. *)
Definition matches (computed : result error string) (field : string) : bool :=
  match computed with Ok hash => hash =s field | Err _ => false end.

(** The part of the certificate checks that two functions share. *)
Definition certificate_shape (certificate : FinalityCertificate) : bool :=
  negb (negb (exactLength (fc_SignerSetHash certificate) 32) ||
        (fc_SignerSetVersion certificate =? 0) || (fc_Threshold certificate <? 2) ||
        (3 <? fc_Threshold certificate) ||
        (Z.of_nat (length (fc_Signatures certificate)) <? fc_Threshold certificate) ||
        (3 <? Z.of_nat (length (fc_Signatures certificate))) ||
        negb (exactLength (fc_CertificateHash certificate) 32) ||
        match fc_ValidFrom certificate, fc_ValidUntil certificate with
        | Some from, Some until => negb (Time.After (AsTime until) (AsTime from))
        | _, _ => true
        end).

Definition validSourceFinalityCertificate (proof : SourceEventProof)
    (certificate : option FinalityCertificate) : bool :=
  match certificate with
  | None => false
  | Some certificate =>
      (fc_MessageId certificate =s sp_MessageId proof) && certificate_shape certificate &&
      matches (ComputeSourceProofHash proof) (fc_SourceProofHash certificate)
  end.
End Commitments.

(** * Facts *)

(** [fmt.Sprintf("%s:%x:%d", ...)]. *)
Definition event_key (chainID transactionHash : string) (logIndex : Z) : string :=
  chainID +:+ ":" +:+ hex transactionHash +:+ ":" +:+ Big.to_string logIndex.
Definition proof_key (proof : SourceEventProof) : string :=
  event_key (sp_SourceChainId proof) (sp_TransactionHash proof) (sp_LogIndex proof).

(** The lengths both projections demand of a proof. *)
Definition proof_lengths (config : ChainConfig) (proof : SourceEventProof) : bool :=
  negb (negb (sp_RequiredDepth proof =? cc_RequiredDepth config) ||
        negb (exactLength (sp_SourceContract proof) 20) ||
        negb (exactLength (sp_SourceBlockHash proof) 32) ||
        negb (exactLength (sp_TransactionHash proof) 32) || negb (exactLength (sp_ReceiptRoot proof) 32) ||
        negb (exactLength (sp_ReceiptProofHash proof) 32) || negb (exactLength (sp_EventHash proof) 32) ||
        negb (exactLength (sp_FinalityHeadHash proof) 32) ||
        negb (exactLength (sp_ObserverSignedHeaderCommitment proof) 32) ||
        empty_s (sp_ObserverSignature proof)).

Section Facts.
Context `{Keccak}.

Definition source_policy_ok (config destinationConfig : ChainConfig) (envelope : Envelope)
    (proof : SourceEventProof) : bool :=
  (cc_Coordinator config =s SourceCoordinator envelope) &&
  (cc_Coordinator config =s sp_SourceContract proof) &&
  (cc_Coordinator destinationConfig =s DestinationCoordinator envelope) &&
  (cc_FinalityPolicyHash config =s SourceFinalityPolicyHash envelope) &&
  (cc_FinalityPolicyHash destinationConfig =s DestinationFinalityPolicyHash envelope) &&
  (cc_FinalityPolicyHash config =s sp_FinalityPolicyHash proof) &&
  (cc_ObserverAuthority config =s sp_HeaderAuthorityHash proof).

(** The checks of [ProjectSource] before it takes the lock. *)
Definition source_check (p : Projector) (envelope : Envelope) (proof : SourceEventProof)
    (certificate : option FinalityCertificate) : result error Verification :=
  if negb (is_ok (ValidateEnvelope envelope)) || (MessageId envelope <>s sp_MessageId proof) ||
     (SourceChainId envelope <>s sp_SourceChainId proof)
  then Err ErrProjectionConflict
  else match chains p !! sp_SourceChainId proof with
  | None => Err ErrUnknownChain
  | Some config =>
  match chains p !! DestinationChainId envelope with
  | None => Err ErrUnknownChain
  | Some destinationConfig =>
  if negb (source_policy_ok config destinationConfig envelope proof) then Err ErrFinalityPolicy
  else if negb (proof_lengths config proof) then Err ErrInsufficientFinality
  else if negb (matches (ComputeObserverHeaderCommitment proof)
                  (sp_ObserverSignedHeaderCommitment proof))
  then Err ErrUnauthenticated
  else match VerifySource (verifier p) envelope proof certificate with
  | None => Err ErrUnauthenticated
  | Some verification =>
      if is_zero32 (CanonicalEvidenceHash verification) then Err ErrUnauthenticated
      else if negb (Final verification) && bool_decide (is_Some certificate)
      then Err ErrUnauthenticated
      else if Final verification && negb (validSourceFinalityCertificate proof certificate)
      then Err ErrUnauthenticated
      else if Final verification &&
              negb (hasRequiredDepth (sp_SourceBlockNumber proof) (sp_FinalityHeadNumber proof)
                      (cc_RequiredDepth config))
      then Err ErrInsufficientFinality
      else Ok verification
  end
  end
  end.

Definition new_projection (envelope : Envelope) (proof : SourceEventProof)
    (certificate : option FinalityCertificate) (verification : Verification) : MessageProjection :=
  mkProjection (MessageId envelope) (SourceChainId envelope) (DestinationChainId envelope)
    (Some envelope) (Some proof) (if Final verification then certificate else None)
    None None None (Final verification) (CanonicalEvidenceHash verification) zero32 false None None.

(** [existing] with its source final. *)
Definition finalized (certificate : option FinalityCertificate) (m : MessageProjection)
    : MessageProjection :=
  mkProjection (m_MessageID m) (m_SourceChainID m) (m_DestinationChainID m) (m_Envelope m)
    (m_SourceProof m) certificate (m_Execution m) (m_ExecutionProof m) (m_Acknowledgement m) true
    (m_SourceEvidenceHash m) (m_ExecutionEvidenceHash m) (m_Disputed m) (m_Reorganization m)
    (m_Incident m).

Definition source_conflict (existing : MessageProjection) (envelope : Envelope)
    (proof : SourceEventProof) (certificate : option FinalityCertificate)
    (verification : Verification) : bool :=
  let certificateConflict :=
    negb (bool_decide (m_SourceFinalityCertificate existing = certificate)) &&
    (m_SourceFinal existing || bool_decide (is_Some (m_SourceFinalityCertificate existing))) in
  negb (bool_decide (m_Envelope existing = Some envelope)) ||
  negb (bool_decide (m_SourceProof existing = Some proof)) || certificateConflict ||
  (m_SourceChainID existing <>s SourceChainId envelope) ||
  (m_DestinationChainID existing <>s DestinationChainId envelope) ||
  (m_SourceEvidenceHash existing <>s CanonicalEvidenceHash verification).

(** The part under the lock. *)
Definition source_commit (envelope : Envelope) (proof : SourceEventProof)
    (certificate : option FinalityCertificate) (verification : Verification) (p : Projector)
    : Projector * result error MessageProjection :=
  let messageID := MessageId envelope in
  let eventKey := proof_key proof in
  if match eventIDs p !! eventKey with Some id => id <>s messageID | None => false end
  then (p, Err ErrProjectionConflict)
  else match messages p !! messageID with
  | Some existing =>
      if source_conflict existing envelope proof certificate verification
      then (p, Err ErrProjectionConflict)
      else if Final verification && negb (m_SourceFinal existing) then
        let existing := finalized certificate existing in
        (set_messages (<[messageID := existing]> (messages p)) p, Ok existing)
      else (p, Ok existing)
  | None =>
      let projection := new_projection envelope proof certificate verification in
      (set_facts (<[messageID := projection]> (messages p)) (<[eventKey := messageID]> (eventIDs p)) p,
       Ok projection)
  end.

Definition ProjectSource (envelope : option Envelope) (proof : option SourceEventProof)
    (certificate : option FinalityCertificate) (p : Projector)
    : Projector * result error MessageProjection :=
  match envelope, proof with
  | Some envelope, Some proof =>
      match source_check p envelope proof certificate with
      | Err err => (p, Err err)
      | Ok verification => source_commit envelope proof certificate verification p
      end
  | _, _ => (p, Err ErrProjectionConflict)
  end.

(** ** Execution *)

Definition execution_policy_ok (config : ChainConfig) (proof : SourceEventProof) : bool :=
  (cc_Coordinator config =s sp_SourceContract proof) &&
  (cc_FinalityPolicyHash config =s sp_FinalityPolicyHash proof) &&
  (cc_ObserverAuthority config =s sp_HeaderAuthorityHash proof).

(** The result against the message that was read first. *)
Definition execution_matches (original : MessageProjection) (envelope : Envelope)
    (result : ExecutionResult) (proof : SourceEventProof) : bool :=
  (m_DestinationChainID original =s er_DestinationChainId result) &&
  (er_LaneId result =s LaneId envelope) && (er_SourceNonce result =? SourceNonce envelope) &&
  (er_ActionType result =? ActionType envelope) &&
  (er_Target result =s DestinationComponent envelope) &&
  (er_TransactionHash result =s sp_TransactionHash proof) &&
  (er_LogIndex result =? sp_LogIndex proof) && exactLength (er_LaneId result) 32 &&
  exactLength (er_Target result) 20 && exactLength (er_ResultHash result) 32 &&
  exactLength (er_TransactionHash result) 32 && negb (timestamp_bad (er_ExecutedAt result)).

(** The checks of [ProjectExecution]; [before] is the state at the first, shared lock. *)
Definition execution_check (before : Projector) (result : ExecutionResult) (proof : SourceEventProof)
    : Prelude.result error (Envelope * Verification) :=
  if negb (exactLength (er_MessageId result) 32) || (er_MessageId result <>s sp_MessageId proof) ||
     (er_DestinationChainId result <>s sp_SourceChainId proof)
  then Err ErrProjectionConflict
  else match chains before !! er_DestinationChainId result with
  | None => Err ErrUnknownChain
  | Some config =>
  if negb (execution_policy_ok config proof) then Err ErrFinalityPolicy
  else if negb (proof_lengths config proof) then Err ErrUnauthenticated
  else if negb (matches (ComputeObserverHeaderCommitment proof)
                  (sp_ObserverSignedHeaderCommitment proof))
  then Err ErrUnauthenticated
  else if negb (hasRequiredDepth (sp_SourceBlockNumber proof) (sp_FinalityHeadNumber proof)
                  (cc_RequiredDepth config))
  then Err ErrInsufficientFinality
  else match messages before !! er_MessageId result with
  | None => Err ErrProjectionConflict
  | Some original =>
  match m_Envelope original with
  | None => Err ErrProjectionConflict
  | Some envelope =>
  if negb (execution_matches original envelope result proof) then Err ErrProjectionConflict
  else match VerifyExecution (verifier before) result proof with
  | None => Err ErrUnauthenticated
  | Some verification =>
      if negb (Final verification) || is_zero32 (CanonicalEvidenceHash verification)
      then Err ErrUnauthenticated
      else Ok (envelope, verification)
  end
  end
  end
  end.

Definition with_execution (result : ExecutionResult) (proof : SourceEventProof)
    (evidenceHash : string) (m : MessageProjection) : MessageProjection :=
  mkProjection (m_MessageID m) (m_SourceChainID m) (m_DestinationChainID m) (m_Envelope m)
    (m_SourceProof m) (m_SourceFinalityCertificate m) (Some result) (Some proof)
    (m_Acknowledgement m) (m_SourceFinal m) (m_SourceEvidenceHash m) evidenceHash (m_Disputed m)
    (m_Reorganization m) (m_Incident m).

Definition execution_conflict (m : MessageProjection) (result : ExecutionResult)
    (proof : SourceEventProof) (verification : Verification) : bool :=
  (bool_decide (is_Some (m_Execution m)) && negb (bool_decide (m_Execution m = Some result))) ||
  (bool_decide (is_Some (m_ExecutionProof m)) && negb (bool_decide (m_ExecutionProof m = Some proof))) ||
  ((m_ExecutionEvidenceHash m <>s zero32) &&
   (m_ExecutionEvidenceHash m <>s CanonicalEvidenceHash verification)).

(** The part under the exclusive lock, on the state [p] that may be a later one. *)
Definition execution_commit (envelope : Envelope) (result : ExecutionResult)
    (proof : SourceEventProof) (verification : Verification) (p : Projector)
    : Projector * Prelude.result error MessageProjection :=
  let messageID := er_MessageId result in
  let eventKey := proof_key proof in
  match messages p !! messageID with
  | None => (p, Err ErrProjectionConflict)
  | Some projection =>
      if negb (bool_decide (m_Envelope projection = Some envelope)) then (p, Err ErrProjectionConflict)
      else if match eventIDs p !! eventKey with Some id => id <>s messageID | None => false end
      then (p, Err ErrProjectionConflict)
      else if execution_conflict projection result proof verification
      then (p, Err ErrProjectionConflict)
      else
        let projection := with_execution result proof (CanonicalEvidenceHash verification) projection in
        (set_facts (<[messageID := projection]> (messages p)) (<[eventKey := messageID]> (eventIDs p)) p,
         Ok projection)
  end.

Definition ProjectExecution (before : Projector) (result : option ExecutionResult)
    (proof : option SourceEventProof) (p : Projector)
    : Projector * Prelude.result error MessageProjection :=
  match result, proof with
  | Some result, Some proof =>
      match execution_check before result proof with
      | Err err => (p, Err err)
      | Ok (envelope, verification) => execution_commit envelope result proof verification p
      end
  | _, _ => (p, Err ErrProjectionConflict)
  end.

(** ** Acknowledgement *)

Definition acknowledgement_matches (acknowledgement : Acknowledgement) (m : MessageProjection) : bool :=
  match m_Execution m, m_ExecutionProof m, ak_DestinationExecutionProof acknowledgement,
        ak_FinalityCertificate acknowledgement with
  | Some execution, Some executionProof, Some proof, Some certificate =>
      (ak_ExecutionResultHash acknowledgement =s er_ResultHash execution) &&
      bool_decide (proof = executionProof) &&
      (sp_MessageId proof =s ak_MessageId acknowledgement) &&
      (fc_MessageId certificate =s ak_MessageId acknowledgement)
  | _, _, _, _ => false
  end.

Definition with_acknowledgement (a : Acknowledgement) (m : MessageProjection) : MessageProjection :=
  mkProjection (m_MessageID m) (m_SourceChainID m) (m_DestinationChainID m) (m_Envelope m)
    (m_SourceProof m) (m_SourceFinalityCertificate m) (m_Execution m) (m_ExecutionProof m)
    (Some a) (m_SourceFinal m) (m_SourceEvidenceHash m) (m_ExecutionEvidenceHash m) (m_Disputed m)
    (m_Reorganization m) (m_Incident m).

Definition ProjectAcknowledgement (acknowledgement : option Acknowledgement) (p : Projector)
    : Projector * Prelude.result error MessageProjection :=
  match acknowledgement with
  | None => (p, Err ErrProjectionConflict)
  | Some a =>
      if negb (exactLength (ak_MessageId a) 32) ||
         bool_decide (ak_DestinationExecutionProof a = None) ||
         bool_decide (ak_FinalityCertificate a = None)
      then (p, Err ErrProjectionConflict)
      else match VerifyAcknowledgement (verifier p) a with
      | None => (p, Err ErrUnauthenticated)
      | Some verification =>
          if negb (Final verification) || is_zero32 (CanonicalEvidenceHash verification)
          then (p, Err ErrUnauthenticated)
          else match messages p !! ak_MessageId a with
          | None => (p, Err ErrProjectionConflict)
          | Some projection =>
              if negb (acknowledgement_matches a projection) then (p, Err ErrProjectionConflict)
              else if bool_decide (is_Some (m_Acknowledgement projection)) &&
                      negb (bool_decide (m_Acknowledgement projection = Some a))
              then (p, Err ErrProjectionConflict)
              else
                let projection := with_acknowledgement a projection in
                (set_messages (<[ak_MessageId a := projection]> (messages p)) p, Ok projection)
          end
      end
  end.
End Facts.

(** * Reorganizations *)

(** Deterministic marshalling and unmarshalling of evidence; what is marshalled is read
    back. *)
Class ReorganizationCodec := {
  marshal_reorganization : ReorganizationEvidence → option string;
  unmarshal_reorganization : string → option ReorganizationEvidence;
  unmarshal_marshal : ∀ e bytes, marshal_reorganization e = Some bytes →
    unmarshal_reorganization bytes = Some e }.

Definition with_evidence_hash (hash : string) (e : ReorganizationEvidence) : ReorganizationEvidence :=
  mkReorganization (ro_ChainId e) (ro_OrphanedBlockHash e) (ro_ReplacementBlockHash e)
    (ro_DetectedHeadHash e) (ro_BlockNumber e) (ro_DetectedHeadNumber e) (ro_AffectedMessageIds e)
    hash (ro_DetectedAt e) (ro_OrphanedSourceProof e) (ro_OrphanedEventEvidenceHash e)
    (ro_ReplacementBlockNumber e) (ro_ReplacementHeaderAuthorityHash e)
    (ro_ReplacementObserverSignedHeaderCommitment e) (ro_ReplacementObserverSignature e)
    (ro_DetectedHeadHeaderAuthorityHash e) (ro_DetectedHeadObserverSignedHeaderCommitment e)
    (ro_DetectedHeadObserverSignature e) (ro_FinalityPolicyHash e) (ro_OrphanedFinalityCertificate e)
    (ro_AffectedOrphanedSourceProofs e) (ro_AffectedOrphanedEventEvidenceHashes e)
    (ro_AffectedOrphanedFinalityCertificates e).

(** [canonical.EvidenceHash = nil]. *)
Definition canonical_evidence (e : ReorganizationEvidence) : ReorganizationEvidence :=
  with_evidence_hash "" e.

Definition evidence_shape (e : ReorganizationEvidence) : bool :=
  negb (empty_s (ro_ChainId e) || negb (exactLength (ro_OrphanedBlockHash e) 32) ||
        negb (exactLength (ro_ReplacementBlockHash e) 32) ||
        negb (exactLength (ro_DetectedHeadHash e) 32) ||
        (ro_OrphanedBlockHash e =s ro_ReplacementBlockHash e) || (ro_BlockNumber e =? 0) ||
        (ro_DetectedHeadNumber e <? ro_BlockNumber e) ||
        negb (ro_ReplacementBlockNumber e =? ro_BlockNumber e) ||
        (length (ro_AffectedMessageIds e) =? 0)%nat ||
        (maxReorganizationMessages <? length (ro_AffectedMessageIds e))%nat ||
        bool_decide (ro_OrphanedSourceProof e = None) ||
        negb (exactLength (ro_OrphanedEventEvidenceHash e) 32) ||
        negb (exactLength (ro_ReplacementHeaderAuthorityHash e) 32) ||
        negb (exactLength (ro_ReplacementObserverSignedHeaderCommitment e) 32) ||
        empty_s (ro_ReplacementObserverSignature e) ||
        negb (exactLength (ro_DetectedHeadHeaderAuthorityHash e) 32) ||
        negb (exactLength (ro_DetectedHeadObserverSignedHeaderCommitment e) 32) ||
        empty_s (ro_DetectedHeadObserverSignature e) ||
        negb (exactLength (ro_FinalityPolicyHash e) 32) ||
        bool_decide (ro_OrphanedFinalityCertificate e = None) ||
        negb (length (ro_AffectedOrphanedSourceProofs e) =? length (ro_AffectedMessageIds e))%nat ||
        negb (length (ro_AffectedOrphanedEventEvidenceHashes e) =?
                length (ro_AffectedMessageIds e))%nat ||
        negb (length (ro_AffectedOrphanedFinalityCertificates e) =?
                length (ro_AffectedMessageIds e))%nat ||
        timestamp_bad (ro_DetectedAt e)).

(** The loop that demands strictly increasing 32-byte identifiers. *)
Fixpoint ids_increasing (previous : option string) (ids : list string) : bool :=
  match ids with
  | [] => true
  | messageID :: rest =>
      exactLength messageID 32 &&
      match previous with Some previous => String.ltb previous messageID | None => true end &&
      ids_increasing (Some messageID) rest
  end.

(** The first items of the three aligned arrays. *)
Definition anchors_ok (e : ReorganizationEvidence) : bool :=
  bool_decide (head (ro_AffectedOrphanedSourceProofs e) = Some (ro_OrphanedSourceProof e)) &&
  bool_decide (head (ro_AffectedOrphanedEventEvidenceHashes e) = Some (ro_OrphanedEventEvidenceHash e)) &&
  bool_decide (head (ro_AffectedOrphanedFinalityCertificates e) = Some (ro_OrphanedFinalityCertificate e)).

Section Reorganizations.
Context `{Keccak, ReorganizationCodec}.

Definition validateReorganizationFact (e : ReorganizationEvidence) (index : nat) : bool :=
  match ro_AffectedMessageIds e !! index, ro_AffectedOrphanedSourceProofs e !! index,
        ro_AffectedOrphanedEventEvidenceHashes e !! index,
        ro_AffectedOrphanedFinalityCertificates e !! index with
  | Some messageID, Some (Some proof), Some eventEvidenceHash, Some (Some certificate) =>
      exactLength eventEvidenceHash 32 && (sp_MessageId proof =s messageID) &&
      (sp_SourceChainId proof =s ro_ChainId e) && (sp_SourceBlockNumber proof =? ro_BlockNumber e) &&
      (sp_SourceBlockHash proof =s ro_OrphanedBlockHash e) &&
      (sp_FinalityPolicyHash proof =s ro_FinalityPolicyHash e) &&
      (fc_MessageId certificate =s messageID) &&
      matches (ComputeSourceProofHash proof) (fc_SourceProofHash certificate) &&
      certificate_shape certificate
  | _, _, _, _ => false
  end.

(** Every failure of the checks on the facts is the same error. *)
Definition ComputeReorganizationEvidenceHash (e : ReorganizationEvidence) : result error string :=
  if negb (evidence_shape e) || negb (ids_increasing None (ro_AffectedMessageIds e)) ||
     negb (anchors_ok e) ||
     negb (forallb (validateReorganizationFact e) (seq 0 (length (ro_AffectedMessageIds e))))
  then Err ErrProjectionConflict
  else match marshal_reorganization (canonical_evidence e) with
  | None => Err ErrProjectionConflict
  | Some encoded => Ok (keccak (reorganizationEvidenceDomain +:+ nul +:+ encoded))
  end.

Definition keccakDigest (value : string) : string := keccak value.

Definition MarshalReorganizationEvidenceBlob (e : ReorganizationEvidence)
    : result error (string * string) :=
  match ComputeReorganizationEvidenceHash e with
  | Err _ => Err ErrProjectionConflict
  | Ok evidenceHash =>
      if negb (empty_s (ro_EvidenceHash e)) && (ro_EvidenceHash e <>s evidenceHash)
      then Err ErrProjectionConflict
      else match marshal_reorganization (canonical_evidence e) with
      | None => Err ErrProjectionConflict
      | Some encoded =>
          let blob := reorganizationEvidenceDomain +:+ nul +:+ encoded in
          if keccakDigest blob <>s evidenceHash then Err ErrProjectionConflict
          else Ok (blob, evidenceHash)
      end
  end.

Definition UnmarshalReorganizationEvidenceBlob (blob expectedHash : string)
    : result error ReorganizationEvidence :=
  let prefix := reorganizationEvidenceDomain +:+ nul in
  if is_zero32 expectedHash || negb (String.prefix prefix blob) || (keccakDigest blob <>s expectedHash)
  then Err ErrProjectionConflict
  else match unmarshal_reorganization
               (String.substring (String.length prefix) (String.length blob - String.length prefix) blob) with
  | None => Err ErrProjectionConflict
  | Some e =>
      if negb (empty_s (ro_EvidenceHash e)) then Err ErrProjectionConflict
      else
        let e := with_evidence_hash expectedHash e in
        if matches (ComputeReorganizationEvidenceHash e) expectedHash then Ok e
        else Err ErrProjectionConflict
  end.

(** The three length-prefixed texts of the header commitment, each padded with what
    precedes it. *)
Definition header_texts (texts : list string) : string :=
  foldl (λ encoded value, pad32 (encoded +:+ abiUint64 (Z.of_nat (String.length value)) +:+ value))
    ""%string texts.

Definition ComputeReorganizationHeaderCommitment (kind : string) (e : ReorganizationEvidence)
    : result error string :=
  if empty_s (ro_ChainId e) || negb (exactLength (ro_FinalityPolicyHash e) 32)
  then Err ErrProjectionConflict
  else match (if kind =s "REPLACEMENT"
              then Some (ro_ReplacementBlockHash e, ro_ReplacementBlockNumber e,
                         ro_ReplacementHeaderAuthorityHash e)
              else if kind =s "DETECTED_HEAD"
              then Some (ro_DetectedHeadHash e, ro_DetectedHeadNumber e,
                         ro_DetectedHeadHeaderAuthorityHash e)
              else None) with
  | None => Err ErrProjectionConflict
  | Some (blockHash, blockNumber, authority) =>
      if negb (exactLength blockHash 32) || (blockNumber =? 0) || negb (exactLength authority 32)
      then Err ErrProjectionConflict
      else Ok (keccak (header_texts [reorganizationHeaderDomain; kind; ro_ChainId e] +:+ blockHash +:+
                 abiUint64 blockNumber +:+ ro_DetectedHeadHash e +:+ abiUint64 (ro_DetectedHeadNumber e) +:+
                 ro_FinalityPolicyHash e +:+ authority))
  end.

(** The loop over the orphaned proofs. *)
Definition orphan_policy_ok (config : ChainConfig) (proof : option SourceEventProof) : bool :=
  match proof with
  | None => false
  | Some proof =>
      matches (ComputeObserverHeaderCommitment proof) (sp_ObserverSignedHeaderCommitment proof) &&
      (cc_FinalityPolicyHash config =s sp_FinalityPolicyHash proof) &&
      (cc_ObserverAuthority config =s sp_HeaderAuthorityHash proof) &&
      (sp_RequiredDepth proof =? cc_RequiredDepth config)
  end.

(** The checks of [ProjectReorganization] before it takes the lock. *)
Definition reorganization_check (p : Projector) (e : ReorganizationEvidence)
    : result error (ChainConfig * string) :=
  match ComputeReorganizationEvidenceHash e with
  | Err _ => Err ErrProjectionConflict
  | Ok evidenceHash =>
  if ro_EvidenceHash e <>s evidenceHash then Err ErrProjectionConflict
  else match chains p !! ro_ChainId e with
  | None => Err ErrUnknownChain
  | Some config =>
  if negb (matches (ComputeReorganizationHeaderCommitment "REPLACEMENT" e)
             (ro_ReplacementObserverSignedHeaderCommitment e) &&
           matches (ComputeReorganizationHeaderCommitment "DETECTED_HEAD" e)
             (ro_DetectedHeadObserverSignedHeaderCommitment e) &&
           (cc_FinalityPolicyHash config =s ro_FinalityPolicyHash e) &&
           (cc_ObserverAuthority config =s ro_ReplacementHeaderAuthorityHash e) &&
           (cc_ObserverAuthority config =s ro_DetectedHeadHeaderAuthorityHash e))
  then Err ErrFinalityPolicy
  else if negb (forallb (orphan_policy_ok config) (ro_AffectedOrphanedSourceProofs e))
  then Err ErrFinalityPolicy
  else match VerifyReorganization (verifier p) e with
  | None => Err ErrUnauthenticated
  | Some verification =>
      if negb (Final verification) || (CanonicalEvidenceHash verification <>s evidenceHash)
      then Err ErrUnauthenticated
      else Ok (config, evidenceHash)
  end
  end
  end.

Definition sourceAffected (config : ChainConfig) (e : ReorganizationEvidence) (index : nat)
    (m : MessageProjection) : bool :=
  m_SourceFinal m && (m_SourceChainID m =s cc_ChainID config) &&
  match m_SourceProof m with
  | None => false
  | Some proof =>
      (sp_SourceBlockNumber proof =? ro_BlockNumber e) &&
      (sp_SourceBlockHash proof =s ro_OrphanedBlockHash e) &&
      bool_decide (ro_AffectedOrphanedSourceProofs e !! index = Some (Some proof))
  end &&
  bool_decide (ro_AffectedOrphanedFinalityCertificates e !! index = Some (m_SourceFinalityCertificate m)) &&
  bool_decide (ro_AffectedOrphanedEventEvidenceHashes e !! index = Some (m_SourceEvidenceHash m)).

Definition executionAffected (config : ChainConfig) (e : ReorganizationEvidence) (index : nat)
    (m : MessageProjection) : bool :=
  (m_DestinationChainID m =s cc_ChainID config) && bool_decide (is_Some (m_Execution m)) &&
  match m_ExecutionProof m with
  | None => false
  | Some proof =>
      (sp_SourceBlockNumber proof =? ro_BlockNumber e) &&
      (sp_SourceBlockHash proof =s ro_OrphanedBlockHash e) &&
      bool_decide (ro_AffectedOrphanedSourceProofs e !! index = Some (Some proof))
  end &&
  match m_Acknowledgement m with
  | None => true
  | Some a => bool_decide (ro_AffectedOrphanedFinalityCertificates e !! index =
                           Some (ak_FinalityCertificate a))
  end &&
  bool_decide (ro_AffectedOrphanedEventEvidenceHashes e !! index = Some (m_ExecutionEvidenceHash m)).

(** The first loop: every affected message is checked before any is marked. The state is
    the route policy of the first message. *)
Fixpoint affected_loop (config : ChainConfig) (e : ReorganizationEvidence)
    (ids : list string) (index : nat) (routePolicyHash : string) (p : Projector) : result error string :=
  match ids with
  | [] => Ok routePolicyHash
  | messageID :: rest =>
      match messages p !! messageID with
      | None => Err ErrProjectionConflict
      | Some m =>
      match m_Envelope m with
      | None => Err ErrProjectionConflict
      | Some envelope =>
          let currentPolicy := fixedBytes32 (RoutePolicyHash envelope) in
          if negb (index =? 0)%nat && (currentPolicy <>s routePolicyHash)
          then Err ErrProjectionConflict
          else if m_Disputed m then
            if negb (bool_decide (m_Reorganization m = Some e)) then Err ErrProjectionConflict
            else affected_loop config e rest (S index) currentPolicy p
          else if negb (sourceAffected config e index m) && negb (executionAffected config e index m)
          then Err ErrProjectionConflict
          else affected_loop config e rest (S index) currentPolicy p
      end
      end
  end.

Definition incident_of (e : ReorganizationEvidence) (evidenceHash routeID : string) : Incident :=
  mkIncident ("crosschain-incident:" +:+ hex evidenceHash) routeID (ro_AffectedMessageIds e)
    "POST_FINALITY_REORGANIZATION" "cross-chain-security" evidenceHash (ro_DetectedAt e) "OPEN".

Definition dispute (e : ReorganizationEvidence) (incident : Incident) (m : MessageProjection)
    : MessageProjection :=
  if m_Disputed m then m else
  mkProjection (m_MessageID m) (m_SourceChainID m) (m_DestinationChainID m) (m_Envelope m)
    (m_SourceProof m) (m_SourceFinalityCertificate m) (m_Execution m) (m_ExecutionProof m)
    (m_Acknowledgement m) (m_SourceFinal m) (m_SourceEvidenceHash m) (m_ExecutionEvidenceHash m) true
    (Some e) (Some incident).

(** The zero projection a missing map key yields. *)
Definition zero_projection : MessageProjection :=
  mkProjection zero32 "" "" None None None None None None false zero32 zero32 false None None.

(** The second loop: marking. *)
Fixpoint mark_loop (e : ReorganizationEvidence) (incident : Incident) (ids : list string)
    (ms : gmap string MessageProjection) : gmap string MessageProjection * list MessageProjection :=
  match ids with
  | [] => (ms, [])
  | messageID :: rest =>
      let m := dispute e incident (lookup_zero zero_projection ms messageID) in
      let '(ms', affected) := mark_loop e incident rest (<[messageID := m]> ms) in
      (ms', m :: affected)
  end.

Definition reorganization_commit (config : ChainConfig) (evidenceHash : string)
    (e : ReorganizationEvidence) (p : Projector)
    : Projector * result error (Incident * list MessageProjection) :=
  match affected_loop config e (ro_AffectedMessageIds e) 0 zero32 p with
  | Err err => (p, Err err)
  | Ok routePolicyHash =>
      let incident := incident_of e evidenceHash (lookup_zero ""%string (routes p) routePolicyHash) in
      if empty_s (ic_RouteId incident) then (p, Err ErrProjectionConflict)
      else
        let '(ms, affected) := mark_loop e incident (ro_AffectedMessageIds e) (messages p) in
        (set_messages ms p, Ok (incident, affected))
  end.

Definition ProjectReorganization (evidence : option ReorganizationEvidence) (p : Projector)
    : Projector * result error (Incident * list MessageProjection) :=
  match evidence with
  | None => (p, Err ErrProjectionConflict)
  | Some e =>
      match reorganization_check p e with
      | Err err => (p, Err err)
      | Ok (config, evidenceHash) => reorganization_commit config evidenceHash e p
      end
  end.
End Reorganizations.

(** * Removal and reading *)

Definition RemovePreFinality (chainID transactionHash : string) (logIndex : Z) (p : Projector)
    : Projector * result error () :=
  let key := event_key chainID transactionHash logIndex in
  match eventIDs p !! key with
  | None => (p, Err ErrProjectionConflict)
  | Some messageID =>
      if m_SourceFinal (lookup_zero zero_projection (messages p) messageID)
      then (p, Err ErrInsufficientFinality)
      else (set_facts (delete messageID (messages p)) (delete key (eventIDs p)) p, Ok ())
  end.

Definition Get (messageID : string) (p : Projector) : option MessageProjection :=
  messages p !! messageID.

(** [Snapshot]: sorted by message id, which is the map key. *)
Definition Snapshot (p : Projector) : list MessageProjection :=
  snd <$> sort_by fst (map_to_list (messages p)).

(** * Restoration *)

Definition sameRouteBindings (left right : gmap string string) : bool :=
  (size left =? size right)%nat &&
  forallb (λ '(policyHash, routeID), lookup_zero ""%string right policyHash =s routeID) (map_to_list left).

Definition sameProjection (left right : MessageProjection) : bool :=
  (m_MessageID left =s m_MessageID right) && (m_SourceChainID left =s m_SourceChainID right) &&
  (m_DestinationChainID left =s m_DestinationChainID right) &&
  Bool.eqb (m_SourceFinal left) (m_SourceFinal right) &&
  (m_SourceEvidenceHash left =s m_SourceEvidenceHash right) &&
  (m_ExecutionEvidenceHash left =s m_ExecutionEvidenceHash right) &&
  Bool.eqb (m_Disputed left) (m_Disputed right) &&
  bool_decide (m_Envelope left = m_Envelope right) &&
  bool_decide (m_SourceProof left = m_SourceProof right) &&
  bool_decide (m_SourceFinalityCertificate left = m_SourceFinalityCertificate right) &&
  bool_decide (m_Execution left = m_Execution right) &&
  bool_decide (m_ExecutionProof left = m_ExecutionProof right) &&
  bool_decide (m_Acknowledgement left = m_Acknowledgement right) &&
  bool_decide (m_Reorganization left = m_Reorganization right) &&
  bool_decide (m_Incident left = m_Incident right).

Section Restoration.
Context `{Keccak, ReorganizationCodec}.

(** The loops of [RestoreSnapshot]; every failure is [ErrProjectionConflict]. *)
Fixpoint bind_routes (bindings : list (string * string)) (rebuilt : Projector) : result error Projector :=
  match bindings with
  | [] => Ok rebuilt
  | (policyHash, routeID) :: rest =>
      match BindRoute routeID policyHash rebuilt with
      | (_, Err _) => Err ErrProjectionConflict
      | (rebuilt, Ok _) => bind_routes rest rebuilt
      end
  end.

Fixpoint replay_sources (snapshot : list MessageProjection) (rebuilt : Projector)
    : result error Projector :=
  match snapshot with
  | [] => Ok rebuilt
  | expected :: rest =>
      match ProjectSource (m_Envelope expected) (m_SourceProof expected)
              (m_SourceFinalityCertificate expected) rebuilt with
      | (_, Err _) => Err ErrProjectionConflict
      | (rebuilt, Ok actual) =>
          if negb (Bool.eqb (m_SourceFinal actual) (m_SourceFinal expected)) ||
             (m_SourceEvidenceHash actual <>s m_SourceEvidenceHash expected)
          then Err ErrProjectionConflict
          else replay_sources rest rebuilt
      end
  end.

Fixpoint replay_executions (snapshot : list MessageProjection) (rebuilt : Projector)
    : result error Projector :=
  match snapshot with
  | [] => Ok rebuilt
  | expected :: rest =>
      match m_Execution expected with
      | None => replay_executions rest rebuilt
      | Some _ =>
      match ProjectExecution rebuilt (m_Execution expected) (m_ExecutionProof expected) rebuilt with
      | (_, Err _) => Err ErrProjectionConflict
      | (rebuilt, Ok actual) =>
          if m_ExecutionEvidenceHash actual <>s m_ExecutionEvidenceHash expected
          then Err ErrProjectionConflict
          else replay_executions rest rebuilt
      end
      end
  end.

Fixpoint replay_acknowledgements (snapshot : list MessageProjection) (rebuilt : Projector)
    : result error Projector :=
  match snapshot with
  | [] => Ok rebuilt
  | expected :: rest =>
      match m_Acknowledgement expected with
      | None => replay_acknowledgements rest rebuilt
      | Some _ =>
      match ProjectAcknowledgement (m_Acknowledgement expected) rebuilt with
      | (_, Err _) => Err ErrProjectionConflict
      | (rebuilt, Ok _) => replay_acknowledgements rest rebuilt
      end
      end
  end.

(** One entry per evidence hash. *)
Fixpoint collect_reorganizations (snapshot : list MessageProjection)
    (reorganizations : gmap string ReorganizationEvidence)
    : result error (gmap string ReorganizationEvidence) :=
  match snapshot with
  | [] => Ok reorganizations
  | expected :: rest =>
      match m_Disputed expected, m_Reorganization expected, m_Incident expected with
      | true, Some e, Some _ =>
          let hash := fixedBytes32 (ro_EvidenceHash e) in
          if is_zero32 hash then Err ErrProjectionConflict
          else if match reorganizations !! hash with
                  | Some existing => negb (bool_decide (existing = e))
                  | None => false
                  end
          then Err ErrProjectionConflict
          else collect_reorganizations rest (<[hash := e]> reorganizations)
      | false, None, None => collect_reorganizations rest reorganizations
      | _, _, _ => Err ErrProjectionConflict
      end
  end.

Fixpoint replay_reorganizations (evidence : list ReorganizationEvidence) (rebuilt : Projector)
    : result error Projector :=
  match evidence with
  | [] => Ok rebuilt
  | e :: rest =>
      match ProjectReorganization (Some e) rebuilt with
      | (_, Err _) => Err ErrProjectionConflict
      | (rebuilt, Ok _) => replay_reorganizations rest rebuilt
      end
  end.

Definition same_as_snapshot (snapshot : list MessageProjection) (rebuilt : Projector) : bool :=
  forallb (λ expected, match Get (m_MessageID expected) rebuilt with
                       | Some actual => sameProjection actual expected
                       | None => false
                       end) snapshot.

(** The rebuilt projector: everything [RestoreSnapshot] does between its two locks, from
    the configuration and the routes of the first. *)
Definition rebuild (before : Projector) (snapshot : list MessageProjection) : result error Projector :=
  let configs := sort_by cc_ChainID (snd <$> map_to_list (chains before)) in
  let? rebuilt := NewProjector (Some (verifier before)) configs in
  let? rebuilt := bind_routes (sort_by fst (map_to_list (routes before))) rebuilt in
  let? rebuilt := replay_sources snapshot rebuilt in
  let? rebuilt := replay_executions snapshot rebuilt in
  let? rebuilt := replay_acknowledgements snapshot rebuilt in
  let? reorganizations := collect_reorganizations snapshot ∅ in
  let? rebuilt := replay_reorganizations (snd <$> sort_by fst (map_to_list reorganizations)) rebuilt in
  if negb (same_as_snapshot snapshot rebuilt) then Err ErrProjectionConflict
  else Ok rebuilt.

(** [before] is the state at the first, shared lock and [p] the one at the second. *)
Definition RestoreSnapshot (before : Projector) (snapshot : list MessageProjection) (p : Projector)
    : Projector * result error () :=
  if negb (size (messages before) =? 0)%nat || negb (size (eventIDs before) =? 0)%nat
  then (p, Err ErrProjectionConflict)
  else match rebuild before snapshot with
  | Err err => (p, Err err)
  | Ok rebuilt =>
      if negb (size (messages p) =? 0)%nat || negb (size (eventIDs p) =? 0)%nat ||
         negb (sameRouteBindings (routes p) (routes before))
      then (p, Err ErrProjectionConflict)
      else (mkProjector (chains p) (messages rebuilt) (eventIDs rebuilt) (routes rebuilt) (verifier p),
            Ok ())
  end.
End Restoration.
