(* ===== verification/ProjectorInvariant.v ===== *)
(** The cross-chain projector: what every reachable state guarantees.

    A projection that can be read was checked in full: its envelope, its source proof, its
    finality certificate, its execution, its acknowledgement and its dispute. Final facts
    are kept by every later operation, a chain event belongs to one message, and a refused
    operation changes nothing. *)
From S2P Require Import Prelude GoStd CrossChainTypes Message Projector.

(** * Authenticity of a projection *)

Section Authentic.
Context `{Keccak, ReorganizationCodec}.

Definition without_acknowledgement (m : MessageProjection) : MessageProjection :=
  mkProjection (m_MessageID m) (m_SourceChainID m) (m_DestinationChainID m) (m_Envelope m)
    (m_SourceProof m) (m_SourceFinalityCertificate m) (m_Execution m) (m_ExecutionProof m)
    None (m_SourceFinal m) (m_SourceEvidenceHash m) (m_ExecutionEvidenceHash m) (m_Disputed m)
    (m_Reorganization m) (m_Incident m).

(** The source fact was accepted with exactly what is stored. *)
Definition source_authentic (p : Projector) (id : string) (m : MessageProjection) : Prop :=
  ∃ envelope proof,
    m_Envelope m = Some envelope ∧ m_SourceProof m = Some proof ∧
    m_MessageID m = id ∧ MessageId envelope = id ∧
    m_SourceChainID m = SourceChainId envelope ∧ m_DestinationChainID m = DestinationChainId envelope ∧
    source_check p envelope proof (m_SourceFinalityCertificate m) =
      Ok (mkVerification (m_SourceEvidenceHash m) (m_SourceFinal m)) ∧
    eventIDs p !! proof_key proof = Some id.

Definition execution_authentic (p : Projector) (id : string) (m : MessageProjection) : Prop :=
  match m_Execution m, m_ExecutionProof m with
  | None, None => m_ExecutionEvidenceHash m = zero32 ∧ m_Acknowledgement m = None
  | Some result, Some proof =>
      er_MessageId result = id ∧
      (∃ envelope, m_Envelope m = Some envelope ∧
         execution_check p result proof =
           Ok (envelope, mkVerification (m_ExecutionEvidenceHash m) true)) ∧
      eventIDs p !! proof_key proof = Some id
  | _, _ => False
  end.

Definition acknowledgement_authentic (p : Projector) (id : string) (m : MessageProjection) : Prop :=
  ∀ a, m_Acknowledgement m = Some a →
    String.length id = 32%nat ∧ ak_MessageId a = id ∧ acknowledgement_matches a m = true ∧
    ∃ v, VerifyAcknowledgement (verifier p) a = Some v ∧ Final v = true ∧
         CanonicalEvidenceHash v ≠ zero32.

(** The evidence names the message and orphans its source fact or its execution; the
    incident is the one of that evidence on the route bound to the message's policy. *)
Definition disputed_by (p : Projector) (id : string) (m : MessageProjection)
    (e : ReorganizationEvidence) (incident : Incident) : Prop :=
  ∃ config hash index route envelope,
    reorganization_check p e = Ok (config, hash) ∧ ro_AffectedMessageIds e !! index = Some id ∧
    (sourceAffected config e index m = true ∨
     executionAffected config e index (without_acknowledgement m) = true) ∧
    m_Envelope m = Some envelope ∧
    routes p !! fixedBytes32 (RoutePolicyHash envelope) = Some route ∧
    incident = incident_of e hash route.

Definition dispute_authentic (p : Projector) (id : string) (m : MessageProjection) : Prop :=
  match m_Disputed m, m_Reorganization m, m_Incident m with
  | false, None, None => True
  | true, Some e, Some incident => disputed_by p id m e incident
  | _, _, _ => False
  end.

Record authentic (p : Projector) (id : string) (m : MessageProjection) : Prop := {
  au_source : source_authentic p id m;
  au_execution : execution_authentic p id m;
  au_acknowledgement : acknowledgement_authentic p id m;
  au_dispute : dispute_authentic p id m }.

Record inv (p : Projector) : Prop := {
  inv_chains : ∀ k c, chains p !! k = Some c → cc_ChainID c = k ∧ config_ok c = true;
  inv_size : (2 <= size (chains p))%nat;
  inv_routes : ∀ k r, routes p !! k = Some r → k ≠ zero32 ∧ r ≠ "";
  inv_messages : ∀ id m, messages p !! id = Some m → authentic p id m }.

(** * Frames *)

(** What the checks read of the state besides the messages. *)
Record same_setup (p p' : Projector) : Prop := {
  ss_chains : chains p = chains p';
  ss_verifier : verifier p = verifier p' }.

Lemma source_check_ext p p' envelope proof certificate :
  same_setup p p' → source_check p envelope proof certificate = source_check p' envelope proof certificate.
Proof. intros [Hc Hv]. unfold source_check. by rewrite Hc, Hv. Qed.

Definition message_view (m : MessageProjection) : option Envelope * string :=
  (m_Envelope m, m_DestinationChainID m).

Lemma execution_check_ext p p' result proof :
  same_setup p p' →
  message_view <$> messages p !! er_MessageId result = message_view <$> messages p' !! er_MessageId result →
  execution_check p result proof = execution_check p' result proof.
Proof.
  intros [Hc Hv] Hm. unfold execution_check, execution_matches. rewrite Hc, Hv.
  destruct (messages p !! er_MessageId result) as [m|], (messages p' !! er_MessageId result) as [m'|];
    try done.
  apply (inj Some), pair_equal_spec in Hm as [He Hd]. by rewrite He, Hd.
Qed.

Lemma reorganization_check_ext p p' e :
  same_setup p p' → reorganization_check p e = reorganization_check p' e.
Proof. intros [Hc Hv]. unfold reorganization_check. by rewrite Hc, Hv. Qed.

(** Keys that a message owns stay its own. *)
Definition keys_kept (p p' : Projector) (id : string) : Prop :=
  ∀ key, eventIDs p !! key = Some id → eventIDs p' !! key = Some id.

Lemma authentic_frame p p' id m :
  same_setup p p' → routes p ⊆ routes p' → keys_kept p p' id →
  messages p !! id = Some m → messages p' !! id = Some m → authentic p id m → authentic p' id m.
Proof.
  intros Hs Hr Hk Hm Hm' [Hsrc Hex Hack Hdis]. split.
  - destruct Hsrc as (envelope&proof&He&Hp&Hid&Hmid&Hsc&Hdc&Hc&Hkey). exists envelope, proof.
    repeat (split; [done|]). split; [by rewrite <- (source_check_ext p p')|by apply Hk].
  - revert Hex. unfold execution_authentic.
    destruct (m_Execution m) as [result|], (m_ExecutionProof m) as [proof|]; try done.
    intros (Hid&(envelope&He&Hc)&Hkey). split; [done|]. split; [|by apply Hk].
    exists envelope. split; [done|]. rewrite <- (execution_check_ext p p'); [done..|].
    by rewrite Hid, Hm, Hm'.
  - intros a Ha. destruct (Hack a Ha) as (Hl&Hid&Hmt&v&Hv&Hf). split; [done|]. split; [done|].
    split; [done|]. exists v. by rewrite <- (ss_verifier _ _ Hs).
  - revert Hdis. unfold dispute_authentic.
    destruct (m_Disputed m), (m_Reorganization m) as [e|], (m_Incident m) as [i|]; try done.
    intros (config&hash&index&route&envelope&Hc&Hi&Ha&He&Hro&Hin). exists config, hash, index, route, envelope.
    rewrite <- (reorganization_check_ext p p') by done. repeat (split; [done|]). split; [|done].
    by apply (lookup_weaken _ (routes p')) in Hro.
Qed.

(** An operation that rewrites one message. *)
Lemma inv_update p p' id m :
  inv p → same_setup p p' → routes p' = routes p →
  (∀ other, other ≠ id → keys_kept p p' other) →
  messages p' = <[id := m]> (messages p) → authentic p' id m → inv p'.
Proof.
  intros [Hc Hz Hr Hms] Hs Hro Hk Hm Ha. split.
  - by rewrite <- (ss_chains _ _ Hs).
  - by rewrite <- (ss_chains _ _ Hs).
  - by rewrite Hro.
  - intros id' m'. rewrite Hm. intros [[<- <-]|[Hne Hl]]%lookup_insert_Some; [done|].
    apply (authentic_frame p); [done|by rewrite Hro|by apply Hk|done| |by apply Hms].
    by rewrite Hm, lookup_insert_ne.
Qed.

Lemma keys_kept_insert p p' key id other :
  eventIDs p' = <[key := id]> (eventIDs p) →
  match eventIDs p !! key with Some x => x <>s id | None => false end = false →
  keys_kept p p' other.
Proof.
  intros He Hx k Hk. rewrite He. destruct (decide (k = key)) as [->|Hne].
  - rewrite Hk in Hx. apply negb_false_iff, String.eqb_eq in Hx as ->. by rewrite lookup_insert_eq.
  - by rewrite lookup_insert_ne.
Qed.

(** * What the checks establish *)

Record source_accepted (p : Projector) (envelope : Envelope) (proof : SourceEventProof)
    (certificate : option FinalityCertificate) (v : Verification) : Prop := {
  sa_valid : ValidateEnvelope envelope = Ok ();
  sa_id : MessageId envelope = sp_MessageId proof;
  sa_chain : SourceChainId envelope = sp_SourceChainId proof;
  sa_config : ∃ config destinationConfig,
    chains p !! SourceChainId envelope = Some config ∧
    chains p !! DestinationChainId envelope = Some destinationConfig ∧
    source_policy_ok config destinationConfig envelope proof = true ∧
    proof_lengths config proof = true ∧
    (Final v = true → hasRequiredDepth (sp_SourceBlockNumber proof) (sp_FinalityHeadNumber proof)
                        (cc_RequiredDepth config) = true);
  sa_commitment : ComputeObserverHeaderCommitment proof = Ok (sp_ObserverSignedHeaderCommitment proof);
  sa_verified : VerifySource (verifier p) envelope proof certificate = Some v;
  sa_evidence : CanonicalEvidenceHash v ≠ zero32;
  sa_provisional : Final v = false → certificate = None;
  sa_final : Final v = true → validSourceFinalityCertificate proof certificate = true }.

Lemma matches_Ok computed field : matches computed field = true → computed = Ok field.
Proof. unfold matches. destruct computed; [|done]. by intros ->%String.eqb_eq. Qed.

Lemma source_check_Ok p envelope proof certificate v :
  source_check p envelope proof certificate = Ok v → source_accepted p envelope proof certificate v.
Proof.
  unfold source_check. pass_if Hg.
  destruct (chains p !! sp_SourceChainId proof) as [config|] eqn:Hc; [|done].
  destruct (chains p !! DestinationChainId envelope) as [dconfig|] eqn:Hdc; [|done].
  pass_if Hp. pass_if Hl. pass_if Hm.
  destruct (VerifySource _ _ _ _) as [v'|] eqn:Hv; [|done].
  pass_if Hz. pass_if Hn. pass_if Hf. pass_if Hd. intros [= ->]. bool_facts.
  split; try done.
  - destruct (ValidateEnvelope envelope) as [[]|]; done.
  - exists config, dconfig. split; [congruence|]. repeat (split; [done|]).
    intros Hfin. rewrite Hfin in Hd. by apply negb_false_iff in Hd.
  - by apply matches_Ok.
  - intros Hfin. rewrite Hfin in Hn. by destruct certificate.
  - intros Hfin. rewrite Hfin in Hf. by apply negb_false_iff in Hf.
Qed.

Record execution_accepted (p : Projector) (result : ExecutionResult) (proof : SourceEventProof)
    (envelope : Envelope) (v : Verification) : Prop := {
  ea_length : String.length (er_MessageId result) = 32%nat;
  ea_id : er_MessageId result = sp_MessageId proof;
  ea_chain : er_DestinationChainId result = sp_SourceChainId proof;
  ea_config : ∃ config,
    chains p !! er_DestinationChainId result = Some config ∧
    execution_policy_ok config proof = true ∧ proof_lengths config proof = true ∧
    hasRequiredDepth (sp_SourceBlockNumber proof) (sp_FinalityHeadNumber proof)
      (cc_RequiredDepth config) = true;
  ea_commitment : ComputeObserverHeaderCommitment proof = Ok (sp_ObserverSignedHeaderCommitment proof);
  ea_original : ∃ original,
    messages p !! er_MessageId result = Some original ∧ m_Envelope original = Some envelope ∧
    execution_matches original envelope result proof = true;
  ea_verified : VerifyExecution (verifier p) result proof = Some v;
  ea_final : Final v = true;
  ea_evidence : CanonicalEvidenceHash v ≠ zero32 }.

Lemma execution_check_Ok p result proof envelope v :
  execution_check p result proof = Ok (envelope, v) → execution_accepted p result proof envelope v.
Proof.
  unfold execution_check. pass_if Hg.
  destruct (chains p !! er_DestinationChainId result) as [config|] eqn:Hc; [|done].
  pass_if Hp. pass_if Hl. pass_if Hm. pass_if Hd.
  destruct (messages p !! er_MessageId result) as [original|] eqn:Ho; [|done].
  destruct (m_Envelope original) as [env|] eqn:He; [|done].
  pass_if Hx. destruct (VerifyExecution _ _ _) as [v'|] eqn:Hv; [|done].
  pass_if Hf. intros [= -> ->]. bool_facts.
  split; try done.
  - by apply Nat.eqb_eq.
  - by exists config.
  - by apply matches_Ok.
  - by exists original.
Qed.

(** * The operations keep the invariant *)

Lemma ProjectSource_inv envelope proof certificate p :
  inv p → inv (ProjectSource envelope proof certificate p).1.
Proof.
  intros Hi. unfold ProjectSource.
  destruct envelope as [envelope|]; [|done]. destruct proof as [proof|]; [|done].
  destruct (source_check p envelope proof certificate) as [v|err] eqn:Hc; [|done].
  pose proof (source_check_Ok _ _ _ _ _ Hc) as Ha. unfold source_commit.
  destruct (match eventIDs p !! proof_key proof with Some x => x <>s MessageId envelope | None => false end) eqn:Hk; [done|].
  destruct (messages p !! MessageId envelope) as [existing|] eqn:Hm.
  - destruct (source_conflict existing envelope proof certificate v) eqn:Hcf; [done|].
    destruct (Final v && negb (m_SourceFinal existing)) eqn:Hfin; [|done]. cbn [fst].
    apply andb_true_iff in Hfin as [Hf Hnf]. apply negb_true_iff in Hnf.
    destruct (inv_messages _ Hi _ _ Hm) as [Hsrc Hex Hack Hdis].
    destruct Hsrc as (env&prf&He&Hp&Hid&Hmid&Hsc&Hdc&Hck&Hkey).
    revert Hcf. unfold source_conflict. rewrite Hp, He. intros Hcf.
    apply orb_false_iff in Hcf as [Hcf Heh]. repeat (apply orb_false_iff in Hcf as [Hcf ?]). bool_facts.
    simplify_eq. set (p' := set_messages _ _).
    assert (same_setup p p') as Hs by done.
    eapply (inv_update p p' (MessageId envelope) (finalized certificate existing)); try done;
      [by intros ???|].
    split.
    + exists envelope, proof. repeat (split; [done|]). split; [|done].
      rewrite <- (source_check_ext p p') by done. etrans; [exact Hc|].
      destruct v as [h f]. cbn in *. by subst.
    + revert Hex. unfold execution_authentic. cbn [finalized m_Execution m_ExecutionProof].
      destruct (m_Execution existing) as [result|], (m_ExecutionProof existing) as [xp|]; try done.
      intros (Hrid&(env&He'&Hxc)&Hxk). split; [done|]. split; [|done]. exists env. split; [done|].
      rewrite <- (execution_check_ext p p'); [done..|]. rewrite Hrid, Hm.
      unfold p'. cbn. by rewrite lookup_insert_eq.
    + exact Hack.
    + revert Hdis. unfold dispute_authentic. cbn [finalized m_Disputed m_Reorganization m_Incident].
      destruct (m_Disputed existing), (m_Reorganization existing), (m_Incident existing); try done.
      intros (config&hash&index&route&env&Hrc&Hix&[Haf|Haf]&Hrest);
        exists config, hash, index, route, env; split; try done; split; try done; split; try done.
      * revert Haf. unfold sourceAffected. by rewrite Hnf.
      * by right.
  - cbn [fst]. set (p' := set_facts _ _ _).
    assert (same_setup p p') as Hs by done.
    eapply (inv_update p p' (MessageId envelope) (new_projection envelope proof certificate v)); try done.
    + intros other _. by eapply keys_kept_insert.
    + split; [|by split|by intros a|done].
      exists envelope, proof. repeat (split; [done|]). split.
      * rewrite <- (source_check_ext p p') by done. destruct v as [h []]; cbn; [done|].
        by rewrite <- (sa_provisional _ _ _ _ _ Ha eq_refl).
      * unfold p'. cbn. by rewrite lookup_insert_eq.
Qed.

(** The execution check on an earlier state holds on the state that is updated. *)
Lemma execution_check_later before p p' result proof envelope v m :
  inv before → inv p → same_setup before p → same_setup p p' →
  execution_check before result proof = Ok (envelope, v) →
  messages p !! er_MessageId result = Some m → m_Envelope m = Some envelope →
  message_view <$> messages p' !! er_MessageId result = Some (message_view m) →
  execution_check p' result proof = Ok (envelope, v).
Proof.
  intros Hb Hi Hs Hs' Hc Hm He Hv. rewrite <- Hc. symmetry. apply execution_check_ext.
  - destruct Hs, Hs'. split; congruence.
  - destruct (ea_original _ _ _ _ _ (execution_check_Ok _ _ _ _ _ Hc)) as (o&Ho&Heo&_).
    rewrite Hv, Ho. cbn. f_equal. unfold message_view.
    destruct (au_source _ _ _ (inv_messages _ Hb _ _ Ho)) as (e1&?&?&?&?&?&?&Hd1&_).
    destruct (au_source _ _ _ (inv_messages _ Hi _ _ Hm)) as (e2&?&?&?&?&?&?&Hd2&_).
    congruence.
Qed.

Lemma execution_conflict_false m result proof v :
  execution_conflict m result proof v = false →
  (m_Execution m = None ∨ m_Execution m = Some result) ∧
  (m_ExecutionProof m = None ∨ m_ExecutionProof m = Some proof) ∧
  (m_ExecutionEvidenceHash m = zero32 ∨ m_ExecutionEvidenceHash m = CanonicalEvidenceHash v).
Proof.
  unfold execution_conflict. intros Hc.
  apply orb_false_iff in Hc as [Hc Hh]. apply orb_false_iff in Hc as [Hx Hp].
  split; [|split].
  - destruct (m_Execution m); [right|by left]. cbn in Hx. by bool_facts.
  - destruct (m_ExecutionProof m); [right|by left]. cbn in Hp. by bool_facts.
  - destruct (String.eqb_spec (m_ExecutionEvidenceHash m) zero32) as [|Hz]; [by left|right].
    cbn in Hh. by bool_facts.
Qed.

Lemma execution_commit_inv before envelope result proof v p :
  inv before → inv p → same_setup before p →
  execution_check before result proof = Ok (envelope, v) →
  inv (execution_commit envelope result proof v p).1.
Proof.
  intros Hb Hi Hbp Hc. pose proof (execution_check_Ok _ _ _ _ _ Hc) as Ha. unfold execution_commit.
  destruct (messages p !! er_MessageId result) as [m|] eqn:Hm; [|done].
  destruct (negb (bool_decide (m_Envelope m = Some envelope))) eqn:He; [done|]. bool_facts.
  destruct (match eventIDs p !! proof_key proof with Some _ => _ | None => _ end) eqn:Hk; [done|].
  destruct (execution_conflict m result proof v) eqn:Hcf; [done|]. cbn [fst].
  apply execution_conflict_false in Hcf as (Hx&Hxp&Hxh).
  destruct (inv_messages _ Hi _ _ Hm) as [Hsrc Hex Hack Hdis].
  set (m' := with_execution _ _ _ _). set (p' := set_facts _ _ _).
  assert (same_setup p p') as Hs by done.
  assert (∀ other, keys_kept p p' other) as Hkk by (intros other; by eapply keys_kept_insert).
  assert (m_Execution m = None → m_Acknowledgement m = None) as Hna.
  { intros Hn. revert Hex. unfold execution_authentic. rewrite Hn.
    destruct (m_ExecutionProof m); [done|]. by intros [_ ?]. }
  eapply (inv_update p p' (er_MessageId result) m'); try done. split.
  - destruct Hsrc as (env&prf&?&?&?&?&?&?&Hck&Hkey). exists env, prf.
    split_and!; try done. by apply Hkk.
  - unfold execution_authentic. cbn. split; [done|]. split; [|by rewrite lookup_insert_eq].
    exists envelope. split; [done|].
    rewrite (execution_check_later before p p' _ _ _ _ m Hb Hi Hbp Hs Hc Hm He).
    + destruct v as [h f]. cbn. pose proof (ea_final _ _ _ _ _ Ha) as Hf. cbn in Hf. by subst.
    + unfold p'. cbn. by rewrite lookup_insert_eq.
  - intros a Hac. cbn in Hac. destruct Hx as [Hx|Hx]; [by rewrite Hna in Hac|].
    destruct (Hack a Hac) as (Hl&Hid&Hmt&Hv). split; [done|]. split; [done|]. split; [|done].
    revert Hmt. unfold acknowledgement_matches. cbn. rewrite Hx. by destruct Hxp as [-> | ->].
  - revert Hdis. unfold dispute_authentic. cbn.
    destruct (m_Disputed m), (m_Reorganization m) as [e|], (m_Incident m) as [i|]; try done.
    intros (config&hash&index&route&env&Hrc&Hix&Haf&Hrest).
    exists config, hash, index, route, env. rewrite <- (reorganization_check_ext p p') by done.
    split; [done|]. split; [done|]. split; [|done]. destruct Haf as [Haf|Haf]; [by left|right].
    revert Haf Hex. unfold executionAffected, execution_authentic. cbn.
    destruct Hx as [Hx|Hx]; rewrite Hx; [by rewrite andb_false_r|].
    destruct Hxp as [Hxp|Hxp]; rewrite Hxp; [done|]. intros Haf (_&(env'&_&Hc')&_).
    apply execution_check_Ok, ea_evidence in Hc'. destruct Hxh as [|<-]; done.
Qed.

Lemma ProjectExecution_inv before result proof p :
  inv before → inv p → same_setup before p → inv (ProjectExecution before result proof p).1.
Proof.
  intros Hb Hi Hbp. unfold ProjectExecution.
  destruct result as [result|]; [|done]. destruct proof as [proof|]; [|done].
  destruct (execution_check before result proof) as [[envelope v]|err] eqn:Hc; [|done].
  by apply (execution_commit_inv before).
Qed.

Lemma ProjectAcknowledgement_inv acknowledgement p :
  inv p → inv (ProjectAcknowledgement acknowledgement p).1.
Proof.
  intros Hi. unfold ProjectAcknowledgement. destruct acknowledgement as [a|]; [|done].
  match goal with |- inv (if ?g then _ else _).1 => destruct g eqn:Hg; [done|] end.
  destruct (VerifyAcknowledgement (verifier p) a) as [v|] eqn:Hv; [|done].
  destruct (negb (Final v) || is_zero32 (CanonicalEvidenceHash v)) eqn:Hf; [done|].
  destruct (messages p !! ak_MessageId a) as [m|] eqn:Hm; [|done].
  destruct (negb (acknowledgement_matches a m)) eqn:Hma; [done|].
  match goal with |- inv (if ?g then _ else _).1 => destruct g eqn:Hac; [done|] end. cbn [fst].
  bool_facts. destruct (inv_messages _ Hi _ _ Hm) as [Hsrc Hex _ Hdis].
  set (p' := set_messages _ _). assert (same_setup p p') as Hs by done.
  eapply (inv_update p p' (ak_MessageId a) (with_acknowledgement a m)); try done;
    [by intros ???|]. split.
  - destruct Hsrc as (env&prf&?&?&?&?&?&?&Hck&Hkey). by exists env, prf.
  - revert Hex Hma. unfold execution_authentic, acknowledgement_matches. cbn.
    destruct (m_Execution m) as [result|], (m_ExecutionProof m) as [xp|]; try done.
    intros (Hrid&(env&He'&Hxc)&Hxk) _. split; [done|]. split; [|done]. exists env. split; [done|].
    rewrite <- (execution_check_ext p p'); [done..|]. rewrite Hrid, Hm.
    unfold p'. cbn. by rewrite lookup_insert_eq.
  - intros a' [= <-]. split; [by apply Nat.eqb_eq|]. split; [done|]. split; [done|]. by exists v.
  - revert Hdis. unfold dispute_authentic. cbn.
    destruct (m_Disputed m), (m_Reorganization m) as [e|], (m_Incident m) as [i|]; try done.
Qed.

(** ** Reorganizations *)

(** A message the first loop lets pass. *)
Definition affected_ok (config : ChainConfig) (e : ReorganizationEvidence) (index : nat)
    (policy : string) (m : MessageProjection) : Prop :=
  (∃ envelope, m_Envelope m = Some envelope ∧ fixedBytes32 (RoutePolicyHash envelope) = policy) ∧
  (if m_Disputed m then m_Reorganization m = Some e
   else sourceAffected config e index m = true ∨ executionAffected config e index m = true).

Lemma affected_loop_Ok config e ids index policy0 p policy :
  affected_loop config e ids index policy0 p = Ok policy →
  (index ≠ 0%nat ∨ ids = [] → policy = policy0) ∧
  ∀ i id, ids !! i = Some id →
    ∃ m, messages p !! id = Some m ∧ affected_ok config e (index + i) policy m.
Proof.
  revert index policy0. induction ids as [|id ids IH]; intros index policy0; cbn.
  { intros [= ->]. by split. }
  destruct (messages p !! id) as [m|] eqn:Hm; [|done].
  destruct (m_Envelope m) as [envelope|] eqn:He; [|done].
  set (current := fixedBytes32 (RoutePolicyHash envelope)).
  destruct (negb (index =? 0)%nat && (current <>s policy0)) eqn:Hp; [done|]. intros Hl.
  assert (affected_loop config e ids (S index) current p = Ok policy ∧
    (if m_Disputed m then m_Reorganization m = Some e
     else sourceAffected config e index m = true ∨ executionAffected config e index m = true))
    as [Hrest Haf].
  { destruct (m_Disputed m).
    - destruct (bool_decide (m_Reorganization m = Some e)) eqn:Hr; [by bool_facts|done].
    - destruct (sourceAffected config e index m), (executionAffected config e index m); auto. done. }
  apply IH in Hrest as [Hpol Hall]. rewrite (Hpol (or_introl (Nat.neq_succ_0 _))) in Hall |- *.
  split.
  - intros [Hi|]; [|done]. rewrite (proj2 (Nat.eqb_neq _ _) Hi) in Hp. cbn in Hp. by bool_facts.
  - intros [|i] id'; cbn.
    + intros [= <-]. exists m. rewrite Nat.add_0_r. split; [done|]. split; [by exists envelope|done].
    + intros Hid. rewrite <- Nat.add_succ_comm. by apply Hall.
Qed.

(** The converse: messages that all pass make the loop succeed. *)
Lemma affected_loop_complete config e policy ids index policy0 p :
  (∀ i id, ids !! i = Some id →
     ∃ m, messages p !! id = Some m ∧ affected_ok config e (index + i) policy m) →
  (index ≠ 0%nat → policy0 = policy) →
  affected_loop config e ids index policy0 p = Ok (if decide (ids = []) then policy0 else policy).
Proof.
  revert index policy0. induction ids as [|id ids IH]; intros index policy0 Hall Hpol; cbn [affected_loop].
  { by rewrite decide_True. }
  destruct (Hall 0%nat id eq_refl) as (m&->&(env&->&->)&Hok). rewrite Nat.add_0_r in Hok.
  assert (negb (index =? 0)%nat && (policy <>s policy0) = false) as ->.
  { destruct (index =? 0)%nat eqn:Hz; [done|]. apply Nat.eqb_neq in Hz. rewrite Hpol by done. cbn.
    by rewrite String.eqb_refl. }
  assert (affected_loop config e ids (S index) policy p = Ok policy) as Hrest.
  { rewrite IH; [by destruct (decide _)| |done]. intros i id' Hi. rewrite Nat.add_succ_comm.
    by apply (Hall (S i)). }
  rewrite (decide_False (P := id :: ids = [])) by done.
  destruct (m_Disputed m); [by rewrite bool_decide_true by done|].
  destruct (sourceAffected config e index m), (executionAffected config e index m); try done.
  by destruct Hok.
Qed.

Lemma dispute_idemp e incident m : dispute e incident (dispute e incident m) = dispute e incident m.
Proof. unfold dispute at 2 3. destruct (m_Disputed m) eqn:Hd; [|done]. unfold dispute. by rewrite Hd. Qed.

Lemma mark_loop_messages e incident ids ms k :
  (∀ id, id ∈ ids → is_Some (ms !! id)) →
  (mark_loop e incident ids ms).1 !! k =
    if decide (k ∈ ids) then dispute e incident <$> ms !! k else ms !! k.
Proof.
  revert ms. induction ids as [|id ids IH]; intros ms Hin; cbn [mark_loop]; [done|].
  destruct (mark_loop e incident ids _) as [ms' affected] eqn:Hl. cbn [fst].
  destruct (Hin id (list_elem_of_here _ _)) as [m Hm]. rewrite (lookup_zero_Some _ _ _ _ Hm) in Hl.
  assert ((mark_loop e incident ids (<[id := dispute e incident m]> ms)).1 = ms') as <- by by rewrite Hl.
  rewrite IH.
  - destruct (decide (k = id)) as [->|Hne].
    + rewrite lookup_insert_eq, Hm. cbn. rewrite dispute_idemp.
      rewrite (decide_True (P := id ∈ id :: ids)) by apply list_elem_of_here. by destruct (decide _).
    + rewrite lookup_insert_ne by done. destruct (decide (k ∈ ids)) as [Hk|Hk].
      * by rewrite decide_True by by apply list_elem_of_further.
      * rewrite decide_False; [done|]. by intros [->|]%elem_of_cons.
  - intros id' Hid'. destruct (decide (id' = id)) as [->|Hne]; [by rewrite lookup_insert_eq|].
    rewrite lookup_insert_ne by done. by apply Hin, list_elem_of_further.
Qed.

Lemma mark_loop_affected e incident ids ms :
  (∀ id, id ∈ ids → is_Some (ms !! id)) →
  (mark_loop e incident ids ms).2 = (λ id, dispute e incident (lookup_zero zero_projection ms id)) <$> ids.
Proof.
  revert ms. induction ids as [|id ids IH]; intros ms Hin; cbn [mark_loop]; [done|].
  destruct (mark_loop e incident ids _) as [ms' affected] eqn:Hl. cbn [snd]. rewrite fmap_cons. f_equal.
  destruct (Hin id (list_elem_of_here _ _)) as [m Hm]. rewrite (lookup_zero_Some _ _ _ _ Hm) in Hl.
  apply (f_equal snd) in Hl. cbn [snd] in Hl. rewrite <- Hl, IH.
  - apply list_fmap_ext. intros i id' Hid'%list_elem_of_lookup_2.
    destruct (decide (id' = id)) as [->|Hne]; unfold lookup_zero.
    + rewrite lookup_insert_eq, Hm. cbn. by rewrite dispute_idemp.
    + by rewrite lookup_insert_ne.
  - intros id' Hid'. destruct (decide (id' = id)) as [->|Hne]; [by rewrite lookup_insert_eq|].
    rewrite lookup_insert_ne by done. by apply Hin, list_elem_of_further.
Qed.

(** What an accepted report does: the named messages, all present and all orphaned by the
    report, are marked; nothing else changes. *)
Record reorganized (p p' : Projector) (e : ReorganizationEvidence) (incident : Incident)
    (affected : list MessageProjection) : Prop := {
  rg_check : ∃ config hash policy,
    reorganization_check p e = Ok (config, hash) ∧
    (∀ i id, ro_AffectedMessageIds e !! i = Some id →
       ∃ m, messages p !! id = Some m ∧ affected_ok config e i policy m) ∧
    incident = incident_of e hash (lookup_zero ""%string (routes p) policy) ∧
    lookup_zero ""%string (routes p) policy ≠ "";
  rg_messages : ∀ k, messages p' !! k =
    if decide (k ∈ ro_AffectedMessageIds e) then dispute e incident <$> messages p !! k
    else messages p !! k;
  rg_affected : affected =
    (λ id, lookup_zero zero_projection (messages p') id) <$> ro_AffectedMessageIds e;
  rg_chains : chains p' = chains p;
  rg_events : eventIDs p' = eventIDs p;
  rg_routes : routes p' = routes p;
  rg_verifier : verifier p' = verifier p }.

Lemma ProjectReorganization_Ok evidence p p' incident affected :
  ProjectReorganization evidence p = (p', Ok (incident, affected)) →
  ∃ e, evidence = Some e ∧ reorganized p p' e incident affected.
Proof.
  unfold ProjectReorganization. destruct evidence as [e|]; [|done].
  destruct (reorganization_check p e) as [[config hash]|] eqn:Hc; [|done].
  unfold reorganization_commit.
  destruct (affected_loop _ _ _ _ _ _) as [policy|] eqn:Hl; [|done].
  apply affected_loop_Ok in Hl as [_ Hall]. cbn [Nat.add] in Hall.
  set (inc := incident_of e hash _). destruct (empty_s _) eqn:Hr; [done|].
  destruct (mark_loop _ _ _ _) as [ms aff] eqn:Hk. intros [= <- <- <-]. exists e. split; [done|].
  assert (∀ id, id ∈ ro_AffectedMessageIds e → is_Some (messages p !! id)) as Hin.
  { intros id [i Hi]%list_elem_of_lookup. destruct (Hall _ _ Hi) as (m&Hm&_). by exists m. }
  pose proof (λ k, mark_loop_messages e inc _ _ k Hin) as Hms. rewrite Hk in Hms.
  pose proof (mark_loop_affected e inc _ _ Hin) as Haf. rewrite Hk in Haf.
  split; try done.
  - exists config, hash, policy. split; [done|]. split; [done|]. split; [done|].
    by apply String.eqb_neq.
  - cbn in *. rewrite Haf. apply list_fmap_ext. intros i id Hi%list_elem_of_lookup_2.
    unfold lookup_zero. rewrite Hms, decide_True by done. by destruct (Hin _ Hi) as [m ->].
Qed.

Lemma ProjectReorganization_Err evidence p p' err :
  ProjectReorganization evidence p = (p', Err err) → p' = p.
Proof.
  unfold ProjectReorganization. destruct evidence as [e|]; [|by intros [= <- _]].
  destruct (reorganization_check p e) as [[config hash]|]; [|by intros [= <- _]].
  unfold reorganization_commit. destruct (affected_loop _ _ _ _ _ _); [|by intros [= <- _]].
  destruct (empty_s _); [by intros [= <- _]|]. by destruct (mark_loop _ _ _ _).
Qed.

Lemma executionAffected_without config e index m :
  executionAffected config e index m = true →
  executionAffected config e index (without_acknowledgement m) = true.
Proof.
  unfold executionAffected. cbn. intros Ha. apply andb_true_iff in Ha as [Ha ->].
  apply andb_true_iff in Ha as [-> _]. done.
Qed.

Lemma dispute_authentic_step p p' e incident affected id m :
  reorganized p p' e incident affected → id ∈ ro_AffectedMessageIds e →
  messages p !! id = Some m → authentic p id m → authentic p' id (dispute e incident m).
Proof.
  intros [Hc Hms Haf Hch Hev Hro Hve] Hid Hm [Hsrc Hex Hack Hdis].
  assert (same_setup p p') as Hs by by split.
  assert (messages p' !! id = Some (dispute e incident m)) as Hm' by by rewrite Hms, decide_True, Hm.
  unfold dispute in Hm' |- *. destruct (m_Disputed m) eqn:Hd.
  { apply (authentic_frame p); try done; [by rewrite Hro|]. intros key. by rewrite Hev. }
  destruct Hc as (config&hash&policy&Hc&Hall&Hinc&Hroute).
  apply list_elem_of_lookup in Hid as [i Hi]. destruct (Hall _ _ Hi) as (m2&Hm2&(env&He&Hpol)&Hok).
  simplify_eq. rewrite Hd in Hok. split.
  - destruct Hsrc as (env'&prf&?&?&?&?&?&?&Hck&Hkey). exists env', prf.
    rewrite <- (source_check_ext p p') by done. by rewrite Hev.
  - revert Hex. unfold execution_authentic. cbn.
    destruct (m_Execution m) as [result|], (m_ExecutionProof m) as [xp|]; try done.
    intros (Hrid&(env'&He'&Hxc)&Hxk). split; [done|]. rewrite Hev. split; [|done].
    exists env'. split; [done|]. rewrite <- (execution_check_ext p p'); [done..|].
    by rewrite Hrid, Hm, Hm'.
  - intros a Ha. destruct (Hack a Ha) as (?&?&?&Hv). by rewrite Hve.
  - unfold dispute_authentic. cbn.
    exists config, hash, i, (lookup_zero ""%string (routes p) (fixedBytes32 (RoutePolicyHash env))), env.
    rewrite <- (reorganization_check_ext p p') by done. split; [done|]. split; [done|]. split.
    + destruct Hok as [Hok|Hok]; [by left|right]. by apply executionAffected_without.
    + split; [done|]. rewrite Hro. split; [|done]. revert Hroute. unfold lookup_zero.
      by destruct (routes p !! _).
Qed.

Lemma ProjectReorganization_inv evidence p :
  inv p → inv (ProjectReorganization evidence p).1.
Proof.
  intros Hi. destruct (ProjectReorganization evidence p) as [p' [[incident affected]|err]] eqn:Hp;
    cbn [fst]; [|by apply ProjectReorganization_Err in Hp as ->].
  apply ProjectReorganization_Ok in Hp as (e&_&Hr). pose proof Hr as [Hc Hms Haf Hch Hev Hro Hve].
  split.
  - rewrite Hch. apply Hi.
  - rewrite Hch. apply Hi.
  - rewrite Hro. apply Hi.
  - intros id m'. rewrite Hms. destruct (decide _) as [Hin|Hin].
    + intros (m&Hm&->)%fmap_Some. apply (dispute_authentic_step p p' e incident affected); try done.
      by apply (inv_messages _ Hi).
    + intros Hm. apply (authentic_frame p); [by split|by rewrite Hro| |done| |by apply Hi].
      * intros key. by rewrite Hev.
      * by rewrite Hms, decide_False.
Qed.

(** ** Routes, removal, construction *)

Lemma BindRoute_inv routeID policyHash p : inv p → inv (BindRoute routeID policyHash p).1.
Proof.
  intros Hi. unfold BindRoute.
  destruct (empty_s routeID || is_zero32 policyHash) eqn:Hg; [done|]. bool_facts.
  assert (routes p !! policyHash = None ∨ routes p !! policyHash = Some routeID →
    inv (mkProjector (chains p) (messages p) (eventIDs p) (<[policyHash := routeID]> (routes p))
           (verifier p))) as Hgo.
  { intros Hr. split; [apply Hi|apply Hi| |].
    - intros k r. cbn. intros [[<- <-]|[_ Hk]]%lookup_insert_Some; [done|]. by apply (inv_routes _ Hi).
    - intros id m Hm. apply (authentic_frame p); try done; [|by intros ?|by apply Hi]. cbn.
      destruct Hr as [Hr|Hr]; [by apply insert_subseteq|by rewrite insert_id]. }
  destruct (routes p !! policyHash) as [existing|] eqn:Hr; [|by apply Hgo; left].
  destruct (existing <>s routeID) eqn:Hx; [done|]. bool_facts. subst. by apply Hgo; right.
Qed.

Lemma RemovePreFinality_inv chainID transactionHash logIndex p :
  inv p → inv (RemovePreFinality chainID transactionHash logIndex p).1.
Proof.
  intros Hi. unfold RemovePreFinality. set (key := event_key _ _ _).
  destruct (eventIDs p !! key) as [id|] eqn:Hk; [|done].
  destruct (m_SourceFinal _) eqn:Hf; [done|]. cbn [fst].
  split; [apply Hi..|]. intros id' m. cbn. intros [Hne Hm]%lookup_delete_Some.
  apply (authentic_frame p); try done; [| |by apply Hi].
  - intros k Hk'. cbn. rewrite lookup_delete_ne; [done|]. intros <-. congruence.
  - cbn. by rewrite lookup_delete_ne.
Qed.

Lemma add_chains_Ok configs acc m :
  add_chains configs acc = Ok m →
  (∀ k c, m !! k = Some c ↔ acc !! k = Some c ∨ (c ∈ configs ∧ cc_ChainID c = k)) ∧
  (∀ c, c ∈ configs → config_ok c = true) ∧ size m = (size acc + length configs)%nat.
Proof.
  revert acc. induction configs as [|config rest IH]; intros acc; cbn [add_chains].
  { intros [= ->]. split; [|split; [by intros c ?%not_elem_of_nil|cbn; lia]].
    intros k c. rewrite elem_of_nil. naive_solver. }
  pass_if Hok. pass_if Hk. intros (Hl&Hall&Hsz)%IH. bool_facts.
  assert (acc !! cc_ChainID config = None) as Hn.
  { destruct (acc !! cc_ChainID config) eqn:He; [|done].
    rewrite (proj2 (has_key_true _ _)) in Hk by by rewrite He. done. }
  split; [|split].
  - intros k c. rewrite Hl, lookup_insert_Some, elem_of_cons. split.
    + intros [[[<- <-]|[_ ?]]|[? ?]]; auto.
    + intros [Ha|[[->|?] <-]]; [left; right|auto|auto]. split; [congruence|done].
  - intros c [->|?]%elem_of_cons; auto.
  - rewrite Hsz, map_size_insert_None by done. cbn. lia.
Qed.

Lemma add_chains_complete configs acc :
  (∀ c, c ∈ configs → config_ok c = true ∧ acc !! cc_ChainID c = None) → NoDup (cc_ChainID <$> configs) →
  ∃ m, add_chains configs acc = Ok m.
Proof.
  revert acc. induction configs as [|config rest IH]; intros acc Hall Hnd; [by exists acc|].
  rewrite fmap_cons in Hnd. apply NoDup_cons in Hnd as [Hn Hnd]. cbn [add_chains].
  destruct (Hall config (list_elem_of_here _ _)) as [-> Hacc]. cbn [negb].
  assert (has_key acc (cc_ChainID config) = false) as ->.
  { apply has_key_false. done. }
  apply IH; [|done]. intros c Hc. destruct (Hall c (list_elem_of_further _ _ _ Hc)) as [Hok Ha].
  split; [done|]. rewrite lookup_insert_ne; [done|]. intros He. apply Hn. rewrite He.
  by apply list_elem_of_fmap_2.
Qed.

Lemma NewProjector_Ok v configs p :
  NewProjector v configs = Ok p →
  inv p ∧ messages p = ∅ ∧ eventIDs p = ∅ ∧ routes p = ∅ ∧ v = Some (verifier p) ∧
  ∀ k c, chains p !! k = Some c ↔ c ∈ configs ∧ cc_ChainID c = k.
Proof.
  unfold NewProjector. destruct v as [v|]; [|done]. pass_if Hlen.
  destruct (add_chains configs ∅) as [m|] eqn:Ha; [|done]. intros [= <-]. cbn.
  apply add_chains_Ok in Ha as (Hl&Hok&Hsz).
  assert (∀ k c, m !! k = Some c ↔ c ∈ configs ∧ cc_ChainID c = k) as Hl'.
  { intros k c. rewrite Hl, lookup_empty. naive_solver. }
  split; [|by split_and!]. split; cbn.
  - intros k c [Hc <-]%Hl'. auto.
  - rewrite Hsz, map_size_empty. apply Nat.ltb_ge in Hlen. lia.
  - intros k r. by rewrite lookup_empty.
  - intros id m'. by rewrite lookup_empty.
Qed.

(** * Frames and growth *)

(** The later projection keeps every fact of the earlier one. *)
Record extends (m m' : MessageProjection) : Prop := {
  ex_identity : m_MessageID m' = m_MessageID m ∧ m_SourceChainID m' = m_SourceChainID m ∧
    m_DestinationChainID m' = m_DestinationChainID m ∧ m_Envelope m' = m_Envelope m ∧
    m_SourceProof m' = m_SourceProof m ∧ m_SourceEvidenceHash m' = m_SourceEvidenceHash m;
  ex_final : m_SourceFinal m = true →
    m_SourceFinal m' = true ∧ m_SourceFinalityCertificate m' = m_SourceFinalityCertificate m;
  ex_execution : m_Execution m = None ∨
    m_Execution m' = m_Execution m ∧ m_ExecutionProof m' = m_ExecutionProof m ∧
    m_ExecutionEvidenceHash m' = m_ExecutionEvidenceHash m;
  ex_acknowledgement : m_Acknowledgement m = None ∨ m_Acknowledgement m' = m_Acknowledgement m;
  ex_dispute : m_Disputed m = false ∨
    m_Disputed m' = true ∧ m_Reorganization m' = m_Reorganization m ∧ m_Incident m' = m_Incident m }.

#[export] Instance extends_preorder : PreOrder extends.
Proof.
  split.
  - intros m. split; auto 6. destruct (m_Disputed m); auto.
  - intros m1 m2 m3 [(?&?&?&?&?&?) Hf1 He1 Ha1 Hd1] [(?&?&?&?&?&?) Hf2 He2 Ha2 Hd2]. split.
    + split_and!; congruence.
    + intros [Hf Hc]%Hf1. apply Hf2 in Hf as [? ?]. split; congruence.
    + destruct He1 as [?|(Hx1&Hp1&Hh1)]; [by left|].
      destruct He2 as [Hn|(Hx2&Hp2&Hh2)]; [left|right; split_and!]; congruence.
    + destruct Ha1 as [?|Ha1]; [by left|]. destruct Ha2; [left|right]; congruence.
    + destruct Hd1 as [?|(Hd1&Hr1&Hi1)]; [by left|].
      destruct Hd2 as [?|(Hd2&Hr2&Hi2)]; [congruence|right; split_and!]; congruence.
Qed.

(** The configuration is kept, and every message that the filter selects is extended. *)
Record grows (keep : MessageProjection → Prop) (p p' : Projector) : Prop := {
  gr_setup : same_setup p p';
  gr_messages : ∀ id m, messages p !! id = Some m → keep m →
    ∃ m', messages p' !! id = Some m' ∧ extends m m' }.

Definition any (m : MessageProjection) : Prop := True.
Definition final (m : MessageProjection) : Prop := m_SourceFinal m = true.

Lemma grows_refl keep p : grows keep p p.
Proof. split; [done|]. intros id m Hm _. by exists m. Qed.

(** A branch that returns the state it was given. *)
Ltac unchanged := split; [apply grows_refl|done].

Lemma grows_weaken (keep : MessageProjection → Prop) p p' : grows any p p' → grows keep p p'.
Proof. intros [Hs Hg]. split; [done|]. intros id m Hm _. by apply Hg. Qed.

Lemma grows_trans p1 p2 p3 : grows final p1 p2 → grows final p2 p3 → grows final p1 p3.
Proof.
  intros [[Hc1 Hv1] Hg1] [[Hc2 Hv2] Hg2]. split; [split; congruence|]. intros id m Hm Hf.
  destruct (Hg1 _ _ Hm Hf) as (m2&Hm2&He2). destruct (ex_final _ _ He2 Hf) as [Hf2 _].
  destruct (Hg2 _ _ Hm2 Hf2) as (m3&Hm3&He3). exists m3. split; [done|]. by etrans.
Qed.

(** Rewriting one message by an extension, or adding one. *)
Lemma grows_insert p p' id m' :
  same_setup p p' → messages p' = <[id := m']> (messages p) →
  (∀ m, messages p !! id = Some m → extends m m') → grows any p p'.
Proof.
  intros Hs Hm He. split; [done|]. intros id' m Hl _. rewrite Hm.
  destruct (decide (id' = id)) as [->|Hne].
  - exists m'. rewrite lookup_insert_eq. auto.
  - exists m. by rewrite lookup_insert_ne.
Qed.

Lemma ProjectSource_grows envelope proof certificate p :
  grows any p (ProjectSource envelope proof certificate p).1 ∧
  routes (ProjectSource envelope proof certificate p).1 = routes p.
Proof.
  unfold ProjectSource. destruct envelope as [envelope|]; [|unchanged].
  destruct proof as [proof|]; [|unchanged].
  destruct (source_check _ _ _ _) as [v|]; [|unchanged]. unfold source_commit.
  destruct (match eventIDs p !! _ with Some _ => _ | None => _ end); [unchanged|].
  destruct (messages p !! MessageId envelope) as [m|] eqn:Hm.
  - destruct (source_conflict _ _ _ _ _); [unchanged|].
    destruct (Final v && negb (m_SourceFinal m)) eqn:Hf; [|unchanged].
    split; [|done]. eapply grows_insert; [done..|]. rewrite Hm; intros ? [= <-].
    apply andb_true_iff in Hf as [_ Hf]. bool_facts.
    split; cbn; auto 6; [congruence|]. destruct (m_Disputed m); auto.
  - split; [|done]. eapply grows_insert; [done..|]. by rewrite Hm.
Qed.

Lemma ProjectExecution_grows before result proof p :
  inv p → grows any p (ProjectExecution before result proof p).1 ∧
  routes (ProjectExecution before result proof p).1 = routes p.
Proof.
  intros Hi. unfold ProjectExecution. destruct result as [result|]; [|unchanged].
  destruct proof as [proof|]; [|unchanged].
  destruct (execution_check _ _ _) as [[envelope v]|]; [|unchanged].
  unfold execution_commit.
  destruct (messages p !! er_MessageId result) as [m|] eqn:Hm; [|unchanged].
  destruct (negb _); [unchanged|].
  destruct (match eventIDs p !! _ with Some _ => _ | None => _ end); [unchanged|].
  destruct (execution_conflict m result proof v) eqn:Hcf; [unchanged|].
  split; [|done]. eapply grows_insert; [done..|]. rewrite Hm; intros ? [= <-].
  apply execution_conflict_false in Hcf as (Hx&Hxp&Hxh).
  split; cbn; auto 6; [|destruct (m_Disputed m); auto].
  destruct Hx as [Hx|Hx]; [by left|right].
  pose proof (au_execution _ _ _ (inv_messages _ Hi _ _ Hm)) as Hex. revert Hex.
  unfold execution_authentic. rewrite Hx. destruct Hxp as [-> | ->]; [done|].
  intros (_&(env&_&Hc)&_). apply execution_check_Ok, ea_evidence in Hc.
  destruct Hxh as [?|Hxh]; [done|]. auto.
Qed.

Lemma ProjectAcknowledgement_grows acknowledgement p :
  grows any p (ProjectAcknowledgement acknowledgement p).1 ∧
  routes (ProjectAcknowledgement acknowledgement p).1 = routes p.
Proof.
  unfold ProjectAcknowledgement. destruct acknowledgement as [a|]; [|unchanged].
  match goal with |- context [if ?g then (p, _) else _] => destruct g; [unchanged|] end.
  destruct (VerifyAcknowledgement _ a) as [v|]; [|unchanged].
  match goal with |- context [if ?g then (p, _) else _] => destruct g; [unchanged|] end.
  destruct (messages p !! ak_MessageId a) as [m|] eqn:Hm; [|unchanged].
  destruct (negb _); [unchanged|].
  destruct (bool_decide (is_Some _) && _) eqn:Hac; [unchanged|].
  split; [|done]. eapply grows_insert; [done..|]. rewrite Hm; intros ? [= <-].
  split; cbn; auto 6; [|destruct (m_Disputed m); auto].
  destruct (m_Acknowledgement m) as [a2|]; [right|by left]. cbn in Hac. by bool_facts.
Qed.

Lemma dispute_extends e incident m : extends m (dispute e incident m).
Proof. unfold dispute. destruct (m_Disputed m) eqn:Hd; [done|]. split; cbn; auto 6. Qed.

Lemma ProjectReorganization_grows evidence p :
  grows any p (ProjectReorganization evidence p).1 ∧
  routes (ProjectReorganization evidence p).1 = routes p.
Proof.
  destruct (ProjectReorganization evidence p) as [p' [[incident affected]|err]] eqn:Hp; cbn [fst].
  - apply ProjectReorganization_Ok in Hp as (e&_&[Hc Hms Haf Hch Hev Hro Hve]). split; [|done].
    split; [done|]. intros id m Hm _. rewrite Hms, Hm. destruct (decide _); cbn; eexists; split; eauto.
    + apply dispute_extends.
    + done.
  - apply ProjectReorganization_Err in Hp as ->. unchanged.
Qed.

Lemma BindRoute_grows routeID policyHash p : grows any p (BindRoute routeID policyHash p).1.
Proof.
  unfold BindRoute. repeat case_match; try apply grows_refl; (split; [done|]);
    intros id m Hm _; by exists m.
Qed.

Lemma RemovePreFinality_grows chainID transactionHash logIndex p :
  grows final p (RemovePreFinality chainID transactionHash logIndex p).1.
Proof.
  unfold RemovePreFinality. destruct (eventIDs p !! _) as [id|]; [|apply grows_refl].
  destruct (m_SourceFinal _) eqn:Hf; [apply grows_refl|]. split; [done|]. intros id' m Hm Hfin.
  exists m. split; [|done]. cbn. rewrite lookup_delete_ne; [done|]. intros ->.
  rewrite (lookup_zero_Some _ _ _ _ Hm) in Hf. unfold final in Hfin. congruence.
Qed.

(** * Restoration *)

Lemma BindRoute_Ok routeID policyHash p p' :
  BindRoute routeID policyHash p = (p', Ok ()) →
  p' = mkProjector (chains p) (messages p) (eventIDs p) (<[policyHash := routeID]> (routes p))
         (verifier p) ∧
  (∀ r, routes p !! policyHash = Some r → r = routeID).
Proof.
  unfold BindRoute. destruct (empty_s routeID || is_zero32 policyHash); [done|].
  destruct (routes p !! policyHash) as [existing|] eqn:Hr.
  - destruct (existing <>s routeID) eqn:Hx; [done|]. bool_facts. intros [= <-]. split; [done|].
    by intros r [= <-].
  - by intros [= <-].
Qed.

Lemma bind_routes_Ok bindings p p' :
  bind_routes bindings p = Ok p' →
  (inv p → inv p') ∧ same_setup p p' ∧ messages p' = messages p ∧ eventIDs p' = eventIDs p ∧
  ∀ k r, routes p' !! k = Some r ↔ routes p !! k = Some r ∨ (k, r) ∈ bindings.
Proof.
  revert p. induction bindings as [|[policy route] rest IH]; intros p; cbn [bind_routes].
  { intros [= ->]. split_and!; try done. intros k r. rewrite elem_of_nil. naive_solver. }
  destruct (BindRoute route policy p) as [p2 [[]|]] eqn:Hb; [|done].
  intros (Hi&[Hc Hv]&Hm&He&Hr)%IH. pose proof (BindRoute_inv route policy p) as Hbi.
  rewrite Hb in Hbi. apply BindRoute_Ok in Hb as [-> Hx]. cbn in *. split_and!; auto; [by split|].
  intros k r. rewrite Hr, lookup_insert_Some, elem_of_cons. split.
  - intros [[[-> ->]|[_ ?]]|?]; auto.
  - intros [Hk|[Heq|?]]; [|injection Heq as -> ->; auto|auto].
    destruct (decide (policy = k)) as [->|Hne]; [|auto]. left; left. split; [done|].
    symmetry. by apply Hx.
Qed.

(** A state between the two locks: well formed, with the configuration and the routes. *)
Definition rebuilding (before p : Projector) : Prop :=
  inv p ∧ same_setup before p ∧ routes p = routes before.

Lemma rebuilding_step before p p' :
  rebuilding before p → (inv p → inv p') → grows any p p' ∧ routes p' = routes p → rebuilding before p'.
Proof.
  intros (Hi&[Hc Hv]&Hr) Hi' [[[Hc' Hv'] _] Hr']. split; [auto|]. split; [split|]; congruence.
Qed.

Lemma replay_sources_rebuilding before snapshot p p' :
  replay_sources snapshot p = Ok p' → rebuilding before p → rebuilding before p'.
Proof.
  revert p. induction snapshot as [|m rest IH]; intros p; cbn [replay_sources]; [by intros [= ->]|].
  pose proof (ProjectSource_grows (m_Envelope m) (m_SourceProof m) (m_SourceFinalityCertificate m) p) as Hg.
  pose proof (ProjectSource_inv (m_Envelope m) (m_SourceProof m) (m_SourceFinalityCertificate m) p) as Hi.
  destruct (ProjectSource _ _ _ p) as [p2 [actual|]]; [|done]. pass_if Hc. intros Hl Hb.
  apply (IH p2 Hl). by apply (rebuilding_step before p).
Qed.

Lemma replay_executions_rebuilding before snapshot p p' :
  replay_executions snapshot p = Ok p' → rebuilding before p → rebuilding before p'.
Proof.
  revert p. induction snapshot as [|m rest IH]; intros p; cbn [replay_executions]; [by intros [= ->]|].
  destruct (m_Execution m) as [result|]; [|apply IH].
  pose proof (ProjectExecution_grows p (Some result) (m_ExecutionProof m) p) as Hg.
  pose proof (ProjectExecution_inv p (Some result) (m_ExecutionProof m) p) as Hi.
  destruct (ProjectExecution _ _ _ p) as [p2 [actual|]]; [|done]. pass_if Hc. intros Hl Hb.
  apply (IH p2 Hl). pose proof Hb as [Hp _].
  apply (rebuilding_step before p); [done| |by apply Hg]. intros _. by apply Hi.
Qed.

Lemma replay_acknowledgements_rebuilding before snapshot p p' :
  replay_acknowledgements snapshot p = Ok p' → rebuilding before p → rebuilding before p'.
Proof.
  revert p. induction snapshot as [|m rest IH]; intros p; cbn [replay_acknowledgements]; [by intros [= ->]|].
  destruct (m_Acknowledgement m) as [a|]; [|apply IH].
  pose proof (ProjectAcknowledgement_grows (Some a) p) as Hg.
  pose proof (ProjectAcknowledgement_inv (Some a) p) as Hi.
  destruct (ProjectAcknowledgement _ p) as [p2 [actual|]]; [|done]. intros Hl Hb.
  apply (IH p2 Hl). by apply (rebuilding_step before p).
Qed.

Lemma replay_reorganizations_rebuilding before evidence p p' :
  replay_reorganizations evidence p = Ok p' → rebuilding before p → rebuilding before p'.
Proof.
  revert p. induction evidence as [|e rest IH]; intros p; cbn [replay_reorganizations]; [by intros [= ->]|].
  pose proof (ProjectReorganization_grows (Some e) p) as Hg.
  pose proof (ProjectReorganization_inv (Some e) p) as Hi.
  destruct (ProjectReorganization _ p) as [p2 [actual|]]; [|done]. intros Hl Hb.
  apply (IH p2 Hl). by apply (rebuilding_step before p).
Qed.

(** The empty projector the loops start from. *)
Lemma rebuild_start before p1 p2 :
  inv before →
  NewProjector (Some (verifier before)) (sort_by cc_ChainID (snd <$> map_to_list (chains before))) = Ok p1 →
  bind_routes (sort_by fst (map_to_list (routes before))) p1 = Ok p2 →
  rebuilding before p2 ∧ messages p2 = ∅ ∧ eventIDs p2 = ∅.
Proof.
  intros Hi H1 H2. apply NewProjector_Ok in H1 as (Hi1&Hm1&He1&Hr1&[= Hv1]&Hch).
  apply bind_routes_Ok in H2 as (Hi2&[Hc2 Hv2]&Hm2&He2&Hr2).
  split; [|split; congruence]. split; [auto|]. split; [split; [|congruence]|].
  - rewrite <- Hc2. apply map_eq. intros k. apply option_eq. intros c. rewrite Hch.
    rewrite (sort_by_perm _ _), list_elem_of_fmap. split.
    + intros Hk. split; [|by apply (inv_chains _ Hi)]. exists (k, c). split; [done|].
      by apply elem_of_map_to_list.
    + intros [([k' c']&->&Hk)%id <-]. apply elem_of_map_to_list in Hk. cbn.
      by rewrite (proj1 (inv_chains _ Hi _ _ Hk)).
  - apply map_eq. intros k. apply option_eq. intros r.
    rewrite Hr2, Hr1, lookup_empty, (sort_by_perm _ _), elem_of_map_to_list. naive_solver.
Qed.

Lemma rebuild_rebuilding before snapshot p :
  inv before → rebuild before snapshot = Ok p → rebuilding before p.
Proof.
  intros Hi. unfold rebuild.
  destruct (NewProjector _ _) as [p1|] eqn:H1; [|done]. destruct (bind_routes _ p1) as [p2|] eqn:H2; [|done].
  destruct (replay_sources snapshot p2) as [p3|] eqn:H3; [|done].
  destruct (replay_executions snapshot p3) as [p4|] eqn:H4; [|done].
  destruct (replay_acknowledgements snapshot p4) as [p5|] eqn:H5; [|done].
  destruct (collect_reorganizations snapshot ∅) as [rs|] eqn:H6; [|done].
  destruct (replay_reorganizations _ p5) as [p6|] eqn:H7; [|done]. destruct (negb _); [done|]. intros [= ->].
  apply (replay_reorganizations_rebuilding _ _ _ _ H7), (replay_acknowledgements_rebuilding _ _ _ _ H5),
    (replay_executions_rebuilding _ _ _ _ H4), (replay_sources_rebuilding _ _ _ _ H3).
  by apply (rebuild_start before p1).
Qed.

Lemma RestoreSnapshot_inv before snapshot p :
  inv before → inv p → same_setup before p → inv (RestoreSnapshot before snapshot p).1.
Proof.
  intros Hb Hi [Hc Hv]. unfold RestoreSnapshot. destruct (negb _ || _); [done|].
  destruct (rebuild before snapshot) as [r|] eqn:Hr; [|done].
  destruct (negb _ || _ || _); [done|]. cbn [fst].
  apply rebuild_rebuilding in Hr as (Hir&[Hcr Hvr]&Hrr); [|done].
  rewrite <- Hc, <- Hv, Hcr, Hvr. by destruct r.
Qed.

Lemma RestoreSnapshot_grows before snapshot p :
  grows any p (RestoreSnapshot before snapshot p).1.
Proof.
  unfold RestoreSnapshot. destruct (negb _ || _); [apply grows_refl|].
  destruct (rebuild before snapshot) as [r|]; [|apply grows_refl].
  match goal with |- context [if ?g then _ else _] => destruct g eqn:Hg; [apply grows_refl|] end.
  split; [done|]. intros id m Hm _. apply orb_false_iff in Hg as [[Hg _]%orb_false_iff _].
  apply negb_false_iff, Nat.eqb_eq, map_size_empty_inv in Hg. rewrite Hg in Hm. by rewrite lookup_empty in Hm.
Qed.
End Authentic.
