(* ===== verification/ProjectorSafety.v ===== *)
(** The cross-chain projector: its runs, and the theorems about them. *)
From S2P Require Import Prelude GoStd CrossChainTypes Message Projector ProjectorInvariant.

Section Runs.
Context `{Keccak, ReorganizationCodec}.

(** A run with the states it has passed, the current one first. [ProjectExecution] and
    [RestoreSnapshot] read the state under a shared lock and write under an exclusive one:
    the state they read is any state passed so far. *)
Inductive reaches (start : Projector) : list Projector → Projector → Prop :=
  | reaches_start : reaches start [start] start
  | reaches_route h p routeID policyHash :
      reaches start h p →
      let p' := (BindRoute routeID policyHash p).1 in reaches start (p' :: h) p'
  | reaches_source h p envelope proof certificate :
      reaches start h p →
      let p' := (ProjectSource envelope proof certificate p).1 in reaches start (p' :: h) p'
  | reaches_execution h p before result proof :
      reaches start h p → before ∈ h →
      let p' := (ProjectExecution before result proof p).1 in reaches start (p' :: h) p'
  | reaches_acknowledgement h p acknowledgement :
      reaches start h p →
      let p' := (ProjectAcknowledgement acknowledgement p).1 in reaches start (p' :: h) p'
  | reaches_reorganization h p evidence :
      reaches start h p →
      let p' := (ProjectReorganization evidence p).1 in reaches start (p' :: h) p'
  | reaches_removal h p chainID transactionHash logIndex :
      reaches start h p →
      let p' := (RemovePreFinality chainID transactionHash logIndex p).1 in reaches start (p' :: h) p'
  | reaches_restoration h p before snapshot :
      reaches start h p → before ∈ h →
      let p' := (RestoreSnapshot before snapshot p).1 in reaches start (p' :: h) p'.

(** Every state passed is well formed, and its final messages are extended by the current
    state. *)
Lemma reaches_grows start h p :
  inv start → reaches start h p → p ∈ h ∧ ∀ q, q ∈ h → inv q ∧ grows final q p.
Proof.
  intros Hstart Hr.
  assert (∀ h p p', p ∈ h → (∀ q, q ∈ h → inv q ∧ grows final q p) → inv p' → grows final p p' →
    p' ∈ p' :: h ∧ ∀ q, q ∈ p' :: h → inv q ∧ grows final q p') as Hstep.
  { intros h' p1 p2 Hin Hh Hi Hg. split; [apply list_elem_of_here|].
    intros q [->|Hq]%elem_of_cons; [split; [done|apply grows_refl]|].
    destruct (Hh q Hq) as [Hiq Hgq]. split; [done|]. by apply (grows_trans q p1). }
  induction Hr as [|h p routeID policyHash Hr [Hin IH]|h p envelope proof certificate Hr [Hin IH]
    |h p before result proof Hr [Hin IH] Hbin|h p acknowledgement Hr [Hin IH]|h p evidence Hr [Hin IH]
    |h p chainID transactionHash logIndex Hr [Hin IH]|h p before snapshot Hr [Hin IH] Hbin].
  1: { split; [apply list_elem_of_here|]. intros q ->%list_elem_of_singleton.
       split; [done|apply grows_refl]. }
  all: destruct (IH p Hin) as [Hi _]; apply (Hstep h p); try done.
  - by apply BindRoute_inv.
  - apply grows_weaken, BindRoute_grows.
  - by apply ProjectSource_inv.
  - apply grows_weaken, ProjectSource_grows.
  - destruct (IH before Hbin) as [Hib Hg]. apply ProjectExecution_inv; try done. apply Hg.
  - by apply grows_weaken, ProjectExecution_grows.
  - by apply ProjectAcknowledgement_inv.
  - apply grows_weaken, ProjectAcknowledgement_grows.
  - by apply ProjectReorganization_inv.
  - apply grows_weaken, ProjectReorganization_grows.
  - by apply RemovePreFinality_inv.
  - apply RemovePreFinality_grows.
  - destruct (IH before Hbin) as [Hib Hg]. apply RestoreSnapshot_inv; try done. apply Hg.
  - apply grows_weaken, RestoreSnapshot_grows.
Qed.

Lemma reaches_inv v configs start h p :
  NewProjector v configs = Ok start → reaches start h p → inv p.
Proof.
  intros (Hi&_)%NewProjector_Ok Hr. destruct (reaches_grows _ _ _ Hi Hr) as [Hin Hall].
  by apply Hall.
Qed.

(** C16: Whatever operations a projector has been through, in whatever interleaving, a
    projection it returns was authenticated in full: the envelope is valid and is the one
    the source proof speaks of, the source and its certificate were accepted by the
    verifier at the required depth with the stored evidence hash, an execution was accepted
    as final for this envelope, an acknowledgement matches that execution, and a dispute
    rests on a verified report that orphans one of these facts and carries the incident of
    the bound route. *)
Theorem projections_authenticated v configs start h p id m :
  NewProjector v configs = Ok start → reaches start h p → Get id p = Some m → authentic p id m.
Proof. intros Hn Hr Hm. by apply (inv_messages _ (reaches_inv _ _ _ _ _ Hn Hr)). Qed.

(** C18: A message whose source is final is never lost or rewritten: in every later state it
    is present with the same envelope, proof and certificate, and with the execution, the
    acknowledgement and the dispute it had. *)
Theorem final_projection_retained v configs start h p earlier id m :
  NewProjector v configs = Ok start → reaches start h p → earlier ∈ h →
  Get id earlier = Some m → m_SourceFinal m = true →
  ∃ m', Get id p = Some m' ∧ extends m m'.
Proof.
  intros (Hi&_)%NewProjector_Ok Hr He Hm Hf. destruct (reaches_grows _ _ _ Hi Hr) as [_ Hall].
  by apply (Hall earlier He).
Qed.

(** The chain events a projection rests on. *)
Definition rests_on (m : MessageProjection) (proof : SourceEventProof) : Prop :=
  m_SourceProof m = Some proof ∨ m_ExecutionProof m = Some proof.
Definition same_event (a b : SourceEventProof) : Prop :=
  sp_SourceChainId a = sp_SourceChainId b ∧ sp_TransactionHash a = sp_TransactionHash b ∧
  sp_LogIndex a = sp_LogIndex b.

Lemma rests_on_key p id m proof :
  authentic p id m → rests_on m proof → eventIDs p !! proof_key proof = Some id.
Proof.
  intros [(env&prf&_&Hp&_&_&_&_&_&Hk) Hex _ _] [Hs|Hx]; [congruence|].
  revert Hex. unfold execution_authentic. rewrite Hx. by destruct (m_Execution m) as [r|]; [intros (_&_&?)|].
Qed.

(** C19: One chain event serves one message: two projections that rest on the same log of
    the same transaction of the same chain, as a source or as an execution, are the
    projection of one message. *)
Theorem one_message_per_event v configs start h p id1 id2 m1 m2 proof1 proof2 :
  NewProjector v configs = Ok start → reaches start h p →
  Get id1 p = Some m1 → Get id2 p = Some m2 →
  rests_on m1 proof1 → rests_on m2 proof2 → same_event proof1 proof2 → id1 = id2.
Proof.
  intros Hn Hr Hm1 Hm2 Hp1 Hp2 (Hc&Ht&Hl). pose proof (reaches_inv _ _ _ _ _ Hn Hr) as Hi.
  pose proof (rests_on_key _ _ _ _ (inv_messages _ Hi _ _ Hm1) Hp1) as Hk1.
  pose proof (rests_on_key _ _ _ _ (inv_messages _ Hi _ _ Hm2) Hp2) as Hk2.
  assert (proof_key proof1 = proof_key proof2) as Hk by (unfold proof_key; by rewrite Hc, Ht, Hl).
  rewrite Hk in Hk1. congruence.
Qed.

(** * Reorganizations *)

Lemma reorganization_check_ids p e c : reorganization_check p e = Ok c → ro_AffectedMessageIds e ≠ [].
Proof.
  unfold reorganization_check. destruct (ComputeReorganizationEvidenceHash e) eqn:Hc; [|done]. intros _ Hn.
  revert Hc. unfold ComputeReorganizationEvidenceHash, evidence_shape. rewrite Hn. cbn [length Nat.eqb].
  by rewrite !orb_true_r.
Qed.

(** An accepted report disputes exactly the messages it names, all of which were present
    and orphaned by it, opens the incident of their common route and changes nothing else;
    presented again it changes nothing and returns the same incident and messages. *)
Theorem reorganization_effect p p' evidence incident affected :
  ProjectReorganization evidence p = (p', Ok (incident, affected)) →
  (∃ e, evidence = Some e ∧ reorganized p p' e incident affected) ∧
  ProjectReorganization evidence p' = (p', Ok (incident, affected)).
Proof.
  intros (e&->&Hr)%ProjectReorganization_Ok. split; [by exists e|].
  destruct Hr as [(config&hash&policy&Hc&Hall&Hinc&Hroute) Hms Haf Hch Hev Hro Hve].
  unfold ProjectReorganization. rewrite <- (reorganization_check_ext p p'), Hc by done.
  unfold reorganization_commit. assert (∀ id, id ∈ ro_AffectedMessageIds e →
    ∃ m, messages p' !! id = Some m ∧ dispute e incident m = m ∧ ∃ envelope,
      m_Envelope m = Some envelope ∧ fixedBytes32 (RoutePolicyHash envelope) = policy ∧
      m_Disputed m = true ∧ m_Reorganization m = Some e) as Hin.
  { intros id Hid. rewrite Hms, decide_True by done. apply list_elem_of_lookup in Hid as [i Hi].
    destruct (Hall _ _ Hi) as (m&->&(env&He&Hpol)&Hd). cbn. eexists. split; [done|].
    split; [apply dispute_idemp|]. exists env. unfold dispute.
    destruct (m_Disputed m) eqn:Hdd; cbn; done. }
  rewrite (affected_loop_complete config e policy).
  2: { intros i id Hid%list_elem_of_lookup_2. destruct (Hin id Hid) as (m&?&_&env&?&?&Hd&?).
       exists m. split; [done|]. split; [by exists env|]. by rewrite Hd. }
  2: done.
  rewrite decide_False by by apply (reorganization_check_ids p e _ Hc).
  rewrite Hro, <- Hinc. rewrite Hinc at 1. cbn [ic_RouteId incident_of].
  rewrite (proj2 (String.eqb_neq _ _) Hroute).
  assert (∀ id, id ∈ ro_AffectedMessageIds e → is_Some (messages p' !! id)) as Hsome.
  { intros id Hid. destruct (Hin id Hid) as (m&?&_). by exists m. }
  pose proof (λ k, mark_loop_messages e incident _ _ k Hsome) as Hmm.
  pose proof (mark_loop_affected e incident _ _ Hsome) as Hma.
  destruct (mark_loop _ _ _ _) as [ms aff]. cbn [fst snd] in Hmm, Hma.
  assert (ms = messages p') as ->.
  { apply map_eq. intros k. rewrite Hmm. destruct (decide _) as [Hk|]; [|done].
    destruct (Hin k Hk) as (m&->&Hdm&_). cbn. by rewrite Hdm. }
  assert (aff = affected) as ->.
  { rewrite Hma, Haf. apply list_fmap_ext. intros i id Hid%list_elem_of_lookup_2.
    destruct (Hin id Hid) as (m&Hm&Hdm&_). by rewrite (lookup_zero_Some _ _ _ _ Hm). }
  unfold set_messages. by destruct p'.
Qed.

(** A refused operation leaves the projector as it was. *)
Theorem refusal_changes_nothing p before err :
  (∀ routeID policyHash, (BindRoute routeID policyHash p).2 = Err err →
     (BindRoute routeID policyHash p).1 = p) ∧
  (∀ envelope proof certificate, (ProjectSource envelope proof certificate p).2 = Err err →
     (ProjectSource envelope proof certificate p).1 = p) ∧
  (∀ result proof, (ProjectExecution before result proof p).2 = Err err →
     (ProjectExecution before result proof p).1 = p) ∧
  (∀ acknowledgement, (ProjectAcknowledgement acknowledgement p).2 = Err err →
     (ProjectAcknowledgement acknowledgement p).1 = p) ∧
  (∀ evidence, (ProjectReorganization evidence p).2 = Err err → (ProjectReorganization evidence p).1 = p) ∧
  (∀ chainID transactionHash logIndex, (RemovePreFinality chainID transactionHash logIndex p).2 = Err err →
     (RemovePreFinality chainID transactionHash logIndex p).1 = p) ∧
  (∀ snapshot, (RestoreSnapshot before snapshot p).2 = Err err → (RestoreSnapshot before snapshot p).1 = p).
Proof.
  split_and!.
  - intros routeID policyHash. unfold BindRoute. by repeat case_match.
  - intros [envelope|] [proof|] certificate; try done. unfold ProjectSource, source_commit.
    by repeat case_match.
  - intros [result|] [proof|]; try done. unfold ProjectExecution, execution_commit. by repeat case_match.
  - intros [a|]; try done. unfold ProjectAcknowledgement. by repeat case_match.
  - intros evidence. destruct (ProjectReorganization evidence p) as [p' [|]] eqn:Hp; [done|]. intros _.
    by apply ProjectReorganization_Err in Hp.
  - intros chainID transactionHash logIndex. unfold RemovePreFinality. by repeat case_match.
  - intros snapshot. unfold RestoreSnapshot. by repeat case_match.
Qed.
End Runs.
