(* ===== verification/ProjectorEvidence.v ===== *)
(** The cross-chain projector: what its commitments bind, and the durable form of
    reorganization evidence. *)
From S2P Require Import Prelude GoStd CrossChainTypes Message Projector ProjectorInvariant.

(** * Padded encodings *)

Lemma pad32_app s : ∃ z, pad32 s = s +:+ z.
Proof.
  unfold pad32. destruct (_ =? 0)%nat; [exists ""%string; by rewrite string_app_nil_r|by eexists].
Qed.

(** An encoding that starts with whole words, with a tail whose length the last word tells. *)
Lemma pad32_words_inj ws ws' tail tail' :
  length ws = length ws' →
  Forall (λ w, String.length w = 32%nat) ws → Forall (λ w, String.length w = 32%nat) ws' →
  pad32 (concat_words ws +:+ tail) = pad32 (concat_words ws' +:+ tail') →
  ws = ws' ∧ (String.length tail = String.length tail' → tail = tail').
Proof.
  intros Hl Hw Hw'. destruct (pad32_app (concat_words ws +:+ tail)) as [z ->].
  destruct (pad32_app (concat_words ws' +:+ tail')) as [z' ->]. rewrite !string_app_assoc. intros He.
  pose proof (concat_words_inj _ _ _ _ Hl Hw Hw' He) as <-. split; [done|]. intros Ht.
  apply string_app_inj_l in He as [_ He]; [|done]. by apply string_app_inj_l in He as [-> _].
Qed.

(** * Proofs *)

(** The machine widths of the fields. *)
Record proof_widths (p : SourceEventProof) : Prop := {
  pw_block : 0 <= sp_SourceBlockNumber p < 2 ^ 64;
  pw_transaction : 0 <= sp_TransactionIndex p < 2 ^ 64;
  pw_log : 0 <= sp_LogIndex p < 2 ^ 64;
  pw_head : 0 <= sp_FinalityHeadNumber p < 2 ^ 64;
  pw_depth : 0 <= sp_RequiredDepth p < 2 ^ 64;
  pw_seconds : GetSeconds (sp_SourceBlockTimestamp p) < 2 ^ 63;
  pw_signature : Z.of_nat (String.length (sp_ObserverSignature p)) < 2 ^ 63 }.

Lemma timestamp_bad_false ts : timestamp_bad ts = false → ∃ s, ts = Some (mkTimestamp s 0) ∧ 0 <= s.
Proof.
  destruct ts as [[s n]|]; [|done]. cbn. intros Hb. bool_facts. subst. by exists s.
Qed.

Lemma GetSeconds_Some s n : GetSeconds (Some (mkTimestamp s n)) = s.
Proof. done. Qed.

(** What the observer signs. *)
Definition header_fields (p : SourceEventProof) : list string * list Z * option Timestamp :=
  ([sp_SourceBlockHash p; sp_FinalityHeadHash p; sp_HeaderAuthorityHash p; sp_FinalityPolicyHash p],
   [sp_SourceBlockNumber p; sp_FinalityHeadNumber p; sp_RequiredDepth p],
   sp_SourceBlockTimestamp p).

(** What a certificate attests. *)
Definition attested_fields (p : SourceEventProof) : list string * list Z * option Timestamp :=
  ([sp_SourceBlockHash p; sp_TransactionHash p; sp_ReceiptRoot p; sp_ReceiptProofHash p; sp_EventHash p;
    sp_FinalityHeadHash p; sp_HeaderAuthorityHash p; sp_ObserverSignedHeaderCommitment p;
    sp_FinalityPolicyHash p; sp_ObserverSignature p],
   [sp_SourceBlockNumber p; sp_TransactionIndex p; sp_LogIndex p; sp_FinalityHeadNumber p;
    sp_RequiredDepth p],
   sp_SourceBlockTimestamp p).

Definition observer_words (p : SourceEventProof) : list string :=
  [abiUint64 (9 * 32); sp_SourceBlockHash p; abiUint64 (sp_SourceBlockNumber p);
   abiUint64 (GetSeconds (sp_SourceBlockTimestamp p)); sp_FinalityHeadHash p;
   abiUint64 (sp_FinalityHeadNumber p); abiUint64 (sp_RequiredDepth p); sp_HeaderAuthorityHash p;
   sp_FinalityPolicyHash p; abiUint64 (Z.of_nat (String.length observerCommitmentDomain))].

Definition proof_words (p : SourceEventProof) : list string :=
  [abiUint64 32; sp_SourceBlockHash p; abiUint64 (sp_SourceBlockNumber p);
   abiUint64 (GetSeconds (sp_SourceBlockTimestamp p)); sp_TransactionHash p;
   abiUint64 (sp_TransactionIndex p); sp_ReceiptRoot p; sp_ReceiptProofHash p;
   abiUint64 (sp_LogIndex p); sp_EventHash p; sp_FinalityHeadHash p;
   abiUint64 (sp_FinalityHeadNumber p); abiUint64 (sp_RequiredDepth p); sp_HeaderAuthorityHash p;
   sp_ObserverSignedHeaderCommitment p; abiUint64 (16 * 32); sp_FinalityPolicyHash p;
   abiUint64 (Z.of_nat (String.length (sp_ObserverSignature p)))].

Lemma observer_preimage_words p :
  observer_preimage p = pad32 (concat_words (observer_words p) +:+ observerCommitmentDomain).
Proof.
  unfold observer_preimage, observer_words, concat_words. cbn [foldr]. f_equal.
  by rewrite !string_app_assoc.
Qed.

Lemma source_proof_preimage_words p :
  source_proof_preimage p = pad32 (concat_words (proof_words p) +:+ sp_ObserverSignature p).
Proof.
  unfold source_proof_preimage, proof_words, concat_words. cbn [foldr]. f_equal.
  by rewrite !string_app_assoc.
Qed.

Lemma abiUint64_inj a b : 0 <= a < 2 ^ 64 → 0 <= b < 2 ^ 64 → abiUint64 a = abiUint64 b → a = b.
Proof. apply uintWord_inj. Qed.

(** Equal lists of words, word by word. *)
Ltac split_words H :=
  repeat (let Hw := fresh "Hw" in apply cons_inj in H as [Hw H]);
  repeat match goal with Hn : abiUint64 _ = abiUint64 _ |- _ => apply abiUint64_inj in Hn; [|lia..] end.

Section Binding.
Context `{Keccak}.

Lemma ComputeObserverHeaderCommitment_Ok p c :
  ComputeObserverHeaderCommitment p = Ok c →
  c = keccak (observer_preimage p) ∧ Forall (λ w, String.length w = 32%nat) (observer_words p) ∧
  ∃ s, sp_SourceBlockTimestamp p = Some (mkTimestamp s 0) ∧ 0 <= s.
Proof.
  unfold ComputeObserverHeaderCommitment. pass_if Hg. intros [= <-]. bool_facts. split; [done|].
  split; [|by apply timestamp_bad_false].
  repeat constructor; try apply uintWord_length; by apply Nat.eqb_eq.
Qed.

Lemma ComputeSourceProofHash_Ok p c :
  ComputeSourceProofHash p = Ok c →
  c = keccak (source_proof_preimage p) ∧ Forall (λ w, String.length w = 32%nat) (proof_words p) ∧
  ∃ s, sp_SourceBlockTimestamp p = Some (mkTimestamp s 0) ∧ 0 <= s.
Proof.
  unfold ComputeSourceProofHash. pass_if Hg. intros [= <-]. bool_facts. split; [done|].
  split; [|by apply timestamp_bad_false].
  repeat constructor; try apply uintWord_length; by apply Nat.eqb_eq.
Qed.

(** The observer's signed commitment determines the header it was signed for: two
    proofs with the same commitment agree on the block, its number and time, the finality
    head, the depth, the authority and the policy, or the two encoded headers collide. *)
Theorem observer_commitment_binds a b commitment :
  proof_widths a → proof_widths b →
  ComputeObserverHeaderCommitment a = Ok commitment → ComputeObserverHeaderCommitment b = Ok commitment →
  header_fields a = header_fields b ∨ collides (observer_preimage a) (observer_preimage b).
Proof.
  intros [] [] (Ha&Hwa&sa&Hta&?)%ComputeObserverHeaderCommitment_Ok
    (Hb&Hwb&sb&Htb&?)%ComputeObserverHeaderCommitment_Ok.
  subst commitment. apply keccak_cases in Hb as [Hb|]; [left|by right].
  rewrite !observer_preimage_words in Hb. apply pad32_words_inj in Hb as [Hw _]; [|done..].
  unfold observer_words in Hw. unfold header_fields. rewrite Hta, Htb in *. rewrite ?GetSeconds_Some in *.
  split_words Hw. congruence.
Qed.

(** A finality certificate belongs to one source proof: two proofs a certificate is
    valid for are of one message and agree on every attested field - the block, the
    transaction, the receipt, the log, the event, the head, the depth, the authority, the
    observer's commitment and signature and the policy - or their encodings collide. *)
Theorem certificate_binds_proof a b certificate :
  proof_widths a → proof_widths b →
  validSourceFinalityCertificate a certificate = true →
  validSourceFinalityCertificate b certificate = true →
  sp_MessageId a = sp_MessageId b ∧
  (attested_fields a = attested_fields b ∨ collides (source_proof_preimage a) (source_proof_preimage b)).
Proof.
  intros [] []. destruct certificate as [c|]; [|done]. cbn. intros Ha Hb. bool_facts.
  split; [congruence|].
  repeat match goal with Hm : matches _ _ = true |- _ => apply matches_Ok in Hm end.
  match goal with Hx : ComputeSourceProofHash a = _, Hy : ComputeSourceProofHash b = _ |- _ =>
    apply ComputeSourceProofHash_Ok in Hx as (Hx1&Hwa&sa&Hta&?);
    apply ComputeSourceProofHash_Ok in Hy as (Hx2&Hwb&sb&Htb&?) end.
  rewrite Hx1 in Hx2. apply keccak_cases in Hx2 as [Hb|]; [left|by right].
  rewrite !source_proof_preimage_words in Hb. apply pad32_words_inj in Hb as [Hw Ht]; [|done..].
  unfold proof_words in Hw. unfold attested_fields. rewrite Hta, Htb in *. rewrite ?GetSeconds_Some in *.
  split_words Hw. specialize (Ht ltac:(lia)). congruence.
Qed.
End Binding.

(** * The durable form *)

Section Durable.
Context `{Keccak, ReorganizationCodec}.

Definition blob_of (encoded : string) : string := reorganizationEvidenceDomain +:+ nul +:+ encoded.

Lemma ComputeReorganizationEvidenceHash_Ok e h :
  ComputeReorganizationEvidenceHash e = Ok h →
  ∃ encoded, marshal_reorganization (canonical_evidence e) = Some encoded ∧ h = keccak (blob_of encoded).
Proof.
  unfold ComputeReorganizationEvidenceHash. pass_if Hg.
  destruct (marshal_reorganization _) as [encoded|]; [|done]. intros [= <-]. by exists encoded.
Qed.

Lemma MarshalReorganizationEvidenceBlob_Ok e blob h :
  MarshalReorganizationEvidenceBlob e = Ok (blob, h) ↔
  ComputeReorganizationEvidenceHash e = Ok h ∧ (ro_EvidenceHash e = "" ∨ ro_EvidenceHash e = h) ∧
  ∃ encoded, marshal_reorganization (canonical_evidence e) = Some encoded ∧ blob = blob_of encoded.
Proof.
  unfold MarshalReorganizationEvidenceBlob. split.
  - destruct (ComputeReorganizationEvidenceHash e) as [h'|] eqn:Hc; [|done]. pass_if Hg.
    destruct (marshal_reorganization _) as [encoded|]; [|done]. pass_if Hk. intros [= <- <-].
    split; [done|]. split; [|by exists encoded]. apply andb_false_iff in Hg as [Hg|Hg]; bool_facts; auto.
  - intros (Hc&Hh&encoded&Hm&->). rewrite Hc, Hm.
    apply ComputeReorganizationEvidenceHash_Ok in Hc as (enc'&Hm'&Hh').
    rewrite Hm in Hm'. injection Hm' as <-.
    assert (negb (empty_s (ro_EvidenceHash e)) && (ro_EvidenceHash e <>s h) = false) as ->.
    { destruct Hh as [-> | ->]; [done|]. rewrite String.eqb_refl. by rewrite andb_false_r. }
    unfold keccakDigest. change (reorganizationEvidenceDomain +:+ nul +:+ encoded) with (blob_of encoded).
    rewrite <- Hh', String.eqb_refl. done.
Qed.

(** The durable form of a report is content-addressed and complete: what was marshalled
    is read back under its hash with every field, and whatever is read back under a hash is a
    valid report with that evidence hash whose own durable form is what was read, up to a
    collision of the two blobs. *)
Theorem evidence_blob_roundtrip :
  (∀ e blob h, MarshalReorganizationEvidenceBlob e = Ok (blob, h) → h ≠ zero32 →
     UnmarshalReorganizationEvidenceBlob blob h = Ok (with_evidence_hash h e)) ∧
  (∀ blob h e, UnmarshalReorganizationEvidenceBlob blob h = Ok e →
     ro_EvidenceHash e = h ∧ ∃ blob', MarshalReorganizationEvidenceBlob e = Ok (blob', h) ∧
     (blob' = blob ∨ collides blob' blob)).
Proof.
  split.
  - intros e blob h (Hc&_&encoded&Hm&->)%MarshalReorganizationEvidenceBlob_Ok Hz.
    pose proof (ComputeReorganizationEvidenceHash_Ok _ _ Hc) as (enc'&Hm'&Hh).
    rewrite Hm in Hm'. injection Hm' as <-. unfold UnmarshalReorganizationEvidenceBlob, keccakDigest.
    assert (blob_of encoded = (reorganizationEvidenceDomain +:+ nul) +:+ encoded) as Hb
      by (unfold blob_of; by rewrite string_app_assoc).
    rewrite <- Hh, Hb, string_prefix_app, String.eqb_refl, (proj2 (String.eqb_neq _ _) Hz). cbn [negb orb].
    match goal with |- context [String.substring _ ?n _] =>
      replace n with (String.length encoded) by (rewrite string_app_length; lia) end.
    rewrite (substring_skip _ _ _ _ eq_refl), substring_full.
    rewrite (unmarshal_marshal _ _ Hm).
    change (ComputeReorganizationEvidenceHash (with_evidence_hash h (canonical_evidence e)))
      with (ComputeReorganizationEvidenceHash e).
    rewrite Hc. cbn. by rewrite String.eqb_refl.
  - intros blob h e. unfold UnmarshalReorganizationEvidenceBlob. pass_if Hg.
    destruct (unmarshal_reorganization _) as [e'|] eqn:Hu; [|done]. pass_if He.
    destruct (matches _ _) eqn:Hmt; [|done]. intros [= <-]. bool_facts. apply matches_Ok in Hmt.
    split; [done|].
    destruct (ComputeReorganizationEvidenceHash_Ok _ _ Hmt) as (encoded&Hm&Hh).
    exists (blob_of encoded). split.
    + apply MarshalReorganizationEvidenceBlob_Ok. split; [done|]. split; [by right|]. by exists encoded.
    + apply keccak_cases. unfold keccakDigest in *. congruence.
Qed.
End Durable.
