(* ===== verification/ProjectorRestore.v ===== *)
(** The cross-chain projector: a restored projector holds exactly the snapshot, and the
    snapshot of a reachable projector is restored. *)
From S2P Require Import Prelude GoStd CrossChainTypes Message Projector ProjectorInvariant ProjectorSafety.

Section Restore.
Context `{Keccak, ReorganizationCodec}.

(** * What a restoration that succeeds leaves *)

(** An operation that adds no message. *)
Definition no_new (p p' : Projector) : Prop :=
  ∀ id, is_Some (messages p' !! id) → is_Some (messages p !! id).

Lemma no_new_insert p p' id m m' :
  messages p !! id = Some m → messages p' = <[id := m']> (messages p) → no_new p p'.
Proof.
  intros Hm Hm' id'. rewrite Hm', lookup_insert_is_Some. intros [<-|[_ ?]]; [by exists m|done].
Qed.

Lemma ProjectExecution_no_new before result proof p :
  no_new p (ProjectExecution before result proof p).1.
Proof.
  unfold ProjectExecution. destruct result as [result|], proof as [proof|]; try by intros ?.
  destruct (execution_check _ _ _) as [[envelope v]|]; [|by intros ?]. unfold execution_commit.
  destruct (messages p !! er_MessageId result) as [m|] eqn:Hm; [|by intros ?].
  repeat case_match; try (by intros ?); by eapply no_new_insert.
Qed.

Lemma ProjectAcknowledgement_no_new acknowledgement p :
  no_new p (ProjectAcknowledgement acknowledgement p).1.
Proof.
  unfold ProjectAcknowledgement. destruct acknowledgement as [a|]; [|by intros ?].
  destruct (_ || _ || _); [by intros ?|]. destruct (VerifyAcknowledgement _ a); [|by intros ?].
  destruct (_ || _); [by intros ?|]. destruct (messages p !! ak_MessageId a) as [m|] eqn:Hm; [|by intros ?].
  repeat case_match; try (by intros ?); by eapply no_new_insert.
Qed.

Lemma ProjectReorganization_no_new evidence p : no_new p (ProjectReorganization evidence p).1.
Proof.
  destruct (ProjectReorganization evidence p) as [p' [[incident affected]|err]] eqn:Hp; cbn [fst].
  - apply ProjectReorganization_Ok in Hp as (e&_&[_ Hms _ _ _ _ _]). intros id. rewrite Hms.
    destruct (decide _); [|done]. by rewrite fmap_is_Some.
  - apply ProjectReorganization_Err in Hp as ->. by intros ?.
Qed.

Lemma replay_executions_no_new snapshot p p' : replay_executions snapshot p = Ok p' → no_new p p'.
Proof.
  revert p. induction snapshot as [|m rest IH]; intros p; cbn [replay_executions]; [by intros [= ->] ?|].
  destruct (m_Execution m) as [result|]; [|apply IH].
  pose proof (ProjectExecution_no_new p (Some result) (m_ExecutionProof m) p) as Hn.
  destruct (ProjectExecution _ _ _ p) as [p2 [actual|]]; [|done]. pass_if Hc. intros Hl%IH id Hid.
  by apply Hn, Hl.
Qed.

Lemma replay_acknowledgements_no_new snapshot p p' :
  replay_acknowledgements snapshot p = Ok p' → no_new p p'.
Proof.
  revert p. induction snapshot as [|m rest IH]; intros p; cbn [replay_acknowledgements]; [by intros [= ->] ?|].
  destruct (m_Acknowledgement m) as [a|]; [|apply IH].
  pose proof (ProjectAcknowledgement_no_new (Some a) p) as Hn.
  destruct (ProjectAcknowledgement _ p) as [p2 [actual|]]; [|done]. intros Hl%IH id Hid.
  by apply Hn, Hl.
Qed.

Lemma replay_reorganizations_no_new evidence p p' :
  replay_reorganizations evidence p = Ok p' → no_new p p'.
Proof.
  revert p. induction evidence as [|e rest IH]; intros p; cbn [replay_reorganizations]; [by intros [= ->] ?|].
  pose proof (ProjectReorganization_no_new (Some e) p) as Hn.
  destruct (ProjectReorganization _ p) as [p2 [actual|]]; [|done]. intros Hl%IH id Hid.
  by apply Hn, Hl.
Qed.

(** The messages after the first loop are those of the snapshot's envelopes. *)
Lemma replay_sources_ids snapshot p p' :
  replay_sources snapshot p = Ok p' →
  ∀ id, is_Some (messages p' !! id) → is_Some (messages p !! id) ∨
    ∃ m envelope, m ∈ snapshot ∧ m_Envelope m = Some envelope ∧ MessageId envelope = id.
Proof.
  revert p. induction snapshot as [|m rest IH]; intros p; cbn [replay_sources]; [intros [= ->]; auto|].
  destruct (ProjectSource _ _ _ p) as [p2 [actual|]] eqn:Hp; [|done]. pass_if Hc. intros Hl id Hid.
  destruct (IH _ Hl id Hid) as [Hid2|(m'&env&Hin&He)].
  2: { right. exists m', env. split; [by apply list_elem_of_further|done]. }
  revert Hp. unfold ProjectSource. destruct (m_Envelope m) as [env|] eqn:He; [|done].
  destruct (m_SourceProof m) as [prf|]; [|done]. destruct (source_check _ _ _ _) as [v|]; [|done].
  intros Hp. assert (messages p2 = messages p ∨ ∃ m', messages p2 = <[MessageId env := m']> (messages p))
    as [Hm|[m' Hm]].
  { revert Hp. unfold source_commit. repeat case_match; intros [= <-]; cbn; eauto. }
  - left. by rewrite <- Hm.
  - rewrite Hm, lookup_insert_is_Some in Hid2. destruct Hid2 as [<-|[_ ?]]; [|auto].
    right. exists m, env. split; [apply list_elem_of_here|done].
Qed.

Lemma sameProjection_eq a b : sameProjection a b = true ↔ a = b.
Proof.
  unfold sameProjection. rewrite !andb_true_iff, !String.eqb_eq, !bool_decide_eq_true, !Bool.eqb_true_iff.
  split; [|by intros ->]. destruct a, b. cbn.
  intros ((((((((((((((->&->)&->)&->)&->)&->)&->)&->)&->)&->)&->)&->)&->)&->)&->). done.
Qed.

Lemma rebuild_messages before snapshot p :
  inv before → rebuild before snapshot = Ok p →
  ∀ id m, messages p !! id = Some m ↔ m ∈ snapshot ∧ m_MessageID m = id.
Proof.
  intros Hi Hb. pose proof (rebuild_rebuilding _ _ _ Hi Hb) as (Hip&_&_). revert Hb. unfold rebuild.
  set (configs := sort_by _ _).
  destruct (NewProjector (Some (verifier before)) configs) as [p1|] eqn:H1; [|done].
  destruct (bind_routes _ p1) as [p2|] eqn:H2; [|done].
  destruct (replay_sources snapshot p2) as [p3|] eqn:H3; [|done].
  destruct (replay_executions snapshot p3) as [p4|] eqn:H4; [|done].
  destruct (replay_acknowledgements snapshot p4) as [p5|] eqn:H5; [|done].
  destruct (collect_reorganizations snapshot ∅) as [rs|] eqn:H6; [|done].
  destruct (replay_reorganizations _ p5) as [p6|] eqn:H7; [|done].
  destruct (negb _) eqn:Hsame; [done|]. intros [= ->]. bool_facts.
  assert (∀ m, m ∈ snapshot → messages p !! m_MessageID m = Some m) as Hin.
  { intros m Hm. unfold same_as_snapshot in Hsame. rewrite forallb_forall in Hsame.
    apply list_elem_of_In in Hm. specialize (Hsame _ Hm). unfold Get in Hsame.
    destruct (messages p !! m_MessageID m) as [m'|]; [|done].
    by apply sameProjection_eq in Hsame as ->. }
  intros id m. split; [|by intros [Hm <-]; apply Hin]. intros Hm.
  assert (is_Some (messages p3 !! id)) as H8.
  { apply (replay_executions_no_new _ _ _ H4), (replay_acknowledgements_no_new _ _ _ H5),
      (replay_reorganizations_no_new _ _ _ H7). by exists m. }
  apply (replay_sources_ids _ _ _ H3) in H8 as [H8|(m0&env&Hm0&He&Hid)].
  { apply bind_routes_Ok in H2 as (_&_&Hm2&_). apply NewProjector_Ok in H1 as (_&Hm1&_).
    rewrite Hm2, Hm1, lookup_empty in H8. by destruct H8. }
  pose proof (Hin _ Hm0) as Hl. pose proof (inv_messages _ Hip _ _ Hl) as Ha.
  destruct (au_source _ _ _ Ha) as (env'&prf&He'&_&_&Hmid&_).
  assert (m_MessageID m0 = id) as Hid0 by congruence. rewrite Hid0, Hm in Hl. by injection Hl as ->.
Qed.

(** The messages of a snapshot, read back by their ids. *)
Lemma Snapshot_spec p m :
  inv p → m ∈ Snapshot p ↔ messages p !! m_MessageID m = Some m.
Proof.
  intros Hi. unfold Snapshot. rewrite list_elem_of_fmap. split.
  - intros ([id m']&->&Hin). rewrite (sort_by_perm _ _), elem_of_map_to_list in Hin. cbn.
    destruct (au_source _ _ _ (inv_messages _ Hi _ _ Hin)) as (env&prf&_&_&->&_). done.
  - intros Hm. exists (m_MessageID m, m). split; [done|].
    by rewrite (sort_by_perm _ _), elem_of_map_to_list.
Qed.

(** A restoration that succeeds installs exactly the snapshot: a message is read back
    with a projection if and only if that projection is in the snapshot under its id. *)
Theorem restore_sound v configs start h p before snapshot p' :
  NewProjector v configs = Ok start → reaches start h p → before ∈ h →
  RestoreSnapshot before snapshot p = (p', Ok ()) →
  ∀ id m, Get id p' = Some m ↔ m ∈ snapshot ∧ m_MessageID m = id.
Proof.
  intros (Hstart&_)%NewProjector_Ok Hr Hbin. destruct (reaches_grows _ _ _ Hstart Hr) as [_ Hall].
  destruct (Hall _ Hbin) as [Hb _]. unfold RestoreSnapshot. destruct (negb _ || _); [done|].
  destruct (rebuild before snapshot) as [r|] eqn:Hrb; [|done].
  destruct (negb _ || _ || _); [done|]. intros [= <-]. unfold Get. cbn.
  exact (rebuild_messages _ _ _ Hb Hrb).
Qed.

(** * Restoration of a snapshot *)

(** The stages of a projection: its source fact, with its execution, with its
    acknowledgement. *)
Definition source_only (m : MessageProjection) : MessageProjection :=
  mkProjection (m_MessageID m) (m_SourceChainID m) (m_DestinationChainID m) (m_Envelope m)
    (m_SourceProof m) (m_SourceFinalityCertificate m) None None None (m_SourceFinal m)
    (m_SourceEvidenceHash m) zero32 false None None.
Definition undisputed (m : MessageProjection) : MessageProjection :=
  mkProjection (m_MessageID m) (m_SourceChainID m) (m_DestinationChainID m) (m_Envelope m)
    (m_SourceProof m) (m_SourceFinalityCertificate m) (m_Execution m) (m_ExecutionProof m)
    (m_Acknowledgement m) (m_SourceFinal m) (m_SourceEvidenceHash m) (m_ExecutionEvidenceHash m)
    false None None.
Definition unacknowledged (m : MessageProjection) : MessageProjection :=
  without_acknowledgement (undisputed m).

(** The report still orphans every message it names, and each of them is disputed by it. *)
Definition still_orphaned (q : Projector) (e : ReorganizationEvidence) : Prop :=
  ∃ config hash policy,
    reorganization_check q e = Ok (config, hash) ∧ hash ≠ zero32 ∧
    ∀ i id, ro_AffectedMessageIds e !! i = Some id →
      ∃ m, messages q !! id = Some m ∧ m_Reorganization m = Some e ∧
           affected_ok config e i policy (undisputed m).

(** Reports are still in force and told apart by their hashes. *)
Definition restorable (q : Projector) : Prop :=
  (∀ id m e, messages q !! id = Some m → m_Reorganization m = Some e → still_orphaned q e) ∧
  (∀ id1 m1 e1 id2 m2 e2,
     messages q !! id1 = Some m1 → m_Reorganization m1 = Some e1 →
     messages q !! id2 = Some m2 → m_Reorganization m2 = Some e2 →
     ro_EvidenceHash e1 = ro_EvidenceHash e2 → e1 = e2).

(** ** The loops over the snapshot *)

Fixpoint replay (step : MessageProjection → Projector → result error Projector)
    (l : list MessageProjection) (p : Projector) : result error Projector :=
  match l with
  | [] => Ok p
  | m :: rest => let? p' := step m p in replay step rest p'
  end.

Definition source_step (m : MessageProjection) (p : Projector) : result error Projector :=
  replay_sources [m] p.
Definition execution_step (m : MessageProjection) (p : Projector) : result error Projector :=
  replay_executions [m] p.
Definition acknowledgement_step (m : MessageProjection) (p : Projector) : result error Projector :=
  replay_acknowledgements [m] p.

Lemma replay_sources_replay l p : replay_sources l p = replay source_step l p.
Proof.
  revert p. induction l as [|m l IH]; intros p; [done|]. cbn.
  destruct (ProjectSource _ _ _ p) as [p2 [?|]]; [|done]. by destruct (_ || _).
Qed.
Lemma replay_executions_replay l p : replay_executions l p = replay execution_step l p.
Proof.
  revert p. induction l as [|m l IH]; intros p; [done|]. cbn. destruct (m_Execution m); [|by rewrite IH].
  destruct (ProjectExecution _ _ _ p) as [p2 [?|]]; [|done]. by destruct (_ <>s _).
Qed.
Lemma replay_acknowledgements_replay l p :
  replay_acknowledgements l p = replay acknowledgement_step l p.
Proof.
  revert p. induction l as [|m l IH]; intros p; [done|]. cbn.
  destruct (m_Acknowledgement m); [|by rewrite IH].
  by destruct (ProjectAcknowledgement _ p) as [p2 [?|]].
Qed.

(** A loop whose step takes each message from one stage to the next. *)
Lemma replay_stage step (good : Projector → Prop) (g : MessageProjection → option MessageProjection)
    (f : MessageProjection → MessageProjection) l p :
  NoDup (m_MessageID <$> l) →
  (∀ m p, m ∈ l → good p → messages p !! m_MessageID m = g m →
     ∃ p', step m p = Ok p' ∧ good p' ∧ messages p' = <[m_MessageID m := f m]> (messages p)) →
  good p → (∀ m, m ∈ l → messages p !! m_MessageID m = g m) →
  ∃ p', replay step l p = Ok p' ∧ good p' ∧
    (∀ m, m ∈ l → messages p' !! m_MessageID m = Some (f m)) ∧
    (∀ id, id ∉ m_MessageID <$> l → messages p' !! id = messages p !! id).
Proof.
  revert p. induction l as [|m l IH]; intros p Hnd Hstep Hp Hg.
  { exists p. split_and!; try done. by intros m ?%not_elem_of_nil. }
  rewrite fmap_cons in Hnd. apply NoDup_cons in Hnd as [Hm Hnd].
  destruct (Hstep m p (list_elem_of_here _ _) Hp (Hg m (list_elem_of_here _ _))) as (p2&Hs&Hp2&Hm2).
  assert (∀ m', m' ∈ l → m_MessageID m' ≠ m_MessageID m) as Hne.
  { intros m' Hm' He. apply Hm. rewrite <- He. by apply list_elem_of_fmap_2. }
  destruct (IH p2 Hnd) as (p'&Hr&Hp'&Hin&Hout); try done.
  - intros m' p3 Hm'. apply Hstep. by apply list_elem_of_further.
  - intros m' Hm'. rewrite Hm2, lookup_insert_ne by (intros He; by apply (Hne m')).
    by apply Hg, list_elem_of_further.
  - exists p'. cbn. rewrite Hs. split_and!; try done.
    + intros m' [->|Hm']%elem_of_cons; [|by apply Hin]. by rewrite Hout, Hm2, lookup_insert_eq.
    + intros id. rewrite not_elem_of_cons. intros [Hid Hid']. rewrite Hout by done.
      by rewrite Hm2, lookup_insert_ne.
Qed.

(** ** The stages *)

Section Stages.
Variable q : Projector.
Hypothesis Hq : inv q.

Definition good (p : Projector) : Prop :=
  same_setup q p ∧ routes p = routes q ∧ eventIDs p ⊆ eventIDs q.

Lemma own_key p key id :
  eventIDs p ⊆ eventIDs q → eventIDs q !! key = Some id →
  match eventIDs p !! key with Some x => x <>s id | None => false end = false ∧
  <[key := id]> (eventIDs p) ⊆ eventIDs q.
Proof using All.
  intros Hs Hk. split; [|by apply insert_subseteq_l].
  destruct (eventIDs p !! key) as [x|] eqn:Hx; [|done].
  apply (lookup_weaken _ (eventIDs q)) in Hx; [|done]. rewrite Hk in Hx. injection Hx as <-.
  by rewrite String.eqb_refl.
Qed.

Lemma source_step_stage m p :
  m ∈ Snapshot q → good p → messages p !! m_MessageID m = None →
  ∃ p', source_step m p = Ok p' ∧ good p' ∧ messages p' = <[m_MessageID m := source_only m]> (messages p).
Proof using All.
  intros Hm (Hs&Hr&He) Hn. apply Snapshot_spec in Hm; [|done].
  destruct (au_source _ _ _ (inv_messages _ Hq _ _ Hm)) as (env&prf&Henv&Hprf&_&Hid&Hsc&Hdc&Hck&Hkey).
  destruct (own_key p _ _ He Hkey) as [Hk Hsub].
  unfold source_step. cbn [replay_sources]. rewrite Henv, Hprf. cbn [ProjectSource].
  rewrite <- (source_check_ext q p), Hck by done. unfold source_commit. rewrite Hid, Hk, Hn.
  assert (new_projection env prf (m_SourceFinalityCertificate m)
    (mkVerification (m_SourceEvidenceHash m) (m_SourceFinal m)) = source_only m) as ->.
  { unfold new_projection, source_only. cbn. rewrite Hid, <- Hsc, <- Hdc, <- Henv, <- Hprf. f_equal.
    destruct (m_SourceFinal m) eqn:Hf; [done|].
    by rewrite (sa_provisional _ _ _ _ _ (source_check_Ok _ _ _ _ _ Hck) eq_refl). }
  cbn. rewrite Bool.eqb_reflx, String.eqb_refl. cbn. eexists. split; [done|]. split; [|done].
  destruct Hs. by repeat split.
Qed.

Lemma source_only_conflict m result proof v : execution_conflict (source_only m) result proof v = false.
Proof. unfold execution_conflict. cbn -[String.eqb]. by rewrite String.eqb_refl. Qed.

Lemma execution_step_stage m p :
  m ∈ Snapshot q → good p → messages p !! m_MessageID m = Some (source_only m) →
  ∃ p', execution_step m p = Ok p' ∧ good p' ∧
    messages p' = <[m_MessageID m := unacknowledged m]> (messages p).
Proof using All.
  intros Hm (Hs&Hr&He) Hn. apply Snapshot_spec in Hm; [|done].
  pose proof (au_execution _ _ _ (inv_messages _ Hq _ _ Hm)) as Hex. revert Hex.
  unfold execution_authentic, execution_step. cbn [replay_executions].
  destruct (m_Execution m) as [result|] eqn:Hx, (m_ExecutionProof m) as [prf|] eqn:Hp; try done.
  2: { intros [Hh _]. exists p. split; [done|]. split; [done|]. symmetry. apply insert_id. rewrite Hn.
       f_equal. unfold source_only, unacknowledged, without_acknowledgement, undisputed. cbn.
       by rewrite Hx, Hp, Hh. }
  intros (Hid&(env&Henv&Hck)&Hkey). destruct (own_key p _ _ He Hkey) as [Hk Hsub].
  cbn [ProjectExecution]. rewrite <- (execution_check_ext q p), Hck; [|done|by rewrite Hid, Hm, Hn].
  unfold execution_commit. rewrite Hid, Hn. cbn [source_only m_Envelope]. rewrite bool_decide_true by done.
  rewrite Hk, source_only_conflict. cbn [negb]. cbn -[String.eqb]. rewrite String.eqb_refl. cbn. eexists. split; [done|]. split.
  - destruct Hs. by repeat split.
  - cbn. f_equal. unfold with_execution, unacknowledged, without_acknowledgement, undisputed. cbn.
    by rewrite Hx, Hp.
Qed.

Lemma acknowledgement_step_stage m p :
  m ∈ Snapshot q → good p → messages p !! m_MessageID m = Some (unacknowledged m) →
  ∃ p', acknowledgement_step m p = Ok p' ∧ good p' ∧
    messages p' = <[m_MessageID m := undisputed m]> (messages p).
Proof using All.
  intros Hm (Hs&Hr&He) Hn. apply Snapshot_spec in Hm; [|done].
  pose proof (au_acknowledgement _ _ _ (inv_messages _ Hq _ _ Hm)) as Hack.
  unfold acknowledgement_step. cbn [replay_acknowledgements].
  destruct (m_Acknowledgement m) as [a|] eqn:Ha.
  2: { exists p. split; [done|]. split; [done|]. symmetry. apply insert_id. rewrite Hn. f_equal.
       unfold unacknowledged, without_acknowledgement, undisputed. cbn. by rewrite Ha. }
  destruct (Hack a Ha) as (Hl&Hid&Hmt&v&Hv&Hf&Hz).
  assert (acknowledgement_matches a (unacknowledged m) = true) as Hmt' by exact Hmt.
  unfold acknowledgement_matches in Hmt. cbn [ProjectAcknowledgement]. unfold exactLength.
  rewrite Hid, Hl, Nat.eqb_refl, <- (ss_verifier _ _ Hs), Hv, Hf, (proj2 (String.eqb_neq _ _) Hz), Hn, Hmt'.
  destruct (ak_DestinationExecutionProof a), (ak_FinalityCertificate a);
    try by repeat case_match.
  cbn. eexists. split; [done|]. split; [|].
  - destruct Hs. by repeat split.
  - cbn. f_equal. unfold with_acknowledgement, unacknowledged, without_acknowledgement, undisputed. cbn.
    by rewrite Ha.
Qed.

Lemma Snapshot_NoDup : NoDup (m_MessageID <$> Snapshot q).
Proof using All.
  unfold Snapshot. rewrite <- list_fmap_compose.
  assert (NoDup (fst <$> sort_by fst (map_to_list (messages q)))) as Hnd.
  { rewrite (sort_by_perm _ _). apply NoDup_fst_map_to_list. }
  erewrite list_fmap_ext; [exact Hnd|]. intros i [id m] Hi%list_elem_of_lookup_2.
  rewrite (sort_by_perm _ _), elem_of_map_to_list in Hi. cbn.
  by destruct (au_source _ _ _ (inv_messages _ Hq _ _ Hi)) as (env&prf&_&_&->&_).
Qed.

(** The three loops turn an empty projector into the snapshot without its disputes. *)
Lemma replay_facts p :
  good p → messages p = ∅ →
  ∃ p3 p4 p5, replay_sources (Snapshot q) p = Ok p3 ∧ replay_executions (Snapshot q) p3 = Ok p4 ∧
    replay_acknowledgements (Snapshot q) p4 = Ok p5 ∧ good p5 ∧
    messages p5 = undisputed <$> messages q.
Proof using All.
  intros Hp Hm. pose proof Snapshot_NoDup as Hnd.
  destruct (replay_stage source_step good (λ _, None) source_only (Snapshot q) p Hnd)
    as (p3&H3&Hp3&Hin3&Hout3); [intros; by apply source_step_stage|done|by intros; rewrite Hm, lookup_empty|].
  destruct (replay_stage execution_step good (Some ∘ source_only) unacknowledged (Snapshot q) p3 Hnd)
    as (p4&H4&Hp4&Hin4&Hout4); [intros; by apply execution_step_stage|done|done|].
  destruct (replay_stage acknowledgement_step good (Some ∘ unacknowledged) undisputed (Snapshot q) p4 Hnd)
    as (p5&H5&Hp5&Hin5&Hout5); [intros; by apply acknowledgement_step_stage|done|done|].
  exists p3, p4, p5. rewrite replay_sources_replay, replay_executions_replay, replay_acknowledgements_replay.
  split_and!; try done. apply map_eq. intros id. rewrite lookup_fmap.
  destruct (messages q !! id) as [m|] eqn:Hl.
  - assert (m_MessageID m = id) as Hid.
    { by destruct (au_source _ _ _ (inv_messages _ Hq _ _ Hl)) as (?&?&_&_&->&_). }
    rewrite <- Hid in Hl |- *. cbn. apply Hin5. by apply Snapshot_spec.
  - assert (id ∉ m_MessageID <$> Snapshot q) as Hni.
    { intros (m&->&Hmin)%list_elem_of_fmap. apply Snapshot_spec in Hmin; [|done]. congruence. }
    by rewrite Hout5, Hout4, Hout3, Hm by done.
Qed.

(** ** The reports *)

Lemma reorganization_check_hash e config hash :
  reorganization_check q e = Ok (config, hash) → ro_EvidenceHash e = hash ∧ String.length hash = 32%nat.
Proof using All.
  unfold reorganization_check. destruct (ComputeReorganizationEvidenceHash e) as [h|] eqn:Hc; [|done].
  pass_if Hh. bool_facts. destruct (chains q !! ro_ChainId e); [|done]. pass_if Hp. pass_if Ho.
  destruct (VerifyReorganization _ _); [|done]. pass_if Hv. intros [= _ <-]. split; [done|].
  revert Hc. unfold ComputeReorganizationEvidenceHash. pass_if Hg.
  destruct (marshal_reorganization _); [|done]. intros [= <-]. apply keccak_length.
Qed.

Lemma reorganization_check_chain e config hash :
  reorganization_check q e = Ok (config, hash) → chains q !! ro_ChainId e = Some config.
Proof using.
  unfold reorganization_check. destruct (ComputeReorganizationEvidenceHash e); [|done].
  pass_if Hh. destruct (chains q !! ro_ChainId e); [|done]. pass_if Hp. pass_if Ho.
  destruct (VerifyReorganization _ _); [|done]. pass_if Hv. by intros [= -> _].
Qed.

Definition in_force (e : ReorganizationEvidence) : Prop :=
  ∃ id m, messages q !! id = Some m ∧ m_Reorganization m = Some e.

Hypothesis Hforce : restorable q.

Lemma in_force_hash e : in_force e → fixedBytes32 (ro_EvidenceHash e) = ro_EvidenceHash e ∧
  ro_EvidenceHash e ≠ zero32.
Proof using All.
  intros (id&m&Hm&He). destruct (proj1 Hforce _ _ _ Hm He) as (config&hash&policy&Hc&Hz&_).
  apply reorganization_check_hash in Hc as [-> Hl]. split; [|done].
  unfold fixedBytes32, exactLength. by rewrite Hl.
Qed.

Lemma collect_complete l rs :
  (∀ m, m ∈ l → messages q !! m_MessageID m = Some m) →
  (∀ h e, rs !! h = Some e → h = ro_EvidenceHash e ∧ in_force e) →
  ∃ rs', collect_reorganizations l rs = Ok rs' ∧
    (∀ h e, rs' !! h = Some e → h = ro_EvidenceHash e ∧ in_force e) ∧
    (∀ e, rs !! ro_EvidenceHash e = Some e → rs' !! ro_EvidenceHash e = Some e) ∧
    (∀ m e, m ∈ l → m_Reorganization m = Some e → rs' !! ro_EvidenceHash e = Some e).
Proof using All.
  revert rs. induction l as [|m l IH]; intros rs Hl Hrs.
  { exists rs. split_and!; try done. by intros m e ?%not_elem_of_nil. }
  pose proof (Hl m (list_elem_of_here _ _)) as Hm.
  assert (∀ m, m ∈ l → messages q !! m_MessageID m = Some m) as Hl'
    by (intros m' Hm'; by apply Hl, list_elem_of_further).
  pose proof (au_dispute _ _ _ (inv_messages _ Hq _ _ Hm)) as Hd. revert Hd. unfold dispute_authentic.
  cbn [collect_reorganizations].
  destruct (m_Disputed m), (m_Reorganization m) as [e|] eqn:He, (m_Incident m) as [i|]; try done; intros _.
  - assert (in_force e) as Hf by by exists (m_MessageID m), m.
    destruct (in_force_hash e Hf) as [-> Hz]. rewrite (proj2 (String.eqb_neq _ _) Hz).
    assert (match rs !! ro_EvidenceHash e with Some x => negb (bool_decide (x = e)) | None => false end
      = false) as ->.
    { destruct (rs !! ro_EvidenceHash e) as [x|] eqn:Hx; [|done].
      destruct (Hrs _ _ Hx) as [Hh (id2&m2&Hm2&He2)].
      rewrite bool_decide_true; [done|]. by apply (proj2 Hforce id2 m2 x (m_MessageID m) m e). }
    destruct (IH (<[ro_EvidenceHash e := e]> rs) Hl') as (rs'&Hc&Hok&Hkeep&Hin).
    + intros h x. rewrite lookup_insert_Some. intros [[<- <-]|[_ Hx]]; [done|by apply Hrs].
    + exists rs'. split_and!; try done.
      * intros x Hx. apply Hkeep. rewrite lookup_insert_Some.
        destruct (decide (ro_EvidenceHash e = ro_EvidenceHash x)) as [Hh|]; [left|by right].
        split; [done|]. destruct (Hrs _ _ Hx) as [_ (id2&m2&Hm2&He2)].
        by apply (proj2 Hforce (m_MessageID m) m e id2 m2 x).
      * intros m' x [->|Hm']%elem_of_cons Hx; [|by apply (Hin m')].
        rewrite He in Hx. injection Hx as <-. apply Hkeep. by rewrite lookup_insert_eq.
  - destruct (IH rs Hl' Hrs) as (rs'&Hc&Hok&Hkeep&Hin). exists rs'. split_and!; try done.
    intros m' x [->|Hm']%elem_of_cons Hx; [congruence|by apply (Hin m')].
Qed.

(** The messages once the reports in [done_] are replayed. *)
Definition view (done_ : list ReorganizationEvidence) (m : MessageProjection) : MessageProjection :=
  match m_Reorganization m with
  | Some e => if decide (e ∈ done_) then m else undisputed m
  | None => m
  end.

Lemma undisputed_view id m : messages q !! id = Some m → undisputed m = view [] m.
Proof using All.
  intros Hm. pose proof (au_dispute _ _ _ (inv_messages _ Hq _ _ Hm)) as Hd. revert Hd.
  unfold dispute_authentic, view. destruct (m_Reorganization m) as [e|] eqn:He.
  { by rewrite decide_False by apply not_elem_of_nil. }
  destruct (m_Disputed m) eqn:Hdd, (m_Incident m) eqn:Hi; try done. intros _.
  destruct m. cbn in *. unfold undisputed. cbn. by subst.
Qed.

(** Replaying the report of a message restores its dispute. *)
Lemma dispute_undisputed id m e config hash policy :
  messages q !! id = Some m → m_Reorganization m = Some e →
  reorganization_check q e = Ok (config, hash) →
  (∃ envelope, m_Envelope m = Some envelope ∧ fixedBytes32 (RoutePolicyHash envelope) = policy) →
  lookup_zero ""%string (routes q) policy ≠ "" ∧
  dispute e (incident_of e hash (lookup_zero ""%string (routes q) policy)) (undisputed m) = m.
Proof using All.
  intros Hm He Hc (env&Henv&Hpol). pose proof (au_dispute _ _ _ (inv_messages _ Hq _ _ Hm)) as Hd.
  revert Hd. unfold dispute_authentic. rewrite He.
  destruct (m_Disputed m) eqn:Hdd, (m_Incident m) as [i|] eqn:Hi; try done.
  intros (config'&hash'&index&route&env'&Hc'&_&_&Henv'&Hro&Hin).
  rewrite Hc in Hc'. injection Hc' as <- <-. rewrite Henv in Henv'. injection Henv' as <-.
  subst policy. rewrite (lookup_zero_Some _ _ _ _ Hro). split; [by apply (inv_routes _ Hq _ _ Hro)|].
  unfold dispute. cbn. destruct m. cbn in *. by subst.
Qed.

Lemma replay_reorganization_step e done_ p :
  in_force e → e ∉ done_ → good p → messages p = view done_ <$> messages q →
  ∃ p' r, ProjectReorganization (Some e) p = (p', Ok r) ∧ good p' ∧
    messages p' = view (e :: done_) <$> messages q.
Proof using All.
  intros (id0&m0&Hm0&He0) Hnd (Hs&Hr&Hev) Hm.
  destruct (proj1 Hforce _ _ _ Hm0 He0) as (config&hash&policy&Hc&Hz&Hall).
  cbn [ProjectReorganization]. rewrite <- (reorganization_check_ext q p), Hc by done.
  unfold reorganization_commit.
  assert (∀ i id, ro_AffectedMessageIds e !! i = Some id → ∃ m,
    messages p !! id = Some (undisputed m) ∧ messages q !! id = Some m ∧ m_Reorganization m = Some e ∧
    affected_ok config e i policy (undisputed m)) as Hin.
  { intros i id Hi. destruct (Hall _ _ Hi) as (m&Hqm&Hme&Hok). exists m. split_and!; try done.
    rewrite Hm, lookup_fmap, Hqm. cbn. unfold view. by rewrite Hme, decide_False. }
  rewrite (affected_loop_complete config e policy); [|intros i id Hi|done].
  2: { destruct (Hin _ _ Hi) as (m&Hpm&_&_&Hok). by exists (undisputed m). }
  rewrite decide_False by by apply (reorganization_check_ids q e _ Hc). rewrite Hr.
  assert (∀ id, id ∈ ro_AffectedMessageIds e → ∃ m, messages p !! id = Some (undisputed m) ∧
    messages q !! id = Some m ∧ m_Reorganization m = Some e ∧
    lookup_zero ""%string (routes q) policy ≠ "" ∧
    dispute e (incident_of e hash (lookup_zero ""%string (routes q) policy)) (undisputed m) = m) as Hdis.
  { intros id [i Hi]%list_elem_of_lookup. destruct (Hin _ _ Hi) as (m&Hpm&Hqm&Hme&[Henv _]).
    exists m. split_and!; try done; by apply (dispute_undisputed id m e config hash policy). }
  set (incident := incident_of e hash _) in *.
  assert (empty_s (ic_RouteId incident) = false) as ->.
  { destruct (ro_AffectedMessageIds e) as [|id ids] eqn:Hids; [by apply reorganization_check_ids in Hc|].
    destruct (Hdis id (list_elem_of_here _ _)) as (m&_&_&_&Hne&_). by apply String.eqb_neq. }
  pose proof (λ k Hx, mark_loop_messages e incident (ro_AffectedMessageIds e) (messages p) k Hx) as Hmm.
  destruct (mark_loop _ _ _ _) as [ms affected]. do 2 eexists. split; [done|]. split.
  { destruct Hs. by repeat split. }
  apply map_eq. intros k. cbn. rewrite Hmm.
  2: { intros id Hid. destruct (Hdis id Hid) as (m&->&_). done. }
  rewrite lookup_fmap. destruct (decide _) as [Hk|Hk].
  - destruct (Hdis k Hk) as (m&->&->&Hme&_&Hd). cbn [fmap option_fmap option_map]. rewrite Hd. f_equal. unfold view.
    by rewrite Hme, decide_True by apply list_elem_of_here.
  - rewrite Hm, lookup_fmap. destruct (messages q !! k) as [m|] eqn:Hqm; [|done]. cbn. f_equal.
    unfold view. destruct (m_Reorganization m) as [x|] eqn:Hx; [|done].
    assert (x ≠ e) as Hne.
    { intros ->. apply Hk. pose proof (au_dispute _ _ _ (inv_messages _ Hq _ _ Hqm)) as Hd. revert Hd.
      unfold dispute_authentic. rewrite Hx. destruct (m_Disputed m), (m_Incident m); try done.
      intros (?&?&index&?&?&_&Hi&_). by apply list_elem_of_lookup_2 in Hi. }
    destruct (decide (x ∈ done_)) as [Hxd|Hxd].
    + by rewrite decide_True by by apply list_elem_of_further.
    + rewrite decide_False; [done|]. by intros [->|]%elem_of_cons.
Qed.

Lemma replay_reorganizations_complete es done_ p :
  NoDup es → (∀ e, e ∈ es → in_force e ∧ e ∉ done_) → good p →
  messages p = view done_ <$> messages q →
  ∃ p', replay_reorganizations es p = Ok p' ∧ good p' ∧
    messages p' = view (rev es ++ done_) <$> messages q.
Proof using All.
  revert done_ p. induction es as [|e es IH]; intros done_ p Hnd Hin Hp Hm; [by exists p|].
  apply NoDup_cons in Hnd as [Hne Hnd]. cbn [replay_reorganizations].
  destruct (Hin e (list_elem_of_here _ _)) as [Hf Hnd'].
  destruct (replay_reorganization_step e done_ p Hf Hnd' Hp Hm) as (p2&r&->&Hp2&Hm2).
  destruct (IH (e :: done_) p2) as (p'&Hr&Hp'&Hm'); try done.
  - intros x Hx. destruct (Hin x (list_elem_of_further _ _ _ Hx)) as [Hxf Hxd]. split; [done|].
    intros [->|?]%elem_of_cons; done.
  - exists p'. split_and!; try done. cbn [rev]. by rewrite <- app_assoc.
Qed.
End Stages.

(** ** The whole *)

Lemma bind_routes_complete bindings p :
  (∀ k r, (k, r) ∈ bindings → k ≠ zero32 ∧ r ≠ "" ∧ routes p !! k = None) →
  NoDup (fst <$> bindings) → ∃ p', bind_routes bindings p = Ok p'.
Proof.
  revert p. induction bindings as [|[k r] rest IH]; intros p Hall Hnd; [by exists p|].
  rewrite fmap_cons in Hnd. apply NoDup_cons in Hnd as [Hn Hnd]. cbn [bind_routes].
  destruct (Hall k r (list_elem_of_here _ _)) as (Hk&Hr&Hl). unfold BindRoute.
  rewrite (proj2 (String.eqb_neq _ _) Hk), (proj2 (String.eqb_neq _ _) Hr), Hl. cbn [orb].
  apply IH; [|done]. intros k' r' Hin.
  destruct (Hall k' r' (list_elem_of_further _ _ _ Hin)) as (?&?&?). split_and!; try done. cbn.
  rewrite lookup_insert_ne; [done|]. intros ->. apply Hn. by apply (list_elem_of_fmap_2 fst _ (k', r')).
Qed.

Lemma rebuild_started p0 :
  inv p0 → ∃ p1 p2,
    NewProjector (Some (verifier p0)) (sort_by cc_ChainID (snd <$> map_to_list (chains p0))) = Ok p1 ∧
    bind_routes (sort_by fst (map_to_list (routes p0))) p1 = Ok p2.
Proof.
  intros Hi. assert (∀ c, c ∈ snd <$> map_to_list (chains p0) → chains p0 !! cc_ChainID c = Some c) as Hc.
  { intros c ([k c']&->&Hk)%list_elem_of_fmap. apply elem_of_map_to_list in Hk. cbn.
    by rewrite (proj1 (inv_chains _ Hi _ _ Hk)). }
  unfold NewProjector. rewrite (proj2 (Nat.ltb_ge _ _)).
  2: { rewrite (Permutation_length (sort_by_perm _ _)), length_fmap, length_map_to_list. exact (inv_size _ Hi). }
  destruct (add_chains_complete (sort_by cc_ChainID (snd <$> map_to_list (chains p0))) ∅) as [m ->].
  - intros c. rewrite (sort_by_perm _ _). intros Hin%Hc. split; [by apply (inv_chains _ Hi _ _ Hin)|].
    by rewrite lookup_empty.
  - rewrite (sort_by_perm _ _), <- list_fmap_compose.
    erewrite list_fmap_ext; [apply (NoDup_fst_map_to_list (chains p0))|].
    intros i [k c] Hk%list_elem_of_lookup_2. apply elem_of_map_to_list in Hk. cbn.
    by rewrite (proj1 (inv_chains _ Hi _ _ Hk)).
  - destruct (bind_routes_complete (sort_by fst (map_to_list (routes p0)))
      (mkProjector m ∅ ∅ ∅ (verifier p0))) as [p2 H2].
    + intros k r. rewrite (sort_by_perm _ _), elem_of_map_to_list. intros Hk.
      by destruct (inv_routes _ Hi _ _ Hk).
    + rewrite (sort_by_perm _ _). apply NoDup_fst_map_to_list.
    + by eexists _, p2.
Qed.

Lemma rebuild_complete q p0 :
  inv q → inv p0 → restorable q → same_setup q p0 → routes p0 = routes q →
  ∃ r, rebuild p0 (Snapshot q) = Ok r ∧ messages r = messages q ∧ routes r = routes q.
Proof.
  intros Hq Hi Hf Hs Hr. destruct (rebuild_started p0 Hi) as (p1&p2&H1&H2).
  destruct (rebuild_start p0 p1 p2 Hi H1 H2) as ((Hi2&Hs2&Hr2)&Hm2&He2).
  assert (good q p2) as Hg.
  { destruct Hs, Hs2. split; [split; congruence|]. split; [congruence|]. rewrite He2. apply map_empty_subseteq. }
  destruct (replay_facts q Hq p2 Hg Hm2) as (p3&p4&p5&H3&H4&H5&Hg5&Hm5).
  assert (∀ m, m ∈ Snapshot q → messages q !! m_MessageID m = Some m) as Hin
    by (intros m; by apply Snapshot_spec).
  destruct (collect_complete q Hq Hf (Snapshot q) ∅ Hin) as (rs&H6&Hok&_&Hall); [done|].
  destruct (replay_reorganizations_complete q Hq Hf (snd <$> sort_by fst (map_to_list rs)) [] p5)
    as (p6&H7&Hg6&Hm6).
  - apply (NoDup_fmap_1 ro_EvidenceHash). rewrite <- list_fmap_compose.
    erewrite list_fmap_ext; [rewrite (sort_by_perm _ _); apply (NoDup_fst_map_to_list rs)|].
    intros i [k e] Hk%list_elem_of_lookup_2. rewrite (sort_by_perm _ _), elem_of_map_to_list in Hk.
    by destruct (Hok _ _ Hk) as [-> _].
  - intros e ([k e']&->&Hk)%list_elem_of_fmap. rewrite (sort_by_perm _ _), elem_of_map_to_list in Hk.
    split; [by apply (Hok k)|apply not_elem_of_nil].
  - done.
  - rewrite Hm5. apply map_fmap_ext. intros id m Hm. by apply (undisputed_view q Hq Hf id).
  - assert (messages p6 = messages q) as Hm.
    { rewrite Hm6. etrans; [|apply map_fmap_id]. apply map_fmap_ext. intros id m Hm. unfold view.
      destruct (m_Reorganization m) as [e|] eqn:He; [|done]. rewrite decide_True; [done|].
      rewrite app_nil_r, list_elem_of_In, <- in_rev, <- list_elem_of_In, list_elem_of_fmap. exists (ro_EvidenceHash e, e). split; [done|].
      rewrite (sort_by_perm _ _), elem_of_map_to_list. apply (Hall m); [|done].
      apply Snapshot_spec; [done|].
      by destruct (au_source _ _ _ (inv_messages _ Hq _ _ Hm)) as (?&?&_&_&->&_). }
    exists p6. unfold rebuild. rewrite H1, H2, H3, H4, H5, H6, H7.
    assert (same_as_snapshot (Snapshot q) p6 = true) as ->.
    { unfold same_as_snapshot. apply forallb_forall. intros m Hmin%list_elem_of_In.
      unfold Get. rewrite Hm, (Hin m Hmin). by apply sameProjection_eq. }
    split; [done|]. split; [done|]. apply Hg6.
Qed.

Lemma sameRouteBindings_refl r : sameRouteBindings r r = true.
Proof.
  unfold sameRouteBindings. rewrite Nat.eqb_refl. cbn. apply forallb_forall.
  intros [k v] Hk%list_elem_of_In. apply elem_of_map_to_list in Hk.
  rewrite (lookup_zero_Some _ _ _ _ Hk). by apply String.eqb_eq.
Qed.

(** C17: The snapshot of a projector restores: a fresh projector with the same chains,
    verifier and routes accepts the snapshot of any reachable projector whose reports are
    still in force, and then holds the same messages. *)
Theorem restore_complete v configs start h q v0 configs0 start0 h0 p0 :
  NewProjector v configs = Ok start → reaches start h q →
  NewProjector v0 configs0 = Ok start0 → reaches start0 h0 p0 →
  messages p0 = ∅ → eventIDs p0 = ∅ → same_setup q p0 → routes p0 = routes q → restorable q →
  ∃ p', RestoreSnapshot p0 (Snapshot q) p0 = (p', Ok ()) ∧ messages p' = messages q ∧ routes p' = routes q.
Proof.
  intros Hn Hr Hn0 Hr0 Hm He Hs Hro Hf. pose proof (reaches_inv _ _ _ _ _ Hn Hr) as Hq.
  pose proof (reaches_inv _ _ _ _ _ Hn0 Hr0) as Hi.
  destruct (rebuild_complete q p0 Hq Hi Hf Hs Hro) as (r&Hrb&Hmr&Hrr).
  unfold RestoreSnapshot. rewrite Hm, He, Hrb. rewrite sameRouteBindings_refl. cbn.
  eexists. split; [done|]. done.
Qed.

(** ** The converse: what a restoration that succeeds says of the reports *)

Section Converse.
Variable q : Projector.
Hypothesis Hq : inv q.

(** What the first loop collects: every report under its hash, and one per hash. *)
Lemma collect_Ok l rs rs' :
  collect_reorganizations l rs = Ok rs' →
  (∀ h e, rs !! h = Some e → rs' !! h = Some e) ∧
  (∀ m e, m ∈ l → m_Reorganization m = Some e →
     fixedBytes32 (ro_EvidenceHash e) ≠ zero32 ∧ rs' !! fixedBytes32 (ro_EvidenceHash e) = Some e) ∧
  (∀ h e, rs' !! h = Some e → rs !! h = Some e ∨ h = fixedBytes32 (ro_EvidenceHash e)).
Proof using All.
  revert rs. induction l as [|m l IH]; intros rs; cbn [collect_reorganizations].
  { intros [= ->]. split_and!; [done| |by left]. by intros m e ?%not_elem_of_nil. }
  destruct (m_Disputed m), (m_Reorganization m) as [e|] eqn:He, (m_Incident m); try done.
  2: { intros (Hk&Ha&Hb)%IH. split_and!; [done| |done].
       intros m' x [->|Hm']%elem_of_cons Hx; [congruence|by apply (Ha m')]. }
  pass_if Hz. pass_if Hx. intros (Hk&Ha&Hb)%IH. split_and!.
  - intros h x Hl. apply Hk. rewrite lookup_insert_Some.
    destruct (decide (fixedBytes32 (ro_EvidenceHash e) = h)) as [<-|]; [left|by right].
    split; [done|]. rewrite Hl in Hx. by bool_facts.
  - intros m' x [->|Hm']%elem_of_cons Hx'; [|by apply (Ha m')].
    rewrite He in Hx'. injection Hx' as <-. split; [by apply String.eqb_neq|].
    apply Hk, lookup_insert_eq.
  - intros h x [Hl|]%Hb; [|by right]. rewrite lookup_insert_Some in Hl.
    destruct Hl as [[<- <-]|[_ Hl]]; auto.
Qed.

(** A disputed message is left as it is. *)
Lemma replay_reorganizations_kept es p p' id m :
  replay_reorganizations es p = Ok p' → messages p !! id = Some m → m_Disputed m = true →
  messages p' !! id = Some m.
Proof using All.
  revert p. induction es as [|e es IH]; intros p; cbn [replay_reorganizations]; [by intros [= ->]|].
  destruct (ProjectReorganization (Some e) p) as [p2 [[incident affected]|]] eqn:Hp; [|done].
  apply ProjectReorganization_Ok in Hp as (e'&_&[_ Hms _ _ _ _ _]). intros Hr Hm Hd.
  apply (IH p2); [done| |done]. rewrite Hms, Hm. cbn. unfold dispute. rewrite Hd.
  by destruct (decide _).
Qed.

(** Between two reports each message is the snapshot's without its dispute, or disputed by a
    report already replayed. *)
Definition replayed (done_ : list ReorganizationEvidence) (p : Projector) : Prop :=
  same_setup q p ∧ ∀ id m', messages p !! id = Some m' →
    (∃ m, messages q !! id = Some m ∧ m' = undisputed m) ∨
    (m_Disputed m' = true ∧ ∃ x, x ∈ done_ ∧ m_Reorganization m' = Some x).

Lemma replayed_step e done_ p p' incident affected :
  replayed done_ p → reorganized p p' e incident affected → replayed (e :: done_) p'.
Proof using All.
  intros [[Hc Hv] Hall] [_ Hms _ Hc' _ _ Hv']. split; [split; congruence|]. intros id m'. rewrite Hms.
  destruct (decide _) as [Hin|Hin].
  - destruct (messages p !! id) as [m0|] eqn:Hm0; [|done]. intros [= <-]. right.
    destruct (Hall _ _ Hm0) as [(m&Hm&->)|[Hd (x&Hx&Hr)]].
    + split; [done|]. exists e. split; [apply list_elem_of_here|done].
    + unfold dispute. rewrite Hd. split; [done|]. exists x. split; [by apply list_elem_of_further|done].
  - intros [Hm|[Hd (x&Hx&Hr)]]%Hall; [by left|right]. split; [done|].
    exists x. split; [by apply list_elem_of_further|done].
Qed.

(** A report that is replayed orphans every message it names. *)
Lemma replay_reorganizations_orphaned es done_ p p' :
  NoDup es → (∀ e, e ∈ es → e ∉ done_) → replayed done_ p →
  replay_reorganizations es p = Ok p' → messages p' = messages q →
  ∀ e, e ∈ es → fixedBytes32 (ro_EvidenceHash e) ≠ zero32 → still_orphaned q e.
Proof using All.
  revert done_ p. induction es as [|x es IH]; intros done_ p Hnd Hdis Hj; cbn [replay_reorganizations].
  { by intros _ _ e ?%not_elem_of_nil. }
  apply NoDup_cons in Hnd as [Hxe Hnd].
  destruct (ProjectReorganization (Some x) p) as [p2 [[incident affected]|]] eqn:Hp; [|done].
  apply ProjectReorganization_Ok in Hp as (?&[= <-]&Hr). intros Hrest Hm' e He Hz.
  apply elem_of_cons in He as [->|He].
  2: { apply (IH (x :: done_) p2); try done; [|by eapply replayed_step].
       intros y Hy [->|?]%elem_of_cons; [done|].
       by apply (Hdis y); [apply list_elem_of_further|]. }
  destruct Hj as [Hs Hall]. destruct Hr as [(config&hash&policy&Hck&Haf&_) Hms _ _ _ _ _].
  rewrite <- (reorganization_check_ext q p) in Hck by done. exists config, hash, policy. split; [done|].
  destruct (reorganization_check_hash q Hq x _ _ Hck) as [Hh Hl]. split.
  { intros ->. apply Hz. unfold fixedBytes32, exactLength. by rewrite Hh. }
  intros i id Hi. destruct (Haf i id Hi) as (m0&Hm0&Hok). exists (dispute x incident m0).
  assert (m_Disputed m0 = false) as Hd0.
  { destruct Hok as [_ Hok]. destruct (Hall _ _ Hm0) as [(m&_&->)|[Hd (y&Hy&Hry)]]; [done|].
    rewrite Hd, Hry in Hok. injection Hok as ->.
    by destruct (Hdis x (list_elem_of_here _ _)). }
  assert (messages p2 !! id = Some (dispute x incident m0)) as H2.
  { rewrite Hms, Hm0, decide_True; [done|]. by apply list_elem_of_lookup_2 in Hi. }
  split; [|split].
  - rewrite <- Hm'. apply (replay_reorganizations_kept es p2); try done. unfold dispute. by rewrite Hd0.
  - unfold dispute. by rewrite Hd0.
  - destruct (Hall _ _ Hm0) as [(m&Hm&->)|[Hd _]]; [|congruence]. exact Hok.
Qed.

Lemma rebuild_restorable p0 r :
  inv p0 → same_setup q p0 → routes p0 = routes q → rebuild p0 (Snapshot q) = Ok r → restorable q.
Proof using All.
  intros Hi Hs Hr Hrb. pose proof (rebuild_messages _ _ _ Hi Hrb) as Hm. revert Hrb. unfold rebuild.
  destruct (rebuild_started p0 Hi) as (p1&p2&H1&H2). rewrite H1, H2.
  destruct (rebuild_start p0 p1 p2 Hi H1 H2) as ((Hi2&Hs2&Hr2)&Hm2&He2).
  assert (good q p2) as Hg.
  { destruct Hs, Hs2. split; [split; congruence|]. split; [congruence|]. rewrite He2. apply map_empty_subseteq. }
  destruct (replay_facts q Hq p2 Hg Hm2) as (p3&p4&p5&H3&H4&H5&Hg5&Hm5). rewrite H3, H4, H5.
  destruct (collect_reorganizations (Snapshot q) ∅) as [rs|] eqn:H6; [|done].
  destruct (replay_reorganizations _ p5) as [p6|] eqn:H7; [|done]. destruct (negb _); [done|].
  intros [= ->]. apply collect_Ok in H6 as (_&Hin&Hkey).
  assert (∀ id m, messages q !! id = Some m → m ∈ Snapshot q) as Hsn.
  { intros id m Hl. apply Snapshot_spec; [done|].
    by destruct (au_source _ _ _ (inv_messages _ Hq _ _ Hl)) as (?&?&_&_&->&_). }
  split.
  2: { intros id1 m1 e1 id2 m2 e2 Hl1 He1 Hl2 He2' Hh.
       destruct (Hin m1 e1 (Hsn _ _ Hl1) He1) as [_ Hx1].
       destruct (Hin m2 e2 (Hsn _ _ Hl2) He2') as [_ Hx2]. congruence. }
  intros id m e Hl He. destruct (Hin m e (Hsn _ _ Hl) He) as [Hz Hx].
  refine (replay_reorganizations_orphaned _ [] p5 r _ _ _ H7 _ e _ Hz).
  - apply (NoDup_fmap_1 (λ e, fixedBytes32 (ro_EvidenceHash e))). rewrite <- list_fmap_compose.
    erewrite list_fmap_ext; [rewrite (sort_by_perm _ _); apply (NoDup_fst_map_to_list rs)|].
    intros i [k e'] Hk%list_elem_of_lookup_2. rewrite (sort_by_perm _ _), elem_of_map_to_list in Hk.
    cbn. destruct (Hkey _ _ Hk) as [Hk0|Hk0]; [by rewrite lookup_empty in Hk0|done].
  - intros. apply not_elem_of_nil.
  - split; [by destruct Hg5|]. intros k m'. rewrite Hm5, lookup_fmap.
    destruct (messages q !! k) as [m0|] eqn:Hl0; [|done]. intros [= <-]. left. by exists m0.
  - apply map_eq. intros k. apply option_eq. intros m'. rewrite Hm, Snapshot_spec by done. split.
    + by intros [? <-].
    + intros Hk. assert (m_MessageID m' = k) as <-; [|done].
      by destruct (au_source _ _ _ (inv_messages _ Hq _ _ Hk)) as (?&?&_&_&->&_).
  - rewrite list_elem_of_fmap. exists (fixedBytes32 (ro_EvidenceHash e), e). split; [done|].
    by rewrite (sort_by_perm _ _), elem_of_map_to_list.
Qed.
End Converse.

(** With [restore_complete]: the snapshot is accepted exactly when the reports are in force. *)
Lemma restore_needs_reports v configs start h q v0 configs0 start0 h0 p0 p' :
  NewProjector v configs = Ok start → reaches start h q →
  NewProjector v0 configs0 = Ok start0 → reaches start0 h0 p0 →
  same_setup q p0 → routes p0 = routes q →
  RestoreSnapshot p0 (Snapshot q) p0 = (p', Ok ()) → restorable q.
Proof.
  intros Hn Hr Hn0 Hr0 Hs Hro. unfold RestoreSnapshot. destruct (_ || _); [done|].
  destruct (rebuild p0 (Snapshot q)) as [r|] eqn:Hrb; [|done]. intros _.
  exact (rebuild_restorable q (reaches_inv _ _ _ _ _ Hn Hr) p0 r (reaches_inv _ _ _ _ _ Hn0 Hr0) Hs Hro Hrb).
Qed.

(** A rebuild fails with one error. *)
Lemma restore_error before snapshot p p' err :
  RestoreSnapshot before snapshot p = (p', Err err) → p' = p.
Proof. unfold RestoreSnapshot. by repeat case_match; intros [= <- _]. Qed.

(** C20: An acknowledgement that arrives after a dispute can make the snapshot useless. When
    a message of a reachable projector is disputed by a report on a chain other than its
    source chain, and its acknowledgement carries a finality certificate other than the one
    the report lists for it, no projector with the same chains, verifier and routes accepts
    the snapshot: the restoration fails and changes nothing. (The restoration replays the
    acknowledgements before the reports, and a report compares the certificate of an
    acknowledgement it finds; in the original run there was none yet to compare.) *)
Theorem late_acknowledgement_blocks_restore v configs start h q v0 configs0 start0 h0 p0
    id m e a i :
  NewProjector v configs = Ok start → reaches start h q →
  NewProjector v0 configs0 = Ok start0 → reaches start0 h0 p0 →
  same_setup q p0 → routes p0 = routes q →
  Get id q = Some m → m_Reorganization m = Some e → ro_AffectedMessageIds e !! i = Some id →
  m_SourceChainID m ≠ ro_ChainId e →
  m_Acknowledgement m = Some a →
  ro_AffectedOrphanedFinalityCertificates e !! i ≠ Some (ak_FinalityCertificate a) →
  ∃ err, RestoreSnapshot p0 (Snapshot q) p0 = (p0, Err err).
Proof.
  intros Hn Hr Hn0 Hr0 Hs Hro Hm He Hi Hsc Ha Hc.
  destruct (RestoreSnapshot p0 (Snapshot q) p0) as [p' [[]|err]] eqn:Hp.
  2: { apply restore_error in Hp as ->. by exists err. }
  destruct (restore_needs_reports _ _ _ _ _ _ _ _ _ _ _ Hn Hr Hn0 Hr0 Hs Hro Hp) as [Hall _].
  destruct (Hall _ _ _ Hm He) as (config&hash&policy&Hck&_&Hin). exfalso.
  destruct (Hin i id Hi) as (m'&Hm'&_&[_ Hok]). unfold Get in Hm. rewrite Hm in Hm'. injection Hm' as <-.
  apply reorganization_check_chain in Hck as Hch.
  apply (inv_chains _ (reaches_inv _ _ _ _ _ Hn Hr)) in Hch as [Hid _].
  cbn in Hok. destruct Hok as [Hok|Hok]; revert Hok.
  - unfold sourceAffected. cbn. rewrite Hid, (proj2 (String.eqb_neq _ _) Hsc). by rewrite andb_false_r.
  - unfold executionAffected. cbn. rewrite Ha, (bool_decide_false _ Hc). by rewrite andb_false_r.
Qed.
End Restore.
