(* ===== verification/ProjectorSample.v ===== *)
(** The cross-chain projector on concrete data: a message, its execution, two
    acknowledgements and a reorganization of the execution's block; the witnesses of the
    theorems, and two runs that show what a restoration and a removal do not preserve. *)
From S2P Require Import Prelude GoStd CrossChainTypes Message Projector ProjectorInvariant ProjectorSafety ProjectorEvidence ProjectorRestore.
Import Message.Sample.

Definition envelope1 : Envelope := sealed 1 200.
Definition id1 : string := MessageId envelope1.

Definition home : ChainConfig := mkChainConfig "1" (b20 2) (b32 21) (b32 10) (b32 22) 12.
Definition satellite : ChainConfig := mkChainConfig "10" (b20 4) (b32 23) (b32 11) (b32 24) 6.

(** An observed proof with its commitment. *)
Definition observed (config : ChainConfig) (block number tx log head : Z) : SourceEventProof :=
  let make commitment :=
    mkProof id1 (cc_ChainID config) (cc_Coordinator config) (b32 block) number (Some (mkTimestamp 150 0))
      (b32 tx) 0 (b32 81) (b32 82) log (b32 83) (b32 84) head (cc_RequiredDepth config)
      (cc_ObserverAuthority config) "signature" (cc_FinalityPolicyHash config) commitment in
  match ComputeObserverHeaderCommitment (make ""%string) with Ok c => make c | Err _ => make ""%string end.

Definition source1 : SourceEventProof := observed home 91 100 92 3 112.
Definition executed1 : SourceEventProof := observed satellite 93 50 94 4 56.

Definition certified (proof : SourceEventProof) (tag : Z) : FinalityCertificate :=
  mkCertificate id1 (match ComputeSourceProofHash proof with Ok h => h | Err _ => ""%string end)
    (b32 31) 1 2 ["s1"; "s2"]%string (Some (mkTimestamp 0 0)) (Some (mkTimestamp 10 0)) (b32 tag).

Definition result1 : ExecutionResult :=
  mkExecution id1 (LaneId envelope1) 1 (ActionType envelope1) (DestinationComponent envelope1) (b32 51)
    "10" (sp_TransactionHash executed1) (sp_LogIndex executed1) (Some (mkTimestamp 160 0)).

Definition acknowledged1 (tag : Z) : Acknowledgement :=
  mkAcknowledgement id1 (b32 51) (Some executed1) (Some (certified executed1 tag))
    (Some (mkTimestamp 170 0)).

(** A report that orphans the block of the execution. *)
Definition report_with (replacement detected hash : string) : ReorganizationEvidence :=
  mkReorganization "10" (sp_SourceBlockHash executed1) (b32 71) (b32 72) 50 80 [id1] hash
    (Some (mkTimestamp 180 0)) (Some executed1) (b32 42) 50 (b32 24) replacement "sig" (b32 24) detected
    "sig" (b32 11) (Some (certified executed1 61)) [Some executed1] [b32 42]
    [Some (certified executed1 61)].
Definition commitment_of (kind : string) : string :=
  match ComputeReorganizationHeaderCommitment kind (report_with "" "" "") with
  | Ok c => c | Err _ => ""%string
  end.
Definition report (hash : string) : ReorganizationEvidence :=
  report_with (commitment_of "REPLACEMENT") (commitment_of "DETECTED_HEAD") hash.

(** A stand-in codec that knows this report. *)
#[export] Instance toy_codec : ReorganizationCodec.
Proof.
  refine {| marshal_reorganization e := if decide (e = report "") then Some "report"%string else None;
            unmarshal_reorganization bytes := if bytes =s "report" then Some (report "") else None |}.
  intros e bytes. destruct (decide (e = report "")) as [->|]; [|done]. intros [= <-]. reflexivity.
Defined.

Definition report1 : ReorganizationEvidence :=
  report (match ComputeReorganizationEvidenceHash (report "") with Ok h => h | Err _ => ""%string end).

(** The source is final when it comes with a certificate. *)
Definition toy_verifier : EvidenceVerifier :=
  mkVerifier (λ _ _ c, Some (mkVerification (b32 41) (bool_decide (is_Some c))))
    (λ _ _, Some (mkVerification (b32 42) true)) (λ _, Some (mkVerification (b32 43) true))
    (λ e, Some (mkVerification (ro_EvidenceHash e) true)).

Definition start0 : Projector :=
  match NewProjector (Some toy_verifier) [home; satellite] with
  | Ok p => p
  | Err _ => mkProjector ∅ ∅ ∅ ∅ toy_verifier
  end.
Definition routed : Projector := (BindRoute "route-1" (RoutePolicyHash envelope1) start0).1.
Definition sourced : Projector :=
  (ProjectSource (Some envelope1) (Some source1) (Some (certified source1 60)) routed).1.
Definition executed_at : Projector := (ProjectExecution sourced (Some result1) (Some executed1) sourced).1.
Definition acknowledged_at : Projector := (ProjectAcknowledgement (Some (acknowledged1 61)) executed_at).1.
Definition disputed_at : Projector := (ProjectReorganization (Some report1) acknowledged_at).1.

Lemma start0_new : NewProjector (Some toy_verifier) [home; satellite] = Ok start0.
Proof. reflexivity. Qed.
Lemma routed_ok : (BindRoute "route-1" (RoutePolicyHash envelope1) start0).2 = Ok ().
Proof. vm_compute. reflexivity. Qed.
Lemma sourced_ok : is_ok (ProjectSource (Some envelope1) (Some source1) (Some (certified source1 60)) routed).2 = true.
Proof. vm_compute. reflexivity. Qed.
Lemma executed_ok : is_ok (ProjectExecution sourced (Some result1) (Some executed1) sourced).2 = true.
Proof. vm_compute. reflexivity. Qed.
Lemma acknowledged_ok : is_ok (ProjectAcknowledgement (Some (acknowledged1 61)) executed_at).2 = true.
Proof. vm_compute. reflexivity. Qed.
Lemma disputed_ok : is_ok (ProjectReorganization (Some report1) acknowledged_at).2 = true.
Proof. vm_compute. reflexivity. Qed.

(** * Runs *)

Definition sourced_history : list Projector := [sourced; routed; start0].
Definition disputed_history : list Projector :=
  [disputed_at; acknowledged_at; executed_at] ++ sourced_history.

Lemma routed_reached : reaches start0 [routed; start0] routed.
Proof. exact (reaches_route _ _ _ _ _ (reaches_start start0)). Qed.
Lemma sourced_reached : reaches start0 sourced_history sourced.
Proof. exact (reaches_source _ _ _ _ _ _ routed_reached). Qed.
Lemma executed_reached : reaches start0 (executed_at :: sourced_history) executed_at.
Proof. exact (reaches_execution _ _ _ sourced _ _ sourced_reached (list_elem_of_here _ _)). Qed.
Lemma acknowledged_reached :
  reaches start0 (acknowledged_at :: executed_at :: sourced_history) acknowledged_at.
Proof. exact (reaches_acknowledgement _ _ _ _ executed_reached). Qed.
Lemma disputed_reached : reaches start0 disputed_history disputed_at.
Proof. exact (reaches_reorganization _ _ _ _ acknowledged_reached). Qed.

(** The one message of a state. *)
Definition the_message (p : Projector) : MessageProjection := lookup_zero zero_projection (messages p) id1.
Lemma the_message_get p : has_key (messages p) id1 = true → Get id1 p = Some (the_message p).
Proof.
  intros [m Hm]%has_key_true. unfold the_message. rewrite (lookup_zero_Some _ _ _ _ Hm). exact Hm.
Qed.

Lemma the_message_lookup p : Get id1 p = Some (the_message p) → messages p !! id1 = Some (the_message p).
Proof. done. Qed.

Lemma disputed_get : Get id1 disputed_at = Some (the_message disputed_at).
Proof. apply the_message_get. vm_compute. reflexivity. Qed.
Lemma sourced_get : Get id1 sourced = Some (the_message sourced).
Proof. apply the_message_get. vm_compute. reflexivity. Qed.

Lemma projections_authenticated_witness :
  m_Disputed (the_message disputed_at) = true ∧ authentic disputed_at id1 (the_message disputed_at).
Proof.
  split; [vm_compute; reflexivity|].
  exact (projections_authenticated _ _ _ _ _ _ _ start0_new disputed_reached disputed_get).
Defined.

Lemma sourced_passed : sourced ∈ disputed_history.
Proof. do 3 right. left. Qed.

Lemma final_projection_retained_witness :
  ∃ m', Get id1 disputed_at = Some m' ∧ extends (the_message sourced) m'.
Proof.
  refine (final_projection_retained _ _ _ _ _ sourced _ _ start0_new disputed_reached sourced_passed
    sourced_get _).
  vm_compute. reflexivity.
Defined.

Lemma disputed_rests : rests_on (the_message disputed_at) executed1.
Proof. right. vm_compute. reflexivity. Qed.

Lemma one_message_per_event_witness : rests_on (the_message disputed_at) executed1 ∧ id1 = id1.
Proof.
  split; [exact disputed_rests|].
  exact (one_message_per_event _ _ _ _ _ _ _ _ _ executed1 executed1 start0_new disputed_reached
    disputed_get disputed_get disputed_rests disputed_rests (conj eq_refl (conj eq_refl eq_refl))).
Defined.

Lemma reorganization_effect_witness :
  ∃ incident affected,
    ProjectReorganization (Some report1) acknowledged_at = (disputed_at, Ok (incident, affected)) ∧
    ProjectReorganization (Some report1) disputed_at = (disputed_at, Ok (incident, affected)).
Proof.
  pose proof disputed_ok as Hok.
  destruct (ProjectReorganization (Some report1) acknowledged_at) as [p' [[incident affected]|]] eqn:Hp;
    [|done].
  assert (p' = disputed_at) as -> by (unfold disputed_at; by rewrite Hp).
  exists incident, affected. split; [reflexivity|].
  exact (proj2 (reorganization_effect _ _ _ _ _ Hp)).
Defined.

Lemma refusal_changes_nothing_witness :
  (ProjectExecution start0 (Some result1) (Some executed1) start0).2 = Err ErrProjectionConflict ∧
  (ProjectExecution start0 (Some result1) (Some executed1) start0).1 = start0.
Proof.
  assert ((ProjectExecution start0 (Some result1) (Some executed1) start0).2 = Err ErrProjectionConflict)
    as He by (vm_compute; reflexivity).
  split; [exact He|].
  exact (proj1 (proj2 (proj2 (refusal_changes_nothing start0 start0 ErrProjectionConflict)))
    (Some result1) (Some executed1) He).
Defined.

Lemma source1_widths : proof_widths source1.
Proof. split; vm_compute; try split; congruence. Qed.

Lemma observer_commitment_binds_witness :
  header_fields source1 = header_fields source1 ∨ collides (observer_preimage source1) (observer_preimage source1).
Proof.
  refine (observer_commitment_binds source1 source1 (sp_ObserverSignedHeaderCommitment source1)
    source1_widths source1_widths _ _); vm_compute; reflexivity.
Defined.

Lemma certificate_binds_proof_witness :
  sp_MessageId source1 = sp_MessageId source1 ∧
  (attested_fields source1 = attested_fields source1 ∨
   collides (source_proof_preimage source1) (source_proof_preimage source1)).
Proof.
  refine (certificate_binds_proof source1 source1 (Some (certified source1 60)) source1_widths
    source1_widths _ _); vm_compute; reflexivity.
Defined.

Lemma evidence_blob_roundtrip_witness :
  ∃ blob, MarshalReorganizationEvidenceBlob report1 = Ok (blob, ro_EvidenceHash report1) ∧
    UnmarshalReorganizationEvidenceBlob blob (ro_EvidenceHash report1) =
      Ok (with_evidence_hash (ro_EvidenceHash report1) report1).
Proof.
  assert (MarshalReorganizationEvidenceBlob report1 =
    Ok (blob_of "report", ro_EvidenceHash report1)) as Hm by (vm_compute; reflexivity).
  exists (blob_of "report"). split; [exact Hm|].
  apply (proj1 evidence_blob_roundtrip _ _ _ Hm). vm_compute. congruence.
Defined.

(** * Restoration *)

Lemma only_message p id m :
  (map_to_list (messages p)).*1 = [id1] → messages p !! id = Some m → id = id1 ∧ m = the_message p.
Proof.
  intros Hl Hm. assert (id = id1) as ->.
  { pose proof Hm as Hin. apply elem_of_map_to_list, (list_elem_of_fmap_2 fst) in Hin. rewrite Hl in Hin.
    by apply list_elem_of_singleton in Hin. }
  split; [reflexivity|]. unfold the_message. by rewrite (lookup_zero_Some _ _ _ _ Hm).
Qed.

Lemma disputed_ids : (map_to_list (messages disputed_at)).*1 = [id1].
Proof. vm_compute. reflexivity. Qed.

Lemma singleton_index {A} (l : list A) x y i : l = [x] → l !! i = Some y → i = 0%nat ∧ y = x.
Proof. intros -> Hi. destruct i as [|[|i]]; [|done..]. by injection Hi as ->. Qed.

Lemma report1_ids : ro_AffectedMessageIds report1 = [id1].
Proof. reflexivity. Qed.

Lemma disputed_report : m_Reorganization (the_message disputed_at) = Some report1.
Proof. vm_compute. reflexivity. Qed.

Lemma disputed_restorable : restorable disputed_at.
Proof.
  split.
  - intros id m e [-> ->]%(only_message _ _ _ disputed_ids). rewrite disputed_report.
    intros <-%(inj Some).
    exists satellite, (ro_EvidenceHash report1), (RoutePolicyHash envelope1).
    split; [vm_compute; reflexivity|]. split; [vm_compute; congruence|].
    intros i id [-> ->]%(singleton_index _ _ _ _ report1_ids).
    exists (the_message disputed_at). split; [exact (the_message_lookup _ disputed_get)|].
    split; [exact disputed_report|].
    split; [exists envelope1; split; vm_compute; reflexivity|]. right. vm_compute. reflexivity.
  - intros id2 m2 e1 id3 m3 e2 [_ ->]%(only_message _ _ _ disputed_ids) He1
      [_ ->]%(only_message _ _ _ disputed_ids) He2 _.
    rewrite He1 in He2. by apply (inj Some) in He2.
Qed.

Lemma routed_setup : same_setup disputed_at routed ∧ routes routed = routes disputed_at.
Proof. split; [split|]; vm_compute; reflexivity. Qed.

Lemma restore_complete_witness :
  ∃ p', RestoreSnapshot routed (Snapshot disputed_at) routed = (p', Ok ()) ∧
    messages p' = messages disputed_at ∧ routes p' = routes disputed_at.
Proof.
  exact (restore_complete _ _ _ _ disputed_at _ _ _ _ routed start0_new disputed_reached start0_new
    routed_reached eq_refl eq_refl (proj1 routed_setup) (proj2 routed_setup) disputed_restorable).
Defined.

Lemma routed_passed : routed ∈ [routed; start0].
Proof. left. Qed.

Lemma restored_ok : (RestoreSnapshot routed (Snapshot disputed_at) routed).2 = Ok ().
Proof. vm_compute. reflexivity. Qed.

Lemma restore_sound_witness :
  ∃ p', RestoreSnapshot routed (Snapshot disputed_at) routed = (p', Ok ()) ∧
    ∀ id m, Get id p' = Some m ↔ m ∈ Snapshot disputed_at ∧ m_MessageID m = id.
Proof.
  pose proof restored_ok as Hok.
  destruct (RestoreSnapshot routed (Snapshot disputed_at) routed) as [p' r] eqn:Hp. cbn [snd] in Hok. subst r.
  exists p'. split; [reflexivity|].
  exact (restore_sound _ _ _ _ _ _ _ _ start0_new routed_reached routed_passed Hp).
Defined.

(** * An acknowledgement after the dispute

    The execution is disputed first and then acknowledged, with another certificate of the
    same execution. *)

Definition disputed_early : Projector := (ProjectReorganization (Some report1) executed_at).1.
Definition late : Projector := (ProjectAcknowledgement (Some (acknowledged1 62)) disputed_early).1.
Definition late_history : list Projector := [late; disputed_early; executed_at] ++ sourced_history.

Lemma late_reached : reaches start0 late_history late.
Proof.
  exact (reaches_acknowledgement _ _ _ _ (reaches_reorganization _ _ _ _ executed_reached)).
Qed.

Lemma late_accepted :
  is_ok (ProjectReorganization (Some report1) executed_at).2 = true ∧
  is_ok (ProjectAcknowledgement (Some (acknowledged1 62)) disputed_early).2 = true.
Proof. split; vm_compute; reflexivity. Qed.

Lemma late_get : Get id1 late = Some (the_message late).
Proof. apply the_message_get. vm_compute. reflexivity. Qed.

Lemma late_acknowledgement_blocks_restore_witness :
  ∃ err, RestoreSnapshot routed (Snapshot late) routed = (routed, Err err).
Proof.
  refine (late_acknowledgement_blocks_restore _ _ _ _ late _ _ _ _ routed id1 (the_message late) report1
    (acknowledged1 62) 0 start0_new late_reached start0_new routed_reached _ _ late_get _ _ _ _ _);
    [split| | | | | |]; vm_compute; congruence.
Defined.

(** * A removal by the execution's event

    The source is provisional; its message was executed and acknowledged with finality. *)

Definition provisional : Projector := (ProjectSource (Some envelope1) (Some source1) None routed).1.
Definition provisional_acknowledged : Projector :=
  (ProjectAcknowledgement (Some (acknowledged1 61))
     (ProjectExecution provisional (Some result1) (Some executed1) provisional).1).1.
Definition removed : Projector * result error () :=
  RemovePreFinality "10" (sp_TransactionHash executed1) (sp_LogIndex executed1) provisional_acknowledged.

(** The removal takes the final execution and its acknowledgement with it, and leaves the
    key of the source event behind. *)
Lemma removal_takes_final_execution :
  m_Execution (the_message provisional_acknowledged) = Some result1 ∧
  m_Acknowledgement (the_message provisional_acknowledged) = Some (acknowledged1 61) ∧
  removed.2 = Ok () ∧ Get id1 removed.1 = None ∧ eventIDs removed.1 !! proof_key source1 = Some id1.
Proof. split_and!; vm_compute; reflexivity. Qed.
