(* ===== verification/Worker.v ===== *)
(** The local worker's import data ([cross-chain-coordinator/cmd/local-worker]): the
    records of a release manifest and of the message flow it carries, and the helpers
    that read hexadecimal strings, numbers, times and ABI words out of them. *)
From Stdlib Require Import Ascii.
From S2P Require Import Prelude GoStd CrossChainTypes Rlp.
From S2P Require Message Gateway.

(** * Errors and panics

    The package returns errors, and its [must...] helpers panic. A message prefixed by a
    loop index wraps the error found there; a label that depends on the order in which
    Go visits a map is not kept. *)
Inductive error :=
| ErrHexForm | ErrHexLength | ErrHexZero | ErrNumber | ErrTime
| ErrManifestHex | ErrManifestZero | ErrManifestPlaceholder | ErrSortedAddresses
| ErrMessageCount | ErrMessageOrder | ErrPayloadAction | ErrPayloadTuple | ErrPayloadPadding
| ErrFlowField | ErrPayloadField | ErrAction
| ErrCancellationCount | ErrCancellationID | ErrCancellationPath | ErrCancellationCause
| ErrCancellationMint | ErrCancellationDisbursement | ErrCancellationDiffers | ErrCancellationRoute | ErrCancellationComponent
| ErrRoutePurpose | ErrRouteMissing
| ErrPayloadHash | ErrNotFinalized | ErrProofHash | ErrEventHash | ErrCertificateHash
| ErrCommitment | ErrSignatureCount | ErrProofDomain | ErrDomainMissing
| ErrSignature | ErrSignerRepeated | ErrSignerUnknown | ErrAttempt | ErrJson
| ErrSequence | ErrNotTerminal | ErrMetadata | ErrMessageID | ErrProofID | ErrProofABI
| ErrAuthority | ErrObserverCommitment | ErrObserverSignature | ErrProofIdentity
| ErrEvidenceHash | ErrChainRange | ErrInclusionPrefix | ErrNodes | ErrInclusion
| ErrInclusionDiffers | ErrCertificateShape | ErrCertificateBinding | ErrCertificateABI
| ErrSignerSet | ErrBitmap | ErrAttemptPath | ErrTransitions
| ErrCommitArguments | ErrDatabase | ErrRole
| ErrAt (index : nat) (e : error).

Inductive outcome (A : Type) : Type :=
| Ret (a : A)
| Fail (e : error)
| Panic.
Arguments Ret {A} _.
Arguments Fail {A} _.
Arguments Panic {A}.

Notation "'let!' x ':=' c 'in' k" :=
  (match c with Ret x => k | Fail e => Fail e | Panic => Panic end)
  (at level 10, x pattern, c at level 200, k at level 200) : go_scope.

(** A helper that panics on an error. *)
Definition must {A} (c : outcome A) : outcome A :=
  match c with Ret a => Ret a | _ => Panic end.

(** An error replaced by another one. *)
Definition or_fail {A} (e : error) (c : outcome A) : outcome A :=
  match c with Fail _ => Fail e | _ => c end.

(** An error wrapped with the index of the loop. *)
Definition at_index {A} (index : nat) (c : outcome A) : outcome A :=
  match c with Fail e => Fail (ErrAt index e) | _ => c end.

(** [if cond { return err }]. *)
Definition guard (bad : bool) (e : error) : outcome () := if bad then Fail e else Ret ().

(** A loop that collects one result per element, with the index of the element. *)
Fixpoint each {A B} (f : nat → A → outcome B) (index : nat) (l : list A) : outcome (list B) :=
  match l with
  | [] => Ret []
  | x :: rest =>
      let! y := f index x in
      let! ys := each f (S index) rest in
      Ret (y :: ys)
  end.

(** * Strings *)

(** [strings.TrimPrefix]. *)
Definition TrimPrefix (s prefix : string) : string :=
  if String.prefix prefix s then s_drop (String.length prefix) s else s.

(** The UTF-8 encodings of the characters that [unicode.IsSpace] accepts. *)
Definition bytes_text (codes : list Z) : string :=
  foldr (λ c s, String (byte_of c) s) ""%string codes.
Definition spaces : list string :=
  bytes_text <$> ([[9]; [10]; [11]; [12]; [13]; [32]; [0xC2; 0x85]; [0xC2; 0xA0]; [0xE1; 0x9A; 0x80]] ++
    ((λ k, [0xE2; 0x80; 0x80 + Z.of_nat k]) <$> seq 0 11) ++
    [[0xE2; 0x80; 0xA8]; [0xE2; 0x80; 0xA9]; [0xE2; 0x80; 0xAF]; [0xE2; 0x81; 0x9F]; [0xE3; 0x80; 0x80]]).

Fixpoint s_rev (s : string) (acc : string) : string :=
  match s with EmptyString => acc | String c r => s_rev r (String c acc) end.

Fixpoint trim_left (fuel : nat) (marks : list string) (s : string) : string :=
  match fuel with
  | O => s
  | S fuel =>
      match list_find (λ p, String.prefix p s = true) marks with
      | Some (_, p) => trim_left fuel marks (s_drop (String.length p) s)
      | None => s
      end
  end.

(** [strings.TrimSpace]. Every step removes at least one byte. *)
Definition TrimSpace (s : string) : string :=
  let left := trim_left (String.length s) spaces s in
  s_rev (trim_left (String.length left) ((λ p, s_rev p "") <$> spaces) (s_rev left "")) "".

(** [strings.ReplaceAll(s, "_", "-")]. *)
Fixpoint dashes (s : string) : string :=
  match s with
  | EmptyString => ""%string
  | String c r => String (if Ascii.eqb c "_"%char then "-"%char else c) (dashes r)
  end.

(** * Hexadecimal values *)

Definition importHex (value : string) (length : option nat) (allowZero : bool) : outcome string :=
  if (value <>s Gateway.ToLower value) || negb (String.prefix "0x" value) then Fail ErrHexForm
  else match Gateway.DecodeString (TrimPrefix value "0x") with
  | None => Fail ErrHexLength
  | Some raw =>
      if match length with Some n => negb (String.length raw =? n)%nat | None => false end ||
         (String.length raw =? 0)%nat
      then Fail ErrHexLength
      else if negb allowZero && negb (Gateway.nonzero_bytes raw) then Fail ErrHexZero
      else Ret raw
  end.

Definition mustImportHex (value : string) (length : option nat) (allowZero : bool) : outcome string :=
  must (importHex value length allowZero).

Definition mustImportBytes32 (value : string) (allowZero : bool) : outcome string :=
  mustImportHex value (Some 32%nat) allowZero.

Definition sameHex (configured expected : string) : bool :=
  match Gateway.DecodeString (TrimPrefix (TrimSpace configured) "0x") with
  | Some decoded => decoded =s expected
  | None => false
  end.

Definition hexHash (value : string) : string := Gateway.hex32 value.

Definition parseManifestFixedHex (value : string) (length : nat) : outcome string :=
  if (value <>s Gateway.ToLower value) || negb (String.prefix "0x" value) then Fail ErrManifestHex
  else match Gateway.DecodeString (TrimPrefix value "0x") with
  | None => Fail ErrManifestHex
  | Some raw => if negb (String.length raw =? length)%nat then Fail ErrManifestHex else Ret raw
  end.

Definition parseManifestHash (value : string) : outcome string :=
  let! raw := parseManifestFixedHex value 32 in
  if negb (Gateway.nonzero_bytes raw) then Fail ErrManifestZero else Ret raw.

(** All bytes equal to the first. *)
Fixpoint all_bytes (c : Ascii.ascii) (s : string) : bool :=
  match s with EmptyString => true | String d r => Ascii.eqb c d && all_bytes c r end.
Definition repeated_byte (s : string) : bool :=
  match s with EmptyString => true | String c r => all_bytes c r end.

Definition parseManifestAddress (value : string) : outcome string :=
  let! raw := parseManifestFixedHex value 20 in
  if negb (Gateway.nonzero_bytes raw) then Fail ErrManifestZero
  else if repeated_byte raw then Fail ErrManifestPlaceholder
  else Ret raw.

Definition mustManifestHash (value : string) : outcome string := must (parseManifestHash value).
Definition mustAddress (value : string) : outcome string := must (parseManifestAddress value).

(** [bytes.Compare(a, b) < 0] on strings of one length. *)
Definition bytes_lt (a b : string) : bool := be_value a <? be_value b.

Fixpoint sorted_loop (previous : option string) (values : list string) : outcome (list string) :=
  match values with
  | [] => Ret []
  | value :: rest =>
      let! address := parseManifestAddress value in
      if match previous with Some p => negb (bytes_lt p address) | None => false end
      then Fail ErrSortedAddresses
      else let! addresses := sorted_loop (Some address) rest in Ret (address :: addresses)
  end.
Definition validateSortedAddresses (values : list string) : outcome (list string) :=
  if negb (length values =? 3)%nat then Fail ErrSortedAddresses else sorted_loop None values.

(** * Words *)

Definition wordBytes32 (value : string) : string := value.
Definition wordAddress (value : string) : string := Message.zeros 12 +:+ value.
Definition wordUint64 (value : Z) : string := Message.zeros 24 +:+ be_bytes 8 value.

(** The common body of the two uint256 readers; [BitLen] counts the absolute value. *)
Definition word_number (value : string) (low : Z) : outcome string :=
  match Big.set_string value with
  | None => Fail ErrNumber
  | Some number =>
      if (number <? low) || (2 ^ 256 <=? number) || (Big.to_string number <>s value) then Fail ErrNumber
      else Ret (be_bytes 32 number)
  end.
Definition wordUint256 (value : string) : outcome string := word_number value 1.
Definition wordNonnegativeUint256 (value : string) : outcome string := word_number value 0.

Definition mustUintWord (value : string) : outcome string := must (wordNonnegativeUint256 value).
Definition mustTimestampWord (value : string) : outcome string := mustUintWord value.

Definition newBigInt (value : string) : option string :=
  match wordNonnegativeUint256 value with Ret word => Some (hex word) | _ => None end.

Definition canonicalManifestNumber (value : string) (allowZero : bool) : outcome string :=
  if empty_s value || String.prefix "-" value ||
     ((1 <? Z.of_nat (String.length value)) && String.prefix "0" value)
  then Fail ErrNumber
  else if match newBigInt value with Some _ => false | None => true end ||
          (negb allowZero && (value =s "0"))
  then Fail ErrNumber
  else Ret value.

Definition pad32 (encoded : string) : string :=
  let remainder := (String.length encoded mod 32)%nat in
  if (remainder =? 0)%nat then encoded else encoded +:+ Message.zeros (32 - remainder).

Definition encodeABIDynamicBytes (value : string) : string :=
  pad32 (wordUint64 (Z.of_nat (String.length value)) +:+ value).

(** [abiHash] panics on a word of another length, which its callers never pass. *)
Definition abi_preimage (domain : string) (words : list string) : string :=
  pad32 (wordUint64 (Z.of_nat ((length words + 1) * 32)) +:+ Message.concat_words words +:+
         wordUint64 (Z.of_nat (String.length domain)) +:+ domain).
Definition abiHash `{Keccak} (domain : string) (words : list string) : outcome string :=
  if forallb (λ word, (String.length word =? 32)%nat) words
  then Ret (keccak (abi_preimage domain words)) else Panic.

(** * Numbers and times *)

(** [json.Number.Int64] and [strconv.ParseUint(s, 10, 64)]. *)
Definition parse_int64 (s : string) : option Z :=
  match Big.set_string s with
  | Some z => if (- 2 ^ 63 <=? z) && (z <? 2 ^ 63) then Some z else None
  | None => None
  end.
Definition parse_uint64 (s : string) : option Z :=
  match Big.digits s with
  | Some z => if z <? 2 ^ 64 then Some z else None
  | None => None
  end.

Definition mustJSONUint64 (value : string) : outcome Z :=
  match parse_uint64 value with Some z => Ret z | None => Panic end.
Definition mustUnixInt64 (value : string) : outcome Z :=
  match parse_int64 value with
  | Some seconds => if seconds <=? 0 then Panic else Ret seconds
  | None => Panic
  end.

(** [time.Unix(seconds, 0).UTC()]. *)
Definition unix_time (seconds : Z) : Time.t := AsTime (mkTimestamp seconds 0).
Definition mustUnixNumberTime (value : string) : outcome Time.t :=
  let! seconds := mustUnixInt64 value in Ret (unix_time seconds).
Definition unixSecondsRFC3339 (seconds : Z) : outcome string :=
  if seconds <=? 0 then Panic else Ret (Time.rfc3339nano (unix_time seconds)).
Definition unixNumberRFC3339 (value : string) : outcome string :=
  let! seconds := mustUnixInt64 value in unixSecondsRFC3339 seconds.

(** [time.Unix(0, nanos).UTC()]. *)
Definition unixNanosTime (value : string) : outcome Time.t :=
  if empty_s value || ((1 <? Z.of_nat (String.length value)) && String.prefix "0" value) then Fail ErrTime
  else match parse_int64 value with
  | Some nanos =>
      if nanos <=? 0 then Fail ErrTime
      else Ret (Time.mk (nanos + Time.unix_epoch * 1000000000) "")
  | None => Fail ErrTime
  end.

(** [time.Parse(time.RFC3339Nano, s)]: the fields of the layout one after the other. The
    hour may have one digit and the fraction any number of them. *)
Definition digit_of (c : ascii) : option Z :=
  let n := byte_value c - 48 in if (0 <=? n) && (n <=? 9) then Some n else None.
Definition getnum (fixed : bool) (s : string) : option (Z * string) :=
  match s with
  | String a r =>
      match digit_of a with
      | Some x =>
          match r with
          | String b r' =>
              match digit_of b with
              | Some y => Some (x * 10 + y, r')
              | None => if fixed then None else Some (x, r)
              end
          | EmptyString => if fixed then None else Some (x, ""%string)
          end
      | None => None
      end
  | EmptyString => None
  end.
Definition skip (c : ascii) (s : string) : option string :=
  match s with String d r => if Ascii.eqb c d then Some r else None | EmptyString => None end.
Definition commaOrPeriod (c : ascii) : bool := Ascii.eqb c "."%char || Ascii.eqb c ","%char.

(** Nanoseconds from the digits of a fraction: nine digits count. *)
Fixpoint fraction_digits (scale acc : Z) (s : string) : Z * string :=
  match s with
  | String c r =>
      match digit_of c with
      | Some d => fraction_digits (scale / 10) (acc + d * scale) r
      | None => (acc, s)
      end
  | EmptyString => (acc, s)
  end.
Definition parse_fraction (s : string) : Z * string :=
  match s with
  | String c (String d _ as r) =>
      if commaOrPeriod c && match digit_of d with Some _ => true | None => false end
      then fraction_digits 100000000 0 r else (0, s)
  | _ => (0, s)
  end.

(** The offset from UTC in seconds. *)
Definition parse_zone (s : string) : option (Z * string) :=
  match s with
  | String c r =>
      if Ascii.eqb c "Z"%char then Some (0, r)
      else if blen s <? 6 then None
      else match String.get 3 s, getnum true (s_take 2 r), getnum true (s_take 2 (s_drop 4 s)) with
      | Some colon, Some (hr, _), Some (mm, _) =>
          if negb (Ascii.eqb colon ":"%char) || (24 <? hr) || (60 <? mm) then None
          else if Ascii.eqb c "+"%char then Some ((hr * 60 + mm) * 60, s_drop 6 s)
          else if Ascii.eqb c "-"%char then Some (- ((hr * 60 + mm) * 60), s_drop 6 s)
          else None
      | _, _, _ => None
      end
  | EmptyString => None
  end.

Definition isLeap (year : Z) : bool :=
  (year mod 4 =? 0) && (negb (year mod 100 =? 0) || (year mod 400 =? 0)).
Definition daysIn (month year : Z) : Z :=
  if (month =? 2) then (if isLeap year then 29 else 28)
  else if (month =? 4) || (month =? 6) || (month =? 9) || (month =? 11) then 30 else 31.

(** The days from January 1 of year 1, the inverse of [Time.civil]. *)
Definition days_of (year month day : Z) : Z :=
  let y := if month <=? 2 then year - 1 else year in
  let mp := (month + 9) mod 12 in
  y / 400 * 146097 +
  (y mod 400 * 365 + y mod 400 / 4 - y mod 400 / 100 + ((153 * mp + 2) / 5 + day - 1)) - 306.

Notation "'let*' x ':=' c 'in' k" :=
  (match c with Some x => k | None => None end)
  (at level 10, x pattern, c at level 200, k at level 200) : go_scope.

Definition parse_rfc3339nano (s : string) : option Time.t :=
  let* (century, s1) := getnum true s in
  let* (rest, s2) := getnum true s1 in
  let year := century * 100 + rest in
  let* s3 := skip "-"%char s2 in
  let* (month, s4) := getnum true s3 in
  let* s5 := skip "-"%char s4 in
  let* (day, s6) := getnum true s5 in
  let* s7 := skip "T"%char s6 in
  let* (hour, s8) := getnum false s7 in
  let* s9 := skip ":"%char s8 in
  let* (minute, s10) := getnum true s9 in
  let* s11 := skip ":"%char s10 in
  let* (second, s12) := getnum true s11 in
  let '(nanos, s13) := parse_fraction s12 in
  let* (offset, s14) := parse_zone s13 in
  if (month <? 1) || (12 <? month) || (23 <? hour) || (59 <? minute) || (59 <? second) ||
     (day <? 1) || (daysIn month year <? day) || negb (empty_s s14)
  then None
  else Some (Time.mk ((days_of year month day * 86400 + hour * 3600 + minute * 60 + second - offset) *
                      1000000000 + nanos) "").

Definition importTime (value : string) : outcome Time.t :=
  match parse_rfc3339nano value with Some t => Ret t | None => Fail ErrTime end.
Definition mustImportTime (value : string) : outcome Time.t := must (importTime value).

Example parse_rfc3339nano_offset :
  parse_rfc3339nano "2024-02-29T12:34:56.5+01:30" = parse_rfc3339nano "2024-02-29T11:04:56,500Z" ∧
  option_map Time.rfc3339nano (parse_rfc3339nano "2024-02-29T12:34:56.5Z") = Some "2024-02-29T12:34:56.5Z"%string ∧
  parse_rfc3339nano "2023-02-29T12:34:56Z" = None.
Proof. vm_compute. done. Qed.

(** * The release manifest

    A [json.Number] is its text; a [json.RawMessage] is its bytes. *)

Record phase8ManifestExposure := mkExposure {
  mx_PolicyVersion : Z; mx_PolicyHash : string; mx_CirculatingSupplyReferenceUnits : string;
  mx_CirculatingSupplyEvidenceHash : string; mx_RouteAbsoluteCapUnits : string;
  mx_ChainAbsoluteCapUnits : string; mx_AdapterAbsoluteCapUnits : string;
  mx_AggregateAbsoluteCapUnits : string; mx_RoutePercentageCeilingBasisPoints : Z;
  mx_AggregatePercentageCeilingBasisPoints : Z; mx_ActivationDelay : Z; mx_ActiveFrom : Z }.

Record phase8ManifestSignerSet := mkSignerSet {
  ms_Version : Z; ms_Hash : string; ms_Threshold : Z; ms_ValidFrom : Z; ms_ValidUntil : Z;
  ms_SortedAddresses : list string }.

Record phase8ManifestCreationEvent := mkCreationEvent {
  ce_Emitter : string; ce_Signature : string; ce_Topic0 : string; ce_IndexedID : string;
  ce_IndexedIDTopicPosition : Z; ce_IndexedAddressTopicPosition : Z }.

Record phase8ManifestContract := mkContract {
  mc_Address : string; mc_RuntimeCodeHash : string; mc_ABIPath : string; mc_ABISHA256 : string;
  mc_DeploymentKind : string; mc_DeploymentTransaction : string; mc_DeploymentBlockNumber : string;
  mc_CreationEvent : option phase8ManifestCreationEvent }.
Definition zero_contract : phase8ManifestContract := mkContract "" "" "" "" "" "" "" None.

Record phase8ManifestRegistryBindings := mkRegistryBindings {
  rb_RouteRegistryChainRegistry : string; rb_FinalityVerifierChainRegistry : string }.

Record phase8ManifestFinalityPolicy := mkFinalityPolicy {
  fp_RoutePurpose : string; fp_PolicyHash : string; fp_DestinationEvidence : bool;
  fp_SourceChainID : string; fp_SourceCoordinator : string; fp_SourceComponent : string;
  fp_DestinationChainID : string; fp_DestinationCoordinator : string; fp_DestinationComponent : string;
  fp_EvidenceChainVersion : Z; fp_EvidenceChainConfigurationHash : string; fp_ActionFamily : string;
  fp_AllowedActionsBitmap : Z; fp_RequiredDepth : Z; fp_ObserverAuthorityHash : string;
  fp_SignerSetHash : string; fp_SignerSetVersion : Z }.

Record phase8ManifestDomain := mkDomain {
  md_ChainID : string; md_ChainVersion : Z; md_RPCURL : string; md_GenesisHash : string;
  md_ConfigurationHash : string; md_ActivationBlock : string; md_ActivationTimestamp : string;
  md_RegistryStatus : string; md_ObserverFixture : string; md_ObserverPublicKey : string;
  md_ObserverAuthorityHash : string; md_ConfirmationDepth : Z; md_SignerSet : phase8ManifestSignerSet;
  md_Contracts : gmap string phase8ManifestContract;
  md_FinalityPolicies : list phase8ManifestFinalityPolicy;
  md_RegistryBindings : phase8ManifestRegistryBindings }.

Record phase8ManifestRoute := mkRoute {
  mr_Purpose : string; mr_Version : Z; mr_RoutePolicyHash : string; mr_SourceDomain : string;
  mr_DestinationDomain : string; mr_SourceChainVersion : Z; mr_DestinationChainVersion : Z;
  mr_SourceChainID : string; mr_SourceCoordinator : string; mr_SourceComponent : string;
  mr_SourceComponentCodeHash : string; mr_DestinationChainID : string;
  mr_DestinationCoordinator : string; mr_DestinationComponent : string;
  mr_DestinationComponentCodeHash : string; mr_ActionFamily : string; mr_AllowedActionsBitmap : Z;
  mr_AdapterID : string; mr_AdapterCodeHash : string; mr_AdapterSetPolicyHash : string;
  mr_SourceFinalityPolicyHash : string; mr_DestinationFinalityPolicyHash : string;
  mr_SourceSignerSetHash : string; mr_DestinationSignerSetHash : string; mr_AbsoluteCapUnits : string;
  mr_ChainCapUnits : string; mr_AdapterCapUnits : string; mr_ActivatedAt : Z;
  mr_HomeRegistrationTransaction : string; mr_HomeRegistrationBlockNumber : string;
  mr_SatelliteRegistrationTransaction : string; mr_SatelliteRegistrationBlockNumber : string;
  mr_HomeRegistryHash : string; mr_SatelliteRegistryHash : string }.

Record phase8ManifestRecovery := mkRecovery {
  mv_Action : string; mv_AuthorizerSetVersion : Z; mv_Threshold : Z; mv_AuthorizerSetHash : string;
  mv_SortedAuthorizerAddresses : list string }.

Record phase8ManifestProvider := mkProvider { mp_ID : string; mp_URL : string; mp_Authority : string }.

Record phase8ReleaseManifest := mkManifest {
  mf_SchemaVersion : Z; mf_ArtifactType : string; mf_Environment : string; mf_ContainsRealValue : bool;
  mf_RunID : string; mf_ProtocolID : string; mf_ProofBoundary : string; mf_GeneratedAt : string;
  mf_SourceCommit : string; mf_DeploymentFlowSHA256 : string; mf_Home : phase8ManifestDomain;
  mf_Satellite : phase8ManifestDomain; mf_Routes : list phase8ManifestRoute;
  mf_ExposurePolicy : phase8ManifestExposure; mf_Recovery : phase8ManifestRecovery;
  mf_Providers : list phase8ManifestProvider; mf_Flow : string; mf_Durable : string;
  mf_Reset : string; mf_Validation : string }.

(** [domain.Contracts[name].Address]. *)
Definition contract_address (domain : phase8ManifestDomain) (name : string) : string :=
  mc_Address (lookup_zero zero_contract (md_Contracts domain) name).

(** * The imported flow *)

Record phase8AddressReference := mkReference {
  rf_Domain : string; rf_ChainID : string; rf_Address : string }.

Record phase8ImportEnvelope := mkImportEnvelope {
  ie_SchemaVersion : Z; ie_MessageID : string; ie_ProtocolID : string; ie_SourceChainID : string;
  ie_SourceCoordinator : string; ie_SourceComponent : string; ie_DestinationChainID : string;
  ie_DestinationCoordinator : string; ie_DestinationComponent : string; ie_LaneID : string;
  ie_SourceNonce : string; ie_AggregateID : string; ie_ActionType : Z; ie_PayloadHash : string;
  ie_CreatedAt : string; ie_ExpiresAt : string; ie_RoutePolicyHash : string;
  ie_AdapterSetPolicyHash : string; ie_SourceFinalityPolicyHash : string;
  ie_DestinationFinalityPolicyHash : string; ie_CorrelationID : string;
  ie_CausationMessageID : string; ie_SupersededMessageID : string }.

Record phase8ImportProof := mkImportProof {
  ip_ProofABI : string; ip_ProofID : string; ip_ChainID : string; ip_TransactionHash : string;
  ip_TransactionIndex : string; ip_LogIndex : string; ip_BlockNumber : string;
  ip_BlockTimestamp : string; ip_BlockHash : string; ip_ReceiptsRoot : string;
  ip_InclusionProofHash : string; ip_EventHash : string; ip_FinalityHeadNumber : string;
  ip_FinalityHeadHash : string; ip_ConfirmationDepth : string; ip_FinalityPolicyHash : string;
  ip_ObserverAuthorityHash : string; ip_ObserverSignedHeaderCommitment : string;
  ip_ObserverSignature : string; ip_ProofHash : string; ip_RawEvidenceObjectHash : string;
  ip_ObservedAt : string }.

Record phase8ImportCertificate := mkImportCertificate {
  ic_CertificateABI : string; ic_CertificateID : string; ic_MessageID : string;
  ic_SourceProofHash : string; ic_SignerSetHash : string; ic_SignerSetVersion : Z;
  ic_SignerBitmap : string; ic_SignatureCount : Z; ic_CertificateHash : string;
  ic_Signatures : list string; ic_CertifiedAt : string }.

Record phase8PublicProviderAttempt := mkPublicAttempt {
  pa_ProviderID : string; pa_AttemptNumber : Z; pa_Status : string; pa_Retryable : bool;
  pa_MessageID : string; pa_PayloadHash : string; pa_SourceProofHash : string;
  pa_TransportReceiptHash : string }.

Record phase8ProviderAttempt := mkAttempt {
  sa_ProviderID : string; sa_AttemptNumber : Z; sa_SerializedEnvelopeHash : string;
  sa_SourceProofHash : string; sa_Status : string; sa_ProviderReceiptHash : option string;
  sa_AttemptedAt : string }.

Record phase8ImportExecution := mkExecution {
  ix_DestinationChainID : string; ix_TransactionHash : string; ix_LogIndex : string;
  ix_ResultHash : string; ix_EffectCommitment : string; ix_ExecutedAt : string }.

Record phase8AuthenticatedReceipt := mkAuthenticatedReceipt {
  ar_TransactionIndex : string; ar_TransactionRLP : string; ar_TransactionProofNodes : list string;
  ar_ReceiptRLP : string; ar_ReceiptProofNodes : list string }.

Record phase8AuthenticatedHeader := mkAuthenticatedHeader {
  ah_HeaderRLP : string; ah_HeaderObservedAtUnixNanos : string; ah_HeaderSignatureEd25519 : string }.

Record phase8AuthenticatedInclusion := mkInclusion {
  ai_HeaderRLP : string; ai_HeaderObservedAtUnixNanos : string; ai_HeaderSignatureEd25519 : string;
  ai_Receipts : list phase8AuthenticatedReceipt;
  ai_ConfirmationHeaders : list phase8AuthenticatedHeader }.
Definition zero_inclusion : phase8AuthenticatedInclusion := mkInclusion "" "" "" [] [].

Record phase8ImportAcknowledgement := mkAcknowledgement {
  ia_TransactionHash : string; ia_BlockHash : string; ia_BlockNumber : string;
  ia_TransactionIndex : string; ia_LogIndex : string; ia_RawEvidenceObjectHash : string;
  ia_Commitment : string; ia_Finalized : bool; ia_ProofID : string; ia_ProofHash : string;
  ia_CertificateID : string; ia_CertificateHash : string; ia_Proof : phase8ImportProof;
  ia_Certificate : phase8ImportCertificate; ia_AuthenticatedInclusion : phase8AuthenticatedInclusion;
  ia_ExecutionResultHash : string; ia_DestinationProofID : string; ia_AcknowledgedAt : string }.

Record phase8ImportSource := mkSource {
  is_ChainID : string; is_TransactionHash : string; is_BlockHash : string; is_BlockNumber : string;
  is_TransactionIndex : string; is_LogIndex : string; is_RawEvidenceObjectHash : string;
  is_ProofID : string; is_ProofHash : string; is_CertificateID : string; is_CertificateHash : string;
  is_Proof : phase8ImportProof; is_Certificate : phase8ImportCertificate;
  is_AuthenticatedInclusion : phase8AuthenticatedInclusion }.

Record phase8ImportDestination := mkDestination {
  id_ChainID : string; id_TransactionHash : string; id_BlockHash : string; id_BlockNumber : string;
  id_TransactionIndex : string; id_LogIndex : string; id_ResultHash : string }.

Record phase8ImportMessage := mkImportMessage {
  im_Sequence : Z; im_RoutePurpose : string; im_Envelope : phase8ImportEnvelope; im_Payload : string;
  im_Source : phase8ImportSource; im_ProviderAttempts : list phase8PublicProviderAttempt;
  im_Destination : phase8ImportDestination; im_Acknowledgement : phase8ImportAcknowledgement;
  im_SourceFinal : bool; im_DestinationExecuted : bool }.

Record phase8ImportTransition := mkTransition {
  it_ExpectedVersion : Z; it_ExpectedState : string; it_NextState : string;
  it_FailureClass : option string; it_EvidenceHash : string; it_OccurredAt : string }.

Record phase8ImportProjection := mkProjection { ij_Projection : string; ij_ProjectedAt : string }.
