(* ===== verification/WorkerActions.v ===== *)
(** The typed actions of the imported flow
    ([cross-chain-coordinator/cmd/local-worker/manifest_actions.go]): decoding of the
    action payloads, the economics the messages of one loan share, the order of the main
    and of the cancellation path, and the statements an action commits. *)
From S2P Require Import Prelude GoStd CrossChainTypes Rlp Worker.
From S2P Require Message Gateway.

(** * Data *)

Definition phase8ExpectedActions : list Z := [1; 5; 2; 6; 7; 8; 9; 10].
Definition phase8ExpectedPurposes : list string :=
  ["mint"; "report"; "report"; "disbursement"; "report"; "repayment"; "collateral_release"; "report"]%string.

Definition phase8MessagePurposeToRegistryPurpose (purpose : string) : option string :=
  if purpose =s "mint" then Some "MINT"%string
  else if purpose =s "report" then Some "REPORT"%string
  else if purpose =s "repayment" then Some "REPAYMENT"%string
  else if purpose =s "alternate_repayment" then Some "ALTERNATE_REPAYMENT"%string
  else if purpose =s "bridge_exit" then Some "BRIDGE_EXIT"%string
  else if purpose =s "disbursement" then Some "DISBURSEMENT"%string
  else if purpose =s "collateral_release" then Some "COLLATERAL_RELEASE"%string
  else None.

Record phase8DecodedPayload := mkDecoded { dp_Action : Z; dp_Words : list string }.

Record phase8FlowMessageEffects := mkEffects {
  fm_MessageID : string; fm_SourceTransactionHash : string; fm_SourceLogIndex : string;
  fm_SourceFinalizedAt : string; fm_SourceEventHash : string;
  fm_DestinationTransactionHash : string; fm_DestinationLogIndex : string;
  fm_DestinationFinalizedAt : string; fm_DestinationResultHash : string }.
Definition zero_effects : phase8FlowMessageEffects := mkEffects "" "" "" "" "" "" "" "" "".

(** [Messages] is an array of eight. *)
Record phase8FlowEconomics := mkEconomics {
  fe_LoanID : string; fe_FundingLockID : string; fe_CollateralID : string; fe_BurnID : string;
  fe_PaymentID : string; fe_HomeLoan : string; fe_Borrower : string; fe_Lender : string;
  fe_CanonicalAsset : string; fe_WrappedAsset : string; fe_CollateralAsset : string;
  fe_MintRecipient : string; fe_PrincipalUnits : string; fe_CollateralUnits : string;
  fe_PolicyHash : string; fe_SatelliteComponent : string; fe_SatelliteCollateralVault : string;
  fe_SatelliteSettlementVault : string; fe_Messages : list phase8FlowMessageEffects }.
Definition effects_at (context : phase8FlowEconomics) (index : nat) : phase8FlowMessageEffects :=
  nth index (fe_Messages context) zero_effects.

(** [Economics] is filled in after decoding and passed on by its own name here. *)
Record phase8ImportFlow := mkFlow {
  if_LoanID : string; if_LoanAccount : phase8AddressReference; if_FundingLockID : string;
  if_CollateralID : string; if_PrincipalUnits : string; if_CollateralUnits : string;
  if_CanonicalAsset : phase8AddressReference; if_WrappedAsset : phase8AddressReference;
  if_CollateralAsset : phase8AddressReference; if_Messages : list phase8ImportMessage;
  if_Replays : string; if_FinalState : string }.

(** The string fields of [phase8ActionEconomics], which are empty until assigned. *)
Inductive action_field :=
| LockID | MintID | BurnID | PaymentID | LoanID | PositionID | AuthorizationID | RouteID
| ChainID | AdapterID | CanonicalAssetID | WrappedAssetID | CollateralAssetID | Units
| BorrowerID | LenderID | Recipient | Vault | RemotePositionKey | CustodyCommitment
| SupplyAfterUnits | RecipientBalanceDeltaHash | ZeroDebtCommitment | ReleaseResultHash
| AccountingReconciliationHash | CancellationID | DisbursementMessageID
| DisbursementTombstoneHash | EscrowBurnResultHash | HomeLoanAccount | LenderAddress
| WrappedTokenAddress | ImmutablePolicyHash | ReasonCode | ActionFamilyHash
| SourceComponent | DestinationComponent | SourceBurnEvidenceHash | ResultHash | FinalizedAt
| BurnFinalizedAt | ReleaseFinalizedAt | EffectMessageID | EffectTransactionHash
| EffectLogIndex | BurnTransactionHash | BurnLogIndex | ReleaseTransactionHash | ReleaseLogIndex.
#[export] Instance action_field_eq_dec : EqDecision action_field.
Proof. solve_decision. Defined.

Record phase8ActionEconomics := mkActionEconomics {
  ae_Action : Z; ae_RouteVersion : Z; ae_PolicyVersion : Z; ae_text : action_field → string }.

Definition set_text (f : action_field) (v : string) (a : phase8ActionEconomics)
    : phase8ActionEconomics :=
  mkActionEconomics (ae_Action a) (ae_RouteVersion a) (ae_PolicyVersion a)
    (λ g, if decide (g = f) then v else ae_text a g).
Definition set_versions (version : Z) (a : phase8ActionEconomics) : phase8ActionEconomics :=
  mkActionEconomics (ae_Action a) version version (ae_text a).

(** * Payloads *)

Inductive word_kind := kind_bytes32 | kind_address | kind_uint256.

Definition loan_kinds : list word_kind :=
  [kind_bytes32; kind_bytes32; kind_address; kind_address; kind_address; kind_address;
   kind_uint256; kind_bytes32].
Definition widths (action : Z) : option (list word_kind) :=
  if action =? 1 then
    Some [kind_bytes32; kind_bytes32; kind_address; kind_address; kind_address; kind_address; kind_uint256]
  else if (action =? 2) || (action =? 5) || (action =? 6) || (action =? 7) || (action =? 9) || (action =? 10)
  then Some loan_kinds
  else if action =? 8 then
    Some [kind_bytes32; kind_bytes32; kind_bytes32; kind_bytes32; kind_address; kind_address;
          kind_address; kind_address; kind_uint256]
  else if action =? 12 then
    Some [kind_bytes32; kind_bytes32; kind_bytes32; kind_bytes32; kind_bytes32; kind_address;
          kind_address; kind_address; kind_uint256; kind_bytes32; kind_bytes32]
  else if action =? 14 then
    Some [kind_bytes32; kind_bytes32; kind_bytes32; kind_bytes32; kind_bytes32; kind_bytes32;
          kind_address; kind_address; kind_address; kind_uint256; kind_bytes32]
  else None.

Definition decode_word (kind : word_kind) (word : string) : outcome string :=
  match kind with
  | kind_bytes32 => Ret (Gateway.hex32 word)
  | kind_address =>
      if Gateway.nonzero_bytes (s_take 12 word) then Fail ErrPayloadPadding
      else Ret (Gateway.hex32 (s_drop 12 word))
  | kind_uint256 => Ret (Big.to_string (be_value word))
  end.

Definition decode_words (payload : string) (types : list word_kind) : outcome (list string) :=
  each (λ index kind, decode_word kind (sub payload (Z.of_nat index * 32) 32)) 0 types.

Definition decodePhase8ActionPayload (action : Z) (payloadHex : string) : outcome phase8DecodedPayload :=
  match widths action with
  | None => Fail ErrPayloadAction
  | Some types =>
      let! payload := or_fail ErrPayloadTuple (importHex payloadHex (Some (length types * 32)%nat) false) in
      let! words := decode_words payload types in
      Ret (mkDecoded action words)
  end.

(** [payload.Words[index]]: the widths of the action bound the index. *)
Definition word_of (payload : phase8DecodedPayload) (index : nat) : string :=
  nth index (dp_Words payload) ""%string.

(** A map of pairs compared one by one. *)
Definition all_equal (pairs : list (string * string)) : bool :=
  forallb (λ pair, pair.1 =s pair.2) pairs.

Definition commonLoanPayloadComparisons (payload : phase8DecodedPayload)
    (context : phase8FlowEconomics) (principal : bool) : list (string * string) :=
  let asset := if principal then fe_WrappedAsset context else fe_CollateralAsset context in
  let units := if principal then fe_PrincipalUnits context else fe_CollateralUnits context in
  [(word_of payload 0, fe_LoanID context); (word_of payload 2, fe_HomeLoan context);
   (word_of payload 3, fe_Borrower context); (word_of payload 4, fe_Lender context);
   (word_of payload 5, asset); (word_of payload 6, units); (word_of payload 7, fe_PolicyHash context)].

Definition comparisons (payload : phase8DecodedPayload) (context : phase8FlowEconomics)
    : option (list (string * string)) :=
  let word := word_of payload in
  let action := dp_Action payload in
  if action =? 1 then
    Some [(word 0%nat, fe_FundingLockID context); (word 1%nat, fe_LoanID context);
          (word 2%nat, fe_CanonicalAsset context); (word 4%nat, fe_WrappedAsset context);
          (word 5%nat, fe_MintRecipient context); (word 6%nat, fe_PrincipalUnits context)]
  else if action =? 2 then
    Some (commonLoanPayloadComparisons payload context true ++ [(word 1%nat, fe_FundingLockID context)])
  else if action =? 5 then
    Some (commonLoanPayloadComparisons payload context false ++ [(word 1%nat, fe_CollateralID context)])
  else if (action =? 6) || (action =? 7) then
    Some (commonLoanPayloadComparisons payload context true ++ [(word 1%nat, fe_FundingLockID context)])
  else if action =? 8 then
    Some [(word 0%nat, fe_BurnID context); (word 1%nat, fe_LoanID context);
          (word 2%nat, fe_PaymentID context); (word 4%nat, fe_CanonicalAsset context);
          (word 6%nat, fe_WrappedAsset context); (word 7%nat, fe_Lender context);
          (word 8%nat, fe_PrincipalUnits context)]
  else if (action =? 9) || (action =? 10) then
    Some (commonLoanPayloadComparisons payload context false ++ [(word 1%nat, fe_CollateralID context)])
  else if action =? 12 then
    Some [(word 1%nat, fe_LoanID context); (word 2%nat, fe_FundingLockID context);
          (word 5%nat, fe_HomeLoan context); (word 6%nat, fe_Lender context);
          (word 7%nat, fe_WrappedAsset context); (word 8%nat, fe_PrincipalUnits context);
          (word 9%nat, fe_PolicyHash context)]
  else if action =? 14 then
    Some [(word 1%nat, fe_LoanID context); (word 2%nat, fe_FundingLockID context);
          (word 6%nat, fe_HomeLoan context); (word 7%nat, fe_Lender context);
          (word 8%nat, fe_WrappedAsset context); (word 9%nat, fe_PrincipalUnits context);
          (word 10%nat, fe_PolicyHash context)]
  else None.

Definition matches (payload : phase8DecodedPayload) (context : phase8FlowEconomics) : outcome () :=
  match comparisons payload context with
  | None => Fail ErrAction
  | Some pairs => guard (negb (all_equal pairs)) ErrPayloadField
  end.

(** * The flow *)

Definition order_ok (message : phase8ImportMessage) (action : Z) (purpose : string) : bool :=
  (ie_ActionType (im_Envelope message) =? action) && (im_RoutePurpose message =s purpose).
Fixpoint order_loop (index : nat) (messages : list phase8ImportMessage) (actions : list Z)
    (purposes : list string) : outcome () :=
  match messages, actions, purposes with
  | message :: messages, action :: actions, purpose :: purposes =>
      if order_ok message action purpose then order_loop (S index) messages actions purposes
      else Fail (ErrAt index ErrMessageOrder)
  | _, _, _ => Ret ()
  end.
Definition validatePhase8MessageOrder (messages : list phase8ImportMessage) : outcome () :=
  if negb (length messages =? length phase8ExpectedActions)%nat then Fail ErrMessageCount
  else order_loop 0 messages phase8ExpectedActions phase8ExpectedPurposes.

Definition decode_message (index : nat) (message : phase8ImportMessage) : outcome phase8DecodedPayload :=
  at_index index (decodePhase8ActionPayload (ie_ActionType (im_Envelope message)) (im_Payload message)).

Definition message_effects (message : phase8ImportMessage) : outcome phase8FlowMessageEffects :=
  let! sourceFinalizedAt := unixNumberRFC3339 (ip_BlockTimestamp (is_Proof (im_Source message))) in
  let! destinationFinalizedAt :=
    unixNumberRFC3339 (ip_BlockTimestamp (ia_Proof (im_Acknowledgement message))) in
  Ret (mkEffects (ie_MessageID (im_Envelope message)) (is_TransactionHash (im_Source message))
    (is_LogIndex (im_Source message)) sourceFinalizedAt (ip_EventHash (is_Proof (im_Source message)))
    (id_TransactionHash (im_Destination message)) (id_LogIndex (im_Destination message))
    destinationFinalizedAt (id_ResultHash (im_Destination message))).

(** The context before the loop over the messages fills in their effects. *)
Definition flow_context (manifest : phase8ReleaseManifest) (decoded : list phase8DecodedPayload)
    (effects : list phase8FlowMessageEffects) : phase8FlowEconomics :=
  let word i j := match decoded !! i with Some p => word_of p j | None => ""%string end in
  let satellite := mf_Satellite manifest in
  mkEconomics (word 1%nat 0%nat) (word 0%nat 0%nat) (word 1%nat 1%nat) (word 5%nat 0%nat)
    (word 5%nat 2%nat) (word 1%nat 2%nat) (word 1%nat 3%nat) (word 1%nat 4%nat) (word 0%nat 2%nat)
    (word 0%nat 4%nat) (word 1%nat 5%nat) (word 0%nat 5%nat) (word 0%nat 6%nat) (word 1%nat 6%nat)
    (word 1%nat 7%nat) (contract_address satellite "satellite_loan_component")
    (contract_address satellite "satellite_collateral_vault")
    (contract_address satellite "satellite_settlement_vault") effects.

Definition flow_pairs (flow : phase8ImportFlow) (lock : phase8DecodedPayload)
    (context : phase8FlowEconomics) : list (string * string) :=
  [(if_LoanID flow, fe_LoanID context); (if_FundingLockID flow, fe_FundingLockID context);
   (if_CollateralID flow, fe_CollateralID context);
   (rf_Address (if_LoanAccount flow), fe_HomeLoan context);
   (rf_Address (if_CanonicalAsset flow), fe_CanonicalAsset context);
   (rf_Address (if_WrappedAsset flow), fe_WrappedAsset context);
   (rf_Address (if_CollateralAsset flow), fe_CollateralAsset context);
   (if_PrincipalUnits flow, fe_PrincipalUnits context);
   (if_CollateralUnits flow, fe_CollateralUnits context);
   (word_of lock 1, fe_LoanID context);
   (fe_MintRecipient context, fe_SatelliteSettlementVault context)].

Definition derivePhase8FlowEconomics (flow : phase8ImportFlow) (manifest : phase8ReleaseManifest)
    : outcome phase8FlowEconomics :=
  let! _ := validatePhase8MessageOrder (if_Messages flow) in
  let! decoded := each decode_message 0 (if_Messages flow) in
  let! effects := each (λ _, message_effects) 0 (if_Messages flow) in
  let context := flow_context manifest decoded effects in
  let lock := default (mkDecoded 0 []) (decoded !! 0%nat) in
  let! _ := guard (negb (all_equal (flow_pairs flow lock context))) ErrFlowField in
  let! _ := each (λ index payload, at_index index (matches payload context)) 0 decoded in
  Ret context.

(** * The cancellation path *)

Definition zero_word : string := Gateway.hex32 (Message.zeros 32).

Definition cancellation_pairs (request completion : phase8DecodedPayload) : list (string * string) :=
  [(word_of request 0, word_of completion 0); (word_of request 1, word_of completion 1);
   (word_of request 2, word_of completion 2); (word_of request 3, word_of completion 3);
   (word_of request 4, word_of completion 4); (word_of request 5, word_of completion 6);
   (word_of request 6, word_of completion 7); (word_of request 7, word_of completion 8);
   (word_of request 8, word_of completion 9); (word_of request 9, word_of completion 10)].

(** The message a request must name as its cause: the mint when no disbursement was sent. *)
Definition request_cause (payload : phase8DecodedPayload) (mintMessageID : string) : outcome string :=
  if word_of payload 3 =s zero_word
  then or_fail ErrCancellationMint (importHex mintMessageID (Some 32%nat) false)
  else or_fail ErrCancellationDisbursement (importHex (word_of payload 3) (Some 32%nat) false).

Definition validatePhase8CancellationOrder (messages : list phase8ImportMessage)
    (mintMessageID : string) : outcome () :=
  match messages with
  | [] => Ret ()
  | [request; completion] =>
      let! requestMessageID :=
        or_fail ErrCancellationID (importHex (ie_MessageID (im_Envelope request)) (Some 32%nat) false) in
      let! _ := guard (negb (im_Sequence request =? 1) || negb (im_Sequence completion =? 2) ||
          negb (ie_ActionType (im_Envelope request) =? 12) || (im_RoutePurpose request <>s "disbursement") ||
          negb (ie_ActionType (im_Envelope completion) =? 14) || (im_RoutePurpose completion <>s "report") ||
          negb (sameHex (ie_CausationMessageID (im_Envelope completion)) requestMessageID))
        ErrCancellationPath in
      let! requestPayload := decodePhase8ActionPayload 12 (im_Payload request) in
      let! expectedRequestCause := request_cause requestPayload mintMessageID in
      let! _ := guard (negb (sameHex (ie_CausationMessageID (im_Envelope request)) expectedRequestCause))
        ErrCancellationCause in
      let! completionPayload := decodePhase8ActionPayload 14 (im_Payload completion) in
      guard (negb (all_equal (cancellation_pairs requestPayload completionPayload))) ErrCancellationDiffers
  | _ => Fail ErrCancellationCount
  end.

(** * The projection of an action *)

Fixpoint find_route (purpose policyHash : string) (routes : list phase8ManifestRoute)
    : outcome phase8ManifestRoute :=
  match routes with
  | [] => Fail ErrRouteMissing
  | route :: rest =>
      if (mr_Purpose route =s purpose) && (mr_RoutePolicyHash route =s policyHash) then Ret route
      else find_route purpose policyHash rest
  end.
Definition phase8RouteForMessage (message : phase8ImportMessage) (manifest : phase8ReleaseManifest)
    : outcome phase8ManifestRoute :=
  match phase8MessagePurposeToRegistryPurpose (im_RoutePurpose message) with
  | None => Fail ErrRoutePurpose
  | Some purpose => find_route purpose (ie_RoutePolicyHash (im_Envelope message)) (mf_Routes manifest)
  end.

Definition phase8RouteID (purpose : string) : string :=
  "phase8-" +:+ Gateway.ToLower (dashes purpose).

(** The values of the projection map: strings, [json.Number]s and a uint32. *)
Inductive field_value := FText (s : string) | FNumber (s : string) | FUint (z : Z).

(** The local [action] and the caller's map, which the closures of the function update;
    [strip] is [strings.TrimPrefix(_, "0x")]. *)
Record projecting := mkProjecting {
  pj_action : phase8ActionEconomics; pj_fields : gmap string field_value }.
Definition strip (value : string) : string := TrimPrefix value "0x".
Definition assign (f : action_field) (v : string) (p : projecting) : projecting :=
  mkProjecting (set_text f v (pj_action p)) (pj_fields p).
Definition put (key value : string) (p : projecting) : projecting :=
  mkProjecting (pj_action p) (<[key := FText value]> (pj_fields p)).
Definition putNumber (key value : string) (p : projecting) : projecting :=
  mkProjecting (pj_action p) (<[key := FNumber value]> (pj_fields p)).
(** The same for a value read back from [action]. *)
Definition put_of (key : string) (f : action_field) (p : projecting) : projecting :=
  put key (ae_text (pj_action p) f) p.
Definition put_strip (key : string) (f : action_field) (p : projecting) : projecting :=
  put key (strip (ae_text (pj_action p) f)) p.
Definition putNumber_of (key : string) (f : action_field) (p : projecting) : projecting :=
  putNumber key (ae_text (pj_action p) f) p.
Definition perform (steps : list (projecting → projecting)) (p : projecting) : projecting :=
  foldl (λ p step, step p) p steps.

Definition effect_fields : list (projecting → projecting) :=
  [put_strip "effect_message_id" EffectMessageID; put_strip "effect_transaction_hash" EffectTransactionHash;
   putNumber_of "effect_log_index" EffectLogIndex; put_of "effect_finalized_at" FinalizedAt].

Definition effect (context : phase8FlowEconomics) (messageIndex : nat) (destination : bool)
    : list (projecting → projecting) :=
  let identity := effects_at context messageIndex in
  [assign EffectMessageID (fm_MessageID identity);
   assign EffectTransactionHash (if destination then fm_DestinationTransactionHash identity
                                 else fm_SourceTransactionHash identity);
   assign EffectLogIndex (if destination then fm_DestinationLogIndex identity
                          else fm_SourceLogIndex identity);
   assign FinalizedAt (if destination then fm_DestinationFinalizedAt identity
                       else fm_SourceFinalizedAt identity)] ++ effect_fields.

Definition initial_action (message : phase8ImportMessage) (context : phase8FlowEconomics)
    : phase8ActionEconomics :=
  foldl (λ a step, step a)
    (mkActionEconomics (ie_ActionType (im_Envelope message)) 0 0 (λ _, ""%string))
    [set_text LoanID (fe_LoanID context); set_text ResultHash (id_ResultHash (im_Destination message));
     set_text BorrowerID (fe_Borrower context); set_text LenderID (fe_Lender context);
     set_text CanonicalAssetID (fe_CanonicalAsset context);
     set_text WrappedAssetID (fe_WrappedAsset context);
     set_text CollateralAssetID (fe_CollateralAsset context)].

Definition lock_steps (message : phase8ImportMessage) (context : phase8FlowEconomics)
    (route : phase8ManifestRoute) : list (projecting → projecting) :=
  [assign LockID (fe_FundingLockID context); assign RouteID (phase8RouteID (mr_Purpose route));
   (λ p, mkProjecting (set_versions (mr_Version route) (pj_action p)) (pj_fields p));
   assign ChainID (ie_DestinationChainID (im_Envelope message)); assign AdapterID (mr_AdapterID route);
   assign Units (fe_PrincipalUnits context);
   put_of "lock_id" LockID; put_of "route_id" RouteID;
   putNumber "route_version" (Big.to_string (mr_Version route)); putNumber_of "chain_id" ChainID;
   put_of "adapter_id" AdapterID; put_of "canonical_asset_id" CanonicalAssetID;
   put_of "wrapped_asset_id" WrappedAssetID; putNumber_of "units" Units;
   put_of "lender_id" LenderID; put_of "loan_id" LoanID].

Definition mint_steps (message : phase8ImportMessage) (context : phase8FlowEconomics)
    : list (projecting → projecting) :=
  [assign MintID (ie_MessageID (im_Envelope message)); assign LockID (fe_FundingLockID context);
   assign Units (fe_PrincipalUnits context); assign Recipient (fe_MintRecipient context);
   assign SupplyAfterUnits (fe_PrincipalUnits context);
   put_of "mint_id" MintID; put_of "lock_id" LockID; put_of "wrapped_asset_id" WrappedAssetID;
   putNumber_of "units" Units; put_of "recipient" Recipient;
   putNumber_of "supply_after_units" SupplyAfterUnits].

Definition collateral_steps (message : phase8ImportMessage) (context : phase8FlowEconomics)
    : list (projecting → projecting) :=
  [assign PositionID (fe_CollateralID context); assign ChainID (ie_SourceChainID (im_Envelope message));
   assign Vault (fe_SatelliteCollateralVault context);
   assign RemotePositionKey (fe_CollateralID context); assign Units (fe_CollateralUnits context);
   assign CustodyCommitment (fm_SourceEventHash (effects_at context 1));
   put_of "position_id" PositionID; put_of "loan_id" LoanID; putNumber_of "satellite_chain_id" ChainID;
   put_strip "vault" Vault; put_of "asset_id" CollateralAssetID;
   put_of "remote_position_key" RemotePositionKey; putNumber_of "units" Units;
   put_of "borrower_id" BorrowerID; put_strip "custody_commitment" CustodyCommitment].

Definition authorization_steps (context : phase8FlowEconomics) : list (projecting → projecting) :=
  [assign AuthorizationID (fe_FundingLockID context); assign Units (fe_PrincipalUnits context);
   assign Vault (fe_SatelliteSettlementVault context);
   put_of "authorization_id" AuthorizationID; put_of "loan_id" LoanID;
   put_of "wrapped_asset_id" WrappedAssetID; putNumber_of "units" Units;
   put_of "borrower_id" BorrowerID; put_strip "settlement_vault" Vault].

Definition settled_steps (context : phase8FlowEconomics) : list (projecting → projecting) :=
  [assign AuthorizationID (fe_FundingLockID context); assign Units (fe_PrincipalUnits context);
   assign RecipientBalanceDeltaHash (fm_DestinationResultHash (effects_at context 3));
   put_of "authorization_id" AuthorizationID; put_of "loan_id" LoanID;
   put_strip "recipient_balance_delta_hash" RecipientBalanceDeltaHash; putNumber_of "units" Units].

Definition repayment_steps (message : phase8ImportMessage) (context : phase8FlowEconomics)
    : list (projecting → projecting) :=
  let identity := effects_at context 5 in
  [assign BurnTransactionHash (fm_SourceTransactionHash identity);
   assign BurnLogIndex (fm_SourceLogIndex identity);
   assign BurnFinalizedAt (fm_SourceFinalizedAt identity);
   assign ReleaseTransactionHash (fm_DestinationTransactionHash identity);
   assign ReleaseLogIndex (fm_DestinationLogIndex identity);
   assign ReleaseFinalizedAt (fm_DestinationFinalizedAt identity);
   put_strip "burn_transaction_hash" BurnTransactionHash; putNumber_of "burn_log_index" BurnLogIndex;
   put_strip "release_transaction_hash" ReleaseTransactionHash;
   putNumber_of "release_log_index" ReleaseLogIndex;
   put_of "burn_finalized_at" BurnFinalizedAt; put_of "release_finalized_at" ReleaseFinalizedAt;
   assign BurnID (fe_BurnID context); assign PaymentID (fe_PaymentID context);
   assign LockID (fe_FundingLockID context); assign Units (fe_PrincipalUnits context);
   assign Recipient (fe_Lender context); assign SupplyAfterUnits "0";
   put_of "burn_id" BurnID; put_of "lock_id" LockID; put_of "payment_id" PaymentID;
   put_of "loan_id" LoanID; put_of "canonical_asset_id" CanonicalAssetID;
   put_of "asset_id" CanonicalAssetID; put_of "wrapped_asset_id" WrappedAssetID;
   putNumber_of "units" Units; put_of "registry_recipient" Recipient; put_of "lender_id" LenderID;
   put "burn_kind" "LOAN_REPAYMENT"; putNumber_of "supply_after_units" SupplyAfterUnits;
   put_of "release_id" BurnID; put "result_hash" (strip (id_ResultHash (im_Destination message)))].

Definition release_authorization_steps (context : phase8FlowEconomics)
    : list (projecting → projecting) :=
  [assign AuthorizationID (fe_CollateralID context); assign PositionID (fe_CollateralID context);
   assign ZeroDebtCommitment (fm_SourceEventHash (effects_at context 6));
   put_of "authorization_id" AuthorizationID; put_of "loan_id" LoanID; put_of "position_id" PositionID;
   put_strip "zero_debt_commitment" ZeroDebtCommitment; put_of "borrower_id" BorrowerID].

Definition released_steps (message : phase8ImportMessage) (context : phase8FlowEconomics)
    : list (projecting → projecting) :=
  [assign AuthorizationID (fe_CollateralID context); assign PositionID (fe_CollateralID context);
   assign ReleaseResultHash (fm_DestinationResultHash (effects_at context 6));
   assign AccountingReconciliationHash (ia_Commitment (im_Acknowledgement message));
   put_of "authorization_id" AuthorizationID; put_of "loan_id" LoanID; put_of "position_id" PositionID;
   put_strip "release_result_hash" ReleaseResultHash;
   put_strip "accounting_reconciliation_hash" AccountingReconciliationHash;
   put_of "borrower_id" BorrowerID].

(** The fields a cancellation request and its completion share. *)
Definition cancellation_steps (message : phase8ImportMessage) (context : phase8FlowEconomics)
    (payload : phase8DecodedPayload) (route : phase8ManifestRoute) (finalizedAt : string)
    : list (projecting → projecting) :=
  [assign RouteID (phase8RouteID (mr_Purpose route));
   assign ActionFamilyHash (Gateway.ToLower (mr_ActionFamily route));
   assign SourceComponent (Gateway.ToLower (ie_SourceComponent (im_Envelope message)));
   assign DestinationComponent (Gateway.ToLower (ie_DestinationComponent (im_Envelope message)));
   assign CancellationID (word_of payload 0); assign LoanID (word_of payload 1);
   assign LockID (word_of payload 2); assign DisbursementMessageID (word_of payload 3);
   assign DisbursementTombstoneHash (word_of payload 4); assign Units (fe_PrincipalUnits context);
   assign HomeLoanAccount (fe_HomeLoan context); assign LenderAddress (fe_Lender context);
   assign WrappedTokenAddress (fe_WrappedAsset context);
   assign ImmutablePolicyHash (fe_PolicyHash context); assign FinalizedAt finalizedAt;
   put "typed_action" (if dp_Action payload =? 14 then "SATELLITE_FUNDING_CANCELLED"
                       else "LOAN_CANCELLATION_REQUESTED");
   put_of "route_id" RouteID; put_of "action_family_hash" ActionFamilyHash;
   put_strip "source_component" SourceComponent;
   put_strip "destination_component" DestinationComponent;
   put_of "cancellation_id" CancellationID; put_of "loan_id" LoanID;
   put "funding_lock_id" (fe_FundingLockID context);
   put_strip "disbursement_message_id" DisbursementMessageID;
   put_strip "disbursement_tombstone_hash" DisbursementTombstoneHash;
   put_strip "home_loan_account" HomeLoanAccount; put_strip "lender_address" LenderAddress;
   put_strip "wrapped_token" WrappedTokenAddress; putNumber_of "units" Units;
   put_strip "policy_hash" ImmutablePolicyHash].

Definition request_steps (message : phase8ImportMessage) (payload : phase8DecodedPayload)
    : list (projecting → projecting) :=
  [assign ReasonCode (word_of payload 10); put_strip "reason_code" ReasonCode;
   assign EffectMessageID (ie_MessageID (im_Envelope message));
   assign EffectTransactionHash (id_TransactionHash (im_Destination message));
   assign EffectLogIndex (id_LogIndex (im_Destination message))] ++ effect_fields.

Definition completion_steps (message : phase8ImportMessage) (payload : phase8DecodedPayload)
    (burnFinalizedAt finalizedAt : string) : list (projecting → projecting) :=
  [assign EscrowBurnResultHash (word_of payload 5);
   assign SourceBurnEvidenceHash (is_RawEvidenceObjectHash (im_Source message));
   assign BurnTransactionHash (is_TransactionHash (im_Source message));
   assign BurnLogIndex (is_LogIndex (im_Source message)); assign BurnFinalizedAt burnFinalizedAt;
   assign ReleaseTransactionHash (id_TransactionHash (im_Destination message));
   assign ReleaseLogIndex (id_LogIndex (im_Destination message));
   assign ReleaseFinalizedAt finalizedAt;
   assign ResultHash (id_ResultHash (im_Destination message));
   assign EffectMessageID (ie_MessageID (im_Envelope message));
   assign EffectTransactionHash (id_TransactionHash (im_Destination message));
   assign EffectLogIndex (id_LogIndex (im_Destination message));
   put_strip "escrow_burn_result_hash" EscrowBurnResultHash;
   put_strip "source_burn_transaction_hash" BurnTransactionHash;
   putNumber_of "source_burn_log_index" BurnLogIndex;
   put_strip "source_burn_evidence_hash" SourceBurnEvidenceHash;
   put_of "source_burn_finalized_at" BurnFinalizedAt;
   put_strip "destination_refund_transaction_hash" ReleaseTransactionHash;
   putNumber_of "destination_refund_log_index" ReleaseLogIndex;
   put_strip "destination_refund_result_hash" ResultHash;
   put_of "destination_refund_finalized_at" ReleaseFinalizedAt] ++ effect_fields.

(** The route of a cancellation message, with its purpose and components checked. *)
Definition cancellation_route (message : phase8ImportMessage) (manifest : phase8ReleaseManifest)
    (action : Z) : outcome phase8ManifestRoute :=
  let! route := phase8RouteForMessage message manifest in
  let! sourceComponent := or_fail ErrCancellationComponent
    (importHex (ie_SourceComponent (im_Envelope message)) (Some 20%nat) false) in
  let! destinationComponent := or_fail ErrCancellationComponent
    (importHex (ie_DestinationComponent (im_Envelope message)) (Some 20%nat) false) in
  let expectedPurpose := if action =? 14 then "REPORT"%string else "DISBURSEMENT"%string in
  let! _ := guard ((mr_Purpose route <>s expectedPurpose) ||
      negb (sameHex (mr_SourceComponent route) sourceComponent) ||
      negb (sameHex (mr_DestinationComponent route) destinationComponent)) ErrCancellationRoute in
  Ret route.

Definition action_steps (message : phase8ImportMessage) (manifest : phase8ReleaseManifest)
    (context : phase8FlowEconomics) (payload : phase8DecodedPayload)
    : outcome (list (projecting → projecting)) :=
  let action := ie_ActionType (im_Envelope message) in
  if action =? 1 then
    let! route := phase8RouteForMessage message manifest in
    Ret (effect context 0 false ++ lock_steps message context route)
  else if action =? 2 then Ret (effect context 0 true ++ mint_steps message context)
  else if action =? 5 then Ret (effect context 1 false ++ collateral_steps message context)
  else if action =? 6 then Ret (effect context 3 false ++ authorization_steps context)
  else if action =? 7 then Ret (effect context 3 true ++ settled_steps context)
  else if action =? 8 then Ret (effect context 5 false ++ repayment_steps message context)
  else if action =? 9 then Ret (effect context 6 false ++ release_authorization_steps context)
  else if action =? 10 then Ret (effect context 6 true ++ released_steps message context)
  else if (action =? 12) || (action =? 14) then
    let! route := cancellation_route message manifest action in
    let! finalizedAt := unixNumberRFC3339 (ip_BlockTimestamp (ia_Proof (im_Acknowledgement message))) in
    let shared := cancellation_steps message context payload route finalizedAt in
    if action =? 12 then Ret (shared ++ request_steps message payload)
    else
      let! burnFinalizedAt := unixNumberRFC3339 (ip_BlockTimestamp (is_Proof (im_Source message))) in
      Ret (shared ++ completion_steps message payload burnFinalizedAt finalizedAt)
  else Ret [].

Definition projectPhase8Action (message : phase8ImportMessage) (manifest : phase8ReleaseManifest)
    (context : phase8FlowEconomics) (fields : gmap string field_value)
    : outcome (phase8ActionEconomics * gmap string field_value) :=
  let! payload := decodePhase8ActionPayload (ie_ActionType (im_Envelope message)) (im_Payload message) in
  let! _ := matches payload context in
  let! steps := action_steps message manifest context payload in
  let done := perform steps (mkProjecting (initial_action message context) fields) in
  Ret (pj_action done, pj_fields done).

(** * Committing an action

    The database is the caller's: a query for the stored projection hash and the execution
    of a statement over one of the connections, which differ in their role, on an arbitrary
    world. A statement is the stored procedure it calls with its arguments; constants of
    its text are among them. *)

Inductive role := runtime_role | observer_role | finality_role | owner_role.

Inductive sql_value :=
| VText (s : string) | VInt (z : Z) | VBytes (b : string) | VTime (t : Time.t) | VNull
| VList (bs : list string).
Definition statement : Type := string * list sql_value.

Record Database (W : Type) := mkDatabase {
  db_currentUser : W → option string;
  db_projectionHash : string → W → option string;
  db_exec : role → statement → W → W * bool }.
Arguments db_currentUser {W} _ _.
Arguments db_projectionHash {W} _ _ _.
Arguments db_exec {W} _ _ _ _.

Definition hex_value (length : nat) (value : string) : outcome sql_value :=
  let! raw := mustImportHex value (Some length) false in Ret (VBytes raw).
Definition time_value (value : string) : outcome sql_value :=
  let! time := mustImportTime value in Ret (VTime time).

(** The arguments of a call are evaluated in order. *)
Fixpoint arguments (values : list (outcome sql_value)) : outcome (list sql_value) :=
  match values with
  | [] => Ret []
  | value :: rest => let! v := value in let! vs := arguments rest in Ret (v :: vs)
  end.
Definition call (procedure : string) (values : list (outcome sql_value)) : outcome statement :=
  let! vs := arguments values in Ret (procedure, vs).

Section Commit.
Variable messageID projectionHash : string.
Variable action : phase8ActionEconomics.
Let text (f : action_field) : outcome sql_value := Ret (VText (ae_text action f)).
Let hex32_of (f : action_field) : outcome sql_value := hex_value 32 (ae_text action f).
Let hex20_of (f : action_field) : outcome sql_value := hex_value 20 (ae_text action f).
Let time_of (f : action_field) : outcome sql_value := time_value (ae_text action f).
Let message : outcome sql_value := Ret (VBytes messageID).
Let projection : outcome sql_value := Ret (VBytes projectionHash).

Definition commit_bridge_lock (transactionHash finalizedAt : sql_value) : outcome statement :=
  call "commit_bridge_lock"
    [text LockID; text RouteID; Ret (VInt (Time.i64 (ae_RouteVersion action)));
     Ret (VInt (Time.i64 (ae_PolicyVersion action))); text ChainID; text AdapterID; message;
     text CanonicalAssetID; text WrappedAssetID; text Units; text LenderID; text LoanID;
     Ret transactionHash; text EffectLogIndex; projection; Ret finalizedAt].
Definition commit_wrapped_mint (transactionHash finalizedAt : sql_value) : outcome statement :=
  call "commit_wrapped_mint"
    [text MintID; text LockID; message; text WrappedAssetID; text Units; text Recipient;
     Ret transactionHash; text EffectLogIndex; text SupplyAfterUnits; projection; Ret finalizedAt].
Definition commit_satellite_collateral_lock (finalizedAt : sql_value) : outcome statement :=
  call "commit_satellite_collateral_lock"
    [text PositionID; text LoanID; text ChainID; hex20_of Vault; text CollateralAssetID;
     text RemotePositionKey; text Units; text BorrowerID; message; hex32_of CustodyCommitment;
     Ret finalizedAt].
Definition commit_disbursement_authorization (finalizedAt : sql_value) : outcome statement :=
  call "commit_disbursement_authorization"
    [text AuthorizationID; text LoanID; message; text WrappedAssetID; text Units; text BorrowerID;
     hex20_of Vault; Ret finalizedAt].
Definition commit_disbursement_result (transactionHash finalizedAt : sql_value) : outcome statement :=
  call "commit_disbursement_result"
    [text AuthorizationID; text LoanID; message; Ret transactionHash; text EffectLogIndex;
     hex32_of RecipientBalanceDeltaHash; text Units; Ret finalizedAt].
Definition commit_wrapped_burn (burnTransactionHash burnFinalizedAt : sql_value) : outcome statement :=
  call "commit_wrapped_burn"
    [text BurnID; text LockID; message; text PaymentID; text WrappedAssetID; text Units; text LenderID;
     Ret (VText "LOAN_REPAYMENT"); Ret burnTransactionHash; text BurnLogIndex; text SupplyAfterUnits;
     projection; Ret burnFinalizedAt].
Definition commit_canonical_release (releaseTransactionHash releaseFinalizedAt : sql_value)
    : outcome statement :=
  call "commit_canonical_release"
    [text BurnID; text BurnID; message; text CanonicalAssetID; text Units; text LenderID;
     Ret releaseTransactionHash; text ReleaseLogIndex; hex32_of ResultHash; Ret releaseFinalizedAt].
Definition commit_remote_repayment (releaseTransactionHash releaseFinalizedAt : sql_value)
    : outcome statement :=
  call "commit_remote_repayment"
    [text PaymentID; text LoanID; text BurnID; message; hex32_of ResultHash; text CanonicalAssetID;
     text Units; text Units; Ret (VInt 0); text LenderID; Ret releaseTransactionHash;
     text ReleaseLogIndex; projection; Ret releaseFinalizedAt].
Definition commit_collateral_release_authorization (finalizedAt : sql_value) : outcome statement :=
  call "commit_collateral_release_authorization"
    [text AuthorizationID; text LoanID; text PositionID; message; hex32_of ZeroDebtCommitment;
     text BorrowerID; Ret finalizedAt].
Definition commit_collateral_release (transactionHash finalizedAt : sql_value) : outcome statement :=
  call "commit_collateral_release"
    [text AuthorizationID; text LoanID; text PositionID; message; Ret transactionHash;
     text EffectLogIndex; hex32_of ReleaseResultHash; hex32_of AccountingReconciliationHash;
     text BorrowerID; Ret finalizedAt].
Definition record_loan_cancellation_request (finalizedAt : sql_value) : outcome statement :=
  call "record_loan_cancellation_request"
    [text CancellationID; text LoanID; text LockID; message; text RouteID; hex20_of SourceComponent;
     hex20_of DestinationComponent; hex32_of DisbursementMessageID; hex32_of DisbursementTombstoneHash;
     hex20_of HomeLoanAccount; hex20_of LenderAddress; hex20_of WrappedTokenAddress; text Units;
     hex32_of ImmutablePolicyHash; hex32_of ReasonCode; Ret finalizedAt].
Definition commit_loan_cancellation_completion : outcome statement :=
  call "commit_loan_cancellation_completion"
    [text CancellationID; text LoanID; text LockID; message; text RouteID; hex20_of SourceComponent;
     hex20_of DestinationComponent; hex32_of DisbursementMessageID; hex32_of DisbursementTombstoneHash;
     hex32_of EscrowBurnResultHash; hex20_of HomeLoanAccount; hex20_of LenderAddress;
     hex20_of WrappedTokenAddress; text Units; hex32_of ImmutablePolicyHash;
     hex32_of BurnTransactionHash; text BurnLogIndex; hex32_of SourceBurnEvidenceHash;
     time_of BurnFinalizedAt; hex32_of ReleaseTransactionHash; text ReleaseLogIndex;
     hex32_of ResultHash; time_of ReleaseFinalizedAt].
End Commit.

Section CommitRun.
Context {W : Type}.
Variable database : Database W.

(** [exec]: the arguments are evaluated, then the statement is sent. *)
Definition exec_as (connection : role) (query : outcome statement) (w : W) : W * outcome () :=
  match query with
  | Ret s => let '(w', ok) := db_exec database connection s w in (w', if ok then Ret () else Fail ErrDatabase)
  | Fail e => (w, Fail e)
  | Panic => (w, Panic)
  end.
Definition exec : outcome statement → W → W * outcome () := exec_as runtime_role.
Definition and_then (first second : W → W * outcome ()) (w : W) : W * outcome () :=
  match first w with (w', Ret _) => second w' | failed => failed end.
Definition lift {A} (c : outcome A) (k : A → W → W * outcome ()) (w : W) : W * outcome () :=
  match c with Ret a => k a w | Fail e => (w, Fail e) | Panic => (w, Panic) end.

Definition commit_repayment (messageID projectionHash : string) (action : phase8ActionEconomics)
    : W → W * outcome () :=
  lift (hex_value 32 (ae_text action BurnTransactionHash)) (λ burnTransactionHash,
  lift (time_value (ae_text action BurnFinalizedAt)) (λ burnFinalizedAt,
  lift (hex_value 32 (ae_text action ReleaseTransactionHash)) (λ releaseTransactionHash,
  lift (time_value (ae_text action ReleaseFinalizedAt)) (λ releaseFinalizedAt,
  and_then (exec (commit_wrapped_burn messageID projectionHash action burnTransactionHash burnFinalizedAt))
  (and_then (exec (commit_canonical_release messageID action releaseTransactionHash releaseFinalizedAt))
  (exec (commit_remote_repayment messageID projectionHash action releaseTransactionHash
           releaseFinalizedAt))))))).

Definition commitPhase8Action (messageID : string) (action : phase8ActionEconomics) (w : W)
    : W * outcome () :=
  if negb (String.length messageID =? 32)%nat then (w, Fail ErrCommitArguments)
  else match db_projectionHash database messageID w with
  | None => (w, Fail ErrDatabase)
  | Some projectionHash =>
      lift (hex_value 32 (ae_text action EffectTransactionHash)) (λ transactionHash,
      lift (time_value (ae_text action FinalizedAt)) (λ finalizedAt,
      let a := ae_Action action in
      if a =? 1 then
        exec (commit_bridge_lock messageID projectionHash action transactionHash finalizedAt)
      else if a =? 2 then
        exec (commit_wrapped_mint messageID projectionHash action transactionHash finalizedAt)
      else if a =? 5 then exec (commit_satellite_collateral_lock messageID action finalizedAt)
      else if a =? 6 then exec (commit_disbursement_authorization messageID action finalizedAt)
      else if a =? 7 then exec (commit_disbursement_result messageID action transactionHash finalizedAt)
      else if a =? 8 then commit_repayment messageID projectionHash action
      else if a =? 9 then exec (commit_collateral_release_authorization messageID action finalizedAt)
      else if a =? 10 then exec (commit_collateral_release messageID action transactionHash finalizedAt)
      else if a =? 12 then exec (record_loan_cancellation_request messageID action finalizedAt)
      else if a =? 14 then exec (commit_loan_cancellation_completion messageID action)
      else λ w, (w, Fail ErrAction))) w
  end.

(** The body of [bootstrapManifestEconomics] on an open connection of the owner. *)
Definition mint_route (manifest : phase8ReleaseManifest) : option phase8ManifestRoute :=
  snd <$> list_find (λ route, (mr_Purpose route =s "MINT") = true) (mf_Routes manifest).
Definition register_loan_route (manifest : phase8ReleaseManifest) (economics : phase8FlowEconomics)
    (route : phase8ManifestRoute) (createdAt : Time.t) : outcome statement :=
  call "register_loan_route"
    [Ret (VText (fe_LoanID economics)); Ret (VText (phase8RouteID (mr_Purpose route)));
     Ret (VInt (Time.i64 (mr_Version route))); Ret (VText (md_ChainID (mf_Home manifest)));
     Ret (VText (md_ChainID (mf_Satellite manifest))); hex_value 20 (fe_HomeLoan economics);
     hex_value 20 (fe_SatelliteComponent economics); Ret (VText (fe_Borrower economics));
     Ret (VText (fe_Lender economics)); Ret (VText (fe_CanonicalAsset economics));
     Ret (VText (fe_PrincipalUnits economics)); Ret (VText (fe_CollateralAsset economics));
     Ret (VText (fe_CollateralUnits economics)); hex_value 32 (fe_PolicyHash economics);
     Ret (VTime createdAt)].
Definition activate_bridge_exposure_policy (exposure : phase8ManifestExposure) : outcome statement :=
  let! evidenceHash := hex_value 32 (mx_CirculatingSupplyEvidenceHash exposure) in
  call "activate_bridge_exposure_policy"
    [Ret (VInt (Time.i64 (mx_PolicyVersion exposure)));
     Ret (VText (mx_CirculatingSupplyReferenceUnits exposure)); Ret evidenceHash;
     Ret (VText (mx_RouteAbsoluteCapUnits exposure)); Ret (VText (mx_ChainAbsoluteCapUnits exposure));
     Ret (VText (mx_AdapterAbsoluteCapUnits exposure));
     Ret (VText (mx_AggregateAbsoluteCapUnits exposure));
     Ret (VInt (mx_RoutePercentageCeilingBasisPoints exposure));
     Ret (VInt (mx_AggregatePercentageCeilingBasisPoints exposure));
     Ret (VTime (unix_time (Time.i64 (mx_ActiveFrom exposure))))].
Definition bootstrapManifestEconomics (manifest : phase8ReleaseManifest) (flow : phase8ImportFlow)
    (economics : phase8FlowEconomics) (w : W) : W * outcome () :=
  match db_currentUser database w with
  | None => (w, Fail ErrDatabase)
  | Some user =>
      if (user <>s "unified_local") && (user <>s "unified_crosschain_owner") then (w, Fail ErrRole)
      else match mint_route manifest with
      | None => (w, Fail ErrRouteMissing)
      | Some route =>
          lift (match if_Messages flow with
                | message :: _ => mustUnixNumberTime (ie_CreatedAt (im_Envelope message))
                | [] => Panic
                end) (λ createdAt,
          and_then (exec_as owner_role (register_loan_route manifest economics route createdAt))
            (exec_as owner_role (activate_bridge_exposure_policy (mf_ExposurePolicy manifest)))) w
      end
  end.
End CommitRun.
