(* ===== verification/WorkerFlow.v ===== *)
(** What the imported flow guarantees: action payloads are decoded exactly, the messages of
    an accepted flow are the typed actions of one loan, and the two messages of an accepted
    cancellation are about the same cancellation. *)
From S2P Require Import Prelude GoStd CrossChainTypes Rlp Worker WorkerActions.
From S2P Require Message Gateway.

(** * Outcomes *)

Lemma Ret_inj {A} (a b : A) : Ret a = Ret b → a = b.
Proof. by intros [= ->]. Qed.

Lemma guard_Ret bad e u : guard bad e = Ret u → bad = false.
Proof. unfold guard. by destruct bad. Qed.

Lemma or_fail_Ret {A} e (c : outcome A) a : or_fail e c = Ret a → c = Ret a.
Proof. by destruct c. Qed.

Lemma at_index_Ret {A} i (c : outcome A) a : at_index i c = Ret a → c = Ret a.
Proof. by destruct c. Qed.

(** Names the result of the first step of a run that returned. *)
Tactic Notation "run_step" simple_intropattern(x) ident(H) :=
  lazymatch goal with
  | |- (match ?c with Ret _ => _ | Fail _ => _ | Panic => _ end) = Ret _ → _ =>
      destruct c as [x| |] eqn:H; [|done..]
  end.

Lemma each_Forall2 {A B} (f : nat → A → outcome B) i l r :
  each f i l = Ret r → length r = length l ∧ ∀ j x, l !! j = Some x → ∃ y, r !! j = Some y ∧ f (i + j)%nat x = Ret y.
Proof.
  revert i r. induction l as [|x l IH]; intros i r; cbn [each]; [by intros [= <-]|].
  run_step y Hy. run_step ys Hys. intros [= <-]. destruct (IH _ _ Hys) as [Hl Hall]. split; [simpl; lia|].
  intros [|j] z; cbn [lookup list_lookup].
  - intros [= <-]. exists y. by rewrite Nat.add_0_r.
  - intros Hz. destruct (Hall j z Hz) as (w&Hw&Hf). exists w. by rewrite <- Nat.add_succ_comm.
Qed.

Lemma each_Ret {A B} (f : nat → A → outcome B) i l r :
  length r = length l → (∀ j x y, l !! j = Some x → r !! j = Some y → f (i + j)%nat x = Ret y) →
  each f i l = Ret r.
Proof.
  revert i r. induction l as [|x l IH]; intros i [|y r]; try done. intros Hl Hall. cbn [each].
  rewrite <- (Nat.add_0_r i) at 1. rewrite (Hall 0%nat x y) by done.
  rewrite (IH (S i) r); [done|simpl in Hl; lia|].
  intros j a b Ha Hb. rewrite Nat.add_succ_comm. by apply (Hall (S j)).
Qed.

(** * Hexadecimal values *)

Lemma prefix_0x v : String.prefix "0x" v = true → v = ("0x" +:+ TrimPrefix v "0x")%string.
Proof.
  unfold TrimPrefix. intros Hp. rewrite Hp. destruct v as [|a [|x r]]; [done|..]; cbn [String.prefix] in Hp;
    destruct (Ascii.ascii_dec _ a) as [<-|]; try done.
  destruct (Ascii.ascii_dec _ x) as [<-|]; done.
Qed.

Lemma TrimPrefix_0x s : TrimPrefix ("0x" +:+ s) "0x" = s.
Proof. unfold TrimPrefix. by rewrite string_prefix_app. Qed.

(** The reader accepts exactly the canonical form of a string of bytes. *)
Lemma importHex_Ret v n z b :
  importHex v (Some n) z = Ret b ↔
  v = Gateway.hex32 b ∧ String.length b = n ∧ n ≠ 0%nat ∧ (z = true ∨ Gateway.nonzero_bytes b = true).
Proof.
  unfold importHex. split.
  - destruct (_ || _) eqn:Hg; [done|]. bool_facts. destruct (Gateway.DecodeString _) as [raw|] eqn:Hd; [|done].
    destruct (_ || _) eqn:Hl; [done|]. destruct (_ && _) eqn:Hz; [done|]. intros [= <-].
    apply orb_false_iff in Hl as [Hl1%negb_false_iff%Nat.eqb_eq Hl2%Nat.eqb_neq].
    assert (v = Gateway.hex32 raw) as Hv.
    { match goal with A : String.prefix _ _ = true, B : v = _ |- _ =>
        pose proof (prefix_0x _ A) as Hx; rewrite Hx in B; rewrite Hx end.
      unfold Gateway.hex32. f_equal. apply Gateway.DecodeString_lower; [done|].
      match goal with B : _ = Gateway.ToLower _ |- _ => cbn in B; by injection B as B end. }
    split_and!; [done..|by rewrite <- Hl1|]. destruct z; [by left|right].
    destruct (Gateway.nonzero_bytes raw); done.
  - intros (->&Hn&H0&Hz). unfold Gateway.hex32. rewrite TrimPrefix_0x, string_prefix_app.
    change (Gateway.ToLower ("0x" +:+ hex b)) with ("0x" +:+ Gateway.ToLower (hex b)).
    cbn [negb orb]. rewrite Gateway.ToLower_hex, String.eqb_refl, Gateway.DecodeString_hex. cbn [negb orb].
    rewrite Hn, Nat.eqb_refl. destruct (Nat.eqb_spec n 0); [done|]. cbn [negb orb].
    destruct Hz as [->| ->]; [done|]. by rewrite andb_false_r.
Qed.

(** * Payloads

    The encoder the decoder inverts, and the texts each kind of word is printed as. *)

Definition word_ok (kind : word_kind) (text : string) : Prop :=
  match kind with
  | kind_bytes32 => ∃ b, String.length b = 32%nat ∧ text = Gateway.hex32 b
  | kind_address => ∃ b, String.length b = 20%nat ∧ text = Gateway.hex32 b
  | kind_uint256 => ∃ z, 0 <= z < 2 ^ 256 ∧ text = Big.to_string z
  end.
Definition encode_word (kind : word_kind) (text : string) : string :=
  match kind with
  | kind_bytes32 => Gateway.bytes_of_hex text
  | kind_address => Gateway.address_bytes text
  | kind_uint256 => Gateway.units_bytes text
  end.
Definition encode_payload (types : list word_kind) (words : list string) : string :=
  Message.concat_words (zip_with encode_word types words).

Lemma encode_word_length kind text : word_ok kind text → String.length (encode_word kind text) = 32%nat.
Proof.
  destruct kind; cbn [word_ok encode_word]; [intros (b&Hl& ->)|intros (b&Hl& ->)|intros (z&Hz& ->)].
  - by rewrite Gateway.bytes_of_hex32.
  - unfold Gateway.address_bytes. by rewrite Gateway.bytes_of_hex32, string_app_length, be_bytes_length, Hl.
  - apply be_bytes_length.
Qed.

Lemma decode_word_Ret kind word text :
  String.length word = 32%nat →
  decode_word kind word = Ret text ↔ word_ok kind text ∧ encode_word kind text = word.
Proof.
  intros Hl. destruct kind; cbn [decode_word word_ok encode_word].
  - split.
    + intros [= <-]. rewrite Gateway.bytes_of_hex32. eauto.
    + intros [(b&_& ->) <-]. by rewrite Gateway.bytes_of_hex32.
  - unfold Gateway.address_bytes. split.
    + destruct (Gateway.nonzero_bytes _) eqn:Hz; [done|]. intros [= <-]. rewrite Gateway.bytes_of_hex32. split.
      * exists (s_drop 12 word). by rewrite s_drop_length, Hl.
      * apply Gateway.nonzero_bytes_false in Hz. rewrite s_take_length in Hz by lia.
        rewrite <- Hz. apply s_take_drop.
    + intros [(b&Hb& ->) <-]. rewrite Gateway.bytes_of_hex32, s_take_app, s_drop_app by apply be_bytes_length.
      done.
  - unfold Gateway.units_bytes. split.
    + intros [= <-]. rewrite Big.set_string_to_string. cbn [default]. split.
      * exists (be_value word). split; [|done]. pose proof (be_value_range word) as Hr. rewrite Hl in Hr. exact Hr.
      * rewrite <- Hl at 1. apply be_bytes_value.
    + intros [(z&Hz& ->) <-]. rewrite Big.set_string_to_string. cbn [default].
      by rewrite be_value_bytes.
Qed.

Lemma encode_payload_length types words :
  Forall2 word_ok types words → String.length (encode_payload types words) = (length types * 32)%nat.
Proof.
  unfold encode_payload. induction 1 as [|k t types words Hk _ IH]; [done|].
  cbn [zip_with Message.concat_words foldr length]. rewrite string_app_length, (encode_word_length _ _ Hk).
  unfold Message.concat_words in IH. lia.
Qed.

Lemma decode_words_from payload types words i :
  String.length payload = ((i + length types) * 32)%nat →
  each (λ index kind, decode_word kind (sub payload (Z.of_nat index * 32) 32)) i types = Ret words ↔
  Forall2 word_ok types words ∧ encode_payload types words = s_drop (i * 32) payload.
Proof.
  revert i words. induction types as [|k types IH]; intros i words Hl; cbn [each length] in *.
  - assert (s_drop (i * 32) payload = ""%string) as ->.
    { pose proof (s_drop_length (i * 32) payload) as Hd. destruct (s_drop _ _); [done|]. simpl in Hd. lia. }
    split; [by intros [= <-]|]. intros [->%Forall2_nil_inv_l _]. done.
  - set (word := sub payload (Z.of_nat i * 32) 32).
    assert (word = s_take 32 (s_drop (i * 32) payload)) as Hw.
    { unfold word, sub. by replace (Z.to_nat (Z.of_nat i * 32)) with (i * 32)%nat by lia. }
    assert (String.length word = 32%nat) as Hlw by (rewrite Hw, s_take_length; [done|rewrite s_drop_length; lia]).
    assert (s_drop (i * 32) payload = word +:+ s_drop (S i * 32) payload) as Hs.
    { rewrite Hw, <- (s_take_drop 32 (s_drop (i * 32) payload)) at 1. f_equal.
      replace (S i * 32)%nat with (i * 32 + 32)%nat by lia.
      rewrite <- (s_take_drop (i * 32) payload) at 2. rewrite s_drop_app_add; [done|].
      apply s_take_length. lia. }
    rewrite Hs. split.
    + run_step t Ht. run_step ts Hts. intros [= <-]. apply decode_word_Ret in Ht as [Hok He]; [|done].
      apply IH in Hts as [Hall Hp]; [|lia]. split; [by constructor|].
      unfold encode_payload in *. cbn [zip_with Message.concat_words foldr]. rewrite He.
      unfold Message.concat_words in Hp. by rewrite Hp.
    + intros [Hall Hp]. destruct words as [|t ts]; [by apply Forall2_nil_inv_r in Hall|].
      apply Forall2_cons in Hall as [Hok Hoks].
      unfold encode_payload in Hp. cbn [zip_with Message.concat_words foldr] in Hp.
      apply string_app_inj_l in Hp as [He Hr]; [|by rewrite (encode_word_length _ _ Hok)].
      rewrite (proj2 (decode_word_Ret k word t Hlw)) by done.
      rewrite (proj2 (IH (S i) ts ltac:(lia))) by done. done.
Qed.

Lemma decode_payload_iff action payload decoded :
  decodePhase8ActionPayload action payload = Ret decoded ↔
  dp_Action decoded = action ∧ ∃ types, widths action = Some types ∧
    Forall2 word_ok types (dp_Words decoded) ∧
    payload = Gateway.hex32 (encode_payload types (dp_Words decoded)) ∧
    Gateway.nonzero_bytes (encode_payload types (dp_Words decoded)) = true.
Proof.
  unfold decodePhase8ActionPayload. split.
  - destruct (widths action) as [types|] eqn:Hw; [|done]. run_step raw Hr. run_step words Hws. intros [= <-].
    apply or_fail_Ret, importHex_Ret in Hr as (->&Hl&_&[|Hz]); [done|].
    apply decode_words_from in Hws as [Hall He]; [|done]. cbn [s_drop Nat.mul] in He.
    split; [done|]. exists types. cbn [dp_Words]. by rewrite He.
  - destruct decoded as [a words]. cbn [dp_Action dp_Words]. intros (->&types&Hw&Hall&->&Hz). rewrite Hw.
    pose proof (encode_payload_length _ _ Hall) as Hl.
    rewrite (proj2 (importHex_Ret _ (length types * 32) _ (encode_payload types words))).
    + cbn [or_fail]. unfold decode_words. by rewrite (proj2 (decode_words_from _ types words 0 Hl)).
    + split_and!; [done..| |by right]. intros H0. rewrite H0 in Hl. by destruct (encode_payload types words).
Qed.

(** Payload decoding is exact: a payload of a reviewed action is accepted exactly when it
    is the lower-case hexadecimal form of the ABI encoding of the words returned, each word
    being the canonical text of a value of its type, and the encoding is not all zero. *)
Theorem decode_payload_exact action payload decoded :
  decodePhase8ActionPayload action payload = Ret decoded ↔
  dp_Action decoded = action ∧ ∃ types, widths action = Some types ∧
    Forall2 word_ok types (dp_Words decoded) ∧
    payload = Gateway.hex32 (encode_payload types (dp_Words decoded)) ∧
    Gateway.nonzero_bytes (encode_payload types (dp_Words decoded)) = true.
Proof. apply decode_payload_iff. Qed.

(** * Payloads as the coordinator's typed actions *)

Definition abi_word (kind : word_kind) (text : string) : Message.abiWord :=
  match kind with
  | kind_bytes32 => Message.bytes32ABI (Gateway.bytes_of_hex text)
  | kind_address => Message.addressABI (Gateway.bytes_of_hex text)
  | kind_uint256 => Message.uint256ABI text
  end.

Lemma abi_word_Ok kind text :
  word_ok kind text → text ≠ "0"%string → abi_word kind text = Ok (encode_word kind text).
Proof.
  destruct kind; cbn [word_ok abi_word encode_word]; intros (b&Hb& ->) Hn.
  - rewrite Gateway.bytes_of_hex32. unfold Message.bytes32ABI, Message.exactLength.
    by rewrite Hb, Nat.eqb_refl.
  - unfold Gateway.address_bytes. rewrite Gateway.bytes_of_hex32.
    unfold Message.addressABI, Message.exactLength. rewrite Hb, Nat.eqb_refl.
    by rewrite Message.addressWord_20.
  - unfold Message.uint256ABI, Message.uint256, Gateway.units_bytes.
    rewrite Big.set_string_to_string, String.eqb_refl. cbn [default].
    destruct (Z.leb_spec b 0) as [Hz|Hz]; [by replace b with 0 in Hn by lia|].
    destruct (Z.leb_spec (2 ^ 256) b) as [Hz2|Hz2]; [lia|]. done.
Qed.

Lemma encodeStatic_words types words :
  Forall2 word_ok types words → "0"%string ∉ words →
  Message.encodeStatic (zip_with abi_word types words) = Ok (encode_payload types words).
Proof.
  unfold encode_payload. induction 1 as [|k t types words Hk Hall IH]; [done|].
  intros Hn. apply not_elem_of_cons in Hn as [Hn Hns].
  cbn [zip_with Message.encodeStatic Message.concat_words foldr].
  by rewrite (abi_word_Ok _ _ Hk), (IH Hns).
Qed.

Lemma hex_text n text : (∃ b, String.length b = n ∧ text = Gateway.hex32 b) → text ≠ "0"%string.
Proof. by intros (b&_& ->). Qed.

Lemma uint256_zero : ∃ err, abi_word kind_uint256 "0" = Err err.
Proof. eexists. vm_compute. reflexivity. Qed.

(** The coordinator refuses to encode a word that is zero units. *)
Lemma encodeStatic_zero types words :
  Forall2 word_ok types words → "0"%string ∈ words →
  is_ok (Message.encodeStatic (zip_with abi_word types words)) = false.
Proof.
  induction 1 as [|k t types words Hk Hall IH]; [by intros ?%not_elem_of_nil|].
  intros Hin. cbn [zip_with Message.encodeStatic].
  destruct (decide (t = "0"%string)) as [->|Ht].
  - destruct k; [by apply hex_text in Hk|by apply hex_text in Hk|].
    by destruct uint256_zero as [err ->].
  - apply elem_of_cons in Hin as [|Hin]; [congruence|]. specialize (IH Hin).
    rewrite (abi_word_Ok _ _ Hk Ht). by destruct (Message.encodeStatic _).
Qed.

(** A message carries a typed action: its payload is made of words of the types of the
    action, and it is the encoding the coordinator gives an envelope with that action, unless
    a word is zero units: the coordinator has no encoding of such an action. *)
Definition carries (payload : string) (action : Z) (typed : TypedAction) : Prop :=
  ∃ types words, widths action = Some types ∧ Forall2 word_ok types words ∧
    payload = Gateway.hex32 (encode_payload types words) ∧
    ∀ e, ActionType e = action → Typed e = Some typed →
      if bool_decide ("0"%string ∈ words) then is_ok (Message.EncodeTypedActionABI e) = false
      else Message.EncodeTypedActionABI e = Ok (encode_payload types words).

Lemma decoded_carries action payload decoded types typed :
  decodePhase8ActionPayload action payload = Ret decoded → widths action = Some types →
  (∀ e, ActionType e = action → Typed e = Some typed →
    Message.EncodeTypedActionABI e = Message.encodeStatic (zip_with abi_word types (dp_Words decoded))) →
  carries payload action typed.
Proof.
  intros (_&types'&Hw&Hall&->&_)%decode_payload_iff Hw' Henc. rewrite Hw in Hw'. injection Hw' as <-.
  exists types', (dp_Words decoded). split_and!; [done..|]. intros e Ha Ht. rewrite (Henc e Ha Ht).
  case_bool_decide; [by apply encodeStatic_zero|by apply encodeStatic_words].
Qed.

Lemma all_equal_spec pairs : all_equal pairs = true → Forall (λ pair, pair.1 = pair.2) pairs.
Proof.
  unfold all_equal. intros Ha. apply Forall_forall. intros p Hp%list_elem_of_In.
  rewrite forallb_forall in Ha. by apply String.eqb_eq, Ha.
Qed.

Lemma matches_Ret payload context u :
  matches payload context = Ret u →
  ∃ pairs, comparisons payload context = Some pairs ∧ Forall (λ pair, pair.1 = pair.2) pairs.
Proof.
  unfold matches. destruct (comparisons payload context) as [pairs|]; [|done].
  intros Hg%guard_Ret%negb_false_iff. exists pairs. split; [done|]. by apply all_equal_spec.
Qed.

(** The words of a decoded payload of a known action, one variable each. *)
Lemma decoded_words action payload decoded types :
  decodePhase8ActionPayload action payload = Ret decoded → widths action = Some types →
  dp_Action decoded = action ∧ Forall2 word_ok types (dp_Words decoded).
Proof. intros (Ha&types'&Hw&Hall&_)%decode_payload_iff Hw'. rewrite Hw in Hw'. by injection Hw' as <-. Qed.

Ltac explode Hall :=
  repeat match type of Hall with
  | Forall2 _ (_ :: _) ?ws =>
      let w := fresh "w" in let Hw := fresh "Hw" in let rest := fresh "rest" in
      destruct ws as [|w rest]; [by apply Forall2_nil_inv_r in Hall|];
      apply Forall2_cons in Hall as [Hw Hall]
  | Forall2 _ [] ?ws => apply Forall2_nil_inv_l in Hall as ->
  end.

Abbreviation raw := Gateway.bytes_of_hex.

(** A decoded payload that matches the economics carries the action built from them. *)
Ltac solve_carries :=
  lazymatch goal with
  | Hd : decodePhase8ActionPayload _ _ = Ret ?decoded, Hm : matches ?decoded _ = Ret _ |- _ =>
      let pairs := fresh "pairs" in let Hc := fresh "Hc" in let Hp := fresh "Hp" in
      let Ha := fresh "Ha" in let Hall := fresh "Hall" in
      apply matches_Ret in Hm as (pairs&Hc&Hp);
      destruct (decoded_words _ _ _ _ Hd eq_refl) as [Ha Hall];
      eapply decoded_carries; [exact Hd|reflexivity|..]; destruct decoded as [? ?];
      cbn [dp_Action dp_Words] in *; subst; try unfold loan_kinds in Hall; explode Hall; injection Hc as <-; cbn in Hp;
      decompose_Forall; cbn [fst snd] in *; subst;
      let e := fresh "e" in let Ht := fresh "Ht" in
      intros e Ha Ht; unfold Message.EncodeTypedActionABI; rewrite Ha, Ht; reflexivity
  end.

Lemma lock_carries payload decoded c u :
  decodePhase8ActionPayload 1 payload = Ret decoded → matches decoded c = Ret u →
  carries payload 1 (CanonicalUftLock (raw (fe_FundingLockID c)) (raw (fe_LoanID c))
    (raw (fe_CanonicalAsset c)) (raw (word_of decoded 3)) (raw (fe_WrappedAsset c))
    (raw (fe_MintRecipient c)) (fe_PrincipalUnits c)).
Proof. intros Hd Hm. solve_carries. Qed.

Lemma repayment_carries payload decoded c u :
  decodePhase8ActionPayload 8 payload = Ret decoded → matches decoded c = Ret u →
  carries payload 8 (SatelliteRepaymentBurned (raw (fe_BurnID c)) (raw (fe_LoanID c))
    (raw (fe_PaymentID c)) (raw (word_of decoded 3)) (raw (fe_CanonicalAsset c))
    (raw (word_of decoded 5)) (raw (fe_WrappedAsset c)) (raw (fe_Lender c)) (fe_PrincipalUnits c)).
Proof. intros Hd Hm. solve_carries. Qed.

(** The actions on the principal and on the collateral have one layout each. *)
Definition principal_action
    (build : string → string → string → string → string → string → string → string → TypedAction)
    (c : phase8FlowEconomics) : TypedAction :=
  build (raw (fe_LoanID c)) (raw (fe_FundingLockID c)) (raw (fe_HomeLoan c)) (raw (fe_Borrower c))
    (raw (fe_Lender c)) (raw (fe_WrappedAsset c)) (fe_PrincipalUnits c) (raw (fe_PolicyHash c)).
Definition collateral_action
    (build : string → string → string → string → string → string → string → string → TypedAction)
    (c : phase8FlowEconomics) : TypedAction :=
  build (raw (fe_LoanID c)) (raw (fe_CollateralID c)) (raw (fe_HomeLoan c)) (raw (fe_Borrower c))
    (raw (fe_Lender c)) (raw (fe_CollateralAsset c)) (fe_CollateralUnits c) (raw (fe_PolicyHash c)).

Lemma principal_carries action build payload decoded c u :
  (action, build) ∈ [(2, WrappedUftMinted); (6, HomeDisbursementAuthorized); (7, SatelliteDisbursementSettled)] →
  decodePhase8ActionPayload action payload = Ret decoded → matches decoded c = Ret u →
  carries payload action (principal_action build c).
Proof.
  rewrite !elem_of_cons, elem_of_nil. intros [[= -> ->]|[[= -> ->]|[[= -> ->]|[]]]] Hd Hm; solve_carries.
Qed.

Lemma collateral_carries action build payload decoded c u :
  (action, build) ∈ [(5, SatelliteCollateralLocked); (9, HomeCollateralReleaseAuthorized);
                     (10, SatelliteCollateralReleased)] →
  decodePhase8ActionPayload action payload = Ret decoded → matches decoded c = Ret u →
  carries payload action (collateral_action build c).
Proof.
  rewrite !elem_of_cons, elem_of_nil. intros [[= -> ->]|[[= -> ->]|[[= -> ->]|[]]]] Hd Hm; solve_carries.
Qed.

(** * The main flow *)

(** The eight actions of one loan. The hub addresses and the backing route of the
    repayment are the only parts of a payload the economics leave open. *)
Definition loan_actions (c : phase8FlowEconomics) (hub backing hub' : string) : list (Z * TypedAction) :=
  [(1, CanonicalUftLock (raw (fe_FundingLockID c)) (raw (fe_LoanID c)) (raw (fe_CanonicalAsset c)) hub
         (raw (fe_WrappedAsset c)) (raw (fe_MintRecipient c)) (fe_PrincipalUnits c));
   (5, collateral_action SatelliteCollateralLocked c);
   (2, principal_action WrappedUftMinted c);
   (6, principal_action HomeDisbursementAuthorized c);
   (7, principal_action SatelliteDisbursementSettled c);
   (8, SatelliteRepaymentBurned (raw (fe_BurnID c)) (raw (fe_LoanID c)) (raw (fe_PaymentID c)) backing
         (raw (fe_CanonicalAsset c)) hub' (raw (fe_WrappedAsset c)) (raw (fe_Lender c))
         (fe_PrincipalUnits c));
   (9, collateral_action HomeCollateralReleaseAuthorized c);
   (10, collateral_action SatelliteCollateralReleased c)].

(** What the head of the flow and the manifest declare is what the payloads say. *)
Record flow_declares (flow : phase8ImportFlow) (manifest : phase8ReleaseManifest)
    (c : phase8FlowEconomics) : Prop := {
  declares_loan : if_LoanID flow = fe_LoanID c;
  declares_lock : if_FundingLockID flow = fe_FundingLockID c;
  declares_collateral : if_CollateralID flow = fe_CollateralID c;
  declares_account : rf_Address (if_LoanAccount flow) = fe_HomeLoan c;
  declares_canonical : rf_Address (if_CanonicalAsset flow) = fe_CanonicalAsset c;
  declares_wrapped : rf_Address (if_WrappedAsset flow) = fe_WrappedAsset c;
  declares_collateral_asset : rf_Address (if_CollateralAsset flow) = fe_CollateralAsset c;
  declares_principal : if_PrincipalUnits flow = fe_PrincipalUnits c;
  declares_collateral_units : if_CollateralUnits flow = fe_CollateralUnits c;
  declares_vault : fe_MintRecipient c = contract_address (mf_Satellite manifest) "satellite_settlement_vault" }.

Lemma order_loop_Ret i messages actions purposes u :
  order_loop i messages actions purposes = Ret u → length messages = length actions →
  length actions = length purposes →
  Forall2 (λ m action, ie_ActionType (im_Envelope m) = action) messages actions ∧
  Forall2 (λ m purpose, im_RoutePurpose m = purpose) messages purposes.
Proof.
  revert i actions purposes. induction messages as [|m messages IH]; intros i [|a actions] [|p purposes];
    cbn [order_loop length]; try done.
  destruct (order_ok m a p) eqn:Ho; [|done]. intros Hl E1 E2. unfold order_ok in Ho. bool_facts.
  destruct (IH _ _ _ Hl) as [A B]; [lia..|]. split; by constructor.
Qed.

Lemma validatePhase8MessageOrder_Ret messages u :
  validatePhase8MessageOrder messages = Ret u →
  Forall2 (λ m action, ie_ActionType (im_Envelope m) = action) messages phase8ExpectedActions ∧
  Forall2 (λ m purpose, im_RoutePurpose m = purpose) messages phase8ExpectedPurposes.
Proof.
  unfold validatePhase8MessageOrder. destruct (Nat.eqb_spec (length messages) (length phase8ExpectedActions));
    [|done]. intros Ho.
  by apply (order_loop_Ret 0 _ _ _ u Ho).
Qed.

Lemma derive_Ret flow manifest c :
  derivePhase8FlowEconomics flow manifest = Ret c →
  ∃ decoded effects, validatePhase8MessageOrder (if_Messages flow) = Ret () ∧
    each decode_message 0 (if_Messages flow) = Ret decoded ∧
    each (λ _, message_effects) 0 (if_Messages flow) = Ret effects ∧
    c = flow_context manifest decoded effects ∧
    Forall (λ pair, pair.1 = pair.2) (flow_pairs flow (default (mkDecoded 0 []) (decoded !! 0%nat)) c) ∧
    ∀ i payload, decoded !! i = Some payload → matches payload c = Ret ().
Proof.
  unfold derivePhase8FlowEconomics. run_step [] Ho. run_step decoded Hd. run_step effects He. cbn zeta.
  run_step [] Hg. run_step units Hm. intros [= <-]. exists decoded, effects. split_and!; try done.
  - by apply guard_Ret, negb_false_iff, all_equal_spec in Hg.
  - intros i payload Hi. apply each_Forall2 in Hm as [_ Hm].
    destruct (Hm i payload Hi) as ([]&_&Hr). by apply at_index_Ret in Hr.
Qed.

(** Each message of an accepted flow, with its decoded payload. *)
Lemma accepted_payload flow manifest c i action :
  derivePhase8FlowEconomics flow manifest = Ret c → phase8ExpectedActions !! i = Some action →
  ∃ m d, if_Messages flow !! i = Some m ∧ ie_ActionType (im_Envelope m) = action ∧
    decodePhase8ActionPayload action (im_Payload m) = Ret d ∧ matches d c = Ret ().
Proof.
  intros (decoded&effects&[Ho _]%validatePhase8MessageOrder_Ret&Hd&_&_&_&Hm)%derive_Ret Ha.
  apply each_Forall2 in Hd as [_ Hd]. destruct (Forall2_lookup_r _ _ _ _ _ Ho Ha) as (m&Hi&Hact).
  destruct (Hd i m Hi) as (d&Hdi&Hr%at_index_Ret). exists m, d. rewrite Hact in Hr.
  split_and!; [done..|]. by apply (Hm i).
Qed.

Lemma accepted_declares flow manifest c :
  derivePhase8FlowEconomics flow manifest = Ret c → flow_declares flow manifest c.
Proof.
  intros (decoded&effects&_&_&_&Hc&Hp&_)%derive_Ret.
  assert (fe_SatelliteSettlementVault c =
    contract_address (mf_Satellite manifest) "satellite_settlement_vault") as Hv by (by rewrite Hc).
  clear Hc. unfold flow_pairs in Hp. repeat (apply Forall_cons in Hp as [? Hp]). cbn [fst snd] in *.
  split; try done. congruence.
Qed.

Lemma accepted_length flow manifest c :
  derivePhase8FlowEconomics flow manifest = Ret c → length (if_Messages flow) = 8%nat.
Proof. intros (?&?&[Ho _]%validatePhase8MessageOrder_Ret&_)%derive_Ret. by apply Forall2_length in Ho. Qed.

(** C21: An accepted flow is the life of one loan: its eight messages are, in order, the
    typed actions of one set of loan terms, and the terms are those the head of the flow
    declares and the settlement vault of the manifest. Each payload is the encoding the
    coordinator gives that action; a flow with zero units is accepted as well, and then it is
    the coordinator that refuses to encode the actions on them. *)
Theorem flow_is_one_loan flow manifest c :
  derivePhase8FlowEconomics flow manifest = Ret c →
  flow_declares flow manifest c ∧
  ∃ hub backing hub',
    Forall2 (λ m (a : Z * TypedAction), ie_ActionType (im_Envelope m) = a.1 ∧ carries (im_Payload m) a.1 a.2)
      (if_Messages flow) (loan_actions c hub backing hub').
Proof.
  intros H. split; [by apply accepted_declares|].
  destruct (accepted_payload _ _ _ 0 _ H eq_refl) as (m0&d0&I0&A0&D0&M0).
  destruct (accepted_payload _ _ _ 5 _ H eq_refl) as (m5&d5&I5&A5&D5&M5).
  exists (raw (word_of d0 3)), (raw (word_of d5 3)), (raw (word_of d5 5)).
  apply Forall2_same_length_lookup. split; [apply (accepted_length _ _ _ H)|].
  intros i m [action typed] Hi Ha. cbn [fst snd].
  assert (phase8ExpectedActions !! i = Some action) as He.
  { by do 8 (destruct i as [|i]; [by injection Ha as <- _|]). }
  destruct (accepted_payload _ _ _ i _ H He) as (m'&d&Hi'&Hact&Hd&Hm).
  rewrite Hi in Hi'. injection Hi' as <-. split; [done|].
  do 8 (destruct i as [|i]; [injection Ha as <- <-; first
    [ (rewrite I0 in Hi; injection Hi as <-; by eapply lock_carries)
    | (rewrite I5 in Hi; injection Hi as <-; by eapply repayment_carries)
    | (eapply principal_carries; [|done..]; set_solver)
    | (eapply collateral_carries; [|done..]; set_solver) ]|]).
  done.
Qed.

(** * The cancellation path *)

(** The terms a request and its completion share, as texts. *)
Record cancellation := mkCancellation {
  cn_id : string; cn_loan : string; cn_lock : string; cn_disbursement : string; cn_tombstone : string;
  cn_home : string; cn_lender : string; cn_wrapped : string; cn_units : string; cn_policy : string }.
Definition requested (c : cancellation) (reason : string) : TypedAction :=
  LoanCancellationRequested (raw (cn_id c)) (raw (cn_loan c)) (raw (cn_lock c)) (raw (cn_disbursement c))
    (raw (cn_tombstone c)) (raw (cn_home c)) (raw (cn_lender c)) (raw (cn_wrapped c)) (cn_units c)
    (raw (cn_policy c)) reason.
Definition completed (c : cancellation) (burnResult : string) : TypedAction :=
  SatelliteFundingCancelled (raw (cn_id c)) (raw (cn_loan c)) (raw (cn_lock c)) (raw (cn_disbursement c))
    (raw (cn_tombstone c)) burnResult (raw (cn_home c)) (raw (cn_lender c)) (raw (cn_wrapped c))
    (cn_units c) (raw (cn_policy c)).

Definition cancellation_of (request : phase8DecodedPayload) : cancellation :=
  mkCancellation (word_of request 0) (word_of request 1) (word_of request 2) (word_of request 3)
    (word_of request 4) (word_of request 5) (word_of request 6) (word_of request 7) (word_of request 8)
    (word_of request 9).

Lemma request_carries payload decoded :
  decodePhase8ActionPayload 12 payload = Ret decoded →
  carries payload 12 (requested (cancellation_of decoded) (raw (word_of decoded 10))).
Proof.
  intros Hd. destruct (decoded_words _ _ _ _ Hd eq_refl) as [Ha Hall].
  eapply decoded_carries; [exact Hd|reflexivity|..]; destruct decoded as [a ws]; cbn [dp_Action dp_Words] in *;
    subst a; explode Hall.
  intros e Ha Ht. unfold Message.EncodeTypedActionABI. rewrite Ha, Ht. reflexivity.
Qed.

Lemma completion_carries c payload decoded :
  decodePhase8ActionPayload 14 payload = Ret decoded →
  [cn_id c; cn_loan c; cn_lock c; cn_disbursement c; cn_tombstone c] = take 5 (dp_Words decoded) →
  [cn_home c; cn_lender c; cn_wrapped c; cn_units c; cn_policy c] = drop 6 (dp_Words decoded) →
  carries payload 14 (completed c (raw (word_of decoded 5))).
Proof.
  intros Hd Ht Hr. destruct (decoded_words _ _ _ _ Hd eq_refl) as [Ha Hall].
  eapply decoded_carries; [exact Hd|reflexivity|..]; destruct decoded as [a ws]; cbn [dp_Action dp_Words] in *;
    subst a; explode Hall; cbn [take drop] in Ht, Hr;
    repeat (apply Message.cons_inj in Ht as [? Ht]; subst); repeat (apply Message.cons_inj in Hr as [? Hr]; subst).
  intros e Ha Ht'. unfold Message.EncodeTypedActionABI. rewrite Ha, Ht'. reflexivity.
Qed.

(** An accepted cancellation is one cancellation: the completion carries the terms of
    the request and names it as its cause, and the request names the disbursement it
    cancels, or the mint when no disbursement was sent. *)
Theorem cancellation_is_one request completion mintMessageID u :
  validatePhase8CancellationOrder [request; completion] mintMessageID = Ret u →
  ∃ c reason burnResult requestID cause,
    carries (im_Payload request) 12 (requested c reason) ∧
    carries (im_Payload completion) 14 (completed c burnResult) ∧
    ie_ActionType (im_Envelope request) = 12 ∧ ie_ActionType (im_Envelope completion) = 14 ∧
    ie_MessageID (im_Envelope request) = Gateway.hex32 requestID ∧
    sameHex (ie_CausationMessageID (im_Envelope completion)) requestID = true ∧
    (if cn_disbursement c =s zero_word then mintMessageID else cn_disbursement c) = Gateway.hex32 cause ∧
    sameHex (ie_CausationMessageID (im_Envelope request)) cause = true.
Proof.
  cbn [validatePhase8CancellationOrder]. run_step requestID Hid. run_step [] Hg. run_step rp Hrp.
  run_step cause Hcause. run_step [] Hsame. run_step cp Hcp. intros Hpairs%guard_Ret%negb_false_iff%all_equal_spec.
  apply guard_Ret in Hg, Hsame. bool_facts. apply or_fail_Ret, importHex_Ret in Hid as (Hid&_).
  exists (cancellation_of rp), (raw (word_of rp 10)), (raw (word_of cp 5)), requestID, cause.
  assert ((if word_of rp 3 =s zero_word then mintMessageID else word_of rp 3) = Gateway.hex32 cause) as Hc.
  { unfold request_cause in Hcause. destruct (word_of rp 3 =s zero_word);
      apply or_fail_Ret, importHex_Ret in Hcause as (->&_); done. }
  split_and!; try done; [by apply request_carries|].
  destruct (decoded_words _ _ _ _ Hcp eq_refl) as [_ Hall]. unfold cancellation_pairs in Hpairs.
  repeat (apply Forall_cons in Hpairs as [? Hpairs]). cbn [fst snd] in *.
  apply (completion_carries _ _ cp); [done..| |]; unfold cancellation_of;
    cbn [cn_id cn_loan cn_lock cn_disbursement cn_tombstone cn_home cn_lender cn_wrapped cn_units cn_policy];
    destruct cp as [a ws]; cbn [dp_Words] in *; explode Hall; cbn [take drop]; cbn in *; congruence.
Qed.

(** * Committing a cancellation *)

Lemma arguments_Panic values vs : Panic ∈ values → arguments values ≠ Ret vs.
Proof.
  revert vs. induction values as [|v values IH]; intros vs; [by intros ?%not_elem_of_nil|].
  intros [<-|Hin]%elem_of_cons; cbn [arguments]; [done|].
  destruct v as [x| |]; [|done..]. destruct (arguments values) as [xs| |] eqn:Hx; [|done..].
  by destruct (IH xs Hin).
Qed.

Lemma call_Panic procedure values s : Panic ∈ values → call procedure values ≠ Ret s.
Proof.
  intros Hin. unfold call. destruct (arguments values) as [vs| |] eqn:Hv; [|done..].
  by destruct (arguments_Panic _ vs Hin).
Qed.

(** A run that sends nothing and does not succeed. *)
Definition stuck {W} (f : W → W * outcome ()) : Prop := ∀ w, ∃ r, f w = (w, r) ∧ r ≠ Ret ().

Lemma exec_stuck {W} (db : Database W) connection query :
  (∀ s, query ≠ Ret s) → stuck (exec_as db connection query).
Proof. intros Hq w. destruct query as [s| |]; [by destruct (Hq s)|by eexists..]. Qed.

Lemma lift_stuck {W A} (c : outcome A) (k : A → W → W * outcome ()) :
  (∀ a, stuck (k a)) → stuck (lift c k).
Proof. intros Hk w. destruct c as [a| |]; [apply Hk|by eexists..]. Qed.

Lemma zero_word_Panic : hex_value 32 zero_word = Panic.
Proof. vm_compute. reflexivity. Qed.

Lemma Ret_pair {A B} (a a' : A) (b b' : B) : Ret (a, b) = Ret (a', b') → a = a' ∧ b = b'.
Proof. by intros [= -> ->]. Qed.

Lemma cancellation_fields message manifest c fields action fields' payload :
  projectPhase8Action message manifest c fields = Ret (action, fields') →
  decodePhase8ActionPayload (ie_ActionType (im_Envelope message)) (im_Payload message) = Ret payload →
  ie_ActionType (im_Envelope message) ∈ [12; 14] →
  ae_Action action = ie_ActionType (im_Envelope message) ∧
  ae_text action DisbursementMessageID = word_of payload 3.
Proof.
  unfold projectPhase8Action. intros Hp Hd Ha. revert Hp. rewrite Hd. run_step u Hm. run_step steps Hs.
  revert Hs. unfold action_steps. set_unfold in Ha.
  destruct Ha as [Ha|[Ha|[]]]; rewrite Ha; cbn [Z.eqb Pos.eqb orb].
  - run_step route Hr. run_step t Ht. intros <-%Ret_inj [<- _]%Ret_pair. split; [exact Ha|reflexivity].
  - run_step route Hr. run_step t Ht. run_step t' Ht'. intros <-%Ret_inj [<- _]%Ret_pair.
    split; [exact Ha|reflexivity].
Qed.

(** The action of a request or completion whose disbursement message is the zero word is
    never committed: the worker does not return normally, and no statement is sent. *)
Lemma undisbursed_cancellation_stuck {W} (db : Database W) messageID message manifest c
    fields action fields' payload :
  projectPhase8Action message manifest c fields = Ret (action, fields') →
  decodePhase8ActionPayload (ie_ActionType (im_Envelope message)) (im_Payload message) = Ret payload →
  ie_ActionType (im_Envelope message) ∈ [12; 14] → word_of payload 3 = zero_word →
  stuck (commitPhase8Action db messageID action).
Proof.
  intros Hp Hd Ha Hz. destruct (cancellation_fields _ _ _ _ _ _ _ Hp Hd Ha) as [Hact Hdis].
  rewrite Hz in Hdis. intros w. unfold commitPhase8Action. destruct (negb _); [by eexists|].
  destruct (db_projectionHash db messageID w) as [hash|]; [|by eexists].
  apply lift_stuck. intros tx. apply lift_stuck. intros t. rewrite Hact. set_unfold in Ha.
  destruct Ha as [->|[->|[]]]; cbn [Z.eqb Pos.eqb]; apply exec_stuck; intros s; apply call_Panic;
    rewrite Hdis, zero_word_Panic; do 7 right; left.
Qed.
