(* ===== verification/WorkerImport.v ===== *)
(** The import of a message flow ([cross-chain-coordinator/cmd/local-worker/manifest_import.go]
    and [manifest_cancellation.go]): the ABI encodings and commitments of an imported message,
    the evidence checks, and the statements an import sends to the database.

    The chain proofs are checked by [EvmProof], signatures by [Recovery]; JSON printing is a
    parameter. *)
From S2P Require Import Prelude GoStd CrossChainTypes Rlp Worker WorkerActions.
From S2P Require Message Gateway EvmProof Recovery.

(** [json.Marshal] of the projection map and [canonicalJSON] of the inclusion evidence; both
    refuse a [json.Number] that is no number. *)
Class WorkerJson := {
  marshal_fields : gmap string field_value → option string;
  canonicalJSON : phase8AuthenticatedInclusion → option string }.

Definition json_or_fail (c : option string) : outcome string :=
  match c with Some s => Ret s | None => Fail ErrJson end.

(** Words in the order of the code; the first failure decides. *)
Definition words_of (words : list (outcome string)) : outcome (list string) :=
  each (λ _ word, word) 0 words.

(** A loop that checks every element. *)
Definition check_all {A B} (f : A → outcome B) (l : list A) : outcome () :=
  let! _ := each (λ _, f) 0 l in Ret ().

Definition hash_word (value : string) : outcome string :=
  let! h := mustManifestHash value in Ret (wordBytes32 h).
Definition address_word (value : string) : outcome string :=
  let! a := mustAddress value in Ret (wordAddress a).
Definition optional_word (value : string) : outcome string :=
  let! b := mustImportBytes32 value true in Ret (wordBytes32 b).

(** * Encodings and commitments *)

Section Encodings.
Context `{Keccak}.

Definition computeImportMessageID (envelope : phase8ImportEnvelope) : outcome string :=
  let! sourceChain := wordUint256 (ie_SourceChainID envelope) in
  let! destinationChain := wordUint256 (ie_DestinationChainID envelope) in
  let! words := words_of
    [Ret (wordUint64 (ie_SchemaVersion envelope)); hash_word (ie_ProtocolID envelope);
     Ret sourceChain; address_word (ie_SourceCoordinator envelope);
     address_word (ie_SourceComponent envelope); Ret destinationChain;
     address_word (ie_DestinationCoordinator envelope);
     address_word (ie_DestinationComponent envelope); hash_word (ie_LaneID envelope);
     mustUintWord (ie_SourceNonce envelope); hash_word (ie_AggregateID envelope);
     Ret (wordUint64 (ie_ActionType envelope)); hash_word (ie_PayloadHash envelope);
     mustTimestampWord (ie_CreatedAt envelope); mustTimestampWord (ie_ExpiresAt envelope);
     hash_word (ie_RoutePolicyHash envelope); hash_word (ie_AdapterSetPolicyHash envelope);
     hash_word (ie_SourceFinalityPolicyHash envelope);
     hash_word (ie_DestinationFinalityPolicyHash envelope); hash_word (ie_CorrelationID envelope);
     optional_word (ie_CausationMessageID envelope);
     optional_word (ie_SupersededMessageID envelope)] in
  abiHash "UNIFIED_XCHAIN_MESSAGE_V1" words.

Definition computeImportObserverCommitment (proof : phase8ImportProof) : outcome string :=
  let! words := words_of
    [hash_word (ip_BlockHash proof); mustUintWord (ip_BlockNumber proof);
     mustUintWord (ip_BlockTimestamp proof); hash_word (ip_FinalityHeadHash proof);
     mustUintWord (ip_FinalityHeadNumber proof); mustUintWord (ip_ConfirmationDepth proof);
     hash_word (ip_ObserverAuthorityHash proof); hash_word (ip_FinalityPolicyHash proof)] in
  abiHash "UNIFIED_OBSERVER_SIGNED_HEADER_V1" words.

Definition encodeImportProofABI (proof : phase8ImportProof) : outcome string :=
  let! signature := importHex (ip_ObserverSignature proof) None false in
  let! words := words_of
    [Ret (wordUint64 32); hash_word (ip_BlockHash proof); mustUintWord (ip_BlockNumber proof);
     mustUintWord (ip_BlockTimestamp proof); hash_word (ip_TransactionHash proof);
     mustUintWord (ip_TransactionIndex proof); hash_word (ip_ReceiptsRoot proof);
     hash_word (ip_InclusionProofHash proof); mustUintWord (ip_LogIndex proof);
     hash_word (ip_EventHash proof); hash_word (ip_FinalityHeadHash proof);
     mustUintWord (ip_FinalityHeadNumber proof); mustUintWord (ip_ConfirmationDepth proof);
     hash_word (ip_ObserverAuthorityHash proof); hash_word (ip_ObserverSignedHeaderCommitment proof);
     Ret (wordUint64 (16 * 32)); hash_word (ip_FinalityPolicyHash proof)] in
  Ret (Message.concat_words words +:+ encodeABIDynamicBytes signature).

(** The offsets of the tails, from the end of the offset table. *)
Fixpoint tail_offsets (offset : Z) (tails : list string) : list string :=
  match tails with
  | [] => []
  | tail :: rest => wordUint64 offset :: tail_offsets (u64 (offset + blen tail)) rest
  end.

Definition encodeImportCertificateABI (certificate : phase8ImportCertificate) : outcome string :=
  let count := length (ic_Signatures certificate) in
  let! _ := guard ((count <? 2)%nat || (3 <? count)%nat) ErrSignatureCount in
  let! signatures := each (λ _ value, importHex value (Some 65%nat) false) 0 (ic_Signatures certificate) in
  let tails := encodeABIDynamicBytes <$> signatures in
  let! words := words_of
    [Ret (wordUint64 32); hash_word (ic_MessageID certificate);
     hash_word (ic_SourceProofHash certificate); hash_word (ic_SignerSetHash certificate);
     Ret (wordUint64 (ic_SignerSetVersion certificate)); Ret (wordUint64 (5 * 32));
     Ret (wordUint64 (Z.of_nat count))] in
  Ret (Message.concat_words (words ++ tail_offsets (Z.of_nat (count * 32)) tails ++ tails)).

Definition encodeImportEnvelopePayloadABI (envelope : phase8ImportEnvelope) (payload : string)
    : outcome string :=
  let! sourceChain := wordUint256 (ie_SourceChainID envelope) in
  let! destinationChain := wordUint256 (ie_DestinationChainID envelope) in
  let! words := words_of
    [Ret (wordUint64 (ie_SchemaVersion envelope)); hash_word (ie_MessageID envelope);
     hash_word (ie_ProtocolID envelope); Ret sourceChain;
     address_word (ie_SourceCoordinator envelope); address_word (ie_SourceComponent envelope);
     Ret destinationChain; address_word (ie_DestinationCoordinator envelope);
     address_word (ie_DestinationComponent envelope); hash_word (ie_LaneID envelope);
     mustUintWord (ie_SourceNonce envelope); hash_word (ie_AggregateID envelope);
     Ret (wordUint64 (ie_ActionType envelope)); hash_word (ie_PayloadHash envelope);
     mustUintWord (ie_CreatedAt envelope); mustUintWord (ie_ExpiresAt envelope);
     hash_word (ie_RoutePolicyHash envelope); hash_word (ie_AdapterSetPolicyHash envelope);
     hash_word (ie_SourceFinalityPolicyHash envelope);
     hash_word (ie_DestinationFinalityPolicyHash envelope); hash_word (ie_CorrelationID envelope);
     optional_word (ie_CausationMessageID envelope); optional_word (ie_SupersededMessageID envelope);
     Ret (wordUint64 (24 * 32))] in
  Ret (Message.concat_words words +:+ encodeABIDynamicBytes payload).

Definition computeSourceMessageEventHash (envelope : phase8ImportEnvelope) : outcome string :=
  let! words := words_of
    [address_word (ie_SourceCoordinator envelope); hash_word (ie_MessageID envelope);
     hash_word (ie_LaneID envelope); mustUintWord (ie_SourceNonce envelope);
     Ret (wordUint64 (ie_ActionType envelope)); hash_word (ie_PayloadHash envelope)] in
  abiHash "UNIFIED_MESSAGE_SENT_V1" words.

Definition computeAcknowledgementEventHash (envelope : phase8ImportEnvelope) (resultHash : string)
    : outcome string :=
  let! words := words_of
    [address_word (ie_DestinationCoordinator envelope); hash_word (ie_MessageID envelope);
     hash_word resultHash] in
  abiHash "UNIFIED_XCHAIN_EXECUTION_ACKNOWLEDGEMENT_V1" words.
End Encodings.

(** * Domains *)

(** [canonicalManifestNumber] with its error dropped. *)
Definition number_or_empty (value : string) : string :=
  match canonicalManifestNumber value false with Ret text => text | _ => ""%string end.

Definition manifestDomainByChainID (manifest : phase8ReleaseManifest) (chainID : string)
    : outcome phase8ManifestDomain :=
  if number_or_empty (md_ChainID (mf_Home manifest)) =s chainID then Ret (mf_Home manifest)
  else if number_or_empty (md_ChainID (mf_Satellite manifest)) =s chainID then Ret (mf_Satellite manifest)
  else Fail ErrDomainMissing.

Definition importProofDomain (proof : phase8ImportProof) (envelope : phase8ImportEnvelope)
    (manifest : phase8ReleaseManifest) : outcome phase8ManifestDomain :=
  let! chainID := canonicalManifestNumber (ip_ChainID proof) false in
  let sourceID := number_or_empty (ie_SourceChainID envelope) in
  let destinationID := number_or_empty (ie_DestinationChainID envelope) in
  if chainID =s sourceID then manifestDomainByChainID manifest sourceID
  else if chainID =s destinationID then manifestDomainByChainID manifest destinationID
  else Fail ErrProofDomain.

Definition oppositeImportDomain (proof : phase8ImportProof) (envelope : phase8ImportEnvelope)
    (manifest : phase8ReleaseManifest) : outcome phase8ManifestDomain :=
  let! chainID := canonicalManifestNumber (ip_ChainID proof) false in
  let sourceID := number_or_empty (ie_SourceChainID envelope) in
  let destinationID := number_or_empty (ie_DestinationChainID envelope) in
  if chainID =s sourceID then manifestDomainByChainID manifest destinationID
  else if chainID =s destinationID then manifestDomainByChainID manifest sourceID
  else Fail ErrProofDomain.

Definition envelopeMessageID (envelope : phase8ImportEnvelope) : outcome string :=
  mustManifestHash (ie_MessageID envelope).

(** * Signers *)

Section Signers.
Context `{Keccak, Recovery.Secp256k1}.

(** The digest the signers of a certificate sign. *)
Definition finality_digest (chainWord verifier messageID proofHash signerSet : string) (version : Z)
    : outcome string :=
  abiHash "UNIFIED_SYNTHETIC_FINALITY_V1"
    [chainWord; wordAddress verifier; wordBytes32 messageID; wordBytes32 proofHash;
     wordBytes32 signerSet; wordUint64 version].

(** [bitmap[signerIndex] = '1'] for the first matching signer. *)
Fixpoint mark_signer (recovered : string) (sorted : list string) (bitmap : list bool)
    : option (list bool) :=
  match sorted, bitmap with
  | allowed :: sorted, bit :: bitmap =>
      if recovered =s allowed then Some (true :: bitmap)
      else match mark_signer recovered sorted bitmap with
      | Some marked => Some (bit :: marked)
      | None => None
      end
  | _, _ => None
  end.

(** The loop over the signatures; [read] reads one of them. *)
Fixpoint signer_loop (read : string → outcome string) (digest : string) (sorted : list string)
    (signatures : list string) (seen : gset string) (bitmap : list bool) : outcome (list bool) :=
  match signatures with
  | [] => Ret bitmap
  | encoded :: rest =>
      let! signature := read encoded in
      match Recovery.VerifyEthereumSignature digest signature with
      | Err _ => Fail ErrSignature
      | Ok recovered =>
          if decide (recovered ∈ seen) then Fail ErrSignerRepeated
          else match mark_signer recovered sorted bitmap with
          | None => Fail ErrSignerUnknown
          | Some marked => signer_loop read digest sorted rest ({[recovered]} ∪ seen) marked
          end
      end
  end.

Definition bitmap_text (bitmap : list bool) : string :=
  foldr (λ (bit : bool) s, (if bit then "1" else "0") +:+ s) ""%string bitmap.

Definition certificateSignerBitmap (certificate : phase8ImportCertificate) (proof : phase8ImportProof)
    (envelope : phase8ImportEnvelope) (manifest : phase8ReleaseManifest) : outcome string :=
  let! evidenceDomain := importProofDomain proof envelope manifest in
  let! verificationDomain := oppositeImportDomain proof envelope manifest in
  let! messageID := envelopeMessageID envelope in
  let! evidenceSignerSet := mustManifestHash (ms_Hash (md_SignerSet evidenceDomain)) in
  let! verificationChainID := canonicalManifestNumber (md_ChainID verificationDomain) false in
  let! chainWord := wordUint256 verificationChainID in
  let! verifier := mustAddress (contract_address verificationDomain "finality_verifier") in
  let! proofHash := mustManifestHash (ic_SourceProofHash certificate) in
  let! digest := finality_digest chainWord verifier messageID proofHash evidenceSignerSet
    (ic_SignerSetVersion certificate) in
  let! sorted := validateSortedAddresses (ms_SortedAddresses (md_SignerSet evidenceDomain)) in
  let! bitmap := signer_loop (λ s, importHex s (Some 65%nat) false) digest sorted
    (ic_Signatures certificate) ∅ [false; false; false] in
  Ret (bitmap_text bitmap).

(** The word of a chain id whose parse errors are dropped: on an error [chainWord] is nil and
    [abiHash] panics. *)
Definition dropped_word (chainID : string) : outcome string :=
  match wordUint256 (number_or_empty chainID) with Ret word => Ret word | _ => Panic end.

Definition validateImportCertificate (certificate : phase8ImportCertificate) (proof : phase8ImportProof)
    (envelope : phase8ImportEnvelope) (manifest : phase8ReleaseManifest) : outcome () :=
  let count := Z.of_nat (length (ic_Signatures certificate)) in
  let! _ := guard (empty_s (ic_CertificateID certificate) || (ic_SignerSetVersion certificate =? 0) ||
      (ic_SignatureCount certificate <? 2) || (3 <? ic_SignatureCount certificate) ||
      (count <? 2) || (3 <? count) || negb (ic_SignatureCount certificate =? count))
    ErrCertificateShape in
  let! _ := importHex (ic_SignerSetHash certificate) (Some 32%nat) false in
  let! _ := importHex (ic_CertificateHash certificate) (Some 32%nat) false in
  let! messageID := envelopeMessageID envelope in
  let! _ := guard (negb (sameHex (ic_MessageID certificate) messageID)) ErrCertificateBinding in
  let! proofBytes := mustImportHex (ip_ProofHash proof) (Some 32%nat) false in
  let! _ := guard (negb (sameHex (ic_SourceProofHash certificate) proofBytes)) ErrCertificateBinding in
  let! certificateABI := mustImportHex (ic_CertificateABI certificate) None false in
  let! reconstructed := or_fail ErrCertificateABI (encodeImportCertificateABI certificate) in
  let! _ := guard (certificateABI <>s reconstructed) ErrCertificateABI in
  let! _ := guard (negb (sameHex (ic_CertificateHash certificate) (keccak certificateABI)))
    ErrCertificateHash in
  let! evidenceDomain := importProofDomain proof envelope manifest in
  let! evidenceSignerSet := mustManifestHash (ms_Hash (md_SignerSet evidenceDomain)) in
  let! _ := guard (negb (sameHex (ic_SignerSetHash certificate) evidenceSignerSet) ||
      negb (ic_SignerSetVersion certificate =? ms_Version (md_SignerSet evidenceDomain))) ErrSignerSet in
  let! verificationDomain := oppositeImportDomain proof envelope manifest in
  let! verifier := mustAddress (contract_address verificationDomain "finality_verifier") in
  let! proofHash := mustManifestHash (ic_SourceProofHash certificate) in
  let! chainWord := dropped_word (md_ChainID verificationDomain) in
  let! digest := finality_digest chainWord verifier messageID proofHash evidenceSignerSet
    (ic_SignerSetVersion certificate) in
  let! sorted := validateSortedAddresses (ms_SortedAddresses (md_SignerSet evidenceDomain)) in
  let! bitmap := signer_loop (λ s, mustImportHex s (Some 65%nat) false) digest sorted
    (ic_Signatures certificate) ∅ [false; false; false] in
  let! _ := guard (ic_SignerBitmap certificate <>s bitmap_text bitmap) ErrBitmap in
  let! _ := importTime (ic_CertifiedAt certificate) in
  Ret ().
End Signers.

(** * The statements derived from a message *)

Record phase8SQLImport := mkSQLImport {
  si_SerializedEnvelope : string; si_Envelope : phase8ImportEnvelope;
  si_SourceProof : phase8ImportProof; si_SourceCertificate : phase8ImportCertificate;
  si_DestinationProof : phase8ImportProof; si_DestinationCertificate : phase8ImportCertificate;
  si_ProviderAttempts : list phase8ProviderAttempt; si_Execution : phase8ImportExecution;
  si_Acknowledgement : phase8ImportAcknowledgement; si_ActionProjection : phase8ImportProjection;
  si_ActionEconomics : phase8ActionEconomics; si_Transitions : list phase8ImportTransition }.

Definition set_proof_identity (id chain proofHash rawEvidence observedAt abi : string)
    (p : phase8ImportProof) : phase8ImportProof :=
  mkImportProof abi id chain (ip_TransactionHash p) (ip_TransactionIndex p) (ip_LogIndex p)
    (ip_BlockNumber p) (ip_BlockTimestamp p) (ip_BlockHash p) (ip_ReceiptsRoot p)
    (ip_InclusionProofHash p) (ip_EventHash p) (ip_FinalityHeadNumber p) (ip_FinalityHeadHash p)
    (ip_ConfirmationDepth p) (ip_FinalityPolicyHash p) (ip_ObserverAuthorityHash p)
    (ip_ObserverSignedHeaderCommitment p) (ip_ObserverSignature p) proofHash rawEvidence observedAt.

Definition set_certificate_identity (id certificateHash certifiedAt abi bitmap : string)
    (c : phase8ImportCertificate) : phase8ImportCertificate :=
  mkImportCertificate abi id (ic_MessageID c) (ic_SourceProofHash c) (ic_SignerSetHash c)
    (ic_SignerSetVersion c) bitmap (u32 (Z.of_nat (length (ic_Signatures c)))) certificateHash
    (ic_Signatures c) certifiedAt.

Definition phase8CanonicalTransitions (sourceProof : phase8ImportProof)
    (sourceCertificate : phase8ImportCertificate) (destinationProof : phase8ImportProof)
    (destinationResultHash : string) : list phase8ImportTransition :=
  let sourceTime := ip_ObservedAt sourceProof in
  let destinationTime := ip_ObservedAt destinationProof in
  [mkTransition 1 "CREATED" "SOURCE_FINALIZING" None (ip_ProofHash sourceProof) sourceTime;
   mkTransition 2 "SOURCE_FINALIZING" "SOURCE_FINAL" None (ic_CertificateHash sourceCertificate) sourceTime;
   mkTransition 3 "SOURCE_FINAL" "SENT" None (ic_CertificateHash sourceCertificate) sourceTime;
   mkTransition 4 "SENT" "RELAYED" None (ip_ProofHash destinationProof) destinationTime;
   mkTransition 5 "RELAYED" "VERIFIED" None (ic_CertificateHash sourceCertificate) destinationTime;
   mkTransition 6 "VERIFIED" "EXECUTED" None destinationResultHash destinationTime;
   mkTransition 7 "EXECUTED" "ACK_PENDING" None destinationResultHash destinationTime;
   mkTransition 8 "ACK_PENDING" "ACKNOWLEDGED" None destinationResultHash destinationTime].

Section Derive.
Context `{Keccak, Recovery.Secp256k1, WorkerJson}.

(** The expansion of a proof and of its certificate, once for the source and once for the
    acknowledgement. *)
Definition expand_proof (proof : phase8ImportProof) (id chain proofHash rawEvidence : string)
    : outcome phase8ImportProof :=
  let! observedAt := unixNumberRFC3339 (ip_BlockTimestamp proof) in
  let! abi := encodeImportProofABI (set_proof_identity id chain proofHash rawEvidence observedAt "" proof) in
  let! _ := guard (negb (sameHex proofHash (keccak abi))) ErrProofHash in
  Ret (set_proof_identity id chain proofHash rawEvidence observedAt (Gateway.hex32 abi) proof).

Definition expand_certificate (certificate : phase8ImportCertificate) (id certificateHash : string)
    (proof : phase8ImportProof) (envelope : phase8ImportEnvelope) (manifest : phase8ReleaseManifest)
    : outcome phase8ImportCertificate :=
  let! abi := encodeImportCertificateABI certificate in
  let! _ := guard (negb (sameHex certificateHash (keccak abi))) ErrCertificateHash in
  let expanded :=
    set_certificate_identity id certificateHash (ip_ObservedAt proof) (Gateway.hex32 abi) in
  let! bitmap := certificateSignerBitmap (expanded "" certificate) proof envelope manifest in
  Ret (expanded bitmap certificate).

Definition provider_attempt (message : phase8ImportMessage) (envelopeHash : string)
    (public : phase8PublicProviderAttempt) : outcome phase8ProviderAttempt :=
  let! _ := guard ((pa_MessageID public <>s ie_MessageID (im_Envelope message)) ||
      (pa_PayloadHash public <>s ie_PayloadHash (im_Envelope message)) ||
      (pa_SourceProofHash public <>s is_ProofHash (im_Source message))) ErrAttempt in
  let! _ := or_fail ErrAttempt (importHex (pa_TransportReceiptHash public) (Some 32%nat) false) in
  let! createdAt := mustUnixInt64 (ie_CreatedAt (im_Envelope message)) in
  let! attemptedAt := unixSecondsRFC3339 (Time.i64 (createdAt + pa_AttemptNumber public)) in
  Ret (mkAttempt (pa_ProviderID public) (pa_AttemptNumber public) (hexHash envelopeHash)
    (pa_SourceProofHash public) (pa_Status public)
    (if pa_Status public <>s "FAILED" then Some (pa_TransportReceiptHash public) else None) attemptedAt).

Definition projection_fields (message : phase8ImportMessage) (manifest : phase8ReleaseManifest)
    : gmap string field_value :=
  list_to_map
    [("action_ordinal", FUint (ie_ActionType (im_Envelope message)));
     ("destination_result_hash", FText (id_ResultHash (im_Destination message)));
     ("evm_acknowledgement_commitment", FText (ia_Commitment (im_Acknowledgement message)));
     ("payload_abi", FText (im_Payload message)); ("proof_boundary", FText (mf_ProofBoundary manifest));
     ("route_purpose", FText (im_RoutePurpose message))]%string.

(** A proof and a certificate the import does not fill in. *)
Definition zero_proof : phase8ImportProof :=
  mkImportProof "" "" "" "" "" "" "" "" "" "" "" "" "" "" "" "" "" "" "" "" "" "".
Definition zero_certificate : phase8ImportCertificate :=
  mkImportCertificate "" "" "" "" "" 0 "" 0 "" [] "".

Definition derivePhase8SQLImport (message : phase8ImportMessage) (manifest : phase8ReleaseManifest)
    (economics : phase8FlowEconomics) : outcome phase8SQLImport :=
  let envelope := im_Envelope message in
  let source := im_Source message in
  let destination := im_Destination message in
  let acknowledgement := im_Acknowledgement message in
  let! payload := importHex (im_Payload message) None false in
  let! _ := guard (negb (sameHex (ie_PayloadHash envelope) (keccak payload))) ErrPayloadHash in
  let! _ := guard (negb (ia_Finalized acknowledgement)) ErrNotFinalized in
  let! serialized := encodeImportEnvelopePayloadABI envelope payload in
  let! sourceProof := expand_proof (is_Proof source) (is_ProofID source) (is_ChainID source)
    (is_ProofHash source) (is_RawEvidenceObjectHash source) in
  let! sourceEventHash := computeSourceMessageEventHash envelope in
  let! _ := guard (negb (sameHex (ip_EventHash sourceProof) sourceEventHash)) ErrEventHash in
  let! sourceCertificate := expand_certificate (is_Certificate source) (is_CertificateID source)
    (is_CertificateHash source) sourceProof envelope manifest in
  let! inclusion := json_or_fail (canonicalJSON (ia_AuthenticatedInclusion acknowledgement)) in
  let! destinationProof := expand_proof (ia_Proof acknowledgement) (ia_ProofID acknowledgement)
    (id_ChainID destination) (ia_ProofHash acknowledgement) (hexHash (keccak inclusion)) in
  let! commitment := computeAcknowledgementEventHash envelope (id_ResultHash destination) in
  let! _ := guard (negb (sameHex (ia_Commitment acknowledgement) commitment) ||
      negb (sameHex (ip_EventHash destinationProof) commitment)) ErrCommitment in
  let! destinationCertificate := expand_certificate (ia_Certificate acknowledgement)
    (ia_CertificateID acknowledgement) (ia_CertificateHash acknowledgement) destinationProof envelope
    manifest in
  let! providerAttempts :=
    each (λ _, provider_attempt message (keccak serialized)) 0 (im_ProviderAttempts message) in
  let! (actionEconomics, fields) :=
    projectPhase8Action message manifest economics (projection_fields message manifest) in
  let! projection := json_or_fail (marshal_fields fields) in
  let projectedAt := ae_text actionEconomics
    (if ae_Action actionEconomics =? 8 then ReleaseFinalizedAt else FinalizedAt) in
  let destinationTime := ip_ObservedAt destinationProof in
  Ret (mkSQLImport (Gateway.hex32 serialized) envelope sourceProof sourceCertificate destinationProof
    destinationCertificate providerAttempts
    (mkExecution (id_ChainID destination) (id_TransactionHash destination) (id_LogIndex destination)
       (id_ResultHash destination) "" destinationTime)
    (mkAcknowledgement "" "" "" "" "" "" (ia_Commitment acknowledgement) false "" ""
       (ia_CertificateID acknowledgement) "" zero_proof zero_certificate zero_inclusion
       (id_ResultHash destination) (ia_ProofID acknowledgement) destinationTime)
    (mkProjection projection projectedAt) actionEconomics
    (phase8CanonicalTransitions sourceProof sourceCertificate destinationProof
       (id_ResultHash destination))).
End Derive.

(** * Validation *)

Definition localProviderAID : string := "mock-bridge-provider-a".
Definition localProviderBID : string := "mock-bridge-provider-b".

(** The provider, number, status and retry flag of each attempt of the frozen path. *)
Definition expected_attempts (expectFailover : bool) : list (string * Z * string * bool) :=
  if expectFailover
  then [(localProviderAID, 1, "FAILED"%string, true); (localProviderBID, 2, "DELIVERED"%string, false)]
  else [(localProviderAID, 1, "DELIVERED"%string, false)].

Definition attempt_ok (message : phase8ImportMessage) (attempt : phase8PublicProviderAttempt)
    (want : string * Z * string * bool) : outcome () :=
  let '(providerID, number, status, retryable) := want in
  let! _ := guard ((pa_ProviderID attempt <>s providerID) || negb (pa_AttemptNumber attempt =? number) ||
      (pa_Status attempt <>s status) || negb (eqb (pa_Retryable attempt) retryable)) ErrAttempt in
  let! messageID := mustImportHex (ie_MessageID (im_Envelope message)) (Some 32%nat) false in
  let! _ := guard (negb (sameHex (pa_MessageID attempt) messageID)) ErrAttempt in
  let! payloadHash := mustImportHex (ie_PayloadHash (im_Envelope message)) (Some 32%nat) false in
  let! _ := guard (negb (sameHex (pa_PayloadHash attempt) payloadHash)) ErrAttempt in
  let! proofHash := mustImportHex (is_ProofHash (im_Source message)) (Some 32%nat) false in
  guard (negb (sameHex (pa_SourceProofHash attempt) proofHash)) ErrAttempt.

Definition validatePhase8ProviderAttempts (message : phase8ImportMessage) (expectFailover : bool)
    : outcome () :=
  let expected := expected_attempts expectFailover in
  let! _ := guard (negb (length (im_ProviderAttempts message) =? length expected)%nat) ErrAttemptPath in
  check_all (λ pair, attempt_ok message pair.1 pair.2) (zip (im_ProviderAttempts message) expected).

Definition validatePhase8OuterProofIdentity (transactionHash blockHash blockNumber transactionIndex
    logIndex : string) (proof : phase8ImportProof) : outcome () :=
  let! _ := check_all (λ value, canonicalManifestNumber value true)
    [blockNumber; transactionIndex; logIndex] in
  let! proofTransaction := mustImportHex (ip_TransactionHash proof) (Some 32%nat) false in
  let! _ := guard (negb (sameHex transactionHash proofTransaction)) ErrProofIdentity in
  let! proofBlock := mustImportHex (ip_BlockHash proof) (Some 32%nat) false in
  guard (negb (sameHex blockHash proofBlock) || (blockNumber <>s ip_BlockNumber proof) ||
         (transactionIndex <>s ip_TransactionIndex proof) || (logIndex <>s ip_LogIndex proof))
    ErrProofIdentity.

Definition importHexList (values : list string) : outcome (list string) :=
  let! _ := guard (length values =? 0)%nat ErrNodes in
  each (λ _ value, importHex value None false) 0 values.

Definition import_receipt (index : nat) (item : phase8AuthenticatedReceipt)
    : outcome EvmProof.ReceiptInclusionProof :=
  match parse_uint64 (ar_TransactionIndex item) with
  | Some transactionIndex =>
      let! _ := guard (negb (transactionIndex =? Z.of_nat index)) ErrInclusionPrefix in
      let! transactionRLP := importHex (ar_TransactionRLP item) None false in
      let! receiptRLP := importHex (ar_ReceiptRLP item) None false in
      let! transactionNodes := importHexList (ar_TransactionProofNodes item) in
      let! receiptNodes := importHexList (ar_ReceiptProofNodes item) in
      Ret (EvmProof.mkReceiptProof transactionIndex transactionRLP transactionNodes receiptRLP receiptNodes)
  | None => Fail ErrInclusionPrefix
  end.

Definition import_header (item : phase8AuthenticatedHeader) : outcome EvmProof.AuthenticatedHeader :=
  let! header := importHex (ah_HeaderRLP item) None false in
  let! signature := importHex (ah_HeaderSignatureEd25519 item) (Some 64%nat) false in
  let! observed := unixNanosTime (ah_HeaderObservedAtUnixNanos item) in
  Ret (EvmProof.mkAuthenticatedHeader header observed signature).

Section Validate.
Context `{Keccak, Recovery.Secp256k1, WorkerJson, EvmProof.Ed25519}.

Definition expectedSourceCoordinatorLog (envelope : phase8ImportEnvelope) (logIndex : Z)
    : outcome EvmProof.ExpectedReceiptLog :=
  let signature :=
    keccak "MessageSent(bytes32,bytes32,uint64,bytes32,uint8,bytes32,uint256,address)" in
  let! sourceNonce := mustUintWord (ie_SourceNonce envelope) in
  let destinationChain :=
    match wordUint256 (ie_DestinationChainID envelope) with Ret word => word | _ => ""%string end in
  let! words := words_of
    [hash_word (ie_AggregateID envelope); Ret (wordUint64 (ie_ActionType envelope));
     hash_word (ie_PayloadHash envelope); Ret destinationChain;
     address_word (ie_DestinationComponent envelope)] in
  Ret (EvmProof.mkExpectedLog (Gateway.ToLower (ie_SourceCoordinator envelope))
    [hexHash signature; ie_MessageID envelope; ie_LaneID envelope; Gateway.hex32 sourceNonce]
    (Message.concat_words words) logIndex).

Definition expectedExecutionCoordinatorLog (envelope : phase8ImportEnvelope) (resultHash : string)
    (logIndex : Z) : outcome EvmProof.ExpectedReceiptLog :=
  let signature := keccak "MessageExecuted(bytes32,bytes32,uint64,address,bytes32)" in
  let! sourceNonce := mustUintWord (ie_SourceNonce envelope) in
  let! words := words_of [address_word (ie_DestinationComponent envelope); hash_word resultHash] in
  Ret (EvmProof.mkExpectedLog (Gateway.ToLower (ie_DestinationCoordinator envelope))
    [hexHash signature; ie_MessageID envelope; ie_LaneID envelope; Gateway.hex32 sourceNonce]
    (Message.concat_words words) logIndex).

(** The comparison of the verified evidence with the proof; [differs] stops at the first
    difference, before a later number is read. *)
Definition number_differs (verified : Z) (value : string) : outcome bool :=
  let! number := mustJSONUint64 value in Ret (negb (verified =? number)).
Fixpoint any_differs (checks : list (outcome bool)) : outcome bool :=
  match checks with
  | [] => Ret false
  | check :: rest => let! bad := check in if bad then Ret true else any_differs rest
  end.
Definition evidence_differs (verified : EvmProof.VerifiedReceiptEvidence) (targetIndex : Z)
    (proof : phase8ImportProof) : outcome bool :=
  any_differs
    [Ret (EvmProof.ve_TransactionHash verified <>s ip_TransactionHash proof);
     Ret (negb (EvmProof.ve_TransactionIndex verified =? targetIndex));
     Ret (EvmProof.ve_BlockHash verified <>s ip_BlockHash proof);
     number_differs (EvmProof.ve_BlockNumber verified) (ip_BlockNumber proof);
     number_differs (EvmProof.ve_BlockTimestamp verified) (ip_BlockTimestamp proof);
     Ret (EvmProof.ve_ReceiptsRoot verified <>s ip_ReceiptsRoot proof);
     Ret (EvmProof.ve_InclusionProofHash verified <>s ip_InclusionProofHash proof);
     Ret (EvmProof.ve_FinalityHeadHash verified <>s ip_FinalityHeadHash proof);
     number_differs (EvmProof.ve_FinalityHeadNumber verified) (ip_FinalityHeadNumber proof)].

Definition validateAuthenticatedInclusion (inclusion : phase8AuthenticatedInclusion)
    (declaredRawEvidenceObjectHash : string) (proof : phase8ImportProof)
    (envelope : phase8ImportEnvelope) (manifest : phase8ReleaseManifest)
    (expectedLog : EvmProof.ExpectedReceiptLog) : outcome () :=
  let! canonical := json_or_fail (canonicalJSON inclusion) in
  let! _ := or_fail ErrEvidenceHash (importHex declaredRawEvidenceObjectHash (Some 32%nat) false) in
  let! _ := guard (negb (sameHex declaredRawEvidenceObjectHash (keccak canonical))) ErrEvidenceHash in
  let! domain := importProofDomain proof envelope manifest in
  let! chainText := canonicalManifestNumber (ip_ChainID proof) false in
  match parse_uint64 chainText, parse_uint64 (ip_TransactionIndex proof) with
  | Some chainID, Some targetIndex =>
      let! authority := importHex (md_ObserverPublicKey domain) (Some 32%nat) false in
      let! headerRLP := importHex (ai_HeaderRLP inclusion) None false in
      let! headerSignature := importHex (ai_HeaderSignatureEd25519 inclusion) (Some 64%nat) false in
      let! observedAt := unixNanosTime (ai_HeaderObservedAtUnixNanos inclusion) in
      let! receipts := each import_receipt 0 (ai_Receipts inclusion) in
      let! confirmationHeaders := each (λ _, import_header) 0 (ai_ConfirmationHeaders inclusion) in
      let! requiredDepth := mustJSONUint64 (ip_ConfirmationDepth proof) in
      match EvmProof.VerifyAuthenticatedReceiptEvidence chainID (contract_address domain "coordinator")
              authority (EvmProof.mkAuthenticatedBlock headerRLP observedAt headerSignature receipts)
              confirmationHeaders targetIndex requiredDepth expectedLog with
      | Err _ => Fail ErrInclusion
      | Ok verified =>
          let! differs := evidence_differs verified targetIndex proof in
          guard differs ErrInclusionDiffers
      end
  | _, _ => Fail ErrChainRange
  end.

Definition validateImportProof (proof : phase8ImportProof) (envelope : phase8ImportEnvelope)
    (manifest : phase8ReleaseManifest) : outcome () :=
  let! _ := guard (empty_s (ip_ProofID proof)) ErrProofID in
  let! _ := check_all (λ value, canonicalManifestNumber value true)
    [ip_ChainID proof; ip_TransactionIndex proof; ip_LogIndex proof; ip_BlockNumber proof;
     ip_BlockTimestamp proof; ip_FinalityHeadNumber proof; ip_ConfirmationDepth proof] in
  let! _ := check_all (λ value, importHex value (Some 32%nat) false)
    [ip_TransactionHash proof; ip_BlockHash proof; ip_ReceiptsRoot proof; ip_InclusionProofHash proof;
     ip_EventHash proof; ip_FinalityHeadHash proof; ip_FinalityPolicyHash proof;
     ip_ObserverAuthorityHash proof; ip_ObserverSignedHeaderCommitment proof; ip_ProofHash proof] in
  let! signature := importHex (ip_ObserverSignature proof) None false in
  let! _ := guard (negb (String.length signature =? 64)%nat) ErrObserverSignature in
  let! proofABI := mustImportHex (ip_ProofABI proof) None false in
  let! reconstructed := or_fail ErrProofABI (encodeImportProofABI proof) in
  let! _ := guard (proofABI <>s reconstructed) ErrProofABI in
  let! _ := guard (negb (sameHex (ip_ProofHash proof) (keccak proofABI))) ErrProofHash in
  let! domain := importProofDomain proof envelope manifest in
  let! publicKey := mustImportHex (md_ObserverPublicKey domain) (Some 32%nat) false in
  let! _ := guard (negb (sameHex (ip_ObserverAuthorityHash proof) (keccak publicKey))) ErrAuthority in
  let! commitment := mustImportHex (ip_ObserverSignedHeaderCommitment proof) (Some 32%nat) false in
  let! expectedCommitment := or_fail ErrObserverCommitment (computeImportObserverCommitment proof) in
  let! _ := guard (commitment <>s expectedCommitment) ErrObserverCommitment in
  let! _ := guard (negb (EvmProof.ed25519_Verify publicKey commitment signature)) ErrObserverSignature in
  let! _ := importTime (ip_ObservedAt proof) in
  Ret ().

Definition expectedStates : list (string * string) :=
  [("CREATED", "SOURCE_FINALIZING"); ("SOURCE_FINALIZING", "SOURCE_FINAL"); ("SOURCE_FINAL", "SENT");
   ("SENT", "RELAYED"); ("RELAYED", "VERIFIED"); ("VERIFIED", "EXECUTED");
   ("EXECUTED", "ACK_PENDING"); ("ACK_PENDING", "ACKNOWLEDGED")]%string.

Definition transition_ok (index : nat) (pair : phase8ImportTransition * (string * string)) : outcome () :=
  let '(transition, (from, to)) := pair in
  let! _ := guard (negb (it_ExpectedVersion transition =? Z.of_nat index + 1) ||
      (it_ExpectedState transition <>s from) || (it_NextState transition <>s to)) ErrTransitions in
  let! _ := importHex (it_EvidenceHash transition) (Some 32%nat) false in
  let! _ := importTime (it_OccurredAt transition) in
  Ret ().

(** The envelope fields checked between the derivation and the proofs. *)
Definition validate_envelope_fields (envelope : phase8ImportEnvelope) : outcome () :=
  let! _ := guard (negb (ie_SchemaVersion envelope =? 1) || (ie_ActionType envelope =? 0) ||
      (16 <? ie_ActionType envelope)) ErrMetadata in
  let! _ := check_all (λ value, importHex value (Some 32%nat) false)
    [ie_MessageID envelope; ie_ProtocolID envelope; ie_LaneID envelope; ie_AggregateID envelope;
     ie_PayloadHash envelope; ie_RoutePolicyHash envelope; ie_AdapterSetPolicyHash envelope;
     ie_SourceFinalityPolicyHash envelope; ie_DestinationFinalityPolicyHash envelope;
     ie_CorrelationID envelope] in
  let! _ := check_all (λ value, importHex value (Some 20%nat) false)
    [ie_SourceCoordinator envelope; ie_SourceComponent envelope; ie_DestinationCoordinator envelope;
     ie_DestinationComponent envelope] in
  let! _ := importHex (ie_CausationMessageID envelope) (Some 32%nat) true in
  let! _ := importHex (ie_SupersededMessageID envelope) (Some 32%nat) true in
  let! _ := canonicalManifestNumber (ie_SourceChainID envelope) false in
  let! _ := canonicalManifestNumber (ie_DestinationChainID envelope) false in
  let! _ := canonicalManifestNumber (ie_SourceNonce envelope) false in
  Ret ().

(** The index that most errors name is put on all of them. *)
Definition validatePhase8ImportMessage (message : phase8ImportMessage) (index : nat)
    (expectedSequence : Z) (expectFailover : bool) (manifest : phase8ReleaseManifest)
    (economics : phase8FlowEconomics) : outcome () :=
  let source := im_Source message in
  let destination := im_Destination message in
  let acknowledgement := im_Acknowledgement message in
  at_index index (
  let! _ := guard (negb (im_Sequence message =? expectedSequence)) ErrSequence in
  let! _ := guard (negb (im_SourceFinal message) || negb (im_DestinationExecuted message) ||
      empty_s (im_RoutePurpose message)) ErrNotTerminal in
  let! sqlImport := derivePhase8SQLImport message manifest economics in
  let envelope := si_Envelope sqlImport in
  let! messageID := importHex (ie_MessageID (im_Envelope message)) (Some 32%nat) false in
  let! _ := importHex (si_SerializedEnvelope sqlImport) None false in
  let! _ := validate_envelope_fields envelope in
  let! computedMessageID := or_fail ErrMessageID (computeImportMessageID envelope) in
  let! _ := guard ((messageID <>s computedMessageID) ||
      negb (sameHex (ie_MessageID envelope) computedMessageID)) ErrMessageID in
  let! _ := validateImportProof (si_SourceProof sqlImport) envelope manifest in
  let! _ := validatePhase8OuterProofIdentity (is_TransactionHash source) (is_BlockHash source)
    (is_BlockNumber source) (is_TransactionIndex source) (is_LogIndex source)
    (si_SourceProof sqlImport) in
  let! _ := validateImportProof (si_DestinationProof sqlImport) envelope manifest in
  let! _ := validatePhase8OuterProofIdentity (id_TransactionHash destination) (id_BlockHash destination)
    (id_BlockNumber destination) (id_TransactionIndex destination) (id_LogIndex destination)
    (si_DestinationProof sqlImport) in
  let! sourceLogIndex := mustJSONUint64 (ip_LogIndex (si_SourceProof sqlImport)) in
  let! sourceLog := expectedSourceCoordinatorLog envelope sourceLogIndex in
  let! _ := validateAuthenticatedInclusion (is_AuthenticatedInclusion source)
    (is_RawEvidenceObjectHash source) (si_SourceProof sqlImport) envelope manifest sourceLog in
  let! destinationLogIndex := mustJSONUint64 (ip_LogIndex (si_DestinationProof sqlImport)) in
  let! executionLog :=
    expectedExecutionCoordinatorLog envelope (id_ResultHash destination) destinationLogIndex in
  let! _ := validateAuthenticatedInclusion (ia_AuthenticatedInclusion acknowledgement)
    (ia_RawEvidenceObjectHash acknowledgement) (si_DestinationProof sqlImport) envelope manifest
    executionLog in
  let! _ := validateImportCertificate (si_SourceCertificate sqlImport) (si_SourceProof sqlImport)
    envelope manifest in
  let! _ := validateImportCertificate (si_DestinationCertificate sqlImport)
    (si_DestinationProof sqlImport) envelope manifest in
  let! _ := guard (length (si_ProviderAttempts sqlImport) =? 0)%nat ErrAttemptPath in
  let! _ := validatePhase8ProviderAttempts message expectFailover in
  let! _ := guard (negb (length (si_Transitions sqlImport) =? length expectedStates)%nat) ErrTransitions in
  let! _ := each transition_ok 0 (zip (si_Transitions sqlImport) expectedStates) in
  let! again := mustImportHex (ie_MessageID (im_Envelope message)) (Some 32%nat) false in
  guard (messageID <>s again) ErrMessageID).

(** [decodePhase8ImportFlow] and [decodePhase8CancellationImportBundle] after the JSON
    decoder. *)
Definition decodePhase8ImportFlow (flow : phase8ImportFlow) (manifest : phase8ReleaseManifest)
    : outcome phase8FlowEconomics :=
  let! _ := guard (length (if_Messages flow) =? 0)%nat ErrMessageCount in
  let! economics := derivePhase8FlowEconomics flow manifest in
  let! _ := each (λ index message, validatePhase8ImportMessage message index
      (u32 (Z.of_nat index + 1)) (index =? 0)%nat manifest economics) 0 (if_Messages flow) in
  Ret economics.

Record phase8CancellationImportBundle := mkBundle {
  cb_LoanID : string; cb_FundingLockID : string; cb_MintMessageID : string;
  cb_PrincipalUnits : string; cb_HomeLoan : string; cb_Lender : string; cb_WrappedAsset : string;
  cb_PolicyHash : string; cb_Messages : list phase8ImportMessage }.
Definition bundle_economics (bundle : phase8CancellationImportBundle) : phase8FlowEconomics :=
  mkEconomics (cb_LoanID bundle) (cb_FundingLockID bundle) "" "" "" (cb_HomeLoan bundle) ""
    (cb_Lender bundle) "" (cb_WrappedAsset bundle) "" "" (cb_PrincipalUnits bundle) ""
    (cb_PolicyHash bundle) "" "" "" (replicate 8 zero_effects).
Definition decodePhase8CancellationImportBundle (bundle : phase8CancellationImportBundle)
    (manifest : phase8ReleaseManifest) : outcome phase8FlowEconomics :=
  let context := bundle_economics bundle in
  let! _ := validatePhase8CancellationOrder (cb_Messages bundle) (cb_MintMessageID bundle) in
  let! _ := each (λ index message, validatePhase8ImportMessage message index
      (u32 (Z.of_nat index + 1)) false manifest context) 0 (cb_Messages bundle) in
  Ret context.
End Validate.

(** * Sending an import to the database

    The three connections of the code are the roles of [exec_as]. *)

Definition importCertificateSignatures (values : list string) : outcome sql_value :=
  let! signatures := each (λ _ value, mustImportHex value (Some 65%nat) false) 0 values in
  Ret (VList signatures).
Definition bytes_value (value : string) (length : option nat) (allowZero : bool) : outcome sql_value :=
  let! raw := mustImportHex value length allowZero in Ret (VBytes raw).
Definition unix_value (value : string) : outcome sql_value :=
  let! t := mustUnixNumberTime value in Ret (VTime t).
Definition text_value (value : string) : outcome sql_value := Ret (VText value).
Definition int_value (value : Z) : outcome sql_value := Ret (VInt (Time.i64 value)).

Definition record_message (messageID : string) (input : phase8SQLImport) : outcome statement :=
  let envelope := si_Envelope input in
  call "record_message"
    [Ret (VBytes messageID); int_value (ie_SchemaVersion envelope); hex_value 32 (ie_ProtocolID envelope);
     text_value (ie_SourceChainID envelope); hex_value 20 (ie_SourceCoordinator envelope);
     hex_value 20 (ie_SourceComponent envelope); text_value (ie_DestinationChainID envelope);
     hex_value 20 (ie_DestinationCoordinator envelope); hex_value 20 (ie_DestinationComponent envelope);
     hex_value 32 (ie_LaneID envelope); text_value (ie_SourceNonce envelope);
     hex_value 32 (ie_AggregateID envelope); int_value (ie_ActionType envelope);
     hex_value 32 (ie_PayloadHash envelope); unix_value (ie_CreatedAt envelope);
     unix_value (ie_ExpiresAt envelope); hex_value 32 (ie_RoutePolicyHash envelope);
     hex_value 32 (ie_AdapterSetPolicyHash envelope); hex_value 32 (ie_SourceFinalityPolicyHash envelope);
     hex_value 32 (ie_DestinationFinalityPolicyHash envelope); hex_value 32 (ie_CorrelationID envelope);
     bytes_value (ie_CausationMessageID envelope) (Some 32%nat) true;
     bytes_value (ie_SupersededMessageID envelope) (Some 32%nat) true;
     bytes_value (si_SerializedEnvelope input) None false; unix_value (ie_CreatedAt envelope)].

Definition record_source_proof (messageID : string) (proof : phase8ImportProof) : outcome statement :=
  call "record_source_proof"
    [text_value (ip_ProofID proof); Ret (VBytes messageID); text_value (ip_ChainID proof);
     hex_value 32 (ip_TransactionHash proof); text_value (ip_TransactionIndex proof);
     text_value (ip_LogIndex proof); text_value (ip_BlockNumber proof);
     hex_value 32 (ip_BlockHash proof); hex_value 32 (ip_ReceiptsRoot proof);
     hex_value 32 (ip_InclusionProofHash proof); hex_value 32 (ip_EventHash proof);
     text_value (ip_FinalityHeadNumber proof); hex_value 32 (ip_FinalityHeadHash proof);
     text_value (ip_ConfirmationDepth proof); hex_value 32 (ip_FinalityPolicyHash proof);
     hex_value 32 (ip_ObserverAuthorityHash proof);
     hex_value 32 (ip_ObserverSignedHeaderCommitment proof);
     bytes_value (ip_ObserverSignature proof) None false; hex_value 32 (ip_ProofHash proof);
     time_value (ip_ObservedAt proof); hex_value 32 (ip_RawEvidenceObjectHash proof);
     bytes_value (ip_ProofABI proof) None false].

Definition record_finality_certificate (messageID : string) (proof : phase8ImportProof)
    (certificate : phase8ImportCertificate) : outcome statement :=
  call "record_finality_certificate"
    [text_value (ic_CertificateID certificate); Ret (VBytes messageID); text_value (ip_ProofID proof);
     hex_value 32 (ic_SignerSetHash certificate); int_value (ic_SignerSetVersion certificate);
     text_value (ic_SignerBitmap certificate); int_value (ic_SignatureCount certificate);
     hex_value 32 (ic_CertificateHash certificate); time_value (ic_CertifiedAt certificate);
     bytes_value (ic_CertificateABI certificate) None false;
     importCertificateSignatures (ic_Signatures certificate)].

Definition record_provider_attempt (messageID : string) (attempt : phase8ProviderAttempt)
    : outcome statement :=
  let! receipt := match sa_ProviderReceiptHash attempt with
    | Some hash => hex_value 32 hash
    | None => Ret VNull
    end in
  call "record_provider_attempt"
    [Ret (VBytes messageID); text_value (sa_ProviderID attempt); int_value (sa_AttemptNumber attempt);
     hex_value 32 (sa_SerializedEnvelopeHash attempt); hex_value 32 (sa_SourceProofHash attempt);
     text_value (sa_Status attempt); Ret receipt; time_value (sa_AttemptedAt attempt)].

Definition record_evm_execution (messageID : string) (input : phase8SQLImport) : outcome statement :=
  let execution := si_Execution input in
  call "record_evm_execution"
    [Ret (VBytes messageID); text_value (ix_DestinationChainID execution);
     hex_value 32 (ix_TransactionHash execution); text_value (ix_LogIndex execution);
     hex_value 32 (ix_ResultHash execution); hex_value 32 (ip_EventHash (si_DestinationProof input));
     text_value (ip_ProofID (si_DestinationProof input));
     text_value (ic_CertificateID (si_DestinationCertificate input));
     text_value (ij_Projection (si_ActionProjection input)); time_value (ix_ExecutedAt execution)].

Definition record_evm_acknowledgement (messageID : string) (input : phase8SQLImport) : outcome statement :=
  let acknowledgement := si_Acknowledgement input in
  call "record_evm_acknowledgement"
    [Ret (VBytes messageID); hex_value 32 (ia_ExecutionResultHash acknowledgement);
     hex_value 32 (ia_Commitment acknowledgement); text_value (ia_DestinationProofID acknowledgement);
     text_value (ia_CertificateID acknowledgement); time_value (ia_AcknowledgedAt acknowledgement)].

Definition transition_message (messageID : string) (transition : phase8ImportTransition)
    : outcome statement :=
  call "transition_message"
    [Ret (VBytes messageID); int_value (it_ExpectedVersion transition);
     text_value (it_ExpectedState transition); text_value (it_NextState transition);
     Ret (match it_FailureClass transition with Some failure => VText failure | None => VNull end);
     hex_value 32 (it_EvidenceHash transition); time_value (it_OccurredAt transition)].

Definition record_action_projection (messageID : string) (projection : phase8ImportProjection)
    : outcome statement :=
  call "record_action_projection"
    [Ret (VBytes messageID); text_value (ij_Projection projection); time_value (ij_ProjectedAt projection)].

Section Importing.
Context `{Keccak, Recovery.Secp256k1, WorkerJson} {W : Type}.
Variable database : Database W.

Definition nothing (w : W) : W * outcome () := (w, Ret ()).
Definition in_turn (steps : list (W → W * outcome ())) : W → W * outcome () :=
  foldr and_then nothing steps.

Definition importProofAndCertificate (messageID : string) (proof : phase8ImportProof)
    (certificate : phase8ImportCertificate) : W → W * outcome () :=
  and_then (exec_as database observer_role (record_source_proof messageID proof))
    (exec_as database finality_role (record_finality_certificate messageID proof certificate)).

(** What a transition records before it is made. *)
Definition before_transition (messageID : string) (input : phase8SQLImport)
    (transition : phase8ImportTransition) : W → W * outcome () :=
  if it_NextState transition =s "EXECUTED"
  then exec_as database runtime_role (record_evm_execution messageID input)
  else if it_NextState transition =s "ACKNOWLEDGED"
  then exec_as database observer_role (record_evm_acknowledgement messageID input)
  else nothing.
Definition import_transition (messageID : string) (input : phase8SQLImport)
    (transition : phase8ImportTransition) : W → W * outcome () :=
  and_then (before_transition messageID input transition)
    (exec_as database runtime_role (transition_message messageID transition)).

Definition import_records (messageID : string) (input : phase8SQLImport) : W → W * outcome () :=
  in_turn
    ([exec_as database runtime_role (record_message messageID input);
      importProofAndCertificate messageID (si_SourceProof input) (si_SourceCertificate input);
      importProofAndCertificate messageID (si_DestinationProof input) (si_DestinationCertificate input)] ++
     ((λ attempt, exec_as database runtime_role (record_provider_attempt messageID attempt))
        <$> si_ProviderAttempts input) ++
     (import_transition messageID input <$> si_Transitions input) ++
     [exec_as database observer_role (record_action_projection messageID (si_ActionProjection input))]).

Definition importPhase8Message (message : phase8ImportMessage) (manifest : phase8ReleaseManifest)
    (economics : phase8FlowEconomics) : W → W * outcome () :=
  lift (mustImportHex (ie_MessageID (im_Envelope message)) (Some 32%nat) false) (λ messageID,
  lift (derivePhase8SQLImport message manifest economics) (λ input,
  and_then (import_records messageID input)
    (commitPhase8Action database messageID (si_ActionEconomics input)))).

Definition importPhase8Flow (messages : list phase8ImportMessage) (manifest : phase8ReleaseManifest)
    (economics : phase8FlowEconomics) : W → W * outcome () :=
  in_turn ((λ message, importPhase8Message message manifest economics) <$> messages).

Definition importPhase8CancellationBundle (messages : list phase8ImportMessage)
    (manifest : phase8ReleaseManifest) (economics : phase8FlowEconomics) (w : W) : W * outcome () :=
  if negb (length messages =? 2)%nat then (w, Fail ErrCancellationCount)
  else in_turn ((λ message, importPhase8Message message manifest economics) <$> messages) w.
End Importing.
