(* ===== verification/WorkerEvidence.v ===== *)
(** What the import guarantees of the evidence it accepts: message ids, proof hashes and
    observer commitments are those of the coordinator and of the projector, and certificates
    have a quorum of distinct authorized signers. *)
From Stdlib Require Import Ascii.
From S2P Require Import Prelude GoStd CrossChainTypes Rlp Worker WorkerActions WorkerFlow WorkerImport.
From S2P Require Message MessageRegistry Gateway EvmProof Recovery Projector.

(** * Words *)

Lemma must_Ret {A} (c : outcome A) a : must c = Ret a → c = Ret a.
Proof. by destruct c. Qed.

Lemma parseManifestFixedHex_Ret v n b :
  parseManifestFixedHex v n = Ret b → v = Gateway.hex32 b ∧ String.length b = n.
Proof.
  unfold parseManifestFixedHex. destruct (_ || _) eqn:Hg; [done|].
  destruct (Gateway.DecodeString _) as [raw|] eqn:Hd; [|done].
  destruct (Nat.eqb_spec (String.length raw) n) as [Hl|]; [|done]. cbn [negb]. intros [= <-]. bool_facts.
  split; [|done].
  match goal with A : String.prefix _ _ = true, B : v = _ |- _ =>
    pose proof (prefix_0x _ A) as Hx; rewrite Hx in B; rewrite Hx end.
  unfold Gateway.hex32. f_equal. apply Gateway.DecodeString_lower; [done|].
  match goal with B : _ = Gateway.ToLower _ |- _ => cbn in B; by injection B as B end.
Qed.

Lemma mustManifestHash_Ret v w :
  mustManifestHash v = Ret w → v = Gateway.hex32 w ∧ String.length w = 32%nat ∧ Gateway.nonzero_bytes w = true.
Proof.
  intros Hm%must_Ret. revert Hm. unfold parseManifestHash. run_step b Hb.
  destruct (Gateway.nonzero_bytes b) eqn:Hz; [|done]. cbn [negb]. intros [= <-].
  by apply parseManifestFixedHex_Ret in Hb as [-> ?].
Qed.

Lemma hash_word_Ret v w : hash_word v = Ret w → Gateway.bytes_of_hex v = w ∧ String.length w = 32%nat.
Proof.
  unfold hash_word. run_step h Hh. intros [= <-]. apply mustManifestHash_Ret in Hh as (->&Hl&_).
  by rewrite Gateway.bytes_of_hex32.
Qed.

Lemma parseManifestAddress_Ret v a :
  parseManifestAddress v = Ret a → v = Gateway.hex32 a ∧ String.length a = 20%nat.
Proof.
  unfold parseManifestAddress. run_step b Hb. destruct (negb _); [done|]. destruct (repeated_byte b); [done|].
  intros [= <-]. by apply parseManifestFixedHex_Ret.
Qed.

Lemma address_word_Ret v w :
  address_word v = Ret w →
  w = Message.addressWord (Gateway.bytes_of_hex v) ∧ String.length (Gateway.bytes_of_hex v) = 20%nat ∧
  String.length w = 32%nat.
Proof.
  unfold address_word. run_step a Ha. intros [= <-].
  apply must_Ret, parseManifestAddress_Ret in Ha as [-> Hl].
  rewrite Gateway.bytes_of_hex32, Message.addressWord_20 by done. split_and!; [done..|].
  unfold wordAddress, Message.zeros. by rewrite string_app_length, be_bytes_length, Hl.
Qed.

Lemma optional_word_Ret v w : optional_word v = Ret w → Gateway.bytes_of_hex v = w ∧ String.length w = 32%nat.
Proof.
  unfold optional_word. run_step h Hh. intros [= <-]. apply must_Ret, importHex_Ret in Hh as (->&Hl&_).
  by rewrite Gateway.bytes_of_hex32.
Qed.

(** The number a decimal text stands for. *)
Definition number (text : string) : Z := default 0 (Big.set_string text).

Lemma word_number_Ret v low w :
  word_number v low = Ret w →
  w = be_bytes 32 (number v) ∧ low <= number v < 2 ^ 256 ∧ v = Big.to_string (number v).
Proof.
  unfold word_number, number. destruct (Big.set_string v) as [z|]; [|done]. destruct (_ || _) eqn:Hg; [done|].
  intros [= <-]. bool_facts. cbn [from_option id]. split_and!; [done|lia|lia|done].
Qed.

Lemma be_bytes_wide n k z : 0 <= z < 256 ^ Z.of_nat n → be_bytes (k + n) z = Message.zeros k +:+ be_bytes n z.
Proof.
  intros Hz. unfold Message.zeros. induction k as [|k IH]; [done|]. cbn [Nat.add be_bytes].
  rewrite IH. change (String ?a ?s +:+ ?t) with (String a (s +:+ t)). f_equal.
  assert (256 ^ Z.of_nat n <= 256 ^ Z.of_nat (k + n)) by (apply Z.pow_le_mono_r; lia).
  rewrite !Z.div_small by lia. done.
Qed.

Lemma mustUintWord_Ret v w :
  mustUintWord v = Ret w →
  String.length w = 32%nat ∧ 0 <= number v ∧ (number v < 2 ^ 64 → w = Message.uintWord (number v)).
Proof.
  intros (->&Hz&_)%must_Ret%word_number_Ret. rewrite be_bytes_length. split_and!; [done|lia|].
  intros H64. apply (be_bytes_wide 8 24). change (256 ^ Z.of_nat 8) with (2 ^ 64). lia.
Qed.

(** * Hashes of domain-tagged words *)

Lemma pad32_app_words a b : (String.length a mod 32 = 0)%nat → pad32 (a +:+ b) = a +:+ pad32 b.
Proof.
  intros Ha. unfold pad32. rewrite string_app_length.
  replace ((String.length a + String.length b) mod 32)%nat with (String.length b mod 32)%nat.
  - destruct (_ =? 0)%nat; [done|]. by rewrite string_app_assoc.
  - rewrite Nat.Div0.add_mod, Ha, Nat.add_0_l. symmetry. apply Nat.Div0.mod_mod.
Qed.

Lemma wordUint64_length z : String.length (wordUint64 z) = 32%nat.
Proof. apply Message.uintWord_length. Qed.

Lemma abi_preimage_words domain words :
  Forall (λ word, String.length word = 32%nat) words →
  abi_preimage domain words =
    wordUint64 (Z.of_nat ((length words + 1) * 32)) +:+ Message.concat_words words +:+
    pad32 (wordUint64 (Z.of_nat (String.length domain)) +:+ domain).
Proof.
  intros Hw. unfold abi_preimage. rewrite pad32_app_words by (by rewrite wordUint64_length). f_equal.
  apply pad32_app_words. rewrite Recovery.concat_words_length by done. apply Nat.Div0.mod_mul.
Qed.

Lemma abiHash_Ret `{Keccak} domain words h : abiHash domain words = Ret h → h = keccak (abi_preimage domain words).
Proof. unfold abiHash. destruct (forallb _ _); [by intros [= <-]|done]. Qed.

Lemma words_of_cons (c : outcome string) (cs : list (outcome string)) words i :
  each (λ _ word, word) i (c :: cs) = Ret words →
  ∃ w ws, c = Ret w ∧ words = w :: ws ∧ each (λ _ word, word) (S i) cs = Ret ws.
Proof. cbn [each]. run_step w Hw. run_step ws Hws. intros [= <-]. eauto. Qed.

(** The words of a list of known length, one variable each. *)
Ltac each_word H :=
  repeat match type of H with
  | each _ _ (_ :: _) = Ret _ =>
      let w := fresh "w" in let ws := fresh "ws" in let Hw := fresh "Hw" in
      apply words_of_cons in H as (w&ws&Hw& -> &H)
  | each _ _ [] = Ret ?ws => injection H as <-
  end.

(** Reads each word as the bytes or the number it stands for. *)
Ltac read_words :=
  repeat match goal with
  | Hw : Ret _ = Ret _ |- _ => apply Ret_inj in Hw as <-
  | Hw : hash_word _ = Ret _ |- _ => apply hash_word_Ret in Hw as [<- ?]
  | Hw : optional_word _ = Ret _ |- _ => apply optional_word_Ret in Hw as [<- ?]
  | Hw : address_word _ = Ret _ |- _ => apply address_word_Ret in Hw as (->&_&?)
  | Hw : mustTimestampWord _ = Ret _ |- _ => unfold mustTimestampWord in Hw
  | Hw : mustUintWord _ = Ret ?w |- _ => apply mustUintWord_Ret in Hw as (?&?&->); [|lia]
  end.

(** * Message ids *)

(** The coordinator's envelope with the contents of an imported one. *)
Definition as_envelope (e : phase8ImportEnvelope) (payload : string) (typed : option TypedAction) : Envelope :=
  mkEnvelope (ie_SchemaVersion e) (raw (ie_MessageID e)) (raw (ie_ProtocolID e)) (ie_SourceChainID e)
    (raw (ie_SourceCoordinator e)) (raw (ie_SourceComponent e)) (ie_DestinationChainID e)
    (raw (ie_DestinationCoordinator e)) (raw (ie_DestinationComponent e)) (raw (ie_LaneID e))
    (number (ie_SourceNonce e)) (raw (ie_AggregateID e)) (ie_ActionType e) payload
    (raw (ie_PayloadHash e)) (Some (mkTimestamp (number (ie_CreatedAt e)) 0))
    (Some (mkTimestamp (number (ie_ExpiresAt e)) 0)) (raw (ie_RoutePolicyHash e))
    (raw (ie_AdapterSetPolicyHash e)) (raw (ie_SourceFinalityPolicyHash e))
    (raw (ie_DestinationFinalityPolicyHash e)) (raw (ie_CorrelationID e))
    (raw (ie_CausationMessageID e)) (raw (ie_SupersededMessageID e)) typed.

(** The numbers of an envelope fit the coordinator's fields. *)
Definition envelope_fits (e : phase8ImportEnvelope) : Prop :=
  number (ie_SourceNonce e) < 2 ^ 64 ∧ number (ie_CreatedAt e) < 2 ^ 63 ∧ number (ie_ExpiresAt e) < 2 ^ 63.

Lemma wordUint256_uint256 v w : wordUint256 v = Ret w → Message.uint256 v = Ok w.
Proof.
  unfold wordUint256. intros Hw. pose proof (word_number_Ret _ _ _ Hw) as (->&Hz&Hv).
  unfold Message.uint256, number in *. destruct (Big.set_string v) as [z|] eqn:Hs;
    cbn [from_option id] in *; [|lia]. rewrite <- Hv, String.eqb_refl.
  destruct (Z.leb_spec z 0); [lia|]. destruct (Z.leb_spec (2 ^ 256) z); [lia|]. done.
Qed.

Lemma uintWord_u64 z : Message.uintWord (u64 z) = wordUint64 z.
Proof.
  unfold Message.uintWord, wordUint64, u64. f_equal. apply be_bytes_ext.
  change (256 ^ Z.of_nat 8) with (2 ^ 64). apply Z.mod_mod. lia.
Qed.

(** C23: The worker and the coordinator agree on message ids: the id the import computes is
    the one the coordinator computes for an envelope with the same contents, whatever its
    typed action, as long as the coordinator accepts the envelope and the numbers fit its
    fields. *)
Theorem import_id_is_message_id `{Keccak} (e : phase8ImportEnvelope) payload typed id :
  computeImportMessageID e = Ret id → envelope_fits e →
  Message.validateEnvelope (as_envelope e payload typed) false = Ok () →
  Message.ComputeMessageID (as_envelope e payload typed) = Ok id.
Proof.
  intros Hc (Hn&Hcr&Hex) Hv. unfold Message.ComputeMessageID. rewrite Hv. revert Hc.
  unfold computeImportMessageID. run_step sc Hsc. run_step dc Hdc. run_step words Hws. intros ->%abiHash_Ret.
  change (SourceChainId (as_envelope e payload typed)) with (ie_SourceChainID e).
  change (DestinationChainId (as_envelope e payload typed)) with (ie_DestinationChainID e).
  rewrite (wordUint256_uint256 _ _ Hsc), (wordUint256_uint256 _ _ Hdc). f_equal. f_equal.
  pose proof (word_number_Ret _ _ _ Hsc) as (->&_). pose proof (word_number_Ret _ _ _ Hdc) as (->&_).
  unfold words_of in Hws. each_word Hws.
  read_words.
  rewrite abi_preimage_words by (repeat constructor; try done; first [apply be_bytes_length | apply wordUint64_length]).
  unfold Message.head_words. cbn [as_envelope SchemaVersion ProtocolId SourceCoordinator CrossChainTypes.SourceComponent
    DestinationCoordinator CrossChainTypes.DestinationComponent LaneId SourceNonce AggregateId ActionType PayloadHash
    CreatedAt ExpiresAt RoutePolicyHash AdapterSetPolicyHash SourceFinalityPolicyHash
    DestinationFinalityPolicyHash CorrelationId CausationMessageId SupersededMessageId].
  rewrite !uintWord_u64. reflexivity.
Qed.

(** * Proofs and commitments *)

(** The projector's proof with the contents of an imported one. *)
Definition as_source_proof (p : phase8ImportProof) (messageID contract : string) : Projector.SourceEventProof :=
  Projector.mkProof messageID (ip_ChainID p) contract (raw (ip_BlockHash p)) (number (ip_BlockNumber p))
    (Some (mkTimestamp (number (ip_BlockTimestamp p)) 0)) (raw (ip_TransactionHash p))
    (number (ip_TransactionIndex p)) (raw (ip_ReceiptsRoot p)) (raw (ip_InclusionProofHash p))
    (number (ip_LogIndex p)) (raw (ip_EventHash p)) (raw (ip_FinalityHeadHash p))
    (number (ip_FinalityHeadNumber p)) (number (ip_ConfirmationDepth p))
    (raw (ip_ObserverAuthorityHash p)) (raw (ip_ObserverSignature p)) (raw (ip_FinalityPolicyHash p))
    (raw (ip_ObserverSignedHeaderCommitment p)).

Definition proof_fits (p : phase8ImportProof) : Prop :=
  number (ip_BlockNumber p) < 2 ^ 64 ∧ number (ip_BlockTimestamp p) < 2 ^ 63 ∧
  number (ip_TransactionIndex p) < 2 ^ 32 ∧ number (ip_LogIndex p) < 2 ^ 32 ∧
  number (ip_FinalityHeadNumber p) < 2 ^ 64 ∧ number (ip_ConfirmationDepth p) < 2 ^ 64.

Lemma importHex_any v z b :
  importHex v None z = Ret b → v = Gateway.hex32 b ∧ String.length b ≠ 0%nat.
Proof.
  intros Hi. assert (importHex v (Some (String.length b)) z = Ret b) as (->&_&Hn&_)%importHex_Ret; [|done].
  revert Hi. unfold importHex. destruct (_ || _); [done|]. destruct (Gateway.DecodeString _) as [r|]; [|done].
  cbn [orb]. destruct (String.length r =? 0)%nat eqn:Hr; [done|]. destruct (negb z && _) eqn:Hz; [done|].
  intros [= <-]. by rewrite Nat.eqb_refl.
Qed.

Lemma exactLength_true s n : String.length s = n → Message.exactLength s n = true.
Proof. intros <-. apply Nat.eqb_refl. Qed.

Lemma pad32_same s : Projector.pad32 s = pad32 s.
Proof. reflexivity. Qed.

(** Strips equal words from two padded strings of words. *)
Ltac strip_words :=
  repeat (rewrite pad32_app_words by
    (first [by rewrite Message.uintWord_length
           | by (match goal with A : _ = 32%nat |- _ => rewrite A end)]); f_equal).

Lemma import_proof_hash `{Keccak} p abi messageID contract :
  encodeImportProofABI p = Ret abi → proof_fits p →
  Projector.ComputeSourceProofHash (as_source_proof p messageID contract) = Ok (keccak abi).
Proof.
  intros He (F1&F2&F3&F4&F5&F6). revert He. unfold encodeImportProofABI. run_step signature Hs.
  apply importHex_any in Hs as [Hs Hne]. run_step words Hws. unfold words_of in Hws. each_word Hws. read_words.
  intros <-%Ret_inj. unfold Projector.ComputeSourceProofHash.
  cbn [as_source_proof Projector.sp_SourceBlockHash Projector.sp_TransactionHash Projector.sp_ReceiptRoot
    Projector.sp_ReceiptProofHash Projector.sp_EventHash Projector.sp_FinalityHeadHash
    Projector.sp_HeaderAuthorityHash Projector.sp_ObserverSignedHeaderCommitment
    Projector.sp_ObserverSignature Projector.sp_FinalityPolicyHash Projector.sp_TransactionIndex
    Projector.sp_LogIndex Projector.sp_SourceBlockTimestamp].
  rewrite !exactLength_true by done. rewrite Hs, Gateway.bytes_of_hex32. cbn [negb orb].
  assert ((signature =s "") = false) as -> by (destruct signature; done).
  destruct (Z.ltb_spec (2 ^ 32 - 1) (number (ip_TransactionIndex p))); [lia|].
  destruct (Z.ltb_spec (2 ^ 32 - 1) (number (ip_LogIndex p))); [lia|]. cbn [orb].
  unfold Projector.timestamp_bad. cbn [seconds nanos Z.eqb negb orb].
  destruct (Z.ltb_spec (number (ip_BlockTimestamp p)) 0); [lia|]. cbn [orb].
  f_equal. f_equal. unfold Projector.source_proof_preimage, Projector.abiUint64. rewrite pad32_same.
  cbn [as_source_proof Projector.sp_SourceBlockHash Projector.sp_SourceBlockNumber
    Projector.sp_TransactionHash Projector.sp_ReceiptRoot Projector.sp_ReceiptProofHash
    Projector.sp_EventHash Projector.sp_FinalityHeadHash Projector.sp_FinalityHeadNumber
    Projector.sp_RequiredDepth Projector.sp_HeaderAuthorityHash
    Projector.sp_ObserverSignedHeaderCommitment Projector.sp_ObserverSignature
    Projector.sp_FinalityPolicyHash Projector.sp_TransactionIndex Projector.sp_LogIndex
    Projector.sp_SourceBlockTimestamp].
  rewrite Hs, Gateway.bytes_of_hex32. unfold encodeABIDynamicBytes.
  unfold Message.concat_words. cbn [foldr]. rewrite !string_app_assoc.
  strip_words.
Qed.

Lemma import_commitment `{Keccak} p h messageID contract :
  computeImportObserverCommitment p = Ret h → proof_fits p →
  Projector.ComputeObserverHeaderCommitment (as_source_proof p messageID contract) = Ok h.
Proof.
  intros He (F1&F2&F3&F4&F5&F6). revert He. unfold computeImportObserverCommitment. run_step words Hws.
  unfold words_of in Hws. each_word Hws. read_words. intros ->%abiHash_Ret.
  unfold Projector.ComputeObserverHeaderCommitment.
  cbn [as_source_proof Projector.sp_SourceBlockHash Projector.sp_FinalityHeadHash
    Projector.sp_HeaderAuthorityHash Projector.sp_FinalityPolicyHash Projector.sp_SourceBlockTimestamp].
  rewrite !exactLength_true by done. unfold Projector.timestamp_bad. cbn [seconds nanos Z.eqb negb orb].
  destruct (Z.ltb_spec (number (ip_BlockTimestamp p)) 0); [lia|]. cbn [orb]. f_equal. f_equal.
  unfold abi_preimage, Projector.observer_preimage, Projector.abiUint64. rewrite pad32_same.
  unfold Message.concat_words. cbn [foldr]. rewrite !string_app_assoc.
  cbn [as_source_proof Projector.sp_SourceBlockHash Projector.sp_SourceBlockNumber
    Projector.sp_FinalityHeadHash Projector.sp_FinalityHeadNumber Projector.sp_RequiredDepth
    Projector.sp_HeaderAuthorityHash Projector.sp_FinalityPolicyHash Projector.sp_SourceBlockTimestamp].
  reflexivity.
Qed.

(** The worker and the projector agree on evidence: the hash of the proof bytes the
    import builds, and the header commitment it expects the observer to have signed, are
    those the projector computes for a proof with the same contents. *)
Theorem import_evidence_is_projector_evidence `{Keccak} p abi h messageID contract :
  encodeImportProofABI p = Ret abi → computeImportObserverCommitment p = Ret h → proof_fits p →
  Projector.ComputeSourceProofHash (as_source_proof p messageID contract) = Ok (keccak abi) ∧
  Projector.ComputeObserverHeaderCommitment (as_source_proof p messageID contract) = Ok h.
Proof. intros Ha Hh Hf. split; [by apply import_proof_hash|by apply import_commitment]. Qed.

(** * Hexadecimal strings are not trimmed *)

Fixpoint all_chars (P : Ascii.ascii → bool) (s : string) : bool :=
  match s with EmptyString => true | String c r => P c && all_chars P r end.
Definition hex_char (c : Ascii.ascii) : bool :=
  (match Gateway.hex_value c with Some _ => true | None => false end) || Ascii.eqb c "x"%char.

Lemma all_chars_rev P s acc : all_chars P (s_rev s acc) = all_chars P s && all_chars P acc.
Proof.
  revert acc. induction s as [|c s IH]; intros acc; [done|]. cbn [s_rev all_chars]. rewrite IH. cbn [all_chars].
  rewrite andb_assoc. f_equal. apply andb_comm.
Qed.

Lemma all_chars_hex b : all_chars hex_char (hex b) = true.
Proof.
  induction b as [|c b IH]; [done|]. cbn [hex all_chars]. rewrite IH. pose proof (Ascii.N_ascii_bounded c).
  unfold hex_char.
  rewrite !Gateway.hex_value_digit by (try apply N.Div0.div_lt_upper_bound; try apply N.mod_lt; lia). done.
Qed.

Lemma hex_char_no_space marks c r :
  (marks = spaces ∨ marks = (λ p, s_rev p "") <$> spaces) → hex_char c = true →
  list_find (λ p, String.prefix p (String c r) = true) marks = None.
Proof.
  intros Hm Hc. apply list_find_None. apply Forall_forall. intros p Hp Hx.
  assert (match p with String d _ => hex_char d = false | EmptyString => False end) as Hd.
  { assert (forallb (λ p, match p with String d _ => negb (hex_char d) | EmptyString => false end) marks = true)
      as Hall by (destruct Hm as [-> | ->]; vm_compute; reflexivity).
    rewrite forallb_forall in Hall. specialize (Hall p (proj1 (list_elem_of_In _ _) Hp)).
    destruct p; [done|]. by apply negb_true_iff in Hall. }
  destruct p as [|d p]; [done|]. cbn [String.prefix] in Hx. destruct (Ascii.ascii_dec d c) as [->|]; [congruence|done].
Qed.

Lemma trim_left_hex fuel marks s :
  (marks = spaces ∨ marks = (λ p, s_rev p "") <$> spaces) → all_chars hex_char s = true → s ≠ ""%string →
  trim_left fuel marks s = s.
Proof.
  intros Hm Hs Hn. destruct fuel; [done|]. cbn [trim_left]. destruct s as [|c r]; [done|].
  cbn [all_chars] in Hs. apply andb_true_iff in Hs as [Hc _]. by rewrite hex_char_no_space.
Qed.

Lemma s_rev_involutive s : s_rev (s_rev s "") "" = s.
Proof.
  assert (∀ s acc t, s_rev (s_rev s acc) t = s_rev acc (s +:+ t)) as Hg.
  { clear s. induction s as [|c s IH]; intros acc t; [done|]. cbn [s_rev]. by rewrite IH. }
  rewrite Hg. cbn [s_rev]. apply string_app_nil_r.
Qed.

Lemma TrimSpace_hex32 b : TrimSpace (Gateway.hex32 b) = Gateway.hex32 b.
Proof.
  assert (all_chars hex_char (Gateway.hex32 b) = true) as Ha.
  { change (all_chars hex_char (hex b) = true). apply all_chars_hex. }
  unfold TrimSpace. cbn zeta. rewrite (trim_left_hex _ spaces) by (done || by left).
  rewrite trim_left_hex; [apply s_rev_involutive|by right| |].
  - by rewrite all_chars_rev, Ha.
  - intros E. apply (f_equal (λ s, s_rev s "")) in E. by rewrite s_rev_involutive in E.
Qed.

Lemma sameHex_hex32 a b : sameHex (Gateway.hex32 a) b = true → a = b.
Proof.
  unfold sameHex. rewrite TrimSpace_hex32. unfold Gateway.hex32. rewrite TrimPrefix_0x, Gateway.DecodeString_hex.
  apply String.eqb_eq.
Qed.

(** * Certificates *)

Lemma sorted_loop_Ret previous values sorted :
  sorted_loop previous values = Ret sorted →
  Forall2 (λ text a, text = Gateway.hex32 a) values sorted ∧ NoDup sorted ∧
  match previous with Some p => Forall (λ a, be_value p < be_value a) sorted | None => True end.
Proof.
  revert previous sorted. induction values as [|v values IH]; intros previous sorted; cbn [sorted_loop].
  { intros [= <-]. split_and!; [done|constructor|by destruct previous]. }
  run_step a Ha. destruct (match previous with Some _ => _ | None => _ end) eqn:Hp; [done|].
  run_step rest Hr. intros [= <-]. destruct (IH _ _ Hr) as (H2&Hn&Hlt).
  apply parseManifestAddress_Ret in Ha as [Hv _].
  split_and!.
  - by constructor.
  - constructor; [|done]. intros Hin. rewrite Forall_forall in Hlt. specialize (Hlt a Hin). lia.
  - destruct previous as [p|]; [|done]. unfold bytes_lt in Hp. bool_facts. constructor; [done|].
    eapply Forall_impl; [exact Hlt|]. cbn. lia.
Qed.

Lemma validateSortedAddresses_Ret values sorted :
  validateSortedAddresses values = Ret sorted →
  Forall2 (λ text a, text = Gateway.hex32 a) values sorted ∧ NoDup sorted.
Proof.
  unfold validateSortedAddresses. destruct (negb _); [done|]. by intros (?&?&_)%sorted_loop_Ret.
Qed.

Lemma mark_signer_Some r sorted bitmap marked :
  NoDup sorted → mark_signer r sorted bitmap = Some marked →
  r ∈ sorted ∧ ∀ i a, sorted !! i = Some a → marked !! i = Some true ↔ bitmap !! i = Some true ∨ a = r.
Proof.
  revert bitmap marked. induction sorted as [|s sorted IH]; intros [|bit bitmap] marked Hn; try done.
  apply NoDup_cons in Hn as [Hs Hn]. cbn [mark_signer]. destruct (String.eqb_spec r s) as [->|Hrs].
  - intros [= <-]. split; [by left|]. intros [|i] a; cbn; [intros [= ->]; naive_solver|].
    intros Ha. split; [by left|]. intros [?|E]; [done|]. subst a. destruct Hs. by eapply list_elem_of_lookup_2.
  - destruct (mark_signer r sorted bitmap) as [m|] eqn:Hm; [|done]. intros [= <-].
    destruct (IH _ _ Hn Hm) as [Hin Hall]. split; [by right|]. intros [|i] a; cbn.
    + intros [= ->]. naive_solver.
    + apply Hall.
Qed.

Section Quorum.
Context `{Keccak, Recovery.Secp256k1}.

(** An encoded signature that a signer made over a digest. *)
Definition signed_by (digest encoded signer : string) : Prop :=
  ∃ signature, encoded = Gateway.hex32 signature ∧ String.length signature = 65%nat ∧
    Recovery.VerifyEthereumSignature digest signature = Ok signer.

Lemma signer_loop_Ret digest sorted signatures seen bitmap marked :
  NoDup sorted →
  signer_loop (λ s, mustImportHex s (Some 65%nat) false) digest sorted signatures seen bitmap = Ret marked →
  ∃ signers, Forall2 (signed_by digest) signatures signers ∧ NoDup signers ∧
    (∀ s, s ∈ signers → (s ∉ seen) ∧ s ∈ sorted) ∧
    ∀ i a, sorted !! i = Some a → marked !! i = Some true ↔ bitmap !! i = Some true ∨ a ∈ signers.
Proof.
  intros Hn. revert seen bitmap. induction signatures as [|enc signatures IH]; intros seen bitmap;
    cbn [signer_loop].
  { intros [= <-]. exists []. split_and!; [done|constructor|set_solver|set_solver]. }
  run_step signature Hs. apply must_Ret, importHex_Ret in Hs as (->&Hl&_).
  destruct (Recovery.VerifyEthereumSignature digest signature) as [r|] eqn:Hv; [|done].
  destruct (decide (r ∈ seen)) as [|Hr]; [done|].
  destruct (mark_signer r sorted bitmap) as [m|] eqn:Hm; [|done]. intros Hrest.
  destruct (IH _ _ Hrest) as (signers&Hsigned&Hnd&Hin&Hbits). destruct (mark_signer_Some _ _ _ _ Hn Hm) as [Hrs Hmb].
  exists (r :: signers). split_and!.
  - constructor; [by exists signature|done].
  - constructor; [|done]. intros Hx. destruct (Hin r Hx) as [Hns _]. set_solver.
  - intros s [->|Hx]%elem_of_cons; [done|]. destruct (Hin s Hx) as [Hns ?]. split; [set_solver|done].
  - intros i a Ha. rewrite (Hbits i a Ha), (Hmb i a Ha), elem_of_cons. naive_solver.
Qed.

(** What the signers of a certificate sign: the verifying chain and contract, the message,
    the proof and the signer set. *)
Definition finality_preimage (chainWord verifier messageID proofHash signerSet : string) (version : Z) : string :=
  abi_preimage "UNIFIED_SYNTHETIC_FINALITY_V1"
    [chainWord; wordAddress verifier; messageID; proofHash; signerSet; wordUint64 version].

(** C22: An accepted certificate has a quorum: two or three distinct signers, all among the
    three authorized addresses of the chain the proof is from, each signed the digest of
    this message and this proof for the verifier of the other chain, and the recorded
    bitmap has exactly the bits of these signers. *)
Theorem certificate_quorum certificate proof envelope manifest u :
  validateImportCertificate certificate proof envelope manifest = Ret u →
  ∃ evidence verification chainWord verifier messageID proofHash signerSet sorted signers bitmap,
    importProofDomain proof envelope manifest = Ret evidence ∧
    oppositeImportDomain proof envelope manifest = Ret verification ∧
    contract_address verification "finality_verifier" = Gateway.hex32 verifier ∧
    ie_MessageID envelope = Gateway.hex32 messageID ∧ ip_ProofHash proof = Gateway.hex32 proofHash ∧
    ms_Hash (md_SignerSet evidence) = Gateway.hex32 signerSet ∧
    Forall2 (λ text a, text = Gateway.hex32 a) (ms_SortedAddresses (md_SignerSet evidence)) sorted ∧
    Forall2 (signed_by (keccak (finality_preimage chainWord verifier messageID proofHash signerSet
      (ms_Version (md_SignerSet evidence))))) (ic_Signatures certificate) signers ∧
    (2 <= length signers <= 3)%nat ∧ NoDup signers ∧ (∀ s, s ∈ signers → s ∈ sorted) ∧
    ic_SignerBitmap certificate = bitmap_text bitmap ∧
    ∀ i a, sorted !! i = Some a → bitmap !! i = Some true ↔ a ∈ signers.
Proof.
  unfold validateImportCertificate. cbn zeta. run_step [] Hshape. run_step x1 Hx1. run_step x2 Hx2.
  run_step messageID Hid. run_step [] Hg1. run_step proofBytes Hpb. run_step [] Hg2. run_step abi Habi.
  run_step rec Hrec. run_step [] Hg3. run_step [] Hg4. run_step evidence Hev. run_step signerSet Hset.
  run_step [] Hg5. run_step verification Hver. run_step verifier Hvf. run_step proofHash Hph.
  run_step chainWord Hcw. run_step digest Hdig. run_step sorted Hsorted. run_step bitmap Hbm. run_step [] Hg6.
  run_step t Ht. intros _.
  apply guard_Ret in Hshape, Hg2, Hg5, Hg6. bool_facts.
  apply mustManifestHash_Ret in Hid as (Hid&_), Hset as (Hset&_), Hph as (Hph&_).
  apply must_Ret, importHex_Ret in Hpb as (Hpb&_).
  match goal with A : sameHex (ic_SourceProofHash certificate) _ = true |- _ =>
    rewrite Hph in A; apply sameHex_hex32 in A as <- end.
  apply validateSortedAddresses_Ret in Hsorted as (Hs2&Hnd).
  destruct (signer_loop_Ret _ _ _ _ _ _ Hnd Hbm) as (signers&Hsigned&Hns&Hin&Hbits).
  pose proof (Forall2_length _ _ _ Hsigned) as Hlen. unfold finality_digest in Hdig. apply abiHash_Ret in Hdig as ->.
  exists evidence, verification, chainWord, verifier, messageID, proofHash, signerSet, sorted, signers, bitmap.
  match goal with A : ic_SignerSetVersion certificate = _ |- _ => rewrite A in Hsigned end.
  apply must_Ret, parseManifestAddress_Ret in Hvf as [Hvf _]. split_and!; try done; try lia.
  - intros s Hs. apply Hin in Hs. by destruct Hs.
  - intros i a Ha. rewrite (Hbits i a Ha).
    assert ([false; false; false] !! i ≠ Some true) by (do 3 (destruct i as [|i]; [done|]); done). naive_solver.
Qed.
End Quorum.
