(* ===== verification/WorkerRun.v ===== *)
(** What an import does as a whole: it carries the transitions of a whole life and the action
    of its message, a cancellation that precedes its disbursement is never imported, and the
    lock, the mint and the burn of one loan have the same units. *)
From S2P Require Import Prelude GoStd CrossChainTypes Rlp Worker WorkerActions WorkerFlow WorkerImport.
From S2P Require Message Gateway Recovery.

Lemma lift_Ret {W A} (c : outcome A) (k : A → W → W * outcome ()) w w' :
  lift c k w = (w', Ret ()) → ∃ a, c = Ret a ∧ k a w = (w', Ret ()).
Proof. destruct c as [a| |]; cbn [lift]; [eauto|done..]. Qed.

Lemma and_then_Ret {W} (f g : W → W * outcome ()) w w' :
  and_then f g w = (w', Ret ()) → ∃ w1, f w = (w1, Ret ()) ∧ g w1 = (w', Ret ()).
Proof. unfold and_then. destruct (f w) as [w1 [[]| |]]; [eauto|done..]. Qed.

Section Derived.
Context `{Keccak, Recovery.Secp256k1, WorkerJson}.

Lemma derive_transitions message manifest economics input :
  derivePhase8SQLImport message manifest economics = Ret input →
  ∃ sourceProof sourceCertificate destinationProof resultHash,
    si_Transitions input = phase8CanonicalTransitions sourceProof sourceCertificate destinationProof resultHash.
Proof.
  unfold derivePhase8SQLImport. cbn zeta. run_step x1 E1. run_step x2 E2. run_step x3 E3. run_step x4 E4.
  run_step x5 E5. run_step x6 E6. run_step x7 E7. run_step x8 E8. run_step x9 E9. run_step x10 E10.
  run_step x11 E11. run_step x12 E12. run_step x13 E13. run_step x14 E14. run_step [x15 x16] E15.
  run_step x17 E16. intros <-%Ret_inj. do 4 eexists. reflexivity.
Qed.

Lemma derive_action message manifest economics input :
  derivePhase8SQLImport message manifest economics = Ret input →
  ∃ fields fields', projectPhase8Action message manifest economics fields =
    Ret (si_ActionEconomics input, fields').
Proof.
  unfold derivePhase8SQLImport. cbn zeta. run_step x1 E1. run_step x2 E2. run_step x3 E3. run_step x4 E4.
  run_step x5 E5. run_step x6 E6. run_step x7 E7. run_step x8 E8. run_step x9 E9. run_step x10 E10.
  run_step x11 E11. run_step x12 E12. run_step x13 E13. run_step x14 E14. run_step [x15 x16] E15.
  run_step x17 E16. intros <-%Ret_inj. do 2 eexists. exact E15.
Qed.

(** C25: A cancellation that precedes the disbursement cannot be imported. When the payload
    of a request or completion carries the zero word as its disbursement message, which the
    order of the path accepts with the mint as its cause, the import of the message never
    returns normally, whatever the database does; the message, its evidence, its transitions
    and its projection are sent, and no statement of its action: the world is the one those
    records leave. The bundle stops there, and its completion is not imported. *)
Theorem undisbursed_cancellation_not_imported {W} (db : Database W) message manifest economics payload w :
  decodePhase8ActionPayload (ie_ActionType (im_Envelope message)) (im_Payload message) = Ret payload →
  ie_ActionType (im_Envelope message) ∈ [12; 14] → word_of payload 3 = zero_word →
  (importPhase8Message db message manifest economics w).2 ≠ Ret () ∧
  (∀ messageID input,
     mustImportHex (ie_MessageID (im_Envelope message)) (Some 32%nat) false = Ret messageID →
     derivePhase8SQLImport message manifest economics = Ret input →
     (importPhase8Message db message manifest economics w).1 = (import_records db messageID input w).1) ∧
  ∀ completion, importPhase8CancellationBundle db [message; completion] manifest economics w =
    importPhase8Message db message manifest economics w.
Proof.
  intros Hd Ha Hz.
  assert (∀ messageID input, derivePhase8SQLImport message manifest economics = Ret input →
    stuck (commitPhase8Action db messageID (si_ActionEconomics input))) as Hstuck.
  { intros messageID input (fields&fields'&Hp)%derive_action. by eapply undisbursed_cancellation_stuck. }
  assert ((importPhase8Message db message manifest economics w).2 ≠ Ret ()) as Hn.
  { destruct (importPhase8Message db message manifest economics w) as [w' r] eqn:Hi. cbn. intros ->. revert Hi.
    unfold importPhase8Message.
    intros (messageID&_&(input&Hin&(w1&_&Hc)%and_then_Ret)%lift_Ret)%lift_Ret.
    destruct (Hstuck messageID input Hin w1) as (r&Hr&Hne). rewrite Hr in Hc. by injection Hc as _ ->. }
  split; [done|]. split.
  - intros messageID input Hid Hin. unfold importPhase8Message. rewrite Hid. cbn [lift]. rewrite Hin.
    cbn [lift]. unfold and_then. destruct (import_records db messageID input w) as [w1 [[]| |]]; [|done..].
    by destruct (Hstuck messageID input Hin w1) as (r&->&_).
  - intros completion. unfold importPhase8CancellationBundle. cbn [length Nat.eqb negb fmap list_fmap].
    unfold in_turn. cbn [foldr]. unfold and_then at 1.
    destruct (importPhase8Message db message manifest economics w) as [w1 [[]| |]]; [|done..].
    by destruct Hn.
Qed.
End Derived.

(** * Units *)

Lemma project_Ret message manifest c fields action fields' :
  projectPhase8Action message manifest c fields = Ret (action, fields') →
  ∃ payload steps, action_steps message manifest c payload = Ret steps ∧
    action = pj_action (perform steps (mkProjecting (initial_action message c) fields)).
Proof.
  unfold projectPhase8Action. run_step payload Hp. run_step u Hm. run_step steps Hs. cbn zeta.
  intros [<- _]%Ret_pair. by exists payload, steps.
Qed.

(** What the action of a message on the bridge carries, by the number of the action. *)
Record bridge_terms (c : phase8FlowEconomics) (action : phase8ActionEconomics) (supply : string) : Prop := {
  terms_units : ae_text action Units = fe_PrincipalUnits c;
  terms_lock : ae_text action LockID = fe_FundingLockID c;
  terms_wrapped : ae_text action WrappedAssetID = fe_WrappedAsset c;
  terms_lender : ae_text action LenderID = fe_Lender c;
  terms_loan : ae_text action LoanID = fe_LoanID c;
  terms_supply : ae_text action SupplyAfterUnits = supply }.

Lemma bridge_terms_of message manifest c fields action fields' a supply :
  projectPhase8Action message manifest c fields = Ret (action, fields') →
  ie_ActionType (im_Envelope message) = a →
  (a, supply) ∈ [(1, ""); (2, fe_PrincipalUnits c); (8, "0")]%string → bridge_terms c action supply.
Proof.
  intros (payload&steps&Hs&->)%project_Ret Ha Hin. revert Hs. unfold action_steps. cbn zeta. rewrite Ha.
  set_unfold in Hin. destruct Hin as [[= -> ->]|[[= -> ->]|[[= -> ->]|[]]]]; cbn [Z.eqb Pos.eqb].
  - run_step route Hr. intros <-%Ret_inj. split; reflexivity.
  - intros <-%Ret_inj. split; reflexivity.
  - intros <-%Ret_inj. split; reflexivity.
Qed.

(** What an accepted flow locks it mints, and what it mints it burns: the actions of its
    lock, its mint and its repayment carry the principal the flow declares, of one lock, one
    loan and one wrapped asset; the supply after the mint is that principal and after the
    repayment it is zero. *)
Theorem flow_mints_what_it_burns flow manifest c m0 m2 m5 f0 f2 f5 lock mint burn g0 g2 g5 :
  derivePhase8FlowEconomics flow manifest = Ret c →
  if_Messages flow !! 0%nat = Some m0 → if_Messages flow !! 2%nat = Some m2 →
  if_Messages flow !! 5%nat = Some m5 →
  projectPhase8Action m0 manifest c f0 = Ret (lock, g0) →
  projectPhase8Action m2 manifest c f2 = Ret (mint, g2) →
  projectPhase8Action m5 manifest c f5 = Ret (burn, g5) →
  bridge_terms c lock "" ∧ bridge_terms c mint (if_PrincipalUnits flow) ∧ bridge_terms c burn "0" ∧
  if_PrincipalUnits flow = fe_PrincipalUnits c ∧ if_FundingLockID flow = fe_FundingLockID c ∧
  if_LoanID flow = fe_LoanID c.
Proof.
  intros Hd H0 H2 H5 P0 P2 P5. pose proof (accepted_declares _ _ _ Hd) as D.
  destruct (accepted_payload _ _ _ 0 _ Hd eq_refl) as (n0&d0&I0&A0&_).
  destruct (accepted_payload _ _ _ 2 _ Hd eq_refl) as (n2&d2&I2&A2&_).
  destruct (accepted_payload _ _ _ 5 _ Hd eq_refl) as (n5&d5&I5&A5&_).
  rewrite H0 in I0. rewrite H2 in I2. rewrite H5 in I5.
  apply (inj Some) in I0 as <-. apply (inj Some) in I2 as <-. apply (inj Some) in I5 as <-.
  rewrite (declares_principal _ _ _ D), (declares_lock _ _ _ D), (declares_loan _ _ _ D).
  split_and!; try done; (eapply bridge_terms_of; [eassumption|eassumption|set_solver]).
Qed.
