(* ===== verification/WorkerSample.v ===== *)
(** A release manifest, the eight messages of a loan and a cancellation, with stand-in hashes
    and signatures, on which the theorems about the local worker are evaluated. *)
From S2P Require Import Prelude GoStd CrossChainTypes Rlp Worker WorkerActions WorkerFlow WorkerImport WorkerEvidence WorkerRun.
From S2P Require Message Gateway Recovery Projector.
Import Message.Sample Recovery.Sample.

#[export] Instance toy_json : WorkerJson :=
  {| marshal_fields fields := Some (Big.to_string (Z.of_nat (size fields)));
     canonicalJSON inclusion := Some ("inclusion" +:+ ai_HeaderRLP inclusion) |}.

Definition got (c : outcome string) : string := match c with Ret s => s | _ => ""%string end.
Definition t32 (n : Z) : string := Gateway.hex32 (b32 n).
Definition t20 (n : Z) : string := Gateway.hex32 (b20 n).

(** * The manifest *)

Definition contract (n : Z) : phase8ManifestContract := mkContract (t20 n) "" "" "" "" "" "" None.
Definition signers : phase8ManifestSignerSet :=
  mkSignerSet 1 (t32 60) 2 0 0 (Gateway.hex32 <$> [address 3; address 2; address 1]).
Definition domain (chain : string) (base : Z) : phase8ManifestDomain :=
  mkDomain chain 1 "" "" "" "0" "0" "" "" (t32 61) (t32 62) 2 signers
    {["coordinator" := contract (base + 1); "finality_verifier" := contract (base + 2);
      "satellite_loan_component" := contract (base + 3);
      "satellite_collateral_vault" := contract (base + 4);
      "satellite_settlement_vault" := contract (base + 5)]}%string [] (mkRegistryBindings "" "").
Definition route (purpose : string) : phase8ManifestRoute :=
  mkRoute purpose 1 (t32 8) "" "" 1 1 "1" (t20 301) (t20 302) "" "10" (t20 303) (t20 304) "" (t32 70) 0
    "adapter" "" "" "" "" "" "" "" "" "" 0 "" "" "" "" "" "".
Definition manifest0 : phase8ReleaseManifest :=
  mkManifest 1 "" "" false "" "" "boundary" "" "" "" (domain "1" 400) (domain "10" 500)
    [route "MINT"; route "DISBURSEMENT"; route "REPORT"]
    (mkExposure 1 (t32 80) "1000" (t32 81) "1" "1" "1" "1" 1 1 0 1700000000)
    (mkRecovery "" 1 2 "" []) [] "" "" "" "".

(** * Messages *)

Definition envelope0 (action : Z) (payload cause id : string) : phase8ImportEnvelope :=
  mkImportEnvelope 1 id (t32 1) "1" (t20 301) (t20 302) "10" (t20 303) (t20 304) (t32 6) "1" (t32 7) action
    (Gateway.hex32 (keccak payload)) "100" "200" (t32 8) (t32 9) (t32 10) (t32 11) (t32 12) cause
    (Gateway.hex32 (b32 0)).
Definition envelope_for (action : Z) (payload cause : string) : phase8ImportEnvelope :=
  envelope0 action payload cause
    (Gateway.hex32 (got (computeImportMessageID (envelope0 action payload cause "")))).

Definition proof0 (event commitment : string) : phase8ImportProof :=
  mkImportProof "" "" "" (t32 90) "0" "3" "5" "1700000000" (t32 91) (t32 92) (t32 93) event "7" (t32 94)
    "2" (t32 95) (Gateway.hex32 (keccak (b32 61))) commitment (t32 96) "" "" "".
Definition proof_for (event : string) : phase8ImportProof :=
  proof0 event (Gateway.hex32 (got (computeImportObserverCommitment (proof0 event "")))).
Definition proof_hash (p : phase8ImportProof) : string :=
  Gateway.hex32 (keccak (got (encodeImportProofABI p))).
Definition certificate_for (messageID : string) (p : phase8ImportProof) : phase8ImportCertificate :=
  mkImportCertificate "" "" messageID (proof_hash p) (t32 60) 1 "" 0 ""
    (Gateway.hex32 <$> [sign 3; sign 1]) "".
Definition certificate_hash (c : phase8ImportCertificate) : string :=
  Gateway.hex32 (keccak (got (encodeImportCertificateABI c))).

Definition message_for (sequence action : Z) (purpose payload cause : string) : phase8ImportMessage :=
  let e := envelope_for action payload cause in
  let id := ie_MessageID e in
  let sent := proof_for (Gateway.hex32 (got (computeSourceMessageEventHash e))) in
  let commitment := Gateway.hex32 (got (computeAcknowledgementEventHash e (t32 97))) in
  let executed := proof_for commitment in
  mkImportMessage sequence purpose e (Gateway.hex32 payload)
    (mkSource "1" (t32 90) (t32 91) "5" "0" "3" (t32 98) "sent" (proof_hash sent) "sent-certificate"
       (certificate_hash (certificate_for id sent)) sent (certificate_for id sent) zero_inclusion)
    [mkPublicAttempt "mock-bridge-provider-a" 1 "DELIVERED" false id (ie_PayloadHash e) (proof_hash sent) (t32 99)]
    (mkDestination "10" (t32 90) (t32 91) "5" "0" "3" (t32 97))
    (mkAcknowledgement (t32 90) (t32 91) "5" "0" "3" (t32 98) commitment true "executed"
       (proof_hash executed) "executed-certificate" (certificate_hash (certificate_for id executed)) executed
       (certificate_for id executed) zero_inclusion "" "" "")
    true true.

Definition payload_of (action : Z) (words : list string) : string :=
  match widths action with Some types => encode_payload types words | None => ""%string end.

(** * The flow *)

Definition principal_words : list string :=
  [t32 14; t32 13; t20 311; t20 312; t20 313; t20 315; "1000"; t32 20]%string.
Definition collateral_words : list string :=
  [t32 14; t32 21; t20 311; t20 312; t20 313; t20 316; "250"; t32 20]%string.
Definition lock_words : list string :=
  [t32 13; t32 14; t20 314; t20 317; t20 315; t20 505; "1000"]%string.
Definition repayment_words : list string :=
  [t32 22; t32 14; t32 23; t32 24; t20 314; t20 318; t20 315; t20 313; "1000"]%string.
Definition messages0 : list phase8ImportMessage :=
  [message_for 1 1 "mint" (payload_of 1 lock_words) (t32 0);
   message_for 2 5 "report" (payload_of 5 collateral_words) (t32 0);
   message_for 3 2 "report" (payload_of 2 principal_words) (t32 0);
   message_for 4 6 "disbursement" (payload_of 6 principal_words) (t32 0);
   message_for 5 7 "report" (payload_of 7 principal_words) (t32 0);
   message_for 6 8 "repayment" (payload_of 8 repayment_words) (t32 0);
   message_for 7 9 "collateral_release" (payload_of 9 collateral_words) (t32 0);
   message_for 8 10 "report" (payload_of 10 collateral_words) (t32 0)].
Definition flow0 : phase8ImportFlow :=
  mkFlow (t32 14) (mkReference "home" "1" (t20 311)) (t32 13) (t32 21) "1000" "250"
    (mkReference "home" "1" (t20 314)) (mkReference "satellite" "10" (t20 315))
    (mkReference "satellite" "10" (t20 316)) messages0 "" "".

Definition is_ret {A} (c : outcome A) : bool := match c with Ret _ => true | _ => false end.
Definition the {A} (c : outcome A) (d : A) : A := match c with Ret a => a | _ => d end.
Definition economics0 : phase8FlowEconomics :=
  the (derivePhase8FlowEconomics flow0 manifest0)
    (mkEconomics "" "" "" "" "" "" "" "" "" "" "" "" "" "" "" "" "" "" []).
Lemma the_Ret {A} (c : outcome A) d : is_ret c = true → c = Ret (the c d).
Proof. by destruct c. Qed.
Lemma pair_snd {A B} (p : A * B) b : p.2 = b → p = (p.1, b).
Proof. by destruct p; intros <-. Qed.

Lemma flow0_accepted : derivePhase8FlowEconomics flow0 manifest0 = Ret economics0.
Proof. apply the_Ret. vm_compute. reflexivity. Qed.

Lemma flow_is_one_loan_witness :
  derivePhase8FlowEconomics flow0 manifest0 = Ret economics0 ∧
  flow_declares flow0 manifest0 economics0 ∧
  ∃ hub backing hub',
    Forall2 (λ m (a : Z * TypedAction), ie_ActionType (im_Envelope m) = a.1 ∧ carries (im_Payload m) a.1 a.2)
      (if_Messages flow0) (loan_actions economics0 hub backing hub').
Proof.
  split; [exact flow0_accepted|].
  exact (flow_is_one_loan flow0 manifest0 economics0 flow0_accepted).
Defined.

Definition message0 : phase8ImportMessage := message_for 1 1 "mint" (payload_of 1 lock_words) (t32 0).
Definition message2 : phase8ImportMessage := message_for 3 2 "report" (payload_of 2 principal_words) (t32 0).
Definition message5 : phase8ImportMessage := message_for 6 8 "repayment" (payload_of 8 repayment_words) (t32 0).
Definition no_action : phase8ActionEconomics * gmap string field_value :=
  (mkActionEconomics 0 0 0 (λ _, ""%string), ∅).
Definition projected (m : phase8ImportMessage) : phase8ActionEconomics * gmap string field_value :=
  the (projectPhase8Action m manifest0 economics0 ∅) no_action.
Lemma projected_Ret m :
  is_ret (projectPhase8Action m manifest0 economics0 ∅) = true →
  projectPhase8Action m manifest0 economics0 ∅ = Ret ((projected m).1, (projected m).2).
Proof. intros Hr. rewrite <- surjective_pairing. by apply the_Ret. Qed.

Lemma flow_mints_what_it_burns_witness :
  bridge_terms economics0 (projected message0).1 "" ∧
  bridge_terms economics0 (projected message2).1 (if_PrincipalUnits flow0) ∧
  bridge_terms economics0 (projected message5).1 "0" ∧
  if_PrincipalUnits flow0 = fe_PrincipalUnits economics0 ∧
  if_FundingLockID flow0 = fe_FundingLockID economics0 ∧ if_LoanID flow0 = fe_LoanID economics0.
Proof.
  refine (flow_mints_what_it_burns flow0 manifest0 economics0 message0 message2 message5 ∅ ∅ ∅
    _ _ _ _ _ _ flow0_accepted _ _ _ (projected_Ret message0 _) (projected_Ret message2 _)
    (projected_Ret message5 _)); [reflexivity|reflexivity|reflexivity|vm_compute; reflexivity..].
Defined.

(** * Ids, proofs and certificates *)

Definition typed0 : TypedAction :=
  CanonicalUftLock (b32 13) (b32 14) (b20 314) (b20 317) (b20 315) (b20 505) "1000".
Definition envelope1 : phase8ImportEnvelope := im_Envelope message0.
Definition id1 : string := got (computeImportMessageID envelope1).

Lemma import_id_is_message_id_witness :
  computeImportMessageID envelope1 = Ret id1 ∧
  Message.ComputeMessageID (as_envelope envelope1 (payload_of 1 lock_words) (Some typed0)) = Ok id1.
Proof.
  assert (computeImportMessageID envelope1 = Ret id1) as Hid by (vm_compute; reflexivity).
  split; [exact Hid|]. apply (import_id_is_message_id envelope1 (payload_of 1 lock_words) (Some typed0) id1 Hid).
  - vm_compute. repeat split.
  - vm_compute. reflexivity.
Defined.

Definition proof1 : phase8ImportProof := is_Proof (im_Source message0).

Lemma import_evidence_witness :
  Projector.ComputeSourceProofHash (as_source_proof proof1 (b32 1) (b20 2)) =
    Ok (keccak (got (encodeImportProofABI proof1))) ∧
  Projector.ComputeObserverHeaderCommitment (as_source_proof proof1 (b32 1) (b20 2)) =
    Ok (got (computeImportObserverCommitment proof1)).
Proof.
  apply (import_evidence_is_projector_evidence proof1 (got (encodeImportProofABI proof1))
    (got (computeImportObserverCommitment proof1)) (b32 1) (b20 2)); [vm_compute; reflexivity..|].
  vm_compute. repeat split.
Defined.

Definition source_proof0 : phase8ImportProof :=
  let source := im_Source message0 in
  the (expand_proof (is_Proof source) (is_ProofID source) (is_ChainID source) (is_ProofHash source)
         (is_RawEvidenceObjectHash source)) zero_proof.
Definition source_certificate0 : phase8ImportCertificate :=
  let source := im_Source message0 in
  the (expand_certificate (is_Certificate source) (is_CertificateID source) (is_CertificateHash source)
         source_proof0 envelope1 manifest0) zero_certificate.

Lemma certificate0_valid :
  validateImportCertificate source_certificate0 source_proof0 envelope1 manifest0 = Ret ().
Proof. vm_compute. reflexivity. Qed.

Lemma certificate_quorum_witness :
  validateImportCertificate source_certificate0 source_proof0 envelope1 manifest0 = Ret () ∧
  ∃ signers : list string, (2 <= length signers <= 3)%nat ∧ NoDup signers.
Proof.
  split; [exact certificate0_valid|].
  destruct (certificate_quorum source_certificate0 source_proof0 envelope1 manifest0 () certificate0_valid) as
    (_&_&_&_&_&_&_&_&signers&_&_&_&_&_&_&_&_&_&Hl&Hn&_).
  exists signers. exact (conj Hl Hn).
Defined.

Definition database0 : Database () :=
  mkDatabase _ (λ _, Some "unified_local"%string) (λ _ _, Some (b32 100)) (λ _ _ w, (w, true)).

(** * A cancellation before the disbursement *)

Definition request_words : list string :=
  [t32 30; t32 14; t32 13; t32 0; t32 31; t20 311; t20 313; t20 315; "1000"; t32 20; t32 33]%string.
Definition completion_words : list string :=
  [t32 30; t32 14; t32 13; t32 0; t32 31; t32 34; t20 311; t20 313; t20 315; "1000"; t32 20]%string.
Definition request0 : phase8ImportMessage :=
  message_for 1 12 "disbursement" (payload_of 12 request_words) (t32 35).
Definition completion0 : phase8ImportMessage :=
  message_for 2 14 "report" (payload_of 14 completion_words) (ie_MessageID (im_Envelope request0)).

Lemma cancellation0_accepted : validatePhase8CancellationOrder [request0; completion0] (t32 35) = Ret ().
Proof. vm_compute. reflexivity. Qed.

Lemma cancellation_is_one_witness :
  validatePhase8CancellationOrder [request0; completion0] (t32 35) = Ret () ∧
  ∃ c reason burnResult,
    carries (im_Payload request0) 12 (requested c reason) ∧
    carries (im_Payload completion0) 14 (completed c burnResult).
Proof.
  split; [exact cancellation0_accepted|].
  destruct (cancellation_is_one request0 completion0 (t32 35) () cancellation0_accepted) as
    (c&reason&burn&_&_&Hr&Hc&_).
  exists c, reason, burn. exact (conj Hr Hc).
Defined.

Definition request_payload0 : phase8DecodedPayload :=
  the (decodePhase8ActionPayload 12 (im_Payload request0)) (mkDecoded 0 []).

Lemma undisbursed_cancellation_witness :
  validatePhase8CancellationOrder [request0; completion0] (t32 35) = Ret () ∧
  is_ret (derivePhase8SQLImport request0 manifest0 economics0) = true ∧
  (importPhase8Message database0 request0 manifest0 economics0 ()).2 ≠ Ret ().
Proof.
  split; [exact cancellation0_accepted|]. split; [vm_compute; reflexivity|].
  refine (proj1 (undisbursed_cancellation_not_imported database0 request0 manifest0 economics0 request_payload0 ()
    (the_Ret _ _ _) _ _)); [vm_compute; reflexivity|left|vm_compute; reflexivity].
Defined.

(** The worker panics. *)
Example undisbursed_cancellation_panics :
  (commitPhase8Action database0 (b32 1) (projected request0).1 ()).2 = Panic.
Proof. vm_compute. reflexivity. Qed.
