(* ===== verification/SqlStore.v ===== *)
(** The durable message store ([cross-chain-coordinator/store/sql.go]): what the repository
    checks before a statement, how it reads the row a statement yields, and how it decides
    after a lost response whether its request took effect. The database is the parameter
    [Queryer], one field per statement text; the protobuf and JSON decoders are parameters. *)
From S2P Require Import Prelude GoStd CrossChainTypes Rlp MessageRegistry.
From S2P Require Message Gateway.
From S2P Require Import MessageStore.

(** * Errors

    [ErrDriver] is what the database or its driver reports; [Wrapped] is [fmt.Errorf] with
    an operation and [%w]. *)
Inductive sql_error :=
| ErrInvalidSQLRepository
| ErrStore (e : MessageStore.error)
| ErrNoRows
| ErrDriver (text : string)
| Wrapped (operation : string) (e : sql_error).

Abbreviation Conflict := (ErrStore ErrConflict).
Abbreviation NotFound := (ErrStore ErrNotFound).
Abbreviation ImmutableRoute := (ErrStore ErrImmutableRoute).

Definition store_error_text (e : MessageStore.error) : string :=
  match e with
  | ErrConflict => "compare-and-set conflict"
  | ErrImmutableRoute => "route version is immutable"
  | ErrNotFound => "record not found"
  | ErrInvalidRouteVersion => "invalid route version"
  | ErrInvalidMessageRecord => "invalid message record"
  end.

Fixpoint error_text (e : sql_error) : string :=
  match e with
  | ErrInvalidSQLRepository => "invalid cross-chain SQL repository"
  | ErrStore e => store_error_text e
  | ErrNoRows => "sql: no rows in result set"
  | ErrDriver text => text
  | Wrapped operation e => operation +:+ ": " +:+ error_text e
  end.

(** [errors.Is(err, sql.ErrNoRows)]. *)
Fixpoint is_no_rows (e : sql_error) : bool :=
  match e with ErrNoRows => true | Wrapped _ e => is_no_rows e | _ => false end.

(** [strings.Contains(strings.ToLower(text), marker)]. *)
Definition mentions (text marker : string) : bool :=
  match String.index 0 marker (Gateway.ToLower text) with Some _ => true | None => false end.

Definition classifyMutationError (operation : string) (err conflict : sql_error) : sql_error :=
  let text := error_text err in
  if mentions text "conflict" || mentions text "duplicate key" ||
     mentions text "unique constraint" || mentions text "cannot move backwards"
  then Wrapped operation conflict else Wrapped operation err.

(** * Records *)

Record OutboxRecord := mkOutbox {
  ob_OutboxID : string; ob_MessageID : string; ob_StateVersion : Z; ob_Topic : string;
  ob_PartitionKey : string; ob_Payload : string; ob_PayloadHash : string; ob_Status : string;
  ob_AttemptCount : Z; ob_PublisherID : string; ob_LeaseUntil : option Time.t;
  ob_CreatedAt : Time.t; ob_PublishedAt : option Time.t; ob_BrokerOffset : string }.

Record InboxRecord := mkInbox {
  ib_ConsumerID : string; ib_MessageID : string; ib_Topic : string; ib_PartitionKey : string;
  ib_BrokerOffset : string; ib_PayloadHash : string; ib_ConsumedAt : Time.t }.

Record ProviderAttemptRecord := mkAttempt {
  pa_MessageID : string; pa_ProviderID : string; pa_AttemptNumber : Z; pa_EnvelopeHash : string;
  pa_SourceProofHash : string; pa_Status : string; pa_ReceiptHash : string; pa_AttemptedAt : Time.t }.

Record SourceProofRecord := mkSourceProof {
  sp_ProofID : string; sp_MessageID : string; sp_ChainID : string; sp_TransactionHash : string;
  sp_TransactionIndex : string; sp_LogIndex : string; sp_BlockNumber : string; sp_BlockHash : string;
  sp_ReceiptsRoot : string; sp_InclusionProofHash : string; sp_EventHash : string;
  sp_FinalityHeadNumber : string; sp_FinalityHeadHash : string; sp_ConfirmationDepth : string;
  sp_FinalityPolicyHash : string; sp_ObserverAuthorityHash : string;
  sp_ObserverSignedHeaderCommitment : string; sp_ObserverSignature : string; sp_ProofHash : string;
  sp_ObservedAt : Time.t }.

Record FinalityCertificateRecord := mkCertificate {
  fc_CertificateID : string; fc_MessageID : string; fc_ProofID : string; fc_SignerSetHash : string;
  fc_SignerSetVersion : Z; fc_SignerBitmap : string; fc_SignatureCount : Z;
  fc_CertificateHash : string; fc_CertifiedAt : Time.t }.

Record HeaderObservationRecord := mkObservation {
  ho_ObservationID : string; ho_ChainID : string; ho_BlockHash : string; ho_BlockNumber : string;
  ho_HeaderAuthorityHash : string; ho_ObserverSignedHeaderCommitment : string;
  ho_ObserverSignature : string; ho_FinalityPolicyHash : string; ho_ObservedAt : Time.t }.

Record ReorganizationRequest := mkReorganizationRequest {
  rq_RouteID : string; rq_ChainID : string; rq_OrphanedProofIDs : list string;
  rq_OrphanedCertificateIDs : list string; rq_ReplacementObservationID : string;
  rq_DetectedHeadObservationID : string; rq_AffectedMessageIDs : list string;
  rq_EvidenceHash : string; rq_DetectedAt : Time.t }.

Record Incident := mkIncident {
  in_IncidentID : string; in_ReasonCode : string; in_Severity : string; in_Owner : string;
  in_Status : string; in_OpenedAt : Time.t }.
Definition zeroIncident : Incident := mkIncident "" "" "" "" "" Time.zero.

(** The last six fields of the Go record are its [Incident]. *)
Record ReorganizationRecord := mkReorganization {
  rg_ReorganizationID : string; rg_RouteID : string; rg_ChainID : string;
  rg_OrphanedBlockHash : string; rg_OrphanedBlockNumber : string; rg_OrphanedProofID : string;
  rg_OrphanedCertificateID : string; rg_OrphanedProofIDs : list string;
  rg_OrphanedCertificateIDs : list string; rg_ReplacementBlockHash : string;
  rg_ReplacementBlockNumber : string; rg_ReplacementObservationID : string;
  rg_DetectedHeadHash : string; rg_DetectedHeadNumber : string; rg_DetectedHeadObservationID : string;
  rg_DepthClass : string; rg_AffectedMessageIDs : list string; rg_EvidenceHash : string;
  rg_DetectedAt : Time.t; rg_Incident : Incident }.

Record ChainRegistration := mkChainRegistration {
  cr_ChainID : string; cr_Version : Z; cr_Coordinator : string; cr_FinalityVerifier : string;
  cr_ConfigurationHash : string; cr_ObserverAuthorityHash : string; cr_ActivatedAtBlock : string }.
#[export] Instance ChainRegistration_eq_dec : EqDecision ChainRegistration.
Proof. solve_decision. Defined.

Record RouteRegistration := mkRouteRegistration {
  rr_Route : RouteVersion; rr_SourceChain : ChainRegistration; rr_DestinationChain : ChainRegistration;
  rr_SourceComponent : string; rr_DestinationComponent : string; rr_ActionFamily : string;
  rr_AdapterSetPolicyHash : string; rr_SourceFinalityPolicyHash : string;
  rr_DestinationFinalityPolicyHash : string; rr_SourceSignerSetHash : string;
  rr_SourceSignerSetVersion : Z; rr_DestinationSignerSetHash : string;
  rr_DestinationSignerSetVersion : Z; rr_ActivatedAtBlock : string }.

(** * Rows

    What a statement yields: a row, or an error (no row included). The columns of the
    statements on attempts, proofs, certificates, observations and inbox entries are the
    fields of their records; a NULL among them is the empty slice, a nullable text or time
    is an [option]. *)
Inductive answer (A : Type) := Row (a : A) | NoRow (e : sql_error).
Arguments Row {A} _.
Arguments NoRow {A} _.

Record message_row := mkMessageRow {
  mw_message_id : string; mw_serialized_envelope : string; mw_state : string;
  mw_state_version : Z; mw_updated_at : Time.t }.

Record snapshot_row := mkSnapshotRow {
  sw_message_id : string; sw_serialized_envelope : string; sw_state : string; sw_state_version : Z;
  sw_evidence_hash : string; sw_updated_at : Time.t; sw_occurred_at : Time.t;
  sw_failure_class : option string }.

Record outbox_row := mkOutboxRow {
  ow_outbox_id : string; ow_message_id : string; ow_state_version : Z; ow_topic : string;
  ow_partition_key : string; ow_payload : string; ow_payload_hash : string; ow_status : string;
  ow_attempt_count : Z; ow_publisher_id : option string; ow_lease_until : option Time.t;
  ow_created_at : Time.t; ow_published_at : option Time.t; ow_broker_offset : option string }.

(** The lists are texts: a JSON array of strings, and hexadecimal ids with commas. *)
Record reorganization_row := mkReorganizationRow {
  gw_reorganization_id : string; gw_route_id : string; gw_chain_id : string;
  gw_orphaned_block_hash : string; gw_orphaned_block_number : string; gw_orphaned_proof_id : string;
  gw_orphaned_certificate_id : string; gw_orphaned_proof_ids : string;
  gw_orphaned_certificate_ids : string; gw_replacement_block_hash : string;
  gw_replacement_block_number : string; gw_replacement_observation_id : string;
  gw_detected_head_hash : string; gw_detected_head_number : string;
  gw_detected_head_observation_id : string; gw_depth_class : string; gw_affected : string;
  gw_evidence_hash : string; gw_detected_at : Time.t }.

Record chain_row := mkChainRow {
  cw_chain_id : string; cw_version : Z; cw_coordinator : string; cw_finality_verifier : string;
  cw_configuration_hash : string; cw_observer_authority_hash : string;
  cw_activated_at_block : string; cw_status : string }.

Record route_row := mkRouteRow {
  rw_route_id : string; rw_version : Z; rw_source_chain_id : string; rw_source_chain_version : Z;
  rw_source_coordinator : string; rw_source_component : string; rw_destination_chain_id : string;
  rw_destination_chain_version : Z; rw_destination_coordinator : string;
  rw_destination_component : string; rw_action_family : string; rw_adapter_set_policy_hash : string;
  rw_source_finality_policy_hash : string; rw_destination_finality_policy_hash : string;
  rw_source_signer_set_hash : string; rw_source_signer_set_version : Z;
  rw_destination_signer_set_hash : string; rw_destination_signer_set_version : Z;
  rw_route_policy_hash : string; rw_activated_at_block : string; rw_status : string }.

(** * Arguments *)

Definition i32 (z : Z) : Z := (z + 2 ^ 31) mod 2 ^ 32 - 2 ^ 31.
Definition i16 (z : Z) : Z := (z + 2 ^ 15) mod 2 ^ 16 - 2 ^ 15.

Record message_args := mkMessageArgs {
  ma_message_id : string; ma_schema_version : Z; ma_protocol_id : string; ma_source_chain_id : string;
  ma_source_coordinator : string; ma_source_component : string; ma_destination_chain_id : string;
  ma_destination_coordinator : string; ma_destination_component : string; ma_lane_id : string;
  ma_source_nonce : string; ma_aggregate_id : string; ma_action_type : Z; ma_payload_hash : string;
  ma_message_created_at : Time.t; ma_expires_at : Time.t; ma_route_policy_hash : string;
  ma_adapter_set_policy_hash : string; ma_source_finality_policy_hash : string;
  ma_destination_finality_policy_hash : string; ma_correlation_id : string;
  ma_causation_message_id : string; ma_superseded_message_id : string;
  ma_serialized_envelope : string; ma_updated_at : Time.t }.

Record transition_args := mkTransitionArgs {
  ta_message_id : string; ta_expected_version : Z; ta_expected_state : string; ta_next_state : string;
  ta_failure_class : option string; ta_evidence_hash : string; ta_occurred_at : Time.t }.

Record route_args := mkRouteArgs {
  oa_route_policy_hash : string; oa_source_chain_id : string; oa_source_coordinator : string;
  oa_source_component : string; oa_destination_chain_id : string; oa_destination_coordinator : string;
  oa_destination_component : string; oa_adapter_set_policy_hash : string;
  oa_source_finality_policy_hash : string; oa_destination_finality_policy_hash : string }.

(** * The database

    [rowQueryer] and [rowsQueryer], one field per statement text of the file. A statement
    may change the world [W] whether or not its answer arrives. [claim_outbox] is absent
    when the queryer cannot iterate; otherwise it yields the rows and the error of the
    iteration. *)
Record Queryer (W : Type) := mkQueryer {
  record_message : message_args → W → W * answer message_row;
  verify_envelope_route : route_args → W → W * answer bool;
  transition_message : transition_args → W → W * answer message_row;
  claim_outbox : option (string → Time.t → Time.t → Z → W →
    W * result sql_error (list (answer outbox_row) * option sql_error));
  mark_outbox_published : string → string → Z → string → Time.t → W → W * answer outbox_row;
  consume_inbox : InboxRecord → W → W * answer InboxRecord;
  record_provider_attempt : ProviderAttemptRecord → W → W * answer ProviderAttemptRecord;
  load_provider_attempt : string → string → Z → W → W * answer ProviderAttemptRecord;
  record_source_proof : SourceProofRecord → W → W * answer SourceProofRecord;
  load_source_proof : string → W → W * answer SourceProofRecord;
  record_finality_certificate : FinalityCertificateRecord → W → W * answer FinalityCertificateRecord;
  load_finality_certificate : string → W → W * answer FinalityCertificateRecord;
  record_header_observation : HeaderObservationRecord → W → W * answer HeaderObservationRecord;
  load_header_observation : string → W → W * answer HeaderObservationRecord;
  record_reorganization : string → string → string → string → string → string → string → string →
    Time.t → W → W * answer reorganization_row;
  load_reorganization : string → W → W * answer (reorganization_row * Incident);
  load_message : string → W → W * answer snapshot_row;
  load_creation_transition : string → W → W * answer (string * Time.t);
  register_chain_version : chain_row → Time.t → W → W * answer chain_row;
  register_route_version : route_row → Time.t → W → W * answer route_row;
  load_route_version : string → Z → W → W * answer route_row;
  load_outbox : string → W → W * answer outbox_row;
  load_inbox : string → string → string → W → W * answer InboxRecord;
  health : W → W * answer bool }.
Arguments record_message {W}. Arguments verify_envelope_route {W}. Arguments transition_message {W}.
Arguments claim_outbox {W}. Arguments mark_outbox_published {W}. Arguments consume_inbox {W}.
Arguments record_provider_attempt {W}. Arguments load_provider_attempt {W}.
Arguments record_source_proof {W}. Arguments load_source_proof {W}.
Arguments record_finality_certificate {W}. Arguments load_finality_certificate {W}.
Arguments record_header_observation {W}. Arguments load_header_observation {W}.
Arguments record_reorganization {W}. Arguments load_reorganization {W}. Arguments load_message {W}.
Arguments load_creation_transition {W}. Arguments register_chain_version {W}.
Arguments register_route_version {W}. Arguments load_route_version {W}. Arguments load_outbox {W}.
Arguments load_inbox {W}. Arguments health {W}.

(** [proto.Unmarshal] reads back what the deterministic marshaller wrote. *)
Class ProtoUnmarshal `{Message.ProtoMarshal} := {
  Unmarshal : string → option Envelope;
  Unmarshal_Marshal : ∀ e bytes, Message.Marshal e = Some bytes → Unmarshal bytes = Some e }.

(** [json.Unmarshal] into a [[]string]. *)
Class JsonStrings := unmarshal_strings : string → option (list string).

(** * Shared checks *)

Definition bytes32 (value : string) : string := s_take 32 (value +:+ Message.zeros 32).
Definition is32 (value : string) : bool := (String.length value =? 32)%nat.
Definition zero20 : string := be_bytes 20 0.
Definition MaxInt32 : Z := 2 ^ 31 - 1.
Definition MaxInt64 : Z := 2 ^ 63 - 1.
Definition MaxUint32 : Z := 2 ^ 32 - 1.
Definition MaxUint64 : Z := 2 ^ 64 - 1.

(** [BitLen] counts the absolute value; a negative number fails the sign test. *)
Definition canonicalUint256 (value : string) (allowZero : bool) : bool :=
  match Big.set_string value with
  | None => false
  | Some number =>
      if (2 ^ 256 <=? Z.abs number) || (Big.to_string number <>s value) then false
      else if allowZero then 0 <=? number else 0 <? number
  end.

Fixpoint sameStrings (ls rs : list string) : bool :=
  match ls, rs with
  | [], [] => true
  | l :: ls, r :: rs => (l =s r) && sameStrings ls rs
  | _, _ => false
  end.
Definition sameMessageIDs (ls rs : list string) : bool := sameStrings ls rs.

(** * States *)

Definition state_prefix : string := "CROSS_CHAIN_MESSAGE_STATE_".
(** The names of the generated enumeration, from 0. *)
Definition CrossChainMessageState_name : list string :=
  (λ name, state_prefix +:+ name) <$>
  ["UNSPECIFIED"; "CREATED"; "SOURCE_FINALIZING"; "SOURCE_FINAL"; "SENT"; "RELAYED"; "VERIFIED";
   "EXECUTED"; "ACK_PENDING"; "ACKNOWLEDGED"; "REJECTED"; "FAILED"; "EXPIRED"; "RECOVERY_PENDING";
   "DESTINATION_TOMBSTONED"; "SOURCE_COMPENSATED"; "RECOVERED"; "DISPUTED"]%string.

Definition stateToDatabase (state : Z) : option string :=
  if state <? 0 then None
  else match CrossChainMessageState_name !! Z.to_nat state with
  | None => None
  | Some name =>
      if (name =s state_prefix +:+ "UNSPECIFIED") || negb (String.prefix state_prefix name)
      then None else Some (s_drop (String.length state_prefix) name)
  end.

Definition stateFromDatabase (state : string) : option Z :=
  match list_find (λ name, name = state_prefix +:+ state) CrossChainMessageState_name with
  | None => None
  | Some (value, _) => if (value =? 0)%nat then None else Some (Z.of_nat value)
  end.

(** * Messages *)

Section Messages.
Context `{Keccak, Message.ProtoMarshal, !ProtoUnmarshal}.

(** The bytes are the deterministic encoding of a valid envelope with this id. *)
Definition decode_envelope (serialized messageID : string) : option Envelope :=
  match Unmarshal serialized with
  | None => None
  | Some decoded =>
      match Message.ValidateEnvelope decoded with
      | Err _ => None
      | Ok _ =>
          if MessageId decoded <>s messageID then None
          else match Message.DeterministicBytes decoded with
          | Err _ => None
          | Ok deterministic => if deterministic <>s serialized then None else Some decoded
          end
      end
  end.

Definition materializeMessage (rawMessageID envelope databaseState : string) (version : Z)
    (evidence : string) (updatedAt : Time.t) : result sql_error MessageRecord :=
  match stateFromDatabase databaseState with
  | None => Err ErrInvalidSQLRepository
  | Some state =>
      if negb (is32 rawMessageID) || (String.length envelope =? 0)%nat || (version <=? 0) ||
         negb (is32 evidence) || Time.IsZero updatedAt
      then Err ErrInvalidSQLRepository
      else
        let record := mkMessageRecord (bytes32 rawMessageID) envelope state version
          (bytes32 evidence) (Time.UTC updatedAt) in
        match decode_envelope (mr_Envelope record) (mr_MessageID record) with
        | None => Err ErrInvalidSQLRepository
        | Some _ => Ok record
        end
  end.

Definition scanMutationMessage (row : answer message_row) : result sql_error MessageRecord :=
  match row with
  | NoRow e => Err e
  | Row r => materializeMessage (mw_message_id r) (mw_serialized_envelope r) (mw_state r)
      (mw_state_version r) zero32 (mw_updated_at r)
  end.

Record storedMessageSnapshot := mkSnapshot { sn_record : MessageRecord; sn_failureClass : string }.

Definition scan_snapshot (messageID : string) (row : answer snapshot_row)
    : result sql_error storedMessageSnapshot :=
  match row with
  | NoRow e => if is_no_rows e then Err NotFound else Err (Wrapped "load cross-chain message" e)
  | Row r =>
      match materializeMessage (sw_message_id r) (sw_serialized_envelope r) (sw_state r)
              (sw_state_version r) (sw_evidence_hash r) (sw_updated_at r) with
      | Err _ => Err ErrInvalidSQLRepository
      | Ok record =>
          if (mr_MessageID record <>s messageID) ||
             negb (Time.Equal (sw_occurred_at r) (sw_updated_at r))
          then Err ErrInvalidSQLRepository
          else Ok (mkSnapshot record (default "" (sw_failure_class r)))
      end
  end.

Definition validateMessageCreation (record : MessageRecord) : result sql_error Envelope :=
  if (String.length (mr_Envelope record) =? 0)%nat || (mr_MessageID record =s zero32) ||
     negb (mr_State record =? created) || negb (mr_Version record =? 1) ||
     Time.IsZero (mr_UpdatedAt record)
  then Err ErrInvalidSQLRepository
  else match decode_envelope (mr_Envelope record) (mr_MessageID record) with
  | None => Err ErrInvalidSQLRepository
  | Some envelope =>
      if Time.Before (mr_UpdatedAt record)
           (AsTime (default (mkTimestamp 0 0) (CreatedAt envelope)))
      then Err ErrInvalidSQLRepository
      else
        let payloadHash := bytes32 (PayloadHash envelope) in
        if (mr_Evidence record <>s zero32) && (mr_Evidence record <>s payloadHash)
        then Err ErrInvalidSQLRepository else Ok envelope
  end.

Definition validateCreatedResult (request record : MessageRecord) : bool :=
  negb ((mr_MessageID record <>s mr_MessageID request) ||
        (mr_Envelope record <>s mr_Envelope request) || negb (mr_State record =? created) ||
        negb (mr_Version record =? 1) ||
        negb (Time.Equal (mr_UpdatedAt record) (Time.UTC (mr_UpdatedAt request)))).

Definition transitionFailureClass (retryable : bool) : string :=
  if retryable then "RETRYABLE_TRANSPORT" else "".

Definition exactTransitionReplay (current : storedMessageSnapshot) (expectedVersion next : Z)
    (failureClass evidence : string) (updatedAt : Time.t) : bool :=
  (expectedVersion <? MaxUint64) &&
  (mr_Version (sn_record current) =? u64 (expectedVersion + 1)) &&
  (mr_State (sn_record current) =? next) && (mr_Evidence (sn_record current) =s evidence) &&
  (sn_failureClass current =s failureClass) &&
  Time.Equal (mr_UpdatedAt (sn_record current)) (Time.UTC updatedAt).

Definition with_evidence (evidence : string) (r : MessageRecord) : MessageRecord :=
  mkMessageRecord (mr_MessageID r) (mr_Envelope r) (mr_State r) (mr_Version r) evidence (mr_UpdatedAt r).

Definition record_message_args (record : MessageRecord) (envelope : Envelope) : message_args :=
  let time ts := Time.UTC (AsTime (default (mkTimestamp 0 0) ts)) in
  mkMessageArgs (mr_MessageID record) (i32 (SchemaVersion envelope)) (ProtocolId envelope)
    (SourceChainId envelope) (SourceCoordinator envelope) (SourceComponent envelope)
    (DestinationChainId envelope) (DestinationCoordinator envelope) (DestinationComponent envelope)
    (LaneId envelope) (Big.to_string (SourceNonce envelope)) (AggregateId envelope)
    (i16 (ActionType envelope)) (PayloadHash envelope) (time (CreatedAt envelope))
    (time (ExpiresAt envelope)) (RoutePolicyHash envelope) (AdapterSetPolicyHash envelope)
    (SourceFinalityPolicyHash envelope) (DestinationFinalityPolicyHash envelope)
    (CorrelationId envelope) (CausationMessageId envelope) (SupersededMessageId envelope)
    (mr_Envelope record) (Time.UTC (mr_UpdatedAt record)).

Definition envelope_route (envelope : Envelope) : route_args :=
  mkRouteArgs (RoutePolicyHash envelope) (SourceChainId envelope) (SourceCoordinator envelope)
    (SourceComponent envelope) (DestinationChainId envelope) (DestinationCoordinator envelope)
    (DestinationComponent envelope) (AdapterSetPolicyHash envelope)
    (SourceFinalityPolicyHash envelope) (DestinationFinalityPolicyHash envelope).

(** * Operations on messages *)

Context {W : Type} (q : Queryer W).

Definition verifyEnvelopeRoute (envelope : Envelope) (w : W) : W * result sql_error () :=
  let '(w, row) := verify_envelope_route q (envelope_route envelope) w in
  (w, match row with
      | NoRow e => Err (Wrapped "verify cross-chain message route" e)
      | Row matches => if negb matches then Err Conflict else Ok ()
      end).

Definition messageSnapshot (messageID : string) (w : W) : W * result sql_error storedMessageSnapshot :=
  if messageID =s zero32 then (w, Err NotFound)
  else let '(w, row) := load_message q messageID w in (w, scan_snapshot messageID row).

Definition Message_ (messageID : string) (w : W) : W * result sql_error MessageRecord :=
  let '(w, snapshot) := messageSnapshot messageID w in
  (w, let? s := snapshot in Ok (sn_record s)).

(** The checks on the first transition, and on the row read again after it. *)
Definition creation_differs (request : MessageRecord) (payloadHash : string)
    (row : answer (string * Time.t)) : bool :=
  match row with
  | NoRow _ => true
  | Row (creationEvidence, createdAt) =>
      negb (is32 creationEvidence) || (bytes32 creationEvidence <>s payloadHash) ||
      negb (Time.Equal createdAt (Time.UTC (mr_UpdatedAt request)))
  end.
Definition moved_on (current latest : MessageRecord) : bool :=
  negb (mr_State latest =? mr_State current) || negb (mr_Version latest =? mr_Version current) ||
  negb (Time.Equal (mr_UpdatedAt latest) (mr_UpdatedAt current)) ||
  (mr_Envelope latest <>s mr_Envelope current).

Definition resolveCreationReplay (request : MessageRecord) (envelope : Envelope)
    (current : MessageRecord) (w : W) : W * result sql_error MessageRecord :=
  let payloadHash := bytes32 (PayloadHash envelope) in
  if (mr_State current =? created) && (mr_Version current =? 1) then
    let current := with_evidence payloadHash current in
    (w, if validateCreatedResult request current then Ok current else Err Conflict)
  else if (mr_MessageID current <>s mr_MessageID request) ||
          (mr_Envelope current <>s mr_Envelope request) || (mr_Version current <=? 1) ||
          Time.Before (mr_UpdatedAt current) (mr_UpdatedAt request)
  then (w, Err Conflict)
  else
    let '(w, row) := load_creation_transition q (mr_MessageID request) w in
    if creation_differs request payloadHash row then (w, Err Conflict)
    else
      let '(w, latest) := messageSnapshot (mr_MessageID request) w in
      (w, match latest with
          | Err _ => Err Conflict
          | Ok latest =>
              if moved_on current (sn_record latest) then Err Conflict else Ok (sn_record latest)
          end).

Definition CreateMessage (record : MessageRecord) (w : W) : W * result sql_error MessageRecord :=
  match validateMessageCreation record with
  | Err e => (w, Err e)
  | Ok envelope =>
      let '(w, route) := verifyEnvelopeRoute envelope w in
      match route with
      | Err e => (w, Err e)
      | Ok _ =>
          let '(w, row) := record_message q (record_message_args record envelope) w in
          match scanMutationMessage row with
          | Err scanErr =>
              let '(w, reloaded) := messageSnapshot (mr_MessageID record) w in
              match reloaded with
              | Ok reloaded =>
                  let '(w, resolved) := resolveCreationReplay record envelope (sn_record reloaded) w in
                  (w, match resolved with Ok r => Ok r | Err _ => Err Conflict end)
              | Err _ => (w, Err (classifyMutationError "record cross-chain message" scanErr Conflict))
              end
          | Ok stored =>
              resolveCreationReplay record envelope
                (with_evidence (bytes32 (PayloadHash envelope)) stored) w
          end
      end
  end.

Definition transition_request (messageID : string) (expectedVersion : Z) (currentState nextState : string)
    (failureClass evidence : string) (updatedAt : Time.t) : transition_args :=
  mkTransitionArgs messageID (i64 expectedVersion) currentState nextState
    (if empty_s failureClass then None else Some failureClass) evidence (Time.UTC updatedAt).

(** The response of the transition does not match the request. *)
Definition transition_differs (stored : MessageRecord) (messageID : string) (expectedVersion next : Z)
    (updatedAt : Time.t) : bool :=
  (mr_MessageID stored <>s messageID) || negb (mr_State stored =? next) ||
  negb (mr_Version stored =? u64 (expectedVersion + 1)) ||
  negb (Time.Equal (mr_UpdatedAt stored) (Time.UTC updatedAt)).

(** The transition itself: send it, and after an error decide by reading the message again. *)
Definition send_transition (messageID : string) (expectedVersion next : Z) (failureClass evidence : string)
    (updatedAt : Time.t) (currentState nextState : string) (w : W) : W * result sql_error MessageRecord :=
  let '(w, row) := transition_message q
    (transition_request messageID expectedVersion currentState nextState failureClass evidence updatedAt) w in
  match scanMutationMessage row with
  | Err scanErr =>
      let '(w, reloaded) := messageSnapshot messageID w in
      (w, match reloaded with
          | Ok reloaded =>
              if exactTransitionReplay reloaded expectedVersion next failureClass evidence updatedAt
              then Ok (sn_record reloaded) else Err Conflict
          | Err _ => Err (classifyMutationError "transition cross-chain message" scanErr Conflict)
          end)
  | Ok stored =>
      let stored := with_evidence evidence stored in
      (w, if transition_differs stored messageID expectedVersion next updatedAt
          then Err ErrInvalidSQLRepository else Ok stored)
  end.

Definition CompareAndSet (messageID : string) (expectedVersion next : Z) (retryable : bool)
    (evidence : string) (updatedAt : Time.t) (w : W) : W * result sql_error MessageRecord :=
  if (messageID =s zero32) || (expectedVersion =? 0) || (MaxInt64 <? expectedVersion) ||
     (evidence =s zero32) || Time.IsZero updatedAt
  then (w, Err Conflict)
  else
    let '(w, current) := messageSnapshot messageID w in
    match current with
    | Err e => (w, Err e)
    | Ok current =>
        let failureClass := transitionFailureClass retryable in
        if negb (mr_Version (sn_record current) =? expectedVersion) then
          (w, if exactTransitionReplay current expectedVersion next failureClass evidence updatedAt
              then Ok (sn_record current) else Err Conflict)
        else if Time.Before updatedAt (mr_UpdatedAt (sn_record current)) ||
                negb (CanTransition (mr_State (sn_record current)) next retryable)
        then (w, Err Conflict)
        else match stateToDatabase next, stateToDatabase (mr_State (sn_record current)) with
        | Some nextState, Some currentState =>
            send_transition messageID expectedVersion next failureClass evidence updatedAt
              currentState nextState w
        | _, _ => (w, Err Conflict)
        end
    end.
End Messages.
