(* ===== verification/SqlEvidence.v ===== *)
(** The rest of the durable store ([cross-chain-coordinator/store/sql.go]): the outbox and
    the inbox, delivery attempts, source proofs, finality certificates, header observations,
    reorganizations, the provisioned routes and the health check. *)
From S2P Require Import Prelude GoStd CrossChainTypes MessageStore SqlStore.
From S2P Require Message Gateway.

(** * Recording with replay

    The shape the recording operations share: an answer that matches the request is the
    result; after an error the row is read again, and it is the result if it matches. *)
Definition recorded {W A} (operation : string) (sent : result sql_error A)
    (reload : W → W * result sql_error A) (fresh replay : A → bool) (w : W) : W * result sql_error A :=
  match sent with
  | Err scanErr =>
      let '(w, reloaded) := reload w in
      (w, match reloaded with
          | Ok r => if replay r then Ok r else Err Conflict
          | Err _ => Err (classifyMutationError operation scanErr Conflict)
          end)
  | Ok r => (w, if fresh r then Ok r else Err Conflict)
  end.

(** A load whose missing row is [ErrNotFound]. *)
Definition loaded {A} (operation : string) (r : result sql_error A) : result sql_error A :=
  match r with
  | Ok a => Ok a
  | Err e => if is_no_rows e then Err NotFound else Err (Wrapped operation e)
  end.
(** The same for the procedures that raise a text with "not found". *)
Definition loaded_text {A} (operation : string) (r : result sql_error A) : result sql_error A :=
  match r with
  | Ok a => Ok a
  | Err e => if mentions (error_text e) "not found" then Err NotFound else Err (Wrapped operation e)
  end.

(** * Outbox and inbox *)

Definition validOutboxRecord (record : OutboxRecord) : bool :=
  let none (t : option Time.t) := match t with None => true | Some _ => false end in
  if ob_Status record =s "PENDING" then
    (ob_AttemptCount record =? 0) && empty_s (ob_PublisherID record) && none (ob_LeaseUntil record) &&
    none (ob_PublishedAt record) && empty_s (ob_BrokerOffset record)
  else if ob_Status record =s "CLAIMED" then
    (0 <? ob_AttemptCount record) && negb (empty_s (ob_PublisherID record)) &&
    negb (none (ob_LeaseUntil record)) && none (ob_PublishedAt record) && empty_s (ob_BrokerOffset record)
  else if ob_Status record =s "PUBLISHED" then
    (0 <? ob_AttemptCount record) && negb (empty_s (ob_PublisherID record)) &&
    none (ob_LeaseUntil record) && negb (none (ob_PublishedAt record)) &&
    negb (empty_s (ob_BrokerOffset record))
  else false.

Definition scanOutbox `{Sha256} (row : answer outbox_row) : result sql_error OutboxRecord :=
  match row with
  | NoRow e => Err e
  | Row r =>
      if negb (is32 (ow_message_id r)) || negb (is32 (ow_payload_hash r)) || empty_s (ow_outbox_id r) ||
         (ow_state_version r <=? 0) || (ow_attempt_count r <? 0) || (MaxUint32 <? ow_attempt_count r) ||
         empty_s (ow_topic r) || empty_s (ow_partition_key r) ||
         (String.length (ow_payload r) =? 0)%nat || Time.IsZero (ow_created_at r) ||
         (sha256 (ow_payload r) <>s bytes32 (ow_payload_hash r))
      then Err Conflict
      else
        let record := mkOutbox (ow_outbox_id r) (ow_message_id r) (ow_state_version r) (ow_topic r)
          (ow_partition_key r) (ow_payload r) (ow_payload_hash r) (ow_status r) (ow_attempt_count r)
          (default "" (ow_publisher_id r)) (Time.UTC <$> ow_lease_until r) (Time.UTC (ow_created_at r))
          (Time.UTC <$> ow_published_at r) (default "" (ow_broker_offset r)) in
        if validOutboxRecord record then Ok record else Err Conflict
  end.

Fixpoint scan_outbox_rows `{Sha256} (rows : list (answer outbox_row)) (failure : option sql_error)
    : result sql_error (list OutboxRecord) :=
  match rows with
  | [] =>
      match failure with
      | Some e => Err (Wrapped "iterate claimed cross-chain outbox" e)
      | None => Ok []
      end
  | row :: rest =>
      match scanOutbox row with
      | Err e => Err (Wrapped "scan claimed cross-chain outbox" e)
      | Ok record => let? records := scan_outbox_rows rest failure in Ok (record :: records)
      end
  end.

Definition exactOutboxPublication (record : OutboxRecord) (publisherID : string)
    (expectedAttemptCount : Z) (brokerOffset : string) (publishedAt : Time.t) : bool :=
  (ob_Status record =s "PUBLISHED") && (ob_PublisherID record =s publisherID) &&
  (ob_AttemptCount record =? expectedAttemptCount) && (ob_BrokerOffset record =s brokerOffset) &&
  match ob_PublishedAt record with
  | Some t => Time.Equal t (Time.UTC publishedAt) | None => false end.

Definition scanInbox (row : answer InboxRecord) : result sql_error InboxRecord :=
  match row with
  | NoRow e => Err e
  | Row r =>
      if empty_s (ib_ConsumerID r) || negb (is32 (ib_MessageID r)) || empty_s (ib_Topic r) ||
         empty_s (ib_PartitionKey r) || empty_s (ib_BrokerOffset r) ||
         negb (is32 (ib_PayloadHash r)) || Time.IsZero (ib_ConsumedAt r)
      then Err Conflict
      else Ok (mkInbox (ib_ConsumerID r) (ib_MessageID r) (ib_Topic r) (ib_PartitionKey r)
        (ib_BrokerOffset r) (ib_PayloadHash r) (Time.UTC (ib_ConsumedAt r)))
  end.

Definition exactInboxConsumption (record : InboxRecord) (messageID partitionKey payloadHash : string)
    (consumedAt : Time.t) : bool :=
  (ib_MessageID record =s messageID) && (ib_PartitionKey record =s partitionKey) &&
  (ib_PayloadHash record =s payloadHash) && Time.Equal (ib_ConsumedAt record) (Time.UTC consumedAt).

Section Boxes.
Context `{Sha256} {W : Type} (q : Queryer W).

Definition ClaimOutbox (publisherID : string) (leaseUntil claimedAt : Time.t) (batchSize : Z) (w : W)
    : W * result sql_error (list OutboxRecord) :=
  if empty_s publisherID || Time.IsZero leaseUntil || Time.IsZero claimedAt ||
     negb (Time.After leaseUntil claimedAt) || (batchSize <? 1) || (1000 <? batchSize)
  then (w, Err Conflict)
  else match claim_outbox q with
  | None => (w, Err ErrInvalidSQLRepository)
  | Some query =>
      let '(w, rows) := query publisherID (Time.UTC leaseUntil) (Time.UTC claimedAt) batchSize w in
      (w, match rows with
          | Err e => Err (classifyMutationError "claim cross-chain outbox" e Conflict)
          | Ok (rows, failure) => scan_outbox_rows rows failure
          end)
  end.

Definition outbox (outboxID : string) (w : W) : W * result sql_error OutboxRecord :=
  let '(w, row) := load_outbox q outboxID w in (w, loaded "load cross-chain outbox" (scanOutbox row)).

Definition MarkOutboxPublished (outboxID publisherID : string) (expectedAttemptCount : Z)
    (brokerOffset : string) (publishedAt : Time.t) (w : W) : W * result sql_error OutboxRecord :=
  if empty_s outboxID || empty_s publisherID || (expectedAttemptCount =? 0) ||
     (MaxInt32 <? expectedAttemptCount) || empty_s brokerOffset || Time.IsZero publishedAt
  then (w, Err Conflict)
  else
    let exact r := exactOutboxPublication r publisherID expectedAttemptCount brokerOffset publishedAt in
    let '(w, row) := mark_outbox_published q outboxID publisherID (i32 expectedAttemptCount)
      brokerOffset (Time.UTC publishedAt) w in
    recorded "mark cross-chain outbox published" (scanOutbox row) (outbox outboxID) exact exact w.

Definition inbox (consumerID topic brokerOffset : string) (w : W) : W * result sql_error InboxRecord :=
  let '(w, row) := load_inbox q consumerID topic brokerOffset w in
  (w, loaded "load cross-chain inbox" (scanInbox row)).

Definition ConsumeInbox (consumerID messageID topic partitionKey brokerOffset payloadHash : string)
    (consumedAt : Time.t) (w : W) : W * result sql_error InboxRecord :=
  if empty_s consumerID || (messageID =s zero32) || empty_s topic || empty_s partitionKey ||
     empty_s brokerOffset || (payloadHash =s zero32) || Time.IsZero consumedAt
  then (w, Err Conflict)
  else
    let exact r := exactInboxConsumption r messageID partitionKey payloadHash consumedAt in
    let '(w, row) := consume_inbox q (mkInbox consumerID messageID topic partitionKey brokerOffset
      payloadHash (Time.UTC consumedAt)) w in
    recorded "consume cross-chain inbox" (scanInbox row) (inbox consumerID topic brokerOffset)
      (λ r, negb ((ib_ConsumerID r <>s consumerID) || (ib_Topic r <>s topic) ||
                  (ib_PartitionKey r <>s partitionKey) || (ib_BrokerOffset r <>s brokerOffset) ||
                  negb (exact r)))
      exact w.
End Boxes.

(** * Provider attempts *)

Definition validProviderAttempt (record : ProviderAttemptRecord) : bool :=
  if (pa_MessageID record =s zero32) || empty_s (pa_ProviderID record) ||
     (pa_AttemptNumber record =? 0) || (MaxInt32 <? pa_AttemptNumber record) ||
     (pa_EnvelopeHash record =s zero32) || (pa_SourceProofHash record =s zero32) ||
     Time.IsZero (pa_AttemptedAt record)
  then false
  else if pa_Status record =s "DELIVERED" then pa_ReceiptHash record <>s zero32
  else if (pa_Status record =s "FAILED") || (pa_Status record =s "REQUESTED")
  then pa_ReceiptHash record =s zero32
  else false.

Definition sameProviderAttempt (l r : ProviderAttemptRecord) : bool :=
  (pa_MessageID l =s pa_MessageID r) && (pa_ProviderID l =s pa_ProviderID r) &&
  (pa_AttemptNumber l =? pa_AttemptNumber r) && (pa_EnvelopeHash l =s pa_EnvelopeHash r) &&
  (pa_SourceProofHash l =s pa_SourceProofHash r) && (pa_Status l =s pa_Status r) &&
  (pa_ReceiptHash l =s pa_ReceiptHash r) && Time.Equal (pa_AttemptedAt l) (pa_AttemptedAt r).

Definition scanProviderAttempt (row : answer ProviderAttemptRecord)
    : result sql_error ProviderAttemptRecord :=
  match row with
  | NoRow e => Err e
  | Row r =>
      let delivered := pa_Status r =s "DELIVERED" in
      if negb (is32 (pa_MessageID r)) || (pa_AttemptNumber r <=? 0) || (MaxInt32 <? pa_AttemptNumber r) ||
         negb (is32 (pa_EnvelopeHash r)) || negb (is32 (pa_SourceProofHash r)) ||
         (delivered && negb (is32 (pa_ReceiptHash r))) ||
         (negb delivered && negb (String.length (pa_ReceiptHash r) =? 0)%nat)
      then Err ErrInvalidSQLRepository
      else
        let record := mkAttempt (pa_MessageID r) (pa_ProviderID r) (pa_AttemptNumber r)
          (pa_EnvelopeHash r) (pa_SourceProofHash r) (pa_Status r)
          (if is32 (pa_ReceiptHash r) then pa_ReceiptHash r else zero32)
          (Time.UTC (pa_AttemptedAt r)) in
        if validProviderAttempt record then Ok record else Err ErrInvalidSQLRepository
  end.

(** * Source proofs *)

Definition source_proof_hashes (r : SourceProofRecord) : list string :=
  [sp_MessageID r; sp_TransactionHash r; sp_BlockHash r; sp_ReceiptsRoot r; sp_InclusionProofHash r;
   sp_EventHash r; sp_FinalityHeadHash r; sp_FinalityPolicyHash r; sp_ObserverAuthorityHash r;
   sp_ObserverSignedHeaderCommitment r; sp_ProofHash r].

Definition number (text : string) : Z := default 0 (Big.set_string text).

Definition validSourceProof (record : SourceProofRecord) : bool :=
  if empty_s (sp_ProofID record) || (sp_MessageID record =s zero32) ||
     (sp_TransactionHash record =s zero32) || (sp_BlockHash record =s zero32) ||
     (sp_ReceiptsRoot record =s zero32) || (sp_InclusionProofHash record =s zero32) ||
     (sp_EventHash record =s zero32) || (sp_FinalityHeadHash record =s zero32) ||
     (sp_FinalityPolicyHash record =s zero32) || (sp_ObserverAuthorityHash record =s zero32) ||
     (sp_ObserverSignedHeaderCommitment record =s zero32) ||
     (String.length (sp_ObserverSignature record) =? 0)%nat || (sp_ProofHash record =s zero32) ||
     Time.IsZero (sp_ObservedAt record) || negb (canonicalUint256 (sp_ChainID record) false) ||
     negb (canonicalUint256 (sp_TransactionIndex record) true) ||
     negb (canonicalUint256 (sp_LogIndex record) true) ||
     negb (canonicalUint256 (sp_BlockNumber record) true) ||
     negb (canonicalUint256 (sp_FinalityHeadNumber record) true) ||
     negb (canonicalUint256 (sp_ConfirmationDepth record) false)
  then false
  else number (sp_BlockNumber record) + number (sp_ConfirmationDepth record) <=?
       number (sp_FinalityHeadNumber record).

Definition sameSourceProof (l r : SourceProofRecord) : bool :=
  (sp_ProofID l =s sp_ProofID r) && (sp_MessageID l =s sp_MessageID r) &&
  (sp_ChainID l =s sp_ChainID r) && (sp_TransactionHash l =s sp_TransactionHash r) &&
  (sp_TransactionIndex l =s sp_TransactionIndex r) && (sp_LogIndex l =s sp_LogIndex r) &&
  (sp_BlockNumber l =s sp_BlockNumber r) && (sp_BlockHash l =s sp_BlockHash r) &&
  (sp_ReceiptsRoot l =s sp_ReceiptsRoot r) && (sp_InclusionProofHash l =s sp_InclusionProofHash r) &&
  (sp_EventHash l =s sp_EventHash r) && (sp_FinalityHeadNumber l =s sp_FinalityHeadNumber r) &&
  (sp_FinalityHeadHash l =s sp_FinalityHeadHash r) && (sp_ConfirmationDepth l =s sp_ConfirmationDepth r) &&
  (sp_FinalityPolicyHash l =s sp_FinalityPolicyHash r) &&
  (sp_ObserverAuthorityHash l =s sp_ObserverAuthorityHash r) &&
  (sp_ObserverSignedHeaderCommitment l =s sp_ObserverSignedHeaderCommitment r) &&
  (sp_ObserverSignature l =s sp_ObserverSignature r) && (sp_ProofHash l =s sp_ProofHash r) &&
  Time.Equal (sp_ObservedAt l) (sp_ObservedAt r).

Definition proof_utc (r : SourceProofRecord) : SourceProofRecord :=
  mkSourceProof (sp_ProofID r) (sp_MessageID r) (sp_ChainID r) (sp_TransactionHash r)
    (sp_TransactionIndex r) (sp_LogIndex r) (sp_BlockNumber r) (sp_BlockHash r) (sp_ReceiptsRoot r)
    (sp_InclusionProofHash r) (sp_EventHash r) (sp_FinalityHeadNumber r) (sp_FinalityHeadHash r)
    (sp_ConfirmationDepth r) (sp_FinalityPolicyHash r) (sp_ObserverAuthorityHash r)
    (sp_ObserverSignedHeaderCommitment r) (sp_ObserverSignature r) (sp_ProofHash r)
    (Time.UTC (sp_ObservedAt r)).

Definition scanSourceProof (row : answer SourceProofRecord) : result sql_error SourceProofRecord :=
  match row with
  | NoRow e => Err e
  | Row r =>
      if negb (forallb is32 (source_proof_hashes r)) then Err Conflict
      else if validSourceProof (proof_utc r) then Ok (proof_utc r) else Err Conflict
  end.

(** * Finality certificates *)

(** The number of ones, or nothing when a character is no bit. *)
Fixpoint count_bits (s : string) : option Z :=
  match s with
  | EmptyString => Some 0
  | String c rest =>
      match count_bits rest with
      | None => None
      | Some n =>
          if Ascii.eqb c (Ascii.ascii_of_nat 49) then Some (n + 1)
          else if Ascii.eqb c (Ascii.ascii_of_nat 48) then Some n else None
      end
  end.

Definition validFinalityCertificate (record : FinalityCertificateRecord) : bool :=
  if empty_s (fc_CertificateID record) || (fc_MessageID record =s zero32) ||
     empty_s (fc_ProofID record) || (fc_SignerSetHash record =s zero32) ||
     (fc_SignerSetVersion record =? 0) || (MaxUint32 <? fc_SignerSetVersion record) ||
     (fc_CertificateHash record =s zero32) || Time.IsZero (fc_CertifiedAt record) ||
     negb (String.length (fc_SignerBitmap record) =? 3)%nat
  then false
  else match count_bits (fc_SignerBitmap record) with
  | None => false
  | Some count => (count =? fc_SignatureCount record) && (2 <=? count)
  end.

Definition sameFinalityCertificate (l r : FinalityCertificateRecord) : bool :=
  (fc_CertificateID l =s fc_CertificateID r) && (fc_MessageID l =s fc_MessageID r) &&
  (fc_ProofID l =s fc_ProofID r) && (fc_SignerSetHash l =s fc_SignerSetHash r) &&
  (fc_SignerSetVersion l =? fc_SignerSetVersion r) && (fc_SignerBitmap l =s fc_SignerBitmap r) &&
  (fc_SignatureCount l =? fc_SignatureCount r) && (fc_CertificateHash l =s fc_CertificateHash r) &&
  Time.Equal (fc_CertifiedAt l) (fc_CertifiedAt r).

Definition scanFinalityCertificate (row : answer FinalityCertificateRecord)
    : result sql_error FinalityCertificateRecord :=
  match row with
  | NoRow e => Err e
  | Row r =>
      if negb (is32 (fc_MessageID r)) || negb (is32 (fc_SignerSetHash r)) ||
         negb (is32 (fc_CertificateHash r)) || (fc_SignerSetVersion r <=? 0) ||
         (fc_SignatureCount r <? 0) || (MaxUint32 <? fc_SignatureCount r)
      then Err Conflict
      else
        let record := mkCertificate (fc_CertificateID r) (fc_MessageID r) (fc_ProofID r)
          (fc_SignerSetHash r) (fc_SignerSetVersion r) (fc_SignerBitmap r) (fc_SignatureCount r)
          (fc_CertificateHash r) (Time.UTC (fc_CertifiedAt r)) in
        if validFinalityCertificate record then Ok record else Err Conflict
  end.

(** * Header observations *)

Definition validHeaderObservation (record : HeaderObservationRecord) : bool :=
  negb (empty_s (ho_ObservationID record)) && canonicalUint256 (ho_ChainID record) false &&
  (ho_BlockHash record <>s zero32) && canonicalUint256 (ho_BlockNumber record) false &&
  (ho_HeaderAuthorityHash record <>s zero32) &&
  (ho_ObserverSignedHeaderCommitment record <>s zero32) &&
  negb (String.length (ho_ObserverSignature record) =? 0)%nat &&
  (ho_FinalityPolicyHash record <>s zero32) && negb (Time.IsZero (ho_ObservedAt record)).

Definition sameHeaderObservation (l r : HeaderObservationRecord) : bool :=
  (ho_ObservationID l =s ho_ObservationID r) && (ho_ChainID l =s ho_ChainID r) &&
  (ho_BlockHash l =s ho_BlockHash r) && (ho_BlockNumber l =s ho_BlockNumber r) &&
  (ho_HeaderAuthorityHash l =s ho_HeaderAuthorityHash r) &&
  (ho_ObserverSignedHeaderCommitment l =s ho_ObserverSignedHeaderCommitment r) &&
  (ho_ObserverSignature l =s ho_ObserverSignature r) &&
  (ho_FinalityPolicyHash l =s ho_FinalityPolicyHash r) && Time.Equal (ho_ObservedAt l) (ho_ObservedAt r).

Definition observation_utc (r : HeaderObservationRecord) : HeaderObservationRecord :=
  mkObservation (ho_ObservationID r) (ho_ChainID r) (ho_BlockHash r) (ho_BlockNumber r)
    (ho_HeaderAuthorityHash r) (ho_ObserverSignedHeaderCommitment r) (ho_ObserverSignature r)
    (ho_FinalityPolicyHash r) (Time.UTC (ho_ObservedAt r)).

Definition scanHeaderObservation (row : answer HeaderObservationRecord)
    : result sql_error HeaderObservationRecord :=
  match row with
  | NoRow e => Err e
  | Row r =>
      if negb (is32 (ho_BlockHash r)) || negb (is32 (ho_HeaderAuthorityHash r)) ||
         negb (is32 (ho_ObserverSignedHeaderCommitment r)) || negb (is32 (ho_FinalityPolicyHash r))
      then Err Conflict
      else if validHeaderObservation (observation_utc r) then Ok (observation_utc r) else Err Conflict
  end.

(** * Reorganizations *)

(** The ids are strictly increasing and, like the proof and certificate of each, not empty.
    The three lists have one length when the loop runs. *)
Fixpoint reorganization_loop (previous : option string) (ids proofs certificates : list string) : bool :=
  match ids, proofs, certificates with
  | messageID :: ids, proof :: proofs, certificate :: certificates =>
      if (messageID =s zero32) || empty_s proof || empty_s certificate ||
         match previous with Some p => be_value messageID <=? be_value p | None => false end
      then false else reorganization_loop (Some messageID) ids proofs certificates
  | _, _, _ => true
  end.

Definition validReorganizationRequest (request : ReorganizationRequest) : bool :=
  let ids := rq_AffectedMessageIDs request in
  if empty_s (rq_RouteID request) || negb (canonicalUint256 (rq_ChainID request) false) ||
     empty_s (rq_ReplacementObservationID request) || empty_s (rq_DetectedHeadObservationID request) ||
     (rq_EvidenceHash request =s zero32) || Time.IsZero (rq_DetectedAt request) ||
     (length ids =? 0)%nat || (256 <? length ids)%nat ||
     negb (length (rq_OrphanedProofIDs request) =? length ids)%nat ||
     negb (length (rq_OrphanedCertificateIDs request) =? length ids)%nat
  then false
  else reorganization_loop None ids (rq_OrphanedProofIDs request) (rq_OrphanedCertificateIDs request).

Definition validReorganizationRecord (record : ReorganizationRecord) (withIncident : bool) : bool :=
  if empty_s (rg_ReorganizationID record) || empty_s (rg_RouteID record) ||
     negb (canonicalUint256 (rg_ChainID record) false) || (rg_OrphanedBlockHash record =s zero32) ||
     negb (canonicalUint256 (rg_OrphanedBlockNumber record) false) ||
     empty_s (rg_OrphanedProofID record) || empty_s (rg_OrphanedCertificateID record) ||
     match rg_OrphanedProofIDs record, rg_OrphanedCertificateIDs record with
     | proof :: _, certificate :: _ =>
         (rg_OrphanedProofID record <>s proof) || (rg_OrphanedCertificateID record <>s certificate)
     | _, _ => true
     end ||
     (rg_ReplacementBlockHash record =s zero32) ||
     negb (canonicalUint256 (rg_ReplacementBlockNumber record) false) ||
     empty_s (rg_ReplacementObservationID record) || (rg_DetectedHeadHash record =s zero32) ||
     negb (canonicalUint256 (rg_DetectedHeadNumber record) false) ||
     empty_s (rg_DetectedHeadObservationID record) || (rg_DepthClass record <>s "DEEP_FINALITY") ||
     (rg_EvidenceHash record =s zero32) || Time.IsZero (rg_DetectedAt record)
  then false
  else if negb (validReorganizationRequest (mkReorganizationRequest (rg_RouteID record)
            (rg_ChainID record) (rg_OrphanedProofIDs record) (rg_OrphanedCertificateIDs record)
            (rg_ReplacementObservationID record) (rg_DetectedHeadObservationID record)
            (rg_AffectedMessageIDs record) (rg_EvidenceHash record) (rg_DetectedAt record)))
  then false
  else if negb withIncident then true
  else
    let incident := rg_Incident record in
    negb (empty_s (in_IncidentID incident)) &&
    (in_ReasonCode incident =s "POST_FINALITY_REORGANIZATION") && (in_Severity incident =s "CRITICAL") &&
    (in_Owner incident =s "cross-chain-security") && (in_Status incident =s "OPEN") &&
    Time.Equal (in_OpenedAt incident) (rg_DetectedAt record).

Definition reorganizationMatchesRequest (record : ReorganizationRecord) (request : ReorganizationRequest)
    : bool :=
  (rg_RouteID record =s rq_RouteID request) && (rg_ChainID record =s rq_ChainID request) &&
  sameStrings (rg_OrphanedProofIDs record) (rq_OrphanedProofIDs request) &&
  sameStrings (rg_OrphanedCertificateIDs record) (rq_OrphanedCertificateIDs request) &&
  (rg_ReplacementObservationID record =s rq_ReplacementObservationID request) &&
  (rg_DetectedHeadObservationID record =s rq_DetectedHeadObservationID request) &&
  sameMessageIDs (rg_AffectedMessageIDs record) (rq_AffectedMessageIDs request) &&
  (rg_EvidenceHash record =s rq_EvidenceHash request) &&
  Time.Equal (rg_DetectedAt record) (rq_DetectedAt request).

(** A one-character string, and [strings.Join(items, ",")]. *)
Definition char (code : nat) : string := String (Ascii.ascii_of_nat code) "".
Definition quote : string := char 34.
Definition backslash : string := char 92.
Fixpoint join (items : list string) : string :=
  match items with
  | [] => ""%string
  | [item] => item
  | item :: rest => item +:+ "," +:+ join rest
  end.

Definition byteaArrayLiteral (values : list string) : string :=
  "{" +:+ join ((λ value, quote +:+ backslash +:+ backslash +:+ "x" +:+ hex value +:+ quote) <$> values)
  +:+ "}".

(** [strings.ReplaceAll] of a character by itself behind a backslash. *)
Fixpoint escape (code : nat) (s : string) : string :=
  match s with
  | EmptyString => ""%string
  | String c r =>
      if Ascii.eqb c (Ascii.ascii_of_nat code) then backslash +:+ String c (escape code r)
      else String c (escape code r)
  end.
Definition textArrayLiteral (values : list string) : string :=
  "{" +:+ join ((λ value, quote +:+ escape 34 (escape 92 value) +:+ quote) <$> values) +:+ "}".

(** [strings.Split(value, ",")]. *)
Fixpoint split_commas (s : string) : list string :=
  match s with
  | EmptyString => [""%string]
  | String c r =>
      if Ascii.eqb c (Ascii.ascii_of_nat 44) then ""%string :: split_commas r
      else match split_commas r with
      | part :: parts => String c part :: parts
      | [] => [String c ""]
      end
  end.

Fixpoint decode_ids (parts : list string) : option (list string) :=
  match parts with
  | [] => Some []
  | part :: rest =>
      match Gateway.DecodeString part with
      | None => None
      | Some decoded =>
          if negb (is32 decoded) then None
          else match decode_ids rest with Some ids => Some (decoded :: ids) | None => None end
      end
  end.
Definition parseAffectedMessageIDs (value : string) : option (list string) :=
  if empty_s value then None else decode_ids (split_commas value).

Definition incident_utc (i : Incident) : Incident :=
  mkIncident (in_IncidentID i) (in_ReasonCode i) (in_Severity i) (in_Owner i) (in_Status i)
    (Time.UTC (in_OpenedAt i)).

(** [scanReorganization]; with an incident the six columns of it are in [incident]. *)
Definition read_reorganization `{JsonStrings} (r : reorganization_row) (incident : option Incident)
    : result sql_error ReorganizationRecord :=
  if negb (is32 (gw_orphaned_block_hash r)) || negb (is32 (gw_replacement_block_hash r)) ||
     negb (is32 (gw_detected_head_hash r)) || negb (is32 (gw_evidence_hash r))
  then Err Conflict
  else match parseAffectedMessageIDs (gw_affected r), unmarshal_strings (gw_orphaned_proof_ids r),
             unmarshal_strings (gw_orphaned_certificate_ids r) with
  | Some affected, Some proofs, Some certificates =>
      let record := mkReorganization (gw_reorganization_id r) (gw_route_id r) (gw_chain_id r)
        (gw_orphaned_block_hash r) (gw_orphaned_block_number r) (gw_orphaned_proof_id r)
        (gw_orphaned_certificate_id r) proofs certificates (gw_replacement_block_hash r)
        (gw_replacement_block_number r) (gw_replacement_observation_id r) (gw_detected_head_hash r)
        (gw_detected_head_number r) (gw_detected_head_observation_id r) (gw_depth_class r) affected
        (gw_evidence_hash r) (Time.UTC (gw_detected_at r))
        (match incident with Some i => incident_utc i | None => zeroIncident end) in
      if validReorganizationRecord record (match incident with Some _ => true | None => false end)
      then Ok record else Err Conflict
  | _, _, _ => Err Conflict
  end.
Definition scanReorganization `{JsonStrings} (row : answer reorganization_row)
    : result sql_error ReorganizationRecord :=
  match row with NoRow e => Err e | Row r => read_reorganization r None end.
Definition scanReorganization_incident `{JsonStrings} (row : answer (reorganization_row * Incident))
    : result sql_error ReorganizationRecord :=
  match row with NoRow e => Err e | Row (r, incident) => read_reorganization r (Some incident) end.

Definition with_incident (incident : Incident) (r : ReorganizationRecord) : ReorganizationRecord :=
  mkReorganization (rg_ReorganizationID r) (rg_RouteID r) (rg_ChainID r) (rg_OrphanedBlockHash r)
    (rg_OrphanedBlockNumber r) (rg_OrphanedProofID r) (rg_OrphanedCertificateID r)
    (rg_OrphanedProofIDs r) (rg_OrphanedCertificateIDs r) (rg_ReplacementBlockHash r)
    (rg_ReplacementBlockNumber r) (rg_ReplacementObservationID r) (rg_DetectedHeadHash r)
    (rg_DetectedHeadNumber r) (rg_DetectedHeadObservationID r) (rg_DepthClass r)
    (rg_AffectedMessageIDs r) (rg_EvidenceHash r) (rg_DetectedAt r) incident.

(** * Operations on evidence *)

Section Evidence.
Context `{JsonStrings} {W : Type} (q : Queryer W).

Definition ProviderAttempt (messageID providerID : string) (attemptNumber : Z) (w : W)
    : W * result sql_error ProviderAttemptRecord :=
  if (messageID =s zero32) || empty_s providerID || (attemptNumber =? 0) || (MaxInt32 <? attemptNumber)
  then (w, Err NotFound)
  else
    let '(w, row) := load_provider_attempt q messageID providerID (i32 attemptNumber) w in
    (w, loaded "load cross-chain provider attempt" (scanProviderAttempt row)).

Definition attempt_args (record : ProviderAttemptRecord) : ProviderAttemptRecord :=
  mkAttempt (pa_MessageID record) (pa_ProviderID record) (i32 (pa_AttemptNumber record))
    (pa_EnvelopeHash record) (pa_SourceProofHash record) (pa_Status record)
    (if pa_Status record =s "DELIVERED" then pa_ReceiptHash record else "")
    (Time.UTC (pa_AttemptedAt record)).

Definition RecordProviderAttempt (record : ProviderAttemptRecord) (w : W)
    : W * result sql_error ProviderAttemptRecord :=
  if negb (validProviderAttempt record) then (w, Err Conflict)
  else
    let same r := sameProviderAttempt r record in
    let '(w, row) := record_provider_attempt q (attempt_args record) w in
    recorded "record cross-chain provider attempt" (scanProviderAttempt row)
      (ProviderAttempt (pa_MessageID record) (pa_ProviderID record) (pa_AttemptNumber record)) same same w.

Definition SourceProof (proofID : string) (w : W) : W * result sql_error SourceProofRecord :=
  if empty_s proofID then (w, Err NotFound)
  else
    let '(w, row) := load_source_proof q proofID w in
    (w, loaded_text "load cross-chain source proof" (scanSourceProof row)).

Definition RecordSourceProof (record : SourceProofRecord) (w : W) : W * result sql_error SourceProofRecord :=
  if negb (validSourceProof record) then (w, Err Conflict)
  else
    let same r := sameSourceProof r record in
    let '(w, row) := record_source_proof q (proof_utc record) w in
    recorded "record cross-chain source proof" (scanSourceProof row) (SourceProof (sp_ProofID record))
      same same w.

Definition FinalityCertificate (certificateID : string) (w : W)
    : W * result sql_error FinalityCertificateRecord :=
  if empty_s certificateID then (w, Err NotFound)
  else
    let '(w, row) := load_finality_certificate q certificateID w in
    (w, loaded_text "load cross-chain finality certificate" (scanFinalityCertificate row)).

Definition certificate_args (r : FinalityCertificateRecord) : FinalityCertificateRecord :=
  mkCertificate (fc_CertificateID r) (fc_MessageID r) (fc_ProofID r) (fc_SignerSetHash r)
    (i64 (fc_SignerSetVersion r)) (fc_SignerBitmap r) (i32 (fc_SignatureCount r))
    (fc_CertificateHash r) (Time.UTC (fc_CertifiedAt r)).

Definition RecordFinalityCertificate (record : FinalityCertificateRecord) (w : W)
    : W * result sql_error FinalityCertificateRecord :=
  if negb (validFinalityCertificate record) then (w, Err Conflict)
  else
    let same r := sameFinalityCertificate r record in
    let '(w, row) := record_finality_certificate q (certificate_args record) w in
    recorded "record cross-chain finality certificate" (scanFinalityCertificate row)
      (FinalityCertificate (fc_CertificateID record)) same same w.

(** A statement that is sent once more after an error. *)
Definition twice {A} (send : W → W * result sql_error A) (w : W) : W * result sql_error A :=
  let '(w, first) := send w in
  match first with Ok _ => (w, first) | Err _ => send w end.

Definition RecordHeaderObservation (record : HeaderObservationRecord) (w : W)
    : W * result sql_error HeaderObservationRecord :=
  if negb (validHeaderObservation record) then (w, Err Conflict)
  else
    let '(w, result) := twice (λ w,
      let '(w, row) := record_header_observation q (observation_utc record) w in
      (w, scanHeaderObservation row)) w in
    (w, match result with
        | Err scanErr => Err (classifyMutationError "record cross-chain header observation" scanErr Conflict)
        | Ok r => if sameHeaderObservation r record then Ok r else Err Conflict
        end).

Definition HeaderObservation (observationID : string) (w : W)
    : W * result sql_error HeaderObservationRecord :=
  if empty_s observationID then (w, Err NotFound)
  else
    let '(w, row) := load_header_observation q observationID w in
    (w, loaded "load cross-chain header observation" (scanHeaderObservation row)).

Definition opened_incident (request : ReorganizationRequest) : Incident :=
  mkIncident ("crosschain-incident:" +:+ hex (rq_EvidenceHash request)) "POST_FINALITY_REORGANIZATION"
    "CRITICAL" "cross-chain-security" "OPEN" (Time.UTC (rq_DetectedAt request)).

Definition RecordReorganization (request : ReorganizationRequest) (w : W)
    : W * result sql_error ReorganizationRecord :=
  if negb (validReorganizationRequest request) then (w, Err Conflict)
  else
    let '(w, result) := twice (λ w,
      let '(w, row) := record_reorganization q (rq_RouteID request) (rq_ChainID request)
        (textArrayLiteral (rq_OrphanedProofIDs request))
        (textArrayLiteral (rq_OrphanedCertificateIDs request))
        (rq_ReplacementObservationID request) (rq_DetectedHeadObservationID request)
        (byteaArrayLiteral (rq_AffectedMessageIDs request)) (rq_EvidenceHash request)
        (Time.UTC (rq_DetectedAt request)) w in
      (w, scanReorganization row)) w in
    (w, match result with
        | Err scanErr => Err (classifyMutationError "record cross-chain reorganization" scanErr Conflict)
        | Ok r =>
            let r := with_incident (opened_incident request) r in
            if reorganizationMatchesRequest r request then Ok r else Err Conflict
        end).

Definition Reorganization (evidenceHash : string) (w : W) : W * result sql_error ReorganizationRecord :=
  if evidenceHash =s zero32 then (w, Err NotFound)
  else
    let '(w, row) := load_reorganization q evidenceHash w in
    (w, loaded "load cross-chain reorganization" (scanReorganization_incident row)).
End Evidence.

(** * Routes *)

Definition validChainRegistration (registration : ChainRegistration) : bool :=
  canonicalUint256 (cr_ChainID registration) false && (0 <? cr_Version registration) &&
  (cr_Version registration <=? MaxInt64) && (cr_Coordinator registration <>s zero20) &&
  (cr_FinalityVerifier registration <>s zero20) && (cr_ConfigurationHash registration <>s zero32) &&
  (cr_ObserverAuthorityHash registration <>s zero32) &&
  canonicalUint256 (cr_ActivatedAtBlock registration) true.

Definition validRouteRegistration (registration : RouteRegistration) : bool :=
  let route := rr_Route registration in
  if empty_s (rv_RouteID route) || (rv_Version route =? 0) || (MaxInt64 <? rv_Version route) ||
     (rv_PolicyHash route =s zero32) || empty_s (rv_SourceChain route) ||
     empty_s (rv_DestinationChain route) || (rv_SourceChain route =s rv_DestinationChain route) ||
     Time.IsZero (rv_ActivatedAt route) ||
     match rv_DeprecatedAt route with Some _ => true | None => false end ||
     (cr_ChainID (rr_SourceChain registration) <>s rv_SourceChain route) ||
     (cr_ChainID (rr_DestinationChain registration) <>s rv_DestinationChain route) ||
     (rr_SourceComponent registration =s zero20) || (rr_DestinationComponent registration =s zero20) ||
     empty_s (rr_ActionFamily registration) || (rr_AdapterSetPolicyHash registration =s zero32) ||
     (rr_SourceFinalityPolicyHash registration =s zero32) ||
     (rr_DestinationFinalityPolicyHash registration =s zero32) ||
     (rr_SourceSignerSetHash registration =s zero32) || (rr_SourceSignerSetVersion registration =? 0) ||
     (MaxUint32 <? rr_SourceSignerSetVersion registration) ||
     (rr_DestinationSignerSetHash registration =s zero32) ||
     (rr_DestinationSignerSetVersion registration =? 0) ||
     (MaxUint32 <? rr_DestinationSignerSetVersion registration) ||
     negb (canonicalUint256 (rr_ActivatedAtBlock registration) true)
  then false
  else validChainRegistration (rr_SourceChain registration) &&
       validChainRegistration (rr_DestinationChain registration).

Definition sameRouteRegistration (l r : RouteRegistration) : bool :=
  sameRoute (rr_Route l) (rr_Route r) && bool_decide (rr_SourceChain l = rr_SourceChain r) &&
  bool_decide (rr_DestinationChain l = rr_DestinationChain r) &&
  (rr_SourceComponent l =s rr_SourceComponent r) && (rr_DestinationComponent l =s rr_DestinationComponent r) &&
  (rr_ActionFamily l =s rr_ActionFamily r) && (rr_AdapterSetPolicyHash l =s rr_AdapterSetPolicyHash r) &&
  (rr_SourceFinalityPolicyHash l =s rr_SourceFinalityPolicyHash r) &&
  (rr_DestinationFinalityPolicyHash l =s rr_DestinationFinalityPolicyHash r) &&
  (rr_SourceSignerSetHash l =s rr_SourceSignerSetHash r) &&
  (rr_SourceSignerSetVersion l =? rr_SourceSignerSetVersion r) &&
  (rr_DestinationSignerSetHash l =s rr_DestinationSignerSetHash r) &&
  (rr_DestinationSignerSetVersion l =? rr_DestinationSignerSetVersion r) &&
  (rr_ActivatedAtBlock l =s rr_ActivatedAtBlock r).

(** The routes the repository may provision; [NewSQL] configures none. *)
Definition provisioning : Type := gmap string RouteRegistration.

Fixpoint configure (registrations : list RouteRegistration) (configured : provisioning)
    : result sql_error provisioning :=
  match registrations with
  | [] => Ok configured
  | registration :: rest =>
      if negb (validRouteRegistration registration) then Err ErrInvalidSQLRepository
      else
        let key := routeKey (rv_RouteID (rr_Route registration)) (rv_Version (rr_Route registration)) in
        if match configured !! key with
           | Some prior => negb (sameRouteRegistration prior registration) | None => false end
        then Err ErrInvalidSQLRepository
        else configure rest (<[key := registration]> configured)
  end.
Definition newSQLWithProvisioning (registrations : list RouteRegistration)
    : result sql_error provisioning :=
  match registrations with [] => Err ErrInvalidSQLRepository | _ => configure registrations ∅ end.

Definition chain_args (registration : ChainRegistration) : chain_row :=
  mkChainRow (cr_ChainID registration) (i64 (cr_Version registration)) (cr_Coordinator registration)
    (cr_FinalityVerifier registration) (cr_ConfigurationHash registration)
    (cr_ObserverAuthorityHash registration) (cr_ActivatedAtBlock registration) "ACTIVE".

Definition route_args_of (r : RouteRegistration) : route_row :=
  mkRouteRow (rv_RouteID (rr_Route r)) (i64 (rv_Version (rr_Route r))) (cr_ChainID (rr_SourceChain r))
    (i64 (cr_Version (rr_SourceChain r))) (cr_Coordinator (rr_SourceChain r)) (rr_SourceComponent r)
    (cr_ChainID (rr_DestinationChain r)) (i64 (cr_Version (rr_DestinationChain r)))
    (cr_Coordinator (rr_DestinationChain r)) (rr_DestinationComponent r) (rr_ActionFamily r)
    (rr_AdapterSetPolicyHash r) (rr_SourceFinalityPolicyHash r) (rr_DestinationFinalityPolicyHash r)
    (rr_SourceSignerSetHash r) (i64 (rr_SourceSignerSetVersion r)) (rr_DestinationSignerSetHash r)
    (i64 (rr_DestinationSignerSetVersion r)) (rv_PolicyHash (rr_Route r)) (rr_ActivatedAtBlock r) "ACTIVE".

Definition chain_differs (row : chain_row) (r : ChainRegistration) : bool :=
  (cw_chain_id row <>s cr_ChainID r) || negb (cw_version row =? i64 (cr_Version r)) ||
  (cw_coordinator row <>s cr_Coordinator r) || (cw_finality_verifier row <>s cr_FinalityVerifier r) ||
  (cw_configuration_hash row <>s cr_ConfigurationHash r) ||
  (cw_observer_authority_hash row <>s cr_ObserverAuthorityHash r) ||
  (cw_activated_at_block row <>s cr_ActivatedAtBlock r) || (cw_status row <>s "ACTIVE").

(** The comparison of [PutRoute] and of [Route]. *)
Definition route_differs (row : route_row) (r : RouteRegistration) : bool :=
  (rw_route_id row <>s rv_RouteID (rr_Route r)) || negb (rw_version row =? i64 (rv_Version (rr_Route r))) ||
  (rw_source_chain_id row <>s cr_ChainID (rr_SourceChain r)) ||
  negb (rw_source_chain_version row =? i64 (cr_Version (rr_SourceChain r))) ||
  (rw_source_coordinator row <>s cr_Coordinator (rr_SourceChain r)) ||
  (rw_source_component row <>s rr_SourceComponent r) ||
  (rw_destination_chain_id row <>s cr_ChainID (rr_DestinationChain r)) ||
  negb (rw_destination_chain_version row =? i64 (cr_Version (rr_DestinationChain r))) ||
  (rw_destination_coordinator row <>s cr_Coordinator (rr_DestinationChain r)) ||
  (rw_destination_component row <>s rr_DestinationComponent r) ||
  (rw_action_family row <>s rr_ActionFamily r) ||
  (rw_adapter_set_policy_hash row <>s rr_AdapterSetPolicyHash r) ||
  (rw_source_finality_policy_hash row <>s rr_SourceFinalityPolicyHash r) ||
  (rw_destination_finality_policy_hash row <>s rr_DestinationFinalityPolicyHash r) ||
  (rw_source_signer_set_hash row <>s rr_SourceSignerSetHash r) ||
  negb (rw_source_signer_set_version row =? i64 (rr_SourceSignerSetVersion r)) ||
  (rw_destination_signer_set_hash row <>s rr_DestinationSignerSetHash r) ||
  negb (rw_destination_signer_set_version row =? i64 (rr_DestinationSignerSetVersion r)) ||
  (rw_route_policy_hash row <>s rv_PolicyHash (rr_Route r)) ||
  (rw_activated_at_block row <>s rr_ActivatedAtBlock r) || (rw_status row <>s "ACTIVE").

Section Routes.
Context {W : Type} (q : Queryer W) (configured : provisioning).

Definition registerChain (registration : ChainRegistration) (createdAt : Time.t) (w : W)
    : W * result sql_error () :=
  let '(w, row) := register_chain_version q (chain_args registration) (Time.UTC createdAt) w in
  (w, match row with
      | NoRow e => Err (classifyMutationError "register cross-chain chain version" e ImmutableRoute)
      | Row row => if chain_differs row registration then Err ImmutableRoute else Ok ()
      end).

Definition PutRoute (route : RouteVersion) (w : W) : W * result sql_error () :=
  match configured !! routeKey (rv_RouteID route) (rv_Version route) with
  | None => (w, Err ErrInvalidSQLRepository)
  | Some registration =>
      if negb (sameRoute route (rr_Route registration)) then (w, Err ImmutableRoute)
      else
        let '(w, source) := registerChain (rr_SourceChain registration) (rv_ActivatedAt route) w in
        match source with
        | Err e => (w, Err e)
        | Ok _ =>
            let '(w, destination) :=
              registerChain (rr_DestinationChain registration) (rv_ActivatedAt route) w in
            match destination with
            | Err e => (w, Err e)
            | Ok _ =>
                let '(w, row) := register_route_version q (route_args_of registration)
                  (Time.UTC (rv_ActivatedAt (rr_Route registration))) w in
                (w, match row with
                    | NoRow e =>
                        Err (classifyMutationError "register cross-chain route version" e ImmutableRoute)
                    | Row row => if route_differs row registration then Err ImmutableRoute else Ok ()
                    end)
            end
        end
  end.

Definition Route (routeID : string) (version : Z) (w : W) : W * result sql_error RouteVersion :=
  if empty_s routeID || (version =? 0) || (MaxInt64 <? version) then (w, Err NotFound)
  else match configured !! routeKey routeID version with
  | None => (w, Err ErrInvalidSQLRepository)
  | Some registration =>
      let '(w, row) := load_route_version q routeID (i64 version) w in
      (w, match row with
          | NoRow e => if is_no_rows e then Err NotFound else Err (Wrapped "load cross-chain route version" e)
          | Row row => if route_differs row registration then Err ImmutableRoute
                       else Ok (rr_Route registration)
          end)
  end.

Definition Health (w : W) : W * result sql_error () :=
  let '(w, row) := health q w in
  (w, match row with
      | NoRow e => Err (Wrapped "cross-chain repository health" e)
      | Row healthy => if healthy then Ok () else Err ErrInvalidSQLRepository
      end).
End Routes.
