(* ===== verification/SqlDatabase.v ===== *)
(** The database behind the message store: the message tables and the procedures
    [record_message], [transition_message] and [enqueue_message_state_event] of
    [foundation-ledger/migrations/000010_crosschain_messages.sql], the two queries that read
    them, and what a client sees of a database it shares with others over a connection that
    may lose requests and responses. *)
From S2P Require Import Prelude GoStd CrossChainTypes MessageRegistry MessageStore SqlStore SqlEvidence.
From S2P Require Message.

(** * Parameters

    A [timestamptz] column holds microseconds: the driver and the engine keep an instant that
    has no finer part. The engine prints the JSON payload of an event. *)
Class TimestampColumn := {
  stored : Z → Z;
  stored_micro : ∀ ns, stored ns mod 1000 = 0;
  stored_exact : ∀ ns, ns mod 1000 = 0 → stored ns = ns }.
Class EventPayload := event_payload : string → string → Time.t → string → string → Z → string.

Definition column `{TimestampColumn} (t : Time.t) : Time.t := Time.mk (stored (Time.ns t)) "".

(** * Tables *)

(** A row of [crosschain.messages]: the columns of the arguments of [record_message], and the
    three columns that change. *)
Record message_entry := mkEntry {
  me_columns : message_args; me_state : string; me_version : Z; me_updated_at : Time.t }.

Record transition_row := mkTransition {
  tr_from : string; tr_to : string; tr_failure_class : option string; tr_evidence : string;
  tr_occurred_at : Time.t }.

(** [t_facts state message evidence] says that the row which a transition to [state] requires
    (trusted finality evidence, an execution result, an acknowledgement, ...) is there. *)
Record Tables := mkTables {
  t_messages : gmap string message_entry;
  t_transitions : gmap (string * Z) transition_row;
  t_outbox : gmap (string * Z) outbox_row;
  t_routes : list route_row;
  t_facts : string → string → string → bool }.

Definition no_facts : string → string → string → bool := λ _ _ _, false.
Definition empty_tables : Tables := mkTables ∅ ∅ ∅ [] no_facts.

Definition message_result (id : string) (m : message_entry) : message_row :=
  mkMessageRow id (ma_serialized_envelope (me_columns m)) (me_state m) (me_version m) (me_updated_at m).

(** * Procedures

    A procedure that raises an exception changes nothing; [Err] carries the text. *)
Section Procedures.
Context `{TimestampColumn, EventPayload, Sha256}.

Definition event_id (id : string) (version : Z) : string :=
  "crosschain.message-state.v1:" +:+ hex id +:+ ":" +:+ Big.to_string version.

Definition event_row (id : string) (version : Z) (payload : string) (at_ : Time.t) : outbox_row :=
  mkOutboxRow (event_id id version) id version "unified.crosschain.message-state.v1" (hex id) payload
    (sha256 payload) "PENDING" 0 None None at_ None None.

(** The comparison of a replayed event with the one that is there. *)
Definition event_differs (row event : outbox_row) : bool :=
  (ow_outbox_id row <>s ow_outbox_id event) || (ow_topic row <>s ow_topic event) ||
  (ow_partition_key row <>s ow_partition_key event) || (ow_payload row <>s ow_payload event) ||
  (ow_payload_hash row <>s ow_payload_hash event) ||
  negb (Time.Equal (ow_created_at row) (ow_created_at event)).

Definition enqueue_message_state_event (id : string) (version : Z) (state evidence : string)
    (at_ : Time.t) (envelope : string) (outbox : gmap (string * Z) outbox_row)
    : result string (gmap (string * Z) outbox_row) :=
  if negb (is32 id) || (version <=? 0) || empty_s state || negb (is32 evidence)
  then Err "invalid message state outbox event"%string
  else
    let event := event_row id version (event_payload evidence id at_ envelope state version) at_ in
    match outbox !! (id, version) with
    | None => Ok (<[(id, version) := event]> outbox)
    | Some row =>
        if event_differs row event then Err "conflicting message state outbox replay"%string else Ok outbox
    end.

Definition route_matches (a : route_args) (route : route_row) : bool :=
  (rw_route_policy_hash route =s oa_route_policy_hash a) && (rw_status route =s "ACTIVE") &&
  (number (rw_source_chain_id route) =? number (oa_source_chain_id a)) &&
  (rw_source_coordinator route =s oa_source_coordinator a) &&
  (rw_source_component route =s oa_source_component a) &&
  (number (rw_destination_chain_id route) =? number (oa_destination_chain_id a)) &&
  (rw_destination_coordinator route =s oa_destination_coordinator a) &&
  (rw_destination_component route =s oa_destination_component a) &&
  (rw_adapter_set_policy_hash route =s oa_adapter_set_policy_hash a) &&
  (rw_source_finality_policy_hash route =s oa_source_finality_policy_hash a) &&
  (rw_destination_finality_policy_hash route =s oa_destination_finality_policy_hash a).

Definition message_route (a : message_args) : route_args :=
  mkRouteArgs (ma_route_policy_hash a) (ma_source_chain_id a) (ma_source_coordinator a)
    (ma_source_component a) (ma_destination_chain_id a) (ma_destination_coordinator a)
    (ma_destination_component a) (ma_adapter_set_policy_hash a) (ma_source_finality_policy_hash a)
    (ma_destination_finality_policy_hash a).

(** The CHECK constraints of the table. *)
Definition message_checks (a : message_args) : bool :=
  is32 (ma_message_id a) && (0 <? ma_schema_version a) && is32 (ma_protocol_id a) &&
  (String.length (ma_source_coordinator a) =? 20)%nat && (String.length (ma_source_component a) =? 20)%nat &&
  (String.length (ma_destination_coordinator a) =? 20)%nat &&
  (String.length (ma_destination_component a) =? 20)%nat && is32 (ma_lane_id a) &&
  (0 <? number (ma_source_nonce a)) && (number (ma_source_nonce a) <=? MaxUint64) &&
  is32 (ma_aggregate_id a) && (1 <=? ma_action_type a) && (ma_action_type a <=? 16) &&
  is32 (ma_payload_hash a) && is32 (ma_adapter_set_policy_hash a) &&
  is32 (ma_source_finality_policy_hash a) && is32 (ma_destination_finality_policy_hash a) &&
  is32 (ma_correlation_id a) && is32 (ma_causation_message_id a) && is32 (ma_superseded_message_id a) &&
  negb (String.length (ma_serialized_envelope a) =? 0)%nat &&
  negb (number (ma_source_chain_id a) =? number (ma_destination_chain_id a)) &&
  (stored (Time.ns (ma_message_created_at a)) <? stored (Time.ns (ma_expires_at a))) &&
  ((ma_causation_message_id a =s zero32) || (ma_causation_message_id a <>s ma_message_id a)) &&
  ((ma_superseded_message_id a =s zero32) || (ma_superseded_message_id a <>s ma_message_id a)).

(** The two UNIQUE constraints on a lane and a nonce. *)
Definition same_nonce (a b : message_args) : bool :=
  (ma_lane_id a =s ma_lane_id b) && (number (ma_source_nonce a) =? number (ma_source_nonce b)) &&
  (((number (ma_source_chain_id a) =? number (ma_source_chain_id b)) &&
    (ma_source_coordinator a =s ma_source_coordinator b)) ||
   ((number (ma_destination_chain_id a) =? number (ma_destination_chain_id b)) &&
    (ma_destination_coordinator a =s ma_destination_coordinator b))).

Definition db_record_message (a : message_args) (t : Tables) : result string (Tables * message_row) :=
  let id := ma_message_id a in
  if negb (existsb (route_matches (message_route a)) (t_routes t))
  then Err "message does not match its pinned active route version"%string
  else if negb (message_checks a) then Err "new row violates check constraint"%string
  else match t_messages t !! id with
  | Some m =>
      let c := me_columns m in
      if (ma_serialized_envelope c <>s ma_serialized_envelope a) || (ma_lane_id c <>s ma_lane_id a) ||
         negb (number (ma_source_nonce c) =? number (ma_source_nonce a)) ||
         (ma_route_policy_hash c <>s ma_route_policy_hash a)
      then Err "message identity conflict"%string else Ok (t, message_result id m)
  | None =>
      if existsb (λ '(_, m), same_nonce a (me_columns m)) (map_to_list (t_messages t))
      then Err "duplicate key value violates unique constraint"%string
      else match t_transitions t !! (id, 1) with
      | Some _ => Err "duplicate key value violates unique constraint"%string
      | None =>
          let at_ := column (ma_updated_at a) in
          let m := mkEntry a "CREATED" 1 at_ in
          let? outbox := enqueue_message_state_event id 1 "CREATED" (ma_payload_hash a) at_
            (ma_serialized_envelope a) (t_outbox t) in
          Ok (mkTables (<[id := m]> (t_messages t))
                (<[(id, 1) := mkTransition "CREATED" "CREATED" None (ma_payload_hash a) at_]> (t_transitions t))
                outbox (t_routes t) (t_facts t),
              message_result id m)
      end
  end.

(** [allowed] of [transition_message]: a boolean of SQL, where [None] is NULL. The only NULL
    comes from a comparison with a missing failure class. *)
Definition one_of (state : string) (states : list string) : bool := existsb (String.eqb state) states.
Definition sql_allowed (from to : string) (failure : option string) : option bool :=
  if from =s "CREATED" then Some (to =s "SOURCE_FINALIZING")
  else if from =s "SOURCE_FINALIZING" then Some (one_of to ["SOURCE_FINAL"; "EXPIRED"; "DISPUTED"]%string)
  else if from =s "SOURCE_FINAL" then Some (one_of to ["SENT"; "DISPUTED"]%string)
  else if from =s "SENT" then
    Some (one_of to ["RELAYED"; "FAILED"; "REJECTED"; "EXPIRED"; "DISPUTED"]%string)
  else if from =s "RELAYED" then
    Some (one_of to ["VERIFIED"; "FAILED"; "REJECTED"; "EXPIRED"; "DISPUTED"]%string)
  else if from =s "VERIFIED" then Some (one_of to ["EXECUTED"; "FAILED"; "REJECTED"; "DISPUTED"]%string)
  else if from =s "EXECUTED" then Some (one_of to ["ACK_PENDING"; "DISPUTED"]%string)
  else if from =s "ACK_PENDING" then Some (one_of to ["ACKNOWLEDGED"; "DISPUTED"]%string)
  else if from =s "REJECTED" then Some (one_of to ["RECOVERY_PENDING"; "DISPUTED"]%string)
  else if from =s "FAILED" then
    if one_of to ["RECOVERY_PENDING"; "DISPUTED"]%string then Some true
    else if to =s "SENT" then
      match failure with
      | None => None
      | Some class => Some (one_of class ["RETRYABLE_TRANSPORT"; "RETRYABLE_TARGET"]%string)
      end
    else Some false
  else if from =s "EXPIRED" then Some (one_of to ["RECOVERY_PENDING"; "DISPUTED"]%string)
  else if from =s "RECOVERY_PENDING" then Some (one_of to ["DESTINATION_TOMBSTONED"; "DISPUTED"]%string)
  else if from =s "DESTINATION_TOMBSTONED" then Some (one_of to ["SOURCE_COMPENSATED"; "DISPUTED"]%string)
  else if from =s "SOURCE_COMPENSATED" then Some (one_of to ["RECOVERED"; "DISPUTED"]%string)
  else if from =s "ACKNOWLEDGED" then Some (to =s "DISPUTED")
  else if from =s "RECOVERED" then Some (to =s "DISPUTED")
  else Some false.

(** [IF NOT allowed THEN RAISE]: NULL does not raise. *)
Definition passes (allowed : option bool) : bool :=
  match allowed with Some false => false | _ => true end.

Definition guarded_states : list string :=
  ["SOURCE_FINAL"; "VERIFIED"; "EXECUTED"; "ACKNOWLEDGED"; "RECOVERY_PENDING"; "DESTINATION_TOMBSTONED";
   "SOURCE_COMPENSATED"; "RECOVERED"; "DISPUTED"]%string.

Definition replay_differs (existing : transition_row) (a : transition_args) : bool :=
  (tr_from existing <>s ta_expected_state a) || (tr_to existing <>s ta_next_state a) ||
  negb (bool_decide (tr_failure_class existing = ta_failure_class a)) ||
  (tr_evidence existing <>s ta_evidence_hash a) ||
  negb (Time.Equal (tr_occurred_at existing) (column (ta_occurred_at a))).

Definition db_transition_message (a : transition_args) (t : Tables) : result string (Tables * message_row) :=
  let id := ta_message_id a in
  let next_version := ta_expected_version a + 1 in
  let at_ := column (ta_occurred_at a) in
  if MaxInt64 <? next_version then Err "bigint out of range"%string
  else match t_transitions t !! (id, next_version) with
  | Some existing =>
      if replay_differs existing a then Err "conflicting message transition replay"%string
      else match t_messages t !! id with
      | Some m => Ok (t, message_result id m)
      | None => Err "converting NULL to string is unsupported"%string
      end
  | None =>
      if negb (passes (sql_allowed (ta_expected_state a) (ta_next_state a) (ta_failure_class a)))
      then Err "invalid message state transition"%string
      else if one_of (ta_next_state a) guarded_states && negb (t_facts t (ta_next_state a) id (ta_evidence_hash a))
      then Err "transition requires its exact authoritative evidence"%string
      else match t_messages t !! id with
      | None => Err "message compare-and-set conflict"%string
      | Some m =>
          if negb (me_version m =? ta_expected_version a) || (me_state m <>s ta_expected_state a) ||
             Time.Before at_ (me_updated_at m)
          then Err "message compare-and-set conflict"%string
          else
            let m := mkEntry (me_columns m) (ta_next_state a) next_version at_ in
            let? outbox := enqueue_message_state_event id next_version (ta_next_state a)
              (ta_evidence_hash a) at_ (ma_serialized_envelope (me_columns m)) (t_outbox t) in
            Ok (mkTables (<[id := m]> (t_messages t))
                  (<[(id, next_version) := mkTransition (ta_expected_state a) (ta_next_state a)
                     (ta_failure_class a) (ta_evidence_hash a) at_]> (t_transitions t))
                  outbox (t_routes t) (t_facts t),
                message_result id m)
      end
  end.

(** * Queries *)

Definition db_load_message (id : string) (t : Tables) : result string (Tables * snapshot_row) :=
  match t_messages t !! id with
  | None => Err "sql: no rows in result set"%string
  | Some m =>
      match t_transitions t !! (id, me_version m) with
      | None => Err "sql: no rows in result set"%string
      | Some tr => Ok (t, mkSnapshotRow id (ma_serialized_envelope (me_columns m)) (me_state m)
          (me_version m) (tr_evidence tr) (me_updated_at m) (tr_occurred_at tr) (tr_failure_class tr))
      end
  end.

Definition db_load_creation_transition (id : string) (t : Tables) : result string (Tables * (string * Time.t)) :=
  match t_transitions t !! (id, 1) with
  | Some tr =>
      if (tr_from tr =s "CREATED") && (tr_to tr =s "CREATED") then Ok (t, (tr_evidence tr, tr_occurred_at tr))
      else Err "sql: no rows in result set"%string
  | None => Err "sql: no rows in result set"%string
  end.

Definition db_verify_envelope_route (a : route_args) (t : Tables) : result string (Tables * bool) :=
  Ok (t, existsb (route_matches a) (t_routes t)).
End Procedures.

(** * A shared database

    The tables move by the procedures, whoever calls them and with whatever arguments:
    stores of this or another process, the importer of the local worker, which records
    messages with other bytes than a store does, or any other client. The publishers of the
    outbox change the delivery columns of an event; the other tables change freely. *)
Section Shared.
Context `{TimestampColumn, EventPayload, Sha256}.

Definition same_event (row row' : outbox_row) : Prop :=
  ow_outbox_id row = ow_outbox_id row' ∧ ow_message_id row = ow_message_id row' ∧
  ow_state_version row = ow_state_version row' ∧ ow_topic row = ow_topic row' ∧
  ow_partition_key row = ow_partition_key row' ∧ ow_payload row = ow_payload row' ∧
  ow_payload_hash row = ow_payload_hash row' ∧ ow_created_at row = ow_created_at row'.

Inductive db_step (t : Tables) : Tables → Prop :=
| step_record a t' row : db_record_message a t = Ok (t', row) → db_step t t'
| step_transition a t' row : db_transition_message a t = Ok (t', row) → db_step t t'
| step_publish outbox :
    (∀ k, option_Forall2 same_event (t_outbox t !! k) (outbox !! k)) →
    db_step t (mkTables (t_messages t) (t_transitions t) outbox (t_routes t) (t_facts t))
| step_other routes facts :
    db_step t (mkTables (t_messages t) (t_transitions t) (t_outbox t) routes facts).

(** What one statement does: others may have moved the tables before it; then it did not
    reach the database or raised, and nothing is answered, or it took effect, and its answer
    arrives or is lost. *)
Definition performs {A} (proc : Tables → result string (Tables * A)) (t t' : Tables) (a : answer A) : Prop :=
  ∃ t0, rtc db_step t t0 ∧
    ((t' = t0 ∧ ∃ e, a = NoRow e) ∨
     (∃ r, proc t0 = Ok (t', r) ∧ (a = Row r ∨ ∃ e, a = NoRow e))).

(** A queryer whose statements on messages are those of the migration. *)
Record Follows {W} (q : Queryer W) (tables : W → Tables) : Prop := {
  follows_record : ∀ a w w' r, record_message q a w = (w', r) →
    performs (db_record_message a) (tables w) (tables w') r;
  follows_transition : ∀ a w w' r, transition_message q a w = (w', r) →
    performs (db_transition_message a) (tables w) (tables w') r;
  follows_load : ∀ id w w' r, load_message q id w = (w', r) →
    performs (db_load_message id) (tables w) (tables w') r;
  follows_creation : ∀ id w w' r, load_creation_transition q id w = (w', r) →
    performs (db_load_creation_transition id) (tables w) (tables w') r;
  follows_route : ∀ a w w' r, verify_envelope_route q a w = (w', r) →
    performs (db_verify_envelope_route a) (tables w) (tables w') r }.

(** * The abstract store *)

Definition entry_record (t : Tables) (id : string) (m : message_entry) : MessageRecord :=
  mkMessageRecord id (ma_serialized_envelope (me_columns m)) (default 0 (stateFromDatabase (me_state m)))
    (me_version m)
    (match t_transitions t !! (id, me_version m) with Some tr => tr_evidence tr | None => zero32 end)
    (Time.UTC (me_updated_at m)).

(** The memory store with the messages of the tables. *)
Definition abstract (t : Tables) : Memory :=
  mkMemory ∅ (map_imap (λ id m, Some (entry_record t id m)) (t_messages t)).

Lemma abstract_lookup t id : messages (abstract t) !! id = entry_record t id <$> t_messages t !! id.
Proof. unfold abstract. cbn [messages]. rewrite map_lookup_imap. by destruct (t_messages t !! id). Qed.
End Shared.
