(* ===== verification/SqlHistory.v ===== *)
(** What the procedures keep of the message tables: every message has the complete history
    of its transitions, each continuing the one before, and one event per transition; a
    transition once recorded stays. *)
From S2P Require Import Prelude GoStd CrossChainTypes MessageRegistry MessageStore SqlStore SqlEvidence SqlDatabase.
From S2P Require Message.

Section History.
Context `{TimestampColumn, EventPayload, Sha256}.

(** * The invariant *)

(** [b] continues [a]. *)
Definition continues (a b : transition_row) : Prop :=
  tr_from b = tr_to a ∧ passes (sql_allowed (tr_from b) (tr_to b) (tr_failure_class b)) = true ∧
  Time.ns (tr_occurred_at a) <= Time.ns (tr_occurred_at b).

Definition event_of (id envelope : string) (v : Z) (tr : transition_row) : outbox_row :=
  event_row id v (event_payload (tr_evidence tr) id (tr_occurred_at tr) envelope (tr_to tr) v)
    (tr_occurred_at tr).

Record entry_ok (t : Tables) (id : string) (m : message_entry) : Prop := {
  entry_length : is32 id = true;
  entry_columns : ma_message_id (me_columns m) = id;
  entry_version : 1 <= me_version m <= MaxInt64;
  entry_micro : Time.ns (me_updated_at m) mod 1000 = 0;
  entry_first : t_transitions t !! (id, 1) = Some (mkTransition "CREATED" "CREATED" None
    (ma_payload_hash (me_columns m)) (column (ma_updated_at (me_columns m))));
  entry_last : ∃ tr, t_transitions t !! (id, me_version m) = Some tr ∧ tr_to tr = me_state m ∧
    tr_occurred_at tr = me_updated_at m ∧ is32 (tr_evidence tr) = true;
  entry_chain : ∀ v, 1 <= v < me_version m → ∃ a b, t_transitions t !! (id, v) = Some a ∧
    t_transitions t !! (id, v + 1) = Some b ∧ continues a b;
  entry_events : ∀ v tr, t_transitions t !! (id, v) = Some tr → ∃ o, t_outbox t !! (id, v) = Some o ∧
    same_event o (event_of id (ma_serialized_envelope (me_columns m)) v tr) }.

Record db_inv (t : Tables) : Prop := {
  inv_entry : ∀ id m, t_messages t !! id = Some m → entry_ok t id m;
  inv_keys : ∀ id v tr, t_transitions t !! (id, v) = Some tr →
    ∃ m, t_messages t !! id = Some m ∧ 1 <= v <= me_version m;
  inv_outbox : ∀ k, is_Some (t_outbox t !! k) → is_Some (t_transitions t !! k) }.

Lemma same_event_refl o : same_event o o.
Proof. done. Qed.
Lemma same_event_trans a b c : same_event a b → same_event b c → same_event a c.
Proof. unfold same_event. naive_solver congruence. Qed.
Lemma same_event_sym a b : same_event a b → same_event b a.
Proof. unfold same_event. naive_solver congruence. Qed.

Lemma inv_empty : db_inv empty_tables.
Proof.
  split; [intros id m Hm|intros id v tr Ht|intros k [o Ho]]; exfalso; cbn in *;
    [by rewrite lookup_empty in Hm|by rewrite lookup_empty in Ht|by rewrite lookup_empty in Ho].
Qed.

(** * One transition more *)

(** The tables after a transition [tr] to version [v] of the message [id], now [m]. *)
Definition advanced_tables (t : Tables) (id : string) (v : Z) (m : message_entry) (tr : transition_row) : Tables :=
  mkTables (<[id := m]> (t_messages t)) (<[(id, v) := tr]> (t_transitions t))
    (<[(id, v) := event_of id (ma_serialized_envelope (me_columns m)) v tr]> (t_outbox t))
    (t_routes t) (t_facts t).

Definition first_of (t : Tables) (id : string) (v : Z) (m : message_entry) (tr : transition_row) : Prop :=
  v = 1 ∧ t_messages t !! id = None ∧ is32 id = true ∧
  ma_message_id (me_columns m) = id ∧
  tr = mkTransition "CREATED" "CREATED" None (ma_payload_hash (me_columns m))
         (column (ma_updated_at (me_columns m))).

Definition next_of (t : Tables) (id : string) (v : Z) (m : message_entry) (tr : transition_row) : Prop :=
  ∃ m0, t_messages t !! id = Some m0 ∧ v = me_version m0 + 1 ∧ v <= MaxInt64 ∧
    me_columns m = me_columns m0 ∧ tr_from tr = me_state m0 ∧
    passes (sql_allowed (tr_from tr) (tr_to tr) (tr_failure_class tr)) = true ∧
    Time.ns (me_updated_at m0) <= Time.ns (tr_occurred_at tr).

Record advances (t : Tables) (id : string) (v : Z) (m : message_entry) (tr : transition_row) : Prop := {
  adv_fresh : t_transitions t !! (id, v) = None;
  adv_version : me_version m = v;
  adv_state : tr_to tr = me_state m;
  adv_time : tr_occurred_at tr = me_updated_at m;
  adv_micro : Time.ns (me_updated_at m) mod 1000 = 0;
  adv_evidence : is32 (tr_evidence tr) = true;
  adv_case : first_of t id v m tr ∨ next_of t id v m tr }.

Lemma advanced_other t id v m tr id' v' :
  id' ≠ id → t_transitions (advanced_tables t id v m tr) !! (id', v') = t_transitions t !! (id', v').
Proof. intros Hne. cbn. apply lookup_insert_ne. congruence. Qed.

Lemma advanced_old t id v m tr v' :
  v' ≠ v → t_transitions (advanced_tables t id v m tr) !! (id, v') = t_transitions t !! (id, v').
Proof. intros Hne. cbn. apply lookup_insert_ne. congruence. Qed.

Lemma advanced_new t id v m tr : t_transitions (advanced_tables t id v m tr) !! (id, v) = Some tr.
Proof. apply lookup_insert_eq. Qed.

Lemma entry_ok_other t id v m tr id' m' :
  entry_ok t id' m' → id' ≠ id → entry_ok (advanced_tables t id v m tr) id' m'.
Proof.
  intros [Hl Hc Hv Hmi Hf Hla Hch He] Hne. split; try done.
  - by rewrite advanced_other.
  - by rewrite advanced_other.
  - intros v' Hv'. rewrite !advanced_other by done. by apply Hch.
  - intros v' tr' Htr'. rewrite advanced_other in Htr' by done. cbn [advanced_tables t_outbox].
    rewrite lookup_insert_ne by congruence. by apply He.
Qed.

Lemma events_advance t id v m tr m0 :
  entry_ok t id m0 → me_columns m = me_columns m0 →
  ∀ v' tr', t_transitions (advanced_tables t id v m tr) !! (id, v') = Some tr' →
    ∃ o, t_outbox (advanced_tables t id v m tr) !! (id, v') = Some o ∧
      same_event o (event_of id (ma_serialized_envelope (me_columns m)) v' tr').
Proof.
  intros Hok Hc v' tr' Htr'. cbn [advanced_tables t_transitions t_outbox] in *.
  destruct (decide (v' = v)) as [->|Hne].
  - rewrite lookup_insert_eq in Htr'. apply (inj Some) in Htr' as <-. rewrite lookup_insert_eq.
    eexists. split; [done|apply same_event_refl].
  - rewrite lookup_insert_ne in Htr' by congruence. rewrite lookup_insert_ne by congruence. rewrite Hc. by apply (entry_events _ _ _ Hok).
Qed.

Lemma entry_ok_next t id v m tr :
  db_inv t → advances t id v m tr → next_of t id v m tr → entry_ok (advanced_tables t id v m tr) id m.
Proof.
  intros Hinv [Hfresh Hver Hst Htime Hmi Hev _] (m0&Hm0&Hv&Hmax&Hc&Hfrom&Hp&Hle).
  pose proof (inv_entry _ Hinv _ _ Hm0) as Hok. pose proof Hok as [Hl Hcol Hvr _ Hf (tr0&Htr0&Hto0&Hoc0&_) Hch He].
  split; try done.
  - by rewrite Hc.
  - lia.
  - rewrite advanced_old by lia. by rewrite Hc.
  - rewrite Hver. exists tr. by rewrite advanced_new.
  - intros v' Hv'. destruct (decide (v' = me_version m0)) as [->|Hne].
    + exists tr0, tr. rewrite advanced_old by lia. rewrite <- Hv, advanced_new. repeat split; try done; [congruence|].
      by rewrite Hoc0.
    + rewrite !advanced_old by lia. apply Hch. lia.
  - by eapply events_advance.
Qed.

Lemma entry_ok_first t id v m tr :
  db_inv t → advances t id v m tr → first_of t id v m tr → entry_ok (advanced_tables t id v m tr) id m.
Proof.
  intros Hinv [Hfresh Hver Hst Htime Hmi Hev _] (->&Hnone&Hl&Hc&Htr). split; try done.
  - rewrite Hver. done.
  - rewrite advanced_new. by rewrite Htr.
  - rewrite Hver. exists tr. by rewrite advanced_new.
  - intros v' Hv'. lia.
  - intros v' tr' Htr'. cbn [advanced_tables t_transitions t_outbox] in *. destruct (decide (v' = 1)) as [->|Hne].
    + rewrite lookup_insert_eq in Htr'. apply (inj Some) in Htr' as <-. rewrite lookup_insert_eq.
      eexists. split; [done|apply same_event_refl].
    + rewrite lookup_insert_ne in Htr' by congruence.
      destruct (inv_keys _ Hinv _ _ _ Htr') as (m'&Hm'&_). congruence.
Qed.

Lemma inv_advance t id v m tr : db_inv t → advances t id v m tr → db_inv (advanced_tables t id v m tr).
Proof.
  intros Hinv Hadv. split.
  - intros id' m' Hm'. destruct (decide (id' = id)) as [->|Hne].
    + cbn in Hm'. rewrite lookup_insert_eq in Hm'. apply (inj Some) in Hm' as <-.
      destruct (adv_case _ _ _ _ _ Hadv); [by apply entry_ok_first|by apply entry_ok_next].
    + cbn in Hm'. rewrite lookup_insert_ne in Hm' by done.
      apply entry_ok_other; [|done]. by apply (inv_entry _ Hinv).
  - intros id' v' tr' Htr'. cbn [advanced_tables t_transitions t_messages] in *.
    destruct (decide ((id', v') = (id, v))) as [[= -> ->]|Hne].
    + exists m. rewrite lookup_insert_eq. split; [done|]. destruct Hadv as [? Hv ? ? ? ? [(->&_)|(m0&Hm0&->&_)]]; [lia|].
      pose proof (entry_version _ _ _ (inv_entry _ Hinv _ _ Hm0)). lia.
    + rewrite lookup_insert_ne in Htr' by congruence. destruct (inv_keys _ Hinv _ _ _ Htr') as (m'&Hm'&Hv').
      destruct (decide (id' = id)) as [->|Hni]; [|exists m'; by rewrite lookup_insert_ne].
      exists m. rewrite lookup_insert_eq. split; [done|].
      destruct Hadv as [? Hv ? ? ? ? [(_&Hn&_)|(m0&Hm0&->&_)]]; [congruence|].
      rewrite Hm0 in Hm'. apply (inj Some) in Hm' as <-. lia.
  - intros k. cbn. destruct (decide (k = (id, v))) as [->|Hne]; [by rewrite !lookup_insert_eq|].
    rewrite !lookup_insert_ne by done. apply (inv_outbox _ Hinv).
Qed.

(** * The procedures *)

Lemma outbox_fresh t id v : db_inv t → t_transitions t !! (id, v) = None → t_outbox t !! (id, v) = None.
Proof.
  intros Hinv Hn. destruct (t_outbox t !! (id, v)) as [o|] eqn:Ho; [|done].
  destruct (inv_outbox _ Hinv (id, v)) as [tr Htr]; [by rewrite Ho|congruence].
Qed.

Lemma enqueue_Ok id v state evidence at_ envelope outbox outbox' :
  outbox !! (id, v) = None →
  enqueue_message_state_event id v state evidence at_ envelope outbox = Ok outbox' →
  is32 id = true ∧ is32 evidence = true ∧
  outbox' = <[(id, v) := event_row id v (event_payload evidence id at_ envelope state v) at_]> outbox.
Proof.
  unfold enqueue_message_state_event. intros ->. pass_if Hg. intros <-%Ok_inj. by bool_facts.
Qed.

(** The entry and the transition a transition request adds to the message [m0]. *)
Definition next_entry (a : transition_args) (m0 : message_entry) : message_entry :=
  mkEntry (me_columns m0) (ta_next_state a) (ta_expected_version a + 1) (column (ta_occurred_at a)).
Definition next_transition (a : transition_args) : transition_row :=
  mkTransition (ta_expected_state a) (ta_next_state a) (ta_failure_class a) (ta_evidence_hash a)
    (column (ta_occurred_at a)).

(** A transition request is a replay of the transition that is there, or moves the message. *)
Inductive transition_outcome (a : transition_args) (t : Tables) : Tables → message_row → Prop :=
| transition_replayed existing m :
    t_transitions t !! (ta_message_id a, ta_expected_version a + 1) = Some existing →
    replay_differs existing a = false → t_messages t !! ta_message_id a = Some m →
    transition_outcome a t t (message_result (ta_message_id a) m)
| transition_made m0 :
    t_messages t !! ta_message_id a = Some m0 → me_version m0 = ta_expected_version a →
    me_state m0 = ta_expected_state a → Time.Before (column (ta_occurred_at a)) (me_updated_at m0) = false →
    advances t (ta_message_id a) (ta_expected_version a + 1) (next_entry a m0) (next_transition a) →
    transition_outcome a t
      (advanced_tables t (ta_message_id a) (ta_expected_version a + 1) (next_entry a m0) (next_transition a))
      (message_result (ta_message_id a) (next_entry a m0)).

Lemma db_transition_cases a t t' row :
  db_inv t → db_transition_message a t = Ok (t', row) → transition_outcome a t t' row.
Proof.
  intros Hinv. unfold db_transition_message. pass_if Hmax.
  destruct (t_transitions t !! _) as [existing|] eqn:He.
  { pass_if Hr. destruct (t_messages t !! ta_message_id a) as [m|] eqn:Hm; [|done].
    intros [= <- <-]. by econstructor. }
  pass_if Hp. pass_if Hfact. destruct (t_messages t !! ta_message_id a) as [m0|] eqn:Hm; [|done]. pass_if Hcas.
  destruct (enqueue_message_state_event _ _ _ _ _ _ _) as [outbox|] eqn:Hen; [|done]. intros [= <- <-].
  bool_facts. apply enqueue_Ok in Hen as (Hl&Hev&->); [|by apply outbox_fresh]. cbn [me_columns] in *.
  apply (transition_made a t m0); try done. split; try done; [apply stored_micro|]. right. exists m0.
  cbn [next_entry next_transition me_columns me_version me_state tr_from tr_to tr_failure_class tr_occurred_at].
  split_and!; try done; try congruence; lia || by apply Z.ltb_ge.
Qed.

(** A creation request finds its message, or makes it. *)
Definition first_entry (a : message_args) : message_entry := mkEntry a "CREATED" 1 (column (ma_updated_at a)).
Definition first_transition (a : message_args) : transition_row :=
  mkTransition "CREATED" "CREATED" None (ma_payload_hash a) (column (ma_updated_at a)).

Inductive record_outcome (a : message_args) (t : Tables) : Tables → message_row → Prop :=
| record_found m :
    t_messages t !! ma_message_id a = Some m →
    ma_serialized_envelope (me_columns m) = ma_serialized_envelope a →
    record_outcome a t t (message_result (ma_message_id a) m)
| record_made :
    advances t (ma_message_id a) 1 (first_entry a) (first_transition a) →
    t_messages t !! ma_message_id a = None →
    record_outcome a t (advanced_tables t (ma_message_id a) 1 (first_entry a) (first_transition a))
      (message_result (ma_message_id a) (first_entry a)).

Lemma record_cases a t t' row :
  db_inv t → db_record_message a t = Ok (t', row) → record_outcome a t t' row.
Proof.
  intros Hinv. unfold db_record_message. pass_if Hroute. pass_if Hchecks.
  destruct (t_messages t !! _) as [m|] eqn:Hm.
  { pass_if Hd. intros [= <- <-]. bool_facts. by econstructor. }
  pass_if Hu. destruct (t_transitions t !! _) as [x|] eqn:Hx; [done|].
  destruct (enqueue_message_state_event _ _ _ _ _ _ _) as [outbox|] eqn:Hen; [|done]. intros [= <- <-].
  apply enqueue_Ok in Hen as (Hl&Hev&->); [|by apply outbox_fresh].
  apply (record_made a t); [|done]. split; try done; [apply stored_micro|].
  left. unfold first_of. by split_and!.
Qed.

(** * Steps *)

Lemma publish_lookup (o o' : gmap (string * Z) outbox_row) k :
  (∀ k, option_Forall2 same_event (o !! k) (o' !! k)) →
  (∀ x, o !! k = Some x → ∃ y, o' !! k = Some y ∧ same_event x y) ∧ (is_Some (o' !! k) → is_Some (o !! k)).
Proof.
  intros Hp. specialize (Hp k). split.
  - intros x Hx. rewrite Hx in Hp. inversion Hp as [? y Hxy|]; subst. by exists y.
  - intros [y Hy]. rewrite Hy in Hp. inversion Hp; subst. by eexists.
Qed.

Lemma db_step_inv t t' : db_step t t' → db_inv t → db_inv t'.
Proof.
  intros Hs Hinv. destruct Hs as [a t' row Hp|a t' row Hp|outbox Ho|routes facts].
  - destruct (record_cases _ _ _ _ Hinv Hp); [done|by apply inv_advance].
  - destruct (db_transition_cases _ _ _ _ Hinv Hp); [done|by apply inv_advance].
  - destruct Hinv as [He Hk Hob]. split; [|done|].
    + intros id m Hm. destruct (He id m Hm) as [Hl Hc Hv Hmi Hf Hla Hch Hev]. split; try done.
      intros v tr Htr. destruct (Hev v tr Htr) as (o&Hoo&Hs). destruct (publish_lookup _ _ (id, v) Ho) as [Hl1 _].
      destruct (Hl1 o Hoo) as (o'&Ho'&Hs'). exists o'. split; [done|].
      eapply same_event_trans; [by apply same_event_sym|done].
    + intros k Hk'. apply Hob. by apply (publish_lookup _ _ k Ho).
  - destruct Hinv as [He Hk Hob]. split; [|done..]. intros id m Hm. by destruct (He id m Hm).
Qed.

Lemma steps_inv t t' : rtc db_step t t' → db_inv t → db_inv t'.
Proof. induction 1; eauto using db_step_inv. Qed.

(** What is recorded stays: transitions as they are, messages with their columns and at least
    their version. *)
Record extends (t t' : Tables) : Prop := {
  ext_transitions : t_transitions t ⊆ t_transitions t';
  ext_messages : ∀ id m, t_messages t !! id = Some m → ∃ m', t_messages t' !! id = Some m' ∧
    me_columns m' = me_columns m ∧ me_version m <= me_version m' }.

Lemma extends_refl t : extends t t.
Proof. split; [done|]. intros id m Hm. by exists m. Qed.

Lemma extends_advance t id v m tr : advances t id v m tr → extends t (advanced_tables t id v m tr).
Proof.
  intros Hadv. split.
  - cbn. apply insert_subseteq. apply (adv_fresh _ _ _ _ _ Hadv).
  - intros id' m' Hm'. cbn. destruct (decide (id' = id)) as [->|Hne]; [|exists m'; by rewrite lookup_insert_ne].
    exists m. rewrite lookup_insert_eq. split; [done|].
    destruct Hadv as [? Hv ? ? ? ? [(_&Hn&_)|(m0&Hm0&->&_&Hc&_)]]; [congruence|].
    rewrite Hm0 in Hm'. apply (inj Some) in Hm' as <-. split; [done|lia].
Qed.

Lemma step_extends t t' : db_inv t → db_step t t' → extends t t'.
Proof.
  intros Hinv Hs. destruct Hs as [a t' row Hp|a t' row Hp|outbox Ho|routes facts].
  - destruct (record_cases _ _ _ _ Hinv Hp); [apply extends_refl|by apply extends_advance].
  - destruct (db_transition_cases _ _ _ _ Hinv Hp); [apply extends_refl|by apply extends_advance].
  - split; [done|]. intros id m Hm. by exists m.
  - split; [done|]. intros id m Hm. by exists m.
Qed.

Lemma steps_extends t t' : db_inv t → rtc db_step t t' → extends t t'.
Proof.
  intros Hinv Hs. induction Hs as [t|t t1 t' Hs1 Hs IH]; [apply extends_refl|].
  destruct (step_extends _ _ Hinv Hs1) as [Ht1 Hme1]. destruct (IH (db_step_inv _ _ Hs1 Hinv)) as [Ht2 Hme2].
  split; [by etrans|]. intros id m Hm. destruct (Hme1 id m Hm) as (m1&Hm1&Hc1&Hv1).
  destruct (Hme2 id m1 Hm1) as (m2&Hm2&Hc2&Hv2). exists m2. split_and!; [done|congruence|lia].
Qed.

(** * The history of a message *)

(** C5: In every database reached from the empty tables, however the calls of the procedures
    (by stores, by importers or by anyone, with any arguments) and the publishers interleave,
    a message at version [n] has exactly the transitions 1 to [n] and
    exactly one event for each of them. The first records its creation with the hash of its
    payload, the last leads to its current state and time, and every other one starts in the
    state the one before led to, by a move the database allows, and not earlier. *)
Theorem message_history t id m :
  rtc db_step empty_tables t → t_messages t !! id = Some m →
  (∀ v, is_Some (t_transitions t !! (id, v)) ↔ 1 <= v <= me_version m) ∧
  (∀ v, is_Some (t_outbox t !! (id, v)) ↔ 1 <= v <= me_version m) ∧
  t_transitions t !! (id, 1) = Some (first_transition (me_columns m)) ∧
  (∃ tr, t_transitions t !! (id, me_version m) = Some tr ∧ tr_to tr = me_state m ∧
     tr_occurred_at tr = me_updated_at m) ∧
  (∀ v a b, t_transitions t !! (id, v) = Some a → t_transitions t !! (id, v + 1) = Some b → continues a b) ∧
  (∀ v tr o, t_transitions t !! (id, v) = Some tr → t_outbox t !! (id, v) = Some o →
     same_event o (event_of id (ma_serialized_envelope (me_columns m)) v tr)).
Proof.
  intros Hr Hm. pose proof (steps_inv _ _ Hr inv_empty) as Hinv.
  pose proof (inv_entry _ Hinv _ _ Hm) as Hok. pose proof (entry_version _ _ _ Hok) as Hv.
  assert (∀ v, is_Some (t_transitions t !! (id, v)) ↔ 1 <= v <= me_version m) as Hkeys.
  { intros v. split.
    - intros [tr Htr]. destruct (inv_keys _ Hinv _ _ _ Htr) as (m'&Hm'&Hle). congruence.
    - intros Hle. destruct (decide (v = me_version m)) as [->|Hne].
      + destruct (entry_last _ _ _ Hok) as (tr&Htr&_). by rewrite Htr.
      + destruct (entry_chain _ _ _ Hok v) as (a&b&Ha&_); [lia|]. by rewrite Ha. }
  split_and!; [done| |apply (entry_first _ _ _ Hok)| | |].
  - intros v. rewrite <- Hkeys. split; [apply (inv_outbox _ Hinv)|].
    intros [tr Htr]. destruct (entry_events _ _ _ Hok v tr Htr) as (o&Ho&_). by rewrite Ho.
  - destruct (entry_last _ _ _ Hok) as (tr&Htr&Hto&Hoc&_). by exists tr.
  - intros v a b Ha Hb. assert (1 <= v) by (apply Hkeys; by rewrite Ha).
    assert (v + 1 <= me_version m) by (apply Hkeys; by rewrite Hb).
    destruct (entry_chain _ _ _ Hok v) as (a'&b'&Ha'&Hb'&Hc); [lia|]. congruence.
  - intros v tr o Htr Ho. destruct (entry_events _ _ _ Hok v tr Htr) as (o'&Ho'&Hs). congruence.
Qed.
End History.

(** * The moves of the database and of the registry *)

(** A failure class that lets the database retry: a retryable one, or none at all. *)
Definition lets_retry (failure : option string) : bool :=
  match failure with
  | None => true
  | Some class => one_of class ["RETRYABLE_TRANSPORT"; "RETRYABLE_TARGET"]%string
  end.

Definition state_values : list Z := Z.of_nat <$> seq 1 17.

Lemma stateToDatabase_Some state name : stateToDatabase state = Some name → state ∈ state_values.
Proof.
  unfold stateToDatabase. pass_if Hneg. bool_facts.
  destruct (CrossChainMessageState_name !! Z.to_nat state) as [full|] eqn:Hl; [|done]. pass_if Hf. intros _.
  pose proof (lookup_lt_Some _ _ _ Hl) as Hlt. change (length CrossChainMessageState_name) with 18%nat in Hlt.
  apply list_elem_of_fmap. exists (Z.to_nat state). split; [lia|]. apply elem_of_seq.
  destruct (decide (Z.to_nat state = 0%nat)) as [He|]; [|lia]. rewrite He in Hl.
  injection Hl as <-. by vm_compute in Hf.
Qed.

Lemma state_roundtrip state name : stateToDatabase state = Some name → stateFromDatabase name = Some state.
Proof.
  intros Hs. pose proof (stateToDatabase_Some _ _ Hs) as Hin. revert name Hs.
  change (state ∈ [1; 2; 3; 4; 5; 6; 7; 8; 9; 10; 11; 12; 13; 14; 15; 16; 17]) in Hin. set_unfold in Hin.
  destruct_or! Hin; subst; intros name Hs; try done; vm_compute in Hs; injection Hs as <-; by vm_compute.
Qed.

(** The database lets a message move where the registry does, and in two more cases: from
    acknowledged or recovered to disputed, and, because a comparison with a missing class is
    NULL and does not raise, from failed back to sent without a failure class. *)
Theorem database_moves from to fs ts failure :
  stateToDatabase from = Some fs → stateToDatabase to = Some ts →
  passes (sql_allowed fs ts failure) =
    CanTransition from to (lets_retry failure) ||
    (((from =? acknowledged) || (from =? recovered)) && (to =? disputed)).
Proof.
  intros Hf Ht. pose proof (stateToDatabase_Some _ _ Hf) as Hfi. pose proof (stateToDatabase_Some _ _ Ht) as Hti.
  change (from ∈ [1; 2; 3; 4; 5; 6; 7; 8; 9; 10; 11; 12; 13; 14; 15; 16; 17]) in Hfi.
  change (to ∈ [1; 2; 3; 4; 5; 6; 7; 8; 9; 10; 11; 12; 13; 14; 15; 16; 17]) in Hti. set_unfold in Hfi. set_unfold in Hti.
  destruct_or! Hfi; subst from; try done; vm_compute in Hf; injection Hf as <-;
    (destruct_or! Hti; subst to; try done; vm_compute in Ht; injection Ht as <-; try reflexivity);
    unfold lets_retry in *; destruct failure as [c|]; try reflexivity; cbn -[one_of]; by destruct (one_of c _).
Qed.
