(* ===== verification/SqlStoreRuns.v ===== *)
(** The durable store over a shared database with lost requests and responses: every success
    is one step of the memory store, a version of a message is taken once, and a time finer
    than a microsecond is never accepted. *)
From S2P Require Import Prelude GoStd CrossChainTypes Rlp MessageRegistry MessageStore SqlStore SqlEvidence SqlDatabase SqlHistory.
From S2P Require Message.

(** * Readers *)

Lemma bytes32_id value : is32 value = true → bytes32 value = value.
Proof. intros Hl%Nat.eqb_eq. by apply s_take_app. Qed.

Section Store.
Context `{Keccak, Message.ProtoMarshal, !ProtoUnmarshal, TimestampColumn, EventPayload, Sha256}.

Lemma materialize_Ok id envelope state version evidence at_ r :
  materializeMessage id envelope state version evidence at_ = Ok r →
  ∃ s, stateFromDatabase state = Some s ∧
    r = mkMessageRecord id envelope s version evidence (Time.UTC at_).
Proof.
  unfold materializeMessage. destruct (stateFromDatabase state) as [s|]; [|done]. pass_if Hg.
  destruct (decode_envelope _ _); [|done]. intros <-%Ok_inj. exists s. split; [done|].
  apply orb_false_iff in Hg as [Hg _]. apply orb_false_iff in Hg as [Hg He%negb_false_iff].
  apply orb_false_iff in Hg as [Hg _]. apply orb_false_iff in Hg as [Hi%negb_false_iff _].
  by rewrite !bytes32_id.
Qed.

(** * Reading the tables *)

Context {W : Type} (q : Queryer W) (tables : W → Tables) (Hq : Follows q tables).

Lemma performs_steps {A} (proc : Tables → result string (Tables * A)) t t' a :
  (∀ t0 t1 r, proc t0 = Ok (t1, r) → rtc db_step t0 t1) → performs proc t t' a → rtc db_step t t'.
Proof. intros Hp (t0&Hs&[(->&_)|(r&Ho&_)]); [done|]. etrans; [done|by eapply Hp]. Qed.

(** A snapshot that was read is the record of the tables at that moment. *)
Record snapshot_at (t : Tables) (id : string) (s : storedMessageSnapshot) (m : message_entry) : Prop := {
  sa_message : t_messages t !! id = Some m;
  sa_record : sn_record s = entry_record t id m;
  sa_transition : ∃ tr, t_transitions t !! (id, me_version m) = Some tr ∧
    sn_failureClass s = default "" (tr_failure_class tr);
  sa_state : stateFromDatabase (me_state m) = Some (mr_State (sn_record s)) }.

Lemma snapshot_steps id w w' r : messageSnapshot q id w = (w', r) → rtc db_step (tables w) (tables w').
Proof using All.
  unfold messageSnapshot. destruct (id =s zero32); [by intros [= <- <-]|].
  destruct (load_message q id w) as [w1 row] eqn:Hl. intros [= <- <-].
  apply (follows_load _ _ Hq) in Hl. revert Hl. apply performs_steps.
  intros t0 t1 x. unfold db_load_message. destruct (t_messages t0 !! id); [|done].
  destruct (t_transitions t0 !! _); [|done]. by intros [= <- _].
Qed.

Lemma snapshot_Ok id w w' s :
  messageSnapshot q id w = (w', Ok s) → ∃ m, snapshot_at (tables w') id s m.
Proof using All.
  unfold messageSnapshot. destruct (id =s zero32); [done|].
  destruct (load_message q id w) as [w1 row] eqn:Hl. intros [= <- Hs].
  apply (follows_load _ _ Hq) in Hl as (t0&_&[(_&e&->)|(r&Ho&[->|(e&->)])]);
    try (cbn in Hs; by destruct (is_no_rows e)).
  revert Ho Hs. unfold db_load_message. destruct (t_messages t0 !! id) as [m|] eqn:Hm; [|done].
  destruct (t_transitions t0 !! _) as [tr|] eqn:Htr; [|done]. intros [= <- <-]. cbn.
  destruct (materializeMessage _ _ _ _ _ _) as [rec|] eqn:Hmat; [|done]. pass_if Hd. intros <-%Ok_inj.
  apply materialize_Ok in Hmat as (st&Hst&->). exists m. split; cbn; [done| |by exists tr|done].
  unfold entry_record. by rewrite Htr, Hst.
Qed.

(** A row of a mutation, read. *)
Lemma scan_Ok id m r : scanMutationMessage (Row (message_result id m)) = Ok r →
  ∃ s, stateFromDatabase (me_state m) = Some s ∧
    r = mkMessageRecord id (ma_serialized_envelope (me_columns m)) s (me_version m) zero32
          (Time.UTC (me_updated_at m)).
Proof. apply materialize_Ok. Qed.

Lemma abstract_at t id m : t_messages t !! id = Some m → Message_lookup id (abstract t) = Ok (entry_record t id m).
Proof. intros Hm. unfold Message_lookup. by rewrite abstract_lookup, Hm. Qed.

Lemma abstract_advance t id v m tr :
  me_version m = v →
  abstract (advanced_tables t id v m tr) =
    mkMemory ∅ (<[id := mkMessageRecord id (ma_serialized_envelope (me_columns m))
      (default 0 (stateFromDatabase (me_state m))) v (tr_evidence tr) (Time.UTC (me_updated_at m))]>
      (messages (abstract t))).
Proof.
  intros Hv. unfold abstract at 1. f_equal. apply map_eq. intros id'. rewrite map_lookup_imap.
  cbn [advanced_tables t_messages]. destruct (decide (id' = id)) as [->|Hne].
  - rewrite !lookup_insert_eq. cbn. unfold entry_record. by rewrite Hv, advanced_new.
  - rewrite !lookup_insert_ne by done. rewrite abstract_lookup. unfold entry_record. cbn.
    destruct (t_messages t !! id') as [m'|]; [|done]. cbn. by rewrite lookup_insert_ne by congruence.
Qed.

(** * Compare-and-set *)

(** The record the request asks for. *)
Definition requested (id : string) (v next : Z) (evidence : string) (at_ : Time.t) (r : MessageRecord) : Prop :=
  mr_MessageID r = id ∧ mr_State r = next ∧ mr_Version r = v + 1 ∧ mr_Evidence r = evidence ∧
  mr_UpdatedAt r = Time.UTC at_.

(** The transition the request asks for is recorded. *)
Definition taken (t : Tables) (id : string) (v next : Z) (class evidence : string) (at_ : Time.t) : Prop :=
  ∃ tr, t_transitions t !! (id, v + 1) = Some tr ∧ stateFromDatabase (tr_to tr) = Some next ∧
    tr_evidence tr = evidence ∧ Time.ns (tr_occurred_at tr) = Time.ns at_ ∧
    default "" (tr_failure_class tr) = class.

Lemma UTC_Equal a b : Time.Equal (Time.UTC a) (Time.UTC b) = true → Time.UTC a = Time.UTC b.
Proof. unfold Time.Equal, Time.UTC. cbn. intros ->%Z.eqb_eq. done. Qed.

Lemma u64_next v : 0 < v <= MaxInt64 → u64 (v + 1) = v + 1.
Proof. unfold MaxInt64. intros Hv. apply u64_small. lia. Qed.

Lemma i64_next v : 0 < v <= MaxInt64 → i64 v = v.
Proof. unfold MaxInt64, i64. intros Hv. rewrite Z.mod_small by lia. lia. Qed.

(** A message read after its move shows the move. *)
Lemma replay_taken t id s m v next class evidence at_ :
  db_inv t → snapshot_at t id s m → 0 < v <= MaxInt64 →
  exactTransitionReplay s v next class evidence at_ = true →
  requested id v next evidence at_ (sn_record s) ∧ taken t id v next class evidence at_ ∧
  Message_lookup id (abstract t) = Ok (sn_record s).
Proof.
  intros Hinv [Hm Hrec (tr&Htr&Hcl) Hst] Hv. unfold exactTransitionReplay. rewrite u64_next by done.
  rewrite Hrec in *. cbn [entry_record mr_Version mr_State mr_Evidence mr_UpdatedAt mr_MessageID] in *.
  rewrite Htr in *. intros Hx. apply andb_true_iff in Hx as [Hx Ht]. bool_facts.
  apply UTC_Equal in Ht. pose proof (inv_entry _ Hinv _ _ Hm) as Hok.
  destruct (entry_last _ _ _ Hok) as (tr'&Htr'&Hto&Hoc&_).
  rewrite Htr in Htr'. apply (inj Some) in Htr' as <-. split_and!.
  - unfold requested. cbn. rewrite Htr. split_and!; try done; congruence.
  - exists tr. split_and!; [congruence| |done| |congruence].
    + rewrite Hto, Hst. cbn. by f_equal.
    + rewrite Hoc. by injection Ht.
  - by apply abstract_at.
Qed.

Lemma transition_steps a t t' r : performs (db_transition_message a) t t' r → rtc db_step t t'.
Proof. apply performs_steps. intros t0 t1 x Hp. apply rtc_once. by eapply step_transition. Qed.

(** What a request that succeeded was: a move of the memory store, or one that had been made. *)
Definition linearized (t t' : Tables) (id : string) (v next : Z) (retryable : bool) (evidence : string)
    (at_ : Time.t) (r : MessageRecord) : Prop :=
  ∃ t0, rtc db_step t t0 ∧
    ((db_step t0 t' ∧ MessageStore.CompareAndSet id v next retryable evidence (Time.UTC at_) (abstract t0) =
        (abstract t', Ok r)) ∨
     (t0 = t' ∧ Message_lookup id (abstract t') = Ok r)).

(** The request as the procedure gets it. *)
Definition request_of (id : string) (v : Z) (cur nxt class evidence : string) (at_ : Time.t) : transition_args :=
  transition_request id v cur nxt class evidence at_.

Lemma made_is_memory_step t id v next retryable evidence at_ cur nxt from m0 r :
  let a := request_of id v cur nxt (transitionFailureClass retryable) evidence at_ in
  0 < v <= MaxInt64 → (evidence =s zero32) = false → Time.IsZero at_ = false →
  stateToDatabase next = Some nxt → stateToDatabase from = Some cur → CanTransition from next retryable = true →
  t_messages t !! id = Some m0 → me_version m0 = ta_expected_version a → me_state m0 = ta_expected_state a →
  Time.Before (column (ta_occurred_at a)) (me_updated_at m0) = false →
  scanMutationMessage (Row (message_result id (next_entry a m0))) = Ok r →
  transition_differs (with_evidence evidence r) id v next at_ = false →
  requested id v next evidence at_ (with_evidence evidence r) ∧
  MessageStore.CompareAndSet id v next retryable evidence (Time.UTC at_) (abstract t) =
    (abstract (advanced_tables t id (ta_expected_version a + 1) (next_entry a m0) (next_transition a)),
     Ok (with_evidence evidence r)).
Proof.
  intros a Hv Hev Hz Hn Hc Hct Hm Hver Hst Hbe Hsc Hd. apply scan_Ok in Hsc as (s&Hs&->).
  unfold transition_differs in Hd. cbn in Hd, Hs, Hbe, Hver, Hst. rewrite u64_next, i64_next in Hd by done.
  rewrite i64_next in Hver by done.
  rewrite (state_roundtrip _ _ Hn) in Hs. apply (inj Some) in Hs as <-.
  apply orb_false_iff in Hd as [Hd Ht%negb_false_iff]. apply UTC_Equal in Ht. clear Hd.
  assert (Time.Before (Time.UTC at_) (Time.UTC (me_updated_at m0)) = false) as Hb.
  { rewrite <- Ht. exact Hbe. }
  unfold with_evidence. cbn. rewrite i64_next by done. rewrite Ht. split.
  { by unfold requested. }
  rewrite abstract_advance by (cbn; by rewrite i64_next). unfold MessageStore.CompareAndSet.
  rewrite abstract_lookup, Hm. cbn [fmap option_fmap option_map entry_record mr_Version mr_State mr_UpdatedAt mr_MessageID mr_Envelope].
  rewrite Hver, Z.eqb_refl, Hev, Hst, (state_roundtrip _ _ Hc), Time.IsZero_UTC, Hz, Hb. cbn [default negb orb].
  change (Datatypes.id from) with from. rewrite Hct. cbn. rewrite u64_next, Ht, (state_roundtrip _ _ Hn) by done. done.
Qed.

(** The answer to a transition that was replayed by the database. *)
Lemma replayed_taken t id v next retryable evidence at_ cur nxt existing m r :
  let a := request_of id v cur nxt (transitionFailureClass retryable) evidence at_ in
  db_inv t → 0 < v <= MaxInt64 → stateToDatabase next = Some nxt →
  t_transitions t !! (id, ta_expected_version a + 1) = Some existing → replay_differs existing a = false →
  t_messages t !! id = Some m → scanMutationMessage (Row (message_result id m)) = Ok r →
  transition_differs (with_evidence evidence r) id v next at_ = false →
  requested id v next evidence at_ (with_evidence evidence r) ∧
  taken t id v next (transitionFailureClass retryable) evidence at_ ∧
  Message_lookup id (abstract t) = Ok (with_evidence evidence r).
Proof.
  intros a Hinv Hv Hn He Hrep Hm Hsc Hd. apply scan_Ok in Hsc as (s&Hs&->).
  unfold transition_differs in Hd. cbn in Hd, He. rewrite u64_next in Hd by done. rewrite i64_next in He by done.
  apply orb_false_iff in Hd as [Hd Ht%negb_false_iff]. apply UTC_Equal in Ht. bool_facts.
  unfold replay_differs in Hrep. cbn in Hrep. bool_facts.
  pose proof (inv_entry _ Hinv _ _ Hm) as Hok. destruct (entry_last _ _ _ Hok) as (tr&Htr&Hto&Hoc&_).
  match goal with A : me_version m = _ |- _ => rename A into Hver end.
  rewrite Hver, He in Htr. apply (inj Some) in Htr as <-. split_and!.
  - unfold requested, with_evidence. cbn. rewrite Ht. by split_and!.
  - exists existing. split_and!; try done.
    + rewrite Hto, Hs. by f_equal.
    + rewrite Hoc. by injection Ht.
    + match goal with A : tr_failure_class existing = _ |- _ => rewrite A end. by destruct retryable.
  - rewrite (abstract_at _ _ _ Hm). f_equal. unfold entry_record, with_evidence. cbn.
    rewrite Hver, He, Hs, Ht. cbn. by f_equal.
Qed.

Lemma made_taken t id v next retryable evidence at_ cur nxt m0 :
  let a := request_of id v cur nxt (transitionFailureClass retryable) evidence at_ in
  0 < v <= MaxInt64 → stateToDatabase next = Some nxt → stored (Time.ns at_) = Time.ns at_ →
  taken (advanced_tables t id (ta_expected_version a + 1) (next_entry a m0) (next_transition a))
    id v next (transitionFailureClass retryable) evidence at_.
Proof.
  intros a Hv Hn Hat. exists (next_transition a). cbn. rewrite i64_next by done. rewrite lookup_insert_eq.
  split_and!; try done; [by apply state_roundtrip|by destruct retryable].
Qed.

Lemma differs_exact r id v next at_ :
  transition_differs r id v next at_ = false → Time.ns (mr_UpdatedAt r) = Time.ns at_.
Proof.
  unfold transition_differs. intros Hd. apply orb_false_iff in Hd as [_ Ht%negb_false_iff].
  by apply Z.eqb_eq in Ht.
Qed.

(** A transition that was sent and reported as made. *)
Lemma send_outcome id v next retryable evidence at_ cur nxt from w w' r :
  db_inv (tables w) → 0 < v <= MaxInt64 → (evidence =s zero32) = false → Time.IsZero at_ = false →
  stateToDatabase next = Some nxt → stateToDatabase from = Some cur → CanTransition from next retryable = true →
  send_transition q id v next (transitionFailureClass retryable) evidence at_ cur nxt w = (w', Ok r) →
  requested id v next evidence at_ r ∧ taken (tables w') id v next (transitionFailureClass retryable) evidence at_ ∧
  linearized (tables w) (tables w') id v next retryable evidence at_ r.
Proof using All.
  intros Hinv Hv Hev Hz Hn Hc Hct. unfold send_transition.
  destruct (transition_message q _ w) as [w1 row] eqn:Htm. apply (follows_transition _ _ Hq) in Htm.
  destruct (scanMutationMessage row) as [stored_|e] eqn:Hsc.
  - intros [= <- Hr]. revert Hr. destruct (transition_differs _ _ _ _ _) eqn:Hd; [done|]. intros <-%Ok_inj.
    destruct Htm as (t0&Hs&[(_&e&->)|(x&Hp&[->|(e&->)])]); [done| |done].
    pose proof (steps_inv _ _ Hs Hinv) as Hinv0. pose proof Hp as Hp'. apply db_transition_cases in Hp; [|done].
    destruct Hp as [existing m He Hrep Hm|m0 Hm Hver Hst Hbe Hadv].
    + cbn [ta_message_id] in *. destruct (replayed_taken t0 id v next retryable evidence at_ cur nxt existing m stored_
        Hinv0 Hv Hn He Hrep Hm Hsc Hd) as (Hreq&Htk&Hlk). split_and!; [done..|]. exists t0. split; [done|]. by right.
    + destruct (made_is_memory_step t0 id v next retryable evidence at_ cur nxt from m0 stored_
        Hv Hev Hz Hn Hc Hct Hm Hver Hst Hbe Hsc Hd) as [Hreq Hmem]. split_and!; [done| |].
      * apply made_taken; [done..|]. apply differs_exact in Hd. apply scan_Ok in Hsc as (s&_&->). exact Hd.
      * exists t0. split; [done|]. left. split; [by eapply step_transition|exact Hmem].
  - destruct (messageSnapshot q id w1) as [w2 [s|]] eqn:Hsn; [|done]. intros [= <- Hr]. revert Hr.
    destruct (exactTransitionReplay _ _ _ _ _ _) eqn:Hx; [|done]. intros <-%Ok_inj.
    pose proof (snapshot_steps _ _ _ _ Hsn) as Hs2. destruct (snapshot_Ok _ _ _ _ Hsn) as [m Hat].
    assert (rtc db_step (tables w) (tables w2)) as Hsteps by (etrans; [by eapply transition_steps|done]).
    destruct (replay_taken _ _ _ _ _ _ _ _ _ (steps_inv _ _ Hsteps Hinv) Hat Hv Hx) as (Hreq&Htk&Hlk).
    split_and!; [done..|]. exists (tables w2). split; [done|]. by right.
Qed.

Lemma compare_and_set_Ok id v next retryable evidence at_ w w' r :
  db_inv (tables w) → 0 <= v → CompareAndSet q id v next retryable evidence at_ w = (w', Ok r) →
  requested id v next evidence at_ r ∧ taken (tables w') id v next (transitionFailureClass retryable) evidence at_ ∧
  linearized (tables w) (tables w') id v next retryable evidence at_ r.
Proof using All.
  intros Hinv Hv0. unfold CompareAndSet. pass_if Hg. apply orb_false_iff in Hg as [Hg Hz]. apply orb_false_iff in Hg as [Hg Hev].
  bool_facts. assert (0 < v <= MaxInt64) as Hv by lia.
  destruct (messageSnapshot q id w) as [w1 [s|]] eqn:Hsn; [|done].
  pose proof (snapshot_steps _ _ _ _ Hsn) as Hs1. destruct (snapshot_Ok _ _ _ _ Hsn) as [m Hat].
  pose proof (steps_inv _ _ Hs1 Hinv) as Hinv1. destruct (negb _).
  - intros [= <- Hr]. revert Hr. destruct (exactTransitionReplay _ _ _ _ _ _) eqn:Hx; [|done]. intros <-%Ok_inj.
    destruct (replay_taken _ _ _ _ _ _ _ _ _ Hinv1 Hat Hv Hx) as (Hreq&Htk&Hlk).
    split_and!; [done..|]. exists (tables w1). split; [done|]. by right.
  - pass_if Hct. bool_facts. destruct (stateToDatabase next) as [nxt|] eqn:Hn; [|done].
    destruct (stateToDatabase (mr_State _)) as [cur|] eqn:Hc; [|done]. intros Hsend.
    assert ((evidence =s zero32) = false) as Hev' by (by apply String.eqb_neq).
    destruct (send_outcome _ _ _ _ _ _ _ _ _ _ _ _ Hinv1 Hv Hev' Hz Hn Hc ltac:(eassumption) Hsend) as (Hreq&Htk&t0&Hs&Hl).
    split_and!; [done..|]. exists t0. split; [by etrans|done].
Qed.

(** * Creation *)

Lemma validate_Ok record envelope :
  validateMessageCreation record = Ok envelope →
  Unmarshal (mr_Envelope record) = Some envelope ∧ (String.length (mr_Envelope record) =? 0)%nat = false ∧
  mr_State record = created ∧ mr_Version record = 1 ∧ Time.IsZero (mr_UpdatedAt record) = false.
Proof.
  unfold validateMessageCreation. pass_if Hg. destruct (decode_envelope _ _) as [e|] eqn:Hd; [|done].
  pass_if Hb. pass_if Hev. intros [= ->]. apply orb_false_iff in Hg as [Hg Hz]. apply orb_false_iff in Hg as [Hg Hv].
  apply orb_false_iff in Hg as [Hg Hs]. apply orb_false_iff in Hg as [Hl _]. bool_facts. split_and!; try done.
  revert Hd. unfold decode_envelope. destruct (Unmarshal _) as [e|]; [|done].
  destruct (Message.ValidateEnvelope e); [|done]. destruct (MessageId e =s _); [|done]. cbn [negb].
  destruct (Message.DeterministicBytes e) as [bytes|]; [|done]. by destruct (bytes =s _).
Qed.

(** The message was recorded under the payload hash of its bytes, if these are an envelope. A
    client of the procedure need not do so; a store does ([store_declares]). *)
Definition declares_hash (t : Tables) (id : string) : Prop :=
  ∀ m envelope, t_messages t !! id = Some m →
    Unmarshal (ma_serialized_envelope (me_columns m)) = Some envelope →
    ma_payload_hash (me_columns m) = PayloadHash envelope.

Lemma declares_earlier t t' id : db_inv t → rtc db_step t t' → declares_hash t' id → declares_hash t id.
Proof.
  intros Hinv Hs Hd m envelope Hm Hu. destruct (steps_extends _ _ Hinv Hs) as [_ Hme].
  destruct (Hme _ _ Hm) as (m'&Hm'&Hc&_). rewrite <- Hc in Hu |- *. by apply (Hd m').
Qed.

Lemma store_declares t record envelope :
  validateMessageCreation record = Ok envelope →
  t_messages t !! mr_MessageID record = Some (first_entry (record_message_args record envelope)) →
  declares_hash t (mr_MessageID record).
Proof.
  intros (Hu&_)%validate_Ok Hm m e Hm' Hu'. rewrite Hm in Hm'. injection Hm' as <-. cbn in Hu' |- *.
  rewrite Hu in Hu'. by injection Hu' as <-.
Qed.

(** The evidence of the first transition is the payload hash of the stored bytes. *)
Lemma first_evidence t id m record envelope :
  declares_hash t id → t_messages t !! id = Some m → validateMessageCreation record = Ok envelope →
  ma_serialized_envelope (me_columns m) = mr_Envelope record →
  ma_payload_hash (me_columns m) = PayloadHash envelope.
Proof.
  intros Hd Hm (Hu&_)%validate_Ok Hser. apply (Hd m); [done|]. by rewrite Hser.
Qed.

Lemma entry_first_is32 t id m : db_inv t → t_messages t !! id = Some m → me_version m = 1 →
  is32 (ma_payload_hash (me_columns m)) = true.
Proof.
  intros Hinv Hm Hv. pose proof (inv_entry _ Hinv _ _ Hm) as Hok.
  destruct (entry_last _ _ _ Hok) as (tr&Htr&_&_&He). rewrite Hv, (entry_first _ _ _ Hok) in Htr.
  by apply (inj Some) in Htr as <-.
Qed.

Lemma with_evidence_inj a b e : with_evidence "" a = with_evidence "" b → with_evidence e a = with_evidence e b.
Proof. destruct a, b. unfold with_evidence. cbn. by intros [= -> -> -> -> ->]. Qed.

(** A record that shows the message of the tables, up to the evidence. *)
Definition shows (t : Tables) (id : string) (m : message_entry) (current : MessageRecord) : Prop :=
  t_messages t !! id = Some m ∧ with_evidence "" current = with_evidence "" (entry_record t id m) ∧
  stateFromDatabase (me_state m) = Some (mr_State current).

Lemma creation_steps id w w' r :
  load_creation_transition q id w = (w', r) → rtc db_step (tables w) (tables w').
Proof using All.
  intros Hl. apply (follows_creation _ _ Hq) in Hl. revert Hl. apply performs_steps.
  intros t0 t1 x. unfold db_load_creation_transition. destruct (t_transitions t0 !! _); [|done].
  destruct (_ && _); [|done]. by intros [= <- _].
Qed.

Lemma resolve_steps record envelope current w w' r :
  resolveCreationReplay q record envelope current w = (w', r) → rtc db_step (tables w) (tables w').
Proof using All.
  unfold resolveCreationReplay. destruct (_ && _); [by intros [= <- _]|].
  destruct (_ || _); [by intros [= <- _]|].
  destruct (load_creation_transition q _ w) as [w1 row] eqn:Hl. apply creation_steps in Hl.
  destruct (creation_differs _ _ _); [by intros [= <- _]|].
  destruct (messageSnapshot q _ w1) as [w2 latest] eqn:Hsn. apply snapshot_steps in Hsn.
  intros [= <- _]. by etrans.
Qed.

Lemma resolve_Ok record envelope current w w' r m :
  db_inv (tables w) → declares_hash (tables w) (mr_MessageID record) → validateMessageCreation record = Ok envelope →
  shows (tables w) (mr_MessageID record) m current →
  resolveCreationReplay q record envelope current w = (w', Ok r) →
  rtc db_step (tables w) (tables w') ∧ mr_Envelope r = mr_Envelope record ∧
  Message_lookup (mr_MessageID record) (abstract (tables w')) = Ok r ∧
  (me_version m = 1 → mr_State current = created →
     w' = w ∧ r = with_evidence (bytes32 (PayloadHash envelope)) current ∧ validateCreatedResult record r = true).
Proof using All.
  intros Hinv Hdec Hval (Hm&Hsame&Hst). unfold resolveCreationReplay.
  assert (mr_Version current = me_version m ∧ mr_Envelope current = ma_serialized_envelope (me_columns m)) as [Hcv Hce]
    by (split; [exact (f_equal mr_Version Hsame)|exact (f_equal mr_Envelope Hsame)]).
  destruct ((mr_State current =? created) && (mr_Version current =? 1)) eqn:Hfirst.
  - intros [= <- Hr]. revert Hr. destruct (validateCreatedResult _ _) eqn:Hv; [|done]. intros <-%Ok_inj. bool_facts.
    split; [done|]. pose proof Hv as Hv'. unfold validateCreatedResult in Hv'. cbn in Hv'.
    apply negb_true_iff in Hv'. bool_facts. split; [done|]. split; [|done].
    rewrite (abstract_at _ _ _ Hm). f_equal. pose proof (inv_entry _ Hinv _ _ Hm) as Hok.
    assert (me_version m = 1) as Hm1 by congruence.
    assert (ma_payload_hash (me_columns m) = PayloadHash envelope) as Hph.
    { eapply first_evidence; [done..|]. congruence. }
    pose proof (entry_first_is32 _ _ _ Hinv Hm Hm1) as Hl. rewrite Hph in Hl.
    rewrite bytes32_id by done. rewrite (with_evidence_inj _ _ (PayloadHash envelope) Hsame).
    unfold with_evidence, entry_record. rewrite Hm1, (entry_first _ _ _ Hok). cbn. by rewrite Hph.
  - pass_if Hd. destruct (load_creation_transition q _ w) as [w1 row] eqn:Hl. pass_if Hcd.
    destruct (messageSnapshot q _ w1) as [w2 latest] eqn:Hsn. intros [= <- Hr]. revert Hr.
    destruct latest as [s|]; [|done]. destruct (moved_on _ _) eqn:Hmo; [done|]. intros <-%Ok_inj.
    destruct (snapshot_Ok _ _ _ _ Hsn) as [m' Hat]. bool_facts. split_and!.
    + etrans; [by eapply creation_steps|by eapply snapshot_steps].
    + unfold moved_on in Hmo. bool_facts. congruence.
    + rewrite (abstract_at _ _ _ (sa_message _ _ _ _ Hat)). by rewrite (sa_record _ _ _ _ Hat).
    + intros Hm1 Hc. rewrite Hc, Hcv, Hm1 in Hfirst. done.
Qed.

(** The request as the memory store gets it: the store fills in the evidence of the creation. *)
Definition creation_request (record : MessageRecord) (envelope : Envelope) : MessageRecord :=
  mkMessageRecord (mr_MessageID record) (mr_Envelope record) created 1 (bytes32 (PayloadHash envelope))
    (Time.UTC (mr_UpdatedAt record)).

Lemma memory_create record envelope t :
  validateMessageCreation record = Ok envelope →
  MessageStore.CreateMessage (creation_request record envelope) (abstract t) =
    match messages (abstract t) !! mr_MessageID record with
    | Some existing =>
        if mr_Envelope existing <>s mr_Envelope record then (abstract t, Err ErrConflict)
        else (abstract t, Ok existing)
    | None =>
        (mkMemory ∅ (<[mr_MessageID record := creation_request record envelope]> (messages (abstract t))),
         Ok (creation_request record envelope))
    end.
Proof.
  intros (_&Hl&_&_&Hz)%validate_Ok. unfold MessageStore.CreateMessage. cbn [creation_request mr_Envelope mr_Version mr_UpdatedAt mr_MessageID].
  rewrite Hl, Time.IsZero_UTC, Hz. reflexivity.
Qed.

Lemma memory_found record envelope t r :
  validateMessageCreation record = Ok envelope → mr_Envelope r = mr_Envelope record →
  Message_lookup (mr_MessageID record) (abstract t) = Ok r →
  MessageStore.CreateMessage (creation_request record envelope) (abstract t) = (abstract t, Ok r).
Proof.
  intros Hval He. rewrite (memory_create _ _ _ Hval). unfold Message_lookup.
  destruct (messages (abstract t) !! _) as [x|]; [|done]. intros <-%Ok_inj. by rewrite He, String.eqb_refl.
Qed.

(** What a creation that succeeded was. *)
Definition created_at (t t' : Tables) (record : MessageRecord) (r : MessageRecord) : Prop :=
  ∃ envelope t0 t1, validateMessageCreation record = Ok envelope ∧
    rtc db_step t t0 ∧ rtc db_step t0 t1 ∧ rtc db_step t1 t' ∧
    MessageStore.CreateMessage (creation_request record envelope) (abstract t0) = (abstract t1, Ok r).

Lemma resolved_at record envelope current w w' r m t :
  rtc db_step t (tables w) → db_inv (tables w) → declares_hash (tables w') (mr_MessageID record) →
  validateMessageCreation record = Ok envelope →
  shows (tables w) (mr_MessageID record) m current →
  resolveCreationReplay q record envelope current w = (w', Ok r) → created_at t (tables w') record r.
Proof using All.
  intros Ht Hinv Hd Hval Hsh Hr. pose proof (declares_earlier _ _ _ Hinv (resolve_steps _ _ _ _ _ _ Hr) Hd) as Hdec.
  destruct (resolve_Ok _ _ _ _ _ _ _ Hinv Hdec Hval Hsh Hr) as (Hs&He&Hlk&_).
  exists envelope, (tables w'), (tables w'). split_and!; [done|by etrans|done..|]. by apply memory_found.
Qed.

(** The row of the creation, read. *)
Lemma shows_result t id m stored_ ev :
  t_messages t !! id = Some m → scanMutationMessage (Row (message_result id m)) = Ok stored_ →
  shows t id m (with_evidence ev stored_).
Proof.
  intros Hm (s&Hs&->)%scan_Ok. split; [done|]. split; [|done]. unfold with_evidence, entry_record. cbn. by rewrite Hs.
Qed.

Lemma made_creation record envelope stored_ w w' r t0 :
  let a := record_message_args record envelope in
  db_inv (tables w) → validateMessageCreation record = Ok envelope →
  t_messages t0 !! ma_message_id a = None →
  tables w = advanced_tables t0 (ma_message_id a) 1 (first_entry a) (first_transition a) →
  is32 (PayloadHash envelope) = true →
  scanMutationMessage (Row (message_result (ma_message_id a) (first_entry a))) = Ok stored_ →
  resolveCreationReplay q record envelope (with_evidence (bytes32 (PayloadHash envelope)) stored_) w = (w', Ok r) →
  MessageStore.CreateMessage (creation_request record envelope) (abstract t0) = (abstract (tables w'), Ok r).
Proof using All.
  intros a Hinv Hval Hnone Ht Hl Hsc Hr.
  assert (t_messages (tables w) !! mr_MessageID record = Some (first_entry a)) as Hm
    by (rewrite Ht; apply lookup_insert_eq).
  pose proof (store_declares _ _ _ Hval Hm) as Hdec.
  destruct (resolve_Ok _ _ _ _ _ _ _ Hinv Hdec Hval (shows_result _ _ _ _ _ Hm Hsc) Hr) as (_&_&_&Hfirst).
  apply scan_Ok in Hsc as (s&Hs&->). vm_compute in Hs. apply (inj Some) in Hs as <-.
  destruct (Hfirst eq_refl eq_refl) as (->&->&Hv). rewrite (memory_create _ _ _ Hval), abstract_lookup.
  cbn [ma_message_id a record_message_args] in Hnone. rewrite Hnone. cbn [fmap option_fmap option_map].
  rewrite Ht, abstract_advance by done. unfold validateCreatedResult in Hv. apply negb_true_iff in Hv.
  apply orb_false_iff in Hv as [_ Htime%negb_false_iff]. cbn [with_evidence mr_UpdatedAt] in Htime.
  apply UTC_Equal in Htime. rewrite bytes32_id by done.
  unfold creation_request, with_evidence. cbn [mr_MessageID mr_Envelope mr_State mr_Version mr_UpdatedAt].
  rewrite bytes32_id, Htime by done. reflexivity.
Qed.

Lemma route_steps a w w' r : verify_envelope_route q a w = (w', r) → rtc db_step (tables w) (tables w').
Proof using All.
  intros Hl. apply (follows_route _ _ Hq) in Hl. revert Hl. apply performs_steps. by intros t0 t1 x [= <- _].
Qed.

Lemma record_steps a t t' r : performs (db_record_message a) t t' r → rtc db_step t t'.
Proof. apply performs_steps. intros t0 t1 x Hp. apply rtc_once. by eapply step_record. Qed.

Lemma create_message_Ok record w w' r :
  db_inv (tables w) → CreateMessage q record w = (w', Ok r) →
  rtc db_step (tables w) (tables w') ∧
  (declares_hash (tables w') (mr_MessageID record) → created_at (tables w) (tables w') record r).
Proof using All.
  intros Hinv. unfold CreateMessage. destruct (validateMessageCreation record) as [envelope|] eqn:Hval; [|done].
  unfold verifyEnvelopeRoute. destruct (verify_envelope_route q _ w) as [w0 route] eqn:Hro.
  apply route_steps in Hro. destruct route as [[]|]; [|done..]. cbn [negb].
  destruct (record_message q _ w0) as [w1 row] eqn:Hrec. apply (follows_record _ _ Hq) in Hrec.
  pose proof (steps_inv _ _ Hro Hinv) as Hinv0. pose proof (record_steps _ _ _ _ Hrec) as Hs1.
  pose proof (steps_inv _ _ Hs1 Hinv0) as Hinv1.
  destruct (scanMutationMessage row) as [stored_|e] eqn:Hsc.
  - intros Hr. pose proof (resolve_steps _ _ _ _ _ _ Hr) as Hsr. split; [etrans; [exact Hro|]; by etrans|]. intros Hd.
    destruct Hrec as (t0&Hs&[(_&e&->)|(x&Hp&[->|(e&->)])]); [done| |done].
    pose proof (steps_inv _ _ Hs Hinv0) as Hinvt. pose proof (step_record _ _ _ _ Hp) as Hstep.
    apply record_cases in Hp; [|done]. inversion Hp as [m Hm He Ht Hx|Hadv Hnone Ht Hx].
    + subst x. eapply resolved_at; [|done|done|done|exact (shows_result _ _ _ _ (bytes32 (PayloadHash envelope)) Hm Hsc)|exact Hr].
      by etrans.
    + subst x. assert (is32 (PayloadHash envelope) = true) as Hl by (exact (adv_evidence _ _ _ _ _ Hadv)).
      exists envelope, t0, (tables w'). symmetry in Ht.
      pose proof (made_creation _ _ _ _ _ _ _ Hinv1 Hval Hnone Ht Hl Hsc Hr) as Hmem.
      assert (t_messages (tables w1) !! mr_MessageID record = Some (first_entry (record_message_args record envelope))) as Hm
        by (rewrite Ht; apply lookup_insert_eq).
      split_and!; [done|by etrans| |done|done]. etrans; [by apply rtc_once|done].
  - destruct (messageSnapshot q _ w1) as [w2 [s|]] eqn:Hsn; [|done].
    destruct (resolveCreationReplay q record envelope (sn_record s) w2) as [w3 [r'|]] eqn:Hr; [|done].
    intros [= <- <-]. pose proof (snapshot_steps _ _ _ _ Hsn) as Hs2. destruct (snapshot_Ok _ _ _ _ Hsn) as [m Hat].
    assert (rtc db_step (tables w) (tables w2)) as Hs02 by (etrans; [done|]; by etrans).
    split; [etrans; [done|by eapply resolve_steps]|]. intros Hd.
    eapply (resolved_at _ _ _ w2); [done|by eapply steps_inv|done|done| |done].
    destruct Hat as [Hm Hre _ Hst]. split; [done|]. split; [by rewrite Hre|done].
Qed.

(** * Theorems *)

Lemma linearized_entry t t' id v next retryable evidence at_ r :
  linearized t t' id v next retryable evidence at_ r →
  ∃ m, t_messages t' !! id = Some m ∧ r = entry_record t' id m.
Proof.
  intros (t0&_&[(_&Hc)|(_&Hl)]).
  - assert (messages (abstract t') !! id = Some r) as Hl.
    { revert Hc. unfold MessageStore.CompareAndSet. destruct (messages (abstract t0) !! id) as [c|]; [|done].
      destruct (negb _); [done|]. destruct (_ || _); [done|]. intros Hc.
      apply pair_equal_spec in Hc as [<- Hc]. apply Ok_inj in Hc as <-. apply lookup_insert_eq. }
    rewrite abstract_lookup in Hl. destruct (t_messages t' !! id) as [m|]; [|done]. injection Hl as <-. by exists m.
  - revert Hl. unfold Message_lookup. rewrite abstract_lookup. destruct (t_messages t' !! id) as [m|]; [|done].
    intros <-%Ok_inj. by exists m.
Qed.

(** C4: The durable store is linearizable with respect to the memory store, on a database that
    it shares with other stores, importers, publishers and any other callers of the
    procedures, and over a connection that loses requests and responses. A creation that
    succeeds is a creation of the memory store at some moment of the call, provided the
    message stands recorded under the payload hash of its bytes, as every store records it
    (the store answers a fresh message with that hash, and does not read the one recorded).
    A compare-and-set that succeeds returns the record it asked for;
    it is the compare-and-set of the memory store at some moment of the call, or the record
    shows that the move had been made. A read returns the record of the moment of the read. *)
Theorem store_linearizable w :
  rtc db_step empty_tables (tables w) →
  (∀ record w' r, CreateMessage q record w = (w', Ok r) →
     rtc db_step (tables w) (tables w') ∧
     (declares_hash (tables w') (mr_MessageID record) → created_at (tables w) (tables w') record r)) ∧
  (∀ id v next retryable evidence at_ w' r, 0 <= v →
     CompareAndSet q id v next retryable evidence at_ w = (w', Ok r) →
     requested id v next evidence at_ r ∧
     linearized (tables w) (tables w') id v next retryable evidence at_ r) ∧
  (∀ id w' r, Message_ q id w = (w', Ok r) →
     rtc db_step (tables w) (tables w') ∧ Message_lookup id (abstract (tables w')) = Ok r).
Proof using All.
  intros Hreach. pose proof (steps_inv _ _ Hreach inv_empty) as Hinv. split_and!.
  - intros record w' r. by apply create_message_Ok.
  - intros id v next retryable evidence at_ w' r Hv Hc. by destruct (compare_and_set_Ok _ _ _ _ _ _ _ _ _ Hinv Hv Hc) as (?&_&?).
  - intros id w' r. unfold Message_. destruct (messageSnapshot q id w) as [w1 [s|]] eqn:Hsn; [|done]. intros [= <- <-].
    split; [by eapply snapshot_steps|]. destruct (snapshot_Ok _ _ _ _ Hsn) as [m Hat].
    rewrite (abstract_at _ _ _ (sa_message _ _ _ _ Hat)). by rewrite (sa_record _ _ _ _ Hat).
Qed.

(** C6: A version of a message is taken once: if two compare-and-sets for the same version
    succeed, of one worker or of two, at any two moments, they asked for the same state,
    failure class, evidence and instant, and they return the same record. *)
Theorem version_taken_once id v n1 n2 b1 b2 e1 e2 a1 a2 w1 w1' w2 w2' r1 r2 :
  rtc db_step empty_tables (tables w1) → rtc db_step (tables w1') (tables w2) → 0 <= v →
  CompareAndSet q id v n1 b1 e1 a1 w1 = (w1', Ok r1) → CompareAndSet q id v n2 b2 e2 a2 w2 = (w2', Ok r2) →
  n1 = n2 ∧ b1 = b2 ∧ e1 = e2 ∧ Time.ns a1 = Time.ns a2 ∧ r1 = r2.
Proof using All.
  intros Hreach Hlater Hv C1 C2. pose proof (steps_inv _ _ Hreach inv_empty) as Hinv.
  destruct (compare_and_set_Ok _ _ _ _ _ _ _ _ _ Hinv Hv C1) as (Q1&(x1&X1&S1&E1&T1&F1)&L1).
  assert (rtc db_step (tables w1) (tables w1')) as Hs1.
  { destruct L1 as (t0&Hs&[(Hst&_)|(->&_)]); [|done]. etrans; [done|by apply rtc_once]. }
  pose proof (steps_inv _ _ Hs1 Hinv) as Hinv1. pose proof (steps_inv _ _ Hlater Hinv1) as Hinv2.
  destruct (compare_and_set_Ok _ _ _ _ _ _ _ _ _ Hinv2 Hv C2) as (Q2&(x2&X2&S2&E2&T2&F2)&L2).
  assert (rtc db_step (tables w1') (tables w2')) as Hs2.
  { etrans; [done|]. destruct L2 as (t0&Hs&[(Hst&_)|(->&_)]); [|done]. etrans; [done|by apply rtc_once]. }
  destruct (steps_extends _ _ Hinv1 Hs2) as [Htr Hme].
  apply (lookup_weaken _ _ _ _ X1) in Htr. rewrite X2 in Htr. apply (inj Some) in Htr as ->.
  assert (n1 = n2) as <- by congruence. assert (e1 = e2) as <- by congruence.
  assert (Time.ns a1 = Time.ns a2) as Ha by congruence.
  assert (b1 = b2) as <- by (rewrite F1 in F2; by destruct b1, b2). split_and!; [done..|].
  destruct (linearized_entry _ _ _ _ _ _ _ _ _ L1) as (m1&M1&R1), (linearized_entry _ _ _ _ _ _ _ _ _ L2) as (m2&M2&R2).
  destruct (Hme _ _ M1) as (m2'&M2'&Hcol&_). rewrite M2 in M2'. apply (inj Some) in M2' as <-.
  assert (mr_Envelope r1 = mr_Envelope r2) as Henv by (rewrite R1, R2; cbn; by rewrite Hcol).
  destruct Q1 as (?&?&?&?&Hu1), Q2 as (?&?&?&?&Hu2). unfold Time.UTC in Hu1, Hu2.
  destruct r1, r2. cbn in *. congruence.
Qed.

(** C7: A compare-and-set with a time finer than a microsecond never succeeds, whatever the
    database did: the column cannot hold the time, so neither the answer nor a later read
    shows the time that was asked for, not even when the transition was committed. *)
Theorem compare_and_set_needs_microseconds id v next retryable evidence at_ w w' r :
  rtc db_step empty_tables (tables w) → 0 <= v → Time.ns at_ mod 1000 ≠ 0 →
  ¬ CompareAndSet q id v next retryable evidence at_ w = (w', Ok r).
Proof using All.
  intros Hreach Hv Hat Hc. pose proof (steps_inv _ _ Hreach inv_empty) as Hinv.
  destruct (compare_and_set_Ok _ _ _ _ _ _ _ _ _ Hinv Hv Hc) as ((_&_&_&_&Hu)&_&Hl).
  destruct (linearized_entry _ _ _ _ _ _ _ _ _ Hl) as (m&Hm&->). cbn in Hu.
  assert (rtc db_step (tables w) (tables w')) as Hs.
  { destruct Hl as (t0&Hs&[(Hst&_)|(->&_)]); [|done]. etrans; [done|by apply rtc_once]. }
  pose proof (entry_micro _ _ _ (inv_entry _ (steps_inv _ _ Hs Hinv) _ _ Hm)) as Hmicro.
  unfold Time.UTC in Hu. injection Hu as Hu. congruence.
Qed.
End Store.
