(* ===== verification/SqlEvidenceFacts.v ===== *)
(** What the durable store guarantees of the evidence it records, whatever the database
    answers: a success returns the evidence of the request, valid and complete. *)
From S2P Require Import Prelude GoStd CrossChainTypes Rlp MessageStore SqlStore SqlEvidence.
From S2P Require Gateway.

(** * Recording *)

Lemma recorded_Ok {W A} operation sent reload fresh replay (w w' : W) (r : A) :
  recorded operation sent reload fresh replay w = (w', Ok r) →
  (sent = Ok r ∧ fresh r = true) ∨ (reload w = (w', Ok r) ∧ replay r = true).
Proof.
  unfold recorded. destruct sent as [x|e].
  - intros Hr. left. apply pair_equal_spec in Hr as [_ Hr]. destruct (fresh x) eqn:Hf; [|done].
    by apply Ok_inj in Hr as <-.
  - destruct (reload w) as [w1 [x|]]; [|done]. intros Hr. right. apply pair_equal_spec in Hr as [-> Hr].
    destruct (replay x) eqn:Hf; [|done]. by apply Ok_inj in Hr as <-.
Qed.

Lemma loaded_Ok {A} operation (r : result sql_error A) a : loaded operation r = Ok a → r = Ok a.
Proof. unfold loaded. destruct r as [x|e]; [by intros <-%Ok_inj|]. by destruct (is_no_rows e). Qed.
Lemma loaded_text_Ok {A} operation (r : result sql_error A) a : loaded_text operation r = Ok a → r = Ok a.
Proof. unfold loaded_text. destruct r as [x|e]; [by intros <-%Ok_inj|]. by destruct (mentions _ _). Qed.

(** A scanned row is valid and in UTC. *)
Lemma scan_proof_Ok row r : scanSourceProof row = Ok r → proof_utc r = r.
Proof.
  destruct row as [x|]; [|done]. cbn. pass_if Hl. destruct (validSourceProof _); [|done]. by intros <-%Ok_inj.
Qed.
Lemma scan_certificate_Ok row r : scanFinalityCertificate row = Ok r → Time.UTC (fc_CertifiedAt r) = fc_CertifiedAt r.
Proof.
  destruct row as [x|]; [|done]. cbn. pass_if Hl. destruct (validFinalityCertificate _); [|done]. by intros <-%Ok_inj.
Qed.
Lemma scan_attempt_Ok row r : scanProviderAttempt row = Ok r → Time.UTC (pa_AttemptedAt r) = pa_AttemptedAt r.
Proof.
  destruct row as [x|]; [|done]. cbn -[zero32]. pass_if Hl. destruct (validProviderAttempt _); [|done]. by intros <-%Ok_inj.
Qed.
Lemma scan_observation_Ok row r : scanHeaderObservation row = Ok r → observation_utc r = r.
Proof.
  destruct row as [x|]; [|done]. cbn. pass_if Hl. destruct (validHeaderObservation _); [|done]. by intros <-%Ok_inj.
Qed.

Lemma UTC_same a b : Time.UTC a = a → Time.Equal a b = true → a = Time.UTC b.
Proof. destruct a as [n l], b as [n' l']. unfold Time.Equal, Time.UTC. cbn. by intros [= <-] ->%Z.eqb_eq. Qed.

Lemma same_proof r p : proof_utc r = r → sameSourceProof r p = true → r = proof_utc p.
Proof.
  unfold sameSourceProof. intros Hu Hs. apply andb_true_iff in Hs as [Hs Ht]. bool_facts.
  apply UTC_same in Ht; [|exact (f_equal sp_ObservedAt Hu)]. destruct r, p. cbn in *. unfold proof_utc. cbn. clear Hu. by subst.
Qed.

Section Evidence.
Context `{JsonStrings} {W : Type} (q : Queryer W).

Definition certificate_utc (c : FinalityCertificateRecord) : FinalityCertificateRecord :=
  mkCertificate (fc_CertificateID c) (fc_MessageID c) (fc_ProofID c) (fc_SignerSetHash c)
    (fc_SignerSetVersion c) (fc_SignerBitmap c) (fc_SignatureCount c) (fc_CertificateHash c)
    (Time.UTC (fc_CertifiedAt c)).
Definition attempt_utc (a : ProviderAttemptRecord) : ProviderAttemptRecord :=
  mkAttempt (pa_MessageID a) (pa_ProviderID a) (pa_AttemptNumber a) (pa_EnvelopeHash a)
    (pa_SourceProofHash a) (pa_Status a) (pa_ReceiptHash a) (Time.UTC (pa_AttemptedAt a)).

Lemma same_certificate r c :
  Time.UTC (fc_CertifiedAt r) = fc_CertifiedAt r → sameFinalityCertificate r c = true → r = certificate_utc c.
Proof.
  unfold sameFinalityCertificate. intros Hu Hs. apply andb_true_iff in Hs as [Hs Ht]. bool_facts.
  apply (UTC_same _ _ Hu) in Ht. destruct r, c. cbn in *. unfold certificate_utc. cbn. clear Hu. by subst.
Qed.
Lemma same_attempt r a :
  Time.UTC (pa_AttemptedAt r) = pa_AttemptedAt r → sameProviderAttempt r a = true → r = attempt_utc a.
Proof.
  unfold sameProviderAttempt. intros Hu Hs. apply andb_true_iff in Hs as [Hs Ht]. bool_facts.
  apply (UTC_same _ _ Hu) in Ht. destruct r, a. cbn in *. unfold attempt_utc. cbn. clear Hu. by subst.
Qed.

(** Evidence that the store says it recorded is the evidence of the request, with its time in
    UTC, and valid; whatever the database answers, also when the first answer was lost. *)
Theorem recorded_is_requested w w' :
  (∀ p r, RecordSourceProof q p w = (w', Ok r) → r = proof_utc p ∧ validSourceProof p = true) ∧
  (∀ c r, RecordFinalityCertificate q c w = (w', Ok r) →
     r = certificate_utc c ∧ validFinalityCertificate c = true) ∧
  (∀ a r, RecordProviderAttempt q a w = (w', Ok r) → r = attempt_utc a ∧ validProviderAttempt a = true).
Proof.
  split_and!.
  - intros p r. unfold RecordSourceProof. destruct (validSourceProof p); [cbn [negb]|done].
    destruct (record_source_proof q _ w) as [w1 row]. intros [(Hs&Hf)|(Hl&Hf)]%recorded_Ok; split; try done.
    + apply same_proof; [by eapply scan_proof_Ok|done].
    + apply same_proof; [|done]. revert Hl. unfold SourceProof. destruct (empty_s _); [done|].
      destruct (load_source_proof q _ w1) as [w2 row2]. intros Hl. apply pair_equal_spec in Hl as [_ Hl%loaded_text_Ok].
      by eapply scan_proof_Ok.
  - intros c r. unfold RecordFinalityCertificate. destruct (validFinalityCertificate c); [cbn [negb]|done].
    destruct (record_finality_certificate q _ w) as [w1 row]. intros [(Hs&Hf)|(Hl&Hf)]%recorded_Ok; split; try done.
    + apply same_certificate; [by eapply scan_certificate_Ok|done].
    + apply same_certificate; [|done]. revert Hl. unfold FinalityCertificate. destruct (empty_s _); [done|].
      destruct (load_finality_certificate q _ w1) as [w2 row2]. intros Hl.
      apply pair_equal_spec in Hl as [_ Hl%loaded_text_Ok]. by eapply scan_certificate_Ok.
  - intros a r. unfold RecordProviderAttempt. destruct (validProviderAttempt a); [cbn [negb]|done].
    destruct (record_provider_attempt q _ w) as [w1 row]. intros [(Hs&Hf)|(Hl&Hf)]%recorded_Ok; split; try done.
    + apply same_attempt; [by eapply scan_attempt_Ok|done].
    + apply same_attempt; [|done]. revert Hl. unfold ProviderAttempt. destruct (_ || _); [done|].
      destruct (load_provider_attempt q _ _ _ w1) as [w2 row2]. intros Hl.
      apply pair_equal_spec in Hl as [_ Hl%loaded_Ok]. by eapply scan_attempt_Ok.
Qed.
End Evidence.

(** * The ids of a reorganization *)

Lemma split_commas_plain s : has_char (Ascii.ascii_of_nat 44) s = false → split_commas s = [s].
Proof. induction s as [|c s IH]; [done|]. cbn. destruct (Ascii.eqb c _); [done|]. intros Hs. by rewrite IH. Qed.

Lemma split_commas_app s rest : has_char (Ascii.ascii_of_nat 44) s = false →
  split_commas (s +:+ String (Ascii.ascii_of_nat 44) rest) = s :: split_commas rest.
Proof.
  induction s as [|c s IH]; [done|]. change (String c s +:+ ?x) with (String c (s +:+ x)).
  cbn [split_commas has_char]. destruct (Ascii.eqb c _); [done|]. intros Hs. by rewrite IH.
Qed.

Lemma split_join parts :
  parts ≠ [] → Forall (λ p, has_char (Ascii.ascii_of_nat 44) p = false) parts → split_commas (join parts) = parts.
Proof.
  induction parts as [|p parts IH]; [done|]. intros _ [Hp Hps]%Forall_cons. destruct parts as [|p' parts].
  - by apply split_commas_plain.
  - change (join (p :: p' :: parts)) with (p +:+ String (Ascii.ascii_of_nat 44) (join (p' :: parts))).
    by rewrite split_commas_app, IH.
Qed.

Lemma hex_no_comma s : has_char (Ascii.ascii_of_nat 44) (hex s) = false.
Proof.
  induction s as [|c s IH]; [done|]. cbn [hex has_char]. rewrite IH, orb_false_r.
  by destruct c as [[] [] [] [] [] [] [] []].
Qed.

(** The ids the database prints are the ids the store reads: a comma-separated list of
    hexadecimal ids of 32 bytes is read back as the list of the ids. *)
Theorem affected_ids_roundtrip ids :
  ids ≠ [] → Forall (λ id, is32 id = true) ids → parseAffectedMessageIDs (join (hex <$> ids)) = Some ids.
Proof.
  intros Hne Hall. unfold parseAffectedMessageIDs.
  assert (join (hex <$> ids) ≠ ""%string) as Hj.
  { destruct ids as [|id ids]; [done|]. apply Forall_cons in Hall as [Hid _]. destruct id as [|c id]; [done|].
    destruct ids; done. }
  apply String.eqb_neq in Hj. rewrite Hj, split_join.
  - clear Hj Hne. induction Hall as [|id ids Hid _ IH]; [done|]. cbn. by rewrite Gateway.DecodeString_hex, Hid, IH.
  - by destruct ids.
  - apply Forall_fmap, Forall_true. intros id. apply hex_no_comma.
Qed.
