(* ===== verification/SqlSample.v ===== *)
(** Concrete runs of the durable store: a database that executes the procedures, behind a
    connection that drops requests and loses responses as a list of fates says. *)
From S2P Require Import Prelude GoStd CrossChainTypes Rlp MessageRegistry MessageStore SqlStore SqlEvidence SqlDatabase SqlHistory SqlStoreRuns.
From S2P Require Message.

(** * Parameters *)

#[local] Existing Instance Message.Sample.toy_keccak.

(** One sealed message, and an encoding of it alone. *)
Definition m1 : Envelope := Eval vm_compute in Message.Sample.sealed 1 200.

#[local] Instance one_marshal : Message.ProtoMarshal.
Proof.
  refine {| Message.Marshal e := if decide (e = m1) then Some "1"%string else None |}.
  intros e1 e2 bytes. repeat case_decide; congruence.
Defined.

#[local] Instance one_unmarshal : ProtoUnmarshal.
Proof.
  refine {| Unmarshal bytes := if bytes =s "1" then Some m1 else None |}.
  intros e bytes. unfold Message.Marshal, one_marshal. destruct (decide (e = m1)) as [->|_]; [|discriminate].
  intros Hb. apply (inj Some) in Hb as <-. reflexivity.
Defined.

Lemma toy_micro ns : ns / 1000 * 1000 mod 1000 = 0.
Proof. apply Z.mod_mul. done. Qed.
Lemma toy_exact ns : ns mod 1000 = 0 → ns / 1000 * 1000 = ns.
Proof. intros Hm. pose proof (Z.div_mod ns 1000). lia. Qed.
#[local] Instance toy_column : TimestampColumn :=
  {| stored ns := ns / 1000 * 1000; stored_micro := toy_micro; stored_exact := toy_exact |}.
#[local] Instance toy_payload : EventPayload := λ _ _ _ envelope state _, envelope +:+ state.
#[local] Instance toy_sha : Sha256 := λ _, Message.Sample.b32 77.

(** * A connection *)

Inductive fate := Deliver | Drop | Lose.
Definition world : Type := Tables * list fate.

Definition raised (text : string) : sql_error :=
  if text =s "sql: no rows in result set" then ErrNoRows else ErrDriver text.
Definition reset : sql_error := ErrDriver "connection reset".

Definition run {A} (proc : Tables → result string (Tables * A)) (w : world) : world * answer A :=
  let fates := tail w.2 in
  match default Deliver (head w.2) with
  | Drop => ((w.1, fates), NoRow reset)
  | Deliver =>
      match proc w.1 with
      | Ok (t, r) => ((t, fates), Row r)
      | Err text => ((w.1, fates), NoRow (raised text))
      end
  | Lose =>
      match proc w.1 with
      | Ok (t, _) => ((t, fates), NoRow reset)
      | Err _ => ((w.1, fates), NoRow reset)
      end
  end.

Definition none {A} (w : world) : world * answer A := (w, NoRow reset).

Definition connection : Queryer world :=
  mkQueryer world (λ a, run (db_record_message a)) (λ a, run (db_verify_envelope_route a))
    (λ a, run (db_transition_message a)) None (λ _ _ _ _ _, none) (λ _, none) (λ _, none) (λ _ _ _, none)
    (λ _, none) (λ _, none) (λ _, none) (λ _, none) (λ _, none) (λ _, none)
    (λ _ _ _ _ _ _ _ _ _, none) (λ _, none) (λ id, run (db_load_message id))
    (λ id, run (db_load_creation_transition id)) (λ _ _, none) (λ _ _, none) (λ _ _, none) (λ _, none)
    (λ _ _ _, none) none.

Lemma run_performs {A} (proc : Tables → result string (Tables * A)) w w' r :
  run proc w = (w', r) → performs proc w.1 w'.1 r.
Proof.
  unfold run. intros Hr. exists w.1. split; [done|]. revert Hr.
  destruct (default Deliver (head w.2)); [|by intros [= <- <-]; eauto|];
    (destruct (proc w.1) as [[t x]|text] eqn:Hp; intros [= <- <-]; [right; exists x; eauto|left; eauto]).
Qed.

Lemma connection_follows : Follows connection fst.
Proof. split; intros *; apply run_performs. Qed.

(** * Runs *)

Definition route : route_row :=
  mkRouteRow "mint" 1 "1" 1 (Message.Sample.b20 2) (Message.Sample.b20 3) "10" 1 (Message.Sample.b20 4)
    (Message.Sample.b20 5) "family" (Message.Sample.b32 9) (Message.Sample.b32 10) (Message.Sample.b32 11)
    (Message.Sample.b32 20) 1 (Message.Sample.b32 21) 1 (Message.Sample.b32 8) "1" "ACTIVE".
Definition start : Tables := mkTables ∅ ∅ ∅ [route] no_facts.

Lemma tables_reachable : rtc db_step empty_tables start.
Proof. apply rtc_once. exact (step_other empty_tables [route] no_facts). Qed.

(** A second, and a nanosecond more. *)
Definition second (n : Z) : Time.t := Time.mk ((n + unixToInternal) * 1000000000) "".
Definition finer (n : Z) : Time.t := Time.mk ((n + unixToInternal) * 1000000000 + 1) "".

Definition request : MessageRecord := mkMessageRecord (MessageId m1) "1" created 1 zero32 (second 110).
Definition evidence : string := Message.Sample.b32 40.

(** The creation: the response of the procedure is lost, and the message is read again. *)
Definition w0 : world := (start, [Deliver; Lose]).
Definition w1 : world := Eval vm_compute in (CreateMessage connection request w0).1.
Definition r1 : MessageRecord := with_evidence (PayloadHash m1) request.
Lemma create_run : CreateMessage connection request w0 = (w1, Ok r1).
Proof. vm_compute. reflexivity. Qed.

(** The first move, with a lost response, and the same request once more. *)
Abbreviation move at_ w :=
  (CompareAndSet connection (MessageId m1) 1 sourceFinalizing false evidence at_ w) (only parsing).
Definition with_fates (fates : list fate) (w : world) : world := (w.1, fates).
Definition w1' : world := with_fates [Deliver; Lose] w1.
Definition w2 : world := Eval vm_compute in (move (second 120) w1').1.
Definition r2 : MessageRecord := mkMessageRecord (MessageId m1) "1" sourceFinalizing 2 evidence (second 120).
Lemma move_run : move (second 120) w1' = (w2, Ok r2).
Proof. vm_compute. reflexivity. Qed.
Lemma move_again : move (second 120) w2 = (w2, Ok r2).
Proof. vm_compute. reflexivity. Qed.

(** A nanosecond: the database makes the move, the store reports a failure, and so it does
    when the request is repeated. *)
Definition w1n : world := with_fates [] w1.
Definition w3 : world := Eval vm_compute in (move (finer 120) w1n).1.
Lemma finer_commits : me_version <$> t_messages (fst w3) !! MessageId m1 = Some 2.
Proof. vm_compute. reflexivity. Qed.
Lemma finer_fails : move (finer 120) w1n = (w3, Err ErrInvalidSQLRepository).
Proof. vm_compute. reflexivity. Qed.
Lemma finer_fails_again : move (finer 120) w3 = (w3, Err Conflict).
Proof. vm_compute. reflexivity. Qed.
Lemma finer_is_finer : Time.ns (finer 120) mod 1000 ≠ 0.
Proof. vm_compute. discriminate. Qed.

(** The steps of the creation, whatever its world is. *)
Lemma creation_reaches w w' r :
  rtc db_step empty_tables (fst w) → CreateMessage connection request w = (w', Ok r) →
  rtc db_step empty_tables (fst w').
Proof.
  intros Hr Hc. etrans; [exact Hr|].
  exact (proj1 (create_message_Ok connection fst connection_follows _ _ _ _ (steps_inv _ _ Hr inv_empty) Hc)).
Qed.
Lemma with_fates_reaches fates w : rtc db_step empty_tables (fst w) → rtc db_step empty_tables (fst (with_fates fates w)).
Proof. intros Hr. exact Hr. Qed.
Lemma w1_reachable : rtc db_step empty_tables (fst w1).
Proof. exact (creation_reaches w0 w1 r1 tables_reachable create_run). Qed.
Lemma w1'_reachable : rtc db_step empty_tables (fst w1').
Proof. exact (with_fates_reaches _ w1 w1_reachable). Qed.
Lemma w1n_reachable : rtc db_step empty_tables (fst w1n).
Proof. exact (with_fates_reaches _ w1 w1_reachable). Qed.

Lemma created_entry : t_messages (fst w1) !! MessageId m1 = Some (first_entry (record_message_args request m1)).
Proof. vm_compute. reflexivity. Qed.
Lemma request_valid : validateMessageCreation request = Ok m1.
Proof. vm_compute. reflexivity. Qed.
Lemma w1_declares : declares_hash (fst w1) (MessageId m1).
Proof. exact (store_declares (fst w1) request m1 request_valid created_entry). Qed.

Lemma store_linearizable_witness :
  CreateMessage connection request w0 = (w1, Ok r1) ∧ created_at (fst w0) (fst w1) request r1 ∧
  move (second 120) w1' = (w2, Ok r2) ∧
  linearized (fst w1') (fst w2) (MessageId m1) 1 sourceFinalizing false evidence (second 120) r2.
Proof.
  destruct (store_linearizable connection fst connection_follows w0 tables_reachable) as [Hc _].
  destruct (store_linearizable connection fst connection_follows w1' w1'_reachable) as (_&Hm&_).
  specialize (Hm (MessageId m1) 1 sourceFinalizing false evidence (second 120) w2 r2 Z.le_0_1 move_run).
  destruct Hm as [_ Hm]. split; [exact create_run|]. split; [exact (proj2 (Hc request w1 r1 create_run) w1_declares)|].
  split; [exact move_run|exact Hm].
Defined.

Lemma version_taken_once_witness :
  move (second 120) w1' = (w2, Ok r2) ∧ move (second 120) w2 = (w2, Ok r2) ∧ r2 = r2.
Proof.
  pose proof (version_taken_once connection fst connection_follows (MessageId m1) 1 sourceFinalizing sourceFinalizing
    false false evidence evidence (second 120) (second 120) w1' w2 w2 w2 r2 r2 w1'_reachable (rtc_refl _ _)
    Z.le_0_1 move_run move_again) as (_&_&_&_&Hr).
  split; [exact move_run|]. split; [exact move_again|exact Hr].
Defined.

Lemma needs_microseconds_witness :
  me_version <$> t_messages (fst w3) !! MessageId m1 = Some 2 ∧
  move (finer 120) w1n = (w3, Err ErrInvalidSQLRepository) ∧
  move (finer 120) w3 = (w3, Err Conflict) ∧ ¬ move (finer 120) w1n = (w3, Ok r2).
Proof.
  pose proof (compare_and_set_needs_microseconds connection fst connection_follows (MessageId m1) 1 sourceFinalizing
    false evidence (finer 120) w1n w3 r2 w1n_reachable Z.le_0_1 finer_is_finer) as Hn.
  split; [exact finer_commits|]. split; [exact finer_fails|]. split; [exact finer_fails_again|exact Hn].
Defined.

Lemma message_history_witness :
  ∃ m, t_messages (fst w1) !! MessageId m1 = Some m ∧
    ∀ v, is_Some (t_outbox (fst w1) !! (MessageId m1, v)) ↔ 1 <= v <= me_version m.
Proof.
  exists (first_entry (record_message_args request m1)). split; [exact created_entry|].
  pose proof (message_history _ _ _ w1_reachable created_entry) as (_&Ho&_). exact Ho.
Defined.
