(* ===== verification/WorkerDatabase.v ===== *)
(** The importer of the local worker on the database of the message store: its statements on
    messages are calls of [record_message] and [transition_message]
    ([SqlDatabase.db_record_message], [SqlDatabase.db_transition_message]), and an import that
    returns normally leaves the whole life of its message in the tables. *)
From S2P Require Import Prelude GoStd CrossChainTypes Rlp Worker WorkerActions WorkerFlow WorkerImport WorkerEvidence WorkerRun.
From S2P Require Message Gateway Recovery WorkerSample SqlStore SqlSample.
From S2P Require Import SqlDatabase SqlHistory.

(** * Statements as calls of the procedures *)

(** The positional arguments of the two statements ([importMessageSQL], [importTransitionSQL]). *)
Definition message_arguments (values : list sql_value) : option SqlStore.message_args :=
  match values with
  | [VBytes id; VInt schema; VBytes protocol; VText sourceChain; VBytes sourceCoordinator;
     VBytes sourceComponent; VText destinationChain; VBytes destinationCoordinator;
     VBytes destinationComponent; VBytes lane; VText nonce; VBytes aggregate; VInt action;
     VBytes payloadHash; VTime createdAt; VTime expiresAt; VBytes routePolicy; VBytes adapterPolicy;
     VBytes sourcePolicy; VBytes destinationPolicy; VBytes correlation; VBytes causation;
     VBytes superseded; VBytes envelope; VTime updatedAt] =>
      Some (SqlStore.mkMessageArgs id schema protocol sourceChain sourceCoordinator sourceComponent
        destinationChain destinationCoordinator destinationComponent lane nonce aggregate action
        payloadHash createdAt expiresAt routePolicy adapterPolicy sourcePolicy destinationPolicy
        correlation causation superseded envelope updatedAt)
  | _ => None
  end.
Definition failure_argument (value : sql_value) : option (option string) :=
  match value with VNull => Some None | VText class => Some (Some class) | _ => None end.
Definition transition_arguments (values : list sql_value) : option SqlStore.transition_args :=
  match values with
  | [VBytes id; VInt version; VText from; VText to; failure; VBytes evidence; VTime occurredAt] =>
      (λ class, SqlStore.mkTransitionArgs id version from to class evidence occurredAt)
        <$> failure_argument failure
  | _ => None
  end.

(** A database that executes the statements on messages as the procedures do, among other
    clients of the same tables; every other statement leaves messages and transitions to the
    procedures. *)
Record Executes `{TimestampColumn, EventPayload, Sha256} {W} (db : Database W)
    (tables : W → Tables) : Prop := {
  executes_message : ∀ connection values a w w',
    message_arguments values = Some a →
    db_exec db connection ("record_message"%string, values) w = (w', true) →
    ∃ t0 row, rtc db_step (tables w) t0 ∧ db_record_message a t0 = Ok (tables w', row);
  executes_transition : ∀ connection values a w w',
    transition_arguments values = Some a →
    db_exec db connection ("transition_message"%string, values) w = (w', true) →
    ∃ t0 row, rtc db_step (tables w) t0 ∧ db_transition_message a t0 = Ok (tables w', row);
  executes_steps : ∀ connection s w w' ok,
    db_exec db connection s w = (w', ok) → rtc db_step (tables w) (tables w') }.

(** The states a message passes through in its life, from version 1. *)
Definition import_states : list string :=
  ["CREATED"; "SOURCE_FINALIZING"; "SOURCE_FINAL"; "SENT"; "RELAYED"; "VERIFIED"; "EXECUTED";
   "ACK_PENDING"; "ACKNOWLEDGED"]%string.

(** * Arguments *)

Lemma arguments_cons value rest vs :
  arguments (value :: rest) = Ret vs → ∃ v ws, value = Ret v ∧ arguments rest = Ret ws ∧ vs = v :: ws.
Proof. cbn [arguments]. run_step v Hv. run_step ws Hws. intros <-%Ret_inj. by exists v, ws. Qed.

Lemma call_Ret procedure values s :
  call procedure values = Ret s → ∃ vs, arguments values = Ret vs ∧ s = (procedure, vs).
Proof. unfold call. run_step vs Hvs. intros <-%Ret_inj. by exists vs. Qed.

Lemma bytes_value_Ret value n z v :
  bytes_value value n z = Ret v → ∃ b, v = VBytes b ∧ value = Gateway.hex32 b.
Proof.
  unfold bytes_value. run_step b Hb. intros <-%Ret_inj. apply must_Ret in Hb. exists b. split; [done|].
  destruct n as [n|]; [by apply importHex_Ret in Hb as [Hb _]|by apply importHex_any in Hb as [Hb _]].
Qed.
Lemma hex_value_Ret n value v : hex_value n value = Ret v → ∃ b, v = VBytes b ∧ value = Gateway.hex32 b.
Proof. apply bytes_value_Ret. Qed.
Lemma unix_value_Ret value v : unix_value value = Ret v → ∃ t, v = VTime t.
Proof. unfold unix_value. run_step t Ht. intros <-%Ret_inj. by exists t. Qed.
Lemma time_value_Ret value v :
  time_value value = Ret v → ∃ t, v = VTime t ∧ mustImportTime value = Ret t.
Proof. unfold time_value. run_step t Ht. intros <-%Ret_inj. by exists t. Qed.

Ltac split_arguments Ha :=
  repeat (let v := fresh "v" in let vs := fresh "vs" in let Hv := fresh "Hv" in
    apply arguments_cons in Ha as (v&vs&Hv&Ha&->);
    first [ apply hex_value_Ret in Hv as (?&->&?) | apply bytes_value_Ret in Hv as (?&->&?)
          | apply unix_value_Ret in Hv as (?&->) | apply time_value_Ret in Hv as (?&->&?)
          | apply Ret_inj in Hv as <- ]);
  cbn [arguments] in Ha; apply Ret_inj in Ha as <-.

Lemma record_message_call messageID input s :
  record_message messageID input = Ret s →
  ∃ values a, s = ("record_message"%string, values) ∧ message_arguments values = Some a ∧
    SqlStore.ma_message_id a = messageID ∧
    si_SerializedEnvelope input = Gateway.hex32 (SqlStore.ma_serialized_envelope a).
Proof.
  unfold record_message. cbn zeta. intros (vs&Ha&->)%call_Ret. split_arguments Ha.
  do 2 eexists. split_and!; [reflexivity|reflexivity|reflexivity|]. assumption.
Qed.

Lemma transition_message_call messageID transition s :
  transition_message messageID transition = Ret s →
  ∃ values evidence occurredAt, s = ("transition_message"%string, values) ∧
    it_EvidenceHash transition = Gateway.hex32 evidence ∧
    mustImportTime (it_OccurredAt transition) = Ret occurredAt ∧
    transition_arguments values = Some (SqlStore.mkTransitionArgs messageID
      (Time.i64 (it_ExpectedVersion transition)) (it_ExpectedState transition)
      (it_NextState transition) (it_FailureClass transition) evidence occurredAt).
Proof.
  unfold transition_message. intros (vs&Ha&->)%call_Ret. split_arguments Ha.
  do 3 eexists. split_and!; [reflexivity|eassumption|eassumption|]. by destruct (it_FailureClass transition).
Qed.

(** * What an import leaves *)

Section Runs.
Context `{Keccak, Recovery.Secp256k1, WorkerJson, TimestampColumn, EventPayload, Sha256}.
Context {W : Type} (db : Database W) (tables : W → Tables) (Hdb : Executes db tables).

(** A run moves the tables by the steps of the database. *)
Definition keeps (f : W → W * outcome ()) : Prop :=
  ∀ w, rtc db_step (tables w) (tables (f w).1).

Lemma keeps_exec connection query : keeps (exec_as db connection query).
Proof using All.
  intros w. unfold exec_as. destruct query as [s| |]; [|done..].
  destruct (db_exec db connection s w) as [w' ok] eqn:He. by apply (executes_steps _ _ Hdb) in He.
Qed.

Lemma keeps_then f g : keeps f → keeps g → keeps (and_then f g).
Proof.
  intros Hf Hg w. unfold and_then. specialize (Hf w). destruct (f w) as [w1 [[]| |]]; [|done..].
  by etrans.
Qed.

Lemma keeps_lift {A} (c : outcome A) (k : A → W → W * outcome ()) : (∀ a, keeps (k a)) → keeps (lift c k).
Proof. intros Hk w. destruct c as [a| |]; [apply Hk|done..]. Qed.

Lemma keeps_in_turn fs : Forall keeps fs → keeps (in_turn fs).
Proof. induction 1 as [|f fs Hf _ IH]; [by intros w|]. by apply keeps_then. Qed.

Lemma keeps_commit messageID action : keeps (commitPhase8Action db messageID action).
Proof using All.
  intros w. unfold commitPhase8Action. destruct (negb _); [done|].
  destruct (db_projectionHash db messageID w) as [hash|]; [|done]. revert w.
  apply keeps_lift. intros tx. apply keeps_lift. intros time.
  repeat (match goal with |- context [if ae_Action action =? ?n then _ else _] => destruct (ae_Action action =? n) end;
    [first [apply keeps_exec | (do 4 (apply keeps_lift; intros ?); repeat apply keeps_then; apply keeps_exec)]|]).
  by intros w.
Qed.

(** A fact of the tables that the steps of the database keep. *)
Definition stable (P : Tables → Prop) : Prop := ∀ t t', db_inv t → rtc db_step t t' → P t → P t'.

(** A run that returns normally establishes [P]. *)
Definition leaves (f : W → W * outcome ()) (P : Tables → Prop) : Prop :=
  ∀ w w', db_inv (tables w) → f w = (w', Ret ()) → P (tables w').

Lemma keeps_inv f w w' r : keeps f → db_inv (tables w) → f w = (w', r) → db_inv (tables w').
Proof. intros Hf Hi He. apply (steps_inv _ _ (Hf w)) in Hi. by rewrite He in Hi. Qed.

Lemma leaves_first f g P : keeps f → keeps g → stable P → leaves f P → leaves (and_then f g) P.
Proof.
  intros Hf Hg Hs Hl w w' Hi (w1&E1&E2)%and_then_Ret. pose proof (keeps_inv _ _ _ _ Hf Hi E1) as Hi1.
  apply (Hs (tables w1)); [done| |by apply (Hl w)]. specialize (Hg w1). by rewrite E2 in Hg.
Qed.

Lemma leaves_second f g P : keeps f → leaves g P → leaves (and_then f g) P.
Proof.
  intros Hf Hl w w' Hi (w1&E1&E2)%and_then_Ret. apply (Hl w1); [by eapply keeps_inv|done].
Qed.

Lemma leaves_in_turn fs f P : Forall keeps fs → f ∈ fs → stable P → leaves f P → leaves (in_turn fs) P.
Proof.
  intros Hk Hin Hs Hl. induction Hk as [|g fs Hg Hfs IH]; [by apply not_elem_of_nil in Hin|].
  apply elem_of_cons in Hin as [<-|Hin].
  - apply leaves_first; [done| |done|done]. by apply keeps_in_turn.
  - apply leaves_second; [done|by apply IH].
Qed.

Lemma exec_Ret connection query w w' :
  exec_as db connection query w = (w', Ret ()) →
  ∃ s, query = Ret s ∧ db_exec db connection s w = (w', true).
Proof.
  unfold exec_as. destruct query as [s| |]; [|done..].
  destruct (db_exec db connection s w) as [w1 [|]] eqn:He; [|done]. intros [= <-]. by exists s.
Qed.

(** ** The message *)

Definition holds_message (messageID : string) (input : phase8SQLImport) (t : Tables) : Prop :=
  ∃ m, t_messages t !! messageID = Some m ∧
    si_SerializedEnvelope input = Gateway.hex32 (SqlStore.ma_serialized_envelope (me_columns m)).

Lemma holds_message_stable messageID input : stable (holds_message messageID input).
Proof.
  intros t t' Hi Hs (m&Hm&He). destruct (steps_extends _ _ Hi Hs) as [_ Hme].
  destruct (Hme _ _ Hm) as (m'&Hm'&Hc&_). exists m'. by rewrite Hc.
Qed.

Lemma record_leaves messageID input :
  leaves (exec_as db runtime_role (record_message messageID input)) (holds_message messageID input).
Proof using All.
  intros w w' Hi (s&Hs&He)%exec_Ret. apply record_message_call in Hs as (values&a&->&Ha&<-&Henv).
  destruct (executes_message _ _ Hdb _ _ _ _ _ Ha He) as (t0&row&Hs0&Hp).
  apply record_cases in Hp; [|exact (steps_inv _ _ Hs0 Hi)]. unfold holds_message. rewrite Henv.
  inversion Hp as [m Hm Hse Ht Hx|Hadv Hn Ht Hx].
  - exists m. rewrite Hse. by split.
  - exists (first_entry a). split; [apply lookup_insert_eq|done].
Qed.

(** ** The transitions *)

(** A transition of the import, recorded as the worker asked for it. *)
Definition holds_transition (messageID : string) (transition : phase8ImportTransition) (t : Tables) : Prop :=
  ∃ tr occurredAt,
    t_transitions t !! (messageID, Time.i64 (it_ExpectedVersion transition) + 1) = Some tr ∧
    tr_from tr = it_ExpectedState transition ∧ tr_to tr = it_NextState transition ∧
    tr_failure_class tr = it_FailureClass transition ∧
    it_EvidenceHash transition = Gateway.hex32 (tr_evidence tr) ∧
    mustImportTime (it_OccurredAt transition) = Ret occurredAt ∧
    Time.ns (tr_occurred_at tr) = stored (Time.ns occurredAt).

Lemma holds_transition_stable messageID transition : stable (holds_transition messageID transition).
Proof.
  intros t t' Hi Hs (tr&at_&Htr&Hrest). destruct (steps_extends _ _ Hi Hs) as [Hsub _].
  exists tr, at_. split; [|done]. by apply (lookup_weaken _ _ _ _ Htr).
Qed.

Lemma transition_leaves messageID transition :
  leaves (exec_as db runtime_role (transition_message messageID transition))
    (holds_transition messageID transition).
Proof using All.
  intros w w' Hi (s&Hs&He)%exec_Ret.
  apply transition_message_call in Hs as (values&evidence&at_&->&Hev&Hat&Ha).
  destruct (executes_transition _ _ Hdb _ _ _ _ _ Ha He) as (t0&row&Hs0&Hp).
  apply db_transition_cases in Hp; [|exact (steps_inv _ _ Hs0 Hi)].
  inversion Hp as [existing m Hx Hrep Hm Ht Hr|m0 Hm Hv Hst Hbe Hadv Ht Hr]; cbn in *.
  - exists existing, at_. unfold replay_differs in Hrep. cbn in Hrep.
    apply orb_false_iff in Hrep as [Hrep Hoc%negb_false_iff%Z.eqb_eq]. bool_facts.
    split_and!; try done; congruence.
  - exists (next_transition (SqlStore.mkTransitionArgs messageID (Time.i64 (it_ExpectedVersion transition))
      (it_ExpectedState transition) (it_NextState transition) (it_FailureClass transition) evidence at_)), at_.
    cbn. rewrite lookup_insert_eq. by split_and!.
Qed.

Lemma keeps_before messageID input transition : keeps (before_transition db messageID input transition).
Proof using All.
  unfold before_transition. destruct (_ =s _); [apply keeps_exec|]. destruct (_ =s _); [apply keeps_exec|].
  by intros w.
Qed.

Lemma records_keep messageID input :
  Forall keeps
    ([exec_as db runtime_role (record_message messageID input);
      importProofAndCertificate db messageID (si_SourceProof input) (si_SourceCertificate input);
      importProofAndCertificate db messageID (si_DestinationProof input) (si_DestinationCertificate input)] ++
     ((λ attempt, exec_as db runtime_role (record_provider_attempt messageID attempt))
        <$> si_ProviderAttempts input) ++
     (import_transition db messageID input <$> si_Transitions input) ++
     [exec_as db observer_role (record_action_projection messageID (si_ActionProjection input))]).
Proof using All.
  assert (∀ proof certificate, keeps (importProofAndCertificate db messageID proof certificate)) as Hp
    by (intros; apply keeps_then; apply keeps_exec).
  rewrite !Forall_app, !Forall_cons, !Forall_nil, !Forall_fmap. split_and!; try done; try apply keeps_exec.
  - apply Forall_true. intros attempt. apply keeps_exec.
  - apply Forall_true. intros transition. apply keeps_then; [apply keeps_before|apply keeps_exec].
Qed.

Lemma records_leave_message messageID input :
  leaves (import_records db messageID input) (holds_message messageID input).
Proof using All.
  eapply leaves_in_turn; [apply records_keep|apply list_elem_of_here|apply holds_message_stable|apply record_leaves].
Qed.

Lemma records_leave_transition messageID input transition :
  transition ∈ si_Transitions input →
  leaves (import_records db messageID input) (holds_transition messageID transition).
Proof using All.
  intros Hin. eapply (leaves_in_turn _ (import_transition db messageID input transition));
    [apply records_keep| |apply holds_transition_stable|].
  - rewrite !elem_of_app. right. right. left. by apply list_elem_of_fmap_2.
  - apply leaves_second; [apply keeps_before|apply transition_leaves].
Qed.

(** The states of the transitions, by their versions. *)
Lemma canonical_states sourceProof sourceCertificate destinationProof resultHash i state :
  import_states !! S i = Some state →
  ∃ transition,
    phase8CanonicalTransitions sourceProof sourceCertificate destinationProof resultHash !! i = Some transition ∧
    Time.i64 (it_ExpectedVersion transition) + 1 = Z.of_nat i + 2 ∧ it_NextState transition = state.
Proof.
  do 8 (destruct i as [|i]; [intros [= <-]; eexists; split; [reflexivity|by split]|]). by destruct i.
Qed.

(** C24: An import that returns normally leaves the life of its message in the database. The
    database executes the two statements on messages as its procedures do ([Executes]), on
    tables that any clients of the procedures have filled and go on to move: the message with the bytes the
    worker derived, at version 9 or later, with the nine states from created to acknowledged
    as its first nine versions, and every transition the worker derived as it was asked for,
    with its failure class, its evidence and its time. *)
Theorem import_leaves_history message manifest economics w w' :
  rtc db_step empty_tables (tables w) →
  importPhase8Message db message manifest economics w = (w', Ret ()) →
  ∃ messageID input m,
    ie_MessageID (im_Envelope message) = Gateway.hex32 messageID ∧
    derivePhase8SQLImport message manifest economics = Ret input ∧
    t_messages (tables w') !! messageID = Some m ∧
    si_SerializedEnvelope input = Gateway.hex32 (SqlStore.ma_serialized_envelope (me_columns m)) ∧
    9 <= me_version m ∧
    (∀ i state, import_states !! i = Some state → ∃ tr,
       t_transitions (tables w') !! (messageID, Z.of_nat i + 1) = Some tr ∧ tr_to tr = state) ∧
    (∀ transition, transition ∈ si_Transitions input → holds_transition messageID transition (tables w')).
Proof using All.
  intros Hreach. pose proof (steps_inv _ _ Hreach inv_empty) as Hi. unfold importPhase8Message.
  intros (messageID&Hid&(input&Hin&Hrun)%lift_Ret)%lift_Ret. apply must_Ret, importHex_Ret in Hid as (Hid&_).
  assert (keeps (import_records db messageID input)) as Hk by (apply keeps_in_turn, records_keep).
  pose proof (keeps_inv _ _ _ _ (keeps_then _ _ Hk (keeps_commit _ _)) Hi Hrun) as Hi'.
  assert (holds_message messageID input (tables w')) as (m&Hm&He).
  { refine (leaves_first _ _ _ Hk (keeps_commit _ _) (holds_message_stable _ _) (records_leave_message _ _) w w' Hi Hrun). }
  assert (∀ transition, transition ∈ si_Transitions input → holds_transition messageID transition (tables w')) as Htr.
  { intros transition Ht. refine (leaves_first _ _ _ Hk (keeps_commit _ _) (holds_transition_stable _ _)
      (records_leave_transition _ _ _ Ht) w w' Hi Hrun). }
  destruct (derive_transitions _ _ _ _ Hin) as (sp&sc&dp&rh&Hts).
  assert (∀ i state, import_states !! i = Some state → ∃ tr,
    t_transitions (tables w') !! (messageID, Z.of_nat i + 1) = Some tr ∧ tr_to tr = state) as Hstates.
  { intros [|i] state Hst.
    - injection Hst as <-. exists (first_transition (me_columns m)). split; [|done].
      exact (entry_first _ _ _ (inv_entry _ Hi' _ _ Hm)).
    - destruct (canonical_states sp sc dp rh i state Hst) as (transition&Ht&Hv&Hn).
      rewrite <- Hts in Ht. apply list_elem_of_lookup_2 in Ht.
      destruct (Htr _ Ht) as (tr&at_&Hl&_&Hto&_). exists tr. split; [|congruence].
      rewrite Hv in Hl. by replace (Z.of_nat (S i) + 1) with (Z.of_nat i + 2) by lia. }
  exists messageID, input, m. split_and!; try done.
  destruct (Hstates 8%nat _ eq_refl) as (tr&Hl&_).
  destruct (inv_keys _ Hi' _ _ _ Hl) as (m'&Hm'&Hle). rewrite Hm in Hm'. injection Hm' as <-. lia.
Qed.
End Runs.

(** * An import on concrete tables *)

Module Sample.
Import Message.Sample Recovery.Sample WorkerSample.

#[local] Existing Instance SqlSample.toy_column.
#[local] Existing Instance SqlSample.toy_payload.
#[local] Existing Instance SqlSample.toy_sha.

(** A database with one client, which has the evidence the transitions ask for. *)
Definition answered {A} (t : Tables) (r : result string (Tables * A)) : Tables * bool :=
  match r with Ok (t', _) => (t', true) | Err _ => (t, false) end.
Definition run_statement (s : statement) (t : Tables) : Tables * bool :=
  if s.1 =s "record_message" then
    match message_arguments s.2 with Some a => answered t (db_record_message a t) | None => (t, false) end
  else if s.1 =s "transition_message" then
    match transition_arguments s.2 with Some a => answered t (db_transition_message a t) | None => (t, false) end
  else (t, true).
Definition tables_database : Database Tables :=
  mkDatabase _ (λ _, Some "unified_local"%string) (λ _ _, Some (b32 100)) (λ _, run_statement).

Lemma answered_true {A} t (r : result string (Tables * A)) t' :
  answered t r = (t', true) → ∃ row, r = Ok (t', row).
Proof. destruct r as [[t1 row]|]; cbn; [|done]. intros [= <-]. by exists row. Qed.
Lemma answered_steps {A} t (r : result string (Tables * A)) t' ok :
  (∀ t1 row, r = Ok (t1, row) → db_step t t1) → answered t r = (t', ok) → rtc db_step t t'.
Proof.
  intros Hs. destruct r as [[t1 row]|]; cbn; intros [= <- _]; [|done]. apply rtc_once. by eapply Hs.
Qed.

Lemma tables_execute : Executes tables_database id.
Proof.
  split.
  - intros connection values a w w' Ha. cbn. unfold run_statement. cbn [fst snd String.eqb]. rewrite Ha.
    intros (row&Hr)%answered_true. exists w, row. by split.
  - intros connection values a w w' Ha. cbn. unfold run_statement. cbn [fst snd String.eqb]. rewrite Ha.
    intros (row&Hr)%answered_true. exists w, row. by split.
  - intros connection [procedure values] w w' ok. cbn. unfold run_statement. cbn [fst snd].
    destruct (procedure =s "record_message").
    { destruct (message_arguments values) as [a|]; [|by intros [= <- _]].
      apply answered_steps. intros t1 row. apply step_record. }
    destruct (procedure =s "transition_message"); [|by intros [= <- _]].
    destruct (transition_arguments values) as [a|]; [|by intros [= <- _]].
    apply answered_steps. intros t1 row. apply step_transition.
Qed.

Definition route_row0 : SqlStore.route_row :=
  SqlStore.mkRouteRow "mint" 1 "1" 1 (b20 301) (b20 302) "10" 1 (b20 303) (b20 304) "family" (b32 9) (b32 10)
    (b32 11) (b32 20) 1 (b32 21) 1 (b32 8) "1" "ACTIVE".
Definition tables0 : Tables := mkTables ∅ ∅ ∅ [route_row0] (λ _ _ _, true).
Lemma tables0_reachable : rtc db_step empty_tables (id tables0).
Proof. apply rtc_once. exact (step_other empty_tables [route_row0] (λ _ _ _, true)). Qed.

Definition imported0 : Tables * outcome () :=
  importPhase8Message tables_database message0 manifest0 economics0 tables0.
Lemma imported0_snd :
  (importPhase8Message tables_database message0 manifest0 economics0 tables0).2 = Ret ().
Proof. vm_compute. reflexivity. Qed.
Lemma imported0_Ret :
  importPhase8Message tables_database message0 manifest0 economics0 tables0 = (imported0.1, Ret ()).
Proof. exact (pair_snd _ _ imported0_snd). Qed.

Lemma import_leaves_history_witness :
  importPhase8Message tables_database message0 manifest0 economics0 tables0 = (imported0.1, Ret ()) ∧
  ∃ messageID m, ie_MessageID (im_Envelope message0) = Gateway.hex32 messageID ∧
    t_messages (id imported0.1) !! messageID = Some m ∧ 9 <= me_version m.
Proof.
  split; [exact imported0_Ret|].
  destruct (import_leaves_history tables_database id tables_execute message0 manifest0 economics0 tables0
    imported0.1 tables0_reachable imported0_Ret) as (messageID&_&m&Hid&_&Hm&_&Hv&_).
  exists messageID, m. exact (conj Hid (conj Hm Hv)).
Defined.
End Sample.
